(* ===== verification/_CoqProject ===== *)
-Q . S2P
Prelude.v
ArithUint256.v
Compact.v
Params.v
RandomX.v
Chain.v
ActiveChain.v
ChainWork.v
Pow.v
VersionBits.v
VersionBitsProofs.v
Merkle.v
MerkleBlock.v
Streams.v
Serialize.v
Compressor.v
Transaction.v
Coins.v
CoinsProofs.v
CoinsRefinement.v
TxCheck.v
Locks.v
Blocks.v
BlockRules.v
Connect.v
ConnectBlock.v
Replay.v
ChainState.v
ChainSelection.v
ChainSelectionProofs.v
ChainSteps.v
ChainActivation.v
ActivationProofs.v
InvalidateProofs.v
LinkProofs.v
CoinsDB.v
Recovery.v
RecoveryProofs.v
DBWrapper.v
CrashRecovery.v
Acceptance.v
HeaderProofs.v
BlockAcceptance.v
HeadersSync.v
HeadersSyncRun.v
SipHash.v
Orphanage.v
OrphanageRefinement.v
TxRequest.v
TxRequestProofs.v
TxRequestOps.v
TxRequestRefinement.v
AddrMan.v
AddrManProofs.v
AddrManOps.v
AddrManRuns.v
HashWriter.v
Sha256.v
Sha256Proofs.v
Sha512.v
Sha1.v
Ripemd160.v
Hashing.v
Transport.v
V1Transport.v
NetNode.v
V1Channel.v
MerkleSha.v
ChaCha20.v
Poly1305.v
Poly1305Proofs.v
Aead.v
AeadProofs.v
Bip324.v
Bip324Proofs.v
V2Transport.v
V2Session.v
V2Connection.v
V2Receive.v
