(* ===== verification/Prelude.v ===== *)
(** * KPCoin: a verification development

    KPCoin is a proof-of-work currency in C++: a Bitcoin node whose proof of
    work is RandomX, whose blocks are 90 seconds apart and whose subsidy starts
    at 500 coins.  This library models the part of the program that decides what
    a valid chain is and what it does to the set of unspent coins, from the
    256-bit arithmetic up to [ConnectBlock]; the part that takes in headers and
    blocks and follows the best chain, up to [ActivateBestChain]; the state
    machines that talk to peers (headers download, transaction requests,
    orphans, addresses); and the two transports that carry messages, down to the
    hash functions and ciphers.  It proves the theorems that make them correct.
    Source paths below are relative to [src/src/]; a definition has the name of
    the function it translates, and helpers are named after the loop or branch
    they stand for.

    ** The program and the files

    A node keeps a tree of block headers ([CBlockIndex], chain.cpp), of which
    one branch is the active chain ([CChain]).  A header enters the tree when
    its difficulty and time are what the branch demands (pow.cpp,
    versionbits.cpp, validation.cpp); a block joins the active chain when its
    own checks pass and its transactions can be applied to the set of coins
    (consensus/, validation.cpp), which is held in a stack of write-back caches
    (coins.cpp) over a database.  A block that leaves the chain is undone with
    the undo data that connecting it produced.  Headers, blocks and transactions
    come from peers: as bytes through a transport (net.cpp), plain or encrypted
    (bip324.cpp, crypto/), whose addresses the address manager keeps
    (addrman.cpp); chains of headers are downloaded twice before they are stored
    (headerssync.cpp), transactions are asked for from one peer at a time
    (txrequest.cpp), and those whose inputs are unknown wait (txorphanage.cpp).

    - [Prelude]: machine integers as [Z] with the wrap-around spelled out
      ([u32], [i64], ...), little-endian digit lists, counted loops, the
      failure type [res] (assertion, exception, bad access, out of fuel) and
      the state-and-failure monad [stm], the tactics [word_lia] and [zbool] and
      the hint database [words].
    - [ArithUint256] (arith_uint256.cpp/.h): [base_uint] as a list of eight
      32-bit limbs; every operator is the loop of the source.  [Compact]: the
      compact encoding of targets and the conversion to [uint256].
    - [Params] (consensus/params.h, amount.h, consensus.h, deploymentinfo.cpp):
      the parameter record.  The values of the networks live in a file that the
      repository does not hold, so theorems quantify over them.
    - [RandomX] (crypto/randomx_wrapper.cpp): the singleton with its cache,
      dataset and machine.  The library is modelled by its documented handles:
      every allocation may be refused, a use of a freed handle is a bad access,
      the hash is a parameter.
    - [Chain] (chain.cpp/.h): the block tree as a heap of entries, skip list,
      active chain, status bits.  [ActiveChain] and [ChainWork] hold their
      theorems, median time past, block work, locators and binary search.
    - [Pow] (pow.cpp): retargeting, proof-of-work checks, the RandomX key
      schedule.
    - [VersionBits], [VersionBitsProofs] (versionbits.cpp, deploymentstatus.h):
      BIP 9 with its caches; the abstract checker is a type class.
    - [Merkle] (consensus/merkle.cpp), [MerkleBlock] (merkleblock.cpp).
    - [Streams], [Serialize] (streams.h, serialize.h): [DataStream], the integer
      formats, vectors.  A stream is a type class with laws; formats are proved
      against the class, in a small logic ([Writes], [Reads], [Throws],
      [Parses]).
    - [Compressor] (compressor.cpp/.h, part of pubkey.h/.cpp): amounts, scripts
      and outputs; the opcodes and the curve are a class with laws.
    - [Transaction]: the records of primitives/transaction.h that the modelled
      code reads.  That header is not part of the repository, hence the class
      [Primitives] with its laws.
    - [Coins], [CoinsProofs], [CoinsRefinement] (coins.cpp/.h): the cache over
      any base that keeps the laws [ViewLaws]; the cache is an instance of the
      same class, so caches stack.  These are the laws of a base whose writes
      succeed; [WriteLaws] of [ChainSelectionProofs] are those of one whose
      writes may fail, which [CrashRecovery] proves of the database.
    - [TxCheck] (consensus/validation.h, tx_check.cpp, tx_verify.cpp), [Locks]
      (tx_verify.cpp, validation.cpp): transaction checks and lock times.
    - [Blocks], [BlockRules] (validation.cpp): block and header checks, on their
      own and in the context of the chain.
    - [Connect], [ConnectBlock] (validation.cpp, undo.h): subsidy,
      [UpdateCoins], [ConnectBlock], [DisconnectBlock], [RollforwardBlock], and
      their theorems.
    - [ChainState], [ChainSelection], [ChainActivation] (validation.cpp/.h): the
      state of a [Chainstate] with its candidates, coins and files as one
      record; [FlushStateToDisk]; [FindMostWorkChain], [ConnectTip],
      [DisconnectTip], [ActivateBestChainStep]; [ActivateBestChain],
      [InvalidateBlock], [PreciousBlock], [ResetBlockFailureFlags],
      [ReceivedBlockTransactions].  The order of candidates and the block files
      are code under [src/node/] that the repository does not hold: the classes
      [WorkOrder] and [BlockStore] with their laws.
    - [Replay] (what a view does to its base, and the coins of a chain as the
      replay of its blocks), [ChainSelectionProofs], [ChainSteps] (the invariant
      [synced] and the moves of the tip), [ActivationProofs],
      [InvalidateProofs], [LinkProofs]: their theorems.
    - [Acceptance] (validation.cpp): [AcceptBlockHeader],
      [ProcessNewBlockHeaders], [AcceptBlock], [ProcessNewBlock]; [HeaderProofs]
      and [BlockAcceptance]: their theorems.
    - [CoinsDB] (txdb.cpp/.h): the coins database by its values, with writes that
      may fail and crashes between batches as part of its state; an instance of
      the class of views.  [DBWrapper] (dbwrapper.cpp/.h, streams.h): the same
      database as obfuscated bytes.  [Recovery] (validation.cpp):
      [ReplayBlocks], [LoadChainTip], [NeedsRedownload]; [RecoveryProofs],
      [CrashRecovery]: their theorems.
    - [HeadersSync], [HeadersSyncRun] (headerssync.cpp/.h): the two downloads of
      a chain of headers; the deque of commitments and its random offset are
      part of the state.
    - [SipHash] (crypto/siphash.cpp/.h): the streaming hasher and the two
      unrolled routines.
    - [Orphanage], [OrphanageRefinement] (txorphanage.cpp/.h): transactions that
      wait for their inputs, with the three indexes of the class.
    - [TxRequest], [TxRequestProofs], [TxRequestOps], [TxRequestRefinement]
      (txrequest.cpp/.h): which transaction to ask which peer for.  The
      container of boost is the class [MultiIndex] with its documented laws;
      [TxRequestRefinement] gives a container that has them.
    - [AddrMan], [AddrManProofs], [AddrManOps], [AddrManRuns] (addrman.cpp,
      addrman_impl.h): the tables of addresses, as operations on one state.
    - [HashWriter], [Sha256], [Sha256Proofs], [Sha512], [Sha1], [Ripemd160],
      [Hashing], [MerkleSha] (crypto/, hash.cpp/.h): the byte order accessors,
      the portable hash functions, [SHA256D64], HMAC, HKDF and the wrappers of
      hash.h.  [BlockHash] holds what the four hash classes differ in.
    - [ChaCha20], [Poly1305], [Poly1305Proofs], [Aead], [AeadProofs], [Bip324],
      [Bip324Proofs] (crypto/, bip324.cpp/.h, part of key.cpp): the stream
      cipher, the authenticator, the authenticated encryption and the packet
      cipher.
    - [Transport] (net.h, protocol.cpp/.h): messages, headers, and the class of
      transports.  [V1Transport], [V2Transport] (net.cpp/.h): its two instances.
      [NetNode] (net.cpp/.h): the queues of a node, [ReceiveMsgBytes],
      [SocketSendData], [PushMessage] and the accounting of traffic, over any
      transport.  [V1Channel], [V2Session], [V2Connection], [V2Receive]: their
      theorems; the clients are proved against the class [SendingTransport],
      which the first transport implements.

    ** What the theorems show

    The best chain: [ActivateBestChain_reaches_best] (the loops end, and the tip
    is then the best of all blocks not known to be invalid),
    [ActivateBestChainStep_correct] (whatever happens on the way, the coins are
    those of replaying the active chain), [FindMostWorkChain_correct],
    [PruneBlockIndexCandidates_correct], [InvalidateBlock_correct] (which
    restores the conditions of the first), [ReceivedBlockTransactions_counts]
    (the count of transactions is exact in whatever order blocks arrive),
    [FlushStateToDisk_correct] (outside prune mode it returns whatever fails, and
    touches no coin unless the database refuses the write of the coins).  What
    enters: [AcceptBlockHeader_exact] and
    [AcceptBlock_exact] (exactly what the rules allow is stored),
    [ProcessNewBlockHeaders_keeps_tree].  Crashes: [crash_recovery] (whichever
    write fails, and however often start-up is cut short, the coins end up those
    of the new chain, or of the old one if nothing was written),
    [database_bytes] (what is read from the bytes is what was written, across
    restarts).  Money: [ConnectBlock_no_inflation] (connecting a block returns,
    moves the coins exactly as its transactions say and creates at most the
    subsidy), [total_supply_bounded], [CheckTxInputs_conserves].
    Reorganisation: [disconnect_undoes_connect] (disconnecting restores the
    coins and the best block exactly).  The coins cache refines a plain map:
    [cache_simulation], [cache_write_back], [cache_answers],
    [transaction_coins], [Coin_roundtrip].  Checks are exactly their rules:
    [CheckBlock_correct], [ContextualCheckBlockHeader_correct],
    [CheckTransaction_correct], [SequenceLocks_correct],
    [CheckProofOfWork_correct].  Difficulty:
    [CalculateNextWorkRequired_correct], [GetNextWorkRequired_permitted] (what
    validation demands, headers sync permits).  Deployments:
    [GetStateFor_correct] (caching and early stop do not change the BIP 9
    state), [GetStateFor_rules] (the states follow the rules of BIP 9, stated
    without the code), [deployment_progress], and four more.  Merkle trees:
    [ComputeMerkleRoot_correct] (the root, and the flag exactly when a level
    repeats a hash), [unmutated_root_unique], [partial_merkle_roundtrip], [ExtractMatches_sound]; statements about hashes
    are up to an explicit collision.  Formats: [variable_length_integers],
    [vector_roundtrip], [TxOutCompression_roundtrip], [compact_roundtrip].
    Block tree: [GetAncestor_correct] (the skip list equals the plain walk),
    [BuildSkip_preserves_tree], [SetTip_correct], [FindFork_correct] and
    others.  RandomX: [Hash_history_independent],
    [Cleanup_releases_everything], [GetRandomXKey_epochs].

    Peers: [headers_sync_safe] and [headers_sync_completes] (whatever is sent,
    bounded memory and only headers backed by work; an honest chain comes
    through), [orphanage_refines], [tracker_refines], [requests_safe],
    [tracker_consistent], [AddrMan_consistent] (no call ends in a failed
    assertion, and the consistency check passes after any of them),
    [tried_entries_protected], [GetAddr_correct], [Select_correct].

    Messages: [v1_channel_correct] and [v2_connection_safe] (over both
    transports what one end delivers is the first of what the other was given,
    in order and unchanged, whatever pieces the sockets make),
    [v2_connection_delivers] (and all of it once all bytes have come),
    [v1_receive_refines], [v1_memory_bounded] and [v2_any_peer] (against any
    bytes), [SocketSendData_correct].  Ciphers and hashes: [bip324_session]
    (every packet of every conversation comes out as it went in, past all changes
    of keys), [poly1305_correct] (the limbs compute the polynomial of the
    standard), [CSHA256_correct], [CSHA512_correct], [CSHA1_correct],
    [CRIPEMD160_correct], [HMAC_correct], [HKDF_correct], [siphash_correct] (the
    result depends only on the bytes, not on the pieces, and is that of the
    standard), [merkle_level_bytes] (the merged constants of [TransformD64] are
    right).  None of these says that a cipher keeps a secret.

    Seven theorems record defects: [failed_rebuild_uses_freed_cache] (a refused
    allocation leaves a machine on a freed cache), [genesis_miner_bits_rejected]
    (the bits of the genesis miner overflow),
    [AddCoin_throw_breaks_accounting] (the memory counter after a rejected
    overwrite), [InvalidateBlock_correct] (all blocks taken off keep
    [BLOCK_FAILED_VALID]), [waiting_block_lost] (a block that arrives under a
    marked parent is linked by no later arrival and no reset of marks), [failed_flush_loses_coin] (a flush that
    fails and is repeated leaves out the coins of the batch that failed) and
    [rejected_block_not_listed] (a block that [AcceptBlock] rejects is not put
    into the set of failed blocks).

    ** Bounds and fuel

    Loops over lists and counted loops are structural.  A loop that the source
    bounds by other means has fuel, and a theorem that enough was given: walks
    along the tree use the height of the block plus one, [merkle_loop] and
    [height_loop] the number of leaves, the digit loops of [WriteVarInt] and
    [ReadVarInt] the size of the buffer of the source ([(w + 6) / 7] bytes), the
    vector loops the announced size; [GetSizeOfVarInt] takes its fuel as an
    argument and needs one unit per digit.  [FindMostWorkChain] drops a candidate
    per round; the loops of [ActivateBestChain] have the square of the number of
    known blocks, since every round moves to a better tip or marks a block; the
    queue of [ReceivedBlockTransactions] has the blocks that wait; the rollback of
    [ReplayBlocks] has the height of the old tip.  [receive_loop] and
    [received_loop] have the length of the bytes, since a round that goes on
    takes one; [send_loop] two rounds for each message that waits, and three
    more; the search of [Select_], which ends only with luck, takes its fuel as
    an argument, and [Select_correct] says that no answer is ever wrong and that
    some bucket ends it.  Running out is the value [Fail OutOfFuel], or [None]
    where a model has no other failures, which the theorems exclude.  Block
    heights are below [2^31] in the tree and below [2^30] where the code adds to
    them.

    ** What is not modelled

    The script interpreter, signatures and curve operations are parameters;
    their sources are not in the repository.  Mutexes make the calls they guard
    atomic, so each call is one step.  Logging, timing, tracing and debug
    messages are left out, as are the insertions into the script cache and the
    wiping of memory.  Block files enter as results of the calls that use them,
    LevelDB as a map whose batches are written whole or not at all, sockets as
    functions that say how much they take.  The floating-point chance of
    [Select_] is a choice.  The vector instructions of the hash functions are
    other routines for the same function ([D64_routines]).  The capacity of the
    receive buffer of the second transport is not modelled.  The memory pool and
    the message handlers of net_processing.cpp rest on types of src/kernel/ and
    src/node/ that the repository does not hold; opening connections, threads,
    RPC, process start-up and the wallet are input and output; neither are
    modelled, nor are snapshots (a second chainstate) and pruning beyond the
    choice of files. *)

From stdpp Require Import base numbers list gmap strings.
From Stdlib Require Import ZArith Lia.

Local Open Scope Z_scope.

(** ** Machine integers

    A [w]-bit C++ integer is a [Z]; every operation that the language defines
    modulo [2^w] is written with the wrap-around spelled out.  [uN] reduces a
    value to the range of [uintN_t], [iN] to the range of [intN_t] (two's
    complement, as the compilers the project supports do). *)

Definition uwrap (w z : Z) : Z := z mod 2 ^ w.
Definition swrap (w z : Z) : Z := (z + 2 ^ (w - 1)) mod 2 ^ w - 2 ^ (w - 1).

Notation u8 := (uwrap 8).
Notation u16 := (uwrap 16).
Notation u32 := (uwrap 32).
Notation u64 := (uwrap 64).
Notation i32 := (swrap 32).
Notation i64 := (swrap 64).

(** [in_u w z]: [z] is a value of the unsigned type of [w] bits. *)
Definition in_u (w z : Z) : Prop := 0 <= z < 2 ^ w.
Definition in_s (w z : Z) : Prop := - 2 ^ (w - 1) <= z < 2 ^ (w - 1).

#[global] Instance in_u_dec w z : Decision (in_u w z).
Proof. unfold in_u. apply _. Defined.
#[global] Instance in_s_dec w z : Decision (in_s w z).
Proof. unfold in_s. apply _. Defined.

Create HintDb words.

Lemma uwrap_range w z : 0 <= w -> in_u w (uwrap w z).
Proof. intros. apply Z.mod_pos_bound, Z.pow_pos_nonneg; lia. Qed.

Lemma uwrap_small w z : in_u w z -> uwrap w z = z.
Proof. apply Z.mod_small. Qed.

Lemma swrap_range w z : 0 < w -> in_s w (swrap w z).
Proof.
  intros Hw. unfold in_s, swrap.
  pose proof (Z.mod_pos_bound (z + 2 ^ (w - 1)) (2 ^ w) ltac:(apply Z.pow_pos_nonneg; lia)).
  replace (2 ^ w) with (2 * 2 ^ (w - 1)) in *; [lia|].
  rewrite <- Z.pow_succ_r by lia. f_equal; lia.
Qed.

Lemma swrap_small w z : 0 < w -> in_s w z -> swrap w z = z.
Proof.
  intros Hw Hz. unfold in_s, swrap in *.
  rewrite Z.mod_small; [lia|].
  replace (2 ^ w) with (2 * 2 ^ (w - 1)); [lia|].
  rewrite <- Z.pow_succ_r by lia. f_equal; lia.
Qed.

Lemma uwrap_uwrap w z : 0 <= w -> uwrap w (uwrap w z) = uwrap w z.
Proof. intros. apply uwrap_small, uwrap_range; lia. Qed.

#[export] Hint Resolve uwrap_range swrap_range : words.

(** [word_lia] decides linear goals over machine words once the powers of two
    of the usual widths are numerals. *)
Ltac word_consts :=
  unfold in_u, in_s in *;
  change (2 ^ 8) with 256 in *;
  change (2 ^ (8 - 1)) with 128 in *;
  change (2 ^ 16) with 65536 in *;
  change (2 ^ 31) with 2147483648 in *;
  change (2 ^ 32) with 4294967296 in *;
  change (2 ^ (32 - 1)) with 2147483648 in *;
  change (2 ^ 64) with 18446744073709551616 in *;
  change (2 ^ (64 - 1)) with 9223372036854775808 in *.
Ltac word_lia := word_consts; lia.
Ltac word_nia := word_consts; nia.

(** ** Bits *)

Lemma testbit_above w z i : in_u w z -> 0 <= w <= i -> Z.testbit z i = false.
Proof.
  intros Hz Hi. rewrite <- (Z.mod_small z (2 ^ w)) by exact Hz.
  apply Z.mod_pow2_bits_high. lia.
Qed.

(** A disjunction of a low part and a shifted high part is a sum. *)
Lemma lor_low_high w lo hi : 0 <= w -> in_u w lo -> Z.lor lo (Z.shiftl hi w) = lo + hi * 2 ^ w.
Proof.
  intros Hw Hlo. rewrite <- Z.shiftl_mul_pow2 by lia.
  symmetry. apply Z.add_nocarry_lor, Z.bits_inj'. intros i Hi.
  rewrite Z.land_spec, Z.bits_0.
  destruct (decide (i < w)).
  - rewrite (Z.shiftl_spec_low hi) by lia. apply andb_false_r.
  - rewrite (testbit_above w) by (auto; lia). reflexivity.
Qed.

Lemma lor_in_u w a b : 0 <= w -> in_u w a -> in_u w b -> in_u w (Z.lor a b).
Proof.
  intros Hw Ha Hb.
  assert (E : Z.lor a b = Z.lor a b mod 2 ^ w).
  { apply Z.bits_inj'. intros i Hi. rewrite Z.testbit_mod_pow2 by lia.
    destruct (Z.ltb_spec i w); [reflexivity|]. simpl.
    rewrite Z.lor_spec, !(testbit_above w) by (auto; lia). reflexivity. }
  rewrite E. apply Z.mod_pos_bound, Z.pow_pos_nonneg; lia.
Qed.

Lemma land_ones_mod z w : 0 <= w -> Z.land z (Z.ones w) = z mod 2 ^ w.
Proof. apply Z.land_ones. Qed.

Lemma in_u_testbit w z :
  0 <= w -> 0 <= z -> (forall i, w <= i -> Z.testbit z i = false) -> in_u w z.
Proof.
  intros Hw Hz H. assert (E : z = z mod 2 ^ w).
  { apply Z.bits_inj'. intros i Hi. rewrite Z.testbit_mod_pow2 by lia.
    destruct (Z.ltb_spec i w); [reflexivity|]. simpl. apply H; lia. }
  rewrite E. apply Z.mod_pos_bound, Z.pow_pos_nonneg; lia.
Qed.

(** ** Little-endian sequences of words

    [le_val w l] is the number whose base-[2^w] digits, least significant
    first, are [l]: the 32-bit limbs of a [base_uint] and the bytes of a
    serialised integer are both read with it. *)

Fixpoint le_val (w : Z) (l : list Z) : Z :=
  match l with
  | [] => 0
  | x :: l' => x + 2 ^ w * le_val w l'
  end.

(** The [n] low digits of [z], least significant first. *)
Fixpoint le_digits (w : Z) (n : nat) (z : Z) : list Z :=
  match n with
  | O => []
  | S n' => z mod 2 ^ w :: le_digits w n' (z / 2 ^ w)
  end.

Lemma le_val_bound w l :
  0 <= w -> Forall (in_u w) l -> 0 <= le_val w l < 2 ^ (w * Z.of_nat (length l)).
Proof.
  intros Hw. induction 1 as [|x l Hx Hl IH]; cbn [le_val length].
  - rewrite Z.mul_0_r. simpl. lia.
  - rewrite Nat2Z.inj_succ, Z.mul_succ_r, Z.add_comm, Z.pow_add_r by lia.
    unfold in_u in Hx. nia.
Qed.

Lemma le_val_app w l1 l2 :
  0 <= w -> le_val w (l1 ++ l2) = le_val w l1 + 2 ^ (w * Z.of_nat (length l1)) * le_val w l2.
Proof.
  intros Hw. induction l1 as [|x l1 IH]; cbn [le_val app length].
  - rewrite Z.mul_0_r. simpl. lia.
  - rewrite IH, Nat2Z.inj_succ, Z.mul_succ_r, (Z.add_comm _ w), Z.pow_add_r by lia. lia.
Qed.

Lemma le_digits_length w n z : length (le_digits w n z) = n.
Proof. revert z. induction n; intros; simpl; auto. Qed.

Lemma le_digits_in_u w n z : 0 <= w -> Forall (in_u w) (le_digits w n z).
Proof.
  intros Hw. revert z. induction n; intros; simpl; constructor; auto.
  apply Z.mod_pos_bound, Z.pow_pos_nonneg; lia.
Qed.

Lemma le_val_digits w n z : 0 <= w -> le_val w (le_digits w n z) = z mod 2 ^ (w * Z.of_nat n).
Proof.
  intros Hw. assert (Hp : 0 < 2 ^ w) by (apply Z.pow_pos_nonneg; lia).
  revert z. induction n as [|n IH]; intros z; cbn [le_digits le_val].
  - rewrite Z.mul_0_r, Z.mod_1_r. reflexivity.
  - rewrite IH, Nat2Z.inj_succ, Z.mul_succ_r, (Z.add_comm _ w), Z.pow_add_r by lia.
    rewrite Z.rem_mul_r; lia.
Qed.

Lemma le_digits_val w l : 0 <= w -> Forall (in_u w) l -> le_digits w (length l) (le_val w l) = l.
Proof.
  intros Hw. assert (Hp : 0 < 2 ^ w) by (apply Z.pow_pos_nonneg; lia).
  induction 1 as [|x l Hx Hl IH]; cbn [le_val length le_digits]; [reflexivity|].
  rewrite (Z.mul_comm (2 ^ w)), Z.mod_add, Z.div_add by lia.
  rewrite (Z.mod_small x), (Z.div_small x) by exact Hx.
  rewrite Z.add_0_l, IH. reflexivity.
Qed.

Lemma le_val_inj w l1 l2 :
  0 <= w -> length l1 = length l2 -> Forall (in_u w) l1 -> Forall (in_u w) l2 ->
  le_val w l1 = le_val w l2 -> l1 = l2.
Proof.
  intros Hw Hlen H1 H2 E.
  rewrite <- (le_digits_val w l1), <- (le_digits_val w l2), E, Hlen by auto. reflexivity.
Qed.

Lemma le_val_nonneg w l : 0 <= w -> Forall (in_u w) l -> 0 <= le_val w l.
Proof. intros. apply le_val_bound; auto. Qed.

(** Bit [n] of the value is bit [n mod w] of digit [n / w]. *)
Lemma le_val_testbit w l n :
  0 < w -> Forall (in_u w) l -> 0 <= n ->
  Z.testbit (le_val w l) n = Z.testbit (nth (Z.to_nat (n / w)) l 0) (n mod w).
Proof.
  intros Hw Hl. revert n. induction Hl as [|x l Hx Hl IH]; intros n Hn; cbn [le_val].
  - rewrite Z.bits_0. destruct (Z.to_nat (n / w)); symmetry; apply Z.bits_0.
  - rewrite (Z.mul_comm (2 ^ w)), <- lor_low_high, Z.lor_spec by (auto; lia).
    destruct (decide (n < w)) as [Hlt|Hge].
    + rewrite Z.shiftl_spec_low, orb_false_r by lia.
      rewrite (Z.div_small n), (Z.mod_small n) by lia. reflexivity.
    + rewrite (testbit_above w x), Z.shiftl_spec by (auto; lia). simpl orb.
      rewrite IH by lia.
      assert (En : n / w = Z.succ ((n - w) / w)).
      { replace n with (n - w + 1 * w) at 1 by lia. rewrite Z.div_add by lia. lia. }
      assert (Em : n mod w = (n - w) mod w).
      { replace n with (n - w + 1 * w) at 1 by lia. rewrite Z.mod_add by lia. reflexivity. }
      rewrite En, Em, Z2Nat.inj_succ by (apply Z.div_pos; lia). reflexivity.
Qed.

#[export] Hint Resolve le_digits_in_u le_digits_length le_val_nonneg : words.

(** Byte strings: lists of numbers below 256. *)
Notation bytes := (list Z).

(** ** Counted loops

    [for_range n f s] is [for (i = 0; i < n; i++) s = f(i, s);]. *)

Fixpoint for_range {A} (n : nat) (f : nat -> A -> A) (s : A) : A :=
  match n with
  | O => s
  | S n' => f n' (for_range n' f s)
  end.

(** The loop rule: an invariant indexed by the number of finished rounds. *)
Lemma for_range_ind {A} (P : nat -> A -> Prop) (f : nat -> A -> A) (s : A) (n : nat) :
  P O s -> (forall i t, (i < n)%nat -> P i t -> P (S i) (f i t)) -> P n (for_range n f s).
Proof.
  intros H0 HS. induction n as [|n IH]; simpl; [assumption|].
  apply HS; [lia|]. apply IH. intros i t Hi. apply HS. lia.
Qed.

(** ** Lists *)

Lemma nth_insert_eq {A} (l : list A) i x d : (i < length l)%nat -> nth i (<[i:=x]> l) d = x.
Proof.
  intros Hi. rewrite nth_lookup, list_lookup_insert_eq by lia. reflexivity.
Qed.

Lemma nth_insert_ne {A} (l : list A) i j x d : i <> j -> nth j (<[i:=x]> l) d = nth j l d.
Proof. intros Hij. rewrite !nth_lookup, list_lookup_insert_ne by auto. reflexivity. Qed.

Lemma list_ext_nth {A} (l1 l2 : list A) d :
  length l1 = length l2 -> (forall i, (i < length l1)%nat -> nth i l1 d = nth i l2 d) -> l1 = l2.
Proof. intros Hl H. apply nth_ext with (d := d) (d' := d); auto. Qed.

Lemma Forall_nth_default {A} (P : A -> Prop) l i d : Forall P l -> P d -> P (nth i l d).
Proof.
  intros Hl Hd. destruct (decide (i < length l)%nat).
  - apply List.Forall_nth; auto.
  - rewrite nth_overflow by lia. exact Hd.
Qed.

(** ** Failure

    C++ code ends abnormally in ways that the model keeps apart: a failed
    [assert] (the process aborts), a thrown exception (unwound to a handler,
    the state mutated so far kept by the caller), an access through a null or
    dangling pointer or past the end of a container (undefined behaviour), and
    a loop that outlives the fuel of its model.  A theorem that a function
    returns [Ok] excludes all of them. *)

Inductive failure : Type :=
| AssertFailed
| Thrown (what : string)
| BadAccess
| OutOfFuel.

Inductive res (A : Type) : Type :=
| Ok (a : A)
| Fail (e : failure).
Arguments Ok {A} a.
Arguments Fail {A} e.

#[global] Instance failure_eq_dec : EqDecision failure.
Proof. solve_decision. Defined.
#[global] Instance res_eq_dec `{EqDecision A} : EqDecision (res A).
Proof. solve_decision. Defined.

#[global] Instance res_ret : MRet res := fun A a => Ok a.
#[global] Instance res_bind : MBind res := fun A B f m =>
  match m with Ok a => f a | Fail e => Fail e end.

(** A pointer or index access that must succeed. *)
Definition access {A} (o : option A) : res A :=
  match o with Some a => Ok a | None => Fail BadAccess end.

Definition assert_ (b : bool) : res unit := if b then Ok tt else Fail AssertFailed.

Lemma res_bind_Ok {A B} (f : A -> res B) m b :
  (m ≫= f) = Ok b <-> exists a, m = Ok a /\ f a = Ok b.
Proof. split; [destruct m; naive_solver | naive_solver]. Qed.

Lemma access_Ok {A} (o : option A) a : access o = Ok a <-> o = Some a.
Proof. destruct o; naive_solver. Qed.

Lemma assert_Ok b : assert_ b = Ok tt <-> b = true.
Proof. destruct b; naive_solver. Qed.

(** Stateful code: a failure keeps the state reached so far, as a C++ exception
    keeps the members already assigned. *)
Definition stm (S A : Type) : Type := S -> res A * S.

#[global] Instance stm_ret S : MRet (stm S) := fun A a s => (Ok a, s).
#[global] Instance stm_bind S : MBind (stm S) := fun A B f m s =>
  match m s with
  | (Ok a, s') => f a s'
  | (Fail e, s') => (Fail e, s')
  end.

Definition get_st {S} : stm S S := fun s => (Ok s, s).
Definition put_st {S} (s : S) : stm S unit := fun _ => (Ok tt, s).
Definition modify_st {S} (f : S -> S) : stm S unit := fun s => (Ok tt, f s).
Definition fail_st {S A} (e : failure) : stm S A := fun s => (Fail e, s).
Definition lift_st {S A} (m : res A) : stm S A := fun s => (m, s).

Lemma bind_ok {S A B} (m : stm S A) (f : A -> stm S B) s a s1 : m s = (Ok a, s1) -> (m ≫= f) s = f a s1.
Proof. intros E. unfold mbind, stm_bind. rewrite E. reflexivity. Qed.

(** Reflect the boolean comparisons of a hypothesis or the goal. *)
Ltac zbool :=
  repeat match goal with
  | H : (_ =? _) = true |- _ => apply Z.eqb_eq in H
  | H : (_ =? _) = false |- _ => apply Z.eqb_neq in H
  | H : (_ <? _) = true |- _ => apply Z.ltb_lt in H
  | H : (_ <? _) = false |- _ => apply Z.ltb_ge in H
  | H : (_ <=? _) = true |- _ => apply Z.leb_le in H
  | H : (_ <=? _) = false |- _ => apply Z.leb_gt in H
  | H : (_ >? _) = true |- _ => rewrite Z.gtb_ltb in H
  | H : (_ >? _) = false |- _ => rewrite Z.gtb_ltb in H
  | H : (_ >=? _) = true |- _ => rewrite Z.geb_leb in H
  | H : (_ >=? _) = false |- _ => rewrite Z.geb_leb in H
  | H : (_ && _) = true |- _ => apply andb_true_iff in H; destruct H
  | H : (_ || _) = false |- _ => apply orb_false_iff in H; destruct H
  | H : negb _ = true |- _ => apply negb_true_iff in H
  | H : negb _ = false |- _ => apply negb_false_iff in H
  end.
