(* ===== verification/ArithUint256.v ===== *)
(** * [arith_uint256]: 256-bit unsigned arithmetic on eight 32-bit limbs

    Models [src/arith_uint256.h] and [src/arith_uint256.cpp]: the class
    [base_uint<256>] as the list of its limbs [pn], least significant first,
    every operator as the loop over limbs the source runs, with the 32-bit and
    64-bit truncations of the C++ types written out.  The lemmas relate every
    operator to arithmetic of [Z] modulo [2^256] through [uval]. *)

From stdpp Require Import base numbers list strings.
From Stdlib Require Import ZArith Lia.
From S2P Require Import Prelude.

Local Open Scope Z_scope.

(** ** Representation *)

(** [WIDTH = BITS / 32]. *)
Definition WIDTH : nat := 8.

(** The member array [uint32_t pn[WIDTH]]. *)
Notation base_uint := (list Z).

Definition uval (a : base_uint) : Z := le_val 32 a.
Definition wf (a : base_uint) : Prop := length a = WIDTH /\ Forall (in_u 32) a.
Definition limb (a : base_uint) (i : nat) : Z := nth i a 0.

#[global] Instance wf_dec a : Decision (wf a).
Proof. unfold wf. apply _. Defined.

(** ** Construction and assignment *)

(** [base_uint()]. *)
Definition uint_zero : base_uint := repeat 0 WIDTH.

(** [base_uint(uint64_t b)] and [operator=(uint64_t b)]. *)
Definition of_u64 (b : Z) : base_uint :=
  u32 b :: u32 (Z.shiftr b 32) :: repeat 0 (WIDTH - 2).

(** ** Bitwise operators *)

Definition op_not (a : base_uint) : base_uint := map (fun w => u32 (Z.lnot w)) a.
Definition op_xor (a b : base_uint) : base_uint := zip_with Z.lxor a b.
Definition op_and (a b : base_uint) : base_uint := zip_with Z.land a b.
Definition op_or (a b : base_uint) : base_uint := zip_with Z.lor a b.

(** [operator<<=]: the limbs of the result start at zero; round [i] ors the
    high part of [a.pn[i]] into limb [i+k+1] and its low part into limb [i+k]. *)
Definition op_shl (a : base_uint) (shift : Z) : base_uint :=
  let k := Z.to_nat (shift / 32) in
  let s := shift mod 32 in
  for_range WIDTH (fun i pn =>
    let pn := if ((i + k + 1 <? WIDTH)%nat && negb (s =? 0))%bool
              then <[(i + k + 1)%nat := Z.lor (limb pn (i + k + 1)) (Z.shiftr (limb a i) (32 - s))]> pn
              else pn in
    if (i + k <? WIDTH)%nat
    then <[(i + k)%nat := Z.lor (limb pn (i + k)) (u32 (Z.shiftl (limb a i) s))]> pn
    else pn) uint_zero.

(** [operator>>=]; the guards [i - k - 1 >= 0] and [i - k >= 0] are
    comparisons of signed integers. *)
Definition op_shr (a : base_uint) (shift : Z) : base_uint :=
  let k := Z.to_nat (shift / 32) in
  let s := shift mod 32 in
  for_range WIDTH (fun i pn =>
    let pn := if ((k + 1 <=? i)%nat && negb (s =? 0))%bool
              then <[(i - k - 1)%nat := Z.lor (limb pn (i - k - 1)) (u32 (Z.shiftl (limb a i) (32 - s)))]> pn
              else pn in
    if (k <=? i)%nat
    then <[(i - k)%nat := Z.lor (limb pn (i - k)) (Z.shiftr (limb a i) s)]> pn
    else pn) uint_zero.

(** ** Addition, subtraction, increments *)

(** The loop of [operator+=(const base_uint&)] from limb [i] on, with the
    carry of the limbs below it. *)
Fixpoint add_loop (carry : Z) (a b : base_uint) : base_uint :=
  match a, b with
  | x :: a', y :: b' =>
      let n := u64 (carry + x + y) in
      Z.land n 4294967295 :: add_loop (Z.shiftr n 32) a' b'
  | _, _ => []
  end.

Definition op_add (a b : base_uint) : base_uint := add_loop 0 a b.

(** [operator++]: [while (i < WIDTH && ++pn[i] == 0) i++;] *)
Fixpoint op_incr (a : base_uint) : base_uint :=
  match a with
  | [] => []
  | x :: a' =>
      let x' := u32 (x + 1) in
      if x' =? 0 then x' :: op_incr a' else x' :: a'
  end.

(** [operator--]: [while (i < WIDTH && --pn[i] == max) i++;] *)
Fixpoint op_decr (a : base_uint) : base_uint :=
  match a with
  | [] => []
  | x :: a' =>
      let x' := u32 (x - 1) in
      if x' =? 4294967295 then x' :: op_decr a' else x' :: a'
  end.

(** Unary [operator-]: complement, then [++]. *)
Definition op_neg (a : base_uint) : base_uint := op_incr (op_not a).

Definition op_sub (a b : base_uint) : base_uint := op_add a (op_neg b).
Definition op_add64 (a : base_uint) (b64 : Z) : base_uint := op_add a (of_u64 b64).
Definition op_sub64 (a : base_uint) (b64 : Z) : base_uint := op_add a (op_neg (of_u64 b64)).

(** ** Multiplication *)

(** The loop of [operator*=(uint32_t)] from limb [i] on. *)
Fixpoint mul32_loop (b32 carry : Z) (a : base_uint) : base_uint :=
  match a with
  | [] => []
  | x :: a' =>
      let n := u64 (carry + b32 * x) in
      Z.land n 4294967295 :: mul32_loop b32 (Z.shiftr n 32) a'
  end.

Definition op_mul32 (a : base_uint) (b32 : Z) : base_uint := mul32_loop b32 0 a.

(** The inner loop of [operator*=(const base_uint&)]: [p] is [pn[j]], the first
    list the limbs [a.pn[j..]] still to be updated, the second the limbs of [b]. *)
Fixpoint muladd_loop (p carry : Z) (a b : base_uint) : base_uint :=
  match a, b with
  | x :: a', y :: b' =>
      let n := u64 (carry + x + p * y) in
      Z.land n 4294967295 :: muladd_loop p (Z.shiftr n 32) a' b'
  | _, _ => []
  end.

Definition op_mul (pn b : base_uint) : base_uint :=
  for_range WIDTH (fun j a => take j a ++ muladd_loop (limb pn j) 0 (drop j a) b) uint_zero.

(** ** Comparison *)

(** [CompareTo], limbs from [pos - 1] down to 0. *)
Fixpoint compare_from (pos : nat) (a b : base_uint) : Z :=
  match pos with
  | O => 0
  | S i => if limb a i <? limb b i then -1
           else if limb a i >? limb b i then 1
           else compare_from i a b
  end.

Definition CompareTo (a b : base_uint) : Z := compare_from WIDTH a b.

(** [EqualTo(uint64_t)]: the limbs [WIDTH-1 .. 2] are zero, the two low ones match. *)
Definition EqualTo (a : base_uint) (b : Z) : bool :=
  if existsb (fun w => negb (w =? 0)) (drop 2 a) then false
  else if negb (limb a 1 =? Z.shiftr b 32) then false
  else if negb (limb a 0 =? Z.land b 4294967295) then false
  else true.

Definition uint_eqb (a b : base_uint) : bool := bool_decide (a = b).
Definition uint_gt (a b : base_uint) : bool := CompareTo a b >? 0.
Definition uint_lt (a b : base_uint) : bool := CompareTo a b <? 0.
Definition uint_ge (a b : base_uint) : bool := CompareTo a b >=? 0.
Definition uint_le (a b : base_uint) : bool := CompareTo a b <=? 0.

(** ** Width *)

(** The scan [for (nbits = 31; nbits > 0; nbits--)] of one limb: the index of
    its highest set bit, 0 when only bit 0 is left. *)
Fixpoint top_bit (nbits : nat) (w : Z) : Z :=
  match nbits with
  | O => 0
  | S n => if negb (Z.land w (Z.shiftl 1 (Z.of_nat nbits)) =? 0)
           then Z.of_nat nbits else top_bit n w
  end.

Fixpoint bits_from (pos : nat) (a : base_uint) : Z :=
  match pos with
  | O => 0
  | S p => if negb (limb a p =? 0)
           then 32 * Z.of_nat p + top_bit 31 (limb a p) + 1
           else bits_from p a
  end.

Definition bits (a : base_uint) : Z := bits_from WIDTH a.

Definition GetLow64 (a : base_uint) : Z := Z.lor (limb a 0) (Z.shiftl (limb a 1) 32).

(** ** Division: shift and subtract *)

Definition set_bit (q : base_uint) (shift : nat) : base_uint :=
  let i := (shift / 32)%nat in
  <[i := Z.lor (limb q i) (Z.shiftl 1 (Z.land (Z.of_nat shift) 31))]> q.

(** The rounds [shift, shift-1, .., 0] of [while (shift >= 0)]; the quotient is
    the returned component, the other one the remainder left in [num]. *)
Fixpoint div_loop (shift : nat) (num div q : base_uint) : base_uint * base_uint :=
  let '(num, q) := if uint_ge num div then (op_sub num div, set_bit q shift) else (num, q) in
  let div := op_shr div 1 in
  match shift with
  | O => (q, num)
  | S shift' => div_loop shift' num div q
  end.

Definition op_div (a b : base_uint) : res base_uint :=
  let num_bits := bits a in
  let div_bits := bits b in
  if div_bits =? 0 then Fail (Thrown "Division by zero"%string)
  else if div_bits >? num_bits then Ok uint_zero
  else
    let shift := num_bits - div_bits in
    Ok (div_loop (Z.to_nat shift) a (op_shl b shift) uint_zero).1.

(** ** Limb lemmas *)

#[export] Hint Resolve uwrap_range : words.

Lemma land_mask32 n : Z.land n 4294967295 = n mod 2 ^ 32.
Proof. change 4294967295 with (Z.ones 32). apply Z.land_ones. lia. Qed.

Lemma shiftr32 n : Z.shiftr n 32 = n / 2 ^ 32.
Proof. apply Z.shiftr_div_pow2. lia. Qed.

Lemma uval_bound a : wf a -> 0 <= uval a < 2 ^ 256.
Proof.
  intros [Hl Ha]. pose proof (le_val_bound 32 a ltac:(lia) Ha) as H.
  rewrite Hl in H. exact H.
Qed.

Lemma uval_inj a b : wf a -> wf b -> uval a = uval b -> a = b.
Proof.
  intros [Ha Hfa] [Hb Hfb] E. apply (le_val_inj 32); auto; [lia|congruence].
Qed.

Lemma limb_in_u a i : wf a -> in_u 32 (limb a i).
Proof. intros [_ Ha]. unfold limb. apply (Forall_nth_default (in_u 32)); [exact Ha|word_lia]. Qed.

Lemma uint_zero_wf : wf uint_zero.
Proof. split; [reflexivity|]. repeat constructor; word_lia. Qed.

Lemma uval_zero : uval uint_zero = 0.
Proof. reflexivity. Qed.

Lemma of_u64_wf b : wf (of_u64 b).
Proof.
  split; [reflexivity|]. repeat (constructor; [first [apply uwrap_range; lia | word_lia]|]). constructor.
Qed.

Lemma uval_of_u64 b : in_u 64 b -> uval (of_u64 b) = b.
Proof.
  intros Hb. unfold uval, of_u64, uwrap. cbn [le_val repeat WIDTH Nat.sub].
  rewrite shiftr32. word_consts.
  rewrite (Z.mod_small (b / 4294967296)); [|split; [apply Z.div_pos; lia|apply Z.div_lt_upper_bound; lia]].
  pose proof (Z.div_mod b 4294967296). lia.
Qed.

#[export] Hint Resolve uint_zero_wf of_u64_wf : words.

(** One round of a carry loop: splitting a digit off a value modulo a power. *)
Lemma carry_step w n V M :
  0 <= w -> 0 < M -> n mod 2 ^ w + 2 ^ w * ((V + n / 2 ^ w) mod M) = (n + 2 ^ w * V) mod (2 ^ w * M).
Proof.
  intros Hw HM. assert (0 < 2 ^ w) by (apply Z.pow_pos_nonneg; lia).
  rewrite Z.rem_mul_r by lia.
  rewrite (Z.mul_comm (2 ^ w) V), Z.mod_add, Z.div_add by lia.
  rewrite (Z.add_comm (n / 2 ^ w)). reflexivity.
Qed.

Lemma mod_low_high lo w X M :
  0 <= w -> 0 < M -> in_u w lo -> (lo + 2 ^ w * X) mod (2 ^ w * M) = lo + 2 ^ w * (X mod M).
Proof.
  intros Hw HM Hlo. rewrite <- carry_step by lia.
  rewrite (Z.mod_small lo), (Z.div_small lo), Z.add_0_r by exact Hlo. reflexivity.
Qed.

Lemma pow32_succ n : 2 ^ (32 * Z.of_nat (S n)) = 2 ^ 32 * 2 ^ (32 * Z.of_nat n).
Proof. rewrite <- Z.pow_add_r by lia. f_equal. lia. Qed.

Lemma pow32_pos n : 0 < 2 ^ (32 * Z.of_nat n).
Proof. apply Z.pow_pos_nonneg; lia. Qed.

(** ** Addition and subtraction *)

Lemma add_loop_length c a b : length a = length b -> length (add_loop c a b) = length a.
Proof. revert c b. induction a; destruct b; simpl; intros; auto. Qed.

Lemma add_loop_words c a b : Forall (in_u 32) (add_loop c a b).
Proof.
  revert c b. induction a; destruct b; simpl; constructor; auto.
  rewrite land_mask32. apply Z.mod_pos_bound. lia.
Qed.

Lemma add_loop_val c a b :
  length a = length b -> Forall (in_u 32) a -> Forall (in_u 32) b -> 0 <= c <= 1 ->
  le_val 32 (add_loop c a b) = (c + le_val 32 a + le_val 32 b) mod 2 ^ (32 * Z.of_nat (length a)).
Proof.
  revert c b. induction a as [|x a IH]; intros c [|y b] Hl Ha Hb Hc; try discriminate.
  - simpl. rewrite Z.mod_1_r. reflexivity.
  - inversion_clear Ha. inversion_clear Hb. cbn [add_loop le_val length].
    rewrite land_mask32, shiftr32, uwrap_small by word_lia.
    rewrite IH; auto;
      [|split; [apply Z.div_pos; word_lia|apply Z.lt_succ_r, Z.div_lt_upper_bound; word_lia]].
    rewrite pow32_succ. pose proof (pow32_pos (length a)).
    replace ((c + x + y) / 2 ^ 32 + le_val 32 a + le_val 32 b)
      with (le_val 32 a + le_val 32 b + (c + x + y) / 2 ^ 32) by lia.
    rewrite carry_step by lia. f_equal. ring.
Qed.

Lemma op_add_wf a b : wf a -> wf b -> wf (op_add a b).
Proof.
  intros [Ha ?] [Hb ?]. split; [|apply add_loop_words].
  unfold op_add. rewrite add_loop_length by congruence. exact Ha.
Qed.

Lemma op_add_val a b : wf a -> wf b -> uval (op_add a b) = (uval a + uval b) mod 2 ^ 256.
Proof.
  intros [Ha ?] [Hb ?]. unfold uval, op_add.
  rewrite add_loop_val by (auto; try congruence; lia). rewrite Ha. reflexivity.
Qed.

Lemma op_not_length a : length (op_not a) = length a.
Proof. apply length_map. Qed.

Lemma op_not_words a : Forall (in_u 32) (op_not a).
Proof. apply Forall_map, Forall_forall. intros; apply uwrap_range; lia. Qed.

Lemma op_not_wf a : wf a -> wf (op_not a).
Proof. intros [Ha _]. split; [rewrite op_not_length; exact Ha|apply op_not_words]. Qed.

Lemma u32_lnot x : in_u 32 x -> u32 (Z.lnot x) = 2 ^ 32 - 1 - x.
Proof.
  intros Hx. unfold uwrap. rewrite <- (Z.mod_add _ 1) by lia.
  unfold Z.lnot. rewrite Z.mod_small; word_lia.
Qed.

Lemma op_not_le_val a :
  Forall (in_u 32) a -> le_val 32 (op_not a) = 2 ^ (32 * Z.of_nat (length a)) - 1 - le_val 32 a.
Proof.
  induction 1 as [|x a Hx Ha IH]; [reflexivity|].
  cbn [op_not map le_val length]. fold (op_not a).
  rewrite IH, pow32_succ, u32_lnot by auto. ring.
Qed.

Lemma op_not_val a : wf a -> uval (op_not a) = 2 ^ 256 - 1 - uval a.
Proof. intros [Hl Ha]. unfold uval. rewrite op_not_le_val by auto. rewrite Hl. reflexivity. Qed.

Lemma op_incr_length a : length (op_incr a) = length a.
Proof. induction a; simpl; auto. destruct (_ =? 0); simpl; auto. Qed.

Lemma op_incr_words a : Forall (in_u 32) a -> Forall (in_u 32) (op_incr a).
Proof.
  induction 1; simpl; auto. destruct (_ =? 0); constructor; auto; apply uwrap_range; lia.
Qed.

Lemma op_incr_le_val a :
  Forall (in_u 32) a -> le_val 32 (op_incr a) = (le_val 32 a + 1) mod 2 ^ (32 * Z.of_nat (length a)).
Proof.
  induction 1 as [|x a Hx Ha IH]; [reflexivity|].
  cbn [op_incr length]. rewrite pow32_succ. pose proof (pow32_pos (length a)).
  replace (le_val 32 (x :: a) + 1) with (x + 1 + 2 ^ 32 * le_val 32 a) by (cbn [le_val]; ring).
  rewrite <- carry_step by lia. unfold uwrap.
  destruct (Z.eqb_spec ((x + 1) mod 2 ^ 32) 0) as [E|E].
  - cbn [le_val]. rewrite IH.
    assert (x + 1 = 2 ^ 32) as ->.
    { destruct (decide (x + 1 = 2 ^ 32)) as [?|N]; auto. exfalso.
      rewrite Z.mod_small in E; word_lia. }
    rewrite Z.div_same by lia. reflexivity.
  - cbn [le_val]. pose proof (le_val_bound 32 a ltac:(lia) Ha).
    assert (x + 1 <> 2 ^ 32) by (intros E'; rewrite E', Z.mod_same in E by lia; lia).
    rewrite (Z.div_small (x + 1)), Z.add_0_r, (Z.mod_small (le_val 32 a)) by word_lia. reflexivity.
Qed.

Lemma op_incr_wf a : wf a -> wf (op_incr a).
Proof. intros [Hl Ha]. split; [rewrite op_incr_length; exact Hl|apply op_incr_words, Ha]. Qed.

Lemma op_incr_val a : wf a -> uval (op_incr a) = (uval a + 1) mod 2 ^ 256.
Proof. intros [Hl Ha]. unfold uval. rewrite op_incr_le_val, Hl by auto. reflexivity. Qed.

Lemma op_neg_wf a : wf a -> wf (op_neg a).
Proof. intros. apply op_incr_wf, op_not_wf; auto. Qed.

Lemma op_neg_val a : wf a -> uval (op_neg a) = (- uval a) mod 2 ^ 256.
Proof.
  intros Ha. unfold op_neg. rewrite op_incr_val, op_not_val by auto using op_not_wf.
  rewrite <- (Z.mod_add (- uval a) 1) by lia. f_equal. lia.
Qed.

Lemma op_sub_wf a b : wf a -> wf b -> wf (op_sub a b).
Proof. intros. apply op_add_wf; auto using op_neg_wf. Qed.

Lemma op_sub_val a b : wf a -> wf b -> uval (op_sub a b) = (uval a - uval b) mod 2 ^ 256.
Proof.
  intros. unfold op_sub. rewrite op_add_val, op_neg_val by auto using op_neg_wf.
  rewrite Z.add_mod_idemp_r by lia. reflexivity.
Qed.

Lemma op_decr_le_val a :
  Forall (in_u 32) a ->
  Forall (in_u 32) (op_decr a) /\ length (op_decr a) = length a /\
  le_val 32 (op_decr a) = (le_val 32 a - 1) mod 2 ^ (32 * Z.of_nat (length a)).
Proof.
  induction 1 as [|x a Hx Ha (IHw & IHl & IH)]; [repeat split; constructor|].
  cbn [op_decr length]. rewrite pow32_succ. pose proof (pow32_pos (length a)).
  replace (le_val 32 (x :: a) - 1) with (x - 1 + 2 ^ 32 * le_val 32 a) by (cbn [le_val]; ring).
  rewrite <- carry_step by lia.
  pose proof (le_val_bound 32 a ltac:(lia) Ha).
  destruct (decide (x = 0)) as [->|Hx0].
  - change (u32 (0 - 1)) with 4294967295. rewrite Z.eqb_refl. split; [|split].
    + constructor; auto. word_lia.
    + simpl. congruence.
    + cbn [le_val]. rewrite IH. change ((0 - 1) mod 2 ^ 32) with 4294967295.
      change ((0 - 1) / 2 ^ 32) with (-1). reflexivity.
  - rewrite uwrap_small by word_lia. destruct (Z.eqb_spec (x - 1) 4294967295); [word_lia|].
    split; [|split]; [constructor; auto; word_lia|reflexivity|].
    cbn [le_val]. rewrite (Z.mod_small (x - 1)), (Z.div_small (x - 1)), Z.add_0_r, (Z.mod_small (le_val 32 a)) by word_lia.
    reflexivity.
Qed.

#[export] Hint Resolve op_add_wf op_not_wf op_incr_wf op_neg_wf op_sub_wf : words.

(** ** Multiplication *)

Lemma mul32_loop_spec b c a :
  in_u 32 b -> in_u 32 c -> Forall (in_u 32) a ->
  length (mul32_loop b c a) = length a /\ Forall (in_u 32) (mul32_loop b c a) /\
  le_val 32 (mul32_loop b c a) = (c + b * le_val 32 a) mod 2 ^ (32 * Z.of_nat (length a)).
Proof.
  intros Hb Hc Ha. revert c Hc. induction Ha as [|x a Hx Ha IH]; intros c Hc; cbn [mul32_loop].
  - split; [|split]; [reflexivity|constructor|]. simpl. rewrite Z.mod_1_r. reflexivity.
  - rewrite land_mask32, shiftr32, uwrap_small by word_nia.
    assert (Hq : in_u 32 ((c + b * x) / 2 ^ 32)).
    { split; [apply Z.div_pos; word_nia|apply Z.div_lt_upper_bound; word_nia]. }
    destruct (IH _ Hq) as (IHl & IHw & IHv). split; [|split].
    + simpl. congruence.
    + constructor; auto. apply Z.mod_pos_bound. lia.
    + cbn [le_val length]. rewrite IHv, pow32_succ. pose proof (pow32_pos (length a)).
      rewrite (Z.add_comm ((c + b * x) / 2 ^ 32)), carry_step by lia. f_equal. ring.
Qed.

Lemma op_mul32_wf a b : wf a -> in_u 32 b -> wf (op_mul32 a b).
Proof.
  intros [Hl Ha] Hb. destruct (mul32_loop_spec b 0 a) as (E & ? & _); auto; [word_lia|].
  split; auto. unfold op_mul32. congruence.
Qed.

Lemma op_mul32_val a b : wf a -> in_u 32 b -> uval (op_mul32 a b) = (uval a * b) mod 2 ^ 256.
Proof.
  intros [Hl Ha] Hb. destruct (mul32_loop_spec b 0 a) as (_ & _ & E); auto; [word_lia|].
  unfold uval, op_mul32. rewrite E, Hl, Z.add_0_l, Z.mul_comm. reflexivity.
Qed.

Lemma muladd_loop_spec p c a b :
  in_u 32 p -> in_u 32 c -> Forall (in_u 32) a -> Forall (in_u 32) b -> (length a <= length b)%nat ->
  length (muladd_loop p c a b) = length a /\ Forall (in_u 32) (muladd_loop p c a b) /\
  le_val 32 (muladd_loop p c a b) =
    (c + le_val 32 a + p * le_val 32 b) mod 2 ^ (32 * Z.of_nat (length a)).
Proof.
  intros Hp Hc Ha. revert c Hc b. induction Ha as [|x a Hx Ha IH]; intros c Hc b Hb Hl.
  - split; [|split]; [reflexivity|constructor|]. simpl. rewrite Z.mod_1_r. reflexivity.
  - destruct Hb as [|y b Hy Hb]; [simpl in Hl; lia|]. cbn [muladd_loop].
    rewrite land_mask32, shiftr32, uwrap_small by word_nia.
    assert (Hq : in_u 32 ((c + x + p * y) / 2 ^ 32)).
    { split; [apply Z.div_pos; word_nia|apply Z.div_lt_upper_bound; word_nia]. }
    destruct (IH _ Hq b Hb ltac:(simpl in Hl; lia)) as (IHl & IHw & IHv). split; [|split].
    + simpl. congruence.
    + constructor; auto. apply Z.mod_pos_bound. lia.
    + cbn [le_val length]. rewrite IHv, pow32_succ. pose proof (pow32_pos (length a)).
      replace ((c + x + p * y) / 2 ^ 32 + le_val 32 a + p * le_val 32 b)
        with (le_val 32 a + p * le_val 32 b + (c + x + p * y) / 2 ^ 32) by ring.
      rewrite carry_step by lia. f_equal. ring.
Qed.

Lemma le_val_take_S l j :
  (j < length l)%nat ->
  le_val 32 (take (S j) l) = le_val 32 (take j l) + 2 ^ (32 * Z.of_nat j) * limb l j.
Proof.
  intros Hj. destruct (lookup_lt_is_Some_2 l j Hj) as [x Hx].
  rewrite (take_S_r _ _ _ Hx), le_val_app by lia.
  rewrite length_take_le by lia. cbn [le_val].
  unfold limb. rewrite nth_lookup, Hx. simpl. ring.
Qed.

Lemma le_val_split l j :
  (j <= length l)%nat ->
  le_val 32 l = le_val 32 (take j l) + 2 ^ (32 * Z.of_nat j) * le_val 32 (drop j l).
Proof.
  intros Hj. rewrite <- (take_drop j l) at 1. rewrite le_val_app by lia.
  rewrite length_take_le by lia. reflexivity.
Qed.

Lemma take_le_val_bound l j :
  Forall (in_u 32) l -> (j <= length l)%nat -> in_u (32 * Z.of_nat j) (le_val 32 (take j l)).
Proof.
  intros Hl Hj. pose proof (le_val_bound 32 (take j l) ltac:(lia) (Forall_take _ _ _ Hl)) as H.
  rewrite length_take_le in H by lia. exact H.
Qed.

Lemma pow256_split j : (j <= WIDTH)%nat ->
  2 ^ 256 = 2 ^ (32 * Z.of_nat j) * 2 ^ (32 * Z.of_nat (WIDTH - j)).
Proof. intros. rewrite <- Z.pow_add_r by lia. f_equal. unfold WIDTH in *. lia. Qed.

(** The invariant of the outer loop: after [j] rounds [a] holds the product of
    the [j] low limbs of [pn] with [b], modulo [2^256]. *)
Lemma op_mul_spec pn b :
  wf pn -> wf b -> wf (op_mul pn b) /\ uval (op_mul pn b) = (uval pn * uval b) mod 2 ^ 256.
Proof.
  intros Hpn Hb. unfold op_mul.
  pose proof (for_range_ind (fun j a => wf a /\
    uval a = (le_val 32 (take j pn) * uval b) mod 2 ^ 256)
    (fun j a => take j a ++ muladd_loop (limb pn j) 0 (drop j a) b) uint_zero WIDTH) as L.
  destruct L as [Hw Hv].
  - split; [apply uint_zero_wf|]. reflexivity.
  - intros j a Hj [[Hal Haw] Hav].
    destruct (muladd_loop_spec (limb pn j) 0 (drop j a) b) as (El & Ew & Ev);
      [apply limb_in_u; auto|word_lia|apply Forall_drop; auto|apply Hb| |].
    { rewrite length_drop. destruct Hb as [-> _]. unfold WIDTH in *. lia. }
    split; [split|].
    + rewrite length_app, El, length_take, length_drop. unfold WIDTH in *. lia.
    + apply Forall_app. split; [apply Forall_take|]; auto.
    + unfold uval in *. rewrite le_val_app, length_take_le, Ev, length_drop, Hal by (unfold WIDTH in *; lia).
      rewrite le_val_take_S by (destruct Hpn as [-> _]; lia).
      rewrite <- mod_low_high by (try apply take_le_val_bound; auto; try apply pow32_pos; unfold WIDTH in *; lia).
      rewrite <- pow256_split by lia.
      rewrite Z.mul_add_distr_r.
      rewrite <- (Z.add_mod_idemp_l (le_val 32 (take j pn) * le_val 32 b)) by lia.
      rewrite <- Hav, (le_val_split a j) by (unfold WIDTH in *; lia). f_equal. ring.
  - split; auto. rewrite Hv. rewrite take_ge by (destruct Hpn as [-> _]; lia). reflexivity.
Qed.

Lemma op_mul_wf a b : wf a -> wf b -> wf (op_mul a b).
Proof. intros. apply op_mul_spec; auto. Qed.

Lemma op_mul_val a b : wf a -> wf b -> uval (op_mul a b) = (uval a * uval b) mod 2 ^ 256.
Proof. intros. apply op_mul_spec; auto. Qed.

#[export] Hint Resolve op_mul32_wf op_mul_wf : words.

(** ** Comparison *)

Lemma compare_from_spec pos a b :
  Forall (in_u 32) a -> Forall (in_u 32) b -> (pos <= length a)%nat -> (pos <= length b)%nat ->
  let va := le_val 32 (take pos a) in let vb := le_val 32 (take pos b) in
  (compare_from pos a b = -1 /\ va < vb) \/ (compare_from pos a b = 0 /\ va = vb) \/
  (compare_from pos a b = 1 /\ va > vb).
Proof.
  intros Ha Hb. induction pos as [|i IH]; intros Hla Hlb; cbv zeta; cbn [compare_from].
  - right; left. split; reflexivity.
  - rewrite !le_val_take_S by lia.
    pose proof (take_le_val_bound a i Ha ltac:(lia)) as Ba.
    pose proof (take_le_val_bound b i Hb ltac:(lia)) as Bb. unfold in_u in Ba, Bb.
    specialize (IH ltac:(lia) ltac:(lia)). cbv zeta in IH.
    destruct (Z.ltb_spec (limb a i) (limb b i)); [left; split; [auto|nia]|].
    destruct (Z.gtb_spec (limb a i) (limb b i)); [right; right; split; [auto|nia]|].
    assert (limb a i = limb b i) as -> by lia. lia.
Qed.

Lemma CompareTo_spec a b :
  wf a -> wf b ->
  (CompareTo a b = -1 /\ uval a < uval b) \/ (CompareTo a b = 0 /\ uval a = uval b) \/
  (CompareTo a b = 1 /\ uval a > uval b).
Proof.
  intros [Hla Ha] [Hlb Hb].
  pose proof (compare_from_spec WIDTH a b Ha Hb ltac:(lia) ltac:(lia)) as H. cbv zeta in H.
  rewrite !take_ge in H by lia. exact H.
Qed.

Lemma uint_gt_spec a b : wf a -> wf b -> uint_gt a b = (uval a >? uval b).
Proof.
  intros Ha Hb. unfold uint_gt. destruct (CompareTo_spec a b Ha Hb) as [[-> ?]|[[-> ?]|[-> ?]]];
    symmetry; simpl; [| |]; destruct (Z.gtb_spec (uval a) (uval b)); auto; lia.
Qed.

Lemma uint_lt_spec a b : wf a -> wf b -> uint_lt a b = (uval a <? uval b).
Proof.
  intros Ha Hb. unfold uint_lt. destruct (CompareTo_spec a b Ha Hb) as [[-> ?]|[[-> ?]|[-> ?]]];
    symmetry; simpl; [| |]; destruct (Z.ltb_spec (uval a) (uval b)); auto; lia.
Qed.

Lemma uint_ge_spec a b : wf a -> wf b -> uint_ge a b = (uval b <=? uval a).
Proof.
  intros Ha Hb. unfold uint_ge. destruct (CompareTo_spec a b Ha Hb) as [[-> ?]|[[-> ?]|[-> ?]]];
    symmetry; simpl; [| |]; destruct (Z.leb_spec (uval b) (uval a)); auto; lia.
Qed.

Lemma uint_le_spec a b : wf a -> wf b -> uint_le a b = (uval a <=? uval b).
Proof.
  intros Ha Hb. unfold uint_le. destruct (CompareTo_spec a b Ha Hb) as [[-> ?]|[[-> ?]|[-> ?]]];
    symmetry; simpl; [| |]; destruct (Z.leb_spec (uval a) (uval b)); auto; lia.
Qed.

Lemma uint_eqb_spec a b : wf a -> wf b -> uint_eqb a b = (uval a =? uval b).
Proof.
  intros Ha Hb. unfold uint_eqb. destruct (Z.eqb_spec (uval a) (uval b)) as [E|E].
  - apply bool_decide_eq_true. apply uval_inj; auto.
  - apply bool_decide_eq_false. congruence.
Qed.

Lemma wf_inv a : wf a -> exists x0 x1 a', a = x0 :: x1 :: a' /\ in_u 32 x0 /\ in_u 32 x1 /\
  Forall (in_u 32) a' /\ length a' = 6%nat.
Proof.
  intros [Hl Ha]. destruct a as [|x0 [|x1 a']]; try discriminate.
  inversion_clear Ha as [|? ? H0 Ha']. inversion_clear Ha' as [|? ? H1 Ha''].
  exists x0, x1, a'. repeat split; auto; try apply H0; try apply H1. unfold WIDTH in Hl. simpl in Hl. lia.
Qed.

Lemma le_val_zero_iff l :
  Forall (in_u 32) l -> existsb (fun w => negb (w =? 0)) l = negb (le_val 32 l =? 0).
Proof.
  induction 1 as [|x l Hx Hl IH]; [reflexivity|]. cbn [existsb le_val]. rewrite IH.
  pose proof (le_val_bound 32 l ltac:(lia) Hl). unfold in_u in Hx.
  destruct (Z.eqb_spec x 0), (Z.eqb_spec (le_val 32 l) 0), (Z.eqb_spec (x + 2 ^ 32 * le_val 32 l) 0);
    simpl; auto; nia.
Qed.

Lemma EqualTo_spec a b : wf a -> in_u 64 b -> EqualTo a b = (uval a =? b).
Proof.
  intros Ha Hb. destruct (wf_inv a Ha) as (x0 & x1 & a' & -> & H0 & H1 & Ha' & _).
  unfold EqualTo, uval, limb. cbn [nth le_val]. change (drop 2 (x0 :: x1 :: a')) with a'.
  rewrite le_val_zero_iff, shiftr32, land_mask32 by auto.
  pose proof (le_val_bound 32 a' ltac:(lia) Ha').
  pose proof (Z.div_mod b (2 ^ 32) ltac:(lia)). pose proof (Z.mod_pos_bound b (2 ^ 32) ltac:(lia)).
  assert (b / 2 ^ 32 < 2 ^ 32) by (apply Z.div_lt_upper_bound; word_lia).
  set (q := b / 2 ^ 32) in *. set (r := b mod 2 ^ 32) in *. set (v := le_val 32 a') in *.
  clearbody q r v. word_consts. subst b.
  destruct (Z.eqb_spec v 0), (Z.eqb_spec x1 q), (Z.eqb_spec x0 r); cbn [negb]; symmetry;
    first [apply Z.eqb_eq; lia | apply Z.eqb_neq; lia].
Qed.

(** ** Width and low word *)

Lemma GetLow64_val a : wf a -> GetLow64 a = uval a mod 2 ^ 64.
Proof.
  intros Ha. destruct (wf_inv a Ha) as (x0 & x1 & a' & -> & H0 & H1 & Ha' & _).
  unfold GetLow64, limb, uval. cbn [nth le_val]. rewrite lor_low_high by (auto; lia).
  replace (x0 + 2 ^ 32 * (x1 + 2 ^ 32 * le_val 32 a')) with (x0 + x1 * 2 ^ 32 + le_val 32 a' * 2 ^ 64) by lia.
  rewrite Z.mod_add by lia. rewrite Z.mod_small; word_lia.
Qed.

Lemma land_pow2_test w n : 0 <= n -> (Z.land w (Z.shiftl 1 n) =? 0) = negb (Z.testbit w n).
Proof.
  intros Hn. rewrite Z.shiftl_1_l. destruct (Z.eqb_spec (Z.land w (2 ^ n)) 0) as [E|E].
  - assert (T : Z.testbit (Z.land w (2 ^ n)) n = false) by (rewrite E; apply Z.bits_0).
    rewrite Z.land_spec, Z.pow2_bits_true, andb_true_r in T by lia. rewrite T. reflexivity.
  - destruct (Z.testbit w n) eqn:T; [reflexivity|]. exfalso. apply E, Z.bits_inj'. intros i Hi.
    rewrite Z.land_spec, Z.bits_0, Z.pow2_bits_eqb by lia.
    destruct (Z.eqb_spec n i); [subst; rewrite T; reflexivity|apply andb_false_r].
Qed.

Lemma top_bit_log2 n w : 0 < w < 2 ^ (Z.of_nat n + 1) -> top_bit n w = Z.log2 w.
Proof.
  induction n as [|n IH]; intros Hw.
  - simpl in *. assert (w = 1) as -> by lia. reflexivity.
  - cbn [top_bit]. rewrite land_pow2_test by lia. rewrite negb_involutive.
    destruct (Z.testbit w (Z.of_nat (S n))) eqn:T.
    + symmetry. apply Z.log2_unique; [lia|]. split; [|lia].
      destruct (Z.le_gt_cases (2 ^ Z.of_nat (S n)) w) as [|Hlt]; auto. exfalso.
      rewrite (testbit_above (Z.of_nat (S n)) w) in T; [discriminate|unfold in_u; lia|lia].
    + apply IH. split; [lia|].
      replace (Z.of_nat n + 1) with (Z.of_nat (S n)) by lia.
      apply in_u_testbit; [lia|lia|]. intros i Hi.
      destruct (decide (i = Z.of_nat (S n))) as [->|]; [exact T|].
      apply (testbit_above (Z.of_nat (S n) + 1) w); [unfold in_u; lia|lia].
Qed.

Lemma log2_high_limb lo w n : 0 <= n -> in_u n lo -> 0 < w -> Z.log2 (lo + 2 ^ n * w) = n + Z.log2 w.
Proof.
  intros Hn Hlo Hw. destruct (Z.log2_spec w Hw) as [H1 H2].
  apply Z.log2_unique; [pose proof (Z.log2_nonneg w); lia|].
  rewrite <- Z.add_succ_r, !Z.pow_add_r by (pose proof (Z.log2_nonneg w); lia).
  unfold in_u in Hlo. split; nia.
Qed.

Lemma bits_from_spec pos a :
  Forall (in_u 32) a -> (pos <= length a)%nat ->
  bits_from pos a = if le_val 32 (take pos a) =? 0 then 0 else Z.log2 (le_val 32 (take pos a)) + 1.
Proof.
  intros Ha. induction pos as [|p IH]; intros Hp; [reflexivity|]. cbn [bits_from].
  rewrite le_val_take_S by lia.
  pose proof (take_le_val_bound a p Ha ltac:(lia)) as B.
  assert (Hw : in_u 32 (limb a p)) by (apply (Forall_nth_default (in_u 32)); [auto|word_lia]).
  destruct (Z.eqb_spec (limb a p) 0) as [E|E]; cbn [negb].
  - rewrite E, Z.mul_0_r, Z.add_0_r. apply IH. lia.
  - assert (0 < 2 ^ (32 * Z.of_nat p)) by apply pow32_pos.
    destruct (Z.eqb_spec (le_val 32 (take p a) + 2 ^ (32 * Z.of_nat p) * limb a p) 0) as [E0|_];
      [unfold in_u in *; nia|].
    rewrite log2_high_limb by (auto; word_lia). rewrite top_bit_log2 by word_lia. reflexivity.
Qed.

Lemma bits_spec a : wf a -> bits a = if uval a =? 0 then 0 else Z.log2 (uval a) + 1.
Proof.
  intros [Hl Ha]. unfold bits. rewrite bits_from_spec by (auto; lia).
  rewrite take_ge by lia. reflexivity.
Qed.

Lemma bits_range a : wf a -> 0 <= bits a <= 256.
Proof.
  intros Ha. rewrite bits_spec by auto. pose proof (uval_bound a Ha).
  destruct (Z.eqb_spec (uval a) 0); [lia|].
  pose proof (Z.log2_nonneg (uval a)).
  pose proof (Z.log2_lt_pow2 (uval a) 256 ltac:(lia)). lia.
Qed.

(** [bits a] is the least [n] with [uval a < 2^n]. *)
Lemma bits_le_iff a n : wf a -> 0 <= n -> bits a <= n <-> uval a < 2 ^ n.
Proof.
  intros Ha Hn. rewrite bits_spec by auto. pose proof (uval_bound a Ha).
  destruct (Z.eqb_spec (uval a) 0) as [->|E].
  - split; intros; [apply Z.pow_pos_nonneg; lia|lia].
  - rewrite (Z.log2_lt_pow2 (uval a) n) by lia. lia.
Qed.

(** ** Shifts *)

(** What a limb of [a << (32k+s)] holds: the high part of limb [j-k-1] and the
    low part of limb [j-k], for the rounds [i < n] done so far. *)
Definition shl_limb (a : base_uint) (k : nat) (s : Z) (n j : nat) : Z :=
  Z.lor (if decide (s <> 0 /\ (k + 1 <= j < k + 1 + n)%nat) then Z.shiftr (limb a (j - k - 1)) (32 - s) else 0)
        (if decide (k <= j < k + n)%nat then u32 (Z.shiftl (limb a (j - k)) s) else 0).

Definition shr_limb (a : base_uint) (k : nat) (s : Z) (n j : nat) : Z :=
  Z.lor (if decide (k + j < n)%nat then Z.shiftr (limb a (j + k)) s else 0)
        (if decide (s <> 0 /\ (k + 1 + j < n)%nat) then u32 (Z.shiftl (limb a (j + k + 1)) (32 - s)) else 0).

Lemma limb_insert pn i j x :
  limb (<[i := x]> pn) j = if decide (i = j /\ (i < length pn)%nat) then x else limb pn j.
Proof.
  unfold limb. destruct (decide _) as [[-> H]|H].
  - apply nth_insert_eq; auto.
  - destruct (decide (i = j)) as [->|].
    + rewrite list_insert_ge by lia. reflexivity.
    + apply nth_insert_ne; auto.
Qed.

(** Case analysis on the guards of a shift round. *)
Ltac shift_cases :=
  repeat match goal with
  | |- context [decide ?P] => destruct (decide P)
  | |- context [(?a <? ?b)%nat] => destruct (Nat.ltb_spec a b)
  | |- context [(?a <=? ?b)%nat] => destruct (Nat.leb_spec a b)
  | |- context [?s =? 0] => destruct (Z.eqb_spec s 0)
  end; cbn [andb negb] in *.

Lemma op_shl_limbs a shift :
  length (op_shl a shift) = WIDTH /\
  forall j, (j < WIDTH)%nat ->
    limb (op_shl a shift) j = shl_limb a (Z.to_nat (shift / 32)) (shift mod 32) WIDTH j.
Proof.
  unfold op_shl. set (k := Z.to_nat (shift / 32)). set (s := shift mod 32).
  apply (for_range_ind (fun n pn => length pn = WIDTH /\
     forall j, (j < WIDTH)%nat -> limb pn j = shl_limb a k s n j)).
  - split; [reflexivity|]. intros j Hj. unfold shl_limb.
    assert (limb uint_zero j = 0) as -> by (do 8 (destruct j as [|j]; [reflexivity|]); unfold WIDTH in Hj; lia).
    rewrite !decide_False by lia. reflexivity.
  - intros n pn Hn [Hl IH]. split.
    + cbv zeta. destruct ((n + k <? WIDTH)%nat), ((n + k + 1 <? WIDTH)%nat), (negb (s =? 0)); cbn [andb];
        rewrite ?length_insert; exact Hl.
    + intros j Hj. pose proof (IH j Hj) as E. unfold shl_limb in *.
      pose proof (IH (n + k)%nat) as E0. pose proof (IH (n + k + 1)%nat) as E1.
      cbv zeta. destruct (Nat.ltb_spec (n + k) WIDTH), (Nat.ltb_spec (n + k + 1) WIDTH), (Z.eqb_spec s 0);
        cbn [andb negb]; rewrite ?limb_insert, ?length_insert, ?Hl;
        repeat match goal with |- context [decide ?P] => destruct (decide P) end;
        try (exfalso; lia); subst;
        rewrite ?E0, ?E1, ?E by lia;
        repeat match goal with |- context [decide ?P] => destruct (decide P) end;
        try (exfalso; lia); rewrite ?Z.lor_0_l, ?Z.lor_0_r; try reflexivity;
        repeat f_equal; try lia.
Qed.

Lemma op_shr_limbs a shift :
  length (op_shr a shift) = WIDTH /\
  forall j, (j < WIDTH)%nat ->
    limb (op_shr a shift) j = shr_limb a (Z.to_nat (shift / 32)) (shift mod 32) WIDTH j.
Proof.
  unfold op_shr. set (k := Z.to_nat (shift / 32)). set (s := shift mod 32).
  apply (for_range_ind (fun n pn => length pn = WIDTH /\
     forall j, (j < WIDTH)%nat -> limb pn j = shr_limb a k s n j)).
  - split; [reflexivity|]. intros j Hj. unfold shr_limb.
    assert (limb uint_zero j = 0) as -> by (do 8 (destruct j as [|j]; [reflexivity|]); unfold WIDTH in Hj; lia).
    rewrite !decide_False by lia. reflexivity.
  - intros n pn Hn [Hl IH]. split.
    + cbv zeta. destruct ((k <=? n)%nat), ((k + 1 <=? n)%nat), (negb (s =? 0)); cbn [andb];
        rewrite ?length_insert; exact Hl.
    + intros j Hj. pose proof (IH j Hj) as E. unfold shr_limb in *.
      pose proof (IH (n - k)%nat) as E0. pose proof (IH (n - k - 1)%nat) as E1.
      cbv zeta. destruct (Nat.leb_spec k n), (Nat.leb_spec (k + 1) n), (Z.eqb_spec s 0);
        cbn [andb negb]; rewrite ?limb_insert, ?length_insert, ?Hl;
        repeat match goal with |- context [decide ?P] => destruct (decide P) end;
        try (exfalso; lia); subst;
        rewrite ?E0, ?E1, ?E by lia;
        repeat match goal with |- context [decide ?P] => destruct (decide P) end;
        try (exfalso; lia); rewrite ?Z.lor_0_l, ?Z.lor_0_r; try reflexivity;
        repeat f_equal; try lia.
Qed.

Lemma limb_words_wf a : length a = WIDTH -> (forall j, (j < WIDTH)%nat -> in_u 32 (limb a j)) -> wf a.
Proof.
  intros Hl H. split; [exact Hl|]. apply List.Forall_nth. intros i d Hi.
  rewrite (nth_indep a d 0) by exact Hi. apply H. lia.
Qed.

Lemma shiftr_in_u w x n : 0 <= w -> 0 <= n -> in_u w x -> in_u w (Z.shiftr x n).
Proof.
  intros Hw Hn [H1 H2]. rewrite Z.shiftr_div_pow2 by lia.
  assert (0 < 2 ^ n) by (apply Z.pow_pos_nonneg; lia).
  split; [apply Z.div_pos; lia|]. apply Z.div_lt_upper_bound; nia.
Qed.

Lemma op_shl_wf a n : wf a -> 0 <= n -> wf (op_shl a n).
Proof.
  intros Ha Hn. destruct (op_shl_limbs a n) as [Hl H]. apply limb_words_wf; [exact Hl|].
  intros j Hj. rewrite H by exact Hj. unfold shl_limb.
  pose proof (Z.mod_pos_bound n 32 ltac:(lia)).
  apply lor_in_u; [lia| |]; destruct (decide _); try (word_lia); [|apply uwrap_range; lia].
  apply shiftr_in_u; [lia|lia|apply limb_in_u; auto].
Qed.

Lemma op_shr_wf a n : wf a -> 0 <= n -> wf (op_shr a n).
Proof.
  intros Ha Hn. destruct (op_shr_limbs a n) as [Hl H]. apply limb_words_wf; [exact Hl|].
  intros j Hj. rewrite H by exact Hj. unfold shr_limb.
  pose proof (Z.mod_pos_bound n 32 ltac:(lia)).
  apply lor_in_u; [lia| |]; destruct (decide _); try (word_lia); [|apply uwrap_range; lia].
  apply shiftr_in_u; [lia|lia|apply limb_in_u; auto].
Qed.

(** Bits of a value, limb by limb. *)
Lemma uval_testbit a j b :
  wf a -> 0 <= j -> 0 <= b < 32 -> Z.testbit (uval a) (32 * j + b) = Z.testbit (limb a (Z.to_nat j)) b.
Proof.
  intros [_ Ha] Hj Hb. unfold uval. rewrite le_val_testbit by (auto; lia).
  rewrite (Z.mul_comm 32), Z.add_comm, Z.mod_add, Z.div_add by lia.
  rewrite (Z.div_small b), (Z.mod_small b) by lia. reflexivity.
Qed.

Lemma limb_testbit_high a j b : wf a -> 32 <= b -> Z.testbit (limb a j) b = false.
Proof. intros Ha Hb. apply (testbit_above 32); [apply limb_in_u; auto|lia]. Qed.

Lemma limb_out a j : wf a -> (WIDTH <= j)%nat -> limb a j = 0.
Proof. intros [Hl _] Hj. unfold limb. apply nth_overflow. lia. Qed.

Lemma testbit_u32_shiftl x s b :
  0 <= s -> 0 <= b < 32 -> Z.testbit (u32 (Z.shiftl x s)) b = Z.testbit x (b - s).
Proof.
  intros Hs Hb. unfold uwrap. rewrite Z.mod_pow2_bits_low by lia.
  rewrite Z.shiftl_spec by lia. reflexivity.
Qed.

Lemma op_shl_val a n : wf a -> 0 <= n -> uval (op_shl a n) = (uval a * 2 ^ n) mod 2 ^ 256.
Proof.
  intros Ha Hn. apply Z.bits_inj'. intros m Hm.
  rewrite Z.testbit_mod_pow2 by lia.
  destruct (Z.ltb_spec m 256) as [Hm'|Hm']; cbn [andb];
    [|apply (testbit_above 256); [apply uval_bound, op_shl_wf; auto|lia]].
  rewrite <- Z.shiftl_mul_pow2, Z.shiftl_spec by lia.
  pose proof (Z.mod_pos_bound m 32 ltac:(lia)). pose proof (Z.mod_pos_bound n 32 ltac:(lia)).
  pose proof (Z.div_mod m 32 ltac:(lia)) as Em. pose proof (Z.div_mod n 32 ltac:(lia)) as En.
  assert (0 <= m / 32 < 8) by (split; [apply Z.div_pos|apply Z.div_lt_upper_bound]; lia).
  assert (0 <= n / 32) by (apply Z.div_pos; lia).
  rewrite Em at 1. rewrite uval_testbit by (auto using op_shl_wf; lia).
  destruct (op_shl_limbs a n) as [_ Hj]. rewrite Hj by (unfold WIDTH; lia).
  unfold shl_limb. set (j := m / 32) in *. set (b := m mod 32) in *.
  set (k := n / 32) in *. set (s := n mod 32) in *. clearbody j b k s.
  rewrite Z.lor_spec.
  replace (m - n) with (32 * (j - k) + (b - s)) by lia.
  destruct (Z.le_gt_cases s b) as [Hsb|Hsb].
  - (* the bit comes from limb j-k *)
    assert (Z.testbit (if decide (s ≠ 0 ∧ (Z.to_nat k + 1 ≤ Z.to_nat j < Z.to_nat k + 1 + WIDTH)%nat)
       then Z.shiftr (limb a (Z.to_nat j - Z.to_nat k - 1)) (32 - s) else 0) b = false) as ->.
    { destruct (decide _); [|apply Z.bits_0]. rewrite Z.shiftr_spec by lia.
      apply limb_testbit_high; auto; lia. }
    cbn [orb]. destruct (decide _) as [D|D].
    + rewrite testbit_u32_shiftl, uval_testbit by (auto; lia).
      f_equal. f_equal. lia.
    + rewrite Z.bits_0. symmetry. destruct (Z.le_gt_cases k j); [unfold WIDTH in D; lia|].
      apply Z.testbit_neg_r. lia.
  - assert (Z.testbit (if decide (Z.to_nat k ≤ Z.to_nat j < Z.to_nat k + WIDTH)%nat
       then u32 (Z.shiftl (limb a (Z.to_nat j - Z.to_nat k)) s) else 0) b = false) as ->.
    { destruct (decide _); [|apply Z.bits_0]. rewrite testbit_u32_shiftl by lia.
      apply Z.testbit_neg_r. lia. }
    rewrite orb_false_r. destruct (decide _) as [D|D].
    + rewrite Z.shiftr_spec by lia.
      replace (32 * (j - k) + (b - s)) with (32 * (j - k - 1) + (b + (32 - s))) by lia.
      rewrite uval_testbit by (auto; lia). f_equal. f_equal. lia.
    + rewrite Z.bits_0. symmetry. destruct (Z.le_gt_cases (k + 1) j); [unfold WIDTH in D; lia|].
      apply Z.testbit_neg_r. lia.
Qed.

Lemma op_shr_val a n : wf a -> 0 <= n -> uval (op_shr a n) = uval a / 2 ^ n.
Proof.
  intros Ha Hn. apply Z.bits_inj'. intros m Hm.
  rewrite <- Z.shiftr_div_pow2, Z.shiftr_spec by lia.
  destruct (Z.ltb_spec m 256) as [Hm'|Hm'];
    [|rewrite !(testbit_above 256); auto; try lia; apply uval_bound; auto using op_shr_wf].
  pose proof (Z.mod_pos_bound m 32 ltac:(lia)). pose proof (Z.mod_pos_bound n 32 ltac:(lia)).
  pose proof (Z.div_mod m 32 ltac:(lia)) as Em. pose proof (Z.div_mod n 32 ltac:(lia)) as En.
  assert (0 <= m / 32 < 8) by (split; [apply Z.div_pos|apply Z.div_lt_upper_bound]; lia).
  assert (0 <= n / 32) by (apply Z.div_pos; lia).
  rewrite Em at 1. rewrite uval_testbit by (auto using op_shr_wf; lia).
  destruct (op_shr_limbs a n) as [_ Hj]. rewrite Hj by (unfold WIDTH; lia).
  unfold shr_limb. set (j := m / 32) in *. set (b := m mod 32) in *.
  set (k := n / 32) in *. set (s := n mod 32) in *. clearbody j b k s.
  rewrite Z.lor_spec.
  replace (m + n) with (32 * (j + k) + (b + s)) by lia.
  destruct (Z.le_gt_cases 32 (b + s)) as [Hsb|Hsb].
  - assert (Z.testbit (if decide (Z.to_nat k + Z.to_nat j < WIDTH)%nat
       then Z.shiftr (limb a (Z.to_nat j + Z.to_nat k)) s else 0) b = false) as ->.
    { destruct (decide _); [|apply Z.bits_0]. rewrite Z.shiftr_spec by lia.
      apply limb_testbit_high; auto; lia. }
    cbn [orb]. replace (32 * (j + k) + (b + s)) with (32 * (j + k + 1) + (b - (32 - s))) by lia.
    rewrite uval_testbit by (auto; lia).
    replace (Z.to_nat (j + k + 1)) with (Z.to_nat j + Z.to_nat k + 1)%nat by lia.
    destruct (decide _) as [D|D].
    + apply testbit_u32_shiftl; lia.
    + rewrite limb_out by (auto; unfold WIDTH in *; lia). rewrite !Z.bits_0. reflexivity.
  - assert (Z.testbit (if decide (s ≠ 0 ∧ (Z.to_nat k + 1 + Z.to_nat j < WIDTH)%nat)
       then u32 (Z.shiftl (limb a (Z.to_nat j + Z.to_nat k + 1)) (32 - s)) else 0) b = false) as ->.
    { destruct (decide _); [|apply Z.bits_0]. rewrite testbit_u32_shiftl by lia.
      apply Z.testbit_neg_r. lia. }
    rewrite orb_false_r, uval_testbit by (auto; lia).
    replace (Z.to_nat (j + k)) with (Z.to_nat j + Z.to_nat k)%nat by lia.
    destruct (decide _) as [D|D].
    + rewrite Z.shiftr_spec by lia. reflexivity.
    + rewrite limb_out by (auto; unfold WIDTH in *; lia). rewrite !Z.bits_0. reflexivity.
Qed.

#[export] Hint Resolve op_shl_wf op_shr_wf : words.

(** ** Division *)

Lemma set_bit_wf q s : wf q -> (s < 256)%nat -> wf (set_bit q s).
Proof.
  intros Hq Hs. apply limb_words_wf; [unfold set_bit; rewrite length_insert; apply Hq|].
  intros j Hj. unfold set_bit. rewrite limb_insert. destruct (decide _); [|apply limb_in_u; auto].
  apply lor_in_u; [lia|apply limb_in_u; auto|].
  change 31 with (Z.ones 5). rewrite Z.land_ones, Z.shiftl_1_l by lia.
  pose proof (Z.mod_pos_bound (Z.of_nat s) (2 ^ 5) ltac:(lia)).
  split; [apply Z.pow_nonneg; lia|apply Z.pow_lt_mono_r; lia].
Qed.

Lemma set_bit_val q s : wf q -> (s < 256)%nat -> uval (set_bit q s) = Z.lor (uval q) (2 ^ Z.of_nat s).
Proof.
  intros Hq Hs. apply Z.bits_inj'. intros m Hm. rewrite Z.lor_spec, Z.pow2_bits_eqb by lia.
  destruct (Z.ltb_spec m 256) as [Hm'|Hm'].
  2:{ rewrite !(testbit_above 256) by (try lia; apply uval_bound; auto using set_bit_wf).
      destruct (Z.eqb_spec (Z.of_nat s) m); [lia|reflexivity]. }
  pose proof (Z.mod_pos_bound m 32 ltac:(lia)). pose proof (Z.div_mod m 32 ltac:(lia)) as Em.
  assert (0 <= m / 32) by (apply Z.div_pos; lia).
  assert (Hj : (Z.to_nat (m / 32) < WIDTH)%nat).
  { pose proof (Z.div_lt_upper_bound m 32 8 ltac:(lia) ltac:(lia)). unfold WIDTH. lia. }
  rewrite Em at 1 2. rewrite !uval_testbit by (auto using set_bit_wf; lia).
  unfold set_bit. rewrite limb_insert. change 31 with (Z.ones 5).
  rewrite Z.land_ones, Z.shiftl_1_l by lia. change (2 ^ 5) with 32.
  pose proof (Nat.div_mod_eq s 32) as Es. pose proof (Nat.mod_upper_bound s 32 ltac:(lia)).
  assert (Z.of_nat s mod 32 = Z.of_nat (s mod 32)) as -> by (symmetry; apply (Nat2Z.inj_mod s 32)).
  destruct (decide _) as [[Ei _]|D].
  - rewrite Z.lor_spec, Z.pow2_bits_eqb by lia. rewrite Ei. f_equal.
    destruct (Z.eqb_spec (Z.of_nat (s mod 32)) (m mod 32)), (Z.eqb_spec (Z.of_nat s) m); auto; lia.
  - destruct (Z.eqb_spec (Z.of_nat s) m) as [<-|]; [|symmetry; apply orb_false_r]. exfalso. apply D.
    assert (Z.of_nat s / 32 = Z.of_nat (s / 32)) as E by (symmetry; apply (Nat2Z.inj_div s 32)).
    rewrite E, Nat2Z.id in Hj |- *. destruct Hq as [-> _]. auto.
Qed.

Lemma lor_pow2_add q s : 0 <= s -> q mod 2 ^ (s + 1) = 0 -> Z.lor q (2 ^ s) = q + 2 ^ s.
Proof.
  intros Hs Hq. symmetry. apply Z.add_nocarry_lor, Z.bits_inj'. intros i Hi.
  rewrite Z.land_spec, Z.bits_0, Z.pow2_bits_eqb by lia.
  destruct (Z.eqb_spec s i) as [<-|]; [|apply andb_false_r].
  rewrite <- (Z.mod_pow2_bits_low q (s + 1)), Hq, Z.bits_0 by lia. reflexivity.
Qed.

Lemma aligned_half div d s :
  wf div -> uval div = d * 2 ^ Z.of_nat (S s) -> uval (op_shr div 1) = d * 2 ^ Z.of_nat s.
Proof.
  intros Hd E. rewrite op_shr_val, E, Nat2Z.inj_succ, Z.pow_succ_r by (auto; lia).
  change (2 ^ 1) with 2. replace (d * (2 * 2 ^ Z.of_nat s)) with (d * 2 ^ Z.of_nat s * 2) by ring.
  apply Z.div_mul. lia.
Qed.

Lemma multiple_weaken q c n :
  0 <= n -> q mod 2 ^ (n + 1) = 0 -> (q + c * 2 ^ n) mod 2 ^ n = 0.
Proof.
  intros Hn E. assert (0 < 2 ^ n) by (apply Z.pow_pos_nonneg; lia).
  rewrite Z.pow_add_r in E by lia. apply Z.mod_divide in E; [|lia]. destruct E as [x ->].
  replace (x * (2 ^ n * 2 ^ 1) + c * 2 ^ n) with ((2 * x + c) * 2 ^ n) by ring.
  apply Z.mod_mul. lia.
Qed.

(** The invariant of the long division: entering round [s] the divisor is
    aligned at [d * 2^s], the rest is below [d * 2^(s+1)] and no quotient bit
    at or below [s] is set. *)
Definition div_inv (s : nat) (num div q : base_uint) (d : Z) : Prop :=
  wf num /\ wf div /\ wf q /\ uval div = d * 2 ^ Z.of_nat s /\
  uval num < d * 2 ^ (Z.of_nat s + 1) /\ uval q mod 2 ^ (Z.of_nat s + 1) = 0.

(** One round keeps [q * d + num] and shrinks the rest below [d * 2^s]. *)
Lemma div_round s num div q d :
  0 < d -> (s < 256)%nat -> div_inv s num div q d ->
  let '(num', q') := if uint_ge num div then (op_sub num div, set_bit q s) else (num, q) in
  wf num' /\ wf q' /\ uval q' * d + uval num' = uval q * d + uval num /\
  uval num' < d * 2 ^ Z.of_nat s /\ uval q' mod 2 ^ Z.of_nat s = 0.
Proof.
  intros Hd Hs (Hn & Hdv & Hq & Ed & En & Eq). pose proof (uval_bound num Hn).
  assert (E2 : 2 ^ (Z.of_nat s + 1) = 2 * 2 ^ Z.of_nat s) by (rewrite Z.pow_add_r by lia; lia).
  assert (0 < 2 ^ Z.of_nat s) by (apply Z.pow_pos_nonneg; lia).
  rewrite uint_ge_spec by auto. destruct (Z.leb_spec (uval div) (uval num)).
  - rewrite set_bit_val, lor_pow2_add, op_sub_val, Z.mod_small by (auto; nia).
    split; [apply op_sub_wf; auto|]. split; [apply set_bit_wf; auto|]. split; [nia|].
    split; [nia|]. replace (2 ^ Z.of_nat s) with (1 * 2 ^ Z.of_nat s) at 1 by lia.
    apply multiple_weaken; auto; lia.
  - do 2 (split; [auto|]). split; [lia|]. split; [lia|].
    rewrite <- (Z.add_0_r (uval q)), <- (Z.mul_0_l (2 ^ Z.of_nat s)). apply multiple_weaken; auto; lia.
Qed.

Lemma div_loop_spec s : forall num div q d,
  0 < d -> (s < 256)%nat -> div_inv s num div q d ->
  let '(q', r) := div_loop s num div q in
  wf q' /\ uval q' * d + uval r = uval q * d + uval num /\ 0 <= uval r < d.
Proof.
  induction s as [|s IH]; intros num div q d Hd Hs Hinv;
    pose proof (div_round _ num div q d Hd Hs Hinv) as R;
    destruct Hinv as (_ & Hdv & _ & Ed & _); cbn [div_loop];
    destruct (if uint_ge num div then _ else _) as [num' q'];
    destruct R as (Hn' & Hq' & E & Hlt & Hm).
  - pose proof (uval_bound num' Hn'). change (2 ^ Z.of_nat 0) with 1 in *. split; [auto|]. lia.
  - specialize (IH num' (op_shr div 1) q' d Hd ltac:(lia)).
    destruct (div_loop s _ _ _) as [q'' r]. rewrite <- E. apply IH.
    assert (Es : Z.of_nat s + 1 = Z.of_nat (S s)) by lia.
    split; [auto|]. split; [apply op_shr_wf; auto; lia|]. split; [auto|].
    split; [apply aligned_half; auto|]. rewrite Es. auto.
Qed.

Lemma op_div_spec a b :
  wf a -> wf b -> uval b <> 0 -> exists q, op_div a b = Ok q /\ wf q /\ uval q = uval a / uval b.
Proof.
  intros Ha Hb Hb0. pose proof (uval_bound a Ha). pose proof (uval_bound b Hb).
  pose proof (bits_range a Ha). pose proof (bits_range b Hb).
  assert (Hdb : bits b = Z.log2 (uval b) + 1).
  { rewrite bits_spec by auto. destruct (Z.eqb_spec (uval b) 0); [lia|reflexivity]. }
  pose proof (Z.log2_nonneg (uval b)).
  assert (Lb : 2 ^ (bits b - 1) <= uval b).
  { rewrite Hdb. replace (_ + 1 - 1) with (Z.log2 (uval b)) by lia. apply Z.log2_spec. lia. }
  assert (La : uval a < 2 ^ bits a) by (apply bits_le_iff; auto; lia).
  assert (Lb' : uval b < 2 ^ bits b) by (apply bits_le_iff; auto; lia).
  unfold op_div. destruct (Z.eqb_spec (bits b) 0); [lia|].
  destruct (Z.gtb_spec (bits b) (bits a)) as [Hgt|Hle].
  - exists uint_zero. split; [reflexivity|]. split; [apply uint_zero_wf|].
    rewrite uval_zero. symmetry. apply Z.div_small.
    pose proof (Z.pow_le_mono_r 2 (bits a) (bits b - 1) ltac:(lia) ltac:(lia)). lia.
  - set (s := bits a - bits b).
    assert (Es : Z.of_nat (Z.to_nat s) = s) by lia.
    pose proof (div_loop_spec (Z.to_nat s) a (op_shl b s) uint_zero (uval b)) as L.
    destruct (div_loop _ _ _ _) as [q r]. eexists. split; [reflexivity|]. cbn [fst].
    assert (P1 : uval b * 2 ^ s < 2 ^ 256).
    { apply Z.lt_le_trans with (2 ^ bits b * 2 ^ s); [apply Z.mul_lt_mono_pos_r; [apply Z.pow_pos_nonneg; lia|lia]|].
      rewrite <- Z.pow_add_r by lia. apply Z.pow_le_mono_r; lia. }
    assert (P2 : uval a < uval b * 2 ^ (s + 1)).
    { apply Z.lt_le_trans with (2 ^ bits a); [lia|].
      replace (bits a) with (bits b - 1 + (s + 1)) by lia. rewrite Z.pow_add_r by lia.
      apply Z.mul_le_mono_nonneg_r; [apply Z.pow_nonneg; lia|lia]. }
    assert (P3 : 0 <= uval b * 2 ^ s) by (apply Z.mul_nonneg_nonneg; [lia|apply Z.pow_nonneg; lia]).
    destruct L as (Hq & E & Hr); [lia|lia| |].
    + split; [auto|]. split; [apply op_shl_wf; auto; lia|]. split; [apply uint_zero_wf|].
      rewrite op_shl_val, Z.mod_small, Es by (auto; lia). split; [reflexivity|]. split; [exact P2|].
      apply Z.mod_0_l. apply Z.pow_nonzero; lia.
    + split; [exact Hq|]. apply Z.div_unique with (uval r); [lia|].
      rewrite uval_zero in E. lia.
Qed.

Lemma op_div_zero a b : wf b -> uval b = 0 -> op_div a b = Fail (Thrown "Division by zero"%string).
Proof. intros Hb E. unfold op_div. rewrite bits_spec, E by auto. reflexivity. Qed.

(** ** Correctness of the operators *)

(** On well-formed operands (eight limbs below [2^32]) every arithmetic
    operator of [base_uint<256>] returns a well-formed number, and its value is
    the mathematical result modulo [2^256]: no intermediate 64-bit sum or
    product overflows and no carry is lost between limbs. *)
Theorem arith_operators (a b : base_uint) (b32 n : Z) :
  wf a -> wf b -> in_u 32 b32 -> 0 <= n ->
  (wf (op_add a b) /\ uval (op_add a b) = (uval a + uval b) mod 2 ^ 256) /\
  (wf (op_sub a b) /\ uval (op_sub a b) = (uval a - uval b) mod 2 ^ 256) /\
  (wf (op_neg a) /\ uval (op_neg a) = (- uval a) mod 2 ^ 256) /\
  (wf (op_incr a) /\ uval (op_incr a) = (uval a + 1) mod 2 ^ 256) /\
  (wf (op_decr a) /\ uval (op_decr a) = (uval a - 1) mod 2 ^ 256) /\
  (wf (op_mul32 a b32) /\ uval (op_mul32 a b32) = (uval a * b32) mod 2 ^ 256) /\
  (wf (op_mul a b) /\ uval (op_mul a b) = (uval a * uval b) mod 2 ^ 256) /\
  (wf (op_shl a n) /\ uval (op_shl a n) = (uval a * 2 ^ n) mod 2 ^ 256) /\
  (wf (op_shr a n) /\ uval (op_shr a n) = uval a / 2 ^ n).
Proof.
  intros Ha Hb H32 Hn.
  repeat split_and; auto using op_add_wf, op_sub_wf, op_neg_wf, op_incr_wf, op_mul32_wf, op_mul_wf,
    op_shl_wf, op_shr_wf, op_add_val, op_sub_val, op_neg_val, op_incr_val, op_mul32_val, op_mul_val,
    op_shl_val, op_shr_val; destruct Ha as [Hl Ha]; destruct (op_decr_le_val a Ha) as (Hw & Hl' & Hv).
  - split; [congruence|exact Hw].
  - unfold uval. rewrite Hv, Hl. reflexivity.
Qed.

Lemma arith_operators_witness :
  uval (op_mul (of_u64 (2 ^ 63)) (op_shl (of_u64 6) 192)) = 0 /\
  uval (op_sub (of_u64 1) (of_u64 2)) = 2 ^ 256 - 1.
Proof.
  destruct (arith_operators (of_u64 (2 ^ 63)) (op_shl (of_u64 6) 192) 0 0) as (_ & _ & _ & _ & _ & _ & [_ Hm] & _);
    [apply of_u64_wf|apply op_shl_wf; [apply of_u64_wf|lia]|word_lia|lia|].
  destruct (arith_operators (of_u64 1) (of_u64 2) 0 0) as (_ & [_ Hs] & _);
    [apply of_u64_wf|apply of_u64_wf|word_lia|lia|].
  split; [rewrite Hm|rewrite Hs]; vm_compute; reflexivity.
Defined.

(** The shift-and-subtract loop of [operator/=] terminates with the
    quotient of the Euclidean division, whatever the operands; dividing by
    zero raises [uint_error] instead of looping. *)
Theorem division_correct (a b : base_uint) :
  wf a -> wf b ->
  (uval b <> 0 -> exists q, op_div a b = Ok q /\ wf q /\ uval q = uval a / uval b) /\
  (uval b = 0 -> op_div a b = Fail (Thrown "Division by zero"%string)).
Proof. intros Ha Hb. split; [apply op_div_spec; auto|apply op_div_zero; auto]. Qed.

Lemma division_correct_witness :
  exists q, op_div (op_shl (of_u64 1) 255) (of_u64 1000000007) = Ok q /\
            uval q = 2 ^ 255 / 1000000007.
Proof.
  destruct (division_correct (op_shl (of_u64 1) 255) (of_u64 1000000007)) as [H _];
    [apply op_shl_wf; [apply of_u64_wf|lia]|apply of_u64_wf|].
  destruct H as (q & E & _ & V); [vm_compute; discriminate|].
  exists q. split; [exact E|]. rewrite V. vm_compute. reflexivity.
Defined.

(** The relational operators, which all go through [CompareTo], the
    comparison with a 64-bit integer and [bits()] agree with the order of the
    values; in particular equal values have equal limbs. *)
Theorem comparison_correct (a b : base_uint) (n : Z) :
  wf a -> wf b -> in_u 64 n ->
  uint_gt a b = (uval a >? uval b) /\ uint_lt a b = (uval a <? uval b) /\
  uint_ge a b = (uval a >=? uval b) /\ uint_le a b = (uval a <=? uval b) /\
  uint_eqb a b = (uval a =? uval b) /\ EqualTo a n = (uval a =? n) /\
  GetLow64 a = uval a mod 2 ^ 64 /\
  (forall k, 0 <= k -> bits a <= k <-> uval a < 2 ^ k).
Proof.
  intros Ha Hb Hn. rewrite Z.geb_leb.
  repeat split_and; auto using uint_gt_spec, uint_lt_spec, uint_ge_spec, uint_le_spec, uint_eqb_spec,
    EqualTo_spec, GetLow64_val, bits_le_iff.
Qed.

Lemma comparison_correct_witness :
  uint_gt (op_shl (of_u64 1) 200) (of_u64 (2 ^ 64 - 1)) = true /\ EqualTo (of_u64 77) 77 = true.
Proof.
  destruct (comparison_correct (op_shl (of_u64 1) 200) (of_u64 (2 ^ 64 - 1)) 0) as (E & _);
    [apply op_shl_wf; [apply of_u64_wf|lia]|apply of_u64_wf|word_lia|].
  destruct (comparison_correct (of_u64 77) (of_u64 0) 77) as (_ & _ & _ & _ & _ & E' & _);
    [apply of_u64_wf|apply of_u64_wf|word_lia|].
  split; [rewrite E|rewrite E']; vm_compute; reflexivity.
Defined.
