(* ===== verification/Compact.v ===== *)
(** * The compact ("nBits") encoding of 256-bit targets

    Models [arith_uint256::SetCompact], [GetCompact], [ArithToUint256] and
    [UintToArith256] of [src/arith_uint256.cpp].  The specification side is
    [compact_value], the number a 32-bit compact word denotes, and
    [compact_floor], rounding a target down to the nearest number the format
    can express; the code is shown to implement both. *)

From stdpp Require Import base numbers list strings.
From Stdlib Require Import ZArith Lia.
From S2P Require Import Prelude ArithUint256.

Local Open Scope Z_scope.

(** ** The compact encoding of [arith_uint256] *)

(** [SetCompact]: the value, [*pfNegative] and [*pfOverflow]. *)
Definition SetCompact (nCompact : Z) : base_uint * bool * bool :=
  let nSize := Z.shiftr nCompact 24 in
  let nWord := Z.land nCompact 8388607 in
  let '(r, nWord) :=
    if nSize <=? 3
    then let nWord := Z.shiftr nWord (8 * (3 - nSize)) in (of_u64 nWord, nWord)
    else (op_shl (of_u64 nWord) (8 * (nSize - 3)), nWord) in
  let fNegative := (negb (nWord =? 0) && negb (Z.land nCompact 8388608 =? 0))%bool in
  let fOverflow := (negb (nWord =? 0) &&
                      ((nSize >? 34) || ((nWord >? 255) && (nSize >? 33)) ||
                       ((nWord >? 65535) && (nSize >? 32))))%bool in
  (r, fNegative, fOverflow).

(** [GetCompact]. *)
Definition GetCompact (a : base_uint) (fNegative : bool) : res Z :=
  let nSize := (bits a + 7) / 8 in
  let nCompact :=
    if nSize <=? 3 then u32 (u64 (Z.shiftl (GetLow64 a) (8 * (3 - nSize))))
    else u32 (GetLow64 (op_shr a (8 * (nSize - 3)))) in
  let '(nCompact, nSize) :=
    if negb (Z.land nCompact 8388608 =? 0) then (Z.shiftr nCompact 8, nSize + 1)
    else (nCompact, nSize) in
  _ ← assert_ (Z.land nCompact (u32 (Z.lnot 8388607)) =? 0);
  _ ← assert_ (nSize <? 256);
  let nCompact := Z.lor nCompact (u32 (Z.shiftl nSize 24)) in
  Ok (Z.lor nCompact
        (if (fNegative && negb (Z.land nCompact 8388607 =? 0))%bool then 8388608 else 0)).

(** ** Conversion to and from the opaque [uint256] blob *)

(** [ReadLE32] / [WriteLE32] of [crypto/common.h] on the bytes of a blob. *)
Definition WriteLE32 (x : Z) : list Z := le_digits 8 4 x.
Definition ReadLE32 (ptr : list Z) : Z := le_val 8 (take 4 ptr).

Definition ArithToUint256 (a : base_uint) : list Z := flat_map WriteLE32 a.

Definition UintToArith256 (b : list Z) : base_uint :=
  map (fun x => ReadLE32 (drop (x * 4) b)) (seq 0 WIDTH).

(** ** What a compact word denotes *)

Definition compact_value (c : Z) : Z :=
  let size := c / 2 ^ 24 in
  let word := c mod 2 ^ 23 in
  if size <=? 3 then word / 256 ^ (3 - size) else word * 256 ^ (size - 3).

(** The numbers the format can express without the sign bit. *)
Definition compact_repr (r : Z) : Prop :=
  exists m e, 0 <= m < 2 ^ 23 /\ 0 <= e /\ r = m * 256 ^ e.

(** [t] is [v] rounded down to an expressible number. *)
Definition compact_floor (v t : Z) : Prop :=
  compact_repr t /\ t <= v /\ forall r, compact_repr r -> r <= v -> r <= t.

Lemma compact_floor_mono v1 v2 t1 t2 :
  compact_floor v1 t1 -> compact_floor v2 t2 -> v1 <= v2 -> t1 <= t2.
Proof. intros (H1 & L1 & _) (_ & _ & M2) Hv. apply M2; [exact H1|lia]. Qed.

Lemma compact_floor_unique v t1 t2 : compact_floor v t1 -> compact_floor v t2 -> t1 = t2.
Proof.
  intros H1 H2. pose proof (compact_floor_mono v v t1 t2 H1 H2).
  pose proof (compact_floor_mono v v t2 t1 H2 H1). lia.
Qed.

Lemma compact_floor_repr v : compact_repr v -> compact_floor v v.
Proof. intros H. split; [exact H|]. split; [lia|auto]. Qed.

Lemma compact_repr_small v : 0 <= v < 2 ^ 23 -> compact_repr v.
Proof. intros Hv. exists v, 0. rewrite Z.pow_0_r. lia. Qed.

Lemma pow256_pos e : 0 <= e -> 0 < 256 ^ e.
Proof. intros. apply Z.pow_pos_nonneg; lia. Qed.

Lemma pow256_pow2 e : 0 <= e -> 256 ^ e = 2 ^ (8 * e).
Proof. intros. change 256 with (2 ^ 8). rewrite <- Z.pow_mul_r by lia. reflexivity. Qed.

(** ** Decoding *)

Lemma SetCompact_word c : in_u 32 c ->
  Z.shiftr c 24 = c / 2 ^ 24 /\ Z.land c 8388607 = c mod 2 ^ 23 /\ 0 <= c / 2 ^ 24 < 256 /\
  0 <= c mod 2 ^ 23 < 2 ^ 23.
Proof.
  intros Hc. rewrite Z.shiftr_div_pow2 by lia. change 8388607 with (Z.ones 23).
  rewrite Z.land_ones by lia. do 2 (split; [reflexivity|]).
  split; [|apply Z.mod_pos_bound; lia].
  split; [apply Z.div_pos; word_lia|apply Z.div_lt_upper_bound; word_lia].
Qed.

(** The overflow test of [SetCompact] on a mantissa and a byte count. *)
Lemma overflow_test w n :
  0 <= w < 2 ^ 23 -> 3 < n ->
  (negb (w =? 0) && ((n >? 34) || ((w >? 255) && (n >? 33)) || ((w >? 65535) && (n >? 32))))%bool
  = (2 ^ 256 <=? w * 256 ^ (n - 3)).
Proof.
  intros Hw Hn. rewrite pow256_pow2 by lia.
  destruct (Z.eqb_spec w 0) as [->|Hw0]; [reflexivity|].
  rewrite !Z.gtb_ltb. symmetry. cbn [negb andb].
  destruct (Z.ltb_spec 34 n) as [H1|H1]; cbn [orb].
  { apply Z.leb_le. pose proof (Z.pow_le_mono_r 2 256 (8 * (n - 3)) ltac:(lia) ltac:(lia)). nia. }
  destruct (Z.ltb_spec 33 n) as [H2|H2].
  { assert (n = 34) as -> by lia. change (2 ^ (8 * (34 - 3))) with (2 ^ 248).
    destruct (Z.ltb_spec 255 w), (Z.ltb_spec 65535 w); cbn [andb orb];
      first [apply Z.leb_le; lia | apply Z.leb_gt; lia]. }
  rewrite andb_false_r. cbn [orb].
  destruct (Z.ltb_spec 32 n) as [H3|H3].
  { assert (n = 33) as -> by lia. change (2 ^ (8 * (33 - 3))) with (2 ^ 240).
    destruct (Z.ltb_spec 65535 w); cbn [andb]; first [apply Z.leb_le; lia | apply Z.leb_gt; lia]. }
  rewrite andb_false_r. apply Z.leb_gt.
  pose proof (Z.pow_le_mono_r 2 (8 * (n - 3)) 232 ltac:(lia) ltac:(lia)).
  assert (0 < 2 ^ (8 * (n - 3))) by (apply Z.pow_pos_nonneg; lia).
  apply Z.le_lt_trans with (w * 2 ^ 232); [nia|]. lia.
Qed.

(** [SetCompact] stores the denoted number modulo [2^256]; the overflow flag is
    raised exactly when that number does not fit, the negative flag exactly
    when it is not zero and the sign bit is set. *)
Lemma SetCompact_spec c : in_u 32 c ->
  let '(r, fNegative, fOverflow) := SetCompact c in
  wf r /\ uval r = compact_value c mod 2 ^ 256 /\
  fNegative = (negb (compact_value c =? 0) && Z.testbit c 23)%bool /\
  fOverflow = (2 ^ 256 <=? compact_value c).
Proof.
  intros Hc. destruct (SetCompact_word c Hc) as (E1 & E2 & Hs & Hw).
  unfold SetCompact, compact_value. rewrite E1, E2. clear E1 E2.
  change 8388608 with (Z.shiftl 1 23). rewrite land_pow2_test, negb_involutive by lia.
  set (s := c / 2 ^ 24) in *. set (w := c mod 2 ^ 23) in *. clearbody s w.
  destruct (Z.leb_spec s 3) as [H3|H3].
  - rewrite Z.shiftr_div_pow2 by lia. rewrite <- pow256_pow2 by lia.
    assert (B : 0 <= w / 256 ^ (3 - s) < 2 ^ 23).
    { pose proof (pow256_pos (3 - s) ltac:(lia)). split; [apply Z.div_pos; lia|].
      apply Z.div_lt_upper_bound; nia. }
    set (v := w / 256 ^ (3 - s)) in *. clearbody v.
    split; [apply of_u64_wf|]. split; [rewrite uval_of_u64, Z.mod_small by word_lia; reflexivity|].
    split; [reflexivity|].
    replace (2 ^ 256 <=? v) with false by (symmetry; apply Z.leb_gt; lia).
    rewrite !Z.gtb_ltb.
    rewrite (proj2 (Z.ltb_ge 34 s)), (proj2 (Z.ltb_ge 33 s)), (proj2 (Z.ltb_ge 32 s)) by lia.
    rewrite !andb_false_r. reflexivity.
  - split; [apply op_shl_wf; [apply of_u64_wf|lia]|].
    rewrite op_shl_val, uval_of_u64, <- pow256_pow2 by (try apply of_u64_wf; word_lia).
    split; [reflexivity|]. rewrite overflow_test by lia. split; [|reflexivity].
    pose proof (pow256_pos (s - 3) ltac:(lia)).
    destruct (Z.eqb_spec w 0), (Z.eqb_spec (w * 256 ^ (s - 3)) 0); auto; nia.
Qed.

(** ** Encoding *)

(** The number of bytes of [v], as [GetCompact] computes it from [bits()]. *)
Definition byte_size (v : Z) : Z := ((if v =? 0 then 0 else Z.log2 v + 1) + 7) / 8.

(** The three leading bytes of [v]. *)
Definition mantissa (v : Z) : Z :=
  if byte_size v <=? 3 then v * 256 ^ (3 - byte_size v) else v / 256 ^ (byte_size v - 3).

Definition compact_encode (v : Z) : Z :=
  if 2 ^ 23 <=? mantissa v then mantissa v / 256 + (byte_size v + 1) * 2 ^ 24
  else mantissa v + byte_size v * 2 ^ 24.

Lemma byte_size_spec v : 0 < v < 2 ^ 256 ->
  1 <= byte_size v <= 32 /\ 256 ^ (byte_size v - 1) <= v < 256 ^ byte_size v.
Proof.
  intros Hv. unfold byte_size. destruct (Z.eqb_spec v 0) as [|_]; [lia|].
  pose proof (Z.log2_nonneg v). pose proof (Z.log2_spec v ltac:(lia)) as [L1 L2].
  pose proof (proj1 (Z.log2_lt_pow2 v 256 ltac:(lia)) ltac:(lia)).
  set (l := Z.log2 v) in *. clearbody l.
  pose proof (Z.div_mod (l + 1 + 7) 8 ltac:(lia)). pose proof (Z.mod_pos_bound (l + 1 + 7) 8 ltac:(lia)).
  set (n := (l + 1 + 7) / 8) in *. clearbody n.
  rewrite !pow256_pow2 by lia. split; [lia|]. split.
  - apply Z.le_trans with (2 ^ l); [apply Z.pow_le_mono_r; lia|lia].
  - apply Z.lt_le_trans with (2 ^ Z.succ l); [lia|apply Z.pow_le_mono_r; lia].
Qed.

Lemma mantissa_range v : 0 < v < 2 ^ 256 -> 2 ^ 16 <= mantissa v < 2 ^ 24.
Proof.
  intros Hv. destruct (byte_size_spec v Hv) as [Hn [L U]]. unfold mantissa.
  set (n := byte_size v) in *. clearbody n. change (2 ^ 16) with (256 ^ 2). change (2 ^ 24) with (256 ^ 3).
  destruct (Z.leb_spec n 3).
  - pose proof (pow256_pos (3 - n) ltac:(lia)).
    replace (256 ^ 2) with (256 ^ (n - 1) * 256 ^ (3 - n)) by (rewrite <- Z.pow_add_r by lia; f_equal; lia).
    replace (256 ^ 3) with (256 ^ n * 256 ^ (3 - n)) by (rewrite <- Z.pow_add_r by lia; f_equal; lia).
    nia.
  - pose proof (pow256_pos (n - 3) ltac:(lia)).
    split; [apply Z.div_le_lower_bound; [lia|]|apply Z.div_lt_upper_bound; [lia|]];
      rewrite <- Z.pow_add_r by lia.
    + replace (n - 3 + 2) with (n - 1) by lia. lia.
    + replace (n - 3 + 3) with n by lia. lia.
Qed.

Lemma mantissa_zero : mantissa 0 = 0.
Proof. reflexivity. Qed.

Lemma land_bit23 m : 0 <= m < 2 ^ 24 -> negb (Z.land m 8388608 =? 0) = (2 ^ 23 <=? m).
Proof.
  intros Hm. change 8388608 with (Z.shiftl 1 23). rewrite land_pow2_test, negb_involutive by lia.
  destruct (Z.leb_spec (2 ^ 23) m) as [H|H].
  - apply Z.testbit_true; [lia|].
    assert (m / 2 ^ 23 = 1) as ->; [|reflexivity].
    symmetry. apply Z.div_unique with (m - 2 ^ 23); lia.
  - apply (testbit_above 23); unfold in_u; lia.
Qed.

Lemma land_high_mask m : 0 <= m < 2 ^ 23 -> Z.land m (u32 (Z.lnot 8388607)) = 0.
Proof.
  intros Hm. change (u32 (Z.lnot 8388607)) with (Z.shiftl 511 23).
  apply Z.bits_inj'. intros i Hi. rewrite Z.land_spec, Z.bits_0.
  destruct (Z.lt_ge_cases i 23).
  - rewrite (Z.shiftl_spec_low 511) by lia. apply andb_false_r.
  - rewrite (testbit_above 23 m) by (unfold in_u; lia). reflexivity.
Qed.

(** The tail of [GetCompact]: mantissa and byte count below their limits are
    packed without a failing assertion. *)
Lemma compact_pack m s : 0 <= m < 2 ^ 23 -> 0 <= s < 256 ->
  (_ ← assert_ (Z.land m (u32 (Z.lnot 8388607)) =? 0); _ ← assert_ (s <? 256);
   Ok (Z.lor (Z.lor m (u32 (Z.shiftl s 24))) 0)) = Ok (m + s * 2 ^ 24).
Proof.
  intros Hm Hs. rewrite land_high_mask by lia.
  rewrite (proj2 (Z.ltb_lt s 256)) by lia. cbn.
  rewrite Z.lor_0_r, uwrap_small by (rewrite Z.shiftl_mul_pow2 by lia; word_lia).
  rewrite lor_low_high by (unfold in_u; lia). reflexivity.
Qed.

Lemma le_of_mul x p b : 0 <= x -> 0 < p -> x * p < b -> x < b.
Proof. intros. nia. Qed.

Lemma GetCompact_encode a : wf a -> GetCompact a false = Ok (compact_encode (uval a)).
Proof.
  intros Ha. pose proof (uval_bound a Ha) as B. unfold GetCompact.
  rewrite bits_spec by auto. fold (byte_size (uval a)).
  destruct (Z.eq_dec (uval a) 0) as [E0|N0].
  { rewrite GetLow64_val, E0 by auto. reflexivity. }
  destruct (byte_size_spec (uval a) ltac:(lia)) as [Hn _].
  pose proof (mantissa_range (uval a) ltac:(lia)) as Hm.
  assert (EM : (if byte_size (uval a) <=? 3
     then u32 (u64 (Z.shiftl (GetLow64 a) (8 * (3 - byte_size (uval a)))))
     else u32 (GetLow64 (op_shr a (8 * (byte_size (uval a) - 3))))) = mantissa (uval a)).
  { revert Hm. unfold mantissa. destruct (Z.leb_spec (byte_size (uval a)) 3) as [L|L]; intros Hm.
    - pose proof (pow256_pos (3 - byte_size (uval a)) ltac:(lia)).
      assert (uval a < 2 ^ 24) by (apply le_of_mul with (256 ^ (3 - byte_size (uval a))); lia).
      rewrite GetLow64_val, Z.shiftl_mul_pow2, <- pow256_pow2, (Z.mod_small (uval a)) by (auto; lia).
      rewrite (uwrap_small 64), (uwrap_small 32) by word_lia. reflexivity.
    - rewrite GetLow64_val, op_shr_val, <- pow256_pow2 by (auto using op_shr_wf; try (apply op_shr_wf; auto); lia).
      rewrite uwrap_small; rewrite Z.mod_small; word_lia. }
  rewrite EM. unfold compact_encode. rewrite land_bit23 by lia.
  destruct (Z.leb_spec (2 ^ 23) (mantissa (uval a))).
  - rewrite Z.shiftr_div_pow2 by lia. change (2 ^ 8) with 256. apply compact_pack; [|lia].
    split; [apply Z.div_pos; lia|apply Z.div_lt_upper_bound; lia].
  - apply compact_pack; lia.
Qed.

Lemma pack_decode m s : 0 <= m < 2 ^ 23 -> 0 <= s < 256 ->
  in_u 32 (m + s * 2 ^ 24) /\ (m + s * 2 ^ 24) / 2 ^ 24 = s /\ (m + s * 2 ^ 24) mod 2 ^ 23 = m /\
  Z.testbit (m + s * 2 ^ 24) 23 = false.
Proof.
  intros Hm Hs. split; [unfold in_u; lia|].
  split; [rewrite Z.div_add, Z.div_small by lia; lia|].
  split.
  - replace (m + s * 2 ^ 24) with (m + (2 * s) * 2 ^ 23) by lia. rewrite Z.mod_add, Z.mod_small by lia. lia.
  - apply Z.testbit_false; [lia|].
    replace (m + s * 2 ^ 24) with (m + (2 * s) * 2 ^ 23) by lia.
    rewrite Z.div_add, Z.div_small by lia. rewrite Z.add_0_l, Z.mul_comm. apply Z.mod_mul. lia.
Qed.

(** Rounding down to a multiple of [256^e] is the compact floor as soon as the
    kept digits are at least [2^15]. *)
Lemma floor_multiple v e :
  0 <= e -> 0 <= v / 256 ^ e < 2 ^ 23 -> (2 ^ 15 <= v / 256 ^ e \/ e = 0) ->
  compact_floor v (v / 256 ^ e * 256 ^ e).
Proof.
  intros He Hm Hbig. pose proof (pow256_pos e He) as P.
  pose proof (Z.div_mod v (256 ^ e) ltac:(lia)). pose proof (Z.mod_pos_bound v (256 ^ e) P).
  split; [exists (v / 256 ^ e), e; auto|]. split; [nia|].
  intros r (m' & e' & Hm' & He' & ->) Hr.
  destruct (Z.le_gt_cases e e') as [L|L].
  - assert (E : m' * 256 ^ e' = m' * 256 ^ (e' - e) * 256 ^ e).
    { rewrite <- Z.mul_assoc, <- Z.pow_add_r by lia. do 2 f_equal. lia. }
    rewrite E in *. apply Z.mul_le_mono_nonneg_r; [lia|]. apply Z.div_le_lower_bound; lia.
  - destruct Hbig as [Hbig|]; [|lia].
    pose proof (Z.pow_le_mono_r 256 e' (e - 1) ltac:(lia) ltac:(lia)).
    assert (256 ^ e = 256 * 256 ^ (e - 1)) by (rewrite <- Z.pow_succ_r by lia; f_equal; lia).
    pose proof (pow256_pos e' He'). pose proof (pow256_pos (e - 1) ltac:(lia)).
    apply Z.le_trans with (2 ^ 15 * 256 ^ e); [|nia]. nia.
Qed.

Lemma compact_value_pack m s : 0 <= m < 2 ^ 23 -> 0 <= s < 256 ->
  compact_value (m + s * 2 ^ 24) = if s <=? 3 then m / 256 ^ (3 - s) else m * 256 ^ (s - 3).
Proof.
  intros Hm Hs. destruct (pack_decode m s Hm Hs) as (_ & E1 & E2 & _).
  unfold compact_value. rewrite E1, E2. reflexivity.
Qed.

(** Encoding rounds down to the nearest expressible number. *)
Lemma compact_encode_spec v : 0 <= v < 2 ^ 256 ->
  in_u 32 (compact_encode v) /\ Z.testbit (compact_encode v) 23 = false /\
  compact_floor v (compact_value (compact_encode v)).
Proof.
  intros Hv. destruct (Z.eq_dec v 0) as [->|N0].
  { change (compact_encode 0) with 0. change (compact_value 0) with 0.
    split; [word_lia|]. split; [reflexivity|]. apply compact_floor_repr, compact_repr_small. lia. }
  destruct (byte_size_spec v ltac:(lia)) as [Hn _]. pose proof (mantissa_range v ltac:(lia)) as Hm.
  unfold compact_encode. set (n := byte_size v) in *.
  destruct (Z.leb_spec (2 ^ 23) (mantissa v)) as [Hb|Hb].
  - assert (Hm8 : 0 <= mantissa v / 256 < 2 ^ 23 /\ 2 ^ 15 <= mantissa v / 256).
    { split; [split; [apply Z.div_pos; lia|apply Z.div_lt_upper_bound; lia]|apply Z.div_le_lower_bound; lia]. }
    destruct Hm8 as [Hm8 Hm15]. destruct (pack_decode _ (n + 1) Hm8 ltac:(lia)) as (? & _ & _ & ?).
    split; [auto|]. split; [auto|]. rewrite compact_value_pack by lia.
    revert Hb Hm8 Hm15. unfold mantissa. fold n. intros.
    destruct (Z.leb_spec n 3) as [L3|L3], (Z.leb_spec (n + 1) 3) as [L4|L4]; try lia.
    + assert (E : v * 256 ^ (3 - n) = v * 256 ^ (3 - (n + 1)) * 256).
      { rewrite <- Z.mul_assoc. f_equal. rewrite Z.mul_comm, <- Z.pow_succ_r by lia. f_equal. lia. }
      rewrite E, Z.div_mul, Z.div_mul in * by (try apply Z.pow_nonzero; lia).
      apply compact_floor_repr, compact_repr_small. pose proof (pow256_pos (3 - (n + 1)) ltac:(lia)). nia.
    + assert (n = 3) as En by lia. rewrite En in *. change (3 - 3) with 0 in *.
      rewrite Z.pow_0_r, Z.mul_1_r in *. change (3 + 1 - 3) with 1.
      apply (floor_multiple v 1); rewrite ?Z.pow_1_r; [lia|lia|left; lia].
    + rewrite Z.div_div in * by (try apply Z.pow_nonzero; lia).
      assert (E : 256 ^ (n - 3) * 256 = 256 ^ (n + 1 - 3)).
      { rewrite Z.mul_comm, <- Z.pow_succ_r by lia. f_equal. lia. }
      rewrite E in *. apply floor_multiple; [lia|lia|left; lia].
  - destruct (pack_decode (mantissa v) n ltac:(lia) ltac:(lia)) as (? & _ & _ & ?).
    split; [auto|]. split; [auto|]. rewrite compact_value_pack by lia.
    revert Hb Hm. unfold mantissa. fold n. intros.
    destruct (Z.leb_spec n 3) as [L3|L3].
    + rewrite Z.div_mul by (apply Z.pow_nonzero; lia).
      apply compact_floor_repr, compact_repr_small. pose proof (pow256_pos (3 - n) ltac:(lia)).
      split; [lia|]. apply le_of_mul with (256 ^ (3 - n)); lia.
    + apply floor_multiple; [lia|lia|left; lia].
Qed.

(** ** Reading a blob *)

(** The 32 bytes of a [uint256]. *)
Definition blob (b : list Z) : Prop := length b = 32%nat /\ Forall (in_u 8) b.

Lemma le_val_chunk4 (b : list Z) n : (4 * n <= length b)%nat ->
  le_val 32 (map (fun x => ReadLE32 (drop (x * 4) b)) (seq 0 n)) = le_val 8 (take (4 * n) b).
Proof.
  revert b. induction n as [|n IH]; intros b Hb; [rewrite take_0; reflexivity|].
  cbn [seq map le_val]. rewrite <- seq_shift, map_map.
  erewrite map_ext with (g := fun x => ReadLE32 (drop (x * 4) (drop 4 b)));
    [|intros x; rewrite drop_drop; do 2 f_equal; lia].
  rewrite IH by (rewrite length_drop; lia). unfold ReadLE32. rewrite Nat.mul_0_l. cbn [drop].
  replace (4 * S n)%nat with (4 + 4 * n)%nat by lia.
  rewrite <- (take_drop 4 (take (4 + 4 * n) b)), take_take, skipn_firstn_comm, le_val_app by lia.
  rewrite length_take, Nat.min_l by lia. replace (4 `min` (4 + 4 * n))%nat with 4%nat by lia.
  replace (4 + 4 * n - 4)%nat with (4 * n)%nat by lia.
  rewrite drop_0. replace (4 `min` length b)%nat with 4%nat by lia. reflexivity.
Qed.

Lemma ReadLE32_in_u b : (4 <= length b)%nat -> Forall (in_u 8) b -> in_u 32 (ReadLE32 b).
Proof.
  intros Hl Hb. unfold ReadLE32.
  pose proof (le_val_bound 8 (take 4 b) ltac:(lia) (Forall_take _ _ _ Hb)) as H.
  rewrite length_take, Nat.min_l in H by lia. exact H.
Qed.

Lemma UintToArith256_wf b : blob b -> wf (UintToArith256 b).
Proof.
  intros [Hl Hb]. split; [reflexivity|]. unfold UintToArith256. apply Forall_map, Forall_forall.
  intros x Hx. apply list_elem_of_In, in_seq in Hx. apply ReadLE32_in_u; [|apply Forall_drop; auto].
  rewrite length_drop, Hl. cbv [WIDTH] in Hx. lia.
Qed.

Lemma UintToArith256_val b : blob b -> uval (UintToArith256 b) = le_val 8 b.
Proof.
  intros [Hl Hb]. unfold uval, UintToArith256. rewrite le_val_chunk4 by (rewrite Hl; cbv; lia).
  rewrite take_ge; [reflexivity|]. rewrite Hl. cbv. lia.
Qed.

#[export] Hint Resolve UintToArith256_wf : words.

(** ** Targets

    The callers reject a negative, an overflowing and a zero target alike;
    [compact_target] is the number of an accepted one. *)

Definition compact_target (c : Z) : option Z :=
  if ((compact_value c =? 0) || Z.testbit c 23 || (2 ^ 256 <=? compact_value c))%bool then None
  else Some (compact_value c).

Lemma compact_value_nonneg c : in_u 32 c -> 0 <= compact_value c.
Proof.
  intros Hc. destruct (SetCompact_word c Hc) as (_ & _ & Hs & Hw). unfold compact_value.
  destruct (Z.leb_spec (c / 2 ^ 24) 3).
  - apply Z.div_pos; [lia|apply pow256_pos; lia].
  - pose proof (pow256_pos (c / 2 ^ 24 - 3) ltac:(lia)). nia.
Qed.

(** No encoded number is the all-ones word. *)
Lemma compact_target_range c v : in_u 32 c -> compact_target c = Some v -> 0 < v < 2 ^ 256 - 1.
Proof.
  intros Hc Hv. pose proof (compact_value_nonneg c Hc) as Hn. unfold compact_target in Hv.
  destruct (_ || _)%bool eqn:E; [discriminate|]. injection Hv as <-. zbool.
  split; [lia|]. assert (compact_value c <> 2 ^ 256 - 1); [|lia].
  destruct (SetCompact_word c Hc) as (_ & _ & Hs & Hw). unfold compact_value.
  destruct (Z.leb_spec (c / 2 ^ 24) 3) as [L|L].
  - assert (c mod 2 ^ 23 / 256 ^ (3 - c / 2 ^ 24) <= c mod 2 ^ 23) by (apply Z.div_le_upper_bound;
      [apply pow256_pos; lia|pose proof (pow256_pos (3 - c / 2 ^ 24) ltac:(lia)); nia]). lia.
  - replace (c / 2 ^ 24 - 3) with (Z.succ (c / 2 ^ 24 - 4)) by lia. rewrite Z.pow_succ_r by lia.
    change (2 ^ 256) with (256 * 2 ^ 248). lia.
Qed.

Lemma SetCompact_target c : in_u 32 c ->
  let '(r, fNegative, fOverflow) := SetCompact c in
  wf r /\
  match compact_target c with
  | None => (fNegative || fOverflow || EqualTo r 0)%bool = true
  | Some v => (fNegative || fOverflow || EqualTo r 0)%bool = false /\ uval r = v
  end.
Proof.
  intros Hc. pose proof (SetCompact_spec c Hc) as H. pose proof (compact_value_nonneg c Hc) as Hn.
  destruct (SetCompact c) as [[r n] o]. destruct H as (Hr & Hv & -> & ->). split; [exact Hr|].
  rewrite (EqualTo_spec r 0 Hr) by word_lia. rewrite Hv. unfold compact_target.
  destruct (Z.eqb_spec (compact_value c) 0) as [E|E]; [rewrite E; reflexivity|]. cbn [orb negb andb].
  destruct (Z.testbit c 23); [reflexivity|]. cbn [orb].
  destruct (Z.leb_spec (2 ^ 256) (compact_value c)) as [L|L]; [reflexivity|].
  rewrite Z.mod_small by lia. split; [|reflexivity]. apply Z.eqb_neq. exact E.
Qed.

(** ** Correctness of the encoding *)

(** [SetCompact] decodes every 32-bit word: the stored value is the denoted
    number modulo [2^256], [pfOverflow] is raised exactly when the denoted
    number needs more than 256 bits and [pfNegative] exactly when the sign bit
    of a non-zero number is set. *)
Theorem SetCompact_correct (c : Z) : in_u 32 c ->
  let '(r, fNegative, fOverflow) := SetCompact c in
  wf r /\ uval r = compact_value c mod 2 ^ 256 /\
  fNegative = (negb (compact_value c =? 0) && Z.testbit c 23)%bool /\
  fOverflow = (2 ^ 256 <=? compact_value c).
Proof. apply SetCompact_spec. Qed.

Lemma SetCompact_correct_witness :
  in_u 32 0x1d00ffff /\ uval (SetCompact 0x1d00ffff).1.1 = 65535 * 2 ^ 208 /\
  (SetCompact 0x217fffff).2 = true.
Proof.
  split; [word_lia|].
  pose proof (SetCompact_correct 0x1d00ffff ltac:(word_lia)) as H.
  split; [destruct (SetCompact 0x1d00ffff) as [[r n] o]; destruct H as (_ & Hv & _); cbn [fst]; rewrite Hv|];
    vm_compute; reflexivity.
Defined.

(** [GetCompact] never trips its assertions, and decoding its result gives
    the largest number the format can express that is not above the input:
    encoding only ever rounds a target down, and is the identity on targets
    that are expressible. *)
Theorem GetCompact_rounds_down (a : base_uint) : wf a ->
  exists c, GetCompact a false = Ok c /\ in_u 32 c /\
    let '(r, fNegative, fOverflow) := SetCompact c in
    wf r /\ fNegative = false /\ fOverflow = false /\ compact_floor (uval a) (uval r).
Proof.
  intros Ha. pose proof (uval_bound a Ha) as B.
  destruct (compact_encode_spec (uval a) B) as (Hc & Hs & Hf).
  exists (compact_encode (uval a)). split; [apply GetCompact_encode; auto|]. split; [auto|].
  pose proof (SetCompact_spec _ Hc) as H. destruct (SetCompact _) as [[r n] o].
  destruct H as (Hr & Hv & Hn & Ho). rewrite Hs, andb_false_r in Hn.
  destruct Hf as (Hrep & Hle & Hmax).
  assert (0 <= compact_value (compact_encode (uval a))).
  { destruct Hrep as (m & e & ? & ? & ->). pose proof (pow256_pos e ltac:(auto)). nia. }
  rewrite Z.mod_small in Hv by lia.
  split; [auto|]. split; [auto|]. split; [rewrite Ho; apply Z.leb_gt; lia|].
  rewrite Hv. split; auto.
Qed.

Lemma GetCompact_rounds_down_witness :
  exists c, GetCompact (of_u64 0xc0de000001) false = Ok c /\ c = 0x0600c0de.
Proof.
  destruct (GetCompact_rounds_down (of_u64 0xc0de000001)) as (c & E & _); [apply of_u64_wf|].
  exists c. split; [exact E|]. vm_compute in E. congruence.
Defined.

Lemma compact_repr_encode m s :
  2 ^ 15 <= m < 2 ^ 23 -> 3 <= s -> m * 256 ^ (s - 3) < 2 ^ 256 ->
  compact_encode (m * 256 ^ (s - 3)) = m + s * 2 ^ 24.
Proof.
  intros Hm Hs Hlt. pose proof (pow256_pos (s - 3) ltac:(lia)) as P.
  set (v := m * 256 ^ (s - 3)) in *.
  assert (Hv : 0 < v < 2 ^ 256) by (unfold v in *; nia).
  destruct (byte_size_spec v Hv) as [Hn [L U]].
  assert (En : byte_size v = s \/ byte_size v = s - 1).
  { assert (U' : v < 256 ^ s).
    { replace s with (s - 3 + 3) by lia. rewrite Z.pow_add_r by lia. unfold v. change (256 ^ 3) with 16777216. nia. }
    assert (L' : 256 ^ (s - 3 + 1) <= v) by (rewrite Z.pow_add_r by lia; unfold v; nia).
    assert (byte_size v - 1 < s) by (apply (Z.pow_lt_mono_r_iff 256); lia).
    assert (s - 3 + 1 < byte_size v) by (apply (Z.pow_lt_mono_r_iff 256); lia). lia. }
  unfold compact_encode, mantissa. destruct En as [En|En]; rewrite En.
  - assert (E : (if s <=? 3 then v * 256 ^ (3 - s) else v / 256 ^ (s - 3)) = m).
    { unfold v. destruct (Z.leb_spec s 3); [assert (s = 3) as -> by lia; simpl; lia|].
      apply Z.div_mul. lia. }
    rewrite E. destruct (Z.leb_spec (2 ^ 23) m); [lia|reflexivity].
  - assert (E : (if s - 1 <=? 3 then v * 256 ^ (3 - (s - 1)) else v / 256 ^ (s - 1 - 3)) = m * 256).
    { unfold v. destruct (Z.leb_spec (s - 1) 3).
      - rewrite <- Z.mul_assoc, <- Z.pow_add_r by lia. f_equal. replace (s - 3 + (3 - (s - 1))) with 1 by lia. reflexivity.
      - replace (s - 3) with (s - 1 - 3 + 1) by lia. rewrite Z.pow_add_r, Z.mul_assoc by lia.
        replace (m * 256 ^ (s - 1 - 3) * 256 ^ 1) with (m * 256 * 256 ^ (s - 1 - 3)) by ring.
        apply Z.div_mul. pose proof (pow256_pos (s - 1 - 3)). lia. }
    rewrite E. destruct (Z.leb_spec (2 ^ 23) (m * 256)); [|lia].
    rewrite Z.div_mul by lia. f_equal. lia.
Qed.

(** A compact word in normal form (a positive mantissa of at least
    [0x8000], at least three bytes, no overflow) survives decoding and
    re-encoding unchanged, so header difficulty fields are compared faithfully
    by comparing words. *)
Theorem compact_roundtrip (m s : Z) :
  2 ^ 15 <= m < 2 ^ 23 -> 3 <= s < 256 -> (SetCompact (m + s * 2 ^ 24)).2 = false ->
  GetCompact (SetCompact (m + s * 2 ^ 24)).1.1 false = Ok (m + s * 2 ^ 24).
Proof.
  intros Hm Hs Hov. destruct (pack_decode m s ltac:(lia) ltac:(lia)) as (Hc & _).
  pose proof (SetCompact_spec _ Hc) as H. destruct (SetCompact _) as [[r n] o]. cbn [fst snd] in *. subst o.
  destruct H as (Hr & Hv & _ & Ho). rewrite GetCompact_encode by auto.
  rewrite compact_value_pack in * by lia.
  assert (E : (if s <=? 3 then m / 256 ^ (3 - s) else m * 256 ^ (s - 3)) = m * 256 ^ (s - 3)).
  { destruct (Z.leb_spec s 3); [|reflexivity]. assert (s = 3) as -> by lia.
    change (3 - 3) with 0. rewrite Z.pow_0_r, Z.div_1_r. lia. }
  rewrite E in *. symmetry in Ho. apply Z.leb_gt in Ho.
  pose proof (pow256_pos (s - 3) ltac:(lia)).
  rewrite Z.mod_small in Hv by nia. rewrite Hv, compact_repr_encode by lia. reflexivity.
Qed.

Lemma compact_roundtrip_witness :
  GetCompact (SetCompact (0xffff + 0x20 * 2 ^ 24)).1.1 false = Ok (0xffff + 0x20 * 2 ^ 24).
Proof. apply compact_roundtrip; [lia|lia|vm_compute; reflexivity]. Defined.

(** ** Blob conversions *)

Lemma ReadLE32_WriteLE32 x rest : in_u 32 x -> ReadLE32 (WriteLE32 x ++ rest) = x.
Proof.
  intros Hx. unfold ReadLE32. rewrite take_app_length' by reflexivity.
  unfold WriteLE32. rewrite le_val_digits by lia. apply Z.mod_small. exact Hx.
Qed.

Lemma drop_flat_map_WriteLE32 a j :
  drop (j * 4) (flat_map WriteLE32 a) = flat_map WriteLE32 (drop j a).
Proof.
  revert j. induction a as [|x a IH]; intros j; [cbn [flat_map]; rewrite !drop_nil; reflexivity|].
  destruct j as [|j]; [reflexivity|]. simpl flat_map.
  change (S j * 4)%nat with (4 + j * 4)%nat. rewrite <- drop_drop. simpl. apply IH.
Qed.

Lemma flat_map_WriteLE32_read a j :
  Forall (in_u 32) a -> (j < length a)%nat ->
  ReadLE32 (flat_map WriteLE32 (drop j a)) = limb a j.
Proof.
  intros Ha Hj. destruct (lookup_lt_is_Some_2 a j Hj) as [x Hx].
  rewrite (drop_S _ _ _ Hx). simpl flat_map.
  unfold limb. rewrite nth_lookup, Hx. simpl default.
  apply (ReadLE32_WriteLE32 x). rewrite Forall_lookup in Ha. eauto.
Qed.

(** Converting a 256-bit number to the opaque [uint256] blob (little-endian
    limbs, little-endian bytes) and back is the identity, and the blob read as
    one little-endian number has the same value. *)
Theorem uint256_blob_roundtrip (a : base_uint) : wf a ->
  UintToArith256 (ArithToUint256 a) = a /\ length (ArithToUint256 a) = 32%nat /\
  Forall (in_u 8) (ArithToUint256 a) /\ le_val 8 (ArithToUint256 a) = uval a.
Proof.
  intros [Hl Ha]. unfold UintToArith256, ArithToUint256. split.
  - apply (list_ext_nth _ _ 0); [rewrite length_map, length_seq; auto|].
    intros i Hi. rewrite length_map, length_seq in Hi.
    rewrite (nth_indep _ 0 ((fun x => ReadLE32 (drop (x * 4) (flat_map WriteLE32 a))) 0%nat))
      by (rewrite length_map, length_seq; auto).
    rewrite (map_nth (fun x => ReadLE32 (drop (x * 4) (flat_map WriteLE32 a)))).
    rewrite seq_nth by auto. rewrite drop_flat_map_WriteLE32.
    apply flat_map_WriteLE32_read; [auto|lia].
  - assert (G : length (flat_map WriteLE32 a) = (length a * 4)%nat /\
                Forall (in_u 8) (flat_map WriteLE32 a) /\ le_val 8 (flat_map WriteLE32 a) = le_val 32 a).
    { clear Hl. induction Ha as [|x a Hx Ha (IH1 & IH2 & IH3)]; [repeat split; constructor|].
      cbn [flat_map]. split; [rewrite length_app, IH1; reflexivity|].
      split; [apply Forall_app; split; [apply le_digits_in_u; lia|auto]|].
      rewrite le_val_app, IH3 by lia. unfold WriteLE32. rewrite le_val_digits by lia.
      rewrite Z.mod_small by exact Hx. rewrite le_digits_length. reflexivity. }
    rewrite Hl in G. exact G.
Qed.

Lemma uint256_blob_roundtrip_witness :
  UintToArith256 (ArithToUint256 (of_u64 0x123456789abcdef0)) = of_u64 0x123456789abcdef0.
Proof. apply uint256_blob_roundtrip. apply of_u64_wf. Defined.
