(* ===== verification/Params.v ===== *)
(** * Consensus parameters

    Models [src/consensus/params.h], [src/deploymentinfo.cpp] and the constants
    of [src/consensus/amount.h] and [src/consensus/consensus.h].  The values
    themselves (the tables of [kernel/chainparams.cpp]) are not part of the
    sources: they are the argument [params] of every definition that reads
    them. *)

From stdpp Require Import base numbers list strings gmap.
From Stdlib Require Import ZArith Lia.
From S2P Require Import Prelude.

Local Open Scope Z_scope.

(** A [uint256]: its 32 bytes in memory order. *)
Notation uint256 := (list Z).

(** ** Amounts ([consensus/amount.h]) *)

Definition COIN : Z := 100000000.
Definition MAX_MONEY : Z := 1213000000 * COIN.
Definition MoneyRange (nValue : Z) : bool := (0 <=? nValue) && (nValue <=? MAX_MONEY).

(** ** Limits ([consensus/consensus.h]) *)

Definition MAX_BLOCK_WEIGHT : Z := 4000000.
Definition COINBASE_MATURITY : Z := 100.
Definition WITNESS_SCALE_FACTOR : Z := 4.
Definition MIN_TRANSACTION_WEIGHT : Z := WITNESS_SCALE_FACTOR * 60.
Definition LOCKTIME_VERIFY_SEQUENCE : Z := Z.shiftl 1 0.

(** ** Deployments *)

Inductive BuriedDeployment : Type :=
| DEPLOYMENT_HEIGHTINCB
| DEPLOYMENT_CLTV
| DEPLOYMENT_DERSIG
| DEPLOYMENT_CSV
| DEPLOYMENT_SEGWIT.

Inductive DeploymentPos : Type :=
| DEPLOYMENT_TESTDUMMY
| DEPLOYMENT_TAPROOT.

#[global] Instance BuriedDeployment_eq_dec : EqDecision BuriedDeployment.
Proof. solve_decision. Defined.
#[global] Instance DeploymentPos_eq_dec : EqDecision DeploymentPos.
Proof. solve_decision. Defined.

(** The order of the enumerators: [for (i = 0; i < MAX_VERSION_BITS_DEPLOYMENTS; i++)]. *)
Definition all_deployments : list DeploymentPos := [DEPLOYMENT_TESTDUMMY; DEPLOYMENT_TAPROOT].

Definition NO_TIMEOUT : Z := 2 ^ 63 - 1.
Definition ALWAYS_ACTIVE : Z := -1.
Definition NEVER_ACTIVE : Z := -2.

Record BIP9Deployment : Type := {
  bit : Z;
  nStartTime : Z;
  nTimeout : Z;
  min_activation_height : Z;
}.

(** The member initialisers of [struct BIP9Deployment]. *)
Definition BIP9Deployment_default : BIP9Deployment :=
  {| bit := 28; nStartTime := NEVER_ACTIVE; nTimeout := NEVER_ACTIVE; min_activation_height := 0 |}.

Record Params : Type := {
  hashGenesisBlock : uint256;
  nSubsidyHalvingInterval : Z;
  script_flag_exceptions : list (uint256 * Z);
  BIP34Height : Z;
  BIP34Hash : uint256;
  BIP65Height : Z;
  BIP66Height : Z;
  CSVHeight : Z;
  SegwitHeight : Z;
  MinBIP9WarningHeight : Z;
  nRuleChangeActivationThreshold : Z;
  nMinerConfirmationWindow : Z;
  vDeployments : DeploymentPos -> BIP9Deployment;
  powLimit : uint256;
  fPowAllowMinDifficultyBlocks : bool;
  fPowNoRetargeting : bool;
  nPowTargetSpacing : Z;
  nPowTargetTimespan : Z;
  nMinimumChainWork : uint256;
  defaultAssumeValid : uint256;
  signet_blocks : bool;
  signet_challenge : list Z;
}.

(** [int64_t] division truncates. *)
Definition DifficultyAdjustmentInterval (p : Params) : Z :=
  Z.quot (nPowTargetTimespan p) (nPowTargetSpacing p).

Definition DeploymentHeight (p : Params) (dep : BuriedDeployment) : Z :=
  match dep with
  | DEPLOYMENT_HEIGHTINCB => BIP34Height p
  | DEPLOYMENT_CLTV => BIP65Height p
  | DEPLOYMENT_DERSIG => BIP66Height p
  | DEPLOYMENT_CSV => CSVHeight p
  | DEPLOYMENT_SEGWIT => SegwitHeight p
  end.

(** ** Names ([deploymentinfo.cpp]) *)

Definition DeploymentName (dep : BuriedDeployment) : string :=
  match dep with
  | DEPLOYMENT_HEIGHTINCB => "bip34"
  | DEPLOYMENT_CLTV => "bip65"
  | DEPLOYMENT_DERSIG => "bip66"
  | DEPLOYMENT_CSV => "csv"
  | DEPLOYMENT_SEGWIT => "segwit"
  end.

Definition GetBuriedDeployment (name : string) : option BuriedDeployment :=
  if String.eqb name "segwit" then Some DEPLOYMENT_SEGWIT
  else if String.eqb name "bip34" then Some DEPLOYMENT_HEIGHTINCB
  else if String.eqb name "dersig" then Some DEPLOYMENT_DERSIG
  else if String.eqb name "cltv" then Some DEPLOYMENT_CLTV
  else if String.eqb name "csv" then Some DEPLOYMENT_CSV
  else None.

(** A parameter set for witnesses: 90-second blocks retargeted every 960
    blocks, as the comments of [pow.cpp] describe them, and a proof-of-work
    limit of [2^224 - 1]. *)
Definition sample_params : Params := {|
  hashGenesisBlock := repeat 0 32;
  nSubsidyHalvingInterval := 210000;
  script_flag_exceptions := [];
  BIP34Height := 1; BIP34Hash := repeat 0 32; BIP65Height := 1; BIP66Height := 1;
  CSVHeight := 1; SegwitHeight := 1; MinBIP9WarningHeight := 0;
  nRuleChangeActivationThreshold := 3;
  nMinerConfirmationWindow := 4;
  vDeployments := fun d => match d with
    | DEPLOYMENT_TESTDUMMY => {| bit := 28; nStartTime := 100; nTimeout := 10000; min_activation_height := 0 |}
    | DEPLOYMENT_TAPROOT => {| bit := 2; nStartTime := ALWAYS_ACTIVE; nTimeout := NO_TIMEOUT; min_activation_height := 0 |}
    end;
  powLimit := repeat 255 28 ++ repeat 0 4;
  fPowAllowMinDifficultyBlocks := false;
  fPowNoRetargeting := false;
  nPowTargetSpacing := 90;
  nPowTargetTimespan := 86400;
  nMinimumChainWork := repeat 0 32;
  defaultAssumeValid := repeat 0 32;
  signet_blocks := false;
  signet_challenge := [];
|}.
