(* ===== verification/RandomX.v ===== *)
(** * The RandomX wrapper

    Models [src/crypto/randomx_wrapper.h] and [.cpp]: the singleton that owns a
    RandomX cache, dataset and virtual machine and rebuilds them when the key
    changes.  The RandomX library itself is not part of the repository: its
    hash is the parameter [rx_hash key input], its allocations may fail as
    answered by a list of booleans, and its handles are live between
    allocation and release, an access through any other handle being
    [BadAccess].  A C++ exception is [Thrown] and keeps the members assigned so
    far, which is what the theorems about failed allocations are about. *)

From stdpp Require Import base numbers list gmap strings.
From Stdlib Require Import ZArith Lia.
From S2P Require Import Prelude Params.

Local Open Scope Z_scope.

(** ** Key schedule *)

Definition RANDOMX_KEY_INTERVAL : Z := 2048.

(** The characters of ["KPCoin Genesis Block 2026"]. *)
Definition RANDOMX_GENESIS_KEY : bytes :=
  [75; 80; 67; 111; 105; 110; 32; 71; 101; 110; 101; 115; 105; 115; 32;
   66; 108; 111; 99; 107; 32; 50; 48; 50; 54].

Definition GetKeyBlockHeight (nHeight : Z) : Z :=
  if nHeight <? RANDOMX_KEY_INTERVAL then -1
  else
    let epochStart := nHeight - Z.rem nHeight RANDOMX_KEY_INTERVAL in
    epochStart - 1.

(** ** The library's objects *)

Notation handle := nat.

Record randomx_flags : Type := { HARD_AES : bool; LARGE_PAGES : bool }.
Definition RANDOMX_FLAG_DEFAULT : randomx_flags := {| HARD_AES := false; LARGE_PAGES := false |}.

(** Live caches and datasets with the key they were initialised from, live
    virtual machines with the cache and dataset they were created on. *)
Record rx_lib : Type := {
  caches : gmap handle (option bytes);
  datasets : gmap handle (option bytes);
  vms : gmap handle (handle * option handle);
  next_handle : handle;
  answers : list bool;   (** whether the next allocations succeed; then all do *)
}.

(** ** The wrapper's members *)

Record RandomXWrapper : Type := {
  m_cache : option handle;
  m_dataset : option handle;
  m_vm : option handle;
  m_currentKey : bytes;
  m_isMiningMode : bool;
}.

Record world : Type := { lib : rx_lib; rx : RandomXWrapper }.
Local Notation M := (stm world).

Definition set_lib (f : rx_lib -> rx_lib) : M unit := modify_st (fun w => {| lib := f (lib w); rx := rx w |}).

Definition with_caches (c : gmap handle (option bytes)) (l : rx_lib) : rx_lib :=
  {| caches := c; datasets := datasets l; vms := vms l; next_handle := next_handle l; answers := answers l |}.
Definition with_datasets (d : gmap handle (option bytes)) (l : rx_lib) : rx_lib :=
  {| caches := caches l; datasets := d; vms := vms l; next_handle := next_handle l; answers := answers l |}.
Definition with_vms (v : gmap handle (handle * option handle)) (l : rx_lib) : rx_lib :=
  {| caches := caches l; datasets := datasets l; vms := v; next_handle := next_handle l; answers := answers l |}.

(** A fresh handle, or null. *)
Definition alloc : M (option handle) := fun w =>
  let l := lib w in
  let l' := {| caches := caches l; datasets := datasets l; vms := vms l;
               next_handle := S (next_handle l); answers := tail (answers l) |} in
  (Ok (if default true (head (answers l)) then Some (next_handle l) else None), {| lib := l'; rx := rx w |}).

Definition randomx_alloc_cache : M (option handle) :=
  o ← alloc;
  match o with
  | Some c => _ ← set_lib (fun l => with_caches (<[c := None]> (caches l)) l); mret (Some c)
  | None => mret None
  end.

Definition randomx_init_cache (c : handle) (key : bytes) : M unit :=
  w ← get_st;
  match caches (lib w) !! c with
  | Some _ => set_lib (fun l => with_caches (<[c := Some key]> (caches l)) l)
  | None => fail_st BadAccess
  end.

Definition randomx_release_cache (c : handle) : M unit :=
  w ← get_st;
  match caches (lib w) !! c with
  | Some _ => set_lib (fun l => with_caches (delete c (caches l)) l)
  | None => fail_st BadAccess
  end.

Definition randomx_alloc_dataset : M (option handle) :=
  o ← alloc;
  match o with
  | Some d => _ ← set_lib (fun l => with_datasets (<[d := None]> (datasets l)) l); mret (Some d)
  | None => mret None
  end.

Definition randomx_init_dataset (d : handle) (c : option handle) : M unit :=
  w ← get_st;
  match c ≫= (fun c => caches (lib w) !! c), datasets (lib w) !! d with
  | Some (Some key), Some _ => set_lib (fun l => with_datasets (<[d := Some key]> (datasets l)) l)
  | _, _ => fail_st BadAccess
  end.

Definition randomx_release_dataset (d : handle) : M unit :=
  w ← get_st;
  match datasets (lib w) !! d with
  | Some _ => set_lib (fun l => with_datasets (delete d (datasets l)) l)
  | None => fail_st BadAccess
  end.

(** Needs a live, initialised cache; without one it returns null (the wrapper
    does not ask for [RANDOMX_FLAG_FULL_MEM]). *)
Definition randomx_create_vm (flags : randomx_flags) (c d : option handle) : M (option handle) :=
  w ← get_st;
  match c with
  | Some ch =>
      match caches (lib w) !! ch with
      | Some (Some _) =>
          o ← alloc;
          match o with
          | Some v => _ ← set_lib (fun l => with_vms (<[v := (ch, d)]> (vms l)) l); mret (Some v)
          | None => mret None
          end
      | _ => fail_st BadAccess
      end
  | None => mret None
  end.

Definition randomx_destroy_vm (v : handle) : M unit :=
  w ← get_st;
  match vms (lib w) !! v with
  | Some _ => set_lib (fun l => with_vms (delete v (vms l)) l)
  | None => fail_st BadAccess
  end.

(** ** Member assignments *)

Definition set_rx (f : RandomXWrapper -> RandomXWrapper) : M unit :=
  modify_st (fun w => {| lib := lib w; rx := f (rx w) |}).
Definition set_cache (c : option handle) : M unit := set_rx (fun r =>
  {| m_cache := c; m_dataset := m_dataset r; m_vm := m_vm r; m_currentKey := m_currentKey r; m_isMiningMode := m_isMiningMode r |}).
Definition set_dataset (d : option handle) : M unit := set_rx (fun r =>
  {| m_cache := m_cache r; m_dataset := d; m_vm := m_vm r; m_currentKey := m_currentKey r; m_isMiningMode := m_isMiningMode r |}).
Definition set_vm (v : option handle) : M unit := set_rx (fun r =>
  {| m_cache := m_cache r; m_dataset := m_dataset r; m_vm := v; m_currentKey := m_currentKey r; m_isMiningMode := m_isMiningMode r |}).
Definition set_key (k : bytes) : M unit := set_rx (fun r =>
  {| m_cache := m_cache r; m_dataset := m_dataset r; m_vm := m_vm r; m_currentKey := k; m_isMiningMode := m_isMiningMode r |}).
Definition set_mining (b : bool) : M unit := set_rx (fun r =>
  {| m_cache := m_cache r; m_dataset := m_dataset r; m_vm := m_vm r; m_currentKey := m_currentKey r; m_isMiningMode := b |}).

(** ** The wrapper's operations *)

(** [RandomXWrapper::RandomXWrapper()]. *)
Definition rx_initial : RandomXWrapper :=
  {| m_cache := None; m_dataset := None; m_vm := None; m_currentKey := []; m_isMiningMode := false |}.

Definition InitCache (key : bytes) : M unit :=
  w ← get_st;
  _ ← match m_cache (rx w) with
      | Some c => _ ← randomx_release_cache c; set_cache None
      | None => mret tt
      end;
  o ← randomx_alloc_cache;
  _ ← set_cache o;
  match o with
  | None => fail_st (Thrown "RandomX: Failed to allocate cache")
  | Some c => _ ← randomx_init_cache c key; set_key key
  end.

Definition InitDataset : M unit :=
  w ← get_st;
  _ ← match m_dataset (rx w) with
      | Some d => _ ← randomx_release_dataset d; set_dataset None
      | None => mret tt
      end;
  o ← randomx_alloc_dataset;
  _ ← set_dataset o;
  match o with
  | None => fail_st (Thrown "RandomX: Failed to allocate dataset")
  | Some d => w ← get_st; randomx_init_dataset d (m_cache (rx w))
  end.

Definition DestroyVM : M unit :=
  w ← get_st;
  match m_vm (rx w) with
  | Some v => _ ← randomx_destroy_vm v; set_vm None
  | None => mret tt
  end.

Definition InitVM (fullMem : bool) : M unit :=
  _ ← DestroyVM;
  w ← get_st;
  let flags := {| HARD_AES := true; LARGE_PAGES := true |} in
  _ ← (if (fullMem && bool_decide (is_Some (m_dataset (rx w))))%bool then
         v ← randomx_create_vm flags (m_cache (rx w)) (m_dataset (rx w));
         match v with
         | Some _ => set_vm v
         | None =>
             v ← randomx_create_vm {| HARD_AES := true; LARGE_PAGES := false |} (m_cache (rx w)) (m_dataset (rx w));
             set_vm v
         end
       else
         v ← randomx_create_vm flags (m_cache (rx w)) None;
         match v with
         | Some _ => set_vm v
         | None =>
             v ← randomx_create_vm RANDOMX_FLAG_DEFAULT (m_cache (rx w)) None;
             set_vm v
         end);
  w ← get_st;
  match m_vm (rx w) with
  | None => fail_st (Thrown "RandomX: Failed to create VM")
  | Some _ => mret tt
  end.

Definition InitMiningMode (key : bytes) : M unit :=
  _ ← InitCache key; _ ← InitDataset; _ ← InitVM true; set_mining true.

Definition InitVerifyMode (key : bytes) : M unit :=
  _ ← InitCache key; _ ← InitVM false; set_mining false.

Definition NeedsKeyChange (key : bytes) : M bool :=
  w ← get_st; mret (negb (bool_decide (m_currentKey (rx w) = key))).

Definition Cleanup : M unit :=
  _ ← DestroyVM;
  w ← get_st;
  _ ← match m_dataset (rx w) with
      | Some d => _ ← randomx_release_dataset d; set_dataset None
      | None => mret tt
      end;
  _ ← match m_cache (rx w) with
      | Some c => _ ← randomx_release_cache c; set_cache None
      | None => mret tt
      end;
  _ ← set_key [];
  set_mining false.

Section Hashing.
(** [randomx_calculate_hash] as a function of the key of the machine's cache. *)
Context (rx_hash : bytes -> bytes -> uint256).

(** The machine must be live, and so must the cache it was created on. *)
Definition randomx_calculate_hash (v : option handle) (input : bytes) : M uint256 :=
  w ← get_st;
  match v ≫= (fun v => vms (lib w) !! v) with
  | Some (c, _) =>
      match caches (lib w) !! c with
      | Some (Some key) => mret (rx_hash key input)
      | _ => fail_st BadAccess
      end
  | None => fail_st BadAccess
  end.

(** The condition under which the state is rebuilt. *)
Definition needs_init (r : RandomXWrapper) (key : bytes) : bool :=
  bool_decide (m_vm r = None) || negb (bool_decide (m_currentKey r = key)).

Definition Hash (input key : bytes) : M uint256 :=
  w ← get_st;
  _ ← (if needs_init (rx w) key then
         _ ← InitCache key;
         if m_isMiningMode (rx w) then _ ← InitDataset; InitVM true else InitVM false
       else mret tt);
  w ← get_st;
  randomx_calculate_hash (m_vm (rx w)) input.

Definition LightHash (input key : bytes) : M uint256 :=
  w ← get_st;
  _ ← (if needs_init (rx w) key then _ ← InitCache key; InitVM false else mret tt);
  w ← get_st;
  randomx_calculate_hash (m_vm (rx w)) input.

(** ** Histories of calls *)

Inductive rx_call : Type :=
| CallHash (input key : bytes)
| CallLightHash (input key : bytes)
| CallMiningMode (key : bytes)
| CallVerifyMode (key : bytes)
| CallCleanup.

Definition rx_exec (c : rx_call) : M (option uint256) :=
  match c with
  | CallHash i k => h ← Hash i k; mret (Some h)
  | CallLightHash i k => h ← LightHash i k; mret (Some h)
  | CallMiningMode k => _ ← InitMiningMode k; mret None
  | CallVerifyMode k => _ ← InitVerifyMode k; mret None
  | CallCleanup => _ ← Cleanup; mret None
  end.

Definition rx_start (script : list bool) : world :=
  {| lib := {| caches := ∅; datasets := ∅; vms := ∅; next_handle := 0; answers := script |}; rx := rx_initial |}.

(** States after a history of calls that all returned normally ... *)
Inductive rx_reach : world -> Prop :=
| reach_start script : rx_reach (rx_start script)
| reach_call w c o w' : rx_reach w -> rx_exec c w = (Ok o, w') -> rx_reach w'.

(** ... or of calls some of which threw, the caller going on. *)
Inductive rx_reach_exn : world -> Prop :=
| reach_exn_start script : rx_reach_exn (rx_start script)
| reach_exn_call w c r w' :
    rx_reach_exn w -> rx_exec c w = (r, w') -> (exists o, r = Ok o) \/ (exists what, r = Fail (Thrown what)) ->
    rx_reach_exn w'.

(** ** Invariants *)

(** The wrapper's members are exactly the live objects of the library. *)
Record rx_owns (w : world) : Prop := {
  own_cache : match m_cache (rx w) with
              | Some c => exists k, caches (lib w) = {[c := Some k]}
              | None => caches (lib w) = ∅
              end;
  own_dataset : match m_dataset (rx w) with
                | Some d => exists k, datasets (lib w) = {[d := k]}
                | None => datasets (lib w) = ∅
                end;
  own_vm : match m_vm (rx w) with
           | Some v => exists x, vms (lib w) = {[v := x]}
           | None => vms (lib w) = ∅
           end;
}.

(** ** What the initialisers do

    Every lemma runs an initialiser from a state whose members own the live
    objects: it never touches a dead handle, and what it throws or returns is
    one of the listed outcomes. *)

Ltac rx_run :=
  repeat (cbn -[insert delete lookup singletonM empty] in *;
          unfold mbind, stm_bind, mret, stm_ret, get_st, modify_st, fail_st, set_lib, set_rx, set_cache,
            set_dataset, set_vm, set_key, set_mining, alloc in *);
  cbn -[insert delete lookup singletonM empty] in *.

Lemma lookup_own {A} (i : handle) (x : A) : ({[i := x]} : gmap handle A) !! i = Some x.
Proof using. apply lookup_singleton_eq. Qed.

Lemma delete_own {A} (i : handle) (x : A) : delete i ({[i := x]} : gmap handle A) = ∅.
Proof using. apply delete_singleton_eq. Qed.

Lemma insert_own {A} (i : handle) (x y : A) : <[i := y]> ({[i := x]} : gmap handle A) = {[i := y]}.
Proof using. apply insert_singleton_eq. Qed.

(** Allocations consume the answers from the front. *)
Definition fewer (w' w : world) : Prop := incl (answers (lib w')) (answers (lib w)).

Lemma incl_tail {A} (l : list A) : incl (tail l) l.
Proof using. destruct l; [apply incl_refl|]. apply incl_tl, incl_refl. Qed.

(** The cache is live and initialised with the current key. *)
Definition cache_ready (w : world) (c : handle) : Prop :=
  m_cache (rx w) = Some c /\ caches (lib w) = {[c := Some (m_currentKey (rx w))]}.

(** The machine runs on the current cache, initialised with the current key. *)
Definition rx_current (w : world) : Prop :=
  forall v, m_vm (rx w) = Some v -> exists c d, cache_ready w c /\ vms (lib w) = {[v := (c, d)]}.

(** After [InitCache] the cache holds the key, or is gone. *)
Lemma InitCache_run key w : rx_owns w -> exists r w',
  InitCache key w = (r, w') /\ rx_owns w' /\ fewer w' w /\
  m_isMiningMode (rx w') = m_isMiningMode (rx w) /\
  ((exists c, r = Ok tt /\ cache_ready w' c /\ m_currentKey (rx w') = key) \/
   (exists what, r = Fail (Thrown what) /\ In false (answers (lib w)))).
Proof using.
  destruct w as [[ca da vm n ans] [mc md mv k mm]]. intros [Hc Hd Hv].
  unfold InitCache, randomx_alloc_cache, randomx_release_cache, randomx_init_cache, fewer, cache_ready. rx_run.
  destruct mc as [c|]; [destruct Hc as [k0 ->]|subst ca]; rx_run; rewrite ?lookup_own; rx_run; rewrite ?delete_own;
    destruct ans as [|[|] ans]; rx_run; rewrite ?lookup_insert_eq; rx_run;
    (eexists _, _; split; [reflexivity|]; split; [split; rx_run; eauto|]; rx_run;
     rewrite ?insert_empty, ?insert_own;
     repeat split; auto using incl_refl, incl_tl; eauto 12).
Qed.

Lemma InitDataset_run w c : rx_owns w -> cache_ready w c -> exists r w',
  InitDataset w = (r, w') /\ rx_owns w' /\ fewer w' w /\
  m_isMiningMode (rx w') = m_isMiningMode (rx w) /\ cache_ready w' c /\ m_currentKey (rx w') = m_currentKey (rx w) /\
  (r = Ok tt \/ (exists what, r = Fail (Thrown what) /\ In false (answers (lib w)))).
Proof using.
  destruct w as [[ca da vm n ans] [mc md mv k mm]]. intros [Hc Hd Hv] [Ec Eca]. rx_run. subst mc ca.
  unfold InitDataset, randomx_alloc_dataset, randomx_release_dataset, randomx_init_dataset, fewer, cache_ready. rx_run.
  destruct md as [d|]; [destruct Hd as [k0 ->]|subst da]; rx_run; rewrite ?lookup_own; rx_run; rewrite ?delete_own;
    destruct ans as [|[|] ans]; rx_run; rewrite ?lookup_insert_eq, ?lookup_own; rx_run;
    (eexists _, _; split; [reflexivity|]; split; [split; rx_run; rewrite ?insert_empty, ?insert_own; eauto|]; rx_run;
     repeat split; auto using incl_refl, incl_tl; eauto 12).
Qed.

(** After [InitVM] the machine runs on the cache, or there is none. *)
Lemma InitVM_run full w c : rx_owns w -> cache_ready w c -> exists r w',
  InitVM full w = (r, w') /\ rx_owns w' /\ fewer w' w /\
  m_isMiningMode (rx w') = m_isMiningMode (rx w) /\ cache_ready w' c /\ m_currentKey (rx w') = m_currentKey (rx w) /\
  ((exists v d, r = Ok tt /\ m_vm (rx w') = Some v /\ vms (lib w') = {[v := (c, d)]}) \/
   (exists what, r = Fail (Thrown what) /\ In false (answers (lib w)) /\ m_vm (rx w') = None)).
Proof using.
  destruct w as [[ca da vm n ans] [mc md mv k mm]]. intros [Hc Hd Hv] [Ec Eca]. rx_run. subst mc ca.
  unfold InitVM, DestroyVM, randomx_create_vm, randomx_destroy_vm, fewer, cache_ready. rx_run.
  destruct mv as [v|]; [destruct Hv as [x ->]|subst vm]; rx_run; rewrite ?lookup_own; rx_run; rewrite ?delete_own;
    (destruct (full && _)%bool; rx_run; rewrite ?lookup_own; rx_run;
     destruct ans as [|[|] ans]; rx_run; rewrite ?lookup_own; rx_run;
     try (destruct ans as [|[|] ans]; rx_run);
     (eexists _, _; split; [reflexivity|]; split; [split; rx_run; eauto|]; rx_run;
      rewrite ?insert_empty; repeat split; auto using incl_refl, incl_tl; eauto 12)).
Qed.

Lemma DestroyVM_run w : rx_owns w -> exists w',
  DestroyVM w = (Ok tt, w') /\ rx_owns w' /\ m_vm (rx w') = None /\ fewer w' w.
Proof using.
  destruct w as [[ca da vm n ans] [mc md mv k mm]]. intros [Hc Hd Hv].
  unfold DestroyVM, randomx_destroy_vm, fewer. rx_run.
  destruct mv as [v|]; [destruct Hv as [x ->]|subst vm]; rx_run; rewrite ?lookup_own; rx_run; rewrite ?delete_own;
    (eexists; split; [reflexivity|]; split; [split; rx_run; eauto|]; rx_run; auto using incl_refl).
Qed.

(** [Cleanup] releases everything and returns to the constructor's state. *)
Lemma Cleanup_run w : rx_owns w -> exists w',
  Cleanup w = (Ok tt, w') /\ rx w' = rx_initial /\
  caches (lib w') = ∅ /\ datasets (lib w') = ∅ /\ vms (lib w') = ∅ /\ fewer w' w.
Proof using.
  intros Hw. destruct (DestroyVM_run w Hw) as (w1 & E1 & O1 & Hv & F1).
  unfold Cleanup, mbind at 1, stm_bind at 1. rewrite E1.
  destruct w1 as [[ca da vm n ans] [mc md mv k mm]]. destruct O1 as [Hc Hd Hvm]. unfold fewer in *. rx_run. subst mv.
  unfold randomx_release_dataset, randomx_release_cache.
  destruct mc as [c|]; [destruct Hc as [k0 ->]|subst ca]; (destruct md as [d|]; [destruct Hd as [k1 ->]|subst da]);
    rx_run; rewrite ?lookup_own; rx_run; rewrite ?lookup_own; rx_run; rewrite ?delete_own;
    (eexists; split; [reflexivity|]; rx_run; repeat split; auto).
Qed.

(** ** Rebuilding *)

Lemma stm_bind_Ok {S A B} (m : stm S A) (f : A -> stm S B) s a s' :
  m s = (Ok a, s') -> (m ≫= f) s = f a s'.
Proof using. intros E. unfold mbind, stm_bind. rewrite E. reflexivity. Qed.

Lemma stm_bind_Fail {S A B} (m : stm S A) (f : A -> stm S B) s e s' :
  m s = (Fail e, s') -> (m ≫= f) s = (Fail e, s').
Proof using. intros E. unfold mbind, stm_bind. rewrite E. reflexivity. Qed.

Lemma stm_bind_ext {S A B} (m m' : stm S A) (f : A -> stm S B) s : m s = m' s -> (m ≫= f) s = (m' ≫= f) s.
Proof using. intros E. unfold mbind, stm_bind. rewrite E. reflexivity. Qed.

(** What a call that rebuilds cache, dataset and machine can do. *)
Definition rebuilt (key : bytes) (w : world) (r : res unit) (w' : world) : Prop :=
  rx_owns w' /\ fewer w' w /\ m_isMiningMode (rx w') = m_isMiningMode (rx w) /\
  ((r = Ok tt /\ rx_current w' /\ m_currentKey (rx w') = key /\ is_Some (m_vm (rx w'))) \/
   (exists what, r = Fail (Thrown what) /\ In false (answers (lib w)))).

Lemma InitVM_rebuilt full w0 w c key : rx_owns w -> cache_ready w c -> fewer w w0 ->
  m_isMiningMode (rx w) = m_isMiningMode (rx w0) -> m_currentKey (rx w) = key ->
  exists r w', InitVM full w = (r, w') /\ rebuilt key w0 r w'.
Proof using.
  intros Ho Hc Hf Hm Hk. destruct (InitVM_run full w c Ho Hc) as (r & w' & E & O' & F' & M' & C' & K' & H).
  exists r, w'. split; [exact E|]. split; [auto|]. split; [eapply incl_tran; eauto|]. split; [congruence|].
  destruct H as [(v & d & -> & Hv & Hvm)|(what & -> & Hin & _)]; [left|right; exists what; split; auto; apply Hf; auto].
  split; [auto|]. split; [|split; [congruence|eauto]].
  intros v' Ev. assert (v' = v) by congruence. subst v'. eauto.
Qed.

Lemma rebuild_light key w : rx_owns w ->
  exists r w', (_ ← InitCache key; InitVM false) w = (r, w') /\ rebuilt key w r w'.
Proof using.
  intros Ho. destruct (InitCache_run key w Ho) as (r & w1 & E & O1 & F1 & M1 & H).
  destruct H as [(c & -> & Hc & Hk)|(what & -> & Hin)].
  - rewrite (stm_bind_Ok _ _ _ _ _ E). eapply InitVM_rebuilt; eauto.
  - rewrite (stm_bind_Fail _ _ _ _ _ E). eexists _, _. split; [reflexivity|]. split; [auto|]. split; [auto|]. split; [auto|]. right; eauto.
Qed.

Lemma rebuild_full key w : rx_owns w ->
  exists r w', (_ ← InitCache key; _ ← InitDataset; InitVM true) w = (r, w') /\ rebuilt key w r w'.
Proof using.
  intros Ho. destruct (InitCache_run key w Ho) as (r & w1 & E & O1 & F1 & M1 & H).
  destruct H as [(c & -> & Hc & Hk)|(what & -> & Hin)].
  - rewrite (stm_bind_Ok _ _ _ _ _ E). destruct (InitDataset_run w1 c O1 Hc) as (r & w2 & E2 & O2 & F2 & M2 & C2 & K2 & H).
    assert (F : fewer w2 w) by (eapply incl_tran; eauto).
    destruct H as [->|(what & -> & Hin)].
    + rewrite (stm_bind_Ok _ _ _ _ _ E2). eapply InitVM_rebuilt; eauto; congruence.
    + rewrite (stm_bind_Fail _ _ _ _ _ E2). eexists _, _. split; [reflexivity|]. split; [auto|]. split; [auto|].
      split; [congruence|]. right; exists what; split; [auto|apply F1; auto].
  - rewrite (stm_bind_Fail _ _ _ _ _ E). eexists _, _. split; [reflexivity|]. split; [auto|]. split; [auto|]. split; [auto|]. right; eauto.
Qed.

(** ** Hashing *)

(** In a current state the machine hashes with the current key. *)
Lemma calculate_hash_current w input : rx_current w -> is_Some (m_vm (rx w)) ->
  randomx_calculate_hash (m_vm (rx w)) input w = (Ok (rx_hash (m_currentKey (rx w)) input), w).
Proof using.
  intros Hc [v Hv]. destruct (Hc v Hv) as (c & d & [_ Eca] & Evm).
  unfold randomx_calculate_hash. rx_run. rewrite Hv. rx_run. rewrite Evm, lookup_own. rx_run.
  rewrite Eca, lookup_own. reflexivity.
Qed.

(** The outcome of a hash call from a current state. *)
Definition hash_outcome (input key : bytes) (w : world) (r : res uint256) (w' : world) : Prop :=
  rx_owns w' /\ fewer w' w /\ m_isMiningMode (rx w') = m_isMiningMode (rx w) /\
  ((r = Ok (rx_hash key input) /\ rx_current w') \/ (exists what, r = Fail (Thrown what) /\ In false (answers (lib w)))).

Lemma needs_init_false r key : needs_init r key = false -> is_Some (m_vm r) /\ m_currentKey r = key.
Proof using.
  unfold needs_init. intros E. apply orb_false_iff in E as [E1 E2].
  apply bool_decide_eq_false in E1. apply negb_false_iff, bool_decide_eq_true in E2.
  split; [|auto]. destruct (m_vm r); [eauto|congruence].
Qed.

Lemma hash_after_rebuild input key w m :
  (exists r w1, m w = (r, w1) /\ rebuilt key w r w1) ->
  exists r w', (_ ← m; w ← get_st; randomx_calculate_hash (m_vm (rx w)) input) w = (r, w') /\
    hash_outcome input key w r w'.
Proof using.
  intros (r & w1 & E & O & F & Mm & [(-> & Hc & Hk & Hv)|(what & -> & Hin)]).
  - rewrite (stm_bind_Ok m _ w tt w1 E).
    assert (E2 : (w ← get_st; randomx_calculate_hash (m_vm (rx w)) input) w1 =
                 (Ok (rx_hash (m_currentKey (rx w1)) input), w1)) by (apply calculate_hash_current; auto).
    rewrite E2, Hk. eexists _, _. split; [reflexivity|]. split; [auto|]. split; [auto|]. split; [auto|]. left; auto.
  - rewrite (stm_bind_Fail m _ w _ w1 E). eexists _, _. split; [reflexivity|]. split; [auto|]. split; [auto|]. split; [auto|]. right; eauto.
Qed.

Lemma Hash_run input key w : rx_owns w -> rx_current w ->
  exists r w', Hash input key w = (r, w') /\ hash_outcome input key w r w'.
Proof using.
  intros Ho Hc. unfold Hash. rewrite (stm_bind_Ok get_st _ w w w eq_refl). cbv beta.
  apply hash_after_rebuild. destruct (needs_init (rx w) key) eqn:En.
  - destruct (m_isMiningMode (rx w)); [apply rebuild_full|apply rebuild_light]; auto.
  - apply needs_init_false in En as [Hv Hk]. eexists _, _. split; [reflexivity|].
    split; [auto|]. split; [apply incl_refl|]. split; [auto|]. left. auto.
Qed.

Lemma LightHash_run input key w : rx_owns w -> rx_current w ->
  exists r w', LightHash input key w = (r, w') /\ hash_outcome input key w r w'.
Proof using.
  intros Ho Hc. unfold LightHash. rewrite (stm_bind_Ok get_st _ w w w eq_refl). cbv beta.
  apply hash_after_rebuild. destruct (needs_init (rx w) key) eqn:En.
  - apply rebuild_light; auto.
  - apply needs_init_false in En as [Hv Hk]. eexists _, _. split; [reflexivity|].
    split; [auto|]. split; [apply incl_refl|]. split; [auto|]. left. auto.
Qed.

(** ** Reachable states *)

Lemma rx_owns_start script : rx_owns (rx_start script).
Proof using. split; reflexivity. Qed.

(** Ownership survives every call, also one that throws. *)
Lemma rebuilt_owns key w m r w' :
  (exists r w1, m w = (r, w1) /\ rebuilt key w r w1) -> m w = (r, w') -> rx_owns w'.
Proof using. intros (r1 & w1 & E & Hr) E'. rewrite E in E'. injection E' as <- <-. apply Hr. Qed.

Lemma calculate_hash_state input w r w' :
  (w ← get_st; randomx_calculate_hash (m_vm (rx w)) input) w = (r, w') -> w' = w.
Proof using.
  unfold randomx_calculate_hash. rx_run. destruct (m_vm (rx w)) as [v|]; rx_run; [|congruence].
  destruct (vms (lib w) !! v) as [[c d]|]; rx_run; [|congruence].
  destruct (caches (lib w) !! c) as [[k|]|]; rx_run; congruence.
Qed.

Lemma hash_tail_owns input key w m r w' (f : uint256 -> option uint256) :
  rx_owns w ->
  m w = (Ok tt, w) \/ (exists r w1, m w = (r, w1) /\ rebuilt key w r w1) ->
  (h ← (_ ← m; w ← get_st; randomx_calculate_hash (m_vm (rx w)) input); mret (f h)) w = (r, w') -> rx_owns w'.
Proof using.
  intros Ho Hm E.
  assert (Hpre : exists r0 w1, m w = (r0, w1) /\ rx_owns w1).
  { destruct Hm as [E0|(r0 & w1 & E0 & Hr)]; [eexists _, w; split; [exact E0|auto]|exists r0, w1; split; [auto|apply Hr]]. }
  destruct Hpre as (r0 & w1 & E0 & O1). unfold mbind at 1, stm_bind at 1 in E.
  destruct r0 as [[]|e]; [rewrite (stm_bind_Ok m _ w tt w1 E0) in E|rewrite (stm_bind_Fail m _ w e w1 E0) in E; congruence].
  destruct ((w ← get_st; randomx_calculate_hash (m_vm (rx w)) input) w1) as [r2 w2] eqn:E2.
  apply calculate_hash_state in E2. subst w2. unfold mbind, stm_bind in E. destruct r2; injection E as _ <-; auto.
Qed.

Lemma mode_owns key w m b r w' (o : option uint256) :
  (exists r w1, m w = (r, w1) /\ rebuilt key w r w1) ->
  (_ ← (_ ← m; set_mining b); mret o) w = (r, w') -> rx_owns w'.
Proof using.
  intros (r1 & w1 & E & Hr & _) E'. unfold mbind at 1, stm_bind at 1 in E'.
  destruct r1 as [[]|e]; [rewrite (stm_bind_Ok m _ w tt w1 E) in E'|rewrite (stm_bind_Fail m _ w e w1 E) in E'; congruence].
  destruct w1 as [l x]. rx_run. injection E' as _ <-. destruct Hr. split; auto.
Qed.

Lemma InitMiningMode_assoc key w :
  InitMiningMode key w = (_ ← (_ ← InitCache key; _ ← InitDataset; InitVM true); set_mining true) w.
Proof using.
  unfold InitMiningMode, mbind, stm_bind. destruct (InitCache key w) as [[[]|] w1]; [|reflexivity].
  destruct (InitDataset w1) as [[[]|] w2]; reflexivity.
Qed.

Lemma InitVerifyMode_assoc key w :
  InitVerifyMode key w = (_ ← (_ ← InitCache key; InitVM false); set_mining false) w.
Proof using. unfold InitVerifyMode, mbind, stm_bind. destruct (InitCache key w) as [[[]|] w1]; reflexivity. Qed.

Lemma rx_exec_owns c w r w' : rx_owns w -> rx_exec c w = (r, w') -> rx_owns w'.
Proof using.
  intros Ho E. destruct c as [i k|i k|k|k|].
  - eapply (hash_tail_owns i k w _ r w' Some Ho); [|exact E]. cbv beta. destruct (needs_init (rx w) k); [right|left; reflexivity].
    destruct (m_isMiningMode (rx w)); [apply rebuild_full|apply rebuild_light]; auto.
  - eapply (hash_tail_owns i k w _ r w' Some Ho); [|exact E]. cbv beta. destruct (needs_init (rx w) k); [right|left; reflexivity].
    apply rebuild_light; auto.
  - eapply (mode_owns k w _ true r w' None); [apply rebuild_full; auto|].
    rewrite <- E. symmetry. apply stm_bind_ext, InitMiningMode_assoc.
  - eapply (mode_owns k w _ false r w' None); [apply rebuild_light; auto|].
    rewrite <- E. symmetry. apply stm_bind_ext, InitVerifyMode_assoc.
  - destruct (Cleanup_run w Ho) as (w1 & E1 & Hrx & H1 & H2 & H3 & _).
    unfold rx_exec, mbind, stm_bind in E. rewrite E1 in E. injection E as _ <-.
    destruct w1 as [l x]. simpl in *. subst x. split; auto.
Qed.

(** A call that returns leaves the machine current. *)
Lemma hash_current input key w r w' : hash_outcome input key w r w' -> (exists h, r = Ok h) -> rx_current w'.
Proof using. intros (_ & _ & _ & [[_ H]|(what & -> & _)]) [h E]; [auto|discriminate]. Qed.

Lemma mode_current key w m b o w' (x : option uint256) :
  (exists r w1, m w = (r, w1) /\ rebuilt key w r w1) ->
  (_ ← (_ ← m; set_mining b); mret x) w = (Ok o, w') -> rx_current w'.
Proof using.
  intros (r1 & w1 & E & _ & _ & _ & H) E'. unfold mbind at 1, stm_bind at 1 in E'.
  destruct H as [(-> & Hc & _)|(what & -> & _)];
    [rewrite (stm_bind_Ok m _ w tt w1 E) in E'|rewrite (stm_bind_Fail m _ w _ w1 E) in E'; discriminate].
  destruct w1 as [l y]. rx_run. injection E' as _ <-. exact Hc.
Qed.

Lemma rx_exec_current c w o w' : rx_owns w -> rx_current w -> rx_exec c w = (Ok o, w') -> rx_current w'.
Proof using.
  intros Ho Hc E. destruct c as [i k|i k|k|k|].
  - destruct (Hash_run i k w Ho Hc) as (r & w1 & E1 & H). unfold rx_exec, mbind, stm_bind in E. rewrite E1 in E.
    destruct r; [|discriminate]. injection E as _ <-. eapply hash_current; eauto.
  - destruct (LightHash_run i k w Ho Hc) as (r & w1 & E1 & H). unfold rx_exec, mbind, stm_bind in E. rewrite E1 in E.
    destruct r; [|discriminate]. injection E as _ <-. eapply hash_current; eauto.
  - eapply (mode_current k w _ true o w' None); [apply (rebuild_full k w Ho)|].
    rewrite <- E. symmetry. apply stm_bind_ext, InitMiningMode_assoc.
  - eapply (mode_current k w _ false o w' None); [apply (rebuild_light k w Ho)|].
    rewrite <- E. symmetry. apply stm_bind_ext, InitVerifyMode_assoc.
  - destruct (Cleanup_run w Ho) as (w1 & E1 & Hrx & _).
    unfold rx_exec, mbind, stm_bind in E. rewrite E1 in E. injection E as _ <-.
    intros v Hv. rewrite Hrx in Hv. discriminate.
Qed.

Lemma rx_reach_inv w : rx_reach w -> rx_owns w /\ rx_current w.
Proof using.
  induction 1 as [script|w c o w' _ [Ho Hc] E].
  - split; [apply rx_owns_start|]. intros v Hv. discriminate.
  - split; [eapply rx_exec_owns; eauto|eapply rx_exec_current; eauto].
Qed.

Lemma rx_reach_exn_owns w : rx_reach_exn w -> rx_owns w.
Proof using.
  induction 1 as [script|w c r w' _ Ho E _]; [apply rx_owns_start|]. eapply rx_exec_owns; eauto.
Qed.

(** The two ways of a hash call. *)
Lemma Hash_rebuild input key w : needs_init (rx w) key = true ->
  Hash input key w =
    (_ ← (_ ← InitCache key; if m_isMiningMode (rx w) then _ ← InitDataset; InitVM true else InitVM false);
     w ← get_st; randomx_calculate_hash (m_vm (rx w)) input) w.
Proof using. intros E. unfold Hash. rewrite (stm_bind_Ok get_st _ w w w eq_refl). cbv beta. rewrite E. reflexivity. Qed.

Lemma Hash_keep input key w : needs_init (rx w) key = false ->
  Hash input key w = randomx_calculate_hash (m_vm (rx w)) input w.
Proof using. intros E. unfold Hash. rewrite (stm_bind_Ok get_st _ w w w eq_refl). cbv beta. rewrite E. reflexivity. Qed.

Lemma needs_init_new r key : m_currentKey r <> key -> needs_init r key = true.
Proof using. intros E. unfold needs_init. rewrite (bool_decide_false _ E). apply orb_true_r. Qed.

Lemma needs_init_same r key v : m_vm r = Some v -> m_currentKey r = key -> needs_init r key = false.
Proof using.
  intros Ev Ek. unfold needs_init. rewrite (bool_decide_true _ Ek), Ev. reflexivity.
Qed.

(** ** Properties *)

(** C27. After any history of calls that returned normally, [Hash] and
    [LightHash] are pure: whatever keys, modes and clean-ups came before, each
    returns the RandomX hash of its own input under its own key, and the only
    way to fail is an exception after a refused allocation, never a use of a
    released handle. *)
Theorem Hash_history_independent (w : world) (input key : bytes) : rx_reach w ->
  (forall r w', Hash input key w = (r, w') ->
     r = Ok (rx_hash key input) \/ exists what, r = Fail (Thrown what) /\ In false (answers (lib w))) /\
  (forall r w', LightHash input key w = (r, w') ->
     r = Ok (rx_hash key input) \/ exists what, r = Fail (Thrown what) /\ In false (answers (lib w))).
Proof using.
  intros Hw. destruct (rx_reach_inv w Hw) as [Ho Hc]. split; intros r w' E.
  - destruct (Hash_run input key w Ho Hc) as (r1 & w1 & E1 & _ & _ & _ & H). rewrite E1 in E. injection E as <- <-.
    destruct H as [[-> _]|H]; auto.
  - destruct (LightHash_run input key w Ho Hc) as (r1 & w1 & E1 & _ & _ & _ & H). rewrite E1 in E. injection E as <- <-.
    destruct H as [[-> _]|H]; auto.
Qed.

(** No history of calls leaks, also when some of them threw: at any point
    [Cleanup] succeeds, frees every cache, dataset and machine that is still
    allocated exactly once, and leaves the members as constructed. *)
Theorem Cleanup_releases_everything (w : world) : rx_reach_exn w ->
  exists w', Cleanup w = (Ok tt, w') /\ rx w' = rx_initial /\
    caches (lib w') = ∅ /\ datasets (lib w') = ∅ /\ vms (lib w') = ∅.
Proof using.
  intros Hw. destruct (Cleanup_run w (rx_reach_exn_owns w Hw)) as (w' & E & Hr & H1 & H2 & H3 & _).
  exists w'. auto.
Qed.

(** C40. A failed rebuild breaks that: the initialisers free the cache and store
    the new key before the machine built on the old cache is replaced.  After
    a refused cache allocation the next [Hash] under the old key, and in
    mining mode after a refused dataset allocation the next [Hash] under the
    new key, skips the rebuild and runs a machine whose cache has been freed. *)
Theorem failed_rebuild_uses_freed_cache (input k1 k2 : bytes) :
  k1 <> k2 ->
  (exists h w1 what w2, Hash input k1 (rx_start [true; true; false]) = (Ok h, w1) /\
     Hash input k2 w1 = (Fail (Thrown what), w2) /\ (Hash input k1 w2).1 = Fail BadAccess) /\
  (exists w1 what w2, InitMiningMode k1 (rx_start [true; true; true; true; false]) = (Ok tt, w1) /\
     Hash input k2 w1 = (Fail (Thrown what), w2) /\ (Hash input k2 w2).1 = Fail BadAccess).
Proof using.
  intros Hne. split.
  - eexists _, _, _, _. split; [rewrite Hash_rebuild by reflexivity; vm_compute; reflexivity|].
    split; [rewrite Hash_rebuild by (apply needs_init_new; exact Hne); vm_compute; reflexivity|].
    erewrite Hash_keep by (eapply needs_init_same; reflexivity). vm_compute. reflexivity.
  - eexists _, _, _. split; [vm_compute; reflexivity|].
    split; [rewrite Hash_rebuild by (apply needs_init_new; exact Hne); vm_compute; reflexivity|].
    erewrite Hash_keep by (eapply needs_init_same; reflexivity). vm_compute. reflexivity.
Qed.
End Hashing.

(** A stand-in for the library's hash, for the witnesses. *)
Definition sample_rx_hash (key input : bytes) : uint256 := key ++ input.

Lemma sample_rx_reach : rx_reach sample_rx_hash (Hash sample_rx_hash [7] [1] (rx_start [])).2.
Proof.
  eapply (reach_call sample_rx_hash (rx_start []) (CallHash [7] [1])); [apply reach_start|].
  vm_compute. reflexivity.
Qed.

Lemma Hash_history_independent_witness :
  (Hash sample_rx_hash [9] [2] (Hash sample_rx_hash [7] [1] (rx_start [])).2).1 = Ok [2; 9].
Proof.
  destruct (Hash sample_rx_hash [9] [2] (Hash sample_rx_hash [7] [1] (rx_start [])).2) as [r w'] eqn:E.
  destruct (proj1 (Hash_history_independent sample_rx_hash _ [9] [2] sample_rx_reach) r w' E)
    as [->|(what & _ & Hin)]; [reflexivity|]. vm_compute in Hin. tauto.
Defined.

Lemma Cleanup_releases_everything_witness :
  exists w', Cleanup (Hash sample_rx_hash [7] [1] (rx_start [false])).2 = (Ok tt, w') /\ rx w' = rx_initial /\
    caches (lib w') = ∅ /\ datasets (lib w') = ∅ /\ vms (lib w') = ∅.
Proof.
  apply (Cleanup_releases_everything sample_rx_hash).
  eapply (reach_exn_call sample_rx_hash (rx_start [false]) (CallHash [7] [1])); [apply reach_exn_start| |right].
  - vm_compute. reflexivity.
  - eexists. reflexivity.
Defined.

Lemma failed_rebuild_uses_freed_cache_witness :
  exists h w1 what w2, Hash sample_rx_hash [7] [1] (rx_start [true; true; false]) = (Ok h, w1) /\
     Hash sample_rx_hash [7] [2] w1 = (Fail (Thrown what), w2) /\ (Hash sample_rx_hash [7] [1] w2).1 = Fail BadAccess.
Proof. apply (failed_rebuild_uses_freed_cache sample_rx_hash [7] [1] [2]). discriminate. Defined.
