(* ===== verification/Chain.v ===== *)
(** * The block index tree and the active chain

    Models [src/chain.h] and [src/chain.cpp].  Block index entries live in a
    heap indexed by addresses ([ptr]); [CBlockIndex*] is an [option ptr], so
    pointer equality, sharing and null are the program's.  [GetAncestor] is
    the skip-list walk of the source, [CChain] the vector of entries by
    height.  The reference for all of them is the walk along [pprev] alone
    ([up]). *)

From stdpp Require Import base numbers list gmap strings sorting.
From Stdlib Require Import ZArith Lia.
From S2P Require Import Prelude ArithUint256 Compact Params.

Local Open Scope Z_scope.

Notation ptr := nat.

(** ** Data *)

(** [enum BlockStatus]. *)
Definition BLOCK_VALID_UNKNOWN : Z := 0.
Definition BLOCK_VALID_RESERVED : Z := 1.
Definition BLOCK_VALID_TREE : Z := 2.
Definition BLOCK_VALID_TRANSACTIONS : Z := 3.
Definition BLOCK_VALID_CHAIN : Z := 4.
Definition BLOCK_VALID_SCRIPTS : Z := 5.
Definition BLOCK_VALID_MASK : Z :=
  Z.lor (Z.lor (Z.lor (Z.lor BLOCK_VALID_RESERVED BLOCK_VALID_TREE) BLOCK_VALID_TRANSACTIONS)
    BLOCK_VALID_CHAIN) BLOCK_VALID_SCRIPTS.
Definition BLOCK_HAVE_DATA : Z := 8.
Definition BLOCK_HAVE_UNDO : Z := 16.
Definition BLOCK_FAILED_VALID : Z := 32.
Definition BLOCK_FAILED_CHILD : Z := 64.
Definition BLOCK_FAILED_MASK : Z := Z.lor BLOCK_FAILED_VALID BLOCK_FAILED_CHILD.
Definition BLOCK_OPT_WITNESS : Z := 128.
Definition BLOCK_ASSUMED_VALID : Z := 256.

(** [class CBlockIndex]. *)
Record CBlockIndex : Type := {
  phashBlock : option uint256;
  pprev : option ptr;
  pskip : option ptr;
  nHeight : Z;
  nFile : Z;
  nDataPos : Z;
  nUndoPos : Z;
  nChainWork : base_uint;
  nTx : Z;
  nChainTx : Z;
  nStatus : Z;
  nVersion : Z;
  hashMerkleRoot : uint256;
  nTime : Z;
  nBits : Z;
  nNonce : Z;
  nSequenceId : Z;
  nTimeMax : Z;
}.

Notation heap := (gmap ptr CBlockIndex).

(** [p->] *)
Definition deref (h : heap) (p : ptr) : res CBlockIndex := access (h !! p).

Definition set_pskip (b : CBlockIndex) (s : option ptr) : CBlockIndex :=
  {| phashBlock := phashBlock b; pprev := pprev b; pskip := s; nHeight := nHeight b;
     nFile := nFile b; nDataPos := nDataPos b; nUndoPos := nUndoPos b;
     nChainWork := nChainWork b; nTx := nTx b; nChainTx := nChainTx b; nStatus := nStatus b;
     nVersion := nVersion b; hashMerkleRoot := hashMerkleRoot b; nTime := nTime b;
     nBits := nBits b; nNonce := nNonce b; nSequenceId := nSequenceId b; nTimeMax := nTimeMax b |}.

Definition set_nStatus (b : CBlockIndex) (s : Z) : CBlockIndex :=
  {| phashBlock := phashBlock b; pprev := pprev b; pskip := pskip b; nHeight := nHeight b;
     nFile := nFile b; nDataPos := nDataPos b; nUndoPos := nUndoPos b;
     nChainWork := nChainWork b; nTx := nTx b; nChainTx := nChainTx b; nStatus := s;
     nVersion := nVersion b; hashMerkleRoot := hashMerkleRoot b; nTime := nTime b;
     nBits := nBits b; nNonce := nNonce b; nSequenceId := nSequenceId b; nTimeMax := nTimeMax b |}.

(** ** Validity bits *)

Definition IsValid (b : CBlockIndex) (nUpTo : Z) : res bool :=
  _ ← assert_ (Z.land nUpTo (u32 (Z.lnot BLOCK_VALID_MASK)) =? 0);
  if negb (Z.land (nStatus b) BLOCK_FAILED_MASK =? 0) then Ok false
  else Ok (Z.land (nStatus b) BLOCK_VALID_MASK >=? nUpTo).

(** Returns whether the validity was changed, and the entry. *)
Definition RaiseValidity (b : CBlockIndex) (nUpTo : Z) : res (bool * CBlockIndex) :=
  _ ← assert_ (Z.land nUpTo (u32 (Z.lnot BLOCK_VALID_MASK)) =? 0);
  if negb (Z.land (nStatus b) BLOCK_FAILED_MASK =? 0) then Ok (false, b)
  else if Z.land (nStatus b) BLOCK_VALID_MASK <? nUpTo then
    let st := if (negb (Z.land (nStatus b) BLOCK_ASSUMED_VALID =? 0) && (nUpTo >=? BLOCK_VALID_SCRIPTS))%bool
              then Z.land (nStatus b) (u32 (Z.lnot BLOCK_ASSUMED_VALID)) else nStatus b in
    Ok (true, set_nStatus b (Z.lor (Z.land st (u32 (Z.lnot BLOCK_VALID_MASK))) nUpTo))
  else Ok (false, b).

Definition GetBlockHash (b : CBlockIndex) : res uint256 :=
  match phashBlock b with Some x => Ok x | None => Fail AssertFailed end.

Definition GetBlockTime (b : CBlockIndex) : Z := nTime b.
Definition GetBlockTimeMax (b : CBlockIndex) : Z := nTimeMax b.

(** ** The skip list *)

(** Turn the lowest 1 bit into a 0. *)
Definition InvertLowestOne (n : Z) : Z := Z.land n (n - 1).

Definition GetSkipHeight (height : Z) : Z :=
  if height <? 2 then 0
  else if negb (Z.land height 1 =? 0)
  then InvertLowestOne (InvertLowestOne (height - 1)) + 1
  else InvertLowestOne height.

(** The loop of [GetAncestor]; [fuel] bounds the rounds, each of which lowers
    [heightWalk]. *)
Fixpoint ancestor_walk (fuel : nat) (h : heap) (height : Z) (pindexWalk : ptr) (heightWalk : Z) : res ptr :=
  if negb (heightWalk >? height) then Ok pindexWalk
  else match fuel with
  | O => Fail OutOfFuel
  | S fuel' =>
      let heightSkip := GetSkipHeight heightWalk in
      let heightSkipPrev := GetSkipHeight (heightWalk - 1) in
      b ← deref h pindexWalk;
      let use_skip := ((heightSkip =? height) ||
            ((heightSkip >? height) &&
               negb ((heightSkipPrev <? heightSkip - 2) && (heightSkipPrev >=? height))))%bool in
      match pskip b with
      | Some s =>
          if use_skip then ancestor_walk fuel' h height s heightSkip
          else match pprev b with
               | Some q => ancestor_walk fuel' h height q (heightWalk - 1)
               | None => Fail AssertFailed
               end
      | None => match pprev b with
                | Some q => ancestor_walk fuel' h height q (heightWalk - 1)
                | None => Fail AssertFailed
                end
      end
  end.

Definition GetAncestor (h : heap) (p : ptr) (height : Z) : res (option ptr) :=
  b ← deref h p;
  if ((height >? nHeight b) || (height <? 0))%bool then Ok None
  else q ← ancestor_walk (Z.to_nat (nHeight b - height)) h height p (nHeight b); Ok (Some q).

(** [BuildSkip]: the heap with the entry's [pskip] set. *)
Definition BuildSkip (h : heap) (p : ptr) : res heap :=
  b ← deref h p;
  match pprev b with
  | None => Ok h
  | Some q => s ← GetAncestor h q (GetSkipHeight (nHeight b)); Ok (<[p := set_pskip b s]> h)
  end.

(** ** Time *)

Definition nMedianTimeSpan : nat := 11.

(** The block times from [pindex] back along [pprev], at most [n]. *)
Fixpoint collect_times (n : nat) (h : heap) (pindex : option ptr) : res (list Z) :=
  match n, pindex with
  | S n', Some p => b ← deref h p; l ← collect_times n' h (pprev b); Ok (GetBlockTime b :: l)
  | _, _ => Ok []
  end.

Definition GetMedianTimePast (h : heap) (p : ptr) : res Z :=
  l ← collect_times nMedianTimeSpan h (Some p);
  let sorted := merge_sort Z.le l in
  access (sorted !! (length sorted / 2)%nat).

(** ** Work *)

Definition GetBlockProof (b : CBlockIndex) : res base_uint :=
  let '(bnTarget, fNegative, fOverflow) := SetCompact (nBits b) in
  if (fNegative || fOverflow || EqualTo bnTarget 0)%bool then Ok (of_u64 0)
  else q ← op_div (op_not bnTarget) (op_add bnTarget (of_u64 1)); Ok (op_add q (of_u64 1)).

(** [sign * std::numeric_limits<int64_t>::max()] when the quotient has more
    than 63 bits. *)
Definition GetBlockProofEquivalentTime (to from tip : CBlockIndex) (params : Params) : res Z :=
  let '(r, sign) :=
    if uint_gt (nChainWork to) (nChainWork from)
    then (op_sub (nChainWork to) (nChainWork from), 1)
    else (op_sub (nChainWork from) (nChainWork to), -1) in
  proof ← GetBlockProof tip;
  r ← op_div (op_mul r (of_u64 (u64 (nPowTargetSpacing params)))) proof;
  if bits r >? 63 then Ok (sign * (2 ^ 63 - 1))
  else Ok (sign * i64 (GetLow64 r)).

(** ** The active chain *)

(** [std::vector<CBlockIndex*> vChain]. *)
Notation CChain := (list (option ptr)).

Definition chain_at (c : CChain) (height : Z) : option ptr :=
  if ((height <? 0) || (height >=? Z.of_nat (length c)))%bool then None
  else nth (Z.to_nat height) c None.

Definition Genesis (c : CChain) : option ptr :=
  if (length c =? 0)%nat then None else nth 0 c None.
Definition Tip (c : CChain) : option ptr :=
  if (length c =? 0)%nat then None else nth (length c - 1) c None.
Definition Height (c : CChain) : Z := Z.of_nat (length c) - 1.

Definition Contains (h : heap) (c : CChain) (p : ptr) : res bool :=
  b ← deref h p; Ok (bool_decide (chain_at c (nHeight b) = Some p)).

Definition Next (h : heap) (c : CChain) (p : ptr) : res (option ptr) :=
  b ← deref h p;
  in_chain ← Contains h c p;
  Ok (if in_chain : bool then chain_at c (nHeight b + 1) else None).

(** [vChain.resize(n)]: new slots are null. *)
Definition resize (c : CChain) (n : nat) : CChain := take n c ++ repeat None (n - length c).

(** The loop of [SetTip]; a write past the end of the vector is undefined
    behaviour. *)
Fixpoint settip_loop (fuel : nat) (h : heap) (c : CChain) (pindex : option ptr) : res CChain :=
  match pindex with
  | None => Ok c
  | Some p =>
      b ← deref h p;
      let i := Z.to_nat (nHeight b) in
      old ← access (c !! i);
      if bool_decide (old = Some p) then Ok c
      else match fuel with
      | O => Fail OutOfFuel
      | S fuel' => settip_loop fuel' h (<[i := Some p]> c) (pprev b)
      end
  end.

Definition SetTip (h : heap) (c : CChain) (p : ptr) : res CChain :=
  b ← deref h p;
  let c := resize c (Z.to_nat (nHeight b + 1)) in
  settip_loop (length c) h c (Some p).

(** [FindFork]: the walk back until a block of the chain is met. *)
Fixpoint fork_loop (fuel : nat) (h : heap) (c : CChain) (pindex : option ptr) : res (option ptr) :=
  match pindex with
  | None => Ok None
  | Some p =>
      in_chain ← Contains h c p;
      if in_chain : bool then Ok (Some p)
      else match fuel with
      | O => Fail OutOfFuel
      | S fuel' => b ← deref h p; fork_loop fuel' h c (pprev b)
      end
  end.

Definition FindFork (h : heap) (c : CChain) (pindex : option ptr) : res (option ptr) :=
  match pindex with
  | None => Ok None
  | Some p =>
      b ← deref h p;
      start ← if nHeight b >? Height c then GetAncestor h p (Height c) else Ok (Some p);
      fork_loop (S (Z.to_nat (nHeight b))) h c start
  end.

(** The synchronous walk of [LastCommonAncestor]. *)
Fixpoint common_loop (fuel : nat) (h : heap) (pa pb : option ptr) : res (option ptr * option ptr) :=
  if bool_decide (pa = pb) then Ok (pa, pb)
  else match pa, pb with
  | Some a, Some b =>
      match fuel with
      | O => Fail OutOfFuel
      | S fuel' => ba ← deref h a; bb ← deref h b; common_loop fuel' h (pprev ba) (pprev bb)
      end
  | _, _ => Ok (pa, pb)
  end.

Definition LastCommonAncestor (h : heap) (pa pb : ptr) : res (option ptr) :=
  ba ← deref h pa;
  bb ← deref h pb;
  start ← (if nHeight ba >? nHeight bb then a ← GetAncestor h pa (nHeight bb); Ok (a, Some pb)
           else if nHeight bb >? nHeight ba then b ← GetAncestor h pb (nHeight ba); Ok (Some pa, b)
           else Ok (Some pa, Some pb));
  ends ← common_loop (S (Z.to_nat (nHeight ba))) h start.1 start.2;
  _ ← assert_ (bool_decide (ends.1 = ends.2));
  Ok ends.1.

(** ** Locators *)

(** The loop of [LocatorEntries]: [have] is the size of the vector so far.
    Every entry is kept with the block it is the hash of. *)
Fixpoint locator_loop (fuel : nat) (h : heap) (index : option ptr) (step : Z) (have : nat)
    : res (list (ptr * uint256)) :=
  match index with
  | None => Ok []
  | Some p =>
      b ← deref h p;
      hash ← GetBlockHash b;
      let have := S have in
      if nHeight b =? 0 then Ok [(p, hash)]
      else match fuel with
      | O => Fail OutOfFuel
      | S fuel' =>
          let height := Z.max (nHeight b - step) 0 in
          next ← GetAncestor h p height;
          let step := if (10 <? have)%nat then i32 (step * 2) else step in
          rest ← locator_loop fuel' h next step have;
          Ok ((p, hash) :: rest)
      end
  end.

Definition LocatorEntries (h : heap) (index : option ptr) : res (list uint256) :=
  match index with
  | None => Ok []
  | Some p => b ← deref h p; l ← locator_loop (Z.to_nat (nHeight b)) h index 1 0; Ok (map snd l)
  end.

(** ** Block file statistics *)

Record CBlockFileInfo : Type := {
  nBlocks : Z; nSize : Z; nUndoSize : Z;
  nHeightFirst : Z; nHeightLast : Z; nTimeFirst : Z; nTimeLast : Z;
}.

Definition AddBlock (f : CBlockFileInfo) (nHeightIn nTimeIn : Z) : CBlockFileInfo :=
  {| nHeightFirst := if ((nBlocks f =? 0) || (nHeightFirst f >? nHeightIn))%bool then nHeightIn else nHeightFirst f;
     nTimeFirst := if ((nBlocks f =? 0) || (nTimeFirst f >? nTimeIn))%bool then nTimeIn else nTimeFirst f;
     nBlocks := u32 (nBlocks f + 1);
     nHeightLast := if nHeightIn >? nHeightLast f then nHeightIn else nHeightLast f;
     nTimeLast := if nTimeIn >? nTimeLast f then nTimeIn else nTimeLast f;
     nSize := nSize f; nUndoSize := nUndoSize f |}.

(** ** The reference: walking along [pprev] *)

Fixpoint up (h : heap) (n : nat) (p : ptr) : option ptr :=
  match n with
  | O => Some p
  | S n' => b ← h !! p; q ← pprev b; up h n' q
  end.

Lemma up_add h n m p : up h (n + m) p = up h n p ≫= up h m.
Proof.
  revert p. induction n as [|n IH]; intros p; [reflexivity|]. simpl.
  destruct (h !! p) as [b|]; [|reflexivity]. simpl. destruct (pprev b); [|reflexivity]. apply IH.
Qed.

(** ** Well-formed block trees

    Heights count the distance to a root along [pprev], and a set [pskip]
    points where the code promises: at the ancestor of height
    [GetSkipHeight(nHeight)]. *)

Record block_ok (h : heap) (p : ptr) (b : CBlockIndex) : Prop := {
  ok_height : 0 <= nHeight b < 2 ^ 31;
  ok_root : pprev b = None -> nHeight b = 0;
  ok_prev : forall q, pprev b = Some q -> exists bq, h !! q = Some bq /\ nHeight b = nHeight bq + 1;
  ok_skip : forall s, pskip b = Some s ->
    up h (Z.to_nat (nHeight b - GetSkipHeight (nHeight b))) p = Some s;
  ok_time : in_u 32 (nTime b);
}.

Definition tree_wf (h : heap) : Prop := map_Forall (block_ok h) h.

Lemma land_le a b : 0 <= b -> 0 <= Z.land a b <= b.
Proof.
  intros Hb. split; [apply Z.land_nonneg; auto|].
  assert (E : b = Z.land a b + Z.ldiff b a).
  { rewrite Z.add_nocarry_lor; apply Z.bits_inj'; intros i Hi;
      rewrite ?Z.lor_spec, ?Z.land_spec, ?Z.ldiff_spec, ?Z.bits_0, ?Z.land_spec;
      destruct (Z.testbit a i), (Z.testbit b i); reflexivity. }
  assert (0 <= Z.ldiff b a) by (apply Z.ldiff_nonneg; auto). lia.
Qed.

Lemma InvertLowestOne_range n : 0 <= n -> 0 <= InvertLowestOne n <= Z.max 0 (n - 1).
Proof.
  intros Hn. unfold InvertLowestOne. destruct (Z.eq_dec n 0) as [->|]; [vm_compute; intuition discriminate|].
  pose proof (land_le n (n - 1)). lia.
Qed.

(** The skip always goes strictly back, and never past the genesis block. *)
Lemma GetSkipHeight_range n : 1 <= n -> 0 <= GetSkipHeight n < n.
Proof.
  intros Hn. unfold GetSkipHeight. destruct (Z.ltb_spec n 2); [lia|].
  destruct (negb _) eqn:E.
  - pose proof (InvertLowestOne_range (n - 1) ltac:(lia)).
    pose proof (InvertLowestOne_range (InvertLowestOne (n - 1)) ltac:(lia)).
    assert (n <> 2) by (intros ->; discriminate). lia.
  - pose proof (InvertLowestOne_range n ltac:(lia)). lia.
Qed.

Section Tree.
Context (h : heap) (Hwf : tree_wf h).

Lemma tree_ok p b : h !! p = Some b -> block_ok h p b.
Proof using Hwf. apply Hwf. Qed.

Lemma deref_ok p b : h !! p = Some b -> deref h p = Ok b.
Proof using. intros E. unfold deref. rewrite E. reflexivity. Qed.

(** Walking [n] steps back from height [H] ends at height [H - n]. *)
Lemma up_total n : forall p b, h !! p = Some b -> Z.of_nat n <= nHeight b ->
  exists q bq, up h n p = Some q /\ h !! q = Some bq /\ nHeight bq = nHeight b - Z.of_nat n.
Proof using Hwf.
  induction n as [|n IH]; intros p b Hp Hn.
  - exists p, b. split; [reflexivity|]. split; [auto|]. lia.
  - destruct (tree_ok p b Hp) as [? Hroot Hprev _ _].
    destruct (pprev b) as [q|] eqn:Eq; [|specialize (Hroot eq_refl); lia].
    destruct (Hprev q eq_refl) as (bq & Hq & EH).
    destruct (IH q bq Hq ltac:(lia)) as (r & br & Hr & Hbr & EHr).
    exists r, br. simpl. rewrite Hp. simpl. rewrite Eq. simpl. split; [auto|]. split; [auto|]. lia.
Qed.

Lemma up_height n p b q bq :
  h !! p = Some b -> up h n p = Some q -> h !! q = Some bq -> nHeight bq = nHeight b - Z.of_nat n.
Proof using Hwf.
  revert p b. induction n as [|n IH]; intros p b Hp Hup Hq; simpl in Hup.
  - simplify_eq. lia.
  - rewrite Hp in Hup. simpl in Hup. destruct (pprev b) as [r|] eqn:Er; [|discriminate]. simpl in Hup.
    destruct (tree_ok p b Hp) as [_ _ Hprev _ _].
    destruct (Hprev r Er) as (br & Hr & EH). rewrite (IH r br Hr Hup Hq). lia.
Qed.

Lemma up_in n p b q : h !! p = Some b -> up h n p = Some q -> is_Some (h !! q) /\ Z.of_nat n <= nHeight b.
Proof using Hwf.
  revert p b. induction n as [|n IH]; intros p b Hp Hup; simpl in Hup.
  - simplify_eq. destruct (tree_ok q b Hp). split; [eauto|lia].
  - rewrite Hp in Hup. simpl in Hup. destruct (pprev b) as [r|] eqn:Er; [|discriminate]. simpl in Hup.
    destruct (tree_ok p b Hp) as [_ _ Hprev _ _].
    destruct (Hprev r Er) as (br & Hr & EH). destruct (IH r br Hr Hup). split; [auto|lia].
Qed.

(** The skip-list walk computes the plain walk, and its fuel suffices. *)
Lemma ancestor_walk_up fuel height : forall p b,
  h !! p = Some b -> 0 <= height <= nHeight b -> (Z.to_nat (nHeight b - height) <= fuel)%nat ->
  exists q, ancestor_walk fuel h height p (nHeight b) = Ok q /\
            up h (Z.to_nat (nHeight b - height)) p = Some q.
Proof using Hwf.
  induction fuel as [|fuel IH]; intros p b Hp Hh Hf; cbn [ancestor_walk];
    destruct (Z.gtb_spec (nHeight b) height) as [Hgt|Hle]; cbn [negb]; try lia.
  - exists p. assert (nHeight b - height = 0) as -> by lia. split; reflexivity.
  - rewrite (deref_ok p b Hp). cbn [mbind res_bind].
    destruct (tree_ok p b Hp) as [_ Hroot Hprev Hskip _].
    assert (P : exists q, match pprev b with
                 | Some q => ancestor_walk fuel h height q (nHeight b - 1)
                 | None => Fail AssertFailed end = Ok q /\ up h (Z.to_nat (nHeight b - height)) p = Some q).
    { destruct (pprev b) as [q|] eqn:Eq; [|specialize (Hroot eq_refl); lia].
      destruct (Hprev q eq_refl) as (bq & Hq & EH).
      destruct (IH q bq Hq ltac:(lia) ltac:(lia)) as (r & Hr & Hup).
      exists r. replace (nHeight b - 1) with (nHeight bq) by lia. split; [auto|].
      replace (Z.to_nat (nHeight b - height)) with (S (Z.to_nat (nHeight bq - height))) by lia.
      simpl. rewrite Hp. simpl. rewrite Eq. exact Hup. }
    destruct (pskip b) as [s|] eqn:Es; [|exact P].
    destruct ((_ =? height) || _)%bool eqn:Ec; [|exact P].
    pose proof (GetSkipHeight_range (nHeight b) ltac:(lia)) as Hr.
    assert (Hge : height <= GetSkipHeight (nHeight b)).
    { apply orb_true_iff in Ec as [Ec|Ec]; zbool; lia. }
    specialize (Hskip s eq_refl).
    destruct (up_in _ _ _ _ Hp Hskip) as [[bs Hs] _].
    pose proof (up_height _ _ _ _ _ Hp Hskip Hs) as EH. rewrite Z2Nat.id in EH by lia.
    destruct (IH s bs Hs ltac:(lia) ltac:(lia)) as (r & Hw & Hup).
    exists r. replace (GetSkipHeight (nHeight b)) with (nHeight bs) by lia. split; [auto|].
    replace (Z.to_nat (nHeight b - height))
      with (Z.to_nat (nHeight b - GetSkipHeight (nHeight b)) + Z.to_nat (nHeight bs - height))%nat by lia.
    rewrite up_add, Hskip. exact Hup.
  - exists p. assert (nHeight b - height = 0) as -> by lia. split; reflexivity.
Qed.

(** [GetAncestor] in every case: out of range, or the block of that height. *)
Lemma GetAncestor_up p b height :
  h !! p = Some b ->
  GetAncestor h p height =
    Ok (if decide (0 <= height <= nHeight b) then up h (Z.to_nat (nHeight b - height)) p else None).
Proof using Hwf.
  intros Hp. unfold GetAncestor. rewrite (deref_ok p b Hp). cbn [mbind res_bind].
  destruct (Z.gtb_spec height (nHeight b)); [rewrite decide_False by lia; reflexivity|].
  destruct (Z.ltb_spec height 0); [rewrite decide_False by lia; reflexivity|].
  cbn [orb]. destruct (ancestor_walk_up (Z.to_nat (nHeight b - height)) height p b Hp ltac:(lia) ltac:(lia)) as (q & -> & Hq).
  rewrite decide_True by lia. rewrite Hq. reflexivity.
Qed.
End Tree.

(** ** Growing the tree *)

Lemma up_ext h h' n p :
  (forall q b, h !! q = Some b -> exists b', h' !! q = Some b' /\ pprev b' = pprev b) ->
  is_Some (up h n p) -> up h' n p = up h n p.
Proof.
  intros He. revert p. induction n as [|n IH]; intros p [r Hr]; [reflexivity|]. simpl in *.
  destruct (h !! p) as [b|] eqn:Ep; [|discriminate]. destruct (He p b Ep) as (b' & -> & E). simpl in *.
  rewrite E. destruct (pprev b); [|discriminate]. simpl in *. apply IH. eauto.
Qed.

Lemma block_ok_ext h h' p b :
  tree_wf h -> h !! p = Some b ->
  (forall q c, h !! q = Some c -> exists c', h' !! q = Some c' /\ pprev c' = pprev c /\ nHeight c' = nHeight c) ->
  block_ok h p b -> block_ok h' p b.
Proof.
  intros Hwf Hp He [H1 H2 H3 H4 H5]. split; auto.
  - intros q Hq. destruct (H3 q Hq) as (bq & Hbq & EH). destruct (He q bq Hbq) as (c' & ? & _ & E).
    exists c'. split; [auto|]. congruence.
  - intros s Hs. specialize (H4 s Hs). rewrite <- H4. apply up_ext; [|rewrite H4; eauto].
    intros q c Hc. destruct (He q c Hc) as (c' & ? & ? & _). eauto.
Qed.

Lemma up_insert_other h p b n r :
  tree_wf h -> h !! p = None -> is_Some (up h n r) -> up (<[p := b]> h) n r = up h n r.
Proof.
  intros Hwf Hp Hu. apply up_ext; [|exact Hu]. intros q c Hq. exists c.
  rewrite lookup_insert_ne by congruence. auto.
Qed.

(** Appending a block below an existing one and building its skip pointer keeps
    the tree well formed. *)
Lemma BuildSkip_extends h p b q bq :
  tree_wf h -> h !! p = None -> pprev b = Some q -> h !! q = Some bq ->
  nHeight b = nHeight bq + 1 -> nHeight b < 2 ^ 31 -> pskip b = None -> in_u 32 (nTime b) ->
  exists s, up h (Z.to_nat (nHeight bq - GetSkipHeight (nHeight b))) q = Some s /\
    BuildSkip (<[p := b]> h) p = Ok (<[p := set_pskip b (Some s)]> h) /\
    tree_wf (<[p := set_pskip b (Some s)]> h).
Proof.
  intros Hwf Hp Eq Hq EH Hlt Es Ht.
  destruct (tree_ok h Hwf q bq Hq) as [Hbq _ _ _ _].
  pose proof (GetSkipHeight_range (nHeight b) ltac:(lia)) as Hr.
  destruct (up_total h Hwf (Z.to_nat (nHeight bq - GetSkipHeight (nHeight b))) q bq Hq ltac:(lia))
    as (s & bs & Hs & _). exists s. split; [exact Hs|].
  assert (Hne : q <> p) by congruence.
  assert (HwfX : forall o, (o = None \/ o = Some s) -> tree_wf (<[p := set_pskip b o]> h)).
  { intros o Ho x c Hx. destruct (decide (x = p)) as [->|Hxp].
    - rewrite lookup_insert_eq in Hx. injection Hx as <-. split; simpl; auto; try lia.
      + congruence.
      + intros q' E'. replace q' with q by congruence. exists bq. rewrite lookup_insert_ne by auto. auto.
      + intros s' ->. destruct Ho as [Ho|Ho]; [discriminate|]. injection Ho as ->.
        replace (Z.to_nat (nHeight b - GetSkipHeight (nHeight b)))
          with (S (Z.to_nat (nHeight bq - GetSkipHeight (nHeight b)))) by lia.
        cbn [up]. rewrite lookup_insert_eq. simpl. rewrite Eq. simpl.
        rewrite up_insert_other by (auto; rewrite Hs; eauto). exact Hs.
    - rewrite lookup_insert_ne in Hx by auto. apply (block_ok_ext h); auto.
      intros y d Hy. exists d. rewrite lookup_insert_ne by congruence. auto. }
  split; [|apply HwfX; auto].
  unfold BuildSkip. rewrite (deref_ok _ p b) by apply lookup_insert_eq. cbn [mbind res_bind].
  rewrite Eq.
  assert (Eb : b = set_pskip b None) by (destruct b; simpl in *; subst; reflexivity).
  rewrite (GetAncestor_up (<[p := b]> h) ltac:(rewrite Eb at 1; apply HwfX; auto) q bq)
    by (rewrite lookup_insert_ne; auto).
  rewrite decide_True by lia. cbn [mbind res_bind].
  rewrite up_insert_other, Hs by (auto; rewrite Hs; eauto).
  rewrite insert_insert_eq. reflexivity.
Qed.

(** ** The active chain *)

(** [c] is the path from a root to the block [p], indexed by height. *)
Definition chain_to (h : heap) (c : CChain) (p : ptr) : Prop :=
  exists b, h !! p = Some b /\ length c = Z.to_nat (nHeight b + 1) /\
    forall i, (i < length c)%nat -> c !! i = Some (up h (Z.to_nat (nHeight b) - i) p).

Definition active_chain (h : heap) (c : CChain) : Prop := c = [] \/ exists p, chain_to h c p.

(** Below an entry lie its ancestors. *)
Definition chain_closed (h : heap) (c : CChain) (n : nat) : Prop :=
  forall i q j, (i < n)%nat -> c !! i = Some (Some q) -> (j <= i)%nat -> c !! j = Some (up h (i - j) q).

Section ActiveChain.
Context (h : heap) (Hwf : tree_wf h).

Lemma chain_to_closed c p : chain_to h c p -> chain_closed h c (length c).
Proof using.
  intros (b & Hb & Hl & Hc) i q j Hi Hq Hj. rewrite Hc in * by lia.
  injection Hq as Hq.
  assert (Hn : (Z.to_nat (nHeight b) - j = Z.to_nat (nHeight b) - i + (i - j))%nat) by lia.
  rewrite Hn, up_add, Hq. reflexivity.
Qed.

Lemma chain_to_height c p i q :
  chain_to h c p -> c !! i = Some (Some q) -> exists bq, h !! q = Some bq /\ nHeight bq = Z.of_nat i.
Proof using Hwf.
  intros (b & Hb & Hl & Hc) Hq. pose proof (lookup_lt_Some _ _ _ Hq) as Hi.
  rewrite Hc in Hq by lia. injection Hq as Hq.
  destruct (up_in h Hwf _ _ _ _ Hb Hq) as [[bq Hbq] Hle]. exists bq. split; [auto|].
  rewrite (up_height h Hwf _ _ _ _ _ Hb Hq Hbq). destruct (tree_ok h Hwf p b Hb). lia.
Qed.

Lemma active_closed c : active_chain h c -> chain_closed h c (length c).
Proof using.
  intros [->|[p Hp]]; [intros i q j Hi; simpl in Hi; lia|]. eapply chain_to_closed; eauto.
Qed.

Lemma resize_length c n : length (resize c n) = n.
Proof using. unfold resize. rewrite length_app, length_take, repeat_length. lia. Qed.

Lemma resize_closed c n : chain_closed h c (length c) -> chain_closed h (resize c n) n.
Proof using.
  intros Hc i q j Hi Hq Hj. unfold resize in *.
  destruct (decide (i < length (take n c))%nat) as [Hlt|Hge].
  - rewrite lookup_app_l in * by lia. rewrite length_take in Hlt.
    rewrite lookup_take_lt in * by lia. apply Hc; auto. lia.
  - rewrite lookup_app_r in Hq by lia. apply list_elem_of_lookup_2 in Hq.
    apply list_elem_of_In, repeat_spec in Hq. discriminate.
Qed.

(** The write-back loop of [SetTip]: the slots above [k] are final, the ones
    up to [k] still hold a (resized) chain. *)
Lemma settip_loop_spec p b : h !! p = Some b ->
  forall k fuel c q, let H := Z.to_nat (nHeight b) in
  (k <= H)%nat -> (k < fuel)%nat -> length c = S H -> up h (H - k) p = Some q ->
  (forall i, (k < i <= H)%nat -> c !! i = Some (up h (H - i) p)) -> chain_closed h c (S k) ->
  exists c', settip_loop fuel h c (Some q) = Ok c' /\ length c' = S H /\
    forall i, (i <= H)%nat -> c' !! i = Some (up h (H - i) p).
Proof using Hwf.
  intros Hp k. induction k as [|k IH]; intros fuel c q H Hk Hf Hl Hq Hhi Hcl.
  all: destruct fuel as [|fuel]; [lia|].
  all: destruct (up_in h Hwf _ _ _ _ Hp Hq) as [[bq Hbq] Hle].
  all: pose proof (up_height h Hwf _ _ _ _ _ Hp Hq Hbq) as EH.
  all: destruct (tree_ok h Hwf q bq Hbq) as [Hb0 Hroot Hprev _ _].
  all: destruct (tree_ok h Hwf p b Hp) as [Hbp _ _ _ _].
  all: cbn [settip_loop]; rewrite (deref_ok h q bq Hbq); cbn [mbind res_bind].
  - assert (nHeight bq = 0) as E0 by lia. rewrite E0. change (Z.to_nat 0) with 0%nat.
    destruct (lookup_lt_is_Some_2 c 0 ltac:(lia)) as [o Ho]. rewrite Ho. cbn [access mbind res_bind].
    assert (Epp : pprev bq = None).
    { destruct (pprev bq) as [r|] eqn:Er; [|reflexivity]. destruct (Hprev r eq_refl) as (br & Hr & ?).
      destruct (tree_ok h Hwf r br Hr). lia. }
    case_bool_decide as Eo.
    + exists c. split; [reflexivity|]. split; [auto|]. intros i Hi.
      destruct i; [|apply Hhi; lia]. rewrite Ho, Nat.sub_0_r in *. congruence.
    + rewrite Epp. assert (E : settip_loop fuel h (<[0%nat:=Some q]> c) None = Ok (<[0%nat:=Some q]> c)) by (destruct fuel; reflexivity).
      rewrite E. eexists. split; [reflexivity|]. split; [rewrite length_insert; auto|].
      intros i Hi. destruct i; [rewrite list_lookup_insert_eq by lia; rewrite Nat.sub_0_r in *; congruence|].
      rewrite list_lookup_insert_ne by lia. apply Hhi. lia.
  - assert (nHeight bq = Z.of_nat (S k)) as E0 by lia. rewrite E0, Nat2Z.id.
    destruct (lookup_lt_is_Some_2 c (S k) ltac:(lia)) as [o Ho]. rewrite Ho. cbn [access mbind res_bind].
    case_bool_decide as Eo.
    + subst o. exists c. split; [reflexivity|]. split; [auto|]. intros i Hi.
      destruct (decide (S k < i)%nat); [apply Hhi; lia|].
      rewrite (Hcl (S k) q i) by (auto; lia). f_equal.
      replace (H - i)%nat with (H - S k + (S k - i))%nat by lia. rewrite up_add, Hq. reflexivity.
    + destruct (pprev bq) as [r|] eqn:Er; [|specialize (Hroot eq_refl); lia].
      assert (Hup : up h (H - k) p = Some r).
      { replace (H - k)%nat with (H - S k + 1)%nat by lia. rewrite up_add, Hq. simpl. rewrite Hbq. simpl. rewrite Er. reflexivity. }
      apply (IH fuel (<[S k := Some q]> c) r); auto; try lia.
      * rewrite length_insert. auto.
      * intros i Hi. destruct (decide (i = S k)) as [->|].
        { rewrite list_lookup_insert_eq by (rewrite Hl; lia). f_equal. symmetry. exact Hq. }
        rewrite list_lookup_insert_ne by lia. apply Hhi. lia.
      * intros i x j Hi Hx Hj. rewrite list_lookup_insert_ne in * by lia. apply Hcl; auto.
Qed.

Lemma SetTip_chain c p b :
  active_chain h c -> h !! p = Some b -> exists c', SetTip h c p = Ok c' /\ chain_to h c' p.
Proof using Hwf.
  intros Hc Hp. destruct (tree_ok h Hwf p b Hp) as [Hb _ _ _ _].
  unfold SetTip. rewrite (deref_ok h p b Hp). cbn [mbind res_bind].
  assert (EL : Z.to_nat (nHeight b + 1) = S (Z.to_nat (nHeight b))) by lia.
  destruct (settip_loop_spec p b Hp (Z.to_nat (nHeight b)) (length (resize c (Z.to_nat (nHeight b + 1))))
    (resize c (Z.to_nat (nHeight b + 1))) p) as (c' & E & Hl & Hc').
  - lia.
  - rewrite resize_length. lia.
  - rewrite resize_length. lia.
  - rewrite Nat.sub_diag. reflexivity.
  - intros i Hi. lia.
  - rewrite <- EL. apply resize_closed, active_closed, Hc.
  - exists c'. split; [exact E|]. exists b. split; [auto|]. split; [congruence|].
    intros i Hi. apply Hc'. lia.
Qed.
End ActiveChain.
