(* ===== verification/ActiveChain.v ===== *)
(** * The active chain: forks, common ancestors, locators

    Theorems about the operations of [src/chain.h] and [src/chain.cpp] that
    [Chain] models: the skip-list ancestor lookup and the growth of the block
    tree, [CChain::SetTip], [CChain::FindFork], [LastCommonAncestor] and
    [LocatorEntries].  Each is compared with the plain walk along [pprev]. *)

From stdpp Require Import base numbers list gmap strings sorting.
From Stdlib Require Import ZArith Lia.
From S2P Require Import Prelude ArithUint256 Compact Params Chain.

Local Open Scope Z_scope.

(** [q] is reached from [p] by following [pprev]. *)
Definition ancestor (h : heap) (q p : ptr) : Prop := exists n, up h n p = Some q.

(** The steps between two heights are determined by them. *)
Lemma ancestor_steps h p b q bq : tree_wf h -> h !! p = Some b -> h !! q = Some bq ->
  ancestor h q p -> nHeight bq <= nHeight b /\ up h (Z.to_nat (nHeight b - nHeight bq)) p = Some q.
Proof.
  intros Hwf Hp Hq [n Hn]. pose proof (up_height h Hwf n p b q bq Hp Hn Hq) as E.
  split; [lia|]. rewrite E. replace (Z.to_nat _) with n by lia. exact Hn.
Qed.

(** ** Forks *)

Section Fork.
Context (h : heap) (Hwf : tree_wf h) (c : CChain) (Hc : active_chain h c).

Lemma chain_height_lookup i q : c !! i = Some (Some q) ->
  exists bq, h !! q = Some bq /\ nHeight bq = Z.of_nat i.
Proof using Hc Hwf.
  destruct Hc as [->|[p Hp]]; [intros E; rewrite lookup_nil in E; discriminate|]. eapply chain_to_height; eauto.
Qed.

(** [Contains] compares with the entry of the block's height, and that decides
    membership. *)
Lemma Contains_spec p b : h !! p = Some b -> Contains h c p = Ok (bool_decide (Some p ∈ c)).
Proof using Hc Hwf.
  intros Hp. unfold Contains. rewrite (deref_ok h p b Hp). cbn [mbind res_bind]. f_equal.
  destruct (tree_ok h Hwf p b Hp) as [Hb _ _ _ _].
  apply bool_decide_ext. unfold chain_at. split.
  - destruct (_ || _)%bool eqn:E; [discriminate|]. apply orb_false_iff in E as [E1 E2]. zbool.
    intros En. apply list_elem_of_lookup. exists (Z.to_nat (nHeight b)).
    rewrite nth_lookup in En. destruct (c !! _) as [o|]; simpl in En; congruence.
  - intros Hin. apply list_elem_of_lookup in Hin as [i Hi].
    destruct (chain_height_lookup i p Hi) as (b' & Hb' & EH). assert (b' = b) by congruence. subst b'.
    pose proof (lookup_lt_Some _ _ _ Hi).
    destruct (Z.ltb_spec (nHeight b) 0); [lia|]. cbn [orb].
    destruct (Z.geb_spec (nHeight b) (Z.of_nat (length c))); [lia|].
    rewrite nth_lookup, EH, Nat2Z.id, Hi. reflexivity.
Qed.

(** The first block of the chain met on the walk back from [s], if any. *)
Definition first_in_chain (s : ptr) (r : option ptr) : Prop :=
  match r with
  | Some f => exists n, up h n s = Some f /\ Some f ∈ c /\
                forall m g, (m < n)%nat -> up h m s = Some g -> ~ Some g ∈ c
  | None => forall m g, up h m s = Some g -> ~ Some g ∈ c
  end.

Lemma first_in_chain_step s bs q r :
  h !! s = Some bs -> pprev bs = Some q -> ~ Some s ∈ c -> first_in_chain q r -> first_in_chain s r.
Proof using.
  intros Hs Eq Hn. assert (E : forall n, up h (S n) s = up h n q) by (intros; simpl; rewrite Hs; simpl; rewrite Eq; reflexivity).
  destruct r as [f|]; simpl.
  - intros (n & Hu & Hf & Hmin). exists (S n). rewrite E. split; [auto|]. split; [auto|].
    intros [|m] g Hm Hg; [simpl in Hg; injection Hg as <-; auto|]. rewrite E in Hg. apply (Hmin m); auto; lia.
  - intros Hall [|m] g Hg; [simpl in Hg; injection Hg as <-; auto|]. rewrite E in Hg. eauto.
Qed.

Lemma fork_loop_spec fuel : forall s bs, h !! s = Some bs -> nHeight bs < Z.of_nat fuel ->
  exists r, fork_loop fuel h c (Some s) = Ok r /\ first_in_chain s r.
Proof using Hc Hwf.
  induction fuel as [|fuel IH]; intros s bs Hs Hf;
    destruct (tree_ok h Hwf s bs Hs) as [Hb Hroot Hprev _ _]; [lia|].
  cbn [fork_loop]. rewrite (Contains_spec s bs Hs). cbn [mbind res_bind].
  case_bool_decide as Hin.
  - exists (Some s). split; [reflexivity|]. exists 0%nat. split; [reflexivity|]. split; [auto|]. lia.
  - rewrite (deref_ok h s bs Hs). cbn [mbind res_bind].
    destruct (pprev bs) as [q|] eqn:Eq.
    + destruct (Hprev q eq_refl) as (bq & Hq & EH). destruct (IH q bq Hq ltac:(lia)) as (r & Hr & Hfirst).
      exists r. split; [exact Hr|]. eapply first_in_chain_step; eauto.
    + exists None. split; [destruct fuel; reflexivity|].
      intros [|m] g Hg; [simpl in Hg; injection Hg as <-; auto|]. simpl in Hg. rewrite Hs in Hg. simpl in Hg.
      rewrite Eq in Hg. discriminate.
Qed.

(** Blocks above the tip are not in the chain. *)
Lemma above_not_in p b : h !! p = Some b -> Height c < nHeight b -> ~ Some p ∈ c.
Proof using Hc Hwf.
  intros Hp Hh Hin. apply list_elem_of_lookup in Hin as [i Hi].
  destruct (chain_height_lookup i p Hi) as (b' & Hb' & EH). assert (b' = b) by congruence. subst b'.
  apply lookup_lt_Some in Hi. unfold Height in Hh. lia.
Qed.

Lemma first_in_chain_above n : forall s bs q r, h !! s = Some bs -> up h n s = Some q ->
  (forall m g bg, (m < n)%nat -> up h m s = Some g -> h !! g = Some bg -> Height c < nHeight bg) ->
  first_in_chain q r -> first_in_chain s r.
Proof using Hc Hwf.
  induction n as [|n IH]; intros s bs q r Hs Hu Hab Hq; simpl in Hu; [injection Hu as <-; exact Hq|].
  rewrite Hs in Hu. simpl in Hu. destruct (pprev bs) as [t|] eqn:Et; [|discriminate]. simpl in Hu.
  destruct (tree_ok h Hwf s bs Hs) as [_ _ Hprev _ _]. destruct (Hprev t Et) as (bt & Ht & EH).
  eapply first_in_chain_step; [exact Hs|exact Et| |].
  - apply (above_not_in s bs Hs). apply (Hab 0%nat s bs); auto. lia.
  - apply (IH t bt q r Ht Hu); [|exact Hq]. intros m g bg Hm Hg Hbg.
    apply (Hab (S m) g bg); auto; [lia|]. simpl. rewrite Hs. simpl. rewrite Et. exact Hg.
Qed.

Lemma FindFork_spec p b : h !! p = Some b ->
  exists r, FindFork h c (Some p) = Ok r /\ first_in_chain p r.
Proof using Hc Hwf.
  intros Hp. destruct (tree_ok h Hwf p b Hp) as [Hb _ _ _ _].
  unfold FindFork. rewrite (deref_ok h p b Hp). cbn [mbind res_bind].
  destruct (Z.gtb_spec (nHeight b) (Height c)) as [Hgt|Hle]; cbn [mbind res_bind].
  - rewrite (GetAncestor_up h Hwf p b _ Hp). cbn [mbind res_bind].
    destruct (decide (0 <= Height c <= nHeight b)) as [Hd|Hd].
    + destruct (up_total h Hwf (Z.to_nat (nHeight b - Height c)) p b Hp ltac:(lia)) as (q & bq & Hq & Hbq & EH).
      rewrite Hq. destruct (fork_loop_spec (S (Z.to_nat (nHeight b))) q bq Hbq ltac:(lia)) as (r & Hr & Hf).
      exists r. split; [exact Hr|]. eapply first_in_chain_above; eauto.
      intros m g bg Hm Hg Hbg. rewrite (up_height h Hwf m p b g bg Hp Hg Hbg). lia.
    + exists None. split; [reflexivity|]. intros m g Hg.
      destruct c as [|o c'] eqn:Ec; [apply not_elem_of_nil|]. unfold Height in *. simpl length in *. lia.
  - apply (fork_loop_spec _ p b Hp). lia.
Qed.
End Fork.

(** ** Common ancestors *)

Section Common.
Context (h : heap) (Hwf : tree_wf h).

(** Where two walks in step first meet, if they do. *)
Definition meet (a b : ptr) (r : option ptr) : Prop :=
  match r with
  | Some x => exists n, up h n a = Some x /\ up h n b = Some x /\
                forall m y, (m < n)%nat -> up h m a = Some y -> up h m b = Some y -> False
  | None => forall n x, up h n a = Some x -> up h n b = Some x -> False
  end.

Lemma common_loop_spec fuel : forall a ba b bb, h !! a = Some ba -> h !! b = Some bb ->
  nHeight ba = nHeight bb -> nHeight ba < Z.of_nat fuel ->
  exists r, common_loop fuel h (Some a) (Some b) = Ok (r, r) /\ meet a b r.
Proof using Hwf.
  induction fuel as [|fuel IH]; intros a ba b bb Ha Hb EH Hf;
    destruct (tree_ok h Hwf a ba Ha) as [Ra Hroota Hpreva _ _]; [lia|].
  destruct (tree_ok h Hwf b bb Hb) as [Rb Hrootb Hprevb _ _].
  cbn [common_loop]. case_bool_decide as Eab.
  - injection Eab as <-. exists (Some a). split; [reflexivity|]. exists 0%nat. repeat split; auto. lia.
  - rewrite (deref_ok h a ba Ha), (deref_ok h b bb Hb). cbn [mbind res_bind].
    assert (H0 : forall y, up h 0 a = Some y -> up h 0 b = Some y -> False) by (simpl; congruence).
    destruct (pprev ba) as [qa|] eqn:Ea.
    + destruct (Hpreva qa eq_refl) as (bqa & Hqa & EHa).
      destruct (pprev bb) as [qb|] eqn:Eb; [|specialize (Hrootb eq_refl); destruct (tree_ok h Hwf qa bqa Hqa); lia].
      destruct (Hprevb qb eq_refl) as (bqb & Hqb & EHb).
      assert (Sa : forall n, up h (S n) a = up h n qa) by (intros; simpl; rewrite Ha; simpl; rewrite Ea; reflexivity).
      assert (Sb : forall n, up h (S n) b = up h n qb) by (intros; simpl; rewrite Hb; simpl; rewrite Eb; reflexivity).
      destruct (IH qa bqa qb bqb Hqa Hqb ltac:(lia) ltac:(lia)) as (r & Hr & Hm).
      exists r. split; [exact Hr|]. destruct r as [x|]; cbn [meet] in *.
      * destruct Hm as (n & Hna & Hnb & Hmin). exists (S n). rewrite Sa, Sb. repeat split; auto.
        intros [|m] y Hm' Hya Hyb; [eauto|]. rewrite Sa in Hya. rewrite Sb in Hyb. apply (Hmin m y); auto; lia.
      * intros [|n] x Hxa Hxb; [eauto|]. rewrite Sa in Hxa. rewrite Sb in Hxb. eauto.
    + destruct (pprev bb) as [qb|] eqn:Eb.
      { destruct (Hprevb qb eq_refl) as (bqb & Hqb & EHb). specialize (Hroota eq_refl).
        destruct (tree_ok h Hwf qb bqb Hqb). lia. }
      exists None. split; [destruct fuel; reflexivity|].
      intros [|n] x Hxa Hxb; [eauto|]. simpl in Hxa. rewrite Ha in Hxa. simpl in Hxa. rewrite Ea in Hxa. discriminate.
Qed.

(** From blocks of one height, meeting in step is meeting at all. *)
Lemma meet_deepest a ba b bb x bx y :
  h !! a = Some ba -> h !! b = Some bb -> nHeight ba = nHeight bb -> meet a b (Some x) -> h !! x = Some bx ->
  ancestor h y a -> ancestor h y b -> ancestor h y x.
Proof using Hwf.
  intros Ha Hb EH (n & Hna & Hnb & Hmin) Hx [i Hi] [j Hj].
  destruct (up_in h Hwf i a ba y Ha Hi) as [[yb Hyb] _].
  pose proof (up_height h Hwf i a ba y yb Ha Hi Hyb). pose proof (up_height h Hwf j b bb y yb Hb Hj Hyb).
  assert (j = i) by lia. subst j.
  destruct (decide (i < n)%nat) as [Hlt|Hge]; [exfalso; eauto|].
  exists (i - n)%nat. replace i with (n + (i - n))%nat in Hi by lia. rewrite up_add, Hna in Hi. exact Hi.
Qed.

Lemma meet_none a ba b bb y :
  h !! a = Some ba -> h !! b = Some bb -> nHeight ba = nHeight bb -> meet a b None ->
  ancestor h y a -> ancestor h y b -> False.
Proof using Hwf.
  intros Ha Hb EH Hn [i Hi] [j Hj].
  destruct (up_in h Hwf i a ba y Ha Hi) as [[yb Hyb] _].
  pose proof (up_height h Hwf i a ba y yb Ha Hi Hyb). pose proof (up_height h Hwf j b bb y yb Hb Hj Hyb).
  assert (j = i) by lia. subst j. eauto.
Qed.

(** The common ancestors of [a] and [b], and the deepest of them. *)
Definition last_common (a b : ptr) (r : option ptr) : Prop :=
  match r with
  | Some x => ancestor h x a /\ ancestor h x b /\
              forall y, ancestor h y a -> ancestor h y b -> ancestor h y x
  | None => forall y, ancestor h y a -> ancestor h y b -> False
  end.

Lemma meet_last_common a ba b bb r :
  h !! a = Some ba -> h !! b = Some bb -> nHeight ba = nHeight bb -> meet a b r -> last_common a b r.
Proof using Hwf.
  intros Ha Hb EH Hm. destruct r as [x|].
  - pose proof Hm as (n & Hna & Hnb & _). destruct (up_in h Hwf n a ba x Ha Hna) as [[bx Hx] _].
    split; [exists n; auto|]. split; [exists n; auto|]. intros y. eapply meet_deepest; eauto.
  - intros y. eapply meet_none; eauto.
Qed.

(** Replacing one side by its ancestor of the other side's height loses no
    common ancestor. *)
Lemma last_common_up a ba b bb a' r :
  h !! a = Some ba -> h !! b = Some bb -> nHeight bb <= nHeight ba ->
  up h (Z.to_nat (nHeight ba - nHeight bb)) a = Some a' -> last_common a' b r -> last_common a b r.
Proof using Hwf.
  intros Ha Hb Hle Hup.
  assert (Hto : forall y, ancestor h y a' -> ancestor h y a).
  { intros y [n Hn]. eexists. rewrite up_add, Hup. exact Hn. }
  assert (Hfrom : forall y, ancestor h y a -> ancestor h y b -> ancestor h y a').
  { intros y Hya [j Hj]. destruct (up_in h Hwf j b bb y Hb Hj) as [[yb Hyb] Hj'].
    pose proof (up_height h Hwf j b bb y yb Hb Hj Hyb).
    destruct (ancestor_steps h a ba y yb Hwf Ha Hyb Hya) as [Hle' Hy].
    exists (Z.to_nat (nHeight bb - nHeight yb)).
    replace (Z.to_nat (nHeight ba - nHeight yb))
      with (Z.to_nat (nHeight ba - nHeight bb) + Z.to_nat (nHeight bb - nHeight yb))%nat in Hy by lia.
    rewrite up_add, Hup in Hy. exact Hy. }
  destruct r as [x|]; simpl; [intros (? & ? & Hmax)|intros Hno].
  - split; [auto|]. split; [auto|]. intros y Hya Hyb. apply Hmax; auto.
  - intros y Hya Hyb. apply (Hno y); auto.
Qed.

Lemma last_common_sym a b r : last_common a b r -> last_common b a r.
Proof using. destruct r; simpl; naive_solver. Qed.

Lemma LastCommonAncestor_spec a ba b bb : h !! a = Some ba -> h !! b = Some bb ->
  exists r, LastCommonAncestor h a b = Ok r /\ last_common a b r.
Proof using Hwf.
  intros Ha Hb. destruct (tree_ok h Hwf a ba Ha) as [Ra _ _ _ _]. destruct (tree_ok h Hwf b bb Hb) as [Rb _ _ _ _].
  unfold LastCommonAncestor. rewrite (deref_ok h a ba Ha), (deref_ok h b bb Hb). cbn [mbind res_bind].
  assert (Fin : forall x bx y bY, h !! x = Some bx -> h !! y = Some bY -> nHeight bx = nHeight bY ->
     nHeight bx <= nHeight ba -> exists r,
     (ends ← common_loop (S (Z.to_nat (nHeight ba))) h (Some x) (Some y);
      _ ← assert_ (bool_decide (ends.1 = ends.2)); Ok ends.1) = Ok r /\ last_common x y r).
  { intros x bx y bY Hx Hy E Hl.
    destruct (common_loop_spec (S (Z.to_nat (nHeight ba))) x bx y bY Hx Hy E ltac:(lia)) as (r & Hr & Hm).
    exists r. rewrite Hr. cbn [mbind res_bind fst snd]. rewrite bool_decide_true by auto.
    split; [reflexivity|]. eapply meet_last_common; eauto. }
  destruct (Z.gtb_spec (nHeight ba) (nHeight bb)) as [H1|H1].
  - rewrite (GetAncestor_up h Hwf a ba _ Ha), decide_True by lia. cbn [mbind res_bind].
    destruct (up_total h Hwf (Z.to_nat (nHeight ba - nHeight bb)) a ba Ha ltac:(lia)) as (q & bq & Hq & Hbq & EH).
    rewrite Hq. cbn [fst snd]. destruct (Fin q bq b bb Hbq Hb ltac:(lia) ltac:(lia)) as (r & Hr & Hm).
    exists r. split; [exact Hr|]. eapply last_common_up; eauto. lia.
  - destruct (Z.gtb_spec (nHeight bb) (nHeight ba)) as [H2|H2].
    + rewrite (GetAncestor_up h Hwf b bb _ Hb), decide_True by lia. cbn [mbind res_bind].
      destruct (up_total h Hwf (Z.to_nat (nHeight bb - nHeight ba)) b bb Hb ltac:(lia)) as (q & bq & Hq & Hbq & EH).
      rewrite Hq. cbn [fst snd]. destruct (Fin a ba q bq Ha Hbq ltac:(lia) ltac:(lia)) as (r & Hr & Hm).
      exists r. split; [exact Hr|]. apply last_common_sym. apply last_common_sym in Hm.
      eapply last_common_up; eauto.
    + cbn [mbind res_bind fst snd]. apply (Fin a ba b bb); auto; lia.
Qed.
End Common.

(** ** Locators *)

(** How far back entry [i] of a locator lies: eleven single steps, then steps
    of 2, 4, 8, ... *)
Definition locator_offset (i : nat) : Z :=
  if (i <=? 11)%nat then Z.of_nat i else 9 + 2 ^ (Z.of_nat i - 10).

Definition locator_step (i : nat) : Z :=
  if (i <=? 10)%nat then 1 else 2 ^ (Z.of_nat i - 10).

Lemma locator_offset_S i : locator_offset (S i) = locator_offset i + locator_step i.
Proof.
  unfold locator_offset, locator_step.
  destruct (Nat.leb_spec (S i) 11), (Nat.leb_spec i 11), (Nat.leb_spec i 10); try lia.
  - replace i with 11%nat by lia. reflexivity.
  - replace (Z.of_nat (S i) - 10) with (Z.succ (Z.of_nat i - 10)) by lia. rewrite Z.pow_succ_r by lia. lia.
Qed.

Lemma locator_step_pos i : 1 <= locator_step i.
Proof.
  unfold locator_step. destruct (Nat.leb_spec i 10); [lia|].
  pose proof (Z.pow_pos_nonneg 2 (Z.of_nat i - 10) ltac:(lia) ltac:(lia)). lia.
Qed.

Lemma locator_offset_ge i : Z.of_nat i <= locator_offset i.
Proof.
  induction i as [|i IH]; [reflexivity|]. rewrite locator_offset_S. pose proof (locator_step_pos i). lia.
Qed.

Lemma locator_step_S i : locator_step i < 2 ^ 30 ->
  (if (10 <? S i)%nat then i32 (locator_step i * 2) else locator_step i) = locator_step (S i).
Proof.
  intros Hi. pose proof (locator_step_pos i).
  destruct (Nat.ltb_spec 10 (S i)).
  - rewrite swrap_small by (try lia; word_lia). unfold locator_step.
    destruct (Nat.leb_spec (S i) 10), (Nat.leb_spec i 10); try lia.
    + replace i with 10%nat by lia. reflexivity.
    + replace (Z.of_nat (S i) - 10) with (Z.succ (Z.of_nat i - 10)) by lia. rewrite Z.pow_succ_r by lia. lia.
  - unfold locator_step. destruct (Nat.leb_spec (S i) 10), (Nat.leb_spec i 10); lia.
Qed.

Lemma locator_step_offset i : locator_step i <= locator_offset i + 1.
Proof.
  unfold locator_step, locator_offset.
  destruct (Nat.leb_spec i 10), (Nat.leb_spec i 11); try lia.
  replace i with 11%nat by lia. vm_compute. discriminate.
Qed.

(** Entry [i] of the locator of [p], at height [H]. *)
Definition locator_block (h : heap) (p : ptr) (H : Z) (i : nat) : option ptr :=
  up h (Z.to_nat (Z.min H (locator_offset i))) p.

(** [n] is the index of the last entry: the first to reach the genesis block. *)
Definition locator_last (H : Z) (n : nat) : Prop :=
  H <= locator_offset n /\ forall i, (i < n)%nat -> locator_offset i < H.

Lemma locator_last_exists H : 0 <= H -> exists n, locator_last H n.
Proof.
  intros HH.
  assert (L : forall k, (exists n, locator_last H n) \/ forall i, (i < k)%nat -> locator_offset i < H).
  { induction k as [|k [IH|IH]]; [right; lia|auto|].
    destruct (Z.le_gt_cases H (locator_offset k)); [left; exists k; split; auto|].
    right. intros i Hi. destruct (decide (i = k)) as [->|]; [lia|apply IH; lia]. }
  destruct (L (S (Z.to_nat H))) as [?|Hall]; [auto|].
  pose proof (Hall (Z.to_nat H) ltac:(lia)). pose proof (locator_offset_ge (Z.to_nat H)). lia.
Qed.

(** A locator is logarithmic in the height: 41 entries reach back past two to
    the thirtieth blocks. *)
Lemma locator_last_bound H n : H < 2 ^ 30 -> locator_last H n -> (n <= 40)%nat.
Proof.
  intros HH [_ Hn]. destruct (decide (n <= 40)%nat) as [|Hgt]; [auto|].
  specialize (Hn 40%nat ltac:(lia)). vm_compute (locator_offset 40) in Hn. lia.
Qed.

Section Locator.
Context (h : heap) (Hwf : tree_wf h) (Hhash : map_Forall (fun _ b => is_Some (phashBlock b)) h).
Context (p : ptr) (b : CBlockIndex) (Hp : h !! p = Some b) (n : nat).
Context (Hlast : locator_last (nHeight b) n) (HH : nHeight b < 2 ^ 30).

(** The entry of index [i]: the block and its hash. *)
Definition locator_entry (i : nat) (e : ptr * uint256) : Prop :=
  locator_block h p (nHeight b) i = Some e.1 /\ exists be, h !! e.1 = Some be /\ phashBlock be = Some e.2.

Lemma locator_loop_spec k : forall i fuel q bq,
  (i + k = n)%nat -> locator_block h p (nHeight b) i = Some q -> h !! q = Some bq ->
  nHeight bq <= Z.of_nat fuel ->
  exists l, locator_loop fuel h (Some q) (locator_step i) i = Ok l /\ length l = S k /\
    forall j e, l !! j = Some e -> locator_entry (i + j) e.
Proof using Hwf Hhash Hp Hlast HH.
  destruct Hlast as [Hn Hlt]. destruct (tree_ok h Hwf p b Hp) as [Rb _ _ _ _].
  assert (Hoff : forall i, 0 <= locator_offset i) by (intros i; pose proof (locator_offset_ge i); lia).
  induction k as [|k IH]; intros i fuel q bq Hi Hq Hbq Hf; unfold locator_block in Hq;
    pose proof (up_height h Hwf _ _ _ _ _ Hp Hq Hbq) as EH; rewrite Z2Nat.id in EH by (pose proof (Hoff i); lia);
    destruct (Hhash q bq Hbq) as [hash Eh];
    assert (He : locator_entry i (q, hash)) by (split; [exact Hq|exists bq; auto]);
    destruct fuel as [|fuel]; cbn [locator_loop]; rewrite (deref_ok h q bq Hbq); cbn [mbind res_bind];
    unfold GetBlockHash; rewrite Eh; cbn [mbind res_bind].
  1,2: replace i with n in * by lia; rewrite Z.min_l in EH by lia;
    rewrite EH, Z.sub_diag; cbn [Z.eqb]; exists [(q, hash)]; split; [reflexivity|]; split; [reflexivity|];
    intros [|j] e E; [injection E as <-; rewrite Nat.add_0_r; auto|discriminate].
  all: pose proof (Hlt i ltac:(lia)) as Hoi; rewrite Z.min_r in EH by lia.
  { lia. }
  destruct (Z.eqb_spec (nHeight bq) 0); [lia|].
  pose proof (locator_step_pos i). pose proof (locator_step_offset i).
  rewrite (GetAncestor_up h Hwf q bq _ Hbq), decide_True by lia. cbn [mbind res_bind].
  destruct (up_total h Hwf (Z.to_nat (nHeight bq - Z.max (nHeight bq - locator_step i) 0)) q bq Hbq ltac:(lia))
    as (r & br & Hr & Hbr & EHr).
  assert (Hnext : locator_block h p (nHeight b) (S i) = Some r).
  { unfold locator_block. rewrite locator_offset_S. rewrite Z.min_r in Hq by lia.
    replace (Z.to_nat (Z.min (nHeight b) (locator_offset i + locator_step i)))
      with (Z.to_nat (locator_offset i) + Z.to_nat (nHeight bq - Z.max (nHeight bq - locator_step i) 0))%nat
      by (pose proof (Hoff i); lia).
    rewrite up_add, Hq. exact Hr. }
  rewrite Hr, locator_step_S by lia.
  destruct (IH (S i) fuel r br ltac:(lia) Hnext Hbr ltac:(lia)) as (l & Hl & Hlen & Hent).
  rewrite Hl. cbn [mbind res_bind]. exists ((q, hash) :: l). split; [reflexivity|].
  split; [simpl; congruence|].
  intros [|j] e E; [injection E as <-; rewrite Nat.add_0_r; auto|].
  simpl in E. replace (i + S j)%nat with (S i + j)%nat by lia. auto.
Qed.

Lemma LocatorEntries_spec : exists hashes, LocatorEntries h (Some p) = Ok hashes /\ length hashes = S n /\
  forall i hash, hashes !! i = Some hash -> exists q, locator_entry i (q, hash).
Proof using Hwf Hhash Hp Hlast HH.
  destruct (tree_ok h Hwf p b Hp) as [Rb _ _ _ _].
  assert (Hblk : locator_block h p (nHeight b) 0 = Some p).
  { unfold locator_block. change (locator_offset 0) with 0. rewrite Z.min_r by lia. reflexivity. }
  destruct (locator_loop_spec n 0 (Z.to_nat (nHeight b)) p b eq_refl Hblk Hp ltac:(lia)) as (l & Hl & Hlen & Hent).
  change (locator_step 0) with 1 in Hl.
  unfold LocatorEntries. rewrite (deref_ok h p b Hp). cbn [mbind res_bind]. rewrite Hl. cbn [mbind res_bind].
  exists (map snd l). split; [reflexivity|]. split; [rewrite length_map; auto|].
  intros i hash Hi. rewrite list_lookup_fmap in Hi. destruct (l !! i) as [[q x]|] eqn:E; [|discriminate].
  simpl in Hi. injection Hi as <-. exists q. apply (Hent i _ E).
Qed.
End Locator.

(** ** Checking a concrete tree *)

Definition block_okb (h : heap) (p : ptr) (b : CBlockIndex) : bool :=
  (0 <=? nHeight b) && (nHeight b <? 2 ^ 31) && bool_decide (in_u 32 (nTime b)) &&
  match pprev b with
  | None => nHeight b =? 0
  | Some q => match h !! q with Some bq => nHeight b =? nHeight bq + 1 | None => false end
  end &&
  match pskip b with
  | None => true
  | Some s => bool_decide (up h (Z.to_nat (nHeight b - GetSkipHeight (nHeight b))) p = Some s)
  end.

Definition tree_wfb (h : heap) : bool := forallb (fun kb => block_okb h kb.1 kb.2) (map_to_list h).

Lemma tree_wfb_ok h : tree_wfb h = true -> tree_wf h.
Proof.
  intros E p b Hp. unfold tree_wfb in E. rewrite forallb_forall in E.
  specialize (E (p, b)). rewrite <- list_elem_of_In, elem_of_map_to_list in E. specialize (E Hp).
  unfold block_okb in E. cbn [fst snd] in E. zbool. rewrite bool_decide_eq_true in *.
  split; auto.
  - intros Ep. rewrite Ep in *. zbool. auto.
  - intros q Eq. rewrite Eq in *. destruct (h !! q) as [bq|]; [|discriminate]. zbool. eauto.
  - intros s Es. rewrite Es in *. apply bool_decide_eq_true in H0. exact H0.
Qed.

(** Entries of a block with a given position and time. *)
Definition sample_block (id : Z) (prev skip : option ptr) (height time : Z) : CBlockIndex :=
  {| phashBlock := Some [id]; pprev := prev; pskip := skip; nHeight := height;
     nFile := 0; nDataPos := 0; nUndoPos := 0; nChainWork := uint_zero; nTx := 1; nChainTx := 1;
     nStatus := BLOCK_VALID_TREE; nVersion := 0; hashMerkleRoot := []; nTime := time;
     nBits := 0x1d00ffff; nNonce := 0; nSequenceId := 0; nTimeMax := time |}.

(** The chain 0-1-2-3-4 with a branch 5-6 off block 1. *)
Definition sample_tree : heap :=
  list_to_map [(0%nat, sample_block 0 None None 0 100);
               (1%nat, sample_block 1 (Some 0%nat) (Some 0%nat) 1 110);
               (2%nat, sample_block 2 (Some 1%nat) (Some 0%nat) 2 120);
               (3%nat, sample_block 3 (Some 2%nat) (Some 1%nat) 3 130);
               (4%nat, sample_block 4 (Some 3%nat) (Some 0%nat) 4 140);
               (5%nat, sample_block 5 (Some 1%nat) (Some 0%nat) 2 150);
               (6%nat, sample_block 6 (Some 5%nat) (Some 1%nat) 3 160)].

Lemma sample_tree_wf : tree_wf sample_tree.
Proof. apply tree_wfb_ok. vm_compute. reflexivity. Qed.

Lemma sample_tree_hashed : map_Forall (fun _ b => is_Some (phashBlock b)) sample_tree.
Proof.
  assert (E : forallb (fun kb => bool_decide (is_Some (phashBlock kb.2))) (map_to_list sample_tree) = true)
    by (vm_compute; reflexivity).
  rewrite forallb_forall in E. intros p b Hp. specialize (E (p, b)).
  rewrite <- list_elem_of_In, elem_of_map_to_list, bool_decide_eq_true in E. auto.
Qed.

Definition sample_chain : CChain := [Some 0%nat; Some 1%nat; Some 2%nat; Some 3%nat; Some 4%nat].

Lemma sample_chain_active : active_chain sample_tree sample_chain.
Proof.
  right. exists 4%nat. eexists. split; [reflexivity|]. split; [reflexivity|].
  intros i Hi. simpl in Hi. do 5 (destruct i as [|i]; [reflexivity|]). lia.
Qed.

(** ** Properties *)

(** On a well-formed block tree the skip-list walk of
    [CBlockIndex::GetAncestor] terminates without a failed assertion or a bad
    pointer, returns null exactly for heights outside 0..nHeight, and
    otherwise returns the block that the plain walk of
    nHeight - height steps along [pprev] reaches, whose height is the one
    asked for. *)
Theorem GetAncestor_correct (h : heap) (p : ptr) (b : CBlockIndex) (height : Z) :
  tree_wf h -> h !! p = Some b ->
  (height < 0 \/ nHeight b < height -> GetAncestor h p height = Ok None) /\
  (0 <= height <= nHeight b ->
    exists q bq, GetAncestor h p height = Ok (Some q) /\
      up h (Z.to_nat (nHeight b - height)) p = Some q /\ h !! q = Some bq /\ nHeight bq = height).
Proof.
  intros Hwf Hp. rewrite (GetAncestor_up h Hwf p b height Hp). split; intros Hh.
  - rewrite decide_False by lia. reflexivity.
  - rewrite decide_True by lia.
    destruct (up_total h Hwf (Z.to_nat (nHeight b - height)) p b Hp ltac:(lia)) as (q & bq & Hq & Hbq & E).
    exists q, bq. rewrite Hq. split; [reflexivity|]. split; [reflexivity|]. split; [auto|]. lia.
Qed.

Lemma GetAncestor_correct_witness :
  exists q bq, GetAncestor sample_tree 6 1 = Ok (Some q) /\ up sample_tree 2 6 = Some q /\
    sample_tree !! q = Some bq /\ nHeight bq = 1.
Proof.
  apply (GetAncestor_correct sample_tree 6 (sample_block 6 (Some 5%nat) (Some 1%nat) 3 160) 1);
    [exact sample_tree_wf|reflexivity|simpl; lia].
Defined.

(** Adding a block under an existing one (height one more, fresh address,
    no skip pointer yet) and calling [BuildSkip] succeeds, sets [pskip] to the
    ancestor of height [GetSkipHeight(nHeight)], changes no other entry, and
    keeps the whole block tree well formed. *)
Theorem BuildSkip_preserves_tree (h : heap) (p q : ptr) (b bq : CBlockIndex) :
  tree_wf h -> h !! p = None -> pprev b = Some q -> h !! q = Some bq ->
  nHeight b = nHeight bq + 1 -> nHeight b < 2 ^ 31 -> pskip b = None -> in_u 32 (nTime b) ->
  exists s, up h (Z.to_nat (nHeight bq - GetSkipHeight (nHeight b))) q = Some s /\
    BuildSkip (<[p := b]> h) p = Ok (<[p := set_pskip b (Some s)]> h) /\
    tree_wf (<[p := set_pskip b (Some s)]> h).
Proof. intros. eapply BuildSkip_extends; eauto. Qed.

Lemma BuildSkip_preserves_tree_witness :
  exists s, up sample_tree 3 6 = Some s /\
    BuildSkip (<[7%nat := sample_block 7 (Some 6%nat) None 4 170]> sample_tree) 7 =
      Ok (<[7%nat := sample_block 7 (Some 6%nat) (Some s) 4 170]> sample_tree) /\
    tree_wf (<[7%nat := sample_block 7 (Some 6%nat) (Some s) 4 170]> sample_tree).
Proof.
  apply (BuildSkip_preserves_tree sample_tree 7 6 (sample_block 7 (Some 6%nat) None 4 170)
           (sample_block 6 (Some 5%nat) (Some 1%nat) 3 160));
    first [exact sample_tree_wf | reflexivity | simpl; word_lia].
Defined.

(** Whatever valid chain [CChain] holds before, [SetTip] on a block of the
    tree terminates inside the vector's bounds and leaves the path from the
    root to that block, indexed by height: entry [i] is the tip's ancestor of
    height [i], [Height] is the tip's height and [Tip] the block. *)
Theorem SetTip_correct (h : heap) (c : CChain) (p : ptr) (b : CBlockIndex) :
  tree_wf h -> active_chain h c -> h !! p = Some b ->
  exists c', SetTip h c p = Ok c' /\ active_chain h c' /\ Height c' = nHeight b /\ Tip c' = Some p /\
    forall i, 0 <= i <= nHeight b -> chain_at c' i = up h (Z.to_nat (nHeight b - i)) p.
Proof.
  intros Hwf Hc Hp. destruct (SetTip_chain h Hwf c p b Hc Hp) as (c' & E & Hto).
  destruct (tree_ok h Hwf p b Hp) as [Hb _ _ _ _].
  exists c'. split; [exact E|]. split; [right; eauto|].
  destruct Hto as (b' & Hp' & Hl & Hi). assert (b' = b) by congruence. subst b'.
  assert (Hn : forall i, (i < length c')%nat -> nth i c' None = up h (Z.to_nat (nHeight b) - i) p).
  { intros i Hlt. rewrite nth_lookup, Hi by auto. reflexivity. }
  unfold Height, Tip, chain_at. split; [lia|]. split.
  - destruct (Nat.eqb_spec (length c') 0); [lia|]. rewrite Hn by lia.
    replace (Z.to_nat (nHeight b) - (length c' - 1))%nat with 0%nat by lia. reflexivity.
  - intros i Hir. destruct (Z.ltb_spec i 0); [lia|]. destruct (Z.geb_spec i (Z.of_nat (length c'))); [lia|].
    cbn [orb]. rewrite Hn by lia. f_equal. lia.
Qed.

Lemma SetTip_correct_witness :
  exists c', SetTip sample_tree sample_chain 6 = Ok c' /\ active_chain sample_tree c' /\ Height c' = 3 /\
    Tip c' = Some 6%nat /\ forall i, 0 <= i <= 3 -> chain_at c' i = up sample_tree (Z.to_nat (3 - i)) 6.
Proof.
  apply (SetTip_correct sample_tree sample_chain 6 (sample_block 6 (Some 5%nat) (Some 1%nat) 3 160));
    [exact sample_tree_wf|exact sample_chain_active|reflexivity].
Defined.

(** [CChain::FindFork] on a block of the tree always returns; its result
    is the first block of the active chain met when walking back from the
    block along [pprev] (the fork point), and null only when no ancestor of
    the block is in the chain. *)
Theorem FindFork_correct (h : heap) (c : CChain) (p : ptr) (b : CBlockIndex) :
  tree_wf h -> active_chain h c -> h !! p = Some b ->
  exists r, FindFork h c (Some p) = Ok r /\
    match r with
    | Some f => exists n, up h n p = Some f /\ Some f ∈ c /\
                  forall m g, (m < n)%nat -> up h m p = Some g -> ~ Some g ∈ c
    | None => forall m g, up h m p = Some g -> ~ Some g ∈ c
    end.
Proof. intros. eapply FindFork_spec; eauto. Qed.

Lemma FindFork_correct_witness :
  FindFork sample_tree sample_chain (Some 6%nat) = Ok (Some 1%nat) /\
  exists r, FindFork sample_tree sample_chain (Some 6%nat) = Ok r /\
    match r with
    | Some f => exists n, up sample_tree n 6 = Some f /\ Some f ∈ sample_chain /\
                  forall m g, (m < n)%nat -> up sample_tree m 6 = Some g -> ~ Some g ∈ sample_chain
    | None => forall m g, up sample_tree m 6 = Some g -> ~ Some g ∈ sample_chain
    end.
Proof.
  split; [vm_compute; reflexivity|].
  apply (FindFork_correct sample_tree sample_chain 6 (sample_block 6 (Some 5%nat) (Some 1%nat) 3 160));
    [exact sample_tree_wf|exact sample_chain_active|reflexivity].
Defined.

(** [LastCommonAncestor] on two blocks of a well-formed tree never fails
    its assertion; it returns the common ancestor that every other common
    ancestor is an ancestor of, and null only for blocks of two trees without
    a common ancestor. *)
Theorem LastCommonAncestor_correct (h : heap) (a b : ptr) (ba bb : CBlockIndex) :
  tree_wf h -> h !! a = Some ba -> h !! b = Some bb ->
  exists r, LastCommonAncestor h a b = Ok r /\
    match r with
    | Some x => ancestor h x a /\ ancestor h x b /\
                forall y, ancestor h y a -> ancestor h y b -> ancestor h y x
    | None => forall y, ancestor h y a -> ancestor h y b -> False
    end.
Proof. intros. eapply LastCommonAncestor_spec; eauto. Qed.

Lemma LastCommonAncestor_correct_witness :
  LastCommonAncestor sample_tree 4 6 = Ok (Some 1%nat) /\
  exists r, LastCommonAncestor sample_tree 4 6 = Ok r /\
    match r with
    | Some x => ancestor sample_tree x 4 /\ ancestor sample_tree x 6 /\
        forall y, ancestor sample_tree y 4 -> ancestor sample_tree y 6 -> ancestor sample_tree y x
    | None => forall y, ancestor sample_tree y 4 -> ancestor sample_tree y 6 -> False
    end.
Proof.
  split; [vm_compute; reflexivity|].
  apply (LastCommonAncestor_correct sample_tree 4 6 (sample_block 4 (Some 3%nat) (Some 0%nat) 4 140)
           (sample_block 6 (Some 5%nat) (Some 1%nat) 3 160)); [exact sample_tree_wf|reflexivity|reflexivity].
Defined.

(** [LocatorEntries] on a block below height 2^30 returns the hashes of
    the blocks [locator_offset i] below it (steps of 1 for the first eleven,
    then doubling, the last one cut off at the genesis block): the locator
    starts with the block itself, ends with the genesis block's hash and stops
    at the first entry that reaches it, and has at most 41 entries. *)
Theorem LocatorEntries_correct (h : heap) (p : ptr) (b : CBlockIndex) :
  tree_wf h -> map_Forall (fun _ b => is_Some (phashBlock b)) h -> h !! p = Some b -> nHeight b < 2 ^ 30 ->
  exists hashes n, LocatorEntries h (Some p) = Ok hashes /\ length hashes = S n /\ (n <= 40)%nat /\
    nHeight b <= locator_offset n /\ (forall i, (i < n)%nat -> locator_offset i < nHeight b) /\
    forall i hash, hashes !! i = Some hash -> exists q bq,
      up h (Z.to_nat (Z.min (nHeight b) (locator_offset i))) p = Some q /\
      h !! q = Some bq /\ phashBlock bq = Some hash.
Proof.
  intros Hwf Hh Hp HH. destruct (tree_ok h Hwf p b Hp) as [Hb _ _ _ _].
  destruct (locator_last_exists (nHeight b) ltac:(lia)) as [n Hn].
  destruct (LocatorEntries_spec h Hwf Hh p b Hp n Hn HH) as (hs & E & Hl & He).
  exists hs, n. split; [exact E|]. split; [exact Hl|]. split; [eapply locator_last_bound; eauto|].
  destruct Hn. repeat split; auto. intros i hash Hi. destruct (He i hash Hi) as (q & Hq & bq & Hbq & Eh). eauto.
Qed.

Lemma LocatorEntries_correct_witness :
  exists hashes n, LocatorEntries sample_tree (Some 4%nat) = Ok hashes /\ length hashes = S n /\ (n <= 40)%nat /\
    4 <= locator_offset n /\ (forall i, (i < n)%nat -> locator_offset i < 4) /\
    forall i hash, hashes !! i = Some hash -> exists q bq,
      up sample_tree (Z.to_nat (Z.min 4 (locator_offset i))) 4 = Some q /\
      sample_tree !! q = Some bq /\ phashBlock bq = Some hash.
Proof.
  apply (LocatorEntries_correct sample_tree 4 (sample_block 4 (Some 3%nat) (Some 0%nat) 4 140));
    [exact sample_tree_wf|exact sample_tree_hashed|reflexivity|reflexivity].
Defined.
