(* ===== verification/ChainWork.v ===== *)
(** * Block times, block work and validity bits

    Theorems about the parts of [src/chain.h] and [src/chain.cpp] that do not
    walk the tree far: [CBlockIndex::GetMedianTimePast], [GetBlockProof],
    [GetBlockProofEquivalentTime], [CBlockIndex::RaiseValidity]/[IsValid] and
    [CChain::FindEarliestAtLeast]. *)

From stdpp Require Import base numbers list gmap strings sorting.
From Stdlib Require Import ZArith Lia.
From S2P Require Import Prelude ArithUint256 Compact Params Chain ActiveChain.

Local Open Scope Z_scope.

(** ** Finding a block by time *)

(** [std::lower_bound] over the indices [first .. first + count): the halving
    loop of the library.  [below i] is the comparison with element [i]. *)
Fixpoint lower_bound (fuel : nat) (below : nat -> res bool) (first count : nat) : res nat :=
  match count with
  | O => Ok first
  | S _ =>
      match fuel with
      | O => Fail OutOfFuel
      | S fuel' =>
          let step := (count / 2)%nat in
          less ← below (first + step)%nat;
          if less : bool then lower_bound fuel' below (first + step + 1)%nat (count - (step + 1))%nat
          else lower_bound fuel' below first step
      end
  end.

(** The comparison of [FindEarliestAtLeast]. *)
Definition before_time_height (h : heap) (time height : Z) (e : option ptr) : res bool :=
  p ← access e; b ← deref h p; Ok ((GetBlockTimeMax b <? time) || (nHeight b <? height))%bool.

Definition FindEarliestAtLeast (h : heap) (c : CChain) (nTime height : Z) : res (option ptr) :=
  lower ← lower_bound (length c) (fun i => e ← access (c !! i); before_time_height h nTime height e) 0 (length c);
  if (lower =? length c)%nat then Ok None else access (c !! lower).

(** On a range cut in two by a monotone predicate the search finds the cut. *)
Lemma lower_bound_spec (P : nat -> bool) (cut : nat) fuel : forall first count below,
  (count <= fuel)%nat -> (first <= cut <= first + count)%nat ->
  (forall i, (first <= i < first + count)%nat -> below i = Ok (P i)) ->
  (forall i, (first <= i < first + count)%nat -> P i = true <-> (i < cut)%nat) ->
  lower_bound fuel below first count = Ok cut.
Proof.
  induction fuel as [|fuel IH]; intros first count below Hf Hc Hb HP.
  - destruct count; [|lia]. simpl. f_equal. lia.
  - destruct count as [|count]; cbn [lower_bound]; [f_equal; lia|].
    set (step := (S count / 2)%nat).
    assert (Hs : (step <= count)%nat) by (unfold step; apply Nat.lt_succ_r, Nat.div_lt; lia).
    rewrite Hb by lia. cbn [mbind res_bind]. pose proof (HP (first + step)%nat ltac:(lia)) as Hm.
    destruct (P (first + step)%nat).
    + apply IH; try lia; [intros i Hi; apply Hb; lia|intros i Hi; apply HP; lia].
    + assert (~ (first + step < cut)%nat) by (intros ?; apply Hm in H; discriminate).
      apply IH; try lia; [intros i Hi; apply Hb; lia|intros i Hi; apply HP; lia].
Qed.

Lemma monotone_cut (P : nat -> bool) n :
  (forall i j, (i <= j < n)%nat -> P j = true -> P i = true) ->
  exists cut, (cut <= n)%nat /\ forall i, (i < n)%nat -> P i = true <-> (i < cut)%nat.
Proof.
  induction n as [|n IH]; intros Hdown; [exists 0%nat; split; lia|].
  destruct IH as (cut & Hle & HP); [intros i j ?; apply Hdown; lia|].
  destruct (P n) eqn:En.
  - exists (S n). split; [lia|]. intros i Hi. split; [lia|]. intros _. apply (Hdown i n); [lia|auto].
  - exists cut. split; [lia|]. intros i Hi. destruct (decide (i = n)) as [->|]; [|apply HP; lia].
    rewrite En. split; [discriminate|lia].
Qed.

(** Every entry of a non-empty active chain is a block of its own height. *)
Lemma chain_entry h c i : tree_wf h -> active_chain h c -> (i < length c)%nat ->
  exists q bq, c !! i = Some (Some q) /\ h !! q = Some bq /\ nHeight bq = Z.of_nat i.
Proof.
  intros Hwf [->|[p (b & Hb & Hl & Hc)]] Hi; [simpl in Hi; lia|].
  destruct (tree_ok h Hwf p b Hb) as [R _ _ _ _].
  destruct (up_total h Hwf (Z.to_nat (nHeight b) - i) p b Hb ltac:(lia)) as (q & bq & Hq & Hbq & E).
  exists q, bq. rewrite Hc, Hq by auto. repeat split; auto. lia.
Qed.

(** ** Median time *)

(** The number of list elements below [m]; the [k]-th smallest element is at
    least [m] exactly when no more than [k] are below. *)
Definition count_lt (m : Z) (l : list Z) : nat := length (List.filter (fun x => x <? m) l).

Lemma count_lt_app m l1 l2 : count_lt m (l1 ++ l2) = (count_lt m l1 + count_lt m l2)%nat.
Proof. unfold count_lt. rewrite List.filter_app, length_app. reflexivity. Qed.

Lemma count_lt_le m l : (count_lt m l <= length l)%nat.
Proof. unfold count_lt. induction l as [|x l IH]; simpl; [lia|]. destruct (x <? m); simpl; lia. Qed.

Lemma count_lt_perm m l1 l2 : l1 ≡ₚ l2 -> count_lt m l1 = count_lt m l2.
Proof.
  unfold count_lt. induction 1; simpl; repeat (destruct (_ <? m); simpl); auto; congruence.
Qed.

Lemma count_lt_all m l : Forall (fun x => x < m) l -> count_lt m l = length l.
Proof.
  unfold count_lt. induction 1 as [|x l Hx _ IH]; simpl; [reflexivity|].
  destruct (Z.ltb_spec x m); [simpl; congruence|lia].
Qed.

Lemma count_lt_none m l : Forall (fun x => m <= x) l -> count_lt m l = 0%nat.
Proof.
  unfold count_lt. induction 1 as [|x l Hx _ IH]; simpl; [reflexivity|].
  destruct (Z.ltb_spec x m); [lia|auto].
Qed.

Lemma sorted_split (s : list Z) k x : StronglySorted Z.le s -> s !! k = Some x ->
  Forall (fun y => y <= x) (take (S k) s) /\ Forall (fun y => x <= y) (drop k s).
Proof.
  intros Hs. revert k. induction Hs as [|y s Hs IH Hy]; intros k Hk; [rewrite lookup_nil in Hk; discriminate|].
  destruct k as [|k]; simpl in Hk.
  - injection Hk as ->. split; [repeat constructor; lia|]. constructor; [lia|exact Hy].
  - destruct (IH k Hk) as [H1 H2]. split; [|exact H2]. cbn [take]. constructor; [|exact H1].
    rewrite Forall_forall in Hy. apply Hy, (list_elem_of_lookup_2 s k x Hk).
Qed.

Lemma kth_ge_count (l : list Z) k x m : merge_sort Z.le l !! k = Some x -> m <= x <-> (count_lt m l <= k)%nat.
Proof.
  intros Hk. pose proof (StronglySorted_merge_sort Z.le l) as Hs.
  rewrite <- (count_lt_perm m _ _ (merge_sort_Permutation Z.le l)).
  set (s := merge_sort Z.le l) in *.
  destruct (sorted_split s k x Hs Hk) as [H1 H2]. pose proof (lookup_lt_Some _ _ _ Hk) as Hlt. split.
  - intros Hm. rewrite <- (take_drop k s), count_lt_app, (count_lt_none m (drop k s)).
    + pose proof (count_lt_le m (take k s)). rewrite length_take in H. lia.
    + eapply Forall_impl; [exact H2|]. simpl. lia.
  - intros Hc. destruct (Z.le_gt_cases m x) as [|Hgt]; [auto|].
    rewrite <- (take_drop (S k) s), count_lt_app, (count_lt_all m (take (S k) s)), length_take in Hc; [lia|].
    eapply Forall_impl; [exact H1|]. simpl. lia.
Qed.

(** The median of a list, as the code takes it. *)
Definition median (l : list Z) : option Z := merge_sort Z.le l !! (length l / 2)%nat.

Lemma median_total l : l <> [] -> exists m, median l = Some m /\ m ∈ l.
Proof.
  intros Hl. assert (Hlt : (length l / 2 < length (merge_sort Z.le l))%nat).
  { rewrite (Permutation_length (merge_sort_Permutation Z.le l)). destruct l; [congruence|]. apply Nat.div_lt; simpl; lia. }
  destruct (lookup_lt_is_Some_2 _ _ Hlt) as [m Hm]. exists m. split; [exact Hm|].
  apply list_elem_of_lookup_2 in Hm. rewrite merge_sort_Permutation in Hm. exact Hm.
Qed.

(** Sliding the window over a new time above the median cannot lower it. *)
Lemma median_slide l l' t m m' :
  median l = Some m -> median l' = Some m' -> m < t ->
  (l' = t :: l \/ exists x, l = removelast l ++ [x] /\ l' = t :: removelast l) -> m <= m'.
Proof.
  intros Hm Hm' Ht Hl'. apply (kth_ge_count l' _ m' m Hm').
  pose proof (proj1 (kth_ge_count l _ m m Hm) ltac:(lia)) as Hc.
  assert (Ct : forall r, count_lt m (t :: r) = count_lt m r).
  { intros r. unfold count_lt. simpl. destruct (Z.ltb_spec t m); [lia|reflexivity]. }
  destruct Hl' as [->|(x & El & ->)]; rewrite Ct; simpl length.
  - assert (length l / 2 <= S (length l) / 2)%nat by (apply Nat.Div0.div_le_mono; lia). lia.
  - set (r := removelast l) in *. clearbody r. subst l.
    rewrite count_lt_app, length_app, Nat.add_1_r in Hc. lia.
Qed.

Section MedianTime.
Context (h : heap) (Hwf : tree_wf h).

(** The times the code collects are those of the block and of the ancestors
    [1 .. n-1] steps back, as far as there are any. *)
Lemma collect_times_ok n : forall p b, h !! p = Some b -> exists l, collect_times n h (Some p) = Ok l.
Proof using Hwf.
  induction n as [|n IH]; intros p b Hp; [exists []; reflexivity|].
  cbn [collect_times]. rewrite (deref_ok h p b Hp). cbn [mbind res_bind].
  destruct (tree_ok h Hwf p b Hp) as [_ _ Hprev _ _].
  destruct (pprev b) as [q|].
  - destruct (Hprev q eq_refl) as (bq & Hq & _). destruct (IH q bq Hq) as [l ->]. cbn [mbind res_bind]. eauto.
  - exists [GetBlockTime b]. destruct n; reflexivity.
Qed.

Lemma GetMedianTimePast_median p b l : h !! p = Some b -> collect_times nMedianTimeSpan h (Some p) = Ok l ->
  exists m, GetMedianTimePast h p = Ok m /\ median l = Some m.
Proof using Hwf.
  intros Hp Hl. unfold GetMedianTimePast. rewrite Hl. cbn [mbind res_bind].
  assert (Hne : l <> []).
  { unfold nMedianTimeSpan in Hl. cbn [collect_times] in Hl. rewrite (deref_ok h p b Hp) in Hl. cbn [mbind res_bind] in Hl.
    apply res_bind_Ok in Hl as (r & _ & E). congruence. }
  destruct (median_total l Hne) as (m & Hm & _). exists m. split; [|exact Hm].
  rewrite (Permutation_length (merge_sort_Permutation Z.le l)). unfold median in Hm. rewrite Hm. reflexivity.
Qed.

(** One more round collects either the same times or one more at the end. *)
Lemma collect_times_S n : forall o l l',
  collect_times n h o = Ok l -> collect_times (S n) h o = Ok l' ->
  l' = l \/ exists x, l' = l ++ [x].
Proof using.
  induction n as [|n IH]; intros o l l' Hl Hl'.
  - destruct o as [p|]; simpl in Hl, Hl'; [|left; congruence].
    apply res_bind_Ok in Hl' as (b & _ & E). simpl in E. right. exists (GetBlockTime b). simplify_eq. reflexivity.
  - destruct o as [p|]; [|left; simpl in *; congruence].
    cbn [collect_times] in Hl. change (collect_times (S (S n)) h (Some p))
      with (b ← deref h p; r ← collect_times (S n) h (pprev b); Ok (GetBlockTime b :: r)) in Hl'.
    apply res_bind_Ok in Hl as (b & Hb & Hl). rewrite Hb in Hl'. cbn [mbind res_bind] in Hl'.
    apply res_bind_Ok in Hl as (r & Hr & El). apply res_bind_Ok in Hl' as (r' & Hr' & El').
    injection El as <-. injection El' as <-.
    destruct (IH (pprev b) r r' Hr Hr') as [->|[x ->]]; [left; auto|right; exists x; reflexivity].
Qed.

Lemma GetMedianTimePast_total p b : h !! p = Some b -> exists m, GetMedianTimePast h p = Ok m.
Proof using Hwf.
  intros Hp. destruct (collect_times_ok nMedianTimeSpan p b Hp) as [l Hl].
  destruct (GetMedianTimePast_median p b l Hp Hl) as (m & E & _). eauto.
Qed.

Lemma GetMedianTimePast_mono p b q m : h !! p = Some b -> pprev b = Some q ->
  GetMedianTimePast h q = Ok m -> m < nTime b -> exists m', GetMedianTimePast h p = Ok m' /\ m <= m'.
Proof using Hwf.
  intros Hp Eq Hm Ht. destruct (tree_ok h Hwf p b Hp) as [_ _ Hprev _ _]. destruct (Hprev q Eq) as (bq & Hq & _).
  destruct (collect_times_ok nMedianTimeSpan q bq Hq) as [l Hl].
  destruct (collect_times_ok 10 q bq Hq) as [r Hr].
  assert (Hl' : collect_times nMedianTimeSpan h (Some p) = Ok (nTime b :: r)).
  { unfold nMedianTimeSpan.
    change (collect_times (S 10) h (Some p)) with (b ← deref h p; r ← collect_times 10 h (pprev b); Ok (GetBlockTime b :: r)).
    rewrite (deref_ok h p b Hp). cbn [mbind res_bind]. rewrite Eq, Hr. reflexivity. }
  destruct (GetMedianTimePast_median q bq l Hq Hl) as (m0 & E0 & M0). assert (m0 = m) by congruence. subst m0.
  destruct (GetMedianTimePast_median p b _ Hp Hl') as (m' & E' & M').
  exists m'. split; [exact E'|]. eapply (median_slide l _ (nTime b)); eauto.
  destruct (collect_times_S 10 (Some q) r l Hr Hl) as [->|[x ->]]; [left; reflexivity|].
  right. exists x. rewrite removelast_last. auto.
Qed.
End MedianTime.

(** ** Work *)

(** The expected number of hashes for a target: [2^256 / (target + 1)]. *)
Definition work_of (nBits : Z) : Z :=
  match compact_target nBits with Some v => 2 ^ 256 / (v + 1) | None => 0 end.

Lemma complement_div t : 0 < t < 2 ^ 256 -> (2 ^ 256 - 1 - t) / (t + 1) + 1 = 2 ^ 256 / (t + 1).
Proof.
  intros Ht. replace (2 ^ 256 - 1 - t) with (2 ^ 256 + (-1) * (t + 1)) by lia.
  rewrite Z.div_add by lia. lia.
Qed.

Lemma work_of_range c : in_u 32 c -> 0 <= work_of c < 2 ^ 256 /\ (work_of c = 0 <-> compact_target c = None).
Proof.
  intros Hc. unfold work_of. destruct (compact_target c) as [v|] eqn:E; [|split; [lia|tauto]].
  pose proof (compact_target_range c v Hc E) as Hv.
  assert (1 <= 2 ^ 256 / (v + 1)) by (apply Z.div_le_lower_bound; lia).
  assert (2 ^ 256 / (v + 1) < 2 ^ 256) by (apply Z.div_lt; lia).
  split; [lia|]. split; [lia|discriminate].
Qed.

Lemma GetBlockProof_spec b : in_u 32 (nBits b) ->
  exists w, GetBlockProof b = Ok w /\ wf w /\ uval w = work_of (nBits b).
Proof.
  intros Hb. pose proof (SetCompact_target (nBits b) Hb) as H. pose proof (work_of_range (nBits b) Hb) as [HR _].
  unfold GetBlockProof, work_of in *.
  destruct (SetCompact (nBits b)) as [[r n] o]. destruct H as [Hr H].
  destruct (compact_target (nBits b)) as [v|] eqn:Ev.
  - destruct H as [-> Hv]. pose proof (compact_target_range _ v Hb Ev) as R.
    assert (H1 : wf (op_add r (of_u64 1))) by (apply op_add_wf; auto using of_u64_wf).
    assert (E1 : uval (op_add r (of_u64 1)) = v + 1).
    { rewrite op_add_val, uval_of_u64, Hv by (auto using of_u64_wf; word_lia). apply Z.mod_small. lia. }
    destruct (op_div_spec (op_not r) _ (op_not_wf r Hr) H1 ltac:(lia)) as (q & Eq & Hq & Vq).
    rewrite Eq. cbn [mbind res_bind]. eexists. split; [reflexivity|].
    split; [apply op_add_wf; auto using of_u64_wf|].
    rewrite op_add_val, uval_of_u64, Vq, E1, op_not_val, Hv by (auto using of_u64_wf; word_lia).
    rewrite complement_div by lia. apply Z.mod_small. lia.
  - rewrite H. exists (of_u64 0). split; [reflexivity|]. split; [apply of_u64_wf|reflexivity].
Qed.

Lemma work_of_antitone c1 c2 v1 v2 : in_u 32 c1 -> in_u 32 c2 ->
  compact_target c1 = Some v1 -> compact_target c2 = Some v2 -> v1 <= v2 -> work_of c2 <= work_of c1.
Proof.
  intros H1 H2 E1 E2 Hle. unfold work_of. rewrite E1, E2.
  pose proof (compact_target_range c1 v1 H1 E1). apply Z.div_le_compat_l; lia.
Qed.

(** [sign * min(q, INT64_MAX)]. *)
Definition clamp63 (q : Z) : Z := Z.min q (2 ^ 63 - 1).

Lemma GetBlockProofEquivalentTime_spec to from tip params :
  wf (nChainWork to) -> wf (nChainWork from) -> in_u 32 (nBits tip) -> compact_target (nBits tip) <> None ->
  in_u 63 (nPowTargetSpacing params) ->
  Z.abs (uval (nChainWork to) - uval (nChainWork from)) * nPowTargetSpacing params < 2 ^ 256 ->
  let d := uval (nChainWork to) - uval (nChainWork from) in
  let q := Z.abs d * nPowTargetSpacing params / work_of (nBits tip) in
  GetBlockProofEquivalentTime to from tip params = Ok ((if 0 <? d then 1 else -1) * clamp63 q).
Proof.
  intros Ht Hf Hb Hn Hs Hlt d q. pose proof (uval_bound _ Ht). pose proof (uval_bound _ Hf).
  destruct (GetBlockProof_spec tip Hb) as (w & Ew & Hw & Vw).
  pose proof (work_of_range (nBits tip) Hb) as [HR Hz].
  assert (Hs64 : in_u 64 (nPowTargetSpacing params)) by (unfold in_u in *; lia).
  assert (R : exists r, wf r /\ uval r = Z.abs d /\
    GetBlockProofEquivalentTime to from tip params =
      (proof ← GetBlockProof tip; r ← op_div (op_mul r (of_u64 (u64 (nPowTargetSpacing params)))) proof;
       if bits r >? 63 then Ok ((if 0 <? d then 1 else -1) * (2 ^ 63 - 1))
       else Ok ((if 0 <? d then 1 else -1) * i64 (GetLow64 r)))).
  { unfold GetBlockProofEquivalentTime. rewrite uint_gt_spec by auto.
    destruct (Z.gtb_spec (uval (nChainWork to)) (uval (nChainWork from))), (Z.ltb_spec 0 d); try lia;
      (eexists; split; [|split; [|reflexivity]]; [apply op_sub_wf; auto|rewrite op_sub_val, Z.mod_small by (auto; lia); lia]). }
  destruct R as (r & Hr & Vr & ->). rewrite Ew. cbn [mbind res_bind]. rewrite (uwrap_small 64) by auto.
  assert (Hm : wf (op_mul r (of_u64 (nPowTargetSpacing params)))) by (apply op_mul_wf; auto using of_u64_wf).
  destruct (op_div_spec _ w Hm Hw ltac:(rewrite Vw; tauto)) as (x & Ex & Hx & Vx).
  rewrite Ex. cbn [mbind res_bind].
  assert (Eq : uval x = q).
  { rewrite Vx, Vw, op_mul_val, uval_of_u64, Vr by (auto using of_u64_wf). rewrite Z.mod_small; [reflexivity|].
    unfold in_u in Hs. fold d in Hlt. nia. }
  pose proof (uval_bound x Hx). pose proof (bits_le_iff x 63 Hx ltac:(lia)) as Hbits. rewrite Eq in *.
  unfold clamp63. destruct (Z.gtb_spec (bits x) 63).
  - rewrite Z.min_r; [reflexivity|]. destruct (Z.lt_ge_cases q (2 ^ 63)); [tauto || lia|lia].
  - rewrite Z.min_l by (apply Hbits in H2; lia). rewrite GetLow64_val, Eq by auto.
    assert (q < 2 ^ 63) by (apply Hbits; lia).
    rewrite (Z.mod_small q) by lia. rewrite swrap_small by (try lia; unfold in_s; change (64 - 1) with 63; lia). reflexivity.
Qed.

(** ** Validity bits *)

Lemma testbit_u32_lnot m i : 0 <= i -> Z.testbit (u32 (Z.lnot m)) i = ((i <? 32) && negb (Z.testbit m i))%bool.
Proof. intros Hi. unfold uwrap. rewrite Z.testbit_mod_pow2, Z.lnot_spec by lia. reflexivity. Qed.

Lemma testbit_pow2 n i : 0 <= n -> Z.testbit (2 ^ n) i = (i =? n).
Proof. intros. rewrite Z.pow2_bits_eqb by lia. apply Z.eqb_sym. Qed.

(** [BLOCK_VALID_MASK] is the three low bits. *)
Lemma testbit_valid_mask i : 0 <= i -> Z.testbit BLOCK_VALID_MASK i = (i <? 3).
Proof. intros. change BLOCK_VALID_MASK with (Z.ones 3). rewrite Z.testbit_ones by lia. destruct (Z.leb_spec 0 i); [reflexivity|lia]. Qed.

Definition valid_level (b : CBlockIndex) : Z := Z.land (nStatus b) BLOCK_VALID_MASK.
Definition is_failed (b : CBlockIndex) : bool := negb (Z.land (nStatus b) BLOCK_FAILED_MASK =? 0).

Lemma valid_upto u : 0 <= u < 8 -> (Z.land u (u32 (Z.lnot BLOCK_VALID_MASK)) =? 0) = true.
Proof.
  intros Hu. apply Z.eqb_eq, Z.bits_inj'. intros i Hi.
  rewrite Z.land_spec, testbit_u32_lnot, testbit_valid_mask, Z.bits_0 by lia.
  destruct (Z.ltb_spec i 3); [rewrite !andb_false_r; reflexivity|].
  rewrite (testbit_above 3 u) by (unfold in_u; lia). reflexivity.
Qed.

(** The level set by the assignment [(nStatus & ~BLOCK_VALID_MASK) | nUpTo]. *)
Lemma set_level st u i : 0 <= u < 8 -> 0 <= i ->
  Z.testbit (Z.lor (Z.land st (u32 (Z.lnot BLOCK_VALID_MASK))) u) i =
    if i <? 3 then Z.testbit u i else ((i <? 32) && Z.testbit st i)%bool.
Proof.
  intros Hu Hi. rewrite Z.lor_spec, Z.land_spec, testbit_u32_lnot, testbit_valid_mask by lia.
  destruct (Z.ltb_spec i 3).
  - rewrite andb_false_r, andb_false_r. reflexivity.
  - rewrite (testbit_above 3 u) by (unfold in_u; lia). rewrite orb_false_r, andb_true_r. apply andb_comm.
Qed.

Lemma level_of_set st u : 0 <= u < 8 ->
  Z.land (Z.lor (Z.land st (u32 (Z.lnot BLOCK_VALID_MASK))) u) BLOCK_VALID_MASK = u.
Proof.
  intros Hu. apply Z.bits_inj'. intros i Hi. rewrite Z.land_spec, set_level, testbit_valid_mask by lia.
  destruct (Z.ltb_spec i 3); [apply andb_true_r|].
  rewrite andb_false_r, (testbit_above 3 u) by (unfold in_u; lia). reflexivity.
Qed.

Lemma RaiseValidity_spec b u : in_u 32 (nStatus b) -> 0 <= u < 8 ->
  exists changed b', RaiseValidity b u = Ok (changed, b') /\
    changed = (negb (is_failed b) && (valid_level b <? u))%bool /\
    valid_level b' = (if changed then u else valid_level b) /\
    (forall i, 3 <= i -> i <> 8 -> Z.testbit (nStatus b') i = Z.testbit (nStatus b) i) /\
    Z.testbit (nStatus b') 8 = (Z.testbit (nStatus b) 8 && negb (changed && (BLOCK_VALID_SCRIPTS <=? u)))%bool.
Proof.
  intros Hs Hu. unfold RaiseValidity. rewrite valid_upto by lia. cbn [assert_ mbind res_bind].
  fold (is_failed b). destruct (is_failed b); cbn [negb andb].
  { exists false, b. rewrite andb_true_r. repeat split; auto. }
  fold (valid_level b). destruct (valid_level b <? u) eqn:El; [|exists false, b; rewrite andb_true_r; repeat split; auto].
  eexists true, _. split; [reflexivity|]. split; [reflexivity|]. cbn [nStatus set_nStatus].
  split; [unfold valid_level; cbn [nStatus set_nStatus]; apply level_of_set; lia|].
  assert (Hclear : forall i, 0 <= i -> Z.testbit (Z.land (nStatus b) (u32 (Z.lnot BLOCK_ASSUMED_VALID))) i =
     (Z.testbit (nStatus b) i && negb (i =? 8))%bool).
  { intros i Hi. rewrite Z.land_spec, testbit_u32_lnot by lia. change BLOCK_ASSUMED_VALID with (2 ^ 8).
    rewrite testbit_pow2 by lia. destruct (Z.ltb_spec i 32); [reflexivity|].
    rewrite (testbit_above 32 (nStatus b)) by (auto; lia). reflexivity. }
  assert (Hhigh : forall i, 32 <= i -> Z.testbit (nStatus b) i = false) by (intros; apply (testbit_above 32); auto; lia).
  assert (Hbit8 : Z.testbit (nStatus b) 8 = negb (Z.land (nStatus b) BLOCK_ASSUMED_VALID =? 0)).
  { change BLOCK_ASSUMED_VALID with (2 ^ 8). destruct (Z.testbit (nStatus b) 8) eqn:E8.
    - symmetry. apply negb_true_iff, Z.eqb_neq. intros E0.
      assert (F : Z.testbit (Z.land (nStatus b) (2 ^ 8)) 8 = false) by (rewrite E0; apply Z.bits_0).
      rewrite Z.land_spec, E8, testbit_pow2 in F by lia. discriminate.
    - symmetry. apply negb_false_iff, Z.eqb_eq, Z.bits_inj'. intros i Hi.
      rewrite Z.land_spec, testbit_pow2, Z.bits_0 by lia. destruct (Z.eqb_spec i 8) as [->|]; [rewrite E8; reflexivity|apply andb_false_r]. }
  rewrite Z.geb_leb. rewrite <- Hbit8. split.
  - intros i Hi Hi8. rewrite set_level by lia. destruct (Z.ltb_spec i 3); [lia|].
    destruct (Z.testbit (nStatus b) 8 && (BLOCK_VALID_SCRIPTS <=? u))%bool; [rewrite Hclear by lia; destruct (Z.eqb_spec i 8); [lia|rewrite andb_true_r]|];
      destruct (Z.ltb_spec i 32); try reflexivity; rewrite Hhigh by lia; reflexivity.
  - rewrite set_level by lia. cbn [Z.ltb Z.compare Pos.compare Pos.compare_cont andb].
    destruct (Z.testbit (nStatus b) 8) eqn:E8, (BLOCK_VALID_SCRIPTS <=? u); cbn [andb negb];
      rewrite ?Hclear, ?E8 by lia; reflexivity.
Qed.

(** ** Properties *)

(** The median of the last eleven block times never goes back along a
    chain that keeps the time rule: [GetMedianTimePast] always returns, and if
    a block's time is above the median time past of its parent then its own
    median time past is at least the parent's. *)
Theorem GetMedianTimePast_monotone (h : heap) (p q : ptr) (b bq : CBlockIndex) :
  tree_wf h -> h !! p = Some b -> pprev b = Some q -> h !! q = Some bq ->
  exists m, GetMedianTimePast h q = Ok m /\
    (m < nTime b -> exists m', GetMedianTimePast h p = Ok m' /\ m <= m').
Proof.
  intros Hwf Hp Eq Hq. destruct (GetMedianTimePast_total h Hwf q bq Hq) as [m Hm].
  exists m. split; [exact Hm|]. intros Ht. eapply GetMedianTimePast_mono; eauto.
Qed.

Lemma GetMedianTimePast_monotone_witness :
  GetMedianTimePast sample_tree 4 = Ok 120 /\
  exists m, GetMedianTimePast sample_tree 3 = Ok m /\
    (m < 140 -> exists m', GetMedianTimePast sample_tree 4 = Ok m' /\ m <= m').
Proof.
  split; [vm_compute; reflexivity|].
  apply (GetMedianTimePast_monotone sample_tree 4 3 (sample_block 4 (Some 3%nat) (Some 0%nat) 4 140)
           (sample_block 3 (Some 2%nat) (Some 1%nat) 3 130));
    [exact sample_tree_wf|reflexivity|reflexivity|reflexivity].
Defined.

(** [GetBlockProof] never divides by zero and returns exactly
    floor(2^256 / (target + 1)) for a valid target, computed without a 257-bit
    number, and 0 exactly for a negative, overflowing or zero one; a smaller
    target is never less work. *)
Theorem GetBlockProof_correct (b b2 : CBlockIndex) : in_u 32 (nBits b) -> in_u 32 (nBits b2) ->
  exists w w2, GetBlockProof b = Ok w /\ GetBlockProof b2 = Ok w2 /\ wf w /\
    uval w = match compact_target (nBits b) with Some t => 2 ^ 256 / (t + 1) | None => 0 end /\
    (uval w = 0 <-> compact_target (nBits b) = None) /\
    (forall t t2, compact_target (nBits b) = Some t -> compact_target (nBits b2) = Some t2 -> t <= t2 ->
       uval w2 <= uval w).
Proof.
  intros Hb Hb2. destruct (GetBlockProof_spec b Hb) as (w & E & Hw & V).
  destruct (GetBlockProof_spec b2 Hb2) as (w2 & E2 & Hw2 & V2).
  exists w, w2. do 3 (split; [auto|]). split; [exact V|].
  rewrite V, V2. split; [apply work_of_range; auto|]. intros t t2. apply work_of_antitone; auto.
Qed.

Lemma GetBlockProof_correct_witness :
  exists w w2, GetBlockProof (sample_block 0 None None 0 0) = Ok w /\
    GetBlockProof (sample_block 1 None None 0 0) = Ok w2 /\ wf w /\ uval w = 4295032833 /\
    uval w2 <= uval w.
Proof.
  destruct (GetBlockProof_correct (sample_block 0 None None 0 0) (sample_block 1 None None 0 0))
    as (w & w2 & E & E2 & Hw & V & _ & M); [vm_compute; intuition discriminate|vm_compute; intuition discriminate|].
  exists w, w2. split; [exact E|]. split; [exact E2|]. split; [exact Hw|].
  split; [rewrite V; vm_compute; reflexivity|]. eapply M; reflexivity.
Defined.

(** [GetBlockProofEquivalentTime] converts a difference of chain works
    into seconds of mining at the tip's difficulty: with a valid tip target
    and no 256-bit overflow of the product it is the signed quotient
    |work(to) - work(from)| * spacing / proof(tip), saturated at
    the largest 64-bit integer; exchanging the ends negates it. *)
Theorem GetBlockProofEquivalentTime_correct (to from tip : CBlockIndex) (params : Params) :
  wf (nChainWork to) -> wf (nChainWork from) -> in_u 32 (nBits tip) -> compact_target (nBits tip) <> None ->
  in_u 63 (nPowTargetSpacing params) ->
  Z.abs (uval (nChainWork to) - uval (nChainWork from)) * nPowTargetSpacing params < 2 ^ 256 ->
  exists t, GetBlockProofEquivalentTime to from tip params = Ok t /\
    GetBlockProofEquivalentTime from to tip params = Ok (- t) /\
    Z.abs t = Z.min (2 ^ 63 - 1)
      (Z.abs (uval (nChainWork to) - uval (nChainWork from)) * nPowTargetSpacing params / work_of (nBits tip)) /\
    (uval (nChainWork to) <= uval (nChainWork from) -> t <= 0) /\
    (uval (nChainWork from) <= uval (nChainWork to) -> 0 <= t).
Proof.
  intros Ht Hf Hb Hn Hs Hlt.
  assert (Es : Z.abs (uval (nChainWork from) - uval (nChainWork to)) =
               Z.abs (uval (nChainWork to) - uval (nChainWork from))) by lia.
  rewrite (GetBlockProofEquivalentTime_spec to from tip params) by auto.
  rewrite (GetBlockProofEquivalentTime_spec from to tip params) by (auto; rewrite Es; auto).
  pose proof (work_of_range (nBits tip) Hb) as [HR Hz].
  set (d := uval (nChainWork to) - uval (nChainWork from)) in *.
  rewrite Es.
  set (q := Z.abs d * nPowTargetSpacing params / work_of (nBits tip)).
  assert (0 < work_of (nBits tip)) by (destruct (Z.eq_dec (work_of (nBits tip)) 0); [tauto|lia]).
  assert (Hq : 0 <= q) by (apply Z.div_pos; [unfold in_u in Hs; nia|lia]).
  assert (Hq0 : d = 0 -> q = 0) by (intros E; unfold q; rewrite E; reflexivity).
  unfold clamp63. eexists. split; [reflexivity|]. split; [f_equal|].
  all: pose proof (eq_refl : d = uval (nChainWork to) - uval (nChainWork from)).
  all: destruct (Z.ltb_spec 0 d), (Z.ltb_spec 0 (uval (nChainWork from) - uval (nChainWork to))); lia.
Qed.

Lemma GetBlockProofEquivalentTime_correct_witness :
  exists t, GetBlockProofEquivalentTime (sample_block 0 None None 0 0) (sample_block 1 None None 0 0)
     (sample_block 2 None None 0 0) sample_params = Ok t /\
    GetBlockProofEquivalentTime (sample_block 1 None None 0 0) (sample_block 0 None None 0 0)
     (sample_block 2 None None 0 0) sample_params = Ok (- t).
Proof.
  destruct (GetBlockProofEquivalentTime_correct (sample_block 0 None None 0 0) (sample_block 1 None None 0 0)
     (sample_block 2 None None 0 0) sample_params) as (t & E1 & E2 & _).
  - split; [reflexivity|]. repeat constructor; vm_compute; congruence.
  - split; [reflexivity|]. repeat constructor; vm_compute; congruence.
  - vm_compute. intuition discriminate.
  - vm_compute. discriminate.
  - vm_compute. intuition discriminate.
  - vm_compute. reflexivity.
  - exists t. auto.
Defined.

(** For every status word and every level, [RaiseValidity] passes its
    assertion, raises the level exactly when the block has not failed and the
    level is higher, reports whether it did, never lowers the level, touches
    no other status bit than the assumed-valid mark (cleared when the block
    reaches full script validity), and afterwards [IsValid] holds exactly for
    a block that has not failed. *)
Theorem RaiseValidity_correct (b : CBlockIndex) (nUpTo : Z) : in_u 32 (nStatus b) -> 0 <= nUpTo < 8 ->
  exists changed b', RaiseValidity b nUpTo = Ok (changed, b') /\
    changed = (negb (is_failed b) && (valid_level b <? nUpTo))%bool /\
    valid_level b' = (if changed then nUpTo else valid_level b) /\ valid_level b <= valid_level b' /\
    (forall i, 3 <= i -> i <> 8 -> Z.testbit (nStatus b') i = Z.testbit (nStatus b) i) /\
    Z.testbit (nStatus b') 8 = (Z.testbit (nStatus b) 8 && negb (changed && (BLOCK_VALID_SCRIPTS <=? nUpTo)))%bool /\
    IsValid b' nUpTo = Ok (negb (is_failed b)).
Proof.
  intros Hs Hu. destruct (RaiseValidity_spec b nUpTo Hs Hu) as (c & b' & E & Ec & El & Hbits & H8).
  exists c, b'. do 3 (split; [auto|]).
  split; [rewrite El; destruct c; [symmetry in Ec; zbool; lia|lia]|].
  split; [auto|]. split; [auto|].
  unfold IsValid. rewrite valid_upto by lia. cbn [assert_ mbind res_bind].
  assert (Ef : is_failed b' = is_failed b).
  { unfold is_failed. do 2 f_equal. apply Z.bits_inj'. intros i Hi. rewrite !Z.land_spec.
    change BLOCK_FAILED_MASK with (Z.lor (2 ^ 5) (2 ^ 6)). rewrite Z.lor_spec, !testbit_pow2 by lia.
    destruct (Z.eqb_spec i 5) as [->|]; [rewrite (Hbits 5) by lia; reflexivity|].
    destruct (Z.eqb_spec i 6) as [->|]; [rewrite (Hbits 6) by lia; reflexivity|].
    rewrite !andb_false_r. reflexivity. }
  fold (is_failed b'). rewrite Ef. fold (valid_level b'). rewrite El.
  destruct (is_failed b); [reflexivity|]. cbn [negb andb] in *. subst c. f_equal.
  destruct (Z.ltb_spec (valid_level b) nUpTo); rewrite Z.geb_leb; apply Z.leb_le; lia.
Qed.

Lemma RaiseValidity_correct_witness :
  exists changed b', RaiseValidity (sample_block 0 None None 0 0) BLOCK_VALID_SCRIPTS = Ok (changed, b') /\
    changed = true /\ valid_level b' = 5 /\ IsValid b' BLOCK_VALID_SCRIPTS = Ok true.
Proof.
  destruct (RaiseValidity_correct (sample_block 0 None None 0 0) BLOCK_VALID_SCRIPTS)
    as (c & b' & E & Ec & El & _ & _ & _ & Ev); [vm_compute; intuition discriminate|vm_compute; intuition discriminate|].
  exists c, b'. split; [exact E|]. split; [rewrite Ec; reflexivity|].
  split; [rewrite El, Ec; reflexivity|rewrite Ev; reflexivity].
Defined.

(** When the largest times [nTimeMax] do not fall along the active chain,
    [CChain::FindEarliestAtLeast] returns the first block of the chain whose
    [nTimeMax] and height are both large enough, and null exactly when there
    is none. *)
Theorem FindEarliestAtLeast_correct (h : heap) (c : CChain) (time height : Z) :
  tree_wf h -> active_chain h c ->
  (forall i j p q bp bq, (i <= j)%nat -> c !! i = Some (Some p) -> c !! j = Some (Some q) ->
     h !! p = Some bp -> h !! q = Some bq -> nTimeMax bp <= nTimeMax bq) ->
  exists r, FindEarliestAtLeast h c time height = Ok r /\
    match r with
    | Some p => exists i b, c !! i = Some (Some p) /\ h !! p = Some b /\ time <= nTimeMax b /\ height <= nHeight b /\
        forall j q bq, (j < i)%nat -> c !! j = Some (Some q) -> h !! q = Some bq ->
          nTimeMax bq < time \/ nHeight bq < height
    | None => forall j q bq, c !! j = Some (Some q) -> h !! q = Some bq -> nTimeMax bq < time \/ nHeight bq < height
    end.
Proof.
  intros Hwf Hc Hmono.
  set (below := fun i => e ← access (c !! i); before_time_height h time height e).
  set (P := fun i => match below i with Ok true => true | _ => false end).
  assert (Hb : forall i q bq, c !! i = Some (Some q) -> h !! q = Some bq ->
      below i = Ok ((nTimeMax bq <? time) || (nHeight bq <? height))%bool).
  { intros i q bq Hi Hq. unfold below, before_time_height. rewrite Hi. cbn [access mbind res_bind].
    rewrite (deref_ok h q bq Hq). reflexivity. }
  assert (HPb : forall i, (i < length c)%nat -> below i = Ok (P i)).
  { intros i Hi. destruct (chain_entry h c i Hwf Hc Hi) as (q & bq & Hq & Hbq & _).
    unfold P. rewrite (Hb i q bq Hq Hbq). destruct (_ || _)%bool; reflexivity. }
  assert (Hdown : forall i j, (i <= j < length c)%nat -> P j = true -> P i = true).
  { intros i j Hij. destruct (chain_entry h c i Hwf Hc ltac:(lia)) as (q & bq & Hq & Hbq & EH).
    destruct (chain_entry h c j Hwf Hc ltac:(lia)) as (q' & bq' & Hq' & Hbq' & EH').
    unfold P. rewrite (Hb i q bq Hq Hbq), (Hb j q' bq' Hq' Hbq').
    pose proof (Hmono i j q q' bq bq' ltac:(lia) Hq Hq' Hbq Hbq').
    destruct (Z.ltb_spec (nTimeMax bq') time), (Z.ltb_spec (nHeight bq') height),
      (Z.ltb_spec (nTimeMax bq) time), (Z.ltb_spec (nHeight bq) height); simpl; auto; lia. }
  destruct (monotone_cut P (length c) Hdown) as (cut & Hle & HP).
  assert (Hval : forall j q bq, c !! j = Some (Some q) -> h !! q = Some bq ->
     (j < cut)%nat <-> (nTimeMax bq < time \/ nHeight bq < height)).
  { intros j q bq Hj Hq. rewrite <- HP by (eapply lookup_lt_Some; eauto). unfold P. rewrite (Hb j q bq Hj Hq).
    destruct (Z.ltb_spec (nTimeMax bq) time), (Z.ltb_spec (nHeight bq) height); simpl; intuition (auto || discriminate || lia). }
  unfold FindEarliestAtLeast.
  rewrite (lower_bound_spec P cut) by (auto; try lia; intros i Hi; first [apply HPb; lia|apply HP; lia]).
  cbn [mbind res_bind]. destruct (Nat.eqb_spec cut (length c)) as [->|Hne].
  - exists None. split; [reflexivity|]. intros j q bq Hj Hq. apply (Hval j q bq Hj Hq). eapply lookup_lt_Some; eauto.
  - destruct (chain_entry h c cut Hwf Hc ltac:(lia)) as (q & bq & Hq & Hbq & EH).
    exists (Some q). rewrite Hq. split; [reflexivity|]. exists cut, bq. pose proof (Hval cut q bq Hq Hbq).
    split; [auto|]. split; [auto|]. split; [lia|]. split; [lia|].
    intros j x bx Hj Hx Hbx. apply (Hval j x bx Hx Hbx). exact Hj.
Qed.

Lemma FindEarliestAtLeast_correct_witness :
  FindEarliestAtLeast sample_tree sample_chain 115 1 = Ok (Some 2%nat) /\
  exists r, FindEarliestAtLeast sample_tree sample_chain 115 1 = Ok r.
Proof.
  split; [vm_compute; reflexivity|].
  destruct (FindEarliestAtLeast_correct sample_tree sample_chain 115 1 sample_tree_wf sample_chain_active)
    as (r & E & _); [|exists r; exact E].
  intros i j p q bp bq Hij Hp Hq Hbp Hbq.
  pose proof (lookup_lt_Some _ _ _ Hq) as Hj. simpl in Hj.
  assert (Hi : (i < 5)%nat) by lia.
  assert (E : forall k x bx, (k < 5)%nat -> sample_chain !! k = Some (Some x) -> sample_tree !! x = Some bx ->
     nTimeMax bx = 100 + 10 * Z.of_nat k).
  { intros k x bx Hk Hx Hbx. do 5 (destruct k as [|k]; [injection Hx as <-; vm_compute in Hbx; injection Hbx as <-; reflexivity|]). lia. }
  rewrite (E i p bp), (E j q bq) by auto. lia.
Defined.
