(* ===== verification/Pow.v ===== *)
(** * Proof of work and difficulty

    Models [src/pow.cpp]: the RandomX key of a block, the difficulty retarget
    ([GetNextWorkRequired], [CalculateNextWorkRequired]), the proof-of-work
    check ([CheckProofOfWork], [CheckProofOfWorkRandomX]) and the bound that
    headers sync puts on difficulty changes ([PermittedDifficultyTransition]).
    In the source [bnNew *= nActualTimespan] picks the overload on
    [uint32_t], so the factor is reduced to 32 bits; [/=] converts to
    [uint64_t] first. *)

From stdpp Require Import base numbers list gmap strings.
From Stdlib Require Import ZArith Lia.
From S2P Require Import Prelude ArithUint256 Compact Params RandomX Chain ActiveChain ChainWork.

Local Open Scope Z_scope.

(** ** The RandomX key *)

(** Walk back while the block is above the key block. *)
Fixpoint key_walk (fuel : nat) (h : heap) (pKeyBlock : option ptr) (keyBlockHeight : Z) : res (option ptr) :=
  match pKeyBlock with
  | None => Ok None
  | Some p =>
      b ← deref h p;
      if nHeight b >? keyBlockHeight then
        match fuel with
        | O => Fail OutOfFuel
        | S fuel' => key_walk fuel' h (pprev b) keyBlockHeight
        end
      else Ok (Some p)
  end.

Definition GetRandomXKey (h : heap) (pindexPrev : option ptr) : res (bytes * Z) :=
  prev_height ← match pindexPrev with Some p => b ← deref h p; Ok (nHeight b) | None => Ok (-1) end;
  let nNextHeight := prev_height + 1 in
  let keyBlockHeight := GetKeyBlockHeight nNextHeight in
  if keyBlockHeight <? 0 then Ok (RANDOMX_GENESIS_KEY, -1)
  else
    o ← key_walk (Z.to_nat nNextHeight) h pindexPrev keyBlockHeight;
    match o with
    | None => Ok (RANDOMX_GENESIS_KEY, -1)
    | Some k =>
        b ← deref h k;
        if negb (nHeight b =? keyBlockHeight) then Ok (RANDOMX_GENESIS_KEY, -1)
        else hash ← GetBlockHash b; Ok (hash, keyBlockHeight)
    end.

(** ** Retargeting *)

(** [SetCompact(nbits)], scale by [span] over the target timespan, cap at the
    proof-of-work limit. *)
Definition scale_target (params : Params) (nbits span : Z) : res base_uint :=
  let bnPowLimit := UintToArith256 (powLimit params) in
  let '(bnNew, _, _) := SetCompact nbits in
  let bnNew := op_mul32 bnNew (u32 span) in
  bnNew ← op_div bnNew (of_u64 (u64 (nPowTargetTimespan params)));
  Ok (if uint_gt bnNew bnPowLimit then bnPowLimit else bnNew).

Definition clamp_timespan (params : Params) (nActualTimespan : Z) : Z :=
  let nTargetTimespan := nPowTargetTimespan params in
  let t := if nActualTimespan <? Z.quot nTargetTimespan 4 then Z.quot nTargetTimespan 4 else nActualTimespan in
  if t >? i64 (nTargetTimespan * 4) then i64 (nTargetTimespan * 4) else t.

Definition CalculateNextWorkRequired (last : CBlockIndex) (nFirstBlockTime : Z) (params : Params) : res Z :=
  if fPowNoRetargeting params then Ok (nBits last)
  else
    let nActualTimespan := clamp_timespan params (GetBlockTime last - nFirstBlockTime) in
    bnNew ← scale_target params (nBits last) nActualTimespan;
    GetCompact bnNew false.

(** [for (int i = 0; pindexFirst && i < n; i++) pindexFirst = pindexFirst->pprev;] *)
Fixpoint back_loop (n : nat) (h : heap) (pindexFirst : option ptr) : res (option ptr) :=
  match n, pindexFirst with
  | S n', Some p => b ← deref h p; back_loop n' h (pprev b)
  | _, _ => Ok pindexFirst
  end.

Definition GetNextWorkRequired (h : heap) (pindexLast : option ptr) (params : Params) : res Z :=
  match pindexLast with
  | None => Fail AssertFailed
  | Some p =>
      nProofOfWorkLimit ← GetCompact (UintToArith256 (powLimit params)) false;
      last ← deref h p;
      if nHeight last + 1 <? DifficultyAdjustmentInterval params then Ok nProofOfWorkLimit
      else if negb (Z.rem (nHeight last + 1) (DifficultyAdjustmentInterval params) =? 0) then Ok (nBits last)
      else
        let nHeightFirst := i32 (nHeight last - (DifficultyAdjustmentInterval params - 1)) in
        _ ← assert_ (nHeightFirst >=? 0);
        o ← back_loop (Z.to_nat (i32 (DifficultyAdjustmentInterval params) - 1)) h pindexLast;
        match o with
        | None => Fail AssertFailed
        | Some f => first ← deref h f; CalculateNextWorkRequired last (GetBlockTime first) params
        end
  end.

(** ** The check *)

Definition CheckProofOfWork (hash : uint256) (nBits : Z) (params : Params) : bool :=
  let '(bnTarget, fNegative, fOverflow) := SetCompact nBits in
  if (fNegative || EqualTo bnTarget 0 || fOverflow ||
      uint_gt bnTarget (UintToArith256 (powLimit params)))%bool then false
  else if uint_gt (UintToArith256 hash) bnTarget then false
  else true.

Section RandomXPow.
(** The RandomX library's hash and the serialisation of block headers
    ([primitives/block.h]) are not in the repository. *)
Context (rx_hash : bytes -> bytes -> uint256) {CBlockHeader : Type} (serialize : CBlockHeader -> bytes).

Definition GetRandomXBlockHash (header : CBlockHeader) (nHeight : Z) (keyHash : uint256) : stm world uint256 :=
  let ss := serialize header in
  let key := if GetKeyBlockHeight nHeight <? 0 then RANDOMX_GENESIS_KEY else keyHash in
  Hash rx_hash ss key.

Definition CheckProofOfWorkRandomX (header : CBlockHeader) (nHeight : Z) (keyHash : uint256) (nBits : Z)
    (params : Params) : stm world bool :=
  if nHeight =? 0 then mret true
  else hash ← GetRandomXBlockHash header nHeight keyHash; mret (CheckProofOfWork hash nBits params).
End RandomXPow.

(** ** Permitted transitions *)

Definition PermittedDifficultyTransition (params : Params) (height old_nbits new_nbits : Z) : res bool :=
  if fPowAllowMinDifficultyBlocks params then Ok true
  else if Z.rem height (DifficultyAdjustmentInterval params) =? 0 then
    let smallest_timespan := Z.quot (nPowTargetTimespan params) 4 in
    let largest_timespan := i64 (nPowTargetTimespan params * 4) in
    let '(observed_new_target, _, _) := SetCompact new_nbits in
    largest_difficulty_target ← scale_target params old_nbits largest_timespan;
    c ← GetCompact largest_difficulty_target false;
    let '(maximum_new_target, _, _) := SetCompact c in
    if uint_lt maximum_new_target observed_new_target then Ok false
    else
      smallest_difficulty_target ← scale_target params old_nbits smallest_timespan;
      c ← GetCompact smallest_difficulty_target false;
      let '(minimum_new_target, _, _) := SetCompact c in
      if uint_gt minimum_new_target observed_new_target then Ok false else Ok true
  else if negb (old_nbits =? new_nbits) then Ok false
  else Ok true.

(** ** Sound parameters

    What the networks' parameters satisfy: a 32-byte limit, at least one block
    per interval, and room for the largest scaled target in 256 bits and for
    the largest timespan in the 32 bits the multiplication keeps. *)

Definition pow_limit (params : Params) : Z := le_val 8 (powLimit params).

Record pow_params_ok (params : Params) : Prop := {
  limit_blob : blob (powLimit params);
  spacing_pos : 0 < nPowTargetSpacing params;
  timespan_ge : nPowTargetSpacing params <= nPowTargetTimespan params;
  timespan_max : nPowTargetTimespan params * 4 < 2 ^ 32;
  interval_int : DifficultyAdjustmentInterval params < 2 ^ 31;
  limit_room : pow_limit params * (nPowTargetTimespan params * 4) < 2 ^ 256;
}.

Lemma sample_params_ok : pow_params_ok sample_params.
Proof.
  split; try (vm_compute; congruence).
  split; [reflexivity|]. apply Forall_forall. intros x Hx. apply list_elem_of_In in Hx. simpl in Hx.
  assert (x = 255 \/ x = 0) as [-> | ->] by intuition; vm_compute; intuition congruence.
Qed.

(** The same with a retarget every four blocks. *)
Definition hourly_params : Params :=
  {| hashGenesisBlock := []; nSubsidyHalvingInterval := 1; script_flag_exceptions := [];
     BIP34Height := 0; BIP34Hash := []; BIP65Height := 0; BIP66Height := 0; CSVHeight := 0; SegwitHeight := 0;
     MinBIP9WarningHeight := 0; nRuleChangeActivationThreshold := 1; nMinerConfirmationWindow := 1;
     vDeployments := vDeployments sample_params; powLimit := powLimit sample_params;
     fPowAllowMinDifficultyBlocks := false; fPowNoRetargeting := false;
     nPowTargetSpacing := 900; nPowTargetTimespan := 3600; nMinimumChainWork := [];
     defaultAssumeValid := []; signet_blocks := false; signet_challenge := [] |}.

Section Params.
Context (params : Params) (Hok : pow_params_ok params).
Local Notation T := (nPowTargetTimespan params).
Local Notation L := (pow_limit params).

Lemma limit_wf : wf (UintToArith256 (powLimit params)) /\ uval (UintToArith256 (powLimit params)) = L.
Proof using Hok.
  split; [apply UintToArith256_wf; apply Hok|apply UintToArith256_val; apply Hok].
Qed.

Lemma limit_range : 0 <= L < 2 ^ 256.
Proof using Hok. destruct limit_wf as [H <-]. apply uval_bound. exact H. Qed.

Lemma interval_pos : 1 <= DifficultyAdjustmentInterval params.
Proof using Hok.
  destruct Hok as [_ H1 H2 _ _ _]. unfold DifficultyAdjustmentInterval. rewrite Z.quot_div_nonneg by lia.
  apply Z.div_le_lower_bound; lia.
Qed.

Lemma clamp_timespan_range d : let s := clamp_timespan params d in T / 4 <= s <= T * 4.
Proof using Hok.
  destruct Hok as [_ H1 H2 H3 _ _]. unfold clamp_timespan.
  rewrite Z.quot_div_nonneg by lia. rewrite !swrap_small by (try lia; word_lia).
  assert (T / 4 <= T) by (apply Z.div_le_upper_bound; lia).
  assert (0 <= T / 4) by (apply Z.div_pos; lia).
  destruct (Z.ltb_spec d (T / 4));
    repeat match goal with |- context [?a >? ?b] => destruct (Z.gtb_spec a b) end; lia.
Qed.

(** [scale_target] computes [min (target * span / T) limit] exactly. *)
Lemma scale_target_spec nbits span : in_u 32 nbits -> compact_value nbits <= L -> 0 <= span <= T * 4 ->
  exists r, scale_target params nbits span = Ok r /\ wf r /\ uval r = Z.min (compact_value nbits * span / T) L.
Proof using Hok.
  intros Hn Ht Hs. destruct Hok as [_ H1 H2 H3 _ H6]. 
  destruct limit_wf as [Hwl Vl]. pose proof limit_range as HL.
  pose proof (compact_value_nonneg nbits Hn) as Hv0.
  unfold scale_target. pose proof (SetCompact_spec nbits Hn) as HS. destruct (SetCompact nbits) as [[r n] o].
  destruct HS as (Hr & Vr & _ & _). rewrite Z.mod_small in Vr by lia.
  assert (Hsp : in_u 32 span) by word_lia. rewrite (uwrap_small 32 span) by auto.
  assert (HT64 : in_u 64 T) by word_lia. rewrite (uwrap_small 64 T) by auto.
  assert (Hm : wf (op_mul32 r span)) by auto using op_mul32_wf.
  assert (Vm : uval (op_mul32 r span) = compact_value nbits * span).
  { rewrite op_mul32_val, Vr by auto. apply Z.mod_small. nia. }
  destruct (op_div_spec (op_mul32 r span) (of_u64 T) Hm (of_u64_wf T)) as (q & Eq & Hq & Vq).
  { rewrite uval_of_u64 by auto. lia. }
  rewrite Eq. cbn [mbind res_bind]. rewrite uval_of_u64, Vm in Vq by auto.
  eexists. split; [reflexivity|]. rewrite uint_gt_spec, Vq, Vl by auto.
  destruct (Z.gtb_spec (compact_value nbits * span / T) L); split; auto; rewrite ?Vq, ?Vl; lia.
Qed.

(** The compact word the code builds from a target. *)
Lemma scale_compact nbits span : in_u 32 nbits -> compact_value nbits <= L -> 0 <= span <= T * 4 ->
  exists c, (r ← scale_target params nbits span; GetCompact r false) = Ok c /\ in_u 32 c /\
    Z.testbit c 23 = false /\ compact_floor (Z.min (compact_value nbits * span / T) L) (compact_value c).
Proof using Hok.
  intros Hn Ht Hs. destruct (scale_target_spec nbits span Hn Ht Hs) as (r & E & Hr & Vr).
  rewrite E. cbn [mbind res_bind]. rewrite GetCompact_encode by auto.
  eexists. split; [reflexivity|]. rewrite Vr. apply compact_encode_spec. rewrite <- Vr. apply uval_bound. auto.
Qed.

(** A rounded target stays within the bounds of what it was rounded from. *)
Lemma compact_floor_range v t : compact_floor v t -> 0 <= v -> 0 <= t <= v.
Proof using.
  intros (_ & Hle & Hmax) Hv. split; [|auto]. apply Hmax; [|auto]. apply compact_repr_small. lia.
Qed.

(** *** The next block's difficulty *)

Context (h : heap) (Hwf : tree_wf h).

Lemma back_loop_up n : forall p b, h !! p = Some b -> Z.of_nat n <= nHeight b ->
  back_loop n h (Some p) = Ok (up h n p).
Proof using Hwf.
  induction n as [|n IH]; intros p b Hp Hn; [reflexivity|].
  cbn [back_loop up]. rewrite (deref_ok h p b Hp), Hp. cbn [mbind res_bind option_bind].
  destruct (tree_ok h Hwf p b Hp) as [_ Hroot Hprev _ _].
  destruct (pprev b) as [q|] eqn:Eq; [|specialize (Hroot eq_refl); lia].
  destruct (Hprev q eq_refl) as (bq & Hq & EH). rewrite (IH q bq Hq) by lia. reflexivity.
Qed.

Definition limit_bits : Z := compact_encode L.

Lemma limit_bits_spec : in_u 32 limit_bits /\ Z.testbit limit_bits 23 = false /\ compact_floor L (compact_value limit_bits).
Proof using Hok. apply compact_encode_spec, limit_range. Qed.

(** [GetNextWorkRequired] by cases, with its assertions discharged. *)
Lemma GetNextWorkRequired_cases p b : h !! p = Some b ->
  let D := DifficultyAdjustmentInterval params in
  GetNextWorkRequired h (Some p) params =
    if nHeight b + 1 <? D then Ok limit_bits
    else if negb ((nHeight b + 1) mod D =? 0) then Ok (nBits b)
    else match up h (Z.to_nat (D - 1)) p ≫= (h !!.) with
         | Some first => CalculateNextWorkRequired b (nTime first) params
         | None => Fail AssertFailed
         end.
Proof using Hok Hwf.
  intros Hp D. destruct (tree_ok h Hwf p b Hp) as [Hb _ _ _ _]. pose proof interval_pos as HD. fold D in HD.
  destruct limit_wf as [Hwl Vl]. pose proof (interval_int params Hok) as HDi. fold D in HDi.
  unfold GetNextWorkRequired. rewrite GetCompact_encode, Vl by auto. cbn [mbind res_bind].
  rewrite (deref_ok h p b Hp). cbn [mbind res_bind]. fold D. fold limit_bits.
  destruct (Z.ltb_spec (nHeight b + 1) D); [reflexivity|].
  rewrite Z.rem_mod_nonneg by lia. destruct (negb _); [reflexivity|].
  rewrite !swrap_small by (try lia; word_lia).
  destruct (Z.geb_spec (nHeight b - (D - 1)) 0); [|lia]. cbn [assert_ mbind res_bind].
  rewrite (back_loop_up _ p b Hp) by lia. cbn [mbind res_bind].
  destruct (up_total h Hwf (Z.to_nat (D - 1)) p b Hp ltac:(lia)) as (q & bq & Hq & Hbq & _).
  rewrite Hq. cbn [mbind option_bind]. rewrite Hbq, (deref_ok h q bq Hbq). reflexivity.
Qed.

(** A retarget scales the old target by the clamped timespan, caps it and
    rounds it down. *)
Lemma Calculate_spec b t0 : in_u 32 (nBits b) -> compact_value (nBits b) <= L -> fPowNoRetargeting params = false ->
  let span := clamp_timespan params (nTime b - t0) in
  exists c, CalculateNextWorkRequired b t0 params = Ok c /\ in_u 32 c /\ Z.testbit c 23 = false /\
    compact_floor (Z.min (compact_value (nBits b) * span / T) L) (compact_value c).
Proof using Hok.
  intros Hb Ht Hf span. pose proof (clamp_timespan_range (nTime b - t0)) as Hs. cbv zeta in Hs. fold span in Hs.
  assert (0 <= T / 4) by (apply Z.div_pos; destruct Hok; lia).
  unfold CalculateNextWorkRequired. rewrite Hf. apply scale_compact; auto. lia.
Qed.

(** The demanded difficulty is always defined and within the limit. *)
Lemma GetNextWorkRequired_total p b : h !! p = Some b -> in_u 32 (nBits b) -> compact_value (nBits b) <= L ->
  exists c, GetNextWorkRequired h (Some p) params = Ok c /\ in_u 32 c /\ compact_value c <= L.
Proof using Hok Hwf.
  intros Hp Hb Ht. destruct (tree_ok h Hwf p b Hp) as [RH _ _ _ _].
  rewrite (GetNextWorkRequired_cases p b Hp). cbv zeta. pose proof interval_pos.
  destruct (Z.ltb_spec (nHeight b + 1) (DifficultyAdjustmentInterval params)).
  { destruct limit_bits_spec as (H1 & _ & _ & H2 & _). eauto. }
  destruct (negb _); [eauto|].
  destruct (up_total h Hwf (Z.to_nat (DifficultyAdjustmentInterval params - 1)) p b Hp ltac:(lia)) as (q & bq & -> & Hbq & _).
  cbn [mbind option_bind]. rewrite Hbq. destruct (fPowNoRetargeting params) eqn:Ef.
  { exists (nBits b). unfold CalculateNextWorkRequired. rewrite Ef. auto. }
  destruct (Calculate_spec b (nTime bq) Hb Ht Ef) as (c & E & Hc & _ & _ & Hle & _). exists c. split; [exact E|]. split; [exact Hc|lia].
Qed.

(** The bounds [PermittedDifficultyTransition] computes contain every
    retargeted value. *)
Lemma scaled_mono t s1 s2 : 0 <= t -> 0 <= s1 <= s2 -> Z.min (t * s1 / T) L <= Z.min (t * s2 / T) L.
Proof using Hok.
  intros Ht Hs. assert (0 < T) by (destruct Hok; lia).
  assert (t * s1 / T <= t * s2 / T) by (apply Z.div_le_mono; nia). lia.
Qed.

Lemma Permitted_boundary height old new v :
  fPowAllowMinDifficultyBlocks params = false -> 0 <= height -> height mod DifficultyAdjustmentInterval params = 0 ->
  in_u 32 old -> compact_value old <= L -> in_u 32 new -> compact_floor v (compact_value new) ->
  Z.min (compact_value old * (T / 4) / T) L <= v <= Z.min (compact_value old * (T * 4) / T) L ->
  PermittedDifficultyTransition params height old new = Ok true.
Proof using Hok.
  intros Hf Hh0 Hh Hold Hto Hnew Hfl Hv. pose proof interval_pos as HD. destruct Hok as [_ H1 H2 H3 _ _].
  pose proof (compact_value_nonneg old Hold) as Ho0. pose proof limit_range as HL.
  assert (HT4 : 0 <= T / 4 <= T * 4) by (split; [apply Z.div_pos; lia|apply Z.div_le_upper_bound; lia]).
  assert (HTp : 0 < T) by lia.
  assert (Hsm0 : 0 <= compact_value old * (T / 4) / T) by (apply Z.div_pos; nia).
  assert (Hv0 : 0 <= v) by (apply Z.le_trans with (2 := proj1 Hv), Z.min_glb; lia).
  assert (Hsm1 : 0 <= compact_value old * (T * 4) / T) by (apply Z.div_pos; nia).
  unfold PermittedDifficultyTransition. rewrite Hf, Z.rem_mod_nonneg by lia. rewrite Hh. cbn [Z.eqb].
  rewrite Z.quot_div_nonneg by lia. rewrite swrap_small by (try lia; word_lia).
  pose proof (SetCompact_spec new Hnew) as HN. destruct (SetCompact new) as [[rn nn] on]. destruct HN as (Hrn & Vn & _).
  pose proof (compact_floor_range _ _ Hfl ltac:(lia)). rewrite Z.mod_small in Vn by lia.
  destruct (scale_compact old (T * 4) Hold Hto ltac:(lia)) as (cmax & Emax & Hmax & _ & Fmax).
  destruct (scale_compact old (T / 4) Hold Hto ltac:(lia)) as (cmin & Emin & Hmin & _ & Fmin).
  apply res_bind_Ok in Emax as (rmax & -> & Emax). cbn [mbind res_bind]. rewrite Emax. cbn [mbind res_bind].
  pose proof (SetCompact_spec cmax Hmax) as HM. destruct (SetCompact cmax) as [[rx nx] ox]. destruct HM as (Hrx & Vx & _).
  pose proof (compact_floor_range _ _ Fmax ltac:(apply Z.min_glb; lia)). rewrite Z.mod_small in Vx by lia.
  pose proof (compact_floor_mono _ _ _ _ Hfl Fmax (proj2 Hv)).
  rewrite uint_lt_spec, Vx, Vn by auto. destruct (Z.ltb_spec (compact_value cmax) (compact_value new)); [lia|].
  apply res_bind_Ok in Emin as (rmin & -> & Emin). cbn [mbind res_bind]. rewrite Emin. cbn [mbind res_bind].
  pose proof (SetCompact_spec cmin Hmin) as Hm. destruct (SetCompact cmin) as [[ry ny] oy]. destruct Hm as (Hry & Vy & _).
  pose proof (compact_floor_range _ _ Fmin ltac:(apply Z.min_glb; lia)). rewrite Z.mod_small in Vy by lia.
  pose proof (compact_floor_mono _ _ _ _ Fmin Hfl (proj1 Hv)).
  rewrite uint_gt_spec, Vy, Vn by auto. destruct (Z.gtb_spec (compact_value cmin) (compact_value new)); [lia|reflexivity].
Qed.

(** Both accept an unchanged target. *)
Lemma Permitted_same height old : in_u 32 old -> compact_value old <= L -> 0 <= height ->
  PermittedDifficultyTransition params height old old = Ok true.
Proof using Hok.
  intros Hold Hto Hh. pose proof interval_pos as HD. pose proof (compact_value_nonneg old Hold).
  destruct (fPowAllowMinDifficultyBlocks params) eqn:Ef; [unfold PermittedDifficultyTransition; rewrite Ef; reflexivity|].
  destruct (Z.eq_dec (height mod DifficultyAdjustmentInterval params) 0) as [E|E].
  - assert (0 < T) by (destruct Hok; lia). assert (T / 4 <= T) by (apply Z.div_le_upper_bound; lia).
    apply (Permitted_boundary height old old (compact_value old)); auto.
    + apply compact_floor_repr. destruct (SetCompact_word old Hold) as (_ & _ & Hs & Hw). unfold compact_value.
      destruct (Z.leb_spec (old / 2 ^ 24) 3).
      * apply compact_repr_small. pose proof (pow256_pos (3 - old / 2 ^ 24) ltac:(lia)).
        split; [apply Z.div_pos; lia|]. apply Z.le_lt_trans with (old mod 2 ^ 23); [|lia].
        apply Z.div_le_upper_bound; nia.
      * eexists _, _. split; [exact Hw|]. split; [|reflexivity]. lia.
    + assert (0 <= T / 4) by (apply Z.div_pos; lia). split.
      * assert (compact_value old * (T / 4) / T <= compact_value old); [|lia]. apply Z.div_le_upper_bound; nia.
      * apply Z.min_glb; [|auto]. apply Z.div_le_lower_bound; nia.
  - unfold PermittedDifficultyTransition. rewrite Ef, Z.rem_mod_nonneg by lia.
    destruct (Z.eqb_spec (height mod DifficultyAdjustmentInterval params) 0); [lia|]. rewrite Z.eqb_refl. reflexivity.
Qed.
End Params.

(** ** The key schedule *)

Lemma GetKeyBlockHeight_epoch n : RANDOMX_KEY_INTERVAL <= n ->
  GetKeyBlockHeight n = RANDOMX_KEY_INTERVAL * (n / RANDOMX_KEY_INTERVAL) - 1 /\
  RANDOMX_KEY_INTERVAL - 1 <= GetKeyBlockHeight n < n.
Proof.
  intros Hn. unfold GetKeyBlockHeight. destruct (Z.ltb_spec n RANDOMX_KEY_INTERVAL); [lia|].
  unfold RANDOMX_KEY_INTERVAL in *. rewrite Z.rem_mod_nonneg by lia.
  pose proof (Z.div_mod n 2048 ltac:(lia)). pose proof (Z.mod_pos_bound n 2048 ltac:(lia)).
  assert (1 <= n / 2048) by (apply Z.div_le_lower_bound; lia). lia.
Qed.

Section Key.
Context (h : heap) (Hwf : tree_wf h) (Hhash : map_Forall (fun _ b => is_Some (phashBlock b)) h).

Lemma key_walk_up fuel k : forall p b, h !! p = Some b -> 0 <= k <= nHeight b -> nHeight b - k <= Z.of_nat fuel ->
  key_walk fuel h (Some p) k = Ok (up h (Z.to_nat (nHeight b - k)) p).
Proof using Hwf.
  induction fuel as [|fuel IH]; intros p b Hp Hk Hf; cbn [key_walk]; rewrite (deref_ok h p b Hp); cbn [mbind res_bind];
    destruct (Z.gtb_spec (nHeight b) k); try lia.
  1,3: replace (nHeight b - k) with 0 by lia; reflexivity.
  destruct (tree_ok h Hwf p b Hp) as [_ Hroot Hprev _ _].
  destruct (pprev b) as [q|] eqn:Eq; [|specialize (Hroot eq_refl); lia].
  destruct (Hprev q eq_refl) as (bq & Hq & EH). rewrite (IH q bq Hq) by lia.
  replace (Z.to_nat (nHeight b - k)) with (S (Z.to_nat (nHeight bq - k))) by lia.
  cbn [up]. rewrite Hp. cbn [mbind option_bind]. rewrite Eq. reflexivity.
Qed.

(** The key of the block after [p]: the genesis key in the first epoch, then
    the hash of the last block of the epoch before. *)
Lemma GetRandomXKey_spec p b : h !! p = Some b ->
  (nHeight b + 1 < RANDOMX_KEY_INTERVAL -> GetRandomXKey h (Some p) = Ok (RANDOMX_GENESIS_KEY, -1)) /\
  (RANDOMX_KEY_INTERVAL <= nHeight b + 1 ->
    let k := RANDOMX_KEY_INTERVAL * ((nHeight b + 1) / RANDOMX_KEY_INTERVAL) - 1 in
    exists q bq hash, up h (Z.to_nat (nHeight b - k)) p = Some q /\ h !! q = Some bq /\ nHeight bq = k /\
      phashBlock bq = Some hash /\ GetRandomXKey h (Some p) = Ok (hash, k)).
Proof using Hwf Hhash.
  intros Hp. destruct (tree_ok h Hwf p b Hp) as [Hb _ _ _ _].
  unfold GetRandomXKey. rewrite (deref_ok h p b Hp). cbn [mbind res_bind]. split; intros Hn.
  - unfold GetKeyBlockHeight. destruct (Z.ltb_spec (nHeight b + 1) RANDOMX_KEY_INTERVAL); [reflexivity|lia].
  - destruct (GetKeyBlockHeight_epoch (nHeight b + 1) Hn) as [E Hr]. rewrite <- E. cbv zeta.
    set (k := GetKeyBlockHeight (nHeight b + 1)) in *. unfold RANDOMX_KEY_INTERVAL in *.
    destruct (Z.ltb_spec k 0); [lia|].
    rewrite (key_walk_up _ k p b Hp) by lia. cbn [mbind res_bind].
    destruct (up_total h Hwf (Z.to_nat (nHeight b - k)) p b Hp ltac:(lia)) as (q & bq & Hq & Hbq & EH).
    rewrite Hq. cbn [mbind res_bind]. rewrite (deref_ok h q bq Hbq). cbn [mbind res_bind].
    destruct (Hhash q bq Hbq) as [hash Eh].
    exists q, bq, hash. split; [auto|]. split; [auto|]. assert (EHk : nHeight bq = k) by lia. split; [auto|]. split; [auto|].
    rewrite EHk, Z.eqb_refl. cbn [negb]. unfold GetBlockHash. rewrite Eh. reflexivity.
Qed.
End Key.

(** ** Properties *)

(** [CheckProofOfWork] accepts exactly the hashes at or below a valid
    target: the compact word must denote a positive, non-negative-signed number
    of at most 256 bits that does not exceed the proof-of-work limit, and the
    hash, read as a little-endian number, must not exceed it. *)
Theorem CheckProofOfWork_correct (hash : uint256) (nBits : Z) (params : Params) :
  blob hash -> blob (powLimit params) -> in_u 32 nBits ->
  CheckProofOfWork hash nBits params = true <->
  exists t, compact_target nBits = Some t /\ t <= pow_limit params /\ le_val 8 hash <= t.
Proof.
  intros Hh Hl Hn. pose proof (SetCompact_target nBits Hn) as H. unfold CheckProofOfWork.
  destruct (SetCompact nBits) as [[r n] o]. destruct H as [Hr H].
  destruct (compact_target nBits) as [t|].
  - destruct H as [E V].
    assert (E' : (n || EqualTo r 0 || o)%bool = false) by (destruct n, o, (EqualTo r 0); auto).
    rewrite E'. cbn [orb]. rewrite !uint_gt_spec, !UintToArith256_val, V by auto with words.
    fold (pow_limit params).
    destruct (Z.gtb_spec t (pow_limit params)); [split; [discriminate|intros (t' & Et & ? & ?); injection Et as <-; lia]|].
    destruct (Z.gtb_spec (le_val 8 hash) t); [split; [discriminate|intros (t' & Et & ? & ?); injection Et as <-; lia]|].
    split; [intros _; exists t; auto|auto].
  - assert (E' : (n || EqualTo r 0 || o)%bool = true) by (destruct n, o, (EqualTo r 0); auto).
    rewrite E'. cbn [orb]. split; [discriminate|intros (t & Et & _); discriminate].
Qed.

Lemma CheckProofOfWork_correct_witness :
  CheckProofOfWork (repeat 0 32) 0x1c00ffff sample_params = true <->
  exists t, compact_target 0x1c00ffff = Some t /\ t <= pow_limit sample_params /\ le_val 8 (repeat 0 32) <= t.
Proof.
  apply CheckProofOfWork_correct; [|apply sample_params_ok|vm_compute; intuition discriminate].
  split; [reflexivity|]. apply Forall_forall. intros x Hx.
  apply list_elem_of_In, repeat_spec in Hx. subst x. vm_compute. intuition discriminate.
Defined.

(** A retarget never fails and moves the target as intended: the new
    target is the old one times the actual timespan over the intended one,
    with the timespan clamped between a quarter and four times the intended
    one, capped at the proof-of-work limit and rounded down to a compact
    number; so it is never above the limit, at most four times the old
    target, and at least the rounding of a quarter of it. *)
Theorem CalculateNextWorkRequired_correct (params : Params) (b : CBlockIndex) (first_time : Z) :
  pow_params_ok params -> fPowNoRetargeting params = false ->
  in_u 32 (nBits b) -> compact_value (nBits b) <= pow_limit params ->
  let T := nPowTargetTimespan params in
  let span := Z.min (T * 4) (Z.max (T / 4) (nTime b - first_time)) in
  exists c, CalculateNextWorkRequired b first_time params = Ok c /\ in_u 32 c /\ Z.testbit c 23 = false /\
    compact_floor (Z.min (compact_value (nBits b) * span / T) (pow_limit params)) (compact_value c) /\
    compact_value c <= pow_limit params /\ compact_value c <= 4 * compact_value (nBits b).
Proof.
  intros Hok Hf Hb Ht T span. pose proof (compact_value_nonneg (nBits b) Hb) as H0.
  destruct (Calculate_spec params Hok b first_time Hb Ht Hf) as (c & E & Hc & H23 & Fl).
  assert (HT : 0 < T /\ T * 4 < 2 ^ 32) by (destruct Hok; unfold T; lia).
  assert (0 <= T / 4 <= T) by (split; [apply Z.div_pos; lia|apply Z.div_le_upper_bound; lia]).
  assert (Es : clamp_timespan params (nTime b - first_time) = span).
  { unfold clamp_timespan, span. fold T. rewrite Z.quot_div_nonneg by lia. rewrite !swrap_small by (try lia; word_lia).
    destruct (Z.ltb_spec (nTime b - first_time) (T / 4));
      repeat match goal with |- context [?x >? ?y] => destruct (Z.gtb_spec x y) end; lia. }
  rewrite Es in Fl. fold T in Fl. assert (Hsp : 0 <= span <= T * 4) by (unfold span; lia).
  exists c. do 4 (split; [auto|]).
  assert (Hle : compact_value c <= Z.min (compact_value (nBits b) * span / T) (pow_limit params)) by apply Fl.
  split; [lia|]. assert (compact_value (nBits b) * span / T <= 4 * compact_value (nBits b)); [|lia].
  apply Z.div_le_upper_bound; [lia|]. nia.
Qed.

Lemma CalculateNextWorkRequired_correct_witness :
  exists c, CalculateNextWorkRequired (sample_block 1 None None 959 100000) 90000 sample_params = Ok c /\
    in_u 32 c /\ compact_value c <= pow_limit sample_params /\ compact_value c <= 4 * compact_value 0x1d00ffff.
Proof.
  destruct (CalculateNextWorkRequired_correct sample_params (sample_block 1 None None 959 100000) 90000)
    as (c & E & Hc & _ & _ & H1 & H2); [exact sample_params_ok|reflexivity| | |].
  - vm_compute. intuition discriminate.
  - vm_compute. discriminate.
  - exists c. auto.
Defined.

(** C35. Headers sync accepts what validation requires: for a block of the tree
    whose own bits are within the limit (and equal the limit's bits in the
    first interval, as the rule of that interval makes them),
    [GetNextWorkRequired] passes all its assertions, its result is again
    within the limit, and [PermittedDifficultyTransition] allows the step from
    the block's bits to it, at retarget heights and between them alike. *)
Theorem GetNextWorkRequired_permitted (params : Params) (h : heap) (p : ptr) (b : CBlockIndex) :
  pow_params_ok params -> tree_wf h -> h !! p = Some b ->
  in_u 32 (nBits b) -> compact_value (nBits b) <= pow_limit params ->
  (nHeight b + 1 < DifficultyAdjustmentInterval params -> nBits b = compact_encode (pow_limit params)) ->
  exists c, GetNextWorkRequired h (Some p) params = Ok c /\ in_u 32 c /\ compact_value c <= pow_limit params /\
    PermittedDifficultyTransition params (nHeight b + 1) (nBits b) c = Ok true.
Proof.
  intros Hok Hwf Hp Hb Ht Hfirst. destruct (tree_ok h Hwf p b Hp) as [RH _ _ _ _].
  pose proof (interval_pos params Hok) as HD. pose proof (compact_value_nonneg (nBits b) Hb) as H0.
  rewrite (GetNextWorkRequired_cases params Hok h Hwf p b Hp). cbv zeta.
  destruct (Z.ltb_spec (nHeight b + 1) (DifficultyAdjustmentInterval params)) as [Hlt|Hge].
  { exists (limit_bits params). unfold limit_bits. rewrite <- (Hfirst Hlt). do 3 (split; [auto|]).
    apply Permitted_same; auto; lia. }
  destruct (Z.eqb_spec ((nHeight b + 1) mod DifficultyAdjustmentInterval params) 0) as [E0|E0]; cbn [negb];
    [|exists (nBits b); do 3 (split; [auto|]); apply Permitted_same; auto; lia].
  destruct (up_total h Hwf (Z.to_nat (DifficultyAdjustmentInterval params - 1)) p b Hp ltac:(lia))
    as (q & bq & Hq & Hbq & _).
  rewrite Hq. cbn [mbind option_bind]. rewrite Hbq.
  destruct (fPowNoRetargeting params) eqn:Ef.
  { exists (nBits b). unfold CalculateNextWorkRequired. rewrite Ef. do 3 (split; [auto|]). apply Permitted_same; auto; lia. }
  destruct (Calculate_spec params Hok b (nTime bq) Hb Ht Ef) as (c & E & Hc & _ & Fl).
  exists c. split; [exact E|]. split; [auto|].
  pose proof (clamp_timespan_range params Hok (nTime b - nTime bq)) as Hs. cbv zeta in Hs.
  assert (0 <= nPowTargetTimespan params / 4) by (apply Z.div_pos; destruct Hok; lia).
  split; [destruct Fl as (_ & Hle & _); lia|].
  destruct (fPowAllowMinDifficultyBlocks params) eqn:Em; [unfold PermittedDifficultyTransition; rewrite Em; reflexivity|].
  eapply Permitted_boundary; eauto; [lia|]. split; apply scaled_mono; auto; lia.
Qed.

Lemma GetNextWorkRequired_permitted_witness :
  exists c, GetNextWorkRequired sample_tree (Some 3%nat) hourly_params = Ok c /\ in_u 32 c /\
    compact_value c <= pow_limit hourly_params /\
    PermittedDifficultyTransition hourly_params 4 0x1d00ffff c = Ok true.
Proof.
  apply (GetNextWorkRequired_permitted hourly_params sample_tree 3 (sample_block 3 (Some 2%nat) (Some 1%nat) 3 130));
    [|exact sample_tree_wf|reflexivity|vm_compute; intuition discriminate|vm_compute; discriminate|vm_compute; discriminate].
  destruct sample_params_ok as [Hl _ _ _ _ _]. split; [exact Hl|..]; vm_compute; congruence.
Defined.

(** The RandomX key schedule: the key of the next block is the fixed
    genesis key while the height is below 2048, and from then on the hash of
    the block that ends the previous epoch of 2048 blocks, found without
    failure; two blocks of one branch whose successors lie in the same epoch
    get the same key. *)
Theorem GetRandomXKey_epochs (h : heap) (p q : ptr) (bp bq : CBlockIndex) :
  tree_wf h -> map_Forall (fun _ b => is_Some (phashBlock b)) h ->
  h !! p = Some bp -> h !! q = Some bq -> ancestor h q p ->
  (nHeight bp + 1 < RANDOMX_KEY_INTERVAL -> GetRandomXKey h (Some p) = Ok (RANDOMX_GENESIS_KEY, -1)) /\
  (RANDOMX_KEY_INTERVAL <= nHeight bp + 1 ->
    let k := RANDOMX_KEY_INTERVAL * ((nHeight bp + 1) / RANDOMX_KEY_INTERVAL) - 1 in
    exists r br hash, up h (Z.to_nat (nHeight bp - k)) p = Some r /\ h !! r = Some br /\ nHeight br = k /\
      phashBlock br = Some hash /\ GetRandomXKey h (Some p) = Ok (hash, k)) /\
  ((nHeight bp + 1) / RANDOMX_KEY_INTERVAL = (nHeight bq + 1) / RANDOMX_KEY_INTERVAL ->
    GetRandomXKey h (Some p) = GetRandomXKey h (Some q)).
Proof.
  intros Hwf Hhash Hp Hq Hanc. destruct (ancestor_steps h p bp q bq Hwf Hp Hq Hanc) as [Hle Hup].
  destruct (GetRandomXKey_spec h Hwf Hhash p bp Hp) as [P1 P2].
  destruct (GetRandomXKey_spec h Hwf Hhash q bq Hq) as [Q1 Q2].
  destruct (tree_ok h Hwf q bq Hq) as [Rq _ _ _ _].
  split; [auto|]. split; [auto|]. intros E.
  assert (Hdiv : forall n, 0 <= n -> RANDOMX_KEY_INTERVAL <= n <-> 1 <= n / RANDOMX_KEY_INTERVAL).
  { intros n Hn. unfold RANDOMX_KEY_INTERVAL. split; [intros; apply Z.div_le_lower_bound; lia|].
    intros Hd. pose proof (Z.mul_div_le n 2048 ltac:(lia)). lia. }
  destruct (Z.lt_ge_cases (nHeight bp + 1) RANDOMX_KEY_INTERVAL) as [Hlt|Hge].
  { rewrite P1, Q1 by lia. reflexivity. }
  assert (Hge' : RANDOMX_KEY_INTERVAL <= nHeight bq + 1) by (apply Hdiv; [lia|]; rewrite <- E; apply Hdiv; lia).
  destruct (P2 Hge) as (r & br & hash & Hr & Hbr & EHr & Eh & ->).
  destruct (Q2 Hge') as (r' & br' & hash' & Hr' & Hbr' & EHr' & Eh' & ->).
  rewrite <- E in *. set (k := RANDOMX_KEY_INTERVAL * ((nHeight bp + 1) / RANDOMX_KEY_INTERVAL) - 1) in *.
  assert (Hk : 0 <= k <= nHeight bq).
  { destruct (up_in h Hwf _ _ _ _ Hq Hr') as [_ ?]. destruct (tree_ok h Hwf r' br' Hbr').
    pose proof (up_height h Hwf _ _ _ _ _ Hq Hr' Hbr'). lia. }
  replace (Z.to_nat (nHeight bp - k)) with (Z.to_nat (nHeight bp - nHeight bq) + Z.to_nat (nHeight bq - k))%nat in Hr by lia.
  rewrite up_add, Hup in Hr. cbn [mbind option_bind] in Hr. congruence.
Qed.

Lemma GetRandomXKey_epochs_witness :
  GetRandomXKey sample_tree (Some 4%nat) = Ok (RANDOMX_GENESIS_KEY, -1) /\
  GetRandomXKey sample_tree (Some 4%nat) = GetRandomXKey sample_tree (Some 1%nat).
Proof.
  destruct (GetRandomXKey_epochs sample_tree 4 1 (sample_block 4 (Some 3%nat) (Some 0%nat) 4 140)
     (sample_block 1 (Some 0%nat) (Some 0%nat) 1 110)) as (H1 & _ & H3);
    [exact sample_tree_wf|exact sample_tree_hashed|reflexivity|reflexivity|exists 3%nat; reflexivity|].
  split; [apply H1; reflexivity|apply H3; reflexivity].
Defined.

(** [CheckProofOfWorkRandomX] after any history of normally returning
    calls: the genesis height passes without hashing; any other header is
    judged by [CheckProofOfWork] on the RandomX hash of its serialisation
    under the genesis key in the first epoch and the given key afterwards,
    unless an allocation fails, which throws. *)
Theorem CheckProofOfWorkRandomX_correct (rx_hash : bytes -> bytes -> uint256) (CBlockHeader : Type)
    (serialize : CBlockHeader -> bytes) (w : world) (header : CBlockHeader) (height : Z) (keyHash : uint256)
    (nBits : Z) (params : Params) (r : res bool) (w' : world) :
  rx_reach rx_hash w ->
  CheckProofOfWorkRandomX rx_hash serialize header height keyHash nBits params w = (r, w') ->
  (height = 0 /\ r = Ok true /\ w' = w) \/
  (height <> 0 /\
   (r = Ok (CheckProofOfWork
              (rx_hash (if height <? RANDOMX_KEY_INTERVAL then RANDOMX_GENESIS_KEY else keyHash) (serialize header))
              nBits params) \/
    exists what, r = Fail (Thrown what) /\ In false (answers (lib w)))).
Proof.
  intros Hw E. destruct (rx_reach_inv rx_hash w Hw) as [Ho Hc]. unfold CheckProofOfWorkRandomX in E.
  destruct (Z.eqb_spec height 0) as [->|Hne]; [left; injection E as <- <-; auto|right; split; [auto|]].
  unfold GetRandomXBlockHash in E.
  assert (Ek : (GetKeyBlockHeight height <? 0) = (height <? RANDOMX_KEY_INTERVAL)).
  { destruct (Z.ltb_spec height RANDOMX_KEY_INTERVAL) as [Hlt|Hge].
    - unfold GetKeyBlockHeight. destruct (Z.ltb_spec height RANDOMX_KEY_INTERVAL); [reflexivity|lia].
    - destruct (GetKeyBlockHeight_epoch height Hge) as [_ Hr]. apply Z.ltb_ge. unfold RANDOMX_KEY_INTERVAL in *. lia. }
  rewrite Ek in E. set (key := if height <? RANDOMX_KEY_INTERVAL then RANDOMX_GENESIS_KEY else keyHash) in *.
  destruct (Hash_run rx_hash (serialize header) key w Ho Hc) as (r1 & w1 & E1 & _ & _ & _ & H).
  unfold mbind, stm_bind in E. rewrite E1 in E.
  destruct H as [[-> _]|(what & -> & Hin)]; injection E as <- <-; [left; reflexivity|right; eauto].
Qed.

Lemma CheckProofOfWorkRandomX_correct_witness :
  (CheckProofOfWorkRandomX sample_rx_hash (fun l : bytes => l) [7] 5 [] 0x1c00ffff sample_params (rx_start [])).1 =
    Ok (CheckProofOfWork (sample_rx_hash RANDOMX_GENESIS_KEY [7]) 0x1c00ffff sample_params).
Proof.
  destruct (CheckProofOfWorkRandomX sample_rx_hash (fun l : bytes => l) [7] 5 [] 0x1c00ffff sample_params (rx_start []))
    as [r w'] eqn:E.
  destruct (CheckProofOfWorkRandomX_correct sample_rx_hash bytes (fun l => l) (rx_start []) [7] 5 [] 0x1c00ffff
     sample_params r w' (reach_start _ []) E) as [(H & _)|(_ & [->|(what & _ & Hin)])]; [discriminate|reflexivity|].
  vm_compute in Hin. tauto.
Defined.

(** The bits 0x217fffff that the genesis miner puts in the header denote a
    number above 256 bits: [SetCompact] flags them as overflowing and
    [CheckProofOfWork] rejects every hash for them, under any limit. *)
Theorem genesis_miner_bits_rejected (hash : uint256) (params : Params) :
  (SetCompact 0x217fffff).2 = true /\ CheckProofOfWork hash 0x217fffff params = false.
Proof.
  split; [vm_compute; reflexivity|]. unfold CheckProofOfWork.
  assert (E : (SetCompact 0x217fffff).2 = true) by (vm_compute; reflexivity).
  destruct (SetCompact 0x217fffff) as [[r n] o]. simpl in E. subst o.
  rewrite orb_true_r. reflexivity.
Qed.
