(* ===== verification/VersionBits.v ===== *)
(** * Soft-fork deployment (BIP 9)

    Models [src/versionbits.h], [src/versionbits.cpp] and
    [src/deploymentstatus.h].  The abstract class of the source is the class
    [AbstractThresholdConditionChecker]; [VersionBitsConditionChecker] is its
    instance.  The state of a block is a function of its branch; the code
    computes it with a cache that is shared between calls and stops early when
    the median time is before the start.  The reference [ref_state] has
    neither. *)

From stdpp Require Import base numbers list gmap strings sorting.
From Stdlib Require Import ZArith Lia.
From S2P Require Import Prelude ArithUint256 Compact Params Chain ActiveChain ChainWork.

Local Open Scope Z_scope.

Definition VERSIONBITS_TOP_BITS : Z := 0x20000000.
(** [0xE0000000UL] stored in an [int32_t]. *)
Definition VERSIONBITS_TOP_MASK : Z := i32 0xE0000000.
Definition VERSIONBITS_NUM_BITS : Z := 29.

Inductive ThresholdState : Type := DEFINED | STARTED | LOCKED_IN | ACTIVE | FAILED.

#[global] Instance ThresholdState_eq_dec : EqDecision ThresholdState.
Proof. solve_decision. Defined.

(** [std::map<const CBlockIndex*, ThresholdState>]; the key of a period is the
    parent of its first block, null for the genesis period. *)
Notation ThresholdConditionCache := (gmap (option ptr) ThresholdState).

Record BIP9Stats : Type := { period : Z; threshold : Z; elapsed : Z; count : Z; possible : bool }.

(** ** The abstract checker *)

Class AbstractThresholdConditionChecker (C : Type) : Type := {
  Condition : C -> Params -> heap -> ptr -> res bool;
  BeginTime : C -> Params -> Z;
  EndTime : C -> Params -> Z;
  MinActivationHeight : C -> Params -> Z;
  Period : C -> Params -> Z;
  Threshold : C -> Params -> Z;
}.

Section Checker.
Context `{AbstractThresholdConditionChecker C} (self : C) (params : Params) (h : heap).

(** The block that ends the period before the one of the block after [p]. *)
Definition period_parent (p : ptr) : res (option ptr) :=
  b ← deref h p; GetAncestor h p (nHeight b - Z.rem (nHeight b + 1) (Period self params)).

(** The backward loop: stops at a block whose state is known.  [vToCompute]
    has its last element first. *)
Fixpoint walk_back (fuel : nat) (cache : ThresholdConditionCache) (pindexPrev : option ptr) (vToCompute : list ptr)
    : res (ThresholdConditionCache * option ptr * list ptr) :=
  if bool_decide (is_Some (cache !! pindexPrev)) then Ok (cache, pindexPrev, vToCompute)
  else match pindexPrev with
  | None => Ok (<[None := DEFINED]> cache, None, vToCompute)
  | Some p =>
      mtp ← GetMedianTimePast h p;
      if mtp <? BeginTime self params then Ok (<[Some p := DEFINED]> cache, Some p, vToCompute)
      else match fuel with
      | O => Fail OutOfFuel
      | S fuel' =>
          b ← deref h p;
          prev ← GetAncestor h p (nHeight b - Period self params);
          walk_back fuel' cache prev (p :: vToCompute)
      end
  end.

(** [for (int i = 0; i < nPeriod; i++) { if (Condition(pindexCount, params)) count++; ... }] *)
Fixpoint count_loop (n : nat) (pindexCount : option ptr) (count : Z) : res Z :=
  match n with
  | O => Ok count
  | S n' =>
      p ← access pindexCount;
      c ← Condition self params h p;
      b ← deref h p;
      count_loop n' (pprev b) (if c : bool then count + 1 else count)
  end.

(** One round of the [switch]. *)
Definition next_state (state : ThresholdState) (p : ptr) : res ThresholdState :=
  match state with
  | DEFINED => mtp ← GetMedianTimePast h p; Ok (if mtp >=? BeginTime self params then STARTED else DEFINED)
  | STARTED =>
      n ← count_loop (Z.to_nat (Period self params)) (Some p) 0;
      if n >=? Threshold self params then Ok LOCKED_IN
      else mtp ← GetMedianTimePast h p; Ok (if mtp >=? EndTime self params then FAILED else STARTED)
  | LOCKED_IN => b ← deref h p; Ok (if nHeight b + 1 >=? MinActivationHeight self params then ACTIVE else LOCKED_IN)
  | FAILED => Ok FAILED
  | ACTIVE => Ok ACTIVE
  end.

(** The forward loop. *)
Fixpoint walk_forward (cache : ThresholdConditionCache) (state : ThresholdState) (vToCompute : list ptr)
    : res (ThresholdState * ThresholdConditionCache) :=
  match vToCompute with
  | [] => Ok (state, cache)
  | p :: rest => s ← next_state state p; walk_forward (<[Some p := s]> cache) s rest
  end.

Definition GetStateFor (pindexPrev : option ptr) (cache : ThresholdConditionCache)
    : res (ThresholdState * ThresholdConditionCache) :=
  if BeginTime self params =? ALWAYS_ACTIVE then Ok (ACTIVE, cache)
  else if BeginTime self params =? NEVER_ACTIVE then Ok (FAILED, cache)
  else
    start ← match pindexPrev with Some p => period_parent p | None => Ok None end;
    fuel ← match start with Some p => b ← deref h p; Ok (S (Z.to_nat (nHeight b))) | None => Ok O end;
    known ← walk_back fuel cache start [];
    let '(cache, pindexPrev, vToCompute) := known in
    match cache !! pindexPrev with
    | None => Fail AssertFailed
    | Some state => walk_forward cache state vToCompute
    end.

(** The counting loop of [GetStateStatisticsFor] with the flags it records,
    those of the later blocks last. *)
Fixpoint stats_loop (blocks_in_period : nat) (currentIndex : option ptr) (elapsed count : Z) (signalling : list bool)
    : res (Z * Z * list bool) :=
  match blocks_in_period with
  | O => Ok (elapsed, count, signalling)
  | S n' =>
      p ← access currentIndex;
      c ← Condition self params h p;
      b ← deref h p;
      stats_loop n' (pprev b) (elapsed + 1) (if c : bool then count + 1 else count) (c :: signalling)
  end.

Definition GetStateStatisticsFor (pindex : option ptr) : res (BIP9Stats * list bool) :=
  let period := Period self params in
  let threshold := Threshold self params in
  match pindex with
  | None => Ok ({| period := period; threshold := threshold; elapsed := 0; count := 0; possible := false |}, [])
  | Some p =>
      b ← deref h p;
      let blocks_in_period := 1 + Z.rem (nHeight b) period in
      r ← stats_loop (Z.to_nat blocks_in_period) (Some p) 0 0 [];
      let '(elapsed, count, signalling) := r in
      Ok ({| period := period; threshold := threshold; elapsed := elapsed; count := count;
             possible := (period - threshold >=? elapsed - count) |}, signalling)
  end.

(** The loop of [GetStateSinceHeightFor]. *)
Fixpoint since_loop (fuel : nat) (initialState : ThresholdState) (p : ptr) (previousPeriodParent : option ptr)
    (cache : ThresholdConditionCache) : res (ptr * ThresholdConditionCache) :=
  match previousPeriodParent with
  | None => Ok (p, cache)
  | Some q =>
      r ← GetStateFor (Some q) cache;
      let '(s, cache) := r in
      if bool_decide (s = initialState) then
        match fuel with
        | O => Fail OutOfFuel
        | S fuel' =>
            b ← deref h q;
            prev ← GetAncestor h q (nHeight b - Period self params);
            since_loop fuel' initialState q prev cache
        end
      else Ok (p, cache)
  end.

Definition GetStateSinceHeightFor (pindexPrev : option ptr) (cache : ThresholdConditionCache)
    : res (Z * ThresholdConditionCache) :=
  if ((BeginTime self params =? ALWAYS_ACTIVE) || (BeginTime self params =? NEVER_ACTIVE))%bool then Ok (0, cache)
  else
    r ← GetStateFor pindexPrev cache;
    let '(initialState, cache) := r in
    if bool_decide (initialState = DEFINED) then Ok (0, cache)
    else
      p ← access pindexPrev;
      start ← period_parent p;
      match start with
      | None => Fail AssertFailed
      | Some q =>
          b ← deref h q;
          prev ← GetAncestor h q (nHeight b - Period self params);
          r ← since_loop (S (Z.to_nat (nHeight b))) initialState q prev cache;
          let '(q, cache) := r in
          b ← deref h q;
          Ok (nHeight b + 1, cache)
      end.
End Checker.

(** ** The version-bits checker *)

Definition Mask (params : Params) (pos : DeploymentPos) : Z := u32 (Z.shiftl 1 (bit (vDeployments params pos))).

#[global] Instance VersionBitsConditionChecker : AbstractThresholdConditionChecker DeploymentPos := {|
  Condition := fun id params h p =>
    b ← deref h p;
    Ok ((Z.land (u32 (nVersion b)) (u32 VERSIONBITS_TOP_MASK) =? VERSIONBITS_TOP_BITS) &&
        negb (Z.land (u32 (nVersion b)) (Mask params id) =? 0))%bool;
  BeginTime := fun id params => nStartTime (vDeployments params id);
  EndTime := fun id params => nTimeout (vDeployments params id);
  MinActivationHeight := fun id params => min_activation_height (vDeployments params id);
  Period := fun _ params => i32 (nMinerConfirmationWindow params);
  Threshold := fun _ params => i32 (nRuleChangeActivationThreshold params);
|}.

(** ** The cache of all deployments *)

(** [ThresholdConditionCache m_caches[MAX_VERSION_BITS_DEPLOYMENTS]]. *)
Notation VersionBitsCache := (DeploymentPos -> ThresholdConditionCache).

Definition set_cache_of (c : VersionBitsCache) (pos : DeploymentPos) (m : ThresholdConditionCache) : VersionBitsCache :=
  fun q => if decide (q = pos) then m else c q.

Definition State (h : heap) (params : Params) (pos : DeploymentPos) (pindexPrev : option ptr) (m_caches : VersionBitsCache)
    : res (ThresholdState * VersionBitsCache) :=
  r ← GetStateFor pos params h pindexPrev (m_caches pos);
  let '(s, m) := r in Ok (s, set_cache_of m_caches pos m).

Definition Statistics (h : heap) (params : Params) (pos : DeploymentPos) (pindex : option ptr)
    : res (BIP9Stats * list bool) :=
  GetStateStatisticsFor pos params h pindex.

Definition StateSinceHeight (h : heap) (params : Params) (pos : DeploymentPos) (pindexPrev : option ptr)
    (m_caches : VersionBitsCache) : res (Z * VersionBitsCache) :=
  r ← GetStateSinceHeightFor pos params h pindexPrev (m_caches pos);
  let '(n, m) := r in Ok (n, set_cache_of m_caches pos m).

(** The loop over the deployments. *)
Fixpoint version_loop (h : heap) (params : Params) (pindexPrev : option ptr) (ps : list DeploymentPos)
    (nVersion : Z) (m_caches : VersionBitsCache) : res (Z * VersionBitsCache) :=
  match ps with
  | [] => Ok (nVersion, m_caches)
  | pos :: ps' =>
      r ← State h params pos pindexPrev m_caches;
      let '(state, m_caches) := r in
      let nVersion :=
        if (bool_decide (state = LOCKED_IN) || bool_decide (state = STARTED))%bool
        then i32 (Z.lor (u32 nVersion) (Mask params pos)) else nVersion in
      version_loop h params pindexPrev ps' nVersion m_caches
  end.

Definition ComputeBlockVersion (h : heap) (params : Params) (pindexPrev : option ptr) (m_caches : VersionBitsCache)
    : res (Z * VersionBitsCache) :=
  version_loop h params pindexPrev all_deployments VERSIONBITS_TOP_BITS m_caches.

Definition Clear (m_caches : VersionBitsCache) : VersionBitsCache := fun _ => ∅.

(** ** Deployment status ([deploymentstatus.h]) *)

Definition BuriedActiveAfter (h : heap) (params : Params) (dep : BuriedDeployment) (pindexPrev : option ptr) : res bool :=
  height ← match pindexPrev with None => Ok 0 | Some p => b ← deref h p; Ok (nHeight b + 1) end;
  Ok (height >=? DeploymentHeight params dep).

Definition BuriedActiveAt (params : Params) (dep : BuriedDeployment) (index : CBlockIndex) : bool :=
  nHeight index >=? DeploymentHeight params dep.

Definition DeploymentActiveAfter (h : heap) (params : Params) (dep : DeploymentPos) (pindexPrev : option ptr)
    (m_caches : VersionBitsCache) : res (bool * VersionBitsCache) :=
  r ← State h params dep pindexPrev m_caches;
  let '(s, m_caches) := r in Ok (bool_decide (s = ACTIVE), m_caches).

Definition DeploymentActiveAt (h : heap) (params : Params) (dep : DeploymentPos) (index : CBlockIndex)
    (m_caches : VersionBitsCache) : res (bool * VersionBitsCache) :=
  DeploymentActiveAfter h params dep (pprev index) m_caches.

Definition BuriedEnabled (params : Params) (dep : BuriedDeployment) : bool :=
  negb (DeploymentHeight params dep =? 2 ^ 31 - 1).

Definition DeploymentEnabled (params : Params) (dep : DeploymentPos) : bool :=
  negb (nStartTime (vDeployments params dep) =? NEVER_ACTIVE).
