(* ===== verification/VersionBitsProofs.v ===== *)
(** * Correctness of the BIP 9 state machine

    The cached, early-stopping computation of [versionbits.cpp] against the
    reference [ref_state], the transitions the states can make along a branch,
    and the derived operations of [VersionBitsCache]. *)

From stdpp Require Import base numbers list gmap strings sorting relations.
From Stdlib Require Import ZArith Lia.
From S2P Require Import Prelude ArithUint256 Compact Params Chain ActiveChain ChainWork VersionBits.

Local Open Scope Z_scope.

(** The consensus rule on block times: every block is later than the median
    time past of its parent. *)
Definition time_rule (h : heap) : Prop :=
  forall p b q m, h !! p = Some b -> pprev b = Some q -> GetMedianTimePast h q = Ok m -> m < nTime b.

Lemma up_none h n p b : tree_wf h -> h !! p = Some b -> nHeight b < Z.of_nat n -> up h n p = None.
Proof.
  intros Hwf Hp Hn. destruct (up h n p) as [q|] eqn:E; [|reflexivity].
  destruct (up_in h Hwf n p b q Hp E). lia.
Qed.

(** What the theorems need of a checker on a tree: a positive period and a
    condition that can be evaluated on every block. *)
Class CheckerLaws `{AbstractThresholdConditionChecker C} (self : C) (params : Params) (h : heap) : Prop := {
  law_period : 0 < Period self params;
  law_condition : forall p b, h !! p = Some b -> exists c, Condition self params h p = Ok c;
}.

Lemma VersionBits_laws params h id : 0 < i32 (nMinerConfirmationWindow params) -> CheckerLaws (id : DeploymentPos) params h.
Proof.
  intros Hp. split; [exact Hp|]. intros p b Hb. cbn. rewrite (deref_ok h p b Hb). eexists. reflexivity.
Qed.

(** The transitions of BIP 9: a state is kept, or moves on; [ACTIVE] and
    [FAILED] are final. *)
Inductive bip9_step : ThresholdState -> ThresholdState -> Prop :=
| step_stay s : bip9_step s s
| step_start : bip9_step DEFINED STARTED
| step_lock_in : bip9_step STARTED LOCKED_IN
| step_time_out : bip9_step STARTED FAILED
| step_activate : bip9_step LOCKED_IN ACTIVE.

Lemma bip9_final s s' : rtc bip9_step s s' -> s = ACTIVE \/ s = FAILED -> s' = s.
Proof.
  induction 1 as [s|s t u Hst _ IH]; [auto|]. intros Hs. assert (t = s) as -> by (destruct Hs; subst; inversion Hst; auto).
  auto.
Qed.

Section Machine.
Context `{AbstractThresholdConditionChecker C} (self : C) (params : Params) (h : heap).
Context (Hlaws : CheckerLaws self params h) (Hwf : tree_wf h) (Htime : time_rule h).
Local Notation P := (Period self params).

(** ** The reference

    [ref_state n q] is the state of the period after [n] full ones, whose last
    block is [q]: no cache, no early stop. *)
Fixpoint ref_state (n : nat) (o : option ptr) : res ThresholdState :=
  match n, o with
  | S n', Some q => s ← ref_state n' (up h (Z.to_nat P) q); next_state self params h s q
  | _, _ => Ok DEFINED
  end.

(** The state of the block after [p]. *)
Definition branch_state (o : option ptr) : res ThresholdState :=
  match o with
  | None => Ok DEFINED
  | Some p =>
      b ← deref h p;
      ref_state (Z.to_nat ((nHeight b + 1) / P)) (up h (Z.to_nat ((nHeight b + 1) mod P)) p)
  end.

(** ** Totality *)

Lemma mtp_up n : forall p b q mq mp, h !! p = Some b -> up h n p = Some q ->
  GetMedianTimePast h q = Ok mq -> GetMedianTimePast h p = Ok mp -> mq <= mp.
Proof using Hwf Htime.
  induction n as [|n IH]; intros p b q mq mp Hp Hup Hq Hmp; simpl in Hup.
  - injection Hup as <-. rewrite Hq in Hmp. injection Hmp as <-. lia.
  - rewrite Hp in Hup. simpl in Hup. destruct (pprev b) as [r|] eqn:Er; [|discriminate]. simpl in Hup.
    destruct (tree_ok h Hwf p b Hp) as [_ _ Hprev _ _]. destruct (Hprev r Er) as (br & Hr & _).
    destruct (GetMedianTimePast_total h Hwf r br Hr) as [mr Hmr].
    specialize (IH r br q mq mr Hr Hup Hq Hmr).
    destruct (GetMedianTimePast_mono h Hwf p b r mr Hp Er Hmr (Htime p b r mr Hp Er Hmr)) as (mp' & E & Hle).
    rewrite E in Hmp. injection Hmp as <-. lia.
Qed.

Lemma count_loop_total n : forall p b c, h !! p = Some b -> Z.of_nat n <= nHeight b + 1 ->
  exists r, count_loop self params h n (Some p) c = Ok r.
Proof using Hlaws Hwf.
  induction n as [|n IH]; intros p b c Hp Hn; [exists c; reflexivity|].
  cbn [count_loop access mbind res_bind]. destruct (law_condition p b Hp) as [v ->]. cbn [mbind res_bind].
  rewrite (deref_ok h p b Hp). cbn [mbind res_bind]. destruct (tree_ok h Hwf p b Hp) as [_ Hroot Hprev _ _].
  destruct (pprev b) as [q|].
  - destruct (Hprev q eq_refl) as (bq & Hq & EH). apply (IH q bq); [auto|lia].
  - specialize (Hroot eq_refl). assert (n = 0%nat) as -> by lia. eexists. reflexivity.
Qed.

Lemma next_state_total s p b : h !! p = Some b -> P <= nHeight b + 1 -> exists s', next_state self params h s p = Ok s'.
Proof using Hlaws Hwf.
  intros Hp HP. pose proof law_period as HP0. destruct (GetMedianTimePast_total h Hwf p b Hp) as [m Hm].
  destruct s; cbn [next_state]; rewrite ?Hm, ?(deref_ok h p b Hp); cbn [mbind res_bind]; eauto.
  destruct (count_loop_total (Z.to_nat P) p b 0 Hp ltac:(lia)) as [r ->]. cbn [mbind res_bind].
  destruct (_ >=? _); rewrite ?Hm; cbn [mbind res_bind]; eauto.
Qed.

(** ** Boundary blocks *)

(** [q] ends a period, the [n]-th. *)
Definition boundary (q : ptr) (n : nat) : Prop := exists b, h !! q = Some b /\ nHeight b + 1 = Z.of_nat n * P.

Lemma boundary_pos q n : boundary q n -> (0 < n)%nat.
Proof using Hlaws Hwf.
  intros (b & Hq & E). destruct (tree_ok h Hwf q b Hq). pose proof law_period. destruct n; [lia|lia].
Qed.

(** The end of the period before. *)
Lemma boundary_prev q n : boundary q (S n) ->
  match up h (Z.to_nat P) q with Some r => boundary r n | None => n = 0%nat end.
Proof using Hlaws Hwf.
  intros (b & Hq & E). pose proof law_period as HP. destruct (up h (Z.to_nat P) q) as [r|] eqn:Eu.
  - destruct (up_in h Hwf _ _ _ _ Hq Eu) as [[br Hr] _]. exists br. split; [auto|].
    rewrite (up_height h Hwf _ _ _ _ _ Hq Eu Hr). lia.
  - destruct n as [|n]; [reflexivity|].
    destruct (up_total h Hwf (Z.to_nat P) q b Hq) as (r & br & Hr & _); [|congruence]. rewrite Z2Nat.id by lia. nia.
Qed.

Lemma GetAncestor_prev q n b : boundary q n -> h !! q = Some b ->
  GetAncestor h q (nHeight b - P) = Ok (up h (Z.to_nat P) q).
Proof using Hlaws Hwf.
  intros _ Hq. pose proof law_period as HP.
  rewrite (GetAncestor_up h Hwf q b _ Hq). destruct (decide (0 <= nHeight b - P <= nHeight b)).
  - do 2 f_equal. lia.
  - rewrite (up_none h _ q b Hwf Hq); [reflexivity|]. rewrite Z2Nat.id; lia.
Qed.

Lemma ref_state_total n : forall q, boundary q n -> exists s, ref_state n (Some q) = Ok s.
Proof using Hlaws Hwf.
  induction n as [|n IH]; intros q Hq; [exists DEFINED; reflexivity|].
  pose proof (boundary_prev q n Hq) as Hprev. destruct Hq as (b & Hb & E). pose proof law_period as HP.
  cbn [ref_state]. assert (Hs : exists s, ref_state n (up h (Z.to_nat P) q) = Ok s).
  { destruct (up h (Z.to_nat P) q) as [r|]; [apply IH; auto|]. exists DEFINED. destruct n; reflexivity. }
  destruct Hs as [s ->]. cbn [mbind res_bind]. apply (next_state_total s q b Hb). nia.
Qed.

(** ** The cache *)

(** [s] is the state recorded under the key [o]. *)
Definition state_of (o : option ptr) (s : ThresholdState) : Prop :=
  match o with
  | None => s = DEFINED
  | Some q => exists n, boundary q n /\ ref_state n (Some q) = Ok s
  end.

Definition cache_ok (cache : ThresholdConditionCache) : Prop := map_Forall state_of cache.

Lemma boundary_unique q n m : boundary q n -> boundary q m -> n = m.
Proof using Hlaws.
  intros (b & Hb & E) (b' & Hb' & E'). rewrite Hb in Hb'. injection Hb' as <-. pose proof law_period. nia.
Qed.

Lemma state_of_step q n o s s' : boundary q n -> up h (Z.to_nat P) q = o -> state_of o s ->
  next_state self params h s q = Ok s' -> state_of (Some q) s'.
Proof using Hlaws Hwf.
  intros Hq Eo Hs Hn. exists n. split; [auto|]. pose proof (boundary_pos q n Hq).
  destruct n as [|n]; [lia|]. pose proof (boundary_prev q n Hq) as Hprev. cbn [ref_state]. rewrite Eo in *.
  destruct o as [r|].
  - destruct Hs as (m & Hm & E). rewrite (boundary_unique r n m Hprev Hm), E. exact Hn.
  - simpl in Hs. subst s n. exact Hn.
Qed.

(** Before the start time nothing has happened yet. *)
Lemma early_defined n : forall q b m, boundary q n -> h !! q = Some b -> GetMedianTimePast h q = Ok m ->
  m < BeginTime self params -> ref_state n (Some q) = Ok DEFINED.
Proof using Hlaws Hwf Htime.
  induction n as [|n IH]; intros q b m Hq Hb Hm Hlt; [reflexivity|].
  pose proof (boundary_prev q n Hq) as Hprev. cbn [ref_state].
  assert (E : ref_state n (up h (Z.to_nat P) q) = Ok DEFINED).
  { destruct (up h (Z.to_nat P) q) as [r|] eqn:Er; [|destruct n; reflexivity].
    pose proof Hprev as (br & Hr & _). destruct (GetMedianTimePast_total h Hwf r br Hr) as [mr Hmr].
    apply (IH r br mr); auto. pose proof (mtp_up _ q b r mr m Hb Er Hmr Hm). lia. }
  rewrite E. cbn [mbind res_bind next_state]. rewrite Hm. cbn [mbind res_bind].
  destruct (Z.geb_spec m (BeginTime self params)); [lia|reflexivity].
Qed.

(** ** The two loops *)

(** Walking forward over [l] leads from the period end [o] to [t]. *)
Fixpoint linked (o : option ptr) (l : list ptr) (t : option ptr) : Prop :=
  match l with
  | [] => o = t
  | p :: l' => up h (Z.to_nat P) p = o /\ (exists n, boundary p n) /\ linked (Some p) l' t
  end.

Definition key_ok (o : option ptr) : Prop := match o with Some q => exists n, boundary q n | None => True end.

Lemma walk_back_spec fuel : forall cache o acc t,
  cache_ok cache -> key_ok o -> linked o acc t ->
  (forall q b, o = Some q -> h !! q = Some b -> nHeight b < Z.of_nat fuel) ->
  exists cache' o' acc' s, walk_back self params h fuel cache o acc = Ok (cache', o', acc') /\
    cache_ok cache' /\ cache' !! o' = Some s /\ state_of o' s /\ linked o' acc' t.
Proof using Hlaws Hwf Htime.
  pose proof law_period as HP.
  induction fuel as [|fuel IH]; intros cache o acc t Hc Hk Hl Hf; cbn [walk_back];
    (case_bool_decide as Ein; [destruct Ein as [s Es]; exists cache, o, acc, s; repeat split; auto; apply Hc; auto|]);
    destruct o as [p|].
  2,4: (exists (<[None := DEFINED]> cache), None, acc, DEFINED; split; [reflexivity|];
        rewrite lookup_insert_eq; repeat split; auto; apply map_Forall_insert_2; [reflexivity|auto]).
  all: destruct Hk as [n Hn]; pose proof Hn as (b & Hb & En); destruct (tree_ok h Hwf p b Hb) as [Rb _ _ _ _];
    specialize (Hf p b eq_refl Hb).
  { lia. }
  destruct (GetMedianTimePast_total h Hwf p b Hb) as [m Hm]. rewrite Hm. cbn [mbind res_bind].
  destruct (Z.ltb_spec m (BeginTime self params)) as [Hlt|Hge].
  - assert (Hd : state_of (Some p) DEFINED) by (exists n; split; [auto|eapply early_defined; eauto]).
    exists (<[Some p := DEFINED]> cache), (Some p), acc, DEFINED. split; [reflexivity|].
    rewrite lookup_insert_eq. repeat split; auto. apply map_Forall_insert_2; auto.
  - rewrite (deref_ok h p b Hb). cbn [mbind res_bind]. rewrite (GetAncestor_prev p n b Hn Hb). cbn [mbind res_bind].
    apply IH; auto.
    + pose proof (boundary_pos p n Hn). destruct n as [|n]; [lia|]. pose proof (boundary_prev p n Hn).
      destruct (up h (Z.to_nat P) p); [exists n; auto|exact I].
    + split; [reflexivity|]. split; [eauto|]. exact Hl.
    + intros q bq Eq Hq. rewrite (up_height h Hwf _ _ _ _ _ Hb Eq Hq). lia.
Qed.

Lemma walk_forward_spec l : forall cache o s t,
  cache_ok cache -> state_of o s -> linked o l t ->
  exists s' cache', walk_forward self params h cache s l = Ok (s', cache') /\ cache_ok cache' /\ state_of t s'.
Proof using Hlaws Hwf.
  induction l as [|p l IH]; intros cache o s t Hc Hs Hl.
  - simpl in Hl. subst t. exists s, cache. auto.
  - destruct Hl as (Eo & [n Hn] & Hl). cbn [walk_forward]. pose proof law_period as HP.
    pose proof Hn as (b & Hb & En). pose proof (boundary_pos p n Hn).
    destruct (next_state_total s p b Hb) as [s' Es]; [nia|]. rewrite Es. cbn [mbind res_bind].
    assert (Hs' : state_of (Some p) s') by (eapply state_of_step; eauto).
    apply (IH _ (Some p)); auto. apply map_Forall_insert_2; auto.
Qed.

(** The end of the last full period below the block after [p]. *)
Lemma period_parent_spec p b : h !! p = Some b ->
  exists o, period_parent self params h p = Ok o /\
    (let n := Z.to_nat ((nHeight b + 1) / P) in
     match o with
     | Some q => boundary q n /\ up h (Z.to_nat ((nHeight b + 1) mod P)) p = Some q
     | None => n = 0%nat
     end).
Proof using Hlaws Hwf.
  intros Hp. pose proof law_period as HP. destruct (tree_ok h Hwf p b Hp) as [Rb _ _ _ _].
  unfold period_parent. rewrite (deref_ok h p b Hp). cbn [mbind res_bind].
  rewrite Z.rem_mod_nonneg by lia. pose proof (Z.mod_pos_bound (nHeight b + 1) P HP) as Hm.
  assert (HP0 : P <> 0) by (clear -HP; lia).
  pose proof (Z.div_mod (nHeight b + 1) P HP0) as Hd.
  rewrite (GetAncestor_up h Hwf p b _ Hp).
  assert (Hq0 : 0 <= (nHeight b + 1) / P) by (apply Z.div_pos; lia).
  destruct (decide (0 <= nHeight b - (nHeight b + 1) mod P <= nHeight b)) as [Hdec|Hdec].
  - destruct (up_total h Hwf (Z.to_nat ((nHeight b + 1) mod P)) p b Hp ltac:(lia)) as (q & bq & Hq & Hbq & EH).
    replace (nHeight b - (nHeight b - (nHeight b + 1) mod P)) with ((nHeight b + 1) mod P) by lia.
    rewrite Hq. exists (Some q). split; [reflexivity|]. split; [|reflexivity].
    exists bq. split; [auto|]. rewrite Z2Nat.id by auto. lia.
  - exists None. split; [reflexivity|]. cbv zeta. assert ((nHeight b + 1) / P = 0); [|lia].
    assert ((nHeight b + 1) / P < 1); [|lia]. apply Z.div_lt_upper_bound; nia.
Qed.

(** [branch_state] is what the cache records under the period's key. *)
Lemma branch_state_of p b o s : h !! p = Some b -> period_parent self params h p = Ok o ->
  state_of o s -> branch_state (Some p) = Ok s.
Proof using Hlaws Hwf.
  intros Hp Ho Hs. destruct (period_parent_spec p b Hp) as (o' & Ho' & H'). rewrite Ho in Ho'. injection Ho' as <-.
  unfold branch_state. rewrite (deref_ok h p b Hp). cbn [mbind res_bind]. cbv zeta in H'.
  destruct o as [q|].
  - destruct H' as [Hb Hu]. destruct Hs as (m & Hm & E). rewrite Hu, (boundary_unique q _ m Hb Hm). exact E.
  - simpl in Hs. subst s. rewrite H'. reflexivity.
Qed.

Lemma branch_state_total p b : h !! p = Some b -> exists s, branch_state (Some p) = Ok s.
Proof using Hlaws Hwf.
  intros Hp. destruct (period_parent_spec p b Hp) as (o & Ho & Ho').
  assert (Hs : exists s, state_of o s).
  { cbv zeta in Ho'. destruct o as [q|]; [|exists DEFINED; reflexivity].
    destruct (ref_state_total _ q (proj1 Ho')) as [s Hs]. exists s, (Z.to_nat ((nHeight b + 1) / P)). tauto. }
  destruct Hs as [s Hs]. exists s. eapply branch_state_of; eauto.
Qed.

Lemma GetStateFor_spec o cache : cache_ok cache -> (forall p, o = Some p -> is_Some (h !! p)) ->
  BeginTime self params <> ALWAYS_ACTIVE -> BeginTime self params <> NEVER_ACTIVE ->
  exists s cache', GetStateFor self params h o cache = Ok (s, cache') /\ branch_state o = Ok s /\ cache_ok cache'.
Proof using Hlaws Hwf Htime.
  intros Hc Ho Ha Hn. unfold GetStateFor.
  destruct (Z.eqb_spec (BeginTime self params) ALWAYS_ACTIVE); [congruence|].
  destruct (Z.eqb_spec (BeginTime self params) NEVER_ACTIVE); [congruence|].
  assert (Hstart : exists start, match o with Some p => period_parent self params h p | None => Ok None end = Ok start /\
     key_ok start /\ forall s, state_of start s -> branch_state o = Ok s).
  { destruct o as [p|].
    - destruct (Ho p eq_refl) as [b Hb]. destruct (period_parent_spec p b Hb) as (start & E & Hs). exists start. split; [auto|].
      split; [destruct start as [q|]; [destruct Hs; eexists; eauto|exact I]|]. intros s Hst. eapply branch_state_of; eauto.
    - exists None. split; [reflexivity|]. split; [exact I|]. intros s ->. reflexivity. }
  destruct Hstart as (start & -> & Hk & Hbr). cbn [mbind res_bind].
  assert (Hfuel : exists fuel, match start with Some p => b ← deref h p; Ok (S (Z.to_nat (nHeight b))) | None => Ok 0%nat end = Ok fuel /\
     forall q b, start = Some q -> h !! q = Some b -> nHeight b < Z.of_nat fuel).
  { destruct start as [q|]; [|exists 0%nat; split; [reflexivity|discriminate]].
    destruct Hk as (n' & b & Hb & _). rewrite (deref_ok h q b Hb). eexists. split; [reflexivity|].
    intros q' b' Eq Hb'. injection Eq as <-. rewrite Hb in Hb'. injection Hb' as <-. lia. }
  destruct Hfuel as (fuel & -> & Hf). cbn [mbind res_bind].
  destruct (walk_back_spec fuel cache start [] start Hc Hk eq_refl Hf) as (c1 & o1 & l & s & -> & Hc1 & Hlook & Hs & Hl).
  cbn [mbind res_bind]. rewrite Hlook.
  destruct (walk_forward_spec l c1 o1 s start Hc1 Hs Hl) as (s' & c2 & -> & Hc2 & Hs').
  exists s', c2. split; [reflexivity|]. split; [apply Hbr; auto|auto].
Qed.

(** ** Progress along a branch *)

Lemma next_state_step s p s' : next_state self params h s p = Ok s' -> bip9_step s s'.
Proof using.
  destruct s; cbn [next_state]; intros E.
  - apply res_bind_Ok in E as (m & _ & E). injection E as <-. destruct (_ >=? _); constructor.
  - apply res_bind_Ok in E as (n & _ & E). destruct (_ >=? _); [injection E as <-; constructor|].
    apply res_bind_Ok in E as (m & _ & E). injection E as <-. destruct (_ >=? _); constructor.
  - apply res_bind_Ok in E as (b & _ & E). injection E as <-. destruct (_ >=? _); constructor.
  - injection E as <-. constructor.
  - injection E as <-. constructor.
Qed.

Lemma ref_progress k : forall t n s0 s, boundary t n -> (k <= n)%nat ->
  ref_state (n - k) (up h (k * Z.to_nat P) t) = Ok s0 -> ref_state n (Some t) = Ok s -> rtc bip9_step s0 s.
Proof using Hlaws Hwf.
  induction k as [|k IH]; intros t n s0 s Ht Hk E0 Es.
  - rewrite Nat.sub_0_r in E0. cbn [Nat.mul up] in E0. rewrite E0 in Es. injection Es as <-. apply rtc_refl.
  - destruct n as [|n]; [lia|]. pose proof (boundary_prev t n Ht) as Hprev.
    cbn [ref_state] in Es. apply res_bind_Ok in Es as (s1 & E1 & Es). apply next_state_step in Es.
    apply rtc_r with s1; [|exact Es].
    replace (S k * Z.to_nat P)%nat with (Z.to_nat P + k * Z.to_nat P)%nat in E0 by lia. rewrite up_add in E0.
    replace (S n - S k)%nat with (n - k)%nat in E0 by lia.
    destruct (up h (Z.to_nat P) t) as [r|].
    + cbn [mbind option_bind] in E0. apply (IH r n); auto. lia.
    + subst n. replace (0 - k)%nat with 0%nat in E0 by lia. cbn [mbind option_bind ref_state] in *.
      rewrite E0 in E1. injection E1 as <-. apply rtc_refl.
Qed.

Lemma branch_progress p bp q bq s0 s : h !! p = Some bp -> h !! q = Some bq -> ancestor h q p ->
  branch_state (Some q) = Ok s0 -> branch_state (Some p) = Ok s -> rtc bip9_step s0 s.
Proof using Hlaws Hwf.
  intros Hp Hq Ha Eq Ep. destruct (ancestor_steps h p bp q bq Hwf Hp Hq Ha) as [Hle Hup].
  pose proof law_period as HP. destruct (tree_ok h Hwf q bq Hq) as [Rq _ _ _ _]. destruct (tree_ok h Hwf p bp Hp) as [Rp _ _ _ _].
  unfold branch_state in Eq, Ep. rewrite (deref_ok h q bq Hq) in Eq. rewrite (deref_ok h p bp Hp) in Ep. cbn [mbind res_bind] in Eq, Ep.
  assert (HP0 : P <> 0) by (clear -HP; lia).
  pose proof (Z.div_mod (nHeight bp + 1) P HP0) as Dp. pose proof (Z.div_mod (nHeight bq + 1) P HP0) as Dq.
  pose proof (Z.mod_pos_bound (nHeight bp + 1) P HP) as Mp. pose proof (Z.mod_pos_bound (nHeight bq + 1) P HP) as Mq.
  assert (Dle : (nHeight bq + 1) / P <= (nHeight bp + 1) / P) by (apply Z.div_le_mono; lia).
  assert (D0 : 0 <= (nHeight bq + 1) / P) by (apply Z.div_pos; lia).
  destruct (period_parent_spec p bp Hp) as (op & _ & Hop). cbv zeta in Hop.
  set (np := Z.to_nat ((nHeight bp + 1) / P)) in *. set (nq := Z.to_nat ((nHeight bq + 1) / P)) in *.
  assert (Hn : (nq <= np)%nat) by (unfold np, nq; lia).
  destruct (decide (np = 0%nat)) as [Ez|Ez].
  { assert (nq = 0%nat) as Ez' by lia. rewrite Ez in Ep. rewrite Ez' in Eq. cbn [ref_state] in *.
    injection Ep as <-. injection Eq as <-. apply rtc_refl. }
  destruct op as [t|]; [|congruence]. destruct Hop as [Bt Ut]. rewrite Ut in Ep.
  apply (ref_progress (np - nq) t np s0 s Bt ltac:(lia)); [|exact Ep].
  replace (np - (np - nq))%nat with nq by lia.
  destruct (decide (nq = 0%nat)) as [Eq0|Eq0]; [rewrite Eq0 in Eq |- *; exact Eq|].
  rewrite <- Eq. f_equal.
  assert (E1 : up h (Z.to_nat ((nHeight bq + 1) mod P)) q =
               up h (Z.to_nat (nHeight bp - nHeight bq) + Z.to_nat ((nHeight bq + 1) mod P)) p) by (rewrite up_add, Hup; reflexivity).
  assert (E2 : up h ((np - nq) * Z.to_nat P) t = up h (Z.to_nat ((nHeight bp + 1) mod P) + (np - nq) * Z.to_nat P) p)
    by (rewrite up_add, Ut; reflexivity).
  rewrite E1, E2. f_equal. apply Nat2Z.inj.
  rewrite !Nat2Z.inj_add, Nat2Z.inj_mul, Nat2Z.inj_sub by lia. unfold np, nq. rewrite !Z2Nat.id by lia. nia.
Qed.

(** ** Since when *)

Lemma branch_state_boundary q n : boundary q n -> branch_state (Some q) = ref_state n (Some q).
Proof using Hlaws.
  intros (b & Hb & E). pose proof law_period as HP. unfold branch_state. rewrite (deref_ok h q b Hb). cbn [mbind res_bind].
  rewrite E, Z.mod_mul, Z.div_mul by (clear -HP; lia). rewrite Nat2Z.id. reflexivity.
Qed.

(** Going back [j] periods from [q0], the state has been [s] throughout. *)
Definition unchanged (q0 : ptr) (s : ThresholdState) (j : nat) : Prop :=
  forall i, (i <= j)%nat -> exists r, up h (i * Z.to_nat P) q0 = Some r /\ branch_state (Some r) = Ok s.

Context (Halways : BeginTime self params <> ALWAYS_ACTIVE) (Hnever : BeginTime self params <> NEVER_ACTIVE).

Lemma since_loop_spec fuel s q0 : s <> DEFINED -> forall cache q n j,
  cache_ok cache -> boundary q n -> up h (j * Z.to_nat P) q0 = Some q -> unchanged q0 s j -> (n <= fuel)%nat ->
  exists q' cache' n' j', since_loop self params h fuel s q (up h (Z.to_nat P) q) cache = Ok (q', cache') /\
    boundary q' n' /\ up h (j' * Z.to_nat P) q0 = Some q' /\ unchanged q0 s j' /\
    branch_state (up h (Z.to_nat P) q') <> Ok s.
Proof using Hlaws Hwf Htime Halways Hnever.
  intros Hs. induction fuel as [|fuel IH]; intros cache q n j Hc Hq Hup Hun Hf.
  - pose proof (boundary_pos q n Hq). lia.
  - pose proof (boundary_pos q n Hq). destruct n as [|n]; [lia|]. pose proof (boundary_prev q n Hq) as Hprev.
    destruct (up h (Z.to_nat P) q) as [r|] eqn:Er; cbn [since_loop].
    + pose proof Hprev as (br & Hr & _).
      destruct (GetStateFor_spec (Some r) cache Hc ltac:(intros p E; injection E as <-; eauto) Halways Hnever)
        as (s1 & c1 & E1 & B1 & Hc1).
      rewrite E1. cbn [mbind res_bind]. case_bool_decide as Es.
      * subst s1. rewrite (deref_ok h r br Hr). cbn [mbind res_bind]. rewrite (GetAncestor_prev r n br Hprev Hr). cbn [mbind res_bind].
        assert (Hup' : up h (S j * Z.to_nat P) q0 = Some r).
        { replace (S j * Z.to_nat P)%nat with (j * Z.to_nat P + Z.to_nat P)%nat by lia. rewrite up_add, Hup. exact Er. }
        apply (IH c1 r n (S j)); auto; [|lia].
        intros i Hi. destruct (decide (i = S j)) as [->|]; [exists r; auto|apply Hun; lia].
      * exists q, c1, (S n), j. split; [reflexivity|]. split; [auto|]. split; [auto|]. split; [auto|].
        rewrite Er. congruence.
    + exists q, cache, (S n), j. split; [reflexivity|]. split; [auto|]. split; [auto|]. split; [auto|].
      rewrite Er. cbn [branch_state]. congruence.
Qed.

Lemma GetStateSinceHeightFor_spec p b cache s : cache_ok cache -> h !! p = Some b -> branch_state (Some p) = Ok s ->
  exists r cache', GetStateSinceHeightFor self params h (Some p) cache = Ok (r, cache') /\
    (s = DEFINED -> r = 0) /\
    (s <> DEFINED -> exists q0 q bq j, period_parent self params h p = Ok (Some q0) /\
       up h (j * Z.to_nat P) q0 = Some q /\ h !! q = Some bq /\ r = nHeight bq + 1 /\ r mod P = 0 /\
       unchanged q0 s j /\ branch_state (up h (Z.to_nat P) q) <> Ok s).
Proof using Hlaws Hwf Htime Halways Hnever.
  intros Hc Hp Hs. unfold GetStateSinceHeightFor.
  destruct (Z.eqb_spec (BeginTime self params) ALWAYS_ACTIVE); [congruence|].
  destruct (Z.eqb_spec (BeginTime self params) NEVER_ACTIVE); [congruence|]. cbn [orb].
  destruct (GetStateFor_spec (Some p) cache Hc ltac:(intros x E; injection E as <-; eauto) Halways Hnever)
    as (s1 & c1 & E1 & B1 & Hc1).
  rewrite Hs in B1. injection B1 as <-. rewrite E1. cbn [mbind res_bind].
  case_bool_decide as Ed; [exists 0, c1; split; [reflexivity|]; split; [auto|congruence]|].
  cbn [access mbind res_bind]. destruct (period_parent_spec p b Hp) as (o & Eo & Ho). cbv zeta in Ho. rewrite Eo. cbn [mbind res_bind].
  destruct o as [q0|].
  2:{ exfalso. apply Ed. pose proof (branch_state_of p b None DEFINED Hp Eo eq_refl). congruence. }
  destruct Ho as [B0 U0]. pose proof B0 as (b0 & Hb0 & En0). rewrite (deref_ok h q0 b0 Hb0). cbn [mbind res_bind].
  rewrite (GetAncestor_prev q0 _ b0 B0 Hb0). cbn [mbind res_bind]. pose proof law_period as HP.
  assert (Hst : branch_state (Some q0) = Ok s).
  { rewrite (branch_state_boundary q0 _ B0), <- Hs. unfold branch_state. rewrite (deref_ok h p b Hp). cbn [mbind res_bind].
    rewrite U0. reflexivity. }
  destruct (since_loop_spec (S (Z.to_nat (nHeight b0))) s q0 Ed c1 q0 _ 0%nat Hc1 B0 eq_refl) as (q & c2 & n' & j & El & Bq & Uq & Hun & Hbefore).
  { intros i Hi. replace i with 0%nat by lia. exists q0. auto. }
  { nia. }
  rewrite El. cbn [mbind res_bind]. pose proof Bq as (bq & Hbq & Enq). rewrite (deref_ok h q bq Hbq). cbn [mbind res_bind].
  eexists _, _. split; [reflexivity|]. split; [congruence|]. intros _. exists q0, q, bq, j.
  assert (Hmod : (nHeight bq + 1) mod P = 0) by (rewrite Enq; apply Z.mod_mul; clear -HP; lia).
  auto 10.
Qed.
End Machine.

(** ** Statistics *)

Section Stats.
Context `{AbstractThresholdConditionChecker C} (self : C) (params : Params) (h : heap).
Context (Hlaws : CheckerLaws self params h) (Hwf : tree_wf h).

(** The condition of the block [i] below [p]; [false] when it cannot be
    evaluated, which does not happen below the height. *)
Definition signals (p : ptr) (i : nat) : bool :=
  match up h i p with
  | Some q => match Condition self params h q with Ok c => c | Fail _ => false end
  | None => false
  end.

Definition signal_count (l : list bool) : Z := Z.of_nat (length (List.filter id l)).

Lemma stats_loop_spec n : forall p b e c l, h !! p = Some b -> Z.of_nat n <= nHeight b + 1 ->
  let new := rev (map (signals p) (seq 0 n)) in
  stats_loop self params h n (Some p) e c l = Ok (e + Z.of_nat n, c + signal_count new, new ++ l).
Proof using Hlaws Hwf.
  induction n as [|n IH]; intros p b e c l Hp Hn new.
  - cbn. f_equal. f_equal. f_equal; unfold signal_count; cbn; lia.
  - cbn [stats_loop access mbind res_bind]. destruct (law_condition p b Hp) as [v Hv]. rewrite Hv. cbn [mbind res_bind].
    rewrite (deref_ok h p b Hp). cbn [mbind res_bind]. destruct (tree_ok h Hwf p b Hp) as [_ Hroot Hprev _ _].
    assert (Enew : new = rev (map (signals p) (seq 1 n)) ++ [v]).
    { unfold new. cbn [seq map rev]. f_equal. unfold signals. cbn [up]. rewrite Hv. reflexivity. }
    assert (Ecount : forall x, signal_count (x ++ [v]) = signal_count x + (if v then 1 else 0)).
    { intros x. unfold signal_count. rewrite List.filter_app, length_app. destruct v; cbn; lia. }
    destruct (pprev b) as [q|] eqn:Eq.
    + destruct (Hprev q eq_refl) as (bq & Hq & EH).
      assert (Eseq : map (signals p) (seq 1 n) = map (signals q) (seq 0 n)).
      { rewrite <- seq_shift, map_map. apply map_ext. intros i. unfold signals. cbn [up]. rewrite Hp. cbn [mbind option_bind].
        rewrite Eq. reflexivity. }
      rewrite (IH q bq _ _ _ Hq) by lia. rewrite Enew, Eseq, Ecount, <- app_assoc. f_equal. f_equal. f_equal; destruct v; lia.
    + specialize (Hroot eq_refl). assert (n = 0%nat) as -> by lia. cbn [stats_loop]. rewrite Enew, Ecount. cbn.
      f_equal. f_equal. f_equal; unfold signal_count; cbn; destruct v; lia.
Qed.
End Stats.

(** ** The rules of BIP 9 *)

Section Rules.
Context `{AbstractThresholdConditionChecker C} (self : C) (params : Params) (h : heap).

(** The state after a period, from the state in it, the median time past and the
    height of its last block and the number of its blocks that signal. *)
Inductive bip9_rule (mtp count height : Z) : ThresholdState -> ThresholdState -> Prop :=
| rule_before : mtp < BeginTime self params -> bip9_rule mtp count height DEFINED DEFINED
| rule_start : BeginTime self params <= mtp -> bip9_rule mtp count height DEFINED STARTED
| rule_lock_in : Threshold self params <= count -> bip9_rule mtp count height STARTED LOCKED_IN
| rule_time_out : count < Threshold self params -> EndTime self params <= mtp -> bip9_rule mtp count height STARTED FAILED
| rule_go_on : count < Threshold self params -> mtp < EndTime self params -> bip9_rule mtp count height STARTED STARTED
| rule_activate : MinActivationHeight self params <= height + 1 -> bip9_rule mtp count height LOCKED_IN ACTIVE
| rule_too_low : height + 1 < MinActivationHeight self params -> bip9_rule mtp count height LOCKED_IN LOCKED_IN
| rule_active : bip9_rule mtp count height ACTIVE ACTIVE
| rule_failed : bip9_rule mtp count height FAILED FAILED.

(** The caches that calls of [GetStateFor] leave behind, starting with an empty one. *)
Inductive reached_cache : ThresholdConditionCache -> Prop :=
| reached_empty : reached_cache ∅
| reached_call cache o s cache' : reached_cache cache -> (forall p, o = Some p -> is_Some (h !! p)) -> GetStateFor self params h o cache = Ok (s, cache') -> reached_cache cache'.

Context (Hlaws : CheckerLaws self params h) (Hwf : tree_wf h).

Lemma count_stats n : forall o e c l e' c' l', stats_loop self params h n o e c l = Ok (e', c', l') -> count_loop self params h n o c = Ok c'.
Proof using.
  induction n as [|n IH]; intros [p|] e c l e' c' l'; cbn; try (intros [= <- <- <-]; reflexivity); try discriminate.
  destruct (Condition self params h p) as [v|]; cbn; [|discriminate]. destruct (deref h p); cbn; [|discriminate]. apply IH.
Qed.

Lemma count_signals p b : h !! p = Some b -> Period self params <= nHeight b + 1 ->
  count_loop self params h (Z.to_nat (Period self params)) (Some p) 0 = Ok (signal_count (map (signals self params h p) (seq 0 (Z.to_nat (Period self params))))).
Proof using Hlaws Hwf.
  intros Hp HP. pose proof law_period as HP0. eapply count_stats. rewrite (stats_loop_spec self params h Hlaws Hwf _ p b 0 0 [] Hp) by lia.
  assert (R : forall l, signal_count (rev l) = signal_count l) by (intros l; unfold signal_count; rewrite filter_rev, length_rev; reflexivity). rewrite R. reflexivity.
Qed.

Lemma next_state_rule s p b m s' : h !! p = Some b -> Period self params <= nHeight b + 1 -> GetMedianTimePast h p = Ok m -> next_state self params h s p = Ok s' ->
  bip9_rule m (signal_count (map (signals self params h p) (seq 0 (Z.to_nat (Period self params))))) (nHeight b) s s'.
Proof using Hlaws Hwf.
  intros Hp HP Hm. destruct s; cbn [next_state]; rewrite ?(count_signals p b Hp HP), ?Hm, ?(deref_ok h p b Hp); cbn [mbind res_bind].
  - intros [= <-]. destruct (Z.geb_spec m (BeginTime self params)); constructor; lia.
  - destruct (Z.geb_spec (signal_count (map (signals self params h p) (seq 0 (Z.to_nat (Period self params))))) (Threshold self params)); [intros [= <-]; constructor; lia|].
    intros [= <-]. destruct (Z.geb_spec m (EndTime self params)); constructor; lia.
  - intros [= <-]. destruct (Z.geb_spec (nHeight b + 1) (MinActivationHeight self params)); constructor; lia.
  - intros [= <-]. constructor.
  - intros [= <-]. constructor.
Qed.

(** Inside a period the state is that of the parent. *)
Lemma branch_state_inside p b : h !! p = Some b -> (nHeight b + 1) mod Period self params <> 0 -> branch_state self params h (Some p) = branch_state self params h (pprev b).
Proof using Hlaws Hwf.
  intros Hp Hm. pose proof law_period as HP. set (P := Period self params) in *. cbn [branch_state]. rewrite (deref_ok h p b Hp). cbn [mbind res_bind].
  destruct (tree_ok h Hwf p b Hp) as [Rb Hroot Hprev _ _]. fold P.
  assert (Ed : (nHeight b + 1) / P = nHeight b / P /\ (nHeight b + 1) mod P = nHeight b mod P + 1).
  { assert (HP0 : P <> 0) by (clear - HP; lia).
    pose proof (Z.div_mod (nHeight b + 1) P HP0) as Hd. pose proof (Z.mod_pos_bound (nHeight b + 1) P HP) as Hr. clearbody P. clear - Hd Hr Hm HP.
    assert (nHeight b / P = (nHeight b + 1) / P) by (symmetry; apply (Z.div_unique_pos _ _ _ ((nHeight b + 1) mod P - 1)); lia).
    assert (nHeight b mod P = (nHeight b + 1) mod P - 1) by (symmetry; apply (Z.mod_unique_pos _ _ ((nHeight b + 1) / P)); lia). lia. }
  destruct Ed as [Ed Em]. rewrite Ed, Em. destruct (pprev b) as [q|] eqn:Eq.
  - destruct (Hprev q eq_refl) as (bq & Hq & EH). cbn [branch_state]. rewrite (deref_ok h q bq Hq). cbn [mbind res_bind]. fold P. replace (nHeight bq + 1) with (nHeight b) by lia. f_equal.
    pose proof (Z.mod_pos_bound (nHeight b) P HP). replace (Z.to_nat (nHeight b mod P + 1)) with (S (Z.to_nat (nHeight b mod P))) by lia. cbn [up]. rewrite Hp. cbn [mbind option_bind]. rewrite Eq. reflexivity.
  - specialize (Hroot eq_refl). rewrite Hroot, Zdiv_0_l. reflexivity.
Qed.

(** At the end of a period the rules give the next state. *)
Lemma branch_state_end p b : h !! p = Some b -> (nHeight b + 1) mod Period self params = 0 ->
  exists s0 s m, branch_state self params h (up h (Z.to_nat (Period self params)) p) = Ok s0 /\ branch_state self params h (Some p) = Ok s /\ GetMedianTimePast h p = Ok m /\
    bip9_rule m (signal_count (map (signals self params h p) (seq 0 (Z.to_nat (Period self params))))) (nHeight b) s0 s.
Proof using Hlaws Hwf.
  intros Hp Hm. pose proof law_period as HP. destruct (tree_ok h Hwf p b Hp) as [Rb _ _ _ _].
  assert (HP0 : Period self params <> 0) by (intros E; rewrite E in HP; discriminate HP).
  assert (Hb : boundary self params h p (Z.to_nat ((nHeight b + 1) / Period self params))).
  { exists b. split; [exact Hp|]. rewrite Z2Nat.id by (apply Z.div_pos; lia). pose proof (Z.div_mod (nHeight b + 1) (Period self params) HP0). lia. }
  destruct (Z.to_nat ((nHeight b + 1) / Period self params)) as [|n] eqn:En; [apply (boundary_pos self params h Hlaws Hwf) in Hb; lia|].
  destruct (branch_state_total self params h Hlaws Hwf p b Hp) as [s Hs]. pose proof Hs as Hs'. rewrite (branch_state_boundary self params h Hlaws p (S n) Hb) in Hs'. cbn [ref_state] in Hs'.
  assert (E0 : ref_state self params h n (up h (Z.to_nat (Period self params)) p) = branch_state self params h (up h (Z.to_nat (Period self params)) p)).
  { pose proof (boundary_prev self params h Hlaws Hwf p n Hb) as Bp. destruct (up h _ p) as [r|]; [symmetry; apply branch_state_boundary; assumption|]. subst n. reflexivity. }
  rewrite E0 in Hs'. destruct (branch_state self params h (up h _ p)) as [s0|] eqn:E1; [|discriminate]. cbn [mbind res_bind] in Hs'.
  destruct (GetMedianTimePast_total h Hwf p b Hp) as [m Hmtp]. exists s0, s, m. split; [reflexivity|]. split; [exact Hs|]. split; [exact Hmtp|].
  apply next_state_rule; try assumption. destruct Hb as (b' & Hb' & Eb). rewrite Hp in Hb'. injection Hb' as <-. nia.
Qed.

Lemma reached_cache_ok : time_rule h -> BeginTime self params <> ALWAYS_ACTIVE -> BeginTime self params <> NEVER_ACTIVE -> forall cache, reached_cache cache -> cache_ok self params h cache.
Proof using Hlaws Hwf.
  intros Ht Ha Hn. induction 1 as [|cache o s cache' _ IH Ho E]; [apply map_Forall_empty|].
  destruct (GetStateFor_spec self params h Hlaws Hwf Ht o cache IH Ho Ha Hn) as (s' & c' & E' & _ & Hc). rewrite E in E'. injection E' as <- <-. exact Hc.
Qed.
End Rules.

(** ** The block version *)

(** The state [VersionBitsCache::State] returns, whatever the cache. *)
Definition deployment_state (params : Params) (h : heap) (pos : DeploymentPos) (o : option ptr) : res ThresholdState :=
  if nStartTime (vDeployments params pos) =? ALWAYS_ACTIVE then Ok ACTIVE
  else if nStartTime (vDeployments params pos) =? NEVER_ACTIVE then Ok FAILED
  else branch_state pos params h o.

(** Every deployment's cache holds reference states. *)
Definition caches_ok (params : Params) (h : heap) (m : VersionBitsCache) : Prop :=
  forall pos, cache_ok (pos : DeploymentPos) params h (m pos).

Section Version.
Context (params : Params) (h : heap) (Hwf : tree_wf h) (Htime : time_rule h) (Hwin : 0 < i32 (nMinerConfirmationWindow params)).

Lemma State_spec pos o m : caches_ok params h m -> (forall p, o = Some p -> is_Some (h !! p)) ->
  exists s m', State h params pos o m = Ok (s, m') /\ deployment_state params h pos o = Ok s /\ caches_ok params h m'.
Proof using Hwf Htime Hwin.
  intros Hm Ho. unfold State, deployment_state.
  assert (Hset : forall c, cache_ok pos params h c -> caches_ok params h (set_cache_of m pos c)).
  { intros c Hc q. unfold set_cache_of. destruct (decide (q = pos)) as [->|]; [exact Hc|apply Hm]. }
  change (nStartTime (vDeployments params pos)) with (BeginTime pos params).
  destruct (Z.eqb_spec (BeginTime pos params) ALWAYS_ACTIVE) as [Ea|Ea].
  { unfold GetStateFor. rewrite Ea. cbn. eexists _, _. split; [reflexivity|]. split; [reflexivity|]. apply Hset, Hm. }
  destruct (Z.eqb_spec (BeginTime pos params) NEVER_ACTIVE) as [En|En].
  { unfold GetStateFor. rewrite En. cbn. eexists _, _. split; [reflexivity|]. split; [reflexivity|]. apply Hset, Hm. }
  destruct (GetStateFor_spec pos params h (VersionBits_laws params h pos Hwin) Hwf Htime o (m pos) (Hm pos) Ho Ea En)
    as (s & c & -> & Hs & Hc).
  cbn [mbind res_bind]. eexists _, _. split; [reflexivity|]. split; [exact Hs|]. apply Hset, Hc.
Qed.

(** The deployments that a block under [o] signals. *)
Definition signalled (o : option ptr) (pos : DeploymentPos) : bool :=
  match deployment_state params h pos o with
  | Ok LOCKED_IN | Ok STARTED => true
  | _ => false
  end.

Lemma Mask_spec pos : 0 <= bit (vDeployments params pos) < 29 ->
  Mask params pos = 2 ^ bit (vDeployments params pos) /\ in_u 29 (Mask params pos).
Proof using.
  intros Hb. unfold Mask. rewrite Z.shiftl_1_l.
  assert (0 < 2 ^ bit (vDeployments params pos) <= 2 ^ 28).
  { split; [apply Z.pow_pos_nonneg; lia|apply Z.pow_le_mono_r; lia]. }
  rewrite uwrap_small by word_lia. split; [reflexivity|unfold in_u; lia].
Qed.

Lemma version_loop_spec o ps : (forall p, o = Some p -> is_Some (h !! p)) ->
  (forall pos, 0 <= bit (vDeployments params pos) < 29) ->
  forall v m, caches_ok params h m -> in_u 31 v ->
  exists v' m', version_loop h params o ps v m = Ok (v', m') /\ caches_ok params h m' /\ in_u 31 v' /\
    forall i, 0 <= i -> Z.testbit v' i =
      (Z.testbit v i || existsb (fun pos => signalled o pos && (bit (vDeployments params pos) =? i)) ps)%bool.
Proof using Hwf Htime Hwin.
  intros Ho Hbits. induction ps as [|pos ps IH]; intros v m Hm Hv.
  - exists v, m. split; [reflexivity|]. split; [auto|]. split; [auto|]. intros i _. cbn. rewrite orb_false_r. reflexivity.
  - cbn [version_loop]. destruct (State_spec pos o m Hm Ho) as (s & m1 & -> & Hs & Hm1). cbn [mbind res_bind].
    assert (Esig : signalled o pos = (bool_decide (s = LOCKED_IN) || bool_decide (s = STARTED))%bool).
    { unfold signalled. rewrite Hs. destruct s; reflexivity. }
    destruct (Mask_spec pos (Hbits pos)) as [EM HM].
    assert (Hv1 : exists v1, (if (bool_decide (s = LOCKED_IN) || bool_decide (s = STARTED))%bool
        then i32 (Z.lor (u32 v) (Mask params pos)) else v) = v1 /\ in_u 31 v1 /\
        forall i, 0 <= i -> Z.testbit v1 i = (Z.testbit v i || (signalled o pos && (bit (vDeployments params pos) =? i)))%bool).
    { eexists. split; [reflexivity|]. rewrite <- Esig. destruct (signalled o pos).
      - rewrite (uwrap_small 32 v) by (unfold in_u in *; lia).
        assert (R : in_u 31 (Z.lor v (Mask params pos))) by (apply lor_in_u; [lia|auto|unfold in_u in *; lia]).
        rewrite swrap_small by (unfold in_u, in_s in *; change (2 ^ (32 - 1)) with (2 ^ 31); lia).
        split; [exact R|]. intros i Hi. rewrite Z.lor_spec, EM, Z.pow2_bits_eqb by (apply Hbits). reflexivity.
      - split; [exact Hv|]. intros i _. rewrite orb_false_r. reflexivity. }
    destruct Hv1 as (v1 & -> & R1 & T1).
    destruct (IH v1 m1 Hm1 R1) as (v' & m' & E & Hm' & R' & T'). exists v', m'. split; [exact E|]. split; [auto|]. split; [auto|].
    intros i Hi. rewrite T', T1 by auto. cbn [existsb]. rewrite orb_assoc. reflexivity.
Qed.
End Version.

(** ** A concrete tree that keeps the time rule *)

Definition time_ruleb (h : heap) : bool :=
  forallb (fun kb : ptr * CBlockIndex =>
    match pprev kb.2 with
    | None => true
    | Some q => match GetMedianTimePast h q with Ok m => m <? nTime kb.2 | Fail _ => true end
    end) (map_to_list h).

Lemma time_ruleb_ok h : time_ruleb h = true -> time_rule h.
Proof.
  intros E p b q m Hp Eq Hm. unfold time_ruleb in E. rewrite forallb_forall in E.
  specialize (E (p, b)). rewrite <- list_elem_of_In, elem_of_map_to_list in E. specialize (E Hp).
  cbn [snd] in E. rewrite Eq, Hm in E. zbool. exact E.
Qed.

Lemma sample_time_rule : time_rule sample_tree.
Proof. apply time_ruleb_ok. vm_compute. reflexivity. Qed.

Lemma empty_cache_ok `{AbstractThresholdConditionChecker C} (self : C) params h : cache_ok self params h ∅.
Proof. apply map_Forall_empty. Qed.

(** ** Properties *)

(** C28. [GetStateFor] equals the BIP 9 state machine run period by period from
    the genesis block: on a well-formed tree that keeps the time rule it
    returns, whatever correct states the shared cache already holds and
    although it stops early before the start time; and every state it adds to
    the cache is the reference state of its key, so later calls may rely on
    it. *)
Theorem GetStateFor_correct (C : Type) (checker : AbstractThresholdConditionChecker C) (self : C)
    (params : Params) (h : heap) (o : option ptr) (cache : ThresholdConditionCache) :
  CheckerLaws self params h -> tree_wf h -> time_rule h -> cache_ok self params h cache ->
  (forall p, o = Some p -> is_Some (h !! p)) ->
  BeginTime self params <> ALWAYS_ACTIVE -> BeginTime self params <> NEVER_ACTIVE ->
  exists s cache', GetStateFor self params h o cache = Ok (s, cache') /\
    branch_state self params h o = Ok s /\ cache_ok self params h cache'.
Proof. intros. apply GetStateFor_spec; auto. Qed.

Lemma GetStateFor_correct_witness :
  exists s cache', GetStateFor DEPLOYMENT_TESTDUMMY sample_params sample_tree (Some 4%nat) ∅ = Ok (s, cache') /\
    branch_state DEPLOYMENT_TESTDUMMY sample_params sample_tree (Some 4%nat) = Ok s /\
    cache_ok DEPLOYMENT_TESTDUMMY sample_params sample_tree cache'.
Proof.
  apply (GetStateFor_correct DeploymentPos VersionBitsConditionChecker DEPLOYMENT_TESTDUMMY sample_params sample_tree (Some 4%nat) ∅).
  - apply VersionBits_laws. reflexivity.
  - exact sample_tree_wf.
  - exact sample_time_rule.
  - apply empty_cache_ok.
  - intros p E. injection E as <-. eexists. reflexivity.
  - discriminate.
  - discriminate.
Defined.

(** C29. [GetStateFor] follows the rules of BIP 9, whatever calls filled the cache:
    the state after nothing is DEFINED; inside a period it is that of the
    parent; and at the end of a period it follows from the state before by the
    median time past, the number of signalling blocks of the period and the
    height, as the rules say. *)
Theorem GetStateFor_rules (C : Type) (checker : AbstractThresholdConditionChecker C) (self : C) (params : Params) (h : heap) (cache : ThresholdConditionCache) :
  CheckerLaws self params h -> tree_wf h -> time_rule h -> BeginTime self params <> ALWAYS_ACTIVE -> BeginTime self params <> NEVER_ACTIVE -> reached_cache self params h cache ->
  (exists cache', GetStateFor self params h None cache = Ok (DEFINED, cache')) /\
  forall p b, h !! p = Some b -> exists s cache', GetStateFor self params h (Some p) cache = Ok (s, cache') /\
    ((nHeight b + 1) mod Period self params <> 0 -> exists cache1, GetStateFor self params h (pprev b) cache = Ok (s, cache1)) /\
    ((nHeight b + 1) mod Period self params = 0 -> exists s0 cache0 m, GetStateFor self params h (up h (Z.to_nat (Period self params)) p) cache = Ok (s0, cache0) /\
       GetMedianTimePast h p = Ok m /\
       bip9_rule self params m (signal_count (map (signals self params h p) (seq 0 (Z.to_nat (Period self params))))) (nHeight b) s0 s).
Proof.
  intros Hl Hwf Ht Ha Hn Hr. pose proof (reached_cache_ok self params h Hl Hwf Ht Ha Hn cache Hr) as Hc.
  assert (G : forall o, (forall p, o = Some p -> is_Some (h !! p)) -> exists s cache', GetStateFor self params h o cache = Ok (s, cache') /\ branch_state self params h o = Ok s).
  { intros o Ho. destruct (GetStateFor_spec self params h Hl Hwf Ht o cache Hc Ho Ha Hn) as (s & c & E & B & _). eauto. }
  split; [destruct (G None ltac:(discriminate)) as (s & c & E & [= <-]); eauto|]. intros p b Hp. destruct (G (Some p)) as (s & c & E & B); [intros ? [= <-]; eauto|]. exists s, c. split; [exact E|]. split; intros Hm.
  - rewrite (branch_state_inside self params h Hl Hwf p b Hp Hm) in B. destruct (G (pprev b)) as (s1 & c1 & E1 & B1); [|rewrite B in B1; injection B1 as <-; eauto].
    intros q Eq. destruct (tree_ok h Hwf p b Hp) as [_ _ Hprev _ _]. destruct (Hprev q Eq) as (bq & Hq & _). eauto.
  - destruct (branch_state_end self params h Hl Hwf p b Hp Hm) as (s0 & s' & m & B0 & B' & Hmtp & R). rewrite B in B'. injection B' as <-.
    destruct (G (up h (Z.to_nat (Period self params)) p)) as (s1 & c1 & E1 & B1); [|rewrite B0 in B1; injection B1 as <-; eauto 10].
    intros q Eq. destruct (up_in h Hwf _ _ _ _ Hp Eq) as [? _]. assumption.
Qed.

Lemma GetStateFor_rules_witness : exists s0 cache0 m, GetStateFor DEPLOYMENT_TESTDUMMY sample_params sample_tree None ∅ = Ok (s0, cache0) /\
  GetMedianTimePast sample_tree 3 = Ok m /\ bip9_rule DEPLOYMENT_TESTDUMMY sample_params m (signal_count (map (signals DEPLOYMENT_TESTDUMMY sample_params sample_tree 3) (seq 0 4))) 3 s0 STARTED.
Proof.
  destruct (GetStateFor_rules DeploymentPos VersionBitsConditionChecker DEPLOYMENT_TESTDUMMY sample_params sample_tree ∅) as [_ H];
    [apply VersionBits_laws; reflexivity|exact sample_tree_wf|exact sample_time_rule|discriminate|discriminate|apply reached_empty|].
  destruct (H 3%nat (sample_block 3 (Some 2%nat) (Some 1%nat) 3 130) eq_refl) as (s & c & E & _ & R). destruct (R eq_refl) as (s0 & c0 & m & E0 & Hm & B).
  exists s0, c0, m. vm_compute in E. injection E as <- _. auto.
Defined.

(** Along a branch a deployment only moves forward through the BIP 9
    states: from the state that [GetStateFor] returns for a block to the one for
    any descendant leads a sequence of legal transitions (DEFINED to STARTED,
    STARTED to LOCKED_IN or FAILED, LOCKED_IN to ACTIVE); a deployment that is
    ACTIVE or FAILED stays so for every descendant. *)
Theorem deployment_progress (C : Type) (checker : AbstractThresholdConditionChecker C) (self : C)
    (params : Params) (h : heap) (p q : ptr) (bp bq : CBlockIndex) (cache1 cache2 : ThresholdConditionCache) :
  CheckerLaws self params h -> tree_wf h -> time_rule h -> BeginTime self params <> ALWAYS_ACTIVE -> BeginTime self params <> NEVER_ACTIVE ->
  reached_cache self params h cache1 -> reached_cache self params h cache2 -> h !! p = Some bp -> h !! q = Some bq -> ancestor h q p ->
  exists s0 c1 s c2, GetStateFor self params h (Some q) cache1 = Ok (s0, c1) /\ GetStateFor self params h (Some p) cache2 = Ok (s, c2) /\
    rtc bip9_step s0 s /\ (s0 = ACTIVE \/ s0 = FAILED -> s = s0).
Proof.
  intros Hl Hwf Ht Ha Hn R1 R2 Hp Hq Hanc.
  destruct (GetStateFor_spec self params h Hl Hwf Ht (Some q) cache1 (reached_cache_ok self params h Hl Hwf Ht Ha Hn _ R1)) as (s0 & c1 & E1 & B1 & _); [intros ? [= <-]; eauto|assumption..|].
  destruct (GetStateFor_spec self params h Hl Hwf Ht (Some p) cache2 (reached_cache_ok self params h Hl Hwf Ht Ha Hn _ R2)) as (s & c2 & E2 & B2 & _); [intros ? [= <-]; eauto|assumption..|].
  pose proof (branch_progress self params h Hl Hwf p bp q bq s0 s Hp Hq Hanc B1 B2) as Hr. exists s0, c1, s, c2. split; [exact E1|]. split; [exact E2|]. split; [exact Hr|]. apply bip9_final. exact Hr.
Qed.

Lemma deployment_progress_witness :
  exists s0 c1 s c2, GetStateFor DEPLOYMENT_TESTDUMMY sample_params sample_tree (Some 1%nat) ∅ = Ok (s0, c1) /\
    GetStateFor DEPLOYMENT_TESTDUMMY sample_params sample_tree (Some 4%nat) ∅ = Ok (s, c2) /\
    rtc bip9_step s0 s /\ (s0 = ACTIVE \/ s0 = FAILED -> s = s0).
Proof.
  apply (deployment_progress DeploymentPos VersionBitsConditionChecker DEPLOYMENT_TESTDUMMY sample_params sample_tree 4 1
     (sample_block 4 (Some 3%nat) (Some 0%nat) 4 140) (sample_block 1 (Some 0%nat) (Some 0%nat) 1 110) ∅ ∅);
    [apply VersionBits_laws; reflexivity|exact sample_tree_wf|exact sample_time_rule|discriminate|discriminate|apply reached_empty|apply reached_empty|reflexivity|reflexivity|exists 3%nat; reflexivity].
Defined.

(** [GetStateSinceHeightFor] returns the height at which the current state
    began: 0 for DEFINED; otherwise the first height of a period such that
    the state is the current one for that period and every later one on the
    branch, and a different one for the period before. *)
Theorem GetStateSinceHeightFor_correct (C : Type) (checker : AbstractThresholdConditionChecker C) (self : C)
    (params : Params) (h : heap) (p : ptr) (b : CBlockIndex) (cache : ThresholdConditionCache) :
  CheckerLaws self params h -> tree_wf h -> time_rule h -> cache_ok self params h cache -> h !! p = Some b ->
  BeginTime self params <> ALWAYS_ACTIVE -> BeginTime self params <> NEVER_ACTIVE ->
  let P := Period self params in
  exists s r cache', branch_state self params h (Some p) = Ok s /\
    GetStateSinceHeightFor self params h (Some p) cache = Ok (r, cache') /\
    (s = DEFINED -> r = 0) /\
    (s <> DEFINED -> exists q0 q bq j, period_parent self params h p = Ok (Some q0) /\
       up h (j * Z.to_nat P) q0 = Some q /\ h !! q = Some bq /\ r = nHeight bq + 1 /\ r mod P = 0 /\
       (forall i, (i <= j)%nat -> exists t, up h (i * Z.to_nat P) q0 = Some t /\
          branch_state self params h (Some t) = Ok s) /\
       branch_state self params h (up h (Z.to_nat P) q) <> Ok s).
Proof.
  intros Hl Hwf Ht Hc Hp Ha Hn P. destruct (branch_state_total self params h Hl Hwf p b Hp) as [s Hs].
  destruct (GetStateSinceHeightFor_spec self params h Hl Hwf Ht Ha Hn p b cache s Hc Hp Hs) as (r & c' & E & H0 & H1).
  exists s, r, c'. auto.
Qed.

Lemma GetStateSinceHeightFor_correct_witness :
  exists r cache', GetStateSinceHeightFor DEPLOYMENT_TESTDUMMY sample_params sample_tree (Some 4%nat) ∅ = Ok (r, cache') /\ r = 4.
Proof.
  destruct (GetStateSinceHeightFor_correct DeploymentPos VersionBitsConditionChecker DEPLOYMENT_TESTDUMMY sample_params
     sample_tree 4 (sample_block 4 (Some 3%nat) (Some 0%nat) 4 140) ∅) as (s & r & c' & _ & E & _).
  - apply VersionBits_laws. reflexivity.
  - exact sample_tree_wf.
  - exact sample_time_rule.
  - apply empty_cache_ok.
  - reflexivity.
  - discriminate.
  - discriminate.
  - exists r, c'. split; [exact E|]. vm_compute in E. injection E as <- _. reflexivity.
Defined.

(** [GetStateStatisticsFor] counts exactly the current period: [elapsed]
    is the number of blocks of the period up to the block, the recorded flags
    are the conditions of those blocks from the first to the last, [count] is
    the number of true ones, and [possible] says that the threshold can still
    be met if all remaining blocks of the period signal. *)
Theorem GetStateStatisticsFor_correct (C : Type) (checker : AbstractThresholdConditionChecker C) (self : C)
    (params : Params) (h : heap) (p : ptr) (b : CBlockIndex) :
  CheckerLaws self params h -> tree_wf h -> h !! p = Some b ->
  let n := 1 + nHeight b mod Period self params in
  exists stats flags, GetStateStatisticsFor self params h (Some p) = Ok (stats, flags) /\
    elapsed stats = n /\ Z.of_nat (length flags) = n /\ count stats = signal_count flags /\
    (forall i, 0 <= i < n -> exists q bq c, up h (Z.to_nat (n - 1 - i)) p = Some q /\ h !! q = Some bq /\
       nHeight bq = nHeight b - nHeight b mod Period self params + i /\
       Condition self params h q = Ok c /\ flags !! Z.to_nat i = Some c) /\
    (possible stats = true <-> Threshold self params <= count stats + (Period self params - n)).
Proof.
  intros Hl Hwf Hp n. pose proof law_period as HP. destruct (tree_ok h Hwf p b Hp) as [Rb _ _ _ _].
  pose proof (Z.mod_pos_bound (nHeight b) (Period self params) HP) as Hm.
  assert (Hle : nHeight b mod Period self params <= nHeight b) by (apply Z.mod_le; lia).
  unfold GetStateStatisticsFor. rewrite (deref_ok h p b Hp). cbn [mbind res_bind]. rewrite Z.rem_mod_nonneg by lia. fold n.
  rewrite (stats_loop_spec self params h Hl Hwf _ p b) by (auto; lia). cbn [mbind res_bind].
  rewrite app_nil_r, Z2Nat.id by lia. eexists _, _. split; [reflexivity|]. cbn [elapsed count possible].
  split; [lia|]. split; [rewrite length_rev, length_map, length_seq; lia|]. split; [lia|]. split.
  - intros i Hi. destruct (up_total h Hwf (Z.to_nat (n - 1 - i)) p b Hp ltac:(lia)) as (q & bq & Hq & Hbq & EH).
    destruct (law_condition q bq Hbq) as [c Hc]. exists q, bq, c. split; [auto|]. split; [auto|]. split; [lia|]. split; [auto|].
    assert (Hnth : map (signals self params h p) (seq 0 (Z.to_nat n)) !! Z.to_nat (n - 1 - i) = Some c).
    { rewrite list_lookup_fmap, lookup_seq_lt by lia. cbn. f_equal. unfold signals. rewrite Hq, Hc. reflexivity. }
    rewrite rev_alt. fold (reverse (map (signals self params h p) (seq 0 (Z.to_nat n)))).
    rewrite reverse_lookup, length_map, length_seq by (rewrite length_map, length_seq; lia).
    replace (Z.to_nat n - S (Z.to_nat i))%nat with (Z.to_nat (n - 1 - i)) by lia. exact Hnth.
  - rewrite Z.geb_leb, Z.leb_le. lia.
Qed.

Lemma GetStateStatisticsFor_correct_witness :
  exists stats flags, GetStateStatisticsFor DEPLOYMENT_TESTDUMMY sample_params sample_tree (Some 3%nat) = Ok (stats, flags) /\
    elapsed stats = 4 /\ Z.of_nat (length flags) = 4 /\ (possible stats = true <-> 3 <= count stats + 0).
Proof.
  destruct (GetStateStatisticsFor_correct DeploymentPos VersionBitsConditionChecker DEPLOYMENT_TESTDUMMY sample_params
     sample_tree 3 (sample_block 3 (Some 2%nat) (Some 1%nat) 3 130)) as (st & fl & E & He & Hn & _ & _ & Hp);
    [apply VersionBits_laws; reflexivity|exact sample_tree_wf|reflexivity|].
  exists st, fl. auto.
Defined.

(** [ComputeBlockVersion] sets the top bits of a version-bits block and,
    below them, exactly the bits of the deployments whose state for the new
    block is STARTED or LOCKED_IN; the caches stay correct, so the order of
    the calls and what was cached before do not matter. *)
Theorem ComputeBlockVersion_correct (h : heap) (params : Params) (o : option ptr) (m : VersionBitsCache) :
  tree_wf h -> time_rule h -> 0 < i32 (nMinerConfirmationWindow params) ->
  (forall pos, 0 <= bit (vDeployments params pos) < VERSIONBITS_NUM_BITS) ->
  caches_ok params h m -> (forall p, o = Some p -> is_Some (h !! p)) ->
  exists v m', ComputeBlockVersion h params o m = Ok (v, m') /\ caches_ok params h m' /\
    Z.land (u32 v) (u32 VERSIONBITS_TOP_MASK) = VERSIONBITS_TOP_BITS /\
    forall i, 0 <= i < VERSIONBITS_NUM_BITS -> Z.testbit v i = true <->
      exists pos, bit (vDeployments params pos) = i /\
        (deployment_state params h pos o = Ok STARTED \/ deployment_state params h pos o = Ok LOCKED_IN).
Proof.
  intros Hwf Ht Hw Hb Hm Ho. unfold VERSIONBITS_NUM_BITS in *.
  destruct (version_loop_spec params h Hwf Ht Hw o all_deployments Ho Hb VERSIONBITS_TOP_BITS m Hm)
    as (v & m' & E & Hm' & Rv & Tv); [vm_compute; intuition discriminate|].
  exists v, m'. split; [exact E|]. split; [exact Hm'|].
  assert (Htop : forall i, 0 <= i -> Z.testbit VERSIONBITS_TOP_BITS i = (i =? 29)) by (intros i _; apply (testbit_pow2 29); lia).
  split.
  - rewrite (uwrap_small 32 v) by (unfold in_u in *; lia). apply Z.bits_inj'. intros i Hi.
    change (u32 VERSIONBITS_TOP_MASK) with (Z.shiftl 7 29). rewrite Z.land_spec, Z.shiftl_spec, Tv, Htop by lia.
    destruct (Z.lt_ge_cases i 29) as [Hlt|Hge].
    + rewrite (Z.testbit_neg_r 7) by lia. rewrite andb_false_r. destruct (Z.eqb_spec i 29); [lia|reflexivity].
    + assert (Ex : existsb (fun pos => signalled params h o pos && (bit (vDeployments params pos) =? i))%bool all_deployments = false).
      { apply not_true_is_false. rewrite existsb_exists. intros (pos & _ & Hp). zbool. pose proof (Hb pos). lia. }
      rewrite Ex, orb_false_r. destruct (Z.eqb_spec i 29) as [->|]; [reflexivity|reflexivity].
  - intros i Hi. rewrite Tv, Htop by lia. destruct (Z.eqb_spec i 29); [lia|]. cbn [orb]. rewrite existsb_exists. split.
    + intros (pos & _ & Hp). zbool. exists pos. split; [auto|]. unfold signalled in *.
      destruct (deployment_state params h pos o) as [[]|]; try discriminate; auto.
    + intros (pos & Eb & Hs). exists pos. split; [destruct pos; simpl; auto|]. rewrite Eb, Z.eqb_refl, andb_true_r.
      unfold signalled. destruct Hs as [-> | ->]; reflexivity.
Qed.

Lemma ComputeBlockVersion_correct_witness :
  exists v m', ComputeBlockVersion sample_tree sample_params (Some 4%nat) (fun _ => ∅) = Ok (v, m') /\
    caches_ok sample_params sample_tree m' /\ v = 0x30000000.
Proof.
  destruct (ComputeBlockVersion_correct sample_tree sample_params (Some 4%nat) (fun _ => ∅)) as (v & m' & E & Hm & _).
  - exact sample_tree_wf.
  - exact sample_time_rule.
  - reflexivity.
  - intros []; vm_compute; intuition discriminate.
  - intros pos. apply empty_cache_ok.
  - intros p E. injection E as <-. eexists. reflexivity.
  - exists v, m'. split; [exact E|]. split; [exact Hm|].
    assert (E' : option_map fst (match ComputeBlockVersion sample_tree sample_params (Some 4%nat) (fun _ => ∅) with Ok x => Some x | _ => None end) = Some 0x30000000)
      by (vm_compute; reflexivity). rewrite E in E'. cbn in E'. congruence.
Defined.

(** Rules, once on, stay on: a version-bits deployment that is active after
    a block is active after every descendant, whatever the caches of the two
    calls; the same holds of the buried deployments, for which "active at a
    block" and "active after its parent" agree. *)
Theorem deployments_stay_active (h : heap) (params : Params) (p q : ptr) (bp bq : CBlockIndex)
    (dep : DeploymentPos) (buried : BuriedDeployment) (m1 m2 : VersionBitsCache) :
  tree_wf h -> time_rule h -> 0 < i32 (nMinerConfirmationWindow params) ->
  caches_ok params h m1 -> caches_ok params h m2 ->
  h !! p = Some bp -> h !! q = Some bq -> ancestor h q p ->
  (forall m', DeploymentActiveAfter h params dep (Some q) m1 = Ok (true, m') ->
     exists m'', DeploymentActiveAfter h params dep (Some p) m2 = Ok (true, m'')) /\
  (BuriedActiveAfter h params buried (Some q) = Ok true -> BuriedActiveAfter h params buried (Some p) = Ok true) /\
  BuriedActiveAfter h params buried (pprev bp) = Ok (BuriedActiveAt params buried bp).
Proof.
  intros Hwf Ht Hw Hm1 Hm2 Hp Hq Ha. split; [|split].
  - intros m' E. unfold DeploymentActiveAfter in *.
    destruct (State_spec params h Hwf Ht Hw dep (Some q) m1 Hm1 ltac:(intros x Ex; injection Ex as <-; eauto))
      as (s0 & m1' & E0 & S0 & _).
    destruct (State_spec params h Hwf Ht Hw dep (Some p) m2 Hm2 ltac:(intros x Ex; injection Ex as <-; eauto))
      as (s & m2' & E1 & S1 & _).
    rewrite E0 in E. rewrite E1. cbn [mbind res_bind] in *. injection E as Eact _.
    apply bool_decide_eq_true in Eact. subst s0.
    assert (s = ACTIVE) as ->; [|eexists; reflexivity].
    unfold deployment_state in *. destruct (_ =? ALWAYS_ACTIVE); [congruence|]. destruct (_ =? NEVER_ACTIVE); [congruence|].
    apply (bip9_final ACTIVE s); [|auto].
    exact (branch_progress dep params h (VersionBits_laws params h dep Hw) Hwf p bp q bq ACTIVE s Hp Hq Ha S0 S1).
  - destruct (ancestor_steps h p bp q bq Hwf Hp Hq Ha) as [Hle _].
    unfold BuriedActiveAfter. rewrite (deref_ok h p bp Hp), (deref_ok h q bq Hq). cbn [mbind res_bind].
    intros E. injection E as E. f_equal. rewrite Z.geb_leb in *. zbool. apply Z.leb_le. lia.
  - destruct (tree_ok h Hwf p bp Hp) as [_ Hroot Hprev _ _]. unfold BuriedActiveAfter, BuriedActiveAt.
    destruct (pprev bp) as [r|] eqn:Er.
    + destruct (Hprev r eq_refl) as (br & Hr & EH). rewrite (deref_ok h r br Hr). cbn [mbind res_bind]. rewrite EH. reflexivity.
    + rewrite (Hroot eq_refl). reflexivity.
Qed.

Lemma deployments_stay_active_witness :
  exists m'', DeploymentActiveAfter sample_tree sample_params DEPLOYMENT_TAPROOT (Some 4%nat) (fun _ => ∅) = Ok (true, m'').
Proof.
  destruct (deployments_stay_active sample_tree sample_params 4 1 (sample_block 4 (Some 3%nat) (Some 0%nat) 4 140)
     (sample_block 1 (Some 0%nat) (Some 0%nat) 1 110) DEPLOYMENT_TAPROOT DEPLOYMENT_CSV (fun _ => ∅) (fun _ => ∅)) as (H & _).
  - exact sample_tree_wf.
  - exact sample_time_rule.
  - reflexivity.
  - intros pos. apply empty_cache_ok.
  - intros pos. apply empty_cache_ok.
  - reflexivity.
  - reflexivity.
  - exists 3%nat. reflexivity.
  - eapply H. vm_compute. reflexivity.
Defined.
