(* ===== verification/Merkle.v ===== *)
(** * Merkle roots

    Models [src/consensus/merkle.cpp].  The double SHA-256 of two concatenated
    hashes ([SHA256D64] and [Hash(left, right)]) is the parameter [hash2];
    nothing about it is assumed, and where collision resistance matters the
    theorems return the collision. *)

From stdpp Require Import base numbers list strings.
From Stdlib Require Import ZArith Lia.
From S2P Require Import Prelude Params.

Local Open Scope nat_scope.

(** Two different inputs of the compression with the same output. *)
Definition collision (hash2 : uint256 -> uint256 -> uint256) : Prop :=
  exists a b c d, hash2 a b = hash2 c d /\ (a, b) <> (c, d).

(** The all-zero hash. *)
Definition uint256_null : uint256 := repeat 0%Z 32.

Section Root.
Context (hash2 : uint256 -> uint256 -> uint256).

(** [if (hashes[pos] == hashes[pos + 1]) mutation = true;] for the pairs. *)
Fixpoint equal_pair (hashes : list uint256) : bool :=
  match hashes with
  | a :: b :: rest => bool_decide (a = b) || equal_pair rest
  | _ => false
  end.

(** [if (hashes.size() & 1) hashes.push_back(hashes.back());] *)
Definition pad_odd (hashes : list uint256) : list uint256 :=
  if Nat.odd (length hashes) then hashes ++ [List.last hashes uint256_null] else hashes.

(** [SHA256D64] on all pairs of an even number of hashes. *)
Fixpoint SHA256D64 (hashes : list uint256) : list uint256 :=
  match hashes with
  | a :: b :: rest => hash2 a b :: SHA256D64 rest
  | _ => []
  end.

(** One round of the loop. *)
Definition merkle_level (hashes : list uint256) : list uint256 := SHA256D64 (pad_odd hashes).

Fixpoint merkle_loop (fuel : nat) (hashes : list uint256) (mutation : bool) : res (uint256 * bool) :=
  if 1 <? length hashes then
    match fuel with
    | O => Fail OutOfFuel
    | S fuel' => merkle_loop fuel' (merkle_level hashes) (mutation || equal_pair hashes)
    end
  else Ok (match hashes with [] => uint256_null | h :: _ => h end, mutation).

(** The root and the [mutated] flag. *)
Definition ComputeMerkleRoot (hashes : list uint256) : res (uint256 * bool) :=
  merkle_loop (length hashes) hashes false.

(** *** Blocks: the transactions and their hashes are parameters
    ([primitives/transaction.h]). *)
Context {CTransaction : Type} (GetHash GetWitnessHash : CTransaction -> uint256).

Definition BlockMerkleRoot (vtx : list CTransaction) : res (uint256 * bool) :=
  ComputeMerkleRoot (map GetHash vtx).

(** [leaves[0].SetNull()] needs a transaction. *)
Definition BlockWitnessMerkleRoot (vtx : list CTransaction) : res (uint256 * bool) :=
  match vtx with
  | [] => Fail BadAccess
  | _ :: rest => ComputeMerkleRoot (uint256_null :: map GetWitnessHash rest)
  end.

(** ** Levels *)

Lemma list_ind2 {A} (P : list A -> Prop) :
  P [] -> (forall a, P [a]) -> (forall a b l, P l -> P (a :: b :: l)) -> forall l, P l.
Proof using.
  intros H0 H1 H2. fix IH 1. intros [|a [|b l]]; [exact H0|apply H1|apply H2, IH].
Qed.

(** Padding and compressing in one pass. *)
Fixpoint level (hashes : list uint256) : list uint256 :=
  match hashes with
  | a :: b :: rest => hash2 a b :: level rest
  | [a] => [hash2 a a]
  | [] => []
  end.

Lemma merkle_level_eq l : merkle_level l = level l.
Proof using.
  unfold merkle_level, pad_odd. induction l as [|a|a b l IH] using list_ind2; [reflexivity|reflexivity|].
  change (Nat.odd (length (a :: b :: l))) with (Nat.odd (length l)). cbn [level].
  destruct (Nat.odd (length l)) eqn:E; [|cbn [SHA256D64]; rewrite IH; reflexivity].
  destruct l as [|c l]; [discriminate|].
  change (List.last (a :: b :: c :: l) uint256_null) with (List.last (c :: l) uint256_null).
  cbn [app SHA256D64]. rewrite <- IH. reflexivity.
Qed.

Lemma level_length l : length (level l) = (length l + 1) / 2.
Proof using.
  induction l as [|a|a b l IH] using list_ind2; [reflexivity|reflexivity|].
  cbn [level length]. rewrite IH. replace (S (S (length l)) + 1) with (length l + 1 + 1 * 2) by lia.
  rewrite Nat.div_add by lia. lia.
Qed.

(** The loop ends: a level of at least two hashes gets shorter. *)
Lemma level_shorter l : 1 < length l -> 0 < length (level l) < length l.
Proof using.
  intros Hl. rewrite level_length. split; [apply Nat.div_str_pos; lia|].
  apply Nat.Div0.div_lt_upper_bound. lia.
Qed.

(** The number of levels above the leaves. *)
Fixpoint depth_fuel (fuel n : nat) : nat :=
  match fuel with
  | O => 0
  | S fuel' => if 1 <? n then S (depth_fuel fuel' ((n + 1) / 2)) else 0
  end.
Definition depth (n : nat) : nat := depth_fuel n n.

Lemma half_lt n : 1 < n -> (n + 1) / 2 < n /\ 0 < (n + 1) / 2.
Proof using. intros Hn. split; [apply Nat.Div0.div_lt_upper_bound; lia|apply Nat.div_str_pos; lia]. Qed.

Lemma depth_fuel_enough f1 : forall f2 n, n <= f1 -> n <= f2 -> depth_fuel f1 n = depth_fuel f2 n.
Proof using.
  induction f1 as [|f1 IH]; intros f2 n H1 H2.
  - assert (n = 0) as -> by lia. destruct f2; reflexivity.
  - destruct f2 as [|f2]; [assert (n = 0) as -> by lia; reflexivity|]. cbn [depth_fuel].
    destruct (Nat.ltb_spec 1 n); [|reflexivity]. pose proof (half_lt n ltac:(lia)). f_equal. apply IH; lia.
Qed.

Lemma depth_step n : 1 < n -> depth n = S (depth ((n + 1) / 2)).
Proof using.
  intros Hn. pose proof (half_lt n Hn). unfold depth. destruct n as [|n]; [lia|].
  cbn [depth_fuel]. destruct (Nat.ltb_spec 1 (S n)); [|lia]. f_equal. apply depth_fuel_enough; lia.
Qed.

Lemma depth_small n : n <= 1 -> depth n = 0.
Proof using. intros Hn. unfold depth. destruct n as [|[|n]]; [reflexivity|reflexivity|lia]. Qed.

Lemma depth_le n : depth n <= n.
Proof using.
  induction n as [n IH] using lt_wf_ind. destruct (Nat.le_gt_cases n 1); [rewrite depth_small by lia; lia|].
  rewrite depth_step by lia. pose proof (half_lt n ltac:(lia)). specialize (IH ((n + 1) / 2) ltac:(lia)). lia.
Qed.

(** ** The loop as a function of the list *)

Fixpoint levels (k : nat) (l : list uint256) : list uint256 :=
  match k with O => l | S k' => levels k' (level l) end.

Fixpoint mutated (k : nat) (l : list uint256) : bool :=
  match k with O => false | S k' => equal_pair l || mutated k' (level l) end.

Lemma merkle_loop_levels fuel : forall l m, l <> [] -> depth (length l) <= fuel ->
  exists r, merkle_loop fuel l m = Ok (r, (m || mutated (depth (length l)) l)%bool) /\
    levels (depth (length l)) l = [r].
Proof using.
  induction fuel as [|fuel IH]; intros l m Hl Hf; cbn [merkle_loop]; destruct (Nat.ltb_spec 1 (length l)) as [H1|H1].
  1: rewrite depth_step in Hf by lia; lia.
  all: try (destruct l as [|a [|b l]]; [congruence| |simpl in H1; lia]; exists a; cbn; rewrite orb_false_r; auto).
  rewrite merkle_level_eq. rewrite depth_step in * by lia. rewrite <- level_length in *. cbn [mutated levels].
  pose proof (level_shorter l H1). destruct (IH (level l) (m || equal_pair l)%bool) as (r & E & Hr).
  - intros E. rewrite E in *. simpl in *. lia.
  - lia.
  - exists r. rewrite E, orb_assoc. auto.
Qed.

Lemma ComputeMerkleRoot_levels l : l <> [] ->
  exists r, ComputeMerkleRoot l = Ok (r, mutated (depth (length l)) l) /\ levels (depth (length l)) l = [r].
Proof using. intros Hl. apply (merkle_loop_levels (length l) l false Hl). apply depth_le. Qed.

(** ** The flag *)

Lemma equal_pair_iff l : equal_pair l = true <-> exists i a, l !! (2 * i) = Some a /\ l !! (2 * i + 1) = Some a.
Proof using.
  induction l as [|a|a b l IH] using list_ind2; cbn [equal_pair].
  - split; [discriminate|]. intros (i & x & E & _). discriminate.
  - split; [discriminate|]. intros (i & x & _ & E). replace (2 * i + 1) with (S (2 * i)) in E by lia. discriminate.
  - rewrite orb_true_iff, bool_decide_eq_true, IH. split.
    + intros [->|(i & x & E1 & E2)]; [exists 0, b; split; reflexivity|]. exists (S i), x. replace (2 * S i) with (S (S (2 * i))) by lia. split; assumption.
    + intros ([|i] & x & E1 & E2); [left; cbn in *; congruence|]. right. exists i, x. replace (2 * S i) with (S (S (2 * i))) in * by lia. split; assumption.
Qed.

Lemma mutated_iff k : forall l, mutated k l = true <-> exists j i a, j < k /\ levels j l !! (2 * i) = Some a /\ levels j l !! (2 * i + 1) = Some a.
Proof using.
  induction k as [|k IH]; intros l; cbn [mutated]; [split; [discriminate|intros (? & ? & ? & ? & _); lia]|]. rewrite orb_true_iff, equal_pair_iff, IH. split.
  - intros [(i & a & E)|(j & i & a & Hj & E)]; [exists 0, i, a; split; [lia|exact E]|exists (S j), i, a; split; [lia|exact E]].
  - intros ([|j] & i & a & Hj & E); [left; eauto|right; exists j, i, a; split; [lia|exact E]].
Qed.

(** ** Uniqueness *)

Lemma hash2_inj a b c d : hash2 a b = hash2 c d -> (a = c /\ b = d) \/ collision hash2.
Proof using.
  intros E. destruct (decide ((a, b) = (c, d))) as [Ep|Ep]; [left; injection Ep; auto|].
  right. exists a, b, c, d. auto.
Qed.

(** Equal levels come from equal lists, unless one of them has a repeated pair
    or the hash collides. *)
Lemma level_inj l1 : forall l2, level l1 = level l2 -> equal_pair l1 = false -> equal_pair l2 = false ->
  l1 = l2 \/ collision hash2.
Proof using.
  induction l1 as [|a|a b l1 IH] using list_ind2; intros [|c [|d l2]] E H1 H2; cbn [level equal_pair] in *;
    try discriminate; auto.
  - injection E as E. destruct (hash2_inj _ _ _ _ E) as [[-> _]|]; auto.
  - injection E as E _. destruct (hash2_inj _ _ _ _ E) as [[-> ->]|]; [|auto].
    rewrite bool_decide_true in H2 by auto. discriminate.
  - injection E as E _. destruct (hash2_inj _ _ _ _ E) as [[-> ->]|]; [|auto].
    rewrite bool_decide_true in H1 by auto. discriminate.
  - injection E as E EL. apply orb_false_iff in H1 as [_ H1]. apply orb_false_iff in H2 as [_ H2].
    destruct (hash2_inj _ _ _ _ E) as [[-> ->]|]; [|auto]. destruct (IH l2 EL H1 H2) as [->|]; auto.
Qed.

Lemma levels_inj k : forall l1 l2, levels k l1 = levels k l2 -> mutated k l1 = false -> mutated k l2 = false ->
  l1 = l2 \/ collision hash2.
Proof using.
  induction k as [|k IH]; intros l1 l2 E H1 H2; [left; exact E|]. cbn [levels mutated] in *.
  apply orb_false_iff in H1 as [P1 M1]. apply orb_false_iff in H2 as [P2 M2].
  destruct (IH _ _ E M1 M2) as [EL|]; [|auto]. apply level_inj; auto.
Qed.

(** ** Properties *)

(** C33. [ComputeMerkleRoot] terminates on every list, returns the null hash for
    no leaves, and otherwise the only hash of the level that is left after
    combining neighbours, the last one with itself when it has none,
    [depth n] times (the length more than halves rounding up each time); the
    flag is set exactly when some level below the root had two equal hashes at
    positions [2 i] and [2 i + 1]. *)
Theorem ComputeMerkleRoot_correct (l : list uint256) :
  (l = [] -> ComputeMerkleRoot l = Ok (uint256_null, false)) /\
  (l <> [] -> exists r flag, ComputeMerkleRoot l = Ok (r, flag) /\ levels (depth (length l)) l = [r] /\
     (flag = true <-> exists k i a, k < depth (length l) /\ levels k l !! (2 * i) = Some a /\ levels k l !! (2 * i + 1) = Some a)).
Proof using.
  split; [intros ->; reflexivity|]. intros Hl. destruct (ComputeMerkleRoot_levels l Hl) as (r & E & L). exists r, (mutated (depth (length l)) l). rewrite mutated_iff. auto.
Qed.

(** C32. The defence against duplicated transactions (CVE-2012-2459): two lists
    of leaves with trees of the same depth and the same root, neither of them
    reported as mutated, are the same list, or they exhibit a collision of
    the hash. *)
Theorem unmutated_root_unique (l1 l2 : list uint256) (r : uint256) :
  depth (length l1) = depth (length l2) -> l1 <> [] -> l2 <> [] ->
  ComputeMerkleRoot l1 = Ok (r, false) -> ComputeMerkleRoot l2 = Ok (r, false) ->
  l1 = l2 \/ collision hash2.
Proof using.
  intros Hd H1 H2 E1 E2.
  destruct (ComputeMerkleRoot_levels l1 H1) as (r1 & E1' & L1). rewrite E1 in E1'. injection E1' as <- M1.
  destruct (ComputeMerkleRoot_levels l2 H2) as (r2 & E2' & L2). rewrite E2 in E2'. injection E2' as <- M2.
  rewrite <- Hd in *. apply (levels_inj (depth (length l1))); congruence.
Qed.
End Root.

(** A stand-in for the double SHA-256 of the pair, for the witnesses: it marks
    and joins its arguments. *)
Definition sample_hash2 (a b : uint256) : uint256 := (0 :: a ++ b)%Z.

Lemma ComputeMerkleRoot_correct_witness :
  ComputeMerkleRoot sample_hash2 [[1]; [2]; [3]; [3]]%Z = Ok ([0; 0; 1; 2; 0; 3; 3]%Z, true) /\
  exists r flag, ComputeMerkleRoot sample_hash2 [[1]; [2]; [3]; [3]]%Z = Ok (r, flag) /\ levels sample_hash2 2 [[1]; [2]; [3]; [3]]%Z = [r] /\
    (flag = true <-> exists k i a, k < 2 /\ levels sample_hash2 k [[1]; [2]; [3]; [3]]%Z !! (2 * i) = Some a /\ levels sample_hash2 k [[1]; [2]; [3]; [3]]%Z !! (2 * i + 1) = Some a).
Proof.
  split; [reflexivity|]. apply (ComputeMerkleRoot_correct sample_hash2 [[1]; [2]; [3]; [3]]%Z). discriminate.
Defined.

Lemma unmutated_root_unique_witness :
  ([[1]; [2]; [3]]%Z = [[1]; [2]; [3]]%Z \/ collision sample_hash2) /\
  ComputeMerkleRoot sample_hash2 [[1]; [2]; [3]; [3]]%Z = Ok ([0; 0; 1; 2; 0; 3; 3]%Z, true).
Proof.
  split; [|reflexivity].
  apply (unmutated_root_unique sample_hash2 [[1]; [2]; [3]]%Z [[1]; [2]; [3]]%Z [0; 0; 1; 2; 0; 3; 3]%Z);
    first [reflexivity | discriminate].
Defined.
