(* ===== verification/MerkleBlock.v ===== *)
(** * Partial Merkle trees

    Models [src/merkleblock.h] and [src/merkleblock.cpp]: the proof that a set
    of transactions belongs to a block ([CPartialMerkleTree]) and the packing
    of its flag bits.  Counts and positions are [nat]: the code's [unsigned
    int]s stay below [2^32] because [ExtractMatches] first bounds the number of
    transactions by [MAX_BLOCK_WEIGHT / MIN_TRANSACTION_WEIGHT]. *)

From stdpp Require Import base numbers list strings.
From Stdlib Require Import ZArith Lia.
From S2P Require Import Prelude Params Merkle.

Local Open Scope nat_scope.

(** ** Flag bits as bytes *)

Definition bool_bit (b : bool) : Z := if b then 1%Z else 0%Z.

Definition BitsToBytes (bits : list bool) : list Z :=
  for_range (length bits)
    (fun p ret => <[p / 8 := Z.lor (nth (p / 8) ret 0%Z) (Z.shiftl (bool_bit (nth p bits false)) (Z.of_nat (p mod 8)))]> ret)
    (repeat 0%Z ((length bits + 7) / 8)).

Definition BytesToBits (bytes : list Z) : list bool :=
  map (fun p => negb (Z.land (nth (p / 8) bytes 0%Z) (Z.shiftl 1 (Z.of_nat (p mod 8))) =? 0)%Z)
    (seq 0 (length bytes * 8)).

(** Bit [i] of byte [j] is flag [8 j + i]. *)
Lemma BitsToBytes_spec bits :
  length (BitsToBytes bits) = (length bits + 7) / 8 /\
  forall j i, i < 8 -> Z.testbit (nth j (BitsToBytes bits) 0%Z) (Z.of_nat i) = nth (8 * j + i) bits false.
Proof.
  unfold BitsToBytes.
  pose proof (for_range_ind (fun p ret => length ret = (length bits + 7) / 8 /\
    forall j i, i < 8 -> Z.testbit (nth j ret 0%Z) (Z.of_nat i) = ((8 * j + i <? p) && nth (8 * j + i) bits false)%bool)
    (fun p ret => <[p / 8 := Z.lor (nth (p / 8) ret 0%Z) (Z.shiftl (bool_bit (nth p bits false)) (Z.of_nat (p mod 8)))]> ret)
    (repeat 0%Z ((length bits + 7) / 8)) (length bits)) as L.
  destruct L as [Hlen Hbit].
  - split; [apply repeat_length|]. intros j i Hi. rewrite nth_repeat, Z.bits_0. reflexivity.
  - intros p ret Hp [Hl Hb]. split; [rewrite length_insert; exact Hl|]. intros j i Hi.
    assert (Hp8 : p / 8 < length ret) by (rewrite Hl; apply Nat.Div0.div_lt_upper_bound; pose proof (Nat.div_mod_eq (length bits + 7) 8); pose proof (Nat.mod_upper_bound (length bits + 7) 8); lia).
    pose proof (Nat.div_mod_eq p 8) as Ep. pose proof (Nat.mod_upper_bound p 8 ltac:(lia)) as Mp.
    destruct (decide (j = p / 8)) as [->|Hj].
    + rewrite nth_insert_eq, Z.lor_spec, Hb, Z.shiftl_spec by lia.
      destruct (Nat.lt_trichotomy i (p mod 8)) as [Hlt|[->|Hgt]].
      * rewrite Z.testbit_neg_r, orb_false_r by lia.
        destruct (Nat.ltb_spec (8 * (p / 8) + i) p), (Nat.ltb_spec (8 * (p / 8) + i) (S p)); try lia; reflexivity.
      * rewrite Z.sub_diag, <- Ep, Nat.ltb_irrefl. destruct (Nat.ltb_spec p (S p)); [|lia].
        destruct (nth p bits false); reflexivity.
      * replace (8 * (p / 8) + i <? p) with false by (symmetry; apply Nat.ltb_ge; lia).
        replace (8 * (p / 8) + i <? S p) with false by (symmetry; apply Nat.ltb_ge; lia). cbn [andb orb].
        destruct (nth p bits false); cbn [bool_bit]; [|apply Z.bits_0].
        apply (testbit_above 1); [unfold in_u; lia|lia].
    + rewrite nth_insert_ne, Hb by auto.
      destruct (Nat.ltb_spec (8 * j + i) p), (Nat.ltb_spec (8 * j + i) (S p)); try lia; try reflexivity.
  - split; [exact Hlen|]. intros j i Hi. rewrite Hbit by exact Hi.
    destruct (Nat.ltb_spec (8 * j + i) (length bits)); [reflexivity|]. rewrite nth_overflow by lia. reflexivity.
Qed.

Lemma land_shiftl1 x i : (0 <= i)%Z -> negb (Z.land x (Z.shiftl 1 i) =? 0)%Z = Z.testbit x i.
Proof.
  intros Hi. rewrite Z.shiftl_1_l. destruct (Z.testbit x i) eqn:E.
  - apply negb_true_iff, Z.eqb_neq. intros E0.
    assert (F : Z.testbit (Z.land x (2 ^ i)) i = false) by (rewrite E0; apply Z.bits_0).
    rewrite Z.land_spec, E, Z.pow2_bits_true in F by lia. discriminate.
  - apply negb_false_iff, Z.eqb_eq, Z.bits_inj'. intros k Hk. rewrite Z.land_spec, Z.bits_0, Z.pow2_bits_eqb by lia.
    destruct (Z.eqb_spec i k) as [->|]; [rewrite E; reflexivity|apply andb_false_r].
Qed.

(** Packing and unpacking pads with cleared flags to whole bytes. *)
Lemma bits_roundtrip bits :
  BytesToBits (BitsToBytes bits) = bits ++ repeat false (8 * ((length bits + 7) / 8) - length bits).
Proof.
  destruct (BitsToBytes_spec bits) as [Hl Hb].
  pose proof (Nat.div_mod_eq (length bits + 7) 8). pose proof (Nat.mod_upper_bound (length bits + 7) 8 ltac:(lia)).
  apply list_ext_nth with (d := false).
  - unfold BytesToBits. rewrite length_map, length_seq, length_app, repeat_length, Hl. lia.
  - intros p Hp. unfold BytesToBits in *. rewrite length_map, length_seq in Hp.
    rewrite nth_indep with (d' := negb (Z.land (nth (0 / 8) (BitsToBytes bits) 0%Z) (Z.shiftl 1 (Z.of_nat (0 mod 8))) =? 0)%Z)
      by (rewrite length_map, length_seq; exact Hp).
    rewrite (map_nth (fun p => negb (Z.land (nth (p / 8) (BitsToBytes bits) 0%Z) (Z.shiftl 1 (Z.of_nat (p mod 8))) =? 0)%Z)), seq_nth by exact Hp.
    rewrite Nat.add_0_l, land_shiftl1, Hb by (try lia; apply Nat.mod_upper_bound; lia).
    rewrite <- Nat.div_mod_eq. destruct (Nat.lt_ge_cases p (length bits)).
    + rewrite app_nth1 by lia. reflexivity.
    + rewrite app_nth2, nth_repeat, nth_overflow by lia. reflexivity.
Qed.

(** ** The tree *)

Record CPartialMerkleTree : Type := {
  nTransactions : nat;
  vBits : list bool;
  vHash : list uint256;
  fBad : bool;
}.

Definition CalcTreeWidth (n height : nat) : nat := (n + 2 ^ height - 1) / 2 ^ height.

(** [while (CalcTreeWidth(nHeight) > 1) nHeight++;] *)
Fixpoint height_loop (fuel n nHeight : nat) : res nat :=
  if 1 <? CalcTreeWidth n nHeight then
    match fuel with O => Fail OutOfFuel | S fuel' => height_loop fuel' n (S nHeight) end
  else Ok nHeight.

(** The state that [TraverseAndExtract] changes. *)
Record extract_state : Type := {
  nBitsUsed : nat;
  nHashUsed : nat;
  matched : list uint256;
  vnIndex : list nat;
  bad : bool;
}.

Definition set_bad (st : extract_state) : extract_state :=
  {| nBitsUsed := nBitsUsed st; nHashUsed := nHashUsed st; matched := matched st; vnIndex := vnIndex st; bad := true |}.
Definition use_bit (st : extract_state) : extract_state :=
  {| nBitsUsed := S (nBitsUsed st); nHashUsed := nHashUsed st; matched := matched st; vnIndex := vnIndex st; bad := bad st |}.
Definition use_hash (st : extract_state) : extract_state :=
  {| nBitsUsed := nBitsUsed st; nHashUsed := S (nHashUsed st); matched := matched st; vnIndex := vnIndex st; bad := bad st |}.
Definition push_match (st : extract_state) (hash : uint256) (pos : nat) : extract_state :=
  {| nBitsUsed := nBitsUsed st; nHashUsed := nHashUsed st; matched := matched st ++ [hash];
     vnIndex := vnIndex st ++ [pos]; bad := bad st |}.

Section Tree.
Context (hash2 : uint256 -> uint256 -> uint256).

Fixpoint CalcHash (n : nat) (vTxid : list uint256) (height pos : nat) : res uint256 :=
  _ ← assert_ (negb (length vTxid =? 0));
  match height with
  | O => access (vTxid !! pos)
  | S h' =>
      left ← CalcHash n vTxid h' (pos * 2);
      right ← (if pos * 2 + 1 <? CalcTreeWidth n h' then CalcHash n vTxid h' (pos * 2 + 1) else Ok left);
      Ok (hash2 left right)
  end.

(** [fParentOfMatch |= vMatch[p]] for [p] from [pos << height] below [(pos+1) << height] and below [nTransactions]. *)
Fixpoint parent_loop (n : nat) (vMatch : list bool) (ps : list nat) (fParentOfMatch : bool) : res bool :=
  match ps with
  | [] => Ok fParentOfMatch
  | p :: ps => if p <? n then b ← access (vMatch !! p); parent_loop n vMatch ps (fParentOfMatch || b)%bool else Ok fParentOfMatch
  end.

Definition parent_of_match (n : nat) (vMatch : list bool) (height pos : nat) : res bool :=
  parent_loop n vMatch (seq (pos * 2 ^ height) (2 ^ height)) false.

(** The bits and hashes pushed so far, and the recursion that pushes more. *)
Fixpoint TraverseAndBuild (n : nat) (vTxid : list uint256) (vMatch : list bool) (height pos : nat)
    (acc : list bool * list uint256) : res (list bool * list uint256) :=
  fParentOfMatch ← parent_of_match n vMatch height pos;
  let acc := (acc.1 ++ [fParentOfMatch], acc.2) in
  match height with
  | O => h ← CalcHash n vTxid height pos; Ok (acc.1, acc.2 ++ [h])
  | S h' =>
      if negb fParentOfMatch then h ← CalcHash n vTxid height pos; Ok (acc.1, acc.2 ++ [h])
      else
        acc ← TraverseAndBuild n vTxid vMatch h' (pos * 2) acc;
        if pos * 2 + 1 <? CalcTreeWidth n h' then TraverseAndBuild n vTxid vMatch h' (pos * 2 + 1) acc else Ok acc
  end.

(** The constructor from transaction ids and a mask. *)
Definition PartialMerkleTree (vTxid : list uint256) (vMatch : list bool) : res CPartialMerkleTree :=
  let n := length vTxid in
  nHeight ← height_loop n n 0;
  acc ← TraverseAndBuild n vTxid vMatch nHeight 0 ([], []);
  Ok {| nTransactions := n; vBits := acc.1; vHash := acc.2; fBad := false |}.

(** [CPartialMerkleTree()]. *)
Definition PartialMerkleTree_default : CPartialMerkleTree :=
  {| nTransactions := 0; vBits := []; vHash := []; fBad := true |}.

Fixpoint TraverseAndExtract (t : CPartialMerkleTree) (height pos : nat) (st : extract_state)
    : uint256 * extract_state :=
  match vBits t !! nBitsUsed st with
  | None => (uint256_null, set_bad st)
  | Some fParentOfMatch =>
      let st := use_bit st in
      let leaf :=
        match vHash t !! nHashUsed st with
        | None => (uint256_null, set_bad st)
        | Some hash =>
            let st := use_hash st in
            (hash, if ((height =? 0) && fParentOfMatch)%bool then push_match st hash pos else st)
        end in
      match height with
      | O => leaf
      | S h' =>
          if negb fParentOfMatch then leaf
          else
            let '(left_hash, st) := TraverseAndExtract t h' (pos * 2) st in
            if pos * 2 + 1 <? CalcTreeWidth (nTransactions t) h' then
              let '(right_hash, st) := TraverseAndExtract t h' (pos * 2 + 1) st in
              (hash2 left_hash right_hash, if bool_decide (right_hash = left_hash) then set_bad st else st)
            else (hash2 left_hash left_hash, st)
      end
  end.

(** The root (null on failure), the matched ids, which replace those of the
    caller, and their positions, which are added to those of the caller. *)
Definition ExtractMatches (t : CPartialMerkleTree) (positions : list nat) : res (uint256 * list uint256 * list nat) :=
  let n := nTransactions t in
  if n =? 0 then Ok (uint256_null, [], positions)
  else if (MAX_BLOCK_WEIGHT / MIN_TRANSACTION_WEIGHT <? Z.of_nat n)%Z then Ok (uint256_null, [], positions)
  else if n <? length (vHash t) then Ok (uint256_null, [], positions)
  else if length (vBits t) <? length (vHash t) then Ok (uint256_null, [], positions)
  else
    nHeight ← height_loop n n 0;
    let '(hashMerkleRoot, st) := TraverseAndExtract t nHeight 0
      {| nBitsUsed := 0; nHashUsed := 0; matched := []; vnIndex := positions; bad := fBad t |} in
    if bad st then Ok (uint256_null, matched st, vnIndex st)
    else if negb ((nBitsUsed st + 7) / 8 =? (length (vBits t) + 7) / 8) then Ok (uint256_null, matched st, vnIndex st)
    else if negb (nHashUsed st =? length (vHash t)) then Ok (uint256_null, matched st, vnIndex st)
    else Ok (hashMerkleRoot, matched st, vnIndex st).

Lemma lookup_cons_S {A} (x : A) l i : (x :: l) !! S i = l !! i.
Proof using. reflexivity. Qed.

Lemma filter_nil_not {A} (f : A -> bool) l : (forall x, In x l -> f x = false) -> List.filter f l = [].
Proof using.
  induction l as [|x l IH]; intros Hf; [reflexivity|]. cbn. rewrite Hf by (left; auto). apply IH. intros y Hy. apply Hf. right; auto.
Qed.

(** ** Widths and levels *)

Lemma pow2_pos h : 0 < 2 ^ h.
Proof using. pose proof (Nat.pow_nonzero 2 h). lia. Qed.

Lemma width_lt n h pos : pos < CalcTreeWidth n h <-> pos * 2 ^ h < n.
Proof using.
  unfold CalcTreeWidth. pose proof (pow2_pos h). split; intros Hp.
  - assert (Hm : 2 ^ h * (pos + 1) <= n + 2 ^ h - 1); [|nia].
    pose proof (Nat.Div0.mul_div_le (n + 2 ^ h - 1) (2 ^ h)). nia.
  - apply Nat.lt_le_trans with (S pos); [lia|]. apply Nat.div_le_lower_bound; [lia|]. nia.
Qed.

Lemma width_0 n : CalcTreeWidth n 0 = n.
Proof using. unfold CalcTreeWidth. change (2 ^ 0) with 1. rewrite Nat.div_1_r. lia. Qed.

Lemma width_S n h : CalcTreeWidth n (S h) = (CalcTreeWidth n h + 1) / 2.
Proof using.
  assert (E : forall pos, pos < CalcTreeWidth n (S h) <-> pos < (CalcTreeWidth n h + 1) / 2).
  { intros pos. rewrite width_lt. rewrite Nat.pow_succ_r'. replace (pos * (2 * 2 ^ h)) with (pos * 2 * 2 ^ h) by lia.
    rewrite <- width_lt. split; intros Hp.
    - apply Nat.lt_le_trans with (S pos); [lia|]. apply Nat.div_le_lower_bound; lia.
    - assert (Hm : 2 * (pos + 1) <= CalcTreeWidth n h + 1); [|lia].
      pose proof (Nat.Div0.mul_div_le (CalcTreeWidth n h + 1) 2). lia. }
  destruct (Nat.lt_trichotomy (CalcTreeWidth n (S h)) ((CalcTreeWidth n h + 1) / 2)) as [Hl|[He|Hg]]; auto.
  - apply E in Hl. lia.
  - apply E in Hg. lia.
Qed.

(** The tree height is the number of levels of [ComputeMerkleRoot]. *)
Lemma height_loop_depth fuel : forall n h, depth (CalcTreeWidth n h) <= fuel ->
  height_loop fuel n h = Ok (h + depth (CalcTreeWidth n h)).
Proof using.
  induction fuel as [|fuel IH]; intros n h Hf; cbn [height_loop]; destruct (Nat.ltb_spec 1 (CalcTreeWidth n h)) as [H1|H1].
  - rewrite depth_step in Hf by lia. lia.
  - rewrite depth_small by lia. f_equal. lia.
  - rewrite depth_step in * by lia. rewrite <- width_S in *. rewrite IH by lia. f_equal. lia.
  - rewrite depth_small by lia. f_equal. lia.
Qed.

Lemma height_loop_ok n : height_loop n n 0 = Ok (depth n).
Proof using. rewrite height_loop_depth; rewrite width_0; [reflexivity|apply depth_le]. Qed.

Lemma level_lookup l i : level hash2 l !! i =
  match l !! (i * 2), l !! (i * 2 + 1) with
  | Some a, Some b => Some (hash2 a b)
  | Some a, None => Some (hash2 a a)
  | None, _ => None
  end.
Proof using.
  revert i. induction l as [|a|a b l IH] using list_ind2; intros i.
  - rewrite !lookup_nil. reflexivity.
  - destruct i as [|i]; reflexivity.
  - destruct i as [|i]; [reflexivity|]. cbn [level Nat.mul Nat.add lookup list_lookup]. rewrite IH. reflexivity.
Qed.

Lemma levels_S k : forall l, levels hash2 (S k) l = level hash2 (levels hash2 k l).
Proof using. induction k as [|k IH]; intros l; [reflexivity|]. cbn [levels] in *. rewrite IH. reflexivity. Qed.

Lemma levels_length k l : length (levels hash2 k l) = CalcTreeWidth (length l) k.
Proof using.
  induction k as [|k IH]; [rewrite width_0; reflexivity|]. rewrite levels_S, level_length, IH, width_S. reflexivity.
Qed.

(** ** Building *)

Section Block.
Context (vTxid : list uint256).
Local Notation n := (length vTxid).

(** The hash of a node, by levels. *)
Definition node (h pos : nat) : uint256 := nth pos (levels hash2 h vTxid) uint256_null.

Lemma node_lookup h pos : pos < CalcTreeWidth n h -> levels hash2 h vTxid !! pos = Some (node h pos).
Proof using.
  intros Hp. unfold node. rewrite nth_lookup. rewrite <- levels_length in Hp.
  destruct (lookup_lt_is_Some_2 _ _ Hp) as [x ->]. reflexivity.
Qed.

(** A node is the hash of its children, or of its only child twice. *)
Lemma node_S h pos : pos < CalcTreeWidth n (S h) ->
  pos * 2 < CalcTreeWidth n h /\
  node (S h) pos = hash2 (node h (pos * 2))
    (if pos * 2 + 1 <? CalcTreeWidth n h then node h (pos * 2 + 1) else node h (pos * 2)).
Proof using.
  intros Hp. assert (Hl : pos * 2 < CalcTreeWidth n h).
  { rewrite width_lt in *. rewrite Nat.pow_succ_r' in Hp. nia. }
  split; [exact Hl|]. unfold node at 1. rewrite nth_lookup, levels_S, level_lookup, (node_lookup h _ Hl).
  destruct (Nat.ltb_spec (pos * 2 + 1) (CalcTreeWidth n h)) as [Hr|Hr].
  - rewrite (node_lookup h _ Hr). reflexivity.
  - rewrite lookup_ge_None_2 by (rewrite levels_length; lia). reflexivity.
Qed.

Lemma CalcHash_node h : forall pos, pos < CalcTreeWidth n h -> CalcHash n vTxid h pos = Ok (node h pos).
Proof using.
  induction h as [|h IH]; intros pos Hp; cbn [CalcHash].
  all: destruct (Nat.eqb_spec n 0) as [E0|E0]; [rewrite width_lt in Hp; lia|]; cbn [negb assert_ mbind res_bind].
  - rewrite width_0 in Hp. pose proof (node_lookup 0 pos ltac:(rewrite width_0; exact Hp)) as Hn. cbn [levels] in Hn.
    rewrite Hn. reflexivity.
  - destruct (node_S h pos Hp) as [Hl ->]. rewrite (IH (pos * 2) Hl). cbn [mbind res_bind].
    destruct (Nat.ltb_spec (pos * 2 + 1) (CalcTreeWidth n h)) as [Hr|Hr]; [rewrite (IH _ Hr)|]; reflexivity.
Qed.

Context (vMatch : list bool).

(** The matched positions below a node. *)
Definition selected (p : nat) : bool := ((p <? n) && nth p vMatch false)%bool.
Definition below (h pos : nat) : list nat := List.filter selected (seq (pos * 2 ^ h) (2 ^ h)).

Lemma below_S h pos : below (S h) pos = below h (pos * 2) ++ below h (pos * 2 + 1).
Proof using.
  unfold below. rewrite <- List.filter_app. f_equal. rewrite Nat.pow_succ_r'.
  replace (2 * 2 ^ h) with (2 ^ h + 2 ^ h) by lia. rewrite seq_app. f_equal; f_equal; lia.
Qed.

Lemma below_outside h pos : CalcTreeWidth n h <= pos -> below h pos = [].
Proof using.
  intros Hp. unfold below. assert (Hn : n <= pos * 2 ^ h).
  { destruct (Nat.le_gt_cases n (pos * 2 ^ h)) as [|Hgt]; [auto|]. apply width_lt in Hgt. lia. }
  rewrite (filter_nil_not _ _); [reflexivity|]. intros p Hin. apply in_seq in Hin.
  unfold selected. destruct (Nat.ltb_spec p n); [lia|reflexivity].
Qed.

(** Whether a matched position is below a node. *)
Definition nonempty {A} (l : list A) : bool := match l with [] => false | _ => true end.
Definition matched_below (h pos : nat) : bool := nonempty (below h pos).

(** With a mask as long as the list of transactions, no read of it is out of bounds. *)
Lemma parent_below h pos : length vMatch = n -> parent_of_match n vMatch h pos = Ok (matched_below h pos).
Proof using.
  intros L. unfold parent_of_match, matched_below, below. rewrite <- (orb_false_l (nonempty _)). generalize false as f. generalize (pos * 2 ^ h) as from. generalize (2 ^ h) as k.
  induction k as [|k IH]; intros from f; cbn [seq parent_loop List.filter]; [rewrite orb_false_r; reflexivity|]. unfold selected at 1. destruct (Nat.ltb_spec from n) as [Lt|Ge].
  - destruct (lookup_lt_is_Some_2 vMatch from ltac:(lia)) as [b E]. rewrite E. cbn [access mbind res_bind]. rewrite IH.
    rewrite (nth_lookup_Some _ _ false _ E). cbn [andb]. destruct b; cbn; [rewrite !orb_true_r; reflexivity|rewrite orb_false_r; reflexivity].
  - cbn [andb]. rewrite (filter_nil_not selected); [cbn; rewrite orb_false_r; reflexivity|]. intros p Hp. apply in_seq in Hp. unfold selected. destruct (Nat.ltb_spec p n); [lia|reflexivity].
Qed.

(** The bits and hashes of the proof for a node. *)
Fixpoint enc (h pos : nat) : list bool * list uint256 :=
  match h with
  | O => ([matched_below 0 pos], [node 0 pos])
  | S h' =>
      if negb (matched_below h pos) then ([false], [node h pos])
      else
        let l := enc h' (pos * 2) in
        let r := if pos * 2 + 1 <? CalcTreeWidth n h' then enc h' (pos * 2 + 1) else ([], []) in
        (true :: l.1 ++ r.1, l.2 ++ r.2)
  end.

Lemma TraverseAndBuild_enc h : length vMatch = n -> forall pos acc, pos < CalcTreeWidth n h ->
  TraverseAndBuild n vTxid vMatch h pos acc = Ok (acc.1 ++ (enc h pos).1, acc.2 ++ (enc h pos).2).
Proof using.
  intros L. induction h as [|h IH]; intros pos acc Hp; cbn [TraverseAndBuild enc]; rewrite parent_below by exact L; cbn [mbind res_bind].
  - rewrite (CalcHash_node 0 pos Hp). reflexivity.
  - destruct (matched_below (S h) pos); cbn [negb].
    + destruct (node_S h pos Hp) as [Hl _]. rewrite (IH (pos * 2) _ Hl). cbn [mbind res_bind fst snd].
      destruct (Nat.ltb_spec (pos * 2 + 1) (CalcTreeWidth n h)) as [Hr|Hr].
      * rewrite IH by exact Hr. cbn [fst snd]. rewrite <- !app_assoc. reflexivity.
      * cbn [fst snd]. rewrite !app_nil_r, <- !app_assoc. reflexivity.
    + rewrite (CalcHash_node (S h) pos Hp). reflexivity.
Qed.

(** A proof holds at most one hash per leaf, and a bit per hash. *)
Lemma enc_size h : forall pos, pos < CalcTreeWidth n h ->
  length (enc h pos).2 <= Nat.min (2 ^ h) (n - pos * 2 ^ h) /\ length (enc h pos).2 <= length (enc h pos).1.
Proof using.
  induction h as [|h IH]; intros pos Hp; cbn [enc].
  - rewrite width_0 in Hp. cbn [fst snd length]. rewrite Nat.pow_0_r. lia.
  - pose proof (pow2_pos h). destruct (node_S h pos Hp) as [Hl _]. pose proof (IH _ Hl) as [I1 I2].
    pose proof (proj1 (width_lt n (S h) pos) Hp) as Hw. rewrite Nat.pow_succ_r' in *.
    destruct (negb _); cbn [fst snd length]; [lia|]. rewrite !length_app.
    destruct (Nat.ltb_spec (pos * 2 + 1) (CalcTreeWidth n h)) as [Hr|Hr].
    + pose proof (IH _ Hr) as [J1 J2]. pose proof (proj1 (width_lt n h _) Hr). lia.
    + cbn [fst snd length]. lia.
Qed.

(** ** Extracting what was built *)

(** No two sibling nodes carry the same hash. *)
Definition distinct_siblings : Prop :=
  forall h pos, pos * 2 + 1 < CalcTreeWidth n h -> node h (pos * 2) <> node h (pos * 2 + 1).

Definition found (st : extract_state) (e : list bool * list uint256) (ps : list nat) : extract_state :=
  {| nBitsUsed := nBitsUsed st + length e.1; nHashUsed := nHashUsed st + length e.2;
     matched := matched st ++ map (node 0) ps; vnIndex := vnIndex st ++ ps; bad := bad st |}.

Lemma TraverseAndExtract_enc (t : CPartialMerkleTree) h : distinct_siblings -> nTransactions t = n ->
  forall pos st, pos < CalcTreeWidth n h ->
  (forall i b, (enc h pos).1 !! i = Some b -> vBits t !! (nBitsUsed st + i) = Some b) ->
  (forall i x, (enc h pos).2 !! i = Some x -> vHash t !! (nHashUsed st + i) = Some x) ->
  TraverseAndExtract t h pos st = (node h pos, found st (enc h pos) (below h pos)).
Proof using.
  intros Hd Hn. induction h as [|h IH]; intros pos st Hp Hb Hh; cbn [TraverseAndExtract enc] in *.
  - specialize (Hb 0 _ eq_refl). rewrite Nat.add_0_r in Hb. rewrite Hb. cbn [nHashUsed use_bit].
    specialize (Hh 0 _ eq_refl). rewrite Nat.add_0_r in Hh. rewrite Hh. cbn [Nat.eqb andb].
    assert (Eb : below 0 pos = if matched_below 0 pos then [pos] else []).
    { unfold matched_below, below. cbn. rewrite Nat.mul_1_r. fold (selected pos). destruct (selected pos); reflexivity. }
    rewrite Eb. destruct (matched_below 0 pos); unfold found, push_match; cbn; rewrite ?app_nil_r, ?Nat.add_1_r; reflexivity.
  - destruct (matched_below (S h) pos) eqn:Epar; unfold matched_below in Epar; cbn [negb] in *.
    2: { specialize (Hb 0 _ eq_refl). rewrite Nat.add_0_r in Hb. rewrite Hb. cbn [nHashUsed use_bit negb].
         specialize (Hh 0 _ eq_refl). rewrite Nat.add_0_r in Hh. rewrite Hh. cbn [Nat.eqb andb].
         destruct (below (S h) pos); [|discriminate].
         unfold found; cbn; rewrite ?app_nil_r, ?Nat.add_1_r; reflexivity. }
    pose proof (Hb 0 _ eq_refl) as Hb0. rewrite Nat.add_0_r in Hb0. rewrite Hb0. cbn [negb].
    destruct (node_S h pos Hp) as [Hl Enode]. rewrite Enode, below_S, Hn. cbn [fst snd] in *.
    rewrite IH; [|exact Hl| |].
    + destruct (Nat.ltb_spec (pos * 2 + 1) (CalcTreeWidth n h)) as [Hr|Hr].
      * rewrite IH; [|exact Hr| |].
        { rewrite bool_decide_false by (intros E; apply (Hd h pos Hr); auto).
          unfold found; cbn. rewrite !length_app, map_app, <- !app_assoc. f_equal. f_equal; lia. }
        { intros i b Hi. cbn [nBitsUsed found use_bit]. rewrite <- (Hb (S (length (enc h (pos * 2)).1 + i)) b); [f_equal; lia|].
          rewrite lookup_cons_S, lookup_app_r by lia. rewrite <- Hi. f_equal. lia. }
        { intros i x Hi. cbn [nHashUsed found use_bit]. rewrite <- (Hh (length (enc h (pos * 2)).2 + i) x); [f_equal; lia|].
          rewrite lookup_app_r by lia. rewrite <- Hi. f_equal. lia. }
      * rewrite (below_outside h (pos * 2 + 1)) by lia. unfold found; cbn. rewrite !app_nil_r. f_equal. f_equal; lia.
    + intros i b Hi. cbn [nBitsUsed use_bit]. rewrite <- (Hb (S i) b); [f_equal; lia|]. rewrite lookup_cons_S, lookup_app_l; [auto|].
      apply lookup_lt_Some in Hi. exact Hi.
    + intros i x Hi. cbn [nHashUsed use_bit]. apply Hh. rewrite lookup_app_l; [auto|]. apply lookup_lt_Some in Hi. exact Hi.
Qed.

(** The finished proof, possibly with its flag bits padded. *)
Lemma ExtractMatches_enc (t : CPartialMerkleTree) (pad : list bool) (before : list nat) :
  vTxid <> [] -> (Z.of_nat n <= MAX_BLOCK_WEIGHT / MIN_TRANSACTION_WEIGHT)%Z -> distinct_siblings ->
  t = {| nTransactions := n; vBits := (enc (depth n) 0).1 ++ pad; vHash := (enc (depth n) 0).2; fBad := false |} ->
  (length ((enc (depth n) 0).1 ++ pad) + 7) / 8 = (length (enc (depth n) 0).1 + 7) / 8 ->
  ExtractMatches t before = Ok (node (depth n) 0, map (node 0) (below (depth n) 0), before ++ below (depth n) 0).
Proof using.
  intros Hne Hmax Hd Et Hpad. assert (Hn0 : 0 < n) by (destruct vTxid; [congruence|simpl; lia]).
  assert (Hw : 0 < CalcTreeWidth n (depth n)) by (apply width_lt; lia).
  destruct (enc_size (depth n) 0 Hw) as [S1 S2].
  unfold ExtractMatches. rewrite Et. cbn [nTransactions vHash vBits fBad].
  destruct (Nat.eqb_spec n 0) as [?|_]; [lia|].
  destruct (Z.ltb_spec (MAX_BLOCK_WEIGHT / MIN_TRANSACTION_WEIGHT) (Z.of_nat n)) as [?|_]; [lia|].
  destruct (Nat.ltb_spec n (length (enc (depth n) 0).2)) as [?|_]; [lia|].
  destruct (Nat.ltb_spec (length ((enc (depth n) 0).1 ++ pad)) (length (enc (depth n) 0).2)) as [Hlt|_];
    [rewrite length_app in Hlt; lia|].
  rewrite height_loop_ok. cbn [mbind res_bind]. rewrite <- Et.
  rewrite (TraverseAndExtract_enc t (depth n) Hd).
  2: rewrite Et; reflexivity.
  2: exact Hw.
  2: intros i b Hi; rewrite Et; cbn [nBitsUsed vBits]; rewrite lookup_app_l; [exact Hi|eapply lookup_lt_Some; exact Hi].
  2: intros i x Hi; rewrite Et; exact Hi.
  unfold found. cbn [bad nBitsUsed nHashUsed matched vnIndex app Nat.add].
  rewrite Hpad, !Nat.eqb_refl. reflexivity.
Qed.

(** ** Proofs from strangers *)

(** The pairs of matched id and position a traversal adds. *)
Definition sound_matches (before : list nat) (ms : list uint256) (positions : list nat) : Prop :=
  exists added, positions = before ++ added /\ Forall2 (fun m i => vTxid !! i = Some m) ms added.

Lemma extract_bad (t : CPartialMerkleTree) h : forall pos st,
  bad (TraverseAndExtract t h pos st).2 = false -> bad st = false.
Proof using.
  induction h as [|h IH]; intros pos st; cbn [TraverseAndExtract]; destruct (vBits t !! nBitsUsed st) as [f|];
    cbn [snd bad set_bad]; try discriminate.
  - destruct (vHash t !! _); cbn; [|discriminate]. destruct f; cbn; auto.
  - destruct (negb f); [destruct (vHash t !! _); cbn; [auto|discriminate]|].
    pose proof (IH (pos * 2) (use_bit st)) as H1. destruct (TraverseAndExtract t h (pos * 2) (use_bit st)) as [l s1]. cbn [snd] in *.
    destruct (_ <? _); [|cbn; exact H1].
    pose proof (IH (pos * 2 + 1) s1) as H2. destruct (TraverseAndExtract t h (pos * 2 + 1) s1) as [r s2]. cbn [snd] in *.
    destruct (bool_decide _); cbn; [discriminate|auto].
Qed.

(** What a traversal reports under the node's true hash is in the block. *)
Lemma TraverseAndExtract_sound (t : CPartialMerkleTree) before h : nTransactions t = n ->
  forall pos st r st', pos < CalcTreeWidth n h -> TraverseAndExtract t h pos st = (r, st') -> bad st' = false ->
  r = node h pos -> sound_matches before (matched st) (vnIndex st) ->
  sound_matches before (matched st') (vnIndex st') \/ collision hash2.
Proof using.
  intros Hn. induction h as [|h IH]; intros pos st r st' Hp E Hb Hr Hs; cbn [TraverseAndExtract] in E;
    destruct (vBits t !! nBitsUsed st) as [f|]; [| injection E as <- <-; discriminate | | injection E as <- <-; discriminate].
  - destruct (vHash t !! nHashUsed (use_bit st)) as [x|]; [|injection E as <- <-; discriminate].
    cbn [Nat.eqb andb] in E. injection E as Ex <-. subst x. left. destruct f; [|exact Hs].
    destruct Hs as (added & Ea & Hs). exists (added ++ [pos]). cbn. rewrite Ea, <- app_assoc. split; [reflexivity|]. apply Forall2_app; [exact Hs|]. constructor; [|constructor]. rewrite width_0 in Hp.
    rewrite Hr. apply (node_lookup 0). rewrite width_0. exact Hp.
  - destruct (negb f).
    { destruct (vHash t !! nHashUsed (use_bit st)) as [x|]; [|injection E as <- <-; discriminate].
      cbn [Nat.eqb andb] in E. injection E as _ <-. left. exact Hs. }
    destruct (node_S h pos Hp) as [Hl Enode].
    destruct (TraverseAndExtract t h (pos * 2) (use_bit st)) as [l s1] eqn:E1. rewrite Hn in E.
    destruct (Nat.ltb_spec (pos * 2 + 1) (CalcTreeWidth n h)) as [Hr'|Hr'].
    + destruct (TraverseAndExtract t h (pos * 2 + 1) s1) as [x s2] eqn:E2. injection E as Er Es.
      rewrite <- Er, Enode in Hr. destruct (hash2_inj hash2 _ _ _ _ Hr) as [[El Ex]|]; [|auto].
      assert (Hb2 : bad s2 = false) by (subst st'; destruct (bool_decide _); [discriminate|exact Hb]).
      assert (Est : st' = s2) by (subst st'; destruct (bool_decide _); [discriminate|reflexivity]).
      assert (Hb1 : bad s1 = false) by (apply (extract_bad t h (pos * 2 + 1)); rewrite E2; exact Hb2).
      destruct (IH (pos * 2) (use_bit st) l s1 Hl E1 Hb1 El Hs) as [H1|]; [|auto].
      rewrite Est. apply (IH (pos * 2 + 1) s1 x s2 Hr' E2 Hb2 Ex H1).
    + injection E as Er Es. subst s1. rewrite <- Er, Enode in Hr.
      destruct (hash2_inj hash2 _ _ _ _ Hr) as [[El _]|]; [|auto].
      apply (IH (pos * 2) (use_bit st) l st' Hl E1 Hb El Hs).
Qed.
End Block.

(** The root of the levels is the block's Merkle root. *)
Lemma node_root vTxid : vTxid <> [] ->
  ComputeMerkleRoot hash2 vTxid = Ok (node vTxid (depth (length vTxid)) 0, mutated hash2 (depth (length vTxid)) vTxid).
Proof using.
  intros Hne. destruct (ComputeMerkleRoot_levels hash2 vTxid Hne) as (r & E & L). rewrite E. unfold node. rewrite L. reflexivity.
Qed.

Lemma below_root vTxid vMatch : vTxid <> [] ->
  below vTxid vMatch (depth (length vTxid)) 0 = List.filter (fun p => nth p vMatch false) (seq 0 (length vTxid)).
Proof using hash2.
  intros Hne. set (n := length vTxid).
  assert (Hn : n <= 2 ^ depth n).
  { assert (Hw : CalcTreeWidth n (depth n) = 1).
    { destruct (ComputeMerkleRoot_levels hash2 vTxid Hne) as (r & _ & L). unfold n. rewrite <- (levels_length), L. reflexivity. }
    destruct (Nat.le_gt_cases n (2 ^ depth n)) as [|Hgt]; [auto|].
    assert (1 < CalcTreeWidth n (depth n)) by (apply width_lt; lia). lia. }
  unfold below. fold n. rewrite Nat.mul_0_l. replace (2 ^ depth n) with (n + (2 ^ depth n - n)) by lia.
  rewrite seq_app, List.filter_app, (filter_nil_not _ (seq (0 + n) _)), app_nil_r.
  - apply filter_ext_in. intros p Hp. apply in_seq in Hp. unfold selected. fold n. destruct (Nat.ltb_spec p n); [reflexivity|lia].
  - intros p Hp. apply in_seq in Hp. unfold selected. fold n. destruct (Nat.ltb_spec p n); [lia|reflexivity].
Qed.

(** *** Merkle blocks *)

(** The transactions, and the bloom filter with its update
    ([common/bloom.h]), are parameters. *)
Context {CTransaction CBloomFilter : Type} (GetHash : CTransaction -> uint256)
  (IsRelevantAndUpdate : CBloomFilter -> CTransaction -> bool * CBloomFilter).

(** The loop of the constructor: [vMatch], [vMatchedTxn] and the filter. *)
Fixpoint match_loop (vtx : list CTransaction) (i : nat) (filter : option CBloomFilter) (txids : option (list uint256))
    : list bool * list (nat * uint256) * option CBloomFilter :=
  match vtx with
  | [] => ([], [], filter)
  | tx :: rest =>
      let hash := GetHash tx in
      if match txids with Some s => bool_decide (hash ∈ s) | None => false end then
        let '(vMatch, vMatchedTxn, f) := match_loop rest (S i) filter txids in (true :: vMatch, vMatchedTxn, f)
      else
        let '(relevant, filter) :=
          match filter with
          | Some f => let '(b, f') := IsRelevantAndUpdate f tx in (b, Some f')
          | None => (false, None)
          end in
        let '(vMatch, vMatchedTxn, f) := match_loop rest (S i) filter txids in
        if relevant then (true :: vMatch, (i, hash) :: vMatchedTxn, f) else (false :: vMatch, vMatchedTxn, f)
  end.

(** The tree, the transactions matched by the filter, and the filter. *)
Definition MerkleBlock (vtx : list CTransaction) (filter : option CBloomFilter) (txids : option (list uint256))
    : res (CPartialMerkleTree * list (nat * uint256) * option CBloomFilter) :=
  let '(vMatch, vMatchedTxn, f) := match_loop vtx 0 filter txids in
  txn ← PartialMerkleTree (map GetHash vtx) vMatch;
  Ok (txn, vMatchedTxn, f).
End Tree.

(** ** Properties *)

(** C30. A partial Merkle tree proves what it was built from: the constructor
    succeeds for every block of 1 to MAX_BLOCK_WEIGHT / MIN_TRANSACTION_WEIGHT
    transactions whose sibling nodes differ, with a mask of the same length, and
    after the flag bits have been packed into bytes and unpacked again (which
    pads them) [ExtractMatches] accepts it and returns the root that
    [ComputeMerkleRoot] computes, the selected transaction ids in order, and
    their positions after those that the caller had. *)
Theorem partial_merkle_roundtrip (hash2 : uint256 -> uint256 -> uint256) (vTxid : list uint256) (vMatch : list bool) (before : list nat) :
  vTxid <> [] -> length vMatch = length vTxid -> (Z.of_nat (length vTxid) <= MAX_BLOCK_WEIGHT / MIN_TRANSACTION_WEIGHT)%Z ->
  distinct_siblings hash2 vTxid ->
  exists t root flag, PartialMerkleTree hash2 vTxid vMatch = Ok t /\ ComputeMerkleRoot hash2 vTxid = Ok (root, flag) /\
    let positions := List.filter (fun p => nth p vMatch false) (seq 0 (length vTxid)) in
    ExtractMatches hash2 {| nTransactions := nTransactions t; vBits := BytesToBits (BitsToBytes (vBits t));
                            vHash := vHash t; fBad := false |} before =
      Ok (root, map (fun p => nth p vTxid uint256_null) positions, before ++ positions).
Proof.
  intros Hne Hlen Hmax Hd. set (n := length vTxid) in *. set (e := enc hash2 vTxid vMatch (depth n) 0).
  assert (Hw : 0 < CalcTreeWidth n (depth n)) by (apply width_lt; destruct vTxid; [congruence|cbn; lia]).
  exists {| nTransactions := n; vBits := e.1; vHash := e.2; fBad := false |}, (node hash2 vTxid (depth n) 0), (mutated hash2 (depth n) vTxid).
  split; [|split; [apply node_root; auto|]].
  - unfold PartialMerkleTree. rewrite height_loop_ok. cbn [mbind res_bind]. subst e n.
    rewrite (TraverseAndBuild_enc hash2 vTxid vMatch _ Hlen 0 ([], []) Hw). reflexivity.
  - cbn [nTransactions vBits vHash]. rewrite bits_roundtrip.
    erewrite (ExtractMatches_enc hash2 vTxid vMatch) with (pad := repeat false (8 * ((length e.1 + 7) / 8) - length e.1));
      [|auto|auto|auto|reflexivity|].
    + rewrite (below_root hash2) by auto. reflexivity.
    + fold n. fold e. rewrite length_app, repeat_length.
      pose proof (Nat.div_mod_eq (length e.1 + 7) 8). pose proof (Nat.mod_upper_bound (length e.1 + 7) 8 ltac:(lia)).
      replace (length e.1 + (8 * ((length e.1 + 7) / 8) - length e.1) + 7) with (7 + (length e.1 + 7) / 8 * 8) by lia.
      rewrite Nat.div_add by lia. reflexivity.
Qed.

(** C31. Nobody can prove a transaction into a block: whatever bits and hashes
    arrive, if [ExtractMatches] returns the Merkle root of a block with the
    stated number of transactions (and that root is not the null hash, which
    stands for failure), then every returned id is the block's transaction at
    the position that was added for it to those of the caller, or the bits and
    hashes exhibit a collision of the hash. *)
Theorem ExtractMatches_sound (hash2 : uint256 -> uint256 -> uint256) (t : CPartialMerkleTree) (vTxid : list uint256)
    (root : uint256) (flag : bool) (ids : list uint256) (before positions : list nat) :
  nTransactions t = length vTxid -> ComputeMerkleRoot hash2 vTxid = Ok (root, flag) -> root <> uint256_null ->
  ExtractMatches hash2 t before = Ok (root, ids, positions) ->
  (exists added, positions = before ++ added /\ Forall2 (fun id p => vTxid !! p = Some id) ids added) \/ collision hash2.
Proof.
  intros Hn Hroot Hnz E.
  assert (Hne : vTxid <> []) by (intros ->; injection Hroot as Er _; apply Hnz; rewrite <- Er; reflexivity).
  rewrite (node_root hash2 vTxid Hne) in Hroot. injection Hroot as <- _.
  unfold ExtractMatches in E. repeat match type of E with (if ?c then _ else _) = _ => destruct c; [congruence|] end.
  rewrite height_loop_ok in E. cbn [mbind res_bind] in E.
  destruct (TraverseAndExtract hash2 t (depth (nTransactions t)) 0 _) as [r st] eqn:Et.
  destruct (bad st) eqn:Eb; [congruence|]. repeat match type of E with (if ?c then _ else _) = _ => destruct c; [congruence|] end.
  injection E as -> <- <-. rewrite Hn in Et.
  eapply (TraverseAndExtract_sound hash2 vTxid t before _ Hn 0 _ _ st); [|exact Et|exact Eb|reflexivity|exists []; split; [symmetry; apply app_nil_r|constructor]].
  apply width_lt. destruct vTxid; [congruence|cbn; lia].
Qed.

(** Three transactions, the second of them selected. *)
Definition sample_txids : list uint256 := [[1]; [2]; [3]]%Z.

Lemma sample_distinct_siblings : distinct_siblings sample_hash2 sample_txids.
Proof.
  intros h pos Hp. apply width_lt in Hp. simpl length in Hp.
  assert (h < 2) by (destruct (Nat.lt_ge_cases h 2) as [|Hge]; [auto|]; pose proof (Nat.pow_le_mono_r 2 2 h ltac:(lia) Hge); simpl in *; nia).
  destruct h as [|[|h]]; [| |lia]; destruct pos as [|pos]; cbn in Hp; try lia; vm_compute; discriminate.
Qed.

Lemma partial_merkle_roundtrip_witness :
  exists t root flag, PartialMerkleTree sample_hash2 sample_txids [false; true; false] = Ok t /\
    ComputeMerkleRoot sample_hash2 sample_txids = Ok (root, flag) /\
    ExtractMatches sample_hash2 {| nTransactions := nTransactions t; vBits := BytesToBits (BitsToBytes (vBits t));
                                   vHash := vHash t; fBad := false |} [7] = Ok (root, [[2%Z]], [7; 1]).
Proof.
  apply (partial_merkle_roundtrip sample_hash2 sample_txids [false; true; false] [7]);
    [discriminate|reflexivity|vm_compute; discriminate|exact sample_distinct_siblings].
Defined.

Lemma ExtractMatches_sound_witness :
  (exists added, [7; 1] = [7] ++ added /\ Forall2 (fun id p => sample_txids !! p = Some id) [[2%Z]] added) \/ collision sample_hash2.
Proof.
  apply (ExtractMatches_sound sample_hash2
    {| nTransactions := 3; vBits := [true; true; false; true; false]; vHash := [[1]; [2]; [0; 3; 3]]%Z; fBad := false |}
    sample_txids [0; 0; 1; 2; 0; 3; 3]%Z false [[2%Z]] [7] [7; 1]); first [reflexivity | discriminate].
Defined.
