(* ===== verification/Streams.v ===== *)
(** * Byte streams

    Models [DataStream] of [src/streams.h] and the interface that the
    serialisation templates ask of a stream: the class [Stream], with the laws
    [StreamLaws] that the templates' theorems are proved from and that
    [DataStream] satisfies.  A small program logic, [Writes] and [Reads], says
    what a serialiser appends and what a deserialiser consumes. *)

From stdpp Require Import base numbers list strings.
From Stdlib Require Import ZArith Lia.
From S2P Require Import Prelude.

Local Open Scope nat_scope.

(** ** The interface *)

Class Stream (S : Type) : Type := {
  stream_read : nat -> stm S bytes;
  stream_ignore : nat -> stm S unit;
  stream_write : bytes -> stm S unit;
  remaining : S -> bytes;
  stream_ok : S -> Prop;
}.

Class StreamLaws (S : Type) `{Stream S} : Prop := {
  read_law : forall n s, stream_ok s -> n <= length (remaining s) -> exists s',
    stream_read n s = (Ok (take n (remaining s)), s') /\ remaining s' = drop n (remaining s) /\ stream_ok s';
  read_short : forall n s, stream_ok s -> length (remaining s) < n -> exists what,
    stream_read n s = (Fail (Thrown what), s);
  ignore_law : forall n s, stream_ok s -> n <= length (remaining s) -> exists s',
    stream_ignore n s = (Ok tt, s') /\ remaining s' = drop n (remaining s) /\ stream_ok s';
  write_law : forall bs s, stream_ok s -> exists s',
    stream_write bs s = (Ok tt, s') /\ remaining s' = remaining s ++ bs /\ stream_ok s';
}.

(** ** [DataStream] *)

Record DataStream : Type := { vch : bytes; m_read_pos : nat }.

(** The destination's size and the position add up to less than [2^64] whenever
    they do not exceed the vector's size, so the [CheckedAdd] of the source
    fails only where the comparison does. *)
Definition DataStream_read (n : nat) : stm DataStream bytes := fun d =>
  if n =? 0 then (Ok [], d)
  else
    let next_read_pos := m_read_pos d + n in
    if length (vch d) <? next_read_pos then (Fail (Thrown "DataStream::read(): end of data"), d)
    else
      let dst := take n (drop (m_read_pos d) (vch d)) in
      if next_read_pos =? length (vch d) then (Ok dst, {| vch := []; m_read_pos := 0 |})
      else (Ok dst, {| vch := vch d; m_read_pos := next_read_pos |}).

Definition DataStream_ignore (num_ignore : nat) : stm DataStream unit := fun d =>
  let next_read_pos := m_read_pos d + num_ignore in
  if length (vch d) <? next_read_pos then (Fail (Thrown "DataStream::ignore(): end of data"), d)
  else if next_read_pos =? length (vch d) then (Ok tt, {| vch := []; m_read_pos := 0 |})
  else (Ok tt, {| vch := vch d; m_read_pos := next_read_pos |}).

Definition DataStream_write (src : bytes) : stm DataStream unit := fun d =>
  (Ok tt, {| vch := vch d ++ src; m_read_pos := m_read_pos d |}).

Definition DataStream_size (d : DataStream) : nat := length (vch d) - m_read_pos d.
Definition DataStream_empty (d : DataStream) : bool := length (vch d) =? m_read_pos d.
Definition DataStream_clear (d : DataStream) : DataStream := {| vch := []; m_read_pos := 0 |}.
Definition DataStream_eof (d : DataStream) : bool := DataStream_size d =? 0.

Definition Compact (d : DataStream) : DataStream := {| vch := drop (m_read_pos d) (vch d); m_read_pos := 0 |}.

Definition Rewind (n : option nat) (d : DataStream) : bool * DataStream :=
  match n with
  | None => (true, {| vch := vch d; m_read_pos := 0 |})
  | Some n =>
      if m_read_pos d <? n then (false, d)
      else (true, {| vch := vch d; m_read_pos := m_read_pos d - n |})
  end.

#[global] Instance DataStream_stream : Stream DataStream := {|
  stream_read := DataStream_read;
  stream_ignore := DataStream_ignore;
  stream_write := DataStream_write;
  remaining := fun d => drop (m_read_pos d) (vch d);
  stream_ok := fun d => m_read_pos d <= length (vch d);
|}.

#[global] Instance DataStream_laws : StreamLaws DataStream.
Proof.
  split; intros n [v p] Hok; cbn in *; [intros Hn|intros Hn|intros Hn|]; rewrite ?length_drop in *.
  - unfold DataStream_read. cbn [vch m_read_pos]. destruct (Nat.eqb_spec n 0) as [->|Hn0].
    { eexists. split; [reflexivity|]. cbn. auto. }
    destruct (Nat.ltb_spec (length v) (p + n)); [lia|].
    destruct (Nat.eqb_spec (p + n) (length v)) as [E|E]; eexists; (split; [reflexivity|]); cbn.
    + split; [|lia]. rewrite drop_drop, E, drop_all. reflexivity.
    + split; [|lia]. rewrite drop_drop. reflexivity.
  - unfold DataStream_read. cbn [vch m_read_pos]. destruct (Nat.eqb_spec n 0); [lia|]. destruct (Nat.ltb_spec (length v) (p + n)); [|lia].
    eexists. reflexivity.
  - unfold DataStream_ignore. cbn [vch m_read_pos]. destruct (Nat.ltb_spec (length v) (p + n)); [lia|].
    destruct (Nat.eqb_spec (p + n) (length v)) as [E|E]; eexists; (split; [reflexivity|]); cbn.
    + split; [|lia]. rewrite drop_drop, E, drop_all. reflexivity.
    + split; [|lia]. rewrite drop_drop. reflexivity.
  - eexists. split; [reflexivity|]. cbn. rewrite length_app, drop_app_le by lia. split; [reflexivity|lia].
Qed.

(** ** The logic of serialisers *)

Section Logic.
Context {S : Type} `{StreamLaws S}.

(** [m] appends [bs]. *)
Definition Writes {A} (m : stm S A) (bs : bytes) (a : A) : Prop :=
  forall s, stream_ok s -> exists s', m s = (Ok a, s') /\ remaining s' = remaining s ++ bs /\ stream_ok s'.

(** [m] consumes [bs] and returns [a], whatever follows. *)
Definition Reads {A} (m : stm S A) (bs : bytes) (a : A) : Prop :=
  forall s rest, stream_ok s -> remaining s = bs ++ rest ->
    exists s', m s = (Ok a, s') /\ remaining s' = rest /\ stream_ok s'.

(** [m] throws at the front [bs]. *)
Definition Throws {A} (m : stm S A) (bs : bytes) : Prop :=
  forall s rest, stream_ok s -> remaining s = bs ++ rest -> exists what s', m s = (Fail (Thrown what), s').

(** What a successful run of [m] on a stream of bytes has consumed satisfies [P]. *)
Definition Parses {A} (m : stm S A) (P : bytes -> A -> Prop) : Prop :=
  forall s a s', stream_ok s -> Forall (in_u 8) (remaining s) -> m s = (Ok a, s') ->
    exists bs, remaining s = bs ++ remaining s' /\ P bs a /\ stream_ok s'.

Lemma Writes_ret {A} (a : A) : Writes (mret a) [] a.
Proof using. intros s Hs. exists s. rewrite app_nil_r. auto. Qed.

Lemma Writes_write bs : Writes (stream_write bs) bs tt.
Proof using H0. intros s Hs. destruct (write_law bs s Hs) as (s' & ? & ? & ?). eauto. Qed.

Lemma Writes_bind {A B} (m : stm S A) (f : A -> stm S B) bs1 bs2 a b :
  Writes m bs1 a -> Writes (f a) bs2 b -> Writes (m ≫= f) (bs1 ++ bs2) b.
Proof using.
  intros H1 H2 s Hs. destruct (H1 s Hs) as (s1 & E1 & R1 & O1). destruct (H2 s1 O1) as (s2 & E2 & R2 & O2).
  exists s2. unfold mbind, stm_bind. rewrite E1, E2, R2, R1, <- app_assoc. auto.
Qed.

Lemma Reads_ret {A} (a : A) : Reads (mret a) [] a.
Proof using. intros s rest Hs E. exists s. auto. Qed.

Lemma Reads_read bs : Reads (stream_read (length bs)) bs bs.
Proof using H0.
  intros s rest Hs E. destruct (read_law (length bs) s Hs) as (s' & E1 & R1 & O1); [rewrite E, length_app; lia|].
  exists s'. rewrite E1, R1, E, take_app_length, drop_app_length. auto.
Qed.

Lemma Reads_bind {A B} (m : stm S A) (f : A -> stm S B) bs1 bs2 a b :
  Reads m bs1 a -> Reads (f a) bs2 b -> Reads (m ≫= f) (bs1 ++ bs2) b.
Proof using.
  intros H1 H2 s rest Hs E. rewrite <- app_assoc in E. destruct (H1 s _ Hs E) as (s1 & E1 & R1 & O1).
  destruct (H2 s1 rest O1 R1) as (s2 & E2 & R2 & O2). exists s2. unfold mbind, stm_bind. rewrite E1, E2. auto.
Qed.

Lemma Throws_bind {A B} (m : stm S A) (f : A -> stm S B) bs1 bs2 a :
  Reads m bs1 a -> Throws (f a) bs2 -> Throws (m ≫= f) (bs1 ++ bs2).
Proof using.
  intros H1 H2 s rest Hs E. rewrite <- app_assoc in E. destruct (H1 s _ Hs E) as (s1 & E1 & R1 & O1).
  destruct (H2 s1 rest O1 R1) as (what & s2 & E2). exists what, s2. unfold mbind, stm_bind. rewrite E1, E2. auto.
Qed.

Lemma Parses_read n : Parses (stream_read n) (fun bs a => a = bs /\ length bs = n /\ Forall (in_u 8) bs).
Proof using H0.
  intros s a s' Hs Hb E. destruct (decide (n <= length (remaining s))) as [Hn|Hn].
  - destruct (read_law n s Hs Hn) as (s1 & E1 & R1 & O1). rewrite E1 in E. injection E as <- <-.
    exists (take n (remaining s)). rewrite R1, take_drop, length_take. repeat split; auto; [lia|].
    apply Forall_take. exact Hb.
  - destruct (read_short n s Hs ltac:(lia)) as [what E1]. rewrite E1 in E. discriminate.
Qed.

Lemma Parses_ret {A} (a : A) : Parses (mret a) (fun bs x => bs = [] /\ x = a).
Proof using. intros s x s' Hs Hb E. injection E as <- <-. exists []. auto. Qed.

Lemma Parses_fail {A} e (P : bytes -> A -> Prop) : Parses (fail_st e) P.
Proof using. intros s x s' Hs Hb E. discriminate. Qed.

Lemma Parses_impl {A} (m : stm S A) (P Q : bytes -> A -> Prop) :
  Parses m P -> (forall bs a, P bs a -> Q bs a) -> Parses m Q.
Proof using. intros HP HQ s a s' Hs Hb E. destruct (HP s a s' Hs Hb E) as (bs & R & Hp & O). exists bs. auto. Qed.

Lemma Parses_bind {A B} (m : stm S A) (f : A -> stm S B) P (Q : A -> bytes -> B -> Prop) :
  Parses m P -> (forall a bs, P bs a -> Parses (f a) (Q a)) ->
  Parses (m ≫= f) (fun bs b => exists bs1 bs2 a, bs = bs1 ++ bs2 /\ P bs1 a /\ Q a bs2 b).
Proof using.
  intros H1 H2 s b s' Hs Hb E. unfold mbind, stm_bind in E. destruct (m s) as [[a|e] s1] eqn:E1; [|discriminate].
  destruct (H1 s a s1 Hs Hb E1) as (bs1 & R1 & P1 & O1).
  assert (Hb1 : Forall (in_u 8) (remaining s1)) by (rewrite R1 in Hb; apply Forall_app in Hb as [_ Hb]; exact Hb).
  destruct (H2 a bs1 P1 s1 b s' O1 Hb1 E) as (bs2 & R2 & Q2 & O2).
  exists (bs1 ++ bs2). rewrite R1, R2, app_assoc. split; [reflexivity|]. split; [|auto]. exists bs1, bs2, a. auto.
Qed.
End Logic.

(** [DataStream] is a byte queue: whatever has been read, written, ignored
    or compacted, [read] returns the next unread bytes and throws, changing
    nothing, exactly when there are not enough; [write] appends after the
    unread bytes; [Compact] keeps the unread bytes and [Rewind] by at most the
    bytes read since brings them back. *)
Theorem DataStream_queue (d : DataStream) (n : nat) (bs : bytes) : stream_ok d ->
  (n <= length (remaining d) -> exists d', DataStream_read n d = (Ok (take n (remaining d)), d') /\
     remaining d' = drop n (remaining d) /\ stream_ok d') /\
  (length (remaining d) < n -> exists what, DataStream_read n d = (Fail (Thrown what), d)) /\
  (exists d', DataStream_write bs d = (Ok tt, d') /\ remaining d' = remaining d ++ bs /\ stream_ok d') /\
  remaining (Compact d) = remaining d /\ DataStream_size d = length (remaining d) /\
  (n <= m_read_pos d -> exists d', Rewind (Some n) d = (true, d') /\
     remaining d' = drop (m_read_pos d - n) (vch d) /\ drop n (remaining d') = remaining d /\ stream_ok d').
Proof.
  intros Hd. split; [apply (read_law n d Hd)|]. split; [apply (read_short n d Hd)|]. split; [apply (write_law bs d Hd)|].
  split; [reflexivity|]. split; [unfold DataStream_size; cbn; rewrite length_drop; reflexivity|].
  intros Hn. unfold Rewind. destruct (Nat.ltb_spec (m_read_pos d) n); [lia|].
  eexists. split; [reflexivity|]. cbn in *. split; [reflexivity|]. split; [|lia].
  rewrite drop_drop. f_equal. lia.
Qed.

Lemma DataStream_queue_witness :
  exists d', DataStream_read 2 {| vch := [1; 2; 3]%Z; m_read_pos := 1 |} = (Ok [2; 3]%Z, d') /\
    remaining d' = [] /\ stream_ok d'.
Proof.
  destruct (DataStream_queue {| vch := [1; 2; 3]%Z; m_read_pos := 1 |} 2 []) as (H & _); [cbn; lia|].
  apply H. cbn. lia.
Defined.
