(* ===== verification/Serialize.v ===== *)
(** * Serialisation

    Models the templates of [src/serialize.h] over any [Stream]: fixed-width
    integers, CompactSize, VarInt, and byte and element vectors.  Every format
    is proved to read back what it writes, and the two variable-length integer
    formats to have one encoding per number. *)

From stdpp Require Import base numbers list strings.
From Stdlib Require Import ZArith Lia.
From S2P Require Import Prelude Streams.

Local Open Scope Z_scope.

Definition MAX_SIZE : Z := 0x02000000.
Definition MAX_VECTOR_ALLOCATE : Z := 5000000.

Section Templates.
Context {S : Type} `{Stream S}.

(** ** Fixed-width integers *)

Definition ser_writedata8 (obj : Z) : stm S unit := stream_write (le_digits 8 1 obj).
Definition ser_writedata16 (obj : Z) : stm S unit := stream_write (le_digits 8 2 obj).
Definition ser_writedata32 (obj : Z) : stm S unit := stream_write (le_digits 8 4 obj).
Definition ser_writedata64 (obj : Z) : stm S unit := stream_write (le_digits 8 8 obj).
Definition ser_writedata16be (obj : Z) : stm S unit := stream_write (rev (le_digits 8 2 obj)).
Definition ser_writedata32be (obj : Z) : stm S unit := stream_write (rev (le_digits 8 4 obj)).

Definition ser_readdata8 : stm S Z := b ← stream_read 1; mret (le_val 8 b).
Definition ser_readdata16 : stm S Z := b ← stream_read 2; mret (le_val 8 b).
Definition ser_readdata32 : stm S Z := b ← stream_read 4; mret (le_val 8 b).
Definition ser_readdata64 : stm S Z := b ← stream_read 8; mret (le_val 8 b).
Definition ser_readdata16be : stm S Z := b ← stream_read 2; mret (le_val 8 (rev b)).
Definition ser_readdata32be : stm S Z := b ← stream_read 4; mret (le_val 8 (rev b)).

(** ** CompactSize *)

Definition GetSizeOfCompactSize (nSize : Z) : Z :=
  if nSize <? 253 then 1
  else if nSize <=? 65535 then 1 + 2
  else if nSize <=? 4294967295 then 1 + 4
  else 1 + 8.

Definition WriteCompactSize (nSize : Z) : stm S unit :=
  if nSize <? 253 then ser_writedata8 nSize
  else if nSize <=? 65535 then _ ← ser_writedata8 253; ser_writedata16 nSize
  else if nSize <=? 4294967295 then _ ← ser_writedata8 254; ser_writedata32 nSize
  else _ ← ser_writedata8 255; ser_writedata64 nSize.

Definition ReadCompactSize (range_check : bool) : stm S Z :=
  chSize ← ser_readdata8;
  nSizeRet ←
    (if chSize <? 253 then mret chSize
     else if chSize =? 253 then
       n ← ser_readdata16;
       if n <? 253 then fail_st (Thrown "non-canonical ReadCompactSize()") else mret n
     else if chSize =? 254 then
       n ← ser_readdata32;
       if n <? 0x10000 then fail_st (Thrown "non-canonical ReadCompactSize()") else mret n
     else
       n ← ser_readdata64;
       if n <? 0x100000000 then fail_st (Thrown "non-canonical ReadCompactSize()") else mret n);
  if (range_check && (nSizeRet >? MAX_SIZE))%bool then fail_st (Thrown "ReadCompactSize(): size too large")
  else mret nSizeRet.

(** ** VarInt over a [w]-bit unsigned type *)

(** The loop that fills [tmp]: the digits, least significant first.  [room] is
    what is left of the array of [(w + 6) / 7] bytes. *)
Fixpoint varint_digits (room : nat) (n : Z) (more : bool) : res bytes :=
  match room with
  | O => Fail BadAccess
  | Datatypes.S room' =>
      let b := Z.lor (Z.land n 127) (if more then 128 else 0) in
      if n <=? 127 then Ok [b]
      else rest ← varint_digits room' (Z.shiftr n 7 - 1) true; Ok (b :: rest)
  end.

(** The bytes are written from the last one down. *)
Fixpoint write_each (bs : bytes) : stm S unit :=
  match bs with
  | [] => mret tt
  | b :: rest => _ ← ser_writedata8 b; write_each rest
  end.

Definition WriteVarInt (w n : Z) : stm S unit :=
  tmp ← lift_st (varint_digits (Z.to_nat ((w + 6) / 7)) n false);
  write_each (rev tmp).

(** [GetSizeOfVarInt]. *)
Fixpoint GetSizeOfVarInt (fuel : nat) (n : Z) : res Z :=
  if n <=? 127 then Ok 1
  else match fuel with
  | O => Fail OutOfFuel
  | Datatypes.S fuel' => r ← GetSizeOfVarInt fuel' (Z.shiftr n 7 - 1); Ok (r + 1)
  end.

(** The loop of [ReadVarInt]; every round reads a byte, and the number of
    rounds is bounded because [n] at least doubles. *)
Fixpoint varint_read_loop (fuel : nat) (w n : Z) : stm S Z :=
  chData ← ser_readdata8;
  if n >? Z.shiftr (2 ^ w - 1) 7 then fail_st (Thrown "ReadVarInt(): size too large")
  else
    let n := Z.lor (uwrap w (Z.shiftl n 7)) (Z.land chData 127) in
    if negb (Z.land chData 128 =? 0) then
      if n =? 2 ^ w - 1 then fail_st (Thrown "ReadVarInt(): size too large")
      else match fuel with
      | O => fail_st OutOfFuel
      | Datatypes.S fuel' => varint_read_loop fuel' w (n + 1)
      end
    else mret n.

Definition ReadVarInt (w : Z) : stm S Z := varint_read_loop (Z.to_nat ((w + 6) / 7)) w 0.

(** ** Vectors *)

(** [VectorFormatter] over the element formatter [ser] / [unser]. *)
Context {A : Type} (ser : A -> stm S unit) (unser : stm S A) (sizeof : Z).

Fixpoint ser_each (v : list A) : stm S unit :=
  match v with
  | [] => mret tt
  | x :: rest => _ ← ser x; ser_each rest
  end.

Definition VectorFormatter_Ser (v : list A) : stm S unit :=
  _ ← WriteCompactSize (Z.of_nat (length v)); ser_each v.

(** [while (v.size() < allocated) { v.emplace_back(); formatter.Unser(s, v.back()); }] *)
Fixpoint unser_batch (n : nat) (v : list A) : stm S (list A) :=
  match n with
  | O => mret v
  | Datatypes.S n' => x ← unser; unser_batch n' (v ++ [x])
  end.

(** [while (allocated < size)]: batches of at most 5 MB. *)
Fixpoint unser_loop (fuel : nat) (size allocated : nat) (v : list A) : stm S (list A) :=
  if (allocated <? size)%nat then
    match fuel with
    | O => fail_st OutOfFuel
    | Datatypes.S fuel' =>
        let allocated := Nat.min size (allocated + Z.to_nat (MAX_VECTOR_ALLOCATE / sizeof)) in
        v ← unser_batch (allocated - length v) v;
        unser_loop fuel' size allocated v
    end
  else mret v.

Definition VectorFormatter_Unser : stm S (list A) :=
  size ← ReadCompactSize true;
  unser_loop (Z.to_nat size) (Z.to_nat size) 0 [].

(** *** Byte vectors *)

Definition bytes_Serialize (v : bytes) : stm S unit :=
  _ ← WriteCompactSize (Z.of_nat (length v));
  match v with [] => mret tt | _ => stream_write v end.

(** Blocks of at most 5,000,000 bytes. *)
Fixpoint read_blocks (fuel : nat) (nSize i : nat) (v : bytes) : stm S bytes :=
  if (i <? nSize)%nat then
    match fuel with
    | O => fail_st OutOfFuel
    | Datatypes.S fuel' =>
        let blk := Nat.min (nSize - i) (Z.to_nat (1 + 4999999)) in
        b ← stream_read blk;
        read_blocks fuel' nSize (i + blk) (v ++ b)
    end
  else mret v.

Definition bytes_Unserialize : stm S bytes :=
  nSize ← ReadCompactSize true;
  read_blocks (Z.to_nat nSize) (Z.to_nat nSize) 0 [].

(** *** [CustomUintFormatter<Bytes, BigEndian>] *)

Definition CustomUint_Ser (n : nat) (big_endian : bool) (v : Z) : stm S unit :=
  if ((v <? 0) || (v >? 2 ^ (8 * Z.of_nat n) - 1))%bool
  then fail_st (Thrown "CustomUintFormatter value out of range")
  else stream_write (if big_endian then rev (le_digits 8 n v) else le_digits 8 n v).

Definition CustomUint_Unser (n : nat) (big_endian : bool) : stm S Z :=
  b ← stream_read n; mret (le_val 8 (if big_endian then rev b else b)).

(** *** [LimitedStringFormatter<Limit>] *)

Definition LimitedString_Unser (limit : Z) : stm S bytes :=
  size ← ReadCompactSize true;
  if size >? limit then fail_st (Thrown "String length limit exceeded")
  else if size =? 0 then mret [] else stream_read (Z.to_nat size).
End Templates.

(** ** Fixed-width integers read back *)

Section Laws.
Context {S : Type} `{StreamLaws S}.

Lemma le_val_digits_small n x : in_u (8 * Z.of_nat n) x -> le_val 8 (le_digits 8 n x) = x.
Proof using. intros Hx. rewrite le_val_digits by lia. apply Z.mod_small. exact Hx. Qed.

Lemma Reads_digits n x : in_u (8 * Z.of_nat n) x ->
  Reads (S := S) (b ← stream_read n; mret (le_val 8 b)) (le_digits 8 n x) x.
Proof using H0.
  intros Hx. rewrite <- (app_nil_r (le_digits 8 n x)). eapply Reads_bind.
  - pose proof (Reads_read (S := S) (le_digits 8 n x)) as R. rewrite le_digits_length in R. exact R.
  - rewrite le_val_digits_small by auto. apply Reads_ret.
Qed.

Lemma Reads_8 x : in_u 8 x -> Reads (S := S) ser_readdata8 [x] x.
Proof using H0. intros Hx. pose proof (Reads_digits 1 x Hx) as R. cbn [le_digits] in R. rewrite Z.mod_small in R by exact Hx. exact R. Qed.

Lemma Writes_8 x : in_u 8 x -> Writes (S := S) (ser_writedata8 x) [x] tt.
Proof using H0.
  intros Hx. pose proof (Writes_write (S := S) (le_digits 8 1 x)) as W. unfold ser_writedata8.
  cbn [le_digits] in *. rewrite Z.mod_small in * by exact Hx. exact W.
Qed.

(** ** CompactSize *)

Definition compact_bytes (n : Z) : bytes :=
  if n <? 253 then [n]
  else if n <=? 65535 then 253 :: le_digits 8 2 n
  else if n <=? 4294967295 then 254 :: le_digits 8 4 n
  else 255 :: le_digits 8 8 n.

Lemma compact_bytes_length n : Z.of_nat (length (compact_bytes n)) = GetSizeOfCompactSize n.
Proof using.
  unfold compact_bytes, GetSizeOfCompactSize. destruct (n <? 253); [reflexivity|]. destruct (n <=? 65535); [reflexivity|].
  destruct (n <=? 4294967295); reflexivity.
Qed.

Lemma WriteCompactSize_writes n : in_u 64 n -> Writes (S := S) (WriteCompactSize n) (compact_bytes n) tt.
Proof using H0.
  intros Hn. unfold WriteCompactSize, compact_bytes. destruct (Z.ltb_spec n 253); [apply Writes_8; word_lia|].
  destruct (Z.leb_spec n 65535); [|destruct (Z.leb_spec n 4294967295)].
  all: match goal with |- Writes _ (?x :: ?l) _ => change (x :: l) with ([x] ++ l) end.
  all: eapply Writes_bind; [apply Writes_8; word_lia|apply Writes_write].
Qed.

Lemma ReadCompactSize_reads n rc : in_u 64 n -> rc = false \/ n <= MAX_SIZE ->
  Reads (S := S) (ReadCompactSize rc) (compact_bytes n) n.
Proof using H0.
  intros Hn Hrc. unfold compact_bytes, ReadCompactSize.
  assert (Fin : Reads (S := S) (if (rc && (n >? MAX_SIZE))%bool then fail_st (Thrown "ReadCompactSize(): size too large")
                                else mret n) [] n).
  { destruct Hrc as [->|Hle]; [apply Reads_ret|]. destruct (Z.gtb_spec n MAX_SIZE); [lia|]. rewrite andb_false_r. apply Reads_ret. }
  destruct (Z.ltb_spec n 253).
  { rewrite <- (app_nil_r [n]). eapply Reads_bind; [apply Reads_8; word_lia|]. destruct (Z.ltb_spec n 253); [|lia].
    rewrite <- (app_nil_r []). eapply Reads_bind; [apply Reads_ret|]. exact Fin. }
  destruct (Z.leb_spec n 65535); [|destruct (Z.leb_spec n 4294967295)].
  all: match goal with |- Reads _ (?x :: ?l) _ => change (x :: l) with ([x] ++ l); rewrite <- (app_nil_r l) end.
  all: eapply Reads_bind; [apply Reads_8; word_lia|]; cbn [Z.ltb Z.eqb Z.compare Pos.compare Pos.compare_cont Pos.eqb].
  all: eapply Reads_bind; [|exact Fin]; match goal with |- Reads _ ?l _ => rewrite <- (app_nil_r l) end;
    eapply Reads_bind; [apply Reads_digits; word_lia|].
  1: destruct (Z.ltb_spec n 253); [lia|apply Reads_ret].
  1: destruct (Z.ltb_spec n 65536); [lia|apply Reads_ret].
  destruct (Z.ltb_spec n 4294967296); [lia|apply Reads_ret].
Qed.

Lemma Parses_digits n :
  Parses (S := S) (b ← stream_read n; mret (le_val 8 b))
    (fun bs v => bs = le_digits 8 n v /\ in_u (8 * Z.of_nat n) v).
Proof using H0.
  eapply Parses_impl; [eapply Parses_bind; [apply Parses_read|intros a bs _; apply Parses_ret]|].
  intros bs v (b1 & b2 & a & -> & (-> & Hl & Hb) & -> & ->). rewrite app_nil_r, <- Hl.
  split; [symmetry; apply le_digits_val|apply le_val_bound]; auto; lia.
Qed.

Lemma Parses_8 : Parses (S := S) ser_readdata8 (fun bs v => bs = [v] /\ in_u 8 v).
Proof using H0.
  eapply Parses_impl; [apply (Parses_digits 1)|]. intros bs v [-> Hv]. cbn [le_digits].
  rewrite Z.mod_small by exact Hv. auto.
Qed.

(** A multi-byte CompactSize that is not needlessly long. *)
Lemma Parses_canonical k lo :
  Parses (S := S) (n ← (b ← stream_read k; mret (le_val 8 b)); if n <? lo then fail_st (Thrown "non-canonical ReadCompactSize()") else mret n)
    (fun bs v => bs = le_digits 8 k v /\ in_u (8 * Z.of_nat k) v /\ lo <= v).
Proof using H0.
  eapply Parses_impl; [eapply Parses_bind; [apply Parses_digits|]|].
  - intros n bs _. refine (_ : Parses _ (fun bs v => bs = [] /\ v = n /\ lo <= n)).
    destruct (Z.ltb_spec n lo); [apply Parses_fail|]. eapply Parses_impl; [apply Parses_ret|]. intros b v [-> ->]; auto.
  - intros bs v (b1 & b2 & a & -> & [-> Hl] & -> & -> & Hlo). rewrite app_nil_r. auto.
Qed.

(** Only the shortest encoding of a number is accepted. *)
Lemma ReadCompactSize_parses rc :
  Parses (S := S) (ReadCompactSize rc) (fun bs v =>
    bs = compact_bytes v /\ in_u 64 v /\ (rc = true -> v <= MAX_SIZE)).
Proof using H0.
  unfold ReadCompactSize. eapply Parses_impl.
  { eapply Parses_bind; [apply Parses_8|]. intros ch b1 [_ Hch]. eapply Parses_bind.
    - refine (_ : Parses _ (fun bs v => ch :: bs = compact_bytes v /\ in_u 64 v)).
      destruct (Z.ltb_spec ch 253); [|destruct (Z.eqb_spec ch 253); [|destruct (Z.eqb_spec ch 254)]].
      2-4: eapply Parses_impl; [apply Parses_canonical|]; intros bs v (-> & Hv & Hlo); cbn in Hv;
           unfold compact_bytes; subst; try (assert (ch = 255) as -> by word_lia).
      + eapply Parses_impl; [apply Parses_ret|]. intros bs v [-> ->]. unfold compact_bytes.
        destruct (Z.ltb_spec ch 253); [|lia]. split; [reflexivity|word_lia].
      + destruct (Z.ltb_spec v 253); [lia|]. destruct (Z.leb_spec v 65535); [|word_lia]. split; [reflexivity|word_lia].
      + destruct (Z.ltb_spec v 253); [lia|]. destruct (Z.leb_spec v 65535); [lia|].
        destruct (Z.leb_spec v 4294967295); [|word_lia]. split; [reflexivity|word_lia].
      + destruct (Z.ltb_spec v 253); [lia|]. destruct (Z.leb_spec v 65535); [lia|].
        destruct (Z.leb_spec v 4294967295); [lia|]. split; [reflexivity|word_lia].
    - intros n b2 _. refine (_ : Parses _ (fun bs v => bs = [] /\ v = n /\ (rc = true -> v <= MAX_SIZE))).
      destruct (rc && (n >? MAX_SIZE))%bool eqn:E; [apply Parses_fail|].
      eapply Parses_impl; [apply Parses_ret|]. intros bs v [-> ->]. repeat split; auto. intros ->. cbn [andb] in E. zbool. lia. }
  intros bs v (b1 & b2 & ch & -> & [-> Hch] & b3 & b4 & n & -> & [E Hn] & -> & -> & Hmax).
  rewrite app_nil_r. auto.
Qed.

(** ** VarInt *)

Lemma low7 x : Z.land x 127 = x mod 128.
Proof using. change 127 with (Z.ones 7). rewrite Z.land_ones by lia. reflexivity. Qed.

Lemma high_bit_set x : 0 <= x < 128 -> Z.lor x 128 = x + 128.
Proof using. intros Hx. change 128 with (Z.shiftl 1 7) at 1. rewrite lor_low_high; unfold in_u; lia. Qed.

Lemma digits_room r r' n more ds :
  varint_digits r n more = Ok ds -> (r <= r')%nat -> varint_digits r' n more = Ok ds.
Proof using.
  revert r' n more ds. induction r as [|r IH]; intros [|r'] n more ds E Hr; cbn [varint_digits] in *; try discriminate; try lia.
  destruct (n <=? 127); [exact E|]. apply res_bind_Ok in E as (rest & E & E').
  rewrite (IH r' _ _ _ E) by lia. exact E'.
Qed.

Lemma digits_total r n more : 0 <= n < 2 ^ (7 * Z.of_nat r) -> (0 < r)%nat ->
  exists ds, varint_digits r n more = Ok ds /\ Forall (in_u 8) ds /\ (length ds <= r)%nat.
Proof using.
  revert n more. induction r as [|r IH]; intros n more Hn Hr; [lia|]. cbn [varint_digits].
  assert (Hb : in_u 8 (Z.lor (Z.land n 127) (if more then 128 else 0))).
  { rewrite low7. pose proof (Z.mod_pos_bound n 128 ltac:(lia)). apply lor_in_u; [lia| |]; [|destruct more]; word_lia. }
  destruct (Z.leb_spec n 127) as [Hs|Hs].
  { eexists. split; [reflexivity|]. split; [auto|cbn; lia]. }
  destruct r as [|r]; [change (2 ^ (7 * Z.of_nat 1)) with 128 in Hn; lia|].
  destruct (IH (Z.shiftr n 7 - 1) true) as (ds & -> & Hds & Hl); [|lia|].
  - rewrite Z.shiftr_div_pow2 by lia. change (2 ^ 7) with 128.
    replace (7 * Z.of_nat (Datatypes.S (Datatypes.S r))) with (7 + 7 * Z.of_nat (Datatypes.S r)) in Hn by lia.
    rewrite Z.pow_add_r in Hn by lia. change (2 ^ 7) with 128 in Hn.
    pose proof (Z.div_le_lower_bound n 128 1). pose proof (Z.div_lt_upper_bound n 128 (2 ^ (7 * Z.of_nat (Datatypes.S r)))). lia.
  - eexists. split; [reflexivity|]. split; [auto|cbn; lia].
Qed.

Lemma GetSizeOfVarInt_length r n more ds fuel : varint_digits r n more = Ok ds -> (length ds <= fuel)%nat ->
  GetSizeOfVarInt fuel n = Ok (Z.of_nat (length ds)).
Proof using.
  revert n more ds fuel. induction r as [|r IH]; intros n more ds fuel E Hf; cbn [varint_digits] in E; [discriminate|].
  destruct fuel; cbn [GetSizeOfVarInt]; destruct (n <=? 127); try (injection E as <-; reflexivity).
  - apply res_bind_Ok in E as (rest & E & E'). injection E' as <-. cbn in Hf. lia.
  - apply res_bind_Ok in E as (rest & E & E'). injection E' as <-. cbn in Hf.
    rewrite (IH _ _ _ fuel E) by lia. unfold mbind, res_bind. f_equal. cbn [length]. lia.
Qed.

Lemma write_each_writes bs : Forall (in_u 8) bs -> Writes (S := S) (write_each bs) bs tt.
Proof using H0.
  induction 1 as [|b bs Hb Hbs IH]; cbn [write_each]; [apply Writes_ret|].
  change (b :: bs) with ([b] ++ bs). eapply Writes_bind; [apply Writes_8; exact Hb|exact IH].
Qed.

(** What one byte does to the number read so far. *)
Lemma varint_shift w n b : 7 <= w -> 0 <= n -> n <= Z.shiftr (2 ^ w - 1) 7 -> 0 <= b ->
  Z.lor (uwrap w (Z.shiftl n 7)) (Z.land b 127) = n * 128 + b mod 128 /\ n * 128 + b mod 128 < 2 ^ w.
Proof using.
  intros Hw Hn Hm Hb. rewrite Z.shiftr_div_pow2 in Hm by lia. change (2 ^ 7) with 128 in Hm.
  assert (P : 2 ^ w = 128 * 2 ^ (w - 7)) by (change 128 with (2 ^ 7); rewrite <- Z.pow_add_r by lia; f_equal; lia).
  assert (E : (2 ^ w - 1) / 128 = 2 ^ (w - 7) - 1).
  { symmetry. apply (Z.div_unique _ _ _ 127); lia. }
  pose proof (Z.mod_pos_bound b 128 ltac:(lia)). rewrite E in Hm.
  rewrite uwrap_small by (unfold in_u; rewrite Z.shiftl_mul_pow2 by lia; change (2 ^ 7) with 128; lia).
  rewrite Z.lor_comm, low7, lor_low_high; [|lia|unfold in_u; change (2 ^ 7) with 128; lia]. change (2 ^ 7) with 128. lia.
Qed.

Lemma high_bit b : in_u 8 b -> (Z.land b 128 =? 0) = (b <? 128).
Proof using.
  intros Hb. change 128 with (Z.shiftl 1 7) at 1.
  assert (E : Z.land b (Z.shiftl 1 7) = Z.shiftl (b / 128) 7).
  { apply Z.bits_inj'. intros i Hi. rewrite Z.land_spec.
    destruct (Z.lt_trichotomy i 7) as [Hl|[->|Hl]].
    - rewrite (Z.shiftl_spec_low 1 7 i), (Z.shiftl_spec_low _ 7 i) by lia. apply andb_false_r.
    - rewrite !Z.shiftl_spec by lia. change 128 with (2 ^ 7). rewrite <- Z.shiftr_div_pow2, Z.shiftr_spec by lia.
      cbn. apply andb_true_r.
    - rewrite (testbit_above 8 b) by (auto; lia). rewrite !Z.shiftl_spec by lia. change 128 with (2 ^ 7).
      rewrite <- Z.shiftr_div_pow2, Z.shiftr_spec by lia. rewrite (testbit_above 8 b) by (auto; lia). reflexivity. }
  rewrite E, Z.shiftl_mul_pow2 by lia. change (2 ^ 7) with 128. word_consts.
  destruct (Z.ltb_spec b 128); [rewrite Z.div_small by lia; reflexivity|].
  apply Z.eqb_neq. pose proof (Z.div_le_lower_bound b 128 1). lia.
Qed.

Lemma varint_more w n b fuel tl v : 7 <= w -> 0 <= n -> n <= Z.shiftr (2 ^ w - 1) 7 -> 128 <= b < 256 ->
  n * 128 + (b - 128) < 2 ^ w - 1 ->
  Reads (S := S) (varint_read_loop fuel w (n * 128 + (b - 128) + 1)) tl v ->
  Reads (S := S) (varint_read_loop (Datatypes.S fuel) w n) (b :: tl) v.
Proof using H0.
  intros Hw Hn Hm Hb Hlt R. change (b :: tl) with ([b] ++ tl). cbn [varint_read_loop].
  assert (Hb8 : in_u 8 b) by word_lia.
  eapply Reads_bind; [apply Reads_8; exact Hb8|]. rewrite Z.gtb_ltb.
  destruct (Z.ltb_spec (Z.shiftr (2 ^ w - 1) 7) n); [lia|]. cbn zeta.
  rewrite (proj1 (varint_shift w n b Hw Hn Hm ltac:(lia))), (high_bit b Hb8).
  assert (b mod 128 = b - 128) as -> by (symmetry; apply (Z.mod_unique _ _ 1); lia).
  destruct (Z.ltb_spec b 128); [lia|]. cbn [negb]. destruct (Z.eqb_spec (n * 128 + (b - 128)) (2 ^ w - 1)); [lia|]. exact R.
Qed.

Lemma varint_last w n b fuel : 7 <= w -> 0 <= n -> n <= Z.shiftr (2 ^ w - 1) 7 -> 0 <= b < 128 ->
  Reads (S := S) (varint_read_loop fuel w n) [b] (n * 128 + b).
Proof using H0.
  intros Hw Hn Hm Hb. change [b] with ([b] ++ []). assert (Hb8 : in_u 8 b) by word_lia.
  destruct fuel; cbn [varint_read_loop].
  all: eapply Reads_bind; [apply Reads_8; exact Hb8|]; rewrite Z.gtb_ltb.
  all: destruct (Z.ltb_spec (Z.shiftr (2 ^ w - 1) 7) n); [lia|]; cbn zeta.
  all: rewrite (proj1 (varint_shift w n b Hw Hn Hm ltac:(lia))), (high_bit b Hb8), Z.mod_small by lia.
  all: destruct (Z.ltb_spec b 128); [|lia]; cbn [negb]; apply Reads_ret.
Qed.

(** The bytes of the higher digits bring the reader from 0 to [n + 1]. *)
Lemma varint_prefix w r n ds fuel tl v : 7 <= w -> 0 <= n < 2 ^ w - 1 -> varint_digits r n true = Ok ds ->
  Reads (S := S) (varint_read_loop fuel w (n + 1)) tl v ->
  Reads (S := S) (varint_read_loop (length ds + fuel) w 0) (rev ds ++ tl) v.
Proof using H0.
  intros Hw. revert n ds fuel tl. induction r as [|r IH]; intros n ds fuel tl Hn E R; cbn [varint_digits] in E; [discriminate|].
  pose proof (Z.mod_pos_bound n 128 ltac:(lia)) as Hmod.
  assert (Hb : Z.lor (Z.land n 127) 128 = n mod 128 + 128) by (rewrite low7; apply high_bit_set; lia).
  assert (H7 : 0 <= Z.shiftr (2 ^ w - 1) 7) by (apply Z.shiftr_nonneg; pose proof (Z.pow_pos_nonneg 2 w); lia).
  destruct (Z.leb_spec n 127).
  - injection E as <-. rewrite Hb, Z.mod_small by lia. cbn [rev app length Nat.add].
    apply varint_more; auto; try lia. replace (0 * 128 + (n + 128 - 128) + 1) with (n + 1) by lia. exact R.
  - apply res_bind_Ok in E as (rest & E & E'). injection E' as <-. cbn [rev length]. rewrite <- app_assoc.
    replace (Datatypes.S (length rest) + fuel)%nat with (length rest + Datatypes.S fuel)%nat by lia.
    assert (D : Z.shiftr n 7 = n / 128) by (rewrite Z.shiftr_div_pow2 by lia; reflexivity).
    assert (1 <= n / 128) by (apply Z.div_le_lower_bound; lia).
    pose proof (Z.div_mod n 128 ltac:(lia)).
    apply (IH (Z.shiftr n 7 - 1)); [lia|exact E|]. rewrite Hb. cbn [app]. apply varint_more; auto; try lia.
    + rewrite Z.sub_add, !Z.shiftr_div_pow2 by lia. apply Z.div_le_mono; lia.
    + replace ((Z.shiftr n 7 - 1 + 1) * 128 + (n mod 128 + 128 - 128) + 1) with (n + 1) by lia. exact R.
Qed.

(** The encoding of [n]: its digits, most significant first. *)
Definition varint_bytes (w n : Z) : bytes :=
  match varint_digits (Z.to_nat ((w + 6) / 7)) n false with Ok ds => rev ds | Fail _ => [] end.

Lemma varint_room w n : 7 <= w -> in_u w n -> 0 <= n < 2 ^ (7 * Z.of_nat (Z.to_nat ((w + 6) / 7))) /\ (0 < Z.to_nat ((w + 6) / 7))%nat.
Proof using.
  intros Hw Hn. assert (w <= 7 * ((w + 6) / 7)).
  { pose proof (Z.div_mod (w + 6) 7 ltac:(lia)). pose proof (Z.mod_pos_bound (w + 6) 7 ltac:(lia)). lia. }
  rewrite Z2Nat.id by lia. unfold in_u in Hn. pose proof (Z.pow_le_mono_r 2 w (7 * ((w + 6) / 7))). lia.
Qed.

Lemma WriteVarInt_writes w n : 7 <= w -> in_u w n ->
  Writes (S := S) (WriteVarInt w n) (varint_bytes w n) tt /\
  GetSizeOfVarInt (Z.to_nat ((w + 6) / 7)) n = Ok (Z.of_nat (length (varint_bytes w n))).
Proof using H0.
  intros Hw Hn. destruct (varint_room w n Hw Hn) as [Hr Hr0]. unfold WriteVarInt, varint_bytes.
  destruct (digits_total _ n false Hr Hr0) as (ds & E & Hds & Hl). rewrite E. split.
  - change (rev ds) with ([] ++ rev ds). eapply Writes_bind; [apply (Writes_ret (S := S) ds)|].
    apply write_each_writes. apply Forall_rev. exact Hds.
  - rewrite length_rev. eapply GetSizeOfVarInt_length; eauto.
Qed.

Lemma ReadVarInt_reads w n : 7 <= w -> in_u w n -> Reads (S := S) (ReadVarInt w) (varint_bytes w n) n.
Proof using H0.
  intros Hw Hn. destruct (varint_room w n Hw Hn) as [Hr Hr0]. unfold ReadVarInt, varint_bytes.
  destruct (digits_total _ n false Hr Hr0) as (ds & E & Hds & Hl). rewrite E.
  remember (Z.to_nat ((w + 6) / 7)) as r eqn:Er. clear Er. destruct r as [|r]; [lia|]. cbn [varint_digits] in E.
  rewrite Z.lor_0_r, low7 in E. pose proof (Z.mod_pos_bound n 128 ltac:(lia)) as Hmod. unfold in_u in Hn.
  assert (H7 : 0 <= Z.shiftr (2 ^ w - 1) 7) by (apply Z.shiftr_nonneg; lia).
  destruct (Z.leb_spec n 127).
  - injection E as <-. cbn [rev app]. rewrite Z.mod_small by lia.
    replace n with (0 * 128 + n) at 2 by lia. apply varint_last; auto; lia.
  - apply res_bind_Ok in E as (rest & E & E'). injection E' as <-. cbn [rev length] in *.
    replace (Datatypes.S r) with (length rest + (Datatypes.S r - length rest))%nat by lia.
    assert (D : Z.shiftr n 7 = n / 128) by (rewrite Z.shiftr_div_pow2 by lia; reflexivity).
    assert (1 <= n / 128) by (apply Z.div_le_lower_bound; lia).
    pose proof (Z.div_mod n 128 ltac:(lia)) as Dm.
    eapply varint_prefix; [exact Hw| |exact E|]; [lia|]. rewrite Z.sub_add.
    rewrite D.
    assert (R : Reads (S := S) (varint_read_loop (Datatypes.S r - length rest) w (n / 128)) [n mod 128] (n / 128 * 128 + n mod 128)).
    { apply varint_last; auto; try lia. rewrite Z.shiftr_div_pow2 by lia. change (2 ^ 7) with 128. apply Z.div_le_mono; lia. }
    replace (n / 128 * 128 + n mod 128) with n in R by lia. exact R.
Qed.

(** The digits of a number extended by one more. *)
Lemma digits_extend w r n ds b more : 0 <= b < 256 ->
  (n = 0 /\ ds = [] /\ r = O) \/ (1 <= n < 2 ^ w /\ varint_digits r (n - 1) true = Ok ds) ->
  varint_digits (Datatypes.S r) (n * 128 + b mod 128) more = Ok (Z.lor (b mod 128) (if more then 128 else 0) :: ds).
Proof using.
  intros Hb Hst. cbn [varint_digits]. pose proof (Z.mod_pos_bound b 128 ltac:(lia)).
  assert (E7 : Z.land (n * 128 + b mod 128) 127 = b mod 128)
    by (rewrite low7, Z.add_comm, Z.mod_add, Zmod_mod by lia; reflexivity). rewrite E7.
  destruct Hst as [(-> & -> & ->)|[Hn E]].
  { destruct (Z.leb_spec (0 * 128 + b mod 128) 127); [reflexivity|lia]. }
  destruct (Z.leb_spec (n * 128 + b mod 128) 127); [lia|].
  assert (Es : Z.shiftr (n * 128 + b mod 128) 7 = n).
  { rewrite Z.shiftr_div_pow2 by lia. change (2 ^ 7) with 128. rewrite Z.add_comm, Z.div_add, Z.div_small by lia. lia. }
  rewrite Es, E. reflexivity.
Qed.

(** The bytes read so far are the encoding of the number so far, so that no
    other byte string is read as the same number. *)
Lemma varint_loop_parses w fuel r n ds : 7 <= w ->
  (n = 0 /\ ds = [] /\ r = O) \/ (1 <= n < 2 ^ w /\ varint_digits r (n - 1) true = Ok ds) ->
  Parses (S := S) (varint_read_loop fuel w n) (fun bs v => in_u w v /\
    exists r' ds', varint_digits r' v false = Ok ds' /\ rev ds ++ bs = rev ds').
Proof using H0.
  intros Hw. revert r n ds. induction fuel as [|fuel IH]; intros r n ds Hst; cbn [varint_read_loop].
  all: assert (Hn0 : 0 <= n) by (destruct Hst as [[-> _]|[? _]]; lia).
  all: eapply Parses_impl; [eapply Parses_bind; [apply Parses_8|];
    intros ch b1 [_ Hch]; refine (_ : Parses _ (fun bs v => in_u w v /\
      exists r' ds', varint_digits r' v false = Ok ds' /\ rev ds ++ ch :: bs = rev ds'))|
    intros bs v (b1 & b2 & ch & -> & [-> _] & HQ); exact HQ].
  all: assert (Hch' : 0 <= ch < 256) by word_lia.
  all: rewrite Z.gtb_ltb; destruct (Z.ltb_spec (Z.shiftr (2 ^ w - 1) 7) n) as [|Hm]; [apply Parses_fail|]; cbn zeta.
  all: destruct (varint_shift w n ch Hw Hn0 Hm ltac:(lia)) as [E Hlt]; rewrite E, (high_bit ch Hch).
  all: pose proof (Z.mod_pos_bound ch 128 ltac:(lia)) as Hmod.
  all: destruct (Z.ltb_spec ch 128) as [Hlo|Hhi]; cbn [negb].
  1, 3: eapply Parses_impl; [apply Parses_ret|]; intros bs v [-> ->]; split; [unfold in_u; lia|];
        exists (Datatypes.S r); eexists; split; [apply (digits_extend w r n ds ch false Hch' Hst)|];
        rewrite Z.lor_0_r, Z.mod_small by lia; reflexivity.
  all: destruct (Z.eqb_spec (n * 128 + ch mod 128) (2 ^ w - 1)); [apply Parses_fail|].
  { apply Parses_fail. }
  assert (Em : Z.lor (ch mod 128) 128 = ch).
  { rewrite high_bit_set by lia. assert (ch mod 128 = ch - 128) as -> by (symmetry; apply (Z.mod_unique _ _ 1); lia). lia. }
  eapply Parses_impl; [apply (IH (Datatypes.S r) _ (ch :: ds))|].
  - right. split; [lia|]. rewrite Z.add_simpl_r, (digits_extend w r n ds ch true Hch' Hst), Em. reflexivity.
  - intros bs v [Hv (r' & ds' & Ed & Er)]. split; [exact Hv|]. exists r', ds'. split; [exact Ed|].
    rewrite <- Er. cbn [rev]. rewrite <- app_assoc. reflexivity.
Qed.

Lemma ReadVarInt_parses w : 7 <= w ->
  Parses (S := S) (ReadVarInt w) (fun bs v => in_u w v /\ bs = varint_bytes w v).
Proof using H0.
  intros Hw. eapply Parses_impl; [apply (varint_loop_parses w _ O 0 []); auto|].
  intros bs v [Hv (r & ds & E & Er)]. split; [exact Hv|]. destruct (varint_room w v Hw Hv) as [Hr Hr0].
  unfold varint_bytes. destruct (digits_total _ v false Hr Hr0) as (ds' & E' & _). rewrite E'.
  pose proof (digits_room _ (Nat.max r (Z.to_nat ((w + 6) / 7))) _ _ _ E ltac:(lia)) as X.
  rewrite (digits_room _ (Nat.max r (Z.to_nat ((w + 6) / 7))) _ _ _ E' ltac:(lia)) in X.
  injection X as ->. exact Er.
Qed.

(** ** Vectors *)

(** A serialiser and a deserialiser of the values satisfying [valid] that
    agree on the encoding [enc]. *)
Class Format {A : Type} (ser : A -> stm S unit) (unser : stm S A) (valid : A -> Prop) (enc : A -> bytes) : Prop := {
  format_writes : forall a, valid a -> Writes (ser a) (enc a) tt;
  format_reads : forall a, valid a -> Reads unser (enc a) a;
}.

Section Vectors.
Context {A : Type} (ser : A -> stm S unit) (unser : stm S A) (valid : A -> Prop) (enc : A -> bytes)
  `{!Format ser unser valid enc}.

Lemma ser_each_writes l : Forall valid l -> Writes (S := S) (ser_each ser l) (concat (map enc l)) tt.
Proof using All.
  induction 1 as [|a l Ha Hl IH]; cbn [ser_each map concat]; [apply Writes_ret|].
  eapply Writes_bind; [apply format_writes; exact Ha|exact IH].
Qed.

Lemma unser_batch_reads l v : Forall valid l ->
  Reads (S := S) (unser_batch unser (length l) v) (concat (map enc l)) (v ++ l).
Proof using All.
  intros Hl. revert v. induction Hl as [|a l Ha Hl IH]; intros v; cbn [unser_batch map concat length].
  { rewrite app_nil_r. apply Reads_ret. }
  eapply Reads_bind; [apply format_reads; exact Ha|]. specialize (IH (v ++ [a])). rewrite <- app_assoc in IH. exact IH.
Qed.

Lemma unser_loop_reads sizeof fuel l v : 0 < sizeof <= MAX_VECTOR_ALLOCATE -> Forall valid l -> (length l <= fuel)%nat ->
  Reads (S := S) (unser_loop unser sizeof fuel (length v + length l) (length v) v) (concat (map enc l)) (v ++ l).
Proof using All.
  intros Hsz. revert l v. induction fuel as [|fuel IH]; intros l v Hl Hf; cbn [unser_loop].
  all: destruct (Nat.ltb_spec (length v) (length v + length l)) as [Hlt|Hge];
       [|assert (l = []) as -> by (apply length_zero_iff_nil; lia); rewrite app_nil_r; apply Reads_ret].
  { lia. }
  set (k := Z.to_nat (MAX_VECTOR_ALLOCATE / sizeof)).
  assert (Hk : (0 < k)%nat).
  { pose proof (Z.div_le_lower_bound MAX_VECTOR_ALLOCATE sizeof 1 ltac:(lia) ltac:(lia)). subst k. lia. }
  set (m := Nat.min (length l) k). rewrite <- (take_drop m l), map_app, concat_app.
  assert (El : length (take m l) = m) by (rewrite length_take; lia).
  assert (Ea : Nat.min (length v + length (take m l ++ drop m l)) (length v + k) = (length v + m)%nat).
  { rewrite take_drop. lia. }
  rewrite Ea. replace (length v + m - length v)%nat with (length (take m l)) by lia.
  eapply Reads_bind; [apply unser_batch_reads, Forall_take; exact Hl|].
  specialize (IH (drop m l) (v ++ take m l) (Forall_drop _ _ _ Hl)). rewrite length_drop in IH.
  specialize (IH ltac:(lia)). rewrite <- app_assoc in IH.
  rewrite (length_app v), El, length_app, El, length_drop in *.
  replace (length v + m + (length l - m))%nat with (length v + (m + (length l - m)))%nat in IH by lia. exact IH.
Qed.

Lemma VectorFormatter_format sizeof : 0 < sizeof <= MAX_VECTOR_ALLOCATE ->
  Format (VectorFormatter_Ser ser) (VectorFormatter_Unser unser sizeof)
    (fun v => Forall valid v /\ Z.of_nat (length v) <= MAX_SIZE)
    (fun v => compact_bytes (Z.of_nat (length v)) ++ concat (map enc v)).
Proof using All.
  intros Hsz. assert (Hw : forall v : list A, Z.of_nat (length v) <= MAX_SIZE -> in_u 64 (Z.of_nat (length v)))
    by (unfold MAX_SIZE; intros; word_lia).
  split; intros v [Hv Hl].
  - eapply Writes_bind; [apply WriteCompactSize_writes; auto|apply ser_each_writes; exact Hv].
  - eapply Reads_bind; [apply ReadCompactSize_reads; auto|]. rewrite Nat2Z.id.
    apply (unser_loop_reads sizeof (length v) v [] Hsz Hv (le_n _)).
Qed.
End Vectors.

Lemma read_blocks_reads fuel l v : (length l <= fuel)%nat ->
  Reads (S := S) (read_blocks fuel (length v + length l) (length v) v) l (v ++ l).
Proof using H0.
  revert l v. induction fuel as [|fuel IH]; intros l v Hf; cbn [read_blocks].
  all: destruct (Nat.ltb_spec (length v) (length v + length l)) as [Hlt|Hge];
       [|assert (l = []) as -> by (apply length_zero_iff_nil; lia); rewrite app_nil_r; apply Reads_ret].
  { lia. }
  set (k := Z.to_nat (1 + 4999999)). assert (Hk : (0 < k)%nat) by (subst k; lia).
  set (m := Nat.min (length v + length l - length v) k).
  assert (El : length (take m l) = m) by (rewrite length_take; lia).
  pose proof (Reads_read (S := S) (take m l)) as R. rewrite El in R.
  refine (eq_rect (take m l ++ drop m l) (fun bs => Reads _ bs (v ++ l)) _ l (take_drop m l)).
  eapply Reads_bind; [exact R|].
  specialize (IH (drop m l) (v ++ take m l) ltac:(rewrite length_drop; lia)).
  rewrite length_app, El, length_drop in IH. rewrite <- app_assoc, take_drop in IH.
  replace (length v + m + (length l - m))%nat with (length v + length l)%nat in IH by lia. rewrite take_drop. exact IH.
Qed.

Lemma bytes_format :
  Format bytes_Serialize bytes_Unserialize (fun v => Z.of_nat (length v) <= MAX_SIZE)
    (fun v => compact_bytes (Z.of_nat (length v)) ++ v).
Proof using H0.
  assert (Hw : forall v : bytes, Z.of_nat (length v) <= MAX_SIZE -> in_u 64 (Z.of_nat (length v)))
    by (unfold MAX_SIZE; intros; word_lia).
  split; intros v Hl.
  - eapply Writes_bind; [apply WriteCompactSize_writes; auto|]. destruct v; [apply Writes_ret|apply Writes_write].
  - eapply Reads_bind; [apply ReadCompactSize_reads; auto|]. rewrite Nat2Z.id. apply (read_blocks_reads (length v) v [] (le_n _)).
Qed.
End Laws.

(** ** The formats *)

(** The two variable-length integer formats are injective and prefix-free on
    every stream: a number is written in exactly the bytes that the size
    function announces, those bytes are read back to it whatever follows, and
    a successful read has consumed the encoding of its result and nothing
    else, so that no number has a second accepted encoding.  Neither loop
    leaves its buffer. *)
Theorem variable_length_integers {S : Type} {HS : Stream S} {HL : StreamLaws S} (w n : Z) : 7 <= w <= 64 -> in_u w n ->
  (Writes (S := S) (WriteCompactSize n) (compact_bytes n) tt /\
   Z.of_nat (length (compact_bytes n)) = GetSizeOfCompactSize n /\
   (forall rc, rc = false \/ n <= MAX_SIZE -> Reads (S := S) (ReadCompactSize rc) (compact_bytes n) n) /\
   (forall rc, Parses (S := S) (ReadCompactSize rc) (fun bs v => bs = compact_bytes v /\ (rc = true -> v <= MAX_SIZE)))) /\
  (Writes (S := S) (WriteVarInt w n) (varint_bytes w n) tt /\
   GetSizeOfVarInt (Z.to_nat ((w + 6) / 7)) n = Ok (Z.of_nat (length (varint_bytes w n))) /\
   Reads (S := S) (ReadVarInt w) (varint_bytes w n) n /\
   Parses (S := S) (ReadVarInt w) (fun bs v => bs = varint_bytes w v /\ in_u w v)).
Proof.
  intros Hw Hn. assert (Hn64 : in_u 64 n).
  { unfold in_u in *. pose proof (Z.pow_le_mono_r 2 w 64). lia. }
  split; (split; [|split; [|split]]).
  - apply WriteCompactSize_writes. exact Hn64.
  - apply compact_bytes_length.
  - intros rc Hrc. apply ReadCompactSize_reads; auto.
  - intros rc. eapply Parses_impl; [apply ReadCompactSize_parses|]. naive_solver.
  - apply WriteVarInt_writes; auto; lia.
  - apply (WriteVarInt_writes (S := S)); auto; lia.
  - apply ReadVarInt_reads; auto; lia.
  - eapply Parses_impl; [apply ReadVarInt_parses; lia|]. naive_solver.
Qed.

Lemma variable_length_integers_witness :
  Reads (S := DataStream) (ReadVarInt 32) (varint_bytes 32 65535) 65535 /\ varint_bytes 32 65535 = [130; 254; 127] /\
  Reads (S := DataStream) (ReadCompactSize true) (compact_bytes 515) 515 /\ compact_bytes 515 = [253; 3; 2].
Proof.
  split; [apply (variable_length_integers (S := DataStream) 32 65535); [lia|word_lia]|].
  split; [reflexivity|].
  split; [apply (variable_length_integers (S := DataStream) 32 515); [lia|word_lia|right; unfold MAX_SIZE; lia]|reflexivity].
Defined.

(** A vector of at most [MAX_SIZE] elements, of any type whose own format
    reads back what it writes, is read back from the bytes it was written to,
    in as many batches of 5 MB as it takes; a byte vector likewise, block by
    block. *)
Theorem vector_roundtrip {S : Type} {HS : Stream S} {HL : StreamLaws S} {A : Type}
    (ser : A -> stm S unit) (unser : stm S A) (valid : A -> Prop) (enc : A -> bytes) (sizeof : Z) (v : list A) (b : bytes) :
  Format ser unser valid enc -> 0 < sizeof <= MAX_VECTOR_ALLOCATE ->
  Forall valid v -> Z.of_nat (length v) <= MAX_SIZE -> Z.of_nat (length b) <= MAX_SIZE ->
  (exists bs, Writes (VectorFormatter_Ser ser v) bs tt /\ Reads (VectorFormatter_Unser unser sizeof) bs v /\
     bs = compact_bytes (Z.of_nat (length v)) ++ concat (map enc v)) /\
  (exists bs, Writes (S := S) (bytes_Serialize b) bs tt /\ Reads (S := S) bytes_Unserialize bs b /\
     bs = compact_bytes (Z.of_nat (length b)) ++ b).
Proof.
  intros Hf Hsz Hv Hl Hb. split; eexists.
  - destruct (VectorFormatter_format ser unser valid enc sizeof Hsz) as [W R]. split; [apply W; auto|]. split; [apply R; auto|reflexivity].
  - destruct bytes_format as [W R]. split; [apply W; auto|]. split; [apply R; auto|reflexivity].
Qed.

Lemma vector_roundtrip_witness :
  Reads (S := DataStream) (VectorFormatter_Unser (ReadVarInt 64) 8) [2; 5; 128; 0] [5; 128].
Proof.
  destruct (vector_roundtrip (S := DataStream) (WriteVarInt 64) (ReadVarInt 64) (in_u 64) (varint_bytes 64) 8 [5; 128] [])
    as [(bs & _ & R & ->) _].
  - split; intros a Ha; [apply WriteVarInt_writes; auto; lia|apply ReadVarInt_reads; auto; lia].
  - unfold MAX_VECTOR_ALLOCATE. lia.
  - repeat constructor; lia.
  - unfold MAX_SIZE. cbn. lia.
  - unfold MAX_SIZE. cbn. lia.
  - exact R.
Defined.
