(* ===== verification/Compressor.v ===== *)
(** * Compression of transaction outputs

    Models [src/compressor.cpp] and [src/compressor.h]: the amount compression,
    the special scripts, and the serialisers built on them; and from
    [src/pubkey.h] and [src/pubkey.cpp] the part of [CPubKey] that they use.
    The opcodes and [MAX_SCRIPT_SIZE] come from script.h and the curve from
    libsecp256k1, which the repository does not hold: they are the parameters
    of the class [ScriptEnv], with the laws [ScriptEnvLaws]. *)

From stdpp Require Import base numbers list strings.
From Stdlib Require Import ZArith Lia.
From S2P Require Import Prelude Params Streams Serialize.

Local Open Scope Z_scope.

(** ** Amounts *)

(** [while (((n % 10) == 0) && e < 9) { n /= 10; e++; }]; at most nine rounds. *)
Fixpoint strip_zeros (fuel : nat) (n e : Z) : Z * Z :=
  match fuel with
  | O => (n, e)
  | S fuel' => if ((n mod 10 =? 0) && (e <? 9))%bool then strip_zeros fuel' (n / 10) (e + 1) else (n, e)
  end.

Definition CompressAmount (n : Z) : res Z :=
  if n =? 0 then Ok 0
  else
    let '(n, e) := strip_zeros 9 n 0 in
    if e <? 9 then
      let d := n mod 10 in
      _ ← assert_ ((d >=? 1) && (d <=? 9))%bool;
      let n := n / 10 in
      Ok (u64 (1 + (n * 9 + d - 1) * 10 + e))
    else Ok (u64 (1 + (n - 1) * 10 + 9)).

(** [while (e) { n *= 10; e--; }]. *)
Fixpoint add_zeros (e : nat) (n : Z) : Z :=
  match e with O => n | S e' => add_zeros e' (u64 (n * 10)) end.

Definition DecompressAmount (x : Z) : Z :=
  if x =? 0 then 0
  else
    let x := x - 1 in
    let e := x mod 10 in
    let x := x / 10 in
    let n :=
      if e <? 9 then
        let d := x mod 9 + 1 in
        let x := x / 9 in
        u64 (x * 10 + d)
      else u64 (x + 1) in
    add_zeros (Z.to_nat e) n.

(** ** Public keys *)

Class ScriptEnv : Type := {
  OP_DUP : Z; OP_HASH160 : Z; OP_EQUALVERIFY : Z; OP_EQUAL : Z; OP_CHECKSIG : Z; OP_RETURN : Z;
  MAX_SCRIPT_SIZE : Z;
  secp256k1_pubkey : Type;
  ec_pubkey_parse : bytes -> option secp256k1_pubkey;
  ec_pubkey_serialize_uncompressed : secp256k1_pubkey -> bytes;
}.

Section Keys.
Context `{ScriptEnv}.

(** [CPubKey::vch]: the first byte determines how much of the buffer is the key. *)
Definition CPubKey : Type := bytes.
Definition PUBKEY_SIZE : nat := 65.
Definition COMPRESSED_SIZE : nat := 33.

Definition GetLen (chHeader : Z) : nat :=
  if ((chHeader =? 2) || (chHeader =? 3))%bool then COMPRESSED_SIZE
  else if ((chHeader =? 4) || (chHeader =? 6) || (chHeader =? 7))%bool then PUBKEY_SIZE
  else 0.

Definition Invalidate (vch : CPubKey) : CPubKey := <[0%nat := 0xFF]> vch.
Definition CPubKey_default : CPubKey := Invalidate (repeat 0 PUBKEY_SIZE).

Definition pubkey_Set (p : bytes) (vch : CPubKey) : CPubKey :=
  let len := match p with [] => O | h :: _ => GetLen h end in
  if (negb (len =? 0) && (len =? length p))%nat%bool then p ++ drop len vch else Invalidate vch.

Definition pubkey_size (vch : CPubKey) : nat := GetLen (nth 0 vch 0).
Definition pubkey_IsValid (vch : CPubKey) : bool := (0 <? pubkey_size vch)%nat.

Definition IsFullyValid (vch : CPubKey) : bool :=
  if negb (pubkey_IsValid vch) then false
  else match ec_pubkey_parse (take (pubkey_size vch) vch) with Some _ => true | None => false end.

Definition Decompress (vch : CPubKey) : bool * CPubKey :=
  if negb (pubkey_IsValid vch) then (false, vch)
  else match ec_pubkey_parse (take (pubkey_size vch) vch) with
  | None => (false, vch)
  | Some pubkey => (true, pubkey_Set (ec_pubkey_serialize_uncompressed pubkey) vch)
  end.

(** ** Scripts *)

Definition IsToKeyID (script : bytes) : option bytes :=
  if ((length script =? 25)%nat && (nth 0 script 0 =? OP_DUP) && (nth 1 script 0 =? OP_HASH160)
      && (nth 2 script 0 =? 20) && (nth 23 script 0 =? OP_EQUALVERIFY) && (nth 24 script 0 =? OP_CHECKSIG))%bool
  then Some (take 20 (drop 3 script)) else None.

Definition IsToScriptID (script : bytes) : option bytes :=
  if ((length script =? 23)%nat && (nth 0 script 0 =? OP_HASH160) && (nth 1 script 0 =? 20)
      && (nth 22 script 0 =? OP_EQUAL))%bool
  then Some (take 20 (drop 2 script)) else None.

Definition IsToPubKey (script : bytes) (pubkey : CPubKey) : bool * CPubKey :=
  if ((length script =? 35)%nat && (nth 0 script 0 =? 33) && (nth 34 script 0 =? OP_CHECKSIG)
      && ((nth 1 script 0 =? 2) || (nth 1 script 0 =? 3)))%bool
  then (true, pubkey_Set (take 33 (drop 1 script)) pubkey)
  else if ((length script =? 67)%nat && (nth 0 script 0 =? 65) && (nth 66 script 0 =? OP_CHECKSIG)
      && (nth 1 script 0 =? 4))%bool
  then let pubkey := pubkey_Set (take 65 (drop 1 script)) pubkey in (IsFullyValid pubkey, pubkey)
  else (false, pubkey).

(** [CompressScript]: the compressed script, where there is one. *)
Definition CompressScript (script : bytes) : option bytes :=
  match IsToKeyID script with
  | Some keyID => Some (0 :: keyID)
  | None =>
      match IsToScriptID script with
      | Some scriptID => Some (1 :: scriptID)
      | None =>
          let '(ok, pubkey) := IsToPubKey script CPubKey_default in
          if ok then
            let tail := take 32 (drop 1 pubkey) in
            if ((nth 0 pubkey 0 =? 2) || (nth 0 pubkey 0 =? 3))%bool then Some (nth 0 pubkey 0 :: tail)
            else if nth 0 pubkey 0 =? 4 then Some (Z.lor 4 (Z.land (nth 64 pubkey 0) 1) :: tail)
            else None
          else None
      end
  end.

Definition GetSpecialScriptSize (nSize : Z) : Z :=
  if ((nSize =? 0) || (nSize =? 1))%bool then 20
  else if ((nSize =? 2) || (nSize =? 3) || (nSize =? 4) || (nSize =? 5))%bool then 32
  else 0.

(** [memcpy] of [n] bytes out of a buffer. *)
Definition memcpy (n : nat) (src : bytes) : res bytes :=
  if (n <=? length src)%nat then Ok (take n src) else Fail BadAccess.

(** [DecompressScript]: the script, or [None] when it returns false and leaves
    the script as it was. *)
Definition DecompressScript (nSize : Z) (inp : bytes) : res (option bytes) :=
  if nSize =? 0 then
    h ← memcpy 20 inp; Ok (Some ([OP_DUP; OP_HASH160; 20] ++ h ++ [OP_EQUALVERIFY; OP_CHECKSIG]))
  else if nSize =? 1 then
    h ← memcpy 20 inp; Ok (Some ([OP_HASH160; 20] ++ h ++ [OP_EQUAL]))
  else if ((nSize =? 2) || (nSize =? 3))%bool then
    x ← memcpy 32 inp; Ok (Some ([33; nSize] ++ x ++ [OP_CHECKSIG]))
  else if ((nSize =? 4) || (nSize =? 5))%bool then
    x ← memcpy 32 inp;
    let '(ok, pubkey) := Decompress (pubkey_Set ((nSize - 2) :: x) CPubKey_default) in
    if negb ok then Ok None
    else
      _ ← assert_ (pubkey_size pubkey =? 65)%nat;
      Ok (Some ([65] ++ take 65 pubkey ++ [OP_CHECKSIG]))
  else Ok None.

(** ** The serialisers *)

Context {S : Type} `{Stream S}.
Definition nSpecialScripts : Z := 6.

Definition ScriptCompression_Ser (script : bytes) : stm S unit :=
  match CompressScript script with
  | Some compr => stream_write compr
  | None =>
      let nSize := u32 (Z.of_nat (length script) + nSpecialScripts) in
      _ ← WriteVarInt 32 nSize;
      stream_write script
  end.

(** [script] is the object read into. *)
Definition ScriptCompression_Unser (script : bytes) : stm S bytes :=
  nSize ← ReadVarInt 32;
  if nSize <? nSpecialScripts then
    vch ← stream_read (Z.to_nat (GetSpecialScriptSize nSize));
    r ← lift_st (DecompressScript nSize vch);
    mret (match r with Some s => s | None => script end)
  else
    let nSize := nSize - nSpecialScripts in
    if nSize >? MAX_SCRIPT_SIZE then
      _ ← stream_ignore (Z.to_nat nSize);
      mret (script ++ [OP_RETURN])
    else stream_read (Z.to_nat nSize).

Definition AmountCompression_Ser (val : Z) : stm S unit :=
  x ← lift_st (CompressAmount (u64 val)); WriteVarInt 64 x.

Definition AmountCompression_Unser : stm S Z :=
  v ← ReadVarInt 64; mret (i64 (DecompressAmount v)).

(** [CTxOut] as the pair of [nValue] and [scriptPubKey]. *)
Definition TxOutCompression_Ser (obj : Z * bytes) : stm S unit :=
  _ ← AmountCompression_Ser (fst obj); ScriptCompression_Ser (snd obj).

Definition TxOutCompression_Unser (obj : Z * bytes) : stm S (Z * bytes) :=
  v ← AmountCompression_Unser; s ← ScriptCompression_Unser (snd obj); mret (v, s).
End Keys.

(** What the code relies on: the opcodes are bytes, the size limit leaves room
    for the special codes, and libsecp256k1 writes a point back as the
    uncompressed key it was parsed from and parses the compressed key with the
    parity of the last byte to the same point. *)
Class ScriptEnvLaws `{ScriptEnv} : Prop := {
  opcodes_bytes : Forall (in_u 8) [OP_DUP; OP_HASH160; OP_EQUALVERIFY; OP_EQUAL; OP_CHECKSIG; OP_RETURN];
  max_script_size : 0 <= MAX_SCRIPT_SIZE < 2 ^ 31;
  parse_uncompressed : forall x y p, length x = 32%nat -> length y = 32%nat -> ec_pubkey_parse (4 :: x ++ y) = Some p ->
    ec_pubkey_serialize_uncompressed p = 4 :: x ++ y /\
    ec_pubkey_parse ((2 + Z.land (nth 31 y 0) 1) :: x) = Some p;
}.

(** ** Amounts read back *)

Lemma strip_zeros_exact fuel m e k : (k <= fuel)%nat -> e + Z.of_nat k <= 9 ->
  (m mod 10 <> 0 \/ e + Z.of_nat k = 9) -> strip_zeros fuel (m * 10 ^ Z.of_nat k) e = (m, e + Z.of_nat k).
Proof.
  revert e k. induction fuel as [|fuel IH]; intros e k Hk He Hm; cbn [strip_zeros].
  { assert (k = O) as -> by lia. rewrite Z.add_0_r, Z.mul_1_r. reflexivity. }
  destruct k as [|k].
  - rewrite Z.mul_1_r, Z.add_0_r in *. destruct (Z.eqb_spec (m mod 10) 0), (Z.ltb_spec e 9); cbn [andb]; try reflexivity. lia.
  - assert (E : m * 10 ^ Z.of_nat (S k) = (m * 10 ^ Z.of_nat k) * 10) by (rewrite Nat2Z.inj_succ, Z.pow_succ_r by lia; lia).
    rewrite E, Z.mod_mul, Z.div_mul by lia. destruct (Z.ltb_spec e 9); [|lia]. cbn [andb Z.eqb].
    rewrite IH by lia. f_equal. lia.
Qed.

(** Every positive amount is a number without trailing zeros, or with nine of
    them taken off. *)
Lemma decimal_split n : 0 < n -> exists m k, n = m * 10 ^ Z.of_nat k /\ (k <= 9)%nat /\ 0 < m /\ (m mod 10 <> 0 \/ k = 9%nat).
Proof.
  intros Hn. assert (G : forall j : nat, exists m k, n = m * 10 ^ Z.of_nat k /\ (k <= j)%nat /\ 0 < m /\ (m mod 10 <> 0 \/ k = j)).
  { induction j as [|j (m & k & E & Hk & Hm & [Hd| ->])].
    - exists n, O. repeat split; auto; lia.
    - exists m, k. repeat split; auto; lia.
    - destruct (Z.eq_dec (m mod 10) 0) as [Hz|Hz]; [|exists m, j; repeat split; auto; lia].
      apply Z.div_exact in Hz; [|lia]. exists (m / 10), (S j). rewrite Nat2Z.inj_succ, Z.pow_succ_r by lia.
      repeat split; auto; nia. }
  exact (G 9%nat).
Qed.

Lemma pow10_pos k : 1 <= 10 ^ Z.of_nat k.
Proof. pose proof (Z.pow_pos_nonneg 10 (Z.of_nat k)). lia. Qed.

(** The format of the comment in compressor.cpp. *)
Lemma CompressAmount_format m k : (k <= 9)%nat -> 0 < m -> (m mod 10 <> 0 \/ k = 9%nat) -> m * 10 ^ Z.of_nat k <= MAX_MONEY ->
  CompressAmount (m * 10 ^ Z.of_nat k) =
    Ok (if (k <? 9)%nat then 1 + 10 * (9 * (m / 10) + m mod 10 - 1) + Z.of_nat k else 1 + 10 * (m - 1) + 9).
Proof.
  intros Hk Hm Hz Hmax. pose proof (pow10_pos k). assert (m <= MAX_MONEY) by nia.
  pose proof (Z.div_mod m 10 ltac:(lia)). pose proof (Z.mod_pos_bound m 10 ltac:(lia)).
  change MAX_MONEY with 121300000000000000 in *.
  unfold CompressAmount. destruct (Z.eqb_spec (m * 10 ^ Z.of_nat k) 0); [nia|].
  rewrite strip_zeros_exact by lia. rewrite Z.add_0_l.
  destruct (Nat.ltb_spec k 9), (Z.ltb_spec (Z.of_nat k) 9); try lia.
  - assert (m mod 10 <> 0) by lia. rewrite Z.geb_leb.
    destruct (Z.leb_spec 1 (m mod 10)), (Z.leb_spec (m mod 10) 9); try lia. cbn. f_equal.
    rewrite uwrap_small by word_lia. lia.
  - f_equal. rewrite uwrap_small by word_lia. lia.
Qed.

Lemma add_zeros_small k n : 0 <= n -> n * 10 ^ Z.of_nat k < 2 ^ 64 -> add_zeros k n = n * 10 ^ Z.of_nat k.
Proof.
  revert n. induction k as [|k IH]; intros n Hn Hb; cbn [add_zeros]; [lia|].
  rewrite Nat2Z.inj_succ, Z.pow_succ_r in * by lia. pose proof (pow10_pos k).
  rewrite uwrap_small by (unfold in_u; nia). rewrite IH; lia.
Qed.

Lemma DecompressAmount_format m k : (k <= 9)%nat -> 0 < m -> (m mod 10 <> 0 \/ k = 9%nat) -> m * 10 ^ Z.of_nat k <= MAX_MONEY ->
  DecompressAmount (if (k <? 9)%nat then 1 + 10 * (9 * (m / 10) + m mod 10 - 1) + Z.of_nat k else 1 + 10 * (m - 1) + 9)
    = m * 10 ^ Z.of_nat k.
Proof.
  intros Hk Hm Hz Hmax. pose proof (pow10_pos k). assert (m <= MAX_MONEY) by nia.
  pose proof (Z.div_mod m 10 ltac:(lia)). pose proof (Z.mod_pos_bound m 10 ltac:(lia)).
  assert (0 <= m / 10) by (apply Z.div_pos; lia).
  change MAX_MONEY with 121300000000000000 in *. unfold DecompressAmount. destruct (Nat.ltb_spec k 9).
  - assert (m mod 10 <> 0) by lia.
    set (y := 9 * (m / 10) + m mod 10 - 1). destruct (Z.eqb_spec (1 + 10 * y + Z.of_nat k) 0); [lia|].
    replace (1 + 10 * y + Z.of_nat k - 1) with (Z.of_nat k + y * 10) by lia. cbn zeta.
    rewrite Z.mod_add, Z.div_add, (Z.mod_small (Z.of_nat k)), (Z.div_small (Z.of_nat k)) by lia. rewrite Z.add_0_l.
    destruct (Z.ltb_spec (Z.of_nat k) 9); [|lia]. subst y.
    replace (9 * (m / 10) + m mod 10 - 1) with ((m mod 10 - 1) + (m / 10) * 9) by lia.
    rewrite Z.mod_add, Z.div_add, (Z.mod_small (m mod 10 - 1) 9), (Z.div_small (m mod 10 - 1)) by lia.
    rewrite Nat2Z.id. replace ((0 + m / 10) * 10 + (m mod 10 - 1 + 1)) with m by lia.
    rewrite uwrap_small by word_lia. apply add_zeros_small; [lia|word_lia].
  - assert (k = 9%nat) as -> by lia. destruct (Z.eqb_spec (1 + 10 * (m - 1) + 9) 0); [lia|].
    replace (1 + 10 * (m - 1) + 9 - 1) with (9 + (m - 1) * 10) by lia. cbn zeta.
    rewrite Z.mod_add, Z.div_add by lia. change (9 mod 10) with 9. change (9 / 10) with 0. cbn [Z.ltb Z.compare Pos.compare Pos.compare_cont].
    rewrite uwrap_small by word_lia. replace (0 + (m - 1) + 1) with m by lia. apply add_zeros_small; [lia|word_lia].
Qed.

Lemma amount_roundtrip n : MoneyRange n = true ->
  exists x, CompressAmount n = Ok x /\ in_u 64 x /\ DecompressAmount x = n.
Proof.
  intros Hr. unfold MoneyRange in Hr. zbool. destruct (Z.eq_dec n 0) as [->|Hn0]; [exists 0; repeat split; auto; word_lia|].
  destruct (decimal_split n ltac:(lia)) as (m & k & -> & Hk & Hm & Hz).
  rewrite CompressAmount_format by (auto; lia). eexists. split; [reflexivity|]. split.
  - pose proof (pow10_pos k). assert (m <= MAX_MONEY) by nia. change MAX_MONEY with 121300000000000000 in *.
    pose proof (Z.div_mod m 10 ltac:(lia)). pose proof (Z.mod_pos_bound m 10 ltac:(lia)).
    destruct (Nat.ltb_spec k 9); word_lia.
  - apply DecompressAmount_format; auto; lia.
Qed.

(** ** Scripts read back *)

Section Scripts.
Context `{ScriptEnvLaws}.

(** [destruct_list l k]: [l] is [k] elements. *)
Local Tactic Notation "destruct_list" ident(l) integer(k) :=
  do k (destruct l as [|? l]; [discriminate|]); destruct l; [|discriminate].

Ltac take_guard E :=
  match type of E with (if ?b then _ else _) = _ => destruct b eqn:?; [|discriminate] end;
  repeat match goal with G : (_ && _)%bool = true |- _ => apply andb_true_iff in G as [? ?] end;
  repeat match goal with G : (_ =? _)%nat = true |- _ => apply Nat.eqb_eq in G end;
  zbool.

Lemma IsToKeyID_sound script h : IsToKeyID script = Some h ->
  length h = 20%nat /\ script = [OP_DUP; OP_HASH160; 20] ++ h ++ [OP_EQUALVERIFY; OP_CHECKSIG].
Proof using.
  unfold IsToKeyID. intros E. take_guard E. destruct_list script 25. cbn in *. injection E as <-.
  subst. split; reflexivity.
Qed.

Lemma IsToScriptID_sound script h : IsToScriptID script = Some h ->
  length h = 20%nat /\ script = [OP_HASH160; 20] ++ h ++ [OP_EQUAL].
Proof using.
  unfold IsToScriptID. intros E. take_guard E. destruct_list script 23. cbn in *. injection E as <-.
  subst. split; reflexivity.
Qed.

(** A pay-to-pubkey script holds a key of the form that can be rebuilt. *)
Lemma IsToPubKey_sound script pubkey : IsToPubKey script CPubKey_default = (true, pubkey) ->
  (exists h x, (h = 2 \/ h = 3) /\ length x = 32%nat /\ script = [33; h] ++ x ++ [OP_CHECKSIG] /\ take 33 pubkey = h :: x) \/
  (exists x y p, length x = 32%nat /\ length y = 32%nat /\ script = [65] ++ (4 :: x ++ y) ++ [OP_CHECKSIG] /\
     pubkey = 4 :: x ++ y /\ ec_pubkey_parse pubkey = Some p).
Proof using.
  unfold IsToPubKey. intros E. destruct (_ && _)%bool eqn:G1; [|destruct (_ && _)%bool eqn:G2 in E; [|discriminate]].
  - repeat match goal with G : (_ && _)%bool = true |- _ => apply andb_true_iff in G as [? ?] end.
    repeat match goal with G : (_ =? _)%nat = true |- _ => apply Nat.eqb_eq in G end. zbool.
    destruct_list script 35. cbn [nth] in *. subst. left.
    injection E as <-.
    match goal with G : (?h =? 2) || _ = true, L : length ?l = 35%nat |- _ =>
      let x := eval cbn in (take 32 (drop 2 l)) in exists h, x; apply orb_true_iff in G as [G|G]; zbool; subst h end.
    all: repeat split; auto.
  - clear G1. repeat match goal with G : (_ && _)%bool = true |- _ => apply andb_true_iff in G as [? ?] end.
    repeat match goal with G : (_ =? _)%nat = true |- _ => apply Nat.eqb_eq in G end. zbool.
    destruct_list script 67. cbn [nth] in *. subst. right. injection E as Ev Ep.
    rewrite Ep in Ev. cbn in Ep. subst pubkey. unfold IsFullyValid in Ev. cbn in Ev.
    destruct (ec_pubkey_parse _) as [p|] eqn:Eparse in Ev; [|discriminate].
    match type of Eparse with ec_pubkey_parse (4 :: ?l) = _ =>
      let x := eval cbn in (take 32 l) in let y := eval cbn in (drop 32 l) in exists x, y, p end.
    repeat split; reflexivity || exact Eparse.
Qed.

Lemma parity_code z : Z.lor 4 (Z.land z 1) = 4 + Z.land z 1 /\ 0 <= Z.land z 1 <= 1.
Proof using.
  assert (E : Z.land z 1 = z mod 2) by (change 1 with (Z.ones 1); rewrite Z.land_ones by lia; reflexivity).
  rewrite E. pose proof (Z.mod_pos_bound z 2 ltac:(lia)). assert (z mod 2 = 0 \/ z mod 2 = 1) as [-> | ->] by lia; split; try reflexivity; lia.
Qed.

Lemma memcpy_exact n src : length src = n -> memcpy n src = Ok src.
Proof using. intros <-. unfold memcpy. rewrite Nat.leb_refl, firstn_all. reflexivity. Qed.

(** A compressed key with the right parity decompresses to the full key. *)
Lemma Decompress_key x y p b : length x = 32%nat -> length y = 32%nat -> 0 <= b <= 1 ->
  ec_pubkey_parse ((2 + b) :: x) = Some p -> ec_pubkey_serialize_uncompressed p = 4 :: x ++ y ->
  exists buf, Decompress (pubkey_Set ((2 + b) :: x) CPubKey_default) = (true, buf) /\
    pubkey_size buf = 65%nat /\ take 65 buf = 4 :: x ++ y.
Proof using.
  intros Hx Hy Hb Ep Es.
  assert (Hset : forall v, pubkey_Set ((2 + b) :: x) v = ((2 + b) :: x) ++ drop 33 v).
  { intros v. unfold pubkey_Set. assert (b = 0 \/ b = 1) as [-> | ->] by lia; cbn; rewrite Hx; reflexivity. }
  assert (Hset4 : forall v, pubkey_Set (4 :: x ++ y) v = (4 :: x ++ y) ++ drop 65 v).
  { intros v. unfold pubkey_Set. cbn. rewrite length_app, Hx, Hy. reflexivity. }
  assert (Hsz : forall v, pubkey_size (((2 + b) :: x) ++ v) = 33%nat).
  { intros v. unfold pubkey_size. assert (b = 0 \/ b = 1) as [-> | ->] by lia; reflexivity. }
  rewrite Hset. eexists. unfold Decompress, pubkey_IsValid. rewrite Hsz. cbn [Nat.ltb Nat.leb negb].
  assert (T : take 33 (((2 + b) :: x) ++ drop 33 CPubKey_default) = (2 + b) :: x).
  { change 33%nat with (S 32). rewrite <- Hx. cbn [app firstn]. rewrite take_app_length. reflexivity. }
  rewrite T, Ep, Es, Hset4. split; [reflexivity|]. split; [reflexivity|].
  assert (L : length (4 :: x ++ y) = 65%nat) by (cbn; rewrite length_app; lia).
  rewrite <- L at 1. apply take_app_length.
Qed.

Lemma CompressScript_decodes script out : CompressScript script = Some out ->
  exists code tail, out = code :: tail /\ 0 <= code < 6 /\ Z.of_nat (length tail) = GetSpecialScriptSize code /\
    DecompressScript code tail = Ok (Some script).
Proof using H0.
  unfold CompressScript. destruct (IsToKeyID script) as [h|] eqn:E1.
  { intros [= <-]. apply IsToKeyID_sound in E1 as [Hl ->]. exists 0, h. rewrite Hl. repeat split; try lia.
    unfold DecompressScript. cbn [Z.eqb]. rewrite (memcpy_exact 20 h Hl). reflexivity. }
  destruct (IsToScriptID script) as [h|] eqn:E2.
  { intros [= <-]. apply IsToScriptID_sound in E2 as [Hl ->]. exists 1, h. rewrite Hl. repeat split; try lia.
    unfold DecompressScript. cbn [Z.eqb Pos.eqb]. rewrite (memcpy_exact 20 h Hl). reflexivity. }
  destruct (IsToPubKey script CPubKey_default) as [[|] pubkey] eqn:E3; [|discriminate].
  apply IsToPubKey_sound in E3 as [(h & x & Hh & Hl & -> & Et)|(x & y & p & Hx & Hy & -> & Epk & Ep)].
  - assert (N0 : nth 0 pubkey 0 = h) by (destruct pubkey; [discriminate|]; injection Et as -> _; reflexivity).
    assert (T : take 32 (drop 1 pubkey) = x) by (destruct pubkey; [discriminate|]; injection Et as _ Et; exact Et).
    rewrite N0, T. destruct Hh as [->| ->]; cbn; intros [= <-]; eexists _, x; (split; [reflexivity|]); rewrite Hl;
      repeat split; try lia; unfold DecompressScript; cbn; rewrite (memcpy_exact 32 x Hl); reflexivity.
  - rewrite Epk in *. cbn [nth Z.eqb Pos.eqb orb].
    assert (N64 : nth 63 (x ++ y) 0 = nth 31 y 0) by (rewrite app_nth2 by lia; f_equal; lia). rewrite N64.
    assert (T : take 32 (drop 1 (4 :: x ++ y)) = x) by (cbn [skipn]; rewrite <- Hx; apply take_app_length).
    rewrite T. intros [= <-].
    destruct (parse_uncompressed x y p Hx Hy Ep) as [Es Ec].
    destruct (parity_code (nth 31 y 0)) as [-> Hb]. set (b := Z.land (nth 31 y 0) 1) in *.
    exists (4 + b), x. rewrite Hx.
    destruct (Decompress_key x y p b Hx Hy Hb Ec Es) as (buf & Ed & Esz & Etk).
    assert (Hb' : b = 0 \/ b = 1) by lia. split; [reflexivity|]. split; [lia|].
    split; [destruct Hb' as [-> | ->]; reflexivity|].
    assert (D : DecompressScript (4 + b) x = (x ← memcpy 32 x;
      let '(ok, pubkey) := Decompress (pubkey_Set ((4 + b - 2) :: x) CPubKey_default) in
      if negb ok then Ok None else _ ← assert_ (pubkey_size pubkey =? 65)%nat; Ok (Some ([65] ++ take 65 pubkey ++ [OP_CHECKSIG]))))
      by (destruct Hb' as [-> | ->]; reflexivity).
    rewrite D, (memcpy_exact 32 x Hx). cbn [mbind res_bind]. replace (4 + b - 2) with (2 + b) by lia.
    rewrite Ed. cbn [negb]. rewrite Esz, Etk. reflexivity.
Qed.

Context {S : Type} `{StreamLaws S}.

(** What [Unser] makes of a script: overly long ones become unspendable. *)
Definition stored_script (script : bytes) : bytes :=
  match CompressScript script with
  | Some _ => script
  | None => if Z.of_nat (length script) >? MAX_SCRIPT_SIZE then [OP_RETURN] else script
  end.

Lemma ScriptCompression_reads script : Z.of_nat (length script) < 2 ^ 32 - 6 ->
  exists bs, Writes (S := S) (ScriptCompression_Ser script) bs tt /\
    Reads (S := S) (ScriptCompression_Unser []) bs (stored_script script).
Proof using H0 H2.
  intros Hlen. unfold ScriptCompression_Ser, stored_script. destruct (CompressScript script) as [out|] eqn:E.
  - destruct (CompressScript_decodes script out E) as (code & tail & -> & Hc & Hl & Hd).
    exists (code :: tail). split; [apply Writes_write|]. unfold ScriptCompression_Unser.
    assert (V : varint_bytes 32 code = [code]).
    { assert (code = 0 \/ code = 1 \/ code = 2 \/ code = 3 \/ code = 4 \/ code = 5) as Hcs by lia.
      destruct Hcs as [-> | [-> | [-> | [-> | [-> | ->]]]]]; reflexivity. }
    change (code :: tail) with ([code] ++ tail). rewrite <- V. eapply Reads_bind; [apply ReadVarInt_reads; [lia|word_lia]|].
    unfold nSpecialScripts. destruct (Z.ltb_spec code 6); [|lia]. rewrite <- Hl, Nat2Z.id.
    rewrite <- (app_nil_r tail) at 2. eapply Reads_bind; [apply Reads_read|]. rewrite Hd.
    intros s rest Hs Er. exists s. auto.
  - unfold nSpecialScripts. rewrite uwrap_small by word_lia. eexists. split.
    { eapply Writes_bind; [apply WriteVarInt_writes; [lia|word_lia]|apply Writes_write]. }
    unfold ScriptCompression_Unser. eapply Reads_bind; [apply ReadVarInt_reads; [lia|word_lia]|].
    unfold nSpecialScripts. destruct (Z.ltb_spec (Z.of_nat (length script) + 6) 6); [lia|].
    rewrite Z.add_simpl_r, Nat2Z.id. destruct (_ >? _); [|apply Reads_read].
    rewrite <- (app_nil_r script) at 2. eapply Reads_bind; [|apply Reads_ret].
    intros s rest Hs Er. destruct (ignore_law (length script) s Hs) as (s' & E1 & R1 & O1); [rewrite Er, length_app; lia|].
    exists s'. rewrite E1, R1, Er, drop_app_length. auto.
Qed.
End Scripts.

Lemma TxOutCompression_reads {E : ScriptEnv} {EL : ScriptEnvLaws} {S : Type} {HS : Stream S} {HL : StreamLaws S}
    (value : Z) (script : bytes) : MoneyRange value = true -> Z.of_nat (length script) < 2 ^ 32 - 6 ->
  exists bs, Writes (S := S) (TxOutCompression_Ser (value, script)) bs tt /\
    Reads (S := S) (TxOutCompression_Unser (0, [])) bs (value, stored_script script).
Proof.
  intros Hv Hs. destruct (amount_roundtrip value Hv) as (x & Ex & Hx & Dx).
  destruct (ScriptCompression_reads (S := S) script Hs) as (bs & W & R).
  assert (Hr : 0 <= value <= 121300000000000000).
  { unfold MoneyRange in Hv. zbool. change MAX_MONEY with 121300000000000000 in *. lia. }
  exists (varint_bytes 64 x ++ bs). split.
  - eapply Writes_bind; [|exact W]. cbn [fst]. unfold AmountCompression_Ser.
    rewrite (uwrap_small 64 value) by word_lia. rewrite Ex. change (varint_bytes 64 x) with ([] ++ varint_bytes 64 x).
    eapply Writes_bind; [apply Writes_ret|apply WriteVarInt_writes; [lia|exact Hx]].
  - eapply Reads_bind.
    + rewrite <- (app_nil_r (varint_bytes 64 x)). eapply Reads_bind; [apply ReadVarInt_reads; [lia|exact Hx]|apply Reads_ret].
    + rewrite Dx, swrap_small by word_lia. rewrite <- (app_nil_r bs). eapply Reads_bind; [exact R|apply Reads_ret].
Qed.

Lemma stored_script_short {E : ScriptEnv} script : Z.of_nat (length script) <= MAX_SCRIPT_SIZE -> stored_script script = script.
Proof.
  unfold stored_script. destruct (CompressScript script); [auto|]. intros Hle.
  destruct (Z.gtb_spec (Z.of_nat (length script)) MAX_SCRIPT_SIZE); [lia|reflexivity].
Qed.

(** C36. A compressed output reads back: for a value within [MoneyRange] and any
    script, what [TxOutCompression] writes is read as the same value and the
    same script, whatever special form the script took, and an overly long
    script without special form is skipped exactly and read as the
    unspendable [OP_RETURN].  In particular [DecompressAmount] inverts
    [CompressAmount] on all of [MoneyRange]. *)
Theorem TxOutCompression_roundtrip {E : ScriptEnv} {EL : ScriptEnvLaws} {S : Type} {HS : Stream S} {HL : StreamLaws S}
    (value : Z) (script : bytes) :
  MoneyRange value = true -> Z.of_nat (length script) < 2 ^ 32 - 6 ->
  (exists x, CompressAmount value = Ok x /\ DecompressAmount x = value) /\
  exists bs, Writes (S := S) (TxOutCompression_Ser (value, script)) bs tt /\
    Reads (S := S) (TxOutCompression_Unser (0, [])) bs (value, stored_script script) /\
    (Z.of_nat (length script) <= MAX_SCRIPT_SIZE -> stored_script script = script).
Proof.
  intros Hv Hs. split; [destruct (amount_roundtrip value Hv) as (x & Ex & Hx & Dx); eauto|].
  destruct (TxOutCompression_reads (S := S) value script Hv Hs) as (bs & W & R).
  exists bs. split; [exact W|]. split; [exact R|apply stored_script_short].
Qed.

(** Bitcoin's opcodes and a curve whose second coordinate is a parity. *)
Definition sample_env : ScriptEnv := {|
  OP_DUP := 0x76; OP_HASH160 := 0xa9; OP_EQUALVERIFY := 0x88; OP_EQUAL := 0x87; OP_CHECKSIG := 0xac; OP_RETURN := 0x6a;
  MAX_SCRIPT_SIZE := 10000;
  secp256k1_pubkey := bytes * Z;
  ec_pubkey_parse := fun k =>
    match k with
    | 4 :: xy => let b := nth 63 xy 0 in
        if (bool_decide (drop 32 xy = repeat 0 31 ++ [b]) && ((b =? 0) || (b =? 1)))%bool then Some (take 32 xy, b) else None
    | 2 :: x => Some (x, 0)
    | 3 :: x => Some (x, 1)
    | _ => None
    end;
  ec_pubkey_serialize_uncompressed := fun p => 4 :: fst p ++ repeat 0 31 ++ [snd p];
|}.

Lemma sample_env_laws : @ScriptEnvLaws sample_env.
Proof.
  split; [repeat constructor; cbn; lia|cbn; lia|]. intros x y p Hx Hy E. cbn [ec_pubkey_parse sample_env] in E.
  destruct (_ && _)%bool eqn:G; [|discriminate]. injection E as <-. apply andb_true_iff in G as [G1 G2].
  apply bool_decide_eq_true in G1. assert (N : nth 63 (x ++ y) 0 = nth 31 y 0) by (rewrite app_nth2 by lia; f_equal; lia).
  rewrite N in *. rewrite <- Hx in G1 at 1. rewrite drop_app_length in G1.
  assert (T : take 32 (x ++ y) = x) by (rewrite <- Hx; apply take_app_length). rewrite T.
  cbn [ec_pubkey_serialize_uncompressed sample_env fst snd]. rewrite <- G1. split; [reflexivity|].
  apply orb_true_iff in G2 as [G2|G2]; apply Z.eqb_eq in G2; rewrite G2; reflexivity.
Qed.

Lemma TxOutCompression_roundtrip_witness :
  exists bs, Reads (S := DataStream) (TxOutCompression_Unser (H := sample_env) (0, [])) bs (5000000000, [65; 4] ++ repeat 7 32 ++ repeat 0 31 ++ [1; 0xac]).
Proof.
  destruct (TxOutCompression_roundtrip (E := sample_env) (EL := sample_env_laws) (S := DataStream) 5000000000 ([65; 4] ++ repeat 7 32 ++ repeat 0 31 ++ [1; 0xac])) as (_ & bs & _ & R & L).
  - reflexivity.
  - cbn. lia.
  - exists bs. rewrite L in R by (cbn; lia). exact R.
Defined.
