(* ===== verification/Transaction.v ===== *)
(** * Transactions, as the modelled code sees them

    The primitives of the transaction format (primitives/transaction.h) and
    the script type (script/script.h) are not part of the repository.  The
    fields that the modelled code reads are records here; the predicates that
    it calls are the operations of the class [Primitives], with what the code
    relies on as [PrimitivesLaws]. *)

From stdpp Require Import base numbers list strings.
From Stdlib Require Import ZArith Lia.
From S2P Require Import Prelude.

Local Open Scope Z_scope.

(** A [COutPoint]: transaction hash and output number. *)
Notation COutPoint := (Z * Z)%type.
(** A [CTxOut]: [nValue] and [scriptPubKey]. *)
Notation CTxOut := (Z * bytes)%type.
Definition nValue (o : CTxOut) : Z := fst o.
Definition scriptPubKey (o : CTxOut) : bytes := snd o.

Record CTxIn : Type := { prevout : COutPoint; scriptSig : bytes; nSequence : Z }.

Record CTransaction : Type := {
  nVersion : Z;
  vin : list CTxIn;
  vout : list CTxOut;
  nLockTime : Z;
}.

Class Primitives : Type := {
  IsCoinBase : CTransaction -> bool;
  GetHash : CTransaction -> Z;
  COutPoint_IsNull : COutPoint -> bool;
  CTxOut_null : CTxOut;
  CTxOut_IsNull : CTxOut -> bool;
  IsUnspendable : bytes -> bool;
  script_usage : bytes -> Z;
}.

(** A cleared output is null and holds no memory; null outputs have the value -1. *)
Class PrimitivesLaws `{Primitives} : Prop := {
  null_IsNull : CTxOut_IsNull CTxOut_null = true;
  null_usage : script_usage (scriptPubKey CTxOut_null) = 0;
  null_value : forall o, CTxOut_IsNull o = true -> nValue o = -1;
}.
