(* ===== verification/Coins.v ===== *)
(** * The coins cache

    Models [src/coins.cpp] and [src/coins.h]: coins, cache entries with their
    DIRTY and FRESH flags, and [CCoinsViewCache] over any [CCoinsView].  The
    virtual interface is the class [CCoinsView]; a cache is itself an instance,
    so that caches stack as in the program. *)

From stdpp Require Import base numbers list gmap strings.
From Stdlib Require Import ZArith Lia.
From S2P Require Import Prelude Params Streams Serialize Compressor Transaction.

Local Open Scope Z_scope.

(** ** Coins *)

Record Coin : Type := { out : CTxOut; fCoinBase : bool; nHeight : Z }.

#[global] Instance Coin_eq_dec : EqDecision Coin.
Proof. solve_decision. Defined.

Record CCoinsCacheEntry : Type := { coin : Coin; flags : Z }.

Definition DIRTY : Z := Z.shiftl 1 0.
Definition FRESH : Z := Z.shiftl 1 1.

Definition has_flag (e : CCoinsCacheEntry) (f : Z) : bool := negb (Z.land (flags e) f =? 0).

Notation CCoinsMap := (gmap COutPoint CCoinsCacheEntry).

Section Coins.
Context `{Primitives}.

Definition Coin_make (outIn : CTxOut) (nHeightIn : Z) (fCoinBaseIn : bool) : Coin :=
  {| out := outIn; fCoinBase := fCoinBaseIn; nHeight := uwrap 31 nHeightIn |}.
Definition coinEmpty : Coin := {| out := CTxOut_null; fCoinBase := false; nHeight := 0 |}.
Definition Coin_Clear (c : Coin) : Coin := coinEmpty.
Definition IsSpent (c : Coin) : bool := CTxOut_IsNull (out c).
Definition Coin_usage (c : Coin) : Z := script_usage (scriptPubKey (out c)).

Definition Coin_Serialize `{ScriptEnv} {S : Type} `{Stream S} (c : Coin) : stm S unit :=
  _ ← lift_st (assert_ (negb (IsSpent c)));
  let code := u32 (nHeight c * 2 + Z.b2z (fCoinBase c)) in
  _ ← WriteVarInt 32 code;
  TxOutCompression_Ser (out c).

(** [c] is the coin read into. *)
Definition Coin_Unserialize `{ScriptEnv} {S : Type} `{Stream S} (c : Coin) : stm S Coin :=
  code ← ReadVarInt 32;
  o ← TxOutCompression_Unser (out c);
  mret {| out := o; fCoinBase := negb (Z.land code 1 =? 0); nHeight := Z.shiftr code 1 |}.

(** ** Views *)

(** The virtual methods of [CCoinsView].  [BatchWrite] also consumes the map it
    is handed. *)
Class CCoinsView (V : Type) : Type := {
  view_GetCoin : COutPoint -> stm V (option Coin);
  view_HaveCoin : COutPoint -> stm V bool;
  view_GetBestBlock : stm V Z;
  view_BatchWrite : Z -> bool -> stm (V * CCoinsMap) bool;
}.

(** ** [CCoinsViewCache] *)

Record CCoinsViewCache (V : Type) : Type := {
  base : V;
  hashBlock : Z;
  cacheCoins : CCoinsMap;
  cachedCoinsUsage : Z;
}.
#[global] Arguments base {V} _.
#[global] Arguments hashBlock {V} _.
#[global] Arguments cacheCoins {V} _.
#[global] Arguments cachedCoinsUsage {V} _.

Definition new_cache {V} (b : V) : CCoinsViewCache V :=
  {| base := b; hashBlock := 0; cacheCoins := ∅; cachedCoinsUsage := 0 |}.

Section Cache.
Context {V : Type} `{CCoinsView V}.
Notation cache := (CCoinsViewCache V).

Definition set_base (b : V) (c : cache) : cache :=
  {| base := b; hashBlock := hashBlock c; cacheCoins := cacheCoins c; cachedCoinsUsage := cachedCoinsUsage c |}.
Definition set_hashBlock (h : Z) (c : cache) : cache :=
  {| base := base c; hashBlock := h; cacheCoins := cacheCoins c; cachedCoinsUsage := cachedCoinsUsage c |}.
Definition set_entries (m : CCoinsMap) (c : cache) : cache :=
  {| base := base c; hashBlock := hashBlock c; cacheCoins := m; cachedCoinsUsage := cachedCoinsUsage c |}.
(** [cachedCoinsUsage] is a [size_t]. *)
Definition add_usage (d : Z) (c : cache) : cache :=
  {| base := base c; hashBlock := hashBlock c; cacheCoins := cacheCoins c; cachedCoinsUsage := u64 (cachedCoinsUsage c + d) |}.

(** A call through the [base] pointer. *)
Definition on_base {A} (m : stm V A) : stm cache A := fun c =>
  let '(r, b) := m (base c) in (r, set_base b c).

Definition put_entry (outpoint : COutPoint) (e : CCoinsCacheEntry) (c : cache) : cache :=
  set_entries (<[outpoint := e]> (cacheCoins c)) c.
Definition erase_entry (outpoint : COutPoint) (c : cache) : cache :=
  set_entries (delete outpoint (cacheCoins c)) c.

(** [FetchCoin] returns an iterator: the entry, or [None] for [end()]. *)
Definition FetchCoin (outpoint : COutPoint) : stm cache (option CCoinsCacheEntry) :=
  c ← get_st;
  match cacheCoins c !! outpoint with
  | Some e => mret (Some e)
  | None =>
      tmp ← on_base (view_GetCoin outpoint);
      match tmp with
      | None => mret None
      | Some coin =>
          let e := {| coin := coin; flags := if IsSpent coin then FRESH else 0 |} in
          _ ← modify_st (put_entry outpoint e);
          _ ← modify_st (add_usage (Coin_usage coin));
          mret (Some e)
      end
  end.

Definition GetCoin (outpoint : COutPoint) : stm cache (option Coin) :=
  it ← FetchCoin outpoint;
  mret (match it with
        | Some e => if IsSpent (coin e) then None else Some (coin e)
        | None => None
        end).

Definition AddCoin (outpoint : COutPoint) (c : Coin) (possible_overwrite : bool) : stm cache unit :=
  _ ← lift_st (assert_ (negb (IsSpent c)));
  if IsUnspendable (scriptPubKey (out c)) then mret tt
  else
    s ← get_st;
    let inserted := bool_decide (cacheCoins s !! outpoint = None) in
    let it := default {| coin := coinEmpty; flags := 0 |} (cacheCoins s !! outpoint) in
    _ ← (if inserted then modify_st (put_entry outpoint it)
         else modify_st (add_usage (- Coin_usage (coin it))));
    fresh ← (if negb possible_overwrite then
               if negb (IsSpent (coin it))
               then fail_st (Thrown "Attempted to overwrite an unspent coin (when possible_overwrite is false)")
               else mret (negb (has_flag it DIRTY))
             else mret false);
    _ ← modify_st (put_entry outpoint
          {| coin := c; flags := Z.lor (flags it) (Z.lor DIRTY (if fresh : bool then FRESH else 0)) |});
    modify_st (add_usage (Coin_usage c)).

(** [emplace] does nothing when the key is present. *)
Definition EmplaceCoinInternalDANGER (outpoint : COutPoint) (c : Coin) : stm cache unit :=
  _ ← modify_st (add_usage (Coin_usage c));
  s ← get_st;
  match cacheCoins s !! outpoint with
  | Some _ => mret tt
  | None => modify_st (put_entry outpoint {| coin := c; flags := DIRTY |})
  end.

(** [SpendCoin]: the flag returned and what [moveout] receives, where the
    function gets that far. *)
Definition SpendCoin (outpoint : COutPoint) : stm cache (bool * option Coin) :=
  it ← FetchCoin outpoint;
  match it with
  | None => mret (false, None)
  | Some e =>
      _ ← modify_st (add_usage (- Coin_usage (coin e)));
      _ ← (if has_flag e FRESH then modify_st (erase_entry outpoint)
           else modify_st (put_entry outpoint {| coin := Coin_Clear (coin e); flags := Z.lor (flags e) DIRTY |}));
      mret (true, Some (coin e))
  end.

Definition AccessCoin (outpoint : COutPoint) : stm cache Coin :=
  it ← FetchCoin outpoint;
  mret (match it with None => coinEmpty | Some e => coin e end).

Definition HaveCoin (outpoint : COutPoint) : stm cache bool :=
  it ← FetchCoin outpoint;
  mret (match it with None => false | Some e => negb (IsSpent (coin e)) end).

Definition HaveCoinInCache (outpoint : COutPoint) : stm cache bool :=
  s ← get_st;
  mret (match cacheCoins s !! outpoint with None => false | Some e => negb (IsSpent (coin e)) end).

Definition GetBestBlock : stm cache Z :=
  s ← get_st;
  _ ← (if hashBlock s =? 0 then h ← on_base view_GetBestBlock; modify_st (set_hashBlock h) else mret tt);
  s ← get_st;
  mret (hashBlock s).

Definition SetBestBlock (hashBlockIn : Z) : stm cache unit := modify_st (set_hashBlock hashBlockIn).

(** What one entry of the child's map does to this cache. *)
Definition batch_entry (outpoint : COutPoint) (e : CCoinsCacheEntry) : stm cache unit :=
  if negb (has_flag e DIRTY) then mret tt
  else
    s ← get_st;
    match cacheCoins s !! outpoint with
    | None =>
        if (has_flag e FRESH && IsSpent (coin e))%bool then mret tt
        else
          _ ← modify_st (put_entry outpoint
                {| coin := coin e; flags := if has_flag e FRESH then Z.lor DIRTY FRESH else DIRTY |});
          modify_st (add_usage (Coin_usage (coin e)))
    | Some itUs =>
        if (has_flag e FRESH && negb (IsSpent (coin itUs)))%bool
        then fail_st (Thrown "FRESH flag misapplied to coin that exists in parent cache")
        else if (has_flag itUs FRESH && IsSpent (coin e))%bool then
          _ ← modify_st (add_usage (- Coin_usage (coin itUs)));
          modify_st (erase_entry outpoint)
        else
          _ ← modify_st (add_usage (- Coin_usage (coin itUs)));
          _ ← modify_st (put_entry outpoint {| coin := coin e; flags := Z.lor (flags itUs) DIRTY |});
          modify_st (add_usage (Coin_usage (coin e)))
    end.

(** The loop over the child's map, in the order [l]. *)
Fixpoint batch_loop (erase : bool) (l : list (COutPoint * CCoinsCacheEntry)) : stm (cache * CCoinsMap) unit :=
  match l with
  | [] => mret tt
  | (outpoint, e) :: rest => fun '(c, m) =>
      match batch_entry outpoint e c with
      | (Fail err, c') => (Fail err, (c', m))
      | (Ok _, c') => batch_loop erase rest (c', if erase then delete outpoint m else m)
      end
  end.

Definition BatchWrite (hashBlockIn : Z) (erase : bool) : stm (cache * CCoinsMap) bool := fun '(c, m) =>
  match batch_loop erase (map_to_list m) (c, m) with
  | (Fail err, s) => (Fail err, s)
  | (Ok _, (c', m')) => (Ok true, (set_hashBlock hashBlockIn c', m'))
  end.

(** [base->BatchWrite(cacheCoins, hashBlock, erase)]. *)
Definition base_BatchWrite (erase : bool) : stm cache bool := fun c =>
  let '(r, (b, m)) := view_BatchWrite (hashBlock c) erase (base c, cacheCoins c) in
  (r, set_entries m (set_base b c)).

Definition ReallocateCache : stm cache unit :=
  s ← get_st;
  _ ← lift_st (assert_ (bool_decide (cacheCoins s = ∅)));
  modify_st (set_entries ∅).

Definition Flush : stm cache bool :=
  fOk ← base_BatchWrite true;
  _ ← (if fOk : bool then
         s ← get_st;
         if negb (bool_decide (cacheCoins s = ∅)) then fail_st (Thrown "Not all cached coins were erased")
         else ReallocateCache
       else mret tt);
  _ ← modify_st (fun c => {| base := base c; hashBlock := hashBlock c; cacheCoins := cacheCoins c; cachedCoinsUsage := 0 |});
  mret fOk.

(** The loop of [Sync] over the cache's own map, in the order [l]. *)
Fixpoint sync_loop (l : list (COutPoint * CCoinsCacheEntry)) (c : cache) : cache :=
  match l with
  | [] => c
  | (outpoint, e) :: rest =>
      sync_loop rest
        (if IsSpent (coin e) then erase_entry outpoint (add_usage (- Coin_usage (coin e)) c)
         else put_entry outpoint {| coin := coin e; flags := 0 |} c)
  end.

Definition Sync : stm cache bool :=
  fOk ← base_BatchWrite false;
  _ ← modify_st (fun c => sync_loop (map_to_list (cacheCoins c)) c);
  mret fOk.

Definition Uncache (hash : COutPoint) : stm cache unit :=
  s ← get_st;
  match cacheCoins s !! hash with
  | Some e =>
      if flags e =? 0 then
        _ ← modify_st (add_usage (- Coin_usage (coin e)));
        modify_st (erase_entry hash)
      else mret tt
  | None => mret tt
  end.

Definition GetCacheSize (c : cache) : Z := u32 (Z.of_nat (size (cacheCoins c))).

Fixpoint have_inputs_loop (l : list CTxIn) : stm cache bool :=
  match l with
  | [] => mret true
  | i :: rest => b ← HaveCoin (prevout i); if negb b then mret false else have_inputs_loop rest
  end.

Definition HaveInputs (tx : CTransaction) : stm cache bool :=
  if negb (IsCoinBase tx) then have_inputs_loop (vin tx) else mret true.

(** [SanityCheck]: [false] stands for a failed assertion. *)
Definition sanity_attr (e : CCoinsCacheEntry) : Z :=
  Z.lor (if has_flag e DIRTY then 1 else 0)
    (Z.lor (if has_flag e FRESH then 2 else 0) (if IsSpent (coin e) then 4 else 0)).

Definition recomputed_usage (m : CCoinsMap) : Z :=
  map_fold (fun _ e acc => u64 (acc + Coin_usage (coin e))) 0 m.

Definition SanityCheck (c : cache) : bool :=
  forallb (fun p => let attr := sanity_attr (snd p) in negb (attr =? 2) && negb (attr =? 4) && negb (attr =? 7))
    (map_to_list (cacheCoins c))
  && (recomputed_usage (cacheCoins c) =? cachedCoinsUsage c).

(** *** Utilities *)

Fixpoint AddCoins_loop (txid height : Z) (fCoinbase check : bool) (i : Z) (outs : list CTxOut) : stm cache unit :=
  match outs with
  | [] => mret tt
  | o :: rest =>
      overwrite ← (if check then HaveCoin (txid, u32 i) else mret fCoinbase);
      _ ← AddCoin (txid, u32 i) (Coin_make o height fCoinbase) overwrite;
      AddCoins_loop txid height fCoinbase check (i + 1) rest
  end.

Definition AddCoins (tx : CTransaction) (height : Z) (check_for_overwrite : bool) : stm cache unit :=
  AddCoins_loop (GetHash tx) height (IsCoinBase tx) check_for_overwrite 0 (vout tx).

(** [AccessByTxid]: [n] outputs are left of [MAX_OUTPUTS_PER_BLOCK]. *)
Fixpoint access_loop (n : nat) (txid i : Z) : stm cache Coin :=
  match n with
  | O => mret coinEmpty
  | Datatypes.S n' =>
      alternate ← AccessCoin (txid, i);
      if negb (IsSpent alternate) then mret alternate else access_loop n' txid (i + 1)
  end.

(** [txout_size] is [GetSerializeSize(CTxOut())]. *)
Definition MAX_OUTPUTS_PER_BLOCK (txout_size : Z) : Z := MAX_BLOCK_WEIGHT / (WITNESS_SCALE_FACTOR * txout_size).

Definition AccessByTxid (txout_size txid : Z) : stm cache Coin :=
  access_loop (Z.to_nat (MAX_OUTPUTS_PER_BLOCK txout_size)) txid 0.
End Cache.

#[global] Instance cache_view {V} `{CCoinsView V} : CCoinsView (CCoinsViewCache V) := {|
  view_GetCoin := GetCoin;
  view_HaveCoin := HaveCoin;
  view_GetBestBlock := GetBestBlock;
  view_BatchWrite := BatchWrite;
|}.
End Coins.
