(* ===== verification/CoinsProofs.v ===== *)
(** * The coins cache is transparent

    A view stands for a set of unspent coins ([coins]) and the block they
    belong to ([best]).  The class [ViewLaws] is what a cache relies on of its
    base, [ViewReads] the part of it that reading needs; the theorems show that every operation of [CCoinsViewCache] acts on
    the set of coins as the plain map operation would, that the DIRTY and FRESH
    bookkeeping and the memory accounting stay exact, and that a cache again
    satisfies [ViewLaws], so that any stack of caches does. *)

From stdpp Require Import base numbers list gmap strings relations.
From Stdlib Require Import ZArith Lia.
From S2P Require Import Prelude Params Streams Serialize Compressor Transaction Coins.

Local Open Scope Z_scope.

Section Spec.
Context {HP : Primitives} {HPL : PrimitivesLaws}.

(** The coin an entry stands for. *)
Definition live (c : Coin) : option Coin := if IsSpent c then None else Some c.

(** The five combinations of [SanityCheck]. *)
Definition valid_entry (e : CCoinsCacheEntry) : Prop :=
  (flags e = 0 /\ IsSpent (coin e) = false) \/ (flags e = 1) \/
  (flags e = 2 /\ IsSpent (coin e) = true) \/ (flags e = 3 /\ IsSpent (coin e) = false).

(** A map that may be written to a view holding [u]. *)
Definition batch_ok (m : CCoinsMap) (u : gmap COutPoint Coin) : Prop :=
  map_Forall (fun op e => valid_entry e /\ (has_flag e FRESH = true -> u !! op = None)) m.

(** Its effect: dirty entries replace what the view holds. *)
Definition apply_batch (m : CCoinsMap) (u : gmap COutPoint Coin) : gmap COutPoint Coin :=
  merge (fun e x => match e with Some e => if has_flag e DIRTY then live (coin e) else x | None => x end) m u.

Class ViewAbs (V : Type) : Type := {
  coins : V -> gmap COutPoint Coin;
  best : V -> Z;
  view_ok : V -> Prop;
}.

Definition same_view {V} `{ViewAbs V} (v v' : V) : Prop :=
  coins v' = coins v /\ best v' = best v /\ view_ok v'.

Class ViewReads (V : Type) `{CCoinsView V, ViewAbs V} : Prop := {
  coins_unspent : forall v op c, view_ok v -> coins v !! op = Some c -> IsSpent c = false;
  get_law : forall v op, view_ok v -> exists v', view_GetCoin op v = (Ok (coins v !! op), v') /\ same_view v v';
  have_law : forall v op, view_ok v -> exists v',
    view_HaveCoin op v = (Ok (bool_decide (is_Some (coins v !! op))), v') /\ same_view v v';
  best_law : forall v, view_ok v -> exists v', view_GetBestBlock v = (Ok (best v), v') /\ same_view v v';
}.

(** A view whose writes succeed: a cache, or a database without errors. *)
Class ViewLaws (V : Type) `{CCoinsView V, ViewAbs V} : Prop := {
  #[global] view_reads :: ViewReads V;
  batch_law : forall v m h erase, view_ok v -> h <> 0 -> batch_ok m (coins v) -> exists v',
    view_BatchWrite h erase (v, m) = (Ok true, (v', if erase then ∅ else m)) /\
    coins v' = apply_batch m (coins v) /\ best v' = h /\ view_ok v';
}.

(** ** Entries over a base *)

Definition entry_ok (u : gmap COutPoint Coin) (op : COutPoint) (e : CCoinsCacheEntry) : Prop :=
  valid_entry e /\ (has_flag e FRESH = true -> u !! op = None) /\
  (has_flag e DIRTY = false -> u !! op = live (coin e)).

Definition overlay (m : CCoinsMap) (u : gmap COutPoint Coin) : gmap COutPoint Coin :=
  merge (fun e x => match e with Some e => live (coin e) | None => x end) m u.

Definition usage_sum (m : CCoinsMap) : Z := map_fold (fun _ e acc => Coin_usage (coin e) + acc) 0 m.

Lemma lookup_overlay m u op :
  overlay m u !! op = match m !! op with Some e => live (coin e) | None => u !! op end.
Proof using. unfold overlay. rewrite lookup_merge. destruct (m !! op), (u !! op); reflexivity. Qed.

Lemma lookup_apply_batch m u op :
  apply_batch m u !! op = match m !! op with Some e => if has_flag e DIRTY then live (coin e) else u !! op | None => u !! op end.
Proof using. unfold apply_batch. rewrite lookup_merge. destruct (m !! op), (u !! op); reflexivity. Qed.

Lemma overlay_insert m u op e :
  overlay (<[op := e]> m) u = partial_alter (fun _ => live (coin e)) op (overlay m u).
Proof using.
  apply map_eq. intros k. rewrite lookup_overlay. destruct (decide (op = k)) as [<-|Hne].
  - rewrite lookup_insert_eq, lookup_partial_alter_eq. reflexivity.
  - rewrite lookup_insert_ne, lookup_partial_alter_ne, lookup_overlay by auto. reflexivity.
Qed.

Lemma overlay_delete m u op : overlay (delete op m) u = partial_alter (fun _ => u !! op) op (overlay m u).
Proof using.
  apply map_eq. intros k. rewrite lookup_overlay. destruct (decide (op = k)) as [<-|Hne].
  - rewrite lookup_delete_eq, lookup_partial_alter_eq. reflexivity.
  - rewrite lookup_delete_ne, lookup_partial_alter_ne, lookup_overlay by auto. reflexivity.
Qed.

Lemma partial_alter_same {A} (m : gmap COutPoint A) op : partial_alter (fun _ => m !! op) op m = m.
Proof using.
  apply map_eq. intros k. destruct (decide (op = k)) as [<-|Hne];
    [rewrite lookup_partial_alter_eq|rewrite lookup_partial_alter_ne by auto]; reflexivity.
Qed.

Lemma same_view_refl {V} `{ViewAbs V} (v : V) : view_ok v -> same_view v v.
Proof using. intros Hv. split; [reflexivity|]. split; [reflexivity|exact Hv]. Qed.

Lemma same_view_intro {V} `{ViewAbs V} (v v' : V) : coins v' = coins v -> best v' = best v -> view_ok v' -> same_view v v'.
Proof using. unfold same_view. auto. Qed.

(** What is flushed is what the cache stands for. *)
Lemma apply_batch_overlay m u : map_Forall (entry_ok u) m -> apply_batch m u = overlay m u /\ batch_ok m u.
Proof using.
  intros Hm. split.
  - apply map_eq. intros k. rewrite lookup_overlay, lookup_apply_batch.
    destruct (m !! k) as [e|] eqn:E; [|reflexivity]. destruct (Hm k e E) as (_ & _ & Hd).
    destruct (has_flag e DIRTY); auto.
  - intros k e E. destruct (Hm k e E) as (Hv & Hf & _). auto.
Qed.

Lemma has_flag_cases e : valid_entry e ->
  has_flag e DIRTY = ((flags e =? 1) || (flags e =? 3))%bool /\ has_flag e FRESH = ((flags e =? 2) || (flags e =? 3))%bool.
Proof using. unfold has_flag, valid_entry. intros [[-> _]|[->|[[-> _]|[-> _]]]]; split; reflexivity. Qed.

(** Setting flags on an entry. *)
Lemma dirty_entry_ok u op e x (fr : bool) : entry_ok u op e ->
  (fr = true -> u !! op = None) -> (IsSpent x = true -> has_flag e FRESH = false /\ fr = false) ->
  entry_ok u op {| coin := x; flags := Z.lor (flags e) (Z.lor DIRTY (if fr then FRESH else 0)) |}.
Proof using.
  intros (Hv & Hf & _) Hfr Hx. unfold entry_ok, valid_entry, has_flag in *. cbn [coin flags] in *.
  assert (Fe : flags e = 0 \/ flags e = 1 \/ flags e = 2 \/ flags e = 3) by tauto. clear Hv.
  assert (Hx' : Z.land (flags e) FRESH <> 0 \/ fr = true -> IsSpent x = false).
  { destruct (IsSpent x); [|reflexivity]. destruct (Hx eq_refl) as [F ->]. zbool. intros [?|?]; [contradiction|discriminate]. }
  clear Hx. change DIRTY with 1 in *. change FRESH with 2 in *.
  destruct Fe as [Fe|[Fe|[Fe|Fe]]]; rewrite Fe in *; destruct fr; cbn in *.
  all: split; [|split; [solve [auto|discriminate]|discriminate]].
  all: (right; left; reflexivity) || (right; right; right; split; [reflexivity|apply Hx'; auto; left; discriminate]).
Qed.

Lemma new_entry_ok u op x (fr : bool) : (fr = true -> u !! op = None) -> (IsSpent x = true -> fr = false) ->
  entry_ok u op {| coin := x; flags := Z.lor DIRTY (if fr then FRESH else 0) |}.
Proof using.
  intros Hfr Hx. unfold entry_ok, valid_entry, has_flag.
  change DIRTY with 1. change FRESH with 2. destruct fr; cbn.
  all: split; [|split; [solve [auto|discriminate]|discriminate]].
  - right; right; right. split; [reflexivity|]. destruct (IsSpent x); [|reflexivity]. discriminate (Hx eq_refl).
  - right; left; reflexivity.
Qed.

(** ** Memory accounting *)

Lemma usage_insert_new m op e : m !! op = None -> usage_sum (<[op := e]> m) = usage_sum m + Coin_usage (coin e).
Proof using.
  intros E. unfold usage_sum. rewrite map_fold_insert_L; auto; [lia|]. intros. lia.
Qed.

Lemma usage_delete m op e : m !! op = Some e -> usage_sum (delete op m) = usage_sum m - Coin_usage (coin e).
Proof using.
  intros E. rewrite <- (insert_delete_id m op e E) at 2. rewrite usage_insert_new by apply lookup_delete_eq. lia.
Qed.

Lemma usage_insert m op e e0 : m !! op = Some e0 ->
  usage_sum (<[op := e]> m) = usage_sum m - Coin_usage (coin e0) + Coin_usage (coin e).
Proof using.
  intros E. rewrite <- insert_delete_eq, usage_insert_new by apply lookup_delete_eq. rewrite (usage_delete m op e0 E). lia.
Qed.

Lemma recomputed_usage_sum m : recomputed_usage m = u64 (usage_sum m).
Proof using.
  unfold recomputed_usage, usage_sum. induction m as [|op e m Hn Hfst IH] using map_first_key_ind; [reflexivity|].
  rewrite !(map_fold_insert_first_key _ _ m op e) by auto. rewrite IH. unfold uwrap. rewrite Zplus_mod_idemp_l. f_equal. lia.
Qed.

Lemma u64_add a b : u64 (u64 a + b) = u64 (a + b).
Proof using. apply Zplus_mod_idemp_l. Qed.

(** ** The operations *)

Section Cache.
Context {V : Type} {HV : CCoinsView V} {HA : ViewAbs V} {HR : ViewReads V}.
Notation cache := (CCoinsViewCache V).

#[global] Instance cache_abs : ViewAbs cache := {|
  coins := fun c => overlay (cacheCoins c) (coins (base c));
  best := fun c => if hashBlock c =? 0 then best (base c) else hashBlock c;
  view_ok := fun c => view_ok (base c) /\ map_Forall (entry_ok (coins (base c))) (cacheCoins c) /\
    cachedCoinsUsage c = u64 (usage_sum (cacheCoins c));
|}.

(** A change of one entry that keeps it consistent with the base. *)
Lemma put_entry_ok (c : cache) op e d : view_ok c -> entry_ok (coins (base c)) op e ->
  usage_sum (<[op := e]> (cacheCoins c)) = usage_sum (cacheCoins c) + d ->
  let c' := add_usage d (put_entry op e c) in
  view_ok c' /\ coins c' = partial_alter (fun _ => live (coin e)) op (coins c) /\ best c' = best c.
Proof using.
  intros (Hb & Hm & Hu) He Hd. cbn. split; [|split; [apply overlay_insert|reflexivity]].
  split; [exact Hb|]. split; [apply map_Forall_insert_2; auto|]. rewrite Hu, u64_add, Hd. reflexivity.
Qed.

Lemma erase_entry_ok (c : cache) op e : view_ok c -> cacheCoins c !! op = Some e ->
  let c' := erase_entry op (add_usage (- Coin_usage (coin e)) c) in
  view_ok c' /\ coins c' = partial_alter (fun _ => coins (base c) !! op) op (coins c) /\ best c' = best c.
Proof using.
  intros (Hb & Hm & Hu) E. cbn. split; [|split; [apply overlay_delete|reflexivity]].
  split; [exact Hb|]. split; [apply map_Forall_delete; exact Hm|]. rewrite Hu, u64_add, (usage_delete _ op e E). reflexivity.
Qed.

Lemma coins_lookup (c : cache) op e : view_ok c -> cacheCoins c !! op = Some e -> coins c !! op = live (coin e).
Proof using. intros _ E. cbn. rewrite lookup_overlay, E. reflexivity. Qed.

Lemma live_spent c : IsSpent c = true -> live c = None.
Proof using. unfold live. intros ->. reflexivity. Qed.
Lemma live_unspent c : IsSpent c = false -> live c = Some c.
Proof using. unfold live. intros ->. reflexivity. Qed.

(** Reading through the cache: the entry found stands for the coin of the view. *)
Lemma FetchCoin_spec (c : cache) op : view_ok c -> exists it c',
  FetchCoin op c = (Ok it, c') /\ same_view c c' /\ cacheCoins c' !! op = it /\
  coins c !! op = match it with Some e => live (coin e) | None => None end.
Proof using HR.
  intros Hok. unfold FetchCoin, mbind, stm_bind, get_st. destruct (cacheCoins c !! op) as [e|] eqn:E.
  { exists (Some e), c. split; [reflexivity|]. split; [apply same_view_refl, Hok|]. split; [exact E|]. apply coins_lookup; auto. }
  destruct Hok as (Hb & Hm & Hu). destruct (get_law (base c) op Hb) as (b' & Eb & Cb & Bb & Ob).
  unfold on_base. rewrite Eb. assert (Ec : coins c !! op = coins (base c) !! op) by (cbn; rewrite lookup_overlay, E; reflexivity).
  assert (Hok' : view_ok (set_base b' c)) by (cbn; rewrite Cb; auto).
  assert (Same : same_view c (set_base b' c)) by (unfold same_view; cbn; rewrite Cb, Bb; auto).
  destruct (coins (base c) !! op) as [x|] eqn:Ex.
  - pose proof (coins_unspent (base c) op x Hb Ex) as Hx. rewrite Hx. unfold modify_st, mret, stm_ret.
    pose (e := {| coin := x; flags := 0 |}).
    destruct (put_entry_ok (set_base b' c) op e (Coin_usage x) Hok') as (O & C & B).
    + cbn. rewrite Cb. unfold e. split; [left; auto|]. split; [discriminate|]. intros _. cbn. rewrite live_unspent by auto. exact Ex.
    + cbn. rewrite usage_insert_new by exact E. reflexivity.
    + exists (Some e). eexists. split; [reflexivity|]. destruct Same as (Sc & Sb & _).
      split; [|split; [apply lookup_insert_eq|]].
      * apply same_view_intro; [|etransitivity; [exact B|exact Sb]|exact O]. etransitivity; [exact C|].
        rewrite Sc. cbn [coin e]. rewrite live_unspent, <- Ec by auto. apply partial_alter_same.
      * rewrite Ec. cbn. rewrite live_unspent by auto. reflexivity.
  - exists None, (set_base b' c). split; [reflexivity|]. split; [exact Same|]. split; [exact E|exact Ec].
Qed.

(** [fetch c op] runs [FetchCoin] in a goal about an operation built on it. *)
Ltac fetch Hok op :=
  let it := fresh "it" in let c' := fresh "c'" in
  destruct (FetchCoin_spec _ op Hok) as (it & c' & Ef & (Sc & Sb & So) & El & Ec).

Lemma GetCoin_spec (c : cache) op : view_ok c -> exists c', GetCoin op c = (Ok (coins c !! op), c') /\ same_view c c'.
Proof using HR.
  intros Hok. fetch Hok op. unfold GetCoin, mbind, stm_bind. rewrite Ef, Ec. exists c'. split; [|apply same_view_intro; assumption].
  destruct it as [e|]; [unfold live; destruct (IsSpent (coin e))|]; reflexivity.
Qed.

Lemma HaveCoin_spec (c : cache) op : view_ok c ->
  exists c', HaveCoin op c = (Ok (bool_decide (is_Some (coins c !! op))), c') /\ same_view c c'.
Proof using HR.
  intros Hok. fetch Hok op. unfold HaveCoin, mbind, stm_bind. rewrite Ef, Ec. exists c'. split; [|apply same_view_intro; assumption].
  destruct it as [e|]; [unfold live; destruct (IsSpent (coin e))|]; reflexivity.
Qed.

Lemma AccessCoin_spec (c : cache) op : view_ok c ->
  exists x c', AccessCoin op c = (Ok x, c') /\ same_view c c' /\ live x = coins c !! op.
Proof using HPL HR.
  intros Hok. fetch Hok op. unfold AccessCoin, mbind, stm_bind. rewrite Ef, Ec. eexists _, c'. split; [reflexivity|].
  split; [apply same_view_intro; assumption|]. destruct it as [e|]; [reflexivity|]. apply live_spent. apply null_IsNull.
Qed.

Lemma GetBestBlock_spec (c : cache) : view_ok c -> exists c', GetBestBlock c = (Ok (best c), c') /\ same_view c c'.
Proof using HR.
  intros Hok. unfold GetBestBlock, mbind, stm_bind, get_st. cbn [best cache_abs]. destruct (Z.eqb_spec (hashBlock c) 0) as [E|E].
  - destruct Hok as (Hb & Hm & Hu). destruct (best_law (base c) Hb) as (b' & Eb & Cb & Bb & Ob).
    unfold on_base. rewrite Eb. eexists. split; [reflexivity|]. unfold same_view. cbn. rewrite Cb, Bb, E.
    split; [reflexivity|]. split; [|auto]. destruct (best (base c) =? 0); reflexivity.
  - exists c. split; [reflexivity|]. apply same_view_refl, Hok.
Qed.

Lemma usage_put (c : cache) op e a b : add_usage a (put_entry op e (add_usage b c)) = add_usage (b + a) (put_entry op e c).
Proof using. unfold add_usage, put_entry, set_entries. cbn. rewrite u64_add. f_equal. f_equal. lia. Qed.

Lemma usage_erase (c : cache) op a : erase_entry op (add_usage a c) = add_usage a (erase_entry op c).
Proof using. reflexivity. Qed.

Lemma put_put (c : cache) op e e' : put_entry op e' (put_entry op e c) = put_entry op e' c.
Proof using. unfold put_entry, set_entries. cbn. rewrite insert_insert_eq. reflexivity. Qed.

(** Adding a coin: a coin that may exist unspent below must not be marked FRESH. *)
Lemma AddCoin_spec (c : cache) op x possible_overwrite : view_ok c -> IsSpent x = false ->
  (possible_overwrite = true \/ coins c !! op = None) -> exists c',
  AddCoin op x possible_overwrite c = (Ok tt, c') /\ view_ok c' /\ best c' = best c /\
  coins c' = if IsUnspendable (scriptPubKey (out x)) then coins c else <[op := x]> (coins c).
Proof using HPL.
  intros Hok Hx Hpo. unfold AddCoin, mbind, stm_bind, lift_st. rewrite Hx. cbn [negb assert_].
  destruct (IsUnspendable _); [exists c; auto|]. unfold get_st, modify_st, mret, stm_ret, fail_st.
  destruct (cacheCoins c !! op) as [e|] eqn:E.
  - rewrite bool_decide_eq_false_2 by discriminate. cbn [default id from_option].
    pose proof Hok as (_ & Hm & _). destruct (Hm op e E) as (Hv & Hf & Hd).
    pose proof (coins_lookup c op e Hok E) as Ec.
    set (fr := (negb possible_overwrite && negb (has_flag e DIRTY))%bool).
    assert (Hs : possible_overwrite = false -> IsSpent (coin e) = true).
    { intros ->. destruct Hpo as [?|Hn]; [discriminate|]. rewrite Ec in Hn. unfold live in Hn.
      destruct (IsSpent (coin e)); [reflexivity|discriminate]. }
    assert (He : entry_ok (coins (base c)) op {| coin := x; flags := Z.lor (flags e) (Z.lor DIRTY (if fr then FRESH else 0)) |}).
    { apply dirty_entry_ok; [exact (Hm op e E)| |congruence]. unfold fr. destruct possible_overwrite; [discriminate|].
      cbn [negb andb]. intros Hn'. apply negb_true_iff in Hn'. rewrite (Hd Hn'). apply live_spent. auto. }
    destruct (put_entry_ok c op _ (- Coin_usage (coin e) + Coin_usage x) Hok He) as (O & C & B).
    { rewrite (usage_insert _ _ _ _ E). cbn [coin]. lia. }
    destruct possible_overwrite; [|rewrite Hs by reflexivity]; cbn [negb]; (eexists; split; [reflexivity|]); cbn beta; rewrite usage_put.
    all: split; [exact O|]; split; [exact B|]; etransitivity; [exact C|]; cbn [coin]; rewrite live_unspent by auto; reflexivity.
  - rewrite bool_decide_eq_true_2 by reflexivity. cbn [default id from_option coin flags].
    assert (Hs0 : IsSpent coinEmpty = true) by apply null_IsNull. rewrite Hs0. cbn [negb].
    assert (Eb : coins c !! op = coins (base c) !! op) by (cbn; rewrite lookup_overlay, E; reflexivity).
    destruct (put_entry_ok c op {| coin := x; flags := Z.lor 0 (Z.lor DIRTY (if negb possible_overwrite then FRESH else 0)) |}
      (Coin_usage x) Hok) as (O & C & B).
    + rewrite Z.lor_0_l. apply (new_entry_ok _ _ _ (negb _)); [|congruence]. intros Hn. rewrite <- Eb.
      destruct Hpo as [->|Hpo]; [discriminate|exact Hpo].
    + rewrite usage_insert_new by exact E. reflexivity.
    + destruct possible_overwrite; cbn [negb] in *; eexists; (split; [reflexivity|]); cbn beta; rewrite put_put;
        (split; [exact O|]); (split; [exact B|]); (etransitivity; [exact C|]); cbn [coin]; rewrite live_unspent by auto; reflexivity.
Qed.

(** Spending: a coin that is FRESH leaves no trace, any other leaves a spent
    entry that will be written below. *)
Lemma SpendCoin_spec (c : cache) op : view_ok c -> exists b moved c',
  SpendCoin op c = (Ok (b, moved), c') /\ view_ok c' /\ best c' = best c /\ coins c' = delete op (coins c) /\
  (forall x, coins c !! op = Some x -> b = true /\ moved = Some x).
Proof using HPL HR.
  intros Hok. fetch Hok op. unfold SpendCoin, mbind, stm_bind. rewrite Ef. clear Ef.
  destruct it as [e|].
  2: { exists false, None, c'. split; [reflexivity|]. split; [exact So|]. split; [exact Sb|]. rewrite Ec, Sc.
       split; [symmetry; apply delete_id; exact Ec|discriminate]. }
  unfold modify_st, mret, stm_ret. exists true, (Some (coin e)).
  pose proof So as (_ & Hm & _). destruct (Hm op e El) as (Hv & Hf & Hd).
  destruct (has_flag e FRESH) eqn:EF.
  - destruct (erase_entry_ok c' op e So El) as (O & C & B). eexists. split; [reflexivity|]. split; [exact O|].
    split; [etransitivity; [exact B|exact Sb]|]. split.
    + rewrite C, Hf, Sc by auto. reflexivity.
    + rewrite Ec. unfold live. destruct (IsSpent (coin e)); [discriminate|]. intros x [= <-]. auto.
  - assert (He : entry_ok (coins (base c')) op {| coin := coinEmpty; flags := Z.lor (flags e) DIRTY |}).
    { apply (dirty_entry_ok _ _ e coinEmpty false); [exact (Hm op e El)|discriminate|auto]. }
    destruct (put_entry_ok c' op _ (- Coin_usage (coin e)) So He) as (O & C & B).
    { rewrite (usage_insert _ _ _ _ El). cbn [coin]. unfold Coin_usage at 2. cbn [out coinEmpty]. rewrite null_usage. lia. }
    eexists. split; [reflexivity|].
    assert (R : put_entry op {| coin := Coin_Clear (coin e); flags := Z.lor (flags e) DIRTY |} (add_usage (- Coin_usage (coin e)) c')
      = add_usage (- Coin_usage (coin e)) (put_entry op {| coin := coinEmpty; flags := Z.lor (flags e) DIRTY |} c')) by reflexivity.
    rewrite R. split; [exact O|]. split; [etransitivity; [exact B|exact Sb]|]. split.
    + rewrite C, Sc. cbn [coin]. rewrite live_spent by apply null_IsNull. reflexivity.
    + rewrite Ec. unfold live. destruct (IsSpent (coin e)); [discriminate|]. intros x [= <-]. auto.
Qed.

Lemma Uncache_spec (c : cache) op : view_ok c -> exists c', Uncache op c = (Ok tt, c') /\ same_view c c'.
Proof using.
  intros Hok. unfold Uncache, mbind, stm_bind, get_st, modify_st. destruct (cacheCoins c !! op) as [e|] eqn:E.
  2: { exists c. split; [reflexivity|apply same_view_refl, Hok]. }
  destruct (Z.eqb_spec (flags e) 0) as [F|F]; [|exists c; split; [reflexivity|apply same_view_refl, Hok]].
  destruct (erase_entry_ok c op e Hok E) as (O & C & B). eexists. split; [reflexivity|].
  apply same_view_intro; [|exact B|exact O]. etransitivity; [exact C|].
  pose proof Hok as (_ & Hm & _). destruct (Hm op e E) as (_ & _ & Hd).
  rewrite (Hd ltac:(unfold has_flag; rewrite F; reflexivity)), <- (coins_lookup c op e Hok E). apply partial_alter_same.
Qed.

(** ** Writing a child's map *)

Definition apply_entry (u : gmap COutPoint Coin) (p : COutPoint * CCoinsCacheEntry) : gmap COutPoint Coin :=
  if has_flag (snd p) DIRTY then partial_alter (fun _ => live (coin (snd p))) (fst p) u else u.

Lemma batch_entry_spec (c : cache) op e : view_ok c -> valid_entry e ->
  (has_flag e FRESH = true -> coins c !! op = None) -> exists c',
  batch_entry op e c = (Ok tt, c') /\ view_ok c' /\ coins c' = apply_entry (coins c) (op, e) /\ hashBlock c' = hashBlock c.
Proof using.
  intros Hok Hv Hfr. unfold batch_entry, apply_entry, mbind, stm_bind, get_st, modify_st. cbn [fst snd].
  destruct (has_flag e DIRTY) eqn:ED; cbn [negb]; [|exists c; auto].
  assert (Hsf : has_flag e FRESH = true -> IsSpent (coin e) = false).
  { destruct (has_flag_cases e Hv) as [D F]. rewrite D in ED. rewrite F.
    destruct Hv as [[Fe Hs]|[Fe|[[Fe Hs]|[Fe Hs]]]]; rewrite Fe in *; cbn in *; congruence. }
  destruct (cacheCoins c !! op) as [e0|] eqn:E.
  - pose proof Hok as (_ & Hm & _). pose proof (Hm op e0 E) as Hok0. pose proof Hok0 as (_ & Hf0 & _).
    pose proof (coins_lookup c op e0 Hok E) as Ec.
    destruct (has_flag e FRESH && negb (IsSpent (coin e0)))%bool eqn:G1.
    { apply andb_true_iff in G1 as [G1 G2]. rewrite (Hfr G1) in Ec. unfold live in Ec. destruct (IsSpent (coin e0)); discriminate. }
    destruct (has_flag e0 FRESH && IsSpent (coin e))%bool eqn:G2.
    + apply andb_true_iff in G2 as [G2 G3]. destruct (erase_entry_ok c op e0 Hok E) as (O & C & _).
      eexists. split; [reflexivity|]. split; [exact O|]. split; [|reflexivity]. etransitivity; [exact C|].
      rewrite (Hf0 G2), live_spent by exact G3. reflexivity.
    + assert (He : entry_ok (coins (base c)) op {| coin := coin e; flags := Z.lor (flags e0) DIRTY |}).
      { apply (dirty_entry_ok _ _ e0 _ false Hok0); [discriminate|]. intros Hs. rewrite Hs, andb_true_r in G2. auto. }
      destruct (put_entry_ok c op _ (- Coin_usage (coin e0) + Coin_usage (coin e)) Hok He) as (O & C & _).
      { rewrite (usage_insert _ _ _ _ E). cbn [coin]. lia. }
      eexists. split; [reflexivity|]. cbn beta. rewrite usage_put. split; [exact O|]. split; [exact C|reflexivity].
  - destruct (has_flag e FRESH && IsSpent (coin e))%bool eqn:G.
    { apply andb_true_iff in G as [G1 G2]. rewrite (Hsf G1) in G2. discriminate. }
    destruct (put_entry_ok c op {| coin := coin e; flags := if has_flag e FRESH then Z.lor DIRTY FRESH else DIRTY |}
      (Coin_usage (coin e)) Hok) as (O & C & _).
    + assert (Eb : coins c !! op = coins (base c) !! op) by (cbn; rewrite lookup_overlay, E; reflexivity).
      pose proof (new_entry_ok (coins (base c)) op (coin e) (has_flag e FRESH)) as W. rewrite <- Eb in W. specialize (W Hfr).
      destruct (has_flag e FRESH); apply W; intros Hs; [rewrite Hsf in Hs by reflexivity; discriminate|reflexivity].
    + rewrite usage_insert_new by exact E. reflexivity.
    + eexists. split; [reflexivity|]. split; [exact O|]. split; [exact C|reflexivity].
Qed.

Lemma lookup_apply_entry_ne u op e k : op <> k -> apply_entry u (op, e) !! k = u !! k.
Proof using. intros Hne. unfold apply_entry. cbn. destruct (has_flag e DIRTY); [|reflexivity]. apply lookup_partial_alter_ne. exact Hne. Qed.

Lemma batch_loop_spec erase l (c : cache) m : view_ok c -> NoDup l.*1 ->
  Forall (fun p => valid_entry (snd p) /\ (has_flag (snd p) FRESH = true -> coins c !! fst p = None)) l -> exists c',
  batch_loop erase l (c, m) = (Ok tt, (c', if erase then foldl (fun m p => delete (fst p) m) m l else m)) /\
  view_ok c' /\ coins c' = foldl apply_entry (coins c) l /\ hashBlock c' = hashBlock c.
Proof using.
  revert c m. induction l as [|[op e] l IH]; intros c m Hok Hnd Hl; cbn [batch_loop foldl].
  { exists c. split; [destruct erase; reflexivity|auto]. }
  apply NoDup_cons in Hnd as [Hni Hnd]. apply Forall_cons in Hl as [[Hv Hf] Hl]. cbn [fst snd] in *.
  destruct (batch_entry_spec c op e Hok Hv Hf) as (c1 & E1 & O1 & C1 & B1). rewrite E1.
  destruct (IH c1 (if erase then delete op m else m) O1 Hnd) as (c2 & E2 & O2 & C2 & B2).
  - apply Forall_forall. intros [k e'] Hin. rewrite Forall_forall in Hl. destruct (Hl _ Hin) as [Hv' Hf']. split; [exact Hv'|].
    cbn [fst snd] in *. rewrite C1, lookup_apply_entry_ne; [exact Hf'|]. intros ->. apply Hni.
    apply list_elem_of_fmap. exists (k, e'). auto.
  - exists c2. rewrite E2, C2, C1, B2, B1. split; [destruct erase; reflexivity|auto].
Qed.

Lemma foldl_apply_batch l u : NoDup l.*1 -> foldl apply_entry u l = apply_batch (list_to_map l) u.
Proof using.
  revert u. induction l as [|[op e] l IH]; intros u Hnd; cbn [foldl].
  { apply map_eq. intros k. rewrite lookup_apply_batch, list_to_map_nil, lookup_empty. reflexivity. }
  apply NoDup_cons in Hnd as [Hni Hnd]. rewrite IH by exact Hnd. apply map_eq. intros k. rewrite !lookup_apply_batch.
  rewrite list_to_map_cons. destruct (decide (op = k)) as [<-|Hne].
  - rewrite lookup_insert_eq, (proj1 (not_elem_of_list_to_map l op)) by exact Hni. unfold apply_entry. cbn.
    destruct (has_flag e DIRTY); [apply lookup_partial_alter_eq|reflexivity].
  - rewrite lookup_insert_ne, lookup_apply_entry_ne by auto. reflexivity.
Qed.

Lemma foldl_delete_all (m : CCoinsMap) l : (forall op e, m !! op = Some e -> (op, e) ∈ l) ->
  foldl (fun m p => delete (fst p) m) m l = ∅.
Proof using.
  revert m. induction l as [|[op e] l IH]; intros m Hl; cbn [foldl].
  - apply map_empty. intros k. destruct (m !! k) eqn:E; [|reflexivity]. exfalso. apply (not_elem_of_nil (k, c)). apply Hl. exact E.
  - apply IH. intros k e' E. cbn [fst] in E. apply lookup_delete_Some in E as [Hne E].
    pose proof (Hl k e' E) as Hin. apply elem_of_cons in Hin as [[= -> ->]|Hin]; [contradiction|exact Hin].
Qed.

Lemma BatchWrite_spec (c : cache) m h erase : view_ok c -> h <> 0 -> batch_ok m (coins c) -> exists c',
  BatchWrite h erase (c, m) = (Ok true, (c', if erase then ∅ else m)) /\
  coins c' = apply_batch m (coins c) /\ best c' = h /\ view_ok c'.
Proof using.
  intros Hok Hh Hb. destruct (batch_loop_spec erase (map_to_list m) c m Hok (NoDup_fst_map_to_list m)) as (c' & E & O & C & _).
  { apply Forall_forall. intros [op e] Hin. apply elem_of_map_to_list in Hin. apply (Hb op e Hin). }
  exists (set_hashBlock h c'). unfold BatchWrite. rewrite E.
  rewrite (foldl_delete_all m) by (intros; apply elem_of_map_to_list; auto).
  split; [reflexivity|]. split; [|split; [cbn; destruct (Z.eqb_spec h 0); [contradiction|reflexivity]|exact O]].
  transitivity (coins c'); [reflexivity|]. rewrite C, foldl_apply_batch by apply NoDup_fst_map_to_list.
  rewrite list_to_map_to_list. reflexivity.
Qed.

End Cache.

Section Writing.
Context {V : Type} {HV : CCoinsView V} {HA : ViewAbs V} {HVL : ViewLaws V}.
Notation cache := (CCoinsViewCache V).

#[global] Instance cache_laws : ViewLaws cache.
Proof using HVL.
  split; [split|].
  - intros c op x (Hb & Hm & _) E. cbn in E. rewrite lookup_overlay in E. destruct (cacheCoins c !! op) as [e|].
    + unfold live in E. destruct (IsSpent (coin e)) eqn:Es; congruence.
    + eapply coins_unspent; eauto.
  - apply GetCoin_spec.
  - apply HaveCoin_spec.
  - apply GetBestBlock_spec.
  - intros c m h erase. apply BatchWrite_spec.
Qed.

(** ** Writing to the base *)

Lemma base_BatchWrite_spec (c : cache) erase : view_ok c -> hashBlock c <> 0 -> exists b',
  base_BatchWrite erase c = (Ok true, set_entries (if erase then ∅ else cacheCoins c) (set_base b' c)) /\
  coins b' = coins c /\ best b' = hashBlock c /\ view_ok b'.
Proof using HVL.
  intros (Hb & Hm & Hu) Hh. destruct (apply_batch_overlay _ _ Hm) as [Ea Hbo].
  destruct (batch_law (base c) (cacheCoins c) (hashBlock c) erase Hb Hh Hbo) as (b' & E & C & B & O).
  exists b'. unfold base_BatchWrite. rewrite E. split; [reflexivity|]. split; [rewrite C; exact Ea|auto].
Qed.

(** [Flush] once the base has taken the batch. *)
Lemma Flush_written (c : cache) b' : view_ok c -> hashBlock c <> 0 ->
  view_BatchWrite (hashBlock c) true (base c, cacheCoins c) = (Ok true, (b', ∅)) ->
  coins b' = apply_batch (cacheCoins c) (coins (base c)) -> best b' = hashBlock c -> view_ok b' -> exists c',
  Flush c = (Ok true, c') /\ same_view c c' /\ coins (base c') = coins c /\ best (base c') = best c /\ cacheCoins c' = ∅.
Proof using.
  intros (Hb & Hm & Hu) Hh E C B O. destruct (apply_batch_overlay _ _ Hm) as [Ea _]. rewrite Ea in C.
  unfold Flush, mbind, stm_bind, base_BatchWrite. rewrite E. unfold get_st, ReallocateCache, modify_st, mbind, stm_bind, lift_st.
  cbn [cacheCoins set_entries set_base]. rewrite bool_decide_eq_true_2 by reflexivity. cbn [negb].
  unfold get_st. cbn [cacheCoins set_entries set_base]. rewrite bool_decide_eq_true_2 by reflexivity. cbn [assert_].
  eexists. split; [reflexivity|]. cbn [base cacheCoins set_entries set_base].
  assert (Eh : best c = hashBlock c) by (cbn; destruct (Z.eqb_spec (hashBlock c) 0); [contradiction|reflexivity]).
  split; [|split; [exact C|split; [congruence|reflexivity]]].
  apply same_view_intro.
  - change (coins c) with (overlay (cacheCoins c) (coins (base c))). rewrite <- C. apply map_eq. intros k. cbn. rewrite lookup_overlay, lookup_empty. reflexivity.
  - rewrite Eh. cbn. destruct (Z.eqb_spec (hashBlock c) 0); [contradiction|reflexivity].
  - split; [exact O|]. split; [apply map_Forall_empty|reflexivity].
Qed.

Lemma Flush_spec (c : cache) : view_ok c -> hashBlock c <> 0 -> exists c',
  Flush c = (Ok true, c') /\ same_view c c' /\ coins (base c') = coins c /\ best (base c') = best c /\ cacheCoins c' = ∅.
Proof using HVL.
  intros Hok Hh. pose proof Hok as (Hb & Hm & _). destruct (apply_batch_overlay _ _ Hm) as [_ Hbo].
  destruct (batch_law (base c) (cacheCoins c) (hashBlock c) true Hb Hh Hbo) as (b' & E & C & B & O). exact (Flush_written c b' Hok Hh E C B O).
Qed.

Lemma overlay_agrees m u : (forall op e, m !! op = Some e -> u !! op = live (coin e)) -> overlay m u = u.
Proof using.
  intros Hm. apply map_eq. intros k. rewrite lookup_overlay. destruct (m !! k) as [e|] eqn:E; [|reflexivity].
  symmetry. apply Hm. exact E.
Qed.

(** [Sync] keeps the unspent coins, as clean entries. *)
Lemma sync_loop_spec l (c : cache) : NoDup l.*1 ->
  (forall op e, cacheCoins c !! op = Some e -> coins (base c) !! op = live (coin e) /\
     ((op, e) ∈ l \/ (flags e = 0 /\ IsSpent (coin e) = false))) ->
  (forall p, p ∈ l -> cacheCoins c !! fst p = Some (snd p)) ->
  cachedCoinsUsage c = u64 (usage_sum (cacheCoins c)) ->
  let c' := sync_loop l c in
  base c' = base c /\ hashBlock c' = hashBlock c /\ cachedCoinsUsage c' = u64 (usage_sum (cacheCoins c')) /\
  (forall op e, cacheCoins c' !! op = Some e ->
     coins (base c) !! op = live (coin e) /\ flags e = 0 /\ IsSpent (coin e) = false).
Proof using.
  revert c. induction l as [|[op e] l IH]; intros c Hnd Hag Hin Hu; cbn [sync_loop].
  { split; [reflexivity|]. split; [reflexivity|]. split; [exact Hu|]. intros op e E.
    destruct (Hag op e E) as [HU [Hx|Hx]]; [exfalso; apply (not_elem_of_nil _ Hx)|auto]. }
  apply NoDup_cons in Hnd as [Hni Hnd]. pose proof (Hin (op, e) (list_elem_of_here _ _)) as Ee. cbn [fst snd] in Ee.
  assert (Hne : forall p, p ∈ l -> fst p <> op) by (intros p Hp E; apply Hni; cbn; rewrite <- E; apply list_elem_of_fmap; exists p; auto).
  set (c1 := if IsSpent (coin e) then _ else _).
  assert (Hc1 : base c1 = base c /\ hashBlock c1 = hashBlock c) by (unfold c1; destruct (IsSpent (coin e)); auto).
  destruct Hc1 as [Eb Eh]. specialize (IH c1 Hnd). rewrite Eb, Eh in IH. apply IH; clear IH.
  - intros k e' E'. destruct (decide (op = k)) as [<-|Hk].
    + unfold c1 in E'. destruct (IsSpent (coin e)) eqn:Es; cbn in E'; [rewrite lookup_delete_eq in E'; discriminate|].
      rewrite lookup_insert_eq in E'. injection E' as <-. destruct (Hag op e Ee) as [HU _]. auto.
    + assert (E : cacheCoins c !! k = Some e').
      { unfold c1 in E'. destruct (IsSpent (coin e)); cbn in E'; [rewrite lookup_delete_ne in E' by auto|rewrite lookup_insert_ne in E' by auto]; exact E'. }
      destruct (Hag k e' E) as [HU [Hx|Hx]]; [|auto]. split; [exact HU|]. apply elem_of_cons in Hx as [[= -> ->]|Hx]; [contradiction|auto].
  - intros p Hp. pose proof (Hne p Hp). pose proof (Hin p (list_elem_of_further _ _ _ Hp)) as E.
    unfold c1. destruct (IsSpent (coin e)); cbn; [rewrite lookup_delete_ne by auto|rewrite lookup_insert_ne by auto]; exact E.
  - unfold c1. destruct (IsSpent (coin e)); cbn.
    + rewrite Hu, u64_add, (usage_delete _ _ _ Ee). f_equal; lia.
    + rewrite Hu, (usage_insert _ _ _ _ Ee). cbn [coin]. f_equal; lia.
Qed.

Lemma Sync_spec (c : cache) : view_ok c -> hashBlock c <> 0 -> exists c',
  Sync c = (Ok true, c') /\ same_view c c' /\ coins (base c') = coins c /\ best (base c') = best c /\
  map_Forall (fun _ e => flags e = 0 /\ IsSpent (coin e) = false) (cacheCoins c').
Proof using HVL.
  intros Hok Hh. destruct (base_BatchWrite_spec c false Hok Hh) as (b' & E & C & B & O).
  unfold Sync, mbind, stm_bind. rewrite E. unfold modify_st. eexists. split; [reflexivity|].
  pose proof Hok as (_ & _ & Hu).
  destruct (sync_loop_spec (map_to_list (cacheCoins c)) (set_entries (cacheCoins c) (set_base b' c))) as (Eb & Eh & Eu & Ha).
  - apply NoDup_fst_map_to_list.
  - cbn [cacheCoins set_entries base set_base]. intros op e Ee. rewrite C. split; [apply coins_lookup; auto|].
    left. apply elem_of_map_to_list. exact Ee.
  - intros [op e] Hin. apply elem_of_map_to_list in Hin. exact Hin.
  - exact Hu.
  - cbn [base set_entries set_base hashBlock cacheCoins] in *.
    set (c' := sync_loop _ _) in *. assert (Ov : coins c' = coins b').
    { cbn. rewrite Eb. apply overlay_agrees. intros op e Ee. apply (Ha op e Ee). }
    assert (Eh' : best c = hashBlock c) by (cbn; destruct (Z.eqb_spec (hashBlock c) 0); [contradiction|reflexivity]).
    split; [|split; [rewrite Eb; exact C|split; [rewrite Eb; congruence|intros op e Ee; apply (Ha op e Ee)]]].
    apply same_view_intro; [congruence|cbn; rewrite Eb, Eh; destruct (hashBlock c =? 0) eqn:Z0; zbool; [contradiction|reflexivity]|].
    split; [rewrite Eb; exact O|]. split; [|exact Eu]. intros op e Ee. rewrite Eb. destruct (Ha op e Ee) as (HU & F & Hs).
    split; [left; auto|]. unfold has_flag. rewrite F. split; [discriminate|auto].
Qed.

Lemma SanityCheck_ok (c : cache) : view_ok c -> SanityCheck c = true.
Proof using.
  intros (_ & Hm & Hu). unfold SanityCheck. apply andb_true_iff. split; [|rewrite recomputed_usage_sum, Hu; apply Z.eqb_refl].
  apply forallb_forall. intros [op e] Hin. apply list_elem_of_In in Hin. apply elem_of_map_to_list in Hin. cbn [snd].
  destruct (Hm op e Hin) as (Hv & _ & _). unfold sanity_attr, has_flag. destruct Hv as [[-> ->]|[-> |[[-> ->]|[-> ->]]]]; try reflexivity.
  destruct (IsSpent (coin e)); reflexivity.
Qed.
End Writing.
End Spec.
