(* ===== verification/CoinsRefinement.v ===== *)
(** * What the coins cache promises

    The theorems about [CCoinsViewCache]: a simulation between runs of the
    cache and runs of the plain map, the write-back operations, the
    transaction-level helpers, and the paths that break the memory
    accounting. *)

From stdpp Require Import base numbers list gmap strings relations.
From Stdlib Require Import ZArith Lia.
From S2P Require Import Prelude Params Streams Serialize Compressor Transaction Coins CoinsProofs.

Local Open Scope Z_scope.

(** ** Runs *)

Inductive cache_op : Type :=
| OGetCoin (op : COutPoint)
| OAddCoin (op : COutPoint) (x : Coin) (possible_overwrite : bool)
| OSpendCoin (op : COutPoint)
| OUncache (op : COutPoint)
| OGetBestBlock
| OSetBestBlock (h : Z)
| OBatchWrite (m : CCoinsMap) (h : Z) (erase : bool)
| OFlush
| OSync.

Section Runs.
Context {HP : Primitives} {HPL : PrimitivesLaws} {V : Type} {HV : CCoinsView V} {HA : ViewAbs V} {HVL : ViewLaws V}.
Notation cache := (CCoinsViewCache V).

Definition run_op (o : cache_op) : stm cache unit :=
  match o with
  | OGetCoin op => _ ← GetCoin op; mret tt
  | OAddCoin op x po => AddCoin op x po
  | OSpendCoin op => _ ← SpendCoin op; mret tt
  | OUncache op => Uncache op
  | OGetBestBlock => _ ← GetBestBlock; mret tt
  | OSetBestBlock h => SetBestBlock h
  | OBatchWrite m h erase => fun c =>
      match BatchWrite h erase (c, m) with (Ok _, (c', _)) => (Ok tt, c') | (Fail e, (c', _)) => (Fail e, c') end
  | OFlush => _ ← Flush; mret tt
  | OSync => _ ← Sync; mret tt
  end.

Fixpoint run_ops (l : list cache_op) : stm cache unit :=
  match l with [] => mret tt | o :: rest => _ ← run_op o; run_ops rest end.

(** The abstract state: the coins, and whether the best block has been set. *)
Definition spec_op (o : cache_op) (s : gmap COutPoint Coin * bool) : gmap COutPoint Coin * bool :=
  let '(u, h) := s in
  match o with
  | OAddCoin op x _ => (if IsUnspendable (scriptPubKey (out x)) then u else <[op := x]> u, h)
  | OSpendCoin op => (delete op u, h)
  | OSetBestBlock _ => (u, true)
  | OBatchWrite m _ _ => (apply_batch m u, true)
  | _ => (u, h)
  end.

(** What callers must respect: only unspent coins are added, [possible_overwrite]
    is set where the coin may exist, blocks have hashes, and a cache is written
    back only once its block is known. *)
Definition legal_op (o : cache_op) (s : gmap COutPoint Coin * bool) : Prop :=
  match o with
  | OAddCoin op x po => IsSpent x = false /\ (po = true \/ fst s !! op = None)
  | OSetBestBlock h => h <> 0
  | OBatchWrite m h _ => h <> 0 /\ batch_ok m (fst s)
  | OFlush | OSync => snd s = true
  | _ => True
  end.

Fixpoint legal_run (l : list cache_op) (s : gmap COutPoint Coin * bool) : Prop :=
  match l with [] => True | o :: rest => legal_op o s /\ legal_run rest (spec_op o s) end.

(** The simulation relation. *)
Definition simulates (c : cache) (s : gmap COutPoint Coin * bool) : Prop :=
  view_ok c /\ coins c = fst s /\ (snd s = true -> hashBlock c <> 0).

(** No operation but [SetBestBlock], [GetBestBlock] and [BatchWrite] touches the
    block hash of the cache. *)
Lemma FetchCoin_hashBlock op (c : cache) : hashBlock (snd (FetchCoin op c)) = hashBlock c.
Proof using. unfold FetchCoin, on_base, mbind, stm_bind. cbn. repeat case_match; simplify_eq; reflexivity. Qed.

Lemma AddCoin_hashBlock op x po (c : cache) : hashBlock (snd (AddCoin op x po c)) = hashBlock c.
Proof using.
  unfold AddCoin, mbind, stm_bind, lift_st, get_st, modify_st, fail_st, mret, stm_ret.
  destruct (assert_ _); [|reflexivity]. destruct (IsUnspendable _); [reflexivity|].
  destruct (bool_decide _), (negb po); try reflexivity.
  all: match goal with |- context [negb (IsSpent ?y)] => destruct (negb (IsSpent y)) end; reflexivity.
Qed.

Lemma SpendCoin_hashBlock op (c : cache) : hashBlock (snd (SpendCoin op c)) = hashBlock c.
Proof using.
  pose proof (FetchCoin_hashBlock op c) as F. unfold SpendCoin, mbind, stm_bind, modify_st, mret, stm_ret.
  destruct (FetchCoin op c) as [[[e|]|err] c']; cbn in *; auto. destruct (has_flag e FRESH); exact F.
Qed.

Lemma Uncache_hashBlock op (c : cache) : hashBlock (snd (Uncache op c)) = hashBlock c.
Proof using. unfold Uncache, mbind, stm_bind, get_st, modify_st, mret, stm_ret. repeat case_match; reflexivity. Qed.

Lemma Flush_hashBlock (c : cache) : hashBlock (snd (Flush c)) = hashBlock c.
Proof using.
  unfold Flush, base_BatchWrite, ReallocateCache, mbind, stm_bind, get_st, modify_st, lift_st, fail_st, mret, stm_ret.
  destruct (view_BatchWrite _ _ _) as [[[|]|] [b m]]; cbn; try reflexivity.
  destruct (bool_decide (m = ∅)) eqn:E; cbn; [|reflexivity]. rewrite E. reflexivity.
Qed.

Lemma sync_loop_hashBlock l (c : cache) : hashBlock (sync_loop l c) = hashBlock c.
Proof using. revert c. induction l as [|[op e] l IH]; intros c; cbn [sync_loop]; [reflexivity|]. rewrite IH. destruct (IsSpent _); reflexivity. Qed.

Lemma Sync_hashBlock (c : cache) : hashBlock (snd (Sync c)) = hashBlock c.
Proof using.
  unfold Sync, base_BatchWrite, mbind, stm_bind, modify_st, mret, stm_ret.
  destruct (view_BatchWrite _ _ _) as [[|] [b m]]; cbn; [|reflexivity]. rewrite sync_loop_hashBlock. reflexivity.
Qed.

(** One operation, in terms of its specification and its effect on the hash. *)
Lemma simulates_intro (c c' : cache) u u' h : simulates c (u, h) -> view_ok c' -> coins c' = u' -> hashBlock c' = hashBlock c ->
  simulates c' (u', h).
Proof using. intros (_ & _ & Hh) O C E. split; [exact O|]. split; [exact C|]. cbn [snd] in *. rewrite E. exact Hh. Qed.

Lemma run_op_simulates o c s : simulates c s -> legal_op o s ->
  exists c', run_op o c = (Ok tt, c') /\ simulates c' (spec_op o s).
Proof using HPL HVL.
  intros Hsim Hl. destruct s as [u h]. pose proof Hsim as (Hok & Hc & Hh). cbn [fst snd] in Hc, Hh.
  destruct o; cbn [run_op spec_op legal_op fst snd] in *; unfold mbind, stm_bind.
  - destruct (GetCoin_spec c op Hok) as (c' & E & Sc & Sb & So). rewrite E. exists c'. split; [reflexivity|].
    eapply simulates_intro; eauto; [congruence|]. pose proof (FetchCoin_hashBlock op c) as F.
    unfold GetCoin, mbind, stm_bind in E. destruct (FetchCoin op c) as [[it|] c1]; injection E as _ <-; exact F.
  - destruct Hl as [Hx Hpo]. rewrite <- Hc in Hpo. destruct (AddCoin_spec c op x possible_overwrite Hok Hx Hpo) as (c' & E & O & B & C).
    exists c'. split; [exact E|]. pose proof (AddCoin_hashBlock op x possible_overwrite c) as F. rewrite E in F.
    eapply simulates_intro; eauto. rewrite C, Hc. reflexivity.
  - destruct (SpendCoin_spec c op Hok) as (b & mv & c' & E & O & B & C & _). rewrite E. exists c'. split; [reflexivity|].
    pose proof (SpendCoin_hashBlock op c) as F. rewrite E in F. eapply simulates_intro; eauto. congruence.
  - destruct (Uncache_spec c op Hok) as (c' & E & Sc & Sb & So). exists c'. split; [exact E|].
    pose proof (Uncache_hashBlock op c) as F. rewrite E in F. eapply simulates_intro; eauto. congruence.
  - destruct (GetBestBlock_spec c Hok) as (c' & E & Sc & Sb & So). rewrite E. exists c'. split; [reflexivity|].
    split; [exact So|]. split; [cbn [fst]; congruence|]. cbn [snd]. intros H1. specialize (Hh H1).
    unfold GetBestBlock, mbind, stm_bind, get_st in E. destruct (Z.eqb_spec (hashBlock c) 0); [contradiction|].
    injection E as _ <-. exact Hh.
  - exists (set_hashBlock h0 c). split; [reflexivity|]. split; [exact Hok|]. split; [exact Hc|]. intros _. exact Hl.
  - destruct Hl as [Hh0 Hb]. rewrite <- Hc in Hb. destruct (BatchWrite_spec c m h0 erase Hok Hh0 Hb) as (c' & E & C & B & O).
    rewrite E. exists c'. split; [reflexivity|]. split; [exact O|]. split; [cbn [fst]; congruence|]. intros _.
    unfold BatchWrite in E. destruct (batch_loop _ _ _) as [[?|] [c1 m1]]; [|discriminate]. injection E as <- _. exact Hh0.
  - destruct (Flush_spec c Hok (Hh Hl)) as (c' & E & (Sc & Sb & So) & _). rewrite E. exists c'. split; [reflexivity|].
    pose proof (Flush_hashBlock c) as F. rewrite E in F. eapply simulates_intro; eauto. congruence.
  - destruct (Sync_spec c Hok (Hh Hl)) as (c' & E & (Sc & Sb & So) & _). rewrite E. exists c'. split; [reflexivity|].
    pose proof (Sync_hashBlock c) as F. rewrite E in F. eapply simulates_intro; eauto. congruence.
Qed.

Lemma run_ops_simulates l c s : simulates c s -> legal_run l s ->
  exists c', run_ops l c = (Ok tt, c') /\ simulates c' (foldl (fun s o => spec_op o s) s l).
Proof using HPL HVL.
  revert c s. induction l as [|o l IH]; intros c s Hs Hl; cbn [run_ops foldl]; [exists c; auto|].
  destruct Hl as [Ho Hl]. destruct (run_op_simulates o c s Hs Ho) as (c1 & E & Hs1).
  unfold mbind, stm_bind. rewrite E. apply (IH c1 _ Hs1 Hl).
Qed.
End Runs.

(** ** Transactions *)

Section Transactions.
Context {HP : Primitives} {HPL : PrimitivesLaws} {V : Type} {HV : CCoinsView V} {HA : ViewAbs V} {HR : ViewReads V}.
Notation cache := (CCoinsViewCache V).

Lemma same_view_trans (a b c : cache) : same_view a b -> same_view b c -> same_view a c.
Proof using. intros (C1 & B1 & _) (C2 & B2 & O2). apply same_view_intro; congruence. Qed.

Lemma have_inputs_loop_spec l (c : cache) : view_ok c -> exists c',
  have_inputs_loop l c = (Ok (forallb (fun i => bool_decide (is_Some (coins c !! prevout i))) l), c') /\ same_view c c'.
Proof using HR.
  revert c. induction l as [|i l IH]; intros c Hok; cbn [have_inputs_loop forallb].
  { exists c. split; [reflexivity|apply same_view_refl, Hok]. }
  destruct (HaveCoin_spec c (prevout i) Hok) as (c1 & E1 & S1). unfold mbind, stm_bind. rewrite E1.
  destruct (bool_decide _); cbn [negb andb]; [|exists c1; auto].
  destruct (IH c1) as (c2 & E2 & S2); [apply S1|]. exists c2. rewrite E2. destruct S1 as (C1 & B1 & O1). rewrite C1.
  split; [reflexivity|]. eapply same_view_trans; eauto. apply same_view_intro; auto.
Qed.

(** The outputs of [tx] that can be spent, from output number [i] on. *)
Fixpoint add_outputs (txid height : Z) (cb : bool) (i : Z) (outs : list CTxOut) (u : gmap COutPoint Coin) : gmap COutPoint Coin :=
  match outs with
  | [] => u
  | o :: rest =>
      add_outputs txid height cb (i + 1) rest
        (if IsUnspendable (scriptPubKey o) then u else <[(txid, i) := Coin_make o height cb]> u)
  end.

Lemma AddCoins_loop_spec txid height cb check outs i (c : cache) : view_ok c -> 0 <= i -> i + Z.of_nat (length outs) < 2 ^ 32 ->
  Forall (fun o => CTxOut_IsNull o = false) outs ->
  (check = true \/ cb = true \/ forall j, i <= j -> coins c !! (txid, j) = None) -> exists c',
  AddCoins_loop txid height cb check i outs c = (Ok tt, c') /\ view_ok c' /\ best c' = best c /\
  coins c' = add_outputs txid height cb i outs (coins c).
Proof using HPL HR.
  revert i c. induction outs as [|o outs IH]; intros i c Hok Hi Hlen Hn Ha; cbn [AddCoins_loop add_outputs].
  { exists c. auto. }
  apply Forall_cons in Hn as [Ho Hn]. cbn [length] in Hlen. unfold mbind, stm_bind. rewrite uwrap_small by (unfold in_u; lia).
  assert (G : exists (ow : bool) c1, (if check then HaveCoin (txid, i) else mret cb) c = (Ok ow, c1) /\ same_view c c1 /\
                (ow = true \/ coins c !! (txid, i) = None)).
  { destruct check.
    - destruct (HaveCoin_spec c (txid, i) Hok) as (c1 & E & S). eexists _, c1. split; [exact E|]. split; [exact S|].
      destruct (coins c !! (txid, i)); [left; reflexivity|right; reflexivity].
    - exists cb, c. split; [reflexivity|]. split; [apply same_view_refl, Hok|].
      destruct Ha as [?|[->|Ha]]; [discriminate|auto|right; apply Ha; lia]. }
  destruct G as (ow & c1 & E1 & (C1 & B1 & O1) & How). rewrite E1.
  destruct (AddCoin_spec c1 (txid, i) (Coin_make o height cb) ow O1 Ho) as (c2 & E2 & O2 & B2 & C2); [rewrite C1; exact How|].
  rewrite E2. cbn [out Coin_make] in C2. destruct (IH (i + 1) c2 O2) as (c3 & E3 & O3 & B3 & C3); [lia|lia|exact Hn| |].
  { destruct Ha as [?|[?|Ha]]; [auto|auto|]. right; right. intros j Hj. rewrite C2, C1.
    destruct (IsUnspendable _); [|rewrite lookup_insert_ne by (intros [= ?]; lia)]; apply Ha; lia. }
  exists c3. rewrite E3, C3, B3, B2, B1, C2, C1. auto.
Qed.
End Transactions.

(** ** A base to stand on *)

Section Plain.
Context {HP : Primitives} {HPL : PrimitivesLaws}.

(** A view that is its own set of coins. *)
Definition plain : Type := gmap COutPoint Coin * Z.

#[global] Instance plain_view : CCoinsView plain := {|
  view_GetCoin := fun op v => (Ok (fst v !! op), v);
  view_HaveCoin := fun op v => (Ok (bool_decide (is_Some (fst v !! op))), v);
  view_GetBestBlock := fun v => (Ok (snd v), v);
  view_BatchWrite := fun h erase '(v, m) => (Ok true, ((apply_batch m (fst v), h), if erase then ∅ else m));
|}.

#[global] Instance plain_abs : ViewAbs plain := {|
  coins := fst; best := snd; view_ok := fun v => map_Forall (fun _ c => IsSpent c = false) (fst v);
|}.

#[global] Instance plain_laws : ViewLaws plain.
Proof using.
  split; [split|].
  - intros v op c Hv E. exact (Hv op c E).
  - intros v op Hv. exists v. split; [reflexivity|apply same_view_refl, Hv].
  - intros v op Hv. exists v. split; [reflexivity|apply same_view_refl, Hv].
  - intros v Hv. exists v. split; [reflexivity|apply same_view_refl, Hv].
  - intros v m h erase Hv _ Hb. eexists. split; [reflexivity|]. split; [reflexivity|]. split; [reflexivity|].
    intros op c. cbn [fst]. rewrite lookup_apply_batch. destruct (m !! op) as [e|]; [|apply Hv].
    destruct (has_flag e DIRTY); [|apply Hv]. unfold live. destruct (IsSpent (coin e)) eqn:Es; intros [= <-]. exact Es.
Qed.
End Plain.

(** Outputs with value -1 are null, and scripts cost their length. *)
#[local] Instance sample_primitives : Primitives := {|
  IsCoinBase := fun tx => false;
  GetHash := fun tx => 17;
  COutPoint_IsNull := fun o => (snd o =? 4294967295);
  CTxOut_null := (-1, []);
  CTxOut_IsNull := fun o => (fst o =? -1);
  IsUnspendable := fun s => match s with 0x6a :: _ => true | _ => false end;
  script_usage := fun s => Z.of_nat (length s);
|}.
#[local] Instance sample_primitives_laws : PrimitivesLaws.
Proof. split; [reflexivity|reflexivity|]. intros o Ho. apply Z.eqb_eq in Ho. exact Ho. Defined.

Definition sample_coin (v : Z) : Coin := {| out := (v, [1; 2; 3]); fCoinBase := false; nHeight := 5 |}.
Definition sample_cache : CCoinsViewCache (CCoinsViewCache plain) :=
  {| base := new_cache ((<[(1, 0) := sample_coin 50]> ∅ : gmap COutPoint Coin), 7); hashBlock := 9; cacheCoins := ∅; cachedCoinsUsage := 0 |}.

Lemma sample_cache_ok : view_ok sample_cache.
Proof.
  split; [split|split]; [| |apply map_Forall_empty|reflexivity].
  - cbn. apply map_Forall_insert_2; [reflexivity|apply map_Forall_empty].
  - split; [apply map_Forall_empty|reflexivity].
Qed.

(** C22. The cache refines the plain set of coins: over any base that keeps the
    view laws (a database, or another cache), every sequence of fetches,
    additions, spends, evictions, writes from a child cache, [Flush] and
    [Sync] that respects the callers' obligations runs without an assertion
    failure or an exception, leaves the coins that the same sequence leaves in
    a plain map, answers every later lookup from that map, and passes
    [SanityCheck]: DIRTY, FRESH and the memory accounting are exact. *)
Theorem cache_simulation {HP : Primitives} {HPL : PrimitivesLaws} {V : Type} {HV : CCoinsView V} {HA : ViewAbs V} {HVL : ViewLaws V}
    (l : list cache_op) (c : CCoinsViewCache V) (known : bool) :
  view_ok c -> (known = true -> hashBlock c <> 0) -> legal_run l (coins c, known) ->
  exists c', run_ops l c = (Ok tt, c') /\
    coins c' = fst (foldl (fun s o => spec_op o s) (coins c, known) l) /\ view_ok c' /\ SanityCheck c' = true /\
    forall op, exists c'', GetCoin op c' = (Ok (fst (foldl (fun s o => spec_op o s) (coins c, known) l) !! op), c'') /\ same_view c' c''.
Proof.
  intros Hok Hk Hl. assert (Hs : simulates c (coins c, known)) by (split; [exact Hok|split; auto]).
  destruct (run_ops_simulates l c _ Hs Hl) as (c' & E & Ok' & C & _). exists c'. split; [exact E|]. split; [exact C|].
  split; [exact Ok'|]. split; [apply SanityCheck_ok, Ok'|]. intros op. rewrite <- C. apply GetCoin_spec, Ok'.
Qed.

Lemma cache_simulation_witness : exists c',
  run_ops [OSpendCoin (1, 0); OAddCoin (2, 0) (sample_coin 20) false; OSpendCoin (2, 0); OAddCoin (3, 1) (sample_coin 30) false; OFlush] sample_cache
    = (Ok tt, c') /\ coins c' = {[ (3, 1) := sample_coin 30 ]} /\ SanityCheck c' = true.
Proof.
  destruct (cache_simulation [OSpendCoin (1, 0); OAddCoin (2, 0) (sample_coin 20) false; OSpendCoin (2, 0);
     OAddCoin (3, 1) (sample_coin 30) false; OFlush] sample_cache true) as (c' & E & C & _ & S & _).
  - apply sample_cache_ok.
  - discriminate.
  - repeat split; right; reflexivity.
  - exists c'. split; [exact E|]. split; [exact C|exact S].
Defined.

(** Write-back: [Flush] leaves the base with exactly the coins and the block
    of the cache, and an empty cache that still stands for the same coins;
    [Sync] does the same while keeping the unspent coins as clean entries.  The
    base may itself be a cache, at any depth. *)
Theorem cache_write_back {HP : Primitives} {HPL : PrimitivesLaws} {V : Type} {HV : CCoinsView V} {HA : ViewAbs V} {HVL : ViewLaws V}
    (c : CCoinsViewCache V) : view_ok c -> hashBlock c <> 0 ->
  (exists c', Flush c = (Ok true, c') /\ same_view c c' /\ coins (base c') = coins c /\ best (base c') = best c /\ cacheCoins c' = ∅) /\
  (exists c', Sync c = (Ok true, c') /\ same_view c c' /\ coins (base c') = coins c /\ best (base c') = best c /\
     map_Forall (fun _ e => flags e = 0 /\ IsSpent (coin e) = false) (cacheCoins c')).
Proof. intros Hok Hh. split; [apply Flush_spec|apply Sync_spec]; auto. Qed.

Lemma cache_write_back_witness : exists c', Flush sample_cache = (Ok true, c') /\ coins (base c') = {[ (1, 0) := sample_coin 50 ]} /\ best (base c') = 9.
Proof.
  destruct (cache_write_back sample_cache) as [(c' & E & _ & C & B & _) _].
  - apply sample_cache_ok.
  - discriminate.
  - exists c'. split; [exact E|]. split; [exact C|exact B].
Defined.

(** What the point operations answer: [HaveCoin] whether the coin is unspent,
    [AccessCoin] the coin itself or a spent one, and [SpendCoin] of an unspent
    coin returns true, hands the coin out and removes it, whether it came from
    this cache or from any level below. *)
Theorem cache_answers {HP : Primitives} {HPL : PrimitivesLaws} {V : Type} {HV : CCoinsView V} {HA : ViewAbs V} {HVL : ViewLaws V}
    (c : CCoinsViewCache V) (op : COutPoint) : view_ok c ->
  (exists c', HaveCoin op c = (Ok (bool_decide (is_Some (coins c !! op))), c') /\ same_view c c') /\
  (exists x c', AccessCoin op c = (Ok x, c') /\ same_view c c' /\ live x = coins c !! op) /\
  (exists b moved c', SpendCoin op c = (Ok (b, moved), c') /\ view_ok c' /\ coins c' = delete op (coins c) /\
     (forall x, coins c !! op = Some x -> b = true /\ moved = Some x)).
Proof.
  intros Hok. split; [apply HaveCoin_spec, Hok|]. split; [apply AccessCoin_spec, Hok|].
  destruct (SpendCoin_spec c op Hok) as (b & m & c' & E & O & _ & C & R). exists b, m, c'. auto.
Qed.

Lemma cache_answers_witness : exists c', SpendCoin (1, 0) sample_cache = (Ok (true, Some (sample_coin 50)), c') /\ coins c' = ∅.
Proof.
  destruct (cache_answers sample_cache (1, 0) sample_cache_ok) as (_ & _ & b & m & c' & E & _ & C & R).
  destruct (R (sample_coin 50) eq_refl) as [-> ->]. exists c'. split; [exact E|]. rewrite C. reflexivity.
Defined.

(** The exception of [AddCoin] breaks the memory accounting: where the cache
    holds an unspent coin of non-zero size, [AddCoin] without
    [possible_overwrite] subtracts its size before it throws, and the cache
    that the caller is left with, its coins unchanged, fails [SanityCheck]. *)
Theorem AddCoin_throw_breaks_accounting {HP : Primitives} {V : Type} {HV : CCoinsView V} {HA : ViewAbs V}
    (c : CCoinsViewCache V) (op : COutPoint) (e : CCoinsCacheEntry) (x : Coin) :
  view_ok c -> cacheCoins c !! op = Some e -> IsSpent (coin e) = false -> 0 < Coin_usage (coin e) < 2 ^ 64 ->
  IsSpent x = false -> IsUnspendable (scriptPubKey (out x)) = false ->
  exists what c', AddCoin op x false c = (Fail (Thrown what), c') /\ cacheCoins c' = cacheCoins c /\ SanityCheck c' = false.
Proof.
  intros (_ & _ & Hu) E Hs Hsz Hx Hun. unfold AddCoin, mbind, stm_bind, lift_st. rewrite Hx. cbn [negb assert_].
  rewrite Hun. unfold get_st, modify_st, fail_st. rewrite E. rewrite bool_decide_eq_false_2 by discriminate.
  cbn [default id from_option]. rewrite Hs. cbn [negb]. eexists _, _. split; [reflexivity|]. split; [reflexivity|].
  unfold SanityCheck. apply andb_false_iff. right. rewrite recomputed_usage_sum. cbn [cacheCoins cachedCoinsUsage add_usage].
  apply Z.eqb_neq. rewrite Hu, u64_add. unfold uwrap. intros Heq.
  assert (Hz : (Coin_usage (coin e)) mod 2 ^ 64 = 0).
  { replace (Coin_usage (coin e)) with (usage_sum (cacheCoins c) - (usage_sum (cacheCoins c) + - Coin_usage (coin e))) by lia.
    rewrite Zminus_mod, <- Heq, Z.sub_diag. reflexivity. }
  rewrite Z.mod_small in Hz by lia. lia.
Qed.

Lemma AddCoin_throw_breaks_accounting_witness : exists what c',
  AddCoin (1, 0) (sample_coin 8) false (snd (GetCoin (1, 0) sample_cache)) = (Fail (Thrown what), c') /\ SanityCheck c' = false.
Proof.
  destruct (AddCoin_throw_breaks_accounting (snd (GetCoin (1, 0) sample_cache)) (1, 0) {| coin := sample_coin 50; flags := 0 |} (sample_coin 8))
    as (what & c' & E & _ & S); [| | | | | |exists what, c'; auto].
  - destruct (GetCoin_spec sample_cache (1, 0) sample_cache_ok) as (c' & E & _ & _ & O). rewrite E. exact O.
  - reflexivity.
  - reflexivity.
  - cbn. lia.
  - reflexivity.
  - reflexivity.
Defined.

(** The transaction-level operations: [HaveInputs] holds exactly for coinbase
    transactions and those whose every input is unspent in the view, and
    [AddCoins] adds exactly the spendable outputs of the transaction, as coins
    of its height, and never throws when overwrites are checked for, excused
    for a coinbase, or impossible. *)
Theorem transaction_coins {HP : Primitives} {HPL : PrimitivesLaws} {V : Type} {HV : CCoinsView V} {HA : ViewAbs V} {HVL : ViewLaws V}
    (c : CCoinsViewCache V) (tx : CTransaction) (height : Z) (check : bool) : view_ok c ->
  (exists c', HaveInputs tx c = (Ok (IsCoinBase tx || forallb (fun i => bool_decide (is_Some (coins c !! prevout i))) (vin tx)), c') /\ same_view c c') /\
  (Z.of_nat (length (vout tx)) < 2 ^ 32 -> Forall (fun o => CTxOut_IsNull o = false) (vout tx) ->
   (check = true \/ IsCoinBase tx = true \/ forall j, 0 <= j -> coins c !! (GetHash tx, j) = None) -> exists c',
     AddCoins tx height check c = (Ok tt, c') /\ view_ok c' /\ best c' = best c /\
     coins c' = add_outputs (GetHash tx) height (IsCoinBase tx) 0 (vout tx) (coins c)).
Proof.
  intros Hok. split.
  - unfold HaveInputs. destruct (IsCoinBase tx); cbn [negb orb].
    + exists c. split; [reflexivity|apply same_view_refl, Hok].
    + apply have_inputs_loop_spec, Hok.
  - intros Hlen Hn Ha. apply AddCoins_loop_spec; auto. lia.
Qed.

Lemma transaction_coins_witness : exists c',
  AddCoins {| nVersion := 2; vin := []; vout := [(7, [1]); (0, [0x6a]); (9, [2])]; nLockTime := 0 |} 12 false sample_cache = (Ok tt, c') /\
  coins c' = <[(17, 2) := {| out := (9, [2]); fCoinBase := false; nHeight := 12 |}]>
    (<[(17, 0) := {| out := (7, [1]); fCoinBase := false; nHeight := 12 |}]> {[ (1, 0) := sample_coin 50 ]}).
Proof.
  destruct (transaction_coins sample_cache {| nVersion := 2; vin := []; vout := [(7, [1]); (0, [0x6a]); (9, [2])]; nLockTime := 0 |}
    12 false sample_cache_ok) as [_ H].
  destruct H as (c' & E & _ & _ & C).
  - cbn. lia.
  - repeat constructor.
  - right; right. intros j Hj. destruct j; reflexivity || lia.
  - exists c'. split; [exact E|]. rewrite C. reflexivity.
Defined.

(** A coin reads back from its database format: height, coinbase flag, value
    and script of an unspent coin survive [Serialize] and [Unserialize]; a
    spent coin is never written. *)
Theorem Coin_roundtrip {HP : Primitives} {E : ScriptEnv} {EL : ScriptEnvLaws} {S : Type} {HS : Stream S} {HL : StreamLaws S} (c : Coin) :
  in_u 31 (nHeight c) -> MoneyRange (nValue (out c)) = true ->
  Z.of_nat (length (scriptPubKey (out c))) <= MAX_SCRIPT_SIZE ->
  (IsSpent c = false -> exists bs, Writes (S := S) (Coin_Serialize c) bs tt /\
     Reads (S := S) (Coin_Unserialize {| out := (0, []); fCoinBase := false; nHeight := 0 |}) bs c) /\
  (IsSpent c = true -> forall s : S, Coin_Serialize c s = (Fail AssertFailed, s)).
Proof.
  destruct c as [[v sc] cb ht]. cbn [nHeight nValue scriptPubKey out fst snd]. intros Hh Hv Hs.
  split; intros Hsp; unfold Coin_Serialize; [|intros s; unfold mbind, stm_bind, lift_st; rewrite Hsp; reflexivity].
  pose proof max_script_size as Hmax.
  destruct (TxOutCompression_reads (S := S) v sc Hv ltac:(word_lia)) as (bs & W & R). rewrite stored_script_short in R by exact Hs.
  rewrite Hsp. cbn [negb assert_ nHeight fCoinBase out].
  set (code := ht * 2 + Z.b2z cb). assert (Hc : in_u 32 code) by (subst code; destruct cb; cbn [Z.b2z]; word_lia).
  rewrite (uwrap_small 32 code Hc). exists ([] ++ varint_bytes 32 code ++ bs). split.
  - eapply Writes_bind; [apply Writes_ret|]. eapply Writes_bind; [apply WriteVarInt_writes; [lia|exact Hc]|exact W].
  - cbn [app]. eapply Reads_bind; [apply ReadVarInt_reads; [lia|exact Hc]|]. cbn [out].
    rewrite <- (app_nil_r bs). eapply Reads_bind; [exact R|].
    assert (Es : Z.shiftr code 1 = ht).
    { subst code. rewrite Z.shiftr_div_pow2 by lia. change (2 ^ 1) with 2. rewrite Z.add_comm, Z.div_add by lia. destruct cb; reflexivity. }
    assert (El : negb (Z.land code 1 =? 0) = cb).
    { subst code. change 1 with (Z.ones 1). rewrite Z.land_ones, Z.add_comm by lia. change (2 ^ 1) with 2.
      rewrite Z.mod_add by lia. destruct cb; reflexivity. }
    rewrite Es, El. apply Reads_ret.
Qed.

Lemma Coin_roundtrip_witness : exists bs,
  Reads (S := DataStream) (@Coin_Unserialize sample_env DataStream _ {| out := (0, []); fCoinBase := false; nHeight := 0 |}) bs (sample_coin 1000).
Proof.
  destruct (Coin_roundtrip (E := sample_env) (EL := sample_env_laws) (S := DataStream) (sample_coin 1000)) as [H _].
  - unfold in_u. cbn. lia.
  - reflexivity.
  - unfold MAX_SCRIPT_SIZE. cbn. lia.
  - destruct (H eq_refl) as (bs & _ & R). exists bs. exact R.
Defined.
