(* ===== verification/TxCheck.v ===== *)
(** * Transaction checks

    Models the validation state of [src/consensus/validation.h],
    [CheckTransaction] of [src/consensus/tx_check.cpp], and the input checks
    and signature-operation counts of [src/consensus/tx_verify.cpp].  Sizes,
    the output sum of the transaction class and the script counters are not in
    the repository: they are the operations of the class [TxEnv]. *)

From stdpp Require Import base numbers list gmap strings.
From Stdlib Require Import ZArith Lia.
From S2P Require Import Prelude Params Streams Transaction Coins CoinsProofs CoinsRefinement.

Local Open Scope Z_scope.

(** ** [ValidationState] *)

Inductive TxValidationResult : Type :=
| TX_RESULT_UNSET | TX_CONSENSUS | TX_RECENT_CONSENSUS_CHANGE | TX_INPUTS_NOT_STANDARD | TX_NOT_STANDARD
| TX_MISSING_INPUTS | TX_PREMATURE_SPEND | TX_WITNESS_MUTATED | TX_WITNESS_STRIPPED | TX_CONFLICT
| TX_MEMPOOL_POLICY | TX_NO_MEMPOOL | TX_RECONSIDERABLE | TX_UNKNOWN.

Inductive BlockValidationResult : Type :=
| BLOCK_RESULT_UNSET | BLOCK_CONSENSUS | BLOCK_RECENT_CONSENSUS_CHANGE | BLOCK_CACHED_INVALID | BLOCK_INVALID_HEADER
| BLOCK_MUTATED | BLOCK_MISSING_PREV | BLOCK_INVALID_PREV | BLOCK_TIME_FUTURE | BLOCK_CHECKPOINT | BLOCK_HEADER_LOW_WORK.

Inductive ModeState : Type := M_VALID | M_INVALID | M_ERROR.

(** The debug message is kept out: nothing reads it but the log. *)
Record ValidationState (R : Type) : Type := {
  m_mode : ModeState;
  m_result : R;
  m_reject_reason : string;
}.
#[global] Arguments m_mode {R} _.
#[global] Arguments m_result {R} _.
#[global] Arguments m_reject_reason {R} _.

#[global] Instance TxValidationResult_eq_dec : EqDecision TxValidationResult.
Proof. solve_decision. Defined.
#[global] Instance BlockValidationResult_eq_dec : EqDecision BlockValidationResult.
Proof. solve_decision. Defined.

Definition Invalid {R} (result : R) (reject_reason : string) (s : ValidationState R) : bool * ValidationState R :=
  (false, {| m_mode := match m_mode s with M_ERROR => M_ERROR | _ => M_INVALID end;
             m_result := result; m_reject_reason := reject_reason |}).

Definition Error {R} (reject_reason : string) (s : ValidationState R) : bool * ValidationState R :=
  (false, {| m_mode := M_ERROR; m_result := m_result s;
             m_reject_reason := match m_mode s with M_VALID => reject_reason | _ => m_reject_reason s end |}).

Definition state_IsValid {R} (s : ValidationState R) : bool := match m_mode s with M_VALID => true | _ => false end.
Definition state_IsInvalid {R} (s : ValidationState R) : bool := match m_mode s with M_INVALID => true | _ => false end.
Definition state_IsError {R} (s : ValidationState R) : bool := match m_mode s with M_ERROR => true | _ => false end.

Notation TxValidationState := (ValidationState TxValidationResult).
Notation BlockValidationState := (ValidationState BlockValidationResult).
Definition fresh_state {R} (unset : R) : ValidationState R := {| m_mode := M_VALID; m_result := unset; m_reject_reason := "" |}.

(** ** The transaction class and scripts *)

Class TxEnv `{Primitives} : Type := {
  tx_size_no_witness : CTransaction -> Z;
  GetValueOut : CTransaction -> res Z;
  GetSigOpCount : bytes -> bool -> Z;
  GetSigOpCount_p2sh : bytes -> bytes -> Z;
  IsPayToScriptHash : bytes -> bool;
  CountWitnessSigOps : CTransaction -> nat -> bytes -> Z -> Z;
  SCRIPT_VERIFY_P2SH : Z;
}.

Section TxCheck.
Context `{TxEnv}.

(** ** [CheckTransaction] *)

(** The loop over the outputs; [None] when every output passes. *)
Fixpoint check_outputs (nValueOut : Z) (outs : list CTxOut) : option string :=
  match outs with
  | [] => None
  | txout :: rest =>
      if nValue txout <? 0 then Some "bad-txns-vout-negative"
      else if nValue txout >? MAX_MONEY then Some "bad-txns-vout-toolarge"
      else
        let nValueOut := i64 (nValueOut + nValue txout) in
        if negb (MoneyRange nValueOut) then Some "bad-txns-txouttotal-toolarge"
        else check_outputs nValueOut rest
  end.

(** The loop that fills [vInOutPoints]. *)
Fixpoint has_duplicate (seen : gset COutPoint) (ins : list CTxIn) : bool :=
  match ins with
  | [] => false
  | txin :: rest =>
      if bool_decide (prevout txin ∈ seen) then true
      else has_duplicate ({[ prevout txin ]} ∪ seen) rest
  end.

Definition CheckTransaction (tx : CTransaction) (state : TxValidationState) : bool * TxValidationState :=
  if match vin tx with [] => true | _ => false end then Invalid TX_CONSENSUS "bad-txns-vin-empty" state
  else if match vout tx with [] => true | _ => false end then Invalid TX_CONSENSUS "bad-txns-vout-empty" state
  else if tx_size_no_witness tx * WITNESS_SCALE_FACTOR >? MAX_BLOCK_WEIGHT then Invalid TX_CONSENSUS "bad-txns-oversize" state
  else match check_outputs 0 (vout tx) with
  | Some reason => Invalid TX_CONSENSUS reason state
  | None =>
      if has_duplicate ∅ (vin tx) then Invalid TX_CONSENSUS "bad-txns-inputs-duplicate" state
      else if IsCoinBase tx then
        let size := match vin tx with [] => 0 | i :: _ => Z.of_nat (length (scriptSig i)) end in
        if ((size <? 2) || (size >? 100))%bool then Invalid TX_CONSENSUS "bad-cb-length" state
        else (true, state)
      else if existsb (fun txin => COutPoint_IsNull (prevout txin)) (vin tx)
      then Invalid TX_CONSENSUS "bad-txns-prevout-null" state
      else (true, state)
  end.

(** ** Signature operations *)

Definition GetLegacySigOpCount (tx : CTransaction) : Z :=
  let nSigOps := foldl (fun n txin => u32 (n + GetSigOpCount (scriptSig txin) false)) 0 (vin tx) in
  foldl (fun n txout => u32 (n + GetSigOpCount (scriptPubKey txout) false)) nSigOps (vout tx).

Context {V : Type} `{CCoinsView V}.

Fixpoint p2sh_sigops_loop (ins : list CTxIn) (nSigOps : Z) : stm (CCoinsViewCache V) Z :=
  match ins with
  | [] => mret nSigOps
  | txin :: rest =>
      c ← AccessCoin (prevout txin);
      _ ← lift_st (assert_ (negb (IsSpent c)));
      p2sh_sigops_loop rest
        (if IsPayToScriptHash (scriptPubKey (out c))
         then u32 (nSigOps + GetSigOpCount_p2sh (scriptPubKey (out c)) (scriptSig txin)) else nSigOps)
  end.

Definition GetP2SHSigOpCount (tx : CTransaction) : stm (CCoinsViewCache V) Z :=
  if IsCoinBase tx then mret 0 else p2sh_sigops_loop (vin tx) 0.

Fixpoint witness_sigops_loop (tx : CTransaction) (vflags : Z) (i : nat) (ins : list CTxIn) (nSigOps : Z) : stm (CCoinsViewCache V) Z :=
  match ins with
  | [] => mret nSigOps
  | txin :: rest =>
      c ← AccessCoin (prevout txin);
      _ ← lift_st (assert_ (negb (IsSpent c)));
      witness_sigops_loop tx vflags (S i) rest (i64 (nSigOps + CountWitnessSigOps tx i (scriptPubKey (out c)) vflags))
  end.

(** [GetLegacySigOpCount(tx) * WITNESS_SCALE_FACTOR] is an unsigned product. *)
Definition GetTransactionSigOpCost (tx : CTransaction) (vflags : Z) : stm (CCoinsViewCache V) Z :=
  let nSigOps := u32 (GetLegacySigOpCount tx * WITNESS_SCALE_FACTOR) in
  if IsCoinBase tx then mret nSigOps
  else
    nSigOps ← (if negb (Z.land vflags SCRIPT_VERIFY_P2SH =? 0)
               then n ← GetP2SHSigOpCount tx; mret (i64 (nSigOps + u32 (n * WITNESS_SCALE_FACTOR)))
               else mret nSigOps);
    witness_sigops_loop tx vflags 0 (vin tx) nSigOps.

(** ** [Consensus::CheckTxInputs] *)

(** The loop over the inputs: the sum, or the rejection. *)
Fixpoint check_inputs_loop (nSpendHeight : Z) (ins : list CTxIn) (nValueIn : Z)
    : stm (CCoinsViewCache V) (Z + TxValidationResult * string) :=
  match ins with
  | [] => mret (inl nValueIn)
  | txin :: rest =>
      c ← AccessCoin (prevout txin);
      _ ← lift_st (assert_ (negb (IsSpent c)));
      if (fCoinBase c && (i32 (nSpendHeight - nHeight c) <? COINBASE_MATURITY))%bool
      then mret (inr (TX_PREMATURE_SPEND, "bad-txns-premature-spend-of-coinbase"))
      else
        let nValueIn := i64 (nValueIn + nValue (out c)) in
        if (negb (MoneyRange (nValue (out c))) || negb (MoneyRange nValueIn))%bool
        then mret (inr (TX_CONSENSUS, "bad-txns-inputvalues-outofrange"))
        else check_inputs_loop nSpendHeight rest nValueIn
  end.

(** The result, the state, and the fee where one is assigned. *)
Definition CheckTxInputs (tx : CTransaction) (state : TxValidationState) (nSpendHeight : Z)
    : stm (CCoinsViewCache V) (bool * TxValidationState * option Z) :=
  have ← HaveInputs tx;
  if negb have then mret (Invalid TX_MISSING_INPUTS "bad-txns-inputs-missingorspent" state, None)
  else
    r ← check_inputs_loop nSpendHeight (vin tx) 0;
    match r with
    | inr (res, reason) => mret (Invalid res reason state, None)
    | inl nValueIn =>
        value_out ← lift_st (GetValueOut tx);
        if nValueIn <? value_out then mret (Invalid TX_CONSENSUS "bad-txns-in-belowout" state, None)
        else
          let txfee_aux := i64 (nValueIn - value_out) in
          if negb (MoneyRange txfee_aux) then mret (Invalid TX_CONSENSUS "bad-txns-fee-outofrange" state, None)
          else mret ((true, state), Some txfee_aux)
    end.
End TxCheck.

(** ** What the checks establish *)

Definition total (l : list CTxOut) : Z := foldr (fun o s => nValue o + s) 0 l.

Lemma total_nonneg l : Forall (fun o => 0 <= nValue o) l -> 0 <= total l.
Proof. unfold total. induction 1; cbn [foldr]; lia. Qed.

Lemma MoneyRange_spec v : MoneyRange v = true <-> 0 <= v <= MAX_MONEY.
Proof. unfold MoneyRange. rewrite andb_true_iff, !Z.leb_le. lia. Qed.

(** The running total of the loop never overflows, and it is the total. *)
Lemma check_outputs_spec outs acc : 0 <= acc <= MAX_MONEY ->
  check_outputs acc outs = None <-> Forall (fun o => 0 <= nValue o <= MAX_MONEY) outs /\ acc + total outs <= MAX_MONEY.
Proof.
  revert acc. induction outs as [|o outs IH]; intros acc Hacc; cbn [check_outputs total foldr].
  { split; [intros _; split; [constructor|lia]|reflexivity]. }
  change (foldr (fun o s => nValue o + s) 0 outs) with (total outs).
  rewrite Forall_cons. destruct (Z.ltb_spec (nValue o) 0); [split; [discriminate|lia]|].
  destruct (Z.gtb_spec (nValue o) MAX_MONEY); [split; [discriminate|lia]|].
  assert (E : i64 (acc + nValue o) = acc + nValue o).
  { apply swrap_small; [lia|]. change MAX_MONEY with 121300000000000000 in *. word_lia. }
  rewrite E. destruct (MoneyRange (acc + nValue o)) eqn:M; cbn [negb].
  - apply MoneyRange_spec in M. rewrite IH by lia. rewrite Z.add_assoc. intuition lia.
  - split; [discriminate|]. intros [[_ Hf] Ht]. exfalso. assert (0 <= total outs).
    { apply total_nonneg. eapply Forall_impl; [exact Hf|]. cbn. lia. }
    assert (M' : MoneyRange (acc + nValue o) = true) by (apply MoneyRange_spec; lia). congruence.
Qed.

Lemma has_duplicate_spec ins seen : has_duplicate seen ins = false <->
  NoDup (map prevout ins) /\ Forall (fun i => prevout i ∉ seen) ins.
Proof.
  revert seen. induction ins as [|i ins IH]; intros seen; cbn [has_duplicate map].
  { split; [intros _; split; constructor|reflexivity]. }
  rewrite NoDup_cons, Forall_cons. destruct (decide (prevout i ∈ seen)) as [Hin|Hin].
  - rewrite bool_decide_eq_true_2 by exact Hin. split; [discriminate|tauto].
  - rewrite bool_decide_eq_false_2, IH, !Forall_forall by exact Hin. split.
    + intros [Hnd Hf]. split; [split; [|exact Hnd]|split; [exact Hin|]].
      * intros Hm. apply list_elem_of_In, in_map_iff in Hm as (j & E & Hj). apply list_elem_of_In in Hj.
        specialize (Hf j Hj). rewrite E in Hf. set_solver.
      * intros j Hj. specialize (Hf j Hj). set_solver.
    + intros [[Hni Hnd] [_ Hf]]. split; [exact Hnd|]. intros j Hj. apply not_elem_of_union. split; [|exact (Hf j Hj)].
      rewrite elem_of_singleton. intros E. apply Hni. rewrite <- E. apply list_elem_of_In, in_map. apply list_elem_of_In. exact Hj.
Qed.

Section Correct.
Context `{TxEnv}.

(** The rules of [CheckTransaction]. *)
Definition tx_wellformed (tx : CTransaction) : Prop :=
  vin tx <> [] /\ vout tx <> [] /\ tx_size_no_witness tx * WITNESS_SCALE_FACTOR <= MAX_BLOCK_WEIGHT /\
  Forall (fun o => 0 <= nValue o <= MAX_MONEY) (vout tx) /\ total (vout tx) <= MAX_MONEY /\
  NoDup (map prevout (vin tx)) /\
  (IsCoinBase tx = true -> forall i rest, vin tx = i :: rest -> (2 <= length (scriptSig i) <= 100)%nat) /\
  (IsCoinBase tx = false -> Forall (fun i => COutPoint_IsNull (prevout i) = false) (vin tx)).

Lemma existsb_Forall {A} (f : A -> bool) (l : list A) : existsb f l = false <-> Forall (fun x => f x = false) l.
Proof using.
  induction l as [|x l IH]; cbn; [split; constructor|]. rewrite orb_false_iff, Forall_cons, IH. reflexivity.
Qed.

Lemma CheckTransaction_accepts tx state :
  (tx_wellformed tx -> CheckTransaction tx state = (true, state)) /\
  (~ tx_wellformed tx -> exists reason, CheckTransaction tx state = Invalid TX_CONSENSUS reason state).
Proof using.
  unfold CheckTransaction, tx_wellformed.
  destruct (vin tx) as [|i0 ins] eqn:Ei; [split; [tauto|eauto]|]. destruct (vout tx) as [|o0 outs] eqn:Eo; [split; [tauto|eauto]|].
  destruct (Z.gtb_spec (tx_size_no_witness tx * WITNESS_SCALE_FACTOR) MAX_BLOCK_WEIGHT); [split; [lia|eauto]|].
  pose proof (check_outputs_spec (o0 :: outs) 0 ltac:(unfold MAX_MONEY, COIN; lia)) as Co. rewrite Z.add_0_l in Co.
  destruct (check_outputs 0 (o0 :: outs)) as [reason|]; [split; [|eauto]; intros (_ & _ & _ & Hf & Ht & _); destruct Co as [_ Co]; discriminate Co; auto|].
  destruct Co as [Co _]. destruct (Co eq_refl) as [Hf Ht]. clear Co.
  pose proof (has_duplicate_spec (i0 :: ins) ∅) as Hd.
  destruct (has_duplicate ∅ (i0 :: ins)).
  { split; [|eauto]. intros (_ & _ & _ & _ & _ & Hn & _). destruct Hd as [_ Hd]. discriminate Hd. split; [exact Hn|].
    apply Forall_forall. set_solver. }
  destruct Hd as [Hd _]. destruct (Hd eq_refl) as [Hn _]. clear Hd.
  destruct (IsCoinBase tx) eqn:Ecb.
  - destruct (Z.ltb_spec (Z.of_nat (length (scriptSig i0))) 2); [|destruct (Z.gtb_spec (Z.of_nat (length (scriptSig i0))) 100)]; cbn [orb].
    1, 2: split; [|eauto]; intros (_ & _ & _ & _ & _ & _ & Hcb & _); specialize (Hcb eq_refl i0 ins eq_refl); lia.
    split; [reflexivity|]. intros Hnot. exfalso. apply Hnot. do 2 (split; [discriminate|]). split; [lia|]. do 3 (split; [assumption|]).
    split; [|discriminate]. intros _ i rest [= <- _]. lia.
  - pose proof (existsb_Forall (fun txin => COutPoint_IsNull (prevout txin)) (i0 :: ins)) as He.
    destruct (existsb _ _); [split; [|eauto]; intros (_ & _ & _ & _ & _ & _ & _ & Hp); destruct He as [_ He]; discriminate He; auto|].
    destruct He as [He _]. split; [reflexivity|]. intros Hnot. exfalso. apply Hnot.
    do 2 (split; [discriminate|]). split; [lia|]. do 3 (split; [assumption|]). split; [discriminate|auto].
Qed.

Context {HPL : PrimitivesLaws} {V : Type} {HV : CCoinsView V} {HA : ViewAbs V} {HVL : ViewLaws V}.

(** The coins that the inputs spend. *)
Definition spent (u : gmap COutPoint Coin) (ins : list CTxIn) : list Coin := omap (fun i => u !! prevout i) ins.

(** An input coin that may be spent at [h]. *)
Definition spendable (h : Z) (x : Coin) : Prop :=
  (fCoinBase x = true -> COINBASE_MATURITY <= h - nHeight x) /\ 0 <= nValue (out x) <= MAX_MONEY.

#[global] Instance spendable_dec h x : Decision (spendable h x).
Proof using. unfold spendable. apply _. Defined.

Definition heights_ok (u : gmap COutPoint Coin) : Prop := map_Forall (fun _ x => in_u 31 (nHeight x)) u.

Lemma spent_cons u i ins x : u !! prevout i = Some x -> spent u (i :: ins) = x :: spent u ins.
Proof using. unfold spent. cbn. intros ->. reflexivity. Qed.

Lemma check_inputs_loop_spec h ins acc (c : CCoinsViewCache V) : view_ok c -> heights_ok (coins c) -> in_u 31 h ->
  Forall (fun i => is_Some (coins c !! prevout i)) ins -> 0 <= acc <= MAX_MONEY -> exists r c',
  check_inputs_loop h ins acc c = (Ok r, c') /\ same_view c c' /\
  let xs := spent (coins c) ins in
  (Forall (spendable h) xs /\ acc + total (map out xs) <= MAX_MONEY -> r = inl (acc + total (map out xs))) /\
  (~ (Forall (spendable h) xs /\ acc + total (map out xs) <= MAX_MONEY) -> exists e, r = inr e).
Proof using HPL HVL.
  intros Hok Hh Hhr. revert acc c Hok Hh. induction ins as [|i ins IH]; intros acc c Hok Hh Hin Hacc; cbn [check_inputs_loop].
  { exists (inl acc), c. split; [reflexivity|]. split; [apply same_view_refl, Hok|]. cbn. split; [intros _; f_equal; lia|].
    intros Hn. exfalso. apply Hn. split; [constructor|lia]. }
  apply Forall_cons in Hin as [[x Ex] Hin]. destruct (AccessCoin_spec c (prevout i) Hok) as (y & c1 & E1 & S1 & Ey).
  rewrite Ex in Ey. unfold live in Ey. destruct (IsSpent y) eqn:Es; [discriminate|]. injection Ey as ->.
  unfold mbind, stm_bind. rewrite E1. unfold lift_st. rewrite Es. cbn [negb assert_]. rewrite (spent_cons _ _ _ _ Ex). cbn zeta.
  cbn [map]. change (total (out x :: map out (spent (coins c) ins))) with (nValue (out x) + total (map out (spent (coins c) ins))).
  setoid_rewrite Forall_cons. pose proof (Hh _ _ Ex) as Hx. cbn in Hx.
  rewrite swrap_small by (try lia; word_lia).
  destruct (fCoinBase x && (h - nHeight x <? COINBASE_MATURITY))%bool eqn:G.
  { eexists _, c1. split; [reflexivity|]. split; [exact S1|]. apply andb_true_iff in G as [G1 G2]. zbool.
    split; [|eauto]. intros [[[Hm _] _] _]. specialize (Hm G1). lia. }
  assert (Hm : fCoinBase x = true -> COINBASE_MATURITY <= h - nHeight x).
  { intros Hc. rewrite Hc in G. cbn [andb] in G. zbool. lia. }
  destruct (MoneyRange (nValue (out x))) eqn:M1; cbn [negb orb].
  2: { eexists _, c1. split; [reflexivity|]. split; [exact S1|]. split; [|eauto]. intros [[[_ Hr] _] _]. apply MoneyRange_spec in Hr. congruence. }
  apply MoneyRange_spec in M1. rewrite swrap_small by (change MAX_MONEY with 121300000000000000 in *; try lia; word_lia).
  destruct (MoneyRange (acc + nValue (out x))) eqn:M2; cbn [negb].
  - apply MoneyRange_spec in M2. destruct S1 as (C1 & B1 & O1).
    destruct (IH (acc + nValue (out x)) c1 O1) as (r & c2 & E2 & S2 & R1 & R2); [rewrite C1; exact Hh|rewrite C1; exact Hin|lia|].
    rewrite E2. exists r, c2. split; [reflexivity|]. split; [eapply same_view_trans; [|exact S2]; apply same_view_intro; auto|].
    rewrite C1 in R1, R2. split.
    + intros [[_ Hf] Ht]. rewrite Z.add_assoc. apply R1. split; [exact Hf|lia].
    + intros Hn. apply R2. intros [Hf Ht]. apply Hn. split; [split; [split; assumption|exact Hf]|lia].
  - eexists _, c1. split; [reflexivity|]. split; [exact S1|]. split; [|eauto]. intros [[_ Hf] Ht]. exfalso.
    assert (0 <= total (map out (spent (coins c) ins))).
    { apply total_nonneg. apply Forall_map. eapply Forall_impl; [exact Hf|]. intros z [_ Hz]. lia. }
    assert (M' : MoneyRange (acc + nValue (out x)) = true) by (apply MoneyRange_spec; lia). congruence.
Qed.

(** Everything [CheckTxInputs] asks of a transaction against the coins [u]. *)
Definition inputs_pay (u : gmap COutPoint Coin) (h : Z) (tx : CTransaction) : Prop :=
  Forall (fun i => is_Some (u !! prevout i)) (vin tx) /\ Forall (spendable h) (spent u (vin tx)) /\
  total (map out (spent u (vin tx))) <= MAX_MONEY /\ total (vout tx) <= total (map out (spent u (vin tx))).

Lemma HaveInputs_spec (c : CCoinsViewCache V) tx : view_ok c -> IsCoinBase tx = false -> exists b c',
  HaveInputs tx c = (Ok b, c') /\ same_view c c' /\ (b = true <-> Forall (fun i => is_Some (coins c !! prevout i)) (vin tx)).
Proof using HVL.
  intros Hok Hcb. unfold HaveInputs. rewrite Hcb. cbn [negb].
  destruct (have_inputs_loop_spec (vin tx) c Hok) as (c' & E & S). eexists _, c'. split; [exact E|]. split; [exact S|].
  rewrite <- Is_true_true, forallb_True. apply Forall_iff. intros i. rewrite bool_decide_spec. reflexivity.
Qed.
End Correct.

(** What the code relies on of [CTransaction::GetValueOut]. *)
Class TxEnvLaws `{TxEnv} : Prop := {
  value_out : forall tx, Forall (fun o => 0 <= nValue o <= MAX_MONEY) (vout tx) -> total (vout tx) <= MAX_MONEY ->
    GetValueOut tx = Ok (total (vout tx));
}.

(** [CheckTransaction] accepts exactly the well-formed transactions: inputs
    and outputs present, within the size limit, every output and their sum
    within [MAX_MONEY] (no overflow can hide one), no input spent twice, a
    coinbase script of 2 to 100 bytes and no null input otherwise.  It leaves
    the state alone when it accepts; every rejection is a consensus failure,
    as [CheckBlock] asserts. *)
Theorem CheckTransaction_correct {HP : Primitives} {HT : TxEnv} (tx : CTransaction) (state : TxValidationState) :
  (tx_wellformed tx -> CheckTransaction tx state = (true, state)) /\
  (~ tx_wellformed tx -> exists state', CheckTransaction tx state = (false, state') /\
     m_result state' = TX_CONSENSUS /\ state_IsValid state' = false).
Proof.
  destruct (CheckTransaction_accepts tx state) as [A B]. split; [exact A|]. intros Hn. destruct (B Hn) as [reason E].
  eexists. split; [exact E|]. split; [reflexivity|]. cbn. destruct (m_mode state); reflexivity.
Qed.

Definition sample_tx_env : @TxEnv sample_primitives := {|
  tx_size_no_witness := fun tx => 60; GetValueOut := fun tx => Ok (total (vout tx));
  GetSigOpCount := fun s b => 0; GetSigOpCount_p2sh := fun a b => 0; IsPayToScriptHash := fun s => false;
  CountWitnessSigOps := fun tx i s f => 0; SCRIPT_VERIFY_P2SH := 1 |}.

Definition sample_spend : CTransaction :=
  {| nVersion := 2; vin := [{| prevout := (1, 0); scriptSig := []; nSequence := 0 |}]; vout := [(20, [1]); (25, [2])]; nLockTime := 0 |}.

Lemma CheckTransaction_correct_witness :
  @CheckTransaction sample_primitives sample_tx_env sample_spend (fresh_state TX_RESULT_UNSET) = (true, fresh_state TX_RESULT_UNSET).
Proof.
  apply (CheckTransaction_correct (HP := sample_primitives) (HT := sample_tx_env)).
  split; [discriminate|]. split; [discriminate|]. split; [cbn; unfold MAX_BLOCK_WEIGHT, WITNESS_SCALE_FACTOR; lia|].
  split; [repeat constructor; cbn; unfold MAX_MONEY, COIN; lia|]. split; [cbn; unfold MAX_MONEY, COIN; lia|].
  split; [apply NoDup_singleton|]. split; [discriminate|]. repeat constructor.
Defined.

Lemma CheckTxInputs_spec {HP : Primitives} {HT : TxEnv} {HPL : PrimitivesLaws} {HTL : TxEnvLaws}
    {V : Type} {HV : CCoinsView V} {HA : ViewAbs V} {HVL : ViewLaws V}
    (tx : CTransaction) (state : TxValidationState) (h : Z) (c : CCoinsViewCache V) :
  view_ok c -> heights_ok (coins c) -> in_u 31 h -> IsCoinBase tx = false ->
  Forall (fun o => 0 <= nValue o <= MAX_MONEY) (vout tx) -> total (vout tx) <= MAX_MONEY ->
  exists ok state' fee c', CheckTxInputs tx state h c = (Ok ((ok, state'), fee), c') /\ same_view c c' /\
    (inputs_pay (coins c) h tx -> ok = true /\ state' = state /\
       exists f, fee = Some f /\ 0 <= f /\ total (map out (spent (coins c) (vin tx))) = total (vout tx) + f) /\
    (~ inputs_pay (coins c) h tx -> ok = false /\ fee = None).
Proof.
  intros Hok Hh Hhr Hcb Hvo Hto. unfold CheckTxInputs, mbind, stm_bind, inputs_pay.
  destruct (HaveInputs_spec c tx Hok Hcb) as (b & c1 & E1 & (C1 & B1 & O1) & Hb). rewrite E1.
  destruct b; cbn [negb].
  2: { eexists false, _, None, c1. split; [reflexivity|]. split; [apply same_view_intro; auto|]. split; [|auto].
       intros [Hall _]. apply Hb in Hall. discriminate. }
  destruct Hb as [Hall _]. specialize (Hall eq_refl).
  destruct (check_inputs_loop_spec h (vin tx) 0 c1 O1) as (r & c2 & E2 & S2 & R1 & R2); [rewrite C1; exact Hh|exact Hhr|rewrite C1; exact Hall|unfold MAX_MONEY, COIN; lia|].
  rewrite C1 in R1, R2. rewrite E2. set (xs := spent (coins c) (vin tx)) in *.
  assert (S : same_view c c2) by (eapply same_view_trans; [apply same_view_intro|exact S2]; auto).
  destruct r as [sum|[res reason]].
  2: { eexists false, _, None, c2. split; [reflexivity|]. split; [exact S|]. split; [|auto].
       intros (_ & Hf & Ht & _). discriminate (R1 (conj Hf Ht)). }
  assert (G : Forall (spendable h) xs /\ total (map out xs) <= MAX_MONEY /\ sum = total (map out xs)).
  { destruct (decide (Forall (spendable h) xs /\ 0 + total (map out xs) <= MAX_MONEY)) as [G|G].
    - injection (R1 G) as ->. destruct G. auto.
    - destruct (R2 G) as [e Ee]. discriminate. }
  destruct G as (Hf & Ht & ->). unfold lift_st. rewrite (value_out tx Hvo Hto).
  assert (0 <= total (vout tx)) by (apply total_nonneg; eapply Forall_impl; [exact Hvo|]; cbn; lia).
  destruct (Z.ltb_spec (total (map out xs)) (total (vout tx))).
  { eexists false, _, None, c2. split; [reflexivity|]. split; [exact S|]. split; [|auto]. intros (_ & _ & _ & ?). lia. }
  assert (Em : i64 (total (map out xs) - total (vout tx)) = total (map out xs) - total (vout tx)).
  { apply swrap_small; [lia|]. change MAX_MONEY with 121300000000000000 in *. word_lia. }
  rewrite Em. assert (M : MoneyRange (total (map out xs) - total (vout tx)) = true) by (apply MoneyRange_spec; lia).
  rewrite M. cbn [negb]. eexists true, state, _, c2. split; [reflexivity|]. split; [exact S|]. split.
  - intros _. repeat split; auto. eexists. split; [reflexivity|]. lia.
  - intros Hn. exfalso. apply Hn. repeat split; auto.
Qed.

(** C24. [CheckTxInputs] conserves value: on a transaction whose outputs passed
    [CheckTransaction] it neither throws, fails an assertion nor overflows; it
    accepts exactly when every input is unspent in the view, coinbases are 100
    blocks deep, the inputs are in range and their sum covers the outputs; the
    fee it then reports is what the inputs hold above the outputs; and it
    leaves the coins as they were. *)
Theorem CheckTxInputs_conserves {HP : Primitives} {HT : TxEnv} {HPL : PrimitivesLaws} {HTL : TxEnvLaws}
    {V : Type} {HV : CCoinsView V} {HA : ViewAbs V} {HVL : ViewLaws V}
    (tx : CTransaction) (state : TxValidationState) (h : Z) (c : CCoinsViewCache V) :
  view_ok c -> heights_ok (coins c) -> in_u 31 h -> IsCoinBase tx = false ->
  Forall (fun o => 0 <= nValue o <= MAX_MONEY) (vout tx) -> total (vout tx) <= MAX_MONEY ->
  exists ok state' fee c', CheckTxInputs tx state h c = (Ok ((ok, state'), fee), c') /\ same_view c c' /\
    (inputs_pay (coins c) h tx -> ok = true /\ state' = state /\
       exists f, fee = Some f /\ 0 <= f /\ total (map out (spent (coins c) (vin tx))) = total (vout tx) + f) /\
    (~ inputs_pay (coins c) h tx -> ok = false /\ fee = None).
Proof. apply CheckTxInputs_spec. Qed.

Lemma sample_tx_laws : @TxEnvLaws sample_primitives sample_tx_env.
Proof. split. reflexivity. Qed.

#[local] Existing Instance sample_primitives.
#[local] Existing Instance sample_primitives_laws.
#[local] Existing Instance sample_tx_env.
#[local] Existing Instance sample_tx_laws.

Lemma CheckTxInputs_conserves_witness : exists c' : CCoinsViewCache (CCoinsViewCache plain),
  CheckTxInputs sample_spend (fresh_state TX_RESULT_UNSET) 30 sample_cache = (Ok ((true, fresh_state TX_RESULT_UNSET), Some 5), c').
Proof.
  destruct (CheckTxInputs_conserves (HTL := sample_tx_laws) sample_spend (fresh_state TX_RESULT_UNSET) 30 sample_cache)
    as (ok & st & fee & c' & E & _ & A & _).
  - apply sample_cache_ok.
  - assert (Ec : coins sample_cache = {[ (1, 0) := sample_coin 50 ]}) by reflexivity.
    unfold heights_ok. rewrite Ec. apply map_Forall_singleton. unfold in_u. cbn. lia.
  - unfold in_u. lia.
  - reflexivity.
  - repeat constructor; cbn; unfold MAX_MONEY, COIN; lia.
  - cbn. unfold MAX_MONEY, COIN. lia.
  - assert (Es : spent (coins sample_cache) (vin sample_spend) = [sample_coin 50]) by reflexivity.
    unfold inputs_pay in A. rewrite Es in A. destruct A as (-> & -> & f & -> & _ & Hf).
    + split; [repeat constructor; eexists; reflexivity|].
      split; [repeat constructor; discriminate|]. cbn. unfold MAX_MONEY, COIN. lia.
    + cbn in Hf. assert (f = 5) by lia.
      subst f. exists c'. exact E.
Defined.
