(* ===== verification/Locks.v ===== *)
(** * Absolute and relative lock times

    Models [IsFinalTx], [CalculateSequenceLocks], [EvaluateSequenceLocks] and
    [SequenceLocks] of [src/consensus/tx_verify.cpp], and their uses at the
    chain tip in [src/validation.cpp].  The sequence-number constants are
    members of CTxIn, which is not in the repository: they are the operations
    of the class [LockEnv]. *)

From stdpp Require Import base numbers list gmap sorting strings.
From Stdlib Require Import ZArith Lia.
From S2P Require Import Prelude ArithUint256 Params Transaction Coins Chain ActiveChain ChainWork.

Local Open Scope Z_scope.

Class LockEnv : Type := {
  SEQUENCE_FINAL : Z;
  SEQUENCE_LOCKTIME_DISABLE_FLAG : Z;
  SEQUENCE_LOCKTIME_TYPE_FLAG : Z;
  SEQUENCE_LOCKTIME_MASK : Z;
  SEQUENCE_LOCKTIME_GRANULARITY : Z;
  LOCKTIME_THRESHOLD : Z;
  STANDARD_LOCKTIME_VERIFY_FLAGS : Z;
}.

Section Locks.
Context `{LockEnv}.

Definition IsFinalTx (tx : CTransaction) (nBlockHeight nBlockTime : Z) : bool :=
  if nLockTime tx =? 0 then true
  else if nLockTime tx <? (if nLockTime tx <? LOCKTIME_THRESHOLD then nBlockHeight else nBlockTime) then true
  else forallb (fun txin => nSequence txin =? SEQUENCE_FINAL) (vin tx).

(** The loop over the inputs: the two lock values and the heights as the loop
    leaves them. *)
Fixpoint sequence_loop (h : heap) (block : ptr) (ins : list CTxIn) (prevHeights : list Z) (nMinHeight nMinTime : Z)
    : res (Z * Z * list Z) :=
  match ins, prevHeights with
  | txin :: ins', nCoinHeight :: rest =>
      if negb (Z.land (nSequence txin) SEQUENCE_LOCKTIME_DISABLE_FLAG =? 0) then
        '(mh, mt, hs) ← sequence_loop h block ins' rest nMinHeight nMinTime;
        Ok (mh, mt, 0 :: hs)
      else if negb (Z.land (nSequence txin) SEQUENCE_LOCKTIME_TYPE_FLAG =? 0) then
        a ← GetAncestor h block (Z.max (i32 (nCoinHeight - 1)) 0);
        a ← match a with Some a => Ok a | None => Fail AssertFailed end;
        nCoinTime ← GetMedianTimePast h a;
        let nMinTime := Z.max nMinTime
          (i64 (nCoinTime + u32 (Z.shiftl (Z.land (nSequence txin) SEQUENCE_LOCKTIME_MASK) SEQUENCE_LOCKTIME_GRANULARITY) - 1)) in
        '(mh, mt, hs) ← sequence_loop h block ins' rest nMinHeight nMinTime;
        Ok (mh, mt, nCoinHeight :: hs)
      else
        let nMinHeight := Z.max nMinHeight (i32 (nCoinHeight + Z.land (nSequence txin) SEQUENCE_LOCKTIME_MASK - 1)) in
        '(mh, mt, hs) ← sequence_loop h block ins' rest nMinHeight nMinTime;
        Ok (mh, mt, nCoinHeight :: hs)
  | _, _ => Ok (nMinHeight, nMinTime, [])
  end.

Definition enforce_bip68 (tx : CTransaction) (lflags : Z) : bool :=
  (u32 (Transaction.nVersion tx) >=? 2) && negb (Z.land lflags LOCKTIME_VERIFY_SEQUENCE =? 0).

Definition CalculateSequenceLocks (h : heap) (tx : CTransaction) (lflags : Z) (prevHeights : list Z) (block : ptr)
    : res (Z * Z * list Z) :=
  _ ← assert_ (length prevHeights =? length (vin tx))%nat;
  if negb (enforce_bip68 tx lflags) then Ok (-1, -1, prevHeights)
  else sequence_loop h block (vin tx) prevHeights (-1) (-1).

Definition EvaluateSequenceLocks (h : heap) (block : ptr) (lockPair : Z * Z) : res bool :=
  b ← deref h block;
  q ← match pprev b with Some q => Ok q | None => Fail AssertFailed end;
  nBlockTime ← GetMedianTimePast h q;
  Ok (negb ((fst lockPair >=? Chain.nHeight b) || (snd lockPair >=? nBlockTime)))%bool.

Definition SequenceLocks (h : heap) (tx : CTransaction) (lflags : Z) (prevHeights : list Z) (block : ptr) : res bool :=
  '(mh, mt, _) ← CalculateSequenceLocks h tx lflags prevHeights block;
  EvaluateSequenceLocks h block (mh, mt).

(** ** At the tip *)

Definition CheckFinalTxAtTip (h : heap) (active_chain_tip : ptr) (tx : CTransaction) : res bool :=
  b ← deref h active_chain_tip;
  let nBlockHeight := i32 (Chain.nHeight b + 1) in
  nBlockTime ← GetMedianTimePast h active_chain_tip;
  Ok (IsFinalTx tx nBlockHeight nBlockTime).

Definition MEMPOOL_HEIGHT : Z := 0x7FFFFFFF.

Section Tip.
Context `{Primitives} {V : Type} `{CCoinsView V}.

(** [CalculatePrevHeights]: [None] is [std::nullopt]. *)
Fixpoint prev_heights_loop (tip_height : Z) (ins : list CTxIn) : stm V (option (list Z)) :=
  match ins with
  | [] => mret (Some [])
  | txin :: rest =>
      c ← view_GetCoin (prevout txin);
      match c with
      | None => mret None
      | Some c =>
          let height := if Coins.nHeight c =? MEMPOOL_HEIGHT then i32 (tip_height + 1) else Coins.nHeight c in
          r ← prev_heights_loop tip_height rest;
          mret (option_map (cons height) r)
      end
  end.

Definition CalculatePrevHeights (tip : CBlockIndex) (tx : CTransaction) : stm V (option (list Z)) :=
  prev_heights_loop (Chain.nHeight tip) (vin tx).
End Tip.

Record LockPoints : Type := { lp_height : Z; lp_time : Z; maxInputBlock : option ptr }.

(** The [CBlockIndex] on the stack that stands for the block after [tip]. *)
Definition next_tip (h : heap) (tip : ptr) (b : CBlockIndex) : ptr * heap :=
  let p := fresh (dom h) in
  (p, <[p := {| phashBlock := None; pprev := Some tip; pskip := None; Chain.nHeight := i32 (Chain.nHeight b + 1);
                nFile := 0; nDataPos := 0; nUndoPos := 0; nChainWork := uint_zero; nTx := 0; nChainTx := 0;
                nStatus := 0; Chain.nVersion := 0; hashMerkleRoot := repeat 0 32; nTime := 0; nBits := 0; nNonce := 0;
                nSequenceId := 0; nTimeMax := 0 |}]> h).

Definition CalculateLockPointsAtTip (h : heap) (tip : ptr) (prev_heights : option (list Z)) (tx : CTransaction)
    : res (option LockPoints) :=
  b ← deref h tip;
  match prev_heights with
  | None => Ok None
  | Some prev_heights =>
      let '(p, h') := next_tip h tip b in
      '(min_height, min_time, prev_heights) ← CalculateSequenceLocks h' tx STANDARD_LOCKTIME_VERIFY_FLAGS prev_heights p;
      let max_input_height := foldl (fun m height => if height =? i32 (Chain.nHeight b + 1) then m else Z.max m height) 0 prev_heights in
      a ← GetAncestor h tip max_input_height;
      a ← match a with Some a => Ok a | None => Fail AssertFailed end;
      Ok (Some {| lp_height := min_height; lp_time := min_time; maxInputBlock := Some a |})
  end.

Definition CheckSequenceLocksAtTip (h : heap) (tip : ptr) (lock_points : LockPoints) : res bool :=
  b ← deref h tip;
  let '(p, h') := next_tip h tip b in
  EvaluateSequenceLocks h' p (lp_height lock_points, lp_time lock_points).
End Locks.

(** ** What the locks mean *)

(** The constants of BIP 68 fit the arithmetic of the code. *)
Class LockEnvLaws `{LockEnv} : Prop := {
  mask_range : 0 <= SEQUENCE_LOCKTIME_MASK < 2 ^ 16;
  granularity_range : 0 <= SEQUENCE_LOCKTIME_GRANULARITY <= 9;
}.

Section Meaning.
Context `{LockEnvLaws} (h : heap) (Hwf : tree_wf h) (block : ptr) (b : CBlockIndex) (Hb : h !! block = Some b).

(** The median time past of the block before the one that holds the coin. *)
Definition coin_time (nCoinHeight : Z) : option Z :=
  a ← up h (Z.to_nat (Chain.nHeight b - Z.max (nCoinHeight - 1) 0)) block;
  match GetMedianTimePast h a with Ok m => Some m | Fail _ => None end.

(** The first height or time at which an input may be spent, per BIP 68. *)
Definition relative_lock (seq : Z) : Z := Z.land seq SEQUENCE_LOCKTIME_MASK.

Definition input_unlocked (height time : Z) (seq nCoinHeight : Z) : Prop :=
  if negb (Z.land seq SEQUENCE_LOCKTIME_DISABLE_FLAG =? 0) then True
  else if negb (Z.land seq SEQUENCE_LOCKTIME_TYPE_FLAG =? 0)
  then exists m, coin_time nCoinHeight = Some m /\ m + Z.shiftl (relative_lock seq) SEQUENCE_LOCKTIME_GRANULARITY <= time
  else nCoinHeight + relative_lock seq <= height.

Lemma relative_lock_range seq : 0 <= relative_lock seq < 2 ^ 16.
Proof using H0. destruct mask_range as [Hm1 Hm2]. pose proof (land_le seq _ Hm1). unfold relative_lock. lia. Qed.

Lemma shifted_lock_range seq : 0 <= Z.shiftl (relative_lock seq) SEQUENCE_LOCKTIME_GRANULARITY < 2 ^ 25.
Proof using H0.
  pose proof (relative_lock_range seq). pose proof granularity_range. set (g := SEQUENCE_LOCKTIME_GRANULARITY) in *.
  rewrite Z.shiftl_mul_pow2 by lia. pose proof (Z.pow_pos_nonneg 2 g ltac:(lia) ltac:(lia)).
  pose proof (Z.pow_le_mono_r 2 g 9 ltac:(lia) ltac:(lia)).
  change (2 ^ 9) with 512 in *. change (2 ^ 16) with 65536 in *. change (2 ^ 25) with (65536 * 512). nia.
Qed.

Lemma collect_times_range n o l : collect_times n h o = Ok l -> Forall (in_u 32) l.
Proof using Hwf.
  revert o l. induction n as [|n IH]; intros [p|] l; cbn [collect_times]; try (intros [= <-]; constructor).
  unfold deref, access. destruct (h !! p) as [bp|] eqn:Ep; [|discriminate]. cbn [mbind res_bind].
  destruct (collect_times n h (pprev bp)) as [r|] eqn:Er; [|discriminate]. intros [= <-].
  constructor; [exact (ok_time _ _ _ (Hwf p bp Ep))|]. eapply IH. exact Er.
Qed.

Lemma GetMedianTimePast_range p m : GetMedianTimePast h p = Ok m -> in_u 32 m.
Proof using Hwf.
  unfold GetMedianTimePast. destruct (collect_times _ _ _) as [l|] eqn:E; [|discriminate]. cbn [mbind res_bind].
  intros Hm. apply access_Ok in Hm. apply list_elem_of_lookup_2 in Hm.
  pose proof (collect_times_range _ _ _ E) as Hl. rewrite Forall_forall in Hl. apply Hl.
  rewrite <- (merge_sort_Permutation Z.le l). exact Hm.
Qed.

Lemma coin_time_ok ht : 0 <= ht <= Chain.nHeight b -> Chain.nHeight b < 2 ^ 30 ->
  exists a m, GetAncestor h block (Z.max (i32 (ht - 1)) 0) = Ok (Some a) /\ GetMedianTimePast h a = Ok m /\
    coin_time ht = Some m /\ in_u 32 m.
Proof using Hwf Hb.
  intros Hht Hlt. rewrite swrap_small by (try lia; word_lia). rewrite (GetAncestor_up h Hwf block b _ Hb).
  rewrite decide_True by lia. destruct (up_total h Hwf (Z.to_nat (Chain.nHeight b - Z.max (ht - 1) 0)) block b Hb) as (a & ba & Ea & Ha & _).
  { lia. }
  destruct (GetMedianTimePast_total h Hwf a ba Ha) as [m Hm]. exists a, m. rewrite Ea. unfold coin_time. rewrite Ea. cbn [mbind option_bind].
  rewrite Hm. repeat split; auto; apply (GetMedianTimePast_range a m Hm).
Qed.

(** The loop computes the larger of the bounds, each one below the first
    allowed value. *)
Lemma sequence_loop_spec ins hs mh mt height time : length hs = length ins ->
  Forall (fun x => 0 <= x <= Chain.nHeight b) hs -> Chain.nHeight b < 2 ^ 30 -> exists mh' mt' hs',
  sequence_loop h block ins hs mh mt = Ok (mh', mt', hs') /\
  ((mh' < height /\ mt' < time) <->
   (mh < height /\ mt < time) /\ Forall (fun p => input_unlocked height time (nSequence (fst p)) (snd p)) (zip ins hs)).
Proof using All.
  intros Hlen Hhs Hlt. revert hs mh mt Hlen Hhs. induction ins as [|i ins IH]; intros [|ht hs] mh mt Hlen Hhs; try discriminate; cbn [sequence_loop].
  { exists mh, mt, []. split; [reflexivity|]. rewrite Forall_nil. tauto. }
  apply Forall_cons in Hhs as [Hht Hhs]. injection Hlen as Hlen. cbn [zip zip_with]. setoid_rewrite Forall_cons.
  unfold input_unlocked at 1. cbn [fst snd].
  destruct (negb (Z.land (nSequence i) SEQUENCE_LOCKTIME_DISABLE_FLAG =? 0)).
  { destruct (IH hs mh mt Hlen Hhs) as (mh' & mt' & hs' & E & R). rewrite E. cbn [mbind res_bind].
    eexists _, _, _. split; [reflexivity|]. rewrite R. tauto. }
  pose proof (relative_lock_range (nSequence i)) as Hr. pose proof (shifted_lock_range (nSequence i)) as Hs.
  destruct (negb (Z.land (nSequence i) SEQUENCE_LOCKTIME_TYPE_FLAG =? 0)).
  - destruct (coin_time_ok ht Hht Hlt) as (a & m & Ea & Em & Ec & Hm). rewrite Ea. cbn [mbind res_bind]. rewrite Em. cbn [mbind res_bind].
    fold (relative_lock (nSequence i)). set (x := Z.shiftl (relative_lock (nSequence i)) SEQUENCE_LOCKTIME_GRANULARITY) in *.
    rewrite (uwrap_small 32 x) by word_lia. rewrite swrap_small by (try lia; word_lia).
    destruct (IH hs mh (Z.max mt (m + x - 1)) Hlen Hhs) as (mh' & mt' & hs' & E & R). rewrite E. cbn [mbind res_bind].
    eexists _, _, _. split; [reflexivity|]. rewrite R, Ec. split.
    + intros [[? ?] ?]. repeat split; auto; [lia|]. exists m. split; [reflexivity|lia].
    + intros [[? ?] [(m' & [= <-] & ?) ?]]. repeat split; auto. lia.
  - fold (relative_lock (nSequence i)). rewrite swrap_small by (try lia; word_lia).
    destruct (IH hs (Z.max mh (ht + relative_lock (nSequence i) - 1)) mt Hlen Hhs) as (mh' & mt' & hs' & E & R). rewrite E. cbn [mbind res_bind].
    eexists _, _, _. split; [reflexivity|]. rewrite R. split.
    + intros [[? ?] ?]. repeat split; auto; lia.
    + intros [[? ?] [? ?]]. repeat split; auto. lia.
Qed.
End Meaning.

Lemma SequenceLocks_spec {HE : LockEnv} {HL : LockEnvLaws} (h : heap) (block q : ptr) (b : CBlockIndex)
    (tx : CTransaction) (lflags : Z) (prevHeights : list Z) :
  tree_wf h -> h !! block = Some b -> pprev b = Some q -> Chain.nHeight b < 2 ^ 30 ->
  length prevHeights = length (vin tx) -> Forall (fun x => 0 <= x <= Chain.nHeight b) prevHeights ->
  exists time ok, GetMedianTimePast h q = Ok time /\ SequenceLocks h tx lflags prevHeights block = Ok ok /\
    (ok = true <-> (enforce_bip68 tx lflags = true ->
       Forall (fun p => input_unlocked h block b (Chain.nHeight b) time (nSequence (fst p)) (snd p)) (zip (vin tx) prevHeights))).
Proof.
  intros Hwf Hb Hq Hlt Hlen Hhs. destruct (ok_prev _ _ _ (Hwf block b Hb) q Hq) as (bq & Hbq & Ehb).
  destruct (ok_height _ _ _ (Hwf q bq Hbq)) as [Hq0 _].
  destruct (GetMedianTimePast_total h Hwf q bq Hbq) as [time Ht].
  pose proof (GetMedianTimePast_range h Hwf q time Ht) as Htr.
  unfold SequenceLocks, CalculateSequenceLocks. rewrite (proj2 (Nat.eqb_eq _ _) Hlen). cbn [assert_ mbind res_bind].
  assert (Ev : forall mh mt, EvaluateSequenceLocks h block (mh, mt) = Ok (negb ((mh >=? Chain.nHeight b) || (mt >=? time)))%bool).
  { intros mh mt. unfold EvaluateSequenceLocks, deref. rewrite Hb. cbn [access mbind res_bind]. rewrite Hq. cbn [mbind res_bind]. rewrite Ht. reflexivity. }
  assert (Hiff : forall mh mt, (negb ((mh >=? Chain.nHeight b) || (mt >=? time)))%bool = true <-> mh < Chain.nHeight b /\ mt < time).
  { intros mh mt. rewrite negb_true_iff, orb_false_iff, !Z.geb_leb, !Z.leb_gt. lia. }
  exists time. destruct (enforce_bip68 tx lflags); cbn [negb].
  - destruct (sequence_loop_spec h Hwf block b Hb (vin tx) prevHeights (-1) (-1) (Chain.nHeight b) time Hlen Hhs Hlt) as (mh & mt & hs' & E & R).
    rewrite E. cbn [mbind res_bind]. rewrite Ev. eexists. split; [exact Ht|]. split; [reflexivity|]. rewrite Hiff, R.
    unfold in_u in Htr. split; [tauto|]. intros Hall. split; [lia|auto].
  - cbn [mbind res_bind]. rewrite Ev. eexists. split; [exact Ht|]. split; [reflexivity|]. rewrite Hiff. unfold in_u in Htr. split; [discriminate|lia].
Qed.

(** Relative lock times mean what BIP 68 says: on a well-formed block tree
    [SequenceLocks] returns without a failed assertion, and, where the rule is
    enforced, it accepts a transaction for a block exactly when every input is
    either exempt, or as many blocks old as its sequence number asks, or has
    aged the requested multiple of 512 seconds between the median time before
    its own block and the median time before this one. *)
Theorem SequenceLocks_correct {HE : LockEnv} {HL : LockEnvLaws} (h : heap) (block q : ptr) (b : CBlockIndex)
    (tx : CTransaction) (lflags : Z) (prevHeights : list Z) :
  tree_wf h -> h !! block = Some b -> pprev b = Some q -> Chain.nHeight b < 2 ^ 30 ->
  length prevHeights = length (vin tx) -> Forall (fun x => 0 <= x <= Chain.nHeight b) prevHeights ->
  exists time ok, GetMedianTimePast h q = Ok time /\ SequenceLocks h tx lflags prevHeights block = Ok ok /\
    (ok = true <-> (enforce_bip68 tx lflags = true ->
       Forall (fun p => input_unlocked h block b (Chain.nHeight b) time (nSequence (fst p)) (snd p)) (zip (vin tx) prevHeights))).
Proof. apply SequenceLocks_spec. Qed.

(** The constants of BIP 68. *)
Definition bip68 : LockEnv := {|
  SEQUENCE_FINAL := 0xffffffff; SEQUENCE_LOCKTIME_DISABLE_FLAG := 2 ^ 31; SEQUENCE_LOCKTIME_TYPE_FLAG := 2 ^ 22;
  SEQUENCE_LOCKTIME_MASK := 0xffff; SEQUENCE_LOCKTIME_GRANULARITY := 9; LOCKTIME_THRESHOLD := 500000000;
  STANDARD_LOCKTIME_VERIFY_FLAGS := 1 |}.

Lemma bip68_laws : @LockEnvLaws bip68.
Proof. split; cbn; lia. Qed.

Definition locked_tx (seq : Z) : CTransaction :=
  {| Transaction.nVersion := 2; vin := [{| prevout := (1, 0); scriptSig := []; nSequence := seq |}]; vout := []; nLockTime := 0 |}.

Lemma SequenceLocks_correct_witness :
  @SequenceLocks bip68 sample_tree (locked_tx 3) 1 [1] 4 = Ok true /\ @SequenceLocks bip68 sample_tree (locked_tx 4) 1 [1] 4 = Ok false /\
  exists time ok, GetMedianTimePast sample_tree 3 = Ok time /\ @SequenceLocks bip68 sample_tree (locked_tx 3) 1 [1] 4 = Ok ok /\
    (ok = true -> 1 + 3 <= 4).
Proof.
  split; [vm_compute; reflexivity|]. split; [vm_compute; reflexivity|].
  destruct (SequenceLocks_correct (HL := bip68_laws) sample_tree 4 3 (sample_block 4 (Some 3%nat) (Some 0%nat) 4 140) (locked_tx 3) 1 [1]
    sample_tree_wf eq_refl eq_refl) as (time & ok & Ht & E & R).
  - cbn. lia.
  - reflexivity.
  - repeat constructor; cbn; lia.
  - exists time, ok. split; [exact Ht|]. split; [exact E|]. lia.
Defined.
