(* ===== verification/Blocks.v ===== *)
(** * Block checks

    Models the checks of blocks and headers in [src/validation.cpp]
    ([CheckBlockHeader], [CheckMerkleRoot], [CheckWitnessMalleation],
    [CheckBlock], [HasValidProofOfWork], [IsBlockMutated],
    [CalculateHeadersWork], [ContextualCheckBlockHeader],
    [ContextualCheckBlock]) and [GetWitnessCommitmentIndex] of
    [src/consensus/validation.h].  Hashes, sizes and witnesses come from code
    outside the repository: the class [BlockEnv].  So does what decides on a
    signet solution, the parser and the interpreter of scripts that
    [CheckSignetBlockSolution] (src/signet.cpp) calls: its answer is a member of
    the class. *)

From stdpp Require Import base numbers list gmap strings pretty.
From Stdlib Require Import ZArith Lia.
From S2P Require Import Prelude ArithUint256 Compact Params Chain ActiveChain ChainWork Pow VersionBits Merkle Compressor Transaction TxCheck Locks.

Local Open Scope Z_scope.

Record CBlockHeader : Type := {
  hdr_nVersion : Z;
  hashPrevBlock : uint256;
  hdr_hashMerkleRoot : uint256;
  hdr_nTime : Z;
  hdr_nBits : Z;
  hdr_nNonce : Z;
}.

(** The three flags are the memory of the checks. *)
Record CBlock : Type := {
  header : CBlockHeader;
  vtx : list CTransaction;
  fChecked : bool;
  m_checked_witness_commitment : bool;
  m_checked_merkle_root : bool;
}.

Definition MAX_FUTURE_BLOCK_TIME : Z := 2 * 60 * 60.
Definition MAX_BLOCK_SIGOPS_COST : Z := 80000.
Definition NO_WITNESS_COMMITMENT : Z := -1.
Definition MINIMUM_WITNESS_COMMITMENT : Z := 38.

Class BlockEnv `{Primitives} : Type := {
  header_hash : CBlockHeader -> uint256;
  hash2 : uint256 -> uint256 -> uint256;
  hash256 : bytes -> uint256;
  tx_hash : CTransaction -> uint256;
  GetWitnessHash : CTransaction -> uint256;
  HasWitness : CTransaction -> bool;
  coinbase_witness : CTransaction -> list bytes;
  block_size_no_witness : list CTransaction -> Z;
  block_size_with_witness : list CTransaction -> Z;
  CheckSignetBlockSolution : CBlockHeader -> list CTransaction -> Params -> bool;
  script_num : Z -> bytes;
}.

Section Blocks.
Context `{BlockEnv, !TxEnv, !ScriptEnv, !LockEnv}.
Notation bst := (CBlock * BlockValidationState)%type.

Definition reject (result : BlockValidationResult) (reason : string) : stm bst bool := fun '(block, state) =>
  let '(r, state') := Invalid result reason state in (Ok r, (block, state')).

Definition get_block : stm bst CBlock := fun s => (Ok (fst s), s).
Definition modify_block (f : CBlock -> CBlock) : stm bst unit := fun '(b, st) => (Ok tt, (f b, st)).

Definition set_fChecked (b : CBlock) : CBlock :=
  {| header := header b; vtx := vtx b; fChecked := true;
     m_checked_witness_commitment := m_checked_witness_commitment b; m_checked_merkle_root := m_checked_merkle_root b |}.
Definition set_checked_merkle_root (b : CBlock) : CBlock :=
  {| header := header b; vtx := vtx b; fChecked := fChecked b;
     m_checked_witness_commitment := m_checked_witness_commitment b; m_checked_merkle_root := true |}.
Definition set_checked_witness_commitment (b : CBlock) : CBlock :=
  {| header := header b; vtx := vtx b; fChecked := fChecked b;
     m_checked_witness_commitment := true; m_checked_merkle_root := m_checked_merkle_root b |}.

(** ** Context-free checks *)

Definition CheckBlockHeader (params : Params) (fCheckPOW : bool) : stm bst bool :=
  block ← get_block;
  if (fCheckPOW && negb (CheckProofOfWork (header_hash (header block)) (hdr_nBits (header block)) params))%bool
  then reject BLOCK_INVALID_HEADER "high-hash"
  else mret true.

Definition CheckMerkleRoot : stm bst bool :=
  block ← get_block;
  if m_checked_merkle_root block then mret true
  else
    '(merkle_root, mutated) ← lift_st (BlockMerkleRoot hash2 tx_hash (vtx block));
    if negb (bool_decide (hdr_hashMerkleRoot (header block) = merkle_root)) then reject BLOCK_MUTATED "bad-txnmrklroot"
    else if mutated : bool then reject BLOCK_MUTATED "bad-txns-duplicate"
    else _ ← modify_block set_checked_merkle_root; mret true.

(** The loop of [GetWitnessCommitmentIndex]: the last match wins. *)
Fixpoint commitment_loop (o : Z) (outs : list CTxOut) (commitpos : Z) : Z :=
  match outs with
  | [] => commitpos
  | out :: rest =>
      let s := scriptPubKey out in
      commitment_loop (o + 1) rest
        (if ((Z.of_nat (length s) >=? MINIMUM_WITNESS_COMMITMENT) && (nth 0 s 0 =? OP_RETURN) && (nth 1 s 0 =? 0x24)
             && (nth 2 s 0 =? 0xaa) && (nth 3 s 0 =? 0x21) && (nth 4 s 0 =? 0xa9) && (nth 5 s 0 =? 0xed))%bool
         then o else commitpos)
  end.

Definition GetWitnessCommitmentIndex (block : CBlock) : Z :=
  match vtx block with
  | [] => NO_WITNESS_COMMITMENT
  | tx :: _ => commitment_loop 0 (vout tx) NO_WITNESS_COMMITMENT
  end.

Definition CheckWitnessMalleation (expect_witness_commitment : bool) : stm bst bool :=
  block ← get_block;
  let no_witness :=
    if existsb HasWitness (vtx block) then reject BLOCK_MUTATED "unexpected-witness" else mret true in
  if expect_witness_commitment then
    if m_checked_witness_commitment block then mret true
    else
      let commitpos := GetWitnessCommitmentIndex block in
      if negb (commitpos =? NO_WITNESS_COMMITMENT) then
        tx ← lift_st (match vtx block with
                      | tx :: _ => match vin tx with [] => Fail AssertFailed | _ => Ok tx end
                      | [] => Fail AssertFailed
                      end);
        match coinbase_witness tx with
        | [reserved] =>
            if negb (length reserved =? 32)%nat then reject BLOCK_MUTATED "bad-witness-nonce-size"
            else
              '(hash_witness, _) ← lift_st (BlockWitnessMerkleRoot hash2 GetWitnessHash (vtx block));
              let hash_witness := hash256 (hash_witness ++ reserved) in
              out ← lift_st (access (vout tx !! Z.to_nat commitpos));
              if negb (bool_decide (hash_witness = take 32 (drop 6 (scriptPubKey out))))
              then reject BLOCK_MUTATED "bad-witness-merkle-match"
              else _ ← modify_block set_checked_witness_commitment; mret true
        | _ => reject BLOCK_MUTATED "bad-witness-nonce-size"
        end
      else no_witness
  else no_witness.

(** The loop over the transactions: the reason of the first that fails. *)
Fixpoint check_transactions (txs : list CTransaction) : res (option string) :=
  match txs with
  | [] => Ok None
  | tx :: rest =>
      let '(ok, tx_state) := CheckTransaction tx (fresh_state TX_RESULT_UNSET) in
      if negb ok then
        _ ← assert_ (bool_decide (m_result tx_state = TX_CONSENSUS));
        Ok (Some (m_reject_reason tx_state))
      else check_transactions rest
  end.

(** [CheckBlock] after the merkle root: sizes, coinbases, transactions and
    signature operations. *)
Definition check_body (fCheckPOW fCheckMerkleRoot : bool) (block : CBlock) : stm bst bool :=
  if (match vtx block with [] => true | _ => false end
      || (Z.of_nat (length (vtx block)) * WITNESS_SCALE_FACTOR >? MAX_BLOCK_WEIGHT)
      || (block_size_no_witness (vtx block) * WITNESS_SCALE_FACTOR >? MAX_BLOCK_WEIGHT))%bool
  then reject BLOCK_CONSENSUS "bad-blk-length"
  else if match vtx block with [] => true | tx :: _ => negb (IsCoinBase tx) end
  then reject BLOCK_CONSENSUS "bad-cb-missing"
  else if existsb IsCoinBase (tail (vtx block)) then reject BLOCK_CONSENSUS "bad-cb-multiple"
  else
    r ← lift_st (check_transactions (vtx block));
    match r with
    | Some reason => reject BLOCK_CONSENSUS reason
    | None =>
        let nSigOps := foldl (fun n tx => u32 (n + GetLegacySigOpCount tx)) 0 (vtx block) in
        if u32 (nSigOps * WITNESS_SCALE_FACTOR) >? MAX_BLOCK_SIGOPS_COST then reject BLOCK_CONSENSUS "bad-blk-sigops"
        else
          _ ← (if (fCheckPOW && fCheckMerkleRoot)%bool then modify_block set_fChecked else mret tt);
          mret true
    end.

Definition CheckBlock (params : Params) (fCheckPOW fCheckMerkleRoot : bool) : stm bst bool :=
  block ← get_block;
  if fChecked block then mret true
  else
    ok ← CheckBlockHeader params fCheckPOW;
    if negb ok then mret false
    else if (signet_blocks params && fCheckPOW && negb (CheckSignetBlockSolution (header block) (vtx block) params))%bool
    then reject BLOCK_CONSENSUS "bad-signet-blksig"
    else
      ok ← (if fCheckMerkleRoot then CheckMerkleRoot else mret true);
      if negb ok then mret false
      else check_body fCheckPOW fCheckMerkleRoot block.

Definition HasValidProofOfWork (headers : list CBlockHeader) (params : Params) : bool :=
  forallb (fun hd => CheckProofOfWork (header_hash hd) (hdr_nBits hd) params) headers.

Definition IsBlockMutated (check_witness_root : bool) : stm CBlock bool := fun block =>
  let m : stm bst bool :=
    ok ← CheckMerkleRoot;
    if negb ok then mret true
    else if match vtx block with [] => true | tx :: _ => negb (IsCoinBase tx) end
    then mret (existsb (fun tx => tx_size_no_witness tx =? 64) (vtx block))
    else ok ← CheckWitnessMalleation check_witness_root; mret (negb ok) in
  let '(r, (block', _)) := m (block, fresh_state BLOCK_RESULT_UNSET) in (r, block').

(** [CBlockIndex dummy(header)]: only [nBits] matters to [GetBlockProof]. *)
Definition dummy_index (hd : CBlockHeader) : CBlockIndex :=
  {| phashBlock := None; pprev := None; pskip := None; nHeight := 0; nFile := 0; nDataPos := 0; nUndoPos := 0;
     nChainWork := uint_zero; nTx := 0; nChainTx := 0; nStatus := 0; Chain.nVersion := hdr_nVersion hd;
     hashMerkleRoot := hdr_hashMerkleRoot hd; nTime := hdr_nTime hd; nBits := hdr_nBits hd; nNonce := hdr_nNonce hd;
     nSequenceId := 0; nTimeMax := 0 |}.

Fixpoint headers_work_loop (headers : list CBlockHeader) (total_work : base_uint) : res base_uint :=
  match headers with
  | [] => Ok total_work
  | hd :: rest => w ← GetBlockProof (dummy_index hd); headers_work_loop rest (op_add total_work w)
  end.

Definition CalculateHeadersWork (headers : list CBlockHeader) : res base_uint := headers_work_loop headers (of_u64 0).

Definition GetBlockWeight (block : CBlock) : Z :=
  block_size_no_witness (vtx block) * (WITNESS_SCALE_FACTOR - 1) + block_size_with_witness (vtx block).

(** ** Checks in the context of the chain *)

(** [%08x] of an [int32_t]. *)
Fixpoint hex_digits (n : nat) (z : Z) (acc : string) : string :=
  match n with
  | O => acc
  | S n' =>
      let d := Z.to_nat (z mod 16) in
      hex_digits n' (z / 16) (String (default Ascii.zero (String.get d "0123456789abcdef")) acc)
  end.

(** [last_checkpoint] is the height of [GetLastCheckpoint], where checkpoints
    are enabled and one is known; [now] the node's clock in seconds. *)
Definition ContextualCheckBlockHeader (h : heap) (params : Params) (last_checkpoint : option Z) (now : Z) (pindexPrev : option ptr)
    : stm bst bool :=
  block ← get_block;
  let hd := header block in
  p ← lift_st (match pindexPrev with Some p => Ok p | None => Fail AssertFailed end);
  prev ← lift_st (deref h p);
  let height := i32 (nHeight prev + 1) in
  required ← lift_st (GetNextWorkRequired h (Some p) params);
  if negb (hdr_nBits hd =? required) then reject BLOCK_INVALID_HEADER "bad-diffbits"
  else if match last_checkpoint with Some ch => height <? ch | None => false end
  then reject BLOCK_CHECKPOINT "bad-fork-prior-to-checkpoint"
  else
    mtp ← lift_st (GetMedianTimePast h p);
    if hdr_nTime hd <=? mtp then reject BLOCK_INVALID_HEADER "time-too-old"
    else if hdr_nTime hd >? now + MAX_FUTURE_BLOCK_TIME then reject BLOCK_TIME_FUTURE "time-too-new"
    else
      in_cb ← lift_st (BuriedActiveAfter h params DEPLOYMENT_HEIGHTINCB (Some p));
      dersig ← lift_st (BuriedActiveAfter h params DEPLOYMENT_DERSIG (Some p));
      cltv ← lift_st (BuriedActiveAfter h params DEPLOYMENT_CLTV (Some p));
      if (((hdr_nVersion hd <? 2) && in_cb) || ((hdr_nVersion hd <? 3) && dersig) || ((hdr_nVersion hd <? 4) && cltv))%bool
      then reject BLOCK_INVALID_HEADER (String.append "bad-version(0x" (hex_digits 8 (hdr_nVersion hd) ")"))
      else mret true.

Definition ContextualCheckBlock (h : heap) (params : Params) (pindexPrev : option ptr) : stm bst bool :=
  block ← get_block;
  height ← lift_st (match pindexPrev with None => Ok 0 | Some p => b ← deref h p; Ok (i32 (nHeight b + 1)) end);
  csv ← lift_st (BuriedActiveAfter h params DEPLOYMENT_CSV pindexPrev);
  nLockTimeCutoff ← lift_st (if csv : bool then match pindexPrev with Some p => GetMedianTimePast h p | None => Fail AssertFailed end
                             else Ok (hdr_nTime (header block)));
  if existsb (fun tx => negb (IsFinalTx tx height nLockTimeCutoff)) (vtx block) then reject BLOCK_CONSENSUS "bad-txns-nonfinal"
  else
    in_cb ← lift_st (BuriedActiveAfter h params DEPLOYMENT_HEIGHTINCB pindexPrev);
    height_ok ← lift_st (if in_cb : bool then
        match vtx block with
        | tx :: _ => match vin tx with
                     | i :: _ => Ok (bool_decide (take (length (script_num height)) (scriptSig i) = script_num height))
                     | [] => Fail BadAccess
                     end
        | [] => Fail BadAccess
        end else Ok true);
    if negb height_ok then reject BLOCK_CONSENSUS "bad-cb-height"
    else
      segwit ← lift_st (BuriedActiveAfter h params DEPLOYMENT_SEGWIT pindexPrev);
      ok ← CheckWitnessMalleation segwit;
      if negb ok then mret false
      else if GetBlockWeight block >? MAX_BLOCK_WEIGHT
      then reject BLOCK_CONSENSUS "bad-blk-weight"
      else mret true.
End Blocks.

(** ** What [CheckBlock] establishes *)

#[global] Instance tx_wellformed_dec `{TxEnv} tx : Decision (tx_wellformed tx).
Proof.
  unfold tx_wellformed. repeat apply and_dec; try apply _. apply impl_dec; [apply _|].
  destruct (vin tx) as [|i ins]; [left; discriminate|].
  destruct (decide (2 <= length (scriptSig i) <= 100)%nat) as [Hd|Hd]; [left; intros ? ? [= <- _]; exact Hd|right].
  intros Ha. apply Hd, (Ha i ins eq_refl).
Defined.

Section Valid.
Context `{BlockEnv, !TxEnv}.

Definition merkle_ok (b : CBlock) : Prop :=
  BlockMerkleRoot hash2 tx_hash (vtx b) = Ok (hdr_hashMerkleRoot (header b), false).

(** The context-free rules, with and without proof of work and merkle root. *)
Definition block_valid (params : Params) (pow merkle : bool) (b : CBlock) : Prop :=
  (pow = true -> CheckProofOfWork (header_hash (header b)) (hdr_nBits (header b)) params = true /\
     (signet_blocks params = true -> CheckSignetBlockSolution (header b) (vtx b) params = true)) /\
  (merkle = true -> merkle_ok b) /\
  Z.of_nat (length (vtx b)) * WITNESS_SCALE_FACTOR <= MAX_BLOCK_WEIGHT /\
  block_size_no_witness (vtx b) * WITNESS_SCALE_FACTOR <= MAX_BLOCK_WEIGHT /\
  (exists coinbase rest, vtx b = coinbase :: rest /\ IsCoinBase coinbase = true /\ Forall (fun tx => IsCoinBase tx = false) rest) /\
  Forall tx_wellformed (vtx b) /\
  u32 (foldl (fun n tx => u32 (n + GetLegacySigOpCount tx)) 0 (vtx b) * WITNESS_SCALE_FACTOR) <= MAX_BLOCK_SIGOPS_COST.

(** The flags remember checks that were made. *)
Definition flags_sound (params : Params) (b : CBlock) : Prop :=
  (fChecked b = true -> block_valid params true true b) /\ (m_checked_merkle_root b = true -> merkle_ok b).

Lemma BlockMerkleRoot_total txs : exists r m, BlockMerkleRoot hash2 tx_hash txs = Ok (r, m).
Proof using.
  unfold BlockMerkleRoot. destruct (map tx_hash txs) as [|x l] eqn:E; [eexists _, _; reflexivity|].
  destruct (ComputeMerkleRoot_levels hash2 (x :: l)) as (r & -> & _); [discriminate|]. eauto.
Qed.

Lemma CheckMerkleRoot_spec params b st : flags_sound params b -> exists ok b' st',
  CheckMerkleRoot (b, st) = (Ok ok, (b', st')) /\ (ok = true <-> merkle_ok b) /\
  header b' = header b /\ vtx b' = vtx b /\ fChecked b' = fChecked b /\ (m_checked_merkle_root b' = true -> merkle_ok b) /\
  (ok = true -> st' = st) /\ (ok = false -> state_IsValid st' = false).
Proof using.
  intros [_ Hm]. unfold CheckMerkleRoot, mbind, stm_bind, get_block. cbn [fst].
  destruct (m_checked_merkle_root b) eqn:Em.
  { exists true, b, st. rewrite Em. repeat split; auto; discriminate. }
  destruct (BlockMerkleRoot_total (vtx b)) as (r & m & E). unfold lift_st, merkle_ok. rewrite E.
  destruct (decide (hdr_hashMerkleRoot (header b) = r)) as [Hr|Hr].
  - rewrite bool_decide_eq_true_2 by exact Hr. cbn [negb]. destruct m.
    + eexists false, b, _. split; [reflexivity|]. rewrite Em. repeat split; auto; try discriminate. cbn. destruct (m_mode st); reflexivity.
    + exists true. eexists _, st. split; [reflexivity|]. rewrite Hr. repeat split; auto; discriminate.
  - rewrite bool_decide_eq_false_2 by exact Hr. cbn [negb]. eexists false, b, _. split; [reflexivity|]. rewrite Em.
    repeat split; auto; try discriminate; [intros [= ? _]; congruence|]. cbn. destruct (m_mode st); reflexivity.
Qed.

Lemma check_transactions_spec txs : exists r, check_transactions txs = Ok r /\ (r = None <-> Forall tx_wellformed txs).
Proof using.
  induction txs as [|tx txs IH]; cbn [check_transactions]; [exists None; repeat constructor|].
  destruct (CheckTransaction_accepts tx (fresh_state TX_RESULT_UNSET)) as [A B]. setoid_rewrite Forall_cons.
  destruct (decide (tx_wellformed tx)) as [Hw|Hw].
  - rewrite (A Hw). cbn [negb]. destruct IH as (r & E & R). exists r. split; [exact E|]. rewrite R. tauto.
  - destruct (B Hw) as [reason E]. rewrite E. cbn. eexists. split; [reflexivity|]. split; [discriminate|tauto].
Qed.

(** A rejection leaves the block and makes the state invalid. *)
Lemma reject_spec result reason b st : exists st', reject result reason (b, st) = (Ok false, (b, st')) /\ state_IsValid st' = false.
Proof using. unfold reject. cbn. eexists. split; [reflexivity|]. cbn. destruct (m_mode st); reflexivity. Qed.

(** What is left to do after header, signet and merkle root. *)
Definition body_valid (b : CBlock) : Prop :=
  Z.of_nat (length (vtx b)) * WITNESS_SCALE_FACTOR <= MAX_BLOCK_WEIGHT /\
  block_size_no_witness (vtx b) * WITNESS_SCALE_FACTOR <= MAX_BLOCK_WEIGHT /\
  (exists coinbase rest, vtx b = coinbase :: rest /\ IsCoinBase coinbase = true /\ Forall (fun tx => IsCoinBase tx = false) rest) /\
  Forall tx_wellformed (vtx b) /\
  u32 (foldl (fun n tx => u32 (n + GetLegacySigOpCount tx)) 0 (vtx b) * WITNESS_SCALE_FACTOR) <= MAX_BLOCK_SIGOPS_COST.

(** The outcome of a check that may set flags. *)
Definition outcome (m : stm (CBlock * BlockValidationState) bool) (b : CBlock) (st : BlockValidationState) (P : Prop)
    (Q : bool -> CBlock -> Prop) : Prop :=
  exists ok b' st', m (b, st) = (Ok ok, (b', st')) /\ (ok = true <-> P) /\ header b' = header b /\ vtx b' = vtx b /\
    Q ok b' /\ (ok = true -> st' = st) /\ (ok = false -> state_IsValid st' = false).

Lemma outcome_reject result reason b st (P : Prop) (Q : bool -> CBlock -> Prop) : ~ P -> Q false b -> outcome (reject result reason) b st P Q.
Proof using.
  intros HP HQ. destruct (reject_spec result reason b st) as (st' & E & Hst). exists false, b, st'.
  repeat split; auto; discriminate.
Qed.

Lemma outcome_if (c : bool) m1 m2 b st P Q :
  (c = true -> outcome m1 b st P Q) -> (c = false -> outcome m2 b st P Q) -> outcome (if c then m1 else m2) b st P Q.
Proof using. destruct c; auto. Qed.

Lemma check_body_spec pow merkle block b st : vtx block = vtx b ->
  outcome (check_body pow merkle block) b st (body_valid b) (fun ok b' =>
    m_checked_merkle_root b' = m_checked_merkle_root b /\ fChecked b' = (fChecked b || (ok && (pow && merkle)))%bool).
Proof using.
  intros Ev. unfold check_body, body_valid. rewrite Ev.
  apply outcome_if; intros G1.
  { apply outcome_reject; [|rewrite orb_false_r; auto]. intros (Hl & Hs & (cb & rest & E & _) & _).
    rewrite E in *. cbn [orb] in G1. apply orb_true_iff in G1 as [G1|G1]; rewrite Z.gtb_ltb in G1; zbool; lia. }
  apply orb_false_iff in G1 as [G1 G1']. apply orb_false_iff in G1 as [Gn G1]. rewrite Z.gtb_ltb in G1, G1'. zbool.
  apply outcome_if; intros G2.
  { apply outcome_reject; [|rewrite orb_false_r; auto]. intros (_ & _ & (cb & rest & E & Hcb & _) & _).
    rewrite E, Hcb in G2. discriminate. }
  destruct (vtx b) as [|cb rest] eqn:Eb; [discriminate|]. apply negb_false_iff in G2. cbn [tail].
  apply outcome_if; intros G3.
  { apply outcome_reject; [|rewrite orb_false_r; auto]. intros (_ & _ & (cb' & rest' & E & _ & Hr) & _). injection E as <- <-.
    apply existsb_Forall in Hr. congruence. }
  apply existsb_Forall in G3. destruct (check_transactions_spec (cb :: rest)) as (r & Er & Hr).
  unfold outcome, lift_st. unfold mbind at 1, stm_bind at 1. setoid_rewrite Er. destruct r as [reason|].
  { apply outcome_reject; [|rewrite orb_false_r; auto]. intros (_ & _ & _ & Ht & _). apply Hr in Ht. discriminate. }
  destruct Hr as [Hr _]. specialize (Hr eq_refl). cbn zeta.
  set (so := u32 (foldl _ 0 (cb :: rest) * WITNESS_SCALE_FACTOR)).
  destruct (Z.gtb_spec so MAX_BLOCK_SIGOPS_COST) as [Hso|Hso].
  { apply outcome_reject; [|rewrite orb_false_r; auto]. intros (_ & _ & _ & _ & Hs). unfold so in Hso. lia. }
  exists true. unfold mbind, stm_bind. destruct (pow && merkle)%bool.
  - exists (set_fChecked b), st. split; [reflexivity|]. split; [|split; [reflexivity|split; [reflexivity|split; [split; [reflexivity|rewrite orb_true_r; reflexivity]|split; [auto|discriminate]]]]].
    split; [|reflexivity]. intros _. repeat split; auto; try lia. exists cb, rest. auto.
  - exists b, st. split; [reflexivity|]. split; [|split; [reflexivity|split; [reflexivity|split; [split; [reflexivity|rewrite orb_false_r; reflexivity]|split; [auto|discriminate]]]]].
    split; [|reflexivity]. intros _. repeat split; auto; try lia. exists cb, rest. auto.
Qed.

Lemma block_valid_body params pow merkle b : block_valid params pow merkle b <->
  ((pow = true -> CheckProofOfWork (header_hash (header b)) (hdr_nBits (header b)) params = true /\
     (signet_blocks params = true -> CheckSignetBlockSolution (header b) (vtx b) params = true)) /\
   (merkle = true -> merkle_ok b)) /\ body_valid b.
Proof using. unfold block_valid, body_valid. tauto. Qed.

Lemma block_valid_ext params pow merkle b b' : header b' = header b -> vtx b' = vtx b ->
  block_valid params pow merkle b -> block_valid params pow merkle b'.
Proof using. intros Eh Ev. unfold block_valid, merkle_ok. rewrite Eh, Ev. auto. Qed.

(** The merkle root, where it is asked for. *)
Lemma merkle_stage params (merkle : bool) b st : flags_sound params b -> fChecked b = false -> exists ok b1 st1,
  (if merkle then CheckMerkleRoot else mret true) (b, st) = (Ok ok, (b1, st1)) /\
  (ok = true <-> (merkle = true -> merkle_ok b)) /\ header b1 = header b /\ vtx b1 = vtx b /\ fChecked b1 = false /\
  (m_checked_merkle_root b1 = true -> merkle_ok b) /\ (ok = true -> st1 = st) /\ (ok = false -> state_IsValid st1 = false).
Proof using.
  intros Hfl Ec. destruct merkle.
  - destruct (CheckMerkleRoot_spec params b st Hfl) as (ok & b1 & st1 & E & R & Eh & Ev & Ef & Em & Es & Ei).
    exists ok, b1, st1. split; [exact E|]. split; [rewrite R; tauto|]. rewrite Ef. auto 10.
  - exists true, b, st. split; [reflexivity|]. split; [split; [discriminate|reflexivity]|]. do 2 (split; [reflexivity|]).
    split; [exact Ec|]. split; [apply Hfl|split; [auto|discriminate]].
Qed.

Lemma CheckBlock_spec params pow merkle b st : flags_sound params b ->
  outcome (CheckBlock params pow merkle) b st (fChecked b = true \/ block_valid params pow merkle b)
    (fun ok b' => flags_sound params b' /\ (ok = true -> pow = true -> merkle = true -> fChecked b' = true)).
Proof using.
  intros Hfl. unfold CheckBlock, outcome, get_block. unfold mbind at 1, stm_bind at 1. cbn [fst].
  destruct (fChecked b) eqn:Ec.
  { exists true, b, st. split; [reflexivity|]. split; [tauto|]. do 2 (split; [reflexivity|]). split; [split; auto|split; [auto|discriminate]]. }
  assert (Nc : forall P : Prop, ~ P -> ~ (false = true \/ P)) by (intros P HP [?|?]; [discriminate|contradiction]).
  unfold CheckBlockHeader, get_block. unfold mbind at 1, stm_bind at 1. cbn [fst]. unfold mbind at 1, stm_bind at 1. cbn [fst].
  destruct (pow && negb (CheckProofOfWork (header_hash (header b)) (hdr_nBits (header b)) params))%bool eqn:Gp.
  { apply andb_true_iff in Gp as [-> Gp]. apply negb_true_iff in Gp.
    destruct (reject_spec BLOCK_INVALID_HEADER "high-hash" b st) as (st' & E & Hst). rewrite E. cbn [negb].
    exists false, b, st'. split; [reflexivity|].
    split; [|do 2 (split; [reflexivity|]); split; [split; [exact Hfl|discriminate]|split; [discriminate|auto]]]. split; [discriminate|].
    intros [?|Hv]; [discriminate|]. apply block_valid_body in Hv as [[Hp _] _]. destruct (Hp eq_refl) as [Hp' _]. congruence. }
  change ((mret true : stm (CBlock * BlockValidationState) bool) (b, st)) with (@Ok bool true, (b, st)). cbn [negb].
  assert (Hpow : pow = true -> CheckProofOfWork (header_hash (header b)) (hdr_nBits (header b)) params = true).
  { intros ->. cbn [andb] in Gp. apply negb_false_iff in Gp. exact Gp. }
  destruct (signet_blocks params && pow && negb (CheckSignetBlockSolution (header b) (vtx b) params))%bool eqn:Gs.
  { apply andb_true_iff in Gs as [Gs Gs']. apply andb_true_iff in Gs as [Gs ->]. apply negb_true_iff in Gs'.
    destruct (reject_spec BLOCK_CONSENSUS "bad-signet-blksig" b st) as (st' & E & Hst). rewrite E.
    exists false, b, st'. split; [reflexivity|].
    split; [|do 2 (split; [reflexivity|]); split; [split; [exact Hfl|discriminate]|split; [discriminate|auto]]]. split; [discriminate|].
    intros [?|Hv]; [discriminate|]. apply block_valid_body in Hv as [[Hp _] _]. destruct (Hp eq_refl) as [_ Hp']. rewrite (Hp' Gs) in Gs'. discriminate. }
  assert (Hsg : pow = true -> signet_blocks params = true -> CheckSignetBlockSolution (header b) (vtx b) params = true).
  { intros -> Hs. rewrite Hs in Gs. cbn [andb] in Gs. apply negb_false_iff in Gs. exact Gs. }
  destruct (merkle_stage params merkle b st Hfl Ec) as (ok & b1 & st1 & E & R & Eh & Ev & Ef & Em & Es & Ei). unfold mbind, stm_bind. rewrite E.
  destruct ok; cbn [negb].
  2: { exists false, b1, st1. split; [reflexivity|]. split; [|split; [exact Eh|split; [exact Ev|split; [split; [split|discriminate]|split; [discriminate|auto]]]]].
       - split; [discriminate|]. intros [?|Hv]; [discriminate|]. apply block_valid_body in Hv as [[_ Hm] _]. apply R in Hm. discriminate.
       - rewrite Ef. discriminate.
       - unfold merkle_ok. rewrite Eh, Ev. exact Em. }
  destruct R as [R _]. specialize (R eq_refl). rewrite (Es eq_refl) in *.
  destruct (check_body_spec pow merkle b b1 st (eq_sym Ev)) as (ok & b2 & st2 & E2 & R2 & Eh2 & Ev2 & (Q1 & Q2) & S2 & I2).
  exists ok, b2, st2. split; [exact E2|].
  assert (Hb : body_valid b1 <-> body_valid b) by (unfold body_valid; rewrite Ev; reflexivity).
  assert (Hall : body_valid b -> block_valid params pow merkle b) by (intros Hbv; apply block_valid_body; auto).
  split; [|split; [congruence|split; [congruence|split; [|auto]]]].
  - rewrite R2, Hb. split; [auto|]. intros [?|Hv]; [discriminate|]. apply block_valid_body in Hv as [_ Hv]. exact Hv.
  - rewrite Ef in Q2. cbn [orb] in Q2. split; [split|].
    + intros Hc. rewrite Q2 in Hc. apply andb_true_iff in Hc as [Hok Hpm]. apply andb_true_iff in Hpm as [-> ->].
      apply (block_valid_ext params true true b b2); [congruence|congruence|]. apply Hall, Hb, R2, Hok.
    + rewrite Q1. unfold merkle_ok. rewrite Ev2, Ev, Eh2, Eh. exact Em.
    + intros -> -> ->. rewrite Q2. reflexivity.
Qed.
End Valid.

(** C25. [CheckBlock] is exactly the context-free block rules, and its memory is
    sound: on a block whose flags record only checks that were made, it
    accepts exactly when the header meets its proof of work, the merkle root
    is the root of the transactions and not a mutated one, the sizes are in
    bounds, the first transaction and no other is a coinbase, every
    transaction is well formed and the signature operations are in bounds; the
    flags it sets are again justified; an accepted block leaves the state, a
    rejected one makes it invalid. *)
Theorem CheckBlock_correct {HP : Primitives} {HB : BlockEnv} {HT : TxEnv} (params : Params) (pow merkle : bool) (b : CBlock)
    (st : BlockValidationState) : flags_sound params b -> fChecked b = false ->
  exists ok b' st', CheckBlock params pow merkle (b, st) = (Ok ok, (b', st')) /\
    (ok = true <-> block_valid params pow merkle b) /\
    header b' = header b /\ vtx b' = vtx b /\ flags_sound params b' /\
    (ok = true -> st' = st /\ (pow = true -> merkle = true -> fChecked b' = true)) /\ (ok = false -> state_IsValid st' = false).
Proof.
  intros Hfl Hc. destruct (CheckBlock_spec params pow merkle b st Hfl) as (ok & b' & st' & E & R & Eh & Ev & (Hf & Hm) & Hs & Hi).
  exists ok, b', st'. split; [exact E|]. split; [rewrite R, Hc; split; [intros [?|?]; [discriminate|auto]|auto]|].
  split; [exact Eh|]. split; [exact Ev|]. split; [exact Hf|]. split; [auto|exact Hi].
Qed.

(** A network of hashes that are all zero. *)
Definition zero_primitives : Primitives := {|
  IsCoinBase := fun tx => match vin tx with [i] => snd (prevout i) =? 4294967295 | _ => false end;
  GetHash := fun tx => nLockTime tx;
  COutPoint_IsNull := fun o => snd o =? 4294967295;
  CTxOut_null := (-1, []);
  CTxOut_IsNull := fun o => fst o =? -1;
  IsUnspendable := fun s => match s with 0x6a :: _ => true | _ => false end;
  script_usage := fun s => Z.of_nat (length s);
|}.

Definition zero_tx_env : @TxEnv zero_primitives := {|
  tx_size_no_witness := fun tx => 60; GetValueOut := fun tx => Ok (total (vout tx));
  GetSigOpCount := fun s b => 1; GetSigOpCount_p2sh := fun a b => 0; IsPayToScriptHash := fun s => false;
  CountWitnessSigOps := fun tx i s f => 0; SCRIPT_VERIFY_P2SH := 1 |}.

Definition zero_blocks : @BlockEnv zero_primitives := {|
  header_hash := fun _ => uint256_null; hash2 := fun _ _ => uint256_null; hash256 := fun _ => uint256_null;
  tx_hash := fun _ => uint256_null; GetWitnessHash := fun _ => uint256_null; HasWitness := fun _ => false;
  coinbase_witness := fun _ => []; block_size_no_witness := fun l => 60 * Z.of_nat (length l);
  block_size_with_witness := fun l => 60 * Z.of_nat (length l); CheckSignetBlockSolution := fun _ _ _ => true;
  script_num := fun h => [h] |}.

Definition coinbase_tx (id : Z) (outs : list CTxOut) : CTransaction :=
  {| Transaction.nVersion := 1; vin := [{| prevout := (0, 4294967295); scriptSig := [1; 2]; nSequence := 0 |}];
     vout := outs; nLockTime := id |}.

Definition sample_coinbase_block : CBlock := {|
  header := {| hdr_nVersion := 4; hashPrevBlock := uint256_null; hdr_hashMerkleRoot := uint256_null; hdr_nTime := 200;
               hdr_nBits := 0x1d00ffff; hdr_nNonce := 0 |};
  vtx := [coinbase_tx 1 [(50, [1])]]; fChecked := false; m_checked_witness_commitment := false; m_checked_merkle_root := false |}.

Lemma CheckBlock_correct_witness : exists b' st',
  @CheckBlock zero_primitives zero_blocks zero_tx_env sample_params true true (sample_coinbase_block, fresh_state BLOCK_RESULT_UNSET)
    = (Ok true, (b', st')) /\ fChecked b' = true.
Proof.
  destruct (CheckBlock_correct (HB := zero_blocks) (HT := zero_tx_env) sample_params true true sample_coinbase_block (fresh_state BLOCK_RESULT_UNSET))
    as (ok & b' & st' & E & R & _ & _ & _ & A & _).
  - split; discriminate.
  - reflexivity.
  - assert (ok = true) as ->.
    { apply R. split; [split; [vm_compute; reflexivity|reflexivity]|]. split; [reflexivity|]. split; [vm_compute; discriminate|].
      split; [vm_compute; discriminate|]. split; [eexists _, _; split; [reflexivity|split; [reflexivity|constructor]]|].
      split; [|vm_compute; discriminate]. constructor; [|constructor].
      split; [discriminate|]. split; [discriminate|]. split; [vm_compute; discriminate|].
      split; [repeat constructor; cbn; unfold MAX_MONEY, COIN; lia|]. split; [cbn; unfold MAX_MONEY, COIN; lia|].
      split; [apply NoDup_singleton|]. split; [intros _ i rest [= <- _]; cbn; lia|discriminate]. }
    destruct (A eq_refl) as [_ Hf]. exists b', st'. split; [exact E|apply Hf; reflexivity].
Defined.

(** The rules for a header on top of [prev], for the required difficulty and
    the median time past of the parent. *)
Definition header_valid (params : Params) (last_checkpoint : option Z) (now : Z) (prev : CBlockIndex) (required mtp : Z) (hd : CBlockHeader) : Prop :=
  hdr_nBits hd = required /\
  (forall ch, last_checkpoint = Some ch -> ch <= nHeight prev + 1) /\
  mtp < hdr_nTime hd <= now + MAX_FUTURE_BLOCK_TIME /\
  (BIP34Height params <= nHeight prev + 1 -> 2 <= hdr_nVersion hd) /\
  (BIP66Height params <= nHeight prev + 1 -> 3 <= hdr_nVersion hd) /\
  (BIP65Height params <= nHeight prev + 1 -> 4 <= hdr_nVersion hd).

Lemma version_rule (v lim height dep : Z) : ((v <? lim) && (height + 1 >=? dep))%bool = false <-> (dep <= height + 1 -> lim <= v).
Proof. rewrite andb_false_iff, Z.ltb_ge, Z.geb_leb, Z.leb_gt. lia. Qed.

Lemma ContextualCheckBlockHeader_spec (h : heap) (params : Params) (last_checkpoint : option Z) (now : Z)
    (p : ptr) (prev : CBlockIndex) (required : Z) (b : CBlock) (st : BlockValidationState) :
  tree_wf h -> h !! p = Some prev -> nHeight prev < 2 ^ 31 - 1 -> GetNextWorkRequired h (Some p) params = Ok required ->
  exists mtp ok st', GetMedianTimePast h p = Ok mtp /\
    ContextualCheckBlockHeader h params last_checkpoint now (Some p) (b, st) = (Ok ok, (b, st')) /\
    (ok = true <-> header_valid params last_checkpoint now prev required mtp (header b)) /\
    (ok = true -> st' = st) /\ (ok = false -> state_IsValid st' = false).
Proof.
  intros Hwf Hp Hlt Hreq. destruct (ChainWork.GetMedianTimePast_total h Hwf p prev Hp) as [mtp Hm]. exists mtp.
  destruct (ok_height _ _ _ (Hwf p prev Hp)) as [Hh0 _].
  assert (G : exists ok st', ContextualCheckBlockHeader h params last_checkpoint now (Some p) (b, st) = (Ok ok, (b, st')) /\
    (ok = true <-> header_valid params last_checkpoint now prev required mtp (header b)) /\
    (ok = true -> st' = st) /\ (ok = false -> state_IsValid st' = false)); [|destruct G as (ok & st' & G); exists ok, st'; split; [exact Hm|exact G]].
  assert (Rej : forall result reason, ~ header_valid params last_checkpoint now prev required mtp (header b) ->
    exists ok st', reject result reason (b, st) = (Ok ok, (b, st')) /\
    (ok = true <-> header_valid params last_checkpoint now prev required mtp (header b)) /\
    (ok = true -> st' = st) /\ (ok = false -> state_IsValid st' = false)).
  { intros result reason Hn. destruct (reject_spec result reason b st) as (st' & E & Hst). exists false, st'.
    split; [exact E|]. split; [split; [discriminate|contradiction]|]. split; [discriminate|auto]. }
  unfold ContextualCheckBlockHeader, get_block, lift_st, deref, mbind, stm_bind. cbn [fst]. rewrite Hp. cbn [access].
  rewrite Hreq. rewrite swrap_small by (try lia; word_lia). unfold header_valid in *.
  destruct (Z.eqb_spec (hdr_nBits (header b)) required) as [Eb|Eb]; cbn [negb]; [|apply Rej; tauto].
  destruct (match last_checkpoint with Some ch => nHeight prev + 1 <? ch | None => false end) eqn:Ec.
  { apply Rej. intros (_ & Hc & _). destruct last_checkpoint as [ch|]; [|discriminate]. specialize (Hc ch eq_refl). zbool. lia. }
  assert (Hck : forall ch, last_checkpoint = Some ch -> ch <= nHeight prev + 1) by (intros ch ->; zbool; lia).
  rewrite Hm. destruct (Z.leb_spec (hdr_nTime (header b)) mtp); [apply Rej; lia|].
  destruct (Z.gtb_spec (hdr_nTime (header b)) (now + MAX_FUTURE_BLOCK_TIME)); [apply Rej; lia|].
  unfold BuriedActiveAfter, deref. rewrite Hp. cbn [access mbind res_bind DeploymentHeight].
  destruct (_ || _ || _)%bool eqn:Ev.
  - apply Rej. intros (_ & _ & _ & H2 & H3 & H4). apply version_rule in H2, H3, H4. rewrite H2, H3, H4 in Ev. discriminate.
  - apply orb_false_iff in Ev as [Ev E4]. apply orb_false_iff in Ev as [E2 E3].
    pose proof (proj1 (version_rule _ _ _ _) E2). pose proof (proj1 (version_rule _ _ _ _) E3). pose proof (proj1 (version_rule _ _ _ _) E4).
    exists true, st. split; [reflexivity|]. split; [|split; [auto|discriminate]]. split; [|reflexivity]. intros _. repeat split; auto.
Qed.

(** [ContextualCheckBlockHeader] is exactly the header rules of the chain: on
    a well-formed block tree it returns without a failure of its own and
    accepts a header exactly when it carries the required difficulty, does
    not fork off below the last checkpoint, is later than the median time
    past of its parent, at most two hours ahead of the clock, and of a
    version that the buried deployments still allow. *)
Theorem ContextualCheckBlockHeader_correct (h : heap) (params : Params) (last_checkpoint : option Z) (now : Z)
    (p : ptr) (prev : CBlockIndex) (required : Z) (b : CBlock) (st : BlockValidationState) :
  tree_wf h -> h !! p = Some prev -> nHeight prev < 2 ^ 31 - 1 -> GetNextWorkRequired h (Some p) params = Ok required ->
  exists mtp ok st', GetMedianTimePast h p = Ok mtp /\
    ContextualCheckBlockHeader h params last_checkpoint now (Some p) (b, st) = (Ok ok, (b, st')) /\
    (ok = true <-> header_valid params last_checkpoint now prev required mtp (header b)) /\
    (ok = true -> st' = st) /\ (ok = false -> state_IsValid st' = false).
Proof. apply ContextualCheckBlockHeader_spec. Qed.

Lemma ContextualCheckBlockHeader_correct_witness : exists ok st',
  ContextualCheckBlockHeader sample_tree sample_params (Some 2) 1000 (Some 4%nat) (sample_coinbase_block, fresh_state BLOCK_RESULT_UNSET)
    = (Ok ok, (sample_coinbase_block, st')) /\ (ok = true <-> header_valid sample_params (Some 2) 1000
        (sample_block 4 (Some 3%nat) (Some 0%nat) 4 140) 486604799 120 (header sample_coinbase_block)).
Proof.
  destruct (ContextualCheckBlockHeader_correct sample_tree sample_params (Some 2) 1000 4 (sample_block 4 (Some 3%nat) (Some 0%nat) 4 140)
    486604799 sample_coinbase_block (fresh_state BLOCK_RESULT_UNSET)) as (mtp & ok & st' & Hm & E & R & _).
  - apply sample_tree_wf.
  - reflexivity.
  - cbn. lia.
  - vm_compute. reflexivity.
  - assert (mtp = 120) as -> by (vm_compute in Hm; congruence). exists ok, st'. split; [exact E|exact R].
Defined.
