(* ===== verification/BlockRules.v ===== *)
(** * Block checks in the context of the chain

    [CheckWitnessMalleation] and [ContextualCheckBlock] of src/validation.cpp
    are exactly their rules: finality of the transactions, the height in the
    coinbase, the witness commitment and the weight. *)

From stdpp Require Import base numbers list gmap strings.
From Stdlib Require Import ZArith Lia.
From S2P Require Import Prelude ArithUint256 Compact Params Chain ActiveChain ChainWork Pow VersionBits.
From S2P Require Import Merkle Streams Serialize Compressor Transaction TxCheck Locks Blocks.

Local Open Scope Z_scope.

Section Rules.
Context `{BlockEnv, !TxEnv, !ScriptEnv, !LockEnv}.

(** ** Witnesses *)

(** The coinbase commits to the witnesses of all transactions. *)
Definition commitment_ok (b : CBlock) : Prop :=
  exists coinbase rest reserved root mutated out, vtx b = coinbase :: rest /\ coinbase_witness coinbase = [reserved] /\ length reserved = 32%nat /\
    BlockWitnessMerkleRoot hash2 GetWitnessHash (vtx b) = Ok (root, mutated) /\
    vout coinbase !! Z.to_nat (GetWitnessCommitmentIndex b) = Some out /\
    hash256 (root ++ reserved) = take 32 (drop 6 (scriptPubKey out)).

(** Where a commitment is expected and there is one, it is right; otherwise
    there are no witnesses. *)
Definition witness_ok (expect : bool) (b : CBlock) : Prop :=
  if (expect && negb (GetWitnessCommitmentIndex b =? NO_WITNESS_COMMITMENT))%bool then commitment_ok b
  else Forall (fun tx => HasWitness tx = false) (vtx b).

Definition witness_flag_sound (b : CBlock) : Prop := m_checked_witness_commitment b = true -> witness_ok true b.

(** The index that is found is that of an output. *)
Lemma commitment_loop_range outs : forall o pos, 0 <= o -> (pos = NO_WITNESS_COMMITMENT \/ 0 <= pos < o) ->
  let r := commitment_loop o outs pos in r = NO_WITNESS_COMMITMENT \/ 0 <= r < o + Z.of_nat (length outs).
Proof using.
  induction outs as [|out outs IH]; intros o pos Ho Hp r; unfold r; cbn [commitment_loop length]; [rewrite Z.add_0_r; exact Hp|].
  match goal with |- context [if ?c then o else pos] => destruct (IH (o + 1) (if c then o else pos) ltac:(lia)) as [E|E]; [destruct c|left; exact E|right; lia] end;
    unfold NO_WITNESS_COMMITMENT in *; lia.
Qed.

(** What a witness check needs of a block whose transactions were checked. *)
Definition has_coinbase (b : CBlock) : Prop := exists coinbase rest i ins, vtx b = coinbase :: rest /\ vin coinbase = i :: ins.

Lemma body_has_coinbase b : body_valid b -> has_coinbase b.
Proof using.
  intros (_ & _ & (cb & rest & E & _) & Hw & _). rewrite E in Hw. apply Forall_cons in Hw as [(Hv & _) _].
  destruct (vin cb) as [|i ins] eqn:Ei; [contradiction|]. exists cb, rest, i, ins. auto.
Qed.

(** The same block with other memory. *)
Definition same_block (b b' : CBlock) : Prop := header b' = header b /\ vtx b' = vtx b.

Lemma witness_ok_same expect b b' : same_block b b' -> witness_ok expect b -> witness_ok expect b'.
Proof using. intros [Eh Ev]. unfold witness_ok, commitment_ok, GetWitnessCommitmentIndex. rewrite Ev. auto. Qed.

(** The flags after a check of the witnesses. *)
Definition witness_flags (b : CBlock) (ok : bool) (b' : CBlock) : Prop :=
  fChecked b' = fChecked b /\ m_checked_merkle_root b' = m_checked_merkle_root b /\ witness_flag_sound b'.

Lemma outcome_witness_reject reason b st P : ~ P -> witness_flag_sound b -> outcome (reject BLOCK_MUTATED reason) b st P (witness_flags b).
Proof using. intros HP Hf. apply outcome_reject; [exact HP|]. split; [reflexivity|]. split; [reflexivity|exact Hf]. Qed.

Lemma outcome_accept b st (P : Prop) (Q : bool -> CBlock -> Prop) : P -> Q true b -> outcome (mret true) b st P Q.
Proof using. intros HP HQ. exists true, b, st. split; [reflexivity|]. split; [tauto|]. do 2 (split; [reflexivity|]). split; [exact HQ|]. split; [auto|discriminate]. Qed.

Lemma no_witness_spec b st : witness_flag_sound b ->
  outcome (if existsb HasWitness (vtx b) then reject BLOCK_MUTATED "unexpected-witness" else mret true) b st
    (Forall (fun tx => HasWitness tx = false) (vtx b)) (witness_flags b).
Proof using.
  intros Hf. apply outcome_if; intros E.
  - apply outcome_witness_reject; [|exact Hf]. rewrite <- existsb_Forall. congruence.
  - apply outcome_accept; [apply existsb_Forall, E|]. split; [reflexivity|]. split; [reflexivity|exact Hf].
Qed.

Lemma BlockWitnessMerkleRoot_total b : vtx b <> [] -> exists root mutated, BlockWitnessMerkleRoot hash2 GetWitnessHash (vtx b) = Ok (root, mutated).
Proof using.
  intros Hv. unfold BlockWitnessMerkleRoot. destruct (vtx b) as [|tx rest]; [contradiction|].
  destruct (ComputeMerkleRoot_levels hash2 (uint256_null :: map GetWitnessHash rest)) as (r & -> & _); [discriminate|]. eauto.
Qed.

Lemma CheckWitnessMalleation_spec expect b st : has_coinbase b -> witness_flag_sound b ->
  outcome (CheckWitnessMalleation expect) b st (witness_ok expect b) (witness_flags b).
Proof using.
  intros (cb & rest & i & ins & Ev & Ei) Hf. unfold CheckWitnessMalleation, outcome, get_block. unfold mbind at 1, stm_bind at 1. cbn [fst]. cbv zeta.
  destruct expect; [|apply no_witness_spec, Hf]. unfold witness_ok. cbn [andb]. destruct (m_checked_witness_commitment b) eqn:Em.
  { apply outcome_accept; [apply (Hf Em)|]. split; [reflexivity|]. split; [reflexivity|exact Hf]. }
  destruct (Z.eqb_spec (GetWitnessCommitmentIndex b) NO_WITNESS_COMMITMENT) as [En|En]; cbn [negb]; [apply no_witness_spec, Hf|].
  assert (Etx : match vtx b with tx :: _ => match vin tx with [] => Fail AssertFailed | _ => Ok tx end | [] => Fail AssertFailed end = Ok cb)
    by (rewrite Ev, Ei; reflexivity).
  unfold mbind at 1, stm_bind at 1, lift_st at 1. rewrite Etx.
  assert (Rej : forall reason, ~ commitment_ok b -> outcome (reject BLOCK_MUTATED reason) b st (commitment_ok b) (witness_flags b))
    by (intros reason Hn; apply outcome_witness_reject; assumption).
  destruct (coinbase_witness cb) as [|reserved [|r2 rs]] eqn:Ew;
    [apply Rej; intros (? & ? & ? & ? & ? & ? & E1 & E2 & _); rewrite Ev in E1; injection E1 as <- <-; congruence| |
     apply Rej; intros (? & ? & ? & ? & ? & ? & E1 & E2 & _); rewrite Ev in E1; injection E1 as <- <-; congruence].
  destruct (Nat.eqb_spec (length reserved) 32) as [El|El]; cbn [negb];
    [|apply Rej; intros (? & ? & ? & ? & ? & ? & E1 & E2 & E3 & _); rewrite Ev in E1; injection E1 as <- <-; congruence].
  destruct (BlockWitnessMerkleRoot_total b ltac:(rewrite Ev; discriminate)) as (root & mutated & Er).
  unfold mbind at 1, stm_bind at 1, lift_st at 1. rewrite Er.
  assert (Ho : exists out, vout cb !! Z.to_nat (GetWitnessCommitmentIndex b) = Some out).
  { apply lookup_lt_is_Some. unfold GetWitnessCommitmentIndex in *. rewrite Ev in *.
    destruct (commitment_loop_range (vout cb) 0 NO_WITNESS_COMMITMENT ltac:(lia) ltac:(left; reflexivity)); [contradiction|lia]. }
  destruct Ho as [out Ho]. unfold mbind at 1, stm_bind at 1, lift_st at 1. rewrite Ho. cbn [access].
  destruct (bool_decide_reflect (hash256 (root ++ reserved) = take 32 (drop 6 (scriptPubKey out)))) as [Eh|Eh]; cbn [negb].
  - assert (Hc : commitment_ok b) by (exists cb, rest, reserved, root, mutated, out; auto 10).
    exists true, (set_checked_witness_commitment b), st. split; [reflexivity|]. split; [tauto|]. do 2 (split; [reflexivity|]).
    split; [|split; [auto|discriminate]]. split; [reflexivity|]. split; [reflexivity|]. intros _.
    apply (witness_ok_same true b); [split; reflexivity|]. unfold witness_ok. rewrite (proj2 (Z.eqb_neq _ _) En). exact Hc.
  - apply Rej. intros (? & ? & ? & ? & ? & ? & E1 & E2 & E3 & E4 & E5 & E6). rewrite Ev in E1. injection E1 as <- <-. congruence.
Qed.

(** ** [ContextualCheckBlock] *)

(** The rules for a block of the given height whose parent has this median time
    past. *)
Definition contextual_valid (params : Params) (height mtp : Z) (b : CBlock) : Prop :=
  Forall (fun tx => IsFinalTx tx height (if CSVHeight params <=? height then mtp else hdr_nTime (header b)) = true) (vtx b) /\
  (BIP34Height params <= height -> exists coinbase rest i ins, vtx b = coinbase :: rest /\ vin coinbase = i :: ins /\
     take (length (script_num height)) (scriptSig i) = script_num height) /\
  witness_ok (SegwitHeight params <=? height) b /\
  GetBlockWeight b <= MAX_BLOCK_WEIGHT.

Lemma contextual_valid_same params height mtp b b' : same_block b b' -> contextual_valid params height mtp b -> contextual_valid params height mtp b'.
Proof using.
  intros Hs (Hfin & Hcb & Hw & Hbw). pose proof Hs as [Eh Ev]. unfold contextual_valid, GetBlockWeight. rewrite Eh, Ev.
  split; [exact Hfin|]. split; [exact Hcb|]. split; [eapply witness_ok_same; eauto|exact Hbw].
Qed.

Lemma ContextualCheckBlock_spec h params q bq mtp b st : h !! q = Some bq -> 0 <= Chain.nHeight bq < 2 ^ 31 - 1 -> GetMedianTimePast h q = Ok mtp ->
  has_coinbase b -> witness_flag_sound b ->
  outcome (ContextualCheckBlock h params (Some q)) b st (contextual_valid params (Chain.nHeight bq + 1) mtp b) (witness_flags b).
Proof using.
  intros Hq Hh Hm Hcb Hf. unfold ContextualCheckBlock, outcome, get_block. unfold mbind at 1, stm_bind at 1. cbn [fst].
  set (height := Chain.nHeight bq + 1).
  assert (Bur : forall dep, BuriedActiveAfter h params dep (Some q) = Ok (DeploymentHeight params dep <=? height))
    by (intros dep; unfold BuriedActiveAfter; rewrite (deref_ok h q bq Hq); cbn [mbind res_bind]; rewrite Z.geb_leb; reflexivity).
  unfold mbind at 1, stm_bind at 1, lift_st at 1. rewrite (deref_ok h q bq Hq). cbn [mbind res_bind]. rewrite swrap_small by (try lia; word_lia). fold height.
  unfold mbind at 1, stm_bind at 1, lift_st at 1. rewrite Bur. cbn [DeploymentHeight].
  set (cutoff := if CSVHeight params <=? height then mtp else hdr_nTime (header b)).
  unfold mbind at 1, stm_bind at 1, lift_st at 1.
  replace (if CSVHeight params <=? height then GetMedianTimePast h q else Ok (hdr_nTime (header b))) with (@Ok Z cutoff)
    by (unfold cutoff; destruct (_ <=? _); congruence).
  assert (Rej : forall reason, ~ contextual_valid params height mtp b ->
    outcome (reject BLOCK_CONSENSUS reason) b st (contextual_valid params height mtp b) (witness_flags b))
    by (intros reason Hn; apply outcome_reject; [exact Hn|]; split; [reflexivity|]; split; [reflexivity|exact Hf]).
  destruct (existsb (fun tx => negb (IsFinalTx tx height cutoff)) (vtx b)) eqn:Efin.
  { apply Rej. intros (Hfin & _). fold cutoff in Hfin. rewrite <- not_false_iff_true in Efin. apply Efin, existsb_Forall.
    eapply Forall_impl; [exact Hfin|]. cbn. intros tx ->. reflexivity. }
  assert (Hfin : Forall (fun tx => IsFinalTx tx height cutoff = true) (vtx b)).
  { apply existsb_Forall in Efin. eapply Forall_impl; [exact Efin|]. cbn. intros tx Ht. apply negb_false_iff in Ht. exact Ht. }
  pose proof Hcb as (cb & rest & i & ins & Ev & Ei). unfold mbind at 1, stm_bind at 1, lift_st at 1. rewrite Bur. cbn [DeploymentHeight].
  set (in_cb := BIP34Height params <=? height). set (hok := bool_decide (take (length (script_num height)) (scriptSig i) = script_num height)).
  assert (Ehok : (if in_cb then match vtx b with
        | tx :: _ => match vin tx with
                     | i :: _ => Ok (bool_decide (take (length (script_num height)) (scriptSig i) = script_num height))
                     | [] => Fail BadAccess
                     end
        | [] => Fail BadAccess
        end else Ok true) = Ok (negb in_cb || hok)%bool) by (rewrite Ev, Ei; destruct in_cb; reflexivity).
  unfold mbind at 1, stm_bind at 1, lift_st at 1. rewrite Ehok.
  destruct (negb in_cb || hok)%bool eqn:Ecb; cbn [negb].
  2: { apply orb_false_iff in Ecb as [E1 E2]. apply negb_false_iff in E1. apply bool_decide_eq_false in E2. apply Rej. intros (_ & Hc & _).
       destruct (Hc ltac:(unfold in_cb in E1; zbool; lia)) as (cb' & rest' & i' & ins' & E3 & E4 & E5). rewrite Ev in E3. injection E3 as <- <-. congruence. }
  assert (Hcbh : BIP34Height params <= height -> exists coinbase rest i ins, vtx b = coinbase :: rest /\ vin coinbase = i :: ins /\
     take (length (script_num height)) (scriptSig i) = script_num height).
  { intros Hle. unfold in_cb in Ecb. apply Z.leb_le in Hle. rewrite Hle in Ecb. cbn in Ecb. apply bool_decide_eq_true in Ecb. exists cb, rest, i, ins. auto. }
  unfold mbind at 1, stm_bind at 1, lift_st at 1. rewrite Bur. cbn [DeploymentHeight]. unfold mbind at 1, stm_bind at 1.
  destruct (CheckWitnessMalleation_spec (SegwitHeight params <=? height) b st Hcb Hf) as (ok & b1 & st1 & E1 & R1 & Eh1 & Ev1 & Q1 & S1 & I1). rewrite E1.
  destruct ok; cbn [negb].
  2: { exists false, b1, st1. split; [reflexivity|]. split; [|auto]. split; [discriminate|]. intros (_ & _ & Hw & _). apply R1 in Hw. discriminate. }
  rewrite (S1 eq_refl) in *. destruct (Z.gtb_spec (GetBlockWeight b) MAX_BLOCK_WEIGHT) as [Hw|Hw].
  - destruct (reject_spec BLOCK_CONSENSUS "bad-blk-weight" b1 st) as (st' & E & Hst). exists false, b1, st'. split; [exact E|].
    split; [|split; [exact Eh1|split; [exact Ev1|split; [exact Q1|split; [discriminate|auto]]]]]. split; [discriminate|]. intros (_ & _ & _ & Hle). lia.
  - exists true, b1, st. split; [reflexivity|]. split; [|split; [exact Eh1|split; [exact Ev1|split; [exact Q1|split; [auto|discriminate]]]]].
    split; [intros _|reflexivity]. split; [exact Hfin|]. split; [exact Hcbh|]. split; [apply R1; reflexivity|lia].
Qed.
End Rules.
