(* ===== verification/Connect.v ===== *)
(** * Connecting and disconnecting blocks

    Models the part of [src/validation.cpp] that moves the set of coins along
    the chain: [GetBlockSubsidy], [UpdateCoins], [CheckInputScripts],
    [GetBlockScriptFlags], [ConnectBlock], [ApplyTxInUndo], [DisconnectBlock]
    and [RollforwardBlock], and the undo records of [src/undo.h].  The script
    interpreter, the notifications and the files are outside the repository:
    the interpreter is an operation of [ConnectEnv]; reading and writing undo
    data are arguments and results. *)

From stdpp Require Import base numbers list gmap strings.
From Stdlib Require Import ZArith Lia.
From S2P Require Import Prelude ArithUint256 Compact Params Chain ActiveChain ChainWork Pow VersionBits.
From S2P Require Import Merkle Streams Serialize Compressor Transaction Coins TxCheck Locks Blocks.

Local Open Scope Z_scope.

(** ** The subsidy *)

Definition GetBlockSubsidy (height : Z) (params : Params) : Z :=
  let halvings := Z.quot height (nSubsidyHalvingInterval params) in
  if halvings >=? 64 then 0
  else Z.shiftr (500 * COIN) halvings.

(** ** Undo records *)

Notation CTxUndo := (list Coin).
Notation CBlockUndo := (list (list Coin)).

Section UndoFormat.
Context `{ScriptEnv} {S : Type} `{Stream S}.

Definition TxInUndo_Ser (txout : Coin) : stm S unit :=
  _ ← WriteVarInt 32 (u32 (Coins.nHeight txout * 2 + Z.b2z (fCoinBase txout)));
  _ ← (if Coins.nHeight txout >? 0 then ser_writedata8 0 else mret tt);
  TxOutCompression_Ser (out txout).

Definition TxInUndo_Unser (txout : Coin) : stm S Coin :=
  nCode ← ReadVarInt 32;
  let height := Z.shiftr nCode 1 in
  _ ← (if height >? 0 then _ ← ReadVarInt 32; mret tt else mret tt);
  o ← TxOutCompression_Unser (out txout);
  mret {| out := o; fCoinBase := negb (Z.land nCode 1 =? 0); Coins.nHeight := height |}.
End UndoFormat.

Inductive DisconnectResult : Type := DISCONNECT_OK | DISCONNECT_UNCLEAN | DISCONNECT_FAILED.

#[global] Instance DisconnectResult_eq_dec : EqDecision DisconnectResult.
Proof. solve_decision. Defined.

Definition BIP34_IMPLIES_BIP30_LIMIT : Z := 1983702.

(** [uint256S("0x...")]: the value as a 32-byte blob. *)
Definition uint256S (z : Z) : uint256 := le_digits 8 32 z.

Definition IsBIP30Repeat (b : CBlockIndex) : res bool :=
  if Chain.nHeight b =? 91842 then
    hash ← GetBlockHash b; Ok (bool_decide (hash = uint256S 0x00000000000a4d0a398161ffc163c503763b1f4360639393e0e4c8e300e0caec))
  else if Chain.nHeight b =? 91880 then
    hash ← GetBlockHash b; Ok (bool_decide (hash = uint256S 0x00000000000743f190a18c5577a3c2d2a1f610ae9601ac046a38084ccb7cd721))
  else Ok false.

Definition IsBIP30Unspendable (b : CBlockIndex) : res bool :=
  if Chain.nHeight b =? 91722 then
    hash ← GetBlockHash b; Ok (bool_decide (hash = uint256S 0x00000000000271a2dc26e7667f8419f2e15416dc6955e5a6c6cdf3f2574dd08e))
  else if Chain.nHeight b =? 91812 then
    hash ← GetBlockHash b; Ok (bool_decide (hash = uint256S 0x00000000000af0aed4792b1acee3d966af36cf5def14935db8de83d6f9306f2f))
  else Ok false.

(** The script interpreter and its flags. *)
Class ConnectEnv : Type := {
  SCRIPT_VERIFY_WITNESS : Z;
  SCRIPT_VERIFY_TAPROOT : Z;
  SCRIPT_VERIFY_DERSIG : Z;
  SCRIPT_VERIFY_CHECKLOCKTIMEVERIFY : Z;
  SCRIPT_VERIFY_CHECKSEQUENCEVERIFY : Z;
  SCRIPT_VERIFY_NULLDUMMY : Z;
  STANDARD_NOT_MANDATORY_VERIFY_FLAGS : Z;
  (** [g_scriptExecutionCache.contains] for a transaction and flags. *)
  script_cached : CTransaction -> Z -> bool;
  (** [CScriptCheck] of one input: the error, where it fails. *)
  CScriptCheck : list CTxOut -> CTransaction -> nat -> Z -> option string;
}.

Section Connect.
Context `{Primitives, !TxEnv, !BlockEnv, !ScriptEnv, !LockEnv, !ConnectEnv} {V : Type} `{CCoinsView V} (txout_size : Z).
Notation cache := (CCoinsViewCache V).

(** ** Moving coins *)

(** The loop that marks the inputs spent. *)
Fixpoint spend_inputs (ins : list CTxIn) : stm cache CTxUndo :=
  match ins with
  | [] => mret []
  | txin :: rest =>
      '(is_spent, moved) ← SpendCoin (prevout txin);
      _ ← lift_st (assert_ is_spent);
      undo ← spend_inputs rest;
      mret (default coinEmpty moved :: undo)
  end.

(** [UpdateCoins]: the undo record of the transaction. *)
Definition UpdateCoins (tx : CTransaction) (height : Z) : stm cache CTxUndo :=
  undo ← (if negb (IsCoinBase tx) then spend_inputs (vin tx) else mret []);
  _ ← AddCoins tx height false;
  mret undo.

Definition ApplyTxInUndo (undo : Coin) (op : COutPoint) : stm cache DisconnectResult :=
  have ← HaveCoin op;
  let fClean := negb have in
  undo ← (if Coins.nHeight undo =? 0 then
            alternate ← AccessByTxid txout_size (fst op);
            mret (if negb (IsSpent alternate)
                  then Some {| out := out undo; fCoinBase := fCoinBase alternate; Coins.nHeight := Coins.nHeight alternate |}
                  else None)
          else mret (Some undo));
  match undo with
  | None => mret DISCONNECT_FAILED
  | Some undo =>
      _ ← AddCoin op undo (negb fClean);
      mret (if fClean then DISCONNECT_OK else DISCONNECT_UNCLEAN)
  end.

(** The outputs of a transaction are spent again; [false] when one did not match. *)
Fixpoint unspend_outputs (txid height : Z) (is_coinbase is_bip30_exception : bool) (o : Z) (outs : list CTxOut) : stm cache bool :=
  match outs with
  | [] => mret true
  | txout :: rest =>
      clean ← (if negb (IsUnspendable (scriptPubKey txout)) then
                 '(is_spent, moved) ← SpendCoin (txid, u32 o);
                 let c := default coinEmpty moved in
                 if (negb is_spent || negb (bool_decide (txout = out c)) || negb (height =? Coins.nHeight c)
                     || negb (eqb is_coinbase (fCoinBase c)))%bool
                 then mret is_bip30_exception
                 else mret true
               else mret true);
      rest_clean ← unspend_outputs txid height is_coinbase is_bip30_exception (o + 1) rest;
      mret (clean && rest_clean)
  end.

(** [for (unsigned int j = tx.vin.size(); j > 0;)], over the reversed pairs of
    inputs and undo records. *)
Fixpoint restore_inputs (l : list (CTxIn * Coin)) (fClean : bool) : stm cache (option bool) :=
  match l with
  | [] => mret (Some fClean)
  | (txin, undo) :: rest =>
      r ← ApplyTxInUndo undo (prevout txin);
      if bool_decide (r = DISCONNECT_FAILED) then mret None
      else restore_inputs rest (fClean && negb (bool_decide (r = DISCONNECT_UNCLEAN)))
  end.

(** One transaction of [DisconnectBlock]; [undo] is absent for the first one. *)
Definition disconnect_tx (height : Z) (fEnforceBIP30 : bool) (tx : CTransaction) (undo : option CTxUndo) (fClean : bool)
    : stm cache (option bool) :=
  let is_coinbase := IsCoinBase tx in
  let is_bip30_exception := (is_coinbase && negb fEnforceBIP30)%bool in
  outs ← unspend_outputs (GetHash tx) height is_coinbase is_bip30_exception 0 (vout tx);
  let fClean := (fClean && outs)%bool in
  match undo with
  | None => mret (Some fClean)
  | Some txundo =>
      if negb (length txundo =? length (vin tx))%nat then mret None
      else restore_inputs (rev (zip (vin tx) txundo)) fClean
  end.

(** The transactions in reverse order, each with its undo record. *)
Fixpoint disconnect_loop (height : Z) (fEnforceBIP30 : bool) (l : list (CTransaction * option CTxUndo)) (fClean : bool)
    : stm cache (option bool) :=
  match l with
  | [] => mret (Some fClean)
  | (tx, undo) :: rest =>
      r ← disconnect_tx height fEnforceBIP30 tx undo fClean;
      match r with
      | None => mret None
      | Some fClean => disconnect_loop height fEnforceBIP30 rest fClean
      end
  end.

(** [blockUndo] is what [UndoReadFromDisk] returns. *)
Definition DisconnectBlock (h : heap) (pindex : ptr) (txs : list CTransaction) (blockUndo : option CBlockUndo) : stm cache DisconnectResult :=
  match blockUndo with
  | None => mret DISCONNECT_FAILED
  | Some vtxundo =>
      if negb (length vtxundo + 1 =? length txs)%nat then mret DISCONNECT_FAILED
      else
        b ← lift_st (deref h pindex);
        unspendable ← lift_st (IsBIP30Unspendable b);
        r ← disconnect_loop (Chain.nHeight b) (negb unspendable) (rev (zip txs (None :: map Some vtxundo))) true;
        match r with
        | None => mret DISCONNECT_FAILED
        | Some fClean =>
            q ← lift_st (access (pprev b));
            prev ← lift_st (deref h q);
            hash ← lift_st (GetBlockHash prev);
            _ ← SetBestBlock (le_val 8 hash);
            mret (if fClean : bool then DISCONNECT_OK else DISCONNECT_UNCLEAN)
        end
  end.

Fixpoint roll_inputs (ins : list CTxIn) : stm cache unit :=
  match ins with
  | [] => mret tt
  | txin :: rest => _ ← SpendCoin (prevout txin); roll_inputs rest
  end.

Fixpoint roll_loop (height : Z) (txs : list CTransaction) : stm cache unit :=
  match txs with
  | [] => mret tt
  | tx :: rest =>
      _ ← (if negb (IsCoinBase tx) then roll_inputs (vin tx) else mret tt);
      _ ← AddCoins tx height true;
      roll_loop height rest
  end.

(** [txs] is what [ReadBlockFromDisk] returns. *)
Definition RollforwardBlock (h : heap) (pindex : ptr) (txs : option (list CTransaction)) : stm cache bool :=
  match txs with
  | None => mret false
  | Some txs => b ← lift_st (deref h pindex); _ ← roll_loop (Chain.nHeight b) txs; mret true
  end.

(** ** Script checks, one input after the other *)

Fixpoint gather_spent (ins : list CTxIn) : stm cache (list CTxOut) :=
  match ins with
  | [] => mret []
  | txin :: rest =>
      c ← AccessCoin (prevout txin);
      _ ← lift_st (assert_ (negb (IsSpent c)));
      l ← gather_spent rest;
      mret (out c :: l)
  end.

Fixpoint script_loop (spent_outputs : list CTxOut) (tx : CTransaction) (vflags : Z) (n i : nat) (state : TxValidationState)
    : bool * TxValidationState :=
  match n with
  | O => (true, state)
  | Datatypes.S n' =>
      match CScriptCheck spent_outputs tx i vflags with
      | None => script_loop spent_outputs tx vflags n' (Datatypes.S i) state
      | Some err =>
          if (negb (Z.land vflags STANDARD_NOT_MANDATORY_VERIFY_FLAGS =? 0) &&
              match CScriptCheck spent_outputs tx i (Z.land vflags (u32 (Z.lnot STANDARD_NOT_MANDATORY_VERIFY_FLAGS))) with
              | None => true | Some _ => false end)%bool
          then Invalid TX_NOT_STANDARD (String.append "non-mandatory-script-verify-flag (" (String.append err ")")) state
          else Invalid TX_CONSENSUS (String.append "mandatory-script-verify-flag-failed (" (String.append err ")")) state
      end
  end.

(** A [CScriptCheck] that waits in the queue. *)
Definition script_check : Type := list CTxOut * CTransaction * nat * Z.
Definition run_check (c : script_check) : bool :=
  let '(spent_outputs, tx, i, vflags) := c in
  match CScriptCheck spent_outputs tx i vflags with None => true | Some _ => false end.

(** With worker threads ([parallel], the code's [pvChecks]) the checks are only
    collected. *)
Definition CheckInputScripts (tx : CTransaction) (state : TxValidationState) (vflags : Z) (parallel : bool)
    : stm cache (bool * TxValidationState * list script_check) :=
  if IsCoinBase tx then mret (true, state, [])
  else if script_cached tx vflags then mret (true, state, [])
  else
    spent_outputs ← gather_spent (vin tx);
    _ ← lift_st (assert_ (length spent_outputs =? length (vin tx))%nat);
    if parallel then mret (true, state, map (fun i => (spent_outputs, tx, i, vflags)) (seq 0 (length (vin tx))))
    else mret (script_loop spent_outputs tx vflags (length (vin tx)) 0 state, []).

Definition GetBlockScriptFlags (b : CBlockIndex) (params : Params) : res Z :=
  hash ← GetBlockHash b;
  let vflags := Z.lor SCRIPT_VERIFY_P2SH (Z.lor SCRIPT_VERIFY_WITNESS SCRIPT_VERIFY_TAPROOT) in
  let vflags := match list_find (fun e => fst e = hash) (script_flag_exceptions params) with
                | Some (_, (_, f)) => f
                | None => vflags
                end in
  let vflags := if BuriedActiveAt params DEPLOYMENT_DERSIG b then Z.lor vflags SCRIPT_VERIFY_DERSIG else vflags in
  let vflags := if BuriedActiveAt params DEPLOYMENT_CLTV b then Z.lor vflags SCRIPT_VERIFY_CHECKLOCKTIMEVERIFY else vflags in
  let vflags := if BuriedActiveAt params DEPLOYMENT_CSV b then Z.lor vflags SCRIPT_VERIFY_CHECKSEQUENCEVERIFY else vflags in
  let vflags := if BuriedActiveAt params DEPLOYMENT_SEGWIT b then Z.lor vflags SCRIPT_VERIFY_NULLDUMMY else vflags in
  Ok vflags.

(** ** [ConnectBlock] *)

(** Everything [ConnectBlock] changes: the view, the block's flags and the
    validation state, and the block index. *)
Record connect_state : Type := { view : cache; checked : CBlock * BlockValidationState; index : heap }.

Definition on_view {A} (m : stm cache A) : stm connect_state A := fun s =>
  let '(r, c) := m (view s) in (r, {| view := c; checked := checked s; index := index s |}).
Definition on_block {A} (m : stm (CBlock * BlockValidationState) A) : stm connect_state A := fun s =>
  let '(r, b) := m (checked s) in (r, {| view := view s; checked := b; index := index s |}).
Definition set_index (h : heap) : stm connect_state unit := fun s =>
  (Ok tt, {| view := view s; checked := checked s; index := h |}).

(** What the node knows beside the chain: [assumevalid], the index by hash, the
    best header and the minimum work, and whether script checks have threads. *)
Record node_context : Type := {
  parallel_script_checks : bool;
  assumed_valid : uint256;
  find_block : uint256 -> option ptr;
  best_header : option ptr;
  minimum_chain_work : base_uint;
}.

(** [fScriptChecks]. *)
Definition script_checks_needed (h : heap) (params : Params) (ctx : node_context) (pindex : ptr) (b : CBlockIndex) : res bool :=
  if bool_decide (assumed_valid ctx = uint256_null) then Ok true
  else match find_block ctx (assumed_valid ctx) with
  | None => Ok true
  | Some it =>
      a ← GetAncestor h it (Chain.nHeight b);
      if negb (bool_decide (a = Some pindex)) then Ok true
      else
        header ← access (best_header ctx);
        best ← deref h header;
        a ← GetAncestor h header (Chain.nHeight b);
        if negb (bool_decide (a = Some pindex)) then Ok true
        else if negb (uint_ge (nChainWork best) (minimum_chain_work ctx)) then Ok true
        else t ← GetBlockProofEquivalentTime best b best params; Ok (t <=? 60 * 60 * 24 * 7 * 2)
  end.

(** Does an output of the block exist already? *)
Fixpoint bip30_outputs (txid o : Z) (outs : list CTxOut) : stm cache bool :=
  match outs with
  | [] => mret false
  | _ :: rest => have ← HaveCoin (txid, u32 o); if have : bool then mret true else bip30_outputs txid (o + 1) rest
  end.

Fixpoint bip30_loop (txs : list CTransaction) : stm cache bool :=
  match txs with
  | [] => mret false
  | tx :: rest => r ← bip30_outputs (GetHash tx) 0 (vout tx); if r : bool then mret true else bip30_loop rest
  end.

Fixpoint coin_heights (ins : list CTxIn) : stm cache (list Z) :=
  match ins with
  | [] => mret []
  | txin :: rest => c ← AccessCoin (prevout txin); l ← coin_heights rest; mret (Coins.nHeight c :: l)
  end.

(** The checks of a transaction that is not a coinbase, before its scripts: the
    fees so far, or the reason to reject the block. *)
Definition connect_inputs (h : heap) (pindex : ptr) (height nLockTimeFlags : Z) (tx : CTransaction) (nFees : Z) : stm cache (Z + string) :=
  '((ok, tx_state), txfee) ← CheckTxInputs tx (fresh_state TX_RESULT_UNSET) height;
  if negb ok then mret (inr (m_reject_reason tx_state))
  else
    let nFees := i64 (nFees + default 0 txfee) in
    if negb (MoneyRange nFees) then mret (inr "bad-txns-accumulated-fee-outofrange"%string)
    else
      prevheights ← coin_heights (vin tx);
      final ← lift_st (SequenceLocks h tx nLockTimeFlags prevheights pindex);
      if negb final then mret (inr "bad-txns-nonfinal"%string) else mret (inl nFees).

(** One transaction: fees and signature operations so far, the undo record and
    the script checks left to the queue. *)
Definition connect_tx (h : heap) (pindex : ptr) (height nLockTimeFlags vflags : Z) (fScriptChecks parallel : bool) (tx : CTransaction)
    (nFees nSigOpsCost : Z) : stm cache (Z * Z * CTxUndo * list script_check + string) :=
  r ← (if negb (IsCoinBase tx) then connect_inputs h pindex height nLockTimeFlags tx nFees else mret (inl nFees));
  match r with
  | inr reason => mret (inr reason)
  | inl nFees =>
      cost ← GetTransactionSigOpCost tx vflags;
      let nSigOpsCost := i64 (nSigOpsCost + cost) in
      if nSigOpsCost >? MAX_BLOCK_SIGOPS_COST then mret (inr "bad-blk-sigops"%string)
      else
        '(ok, tx_state, checks) ← (if (negb (IsCoinBase tx) && fScriptChecks)%bool
                                   then CheckInputScripts tx (fresh_state TX_RESULT_UNSET) vflags parallel
                                   else mret (true, fresh_state TX_RESULT_UNSET, []));
        if negb ok then mret (inr (m_reject_reason tx_state))
        else undo ← UpdateCoins tx height; mret (inl (nFees, nSigOpsCost, undo, checks))
  end.

Fixpoint connect_loop (h : heap) (pindex : ptr) (height nLockTimeFlags vflags : Z) (fScriptChecks parallel : bool) (txs : list CTransaction)
    (nFees nSigOpsCost : Z) : stm cache (Z * list CTxUndo * list script_check + string) :=
  match txs with
  | [] => mret (inl (nFees, [], []))
  | tx :: rest =>
      r ← connect_tx h pindex height nLockTimeFlags vflags fScriptChecks parallel tx nFees nSigOpsCost;
      match r with
      | inr reason => mret (inr reason)
      | inl (nFees, nSigOpsCost, undo, checks) =>
          r ← connect_loop h pindex height nLockTimeFlags vflags fScriptChecks parallel rest nFees nSigOpsCost;
          mret (match r with inl (f, undos, more) => inl (f, undo :: undos, checks ++ more) | inr reason => inr reason end)
      end
  end.

(** What is left after the transactions: the reward, the queued script checks,
    the undo data and the marks.  The undo data is the result; [write_ok] is
    what [WriteUndoDataForBlock] returns.  The entry of a block whose validity is
    raised is also noted in [m_dirty_blockindex], a member that is not part of
    [connect_state]: [connect_on_tip] of [ChainSelection] notes it. *)
Definition connect_finish (params : Params) (pindex : ptr) (b : CBlockIndex) (h : heap) (txs : list CTransaction) (nFees : Z)
    (undos : list CTxUndo) (checks : list script_check) (fJustCheck write_ok : bool) : stm connect_state (bool * option CBlockUndo) :=
  let blockReward := i64 (nFees + GetBlockSubsidy (Chain.nHeight b) params) in
  coinbase ← lift_st (access (head txs));
  value ← lift_st (GetValueOut coinbase);
  if value >? blockReward then ok ← on_block (reject BLOCK_CONSENSUS "bad-cb-amount"); mret (ok, None)
  else if negb (forallb run_check checks) then ok ← on_block (reject BLOCK_CONSENSUS "block-validation-failed"); mret (ok, None)
  else if fJustCheck then mret (true, None)
  else if negb write_ok then mret (false, Some (tail undos))
  else
    valid ← lift_st (IsValid b BLOCK_VALID_SCRIPTS);
    _ ← (if negb valid then
           '(_, b') ← lift_st (RaiseValidity b BLOCK_VALID_SCRIPTS); set_index (<[pindex := b']> h)
         else mret tt);
    hash ← lift_st (GetBlockHash b);
    _ ← on_view (SetBestBlock (le_val 8 hash));
    mret (true, Some (tail undos)).

(** The part after the special case of the genesis block. *)
Definition connect_body (params : Params) (ctx : node_context) (pindex : ptr) (b : CBlockIndex) (txs : list CTransaction)
    (fJustCheck write_ok : bool) : stm connect_state (bool * option CBlockUndo) :=
  s ← get_st;
  let h := index s in
  fScriptChecks ← lift_st (script_checks_needed h params ctx pindex b);
  repeat_block ← lift_st (IsBIP30Repeat b);
  q ← lift_st (match pprev b with Some q => Ok q | None => Fail AssertFailed end);
  pindexBIP34height ← lift_st (GetAncestor h q (BIP34Height params));
  bip34_chain ← lift_st (match pindexBIP34height with
                         | None => Ok false
                         | Some p34 => b34 ← deref h p34; hash ← GetBlockHash b34; Ok (bool_decide (hash = BIP34Hash params))
                         end);
  let fEnforceBIP30 := (negb repeat_block && negb bip34_chain)%bool in
  overwrite ← (if (fEnforceBIP30 || (Chain.nHeight b >=? BIP34_IMPLIES_BIP30_LIMIT))%bool then on_view (bip30_loop txs) else mret false);
  if overwrite : bool then ok ← on_block (reject BLOCK_CONSENSUS "bad-txns-BIP30"); mret (ok, None)
  else
    let nLockTimeFlags := if BuriedActiveAt params DEPLOYMENT_CSV b then LOCKTIME_VERIFY_SEQUENCE else 0 in
    vflags ← lift_st (GetBlockScriptFlags b params);
    r ← on_view (connect_loop h pindex (Chain.nHeight b) nLockTimeFlags vflags fScriptChecks (parallel_script_checks ctx) txs 0 0);
    match r with
    | inr reason => ok ← on_block (reject BLOCK_CONSENSUS reason); mret (ok, None)
    | inl (nFees, undos, checks) =>
        connect_finish params pindex b h txs nFees undos checks fJustCheck write_ok
    end.

Definition ConnectBlock (params : Params) (ctx : node_context) (pindex : ptr) (fJustCheck write_ok : bool)
    : stm connect_state (bool * option CBlockUndo) :=
  s ← get_st;
  let block := fst (checked s) in
  b ← lift_st (deref (index s) pindex);
  hash ← lift_st (GetBlockHash b);
  _ ← lift_st (assert_ (bool_decide (hash = header_hash (header block))));
  ok ← on_block (CheckBlock params (negb fJustCheck) (negb fJustCheck));
  if negb ok then
    s ← get_st;
    if bool_decide (m_result (snd (checked s)) = BLOCK_MUTATED)
    then ok ← on_block (fun '(b, st) => let '(r, st') := Error "Corrupt block found indicating potential hardware failure; shutting down" st in (Ok r, (b, st')));
         mret (ok, None)
    else mret (false, None)
  else
    prev_hash ← lift_st (match pprev b with
                         | None => Ok uint256_null
                         | Some q => prev ← deref (index s) q; GetBlockHash prev
                         end);
    best ← on_view GetBestBlock;
    _ ← lift_st (assert_ (best =? le_val 8 prev_hash));
    if bool_decide (hash = hashGenesisBlock params) then
      _ ← (if negb fJustCheck then on_view (SetBestBlock (le_val 8 hash)) else mret tt);
      mret (true, None)
    else connect_body params ctx pindex b (vtx block) fJustCheck write_ok.
End Connect.
