(* ===== verification/ConnectBlock.v ===== *)
(** * Connecting and disconnecting blocks, proofs

    The moves of coins of one transaction, and [ConnectBlock] and
    [DisconnectBlock] as a whole. *)

From stdpp Require Import base numbers list gmap strings.
From Stdlib Require Import ZArith Lia.
From S2P Require Import Prelude ArithUint256 Compact Params Chain ActiveChain ChainWork Pow VersionBits Merkle Streams Serialize Compressor Transaction Coins CoinsProofs CoinsRefinement TxCheck Locks Blocks Connect.

Local Open Scope Z_scope.

(** * Money is conserved, and blocks come off as they went on

    The theorems about [Connect]: the subsidy schedule bounds the supply,
    [ConnectBlock] creates at most the subsidy, and [DisconnectBlock] with the
    undo data of [ConnectBlock] restores the coins exactly. *)

Opaque MAX_MONEY.

(** ** The supply *)

(** The subsidies of the first [n] blocks. *)
Fixpoint supply (n : nat) (params : Params) : Z :=
  match n with
  | O => 0
  | Datatypes.S n' => supply n' params + GetBlockSubsidy (Z.of_nat n') params
  end.

Lemma GetBlockSubsidy_shift height params : 0 < nSubsidyHalvingInterval params -> 0 <= height ->
  GetBlockSubsidy height params = (500 * COIN) / 2 ^ (height / nSubsidyHalvingInterval params).
Proof.
  intros Hi Hh. unfold GetBlockSubsidy. rewrite Z.quot_div_nonneg by lia.
  assert (0 <= height / nSubsidyHalvingInterval params) by (apply Z.div_pos; lia).
  rewrite Z.geb_leb. destruct (Z.leb_spec 64 (height / nSubsidyHalvingInterval params)).
  - symmetry. apply Z.div_small. split; [unfold COIN; lia|].
    pose proof (Z.pow_le_mono_r 2 64 (height / nSubsidyHalvingInterval params)). unfold COIN. lia.
  - apply Z.shiftr_div_pow2. lia.
Qed.

(** What may still be issued, by the halving rule, is paid for in advance. *)
Lemma supply_potential params n k r : 0 < nSubsidyHalvingInterval params -> 0 <= k -> 0 <= r < nSubsidyHalvingInterval params ->
  Z.of_nat n = k * nSubsidyHalvingInterval params + r ->
  supply n params + (500 * COIN) / 2 ^ k * (2 * nSubsidyHalvingInterval params - r) <= 2 * (500 * COIN) * nSubsidyHalvingInterval params.
Proof.
  intros Hi. set (I := nSubsidyHalvingInterval params) in *. revert k r. induction n as [|n IH]; intros k r Hk Hr E.
  { assert (k = 0) as -> by nia. assert (r = 0) as -> by lia. cbn [supply]. rewrite Z.div_1_r. lia. }
  cbn [supply]. destruct (Z.eq_dec r 0) as [->|Hr0].
  - assert (1 <= k) by nia. specialize (IH (k - 1) (I - 1) ltac:(lia) ltac:(lia) ltac:(nia)).
    rewrite GetBlockSubsidy_shift by lia. fold I. assert (Ek : Z.of_nat n / I = k - 1).
    { symmetry. apply (Z.div_unique _ _ _ (I - 1)); nia. }
    rewrite Ek. set (a := 500 * COIN / 2 ^ (k - 1)) in *.
    assert (Ha : 2 * (500 * COIN / 2 ^ k) <= a).
    { replace k with (Z.succ (k - 1)) at 1 by lia. rewrite Z.pow_succ_r, (Z.mul_comm 2 (2 ^ (k - 1))) by lia.
      rewrite <- Z.div_div by (try lia; apply Z.pow_nonzero; lia). fold a. apply Z.mul_div_le. lia. }
    nia.
  - specialize (IH k (r - 1) Hk ltac:(lia) ltac:(lia)). rewrite GetBlockSubsidy_shift by lia. fold I.
    assert (Ek : Z.of_nat n / I = k) by (symmetry; apply (Z.div_unique _ _ _ (r - 1)); nia). rewrite Ek. lia.
Qed.

(** ** The value of a set of coins *)

Definition value (u : gmap COutPoint Coin) : Z := map_fold (fun _ x acc => nValue (out x) + acc) 0 u.

Lemma value_insert_new u op x : u !! op = None -> value (<[op := x]> u) = value u + nValue (out x).
Proof. intros E. unfold value. rewrite map_fold_insert_L; auto; [lia|]. intros. lia. Qed.

Lemma value_delete u op x : u !! op = Some x -> value (delete op u) = value u - nValue (out x).
Proof.
  intros E. rewrite <- (insert_delete_id u op x E) at 2. rewrite value_insert_new by apply lookup_delete_eq. lia.
Qed.

(** Coins that blocks up to height [top] may have created: in range, spendable,
    above the genesis block. *)
Definition coins_ok `{Primitives} (top : Z) (u : gmap COutPoint Coin) : Prop :=
  map_Forall (fun _ x => 1 <= Coins.nHeight x <= top /\ 0 <= nValue (out x) /\
    IsUnspendable (scriptPubKey (out x)) = false) u.

Section Moves.
Context {HP : Primitives} {HPL : PrimitivesLaws}.

Definition spend_all (u : gmap COutPoint Coin) (ins : list CTxIn) : gmap COutPoint Coin :=
  foldl (fun u i => delete (prevout i) u) u ins.

Lemma lookup_spend_all u ins op :
  spend_all u ins !! op = if decide (op ∈ map prevout ins) then None else u !! op.
Proof using.
  revert u. induction ins as [|i ins IH]; intros u; cbn [spend_all foldl map].
  { rewrite decide_False by apply not_elem_of_nil. reflexivity. }
  change (foldl _ (delete (prevout i) u) ins) with (spend_all (delete (prevout i) u) ins). rewrite IH.
  destruct (decide (op ∈ map prevout ins)) as [Hin|Hin].
  - rewrite decide_True by (apply elem_of_cons; auto). reflexivity.
  - destruct (decide (prevout i = op)) as [<-|Hne].
    + rewrite lookup_delete_eq, decide_True by (apply elem_of_cons; auto). reflexivity.
    + rewrite lookup_delete_ne by exact Hne. rewrite decide_False; [reflexivity|]. intros Hx. apply elem_of_cons in Hx as [?|?]; congruence.
Qed.

Lemma value_spend_all u ins : NoDup (map prevout ins) -> Forall (fun i => is_Some (u !! prevout i)) ins ->
  value (spend_all u ins) = value u - total (map out (spent u ins)).
Proof using.
  revert u. induction ins as [|i ins IH]; intros u Hnd Hin; cbn [spend_all foldl map].
  { cbn. lia. }
  apply NoDup_cons in Hnd as [Hni Hnd]. apply Forall_cons in Hin as [[x Ex] Hin].
  change (foldl _ (delete (prevout i) u) ins) with (spend_all (delete (prevout i) u) ins).
  rewrite (spent_cons _ _ _ _ Ex). cbn [map]. unfold total. cbn [foldr].
  assert (Es : spent (delete (prevout i) u) ins = spent u ins).
  { unfold spent. clear -Hni. induction ins as [|j ins IH]; [reflexivity|]. cbn in *. apply not_elem_of_cons in Hni as [Hne Hni].
    rewrite lookup_delete_ne by auto. rewrite IH by exact Hni. reflexivity. }
  rewrite IH, Es, (value_delete _ _ _ Ex); [unfold total; lia|exact Hnd|].
  apply Forall_forall. intros j Hj. rewrite lookup_delete_ne; [exact (proj1 (Forall_forall _ _) Hin j Hj)|].
  intros E. apply Hni. rewrite E. apply list_elem_of_In, in_map, list_elem_of_In, Hj.
Qed.

Lemma add_outputs_other txid height cb i outs u op : fst op <> txid -> add_outputs txid height cb i outs u !! op = u !! op.
Proof using.
  revert i u. induction outs as [|o outs IH]; intros i u Hne; cbn [add_outputs]; [reflexivity|]. rewrite IH by exact Hne.
  destruct (IsUnspendable _); [reflexivity|]. rewrite lookup_insert_ne; [reflexivity|]. intros <-. contradiction.
Qed.

Lemma value_add_outputs txid height cb i outs u : Forall (fun o => 0 <= nValue o) outs ->
  (forall j, i <= j -> u !! (txid, j) = None) -> value (add_outputs txid height cb i outs u) <= value u + total outs.
Proof using.
  revert i u. induction outs as [|o outs IH]; intros i u Hn Hu; cbn [add_outputs]; [unfold total; cbn; lia|].
  apply Forall_cons in Hn as [Ho Hn]. unfold total. cbn [foldr]. fold (total outs). destruct (IsUnspendable (scriptPubKey o)).
  - specialize (IH (i + 1) u Hn ltac:(intros j Hj; apply Hu; lia)). lia.
  - specialize (IH (i + 1) (<[(txid, i) := Coin_make o height cb]> u) Hn).
    rewrite value_insert_new in IH by (apply Hu; lia). cbn [Coin_make out] in IH.
    assert (Hnew : forall j, i + 1 <= j -> <[(txid, i) := Coin_make o height cb]> u !! (txid, j) = None).
    { intros j Hj. rewrite lookup_insert_ne by (intros [= ?]; lia). apply Hu. lia. }
    specialize (IH Hnew). lia.
Qed.

Lemma add_outputs_ok txid height cb i outs u : in_u 31 height -> 1 <= height -> Forall (fun o => 0 <= nValue o) outs ->
  coins_ok height u -> coins_ok height (add_outputs txid height cb i outs u).
Proof using.
  intros Hh H1. revert i u. induction outs as [|o outs IH]; intros i u Hn Hu; cbn [add_outputs]; [exact Hu|].
  apply Forall_cons in Hn as [Ho Hn]. apply IH; [exact Hn|]. destruct (IsUnspendable (scriptPubKey o)) eqn:Eu; [exact Hu|].
  apply map_Forall_insert_2; [|exact Hu]. cbn [Coin_make out Coins.nHeight]. rewrite uwrap_small by exact Hh.
  unfold in_u in Hh. repeat split; auto; lia.
Qed.

Lemma spend_all_ok top u ins : coins_ok top u -> coins_ok top (spend_all u ins).
Proof using.
  intros Hu op x Ex. rewrite lookup_spend_all in Ex. destruct (decide _); [discriminate|]. exact (Hu op x Ex).
Qed.

Context {V : Type} {HV : CCoinsView V} {HA : ViewAbs V} {HVL : ViewLaws V} {HT : TxEnv}.
Notation cache := (CCoinsViewCache V).

Lemma spend_inputs_spec ins (c : cache) : view_ok c -> NoDup (map prevout ins) ->
  Forall (fun i => is_Some (coins c !! prevout i)) ins -> exists c',
  spend_inputs ins c = (Ok (spent (coins c) ins), c') /\ view_ok c' /\ best c' = best c /\ coins c' = spend_all (coins c) ins.
Proof using HPL HVL.
  revert c. induction ins as [|i ins IH]; intros c Hok Hnd Hin; cbn [spend_inputs]; [exists c; auto|].
  apply NoDup_cons in Hnd as [Hni Hnd]. apply Forall_cons in Hin as [[x Ex] Hin].
  destruct (SpendCoin_spec c (prevout i) Hok) as (b & mv & c1 & E1 & O1 & B1 & C1 & R1). destruct (R1 x Ex) as [-> ->].
  assert (Hpres : Forall (fun j => is_Some (coins c1 !! prevout j)) ins).
  { apply Forall_forall. intros j Hj. rewrite C1, lookup_delete_ne; [exact (proj1 (Forall_forall _ _) Hin j Hj)|].
    intros E. apply Hni. cbn. rewrite E. apply list_elem_of_In, in_map, list_elem_of_In, Hj. }
  destruct (IH c1 O1 Hnd Hpres) as (c2 & E2 & O2 & B2 & C2).
  unfold mbind, stm_bind. rewrite E1. cbn [lift_st assert_]. unfold lift_st. cbn [assert_]. rewrite E2.
  exists c2. split; [|split; [exact O2|split; [congruence|rewrite C2, C1; reflexivity]]].
  assert (Es : spent (coins c1) ins = spent (coins c) ins).
  { rewrite C1. unfold spent. clear -Hni. cbn in Hni. induction ins as [|j ins IH]; [reflexivity|]. cbn in *. apply not_elem_of_cons in Hni as [Hne Hni].
    rewrite lookup_delete_ne by auto. rewrite IH by exact Hni. reflexivity. }
  rewrite Es, (spent_cons _ _ _ _ Ex). reflexivity.
Qed.

(** A transaction that can be connected at [u]. *)
Definition tx_fits (u : gmap COutPoint Coin) (tx : CTransaction) : Prop :=
  Z.of_nat (length (vout tx)) < 2 ^ 32 /\ Forall (fun o => 0 <= nValue o) (vout tx) /\
  (forall j, u !! (GetHash tx, j) = None) /\
  (IsCoinBase tx = false -> NoDup (map prevout (vin tx)) /\ Forall (fun i => is_Some (u !! prevout i)) (vin tx)).

(** The coins after the transaction, and what it needs to come off again. *)
Definition connect_coins (height : Z) (tx : CTransaction) (u : gmap COutPoint Coin) : gmap COutPoint Coin :=
  add_outputs (GetHash tx) height (IsCoinBase tx) 0 (vout tx) (if IsCoinBase tx then u else spend_all u (vin tx)).

Definition undo_of (tx : CTransaction) (u : gmap COutPoint Coin) : CTxUndo := if IsCoinBase tx then [] else spent u (vin tx).

Lemma not_null o : 0 <= nValue o -> CTxOut_IsNull o = false.
Proof using HPL. intros Ho. destruct (CTxOut_IsNull o) eqn:E; [|reflexivity]. apply null_value in E. lia. Qed.

Lemma UpdateCoins_spec (c : cache) tx height : view_ok c -> tx_fits (coins c) tx -> exists c',
  UpdateCoins tx height c = (Ok (undo_of tx (coins c)), c') /\ view_ok c' /\ best c' = best c /\ coins c' = connect_coins height tx (coins c).
Proof using HPL HVL.
  intros Hok (Hlen & Hnn & Hnew & Hins). unfold UpdateCoins, undo_of, connect_coins, mbind, stm_bind.
  assert (G : exists c1, (if negb (IsCoinBase tx) then spend_inputs (vin tx) else mret []) c = (Ok (if IsCoinBase tx then [] else spent (coins c) (vin tx)), c1) /\
    view_ok c1 /\ best c1 = best c /\ coins c1 = if IsCoinBase tx then coins c else spend_all (coins c) (vin tx)).
  { destruct (IsCoinBase tx); cbn [negb]; [exists c; auto|]. destruct (Hins eq_refl) as [Hnd Hp]. apply spend_inputs_spec; auto. }
  destruct G as (c1 & E1 & O1 & B1 & C1). rewrite E1.
  destruct (AddCoins_loop_spec (GetHash tx) height (IsCoinBase tx) false (vout tx) 0 c1 O1) as (c2 & E2 & O2 & B2 & C2); [lia|lia| | |].
  - eapply Forall_impl; [exact Hnn|]. apply not_null.
  - right; right. intros j _. rewrite C1. destruct (IsCoinBase tx); [apply Hnew|]. rewrite lookup_spend_all, Hnew. destruct (decide _); reflexivity.
  - unfold AddCoins. rewrite E2. exists c2. split; [reflexivity|]. split; [exact O2|]. split; [congruence|]. rewrite C2, C1. reflexivity.
Qed.

(** ** Taking a transaction off *)

Lemma add_outputs_insert txid height cb i j outs x u : j < i ->
  add_outputs txid height cb i outs (<[(txid, j) := x]> u) = <[(txid, j) := x]> (add_outputs txid height cb i outs u).
Proof using.
  revert i u. induction outs as [|o outs IH]; intros i u Hj; cbn [add_outputs]; [reflexivity|].
  destruct (IsUnspendable _); [apply IH; lia|]. rewrite insert_insert_ne by (intros [= ?]; lia). apply IH. lia.
Qed.

Lemma add_outputs_lookup_below txid height cb i j outs u : j < i -> add_outputs txid height cb i outs u !! (txid, j) = u !! (txid, j).
Proof using.
  revert i u. induction outs as [|o outs IH]; intros i u Hj; cbn [add_outputs]; [reflexivity|]. rewrite IH by lia.
  destruct (IsUnspendable _); [reflexivity|]. apply lookup_insert_ne. intros [= ?]. lia.
Qed.

Lemma unspend_outputs_spec txid height cb ex outs i u (c : cache) : view_ok c -> in_u 31 height -> 0 <= i -> i + Z.of_nat (length outs) <= 2 ^ 32 ->
  (forall j, u !! (txid, j) = None) -> coins c = add_outputs txid height cb i outs u -> exists c',
  unspend_outputs txid height cb ex i outs c = (Ok true, c') /\ view_ok c' /\ coins c' = u.
Proof using HPL HVL.
  intros Hok Hh. revert i c Hok. induction outs as [|o outs IH]; intros i c Hok Hi Hlen Hnew Hc; cbn [unspend_outputs add_outputs length] in *.
  { exists c. auto. }
  unfold mbind, stm_bind. destruct (IsUnspendable (scriptPubKey o)); cbn [negb].
  { destruct (IH (i + 1) c Hok) as (c2 & E2 & O2 & C2); auto; try lia. cbn [mret stm_ret]. unfold mret, stm_ret. rewrite E2. exists c2. auto. }
  rewrite add_outputs_insert in Hc by lia. rewrite uwrap_small by (unfold in_u; lia).
  destruct (SpendCoin_spec c (txid, i) Hok) as (b & mv & c1 & E1 & O1 & _ & C1 & R1).
  destruct (R1 (Coin_make o height cb)) as [-> ->]; [rewrite Hc; apply lookup_insert_eq|]. rewrite E1. cbn [default].
  cbn [Coin_make out Coins.nHeight fCoinBase id from_option]. rewrite bool_decide_eq_true_2 by reflexivity. rewrite (uwrap_small 31 height Hh), Z.eqb_refl, eqb_reflx.
  cbn [negb orb]. unfold mret, stm_ret. destruct (IH (i + 1) c1 O1) as (c2 & E2 & O2 & C2); auto; try lia.
  - rewrite C1, Hc, delete_insert_id; [reflexivity|]. rewrite add_outputs_lookup_below by lia. apply Hnew.
  - rewrite E2. exists c2. auto.
Qed.

Lemma ApplyTxInUndo_spec txout_size (c : cache) op x : view_ok c -> coins c !! op = None -> Coins.nHeight x <> 0 -> IsSpent x = false ->
  IsUnspendable (scriptPubKey (out x)) = false -> exists c',
  ApplyTxInUndo txout_size x op c = (Ok DISCONNECT_OK, c') /\ view_ok c' /\ coins c' = <[op := x]> (coins c).
Proof using HPL HVL.
  intros Hok Hn Hh Hs Hu. unfold ApplyTxInUndo, mbind, stm_bind.
  destruct (HaveCoin_spec c op Hok) as (c1 & E1 & C1 & B1 & O1). rewrite Hn in E1. rewrite E1.
  destruct (Z.eqb_spec (Coins.nHeight x) 0); [contradiction|]. unfold mret, stm_ret.
  rewrite bool_decide_eq_false_2 by (intros [? ?]; discriminate). cbn [negb].
  destruct (AddCoin_spec c1 op x false O1 Hs) as (c2 & E2 & O2 & B2 & C2); [right; congruence|]. rewrite E2. rewrite Hu in C2.
  exists c2. split; [reflexivity|]. split; [exact O2|]. congruence.
Qed.

Definition insert_all (u : gmap COutPoint Coin) (l : list (CTxIn * Coin)) : gmap COutPoint Coin :=
  foldl (fun u p => <[prevout (fst p) := snd p]> u) u l.

Lemma restore_inputs_spec txout_size l f (c : cache) : view_ok c -> NoDup (map (fun p => prevout (fst p)) l) ->
  Forall (fun p => coins c !! prevout (fst p) = None /\ Coins.nHeight (snd p) <> 0 /\ IsSpent (snd p) = false /\
    IsUnspendable (scriptPubKey (out (snd p))) = false) l -> exists c',
  restore_inputs txout_size l f c = (Ok (Some f), c') /\ view_ok c' /\ coins c' = insert_all (coins c) l.
Proof using HPL HVL.
  revert f c. induction l as [|[i x] l IH]; intros f c Hok Hnd Hl; cbn [restore_inputs]; [exists c; auto|].
  apply NoDup_cons in Hnd as [Hni Hnd]. apply Forall_cons in Hl as [(Hn & Hh & Hs & Hu) Hl]. cbn [fst snd] in *.
  destruct (ApplyTxInUndo_spec txout_size c (prevout i) x Hok Hn Hh Hs Hu) as (c1 & E1 & O1 & C1).
  unfold mbind, stm_bind. rewrite E1. cbn [bool_decide decide]. rewrite !bool_decide_eq_false_2 by discriminate. cbn [negb]. rewrite andb_true_r.
  destruct (IH f c1 O1 Hnd) as (c2 & E2 & O2 & C2).
  - apply Forall_forall. intros [j y] Hj. destruct (proj1 (Forall_forall _ _) Hl _ Hj) as (Hn' & Hrest). cbn [fst snd] in *.
    split; [|exact Hrest]. rewrite C1, lookup_insert_ne; [exact Hn'|]. intros E. apply Hni. rewrite E.
    apply list_elem_of_In, in_map_iff. exists (j, y). split; [reflexivity|apply list_elem_of_In, Hj].
  - exists c2. rewrite E2, C2, C1. auto.
Qed.

Lemma lookup_insert_all u l op : NoDup (map (fun p => prevout (fst p)) l) ->
  (op ∉ map (fun p => prevout (fst p)) l -> insert_all u l !! op = u !! op) /\
  (forall p, p ∈ l -> prevout (fst p) = op -> insert_all u l !! op = Some (snd p)).
Proof using.
  revert u. induction l as [|[i x] l IH]; intros u Hnd; cbn [insert_all foldl map].
  { split; [reflexivity|]. intros p Hp. destruct (not_elem_of_nil _ Hp). }
  apply NoDup_cons in Hnd as [Hni Hnd]. cbn [fst snd] in *. destruct (IH (<[prevout i := x]> u) Hnd) as [I1 I2].
  change (foldl _ (<[prevout i := x]> u) l) with (insert_all (<[prevout i := x]> u) l). split.
  - intros Hn. apply not_elem_of_cons in Hn as [Hne Hn]. rewrite I1 by exact Hn. apply lookup_insert_ne. auto.
  - intros p Hp Ep. apply elem_of_cons in Hp as [->|Hp]; [|apply I2; auto].
    cbn [fst snd] in *. subst op. rewrite I1 by exact Hni. apply lookup_insert_eq.
Qed.

(** Putting the spent coins back gives the coins before. *)
Lemma restore_spent u ins : NoDup (map prevout ins) -> Forall (fun i => is_Some (u !! prevout i)) ins ->
  insert_all (spend_all u ins) (rev (zip ins (spent u ins))) = u.
Proof using HP.
  intros Hnd Hin. assert (Ez : zip ins (spent u ins) = map (fun i => (i, default coinEmpty (u !! prevout i))) ins).
  { clear Hnd. induction ins as [|i ins IH]; [reflexivity|]. apply Forall_cons in Hin as [[x Ex] Hin].
    rewrite (spent_cons _ _ _ _ Ex). cbn. rewrite Ex, IH by exact Hin. reflexivity. }
  assert (Ek : map (fun p : CTxIn * Coin => prevout (fst p)) (rev (zip ins (spent u ins))) = rev (map prevout ins)).
  { rewrite map_rev, Ez, map_map. reflexivity. }
  assert (Hnd' : NoDup (map (fun p : CTxIn * Coin => prevout (fst p)) (rev (zip ins (spent u ins))))).
  { rewrite Ek. apply NoDup_ListNoDup, NoDup_rev, NoDup_ListNoDup. exact Hnd. }
  apply map_eq. intros op. destruct (lookup_insert_all (spend_all u ins) _ op Hnd') as [I1 I2].
  destruct (decide (op ∈ map prevout ins)) as [Hop|Hop].
  - apply list_elem_of_In, in_map_iff in Hop as (i & <- & Hi). apply list_elem_of_In in Hi.
    destruct (proj1 (Forall_forall _ _) Hin i Hi) as [x Ex]. rewrite Ex.
    apply (I2 (i, x)); [|reflexivity]. apply list_elem_of_In, in_rev. rewrite rev_involutive, Ez. apply in_map_iff.
    exists i. rewrite Ex. split; [reflexivity|apply list_elem_of_In, Hi].
  - rewrite I1, lookup_spend_all, decide_False by (rewrite ?Ek; try exact Hop; rewrite list_elem_of_In, <- in_rev, <- list_elem_of_In; exact Hop).
    reflexivity.
Qed.

Lemma connect_coins_ok height tx u : in_u 31 height -> 1 <= height -> tx_fits u tx -> coins_ok height u ->
  coins_ok height (connect_coins height tx u).
Proof using.
  intros Hh H1 (_ & Hn & _) Hu. apply add_outputs_ok; auto. destruct (IsCoinBase tx); [exact Hu|apply spend_all_ok, Hu].
Qed.

Lemma coins_ok_restorable top u ins : coins_ok top u -> Forall (fun i => is_Some (u !! prevout i)) ins ->
  Forall (fun x => Coins.nHeight x <> 0 /\ IsSpent x = false /\ IsUnspendable (scriptPubKey (out x)) = false) (spent u ins).
Proof using HPL.
  intros Hu. induction 1 as [|i ins [x Ex] Hin IH]; [constructor|]. rewrite (spent_cons _ _ _ _ Ex). constructor; [|exact IH].
  destruct (Hu _ _ Ex) as (Hh & Hv & Hs). split; [lia|]. split; [apply not_null, Hv|exact Hs].
Qed.

Lemma spent_length u ins : Forall (fun i => is_Some (u !! prevout i)) ins -> length (spent u ins) = length ins.
Proof using. induction 1 as [|i ins [x Ex] Hin IH]; [reflexivity|]. rewrite (spent_cons _ _ _ _ Ex). cbn. rewrite IH. reflexivity. Qed.

(** The undo record of a transaction as the block's undo data keeps it: none for the coinbase. *)
Definition kept_undo (tx : CTransaction) (u : gmap COutPoint Coin) : option CTxUndo :=
  if IsCoinBase tx then None else Some (undo_of tx u).

Lemma disconnect_tx_spec txout_size height bip30 tx u f (c : cache) : view_ok c -> in_u 31 height -> coins_ok height u -> tx_fits u tx ->
  coins c = connect_coins height tx u -> exists c',
  disconnect_tx txout_size height bip30 tx (kept_undo tx u) f c = (Ok (Some f), c') /\ view_ok c' /\ coins c' = u.
Proof using HPL HVL.
  intros Hok Hh Hu (Hlen & Hn & Hnew & Hins) Hc. unfold disconnect_tx, mbind, stm_bind, kept_undo, undo_of. unfold connect_coins in Hc.
  set (u1 := if IsCoinBase tx then u else spend_all u (vin tx)) in *.
  assert (Hu1 : forall j, u1 !! (GetHash tx, j) = None).
  { intros j. unfold u1. destruct (IsCoinBase tx); [apply Hnew|]. rewrite lookup_spend_all, Hnew. destruct (decide _); reflexivity. }
  destruct (unspend_outputs_spec (GetHash tx) height (IsCoinBase tx) (IsCoinBase tx && negb bip30) (vout tx) 0 u1 c Hok Hh) as (c1 & E1 & O1 & C1); auto; try lia.
  rewrite E1, andb_true_r. unfold u1 in C1. destruct (IsCoinBase tx); [exists c1; auto|].
  destruct (Hins eq_refl) as [Hnd Hp]. rewrite (spent_length _ _ Hp), Nat.eqb_refl. cbn [negb].
  assert (Ek : map (fun p : CTxIn * Coin => prevout (fst p)) (rev (zip (vin tx) (spent u (vin tx)))) = rev (map prevout (vin tx))).
  { rewrite map_rev. f_equal. transitivity (map prevout (map fst (zip (vin tx) (spent u (vin tx))))); [rewrite map_map; reflexivity|].
    f_equal. change (zip (vin tx) (spent u (vin tx))).*1 with (map fst (zip (vin tx) (spent u (vin tx)))). apply fst_zip. rewrite (spent_length _ _ Hp). lia. }
  destruct (restore_inputs_spec txout_size (rev (zip (vin tx) (spent u (vin tx)))) f c1 O1) as (c2 & E2 & O2 & C2).
  - rewrite Ek. apply NoDup_ListNoDup, NoDup_rev, NoDup_ListNoDup, Hnd.
  - apply Forall_forall. intros [i x] Hix. apply list_elem_of_In, in_rev, list_elem_of_In in Hix. cbn [fst snd]. split.
    + rewrite C1, lookup_spend_all, decide_True; [reflexivity|]. apply list_elem_of_In, in_map, list_elem_of_In. eapply elem_of_zip_l, Hix.
    + pose proof (coins_ok_restorable _ _ _ Hu Hp) as Hr. rewrite Forall_forall in Hr. apply Hr. eapply elem_of_zip_r, Hix.
  - exists c2. rewrite E2, C2, C1. split; [reflexivity|]. split; [exact O2|]. apply restore_spent; auto.
Qed.

(** ** A whole block *)

Fixpoint connect_all (height : Z) (txs : list CTransaction) (u : gmap COutPoint Coin) : gmap COutPoint Coin :=
  match txs with [] => u | tx :: rest => connect_all height rest (connect_coins height tx u) end.

Fixpoint fits_all (height : Z) (txs : list CTransaction) (u : gmap COutPoint Coin) : Prop :=
  match txs with [] => True | tx :: rest => tx_fits u tx /\ fits_all height rest (connect_coins height tx u) end.

Fixpoint undos_of (height : Z) (txs : list CTransaction) (u : gmap COutPoint Coin) : list CTxUndo :=
  match txs with [] => [] | tx :: rest => undo_of tx u :: undos_of height rest (connect_coins height tx u) end.

Fixpoint kept_undos (height : Z) (txs : list CTransaction) (u : gmap COutPoint Coin) : list (CTransaction * option CTxUndo) :=
  match txs with [] => [] | tx :: rest => (tx, kept_undo tx u) :: kept_undos height rest (connect_coins height tx u) end.

Lemma disconnect_loop_app txout_size height bip30 l1 l2 f (c : cache) :
  disconnect_loop txout_size height bip30 (l1 ++ l2) f c =
  (r ← disconnect_loop txout_size height bip30 l1 f;
   match r with None => mret None | Some f => disconnect_loop txout_size height bip30 l2 f end) c.
Proof using.
  revert f c. induction l1 as [|[tx undo] l1 IH]; intros f c; cbn [app disconnect_loop]; [reflexivity|].
  unfold mbind, stm_bind. destruct (disconnect_tx _ _ _ _ _ _ _) as [[[f1|]|e] c1]; [|reflexivity|reflexivity].
  rewrite IH. reflexivity.
Qed.

Lemma disconnect_loop_spec txout_size height bip30 txs f u (c : cache) : view_ok c -> in_u 31 height -> 1 <= height -> coins_ok height u ->
  fits_all height txs u -> coins c = connect_all height txs u -> exists c',
  disconnect_loop txout_size height bip30 (rev (kept_undos height txs u)) f c = (Ok (Some f), c') /\ view_ok c' /\ coins c' = u.
Proof using HPL HVL.
  intros Hok Hh H1. revert f u c Hok. induction txs as [|tx txs IH]; intros f u c Hok Hu Hfit Hc; cbn [kept_undos connect_all fits_all rev] in *; [exists c; auto|].
  destruct Hfit as [Htx Hfit]. rewrite disconnect_loop_app. unfold mbind at 1, stm_bind at 1.
  destruct (IH f _ c Hok (connect_coins_ok _ _ _ Hh H1 Htx Hu) Hfit Hc) as (c1 & E1 & O1 & C1). rewrite E1.
  destruct (disconnect_tx_spec txout_size height bip30 tx u f c1 O1 Hh Hu Htx C1) as (c2 & E2 & O2 & C2).
  cbn [disconnect_loop]. unfold mbind, stm_bind. rewrite E2. exists c2. auto.
Qed.

Lemma kept_undos_zip height txs u : Forall (fun tx => IsCoinBase tx = false) txs ->
  kept_undos height txs u = zip txs (map Some (undos_of height txs u)).
Proof using.
  intros Hcb. revert u. induction Hcb as [|tx txs Htx Hcb IH]; intros u; [reflexivity|]. cbn. unfold kept_undo. rewrite Htx, IH. reflexivity.
Qed.

Lemma undos_of_length height txs u : length (undos_of height txs u) = length txs.
Proof using. revert u. induction txs as [|tx txs IH]; intros u; cbn; [|rewrite IH]; reflexivity. Qed.

(** [DisconnectBlock] on the undo data that connecting the block left. *)
Lemma DisconnectBlock_spec (txout_size : Z) (h : heap) (pindex q : ptr) (b bq : CBlockIndex) (hq : uint256) (coinbase : CTransaction)
    (rest : list CTransaction) (u : gmap COutPoint Coin) (unspendable : bool) (c : cache) :
  view_ok c -> h !! pindex = Some b -> pprev b = Some q -> h !! q = Some bq -> GetBlockHash bq = Ok hq -> IsBIP30Unspendable b = Ok unspendable ->
  in_u 31 (Chain.nHeight b) -> 1 <= Chain.nHeight b -> le_val 8 hq <> 0 ->
  coins_ok (Chain.nHeight b) u -> IsCoinBase coinbase = true -> Forall (fun tx => IsCoinBase tx = false) rest ->
  fits_all (Chain.nHeight b) (coinbase :: rest) u -> coins c = connect_all (Chain.nHeight b) (coinbase :: rest) u -> exists c',
  DisconnectBlock txout_size h pindex (coinbase :: rest) (Some (tail (undos_of (Chain.nHeight b) (coinbase :: rest) u))) c
    = (Ok DISCONNECT_OK, c') /\ view_ok c' /\ coins c' = u /\ best c' = le_val 8 hq /\ hashBlock c' = le_val 8 hq.
Proof using HPL HVL.
  intros Hok Hb Hq Hbq Ehq Hun Hh H1 Hq0 Hu Hcb Hrest Hfit Hc. unfold DisconnectBlock. cbn [undos_of tail].
  rewrite undos_of_length, Nat.add_1_r. cbn [length]. rewrite Nat.eqb_refl. cbn [negb].
  unfold mbind, stm_bind, lift_st, deref. rewrite Hb. cbn [access]. rewrite Hun.
  destruct (disconnect_loop_spec txout_size (Chain.nHeight b) (negb unspendable) (coinbase :: rest) true u c Hok Hh H1 Hu Hfit Hc) as (c1 & E1 & O1 & C1).
  cbn [kept_undos] in E1. rewrite kept_undos_zip in E1 by exact Hrest. unfold kept_undo in E1. rewrite Hcb in E1.
  cbn [zip zip_with]. unfold mbind, stm_bind in E1. rewrite E1. rewrite Hq. cbn [access]. rewrite Hbq. cbn [access]. rewrite Ehq.
  eexists. split; [reflexivity|]. cbn. destruct (Z.eqb_spec (le_val 8 hq) 0); [contradiction|]. auto.
Qed.
End Moves.

(** * [ConnectBlock] as a whole

    A block that is connected moves the coins exactly as its transactions say,
    creates at most the subsidy, and comes off again with the undo data it
    left.  The proofs follow the code: each check that only reads the view is
    shown to keep it, then one transaction, the loop, and the block. *)

Lemma MAX_MONEY_val : MAX_MONEY = 121300000000000000.
Proof. reflexivity. Qed.
Opaque MAX_MONEY.

Section Reads.
Context {HP : Primitives} {HPL : PrimitivesLaws} {V : Type} {HV : CCoinsView V} {HA : ViewAbs V} {HVL : ViewLaws V}.
Context {HT : TxEnv} {HC : ConnectEnv}.
Notation cache := (CCoinsViewCache V).

(** [m] returns [Q] and leaves the coins as they were. *)
Definition reads {A} (m : stm cache A) (c : cache) (Q : A -> Prop) : Prop :=
  exists a c', m c = (Ok a, c') /\ same_view c c' /\ Q a.

Lemma reads_ret {A} (a : A) c (Q : A -> Prop) : view_ok c -> Q a -> reads (mret a) c Q.
Proof using. intros Hok Ha. exists a, c. split; [reflexivity|]. split; [apply same_view_refl, Hok|exact Ha]. Qed.

Lemma reads_bind {A B} (m : stm cache A) (k : A -> stm cache B) c (P : A -> Prop) (Q : B -> Prop) :
  reads m c P -> (forall a c', same_view c c' -> P a -> reads (k a) c' Q) -> reads (m ≫= k) c Q.
Proof using.
  intros (a & c1 & E1 & S1 & Pa) Hk. destruct (Hk a c1 S1 Pa) as (x & c2 & E2 & S2 & Qx).
  exists x, c2. unfold mbind, stm_bind. rewrite E1. split; [exact E2|]. split; [eapply same_view_trans; eauto|exact Qx].
Qed.

Lemma reads_lift {A B} (r : res A) a (k : A -> stm cache B) c (Q : B -> Prop) : r = Ok a -> reads (k a) c Q -> reads (lift_st r ≫= k) c Q.
Proof using. intros -> Hk. exact Hk. Qed.

Lemma reads_mono {A} (m : stm cache A) c (P Q : A -> Prop) : reads m c P -> (forall a, P a -> Q a) -> reads m c Q.
Proof using. intros (a & c' & E & S & Pa) H. exists a, c'. auto. Qed.

Lemma reads_AccessCoin c op : view_ok c -> reads (AccessCoin op) c (fun x => live x = coins c !! op).
Proof using HPL HVL. intros Hok. destruct (AccessCoin_spec c op Hok) as (x & c' & E & S & L). exists x, c'. auto. Qed.

Lemma live_some x y : live x = Some y -> x = y /\ negb (IsSpent x) = true.
Proof using. unfold live. destruct (IsSpent x); [discriminate|]. intros [= <-]. auto. Qed.

(** An input whose coin exists: the accesses of the loops do not fail. *)
Lemma reads_input {B} c op (k : Coin -> stm cache B) (Q : B -> Prop) : view_ok c -> is_Some (coins c !! op) ->
  (forall x c', same_view c c' -> coins c !! op = Some x -> reads (k x) c' Q) ->
  reads (x ← AccessCoin op; _ ← lift_st (assert_ (negb (IsSpent x))); k x) c Q.
Proof using HPL HVL.
  intros Hok [y Ey] Hk. eapply reads_bind; [apply reads_AccessCoin, Hok|]. intros x c' S L. rewrite Ey in L.
  apply live_some in L as [-> L]. apply (reads_lift _ tt); [apply assert_Ok, L|]. apply Hk; assumption.
Qed.

Definition have_all (c : cache) (ins : list CTxIn) : Prop := Forall (fun i => is_Some (coins c !! prevout i)) ins.

Lemma have_all_same c c' ins : same_view c c' -> have_all c ins -> have_all c' ins.
Proof using. unfold have_all. intros (-> & _). auto. Qed.

Lemma same_ok (c c' : cache) : same_view c c' -> view_ok c'.
Proof using. intros (_ & _ & H). exact H. Qed.

Lemma p2sh_sigops_reads ins n c : view_ok c -> have_all c ins -> reads (p2sh_sigops_loop ins n) c (fun _ => True).
Proof using HPL HVL.
  revert n c. induction ins as [|i ins IH]; intros n c Hok Hin; cbn [p2sh_sigops_loop]; [apply reads_ret; auto|].
  pose proof Hin as Hall. apply Forall_cons in Hin as [Hi Hin]. apply reads_input; [exact Hok|exact Hi|]. intros x c' S _.
  apply IH; [eapply same_ok, S|eapply have_all_same; eauto].
Qed.

Lemma witness_sigops_reads tx vflags k ins n c : view_ok c -> have_all c ins -> reads (witness_sigops_loop tx vflags k ins n) c (fun _ => True).
Proof using HPL HVL.
  revert k n c. induction ins as [|i ins IH]; intros k n c Hok Hin; cbn [witness_sigops_loop]; [apply reads_ret; auto|].
  pose proof Hin as Hall. apply Forall_cons in Hin as [Hi Hin]. apply reads_input; [exact Hok|exact Hi|]. intros x c' S _.
  apply IH; [eapply same_ok, S|eapply have_all_same; eauto].
Qed.

Lemma sigop_cost_reads tx vflags c : view_ok c -> (IsCoinBase tx = false -> have_all c (vin tx)) ->
  reads (GetTransactionSigOpCost tx vflags) c (fun _ => True).
Proof using HPL HVL.
  intros Hok Hin. unfold GetTransactionSigOpCost, GetP2SHSigOpCount. destruct (IsCoinBase tx); [apply reads_ret; auto|]. specialize (Hin eq_refl).
  apply (reads_bind _ _ _ (fun _ => True)).
  - destruct (negb _); [|apply reads_ret; auto].
    eapply reads_bind; [apply p2sh_sigops_reads; auto|]. intros n c' S _. apply reads_ret; [eapply same_ok, S|auto].
  - intros n c' S _. apply witness_sigops_reads; [eapply same_ok, S|eapply have_all_same; eauto].
Qed.

Lemma gather_spent_reads ins c : view_ok c -> have_all c ins -> reads (gather_spent ins) c (fun l => length l = length ins).
Proof using HPL HVL.
  revert c. induction ins as [|i ins IH]; intros c Hok Hin; cbn [gather_spent]; [apply reads_ret; auto|].
  pose proof Hin as Hall. apply Forall_cons in Hin as [Hi Hin]. apply reads_input; [exact Hok|exact Hi|]. intros x c' S _.
  eapply reads_bind; [apply IH; [eapply same_ok, S|eapply have_all_same; eauto]|].
  intros l c2 S2 El. apply reads_ret; [eapply same_ok, S2|cbn; congruence].
Qed.

Lemma CheckInputScripts_reads tx st vflags parallel c : view_ok c -> have_all c (vin tx) -> reads (CheckInputScripts tx st vflags parallel) c (fun _ => True).
Proof using HPL HVL.
  intros Hok Hin. unfold CheckInputScripts. destruct (IsCoinBase tx); [apply reads_ret; auto|]. destruct (script_cached tx vflags); [apply reads_ret; auto|].
  eapply reads_bind; [apply gather_spent_reads; auto|]. intros l c' S El. apply (reads_lift _ tt); [apply assert_Ok, Nat.eqb_eq, El|].
  destruct parallel; (apply reads_ret; [eapply same_ok, S|auto]).
Qed.

Lemma coin_heights_reads ins c : view_ok c -> have_all c ins -> reads (coin_heights ins) c (fun l => l = map Coins.nHeight (spent (coins c) ins)).
Proof using HPL HVL.
  revert c. induction ins as [|i ins IH]; intros c Hok Hin; cbn [coin_heights]; [apply reads_ret; auto|].
  pose proof Hin as Hall. apply Forall_cons in Hin as [[x Ex] Hin].
  eapply reads_bind; [apply reads_AccessCoin, Hok|]. intros y c' S L. cbv beta in L. rewrite Ex in L. apply live_some in L as [-> _].
  eapply reads_bind; [apply IH; [eapply same_ok, S|eapply have_all_same; eauto]|].
  intros l c2 S2 El. apply reads_ret; [eapply same_ok, S2|]. rewrite El. destruct S as (-> & _). rewrite (spent_cons _ _ _ _ Ex). reflexivity.
Qed.

Lemma bip30_outputs_reads txid o outs c : view_ok c -> reads (bip30_outputs txid o outs) c (fun _ => True).
Proof using HVL.
  revert o c. induction outs as [|x outs IH]; intros o c Hok; cbn [bip30_outputs]; [apply reads_ret; auto|].
  destruct (HaveCoin_spec c (txid, u32 o) Hok) as (c' & E & S).
  apply (reads_bind _ _ _ (fun _ => True)); [eexists _, c'; split; [exact E|auto]|].
  intros [] c2 S2 _; [apply reads_ret; [eapply same_ok, S2|auto]|apply IH; eapply same_ok, S2].
Qed.

Lemma bip30_loop_reads txs c : view_ok c -> reads (bip30_loop txs) c (fun _ => True).
Proof using HVL.
  revert c. induction txs as [|x txs IH]; intros c Hok; cbn [bip30_loop]; [apply reads_ret; auto|].
  eapply reads_bind; [apply bip30_outputs_reads, Hok|].
  intros [] c2 S2 _; [apply reads_ret; [eapply same_ok, S2|auto]|apply IH; eapply same_ok, S2].
Qed.

(** ** One transaction *)

Context {HTL : TxEnvLaws} {HE : LockEnv} {HL : LockEnvLaws}.
Context (h : heap) (Hwf : tree_wf h) (pindex q : ptr) (b : CBlockIndex) (Hb : h !! pindex = Some b) (Hq : pprev b = Some q).
Context (Hlow : Chain.nHeight b < 2 ^ 30).
Notation height := (Chain.nHeight b).

(** What the checks before the scripts establish for a transaction with inputs. *)
Definition paid (u : gmap COutPoint Coin) (tx : CTransaction) (f f' : Z) : Prop :=
  Forall (fun i => is_Some (u !! prevout i)) (vin tx) /\ 0 <= f' <= MAX_MONEY /\
  total (map out (spent u (vin tx))) = total (vout tx) + (f' - f).

#[local] Instance inputs_pay_dec u ht tx : Decision (inputs_pay u ht tx).
Proof using. unfold inputs_pay. apply _. Defined.

Lemma block_height_pos : 1 <= height.
Proof using Hwf Hb Hq.
  destruct (ok_prev _ _ _ (Hwf pindex b Hb) q Hq) as (bq & Hbq & E). destruct (ok_height _ _ _ (Hwf q bq Hbq)). lia.
Qed.

Lemma coins_ok_heights u : coins_ok height u -> heights_ok u.
Proof using Hlow. intros Hu op x Ex. destruct (Hu op x Ex) as (Hh & _). unfold in_u. cbn. lia. Qed.

Lemma connect_inputs_reads lflags tx f c : view_ok c -> coins_ok height (coins c) -> tx_wellformed tx -> IsCoinBase tx = false -> 0 <= f <= MAX_MONEY ->
  reads (connect_inputs h pindex height lflags tx f) c (fun r => forall f', r = inl f' -> paid (coins c) tx f f').
Proof using All.
  intros Hok Hu (_ & _ & _ & Hvo & Hto & _) Hcb Hf. unfold connect_inputs.
  pose proof block_height_pos as Hpos.
  destruct (CheckTxInputs_spec tx (fresh_state TX_RESULT_UNSET) height c Hok (coins_ok_heights _ Hu)) as (ok & st & fee & c1 & E1 & S1 & A1 & A2); auto.
  { unfold in_u. lia. }
  apply (reads_bind _ _ _ (fun r => (fst (fst r) = true -> inputs_pay (coins c) height tx /\
    exists g, snd r = Some g /\ 0 <= g /\ total (map out (spent (coins c) (vin tx))) = total (vout tx) + g))).
  { eexists _, c1. split; [exact E1|]. split; [exact S1|]. cbn [fst snd]. intros ->.
    destruct (decide (inputs_pay (coins c) height tx)) as [Hp|Hp]; [|destruct (A2 Hp); discriminate].
    split; [exact Hp|]. apply (A1 Hp). }
  clear A1 A2 E1 S1 c1 st ok fee. intros [[ok st] fee] c1 S1 HA1. cbn [fst snd] in HA1. pose proof (same_ok _ _ S1) as O1.
  destruct ok; cbn [negb]; [|apply reads_ret; [exact O1|discriminate]].
  destruct (HA1 eq_refl) as [(Hall & Hsp & Hsum & _) (g & -> & Hg & Eg)]. cbn [default from_option id]. change (id g) with g.
  assert (0 <= total (vout tx)) by (apply total_nonneg; eapply Forall_impl; [exact Hvo|]; cbn; lia).
  rewrite swrap_small by (rewrite ?MAX_MONEY_val in *; try lia; cbn; word_lia).
  destruct (MoneyRange (f + g)) eqn:Hm; cbn [negb]; [|apply reads_ret; [exact O1|discriminate]]. apply MoneyRange_spec in Hm.
  eapply reads_bind; [apply coin_heights_reads; [exact O1|eapply have_all_same; [exact S1|exact Hall]]|].
  intros hs c2 S2 Ehs. cbv beta in Ehs. destruct S1 as (C1 & _). rewrite C1 in Ehs.
  destruct (SequenceLocks_spec h pindex q b tx lflags hs Hwf Hb Hq Hlow) as (time & final & _ & El & _).
  { rewrite Ehs, length_map. apply spent_length, Hall. }
  { rewrite Ehs. apply Forall_map, Forall_forall. intros x Hx. unfold spent in Hx. apply list_elem_of_omap in Hx as (i & _ & Hx).
    destruct (Hu _ _ Hx) as (Hh & _). cbn. lia. }
  apply (reads_lift _ final); [exact El|]. pose proof (same_ok _ _ S2) as O2.
  destruct final; cbn [negb]; (apply reads_ret; [exact O2|]); intros f' [= <-]. split; [exact Hall|]. lia.
Qed.

Definition minted (tx : CTransaction) : Z := if IsCoinBase tx then total (vout tx) else 0.

(** A connected transaction creates what it mints less the fee it leaves. *)
Lemma value_connect_coins tx u f f' : tx_fits u tx -> (IsCoinBase tx = false -> paid u tx f f') -> (IsCoinBase tx = true -> f' = f) ->
  value (connect_coins height tx u) + f' <= value u + f + minted tx.
Proof using.
  intros (_ & Hn & Hnew & Hins) Hp Hf. unfold connect_coins, minted. destruct (IsCoinBase tx).
  - rewrite (Hf eq_refl). pose proof (value_add_outputs (GetHash tx) height true 0 (vout tx) u Hn ltac:(auto)). lia.
  - destruct (Hp eq_refl) as (Hall & _ & E). destruct (Hins eq_refl) as [Hnd _].
    pose proof (value_add_outputs (GetHash tx) height false 0 (vout tx) (spend_all u (vin tx)) Hn) as Hv.
    rewrite value_spend_all in Hv by assumption.
    assert (Hs : forall j, 0 <= j -> spend_all u (vin tx) !! (GetHash tx, j) = None)
      by (intros j _; rewrite lookup_spend_all, Hnew; destruct (decide _); reflexivity).
    specialize (Hv Hs). lia.
Qed.

Definition fresh_tx (u : gmap COutPoint Coin) (tx : CTransaction) : Prop := forall j, u !! (GetHash tx, j) = None.
Definition countable_outputs (tx : CTransaction) : Prop := Z.of_nat (length (vout tx)) < 2 ^ 32.

Lemma fits_intro u tx f f' : tx_wellformed tx -> countable_outputs tx -> fresh_tx u tx -> (IsCoinBase tx = false -> paid u tx f f') -> tx_fits u tx.
Proof using.
  intros (_ & _ & _ & Hvo & _ & Hnd & _) Hl Hnew Hp. split; [exact Hl|]. split; [eapply Forall_impl; [exact Hvo|]; cbn; lia|].
  split; [exact Hnew|]. intros Hcb. destruct (Hp Hcb) as (Hall & _). auto.
Qed.

Lemma connect_tx_spec lflags vflags scripts parallel tx f sigops c : view_ok c -> coins_ok height (coins c) -> tx_wellformed tx -> countable_outputs tx ->
  fresh_tx (coins c) tx -> 0 <= f <= MAX_MONEY -> exists r c',
  connect_tx h pindex height lflags vflags scripts parallel tx f sigops c = (Ok r, c') /\ view_ok c' /\
  forall f' sigops' undo checks, r = inl (f', sigops', undo, checks) -> tx_fits (coins c) tx /\ coins c' = connect_coins height tx (coins c) /\
    best c' = best c /\ undo = undo_of tx (coins c) /\ 0 <= f' <= MAX_MONEY /\
    value (coins c') + f' <= value (coins c) + f + minted tx.
Proof using All.
  intros Hok Hu Hw Hl Hnew Hf. unfold connect_tx.
  assert (G : reads (if negb (IsCoinBase tx) then connect_inputs h pindex height lflags tx f else mret (inl f)) c
    (fun r => forall f', r = inl f' -> 0 <= f' <= MAX_MONEY /\ (IsCoinBase tx = false -> paid (coins c) tx f f') /\ (IsCoinBase tx = true -> f' = f))).
  { destruct (IsCoinBase tx) eqn:Hcb; cbn [negb].
    - apply reads_ret; [exact Hok|]. intros f' [= <-]. split; [exact Hf|]. split; [discriminate|auto].
    - eapply reads_mono; [apply connect_inputs_reads; auto|]. intros r Hr f' E. pose proof (Hr f' E) as Hp. split; [apply Hp|]. split; [auto|discriminate]. }
  destruct G as (r1 & c1 & E1 & S1 & R1). unfold mbind at 1, stm_bind at 1. rewrite E1. pose proof (same_ok _ _ S1) as O1.
  destruct r1 as [f1|reason]; [|eexists _, c1; split; [reflexivity|]; split; [exact O1|discriminate]].
  destruct (R1 f1 eq_refl) as (Hf1 & Hp & Hcbf). clear R1.
  assert (Hfit : tx_fits (coins c) tx) by (eapply fits_intro; eauto).
  assert (Hh1 : IsCoinBase tx = false -> have_all c1 (vin tx)) by (intros E; apply (have_all_same c); [exact S1|apply (Hp E)]).
  destruct (sigop_cost_reads tx vflags c1 O1 Hh1) as (cost & c2 & E2 & S2 & _). unfold mbind at 1, stm_bind at 1. rewrite E2.
  pose proof (same_ok _ _ S2) as O2. destruct (_ >? _); [eexists _, c2; split; [reflexivity|]; split; [exact O2|discriminate]|].
  assert (G : reads (if (negb (IsCoinBase tx) && scripts)%bool then CheckInputScripts tx (fresh_state TX_RESULT_UNSET) vflags parallel
     else mret (true, fresh_state TX_RESULT_UNSET, [])) c2 (fun _ => True)).
  { destruct (IsCoinBase tx) eqn:Hcb; cbn [negb andb]; [apply reads_ret; auto|]. destruct scripts; [|apply reads_ret; auto].
    apply CheckInputScripts_reads; [exact O2|apply (have_all_same c1); auto]. }
  destruct G as ([[ok st] checks] & c3 & E3 & S3 & _). unfold mbind at 1, stm_bind at 1. rewrite E3. pose proof (same_ok _ _ S3) as O3.
  destruct ok; cbn [negb]; [|eexists _, c3; split; [reflexivity|]; split; [exact O3|discriminate]].
  assert (S : same_view c c3) by (eapply same_view_trans; [|exact S3]; eapply same_view_trans; eauto). destruct S as (C3 & B3 & _).
  destruct (UpdateCoins_spec c3 tx height O3) as (c4 & E4 & O4 & B4 & C4); [rewrite C3; exact Hfit|].
  unfold mbind, stm_bind. rewrite E4. eexists _, c4. split; [reflexivity|]. split; [exact O4|].
  intros f' sg undo ck [= <- _ <- _]. rewrite C4, C3. split; [exact Hfit|]. split; [reflexivity|]. split; [congruence|]. split; [rewrite <- C3; reflexivity|].
  split; [exact Hf1|]. apply value_connect_coins; auto.
Qed.

Lemma connect_coins_fresh tx tx' u : GetHash tx <> GetHash tx' -> fresh_tx u tx' -> fresh_tx (connect_coins height tx u) tx'.
Proof using.
  intros Hne Hf j. unfold connect_coins. rewrite add_outputs_other by (cbn; auto).
  destruct (IsCoinBase tx); [apply Hf|]. rewrite lookup_spend_all, Hf. destruct (decide _); reflexivity.
Qed.

Definition minted_all (txs : list CTransaction) : Z := foldr (fun tx s => minted tx + s) 0 txs.

Lemma connect_loop_spec lflags vflags scripts parallel txs f sigops c : view_ok c -> coins_ok height (coins c) -> Forall tx_wellformed txs ->
  Forall countable_outputs txs -> NoDup (map GetHash txs) -> Forall (fresh_tx (coins c)) txs -> 0 <= f <= MAX_MONEY -> exists r c',
  connect_loop h pindex height lflags vflags scripts parallel txs f sigops c = (Ok r, c') /\ view_ok c' /\
  forall f' undos checks, r = inl (f', undos, checks) -> fits_all height txs (coins c) /\ coins c' = connect_all height txs (coins c) /\
    best c' = best c /\ undos = undos_of height txs (coins c) /\ 0 <= f' <= MAX_MONEY /\
    value (coins c') + f' <= value (coins c) + f + minted_all txs.
Proof using All.
  revert f sigops c. induction txs as [|tx txs IH]; intros f sigops c Hok Hu Hw Hl Hnd Hnew Hf;
    cbn [connect_loop fits_all connect_all undos_of minted_all foldr].
  { eexists _, c. split; [reflexivity|]. split; [exact Hok|]. intros f' undos checks [= <- <- _]. repeat split; auto; lia. }
  apply Forall_cons in Hw as [Hw1 Hw], Hl as [Hl1 Hl], Hnew as [Hn1 Hnew]. apply NoDup_cons in Hnd as [Hni Hnd].
  destruct (connect_tx_spec lflags vflags scripts parallel tx f sigops c Hok Hu Hw1 Hl1 Hn1 Hf) as (r1 & c1 & E1 & O1 & R1).
  unfold mbind at 1, stm_bind at 1. rewrite E1. destruct r1 as [[[[f1 s1] undo] ck]|reason]; [|eexists _, c1; split; [reflexivity|]; split; [exact O1|discriminate]].
  destruct (R1 _ _ _ _ eq_refl) as (Hfit & C1 & B1 & -> & Hf1 & Hv1). clear R1.
  destruct (IH f1 s1 c1 O1) as (r2 & c2 & E2 & O2 & R2); auto.
  { rewrite C1. apply connect_coins_ok; auto; [pose proof block_height_pos; unfold in_u; lia|apply block_height_pos]. }
  { rewrite C1. apply Forall_forall. intros tx' Hin. apply connect_coins_fresh; [|exact (proj1 (Forall_forall _ _) Hnew tx' Hin)].
    intros E. apply Hni. rewrite E. apply list_elem_of_In, in_map, list_elem_of_In, Hin. }
  unfold mbind, stm_bind. rewrite E2. eexists _, c2. split; [reflexivity|]. split; [exact O2|].
  intros f' undos checks Er. destruct r2 as [[[f2 undos2] more]|]; [|discriminate]. injection Er as <- <- _.
  destruct (R2 _ _ _ eq_refl) as (Hfit2 & C2 & B2 & -> & Hf2 & Hv2). rewrite C1 in *.
  split; [split; assumption|]. split; [exact C2|]. split; [congruence|]. split; [reflexivity|]. split; [exact Hf2|].
  unfold minted_all in Hv2. lia.
Qed.
End Reads.

(** ** The block *)

Section Block.
Context {HP : Primitives} {HPL : PrimitivesLaws} {V : Type} {HV : CCoinsView V} {HA : ViewAbs V} {HVL : ViewLaws V}.
Context {HT : TxEnv} {HTL : TxEnvLaws} {HB : BlockEnv} {HE : LockEnv} {HL : LockEnvLaws} {HC : ConnectEnv}.

(** The states in which [ConnectBlock] is called: the index is a tree of hashed
    blocks, the view is at the parent of the block, the coins in it come from
    blocks below, and the transactions do not repeat an identifier that has
    unspent outputs (BIP 30). *)
Record connectable (params : Params) (pindex q : ptr) (b bq : CBlockIndex) (hq : uint256) (s : connect_state (V := V)) : Prop := {
  cn_tree : tree_wf (index s);
  cn_hashed : map_Forall (fun _ x => is_Some (phashBlock x)) (index s);
  cn_block : index s !! pindex = Some b;
  cn_prev : pprev b = Some q;
  cn_parent : index s !! q = Some bq;
  cn_low : Chain.nHeight b < 2 ^ 30;
  cn_hash : GetBlockHash b = Ok (header_hash (header (fst (checked s))));
  cn_parent_hash : GetBlockHash bq = Ok hq;
  cn_parent_nonzero : le_val 8 hq <> 0;
  cn_not_genesis : header_hash (header (fst (checked s))) <> hashGenesisBlock params;
  cn_nonzero : le_val 8 (header_hash (header (fst (checked s)))) <> 0;
  cn_view : view_ok (view s);
  cn_best : best (view s) = le_val 8 hq;
  cn_coins : coins_ok (Chain.nHeight b) (coins (view s));
  cn_flags : flags_sound params (fst (checked s));
  cn_outputs : Forall countable_outputs (vtx (fst (checked s)));
  cn_distinct : NoDup (map GetHash (vtx (fst (checked s))));
  cn_fresh : Forall (fresh_tx (coins (view s))) (vtx (fst (checked s)));
  cn_interval : 0 < nSubsidyHalvingInterval params;
}.

(** What a successful call leaves behind. *)
Definition connected (params : Params) (b : CBlockIndex) (s s' : connect_state (V := V)) (undo : CBlockUndo) : Prop :=
  let txs := vtx (fst (checked s)) in
  (exists coinbase rest, txs = coinbase :: rest /\ IsCoinBase coinbase = true /\ Forall (fun tx => IsCoinBase tx = false) rest) /\
  fits_all (Chain.nHeight b) txs (coins (view s)) /\ coins (view s') = connect_all (Chain.nHeight b) txs (coins (view s)) /\
  best (view s') = le_val 8 (header_hash (header (fst (checked s)))) /\ undo = tail (undos_of (Chain.nHeight b) txs (coins (view s))) /\
  value (coins (view s')) <= value (coins (view s)) + GetBlockSubsidy (Chain.nHeight b) params /\
  hashBlock (view s') = le_val 8 (header_hash (header (fst (checked s)))).

Lemma GetBlockSubsidy_range height params : 0 < nSubsidyHalvingInterval params -> 0 <= height -> 0 <= GetBlockSubsidy height params <= 500 * COIN.
Proof using.
  intros Hi Hh. rewrite GetBlockSubsidy_shift by assumption. assert (0 <= height / nSubsidyHalvingInterval params) by (apply Z.div_pos; lia).
  pose proof (Z.pow_pos_nonneg 2 (height / nSubsidyHalvingInterval params) ltac:(lia) ltac:(lia)).
  split; [apply Z.div_pos; unfold COIN; lia|]. apply Z.div_le_upper_bound; [lia|]. unfold COIN. nia.
Qed.

Lemma bip34_known (h : heap) q bq params : tree_wf h -> map_Forall (fun _ x => is_Some (phashBlock x)) h -> h !! q = Some bq -> exists o known,
  GetAncestor h q (BIP34Height params) = Ok o /\
  match o with None => Ok false | Some p34 => b34 ← deref h p34; hash ← GetBlockHash b34; Ok (bool_decide (hash = BIP34Hash params)) end = Ok known.
Proof using.
  intros Hwf Hh Hq. rewrite (GetAncestor_up h Hwf q bq _ Hq). destruct (decide _) as [Hd|Hd]; [|eexists _, _; split; reflexivity].
  destruct (up_total h Hwf (Z.to_nat (Chain.nHeight bq - BIP34Height params)) q bq Hq) as (a & ba & Ea & Ha & _); [lia|].
  rewrite Ea. destruct (Hh a ba Ha) as [x Ex]. eexists (Some a), _. split; [reflexivity|]. unfold deref. rewrite Ha. cbn [access mbind res_bind].
  unfold GetBlockHash. rewrite Ex. reflexivity.
Qed.

(** What the node knows is about the same tree, and its work is in range. *)
Record context_ok (params : Params) (h : heap) (ctx : node_context) (b : CBlockIndex) : Prop := {
  cx_find : forall x p, find_block ctx x = Some p -> is_Some (h !! p);
  cx_best : exists p best, best_header ctx = Some p /\ h !! p = Some best /\ wf (nChainWork best) /\ in_u 32 (nBits best) /\ compact_target (nBits best) <> None /\
    Z.abs (uval (nChainWork best) - uval (nChainWork b)) * nPowTargetSpacing params < 2 ^ 256;
  cx_work : wf (nChainWork b);
  cx_spacing : in_u 63 (nPowTargetSpacing params);
}.

Lemma script_checks_total params h ctx pindex b : tree_wf h -> context_ok params h ctx b -> exists r, script_checks_needed h params ctx pindex b = Ok r.
Proof using.
  intros Hwf [Hf (ph & best & Eh & Hbest & Hw & Hn & Ht & Hlt) Hb Hs]. unfold script_checks_needed. destruct (bool_decide _); [eauto|].
  destruct (find_block ctx (assumed_valid ctx)) as [it|] eqn:Ei; [|eauto]. destruct (Hf _ _ Ei) as [bi Hi].
  rewrite (GetAncestor_up h Hwf it bi _ Hi). cbn [mbind res_bind]. destruct (negb _); [eauto|].
  rewrite Eh. cbn [access mbind res_bind]. unfold deref. rewrite Hbest. cbn [access mbind res_bind]. rewrite (GetAncestor_up h Hwf _ best _ Hbest). cbn [mbind res_bind].
  destruct (negb _); [eauto|]. destruct (negb _); [eauto|].
  rewrite (GetBlockProofEquivalentTime_spec best b best params) by assumption. cbn. eauto.
Qed.

Lemma bip30_tests_total b x : GetBlockHash b = Ok x -> (exists r, IsBIP30Repeat b = Ok r) /\ (exists r, IsBIP30Unspendable b = Ok r).
Proof using. intros E. unfold IsBIP30Repeat, IsBIP30Unspendable. rewrite E. cbn. split; repeat case_match; eauto. Qed.

Lemma GetBlockScriptFlags_total b x params : GetBlockHash b = Ok x -> exists f, GetBlockScriptFlags b params = Ok f.
Proof using. intros E. unfold GetBlockScriptFlags. rewrite E. cbn. eauto. Qed.

(** The index entry of the block after the call: only its validity may be raised. *)
Definition index_raised (h h' : heap) (pindex : ptr) (b : CBlockIndex) : Prop :=
  exists st, h' = <[pindex := set_nStatus b st]> h /\ Z.land st BLOCK_FAILED_MASK = Z.land (nStatus b) BLOCK_FAILED_MASK /\
    Z.land st BLOCK_HAVE_DATA = Z.land (nStatus b) BLOCK_HAVE_DATA.

(** Bits outside the mask that is replaced. *)
Lemma land_kept x m v k : Z.land m k = k -> Z.land v k = 0 -> Z.land (Z.lor (Z.land x m) v) k = Z.land x k.
Proof using. intros Hm Hv. rewrite Z.land_lor_distr_l, Hv, Z.lor_0_r, <- Z.land_assoc, Hm. reflexivity. Qed.

Lemma raise_index (h : heap) (pindex : ptr) b : h !! pindex = Some b -> exists valid, IsValid b BLOCK_VALID_SCRIPTS = Ok valid /\
  exists changed b' st, RaiseValidity b BLOCK_VALID_SCRIPTS = Ok (changed, b') /\ b' = set_nStatus b st /\
    Z.land st BLOCK_FAILED_MASK = Z.land (nStatus b) BLOCK_FAILED_MASK /\ Z.land st BLOCK_HAVE_DATA = Z.land (nStatus b) BLOCK_HAVE_DATA.
Proof using.
  intros Hb. unfold IsValid, RaiseValidity. cbn [assert_ mbind res_bind Z.land]. change (Z.land BLOCK_VALID_SCRIPTS (u32 (Z.lnot BLOCK_VALID_MASK)) =? 0) with true.
  cbn [assert_ mbind res_bind]. assert (Es : b = set_nStatus b (nStatus b)) by (destruct b; reflexivity).
  destruct (negb _); [eauto 12|]. destruct (_ <? _); [|eauto 12].
  eexists. split; [reflexivity|]. eexists _, _, _. split; [reflexivity|]. split; [reflexivity|].
  rewrite !land_kept by reflexivity. destruct (_ && _)%bool; [|auto]. rewrite <- !Z.land_assoc. auto.
Qed.

Lemma index_raised_refl (h : heap) (pindex : ptr) b : h !! pindex = Some b -> index_raised h h pindex b.
Proof using. intros Hb. exists (nStatus b). split; [|auto]. replace (set_nStatus b (nStatus b)) with b by (destruct b; reflexivity). symmetry. apply insert_id, Hb. Qed.

(** A result of [ConnectBlock]: a success is a connection, a rejection marks the state. *)
Definition connect_result (params : Params) (pindex : ptr) (b : CBlockIndex) (fJustCheck write_ok : bool) (s : connect_state (V := V))
    (r : bool * option CBlockUndo) (s' : connect_state (V := V)) : Prop :=
  view_ok (view s') /\ index_raised (index s) (index s') pindex b /\
  (fst r = true -> fJustCheck = false -> exists undo, snd r = Some undo /\ connected params b s s' undo) /\
  (fst r = false -> write_ok = true -> state_IsValid (snd (checked s')) = false) /\
  (fst r = true -> snd (checked s') = snd (checked s)) /\
  (fst r = false -> m_mode (snd (checked s)) = M_VALID -> m_result (snd (checked s')) = BLOCK_MUTATED -> state_IsInvalid (snd (checked s')) = false).

(** A rejection in [ConnectBlock]. *)
Lemma reject_result params pindex b fJustCheck write_ok (s s1 : connect_state (V := V)) reason : index s !! pindex = Some b ->
  view_ok (view s1) -> index s1 = index s -> exists s',
  (ok ← on_block (reject BLOCK_CONSENSUS reason); mret (ok, @None CBlockUndo)) s1 = (Ok (false, None), s') /\
  connect_result params pindex b fJustCheck write_ok s (false, None) s'.
Proof using.
  intros Hb Hok Ei. destruct s1 as [v [bk st] ix]. cbn in Ei. subst ix. unfold mbind, stm_bind, on_block. cbn [checked].
  destruct (reject_spec BLOCK_CONSENSUS reason bk st) as (st' & E & Hst). rewrite E. eexists. split; [reflexivity|].
  split; [exact Hok|]. split; [apply index_raised_refl, Hb|]. split; [discriminate|]. split; [auto|]. split; [discriminate|].
  intros _ _. cbn [checked snd fst]. unfold reject in E. cbn in E. injection E as <-. discriminate.
Qed.

Lemma minted_all_block coinbase rest : IsCoinBase coinbase = true -> Forall (fun tx => IsCoinBase tx = false) rest ->
  minted_all (coinbase :: rest) = total (vout coinbase).
Proof using.
  intros Hc Hr. cbn. unfold minted at 1. rewrite Hc.
  assert (E : foldr (fun tx s => minted tx + s) 0 rest = 0).
  { induction Hr as [|tx rest Htx Hr IH]; [reflexivity|]. cbn. unfold minted at 1. rewrite Htx, IH. reflexivity. }
  rewrite E. lia.
Qed.

Lemma connect_body_spec params ctx pindex q b bq hq fJustCheck write_ok (s : connect_state (V := V)) :
  connectable params pindex q b bq hq s -> context_ok params (index s) ctx b -> body_valid (fst (checked s)) -> exists r s',
  connect_body params ctx pindex b (vtx (fst (checked s))) fJustCheck write_ok s = (Ok r, s') /\
  connect_result params pindex b fJustCheck write_ok s r s'.
Proof using All.
  intros C Hctx (_ & _ & (coinbase & rest & Ev & Hcb & Hrest) & Hw & _). destruct C. unfold connect_body.
  destruct (script_checks_total params (index s) ctx pindex b cn_tree0 Hctx) as [scripts Es].
  destruct (bip30_tests_total b _ cn_hash0) as [[rep Erep] _]. destruct (bip34_known (index s) q bq params cn_tree0 cn_hashed0 cn_parent0) as (o & known & Eo & Ek).
  destruct (GetBlockScriptFlags_total b _ params cn_hash0) as [vflags Ef].
  unfold mbind at 1, stm_bind at 1, get_st. cbn zeta. unfold mbind at 1, stm_bind at 1, lift_st at 1. rewrite Es.
  unfold mbind at 1, stm_bind at 1, lift_st at 1. rewrite Erep. unfold mbind at 1, stm_bind at 1, lift_st at 1. rewrite cn_prev0.
  unfold mbind at 1, stm_bind at 1, lift_st at 1. rewrite Eo. unfold mbind at 1, stm_bind at 1, lift_st at 1. rewrite Ek.
  set (test := (_ || _)%bool).
  assert (G : exists over v1, (if test then on_view (bip30_loop (vtx (fst (checked s)))) else mret false) s =
     (Ok over, {| view := v1; checked := checked s; index := index s |}) /\ same_view (view s) v1).
  { destruct test.
    - destruct (bip30_loop_reads (vtx (fst (checked s))) (view s) cn_view0) as (over & v1 & E & S & _). exists over, v1. unfold on_view. rewrite E. auto.
    - exists false, (view s). split; [destruct s; reflexivity|apply same_view_refl, cn_view0]. }
  destruct G as (over & v1 & E1 & (C1 & B1 & O1)). unfold mbind at 1, stm_bind at 1. rewrite E1. clear E1 test.
  destruct over.
  { edestruct (reject_result params pindex b fJustCheck write_ok s {| view := v1; checked := checked s; index := index s |}) as (s' & E & R); eauto. }
  unfold mbind at 1, stm_bind at 1, lift_st at 1. rewrite Ef.
  destruct (connect_loop_spec (index s) cn_tree0 pindex q b cn_block0 cn_prev0 cn_low0
    (if BuriedActiveAt params DEPLOYMENT_CSV b then LOCKTIME_VERIFY_SEQUENCE else 0) vflags scripts (parallel_script_checks ctx) (vtx (fst (checked s))) 0 0 v1 O1) as (r & v2 & E2 & O2 & R2);
    try (rewrite C1; assumption); auto.
  { rewrite MAX_MONEY_val. lia. }
  unfold mbind at 1, stm_bind at 1, on_view at 1. cbn [view checked index]. rewrite E2. destruct r as [[[f undos] checks]|reason].
  2: { edestruct (reject_result params pindex b fJustCheck write_ok s {| view := v2; checked := checked s; index := index s |}) as (s' & E & R); eauto. }
  destruct (R2 f undos checks eq_refl) as (Hfit & C2 & B2 & -> & Hf & Hv). rewrite C1 in Hfit, C2, Hv. unfold connect_finish. cbn zeta.
  rewrite Ev. unfold mbind at 1, stm_bind at 1, lift_st at 1. cbn [head access]. rewrite Ev in Hw. apply Forall_cons in Hw as [Hwc Hw].
  destruct Hwc as (_ & _ & _ & Hvo & Hto & _). unfold mbind at 1, stm_bind at 1, lift_st at 1. rewrite (value_out coinbase Hvo Hto).
  pose proof (GetBlockSubsidy_range (Chain.nHeight b) params cn_interval0) as Hsub.
  specialize (Hsub ltac:(destruct (ok_height _ _ _ (cn_tree0 pindex b cn_block0)); lia)).
  rewrite swrap_small by (rewrite ?MAX_MONEY_val in *; unfold COIN in *; try lia; cbn; word_lia).
  destruct (Z.gtb_spec (total (vout coinbase)) (f + GetBlockSubsidy (Chain.nHeight b) params)) as [Hgt|Hle].
  { edestruct (reject_result params pindex b fJustCheck write_ok s {| view := v2; checked := checked s; index := index s |}) as (s' & E & R); eauto. }
  destruct (negb (forallb run_check checks)).
  { edestruct (reject_result params pindex b fJustCheck write_ok s {| view := v2; checked := checked s; index := index s |}) as (s' & E & R); eauto. }
  destruct fJustCheck.
  { eexists _, _. split; [reflexivity|]. split; [exact O2|]. split; [apply index_raised_refl, cn_block0|].
    split; [discriminate|]. split; [discriminate|]. split; [reflexivity|discriminate]. }
  destruct write_ok; cbn [negb].
  2: { eexists _, _. split; [reflexivity|]. split; [exact O2|]. split; [apply index_raised_refl, cn_block0|].
       split; [discriminate|]. split; [discriminate|]. split; [discriminate|]. intros _ Em _. unfold state_IsInvalid. cbn [checked] in *. rewrite Em. reflexivity. }
  destruct (raise_index (index s) pindex b cn_block0) as (valid & Eval & changed & b' & stt & Er & -> & Hkeep).
  unfold mbind at 1, stm_bind at 1, lift_st at 1. rewrite Eval.
  assert (G : exists h', index_raised (index s) h' pindex b /\
    (if negb valid then '(_, b') ← lift_st (RaiseValidity b BLOCK_VALID_SCRIPTS); set_index (<[pindex:=b']> (index s)) else mret tt)
      {| view := v2; checked := checked s; index := index s |} = (Ok tt, {| view := v2; checked := checked s; index := h' |})).
  { destruct valid; cbn [negb]; [exists (index s); split; [apply index_raised_refl, cn_block0|reflexivity]|].
    unfold mbind, stm_bind, lift_st. rewrite Er. eexists. split; [eexists; split; [reflexivity|exact Hkeep]|reflexivity]. }
  destruct G as (h' & Hh' & E3). unfold mbind at 1, stm_bind at 1. rewrite E3. clear E3.
  unfold mbind at 1, stm_bind at 1, lift_st at 1. rewrite cn_hash0.
  eexists _, _. split; [reflexivity|]. split; [exact O2|]. split; [exact Hh'|].
  split; [|split; [discriminate|split; [reflexivity|discriminate]]]. intros _ _. eexists. split; [reflexivity|]. unfold connected. rewrite Ev. cbn zeta. split; [eauto|].
  rewrite Ev in Hfit, C2, Hv. split; [exact Hfit|]. split; [exact C2|]. split; [|split; [rewrite <- C1; reflexivity|split; [|reflexivity]]].
  - cbn. destruct (Z.eqb_spec (le_val 8 (header_hash (header (fst (checked s))))) 0); [contradiction|reflexivity].
  - rewrite minted_all_block in Hv by assumption. 
    change (value (coins v2) <= value (coins (view s)) + GetBlockSubsidy (Chain.nHeight b) params). lia.
Qed.

Lemma connectable_ext params pindex q b bq hq (s : connect_state (V := V)) v' bk' st' : connectable params pindex q b bq hq s ->
  same_view (view s) v' -> header bk' = header (fst (checked s)) -> vtx bk' = vtx (fst (checked s)) -> flags_sound params bk' ->
  connectable params pindex q b bq hq {| view := v'; checked := (bk', st'); index := index s |}.
Proof using. intros [] (C & B & O) Eh Ev Hf. split; cbn [view checked index fst]; rewrite ?Eh, ?Ev, ?C, ?B; assumption. Qed.

Lemma connect_result_ext params pindex b fJustCheck write_ok (s : connect_state (V := V)) v' bk' st' r s' : same_view (view s) v' ->
  header bk' = header (fst (checked s)) -> vtx bk' = vtx (fst (checked s)) -> st' = snd (checked s) ->
  connect_result params pindex b fJustCheck write_ok {| view := v'; checked := (bk', st'); index := index s |} r s' ->
  connect_result params pindex b fJustCheck write_ok s r s'.
Proof using.
  intros (C & _) Eh Ev -> (R1 & R2 & R3 & R4). split; [exact R1|]. split; [exact R2|]. split; [|exact R4].
  intros E1 E2. destruct (R3 E1 E2) as (undo & Eu & Hc). exists undo. split; [exact Eu|].
  unfold connected in *. cbn [view checked index fst] in Hc. rewrite Eh, Ev, C in Hc. exact Hc.
Qed.

Lemma ConnectBlock_spec params ctx pindex q b bq hq fJustCheck write_ok (s : connect_state (V := V)) :
  connectable params pindex q b bq hq s -> context_ok params (index s) ctx b -> exists r s',
  ConnectBlock params ctx pindex fJustCheck write_ok s = (Ok r, s') /\ connect_result params pindex b fJustCheck write_ok s r s'.
Proof using All.
  intros C Hctx. destruct s as [v [bk st] h]. cbn [index] in *. pose proof C as C0. destruct C. cbn [index checked view fst] in *. unfold ConnectBlock.
  unfold mbind at 1, stm_bind at 1, get_st at 1. cbn [checked index view fst]. cbn zeta.
  unfold mbind at 1, stm_bind at 1, lift_st at 1, deref at 1. rewrite cn_block0. cbn [access].
  unfold mbind at 1, stm_bind at 1, lift_st at 1. rewrite cn_hash0.
  unfold mbind at 1, stm_bind at 1, lift_st at 1. rewrite bool_decide_eq_true_2 by reflexivity. cbn [assert_].
  destruct (CheckBlock_spec params (negb fJustCheck) (negb fJustCheck) bk st cn_flags0) as (ok & bk1 & st1 & E1 & R1 & Eh & Ev & (Hfl & _) & Hsame & Hinv).
  unfold mbind at 1, stm_bind at 1, on_block at 1. cbn [checked view index]. rewrite E1. destruct ok; cbn [negb].
  2: { unfold mbind at 1, stm_bind at 1, get_st at 1. cbn [checked snd]. case_bool_decide as Emut.
       all: eexists _, _; split; [reflexivity|]; split; [exact cn_view0|]; split; [apply index_raised_refl, cn_block0|]; split; [discriminate|]; cbn.
       - split; [reflexivity|]. split; [discriminate|reflexivity].
       - split; [intros _ _; apply Hinv; reflexivity|]. split; [discriminate|contradiction]. }
  assert (Hbody : body_valid bk1).
  { unfold body_valid. rewrite Ev. destruct (proj1 R1 eq_refl) as [Hc|Hv]; [apply cn_flags0 in Hc as Hv|]; apply block_valid_body in Hv as [_ Hv]; exact Hv. }
  unfold mbind at 1, stm_bind at 1, lift_st at 1. rewrite cn_prev0. unfold deref at 1. rewrite cn_parent0. cbn [access mbind res_bind]. rewrite cn_parent_hash0.
  destruct (GetBestBlock_spec v cn_view0) as (v1 & E2 & S2). unfold mbind at 1, stm_bind at 1, on_view at 1. cbn [view checked index]. rewrite E2.
  unfold mbind at 1, stm_bind at 1, lift_st at 1. rewrite cn_best0, Z.eqb_refl. cbn [assert_]. rewrite bool_decide_eq_false_2 by assumption.
  destruct (connect_body_spec params ctx pindex q b bq hq fJustCheck write_ok {| view := v1; checked := (bk1, st1); index := h |}) as (r & s' & E3 & R3); auto.
  { exact (connectable_ext _ _ _ _ _ _ _ v1 bk1 st1 C0 S2 Eh Ev Hfl). }
  cbn [checked fst] in E3. rewrite Ev in E3. exists r, s'. split; [exact E3|].
  exact (connect_result_ext _ _ _ _ _ {| view := v; checked := (bk, st); index := h |} v1 bk1 st1 r s' S2 Eh Ev (Hsame eq_refl) R3).
Qed.
End Block.

(** C1. [ConnectBlock] moves the coins as the block says and creates at most
    the subsidy: on a block whose index entry, parent and view fit together it
    returns (no assertion of the code fails, nothing throws, no sum overflows);
    when it accepts, the coins are exactly those of applying its transactions
    in order, the view is at the block, the undo data is what was spent, and
    the total value of all unspent coins has grown by no more than
    [GetBlockSubsidy]; when it rejects, the validation state is not valid. *)
Theorem ConnectBlock_no_inflation {HP : Primitives} {HPL : PrimitivesLaws} {V : Type} {HV : CCoinsView V} {HA : ViewAbs V} {HVL : ViewLaws V}
    {HT : TxEnv} {HTL : TxEnvLaws} {HB : BlockEnv} {HE : LockEnv} {HL : LockEnvLaws} {HC : ConnectEnv}
    (params : Params) (ctx : node_context) (pindex q : ptr) (b bq : CBlockIndex) (hq : uint256) (fJustCheck write_ok : bool)
    (s : connect_state (V := V)) :
  connectable params pindex q b bq hq s -> context_ok params (index s) ctx b ->
  exists ok undo s', ConnectBlock params ctx pindex fJustCheck write_ok s = (Ok (ok, undo), s') /\ view_ok (view s') /\
    (ok = true -> fJustCheck = false ->
       coins (view s') = connect_all (Chain.nHeight b) (vtx (fst (checked s))) (coins (view s)) /\
       best (view s') = le_val 8 (header_hash (header (fst (checked s)))) /\
       undo = Some (tail (undos_of (Chain.nHeight b) (vtx (fst (checked s))) (coins (view s)))) /\
       value (coins (view s')) <= value (coins (view s)) + GetBlockSubsidy (Chain.nHeight b) params) /\
    (ok = false -> write_ok = true -> state_IsValid (snd (checked s')) = false).
Proof.
  intros C Hctx. destruct (ConnectBlock_spec params ctx pindex q b bq hq fJustCheck write_ok s C Hctx) as ([ok undo] & s' & E & R1 & _ & R3 & R4 & _).
  exists ok, undo, s'. split; [exact E|]. split; [exact R1|]. split; [|exact R4].
  intros Hok Hj. destruct (R3 Hok Hj) as (u & Eu & _ & _ & Hc & Hbest & Hu & Hv & _). cbn [snd] in Eu. subst undo u. auto.
Qed.

(** C2. [DisconnectBlock] undoes [ConnectBlock]: with the undo data that a
    successful [ConnectBlock] returned it reports [DISCONNECT_OK], and leaves
    exactly the coins and the best block that were there before the block was
    connected. *)
Theorem disconnect_undoes_connect {HP : Primitives} {HPL : PrimitivesLaws} {V : Type} {HV : CCoinsView V} {HA : ViewAbs V} {HVL : ViewLaws V}
    {HT : TxEnv} {HTL : TxEnvLaws} {HB : BlockEnv} {HE : LockEnv} {HL : LockEnvLaws} {HC : ConnectEnv}
    (params : Params) (ctx : node_context) (pindex q : ptr) (b bq : CBlockIndex) (hq : uint256) (write_ok : bool)
    (s s' : connect_state (V := V)) (undo : option CBlockUndo) (txout_size : Z) :
  connectable params pindex q b bq hq s -> context_ok params (index s) ctx b ->
  ConnectBlock params ctx pindex false write_ok s = (Ok (true, undo), s') ->
  exists c', DisconnectBlock txout_size (index s') pindex (vtx (fst (checked s))) undo (view s') = (Ok DISCONNECT_OK, c') /\
    coins c' = coins (view s) /\ best c' = best (view s) /\ view_ok c'.
Proof.
  intros C Hctx E. destruct (ConnectBlock_spec params ctx pindex q b bq hq false write_ok s C Hctx) as (r & s1 & E1 & R1 & (st & Hh & _) & R3 & _).
  rewrite E1 in E. injection E as -> ->. destruct (R3 eq_refl eq_refl) as (u & Eu & (coinbase & rest & Ev & Hcb & Hrest) & Hfit & Hc & _ & Hu & _).
  cbn [snd] in Eu. subst undo u. destruct C. pose proof (ok_prev _ _ _ (cn_tree0 pindex b cn_block0) q cn_prev0) as (bq' & Hbq & Eht).
  assert (bq' = bq) as -> by congruence. assert (Hne : pindex <> q) by (intros ->; rewrite cn_block0 in cn_parent0; injection cn_parent0 as ->; lia).
  destruct (ok_height _ _ _ (cn_tree0 q bq cn_parent0)) as [Hq0 _].
  destruct (bip30_tests_total (set_nStatus b st) _ cn_hash0) as [_ [un Eun]]. rewrite Ev in *.
  destruct (DisconnectBlock_spec txout_size (index s') pindex q (set_nStatus b st) bq hq coinbase rest (coins (view s)) un (view s') R1)
    as (c' & E2 & O2 & C2 & B2 & _); cbn [set_nStatus Chain.nHeight pprev]; try assumption.
  - rewrite Hh. apply lookup_insert_eq.
  - rewrite Hh, lookup_insert_ne by exact Hne. exact cn_parent0.
  - unfold in_u. lia.
  - lia.
  - exists c'. split; [exact E2|]. split; [exact C2|]. split; [congruence|exact O2].
Qed.

(** C26. The subsidy schedule is finite: whatever the halving interval, the
    blocks below any height are paid at most 1000 coins times the interval in
    total, so the money supply stays within [MAX_MONEY] exactly as long as
    the interval is at most 1,213,000 blocks; a single subsidy is never
    negative nor above 500 coins. *)
Theorem total_supply_bounded (params : Params) (n : nat) : 0 < nSubsidyHalvingInterval params ->
  0 <= GetBlockSubsidy (Z.of_nat n) params <= 500 * COIN /\
  supply n params <= 1000 * COIN * nSubsidyHalvingInterval params /\
  (nSubsidyHalvingInterval params <= 1213000 -> supply n params <= MAX_MONEY).
Proof.
  intros Hi. split; [apply GetBlockSubsidy_range; lia|].
  assert (B : supply n params <= 1000 * COIN * nSubsidyHalvingInterval params).
  { set (I := nSubsidyHalvingInterval params) in *. pose proof (Z.div_mod (Z.of_nat n) I ltac:(lia)) as E. pose proof (Z.mod_pos_bound (Z.of_nat n) I Hi).
    pose proof (supply_potential params n (Z.of_nat n / I) (Z.of_nat n mod I) Hi ltac:(apply Z.div_pos; lia) ltac:(auto) ltac:(fold I; lia)) as P. fold I in P.
    assert (0 <= 500 * COIN / 2 ^ (Z.of_nat n / I)) by (apply Z.div_pos; [unfold COIN; lia|apply Z.pow_pos_nonneg; [lia|apply Z.div_pos; lia]]).
    assert (0 <= 500 * COIN / 2 ^ (Z.of_nat n / I) * (2 * I - Z.of_nat n mod I)) by (apply Z.mul_nonneg_nonneg; lia). lia. }
  split; [exact B|]. intros Hle. rewrite MAX_MONEY_val. unfold COIN in B. lia.
Qed.

Lemma total_supply_bounded_witness : supply 10 sample_params = 10 * (500 * COIN) /\ supply 10 sample_params <= MAX_MONEY.
Proof.
  split; [vm_compute; reflexivity|]. destruct (total_supply_bounded sample_params 10) as (_ & _ & B); [cbn; lia|]. apply B. cbn. lia.
Defined.

(** ** A block to connect *)

Definition spend_tx (id : Z) (op : COutPoint) (outs : list CTxOut) : CTransaction :=
  {| Transaction.nVersion := 2; vin := [{| prevout := op; scriptSig := []; nSequence := 4294967295 |}]; vout := outs; nLockTime := id |}.

Definition hashed_blocks : @BlockEnv zero_primitives := {|
  header_hash := fun _ => [4]; hash2 := fun _ _ => uint256_null; hash256 := fun _ => uint256_null;
  tx_hash := fun tx => nLockTime tx :: repeat 0 31; GetWitnessHash := fun _ => uint256_null; HasWitness := fun _ => false;
  coinbase_witness := fun _ => []; block_size_no_witness := fun l => 60 * Z.of_nat (length l);
  block_size_with_witness := fun l => 60 * Z.of_nat (length l); CheckSignetBlockSolution := fun _ _ _ => true;
  script_num := fun h => [h] |}.

Definition permissive : ConnectEnv := {|
  SCRIPT_VERIFY_WITNESS := 2 ^ 11; SCRIPT_VERIFY_TAPROOT := 2 ^ 17; SCRIPT_VERIFY_DERSIG := 4; SCRIPT_VERIFY_CHECKLOCKTIMEVERIFY := 2 ^ 9;
  SCRIPT_VERIFY_CHECKSEQUENCEVERIFY := 2 ^ 10; SCRIPT_VERIFY_NULLDUMMY := 16; STANDARD_NOT_MANDATORY_VERIFY_FLAGS := 2 ^ 3;
  script_cached := fun _ _ => false; CScriptCheck := fun _ _ _ _ => None |}.

Lemma zero_primitives_laws : @PrimitivesLaws zero_primitives.
Proof. split; [reflexivity|reflexivity|]. intros o Ho. apply Z.eqb_eq in Ho. exact Ho. Qed.
Lemma zero_tx_laws : @TxEnvLaws zero_primitives zero_tx_env.
Proof. split. reflexivity. Qed.

#[local] Existing Instance zero_primitives.
#[local] Existing Instance zero_primitives_laws.
#[local] Existing Instance zero_tx_env.
#[local] Existing Instance zero_tx_laws.
#[local] Existing Instance hashed_blocks.
#[local] Existing Instance bip68.
#[local] Existing Instance bip68_laws.
#[local] Existing Instance permissive.

Definition old_coin : Coin := {| out := (50, [1; 2; 3]); fCoinBase := false; Coins.nHeight := 1 |}.

Definition money_block : CBlock := {|
  header := {| hdr_nVersion := 4; hashPrevBlock := [3]; hdr_hashMerkleRoot := uint256_null; hdr_nTime := 140;
               hdr_nBits := 0x1d00ffff; hdr_nNonce := 0 |};
  vtx := [coinbase_tx 100 [(500 * COIN + 5, [1])]; spend_tx 101 (1, 0) [(45, [2])]];
  fChecked := false; m_checked_witness_commitment := false; m_checked_merkle_root := false |}.

Definition before_block : connect_state (V := plain) := {|
  view := new_cache (({[ (1, 0) := old_coin ]} : gmap COutPoint Coin), 3);
  checked := (money_block, fresh_state BLOCK_RESULT_UNSET); index := sample_tree |}.

Definition sample_context : node_context := {|
  parallel_script_checks := true;  assumed_valid := uint256_null; find_block := fun _ => None; best_header := Some 4%nat; minimum_chain_work := uint_zero |}.

Lemma before_block_connectable : connectable sample_params 4 3 (sample_block 4 (Some 3%nat) (Some 0%nat) 4 140)
  (sample_block 3 (Some 2%nat) (Some 1%nat) 3 130) [3] before_block.
Proof.
  split; try reflexivity; try discriminate.
  - apply sample_tree_wf.
  - apply sample_tree_hashed.
  - split; [|split; [apply map_Forall_empty|reflexivity]]. apply map_Forall_singleton. reflexivity.
  - assert (Ec : coins (view before_block) = {[ (1, 0) := old_coin ]}) by reflexivity. rewrite Ec. apply map_Forall_singleton. cbn. repeat split; lia.
  - split; discriminate.
  - repeat constructor.
  - repeat constructor; set_solver.
  - assert (Ec : coins (view before_block) = {[ (1, 0) := old_coin ]}) by reflexivity. rewrite Ec.
    repeat constructor; intros j; apply lookup_singleton_ne; discriminate.
Qed.

Lemma sample_context_ok : context_ok sample_params (index before_block) sample_context (sample_block 4 (Some 3%nat) (Some 0%nat) 4 140).
Proof.
  split.
  - discriminate.
  - eexists _, _. split; [reflexivity|]. split; [reflexivity|]. split; [apply uint_zero_wf|]. split; [split; vm_compute; congruence|].
    split; [vm_compute; discriminate|vm_compute; reflexivity].
  - apply uint_zero_wf.
  - unfold in_u. cbn. lia.
Qed.

Lemma ConnectBlock_no_inflation_witness : exists undo s',
  ConnectBlock sample_params sample_context 4 false true before_block = (Ok (true, undo), s') /\
  value (coins (view s')) <= 50 + 500 * COIN.
Proof.
  destruct (ConnectBlock_no_inflation sample_params sample_context 4 3 _ _ _ false true before_block before_block_connectable sample_context_ok)
    as (ok & undo & s' & E & _ & A & _).
  assert (ok = true) as ->.
  { assert (F : forall r s', ConnectBlock sample_params sample_context 4 false true before_block = (Ok r, s') -> fst r = true) by (vm_compute; intros r s1 [= <- _]; reflexivity).
    exact (F _ _ E). }
  destruct (A eq_refl eq_refl) as (_ & _ & _ & Hv). exists undo, s'. split; [exact E|exact Hv].
Defined.

Lemma disconnect_undoes_connect_witness : exists undo s' c',
  ConnectBlock sample_params sample_context 4 false true before_block = (Ok (true, undo), s') /\
  DisconnectBlock 9 (index s') 4 (vtx money_block) undo (view s') = (Ok DISCONNECT_OK, c') /\ coins c' = {[ (1, 0) := old_coin ]} /\ best c' = 3.
Proof.
  destruct (ConnectBlock sample_params sample_context 4 false true before_block) as [r s'] eqn:E.
  assert (F : exists undo, r = Ok (true, undo)).
  { assert (F : fst (ConnectBlock sample_params sample_context 4 false true before_block) = r) by (rewrite E; reflexivity). revert F. vm_compute. intros <-. eauto. }
  destruct F as [undo ->].
  destruct (disconnect_undoes_connect sample_params sample_context 4 3 _ _ _ true before_block s' undo 9 before_block_connectable sample_context_ok E)
    as (c' & E2 & C2 & B2 & _).
  exists undo, s', c'. split; [reflexivity|]. split; [exact E2|]. split; [exact C2|exact B2].
Defined.
