(* ===== verification/Replay.v ===== *)
(** * Views and the replay of a chain

    What the operations on a view do to its base, and the coins of a chain as the
    replay of its blocks. *)

From stdpp Require Import base numbers list gmap strings.
From Stdlib Require Import ZArith Lia.
From S2P Require Import Prelude ArithUint256 Compact Params Chain ActiveChain ChainWork Pow VersionBits Merkle Streams Serialize Compressor Transaction Coins CoinsProofs CoinsRefinement TxCheck Locks Blocks Connect ConnectBlock.

Local Open Scope Z_scope.

(** * Checking a block leaves the view below alone

    [ConnectBlock] and [DisconnectBlock] (src/validation.cpp) work on a
    [CCoinsViewCache] of their own; nothing reaches the view it sits on until
    [Flush].  [quiet] says so of an operation on a cache, whatever its result,
    an exception included; it composes along the monad, so that the proofs
    follow the code. *)

Create HintDb quiet.

Section Quiet.
Context {HP : Primitives} {HPL : PrimitivesLaws} {V : Type} {HV : CCoinsView V} {HA : ViewAbs V} {HVL : ViewLaws V}.
Context {HT : TxEnv} {HB : BlockEnv} {HE : LockEnv} {HC : ConnectEnv}.
Notation cache := (CCoinsViewCache V).

Definition quiet {A} (m : stm cache A) : Prop := forall c, view_ok (base c) -> same_view (base c) (base (snd (m c))).

Lemma quiet_ret {A} (a : A) : quiet (mret a).
Proof using. intros c Hok. apply same_view_refl, Hok. Qed.

Lemma quiet_lift {A} (r : res A) : quiet (lift_st r).
Proof using. intros c Hok. apply same_view_refl, Hok. Qed.

Lemma quiet_fail {A} e : quiet (@fail_st cache A e).
Proof using. intros c Hok. apply same_view_refl, Hok. Qed.

Lemma quiet_get : quiet (@get_st cache).
Proof using. intros c Hok. apply same_view_refl, Hok. Qed.

Lemma quiet_modify f : (forall c, base (f c) = base c) -> quiet (@modify_st cache f).
Proof using. intros Hf c Hok. cbn. rewrite Hf. apply same_view_refl, Hok. Qed.

Lemma quiet_bind {A B} (m : stm cache A) (k : A -> stm cache B) : quiet m -> (forall a, quiet (k a)) -> quiet (m ≫= k).
Proof using.
  intros Hm Hk c Hok. unfold mbind, stm_bind. specialize (Hm c Hok). destruct (m c) as [[a|e] c1]; [|exact Hm]. cbn in Hm.
  destruct Hm as (C1 & B1 & O1). destruct (Hk a c1 O1) as (C2 & B2 & O2). split; [congruence|]. split; [congruence|exact O2].
Qed.

Lemma quiet_get_bind {B} (k : cache -> stm cache B) : (forall c, quiet (k c)) -> quiet (get_st ≫= k).
Proof using. intros Hk. apply quiet_bind; [apply quiet_get|exact Hk]. Qed.

Lemma quiet_GetCoin op : quiet (on_base (view_GetCoin op)).
Proof using HVL. intros c Hok. unfold on_base. destruct (get_law (base c) op Hok) as (v' & -> & S). exact S. Qed.

Lemma quiet_base_best : quiet (on_base view_GetBestBlock).
Proof using HVL. intros c Hok. unfold on_base. destruct (best_law (base c) Hok) as (v' & -> & S). exact S. Qed.
End Quiet.

#[export] Hint Resolve quiet_ret quiet_lift quiet_fail quiet_get quiet_GetCoin quiet_base_best : quiet.

(** One step of a proof that follows the code. *)
Ltac quiet_step :=
  match goal with
  | |- quiet (_ ≫= _) => apply quiet_bind; [|intros]
  | |- quiet (modify_st _) => apply quiet_modify; intros; try reflexivity
  | |- quiet (match ?x with _ => _ end) => destruct x
  | |- quiet (let '(_, _) := ?x in _) => destruct x
  | |- quiet (let _ := _ in _) => cbv zeta
  | |- quiet _ => solve [eauto with quiet]
  end.
Ltac quiet_auto := repeat quiet_step.

Section QuietOps.
Context {HP : Primitives} {HPL : PrimitivesLaws} {V : Type} {HV : CCoinsView V} {HA : ViewAbs V} {HVL : ViewLaws V}.
Context {HT : TxEnv} {HB : BlockEnv} {HE : LockEnv} {HC : ConnectEnv}.
Notation cache := (CCoinsViewCache V).

Lemma FetchCoin_quiet op : quiet (FetchCoin op).
Proof using HVL. unfold FetchCoin. quiet_auto. Qed.
Hint Resolve FetchCoin_quiet : quiet.

Lemma AccessCoin_quiet op : quiet (AccessCoin op).
Proof using HVL. unfold AccessCoin. quiet_auto. Qed.
Lemma HaveCoin_quiet op : quiet (HaveCoin op).
Proof using HVL. unfold HaveCoin. quiet_auto. Qed.
Lemma SpendCoin_quiet op : quiet (SpendCoin op).
Proof using HVL. unfold SpendCoin. quiet_auto. Qed.
Lemma AddCoin_quiet op x po : quiet (AddCoin op x po).
Proof using HVL. unfold AddCoin. quiet_auto. Qed.
Lemma GetBestBlock_quiet : quiet GetBestBlock.
Proof using HVL. unfold GetBestBlock. quiet_auto. Qed.
Lemma SetBestBlock_quiet h : quiet (SetBestBlock h).
Proof using. unfold SetBestBlock. quiet_auto. Qed.
Hint Resolve AccessCoin_quiet HaveCoin_quiet SpendCoin_quiet AddCoin_quiet GetBestBlock_quiet SetBestBlock_quiet : quiet.

Lemma AddCoins_loop_quiet txid height cb check i outs : quiet (AddCoins_loop txid height cb check i outs).
Proof using HVL. revert i. induction outs as [|o outs IH]; intros i; cbn [AddCoins_loop]; quiet_auto. Qed.
Lemma spend_inputs_quiet ins : quiet (spend_inputs ins).
Proof using HVL. induction ins as [|i ins IH]; cbn [spend_inputs]; quiet_auto. Qed.
Hint Resolve AddCoins_loop_quiet spend_inputs_quiet : quiet.

Lemma UpdateCoins_quiet tx height : quiet (UpdateCoins tx height).
Proof using HVL. unfold UpdateCoins, AddCoins. quiet_auto. Qed.

Lemma have_inputs_quiet l : quiet (have_inputs_loop l).
Proof using HVL. induction l as [|i l IH]; cbn [have_inputs_loop]; quiet_auto. Qed.
Lemma check_inputs_quiet h ins n : quiet (check_inputs_loop h ins n).
Proof using HVL. revert n. induction ins as [|i ins IH]; intros n; cbn [check_inputs_loop]; quiet_auto. Qed.
Hint Resolve UpdateCoins_quiet have_inputs_quiet check_inputs_quiet : quiet.

Lemma CheckTxInputs_quiet tx st h : quiet (CheckTxInputs tx st h).
Proof using HVL. unfold CheckTxInputs, HaveInputs. quiet_auto. Qed.

Lemma p2sh_quiet ins n : quiet (p2sh_sigops_loop ins n).
Proof using HVL. revert n. induction ins as [|i ins IH]; intros n; cbn [p2sh_sigops_loop]; quiet_auto. Qed.
Lemma witness_quiet tx f k ins n : quiet (witness_sigops_loop tx f k ins n).
Proof using HVL. revert k n. induction ins as [|i ins IH]; intros k n; cbn [witness_sigops_loop]; quiet_auto. Qed.
Hint Resolve p2sh_quiet witness_quiet : quiet.

Lemma sigop_cost_quiet tx f : quiet (GetTransactionSigOpCost tx f).
Proof using HVL. unfold GetTransactionSigOpCost, GetP2SHSigOpCount. quiet_auto. Qed.

Lemma gather_quiet ins : quiet (gather_spent ins).
Proof using HVL. induction ins as [|i ins IH]; cbn [gather_spent]; quiet_auto. Qed.
Lemma heights_quiet ins : quiet (coin_heights ins).
Proof using HVL. induction ins as [|i ins IH]; cbn [coin_heights]; quiet_auto. Qed.
Lemma bip30_outputs_quiet txid o outs : quiet (bip30_outputs txid o outs).
Proof using HVL. revert o. induction outs as [|x outs IH]; intros o; cbn [bip30_outputs]; quiet_auto. Qed.
Hint Resolve CheckTxInputs_quiet sigop_cost_quiet gather_quiet heights_quiet bip30_outputs_quiet : quiet.

Lemma bip30_quiet txs : quiet (bip30_loop txs).
Proof using HVL. induction txs as [|x txs IH]; cbn [bip30_loop]; quiet_auto. Qed.
Lemma CheckInputScripts_quiet tx st f parallel : quiet (CheckInputScripts tx st f parallel).
Proof using HVL. unfold CheckInputScripts. quiet_auto. Qed.
Lemma connect_inputs_quiet h p ht lf tx f : quiet (connect_inputs h p ht lf tx f).
Proof using HVL. unfold connect_inputs. quiet_auto. Qed.
Hint Resolve bip30_quiet CheckInputScripts_quiet connect_inputs_quiet : quiet.

Lemma connect_tx_quiet h p ht lf vf sc par tx f sg : quiet (connect_tx h p ht lf vf sc par tx f sg).
Proof using HVL. unfold connect_tx. quiet_auto. Qed.
Hint Resolve connect_tx_quiet : quiet.

Lemma connect_loop_quiet h p ht lf vf sc par txs f sg : quiet (connect_loop h p ht lf vf sc par txs f sg).
Proof using HVL. revert f sg. induction txs as [|tx txs IH]; intros f sg; cbn [connect_loop]; quiet_auto. Qed.

(** *** On the state of [ConnectBlock] *)

Notation CST := (connect_state (V := V)).
Definition quiet_on {A} (m : stm CST A) : Prop := forall s, view_ok (base (view s)) -> same_view (base (view s)) (base (view (snd (m s)))).

Lemma quiet_on_still {A} (m : stm CST A) : (forall s, view (snd (m s)) = view s) -> quiet_on m.
Proof using. intros Hm s Hok. rewrite Hm. apply same_view_refl, Hok. Qed.

Lemma quiet_on_view {A} (m : stm cache A) : quiet m -> quiet_on (on_view m).
Proof using. intros Hm s Hok. unfold on_view. specialize (Hm (view s) Hok). destruct (m (view s)). exact Hm. Qed.

Lemma quiet_on_block {A} (m : stm (CBlock * BlockValidationState) A) : quiet_on (on_block m).
Proof using. apply quiet_on_still. intros s. unfold on_block. destruct (m (checked s)). reflexivity. Qed.

Lemma quiet_on_bind {A B} (m : stm CST A) (k : A -> stm CST B) : quiet_on m -> (forall a, quiet_on (k a)) -> quiet_on (m ≫= k).
Proof using.
  intros Hm Hk s Hok. unfold mbind, stm_bind. specialize (Hm s Hok). destruct (m s) as [[a|e] s1]; [|exact Hm]. cbn in Hm.
  destruct Hm as (C1 & B1 & O1). destruct (Hk a s1 O1) as (C2 & B2 & O2). split; [congruence|]. split; [congruence|exact O2].
Qed.

Ltac quiet_on_step :=
  match goal with
  | |- quiet_on (_ ≫= _) => apply quiet_on_bind; [|intros]
  | |- quiet_on (match ?x with _ => _ end) => destruct x
  | |- quiet_on (let '(_, _) := ?x in _) => destruct x
  | |- quiet_on (let _ := _ in _) => cbv zeta
  | |- quiet_on (on_view _) => apply quiet_on_view; solve [eauto with quiet]
  | |- quiet_on (on_block _) => apply quiet_on_block
  | |- quiet_on _ => apply quiet_on_still; reflexivity
  end.

Lemma connect_finish_quiet params p b h txs f undos checks jc wo : quiet_on (connect_finish params p b h txs f undos checks jc wo).
Proof using HVL. unfold connect_finish. repeat quiet_on_step. Qed.

Lemma connect_body_quiet params ctx p b txs jc wo : quiet_on (connect_body params ctx p b txs jc wo).
Proof using HVL.
  unfold connect_body. repeat first [apply connect_finish_quiet | apply quiet_on_view, connect_loop_quiet | quiet_on_step].
Qed.

(** Whatever [ConnectBlock] decides, the view below its cache is as before. *)
Lemma ConnectBlock_quiet params ctx p jc wo : quiet_on (ConnectBlock params ctx p jc wo).
Proof using HVL. unfold ConnectBlock. repeat first [apply connect_body_quiet | quiet_on_step]. Qed.
End QuietOps.

(** * The coins of a chain

    The abstract contract between the active chain and the coins database: the
    coins are those of applying the blocks of the chain in order, and the undo
    data of every block of the chain takes it off again.  [replay] is the
    reference that [ConnectTip] and [DisconnectTip] (src/validation.cpp) are
    compared with. *)

(** ** Moving the tip by one block *)

Section Steps.
Context (h : heap) (Hwf : tree_wf h).

Lemma chain_to_unique c c' p : chain_to h c p -> chain_to h c' p -> c = c'.
Proof using.
  intros (b & Hb & Hl & Hc) (b' & Hb' & Hl' & Hc'). assert (b' = b) as -> by congruence. apply list_eq. intros i.
  destruct (decide (i < length c)%nat) as [Hi|Hi]; [rewrite Hc, Hc' by lia; reflexivity|]. rewrite !lookup_ge_None_2 by lia. reflexivity.
Qed.

Lemma chain_to_tip c p : chain_to h c p -> Tip c = Some p.
Proof using Hwf.
  intros (b & Hb & Hl & Hc). destruct (tree_ok h Hwf p b Hb) as [Hh _ _ _ _]. unfold Tip.
  destruct (Nat.eqb_spec (length c) 0); [lia|]. rewrite nth_lookup, Hc by lia. replace (Z.to_nat _ - _)%nat with 0%nat by lia. reflexivity.
Qed.

Lemma chain_to_length c p b : chain_to h c p -> h !! p = Some b -> Z.of_nat (length c) = Chain.nHeight b + 1.
Proof using Hwf. intros (b' & Hb & Hl & _) Hp. assert (b' = b) as -> by congruence. destruct (tree_ok h Hwf p b Hp) as [? _ _ _ _]. lia. Qed.

Lemma chain_to_snoc c p b q : chain_to h c q -> h !! p = Some b -> pprev b = Some q -> chain_to h (c ++ [Some p]) p.
Proof using Hwf.
  intros (bq & Hq & Hl & Hc) Hp Eq. destruct (ok_prev _ _ _ (tree_ok h Hwf p b Hp) q Eq) as (bq' & Hq' & EH). assert (bq' = bq) as -> by congruence.
  destruct (tree_ok h Hwf q bq Hq) as [Hh _ _ _ _]. exists b. split; [exact Hp|]. rewrite length_app, Hl. cbn [length]. split; [lia|].
  intros i Hi. destruct (decide (i < length c)%nat) as [Hlt|Hge].
  - rewrite lookup_app_l, Hc by lia. replace (Z.to_nat (Chain.nHeight b) - i)%nat with (S (Z.to_nat (Chain.nHeight bq) - i)) by lia.
    cbn [up]. rewrite Hp. cbn. rewrite Eq. reflexivity.
  - rewrite lookup_app_r by lia. replace (i - length c)%nat with 0%nat by lia. replace (Z.to_nat (Chain.nHeight b) - i)%nat with 0%nat by lia. reflexivity.
Qed.

Lemma chain_to_parent c p b q : chain_to h c p -> h !! p = Some b -> pprev b = Some q ->
  exists c0, c = c0 ++ [Some p] /\ chain_to h c0 q.
Proof using Hwf.
  intros Hto Hp Eq. destruct (ok_prev _ _ _ (tree_ok h Hwf p b Hp) q Eq) as (bq & Hq & EH).
  destruct (tree_ok h Hwf q bq Hq) as [Hh _ _ _ _].
  destruct (SetTip_chain h Hwf [] q bq (or_introl eq_refl) Hq) as (c0 & _ & H0). exists c0. split; [|exact H0].
  apply (chain_to_unique c (c0 ++ [Some p]) p Hto). eapply chain_to_snoc; eauto.
Qed.

Lemma SetTip_to c p b t : chain_to h c t -> h !! p = Some b -> forall c', chain_to h c' p -> SetTip h c p = Ok c'.
Proof using Hwf.
  intros Hto Hp c' Hc'. destruct (SetTip_chain h Hwf c p b (or_intror (ex_intro _ t Hto)) Hp) as (c1 & E & H1).
  rewrite E. f_equal. eapply chain_to_unique; eauto.
Qed.
End Steps.

(** ** Replaying a chain *)

Section Replay.
Context {HP : Primitives} {HPL : PrimitivesLaws}.

Definition block_at (files : gmap ptr CBlock) (c : CChain) (n : nat) : option CBlock :=
  match c !! n with Some (Some p) => files !! p | _ => None end.

(** The coins after the blocks of heights 1 to [n]; the genesis block has none. *)
Fixpoint replay_upto (files : gmap ptr CBlock) (c : CChain) (n : nat) : gmap COutPoint Coin :=
  match n with
  | O => ∅
  | Datatypes.S n' =>
      match block_at files c n with
      | Some block => connect_all (Z.of_nat n) (vtx block) (replay_upto files c n')
      | None => replay_upto files c n'
      end
  end.

Definition replay (files : gmap ptr CBlock) (c : CChain) : gmap COutPoint Coin := replay_upto files c (length c - 1).

(** The block at height [i] was connected, and its undo data was kept. *)
Definition laid (files : gmap ptr CBlock) (undo : gmap ptr CBlockUndo) (c : CChain) (i : nat) (p : ptr) : Prop :=
  exists block coinbase rest, files !! p = Some block /\ vtx block = coinbase :: rest /\ IsCoinBase coinbase = true /\
    Forall (fun tx => IsCoinBase tx = false) rest /\ fits_all (Z.of_nat i) (vtx block) (replay_upto files c (i - 1)) /\
    undo !! p = Some (tail (undos_of (Z.of_nat i) (vtx block) (replay_upto files c (i - 1)))).

Definition built (files : gmap ptr CBlock) (undo : gmap ptr CBlockUndo) (c : CChain) : Prop :=
  forall i p, (1 <= i)%nat -> c !! i = Some (Some p) -> laid files undo c i p.

Lemma replay_upto_app files c l n : (n < length c)%nat -> replay_upto files (c ++ l) n = replay_upto files c n.
Proof using. induction n as [|n IH]; intros Hn; [reflexivity|]. cbn [replay_upto]. unfold block_at. rewrite lookup_app_l, IH by lia. reflexivity. Qed.

Lemma replay_snoc files c p block : c <> [] -> files !! p = Some block ->
  replay files (c ++ [Some p]) = connect_all (Z.of_nat (length c)) (vtx block) (replay files c).
Proof using.
  intros Hne Hp. unfold replay. rewrite length_app. cbn [length]. destruct c as [|x c]; [contradiction|].
  replace (length (x :: c) + 1 - 1)%nat with (Datatypes.S (length c)) by (cbn; lia). cbn [replay_upto].
  unfold block_at. rewrite lookup_app_r by (cbn; lia). replace (_ - _)%nat with 0%nat by (cbn; lia). cbn [lookup list_lookup]. rewrite Hp.
  rewrite (replay_upto_app files (x :: c)) by (cbn; lia). replace (length (x :: c) - 1)%nat with (length c) by (cbn; lia). reflexivity.
Qed.

Lemma laid_app files undo c l i p : (i < length c)%nat -> (1 <= i)%nat -> laid files undo (c ++ l) i p <-> laid files undo c i p.
Proof using. intros Hi H1. unfold laid. rewrite replay_upto_app by lia. reflexivity. Qed.

Lemma built_app files undo c l : built files undo (c ++ l) -> built files undo c.
Proof using.
  intros Hb i p H1 Hi. pose proof (lookup_lt_Some _ _ _ Hi). apply (laid_app files undo c l i p); auto. apply Hb; [exact H1|]. rewrite lookup_app_l by lia. exact Hi.
Qed.

Lemma built_snoc files undo c p : c <> [] -> built files undo c -> laid files undo (c ++ [Some p]) (length c) p -> built files undo (c ++ [Some p]).
Proof using.
  intros Hne Hb Hl i q H1 Hi. destruct (decide (i < length c)%nat) as [Hlt|Hge].
  - rewrite lookup_app_l in Hi by lia. apply laid_app; auto.
  - rewrite lookup_app_r in Hi by lia. destruct (i - length c)%nat eqn:E; [|discriminate]. cbn in Hi. injection Hi as ->.
    replace i with (length c) by lia. exact Hl.
Qed.

(** The undo data of other blocks does not matter. *)
Lemma built_write_undo files undo c p u : ~ Some p ∈ c -> built files undo c -> built files (<[p := u]> undo) c.
Proof using.
  intros Hn Hb i q H1 Hi. destruct (Hb i q H1 Hi) as (block & cb & rest & H2 & H3 & H4 & H5 & H6 & H7).
  exists block, cb, rest. do 5 (split; [assumption|]). rewrite lookup_insert_ne; [exact H7|]. intros ->. apply Hn. eapply list_elem_of_lookup_2; eauto.
Qed.

Lemma coins_ok_le top top' u : top <= top' -> coins_ok top u -> coins_ok top' u.
Proof using. intros Hle Hu op x Ex. destruct (Hu op x Ex) as (? & ? & ?). repeat split; auto; lia. Qed.

Lemma connect_all_ok height txs u : in_u 31 height -> 1 <= height -> fits_all height txs u -> coins_ok height u -> coins_ok height (connect_all height txs u).
Proof using.
  intros Hh H1. revert u. induction txs as [|tx txs IH]; intros u Hf Hu; cbn [connect_all fits_all] in *; [exact Hu|].
  destruct Hf as [Htx Hf]. apply IH; [exact Hf|]. apply connect_coins_ok; auto.
Qed.

Lemma replay_coins_ok files undo c n : built files undo c -> (n < length c)%nat -> Z.of_nat n < 2 ^ 31 -> coins_ok (Z.of_nat n) (replay_upto files c n).
Proof using.
  intros Hb. induction n as [|n IH]; intros Hn Hlt; cbn [replay_upto]; [apply map_Forall_empty|].
  assert (Hprev : coins_ok (Z.of_nat (Datatypes.S n)) (replay_upto files c n)) by (eapply coins_ok_le; [|apply IH; lia]; lia).
  unfold block_at. destruct (c !! Datatypes.S n) as [[p|]|] eqn:Ep; [|exact Hprev|exact Hprev].
  destruct (Hb (Datatypes.S n) p ltac:(lia) Ep) as (block & cb & rest & Hf & _ & _ & _ & Hfit & _). rewrite Hf.
  replace (Datatypes.S n - 1)%nat with n in Hfit by lia. apply connect_all_ok; auto; [unfold in_u|]; lia.
Qed.

(** Coins carry the identifiers of the transactions of the chain. *)
Lemma connect_all_key height txs u op x : connect_all height txs u !! op = Some x -> (exists tx, tx ∈ txs /\ GetHash tx = fst op) \/ is_Some (u !! op).
Proof using.
  revert u. induction txs as [|tx txs IH]; intros u E; cbn [connect_all] in E; [eauto|].
  destruct (IH _ E) as [(t & Ht & Eid)|[y Ey]]; [left; exists t; split; [right; exact Ht|exact Eid]|].
  destruct (decide (fst op = GetHash tx)) as [Eq|Hne]; [left; exists tx; split; [left|auto]|]. right. unfold connect_coins in Ey.
  rewrite add_outputs_other in Ey by auto. destruct (IsCoinBase tx); [eauto|]. rewrite lookup_spend_all in Ey. destruct (decide _); [discriminate|eauto].
Qed.

Lemma replay_key files c n op x : replay_upto files c n !! op = Some x ->
  exists i p block tx, c !! i = Some (Some p) /\ files !! p = Some block /\ tx ∈ vtx block /\ GetHash tx = fst op.
Proof using.
  revert x. induction n as [|n IH]; cbn [replay_upto]; intros x E; [rewrite lookup_empty in E; discriminate|].
  unfold block_at in E. destruct (c !! Datatypes.S n) as [[p|]|] eqn:Ep; [|eapply IH; exact E|eapply IH; exact E].
  destruct (files !! p) as [block|] eqn:Ef; [|eapply IH; exact E].
  apply connect_all_key in E as [(tx & Htx & Eid)|[y Ey]]; [|exact (IH y Ey)].
  exists (Datatypes.S n), p, block, tx. auto.
Qed.
End Replay.
