(* ===== verification/ChainState.v ===== *)
(** * The state of the node's chain, and writing it to disk

    Models the members of [Chainstate], [ChainstateManager] and
    [BlockManager] that chain selection changes (src/validation.h), and
    [GetCoinsCacheSizeState], [FlushStateToDisk], [ForceFlushStateToDisk] and
    [PruneAndFlush] of src/validation.cpp.  [CoinsTip()] is a coins cache over
    the database's view.  The block store (src/node/) is not part of the
    repository: its operations are those of the class [BlockStore]; block and
    undo files are maps. *)

From stdpp Require Import base numbers list gmap strings.
From Stdlib Require Import ZArith Lia.
From S2P Require Import Prelude ArithUint256 Compact Params Chain ActiveChain ChainWork Pow VersionBits.
From S2P Require Import Merkle Streams Serialize Compressor Transaction Coins CoinsProofs TxCheck Locks Blocks Connect.

Local Open Scope Z_scope.

(** ** The members *)

(** [nBlockSequenceId], [nBlockReverseSequenceId] and
    [nLastPreciousChainwork]. *)
Record block_counters : Type := { nBlockSequenceId : Z; nBlockReverseSequenceId : Z; nLastPreciousChainwork : base_uint }.

(** When the state was written and flushed, and what is to be pruned. *)
Record flush_record : Type := { m_last_write : Z; m_last_flush : Z; m_check_for_pruning : bool; m_have_pruned : bool }.

Record Chainstate (W : Type) : Type := {
  m_block_index : heap;
  m_chain : CChain;
  setBlockIndexCandidates : gset ptr;
  m_best_invalid : option ptr;
  m_best_header : option ptr;
  m_failed_blocks : gset ptr;
  m_dirty_blockindex : gset ptr;
  m_blocks_unlinked : list (option ptr * ptr);
  m_prune_locks : gmap string Z;
  m_counters : block_counters;
  m_flush : flush_record;
  CoinsTip : CCoinsViewCache W;
  block_files : gmap ptr CBlock;
  undo_files : gmap ptr CBlockUndo;
}.
Arguments m_block_index {W} _.
Arguments m_chain {W} _.
Arguments setBlockIndexCandidates {W} _.
Arguments m_best_invalid {W} _.
Arguments m_best_header {W} _.
Arguments m_failed_blocks {W} _.
Arguments m_dirty_blockindex {W} _.
Arguments m_blocks_unlinked {W} _.
Arguments m_prune_locks {W} _.
Arguments m_counters {W} _.
Arguments m_flush {W} _.
Arguments CoinsTip {W} _.
Arguments block_files {W} _.
Arguments undo_files {W} _.

Section State.
Context {W : Type}.
Notation CS := (Chainstate W).

Definition update_index (f : heap -> heap) (s : CS) : CS :=
  {| m_block_index := f (m_block_index s); m_chain := m_chain s; setBlockIndexCandidates := setBlockIndexCandidates s;
     m_best_invalid := m_best_invalid s; m_best_header := m_best_header s; m_failed_blocks := m_failed_blocks s;
     m_dirty_blockindex := m_dirty_blockindex s; m_blocks_unlinked := m_blocks_unlinked s; m_prune_locks := m_prune_locks s;
     m_counters := m_counters s; m_flush := m_flush s; CoinsTip := CoinsTip s; block_files := block_files s;
     undo_files := undo_files s |}.
Definition update_chain (c : CChain) (s : CS) : CS :=
  {| m_block_index := m_block_index s; m_chain := c; setBlockIndexCandidates := setBlockIndexCandidates s;
     m_best_invalid := m_best_invalid s; m_best_header := m_best_header s; m_failed_blocks := m_failed_blocks s;
     m_dirty_blockindex := m_dirty_blockindex s; m_blocks_unlinked := m_blocks_unlinked s; m_prune_locks := m_prune_locks s;
     m_counters := m_counters s; m_flush := m_flush s; CoinsTip := CoinsTip s; block_files := block_files s;
     undo_files := undo_files s |}.
Definition update_candidates (f : gset ptr -> gset ptr) (s : CS) : CS :=
  {| m_block_index := m_block_index s; m_chain := m_chain s; setBlockIndexCandidates := f (setBlockIndexCandidates s);
     m_best_invalid := m_best_invalid s; m_best_header := m_best_header s; m_failed_blocks := m_failed_blocks s;
     m_dirty_blockindex := m_dirty_blockindex s; m_blocks_unlinked := m_blocks_unlinked s; m_prune_locks := m_prune_locks s;
     m_counters := m_counters s; m_flush := m_flush s; CoinsTip := CoinsTip s; block_files := block_files s;
     undo_files := undo_files s |}.
Definition update_best (invalid header : option ptr) (s : CS) : CS :=
  {| m_block_index := m_block_index s; m_chain := m_chain s; setBlockIndexCandidates := setBlockIndexCandidates s;
     m_best_invalid := invalid; m_best_header := header; m_failed_blocks := m_failed_blocks s;
     m_dirty_blockindex := m_dirty_blockindex s; m_blocks_unlinked := m_blocks_unlinked s; m_prune_locks := m_prune_locks s;
     m_counters := m_counters s; m_flush := m_flush s; CoinsTip := CoinsTip s; block_files := block_files s;
     undo_files := undo_files s |}.
Definition update_failed (f : gset ptr -> gset ptr) (s : CS) : CS :=
  {| m_block_index := m_block_index s; m_chain := m_chain s; setBlockIndexCandidates := setBlockIndexCandidates s;
     m_best_invalid := m_best_invalid s; m_best_header := m_best_header s; m_failed_blocks := f (m_failed_blocks s);
     m_dirty_blockindex := m_dirty_blockindex s; m_blocks_unlinked := m_blocks_unlinked s; m_prune_locks := m_prune_locks s;
     m_counters := m_counters s; m_flush := m_flush s; CoinsTip := CoinsTip s; block_files := block_files s;
     undo_files := undo_files s |}.
Definition update_dirty (f : gset ptr -> gset ptr) (s : CS) : CS :=
  {| m_block_index := m_block_index s; m_chain := m_chain s; setBlockIndexCandidates := setBlockIndexCandidates s;
     m_best_invalid := m_best_invalid s; m_best_header := m_best_header s; m_failed_blocks := m_failed_blocks s;
     m_dirty_blockindex := f (m_dirty_blockindex s); m_blocks_unlinked := m_blocks_unlinked s; m_prune_locks := m_prune_locks s;
     m_counters := m_counters s; m_flush := m_flush s; CoinsTip := CoinsTip s; block_files := block_files s;
     undo_files := undo_files s |}.
Definition update_unlinked (f : list (option ptr * ptr) -> list (option ptr * ptr)) (s : CS) : CS :=
  {| m_block_index := m_block_index s; m_chain := m_chain s; setBlockIndexCandidates := setBlockIndexCandidates s;
     m_best_invalid := m_best_invalid s; m_best_header := m_best_header s; m_failed_blocks := m_failed_blocks s;
     m_dirty_blockindex := m_dirty_blockindex s; m_blocks_unlinked := f (m_blocks_unlinked s); m_prune_locks := m_prune_locks s;
     m_counters := m_counters s; m_flush := m_flush s; CoinsTip := CoinsTip s; block_files := block_files s;
     undo_files := undo_files s |}.
Definition update_locks (f : gmap string Z -> gmap string Z) (s : CS) : CS :=
  {| m_block_index := m_block_index s; m_chain := m_chain s; setBlockIndexCandidates := setBlockIndexCandidates s;
     m_best_invalid := m_best_invalid s; m_best_header := m_best_header s; m_failed_blocks := m_failed_blocks s;
     m_dirty_blockindex := m_dirty_blockindex s; m_blocks_unlinked := m_blocks_unlinked s; m_prune_locks := f (m_prune_locks s);
     m_counters := m_counters s; m_flush := m_flush s; CoinsTip := CoinsTip s; block_files := block_files s;
     undo_files := undo_files s |}.
Definition update_counters (c : block_counters) (s : CS) : CS :=
  {| m_block_index := m_block_index s; m_chain := m_chain s; setBlockIndexCandidates := setBlockIndexCandidates s;
     m_best_invalid := m_best_invalid s; m_best_header := m_best_header s; m_failed_blocks := m_failed_blocks s;
     m_dirty_blockindex := m_dirty_blockindex s; m_blocks_unlinked := m_blocks_unlinked s; m_prune_locks := m_prune_locks s;
     m_counters := c; m_flush := m_flush s; CoinsTip := CoinsTip s; block_files := block_files s; undo_files := undo_files s |}.
Definition update_flush (f : flush_record) (s : CS) : CS :=
  {| m_block_index := m_block_index s; m_chain := m_chain s; setBlockIndexCandidates := setBlockIndexCandidates s;
     m_best_invalid := m_best_invalid s; m_best_header := m_best_header s; m_failed_blocks := m_failed_blocks s;
     m_dirty_blockindex := m_dirty_blockindex s; m_blocks_unlinked := m_blocks_unlinked s; m_prune_locks := m_prune_locks s;
     m_counters := m_counters s; m_flush := f; CoinsTip := CoinsTip s; block_files := block_files s; undo_files := undo_files s |}.
Definition update_coins (v : CCoinsViewCache W) (s : CS) : CS :=
  {| m_block_index := m_block_index s; m_chain := m_chain s; setBlockIndexCandidates := setBlockIndexCandidates s;
     m_best_invalid := m_best_invalid s; m_best_header := m_best_header s; m_failed_blocks := m_failed_blocks s;
     m_dirty_blockindex := m_dirty_blockindex s; m_blocks_unlinked := m_blocks_unlinked s; m_prune_locks := m_prune_locks s;
     m_counters := m_counters s; m_flush := m_flush s; CoinsTip := v; block_files := block_files s; undo_files := undo_files s |}.
(** What [WriteUndoDataForBlock] leaves on success.  (It skips the write when the
    entry already has undo data; a block is only connected on top of its own
    parent, so the data would be the same.) *)
Definition write_undo (p : ptr) (u : CBlockUndo) (s : CS) : CS :=
  {| m_block_index := m_block_index s; m_chain := m_chain s; setBlockIndexCandidates := setBlockIndexCandidates s;
     m_best_invalid := m_best_invalid s; m_best_header := m_best_header s; m_failed_blocks := m_failed_blocks s;
     m_dirty_blockindex := m_dirty_blockindex s; m_blocks_unlinked := m_blocks_unlinked s; m_prune_locks := m_prune_locks s;
     m_counters := m_counters s; m_flush := m_flush s; CoinsTip := CoinsTip s; block_files := block_files s;
     undo_files := <[p := u]> (undo_files s) |}.
Definition note_dirty (p : ptr) : CS -> CS := update_dirty (union {[ p ]}).
End State.

(** Time in nanoseconds. *)
Definition hours (n : Z) : Z := n * 3600 * 1000000000.
Definition DATABASE_WRITE_INTERVAL : Z := hours 1.
Definition DATABASE_FLUSH_INTERVAL : Z := hours 24.
Definition PRUNE_LOCK_BUFFER : Z := 10.
Definition INT_MAX : Z := 2 ^ 31 - 1.

Inductive FlushStateMode : Type := NONE | IF_NEEDED | PERIODIC | ALWAYS.
#[global] Instance FlushStateMode_eq_dec : EqDecision FlushStateMode.
Proof. solve_decision. Defined.

Inductive CoinsCacheSizeState : Type := CRITICAL | LARGE | CACHE_OK.
Definition size_rank (s : CoinsCacheSizeState) : Z := match s with CRITICAL => 2 | LARGE => 1 | CACHE_OK => 0 end.

(** What a call of [FlushStateToDisk] finds outside: the clock (nanoseconds),
    the modes the node runs in, the limits of the caches, the memory pool's
    use, and the answers of [CheckDiskSpace] for a directory and a size. *)
Record flush_env : Type := {
  steady_now : Z;
  IsPruneMode : bool;
  fReindex : bool;
  m_coinstip_cache_size_bytes : Z;
  max_mempool_size_bytes : Z;
  mempool_usage : Z;
  CheckDiskSpace : string -> Z -> bool;
}.

(** [memusage::DynamicUsage] of the map, the operations of [BlockManager] and of
    its database [m_block_tree_db] that write or prune files, and which
    exceptions are [std::runtime_error]. *)
Class BlockStore (W : Type) : Type := {
  map_usage : CCoinsMap -> Z;
  FindFilesToPrune : Z -> stm (Chainstate W) (gset Z);
  FindFilesToPruneManual : Z -> stm (Chainstate W) (gset Z);
  UnlinkPrunedFiles : gset Z -> stm (Chainstate W) unit;
  WriteFlag : string -> bool -> stm (Chainstate W) bool;
  FlushChainstateBlockFile : Z -> stm (Chainstate W) bool;
  WriteBlockIndexDB : stm (Chainstate W) bool;
  is_runtime_error : string -> bool;
}.

Section Flush.
Context `{Primitives} {W : Type} `{CCoinsView W, !BlockStore W}.
Notation CS := (Chainstate W).

Definition DynamicMemoryUsage (c : CCoinsViewCache W) : Z := u64 (map_usage (cacheCoins c) + cachedCoinsUsage c).

Definition MAX_BLOCK_COINSDB_USAGE_BYTES : Z := 10 * 1024 * 1024.

Definition GetCoinsCacheSizeState (env : flush_env) (c : CCoinsViewCache W) : CoinsCacheSizeState :=
  let cacheSize := i64 (DynamicMemoryUsage c) in
  let nTotalSpace := i64 (m_coinstip_cache_size_bytes env + Z.max (i64 (max_mempool_size_bytes env) - mempool_usage env) 0) in
  let large_threshold := Z.max (Z.quot (9 * nTotalSpace) 10) (nTotalSpace - MAX_BLOCK_COINSDB_USAGE_BYTES) in
  if cacheSize >? nTotalSpace then CRITICAL
  else if cacheSize >? large_threshold then LARGE
  else CACHE_OK.

(** The last height that may be pruned, from the locks; the order in which they
    are visited does not matter. *)
Definition prune_limit (height : Z) (locks : gmap string Z) : Z :=
  map_fold (fun _ height_first last_prune =>
    if height_first =? INT_MAX then last_prune
    else Z.max 1 (Z.min last_prune (i32 (height_first - PRUNE_LOCK_BUFFER - 1)))) height locks.

(** The files to prune, and the flags that go with them. *)
Definition select_files (env : flush_env) (nManualPruneHeight : Z) : stm CS (gset Z) :=
  s ← get_st;
  if (IsPruneMode env && (m_check_for_pruning (m_flush s) || (nManualPruneHeight >? 0)) && negb (fReindex env))%bool then
    let last_prune := prune_limit (Height (m_chain s)) (m_prune_locks s) in
    files ← (if nManualPruneHeight >? 0 then FindFilesToPruneManual (Z.min last_prune nManualPruneHeight)
             else
               files ← FindFilesToPrune last_prune;
               s ← get_st;
               let f := m_flush s in
               _ ← modify_st (update_flush {| m_last_write := m_last_write f; m_last_flush := m_last_flush f;
                                              m_check_for_pruning := false; m_have_pruned := m_have_pruned f |});
               mret files);
    s ← get_st;
    _ ← (if (bool_decide (files = ∅) || m_have_pruned (m_flush s))%bool then mret tt
         else _ ← WriteFlag "prunedblockfiles" true;
              s ← get_st;
              let f := m_flush s in
              modify_st (update_flush {| m_last_write := m_last_write f; m_last_flush := m_last_flush f;
                                         m_check_for_pruning := m_check_for_pruning f; m_have_pruned := true |}));
    mret files
  else mret ∅.

Definition set_times (w f : Z) (r : flush_record) : flush_record :=
  {| m_last_write := w; m_last_flush := f; m_check_for_pruning := m_check_for_pruning r; m_have_pruned := m_have_pruned r |}.

(** [try { m } catch (const std::runtime_error& e) { k }]. *)
Definition try_runtime {A} (m : stm CS A) (k : string -> stm CS A) : stm CS A := fun s =>
  match m s with
  | (Fail (Thrown what), s') => if is_runtime_error what then k what s' else (Fail (Thrown what), s')
  | r => r
  end.

Definition on_coins {A} (m : stm (CCoinsViewCache W) A) : stm CS A := fun s =>
  let '(r, c) := m (CoinsTip s) in (r, update_coins c s).

(** Writing the coins, the last part of [FlushStateToDisk]. *)
Definition flush_coins (env : flush_env) (nNow : Z) (state : BlockValidationState) : stm CS (bool * BlockValidationState) :=
  best ← on_coins GetBestBlock;
  if best =? 0 then mret (true, state)
  else
    s ← get_st;
    if negb (CheckDiskSpace env "datadir" (48 * 2 * 2 * GetCacheSize (CoinsTip s))) then mret (Error "Disk space is too low!" state)
    else
      flushed ← on_coins Flush;
      if negb flushed then mret (Error "Failed to write to coin database" state)
      else
        s ← get_st;
        _ ← modify_st (update_flush (set_times (m_last_write (m_flush s)) nNow (m_flush s)));
        mret (true, state).

Definition flush_body (env : flush_env) (mode : FlushStateMode) (nManualPruneHeight : Z) (state : BlockValidationState)
    : stm CS (bool * BlockValidationState) :=
  s ← get_st;
  let cache_state := GetCoinsCacheSizeState env (CoinsTip s) in
  setFilesToPrune ← select_files env nManualPruneHeight;
  let fFlushForPrune := negb (bool_decide (setFilesToPrune = ∅)) in
  let nNow := steady_now env in
  s ← get_st;
  let f := m_flush s in
  let last_write := if m_last_write f =? 0 then nNow else m_last_write f in
  let last_flush := if m_last_flush f =? 0 then nNow else m_last_flush f in
  _ ← modify_st (update_flush (set_times last_write last_flush f));
  let fCacheLarge := (bool_decide (mode = PERIODIC) && (size_rank cache_state >=? size_rank LARGE))%bool in
  let fCacheCritical := (bool_decide (mode = IF_NEEDED) && (size_rank cache_state >=? size_rank CRITICAL))%bool in
  let fPeriodicWrite := (bool_decide (mode = PERIODIC) && (nNow >? last_write + DATABASE_WRITE_INTERVAL))%bool in
  let fPeriodicFlush := (bool_decide (mode = PERIODIC) && (nNow >? last_flush + DATABASE_FLUSH_INTERVAL))%bool in
  let fDoFullFlush := (bool_decide (mode = ALWAYS) || fCacheLarge || fCacheCritical || fPeriodicFlush || fFlushForPrune)%bool in
  '(ok, state) ← (if (fDoFullFlush || fPeriodicWrite)%bool then
      if negb (CheckDiskSpace env "blocks" 0) then mret (Error "Disk space is too low!" state)
      else
        s ← get_st;
        _ ← FlushChainstateBlockFile (Height (m_chain s));
        written ← WriteBlockIndexDB;
        if negb written then mret (Error "Failed to write to block index database" state)
        else
          _ ← (if fFlushForPrune then UnlinkPrunedFiles setFilesToPrune else mret tt);
          s ← get_st;
          _ ← modify_st (update_flush (set_times nNow (m_last_flush (m_flush s)) (m_flush s)));
          mret (true, state)
    else mret (true, state));
  if negb ok then mret (false, state)
  else if fDoFullFlush then flush_coins env nNow state else mret (true, state).

(** [m_coins_views && m_coins_views->m_cacheview]: the views are there once the
    node has called [InitCoinsCache], and a [Chainstate] of this model has
    them. *)
Definition CanFlushToDisk (s : CS) : bool := true.

Definition FlushStateToDisk (env : flush_env) (mode : FlushStateMode) (nManualPruneHeight : Z) (state : BlockValidationState)
    : stm CS (bool * BlockValidationState) :=
  s ← get_st;
  _ ← lift_st (assert_ (CanFlushToDisk s));
  try_runtime (flush_body env mode nManualPruneHeight state)
    (fun what => mret (Error (String.append "System error while flushing: " what) state)).

Definition ForceFlushStateToDisk (env : flush_env) : stm CS unit :=
  _ ← FlushStateToDisk env ALWAYS 0 (fresh_state BLOCK_RESULT_UNSET); mret tt.

Definition PruneAndFlush (env : flush_env) : stm CS unit :=
  s ← get_st;
  let f := m_flush s in
  _ ← modify_st (update_flush {| m_last_write := m_last_write f; m_last_flush := m_last_flush f;
                                 m_check_for_pruning := true; m_have_pruned := m_have_pruned f |});
  _ ← FlushStateToDisk env NONE 0 (fresh_state BLOCK_RESULT_UNSET); mret tt.
End Flush.
