(* ===== verification/ChainSelection.v ===== *)
(** * Chain selection

    Models how [Chainstate] (src/validation.cpp) chooses and follows the best
    chain: [FindMostWorkChain], [PruneBlockIndexCandidates],
    [InvalidChainFound], [InvalidBlockFound], [TryAddBlockIndexCandidate],
    [ConnectTip], [DisconnectTip] and [ActivateBestChainStep].  The node has one
    chainstate and no memory pool ([m_mempool] is null); warnings and
    notifications are left out.  [CBlockIndexWorkComparator] (src/node/) is not
    part of the repository: it is the class [WorkOrder] with its laws. *)

From stdpp Require Import base numbers list gmap strings.
From Stdlib Require Import ZArith Lia.
From S2P Require Import Prelude ArithUint256 Compact Params Chain ActiveChain ChainWork Pow VersionBits.
From S2P Require Import Merkle Streams Serialize Compressor Transaction Coins CoinsProofs TxCheck Locks Blocks Connect ChainState.

Local Open Scope Z_scope.

(** [CBlockIndexWorkComparator()(a, b)]: [a] sorts before [b]. *)
Class WorkOrder : Type := { worse : heap -> ptr -> ptr -> bool }.

(** The entries of [h'] are those of [h] but for their status. *)
Definition restatused (h h' : heap) : Prop := forall p,
  match h !! p, h' !! p with
  | Some b, Some b' => b' = set_nStatus b (nStatus b')
  | None, None => True
  | _, _ => False
  end.

(** A strict total order by chain work first, that does not look at the status
    of the entries. *)
Class WorkOrderLaws `{WorkOrder} : Prop := {
  worse_irrefl : forall h p, worse h p p = false;
  worse_trans : forall h a b c, worse h a b = true -> worse h b c = true -> worse h a c = true;
  worse_total : forall h a b, a = b \/ worse h a b = true \/ worse h b a = true;
  worse_work : forall h a b ba bb, h !! a = Some ba -> h !! b = Some bb -> wf (nChainWork ba) -> wf (nChainWork bb) ->
    uint_lt (nChainWork ba) (nChainWork bb) = true -> worse h a b = true;
  worse_status : forall h h' x y, restatused h h' -> worse h' x y = worse h x y;
}.

Definition HaveNumChainTxs (b : CBlockIndex) : bool := negb (nChainTx b =? 0).

Section Selection.
Context `{Primitives, !TxEnv, !BlockEnv, !ScriptEnv, !LockEnv, !ConnectEnv, !WorkOrder} {W : Type} `{CCoinsView W}.
Notation CS := (Chainstate W).

(** [p->nStatus |= flag], with the entry noted as changed. *)
Definition mark_status (p : ptr) (flag : Z) : stm CS unit :=
  s ← get_st;
  b ← lift_st (deref (m_block_index s) p);
  _ ← modify_st (update_index <[p := set_nStatus b (Z.lor (nStatus b) flag)]>);
  modify_st (note_dirty p).

Definition erase_candidate (p : ptr) : stm CS unit := modify_st (update_candidates (fun c => c ∖ {[ p ]})).

(** The last and the first element in the order of the set. *)
Definition last_candidate (h : heap) (c : gset ptr) : option ptr :=
  foldr (fun p acc => match acc with None => Some p | Some q => if worse h q p then Some p else Some q end) None (elements c).
Definition first_candidate (h : heap) (c : gset ptr) : option ptr :=
  foldr (fun p acc => match acc with None => Some p | Some q => if worse h p q then Some p else Some q end) None (elements c).

(** ** [FindMostWorkChain] *)

(** The walk to the active chain: the first block that is marked failed, or has
    no data, with the answer which of the two. *)
Fixpoint first_unusable (fuel : nat) (h : heap) (c : CChain) (pindexTest : option ptr) : res (option (ptr * bool)) :=
  match pindexTest with
  | None => Ok None
  | Some p =>
      in_chain ← Contains h c p;
      if in_chain : bool then Ok None
      else
        b ← deref h p;
        _ ← assert_ (HaveNumChainTxs b || (Chain.nHeight b =? 0));
        let fFailedChain := negb (Z.land (nStatus b) BLOCK_FAILED_MASK =? 0) in
        let fMissingData := Z.land (nStatus b) BLOCK_HAVE_DATA =? 0 in
        if (fFailedChain || fMissingData)%bool then Ok (Some (p, fFailedChain))
        else match fuel with
        | O => Fail OutOfFuel
        | S fuel' => first_unusable fuel' h c (pprev b)
        end
  end.

(** [while (pindexTest != pindexFailed)]. *)
Fixpoint remove_branch (fuel : nat) (pindexTest : ptr) (fFailedChain : bool) (pindexFailed : ptr) : stm CS unit :=
  if bool_decide (pindexTest = pindexFailed) then mret tt
  else match fuel with
  | O => fail_st OutOfFuel
  | S fuel' =>
      s ← get_st;
      b ← lift_st (deref (m_block_index s) pindexFailed);
      _ ← (if fFailedChain then mark_status pindexFailed BLOCK_FAILED_CHILD
           else modify_st (update_unlinked (fun l => l ++ [(pprev b, pindexFailed)])));
      _ ← erase_candidate pindexFailed;
      q ← lift_st (access (pprev b));
      remove_branch fuel' pindexTest fFailedChain q
  end.

(** [m_best_invalid] follows the failed chain with the most work. *)
Definition note_best_invalid (p : ptr) (b : CBlockIndex) : stm CS unit :=
  s ← get_st;
  better ← lift_st (match m_best_invalid s with
                    | None => Ok true
                    | Some i => bi ← deref (m_block_index s) i; Ok (uint_gt (nChainWork b) (nChainWork bi))
                    end);
  if better : bool then modify_st (update_best (Some p) (m_best_header s)) else mret tt.

Fixpoint find_loop (fuel : nat) : stm CS (option ptr) :=
  s ← get_st;
  match last_candidate (m_block_index s) (setBlockIndexCandidates s) with
  | None => mret None
  | Some pindexNew =>
      b ← lift_st (deref (m_block_index s) pindexNew);
      r ← lift_st (first_unusable (S (Z.to_nat (Chain.nHeight b))) (m_block_index s) (m_chain s) (Some pindexNew));
      match r with
      | None => mret (Some pindexNew)
      | Some (pindexTest, fFailedChain) =>
          _ ← (if fFailedChain : bool then note_best_invalid pindexNew b else mret tt);
          _ ← remove_branch (Z.to_nat (Chain.nHeight b)) pindexTest fFailedChain pindexNew;
          _ ← erase_candidate pindexTest;
          match fuel with
          | O => fail_st OutOfFuel
          | S fuel' => find_loop fuel'
          end
      end
  end.

Definition FindMostWorkChain : stm CS (option ptr) := s ← get_st; find_loop (size (setBlockIndexCandidates s)).

(** ** [PruneBlockIndexCandidates] *)

Fixpoint prune_loop (fuel : nat) (tip : ptr) : stm CS unit :=
  s ← get_st;
  match first_candidate (m_block_index s) (setBlockIndexCandidates s) with
  | None => mret tt
  | Some it =>
      if worse (m_block_index s) it tip
      then _ ← erase_candidate it;
           match fuel with O => fail_st OutOfFuel | S fuel' => prune_loop fuel' tip end
      else mret tt
  end.

Definition PruneBlockIndexCandidates : stm CS unit :=
  s ← get_st;
  tip ← lift_st (access (Tip (m_chain s)));
  _ ← prune_loop (size (setBlockIndexCandidates s)) tip;
  s ← get_st;
  lift_st (assert_ (negb (bool_decide (setBlockIndexCandidates s = ∅)))).

(** ** Invalid blocks *)

Definition InvalidChainFound (pindexNew : ptr) : stm CS unit :=
  s ← get_st;
  b ← lift_st (deref (m_block_index s) pindexNew);
  _ ← note_best_invalid pindexNew b;
  s ← get_st;
  a ← lift_st (match m_best_header s with
               | None => Ok None
               | Some p => GetAncestor (m_block_index s) p (Chain.nHeight b)
               end);
  _ ← (if (bool_decide (is_Some (m_best_header s)) && bool_decide (a = Some pindexNew))%bool
       then modify_st (update_best (m_best_invalid s) (Tip (m_chain s))) else mret tt);
  lift_st (assert_ (bool_decide (is_Some (Tip (m_chain s))))).

Definition InvalidBlockFound (pindex : ptr) (state : BlockValidationState) : stm CS unit :=
  if bool_decide (m_result state = BLOCK_MUTATED) then mret tt
  else
    _ ← mark_status pindex BLOCK_FAILED_VALID;
    _ ← modify_st (update_failed (union {[ pindex ]}));
    _ ← erase_candidate pindex;
    InvalidChainFound pindex.

(** In the active chainstate. *)
Definition TryAddBlockIndexCandidate (pindex : ptr) : stm CS unit :=
  s ← get_st;
  if match Tip (m_chain s) with Some tip => worse (m_block_index s) pindex tip | None => false end then mret tt
  else modify_st (update_candidates (union {[ pindex ]})).

(** ** Moving the tip *)

Context `{!BlockStore W} (txout_size : Z) (params : Params) (ctx : node_context).

(** What one block meets outside: whether its undo data can be written, and the
    surroundings of the flush after it. *)
Record block_io : Type := { undo_written : bool; flushing : flush_env }.

(** The node's context with the best header of this state. *)
Definition context_of (s : CS) : node_context :=
  {| parallel_script_checks := parallel_script_checks ctx; assumed_valid := assumed_valid ctx; find_block := find_block ctx;
     best_header := m_best_header s; minimum_chain_work := minimum_chain_work ctx |}.

(** [CCoinsViewCache view(&CoinsTip())]: what [m] does to the cache and, through
    it, to [CoinsTip]. *)
Definition on_new_view {A} (m : stm (CCoinsViewCache (CCoinsViewCache W)) A) : stm CS A := fun s =>
  let '(r, c) := m (new_cache (CoinsTip s)) in (r, update_coins (base c) s).

Definition DisconnectTip (io : block_io) (state : BlockValidationState) : stm CS (bool * BlockValidationState) :=
  s ← get_st;
  p ← lift_st (match Tip (m_chain s) with Some p => Ok p | None => Fail AssertFailed end);
  b ← lift_st (deref (m_block_index s) p);
  q ← lift_st (match pprev b with Some q => Ok q | None => Fail AssertFailed end);
  match block_files s !! p with
  | None => mret (false, state)
  | Some block =>
      ok ← on_new_view (
        hash ← lift_st (GetBlockHash b);
        best ← GetBestBlock;
        _ ← lift_st (assert_ (best =? le_val 8 hash));
        r ← DisconnectBlock txout_size (m_block_index s) p (vtx block) (undo_files s !! p);
        if bool_decide (r = DISCONNECT_OK) then
          flushed ← Flush;
          _ ← lift_st (assert_ flushed);
          mret true
        else mret false);
      if negb ok then mret (false, state)
      else
        _ ← modify_st (update_locks (fmap (Z.min (Chain.nHeight b - 1))));
        '(flushed, state) ← FlushStateToDisk (flushing io) IF_NEEDED 0 state;
        if negb flushed then mret (false, state)
        else
          c ← lift_st (SetTip (m_block_index s) (m_chain s) q);
          _ ← modify_st (update_chain c);
          mret (true, state)
  end.

(** Whether [ConnectBlock], when it reaches its end, raises the validity of the
    entry; it then inserts it into [m_dirty_blockindex]. *)
Definition raises_scripts (h : heap) (p : ptr) : bool :=
  match h !! p with
  | Some b => match IsValid b BLOCK_VALID_SCRIPTS with Ok valid => negb valid | Fail _ => false end
  | None => false
  end.

(** [ConnectBlock] on a new view: its result, the validation state, and what it
    changed of the index; the view is flushed when the block was connected. *)
Definition connect_on_tip (pindexNew : ptr) (block : CBlock) (state : BlockValidationState) (write_ok : bool)
    : stm CS (bool * BlockValidationState) := fun s =>
  let '(r, cs) := ConnectBlock params (context_of s) pindexNew false write_ok
    {| view := new_cache (CoinsTip s); checked := (block, state); index := m_block_index s |} in
  let s1 := update_coins (base (view cs)) (update_index (fun _ => index cs) s) in
  match r with
  | Fail e => (Fail e, s1)
  | Ok (rv, undo) =>
      let state' := snd (checked cs) in
      let s1 := if rv then match undo with Some u => update_dirty (fun d => if raises_scripts (m_block_index s) pindexNew then {[ pindexNew ]} ∪ d else d) (write_undo pindexNew u s1)
                             | None => s1 end else s1 in
      if rv then
        match Flush (view cs) with
        | (Ok true, c) => (Ok (true, state'), update_coins (base c) s1)
        | (Ok false, c) => (Fail AssertFailed, update_coins (base c) s1)
        | (Fail e, c) => (Fail e, update_coins (base c) s1)
        end
      else (Ok (false, state'), s1)
  end.

Definition ConnectTip (state : BlockValidationState) (pindexNew : ptr) (pblock : option CBlock) (io : block_io)
    : stm CS (bool * BlockValidationState) :=
  s ← get_st;
  b ← lift_st (deref (m_block_index s) pindexNew);
  _ ← lift_st (assert_ (bool_decide (pprev b = Tip (m_chain s))));
  match (match pblock with Some block => Some block | None => block_files s !! pindexNew end) with
  | None => mret (Error "Failed to read block" state)
  | Some block =>
      '(rv, state) ← connect_on_tip pindexNew block state (undo_written io);
      if negb rv then
        _ ← (if state_IsInvalid state then InvalidBlockFound pindexNew state else mret tt);
        mret (false, state)
      else
        '(flushed, state) ← FlushStateToDisk (flushing io) IF_NEEDED 0 state;
        if negb flushed then mret (false, state)
        else
          s ← get_st;
          c ← lift_st (SetTip (m_block_index s) (m_chain s) pindexNew);
          _ ← modify_st (update_chain c);
          mret (true, state)
  end.

(** ** [ActivateBestChainStep] *)

(** [while (m_chain.Tip() && m_chain.Tip() != pindexFork)]; [false] after a
    failure. *)
Fixpoint disconnect_to (fuel : nat) (io : ptr -> block_io) (pindexFork : option ptr) (state : BlockValidationState) : stm CS (bool * BlockValidationState) :=
  s ← get_st;
  if (bool_decide (is_Some (Tip (m_chain s))) && negb (bool_decide (Tip (m_chain s) = pindexFork)))%bool then
    tip ← lift_st (access (Tip (m_chain s)));
    '(ok, state) ← DisconnectTip (io tip) state;
    if negb ok then mret (Error "Failed to disconnect block; see debug.log for details" state)
    else match fuel with
    | O => fail_st OutOfFuel
    | S fuel' => disconnect_to fuel' io pindexFork state
    end
  else mret (true, state).

(** [while (pindexIter && pindexIter->nHeight != nHeight)]: the blocks, from the
    highest down. *)
Fixpoint blocks_above (fuel : nat) (h : heap) (pindexIter : option ptr) (nHeight : Z) : res (list ptr) :=
  match pindexIter with
  | None => Ok []
  | Some p =>
      b ← deref h p;
      if Chain.nHeight b =? nHeight then Ok []
      else match fuel with
      | O => Fail OutOfFuel
      | S fuel' => l ← blocks_above fuel' h (pprev b) nHeight; Ok (p :: l)
      end
  end.

Inductive step_outcome : Type :=
| Advanced                       (** all blocks of the batch are connected *)
| Better                         (** more work than the old tip: [fContinue = false] *)
| InvalidFound                   (** a block broke a rule: [fInvalidFound = true] *)
| SystemError.                   (** [return false] *)

(** One batch; [front] is the highest block of it, [io] is what each
    block meets outside. *)
Fixpoint connect_batch (front : ptr) (pindexMostWork : ptr) (pblock : option CBlock) (old_work : option base_uint)
    (io : ptr -> block_io) (l : list ptr) (state : BlockValidationState) : stm CS (step_outcome * BlockValidationState) :=
  match l with
  | [] => mret (Advanced, state)
  | p :: rest =>
      '(ok, state) ← ConnectTip state p (if bool_decide (p = pindexMostWork) then pblock else None) (io p);
      if negb ok then
        if state_IsInvalid state then
          _ ← (if bool_decide (m_result state = BLOCK_MUTATED) then mret tt else InvalidChainFound front);
          mret (InvalidFound, fresh_state BLOCK_RESULT_UNSET)
        else mret (SystemError, state)
      else
        _ ← PruneBlockIndexCandidates;
        s ← get_st;
        tip ← lift_st (access (Tip (m_chain s)));
        bt ← lift_st (deref (m_block_index s) tip);
        if match old_work with None => true | Some w => uint_gt (nChainWork bt) w end then mret (Better, state)
        else connect_batch front pindexMostWork pblock old_work io rest state
  end.

Fixpoint connect_batches (fuel : nat) (pindexMostWork : ptr) (pblock : option CBlock) (old_work : option base_uint)
    (io : ptr -> block_io) (nHeight : Z) (state : BlockValidationState) : stm CS (step_outcome * BlockValidationState) :=
  s ← get_st;
  bm ← lift_st (deref (m_block_index s) pindexMostWork);
  if nHeight =? Chain.nHeight bm then mret (Advanced, state)
  else
    let nTargetHeight := Z.min (i32 (nHeight + 32)) (Chain.nHeight bm) in
    top ← lift_st (GetAncestor (m_block_index s) pindexMostWork nTargetHeight);
    l ← lift_st (blocks_above (Z.to_nat (nTargetHeight + 1)) (m_block_index s) top nHeight);
    '(r, state) ← (match l with
                   | [] => mret (Advanced, state)
                   | front :: _ => connect_batch front pindexMostWork pblock old_work io (rev l) state
                   end);
    match r with
    | Advanced => match fuel with
                  | O => fail_st OutOfFuel
                  | S fuel' => connect_batches fuel' pindexMostWork pblock old_work io nTargetHeight state
                  end
    | _ => mret (r, state)
    end.

(** The return value, the validation state and [fInvalidFound]. *)
Definition ActivateBestChainStep (state : BlockValidationState) (pindexMostWork : ptr) (pblock : option CBlock) (io : ptr -> block_io)
    : stm CS (bool * BlockValidationState * bool) :=
  s ← get_st;
  old_work ← lift_st (match Tip (m_chain s) with None => Ok None | Some t => bt ← deref (m_block_index s) t; Ok (Some (nChainWork bt)) end);
  pindexFork ← lift_st (FindFork (m_block_index s) (m_chain s) (Some pindexMostWork));
  '(ok, state) ← disconnect_to (length (m_chain s)) io pindexFork state;
  if negb ok then mret (false, state, false)
  else
    nHeight ← lift_st (match pindexFork with None => Ok (-1) | Some f => bf ← deref (m_block_index s) f; Ok (Chain.nHeight bf) end);
    bm ← lift_st (deref (m_block_index s) pindexMostWork);
    '(r, state) ← connect_batches (Z.to_nat (Chain.nHeight bm - nHeight)) pindexMostWork pblock old_work io nHeight state;
    match r with
    | SystemError => mret (false, state, false)
    | InvalidFound => mret (true, state, true)
    | _ => mret (true, state, false)
    end.
End Selection.
