(* ===== verification/ChainSelectionProofs.v ===== *)
(** * Writing the chain state and choosing the best chain, proofs

    [FlushStateToDisk], then [FindMostWorkChain] and
    [PruneBlockIndexCandidates]. *)

From stdpp Require Import base numbers list gmap strings.
From Stdlib Require Import ZArith Lia.
From S2P Require Import Prelude ArithUint256 Compact Params Chain ActiveChain ChainWork Pow VersionBits Merkle Streams Serialize Compressor Transaction Coins CoinsProofs CoinsRefinement TxCheck Locks Blocks Connect ChainState ChainSelection.

Local Open Scope Z_scope.

(** * Writing the chain state to disk

    Theorems about [FlushStateToDisk] (src/validation.cpp) as [ChainState]
    models it, outside prune mode: it always returns, it changes nothing of the
    chain, it changes no coin unless the write of the coins itself fails, it
    fails only with an error for the node to stop at, and a forced flush that
    succeeds leaves all coins in the database. *)

(** Flushing the block files touches no member of the state.  Writing the block
    index changes which entries are dirty; it may throw a database error. *)
Class BlockStoreLaws (W : Type) `{BlockStore W} : Prop := {
  flush_file_law : forall n (s : Chainstate W), exists b, FlushChainstateBlockFile n s = (Ok b, s);
  write_index_law : forall s : Chainstate W, exists r d, WriteBlockIndexDB s = (r, update_dirty (fun _ => d) s) /\
    match r with Ok _ => True | Fail e => exists what, e = Thrown what /\ is_runtime_error what = true end;
}.

(** What the flush needs of the database below the cache.  A write of the coins
    may fail, by its result or by an exception that is a [std::runtime_error];
    it may then have written, and erased from the cache, any part of the
    batch. *)
Class WriteLaws {HP : Primitives} (W : Type) `{CCoinsView W, ViewAbs W, BlockStore W} : Prop := {
  #[global] write_reads :: ViewReads W;
  write_law : forall v m h, view_ok v -> h <> 0 -> batch_ok m (coins v) -> exists r v' m',
    view_BatchWrite h true (v, m) = (r, (v', m')) /\
    match r with
    | Ok true => m' = ∅ /\ coins v' = apply_batch m (coins v) /\ best v' = h /\ view_ok v'
    | Ok false => True
    | Fail e => exists what, e = Thrown what /\ is_runtime_error what = true
    end;
}.

Section Flushing.
Context {HP : Primitives} {HPL : PrimitivesLaws} {W : Type} {HW : CCoinsView W} {HA : ViewAbs W}.
Context {HS : BlockStore W} {HSL : BlockStoreLaws W}.
Notation CS := (Chainstate W).

(** [s'] is [s] after writes: the coins are the same, only the record of what
    was written differs. *)
Definition flushed (s s' : CS) : Prop :=
  exists c d f, s' = update_coins c (update_dirty (fun _ => d) (update_flush f s)) /\ same_view (CoinsTip s) c.

(** The write of the coins failed: the view had these coins, and the base did
    not take them. *)
Definition write_failed (s s' : CS) : Prop :=
  exists c c' d f, s' = update_coins c' (update_dirty (fun _ => d) (update_flush f s)) /\ same_view (CoinsTip s) c /\
    fst (view_BatchWrite (hashBlock c) true (base c, cacheCoins c)) <> Ok true /\ hashBlock c <> 0.

Lemma flushed_intro (s : CS) c d f : same_view (CoinsTip s) c -> flushed s (update_coins c (update_dirty (fun _ => d) (update_flush f s))).
Proof using. intros. exists c, d, f. auto. Qed.

Lemma flushed_refl (s : CS) : view_ok (CoinsTip s) -> flushed s s.
Proof using. intros Hok. exists (CoinsTip s), (m_dirty_blockindex s), (m_flush s). split; [destruct s; reflexivity|apply same_view_refl, Hok]. Qed.

Lemma flushed_trans (s1 s2 s3 : CS) : flushed s1 s2 -> flushed s2 s3 -> flushed s1 s3.
Proof using.
  intros (c1 & d1 & f1 & -> & S1) (c2 & d2 & f2 & -> & S2). exists c2, d2, f2. split; [reflexivity|].
  cbn in S2. destruct S1 as (C1 & B1 & _), S2 as (C2 & B2 & O2). split; [congruence|]. split; [congruence|exact O2].
Qed.

Lemma write_failed_after (s1 s2 s3 : CS) : flushed s1 s2 -> write_failed s2 s3 -> write_failed s1 s3.
Proof using.
  intros (c1 & d1 & f1 & -> & S1) (c & c' & d2 & f2 & -> & S2 & Hf). exists c, c', d2, f2. split; [reflexivity|]. split; [|exact Hf].
  cbn in S2. destruct S1 as (C1 & B1 & _), S2 as (C2 & B2 & O2). split; [congruence|]. split; [congruence|exact O2].
Qed.

Lemma flushed_ok (s s' : CS) : flushed s s' -> view_ok (CoinsTip s').
Proof using. intros (c & d & f & -> & S). cbn. apply S. Qed.

(** After [GetBestBlock] the cache holds the answer. *)
Lemma GetBestBlock_held (c c' : CCoinsViewCache W) h : GetBestBlock c = (Ok h, c') -> hashBlock c' = h.
Proof using.
  unfold GetBestBlock, mbind, stm_bind, get_st. destruct (hashBlock c =? 0).
  - destruct (on_base view_GetBestBlock c) as [[x|e] c1]; [|discriminate]. cbn. intros [= <- <-]. reflexivity.
  - cbn. intros [= <- <-]. reflexivity.
Qed.

(** What the steps of a flush promise: [done] says that the coins were to be
    written. *)
Definition flush_result (done : Prop) (state : BlockValidationState) (s s' : CS) (r : res (bool * BlockValidationState)) : Prop :=
  match r with
  | Ok (true, st') => flushed s s' /\ st' = state /\
      (done -> best (CoinsTip s) <> 0 -> coins (base (CoinsTip s')) = coins (CoinsTip s) /\ best (base (CoinsTip s')) = best (CoinsTip s))
  | Ok (false, st') => (flushed s s' \/ write_failed s s') /\ m_mode st' = M_ERROR
  | Fail e => (flushed s s' \/ write_failed s s') /\ exists what, e = Thrown what /\ is_runtime_error what = true
  end.

Lemma flush_result_after done state (s1 s2 s3 : CS) r : flushed s1 s2 -> flush_result done state s2 s3 r -> flush_result done state s1 s3 r.
Proof using.
  intros F. assert (G : flushed s2 s3 \/ write_failed s2 s3 -> flushed s1 s3 \/ write_failed s1 s3).
  { intros [G|G]; [left; exact (flushed_trans _ _ _ F G)|right; exact (write_failed_after _ _ _ F G)]. }
  destruct r as [[[|] st']|e]; cbn [flush_result]; [|intros [H1 H2]; auto..].
  intros (F' & -> & R). split; [exact (flushed_trans _ _ _ F F')|]. split; [reflexivity|].
  destruct F as (c & d & f & -> & C & B & _). cbn [CoinsTip update_coins] in R. rewrite C, B in R. exact R.
Qed.

Section Database.
Context {HWL : WriteLaws W}.

Lemma flush_coins_spec env now state (s : CS) : view_ok (CoinsTip s) -> exists r s',
  flush_coins env now state s = (r, s') /\ flush_result True state s s' r.
Proof using HPL HWL.
  intros Hok. destruct (GetBestBlock_spec (CoinsTip s) Hok) as (c1 & E1 & S1). unfold flush_coins, mbind at 1, stm_bind at 1, on_coins at 1. rewrite E1.
  assert (F1 : flushed s (update_coins c1 s)).
  { exists c1, (m_dirty_blockindex s), (m_flush s). split; [destruct s; reflexivity|exact S1]. }
  destruct (Z.eqb_spec (best (CoinsTip s)) 0) as [E0|Hne].
  { eexists _, (update_coins c1 s). split; [reflexivity|]. cbn. split; [exact F1|]. split; [reflexivity|]. intros _ Hb. contradiction. }
  unfold mbind at 1, stm_bind at 1, get_st at 1. cbn [CoinsTip update_coins].
  destruct (negb _); [eexists _, _; split; [reflexivity|]; split; [left; exact F1|reflexivity]|].
  assert (Hh : hashBlock c1 <> 0) by (rewrite (GetBestBlock_held _ _ _ E1); exact Hne).
  pose proof (proj2 (proj2 S1)) as Hok1. pose proof Hok1 as (Hb & Hm & _). destruct (apply_batch_overlay _ _ Hm) as [_ Hbo].
  destruct (write_law (base c1) (cacheCoins c1) (hashBlock c1) Hb Hh Hbo) as (r & v' & m' & E & Hr).
  assert (Fail1 : r <> Ok true -> forall c', write_failed s (update_coins c' (update_coins c1 s))).
  { intros Hr' c'. exists c1, c', (m_dirty_blockindex s), (m_flush s). split; [reflexivity|]. split; [exact S1|]. rewrite E. auto. }
  unfold mbind, stm_bind, on_coins. cbn [CoinsTip update_coins]. destruct r as [[|]|e].
  - destruct Hr as (-> & C & B & O). destruct (Flush_written c1 v' Hok1 Hh E C B O) as (c2 & E2 & S2 & C2 & B2 & _).
    rewrite E2. cbn [negb get_st modify_st]. eexists (Ok (true, state)), _. split; [reflexivity|]. split.
    + eapply flushed_trans; [exact F1|]. exists c2, (m_dirty_blockindex s). eexists. split; [reflexivity|exact S2].
    + split; [reflexivity|]. intros _ _. change (coins (base c2) = coins (CoinsTip s) /\ best (base c2) = best (CoinsTip s)). destruct S1 as (C1 & B1 & _). split; congruence.
  - unfold Flush, mbind, stm_bind, base_BatchWrite. rewrite E. cbn [negb modify_st mret stm_ret]. eexists _, _. split; [reflexivity|].
    split; [right|reflexivity]. apply Fail1. discriminate.
  - unfold Flush, mbind, stm_bind, base_BatchWrite. rewrite E. eexists _, _. split; [reflexivity|]. split; [right|exact Hr]. apply Fail1. discriminate.
Qed.

Lemma flush_body_spec env mode n state (s : CS) : IsPruneMode env = false -> view_ok (CoinsTip s) -> exists r s',
  flush_body env mode n state s = (r, s') /\ flush_result (mode = ALWAYS) state s s' r.
Proof using HPL HWL HSL.
  intros Hp Hok. unfold flush_body, select_files. rewrite Hp. cbn [andb].
  unfold mbind, stm_bind, get_st, modify_st, mret, stm_ret.
  rewrite (bool_decide_eq_true_2 ((∅ : gset Z) = ∅)) by reflexivity. cbn [negb].
  set (w := if m_last_write (m_flush s) =? 0 then _ else _). set (l := if m_last_flush (m_flush s) =? 0 then _ else _).
  set (s1 := update_flush (set_times w l (m_flush s)) s).
  assert (F1 : flushed s s1).
  { exists (CoinsTip s), (m_dirty_blockindex s). eexists. split; [reflexivity|apply same_view_refl, Hok]. }
  set (full := ((bool_decide (mode = ALWAYS) || _ || _ || _) || false)%bool).
  assert (Hfull : mode = ALWAYS -> full = true) by (intros ->; reflexivity). clearbody full.
  destruct (full || _)%bool eqn:Edo.
  2: { apply orb_false_iff in Edo as [-> _]. eexists _, s1. split; [reflexivity|]. split; [exact F1|]. split; [reflexivity|]. intros Hm. specialize (Hfull Hm). discriminate. }
  destruct (negb (CheckDiskSpace env "blocks" 0)).
  { eexists _, s1. split; [reflexivity|]. split; [left; exact F1|reflexivity]. }
  destruct (flush_file_law (Height (m_chain s1)) s1) as [b Eb]. rewrite Eb.
  destruct (write_index_law s1) as (r & d & E & Hr). rewrite E.
  assert (F2 : flushed s (update_dirty (fun _ => d) s1)).
  { eapply flushed_trans; [exact F1|]. exists (CoinsTip s1), d, (m_flush s1). split; [destruct s1; reflexivity|apply same_view_refl, Hok]. }
  destruct r as [[|]|e]; cbn [negb]; [|eexists _, _; split; [reflexivity|]; split; [left; exact F2|auto]..].
  set (s3 := update_flush _ (update_dirty (fun _ => d) s1)).
  assert (F3 : flushed s s3).
  { eapply flushed_trans; [exact F1|]. exists (CoinsTip s1), d, (m_flush s3). split; [reflexivity|apply same_view_refl, Hok]. }
  destruct full.
  - destruct (flush_coins_spec env (steady_now env) state s3 (flushed_ok _ _ F3)) as (r & s' & E' & R). rewrite E'.
    exists r, s'. split; [reflexivity|]. apply (flush_result_after _ _ _ _ _ _ F3) in R. destruct r as [[[|] st']|e]; [|exact R..].
    destruct R as (F & -> & R). split; [exact F|]. auto.
  - eexists _, s3. split; [reflexivity|]. split; [exact F3|]. split; [reflexivity|]. intros Hm. specialize (Hfull Hm). discriminate.
Qed.

(** Database errors are caught. *)
Lemma FlushStateToDisk_result env mode n state (s : CS) : IsPruneMode env = false -> view_ok (CoinsTip s) -> exists ok st' s',
  FlushStateToDisk env mode n state s = (Ok (ok, st'), s') /\ flush_result (mode = ALWAYS) state s s' (Ok (ok, st')).
Proof using HPL HWL HSL.
  intros Hp Hok. destruct (flush_body_spec env mode n state s Hp Hok) as (r & s' & E & R).
  unfold FlushStateToDisk, mbind, stm_bind, get_st, lift_st, CanFlushToDisk. cbn [assert_]. unfold try_runtime. rewrite E.
  destruct r as [[ok st']|e]; [exists ok, st', s'; auto|].
  destruct R as (F & what & -> & ->). eexists false, _, s'. split; [reflexivity|]. split; [exact F|reflexivity].
Qed.
End Database.

(** A database that keeps the laws of a view never fails to write. *)
Section Working.
Context {HVL : ViewLaws W}.

#[global] Instance working_writes : WriteLaws W.
Proof using HVL.
  split; [apply view_reads|]. intros v m h Hv Hh Hm. destruct (batch_law v m h true Hv Hh Hm) as (v' & E & R). exists (Ok true), v', ∅. auto.
Qed.

Lemma FlushStateToDisk_spec env mode n state (s : CS) : IsPruneMode env = false -> view_ok (CoinsTip s) -> exists ok st' s',
  FlushStateToDisk env mode n state s = (Ok (ok, st'), s') /\ flushed s s' /\
  (ok = true -> st' = state /\ (mode = ALWAYS -> best (CoinsTip s) <> 0 ->
      coins (base (CoinsTip s')) = coins (CoinsTip s) /\ best (base (CoinsTip s')) = best (CoinsTip s))) /\
  (ok = false -> m_mode st' = M_ERROR).
Proof using HPL HVL HSL.
  intros Hp Hok. destruct (FlushStateToDisk_result env mode n state s Hp Hok) as (ok & st' & s' & E & R). exists ok, st', s'. split; [exact E|].
  destruct ok; [destruct R as (F & R); split; [exact F|]; split; [auto|discriminate]|]. destruct R as [[F|(c & c' & d & f & _ & Sc & Hf & Hh)] R].
  - split; [exact F|]. split; [discriminate|auto].
  - exfalso. apply Hf. destruct Sc as (_ & _ & Hb & Hm & _). destruct (apply_batch_overlay _ _ Hm) as [_ Hbo].
    destruct (batch_law (base c) (cacheCoins c) (hashBlock c) true Hb Hh Hbo) as (v' & Eb & _). rewrite Eb. reflexivity.
Qed.
End Working.
End Flushing.

(** ** An example *)

#[local] Existing Instance sample_primitives.
#[local] Existing Instance sample_primitives_laws.

(** A store without surprises. *)
#[local] Instance calm_store {W : Type} : BlockStore W := {|
  map_usage := fun m => 100 * Z.of_nat (size m);
  FindFilesToPrune := fun _ s => (Ok ∅, s); FindFilesToPruneManual := fun _ s => (Ok ∅, s); UnlinkPrunedFiles := fun _ s => (Ok tt, s);
  WriteFlag := fun _ _ s => (Ok true, s); FlushChainstateBlockFile := fun _ s => (Ok true, s);
  WriteBlockIndexDB := fun s => (Ok true, update_dirty (fun _ => ∅) s); is_runtime_error := fun _ => true |}.
#[local] Instance calm_store_laws {W : Type} : BlockStoreLaws W.
Proof. split; [intros n s; exists true; reflexivity|]. intros s. exists (Ok true), ∅. auto. Qed.

Definition calm : flush_env := {| steady_now := 1000; IsPruneMode := false; fReindex := false; m_coinstip_cache_size_bytes := 100000;
  max_mempool_size_bytes := 0; mempool_usage := 0; CheckDiskSpace := fun _ _ => true |}.

(** * Choosing the best chain

    Theorems about [FindMostWorkChain] and [PruneBlockIndexCandidates]
    (src/validation.cpp), the two operations of [ChainSelection] that narrow the
    set of candidates.  Marking descendants of a failed block is a relation
    between block indexes, closed under steps; what a walk along [pprev] sees is
    invariant under it. *)

(** ** Usable blocks *)

Definition failed (b : CBlockIndex) : bool := negb (Z.land (nStatus b) BLOCK_FAILED_MASK =? 0).
Definition has_data (b : CBlockIndex) : bool := negb (Z.land (nStatus b) BLOCK_HAVE_DATA =? 0).

(** Every block between [p] and the active chain has its data and is not known
    to be invalid. *)
Definition usable (h : heap) (c : CChain) (p : ptr) : Prop :=
  forall n q bq, up h n p = Some q -> h !! q = Some bq -> ~ Some q ∈ c -> failed bq = false /\ has_data bq = true.

(** A block below [p] and outside the active chain is known to be invalid. *)
Definition below_failed (h : heap) (c : CChain) (p : ptr) : Prop :=
  exists n q bq, (0 < n)%nat /\ up h n p = Some q /\ h !! q = Some bq /\ ~ Some q ∈ c /\ failed bq = true.

(** [h'] is [h] with descendants of failed blocks marked [BLOCK_FAILED_CHILD]. *)
Inductive marked (c : CChain) (h : heap) : heap -> Prop :=
| marked_none : marked c h h
| marked_one h' p b : marked c h h' -> h' !! p = Some b -> below_failed h' c p ->
    marked c h (<[p := set_nStatus b (Z.lor (nStatus b) BLOCK_FAILED_CHILD)]> h').

Lemma marked_trans c h1 h2 h3 : marked c h1 h2 -> marked c h2 h3 -> marked c h1 h3.
Proof. intros H12. induction 1; [exact H12|econstructor; eauto]. Qed.

(** ** What a change of status leaves alone *)

Lemma restatused_refl h : restatused h h.
Proof. intros p. destruct (h !! p) as [b|]; [destruct b; reflexivity|exact I]. Qed.

Lemma restatused_trans h1 h2 h3 : restatused h1 h2 -> restatused h2 h3 -> restatused h1 h3.
Proof.
  intros A B p. specialize (A p). specialize (B p). destruct (h1 !! p), (h2 !! p), (h3 !! p); try contradiction; auto. rewrite B, A. reflexivity.
Qed.

Lemma restatused_insert h p b st : h !! p = Some b -> restatused h (<[p := set_nStatus b st]> h).
Proof.
  intros Hp q. destruct (decide (q = p)) as [->|Hne]; [rewrite Hp, lookup_insert_eq; reflexivity|].
  rewrite lookup_insert_ne by auto. apply (restatused_refl h q).
Qed.

Section Restatused.
Context (h h' : heap) (Hs : restatused h h').

Lemma restatused_lookup q bq : h !! q = Some bq -> exists st, h' !! q = Some (set_nStatus bq st).
Proof using Hs. intros Hq. pose proof (Hs q) as E. rewrite Hq in E. destruct (h' !! q) as [b'|]; [|contradiction]. rewrite E. eauto. Qed.

Lemma restatused_lookup_inv q bq : h' !! q = Some bq -> exists b, h !! q = Some b /\ bq = set_nStatus b (nStatus bq).
Proof using Hs. intros Hq. pose proof (Hs q) as E. rewrite Hq in E. destruct (h !! q) as [b|]; [eauto|contradiction]. Qed.

Lemma restatused_up n q : up h' n q = up h n q.
Proof using Hs.
  revert q. induction n as [|n IH]; intros q; [reflexivity|]. cbn [up]. pose proof (Hs q) as E.
  destruct (h !! q) as [b|], (h' !! q) as [b'|]; try contradiction; [|reflexivity]. rewrite E. cbn. destruct (pprev b); [apply IH|reflexivity].
Qed.

Lemma restatused_tree : tree_wf h -> tree_wf h'.
Proof using Hs.
  intros Hwf q bq Hq. destruct (restatused_lookup_inv q bq Hq) as (b0 & Hb0 & E).
  assert (Hext : forall q c, h !! q = Some c -> exists c', h' !! q = Some c' /\ pprev c' = pprev c /\ Chain.nHeight c' = Chain.nHeight c).
  { intros x bx Hx. destruct (restatused_lookup x bx Hx) as [st Hx']. eauto. }
  pose proof (block_ok_ext h h' q b0 Hwf Hb0 Hext (tree_ok h Hwf q b0 Hb0)) as [? ? ? ? ?]. rewrite E. constructor; assumption.
Qed.

Lemma restatused_dom : dom h' = dom h.
Proof using Hs.
  apply set_eq. intros p. rewrite !elem_of_dom. pose proof (Hs p) as E. destruct (h !! p), (h' !! p); try contradiction; [|tauto].
  split; intros _; eexists; reflexivity.
Qed.

Lemma restatused_chain_to c p : chain_to h c p -> chain_to h' c p.
Proof using Hs.
  intros (b & Hb & Hl & Hc). destruct (restatused_lookup p b Hb) as [st Hb']. exists (set_nStatus b st).
  split; [exact Hb'|]. split; [exact Hl|]. intros i Hi. rewrite restatused_up. apply Hc, Hi.
Qed.

Lemma restatused_active c : active_chain h c -> active_chain h' c.
Proof using Hs. intros [->|[t Ht]]; [left; reflexivity|right]. exists t. apply restatused_chain_to, Ht. Qed.
End Restatused.

(** The entries of [h'] are those of [h], the blocks [F] marked invalid. *)
Record relabelled (F : gset ptr) (h h' : heap) : Prop := {
  rl_status :> restatused h h';
  rl_data : forall p b b', h !! p = Some b -> h' !! p = Some b' -> has_data b' = has_data b;
  rl_failed : forall p b b', h !! p = Some b -> h' !! p = Some b' -> failed b' = (failed b || bool_decide (p ∈ F))%bool;
}.

Lemma relabelled_refl h : relabelled ∅ h h.
Proof.
  constructor; [apply restatused_refl| |]; intros p b b' E1 E2; assert (b' = b) as -> by congruence; [reflexivity|].
  rewrite bool_decide_eq_false_2 by set_solver. rewrite orb_false_r. reflexivity.
Qed.

Lemma relabelled_trans F1 F2 h1 h2 h3 : relabelled F1 h1 h2 -> relabelled F2 h2 h3 -> relabelled (F1 ∪ F2) h1 h3.
Proof.
  intros [A1 A2 A3] [B1 B2 B3]. constructor; [eapply restatused_trans; eauto| |]; intros p b b' E1 E3; destruct (restatused_lookup _ _ A1 p b E1) as [st E2].
  - rewrite (B2 p _ b' E2 E3). apply (A2 p b _ E1 E2).
  - rewrite (B3 p _ b' E2 E3), (A3 p b _ E1 E2), <- orb_assoc. f_equal. rewrite <- bool_decide_or. apply bool_decide_ext. set_solver.
Qed.

Lemma relabelled_insert F h p b st : h !! p = Some b -> Z.land st BLOCK_HAVE_DATA = Z.land (nStatus b) BLOCK_HAVE_DATA -> F ⊆ {[p]} ->
  failed (set_nStatus b st) = (failed b || bool_decide (p ∈ F))%bool -> relabelled F h (<[p := set_nStatus b st]> h).
Proof.
  intros Hp Hd HF Hf. constructor; [apply restatused_insert, Hp| |]; intros q bq bq' E1 E2; (destruct (decide (q = p)) as [->|Hne];
    [rewrite lookup_insert_eq in E2; injection E2 as <-; assert (bq = b) as -> by congruence|rewrite lookup_insert_ne in E2 by auto; assert (bq' = bq) as -> by congruence]).
  - unfold has_data. cbn. rewrite Hd. reflexivity.
  - reflexivity.
  - exact Hf.
  - rewrite bool_decide_eq_false_2 by set_solver. rewrite orb_false_r. reflexivity.
Qed.

(** A block marked invalid stays so, and one not failed gains nothing else. *)
Lemma failed_child b : failed (set_nStatus b (Z.lor (nStatus b) BLOCK_FAILED_CHILD)) = true.
Proof.
  unfold failed. cbn [nStatus set_nStatus]. apply negb_true_iff, Z.eqb_neq. intros E.
  assert (T : Z.testbit (Z.land (Z.lor (nStatus b) BLOCK_FAILED_CHILD) BLOCK_FAILED_MASK) 6 = true).
  { rewrite Z.land_spec, Z.lor_spec. change (Z.testbit BLOCK_FAILED_CHILD 6) with true. change (Z.testbit BLOCK_FAILED_MASK 6) with true.
    rewrite orb_true_r. reflexivity. }
  rewrite E, Z.bits_0 in T. discriminate.
Qed.

Lemma has_data_child b : has_data (set_nStatus b (Z.lor (nStatus b) BLOCK_FAILED_CHILD)) = has_data b.
Proof.
  unfold has_data. cbn [nStatus set_nStatus]. rewrite Z.land_lor_distr_l.
  change (Z.land BLOCK_FAILED_CHILD BLOCK_HAVE_DATA) with 0. rewrite Z.lor_0_r. reflexivity.
Qed.

Lemma below_failed_unusable h c p : below_failed h c p -> ~ usable h c p.
Proof. intros (n & q & bq & _ & Hu & Hq & Hc & Hf) Hus. destruct (Hus n q bq Hu Hq Hc). congruence. Qed.

(** ** What marking leaves alone *)

Lemma mark_usable h c p b : h !! p = Some b -> below_failed h c p ->
  forall x, usable (<[p := set_nStatus b (Z.lor (nStatus b) BLOCK_FAILED_CHILD)]> h) c x <-> usable h c x.
Proof.
  intros Hp Hb x. split.
  - intros Hus n q bq Hu Hq Hc. destruct (decide (q = p)) as [->|Hne].
    + destruct (Hus n p (set_nStatus b (Z.lor (nStatus b) BLOCK_FAILED_CHILD))) as [Hf _]; auto.
      * rewrite (restatused_up h _ (restatused_insert h p b _ Hp)). exact Hu.
      * apply lookup_insert_eq.
      * rewrite failed_child in Hf. discriminate.
    + apply (Hus n q bq); auto; [rewrite (restatused_up h _ (restatused_insert h p b _ Hp)); exact Hu|]. rewrite lookup_insert_ne by auto. exact Hq.
  - intros Hus n q bq Hu Hq Hc. rewrite (restatused_up h _ (restatused_insert h p b _ Hp)) in Hu. destruct (decide (q = p)) as [->|Hne].
    + destruct Hb as (m & r & br & _ & Hm & Hr & Hrc & Hf). destruct (Hus (n + m)%nat r br); [rewrite up_add, Hu; exact Hm|exact Hr|exact Hrc|congruence].
    + rewrite lookup_insert_ne in Hq by auto. apply (Hus n q bq); auto.
Qed.

Section Marked.
Context (c : CChain) (h h' : heap) (Hm : marked c h h').

Lemma marked_usable x : usable h' c x <-> usable h c x.
Proof using Hm. induction Hm as [|h1 p b ? IH Hp Hb]; [tauto|]. rewrite mark_usable by auto. auto. Qed.

Lemma marked_restatused : restatused h h'.
Proof using Hm. induction Hm; [apply restatused_refl|]. eapply restatused_trans; [eauto|]. apply restatused_insert; auto. Qed.

Lemma marked_up n x : up h' n x = up h n x.
Proof using Hm. apply restatused_up, marked_restatused. Qed.

Lemma marked_tree : tree_wf h -> tree_wf h'.
Proof using Hm. apply restatused_tree, marked_restatused. Qed.

Lemma marked_active : active_chain h c -> active_chain h' c.
Proof using Hm. apply restatused_active, marked_restatused. Qed.

Lemma marked_dom : dom h' = dom h.
Proof using Hm. apply restatused_dom, marked_restatused. Qed.

(** An entry keeps everything but its status, which only gains the mark, and
    that only below a failed block. *)
Lemma marked_entry x bx : h !! x = Some bx -> exists bx', h' !! x = Some bx' /\
  (bx' = bx \/ bx' = set_nStatus bx (Z.lor (nStatus bx) BLOCK_FAILED_CHILD) /\ ~ usable h c x).
Proof using Hm.
  intros Hx. induction Hm as [|h1 p b Hm1 IH Hp Hb]; [eauto|]. destruct (IH Hm1) as (bx' & Hx' & Hcase).
  destruct (decide (x = p)) as [->|Hne].
  - assert (bx' = b) as -> by congruence. exists (set_nStatus b (Z.lor (nStatus b) BLOCK_FAILED_CHILD)).
    rewrite lookup_insert_eq. split; [reflexivity|]. right.
    assert (Hnu : ~ usable h c p).
    { intros Hu. apply (below_failed_unusable h1 c p Hb). clear -Hm1 Hu.
      revert Hu. induction Hm1 as [|h2 q b2 ? IH2 Hq Hb2]; [tauto|]. intros Hu. rewrite mark_usable by auto. auto. }
    split; [|exact Hnu]. destruct Hcase as [->|[-> _]]; [reflexivity|]. cbn. rewrite <- Z.lor_assoc. reflexivity.
  - exists bx'. rewrite lookup_insert_ne by auto. auto.
Qed.

Lemma marked_worse `{WorkOrder, !WorkOrderLaws} x y : worse h' x y = worse h x y.
Proof using Hm. apply worse_status, marked_restatused. Qed.
End Marked.

(** ** The ends of the candidate set *)

Section Ends.
Context `{WorkOrder, !WorkOrderLaws} (h : heap).

Lemma last_of_list (l : list ptr) :
  match foldr (fun p acc => match acc with None => Some p | Some q => if worse h q p then Some p else Some q end) None l with
  | None => l = []
  | Some p => p ∈ l /\ forall q, q ∈ l -> q = p \/ worse h q p = true
  end.
Proof using All.
  induction l as [|x l IH]; cbn [foldr]; [reflexivity|]. destruct (foldr _ None l) as [q|].
  - destruct IH as [Hq Hmax]. destruct (worse h q x) eqn:E.
    + split; [left|]. intros y [->|Hy]%elem_of_cons; [left; reflexivity|].
      destruct (Hmax y Hy) as [->|Hw]; right; [exact E|]. eapply worse_trans; eauto.
    + split; [right; exact Hq|]. intros y [->|Hy]%elem_of_cons; [|auto].
      destruct (worse_total h x q) as [->|[Hw|Hw]]; [auto|auto|congruence].
  - subst l. split; [left|]. intros y Hy. apply list_elem_of_singleton in Hy. auto.
Qed.

Lemma last_candidate_spec (c : gset ptr) :
  match last_candidate h c with
  | None => c = ∅
  | Some p => p ∈ c /\ forall q, q ∈ c -> q = p \/ worse h q p = true
  end.
Proof using All.
  unfold last_candidate. pose proof (last_of_list (elements c)) as P. destruct (foldr _ None _) as [p|].
  - setoid_rewrite elem_of_elements in P. exact P.
  - apply elements_empty_inv in P. apply leibniz_equiv, P.
Qed.

Lemma first_of_list (l : list ptr) :
  match foldr (fun p acc => match acc with None => Some p | Some q => if worse h p q then Some p else Some q end) None l with
  | None => l = []
  | Some p => p ∈ l /\ forall q, q ∈ l -> q = p \/ worse h p q = true
  end.
Proof using All.
  induction l as [|x l IH]; cbn [foldr]; [reflexivity|]. destruct (foldr _ None l) as [q|].
  - destruct IH as [Hq Hmin]. destruct (worse h x q) eqn:E.
    + split; [left|]. intros y [->|Hy]%elem_of_cons; [left; reflexivity|].
      destruct (Hmin y Hy) as [->|Hw]; right; [exact E|]. eapply worse_trans; eauto.
    + split; [right; exact Hq|]. intros y [->|Hy]%elem_of_cons; [|auto].
      destruct (worse_total h x q) as [->|[Hw|Hw]]; [auto|congruence|auto].
  - subst l. split; [left|]. intros y Hy. apply list_elem_of_singleton in Hy. auto.
Qed.

Lemma first_candidate_spec (c : gset ptr) :
  match first_candidate h c with
  | None => c = ∅
  | Some p => p ∈ c /\ forall q, q ∈ c -> q = p \/ worse h p q = true
  end.
Proof using All.
  unfold first_candidate. pose proof (first_of_list (elements c)) as P. destruct (foldr _ None _) as [p|].
  - setoid_rewrite elem_of_elements in P. exact P.
  - apply elements_empty_inv in P. apply leibniz_equiv, P.
Qed.
End Ends.

(** ** The walk to the active chain *)

(** The assertion of the walk: blocks off the active chain have their
    transactions counted. *)
Definition counted (h : heap) (c : CChain) (p : ptr) : Prop :=
  forall n q bq, up h n p = Some q -> h !! q = Some bq -> ~ Some q ∈ c -> (HaveNumChainTxs bq || (Chain.nHeight bq =? 0))%bool = true.

(** [q] is the first block on the way back from [p] that cannot be used. *)
Definition blocked (h : heap) (c : CChain) (p q : ptr) (n : nat) (fFailedChain : bool) : Prop :=
  exists bq, up h n p = Some q /\ h !! q = Some bq /\ ~ Some q ∈ c /\ failed bq = fFailedChain /\
    (fFailedChain = true \/ has_data bq = false).

Section Walk.
Context (h : heap) (Hwf : tree_wf h) (c : CChain) (Hc : active_chain h c).

Lemma in_chain_down p q n : Some p ∈ c -> up h n p = Some q -> Some q ∈ c.
Proof using Hwf Hc.
  intros Hin Hu. apply list_elem_of_lookup in Hin as [i Hi].
  destruct (chain_height_lookup h Hwf c Hc i p Hi) as (b & Hb & EH).
  destruct (up_in h Hwf n p b q Hb Hu) as [_ Hle].
  pose proof (active_closed h c Hc i p (i - n)%nat (lookup_lt_Some _ _ _ Hi) Hi ltac:(lia)) as E.
  replace (i - (i - n))%nat with n in E by lia. rewrite Hu in E. apply list_elem_of_lookup. eauto.
Qed.

Lemma first_unusable_spec fuel : forall p b, h !! p = Some b -> Chain.nHeight b < Z.of_nat fuel -> counted h c p ->
  exists r, first_unusable fuel h c (Some p) = Ok r /\
    match r with
    | None => usable h c p
    | Some (q, f) => exists n, blocked h c p q n f
    end.
Proof using Hwf Hc.
  induction fuel as [|fuel IH]; intros p b Hp Hf Hcnt; pose proof (tree_ok h Hwf p b Hp) as [Hb Hroot Hprev _ _]; [lia|].
  cbn [first_unusable]. rewrite (Contains_spec h Hwf c Hc p b Hp). cbn [mbind res_bind].
  case_bool_decide as Hin.
  { exists None. split; [reflexivity|]. intros n q bq Hu Hq Hn. destruct Hn. eapply in_chain_down; eauto. }
  rewrite (deref_ok h p b Hp). cbn [mbind res_bind]. rewrite (Hcnt 0%nat p b) by auto. cbn [assert_ mbind res_bind].
  change (negb (Z.land (nStatus b) BLOCK_FAILED_MASK =? 0)) with (failed b).
  assert (Ed : (Z.land (nStatus b) BLOCK_HAVE_DATA =? 0) = negb (has_data b)) by (unfold has_data; rewrite negb_involutive; reflexivity).
  rewrite Ed. destruct (failed b || negb (has_data b))%bool eqn:Ebad.
  { exists (Some (p, failed b)). split; [reflexivity|]. exists 0%nat, b. split; [reflexivity|]. split; [exact Hp|]. split; [exact Hin|].
    split; [reflexivity|]. apply orb_true_iff in Ebad as [?|?]; [auto|right; apply negb_true_iff; auto]. }
  apply orb_false_iff in Ebad as [Ef Eh]. apply negb_false_iff in Eh.
  assert (Estep : forall n, up h (S n) p = q ← pprev b; up h n q) by (intros; cbn [up]; rewrite Hp; reflexivity).
  destruct (pprev b) as [q|] eqn:Eq.
  - destruct (Hprev q eq_refl) as (bq & Hq & EH).
    destruct (IH q bq Hq ltac:(lia)) as (r & Er & Hr).
    { intros n x bx Hu. apply (Hcnt (S n)). rewrite Estep. exact Hu. }
    exists r. split; [exact Er|]. destruct r as [[x f]|].
    + destruct Hr as (n & bx & Hu & Hrest). exists (S n), bx. rewrite Estep. auto.
    + intros [|n] x bx Hu Hx Hn; [cbn in Hu; simplify_eq; auto|]. rewrite Estep in Hu. apply (Hr n x bx); auto.
  - exists None. split; [destruct fuel; reflexivity|]. intros [|n] x bx Hu Hx Hn; [cbn in Hu; simplify_eq; auto|].
    rewrite Estep in Hu. discriminate.
Qed.

Lemma blocked_unusable p q n f m x : blocked h c p q n f -> (m <= n)%nat -> up h m p = Some x -> ~ usable h c x.
Proof using.
  intros (bq & Hu & Hq & Hn & Ef & Hbad) Hm Hx Hus.
  assert (up h (n - m) x = Some q) as Hxq.
  { replace n with (m + (n - m))%nat in Hu by lia. rewrite up_add, Hx in Hu. exact Hu. }
  destruct (Hus _ q bq Hxq Hq Hn). destruct Hbad; congruence.
Qed.
End Walk.

(** ** Narrowing the candidates *)

Section Narrow.
Context {W : Type}.
Notation CS := (Chainstate W).

(** What choosing a chain may do to the state: blocks below failed ones are
    marked, and candidates that cannot be used are dropped. *)
Record narrowed (s s' : CS) : Prop := {
  nr_chain : m_chain s' = m_chain s;
  nr_header : m_best_header s' = m_best_header s;
  nr_failed : m_failed_blocks s' = m_failed_blocks s;
  nr_locks : m_prune_locks s' = m_prune_locks s;
  nr_coins : CoinsTip s' = CoinsTip s;
  nr_blocks : block_files s' = block_files s;
  nr_undo : undo_files s' = undo_files s;
  nr_counters : m_counters s' = m_counters s;
  nr_flush : m_flush s' = m_flush s;
  nr_marked : marked (m_chain s) (m_block_index s) (m_block_index s');
  nr_sub : setBlockIndexCandidates s' ⊆ setBlockIndexCandidates s;
  nr_lost : forall q, q ∈ setBlockIndexCandidates s -> q ∉ setBlockIndexCandidates s' -> ~ usable (m_block_index s) (m_chain s) q;
}.

Lemma narrowed_refl s : narrowed s s.
Proof using. constructor; try reflexivity; [constructor|]. intros q Hq Hn. contradiction. Qed.

Lemma narrowed_trans s1 s2 s3 : narrowed s1 s2 -> narrowed s2 s3 -> narrowed s1 s3.
Proof using.
  intros [A1 A2 A3 A4 A5 A6 A7 A11 A12 A8 A9 A10] [B1 B2 B3 B4 B5 B6 B7 B11 B12 B8 B9 B10].
  constructor; try congruence.
  - rewrite A1 in B8. eapply marked_trans; eauto.
  - set_solver.
  - intros q Hq Hn. destruct (decide (q ∈ setBlockIndexCandidates s2)) as [H2|H2]; [|auto].
    rewrite <- (marked_usable _ _ _ A8 q), <- A1. auto.
Qed.

(** The state in which a chain can be chosen. *)
Record selectable (s : CS) : Prop := {
  sl_tree : tree_wf (m_block_index s);
  sl_chain : active_chain (m_block_index s) (m_chain s);
  sl_known : forall p, p ∈ setBlockIndexCandidates s -> is_Some (m_block_index s !! p);
  sl_counted : forall p, p ∈ setBlockIndexCandidates s -> counted (m_block_index s) (m_chain s) p;
  sl_invalid : forall p, m_best_invalid s = Some p -> is_Some (m_block_index s !! p);
}.

Lemma narrowed_selectable s s' : selectable s -> narrowed s s' ->
  (forall p, m_best_invalid s' = Some p -> is_Some (m_block_index s !! p)) -> selectable s'.
Proof using.
  intros [Ht Hc Hk Hcnt Hi] [E1 _ _ _ _ _ _ _ _ Hm Hsub _] Hi'.
  assert (Hdom : forall p, is_Some (m_block_index s !! p) -> is_Some (m_block_index s' !! p)).
  { intros p. rewrite <- !elem_of_dom, (marked_dom _ _ _ Hm). auto. }
  constructor.
  - eapply marked_tree; eauto.
  - rewrite E1. eapply marked_active; eauto.
  - auto.
  - intros p Hp n q bq Hu Hq Hn. rewrite E1 in Hn. rewrite (marked_up _ _ _ Hm) in Hu.
    destruct (m_block_index s !! q) as [b0|] eqn:Eq.
    + destruct (marked_entry _ _ _ Hm q b0 Eq) as (b1 & E & Hcase). assert (b1 = bq) as -> by congruence.
      pose proof (Hcnt p (Hsub p Hp) n q b0 Hu Eq Hn) as C. destruct Hcase as [->|[-> _]]; exact C.
    + assert (is_Some (m_block_index s !! q)) as [? ?]; [|congruence]. rewrite <- elem_of_dom, <- (marked_dom _ _ _ Hm). eapply elem_of_dom_2; eauto.
  - auto.
Qed.

Lemma remove_branch_spec t f m : forall fuel x (s : CS), tree_wf (m_block_index s) ->
  (m <= fuel)%nat -> is_Some (m_block_index s !! x) -> blocked (m_block_index s) (m_chain s) x t m f ->
  exists s', remove_branch fuel t f x s = (Ok tt, s') /\ narrowed s s' /\ m_best_invalid s' = m_best_invalid s /\
    (x <> t -> x ∉ setBlockIndexCandidates s').
Proof using.
  induction m as [|m IH]; intros fuel x s Hwf Hf [bx Hx] Hb; pose proof Hb as (bt & Hu & Ht & Hn & Ef & Hbad).
  - cbn in Hu. injection Hu as ->. exists s. destruct fuel; cbn [remove_branch]; rewrite bool_decide_eq_true_2 by reflexivity;
      (split; [reflexivity|]; split; [apply narrowed_refl|]; split; [reflexivity|congruence]).
  - destruct fuel as [|fuel]; [lia|]. cbn [remove_branch].
    assert (Hne : x <> t).
    { intros ->. pose proof (up_height _ Hwf _ _ _ _ _ Hx Hu Hx). lia. }
    rewrite bool_decide_eq_false_2 by auto. unfold mbind, stm_bind, get_st, lift_st.
    rewrite (deref_ok _ x bx Hx).
    cbn [up] in Hu. rewrite Hx in Hu. cbn in Hu. destruct (pprev bx) as [y|] eqn:Ey; [|discriminate]. cbn in Hu.
    destruct (tree_ok _ Hwf x bx Hx) as [_ _ Hprev _ _]. destruct (Hprev y Ey) as (by_ & Hy & _).
    set (s1 := if f then note_dirty x (update_index <[x := set_nStatus bx (Z.lor (nStatus bx) BLOCK_FAILED_CHILD)]> s)
               else update_unlinked (fun l => l ++ [(Some y, x)]) s).
    assert (E1 : (if f then mark_status x BLOCK_FAILED_CHILD else modify_st (update_unlinked (fun l => l ++ [(Some y, x)]))) s = (Ok tt, s1)).
    { unfold s1. destruct f; [|reflexivity]. unfold mark_status, mbind, stm_bind, get_st, lift_st. rewrite (deref_ok _ x bx Hx). reflexivity. }
    rewrite E1. cbn [erase_candidate modify_st access]. fold (access (A:=ptr)).
    set (s2 := update_candidates (fun c => c ∖ {[x]}) s1).
    assert (Hxus : ~ usable (m_block_index s) (m_chain s) x).
    { apply (blocked_unusable _ _ x t (S m) f 0%nat x Hb); [lia|reflexivity]. }
    assert (N2 : narrowed s s2).
    { unfold s2, s1. destruct f; constructor; try reflexivity; cbn.
      - eapply marked_one; [constructor|exact Hx|]. exists (S m), t, bt. split; [lia|]. split; [cbn [up]; rewrite Hx; cbn; rewrite Ey; exact Hu|]. auto.
      - set_solver.
      - intros q Hq Hq'. destruct (decide (q = x)) as [->|Hq2]; [exact Hxus|]. set_solver.
      - constructor.
      - set_solver.
      - intros q Hq Hq'. destruct (decide (q = x)) as [->|Hq2]; [exact Hxus|]. set_solver. }
    assert (Hwf2 : tree_wf (m_block_index s2)) by (apply (marked_tree _ _ _ (nr_marked _ _ N2)), Hwf).
    assert (Hy2 : is_Some (m_block_index s2 !! y)).
    { rewrite <- elem_of_dom, (marked_dom _ _ _ (nr_marked _ _ N2)). eapply elem_of_dom_2; eauto. }
    assert (Hb2 : blocked (m_block_index s2) (m_chain s2) y t m f).
    { destruct (decide (t = x)) as [|Htx]; [congruence|]. exists bt. rewrite (marked_up _ _ _ (nr_marked _ _ N2)), (nr_chain _ _ N2).
      split; [exact Hu|]. split; [|auto]. unfold s2, s1. destruct f; cbn; [rewrite lookup_insert_ne by auto|]; exact Ht. }
    destruct (IH fuel y s2 Hwf2 ltac:(lia) Hy2 Hb2) as (s' & E' & N' & Einv & _).
    exists s'. split; [exact E'|]. split; [eapply narrowed_trans; eauto|]. split.
    + rewrite Einv. unfold s2, s1. destruct f; reflexivity.
    + intros _ Hin. apply (nr_sub _ _ N') in Hin. unfold s2 in Hin. cbn in Hin. set_solver.
Qed.

Lemma note_best_invalid_spec p b (s : CS) : selectable s -> m_block_index s !! p = Some b ->
  exists s', note_best_invalid p b s = (Ok tt, s') /\ narrowed s s' /\ m_block_index s' = m_block_index s /\
    setBlockIndexCandidates s' = setBlockIndexCandidates s /\ (forall q, m_best_invalid s' = Some q -> is_Some (m_block_index s !! q)).
Proof using.
  intros Hs Hp. unfold note_best_invalid, mbind, stm_bind, get_st, lift_st.
  assert (K : forall better : bool, exists s', (if better then modify_st (update_best (Some p) (m_best_header s)) else mret tt) s = (Ok tt, s') /\
    narrowed s s' /\ m_block_index s' = m_block_index s /\ setBlockIndexCandidates s' = setBlockIndexCandidates s /\
    (forall q, m_best_invalid s' = Some q -> is_Some (m_block_index s !! q))).
  { intros [|].
    - eexists. split; [reflexivity|]. split; [constructor; try reflexivity; [constructor|]; intros q ? []; assumption|].
      split; [reflexivity|]. split; [reflexivity|]. cbn. intros q [= <-]. eauto.
    - exists s. split; [reflexivity|]. split; [apply narrowed_refl|]. split; [reflexivity|]. split; [reflexivity|]. apply (sl_invalid _ Hs). }
  destruct (m_best_invalid s) as [i|] eqn:Ei; [|exact (K true)].
  destruct (sl_invalid _ Hs i Ei) as [bi Hi]. rewrite (deref_ok _ i bi Hi). apply K.
Qed.
(** One round drops the best candidate when it cannot be used. *)
Lemma drop_candidate p b t n f (s : CS) : selectable s -> m_block_index s !! p = Some b -> p ∈ setBlockIndexCandidates s ->
  blocked (m_block_index s) (m_chain s) p t n f ->
  exists s', (_ ← (if f then note_best_invalid p b else mret tt);
              _ ← remove_branch (Z.to_nat (Chain.nHeight b)) t f p; erase_candidate t) s = (Ok tt, s') /\
    narrowed s s' /\ selectable s' /\ p ∉ setBlockIndexCandidates s'.
Proof using.
  intros Hs Hp Hin Hb.
  assert (N1 : exists s1, (if f then note_best_invalid p b else mret tt) s = (Ok tt, s1) /\ narrowed s s1 /\
    m_block_index s1 = m_block_index s /\ setBlockIndexCandidates s1 = setBlockIndexCandidates s /\
    (forall q, m_best_invalid s1 = Some q -> is_Some (m_block_index s !! q))).
  { destruct f; [apply note_best_invalid_spec; auto|]. exists s. split; [reflexivity|]. split; [apply narrowed_refl|].
    split; [reflexivity|]. split; [reflexivity|]. apply (sl_invalid _ Hs). }
  destruct N1 as (s1 & E1 & N1 & Eh & Ec & Hinv).
  assert (Hb1 : blocked (m_block_index s1) (m_chain s1) p t n f) by (rewrite Eh, (nr_chain _ _ N1); exact Hb).
  assert (Hn : (n <= Z.to_nat (Chain.nHeight b))%nat).
  { destruct Hb as (bt & Hu & _). destruct (up_in _ (sl_tree _ Hs) _ _ _ _ Hp Hu). lia. }
  destruct (remove_branch_spec t f n (Z.to_nat (Chain.nHeight b)) p s1) as (s2 & E2 & N2 & Ei2 & Hx); auto.
  { rewrite Eh. apply (sl_tree _ Hs). } { rewrite Eh. eauto. }
  set (s3 := update_candidates (fun c => c ∖ {[t]}) s2). exists s3.
  assert (N12 : narrowed s s2) by (eapply narrowed_trans; eauto).
  assert (Htus : ~ usable (m_block_index s2) (m_chain s2) t).
  { rewrite (nr_chain _ _ N12), (marked_usable _ _ _ (nr_marked _ _ N12)). destruct Hb as (bt & Hu & Hrest).
    apply (blocked_unusable _ _ p t n f n t); [exists bt; auto|lia|exact Hu]. }
  assert (N23 : narrowed s2 s3).
  { constructor; try reflexivity; [constructor|cbn; set_solver|]. cbn. intros q Hq Hq'.
    destruct (decide (q = t)) as [->|]; [exact Htus|set_solver]. }
  assert (N13 : narrowed s s3) by (eapply narrowed_trans; eauto).
  split.
  { unfold mbind, stm_bind. rewrite E1, E2. reflexivity. }
  split; [exact N13|]. split.
  - eapply narrowed_selectable; [exact Hs|exact N13|]. intros q Hq. apply Hinv. cbn in Hq. congruence.
  - cbn. destruct (decide (p = t)) as [->|Hne]; [set_solver|]. specialize (Hx Hne). set_solver.
Qed.

End Narrow.

(** ** The loop of [FindMostWorkChain] *)

Section Find.
Context `{WorkOrder, !WorkOrderLaws} {W : Type}.
Notation CS := (Chainstate W).

(** What [FindMostWorkChain] answers: the greatest usable candidate. *)
Definition best_usable (h : heap) (c : CChain) (cands : gset ptr) (r : option ptr) : Prop :=
  match r with
  | Some p => p ∈ cands /\ usable h c p /\ forall q, q ∈ cands -> usable h c q -> q = p \/ worse h q p = true
  | None => forall q, q ∈ cands -> ~ usable h c q
  end.

Lemma best_usable_narrowed (s s' : CS) r : narrowed s s' ->
  best_usable (m_block_index s') (m_chain s') (setBlockIndexCandidates s') r ->
  best_usable (m_block_index s) (m_chain s) (setBlockIndexCandidates s) r.
Proof.
  intros N. rewrite (nr_chain _ _ N). pose proof (marked_usable _ _ _ (nr_marked _ _ N)) as U.
  pose proof (marked_worse _ _ _ (nr_marked _ _ N)) as Wo. pose proof (nr_lost _ _ N) as L. pose proof (nr_sub _ _ N) as S.
  assert (K : forall q, q ∈ setBlockIndexCandidates s -> usable (m_block_index s) (m_chain s) q -> q ∈ setBlockIndexCandidates s').
  { intros q Hq Hu. destruct (decide (q ∈ setBlockIndexCandidates s')); [auto|]. destruct (L q); auto. }
  destruct r as [p|]; cbn.
  - intros (Hp & Hu & Hmax). split; [auto|]. split; [apply U, Hu|]. intros q Hq Hqu. rewrite <- Wo. apply Hmax; [auto|]. apply U, Hqu.
  - intros Hnone q Hq Hqu. apply (Hnone q); [auto|]. apply U, Hqu.
Qed.

Lemma find_loop_spec fuel : forall s : CS, selectable s -> (size (setBlockIndexCandidates s) <= fuel)%nat ->
  exists r s', find_loop fuel s = (Ok r, s') /\ narrowed s s' /\ selectable s' /\
    best_usable (m_block_index s') (m_chain s') (setBlockIndexCandidates s') r.
Proof.
  induction fuel as [|fuel IH]; intros s Hs Hf.
  all: pose proof (last_candidate_spec (m_block_index s) (setBlockIndexCandidates s)) as L.
  all: cbn [find_loop]; unfold mbind at 1, stm_bind at 1, get_st at 1.
  all: destruct (last_candidate _ _) as [p|].
  2, 4: exists None, s; (split; [reflexivity|]); (split; [apply narrowed_refl|]); (split; [exact Hs|]); cbn; intros q; rewrite L; set_solver.
  { destruct L as [Hp _]. assert (size (setBlockIndexCandidates s) = 0)%nat as E by lia. apply size_empty_inv in E. set_solver. }
  destruct L as [Hp Hmax]. destruct (sl_known _ Hs p Hp) as [b Hb].
  unfold mbind at 1, stm_bind at 1, lift_st at 1. rewrite (deref_ok _ p b Hb).
  pose proof (tree_ok _ (sl_tree _ Hs) p b Hb) as [Hh _ _ _ _].
  destruct (first_unusable_spec _ (sl_tree _ Hs) _ (sl_chain _ Hs) (S (Z.to_nat (Chain.nHeight b))) p b Hb ltac:(lia) (sl_counted _ Hs p Hp))
    as (r & Er & Hr).
  unfold mbind at 1, stm_bind at 1, lift_st at 1. rewrite Er. destruct r as [[t f]|].
  - destruct Hr as [n Hbl]. destruct (drop_candidate p b t n f s Hs Hb Hp Hbl) as (s1 & E1 & N1 & S1 & Hgone).
    assert (Hsz : (size (setBlockIndexCandidates s1) <= fuel)%nat).
    { assert (setBlockIndexCandidates s1 ⊂ setBlockIndexCandidates s) as Hlt by (pose proof (nr_sub _ _ N1); set_solver).
      apply subset_size in Hlt. lia. }
    destruct (IH s1 S1 Hsz) as (r & s' & E' & N' & S' & B'). exists r, s'. split; [|split; [eapply narrowed_trans; eauto|auto]].
    revert E1. unfold mbind, stm_bind. set (m0 := if f then note_best_invalid p b else mret tt).
    destruct (m0 s) as [[[]|] sa]; [|discriminate].
    destruct (remove_branch _ _ _ _ sa) as [[[]|] sb]; [|discriminate]. intros E1. rewrite E1. exact E'.
  - exists (Some p), s. split; [reflexivity|]. split; [apply narrowed_refl|]. split; [exact Hs|]. cbn. auto.
Qed.

(** ** The loop of [PruneBlockIndexCandidates] *)

Lemma update_candidates_twice f g (s : CS) : update_candidates f (update_candidates g s) = update_candidates (fun c => f (g c)) s.
Proof. reflexivity. Qed.

Definition not_worse (h : heap) (tip : ptr) (cands : gset ptr) : gset ptr := filter (fun p => worse h p tip = false) cands.

Lemma prune_loop_spec tip fuel : forall s : CS, (size (setBlockIndexCandidates s) <= fuel)%nat ->
  prune_loop fuel tip s = (Ok tt, update_candidates (not_worse (m_block_index s) tip) s).
Proof.
  induction fuel as [|fuel IH]; intros s Hf.
  all: pose proof (first_candidate_spec (m_block_index s) (setBlockIndexCandidates s)) as L.
  all: cbn [prune_loop]; unfold mbind at 1, stm_bind at 1, get_st at 1.
  all: destruct (first_candidate _ _) as [p|].
  2, 4: cbn; f_equal; destruct s; cbn in *; unfold update_candidates; cbn; f_equal; rewrite L; unfold not_worse; set_solver.
  { destruct L as [Hp _]. assert (size (setBlockIndexCandidates s) = 0)%nat as E by lia. apply size_empty_inv in E. set_solver. }
  destruct L as [Hp Hmin]. destruct (worse (m_block_index s) p tip) eqn:Ew.
  - unfold mbind, stm_bind. cbn [erase_candidate modify_st]. rewrite IH.
    + rewrite update_candidates_twice. f_equal. unfold update_candidates. cbn. f_equal. unfold not_worse. apply leibniz_equiv. intros q.
      rewrite !elem_of_filter, elem_of_difference, elem_of_singleton. split; [tauto|]. intros [Hq Hc]. split; [exact Hq|]. split; [exact Hc|].
      intros ->. congruence.
    + cbn. assert (setBlockIndexCandidates s ∖ {[p]} ⊂ setBlockIndexCandidates s) as Hlt by set_solver. apply subset_size in Hlt. lia.
  - cbn. f_equal. destruct s; cbn in *. unfold update_candidates; cbn. f_equal. apply leibniz_equiv. intros q. unfold not_worse.
    rewrite elem_of_filter. split; [|tauto]. intros Hq. split; [|exact Hq]. destruct (Hmin q Hq) as [->|Hw]; [exact Ew|].
    destruct (worse _ q tip) eqn:E; [|reflexivity]. rewrite (worse_trans _ p q tip) in Ew; auto.
Qed.

Lemma PruneBlockIndexCandidates_spec tip (s : CS) : Tip (m_chain s) = Some tip ->
  let left := not_worse (m_block_index s) tip (setBlockIndexCandidates s) in
  PruneBlockIndexCandidates s = (if bool_decide (left = ∅) then Fail AssertFailed else Ok tt,
                                 update_candidates (fun _ => left) s).
Proof.
  intros Ht. cbn. unfold PruneBlockIndexCandidates, mbind, stm_bind, get_st, lift_st. rewrite Ht. cbn [access].
  rewrite prune_loop_spec by reflexivity. cbn. case_bool_decide; reflexivity.
Qed.
End Find.

(** ** Examples *)

(** A comparator that satisfies the laws: more work is better, then the block
    received first, then the address. *)
Definition order_key (h : heap) (p : ptr) : Z * Z * Z :=
  match h !! p with
  | Some b => (uval (nChainWork b), - nSequenceId b, - Z.of_nat p)
  | None => (0, 0, - Z.of_nat p)
  end.
Definition key_lt (a b : Z * Z * Z) : bool :=
  let '(a1, a2, a3) := a in let '(b1, b2, b3) := b in
  (a1 <? b1) || ((a1 =? b1) && ((a2 <? b2) || ((a2 =? b2) && (a3 <? b3)))).
#[local] Instance by_work : WorkOrder := {| worse h a b := key_lt (order_key h a) (order_key h b) |}.

Lemma key_lt_iff a b : key_lt a b = true <->
  a.1.1 < b.1.1 \/ a.1.1 = b.1.1 /\ (a.1.2 < b.1.2 \/ a.1.2 = b.1.2 /\ a.2 < b.2).
Proof. destruct a as [[? ?] ?], b as [[? ?] ?]. cbn. lia. Qed.

#[local] Instance by_work_laws : WorkOrderLaws.
Proof.
  constructor; cbn [worse by_work].
  - intros h p. apply not_true_iff_false. rewrite key_lt_iff. lia.
  - intros h a b c. rewrite !key_lt_iff. lia.
  - intros h a b. rewrite !key_lt_iff. destruct (decide (a = b)); [auto|right].
    assert (forall p, (order_key h p).2 = - Z.of_nat p) as E by (intros; unfold order_key; destruct (h !! _); reflexivity).
    rewrite !E. lia.
  - intros h a b ba bb Ha Hb Wa Wb. rewrite uint_lt_spec by assumption. intros L%Z.ltb_lt.
    rewrite key_lt_iff. left. unfold order_key. rewrite Ha, Hb. exact L.
  - intros h h' x y R. assert (K : forall p, order_key h' p = order_key h p); [|rewrite !K; reflexivity].
    intros p. unfold order_key. specialize (R p). destruct (h !! p), (h' !! p); try contradiction; [rewrite R|]; reflexivity.
Qed.

Definition entry (id : Z) (prev : option ptr) (height : Z) (work : Z) (status : Z) : CBlockIndex :=
  {| phashBlock := Some [id]; pprev := prev; pskip := None; Chain.nHeight := height;
     nFile := 0; nDataPos := 0; nUndoPos := 0; nChainWork := le_digits 32 8 work; nTx := 1; nChainTx := height + 1;
     nStatus := status; Chain.nVersion := 0; hashMerkleRoot := []; nTime := 100 + height;
     nBits := 0x1d00ffff; nNonce := 0; nSequenceId := id; nTimeMax := 100 + height |}.

Definition good_status : Z := Z.lor BLOCK_VALID_TRANSACTIONS BLOCK_HAVE_DATA.

(** The active chain 0-1-2; off block 1 a branch 3-4-5 whose first block is
    invalid, a branch 6-7 whose first block is pruned, and the good branch 8-9. *)
Definition forked_tree : heap :=
  list_to_map [(0%nat, entry 0 None 0 1 good_status);
               (1%nat, entry 1 (Some 0%nat) 1 2 good_status);
               (2%nat, entry 2 (Some 1%nat) 2 3 good_status);
               (3%nat, entry 3 (Some 1%nat) 2 10 (Z.lor good_status BLOCK_FAILED_VALID));
               (4%nat, entry 4 (Some 3%nat) 3 20 good_status);
               (5%nat, entry 5 (Some 4%nat) 4 30 good_status);
               (6%nat, entry 6 (Some 1%nat) 2 8 BLOCK_VALID_TRANSACTIONS);
               (7%nat, entry 7 (Some 6%nat) 3 9 good_status);
               (8%nat, entry 8 (Some 1%nat) 2 4 good_status);
               (9%nat, entry 9 (Some 8%nat) 3 5 good_status)].

Definition no_coins : CCoinsViewCache unit := new_cache tt.
Definition forked_state : Chainstate unit :=
  {| m_block_index := forked_tree; m_chain := [Some 0%nat; Some 1%nat; Some 2%nat]; setBlockIndexCandidates := {[ 2; 4; 5; 7; 9 ]}%nat;
     m_best_invalid := None; m_best_header := Some 5%nat; m_failed_blocks := {[ 3%nat ]}; m_dirty_blockindex := ∅; m_blocks_unlinked := [];
     m_prune_locks := ∅; m_counters := {| nBlockSequenceId := 10; nBlockReverseSequenceId := -1; nLastPreciousChainwork := uint_zero |};
     m_flush := {| m_last_write := 0; m_last_flush := 0; m_check_for_pruning := false; m_have_pruned := true |};
     CoinsTip := no_coins; block_files := ∅; undo_files := ∅ |}.

Lemma counted_all (h : heap) c : forallb (fun kb => HaveNumChainTxs kb.2 || (Chain.nHeight kb.2 =? 0))%bool (map_to_list h) = true ->
  forall p, counted h c p.
Proof.
  intros E p n q bq _ Hq _. rewrite forallb_forall in E. specialize (E (q, bq)).
  rewrite <- list_elem_of_In, elem_of_map_to_list in E. auto.
Qed.

Lemma forked_selectable : selectable forked_state.
Proof.
  split.
  - apply tree_wfb_ok. vm_compute. reflexivity.
  - right. exists 2%nat. eexists. split; [reflexivity|]. split; [reflexivity|].
    intros i Hi. simpl in Hi. do 3 (destruct i as [|i]; [reflexivity|]). lia.
  - intros p Hp. cbn in Hp. repeat (apply elem_of_union in Hp as [Hp|Hp]); apply elem_of_singleton in Hp; subst p; eexists; reflexivity.
  - intros p _. apply counted_all. vm_compute. reflexivity.
  - discriminate.
Qed.

(** C8. [FindMostWorkChain] terminates and returns the best candidate whose whole
    branch can be used: every block between it and the active chain has its
    data and is not known to be invalid, and any other usable candidate sorts
    before it; it returns nothing only when no candidate is usable.  Along the
    way it drops only candidates that cannot be used, never touches the chain
    or the coins, and marks only descendants of failed blocks. *)
Theorem FindMostWorkChain_correct {HW : WorkOrder} {HWL : WorkOrderLaws} {W : Type} (s : Chainstate W) : selectable s ->
  exists r s', FindMostWorkChain s = (Ok r, s') /\
    best_usable (m_block_index s) (m_chain s) (setBlockIndexCandidates s) r /\
    (forall p, r = Some p -> p ∈ setBlockIndexCandidates s') /\ narrowed s s' /\ selectable s'.
Proof.
  intros Hs. unfold FindMostWorkChain, mbind, stm_bind, get_st.
  destruct (find_loop_spec (size (setBlockIndexCandidates s)) s Hs ltac:(lia)) as (r & s' & E & N & S' & B). exists r, s'.
  split; [exact E|]. split; [eapply best_usable_narrowed; eauto|]. split; [|auto]. intros p ->. apply B.
Qed.

Lemma FindMostWorkChain_correct_witness : exists s', FindMostWorkChain forked_state = (Ok (Some 9%nat), s') /\
  usable forked_tree (m_chain forked_state) 9 /\ ~ usable forked_tree (m_chain forked_state) 5 /\ narrowed forked_state s'.
Proof.
  destruct (FindMostWorkChain_correct forked_state forked_selectable) as (r & s' & E & B & _ & N & _).
  assert (F : fst (FindMostWorkChain forked_state) = Ok (Some 9%nat)) by (vm_compute; reflexivity).
  rewrite E in F. injection F as ->. exists s'. split; [exact E|]. split; [apply B|]. split; [|exact N].
  intros U. destruct (proj2 (proj2 B) 5%nat) as [?|L]; [vm_compute; reflexivity|exact U|discriminate|vm_compute in L; discriminate].
Defined.

(** [PruneBlockIndexCandidates] removes exactly the candidates that are worse
    than the tip and changes nothing else; its assertion fails just when
    nothing is left, so it holds whenever the tip, or a better block, is a
    candidate. *)
Theorem PruneBlockIndexCandidates_correct {HW : WorkOrder} {HWL : WorkOrderLaws} {W : Type} (s : Chainstate W) (tip : ptr) :
  Tip (m_chain s) = Some tip ->
  exists r left, PruneBlockIndexCandidates s = (r, update_candidates (fun _ => left) s) /\
    (forall p, p ∈ left <-> p ∈ setBlockIndexCandidates s /\ worse (m_block_index s) p tip = false) /\
    (r = Ok tt <-> exists p, p ∈ setBlockIndexCandidates s /\ worse (m_block_index s) p tip = false) /\
    (r <> Ok tt -> r = Fail AssertFailed) /\
    (tip ∈ setBlockIndexCandidates s -> r = Ok tt /\ tip ∈ left).
Proof.
  intros Ht. rewrite (PruneBlockIndexCandidates_spec tip s Ht). set (left := not_worse _ _ _).
  assert (L : forall p, p ∈ left <-> p ∈ setBlockIndexCandidates s /\ worse (m_block_index s) p tip = false).
  { intros p. unfold left, not_worse. rewrite elem_of_filter. tauto. }
  eexists _, left. split; [reflexivity|]. split; [exact L|].
  assert (R : bool_decide (left = ∅) = false <-> exists p, p ∈ left).
  { rewrite bool_decide_eq_false. split; [|intros [p Hp] E; set_solver]. intros Hne. apply set_choose_L in Hne as [p Hp]. eauto. }
  split; [|split].
  - split.
    + intros E. destruct (bool_decide (left = ∅)); [discriminate|]. destruct (proj1 R eq_refl) as [p Hp]. exists p. apply L, Hp.
    + intros [p Hp]. apply L in Hp. rewrite (proj2 R) by eauto. reflexivity.
  - destruct (bool_decide _); [auto|congruence].
  - intros Hin. assert (tip ∈ left) as Hl by (apply L; split; [exact Hin|apply worse_irrefl]).
    rewrite (proj2 R) by eauto. auto.
Qed.

Lemma PruneBlockIndexCandidates_correct_witness : exists left,
  PruneBlockIndexCandidates forked_state = (Ok tt, update_candidates (fun _ => left) forked_state) /\ 2%nat ∈ left.
Proof.
  destruct (PruneBlockIndexCandidates_correct forked_state 2 eq_refl) as (r & left & E & _ & _ & _ & T).
  destruct T as [-> T]; [vm_compute; reflexivity|]. exists left. auto.
Defined.
