(* ===== verification/ChainSteps.v ===== *)
(** * Moving the tip

    [DisconnectTip] and [ConnectTip] keep the coins in step with the chain, and
    so does [ActivateBestChainStep]. *)

From stdpp Require Import base numbers list gmap strings.
From Stdlib Require Import ZArith Lia.
From S2P Require Import Prelude ArithUint256 Compact Params Chain ActiveChain ChainWork Pow VersionBits Merkle Streams Serialize Compressor Transaction Coins CoinsProofs CoinsRefinement TxCheck Locks Blocks Connect ConnectBlock Replay ChainState ChainSelectionProofs ChainSelection.

Local Open Scope Z_scope.

(** * Moving the tip keeps the coins in step with the chain

    Theorems about [DisconnectTip], [ConnectTip] and [ActivateBestChainStep]
    (src/validation.cpp) as [ChainSelection] models them.  [synced] is the
    invariant of the node: the coins of [CoinsTip()] are those of replaying the
    active chain, its best block is the tip, and every block of the chain can
    be taken off with the undo data on disk. *)

Section Tip.
Context {HP : Primitives} {HPL : PrimitivesLaws} {W : Type} {HW : CCoinsView W} {HA : ViewAbs W} {HVL : ViewLaws W}.
Context {HT : TxEnv} {HTL : TxEnvLaws} {HB : BlockEnv} {HE : LockEnv} {HL : LockEnvLaws} {HC : ConnectEnv}.
Context {HO : WorkOrder} {HOL : WorkOrderLaws} {HS : BlockStore W} {HSL : BlockStoreLaws W}.
Context (txout_size : Z) (params : Params) (ctx : node_context).
Notation CS := (Chainstate W).

(** ** The invariant *)

(** What header checks establish for every entry of the index: a hash, a proof
    of work that adds to the work of the parent, heights far from overflow. *)
Record entry_ok (h : heap) (p : ptr) (b : CBlockIndex) : Prop := {
  en_hash : exists x, phashBlock b = Some x /\ le_val 8 x <> 0 /\ (pprev b <> None -> x <> hashGenesisBlock params);
  en_low : Chain.nHeight b < 2 ^ 30;
  en_work : wf (nChainWork b) /\ uval (nChainWork b) * nPowTargetSpacing params < 2 ^ 256;
  en_bits : in_u 32 (nBits b) /\ compact_target (nBits b) <> None;
  en_grows : forall q bq, pprev b = Some q -> h !! q = Some bq -> uval (nChainWork bq) < uval (nChainWork b);
}.
Definition index_ok (h : heap) : Prop := tree_wf h /\ map_Forall (entry_ok h) h.

(** What [AcceptBlock] establishes for the blocks on disk: the block of an entry
    has its hash, and no transaction of a branch repeats an identifier. *)
Record stored_ok (h : heap) (p : ptr) (block : CBlock) : Prop := {
  st_hash : forall b, h !! p = Some b -> GetBlockHash b = Ok (header_hash (header block));
  st_flags : flags_sound params block;
  st_outputs : Forall countable_outputs (vtx block);
  st_distinct : NoDup (map GetHash (vtx block));
}.
Definition files_ok (h : heap) (files : gmap ptr CBlock) : Prop := map_Forall (stored_ok h) files /\
  forall p a n bp ba tx tx', up h (S n) p = Some a -> files !! p = Some bp -> files !! a = Some ba ->
    tx ∈ vtx bp -> tx' ∈ vtx ba -> GetHash tx <> GetHash tx'.

Definition known (h : heap) (o : option ptr) : Prop := forall p, o = Some p -> is_Some (h !! p).

Record synced (s : CS) (tip : ptr) : Prop := {
  sy_index : index_ok (m_block_index s);
  sy_files : files_ok (m_block_index s) (block_files s);
  sy_chain : chain_to (m_block_index s) (m_chain s) tip;
  sy_view : view_ok (CoinsTip s);
  sy_coins : coins (CoinsTip s) = replay (block_files s) (m_chain s);
  sy_best : exists b x, m_block_index s !! tip = Some b /\ phashBlock b = Some x /\ best (CoinsTip s) = le_val 8 x;
  sy_built : built (block_files s) (undo_files s) (m_chain s);
  sy_header : m_best_header s <> None /\ known (m_block_index s) (m_best_header s);
  sy_invalid : known (m_block_index s) (m_best_invalid s);
  sy_find : forall x p, find_block ctx x = Some p -> is_Some (m_block_index s !! p);
}.

Definition params_ok : Prop := 0 < nSubsidyHalvingInterval params /\ in_u 63 (nPowTargetSpacing params).

(** ** What a change of status leaves alone *)

Lemma index_ok_restatused h h' : restatused h h' -> index_ok h -> index_ok h'.
Proof using.
  intros R [Ht Hi]. split; [eapply restatused_tree; eauto|]. intros p b Hb. destruct (restatused_lookup_inv _ _ R p b Hb) as (b0 & H0 & ->).
  destruct (Hi p b0 H0) as [? ? ? ? Hg]. constructor; try assumption. intros q bq Eq Hq. destruct (restatused_lookup_inv _ _ R q bq Hq) as (bq0 & Hq0 & ->).
  apply (Hg q bq0 Eq Hq0).
Qed.

Lemma files_ok_restatused h h' files : restatused h h' -> files_ok h files -> files_ok h' files.
Proof using.
  intros R [Hf Hd]. split.
  - intros p block Hp. destruct (Hf p block Hp) as [? ? ? ?]. constructor; try assumption. intros b Hb.
    destruct (restatused_lookup_inv _ _ R p b Hb) as (b0 & H0 & ->). apply (st_hash _ _ _ (Hf p block Hp) b0 H0).
  - intros p a n bp ba tx tx'. rewrite (restatused_up _ _ R). apply Hd.
Qed.

Lemma known_restatused h h' o : restatused h h' -> known h o -> known h' o.
Proof using. intros R Hk p E. destruct (Hk p E) as [b Hb]. destruct (restatused_lookup _ _ R p b Hb) as [st ?]. eauto. Qed.

(** The parts of the invariant that a change of status, of the sets and of the
    best blocks keeps. *)
Lemma synced_marks (s s' : CS) tip : synced s tip -> restatused (m_block_index s) (m_block_index s') -> m_chain s' = m_chain s ->
  block_files s' = block_files s -> undo_files s' = undo_files s -> same_view (CoinsTip s) (CoinsTip s') ->
  m_best_header s' <> None -> known (m_block_index s) (m_best_header s') -> known (m_block_index s) (m_best_invalid s') -> synced s' tip.
Proof using.
  intros [] R Ec Ef Eu (C & B & O) Hh Hk Hi. constructor.
  - eapply index_ok_restatused; eauto.
  - rewrite Ef. eapply files_ok_restatused; eauto.
  - rewrite Ec. eapply restatused_chain_to; eauto.
  - exact O.
  - rewrite C, Ef, Ec. exact sy_coins0.
  - destruct sy_best0 as (b & x & Hb & Hx & E). destruct (restatused_lookup _ _ R tip b Hb) as [st Hb']. exists (set_nStatus b st), x. rewrite B. auto.
  - rewrite Ef, Eu, Ec. exact sy_built0.
  - split; [exact Hh|eapply known_restatused; eauto].
  - eapply known_restatused; eauto.
  - intros x p E. destruct (sy_find0 x p E) as [b Hb]. destruct (restatused_lookup _ _ R p b Hb) as [st ?]. eauto.
Qed.

Lemma new_cache_same {V} `{!CCoinsView V, !ViewAbs V, !ViewLaws V} (v : V) : view_ok v ->
  view_ok (new_cache v) /\ coins (new_cache v) = coins v /\ best (new_cache v) = best v.
Proof using.
  intros Hok. split; [split; [exact Hok|split; [apply map_Forall_empty|reflexivity]]|]. split; [|reflexivity].
  apply map_eq. intros op. change (overlay ∅ (coins v) !! op = coins v !! op). rewrite lookup_overlay, lookup_empty. reflexivity.
Qed.

(** ** [DisconnectTip] *)

Lemma synced_coins_ok s tip b : synced s tip -> m_block_index s !! tip = Some b -> coins_ok (Chain.nHeight b) (coins (CoinsTip s)).
Proof using.
  intros [[Ht Hi] _ Hc _ E _ Hb _ _ _] Htip. pose proof (chain_to_length _ Ht _ _ b Hc Htip) as El. destruct (Hi tip b Htip) as [_ Hlow _ _ _].
  destruct (tree_ok _ Ht tip b Htip) as [Hh _ _ _ _].
  rewrite E. unfold replay. replace (Chain.nHeight b) with (Z.of_nat (length (m_chain s) - 1)) by lia.
  eapply replay_coins_ok; eauto; lia.
Qed.

Lemma DisconnectTip_spec io state (s : CS) p b q : synced s p -> m_block_index s !! p = Some b -> pprev b = Some q ->
  IsPruneMode (flushing io) = false -> exists ok st' s',
  DisconnectTip txout_size io state s = (Ok (ok, st'), s') /\ (ok = false -> m_mode st' = M_ERROR) /\
  (ok = true -> st' = state /\ synced s' q /\ m_chain s = m_chain s' ++ [Some p] /\ m_block_index s' = m_block_index s /\
     setBlockIndexCandidates s' = setBlockIndexCandidates s /\ block_files s' = block_files s).
Proof using HPL HVL HSL.
  intros Hs Hp Eq Hprune. pose proof Hs as [Hix Hfi Hch Hv Hcoins Hbest Hbu Hhd Hin Hfd]. pose proof Hix as [Ht Hi].
  destruct (chain_to_parent _ Ht _ _ b q Hch Hp Eq) as (c0 & Ec & Hc0).
  destruct (ok_prev _ _ _ (tree_ok _ Ht p b Hp) q Eq) as (bq & Hq & EH). destruct (tree_ok _ Ht q bq Hq) as [Hhq _ _ _ _].
  destruct (en_hash _ _ _ (Hi q bq Hq)) as (xq & Exq & Hxq & _). destruct Hbest as (b' & x & Hb' & Ex & Eb). assert (b' = b) as -> by congruence.
  pose proof (chain_to_length _ Ht _ _ bq Hc0 Hq) as El0.
  assert (Hne : c0 <> []) by (intros ->; cbn in El0; lia).
  assert (Hlast : m_chain s !! length c0 = Some (Some p)) by (rewrite Ec, lookup_app_r, Nat.sub_diag by lia; reflexivity).
  destruct (Hbu (length c0) p ltac:(destruct c0; [contradiction|cbn; lia]) Hlast) as (block & cb & rest & Hf & Ev & Hcb & Hrest & Hfit & Hun).
  assert (Er : replay_upto (block_files s) (m_chain s) (length c0 - 1) = replay (block_files s) c0).
  { unfold replay. rewrite Ec. apply replay_upto_app. destruct c0; [contradiction|cbn; lia]. }
  rewrite Er in Hfit, Hun. assert (Eht : Z.of_nat (length c0) = Chain.nHeight b) by lia. rewrite Eht in Hfit, Hun.
  assert (Hcs : coins (CoinsTip s) = connect_all (Chain.nHeight b) (vtx block) (replay (block_files s) c0)).
  { rewrite Hcoins, Ec, (replay_snoc _ c0 p block Hne Hf), Eht. reflexivity. }
  destruct (new_cache_same (CoinsTip s) Hv) as (O0 & C0 & B0).
  unfold DisconnectTip. unfold mbind at 1, stm_bind at 1, get_st at 1. unfold mbind at 1, stm_bind at 1, lift_st at 1.
  rewrite (chain_to_tip _ Ht _ _ Hch). unfold mbind at 1, stm_bind at 1, lift_st at 1. rewrite (deref_ok _ p b Hp).
  unfold mbind at 1, stm_bind at 1, lift_st at 1. rewrite Eq, Hf.
  destruct (GetBestBlock_spec (new_cache (CoinsTip s)) O0) as (c1 & E1 & (C1 & B1 & O1)).
  assert (Hxh : GetBlockHash b = Ok x) by (unfold GetBlockHash; rewrite Ex; reflexivity).
  destruct (bip30_tests_total b x Hxh) as [_ [un Eun]].
  assert (Hu : coins_ok (Chain.nHeight b) (replay (block_files s) c0)).
  { apply (coins_ok_le (Z.of_nat (length c0 - 1))); [lia|]. apply (replay_coins_ok _ (undo_files s) c0); [|destruct c0; [contradiction|cbn; lia]|].
    - rewrite Ec in Hbu. eapply built_app; eauto.
    - pose proof (en_low _ _ _ (Hi p b Hp)). lia. }
  destruct (DisconnectBlock_spec txout_size (m_block_index s) p q b bq xq cb rest (replay (block_files s) c0) un c1 O1) as (c2 & E2 & O2 & C2 & B2 & Hh2);
    try assumption; try (rewrite <- Ev; assumption).
  { unfold GetBlockHash. rewrite Exq. reflexivity. }
  { pose proof (en_low _ _ _ (Hi p b Hp)). unfold in_u. lia. } { lia. }
  { rewrite C1, C0, Hcs, Ev. reflexivity. }
  rewrite <- Ev in E2.
  destruct (Flush_spec c2 O2) as (c3 & E3 & S3 & C3 & B3 & _); [rewrite Hh2; exact Hxq|].
  unfold mbind at 1, stm_bind at 1, on_new_view at 1. unfold mbind at 1, stm_bind at 1, lift_st at 1. rewrite Hxh.
  unfold mbind at 1, stm_bind at 1. rewrite E1. unfold mbind at 1, stm_bind at 1, lift_st at 1. rewrite B0, Eb, Z.eqb_refl. cbn [assert_].
  unfold mbind at 1, stm_bind at 1. rewrite Hun, E2. rewrite bool_decide_eq_true_2 by reflexivity.
  unfold mbind at 1, stm_bind at 1. rewrite E3. unfold mbind at 1, stm_bind at 1, lift_st at 1. cbn [assert_ mret stm_ret]. unfold mret at 1, stm_ret at 1. cbn [negb].
  unfold mbind at 1, stm_bind at 1, modify_st at 1. set (s1 := update_locks _ (update_coins (base c3) s)).
  assert (V1 : view_ok (CoinsTip s1)) by (cbn; exact (proj1 (proj2 (proj2 S3)))).
  destruct (FlushStateToDisk_spec (flushing io) IF_NEEDED 0 state s1 Hprune V1) as (ok & st' & s2 & E4 & F4 & R1 & R2).
  unfold mbind at 1, stm_bind at 1. rewrite E4. destruct ok; cbn [negb].
  2: { eexists false, st', s2. split; [reflexivity|]. split; [exact R2|discriminate]. }
  destruct (R1 eq_refl) as [-> _]. destruct F4 as (c4 & d & f & -> & (C4 & B4 & O4)).
  unfold mbind at 1, stm_bind at 1, lift_st at 1. rewrite (SetTip_to _ Ht (m_chain s) q bq p Hch Hq c0 Hc0).
  unfold mbind, stm_bind, modify_st, mret, stm_ret. eexists true, state, _. split; [reflexivity|]. split; [discriminate|]. intros _. split; [reflexivity|].
  split; [|split; [exact Ec|auto]]. constructor; cbn [m_block_index m_chain CoinsTip block_files undo_files m_best_header m_best_invalid update_chain update_coins update_dirty update_flush s1 update_locks]; try assumption.
  - rewrite C4. change (coins (base c3) = replay (block_files s) c0). congruence.
  - exists bq, xq. split; [exact Hq|]. split; [exact Exq|]. rewrite B4. change (best (base c3) = le_val 8 xq). congruence.
  - rewrite Ec in Hbu. eapply built_app; eauto.
Qed.

(** ** Blocks that fail *)

(** What marking the blocks [F] invalid does to a synchronised state: nothing
    but status, candidates and the best invalid and best header blocks. *)
Record marks_only (F : gset ptr) (s s' : CS) : Prop := {
  mo_chain : m_chain s' = m_chain s;
  mo_files : block_files s' = block_files s;
  mo_index : relabelled F (m_block_index s) (m_block_index s');
  mo_cands : forall q, q ∈ setBlockIndexCandidates s' <-> q ∈ setBlockIndexCandidates s /\ q ∉ F;
}.

Lemma marks_only_refl s : marks_only ∅ s s.
Proof using. constructor; try reflexivity; [apply relabelled_refl|]. intros q. split; [intros; split; [assumption|apply not_elem_of_empty]|tauto]. Qed.

Lemma marks_only_trans F1 F2 s1 s2 s3 : marks_only F1 s1 s2 -> marks_only F2 s2 s3 -> marks_only (F1 ∪ F2) s1 s3.
Proof using.
  intros [A1 A2 A3 A4] [B1 B2 B3 B4]. constructor; [transitivity (m_chain s2); assumption|transitivity (block_files s2); assumption|eapply relabelled_trans; eauto|].
  intros q. rewrite B4, A4, not_elem_of_union. tauto.
Qed.

Lemma marks_only_right F s1 s2 s3 : marks_only F s1 s2 -> marks_only ∅ s2 s3 -> marks_only F s1 s3.
Proof using. intros A B. pose proof (marks_only_trans _ _ _ _ _ A B) as M. rewrite (right_id_L ∅ (∪) F) in M. exact M. Qed.

Lemma marks_only_left F s1 s2 s3 : marks_only ∅ s1 s2 -> marks_only F s2 s3 -> marks_only F s1 s3.
Proof using. intros A B. pose proof (marks_only_trans _ _ _ _ _ A B) as M. rewrite (left_id_L ∅ (∪) F) in M. exact M. Qed.

Lemma marks_only_same s s' : m_chain s' = m_chain s -> block_files s' = block_files s -> m_block_index s' = m_block_index s ->
  setBlockIndexCandidates s' = setBlockIndexCandidates s -> marks_only ∅ s s'.
Proof using. intros E1 E2 E3 E4. constructor; auto; rewrite ?E3, ?E4; [apply relabelled_refl|apply (mo_cands _ _ _ (marks_only_refl s))]. Qed.

Lemma InvalidChainFound_spec (s : CS) tip p b : synced s tip -> m_block_index s !! p = Some b -> exists s',
  InvalidChainFound p s = (Ok tt, s') /\ synced s' tip /\ marks_only ∅ s s' /\ m_block_index s' = m_block_index s /\
  setBlockIndexCandidates s' = setBlockIndexCandidates s.
Proof.
  intros Hs Hp. pose proof Hs as [[Ht _] _ Hch Hv _ _ _ [Hh Hk] Hin _]. pose proof (chain_to_tip _ Ht _ _ Hch) as Etip.
  unfold InvalidChainFound. unfold mbind at 1, stm_bind at 1, get_st at 1. unfold mbind at 1, stm_bind at 1, lift_st at 1. rewrite (deref_ok _ p b Hp).
  assert (N : exists s1, note_best_invalid p b s = (Ok tt, s1) /\ (s1 = s \/ s1 = update_best (Some p) (m_best_header s) s)).
  { unfold note_best_invalid, mbind, stm_bind, get_st, lift_st. destruct (m_best_invalid s) as [i|] eqn:Ei.
    - destruct (Hin i eq_refl) as [bi Hi]. rewrite (deref_ok _ i bi Hi). cbn [mbind res_bind]. destruct (uint_gt _ _); eauto.
    - eauto. }
  destruct N as (s1 & E1 & Hs1). unfold mbind at 1, stm_bind at 1. rewrite E1. unfold mbind at 1, stm_bind at 1, get_st at 1.
  assert (Eq : m_block_index s1 = m_block_index s /\ m_chain s1 = m_chain s /\ m_best_header s1 = m_best_header s /\ known (m_block_index s) (m_best_invalid s1) /\
    synced s1 tip /\ marks_only ∅ s s1 /\ setBlockIndexCandidates s1 = setBlockIndexCandidates s).
  { assert (M : forall bi, known (m_block_index s) bi -> marks_only ∅ s (update_best bi (m_best_header s) s)) by (intros; apply marks_only_same; reflexivity).
    assert (Kp : known (m_block_index s) (Some p)) by (intros ? [= <-]; eauto).
    destruct Hs1 as [->| ->]; cbn.
    - split; [reflexivity|]. split; [reflexivity|]. split; [reflexivity|]. split; [exact Hin|]. split; [exact Hs|]. split; [apply marks_only_refl|reflexivity].
    - split; [reflexivity|]. split; [reflexivity|]. split; [reflexivity|]. split; [exact Kp|]. split; [|split; [auto|reflexivity]].
      apply (synced_marks s); auto using restatused_refl, same_view_refl. }
  destruct Eq as (Ei & Ec & Eh & Kin & Hs' & M1 & Ecd). rewrite Ei, Ec, Eh.
  destruct (m_best_header s) as [hd|] eqn:Ehd; [|contradiction]. destruct (Hk hd eq_refl) as [bh Hbh].
  unfold mbind at 1, stm_bind at 1, lift_st at 1. rewrite (GetAncestor_up _ Ht hd bh _ Hbh). rewrite Etip.
  rewrite (bool_decide_eq_true_2 (is_Some (Some hd))) by eauto. rewrite (bool_decide_eq_true_2 (is_Some (Some tip))) by eauto. cbn [andb].
  destruct (bool_decide _).
  - unfold mbind, stm_bind, modify_st, lift_st. cbn [assert_]. eexists. split; [reflexivity|].
    assert (Ktip : known (m_block_index s1) (Some tip)) by (intros ? [= <-]; rewrite Ei; destruct Hch as (bt & Hbt & _); eauto).
    split; [|split; [|split; [exact Ei|exact Ecd]]].
    + apply (synced_marks s1); try reflexivity; [exact Hs'|apply restatused_refl|apply same_view_refl, (sy_view _ _ Hs')|discriminate|exact Ktip|].
      rewrite Ei. exact Kin.
    + eapply marks_only_left; [exact M1|]. apply marks_only_same; reflexivity.
  - unfold mbind, stm_bind, mret, stm_ret, lift_st. cbn [assert_]. exists s1. auto.
Qed.

Lemma failed_valid b : failed (set_nStatus b (Z.lor (nStatus b) BLOCK_FAILED_VALID)) = true.
Proof using.
  unfold failed. cbn [nStatus set_nStatus]. apply negb_true_iff, Z.eqb_neq. intros E.
  assert (T : Z.testbit (Z.land (Z.lor (nStatus b) BLOCK_FAILED_VALID) BLOCK_FAILED_MASK) 5 = true).
  { rewrite Z.land_spec, Z.lor_spec. change (Z.testbit BLOCK_FAILED_VALID 5) with true. change (Z.testbit BLOCK_FAILED_MASK 5) with true.
    rewrite orb_true_r. reflexivity. }
  rewrite E, Z.bits_0 in T. discriminate.
Qed.

Lemma InvalidBlockFound_spec (s : CS) tip p b state : synced s tip -> m_block_index s !! p = Some b -> m_result state <> BLOCK_MUTATED -> exists s',
  InvalidBlockFound p state s = (Ok tt, s') /\ synced s' tip /\ marks_only {[p]} s s'.
Proof.
  intros Hs Hp Em. unfold InvalidBlockFound. rewrite bool_decide_eq_false_2 by exact Em.
  unfold mbind at 1, stm_bind at 1, mark_status. unfold mbind at 1, stm_bind at 1, get_st at 1. unfold mbind at 1, stm_bind at 1, lift_st at 1.
  rewrite (deref_ok _ p b Hp). unfold mbind, stm_bind, modify_st, erase_candidate, modify_st.
  set (b' := set_nStatus b _). set (s1 := update_candidates _ _).
  assert (M1 : marks_only {[p]} s s1).
  { constructor; try reflexivity; cbn; [|intros q; rewrite elem_of_difference; reflexivity]. apply relabelled_insert; [exact Hp| |reflexivity|].
    - rewrite Z.land_lor_distr_l. apply Z.lor_0_r.
    - rewrite failed_valid, bool_decide_eq_true_2 by set_solver. rewrite orb_true_r. reflexivity. }
  assert (Hs1 : synced s1 tip).
  { pose proof Hs as [_ _ _ Hv _ _ _ [Hh Hk] Hin _]. apply (synced_marks s); auto; [apply M1|apply same_view_refl, Hv]. }
  assert (Hp1 : m_block_index s1 !! p = Some b') by apply lookup_insert_eq.
  destruct (InvalidChainFound_spec s1 tip p b' Hs1 Hp1) as (s2 & E2 & Hs2 & M2 & Ei & Ec).
  exists s2. split; [exact E2|]. split; [exact Hs2|]. eapply marks_only_right; eauto.
Qed.

(** ** [ConnectTip] *)

(** The block handed over is the one on disk. *)
Definition block_given (s : CS) (p : ptr) (pblock : option CBlock) (block : CBlock) : Prop :=
  match pblock with Some bk => bk | None => block end = block /\
  exists fb, block_files s !! p = Some fb /\ header block = header fb /\ vtx block = vtx fb /\ flags_sound params block /\
    (pblock = None -> fb = block).

Lemma context_of_ok (s : CS) tip p b : synced s tip -> params_ok -> m_block_index s !! p = Some b ->
  context_ok params (m_block_index s) (context_of ctx s) b.
Proof.
  intros [[Ht Hi] _ _ _ _ _ _ [Hh Hk] _ Hf] [_ Hsp] Hp. constructor; cbn [context_of find_block best_header]; [exact Hf| |apply (Hi p b Hp)|exact Hsp].
  destruct (m_best_header s) as [hd|]; [|contradiction]. destruct (Hk hd eq_refl) as [bh Hbh]. exists hd, bh.
  destruct (Hi hd bh Hbh) as [_ _ [W1 L1] [B1 T1] _]. destruct (Hi p b Hp) as [_ _ [W2 L2] _ _].
  split; [reflexivity|]. split; [exact Hbh|]. split; [exact W1|]. split; [exact B1|]. split; [exact T1|].
  assert (0 <= uval (nChainWork bh)) by (apply le_val_nonneg; [lia|apply W1]). assert (0 <= uval (nChainWork b)) by (apply le_val_nonneg; [lia|apply W2]).
  unfold in_u in Hsp. destruct (Z.abs_spec (uval (nChainWork bh) - uval (nChainWork b))) as [[_ ->]|[_ ->]]; nia.
Qed.

(** No output of a block to be connected exists already. *)
Lemma synced_fresh (s : CS) q p b block : synced s q -> m_block_index s !! p = Some b -> pprev b = Some q ->
  block_files s !! p = Some block -> Forall (fresh_tx (coins (CoinsTip s))) (vtx block).
Proof.
  intros [[Ht Hi] [_ Hd] Hch _ Ec _ _ _ _ _] Hp Eq Hf. apply Forall_forall. intros tx Htx j. rewrite Ec.
  destruct (replay (block_files s) (m_chain s) !! (GetHash tx, j)) as [x|] eqn:Ex; [exfalso|reflexivity].
  unfold replay in Ex. destruct (replay_key _ _ _ _ _ Ex) as (i & a & ba & tx' & Hia & Hfa & Htx' & Eid). cbn in Eid.
  pose proof (lookup_lt_Some _ _ _ Hia) as Hlt. destruct Hch as (bq & Hq & Hl & Hc). rewrite Hc in Hia by exact Hlt. injection Hia as Hia.
  apply (Hd p a (Z.to_nat (Chain.nHeight bq) - i)%nat block ba tx tx'); auto. cbn [up]. rewrite Hp. cbn. rewrite Eq. exact Hia.
Qed.

Lemma connectable_synced (s : CS) q p b block pblock state : synced s q -> params_ok -> m_block_index s !! p = Some b -> pprev b = Some q ->
  block_given s p pblock block -> exists bq xq, m_block_index s !! q = Some bq /\
  connectable params p q b bq xq {| view := new_cache (CoinsTip s); checked := (block, state); index := m_block_index s |}.
Proof.
  intros Hs [Hint _] Hp Eq (_ & fb & Hf & Ehd & Ev & Hfl & _). pose proof Hs as [[Ht Hi] [Hst _] Hch Hv Hco Hbe _ _ _ _].
  destruct (ok_prev _ _ _ (tree_ok _ Ht p b Hp) q Eq) as (bq & Hq & EH). destruct Hbe as (bq' & xq & Hq' & Exq & Eb). assert (bq' = bq) as -> by congruence.
  destruct (new_cache_same (CoinsTip s) Hv) as (O0 & C0 & B0). destruct (en_hash _ _ _ (Hi p b Hp)) as (x & Ex & Hx & Hg).
  destruct (en_hash _ _ _ (Hi q bq Hq)) as (x' & Ex' & Hxq & _). assert (x' = xq) as -> by congruence.
  destruct (Hst p fb Hf) as [Hhash _ Hout Hnd]. pose proof (Hhash b Hp) as Hh. unfold GetBlockHash in Hh. rewrite Ex in Hh. injection Hh as Hh.
  exists bq, xq. split; [exact Hq|]. constructor; cbn [view checked index fst]; try assumption; rewrite ?Ehd, ?Ev, ?C0; try assumption.
  - intros a ba Ha. destruct (en_hash _ _ _ (Hi a ba Ha)) as (y & Ey & _). eauto.
  - apply (Hi p b Hp).
  - apply Hhash, Hp.
  - unfold GetBlockHash. rewrite Exq. reflexivity.
  - rewrite <- Hh. apply Hg. congruence.
  - rewrite <- Hh. exact Hx.
  - apply (coins_ok_le (Chain.nHeight bq)); [lia|]. eapply synced_coins_ok; eauto.
  - apply (synced_fresh s q p b fb Hs Hp Eq Hf).
Qed.

(** A connected block, once flushed into [CoinsTip]. *)
Lemma synced_advance (s s' : CS) q p b block fb pblock state cs' undo c : synced s q -> m_block_index s !! p = Some b -> pprev b = Some q ->
  block_given s p pblock block -> block_files s !! p = Some fb ->
  connected params b {| view := new_cache (CoinsTip s); checked := (block, state); index := m_block_index s |} cs' undo ->
  restatused (m_block_index s) (m_block_index s') -> m_chain s' = m_chain s ++ [Some p] -> block_files s' = block_files s ->
  undo_files s' = <[p := undo]> (undo_files s) -> same_view c (CoinsTip s') -> coins c = coins (view cs') -> best c = best (view cs') ->
  m_best_header s' = m_best_header s -> m_best_invalid s' = m_best_invalid s -> synced s' p.
Proof.
  intros Hs Hp Eq (_ & fb' & Hf' & Ehd & Ev & _) Hf Hcon R Ec Ef Eu (C & B & O) Cc Bc Eh Ei. assert (fb' = fb) as -> by congruence.
  pose proof Hs as [[Ht Hi] [Hst Hd] Hch Hv Hco Hbe Hbu [Hh Hk] Hin Hfd].
  destruct Hcon as ((cb & rest & Evt & Hcb & Hrest) & Hfit & Hcoins & Hbest & -> & _). cbn [view checked fst] in *.
  destruct (new_cache_same (CoinsTip s) Hv) as (_ & C0 & _). rewrite C0, Hco, ?Ev in *.
  destruct (ok_prev _ _ _ (tree_ok _ Ht p b Hp) q Eq) as (bq & Hq & EH). pose proof (chain_to_length _ Ht _ _ bq Hch Hq) as El.
  destruct (tree_ok _ Ht q bq Hq) as [Hhq _ _ _ _]. assert (Hne : m_chain s <> []) by (intros E; rewrite E in El; cbn in El; lia).
  assert (Eht : Z.of_nat (length (m_chain s)) = Chain.nHeight b) by lia.
  assert (Hnot : ~ Some p ∈ m_chain s) by (apply (above_not_in _ Ht _ (or_intror (ex_intro _ q Hch)) p b Hp); unfold Height; lia).
  constructor.
  - eapply index_ok_restatused; eauto. split; assumption.
  - rewrite Ef. eapply files_ok_restatused; eauto. split; assumption.
  - rewrite Ec. eapply restatused_chain_to; eauto. eapply chain_to_snoc; eauto.
  - exact O.
  - rewrite C, Cc, Hcoins, Ef, Ec, (replay_snoc _ _ p fb Hne Hf), Eht. reflexivity.
  - destruct (restatused_lookup _ _ R p b Hp) as [st Hp']. pose proof (st_hash _ _ _ (Hst p fb Hf) b Hp) as Hx. unfold GetBlockHash in Hx.
    destruct (phashBlock b) as [x|] eqn:Ex; [|discriminate]. injection Hx as Hx. exists (set_nStatus b st), x. split; [exact Hp'|]. split; [exact Ex|].
    rewrite B, Bc, Hbest, Ehd, Hx. reflexivity.
  - rewrite Ef, Ec, Eu. apply built_snoc; [exact Hne|apply built_write_undo; assumption|].
    exists fb, cb, rest. split; [exact Hf|]. split; [exact Evt|]. split; [exact Hcb|]. split; [exact Hrest|]. rewrite Eht, replay_upto_app by lia.
    change (replay_upto _ _ _) with (replay (block_files s) (m_chain s)). split; [exact Hfit|apply lookup_insert_eq].
  - rewrite Eh. split; [exact Hh|]. eapply known_restatused; eauto.
  - rewrite Ei. eapply known_restatused; eauto.
  - intros x a E. destruct (Hfd x a E) as [ba Ha]. destruct (restatused_lookup _ _ R a ba Ha) as [st ?]. eauto.
Qed.

(** [ConnectBlock] on a new view of [CoinsTip]: on success the coins are those
    after the block, on failure they are untouched. *)
Lemma connect_on_tip_spec (s : CS) q p b block pblock state write_ok : synced s q -> params_ok -> m_block_index s !! p = Some b -> pprev b = Some q ->
  block_given s p pblock block -> m_mode state = M_VALID -> exists rv st' s', connect_on_tip params ctx p block state write_ok s = (Ok (rv, st'), s') /\
  marks_only ∅ s s' /\
  (rv = true -> st' = state /\ exists cs' undo, connected params b {| view := new_cache (CoinsTip s); checked := (block, state); index := m_block_index s |} cs' undo /\
     undo_files s' = <[p := undo]> (undo_files s) /\ view_ok (CoinsTip s') /\ coins (CoinsTip s') = coins (view cs') /\ best (CoinsTip s') = best (view cs') /\
     setBlockIndexCandidates s' = setBlockIndexCandidates s /\ m_best_header s' = m_best_header s /\ m_best_invalid s' = m_best_invalid s) /\
  (rv = false -> synced s' q /\ (state_IsInvalid st' = true -> m_result st' <> BLOCK_MUTATED)).
Proof.
  intros Hs Hpar Hp Eq Hg Hm. destruct (connectable_synced s q p b block pblock state Hs Hpar Hp Eq Hg) as (bq & xq & Hq & C).
  set (cs := {| view := new_cache (CoinsTip s); checked := (block, state); index := m_block_index s |}) in *.
  destruct (ConnectBlock_spec params (context_of ctx s) p q b bq xq false write_ok cs C (context_of_ok s q p b Hs Hpar Hp))
    as ([rv undo] & cs' & E & Rv & (st & Rix & Rfail & Rdata) & Rok & _ & Rsame & Rmut).
  pose proof (ConnectBlock_quiet params (context_of ctx s) p false write_ok cs (sy_view _ _ Hs)) as Q. rewrite E in Q. cbn [snd view base new_cache] in Q.
  assert (Hix : relabelled ∅ (m_block_index s) (index cs')).
  { rewrite Rix. apply relabelled_insert; [exact Hp|exact Rdata|set_solver|]. rewrite bool_decide_eq_false_2 by set_solver.
    unfold failed. cbn. rewrite Rfail, orb_false_r. reflexivity. }
  assert (Hmarks : forall v u f, marks_only ∅ s (update_coins v (update_dirty f (write_undo p u (update_index (fun _ => index cs') s))))).
  { intros v u f. constructor; try reflexivity; [exact Hix|apply (mo_cands _ _ _ (marks_only_refl s))]. }
  unfold connect_on_tip. fold cs. rewrite E. destruct rv.
  - destruct (Rok eq_refl eq_refl) as (u & Eu & Hcon). cbn [snd] in Eu. subst undo. pose proof Hcon as (_ & _ & _ & _ & _ & _ & Hhb).
    destruct (Flush_spec (view cs') Rv) as (c3 & E3 & S3 & C3 & B3 & _); [rewrite Hhb; apply (cn_nonzero _ _ _ _ _ _ _ C)|]. rewrite E3.
    eexists true, _, _. split; [reflexivity|]. split; [exact (Hmarks (base c3) u (fun d => if raises_scripts (m_block_index s) p then {[ p ]} ∪ d else d))|]. split; [|discriminate]. intros _. split; [apply (Rsame eq_refl)|].
    exists cs', u. split; [exact Hcon|]. split; [reflexivity|].
    split; [apply (proj2 (proj2 S3))|]. split; [exact C3|]. split; [exact B3|]. auto.
  - eexists false, _, _. split; [reflexivity|]. split; [constructor; try reflexivity; [exact Hix|apply (mo_cands _ _ _ (marks_only_refl s))]|]. split; [discriminate|].
    intros _. pose proof Hs as [_ _ _ _ _ _ _ [Hh Hk] Hin _]. split; [apply (synced_marks s); auto; apply Hix|].
    intros Hinv Hres. rewrite (Rmut eq_refl Hm Hres) in Hinv. discriminate.
Qed.

Lemma ConnectTip_spec io state (s : CS) q p b block pblock : synced s q -> params_ok -> m_block_index s !! p = Some b -> pprev b = Some q ->
  block_given s p pblock block -> IsPruneMode (flushing io) = false -> m_mode state = M_VALID -> exists ok st' s',
  ConnectTip params ctx state p pblock io s = (Ok (ok, st'), s') /\
  (ok = true -> st' = state /\ synced s' p /\ m_chain s' = m_chain s ++ [Some p] /\ relabelled ∅ (m_block_index s) (m_block_index s') /\
     block_files s' = block_files s /\ setBlockIndexCandidates s' = setBlockIndexCandidates s) /\
  (ok = false -> state_IsInvalid st' = true -> m_result st' <> BLOCK_MUTATED /\ synced s' q /\ marks_only {[p]} s s').
Proof.
  intros Hs Hpar Hp Eq Hg Hprune Hmode. pose proof (chain_to_tip _ (proj1 (sy_index _ _ Hs)) _ _ (sy_chain _ _ Hs)) as Etip.
  unfold ConnectTip. unfold mbind at 1, stm_bind at 1, get_st at 1. unfold mbind at 1, stm_bind at 1, lift_st at 1. rewrite (deref_ok _ p b Hp).
  unfold mbind at 1, stm_bind at 1, lift_st at 1. rewrite bool_decide_eq_true_2 by congruence. cbn [assert_].
  assert (Eb : match pblock with Some block => Some block | None => block_files s !! p end = Some block).
  { destruct Hg as (Eb & fb & Hf & _ & _ & _ & Hn). destruct pblock; [congruence|]. rewrite Hf, Hn; reflexivity. }
  rewrite Eb. destruct (connect_on_tip_spec s q p b block pblock state (undo_written io) Hs Hpar Hp Eq Hg Hmode) as (rv & st1 & s1 & E1 & M1 & Rt & Rf).
  unfold mbind at 1, stm_bind at 1. rewrite E1. pose proof (mo_index _ _ _ M1) as Mi. destruct (restatused_lookup _ _ Mi p b Hp) as [st Hp1].
  destruct rv; cbn [negb].
  - destruct (Rt eq_refl) as (-> & cs' & undo & Hcon & Eu & V1 & C1 & B1 & Ec1 & Eh1 & Ei1). clear Rt Rf.
    destruct (FlushStateToDisk_spec (flushing io) IF_NEEDED 0 state s1 Hprune V1) as (ok & st2 & s2 & E2 & F2 & R1 & R2).
    unfold mbind at 1, stm_bind at 1. rewrite E2. destruct ok; cbn [negb].
    2: { eexists false, st2, s2. split; [reflexivity|]. split; [discriminate|]. intros _. unfold state_IsInvalid. rewrite (R2 eq_refl). discriminate. }
    destruct (R1 eq_refl) as [-> _].
    destruct F2 as (c2 & d & f & -> & S2). unfold mbind at 1, stm_bind at 1, get_st at 1. cbn [m_block_index m_chain update_coins update_dirty update_flush].
    pose proof (restatused_tree _ _ Mi (proj1 (sy_index _ _ Hs))) as Ht1.
    pose proof (restatused_chain_to _ _ Mi _ _ (chain_to_snoc _ (proj1 (sy_index _ _ Hs)) _ p b q (sy_chain _ _ Hs) Hp Eq)) as Hto.
    unfold mbind at 1, stm_bind at 1, lift_st at 1. rewrite (mo_chain _ _ _ M1).
    rewrite (SetTip_to _ Ht1 (m_chain s) p _ q (restatused_chain_to _ _ Mi _ _ (sy_chain _ _ Hs)) Hp1 _ Hto).
    unfold mbind, stm_bind, modify_st, mret, stm_ret. eexists true, state, _. split; [reflexivity|]. split; [|discriminate]. intros _.
    destruct Hg as (? & fb & Hf & Hrest). split; [reflexivity|]. split; [|split; [reflexivity|split; [exact Mi|split; [exact (mo_files _ _ _ M1)|exact Ec1]]]].
    eapply (synced_advance s _ q p b block fb pblock state cs' undo (CoinsTip s1)); eauto; [split; [assumption|eauto]|apply Mi|exact (mo_files _ _ _ M1)].
  - destruct (Rf eq_refl) as [Hs1 Hmut]. clear Rt Rf. destruct (state_IsInvalid st1) eqn:Einv.
    + destruct (InvalidBlockFound_spec s1 q p _ st1 Hs1 Hp1 (Hmut eq_refl)) as (s2 & E2 & Hs2 & M2). unfold mbind, stm_bind. rewrite E2.
      eexists false, st1, s2. split; [reflexivity|]. split; [discriminate|]. intros _ _. split; [auto|]. split; [exact Hs2|eapply marks_only_left; eauto].
    + eexists false, st1, s1. split; [reflexivity|]. split; [discriminate|]. intros _ E. congruence.
Qed.
End Tip.

(** * One step towards the best chain

    Theorems about [ActivateBestChainStep] (src/validation.cpp): it takes the
    blocks off that are not on the way, connects the way in batches, and stops
    as soon as it is ahead of where it was.  In every outcome but a system
    error the coins are in step with the chain. *)

(** ** Paths along the tree *)

(** The blocks [l], each the child of the one before, lead from [t] to [p]. *)
Fixpoint path (h : heap) (t : ptr) (l : list ptr) (p : ptr) : Prop :=
  match l with
  | [] => t = p
  | x :: l' => exists b, h !! x = Some b /\ pprev b = Some t /\ path h x l' p
  end.

Lemma path_app h t l1 x l2 p : path h t l1 x -> path h x l2 p -> path h t (l1 ++ l2) p.
Proof.
  revert t. induction l1 as [|y l1 IH]; intros t; cbn; [intros ->; auto|]. intros (b & Hb & Eq & Hl) H2. exists b. auto.
Qed.

Lemma path_up h t l p : path h t l p -> up h (length l) p = Some t.
Proof.
  revert t p. induction l as [|y l IH] using rev_ind; intros t p.
  - cbn. intros ->. reflexivity.
  - rewrite length_app, Nat.add_1_r. intros Hp. cbn [up].
    assert (exists b q, h !! p = Some b /\ pprev b = Some q /\ path h t l q) as (b & q & Hb & Eq & Hl).
    { clear IH. revert t Hp. induction l as [|z l IHl]; intros t; cbn.
      - intros (b & Hb & Eq & <-). exists b, t. auto.
      - intros (b & Hb & Eq & Hl). destruct (IHl z Hl) as (b' & q & ? & ? & ?). exists b', q. eauto 8. }
    rewrite Hb. cbn. rewrite Eq. cbn. apply IH, Hl.
Qed.

Lemma path_restatused h h' t l p : restatused h h' -> path h t l p -> path h' t l p.
Proof.
  intros R. revert t. induction l as [|x l IH]; intros t; cbn; [auto|]. intros (b & Hb & Eq & Hl).
  destruct (restatused_lookup _ _ R x b Hb) as [st Hb']. exists (set_nStatus b st). auto.
Qed.

Lemma path_split h t l1 x l2 p : path h t (l1 ++ x :: l2) p -> path h t (l1 ++ [x]) x /\ path h x l2 p.
Proof.
  revert t. induction l1 as [|y l1 IH]; intros t; cbn.
  - intros (b & Hb & Eq & Hl). split; [|exact Hl]. exists b. auto.
  - intros (b & Hb & Eq & Hl). destruct (IH y Hl). split; [|assumption]. exists b. auto.
Qed.

Lemma path_member h t l p x bt bx : tree_wf h -> path h t l p -> x ∈ l -> h !! t = Some bt -> h !! x = Some bx ->
  ancestor h x p /\ Chain.nHeight bt < Chain.nHeight bx.
Proof.
  intros Ht Hp Hx Hbt Hbx. apply list_elem_of_split in Hx as (l1 & l2 & ->). apply path_split in Hp as [H1 H2]. split; [exists (length l2); apply path_up, H2|].
  apply path_up in H1. rewrite length_app in H1. pose proof (up_height h Ht _ _ _ _ _ Hbx H1 Hbt). cbn in *. lia.
Qed.

(** [blocks_above] collects the path from the top down. *)
Lemma blocks_above_spec h fuel : forall p b nHeight, tree_wf h -> h !! p = Some b -> 0 <= nHeight <= Chain.nHeight b ->
  (Z.to_nat (Chain.nHeight b - nHeight) <= fuel)%nat ->
  exists l t, blocks_above fuel h (Some p) nHeight = Ok l /\ length l = Z.to_nat (Chain.nHeight b - nHeight) /\ path h t (rev l) p.
Proof.
  induction fuel as [|fuel IH]; intros p b nHeight Ht Hp Hh Hf; cbn [blocks_above]; rewrite (deref_ok h p b Hp); cbn [mbind res_bind];
    destruct (Z.eqb_spec (Chain.nHeight b) nHeight) as [E|Hne].
  - exists [], p. split; [reflexivity|]. split; [cbn; lia|reflexivity].
  - lia.
  - exists [], p. split; [reflexivity|]. split; [cbn; lia|reflexivity].
  - destruct (tree_ok h Ht p b Hp) as [_ Hroot Hprev _ _]. destruct (pprev b) as [q|] eqn:Eq; [|specialize (Hroot eq_refl); lia].
    destruct (Hprev q eq_refl) as (bq & Hq & EH). destruct (IH q bq nHeight Ht Hq ltac:(lia) ltac:(lia)) as (l & t & E & Hl & Hpath).
    exists (p :: l), t. rewrite E. split; [reflexivity|]. split; [cbn; lia|]. cbn [rev]. eapply path_app; [exact Hpath|]. exists b. cbn. auto.
Qed.

Section Step.
Context {HP : Primitives} {HPL : PrimitivesLaws} {W : Type} {HW : CCoinsView W} {HA : ViewAbs W} {HVL : ViewLaws W}.
Context {HT : TxEnv} {HTL : TxEnvLaws} {HB : BlockEnv} {HE : LockEnv} {HL : LockEnvLaws} {HC : ConnectEnv}.
Context {HO : WorkOrder} {HOL : WorkOrderLaws} {HS : BlockStore W} {HSL : BlockStoreLaws W}.
Context (txout_size : Z) (params : Params) (ctx : node_context).
Notation CS := (Chainstate W).
Notation synced := (synced params ctx).

(** ** Work grows along a branch *)

Lemma work_up h n p b q bq : index_ok params h -> h !! p = Some b -> up h n p = Some q -> h !! q = Some bq ->
  uval (nChainWork bq) <= uval (nChainWork b) /\ ((0 < n)%nat -> uval (nChainWork bq) < uval (nChainWork b)).
Proof using.
  intros [Ht Hi]. revert p b. induction n as [|n IH]; intros p b Hp Hu Hq; cbn [up] in Hu.
  - injection Hu as ->. assert (bq = b) as -> by congruence. split; [lia|lia].
  - rewrite Hp in Hu. cbn in Hu. destruct (pprev b) as [r|] eqn:Er; [|discriminate]. cbn in Hu.
    destruct (ok_prev _ _ _ (tree_ok h Ht p b Hp) r Er) as (br & Hr & _). pose proof (en_grows _ _ _ _ (Hi p b Hp) r br Er Hr).
    destruct (IH r br Hr Hu Hq). lia.
Qed.

Lemma ancestor_not_worse h n p b q : index_ok params h -> h !! p = Some b -> up h n p = Some q -> worse h p q = false.
Proof using HOL.
  intros Hix Hp Hu. destruct n as [|n]; [cbn in Hu; injection Hu as ->; apply worse_irrefl|].
  destruct (up_in h (proj1 Hix) _ _ _ _ Hp Hu) as [[bq Hq] _]. destruct (work_up h _ p b q bq Hix Hp Hu Hq) as [_ Hlt]. specialize (Hlt ltac:(lia)).
  assert (Hw : worse h q p = true).
  { destruct (proj2 Hix p b Hp) as [_ _ [W1 _] _ _]. destruct (proj2 Hix q bq Hq) as [_ _ [W2 _] _ _].
    apply (worse_work h q p bq b); auto. rewrite uint_lt_spec by assumption. apply Z.ltb_lt, Hlt. }
  destruct (worse h p q) eqn:E; [|reflexivity]. pose proof (worse_trans h q p q Hw E) as C. rewrite worse_irrefl in C. discriminate.
Qed.

(** ** Taking blocks off *)

Lemma disconnect_to_spec io f i : forall d fuel state (s : CS) tip, synced s tip -> m_chain s !! i = Some (Some f) ->
  length (m_chain s) = (i + d + 1)%nat -> (d <= fuel)%nat -> (forall p, IsPruneMode (flushing (io p)) = false) -> exists ok st' s',
  disconnect_to txout_size fuel io (Some f) state s = (Ok (ok, st'), s') /\ (ok = false -> m_mode st' = M_ERROR) /\
  (ok = true -> st' = state /\ synced s' f /\ m_block_index s' = m_block_index s /\
     setBlockIndexCandidates s' = setBlockIndexCandidates s /\ block_files s' = block_files s /\ exists tl, m_chain s = m_chain s' ++ tl).
Proof.
  induction d as [|d IH]; intros fuel state s tip Hs Hi Hlen Hfuel Hio.
  all: pose proof Hs as [[Ht _] _ Hch _ _ _ _ _ _ _]; pose proof (chain_to_tip _ Ht _ _ Hch) as Etip.
  all: assert (Elast : m_chain s !! (length (m_chain s) - 1)%nat = Some (Some tip))
    by (destruct Hch as (bt & Hbt & Hl & Hc); destruct (tree_ok _ Ht tip bt Hbt); rewrite Hc by lia; f_equal;
        replace (Z.to_nat (Chain.nHeight bt) - (length (m_chain s) - 1))%nat with 0%nat by lia; reflexivity).
  - replace (length (m_chain s) - 1)%nat with i in Elast by lia. assert (f = tip) as -> by congruence.
    exists true, state, s. split; [|split; [discriminate|intros _; do 5 (split; [auto|]); exists []; rewrite app_nil_r; reflexivity]].
    destruct fuel; cbn [disconnect_to]; unfold mbind, stm_bind, get_st; rewrite Etip, (bool_decide_eq_true_2 (Some tip = Some tip)) by reflexivity;
      rewrite andb_false_r; reflexivity.
  - destruct fuel as [|fuel]; [lia|].
    destruct (chain_height_lookup _ Ht _ (or_intror (ex_intro _ tip Hch)) _ _ Elast) as (bt & Hbt & Eht).
    destruct (chain_height_lookup _ Ht _ (or_intror (ex_intro _ tip Hch)) _ _ Hi) as (bf & Hbf & Ehf).
    assert (Hne : tip <> f) by (intros ->; assert (bt = bf) by congruence; subst; lia).
    destruct (pprev bt) as [q|] eqn:Eq; [|pose proof (ok_root _ _ _ (tree_ok _ Ht tip bt Hbt) Eq); lia].
    cbn [disconnect_to]. unfold mbind at 1, stm_bind at 1, get_st at 1. rewrite Etip.
    rewrite (bool_decide_eq_true_2 (is_Some _)) by eauto. rewrite bool_decide_eq_false_2 by congruence. cbn [negb andb].
    unfold mbind at 1, stm_bind at 1, lift_st at 1. cbn [access].
    destruct (DisconnectTip_spec txout_size params ctx (io tip) state s tip bt q Hs Hbt Eq (Hio tip)) as (ok & st1 & s1 & E1 & R1 & R2).
    unfold mbind at 1, stm_bind at 1. rewrite E1. destruct ok; cbn [negb].
    2: { eexists _, _, s1. split; [reflexivity|]. split; [reflexivity|discriminate]. }
    destruct (R2 eq_refl) as (-> & Hs1 & Ec & Ei & Ecd & Ef). assert (El : length (m_chain s) = S (length (m_chain s1))) by (rewrite Ec, length_app; cbn; lia).
    destruct (IH fuel state s1 q Hs1) as (ok & st2 & s2 & E2 & R3 & R4); auto; try lia.
    { rewrite Ec in Hi. rewrite lookup_app_l in Hi by lia. exact Hi. }
    exists ok, st2, s2. split; [exact E2|]. split; [exact R3|]. intros Hok. destruct (R4 Hok) as (? & ? & ? & ? & ? & tl & Etl). rewrite <- Ei, <- Ecd, <- Ef.
    do 5 (split; [assumption|]). exists (tl ++ [Some tip]). rewrite Ec, Etl, app_assoc. reflexivity.
Qed.

(** ** Connecting a batch *)

(** From [s], synchronised at [t], the chain was extended along [l] to [x], the
    blocks [F] were found invalid, and the candidates that sort before a block
    of the way were dropped. *)
Record advanced (F : gset ptr) (s s' : CS) (t x : ptr) (l : list ptr) : Prop := {
  ad_synced : synced s' x;
  ad_path : path (m_block_index s) t l x;
  ad_chain : m_chain s' = m_chain s ++ map Some l;
  ad_index : relabelled F (m_block_index s) (m_block_index s');
  ad_files : block_files s' = block_files s;
  ad_cands : forall q, q ∈ setBlockIndexCandidates s' <->
    q ∈ setBlockIndexCandidates s /\ q ∉ F /\ Forall (fun y => worse (m_block_index s) q y = false) l;
}.

Lemma advanced_trans F s1 s2 s3 t x p l1 l2 : advanced ∅ s1 s2 t x l1 -> advanced F s2 s3 x p l2 -> advanced F s1 s3 t p (l1 ++ l2).
Proof using HOL.
  intros [A1 A2 A3 A4 A5 A6] [B1 B2 B3 B4 B5 B6]. constructor; [exact B1| | | | |].
  - eapply path_app; [exact A2|]. apply (path_restatused (m_block_index s2)); [|exact B2]. intros a. pose proof (rl_status _ _ _ A4 a) as E.
    destruct (m_block_index s1 !! a) as [b1|], (m_block_index s2 !! a) as [b2|]; try contradiction; [|exact I]. rewrite E. destruct b1; reflexivity.
  - rewrite B3, A3, map_app, app_assoc. reflexivity.
  - rewrite <- (left_id_L ∅ (∪) F). eapply relabelled_trans; eauto.
  - etransitivity; eassumption.
  - intros q. rewrite B6, A6, Forall_app. setoid_rewrite (worse_status _ _ _ _ (rl_status _ _ _ A4)). pose proof (not_elem_of_empty (C:=gset ptr) q). tauto.
Qed.

Lemma advanced_here F s s' t : synced s' t -> marks_only F s s' -> advanced F s s' t t [].
Proof using.
  intros Hs [M1 M2 M3 M4]. constructor; auto; [reflexivity|cbn; rewrite app_nil_r; exact M1|]. intros q. rewrite M4. pose proof (Forall_nil_2 (fun y => worse (m_block_index s) q y = false)). tauto.
Qed.

(** The blocks of the way are on disk, or handed over. *)
Definition on_disk (s : CS) (most : ptr) (pblock : option CBlock) (x : ptr) : Prop :=
  exists block, block_given params s x (if bool_decide (x = most) then pblock else None) block.

Lemma on_disk_files (s s' : CS) most pblock x : block_files s' = block_files s -> on_disk s most pblock x -> on_disk s' most pblock x.
Proof using. intros E. unfold on_disk, block_given. rewrite E. auto. Qed.

(** What each outcome of the loops means; [w] is the work of the old tip. *)
Definition outcome_ok (s s' : CS) (t target most : ptr) (w : base_uint) (r : step_outcome) : Prop :=
  match r with
  | Advanced => (exists l, advanced ∅ s s' t target l) /\ most ∈ setBlockIndexCandidates s'
  | Better => exists x l bx, advanced ∅ s s' t x l /\ ancestor (m_block_index s) x most /\ m_block_index s !! x = Some bx /\ uval w < uval (nChainWork bx)
  | InvalidFound => exists x l p bp, advanced {[p]} s s' t x l /\ m_block_index s !! p = Some bp /\ pprev bp = Some x /\ ancestor (m_block_index s) p most
  | SystemError => True
  end.

Lemma outcome_ok_later s s1 s2 t x target most w r l : advanced ∅ s s1 t x l ->
  outcome_ok s1 s2 x target most w r -> outcome_ok s s2 t target most w r.
Proof using HOL.
  intros A. pose proof (ad_index _ _ _ _ _ _ A) as R. destruct r; cbn.
  - intros [[l2 A2] ?]. split; [eexists; eapply advanced_trans; eauto|auto].
  - intros (y & l2 & by_ & A2 & [n Hn] & Hy & Hw). destruct (restatused_lookup_inv _ _ R y by_ Hy) as (b0 & H0 & Eb). rewrite Eb in Hw.
    exists y, (l ++ l2), b0. split; [eapply advanced_trans; eauto|]. rewrite (restatused_up _ _ R) in Hn. split; [exists n; exact Hn|]. auto.
  - intros (y & l2 & p & bp & A2 & Hp & Eq & [n Hn]). rewrite (restatused_up _ _ R) in Hn. destruct (restatused_lookup_inv _ _ R p bp Hp) as (b0 & H0 & Eb).
    exists y, (l ++ l2), p, b0. split; [eapply advanced_trans; eauto|]. split; [exact H0|]. split; [rewrite Eb in Eq; exact Eq|exists n; exact Hn].
  - auto.
Qed.

(** Connecting [p] and narrowing the candidates; the target stays in. *)
Lemma prune_after (s s1 : CS) t p b n most bm : m_block_index s !! p = Some b -> pprev b = Some t -> synced s1 p -> m_chain s1 = m_chain s ++ [Some p] ->
  relabelled ∅ (m_block_index s) (m_block_index s1) -> block_files s1 = block_files s -> setBlockIndexCandidates s1 = setBlockIndexCandidates s ->
  m_block_index s1 !! most = Some bm -> up (m_block_index s) n most = Some p -> most ∈ setBlockIndexCandidates s ->
  exists s', PruneBlockIndexCandidates s1 = (Ok tt, s') /\ advanced ∅ s s' t p [p] /\ m_block_index s' = m_block_index s1 /\
  m_chain s' = m_chain s1 /\ most ∈ setBlockIndexCandidates s'.
Proof.
  intros Hp Eq Hs Ec R Ef Ecd Hm Hu Hin. pose proof Hs as [Hix _ Hch Hv _ _ _ [Hh Hk] Hi _].
  rewrite (PruneBlockIndexCandidates_spec p s1 (chain_to_tip _ (proj1 Hix) _ _ Hch)).
  set (left := not_worse _ _ _).
  assert (Hleft : forall q, q ∈ left <-> q ∈ setBlockIndexCandidates s /\ worse (m_block_index s) q p = false).
  { intros q. unfold left, not_worse. rewrite elem_of_filter, Ecd, (worse_status _ _ _ _ (rl_status _ _ _ R)). tauto. }
  assert (Hl : most ∈ left).
  { unfold left, not_worse. apply elem_of_filter. rewrite Ecd. split; [|exact Hin]. eapply (ancestor_not_worse _ n); eauto. rewrite (restatused_up _ _ R). exact Hu. }
  rewrite bool_decide_eq_false_2 by set_solver. eexists. split; [reflexivity|]. split; [|auto].
  constructor; auto; cbn [setBlockIndexCandidates update_candidates].
  - apply (synced_marks params ctx s1); auto using restatused_refl, same_view_refl.
  - exists b. cbn. auto.
  - intros q. rewrite Hleft, Forall_singleton. pose proof (not_elem_of_empty (C:=gset ptr) q). tauto.
Qed.

Lemma connect_batch_spec front most pblock w io : params_ok params -> (forall p, IsPruneMode (flushing (io p)) = false) -> wf w ->
  forall l t target state (s : CS) bf bm, synced s t -> m_mode state = M_VALID -> path (m_block_index s) t l target -> ancestor (m_block_index s) target most ->
  m_block_index s !! most = Some bm -> m_block_index s !! front = Some bf -> most ∈ setBlockIndexCandidates s -> Forall (on_disk s most pblock) l ->
  exists r st' s', connect_batch params ctx front most pblock (Some w) io l state s = (Ok (r, st'), s') /\ outcome_ok s s' t target most w r /\
    (r = SystemError -> state_IsInvalid st' = false) /\ (r <> SystemError -> m_mode st' = M_VALID).
Proof.
  intros Hpar Hio Hw. induction l as [|p l IH]; intros t target state s bf bm Hs Hmode Hpath [n Hn] Hm Hfr Hin Hd.
  { cbn in Hpath. subst target. exists Advanced, state, s. split; [reflexivity|]. split; [|split; [discriminate|auto]]. split; [|exact Hin].
    exists []. apply advanced_here; [exact Hs|apply marks_only_refl]. }
  cbn in Hpath. destruct Hpath as (b & Hp & Eq & Hpath). apply Forall_cons in Hd as [[block Hg] Hd].
  assert (Hk : up (m_block_index s) (n + length l) most = Some p) by (rewrite up_add, Hn; apply path_up, Hpath).
  cbn [connect_batch].
  destruct (ConnectTip_spec params ctx (io p) state s t p b block _ Hs Hpar Hp Eq Hg (Hio p) Hmode) as (ok & st1 & s1 & E1 & Rt & Rf).
  unfold mbind at 1, stm_bind at 1. rewrite E1. destruct ok; cbn [negb].
  - destruct (Rt eq_refl) as (-> & Hs1 & Ec & R1 & Ef & Ecd). clear Rt Rf.
    destruct (restatused_lookup _ _ R1 most bm Hm) as [stm Hm1].
    destruct (prune_after s s1 t p b (n + length l) most _ Hp Eq Hs1 Ec R1 Ef Ecd Hm1 Hk Hin) as (s2 & E2 & A & Ei2 & Ec2 & Hin2).
    unfold mbind at 1, stm_bind at 1. rewrite E2. unfold mbind at 1, stm_bind at 1, get_st at 1. rewrite Ec2, Ei2.
    rewrite (chain_to_tip _ (proj1 (sy_index _ _ _ _ Hs1)) _ _ (sy_chain _ _ _ _ Hs1)).
    unfold mbind at 1, stm_bind at 1, lift_st at 1. cbn [access]. destruct (restatused_lookup _ _ R1 p b Hp) as [stp Hp1].
    unfold mbind at 1, stm_bind at 1, lift_st at 1. rewrite (deref_ok _ p _ Hp1). cbn [nChainWork set_nStatus].
    destruct (proj2 (sy_index _ _ _ _ Hs) p b Hp) as [_ _ [Wb _] _ _]. rewrite uint_gt_spec by assumption.
    destruct (Z.gtb_spec (uval (nChainWork b)) (uval w)) as [Hgt|Hle].
    + eexists Better, state, s2. split; [reflexivity|]. split; [|split; [discriminate|auto]]. exists p, [p], b. split; [exact A|]. split; [eexists; exact Hk|]. split; [exact Hp|lia].
    + destruct (restatused_lookup _ _ R1 front bf Hfr) as [stf Hf1].
      destruct (IH p target state s2 (set_nStatus bf stf) (set_nStatus bm stm) (ad_synced _ _ _ _ _ _ A) Hmode) as (r & st2 & s3 & E3 & O3 & S3).
      * rewrite Ei2. apply (path_restatused _ _ _ _ _ R1), Hpath.
      * exists n. rewrite Ei2, (restatused_up _ _ R1). exact Hn.
      * rewrite Ei2. exact Hm1.
      * rewrite Ei2. exact Hf1.
      * exact Hin2.
      * eapply Forall_impl; [exact Hd|]. intros x. apply on_disk_files. exact (ad_files _ _ _ _ _ _ A).
      * exists r, st2, s3. split; [exact E3|]. split; [|exact S3]. apply (outcome_ok_later s s2 s3 t p target most w r _ A O3).
  - destruct (state_IsInvalid st1) eqn:Einv.
    2: { eexists SystemError, st1, s1. split; [reflexivity|]. split; [exact I|split; [auto|contradiction]]. }
    destruct (Rf eq_refl eq_refl) as (Hmut & Hs1 & M1). clear Rt Rf. rewrite bool_decide_eq_false_2 by exact Hmut.
    destruct (restatused_lookup _ _ (mo_index _ _ _ M1) front bf Hfr) as [stf Hf1].
    destruct (InvalidChainFound_spec params ctx s1 t front _ Hs1 Hf1) as (s2 & E2 & Hs2 & M2 & _). unfold mbind, stm_bind. rewrite E2.
    eexists InvalidFound, _, s2. split; [reflexivity|]. split; [|split; [discriminate|reflexivity]]. exists t, [], p, b.
    split; [apply advanced_here; [assumption|eapply marks_only_right; eauto]|]. split; [exact Hp|]. split; [exact Eq|eexists; exact Hk].
Qed.

(** ** All batches *)

(** Every block above height [n] on the way to [most] can be read. *)
Definition way_on_disk (s : CS) (n : Z) (most : ptr) (pblock : option CBlock) : Prop :=
  forall x bx, ancestor (m_block_index s) x most -> m_block_index s !! x = Some bx -> n < Chain.nHeight bx -> on_disk s most pblock x.

Lemma connect_batches_spec most pblock w io : params_ok params -> (forall p, IsPruneMode (flushing (io p)) = false) -> wf w ->
  forall fuel t bt bm state (s : CS), synced s t -> m_mode state = M_VALID -> m_block_index s !! t = Some bt -> m_block_index s !! most = Some bm ->
  ancestor (m_block_index s) t most -> most ∈ setBlockIndexCandidates s -> way_on_disk s (Chain.nHeight bt) most pblock ->
  (Z.to_nat (Chain.nHeight bm - Chain.nHeight bt) <= fuel)%nat ->
  exists r st' s', connect_batches params ctx fuel most pblock (Some w) io (Chain.nHeight bt) state s = (Ok (r, st'), s') /\
    outcome_ok s s' t most most w r /\ (r = SystemError -> state_IsInvalid st' = false) /\ (r <> SystemError -> m_mode st' = M_VALID).
Proof.
  intros Hpar Hio Hw. induction fuel as [|fuel IH]; intros t bt bm state s Hs Hmode Ht Hm Hanc Hin Hdisk Hfuel.
  all: pose proof (sy_index _ _ _ _ Hs) as [Htree Hi]; destruct (ancestor_steps _ most bm t bt Htree Hm Ht Hanc) as [Hle Hup].
  all: destruct (tree_ok _ Htree t bt Ht) as [Ht0 _ _ _ _]; pose proof (en_low _ _ _ _ (Hi most bm Hm)) as Hlow.
  all: cbn [connect_batches]; unfold mbind at 1, stm_bind at 1, get_st at 1; unfold mbind at 1, stm_bind at 1, lift_st at 1; rewrite (deref_ok _ most bm Hm).
  all: destruct (Z.eqb_spec (Chain.nHeight bt) (Chain.nHeight bm)) as [E|Hne].
  2: lia.
  1, 2: exists Advanced, state, s; (split; [reflexivity|]); (split; [|split; [discriminate|auto]]); (split; [|exact Hin]); exists [];
    rewrite E, Z.sub_diag in Hup; cbn in Hup; injection Hup as ->; apply advanced_here; [exact Hs|apply marks_only_refl].
  rewrite (swrap_small 32) by (unfold in_s; cbn; lia). set (nTarget := Z.min (Chain.nHeight bt + 32) (Chain.nHeight bm)).
  assert (Htgt : Chain.nHeight bt < nTarget <= Chain.nHeight bm) by lia.
  destruct (up_total _ Htree (Z.to_nat (Chain.nHeight bm - nTarget)) most bm Hm ltac:(lia)) as (e & be & Hue & Hbe & EHe). rewrite Z2Nat.id in EHe by lia.
  unfold mbind at 1, stm_bind at 1, lift_st at 1. rewrite (GetAncestor_up _ Htree most bm _ Hm), decide_True, Hue by lia.
  destruct (blocks_above_spec _ (Z.to_nat (nTarget + 1)) e be (Chain.nHeight bt) Htree Hbe ltac:(lia) ltac:(lia)) as (l & t' & El & Hlen & Hpath).
  assert (t' = t) as ->.
  { apply path_up in Hpath. rewrite length_rev, Hlen in Hpath.
    replace (Z.to_nat (Chain.nHeight bm - Chain.nHeight bt)) with (Z.to_nat (Chain.nHeight bm - nTarget) + Z.to_nat (Chain.nHeight be - Chain.nHeight bt))%nat in Hup by lia.
    rewrite up_add, Hue in Hup. cbn in Hup. congruence. }
  unfold mbind at 1, stm_bind at 1, lift_st at 1. rewrite El. destruct l as [|front l']; [cbn in Hlen; lia|].
  assert (Hd : Forall (on_disk s most pblock) (rev (front :: l'))).
  { apply Forall_forall. intros x Hx. pose proof Hx as Hx0. apply list_elem_of_split in Hx0 as (l1 & l2 & El2). rewrite El2 in Hpath.
    pose proof (path_split _ _ _ _ _ _ Hpath) as [_ H2]. pose proof (path_up _ _ _ _ H2) as Hux. destruct (up_in _ Htree _ _ _ _ Hbe Hux) as [[bx Hbx] _].
    destruct (path_member _ t (l1 ++ x :: l2) e x bt bx Htree Hpath) as [[n Hn] Hlt]; auto; [apply elem_of_app; right; left|].
    apply (Hdisk x bx); auto. exists (Z.to_nat (Chain.nHeight bm - nTarget) + n)%nat. rewrite up_add, Hue. exact Hn. }
  assert (Hfr : is_Some (m_block_index s !! front)).
  { cbn [rev] in Hpath. apply (path_split _ _ _ front [] e) in Hpath as [H1 _]. clear -H1. revert t H1. induction (rev l') as [|y l IHl]; intros t; cbn.
    - intros (b & Hb & _). eauto.
    - intros (b & _ & _ & H1). eauto. }
  destruct Hfr as [bf Hfr].
  destruct (connect_batch_spec front most pblock w io Hpar Hio Hw (rev (front :: l')) t e state s bf bm Hs Hmode Hpath (ex_intro _ _ Hue) Hm Hfr Hin Hd)
    as (r & st1 & s1 & E1 & O1 & S1).
  unfold mbind at 1, stm_bind at 1. rewrite E1. destruct r.
  2, 3, 4: eexists _, st1, s1; (split; [reflexivity|]); (split; [exact O1|exact S1]).
  destruct O1 as [[l1 A1] Hin1]. pose proof (ad_index _ _ _ _ _ _ A1) as R1. destruct (restatused_lookup _ _ R1 e be Hbe) as [ste Hbe1].
  destruct (restatused_lookup _ _ R1 most bm Hm) as [stm Hm1].
  destruct (IH e (set_nStatus be ste) (set_nStatus bm stm) st1 s1 (ad_synced _ _ _ _ _ _ A1) (proj2 S1 ltac:(discriminate)) Hbe1 Hm1) as (r & st2 & s2 & E2 & O2 & S2); auto.
  - eexists. rewrite (restatused_up _ _ R1). exact Hue.
  - intros x bx [n Hn] Hx Hlt. rewrite (restatused_up _ _ R1) in Hn. destruct (restatused_lookup_inv _ _ R1 x bx Hx) as (b0 & H0 & Eb). rewrite Eb in Hlt. cbn in Hlt.
    apply (on_disk_files s); [exact (ad_files _ _ _ _ _ _ A1)|]. apply (Hdisk x b0); [exists n; exact Hn|exact H0|lia].
  - cbn. lia.
  - cbn [Chain.nHeight set_nStatus] in E2. rewrite EHe in E2. replace (Chain.nHeight bm - (Chain.nHeight bm - nTarget)) with nTarget in E2 by lia.
    exists r, st2, s2. split; [exact E2|]. split; [|exact S2]. apply (outcome_ok_later s s1 s2 t e most most w r l1 A1 O2).
Qed.

(** ** The whole step *)

(** The blocks between the fork and [most] can be read. *)
Definition branch_on_disk (s : CS) (most : ptr) (pblock : option CBlock) : Prop :=
  forall x, ancestor (m_block_index s) x most -> ~ Some x ∈ m_chain s -> on_disk s most pblock x.

(** The branch of [most] leaves the active chain somewhere. *)
Definition forks_off (s : CS) (most : ptr) : Prop := exists f, Some f ∈ m_chain s /\ ancestor (m_block_index s) f most.

(** One step: the chain [c] up to the fork is kept and extended along [l], on
    the branch of [most], to the new tip [x]. *)
Record stepped (s s' : CS) (most x : ptr) (F : gset ptr) (l : list ptr) : Prop := {
  sp_synced : synced s' x;
  sp_chain : exists f c tl, m_chain s = c ++ tl /\ m_chain s' = c ++ map Some l /\ path (m_block_index s) f l x;
  sp_branch : ancestor (m_block_index s) x most;
  sp_index : relabelled F (m_block_index s) (m_block_index s');
  sp_files : block_files s' = block_files s;
  sp_cands : forall q, q ∈ setBlockIndexCandidates s' <->
    q ∈ setBlockIndexCandidates s /\ q ∉ F /\ Forall (fun y => worse (m_block_index s) q y = false) l;
}.

Lemma stepped_from (s s1 s' : CS) f x most F l tl : m_block_index s1 = m_block_index s -> setBlockIndexCandidates s1 = setBlockIndexCandidates s ->
  block_files s1 = block_files s -> m_chain s = m_chain s1 ++ tl -> advanced F s1 s' f x l -> ancestor (m_block_index s) x most -> stepped s s' most x F l.
Proof using.
  intros Ei Ecd Ef Ec [A1 A2 A3 A4 A5 A6] Ha. rewrite Ei in *. rewrite Ecd in A6. constructor; auto; [|congruence]. exists f, (m_chain s1), tl. auto.
Qed.

(** What the answer of [ActivateBestChainStep] says about the new tip [x]; [w]
    is the work of the old one. *)
Definition step_ok (s s' : CS) (w : base_uint) (most : ptr) (inv : bool) : Prop := exists x F l, stepped s s' most x F l /\
  if inv then exists p bp, F = {[p]} /\ m_block_index s !! p = Some bp /\ pprev bp = Some x /\ ancestor (m_block_index s) p most
  else F = ∅ /\ (x = most \/ exists bx, m_block_index s !! x = Some bx /\ uval w < uval (nChainWork bx)).

Lemma step_spec (s : CS) tip bt most bm pblock io state : synced s tip -> params_ok params -> (forall p, IsPruneMode (flushing (io p)) = false) ->
  m_mode state = M_VALID ->
  m_block_index s !! tip = Some bt -> m_block_index s !! most = Some bm -> most ∈ setBlockIndexCandidates s -> forks_off s most ->
  branch_on_disk s most pblock -> exists ok st' inv s',
  ActivateBestChainStep txout_size params ctx state most pblock io s = (Ok (ok, st', inv), s') /\
  (ok = true -> m_mode st' = M_VALID /\ step_ok s s' (nChainWork bt) most inv) /\
  (ok = false -> state_IsInvalid st' = false).
Proof.
  intros Hs Hpar Hio Hmode Ht Hm Hin (f0 & Hf0 & [n0 Hn0]) Hdisk. pose proof Hs as [[Htree Hi] _ Hch _ _ _ _ _ _ _].
  pose proof (or_intror (ex_intro _ tip Hch) : active_chain _ _) as Hac.
  unfold ActivateBestChainStep. unfold mbind at 1, stm_bind at 1, get_st at 1. unfold mbind at 1, stm_bind at 1, lift_st at 1.
  rewrite (chain_to_tip _ Htree _ _ Hch), (deref_ok _ tip bt Ht). cbn [mbind res_bind].
  destruct (FindFork_spec _ Htree _ Hac most bm Hm) as (r & Er & Hfirst). unfold mbind at 1, stm_bind at 1, lift_st at 1. rewrite Er.
  destruct r as [f|]; [|exfalso; exact (Hfirst n0 f0 Hn0 Hf0)]. destruct Hfirst as (n & Hn & Hfin & Hmin).
  apply list_elem_of_lookup in Hfin as [i Hfi]. destruct (chain_height_lookup _ Htree _ Hac i f Hfi) as (bf & Hbf & EHf).
  pose proof (lookup_lt_Some _ _ _ Hfi) as Hil.
  destruct (disconnect_to_spec io f i (length (m_chain s) - 1 - i) (length (m_chain s)) state s tip Hs Hfi ltac:(lia) ltac:(lia) Hio)
    as (ok & st1 & s1 & E1 & R1 & R2).
  unfold mbind at 1, stm_bind at 1. rewrite E1. destruct ok; cbn [negb].
  2: { eexists false, st1, false, s1. split; [reflexivity|]. split; [discriminate|]. intros _. unfold state_IsInvalid. rewrite (R1 eq_refl). reflexivity. }
  destruct (R2 eq_refl) as (-> & Hs1 & Ei & Ecd & Ef & tl & Etl). unfold mbind at 1, stm_bind at 1, lift_st at 1. rewrite (deref_ok _ f bf Hbf). cbn [mbind res_bind].
  unfold mbind at 1, stm_bind at 1, lift_st at 1. rewrite (deref_ok _ most bm Hm).
  destruct (connect_batches_spec most pblock (nChainWork bt) io Hpar Hio (proj1 (en_work _ _ _ _ (Hi tip bt Ht))) (Z.to_nat (Chain.nHeight bm - Chain.nHeight bf))
    f bf bm state s1 Hs1) as (r & st2 & s2 & E2 & O2 & S2 & S3); rewrite ?Ei, ?Ecd; auto; [exists n; exact Hn| |].
  { intros x bx [k Hk] Hx Hlt. rewrite Ei in Hk, Hx. apply (on_disk_files s s1); [exact Ef|]. apply Hdisk; [exists k; exact Hk|]. apply (Hmin k x); [|exact Hk].
    pose proof (up_height _ Htree _ _ _ _ _ Hm Hk Hx). pose proof (up_height _ Htree _ _ _ _ _ Hm Hn Hbf). lia. }
  unfold mbind at 1, stm_bind at 1. rewrite E2. destruct r; cbn in O2; rewrite ?Ei in O2.
  4: { eexists false, st2, false, s2. split; [reflexivity|]. split; [discriminate|auto]. }
  all: eexists true, st2, _, s2; (split; [reflexivity|]); (split; [intros _; split; [apply S3; discriminate|]|discriminate]).
  - destruct O2 as [[l A] _]. exists most, ∅, l. split; [|auto]. eapply stepped_from; eauto. exists 0%nat. reflexivity.
  - destruct O2 as (x & l & bx & A & Ha & Hx & Hw). exists x, ∅, l. split; [|eauto]. eapply stepped_from; eauto.
  - destruct O2 as (x & l & p & bp & A & Hp & Eq & [k Hk]). exists x, {[p]}, l. split; [|exists p, bp; eauto using ex_intro].
    + eapply stepped_from; eauto. exists (k + 1)%nat. rewrite up_add, Hk. cbn. rewrite Hp. cbn. rewrite Eq. reflexivity.
    + do 3 (split; [assumption || reflexivity|]). exists k. exact Hk.
Qed.
End Step.

(** C5. [ActivateBestChainStep] keeps the coins in step with the chain across any
    reorganisation: started with the coins of the active chain, it returns
    (no assertion fails, nothing throws), and unless a system error stopped
    it the coins are exactly those of replaying the new active chain, whose
    tip lies on the branch of [pindexMostWork]; if no block of the branch
    turned out invalid, the new tip is [pindexMostWork] itself or has more
    work than the old tip.  It reports a system error as such, never as an
    invalid block. *)
Theorem ActivateBestChainStep_correct {HP : Primitives} {HPL : PrimitivesLaws} {W : Type} {HW : CCoinsView W} {HA : ViewAbs W} {HVL : ViewLaws W}
    {HT : TxEnv} {HTL : TxEnvLaws} {HB : BlockEnv} {HE : LockEnv} {HL : LockEnvLaws} {HC : ConnectEnv}
    {HO : WorkOrder} {HOL : WorkOrderLaws} {HS : BlockStore W} {HSL : BlockStoreLaws W}
    (txout_size : Z) (params : Params) (ctx : node_context) (s : Chainstate W) (tip most : ptr) (bt bm : CBlockIndex)
    (pblock : option CBlock) (io : ptr -> block_io) (state : BlockValidationState) :
  synced params ctx s tip -> params_ok params -> (forall p, IsPruneMode (flushing (io p)) = false) -> m_mode state = M_VALID ->
  m_block_index s !! tip = Some bt -> m_block_index s !! most = Some bm -> most ∈ setBlockIndexCandidates s -> forks_off s most ->
  branch_on_disk params s most pblock ->
  exists ok st' fInvalidFound s',
  ActivateBestChainStep txout_size params ctx state most pblock io s = (Ok (ok, st', fInvalidFound), s') /\
  (ok = true -> exists x, synced params ctx s' x /\ Tip (m_chain s') = Some x /\ coins (CoinsTip s') = replay (block_files s') (m_chain s') /\
     ancestor (m_block_index s) x most /\
     (fInvalidFound = false -> x = most \/ exists bx, m_block_index s !! x = Some bx /\ uval (nChainWork bt) < uval (nChainWork bx))) /\
  (ok = false -> state_IsInvalid st' = false).
Proof.
  intros Hs Hpar Hio Hmode Ht Hm Hin Hfork Hdisk.
  destruct (step_spec txout_size params ctx s tip bt most bm pblock io state Hs Hpar Hio Hmode Ht Hm Hin Hfork Hdisk) as (ok & st' & inv & s' & E & R1 & R2).
  exists ok, st', inv, s'. split; [exact E|]. split; [|exact R2]. intros Hok. destruct (R1 Hok) as (_ & x & F & l & [Hx _ Ha _ _ _] & Hprog). exists x. split; [exact Hx|].
  split; [apply (chain_to_tip _ (proj1 (sy_index _ _ _ _ Hx)) _ _ (sy_chain _ _ _ _ Hx))|]. split; [apply Hx|]. split; [exact Ha|]. intros ->. apply Hprog.
Qed.

(** ** A reorganisation *)

(** Blocks named by their nonce. *)
Definition nonce_blocks : @BlockEnv zero_primitives := {|
  header_hash := fun h => [hdr_nNonce h]; hash2 := fun _ _ => uint256_null; hash256 := fun _ => uint256_null;
  tx_hash := fun tx => nLockTime tx :: repeat 0 31; GetWitnessHash := fun _ => uint256_null; HasWitness := fun _ => false;
  coinbase_witness := fun _ => []; block_size_no_witness := fun l => 60 * Z.of_nat (length l);
  block_size_with_witness := fun l => 60 * Z.of_nat (length l); CheckSignetBlockSolution := fun _ _ _ => true;
  script_num := fun h => [h] |}.

#[local] Existing Instance zero_primitives.
#[local] Existing Instance zero_primitives_laws.
#[local] Existing Instance zero_tx_env.
#[local] Existing Instance zero_tx_laws.
#[local] Existing Instance nonce_blocks.
#[local] Existing Instance bip68.
#[local] Existing Instance bip68_laws.
#[local] Existing Instance permissive.
#[local] Existing Instance by_work.
#[local] Existing Instance by_work_laws.

#[local] Existing Instance calm_store.
#[local] Existing Instance calm_store_laws.

Definition calm_io (p : ptr) : block_io := {| undo_written := true; flushing := calm |}.

Definition reward_block (nonce id : Z) (script : bytes) : CBlock := {|
  header := {| hdr_nVersion := 4; hashPrevBlock := uint256_null; hdr_hashMerkleRoot := id :: repeat 0 31; hdr_nTime := 140;
               hdr_nBits := 0x1d00ffff; hdr_nNonce := nonce |};
  vtx := [coinbase_tx id [(500 * COIN, script)]];
  fChecked := false; m_checked_witness_commitment := false; m_checked_merkle_root := false |}.

Definition reorg_files : gmap ptr CBlock :=
  list_to_map [(0%nat, reward_block 10 100 [0]); (1%nat, reward_block 11 101 [1]); (2%nat, reward_block 12 102 [2]); (3%nat, reward_block 13 103 [3])].

(** The active chain 0-1, and the longer branch 0-2-3. *)
Definition reorg_tree : heap :=
  list_to_map [(0%nat, entry 10 None 0 1 good_status);
               (1%nat, entry 11 (Some 0%nat) 1 2 good_status);
               (2%nat, entry 12 (Some 0%nat) 1 2 good_status);
               (3%nat, entry 13 (Some 2%nat) 2 3 good_status)].

Definition reorg_state : Chainstate plain :=
  {| m_block_index := reorg_tree; m_chain := [Some 0%nat; Some 1%nat]; setBlockIndexCandidates := {[ 1; 3 ]}%nat;
     m_best_invalid := None; m_best_header := Some 3%nat; m_failed_blocks := ∅; m_dirty_blockindex := ∅; m_blocks_unlinked := [];
     m_prune_locks := ∅; m_counters := {| nBlockSequenceId := 10; nBlockReverseSequenceId := -1; nLastPreciousChainwork := uint_zero |};
     m_flush := {| m_last_write := 0; m_last_flush := 0; m_check_for_pruning := false; m_have_pruned := false |};
     CoinsTip := new_cache ({[ (101, 0) := Coin_make (500 * COIN, [1]) 1 true ]} : gmap COutPoint Coin, 11);
     block_files := reorg_files; undo_files := {[ 1%nat := [] ]} |}.

Lemma reorg_index_ok : index_ok sample_params reorg_tree.
Proof.
  split; [apply tree_wfb_ok; vm_compute; reflexivity|].
  assert (Hw : forall w, 0 <= w < 10 -> wf (le_digits 32 8 w) /\ uval (le_digits 32 8 w) * 90 < 2 ^ 256).
  { intros w Hw. split; [split; [apply le_digits_length|apply le_digits_in_u; lia]|]. unfold uval. rewrite le_val_digits by lia.
    assert (1000 < 2 ^ 256) by reflexivity. change (2 ^ (32 * Z.of_nat 8)) with (2 ^ 256). rewrite Z.mod_small by lia. lia. }
  repeat apply map_Forall_insert_2; [..|apply map_Forall_empty].
  all: (constructor; cbn; [eexists; split; [reflexivity|]; split; discriminate|lia|apply Hw; lia|split; [unfold in_u; lia|vm_compute; discriminate]|]).
  all: intros q bq Eq Hq; try discriminate; injection Eq as <-; vm_compute in Hq; injection Hq as <-; vm_compute; reflexivity.
Qed.

Lemma reorg_files_ok : files_ok sample_params reorg_tree reorg_files.
Proof.
  split.
  - repeat apply map_Forall_insert_2; [..|apply map_Forall_empty].
    all: (constructor; cbn; [intros b Hb; vm_compute in Hb; injection Hb as <-; reflexivity|split; discriminate|repeat constructor|apply NoDup_singleton]).
  - intros p a n bp ba tx tx' Hu Hp Ha Htx Htx'. unfold reorg_files in Hp, Ha. apply elem_of_list_to_map_2 in Hp, Ha.
    repeat match goal with H : _ ∈ _ :: _ |- _ => apply elem_of_cons in H as [H|H]; [injection H as -> ->|]
                      | H : _ ∈ [] |- _ => destruct (not_elem_of_nil _ H) end.
    all: apply list_elem_of_singleton in Htx, Htx'; subst tx tx'; try discriminate.
    all: exfalso; destruct n as [|[|n]]; vm_compute in Hu; try discriminate; destruct n; discriminate.
Qed.

Lemma reorg_synced : synced sample_params sample_context reorg_state 1.
Proof.
  constructor.
  - exact reorg_index_ok.
  - exact reorg_files_ok.
  - eexists. split; [reflexivity|]. split; [reflexivity|]. intros i Hi. cbn in Hi. do 2 (destruct i as [|i]; [reflexivity|]). lia.
  - split; [apply map_Forall_singleton; reflexivity|]. split; [apply map_Forall_empty|reflexivity].
  - vm_compute. reflexivity.
  - eexists _, [11]. split; [reflexivity|]. split; reflexivity.
  - intros i p H1 Hi. destruct i as [|[|i]]; [lia| |destruct i; discriminate]. cbn in Hi. injection Hi as <-.
    exists (reward_block 11 101 [1]), (coinbase_tx 101 [(500 * COIN, [1])]), []. split; [reflexivity|]. split; [reflexivity|]. split; [reflexivity|].
    split; [constructor|]. split; [|reflexivity]. split; [|exact I]. split; [reflexivity|]. split; [repeat constructor; discriminate|].
    split; [intros j; apply lookup_empty|discriminate].
  - split; [discriminate|]. intros p [= <-]. eexists. reflexivity.
  - discriminate.
  - discriminate.
Qed.

Lemma ActivateBestChainStep_correct_witness : exists st' s',
  ActivateBestChainStep 9 sample_params sample_context (fresh_state BLOCK_RESULT_UNSET) 3 None calm_io reorg_state = (Ok (true, st', false), s') /\
  synced sample_params sample_context s' 3 /\ Tip (m_chain s') = Some 3%nat.
Proof.
  destruct (ActivateBestChainStep_correct 9 sample_params sample_context reorg_state 1 3 (entry 11 (Some 0%nat) 1 2 good_status)
    (entry 13 (Some 2%nat) 2 3 good_status) None calm_io (fresh_state BLOCK_RESULT_UNSET)) as (ok & st' & inv & s' & E & R & _).
  - exact reorg_synced.
  - split; [cbn; lia|unfold in_u; cbn; lia].
  - reflexivity.
  - reflexivity.
  - reflexivity.
  - reflexivity.
  - vm_compute. reflexivity.
  - exists 0%nat. split; [left|]. exists 2%nat. reflexivity.
  - intros x [n Hn] Hx. assert (x = 3%nat \/ x = 2%nat) as Hc.
    { destruct n as [|[|[|n]]]; vm_compute in Hn; try (injection Hn as <-; auto); [destruct Hx; left|destruct n; discriminate]. }
    unfold on_disk. destruct Hc as [->| ->]; eexists; (split; [reflexivity|]); eexists; (split; [reflexivity|]); (split; [reflexivity|]); (split; [reflexivity|]);
      (split; [split; discriminate|]); reflexivity.
  - assert (F : match ActivateBestChainStep 9 sample_params sample_context (fresh_state BLOCK_RESULT_UNSET) 3 None calm_io reorg_state with
              | (Ok (true, _, false), s1) => Tip (m_chain s1) = Some 3%nat | _ => False end) by (vm_compute; reflexivity).
    rewrite E in F. destruct ok; [|contradiction]. destruct inv; [contradiction|]. destruct (R eq_refl) as (x & Hs & Ht & _).
    assert (x = 3%nat) as -> by congruence. exists st', s'. auto.
Defined.
