(* ===== verification/ChainActivation.v ===== *)
(** * Activating the best chain, and steering it by hand

    Models the entry points of [Chainstate] (src/validation.cpp) around
    [ActivateBestChainStep]: [ActivateBestChain], [PreciousBlock],
    [InvalidateBlock], [ResetBlockFailureFlags], and
    [ChainstateManager::ReceivedBlockTransactions].  One chainstate, never
    disabled; notifications, locks, logs and [CheckBlockIndex] (off in
    production) are left out, except where an answer to them decides. *)

From stdpp Require Import base numbers list gmap strings.
From Stdlib Require Import ZArith Lia.
From S2P Require Import Prelude ArithUint256 Compact Params Chain ActiveChain ChainWork Pow VersionBits.
From S2P Require Import Merkle Streams Serialize Compressor Transaction Coins CoinsProofs TxCheck Locks Blocks Connect ChainState ChainSelection.

Local Open Scope Z_scope.

Definition set_nSequenceId (b : CBlockIndex) (n : Z) : CBlockIndex :=
  {| phashBlock := phashBlock b; pprev := pprev b; pskip := pskip b; Chain.nHeight := Chain.nHeight b;
     nFile := nFile b; nDataPos := nDataPos b; nUndoPos := nUndoPos b;
     nChainWork := nChainWork b; nTx := nTx b; nChainTx := nChainTx b; nStatus := nStatus b;
     Chain.nVersion := Chain.nVersion b; hashMerkleRoot := hashMerkleRoot b; nTime := nTime b;
     nBits := nBits b; nNonce := nNonce b; nSequenceId := n; nTimeMax := nTimeMax b |}.

Definition set_nChainTx (b : CBlockIndex) (n : Z) : CBlockIndex :=
  {| phashBlock := phashBlock b; pprev := pprev b; pskip := pskip b; Chain.nHeight := Chain.nHeight b;
     nFile := nFile b; nDataPos := nDataPos b; nUndoPos := nUndoPos b;
     nChainWork := nChainWork b; nTx := nTx b; nChainTx := n; nStatus := nStatus b;
     Chain.nVersion := Chain.nVersion b; hashMerkleRoot := hashMerkleRoot b; nTime := nTime b;
     nBits := nBits b; nNonce := nNonce b; nSequenceId := nSequenceId b; nTimeMax := nTimeMax b |}.

(** The members that [ReceivedBlockTransactions] sets first. *)
Definition set_data (b : CBlockIndex) (ntx file pos : Z) : CBlockIndex :=
  {| phashBlock := phashBlock b; pprev := pprev b; pskip := pskip b; Chain.nHeight := Chain.nHeight b;
     nFile := file; nDataPos := pos; nUndoPos := 0;
     nChainWork := nChainWork b; nTx := ntx; nChainTx := 0; nStatus := nStatus b;
     Chain.nVersion := Chain.nVersion b; hashMerkleRoot := hashMerkleRoot b; nTime := nTime b;
     nBits := nBits b; nNonce := nNonce b; nSequenceId := nSequenceId b; nTimeMax := nTimeMax b |}.

Section Activation.
Context `{Primitives, !TxEnv, !BlockEnv, !ScriptEnv, !LockEnv, !ConnectEnv, !WorkOrder} {W : Type} `{CCoinsView W, !BlockStore W}.
Context (txout_size : Z) (params : Params) (ctx : node_context).
Notation CS := (Chainstate W).

(** ** [ActivateBestChain] *)

(** The surroundings, by the number of rounds left: what blocks meet, the
    interrupt flag, the answer of the tip notification, and the last flush. *)
Record activation_env : Type := {
  step_io : nat -> ptr -> block_io;
  m_interrupt : nat -> bool;
  blockTip_interrupted : nat -> bool;
  last_flush_env : flush_env;
}.

(** [pblock && pblock->GetHash() == pindexMostWork->GetBlockHash() ? pblock : nullBlockPtr] *)
Definition matching_block (pblock : option CBlock) (b : CBlockIndex) : res (option CBlock) :=
  match pblock with
  | None => Ok None
  | Some block => hash ← GetBlockHash b; Ok (if bool_decide (header_hash (header block) = hash) then Some block else None)
  end.

(** The inner loop: whether no system error occurred, the state of
    [pindexMostWork], [pindexNewTip] and [blocks_connected], and the validation
    state. *)
Fixpoint activate_inner (fuel : nat) (env : activation_env) (pblock : option CBlock) (starting_tip pindexMostWork pindexNewTip : option ptr)
    (blocks_connected : bool) (state : BlockValidationState)
    : stm CS (bool * option ptr * option ptr * bool * BlockValidationState) :=
  pindexMostWork ← (match pindexMostWork with None => FindMostWorkChain | Some p => mret (Some p) end);
  s ← get_st;
  match pindexMostWork with
  | None => mret (true, None, pindexNewTip, blocks_connected, state)
  | Some most =>
      if bool_decide (Some most = Tip (m_chain s)) then mret (true, Some most, pindexNewTip, blocks_connected, state)
      else
        b ← lift_st (deref (m_block_index s) most);
        given ← lift_st (matching_block pblock b);
        '(ok, state, fInvalidFound) ← ActivateBestChainStep txout_size params ctx state most given (step_io env fuel);
        if negb ok then mret (false, Some most, pindexNewTip, blocks_connected, state)
        else
          let pindexMostWork := if fInvalidFound : bool then None else Some most in
          s ← get_st;
          let again := match Tip (m_chain s), starting_tip with
                       | None, _ => true
                       | Some tip, Some start => worse (m_block_index s) tip start
                       | Some _, None => false
                       end in
          if again then match fuel with
                        | O => fail_st OutOfFuel
                        | S fuel' => activate_inner fuel' env pblock starting_tip pindexMostWork (Tip (m_chain s)) true state
                        end
          else mret (true, pindexMostWork, Tip (m_chain s), true, state)
  end.

Definition finish_activation (env : activation_env) (state : BlockValidationState) : stm CS (bool * BlockValidationState) :=
  FlushStateToDisk (last_flush_env env) PERIODIC 0 state.

Fixpoint activate_outer (fuel inner : nat) (env : activation_env) (pblock : option CBlock) (pindexMostWork pindexNewTip : option ptr)
    (state : BlockValidationState) : stm CS (bool * BlockValidationState) :=
  s ← get_st;
  let starting_tip := Tip (m_chain s) in
  '(ok, pindexMostWork, pindexNewTip, blocks_connected, state) ←
    activate_inner inner env pblock starting_tip pindexMostWork pindexNewTip false state;
  if negb ok then mret (false, state)
  else if negb blocks_connected then mret (true, state)
  else
    s ← get_st;
    pindexFork ← lift_st (FindFork (m_block_index s) (m_chain s) starting_tip);
    if ((negb (bool_decide (pindexFork = pindexNewTip)) && blockTip_interrupted env fuel) || m_interrupt env fuel)%bool
    then finish_activation env state
    else if bool_decide (pindexNewTip = pindexMostWork) then finish_activation env state
    else match fuel with
    | O => fail_st OutOfFuel
    | S fuel' => activate_outer fuel' inner env pblock pindexMostWork pindexNewTip state
    end.

(** Every round of either loop moves to a better tip or finds a block invalid,
    so that the rounds are bounded by the blocks known. *)
Definition rounds (s : CS) : nat := S (size (m_block_index s)) * S (size (m_block_index s)).

Definition ActivateBestChain (env : activation_env) (pblock : option CBlock) (state : BlockValidationState) : stm CS (bool * BlockValidationState) :=
  s ← get_st;
  activate_outer (rounds s) (rounds s) env pblock None None state.

(** ** [PreciousBlock] *)

Definition PreciousBlock (env : activation_env) (pindex : ptr) (state : BlockValidationState) : stm CS (bool * BlockValidationState) :=
  s ← get_st;
  tip ← lift_st (access (Tip (m_chain s)));
  bt ← lift_st (deref (m_block_index s) tip);
  b ← lift_st (deref (m_block_index s) pindex);
  if uint_lt (nChainWork b) (nChainWork bt) then mret (true, state)
  else
    let c := m_counters s in
    let reverse := if uint_gt (nChainWork bt) (nLastPreciousChainwork c) then -1 else nBlockReverseSequenceId c in
    _ ← erase_candidate pindex;
    let b' := set_nSequenceId b reverse in
    _ ← modify_st (update_index <[pindex := b']>);
    _ ← modify_st (update_counters {| nBlockSequenceId := nBlockSequenceId c;
           nBlockReverseSequenceId := if reverse >? - 2 ^ 31 then reverse - 1 else reverse;
           nLastPreciousChainwork := nChainWork bt |});
    valid ← lift_st (IsValid b' BLOCK_VALID_TRANSACTIONS);
    _ ← (if (valid && HaveNumChainTxs b')%bool then
            _ ← modify_st (update_candidates (union {[ pindex ]})); PruneBlockIndexCandidates
          else mret tt);
    ActivateBestChain env None state.

(** ** [ResetBlockFailureFlags] *)

(** The body of the loop over the index, for one entry. *)
Definition reset_entry (pindex : ptr) (nHeight : Z) (p : ptr) : stm CS unit :=
  s ← get_st;
  b ← lift_st (deref (m_block_index s) p);
  valid ← lift_st (IsValid b BLOCK_VALID_TRANSACTIONS);
  a ← lift_st (GetAncestor (m_block_index s) p nHeight);
  if (negb valid && bool_decide (a = Some pindex))%bool then
    let b' := set_nStatus b (Z.land (nStatus b) (u32 (Z.lnot BLOCK_FAILED_MASK))) in
    _ ← modify_st (update_index <[p := b']>);
    _ ← modify_st (note_dirty p);
    valid ← lift_st (IsValid b' BLOCK_VALID_TRANSACTIONS);
    s ← get_st;
    _ ← (if (valid && HaveNumChainTxs b')%bool then
            tip ← lift_st (access (Tip (m_chain s)));
            if worse (m_block_index s) tip p then modify_st (update_candidates (union {[ p ]})) else mret tt
          else mret tt);
    _ ← (if bool_decide (Some p = m_best_invalid s) then modify_st (update_best None (m_best_header s)) else mret tt);
    modify_st (update_failed (fun f => f ∖ {[ p ]}))
  else mret tt.

Fixpoint reset_entries (pindex : ptr) (nHeight : Z) (l : list ptr) : stm CS unit :=
  match l with
  | [] => mret tt
  | p :: rest => _ ← reset_entry pindex nHeight p; reset_entries pindex nHeight rest
  end.

Fixpoint reset_ancestors (fuel : nat) (pindex : option ptr) : stm CS unit :=
  match pindex with
  | None => mret tt
  | Some p =>
      s ← get_st;
      b ← lift_st (deref (m_block_index s) p);
      _ ← (if negb (Z.land (nStatus b) BLOCK_FAILED_MASK =? 0) then
              _ ← modify_st (update_index <[p := set_nStatus b (Z.land (nStatus b) (u32 (Z.lnot BLOCK_FAILED_MASK)))]>);
              _ ← modify_st (note_dirty p);
              modify_st (update_failed (fun f => f ∖ {[ p ]}))
            else mret tt);
      match fuel with
      | O => fail_st OutOfFuel
      | S fuel' => reset_ancestors fuel' (pprev b)
      end
  end.

(** The entries are visited in the order of the map. *)
Definition ResetBlockFailureFlags (pindex : ptr) : stm CS unit :=
  s ← get_st;
  b ← lift_st (deref (m_block_index s) pindex);
  _ ← reset_entries pindex (Chain.nHeight b) (map fst (map_to_list (m_block_index s)));
  reset_ancestors (S (Z.to_nat (Chain.nHeight b))) (Some pindex).

(** ** [InvalidateBlock] *)

(** [candidate_blocks_by_work]: entries off the chain that may become the tip. *)
Fixpoint candidates_by_work (h : heap) (c : CChain) (prev : ptr) (l : list (ptr * CBlockIndex)) : res (list (base_uint * ptr)) :=
  match l with
  | [] => Ok []
  | (p, b) :: rest =>
      in_chain ← Contains h c p;
      valid ← IsValid b BLOCK_VALID_TRANSACTIONS;
      more ← candidates_by_work h c prev rest;
      Ok (if (negb in_chain && negb (worse h p prev) && valid && HaveNumChainTxs b)%bool then (nChainWork b, p) :: more else more)
  end.

(** The entries of at least the work of the new tip that do not sort before it
    become candidates and leave the map. *)
Definition readmit (h : heap) (prev : ptr) (bprev : CBlockIndex) (l : list (base_uint * ptr)) : list (base_uint * ptr) * list ptr :=
  let ready e := (negb (uint_lt (fst e) (nChainWork bprev)) && negb (worse h (snd e) prev))%bool in
  (filter (fun e => ready e = false) l, map snd (filter (fun e => ready e = true) l)).

(** One disconnected tip, marked invalid. *)
Definition invalidate_tip (walk_tip to_mark_failed : ptr) (cands : list (base_uint * ptr)) : stm CS (list (base_uint * ptr)) :=
  _ ← mark_status walk_tip BLOCK_FAILED_VALID;
  s ← get_st;
  b ← lift_st (deref (m_block_index s) walk_tip);
  prev ← lift_st (access (pprev b));
  _ ← modify_st (update_candidates (fun c => {[ prev ]} ∪ (c ∖ {[ walk_tip ]})));
  bm ← lift_st (deref (m_block_index s) to_mark_failed);
  _ ← (if (bool_decide (prev = to_mark_failed) && negb (Z.land (nStatus bm) BLOCK_FAILED_VALID =? 0))%bool then
          _ ← modify_st (update_index <[to_mark_failed := set_nStatus bm (Z.lor (Z.lxor (nStatus bm) BLOCK_FAILED_VALID) BLOCK_FAILED_CHILD)]>);
          modify_st (note_dirty to_mark_failed)
        else mret tt);
  s ← get_st;
  bprev ← lift_st (deref (m_block_index s) prev);
  let '(rest, ready) := readmit (m_block_index s) prev bprev cands in
  _ ← modify_st (update_candidates (union (list_to_set ready)));
  mret rest.

Fixpoint invalidate_loop (fuel : nat) (env : activation_env) (pindex to_mark_failed : ptr) (cands : list (base_uint * ptr)) (was_in_chain : bool)
    (state : BlockValidationState) : stm CS (bool * ptr * bool * BlockValidationState) :=
  if m_interrupt env fuel then mret (true, to_mark_failed, was_in_chain, state)
  else
    s ← get_st;
    in_chain ← lift_st (Contains (m_block_index s) (m_chain s) pindex);
    if negb in_chain then mret (true, to_mark_failed, was_in_chain, state)
    else
      walk_tip ← lift_st (access (Tip (m_chain s)));
      '(ret, state) ← DisconnectTip txout_size (step_io env fuel walk_tip) state;
      if negb ret then mret (false, to_mark_failed, true, state)
      else
        s ← get_st;
        b ← lift_st (deref (m_block_index s) walk_tip);
        _ ← lift_st (assert_ (bool_decide (pprev b = Tip (m_chain s))));
        cands ← invalidate_tip walk_tip to_mark_failed cands;
        match fuel with
        | O => fail_st OutOfFuel
        | S fuel' => invalidate_loop fuel' env pindex walk_tip cands true state
        end.

(** Entries that the map above may have missed. *)
Fixpoint missing_candidates (h : heap) (tip : ptr) (l : list (ptr * CBlockIndex)) : res (list ptr) :=
  match l with
  | [] => Ok []
  | (p, b) :: rest =>
      valid ← IsValid b BLOCK_VALID_TRANSACTIONS;
      more ← missing_candidates h tip rest;
      Ok (if (valid && HaveNumChainTxs b && negb (worse h p tip))%bool then p :: more else more)
  end.

Definition InvalidateBlock (env : activation_env) (pindex : ptr) (state : BlockValidationState) : stm CS (bool * BlockValidationState) :=
  s ← get_st;
  b ← lift_st (deref (m_block_index s) pindex);
  if Chain.nHeight b =? 0 then mret (false, state)
  else
    prev ← lift_st (access (pprev b));
    cands ← lift_st (candidates_by_work (m_block_index s) (m_chain s) prev (map_to_list (m_block_index s)));
    '(ok, to_mark_failed, _, state) ← invalidate_loop (length (m_chain s)) env pindex pindex cands false state;
    if negb ok then mret (false, state)
    else
      s ← get_st;
      in_chain ← lift_st (Contains (m_block_index s) (m_chain s) to_mark_failed);
      if in_chain : bool then mret (false, state)
      else
        _ ← mark_status to_mark_failed BLOCK_FAILED_VALID;
        _ ← erase_candidate to_mark_failed;
        _ ← modify_st (update_failed (union {[ to_mark_failed ]}));
        s ← get_st;
        tip ← lift_st (access (Tip (m_chain s)));
        more ← lift_st (missing_candidates (m_block_index s) tip (map_to_list (m_block_index s)));
        _ ← modify_st (update_candidates (union (list_to_set more)));
        _ ← InvalidChainFound to_mark_failed;
        mret (true, state).

(** ** [ReceivedBlockTransactions] *)

(** The blocks waiting for [p], in the order of the multimap, and the rest. *)
Definition waiting_for (p : ptr) (l : list (option ptr * ptr)) : list ptr := map snd (filter (fun e => fst e = Some p) l).
Definition still_unlinked (p : ptr) (l : list (option ptr * ptr)) : list (option ptr * ptr) := filter (fun e => fst e <> Some p) l.

Fixpoint link_queue (fuel : nat) (queue : list ptr) : stm CS unit :=
  match queue with
  | [] => mret tt
  | p :: rest =>
      s ← get_st;
      b ← lift_st (deref (m_block_index s) p);
      before ← lift_st (match pprev b with None => Ok 0 | Some q => bq ← deref (m_block_index s) q; Ok (nChainTx bq) end);
      let c := m_counters s in
      _ ← modify_st (update_index <[p := set_nSequenceId (set_nChainTx b (u32 (before + nTx b))) (nBlockSequenceId c)]>);
      _ ← modify_st (update_counters {| nBlockSequenceId := i32 (nBlockSequenceId c + 1);
             nBlockReverseSequenceId := nBlockReverseSequenceId c; nLastPreciousChainwork := nLastPreciousChainwork c |});
      _ ← TryAddBlockIndexCandidate p;
      let ready := waiting_for p (m_blocks_unlinked s) in
      _ ← modify_st (update_unlinked (still_unlinked p));
      match fuel with
      | O => fail_st OutOfFuel
      | S fuel' => link_queue fuel' (rest ++ ready)
      end
  end.

Definition ReceivedBlockTransactions (block : CBlock) (pindexNew : ptr) (file pos : Z) : stm CS unit :=
  s ← get_st;
  b ← lift_st (deref (m_block_index s) pindexNew);
  let b := set_data b (u32 (Z.of_nat (length (vtx block)))) file pos in
  let st := Z.lor (nStatus b) BLOCK_HAVE_DATA in
  let b := set_nStatus b (if BuriedActiveAt params DEPLOYMENT_SEGWIT b then Z.lor st BLOCK_OPT_WITNESS else st) in
  '(_, b) ← lift_st (RaiseValidity b BLOCK_VALID_TRANSACTIONS);
  _ ← modify_st (update_index <[pindexNew := b]>);
  _ ← modify_st (note_dirty pindexNew);
  s ← get_st;
  ready ← lift_st (match pprev b with None => Ok true | Some q => bq ← deref (m_block_index s) q; Ok (HaveNumChainTxs bq) end);
  if ready : bool then link_queue (S (length (m_blocks_unlinked s))) [pindexNew]
  else match pprev b with
  | None => mret tt
  | Some q =>
      bq ← lift_st (deref (m_block_index s) q);
      valid ← lift_st (IsValid bq BLOCK_VALID_TREE);
      if valid : bool then modify_st (update_unlinked (fun l => l ++ [(Some q, pindexNew)])) else mret tt
  end.
End Activation.
