(* ===== verification/ActivationProofs.v ===== *)
(** * Activating the best chain ends at the best chain

    Theorems about [ActivateBestChain] (src/validation.cpp) as
    [ChainActivation] models it.  Each round of its loops moves to a better tip
    or finds one more block invalid, so that the loops end; when they do, the
    tip is the best of all valid blocks that are linked to the genesis block. *)

From stdpp Require Import base numbers list gmap strings relations.
From Stdlib Require Import ZArith Lia.
From S2P Require Import Prelude ArithUint256 Compact Params Chain ActiveChain ChainWork Pow VersionBits.
From S2P Require Import Merkle Streams Serialize Compressor Transaction Coins CoinsProofs CoinsRefinement TxCheck.
From S2P Require Import Locks Blocks Connect ConnectBlock Replay.
From S2P Require Import ChainState ChainSelectionProofs ChainSelection ChainSteps ChainActivation.

Local Open Scope Z_scope.

Lemma tip_in_chain (c : CChain) x : Tip c = Some x -> Some x ∈ c.
Proof.
  unfold Tip. destruct (Nat.eqb_spec (length c) 0); [discriminate|]. rewrite nth_lookup.
  destruct (c !! (length c - 1)%nat) as [o|] eqn:El; [|discriminate]. cbn. intros ->. eapply list_elem_of_lookup_2; eauto.
Qed.

(** ** Clean branches *)

(** Every block from [p] down to its root has its data and is not marked. *)
Definition clean (h : heap) (p : ptr) : Prop :=
  forall n q bq, up h n p = Some q -> h !! q = Some bq -> failed bq = false /\ has_data bq = true.

(** The transactions of the branch are counted. *)
Definition linked (h : heap) (p : ptr) : Prop := exists b, h !! p = Some b /\ (HaveNumChainTxs b || (Chain.nHeight b =? 0))%bool = true.

Definition good_chain (h : heap) (c : CChain) : Prop :=
  forall p b, Some p ∈ c -> h !! p = Some b -> failed b = false /\ has_data b = true.

Lemma clean_usable h c p : good_chain h c -> usable h c p <-> clean h p.
Proof.
  intros Hg. split; [|intros Hc n q bq Hu Hq _; eauto]. intros Hu n q bq Hn Hq.
  destruct (decide (Some q ∈ c)) as [Hin|Hout]; [exact (Hg q bq Hin Hq)|exact (Hu n q bq Hn Hq Hout)].
Qed.

Lemma clean_up h n p q : clean h p -> up h n p = Some q -> clean h q.
Proof. intros Hc Hn m r br Hm Hr. apply (Hc (n + m)%nat r br); [rewrite up_add, Hn; exact Hm|exact Hr]. Qed.

Lemma clean_relabelled F h h' p : relabelled F h h' -> clean h' p -> clean h p.
Proof.
  intros R Hc n q bq Hn Hq. destruct (restatused_lookup _ _ R q bq Hq) as [st Hq'].
  destruct (Hc n q _ ltac:(rewrite (restatused_up _ _ R); exact Hn) Hq') as [Hf Hd].
  rewrite (rl_failed _ _ _ R q bq _ Hq Hq') in Hf. rewrite (rl_data _ _ _ R q bq _ Hq Hq') in Hd. apply orb_false_iff in Hf as [Hf _]. auto.
Qed.

Lemma clean_relabelled_none h h' p : relabelled ∅ h h' -> clean h p -> clean h' p.
Proof.
  intros R Hc n q bq Hn Hq. rewrite (restatused_up _ _ R) in Hn. destruct (restatused_lookup_inv _ _ R q bq Hq) as (b0 & H0 & _).
  rewrite (rl_failed _ _ _ R q b0 _ H0 Hq), (rl_data _ _ _ R q b0 _ H0 Hq). destruct (Hc n q b0 Hn H0) as [-> ->].
  rewrite bool_decide_eq_false_2 by set_solver. auto.
Qed.

Lemma linked_restatused h h' p : restatused h h' -> linked h p <-> linked h' p.
Proof.
  intros R. split; intros (b & Hb & Hl).
  - destruct (restatused_lookup _ _ R p b Hb) as [st Hb']. exists (set_nStatus b st). auto.
  - destruct (restatused_lookup_inv _ _ R p b Hb) as (b0 & H0 & E). rewrite E in Hl. exists b0. auto.
Qed.

Lemma counted_restatused h h' c p : restatused h h' -> counted h c p -> counted h' c p.
Proof.
  intros R Hc n q bq Hn Hq Hout. rewrite (restatused_up _ _ R) in Hn. destruct (restatused_lookup_inv _ _ R q bq Hq) as (b0 & H0 & E).
  rewrite E. exact (Hc n q b0 Hn H0 Hout).
Qed.

(** ** The measure *)

Section Measure.
Context `{WorkOrder, !WorkOrderLaws}.

Definition is_open (h : heap) (p : ptr) : bool := match h !! p with Some b => negb (failed b) | None => false end.
Definition open_blocks (h : heap) : gset ptr := filter (fun p => is_open h p = true) (dom h).
Definition better (h : heap) (tip : ptr) : gset ptr := filter (fun p => worse h tip p = true) (dom h).

(** The blocks not yet marked first, then the blocks better than the tip. *)
Definition measure (h : heap) (tip : ptr) : nat := size (open_blocks h) * S (size (dom h)) + size (better h tip).

Lemma better_size h tip : (size (better h tip) <= size (dom h))%nat.
Proof using. apply subseteq_size. intros p. unfold better. rewrite elem_of_filter. tauto. Qed.

Lemma open_size h : (size (open_blocks h) <= size (dom h))%nat.
Proof using. apply subseteq_size. intros p. unfold open_blocks. rewrite elem_of_filter. tauto. Qed.

Lemma measure_bound h tip : (measure h tip <= S (size h) * S (size h))%nat.
Proof using. unfold measure. pose proof (better_size h tip). pose proof (open_size h). rewrite size_dom in *. nia. Qed.

(** Marks on top of [h]. *)
Definition closing (h h' : heap) : Prop := restatused h h' /\ forall p, is_open h' p = true -> is_open h p = true.

Lemma relabelled_closing F h h' : relabelled F h h' -> closing h h'.
Proof using.
  intros R. split; [apply R|]. intros p. unfold is_open. destruct (h' !! p) as [b'|] eqn:E; [|discriminate].
  destruct (restatused_lookup_inv _ _ R p b' E) as (b & Hb & _). rewrite Hb, (rl_failed _ _ _ R p b b' Hb E). destruct (failed b); [discriminate|reflexivity].
Qed.

Lemma closing_open h h' : closing h h' -> open_blocks h' ⊆ open_blocks h.
Proof using. intros [R Ho] p. unfold open_blocks. rewrite !elem_of_filter, (restatused_dom _ _ R). intros [? ?]. auto. Qed.

Lemma closing_better h h' tip : closing h h' -> better h' tip = better h tip.
Proof using All.
  intros [R _]. unfold better. rewrite (restatused_dom _ _ R). apply set_eq. intros p. rewrite !elem_of_filter, (worse_status _ _ _ _ R). tauto.
Qed.

Lemma measure_closing h h' tip : closing h h' -> (measure h' tip <= measure h tip)%nat.
Proof using All.
  intros C. unfold measure. rewrite (closing_better h h' tip C), (restatused_dom _ _ (proj1 C)).
  pose proof (subseteq_size _ _ (closing_open h h' C)). nia.
Qed.

Lemma measure_better h h' tip x : closing h h' -> worse h tip x = true -> x ∈ dom h -> (measure h' x < measure h tip)%nat.
Proof using All.
  intros C Hw Hx. apply (Nat.le_lt_trans _ (measure h x)); [apply measure_closing, C|]. unfold measure. apply Nat.add_lt_mono_l, subset_size.
  unfold better. split; [intros p|intros Hsub; specialize (Hsub x)]; rewrite !elem_of_filter in *.
  - intros [? ?]. split; [eapply worse_trans; eauto|assumption].
  - rewrite worse_irrefl in Hsub. destruct Hsub as [? _]; [auto|discriminate].
Qed.

Lemma measure_marked h h' tip x p : closing h h' -> p ∈ dom h -> is_open h p = true -> is_open h' p = false -> (measure h' x < measure h tip)%nat.
Proof using All.
  intros C Hp Ho Hc. unfold measure. rewrite (restatused_dom _ _ (proj1 C)).
  assert (Hlt : (size (open_blocks h') < size (open_blocks h))%nat).
  { apply subset_size. split; [apply closing_open, C|]. intros Hsub. specialize (Hsub p). unfold open_blocks in Hsub. rewrite !elem_of_filter in Hsub.
    destruct Hsub as [? _]; [auto|congruence]. }
  pose proof (better_size h' x). rewrite (restatused_dom _ _ (proj1 C)) in *. nia.
Qed.
End Measure.

(** ** The invariant of the loops *)

Section Loops.
Context {HP : Primitives} {HPL : PrimitivesLaws} {W : Type} {HW : CCoinsView W} {HA : ViewAbs W} {HVL : ViewLaws W}.
Context {HT : TxEnv} {HTL : TxEnvLaws} {HB : BlockEnv} {HE : LockEnv} {HL : LockEnvLaws} {HC : ConnectEnv}.
Context {HO : WorkOrder} {HOL : WorkOrderLaws} {HS : BlockStore W} {HSL : BlockStoreLaws W}.
Context (txout_size : Z) (params : Params) (ctx : node_context).
Notation CS := (Chainstate W).
Notation synced := (synced params ctx).

(** A block handed over is one that was stored. *)
Definition given_ok (pblock : option CBlock) (s : CS) : Prop := forall bk p b fb, pblock = Some bk -> m_block_index s !! p = Some b ->
  GetBlockHash b = Ok (header_hash (header bk)) -> block_files s !! p = Some fb -> header bk = header fb /\ vtx bk = vtx fb /\ flags_sound params bk.

(** The state between rounds: [tip] is the tip, and the candidates are the
    clean, linked blocks that do not sort before [r], the best tip so far. *)
Record running (s : CS) (tip r : ptr) : Prop := {
  ru_synced : synced s tip;
  ru_known : forall p, p ∈ setBlockIndexCandidates s -> is_Some (m_block_index s !! p);
  ru_counted : forall p, p ∈ setBlockIndexCandidates s -> counted (m_block_index s) [] p;
  ru_rooted : exists g, forall p, is_Some (m_block_index s !! p) -> ancestor (m_block_index s) g p;
  ru_data : forall p b, m_block_index s !! p = Some b -> has_data b = true -> is_Some (block_files s !! p);
  ru_good : good_chain (m_block_index s) (m_chain s);
  ru_low : forall q, q ∈ setBlockIndexCandidates s -> worse (m_block_index s) q tip = false;
  ru_floor : tip = r \/ worse (m_block_index s) tip r = true;
  ru_link : linked (m_block_index s) r;
  ru_all : forall p, linked (m_block_index s) p -> clean (m_block_index s) p -> worse (m_block_index s) p r = false -> p ∈ setBlockIndexCandidates s;
}.

Lemma running_selectable s tip r : running s tip r -> selectable s.
Proof using.
  intros []. pose proof ru_synced0 as [[Ht _] _ Hch _ _ _ _ _ Hin _]. constructor; auto.
  - right. eauto.
  - intros p Hp n q bq Hn Hq _. apply (ru_counted0 p Hp n q bq Hn Hq). apply not_elem_of_nil.
Qed.

(** The target of the step: the best clean candidate. *)
Definition aimed (s : CS) (o : option ptr) : Prop := match o with
  | None => True
  | Some m => m ∈ setBlockIndexCandidates s /\ clean (m_block_index s) m /\
      forall q, q ∈ setBlockIndexCandidates s -> clean (m_block_index s) q -> q = m \/ worse (m_block_index s) q m = true
  end.

(** A change that keeps the files and marks nothing on the chain. *)
Lemma running_change (s s' : CS) tip r tip' r' : running s tip r -> synced s' tip' -> closing (m_block_index s) (m_block_index s') ->
  (forall p b b', m_block_index s !! p = Some b -> m_block_index s' !! p = Some b' -> has_data b' = has_data b) ->
  block_files s' = block_files s -> good_chain (m_block_index s') (m_chain s') ->
  (forall q, q ∈ setBlockIndexCandidates s' -> is_Some (m_block_index s !! q) /\ counted (m_block_index s) [] q /\ worse (m_block_index s) q tip' = false) ->
  tip' = r' \/ worse (m_block_index s) tip' r' = true -> linked (m_block_index s) r' ->
  (forall p, linked (m_block_index s) p -> clean (m_block_index s') p -> worse (m_block_index s) p r' = false -> p ∈ setBlockIndexCandidates s') ->
  running s' tip' r'.
Proof using HOL.
  intros [] Hs [R _] Hdata Ef Hg Hcd Hfl Hlk Hall. pose proof (fun x y => worse_status _ _ x y R) as Wo.
  assert (Hex : forall p, is_Some (m_block_index s !! p) <-> is_Some (m_block_index s' !! p)) by (intros p; rewrite <- !elem_of_dom, (restatused_dom _ _ R); reflexivity).
  constructor; auto.
  - intros p Hp. apply Hex, Hcd, Hp.
  - intros p Hp. apply (counted_restatused _ _ _ _ R), Hcd, Hp.
  - destruct ru_rooted0 as [g Hroot]. exists g. intros p Hp. apply Hex in Hp. destruct (Hroot p Hp) as [n Hn]. exists n. rewrite (restatused_up _ _ R). exact Hn.
  - intros p b' Hb' Hd. destruct (restatused_lookup_inv _ _ R p b' Hb') as (b & Hb & _). rewrite Ef. apply (ru_data0 p b Hb). rewrite <- (Hdata p b b' Hb Hb'). exact Hd.
  - intros q Hq. rewrite Wo. apply Hcd, Hq.
  - rewrite Wo. auto.
  - apply (linked_restatused _ _ _ R). auto.
  - intros p Hl Hc. rewrite Wo. apply Hall; [|exact Hc]. apply (linked_restatused _ _ _ R), Hl.
Qed.

Lemma running_cands (s : CS) tip r q : running s tip r -> q ∈ setBlockIndexCandidates s ->
  is_Some (m_block_index s !! q) /\ counted (m_block_index s) [] q /\ worse (m_block_index s) q tip = false.
Proof using. intros Hr Hq. split; [apply (ru_known _ _ _ Hr q Hq)|]. split; [apply (ru_counted _ _ _ Hr q Hq)|apply (ru_low _ _ _ Hr q Hq)]. Qed.

Lemma given_change pblock (s s' : CS) : restatused (m_block_index s) (m_block_index s') -> block_files s' = block_files s -> given_ok pblock s -> given_ok pblock s'.
Proof using.
  intros R Ef Hg bk p b fb E Hb Hh Hf. rewrite Ef in Hf. destruct (restatused_lookup_inv _ _ R p b Hb) as (b0 & H0 & E0). apply (Hg bk p b0 fb E H0); [|exact Hf].
  rewrite E0 in Hh. exact Hh.
Qed.

(** ** Choosing *)

Lemma marked_closing c h h' : marked c h h' -> closing h h' /\ forall p b b', h !! p = Some b -> h' !! p = Some b' -> has_data b' = has_data b.
Proof using.
  intros M. assert (E : forall p b b', h !! p = Some b -> h' !! p = Some b' -> b' = b \/ b' = set_nStatus b (Z.lor (nStatus b) BLOCK_FAILED_CHILD)).
  { intros p b b' Hb Hb'. destruct (marked_entry _ _ _ M p b Hb) as (b1 & Hb1 & Hc). assert (b1 = b') as -> by congruence. tauto. }
  split; [split; [eapply marked_restatused; eauto|]|].
  - intros p. unfold is_open. destruct (h' !! p) as [b'|] eqn:Hb'; [|discriminate].
    destruct (restatused_lookup_inv _ _ (marked_restatused _ _ _ M) p b' Hb') as (b & Hb & _). rewrite Hb.
    destruct (E p b b' Hb Hb') as [->| ->]; [auto|]. rewrite failed_child. discriminate.
  - intros p b b' Hb Hb'. destruct (E p b b' Hb Hb') as [->| ->]; [reflexivity|apply has_data_child].
Qed.

(** Blocks of the chain are not marked. *)
Lemma marked_good h h' c tip : marked c h h' -> chain_to h c tip -> tree_wf h -> good_chain h c -> good_chain h' c.
Proof using.
  intros M Hch Ht Hg p b' Hp Hb'. destruct (restatused_lookup_inv _ _ (marked_restatused _ _ _ M) p b' Hb') as (b & Hb & _).
  destruct (marked_entry _ _ _ M p b Hb) as (b1 & Hb1 & Hc). assert (b1 = b') as -> by congruence. destruct Hc as [->|[_ Hnu]]; [exact (Hg p b Hp Hb)|].
  exfalso. apply Hnu. intros n q bq Hn Hq Hout. exfalso. apply Hout. apply list_elem_of_lookup in Hp as [i Hi].
  destruct (chain_height_lookup _ Ht _ (or_intror (ex_intro _ tip Hch)) _ _ Hi) as (bp & Hbp & EH). assert (bp = b) as -> by congruence.
  destruct (up_in _ Ht _ _ _ _ Hb Hn) as [_ Hle]. pose proof (lookup_lt_Some _ _ _ Hi) as Hlt. destruct Hch as (bt & Hbt & El & Hc).
  apply (list_elem_of_lookup_2 _ (i - n)%nat). rewrite Hc by lia. f_equal. rewrite Hc in Hi by lia. injection Hi as Hi.
  replace (Z.to_nat (Chain.nHeight bt) - (i - n))%nat with ((Z.to_nat (Chain.nHeight bt) - i) + n)%nat by lia. rewrite up_add, Hi. exact Hn.
Qed.

Lemma find_round (s : CS) tip r : running s tip r -> exists o s', FindMostWorkChain s = (Ok o, s') /\ running s' tip r /\ aimed s' o /\
  closing (m_block_index s) (m_block_index s') /\ m_chain s' = m_chain s /\ block_files s' = block_files s /\
  (o = None -> forall q, q ∈ setBlockIndexCandidates s' -> ~ clean (m_block_index s') q).
Proof using HOL.
  intros Hr. pose proof (running_selectable s tip r Hr) as Hsel. unfold FindMostWorkChain, mbind, stm_bind, get_st.
  destruct (find_loop_spec (size (setBlockIndexCandidates s)) s Hsel ltac:(lia)) as (o & s' & E & N & Hsel' & B). exists o, s'. split; [exact E|].
  pose proof (ru_synced _ _ _ Hr) as Hs. pose proof (marked_closing _ _ _ (nr_marked _ _ N)) as [C Hd]. pose proof (proj1 C) as R.
  assert (Hg : good_chain (m_block_index s') (m_chain s')).
  { rewrite (nr_chain _ _ N). eapply marked_good; [apply N|apply Hs|apply Hs|apply Hr]. }
  assert (Hrun : running s' tip r).
  { pose proof Hs as [_ _ _ Hv _ _ _ [Hh Hk] Hin _]. apply (running_change s s' tip r tip r Hr); auto; try apply N; try apply Hr.
    - apply (synced_marks params ctx s s' tip Hs R); try apply N.
      + rewrite (nr_coins _ _ N). apply same_view_refl, Hv.
      + rewrite (nr_header _ _ N). exact Hh.
      + rewrite (nr_header _ _ N). exact Hk.
      + intros p Ep. destruct (sl_invalid _ Hsel' p Ep) as [b Hb]. destruct (restatused_lookup_inv _ _ R p b Hb) as (b0 & ? & _). eauto.
    - intros q Hq. apply (running_cands _ _ _ _ Hr), (nr_sub _ _ N), Hq.
    - intros p Hl Hc Hw. destruct (decide (p ∈ setBlockIndexCandidates s')) as [|Hnot]; [assumption|]. exfalso.
      assert (Hu : usable (m_block_index s) (m_chain s) p).
      { apply (marked_usable _ _ _ (nr_marked _ _ N)). rewrite <- (nr_chain _ _ N). apply clean_usable; auto. }
      refine (nr_lost _ _ N p _ Hnot Hu). apply (ru_all _ _ _ Hr); auto. apply (clean_usable _ (m_chain s)); [apply Hr|exact Hu]. }
  split; [exact Hrun|]. setoid_rewrite <- (clean_usable _ _ _ Hg). split; [|split; [exact C|split; [apply N|split; [apply N|]]]].
  - destruct o as [m|]; [|exact I]. destruct B as (Hm & Hu & Hmax). split; [exact Hm|]. split; [apply (clean_usable _ _ _ Hg), Hu|].
    intros q Hq Hc. apply Hmax; [exact Hq|]. apply (clean_usable _ _ _ Hg), Hc.
  - intros ->. exact B.
Qed.

(** ** One step *)

Lemma running_forks (s : CS) tip r p : running s tip r -> is_Some (m_block_index s !! p) -> forks_off s p.
Proof using.
  intros Hr Hp. destruct (ru_rooted _ _ _ Hr) as [g Hg]. pose proof (ru_synced _ _ _ Hr) as [[Ht _] _ (bt & Hbt & El & Hc) _ _ _ _ _ _ _].
  exists g. split; [|apply Hg, Hp]. destruct (Hg tip ltac:(eauto)) as [n Hn]. destruct (up_in _ Ht _ _ _ _ Hbt Hn) as [_ Hle].
  apply (list_elem_of_lookup_2 _ (Z.to_nat (Chain.nHeight bt) - n)%nat). rewrite Hc by lia. f_equal.
  replace (Z.to_nat (Chain.nHeight bt) - (Z.to_nat (Chain.nHeight bt) - n))%nat with n by lia. exact Hn.
Qed.

Lemma running_on_disk (s : CS) tip r most bm pblock given : running s tip r -> given_ok pblock s -> clean (m_block_index s) most ->
  m_block_index s !! most = Some bm -> matching_block pblock bm = Ok given -> branch_on_disk params s most given.
Proof using.
  intros Hr Hgiv Hc Hm Hg x [n Hn] _. pose proof (ru_synced _ _ _ Hr) as [[Ht _] [Hst _] _ _ _ _ _ _ _ _].
  destruct (up_in _ Ht _ _ _ _ Hm Hn) as [[bx Hx] _]. destruct (Hc n x bx Hn Hx) as [_ Hd]. destruct (ru_data _ _ _ Hr x bx Hx Hd) as [fb Hf].
  pose proof (st_flags _ _ _ _ (Hst x fb Hf)) as Hfl. unfold on_disk, block_given.
  destruct (if bool_decide (x = most) then given else None) as [bk|] eqn:E.
  - case_bool_decide as Ex; [|discriminate]. subst x given. assert (bx = bm) as -> by congruence. exists bk. split; [reflexivity|]. exists fb.
    unfold matching_block in Hg. destruct pblock as [pb|]; [|discriminate]. destruct (GetBlockHash bm) as [hash|] eqn:Eh; [|discriminate]. cbn in Hg.
    case_bool_decide as Ehh; [|discriminate]. injection Hg as ->. rewrite <- Ehh in Eh. destruct (Hgiv bk most bm fb eq_refl Hm Eh Hf) as (? & ? & ?).
    do 4 (split; [assumption|]). discriminate.
  - exists fb. split; [reflexivity|]. exists fb. auto 10.
Qed.

(** The blocks of the new chain: those before the fork, and the way. *)
Lemma stepped_members (s s' : CS) most x F l p b : stepped params ctx s s' most x F l -> tree_wf (m_block_index s) -> m_block_index s !! p = Some b ->
  Some p ∈ m_chain s' -> Some p ∈ m_chain s \/ ancestor (m_block_index s) p most.
Proof using.
  intros [_ (f & c & tl & E1 & E2 & Hp) [k Hk] _ _ _] Ht Hb. rewrite E1, E2. intros [Hin|Hin]%elem_of_app; [left; apply elem_of_app; auto|right].
  apply list_elem_of_fmap in Hin as (y & [= <-] & Hy). apply list_elem_of_split in Hy as (l1 & l2 & ->). apply path_split in Hp as [_ Hp].
  apply path_up in Hp. exists (k + length l2)%nat. rewrite up_add, Hk. exact Hp.
Qed.

(** No block of the way is better than its end. *)
Lemma stepped_way (s s' : CS) most x F l y : stepped params ctx s s' most x F l -> index_ok params (m_block_index s) -> is_Some (m_block_index s !! x) -> y ∈ l ->
  worse (m_block_index s) x y = false.
Proof using HOL.
  intros [_ (f & c & tl & _ & _ & Hp) _ _ _ _] Hix [bx Hx] Hy. apply list_elem_of_split in Hy as (l1 & l2 & ->). apply path_split in Hp as [_ Hp].
  apply path_up in Hp. eapply ancestor_not_worse; eauto.
Qed.

Lemma not_worse_trans h a b c : worse h a b = false -> worse h b c = false -> worse h a c = false.
Proof using HOL.
  intros H1 H2. destruct (worse h a c) eqn:E; [|reflexivity]. destruct (worse_total h b c) as [->|[C|C]]; [congruence|congruence|].
  rewrite (worse_trans _ _ _ _ E C) in H1. discriminate.
Qed.

(** The new tip is not better than a candidate that is left. *)
Lemma stepped_low (s s' : CS) tip r most x F l q : running s tip r -> stepped params ctx s s' most x F l -> q ∈ setBlockIndexCandidates s' ->
  worse (m_block_index s) q x = false.
Proof using HOL.
  intros Hr Sp Hq. apply Sp in Hq as (Hq & _ & Hl). pose proof (ru_synced _ _ _ Hr) as Hs. pose proof (sy_index _ _ _ _ Hs) as [Ht Hi].
  pose proof Sp as [Hx (f & c & tl & E1 & E2 & Hp) _ R _ _]. destruct l as [|y l] using rev_ind.
  - apply (not_worse_trans _ _ tip); [apply Hr, Hq|]. cbn in E2. rewrite app_nil_r in E2.
    pose proof (chain_to_tip _ (proj1 (sy_index _ _ _ _ Hx)) _ _ (sy_chain _ _ _ _ Hx)) as Et. rewrite E2 in Et.
    assert (Hin : Some x ∈ m_chain s) by (rewrite E1; apply elem_of_app; left; apply tip_in_chain, Et).
    apply list_elem_of_lookup in Hin as [i Hi']. destruct (sy_chain _ _ _ _ Hs) as (bt & Hbt & El & Hc). rewrite Hc in Hi' by (apply lookup_lt_Some in Hi'; lia).
    injection Hi' as Hi'. exact (ancestor_not_worse params _ _ _ _ _ (conj Ht Hi) Hbt Hi').
  - apply Forall_app in Hl as [_ Hl]. apply Forall_cons in Hl as [Hl _]. apply path_split in Hp as [_ Hp]. cbn in Hp. subst y. exact Hl.
Qed.

(** The floor rises to the new tip when that is better. *)
Definition raise (h : heap) (r x : ptr) : ptr := if worse h x r then r else x.

Lemma raise_spec h r x : (raise h r x = r \/ raise h r x = x) /\ (x = raise h r x \/ worse h x (raise h r x) = true) /\
  forall p, worse h p (raise h r x) = false -> worse h p r = false /\ worse h p x = false.
Proof using HOL.
  unfold raise. destruct (worse h x r) eqn:E.
  - split; [auto|]. split; [auto|]. intros p Hp. split; [exact Hp|]. destruct (worse h p x) eqn:C; [|reflexivity]. rewrite (worse_trans _ _ _ _ C E) in Hp. discriminate.
  - split; [auto|]. split; [auto|]. intros p Hp. split; [|exact Hp]. eapply not_worse_trans; eauto.
Qed.

(** The chain of a step has only good blocks. *)
Lemma stepped_good (s s' : CS) tip r most x F l : running s tip r -> clean (m_block_index s) most -> stepped params ctx s s' most x F l ->
  (forall p, p ∈ F -> exists bp, m_block_index s !! p = Some bp /\ pprev bp = Some x) -> good_chain (m_block_index s') (m_chain s').
Proof using.
  intros Hr Hc Sp HF q bq' Hq Hbq'. pose proof Sp as [Hx _ _ R _ _]. destruct (restatused_lookup_inv _ _ R q bq' Hbq') as (bq & Hbq & _).
  pose proof (sy_index _ _ _ _ (ru_synced _ _ _ Hr)) as [Ht _].
  assert (G : failed bq = false /\ has_data bq = true).
  { destruct (stepped_members s s' most x F l q bq Sp Ht Hbq Hq) as [Hin|[n Hn]]; [exact (ru_good _ _ _ Hr q bq Hin Hbq)|exact (Hc n q bq Hn Hbq)]. }
  rewrite (rl_failed _ _ _ R q bq bq' Hbq Hbq'), (rl_data _ _ _ R q bq bq' Hbq Hbq'). destruct G as [-> ->]. split; [|reflexivity].
  apply bool_decide_eq_false_2. intros HqF. destruct (HF q HqF) as (bp & Hbp & Eq). assert (bp = bq) as -> by congruence.
  destruct (restatused_lookup _ _ R q bq Hbq) as [st Hq']. destruct (sy_chain _ _ _ _ Hx) as (bx & Hbx & El & Hch).
  pose proof (proj1 (sy_index _ _ _ _ Hx)) as Ht'. destruct (ok_prev _ _ _ (tree_ok _ Ht' q _ Hq') x Eq) as (bx' & Hbx' & EH). assert (bx' = bx) as -> by congruence.
  refine (above_not_in _ Ht' _ (or_intror (ex_intro _ x (sy_chain _ _ _ _ Hx))) q _ Hq' _ Hq). unfold Height.
  destruct (tree_ok _ Ht' x bx Hbx). lia.
Qed.

Lemma step_running (s s' : CS) tip r most x F l : running s tip r -> clean (m_block_index s) most -> most ∈ setBlockIndexCandidates s ->
  stepped params ctx s s' most x F l -> (forall p, p ∈ F -> exists bp, m_block_index s !! p = Some bp /\ pprev bp = Some x) ->
  running s' x (raise (m_block_index s) r x).
Proof using HOL.
  intros Hr Hc Hin Sp HF. pose proof (raise_spec (m_block_index s) r x) as (Hcase & Hfl & Hlow). pose proof (ru_synced _ _ _ Hr) as Hs.
  pose proof (sy_index _ _ _ _ Hs) as Hix. pose proof Sp as [Hx _ [k Hk] R Hf Hcd].
  destruct (ru_known _ _ _ Hr most Hin) as [bm Hm]. destruct (up_in _ (proj1 Hix) _ _ _ _ Hm Hk) as [[bx Hbx] _].
  apply (running_change s s' tip r x _ Hr); auto.
  - eapply relabelled_closing; eauto.
  - apply R.
  - eapply stepped_good; eauto.
  - intros q Hq. apply Hcd in Hq as Hq'. destruct (running_cands _ _ _ q Hr (proj1 Hq')) as (? & ? & _). split; [assumption|]. split; [assumption|]. eapply stepped_low; eauto.
  - destruct Hcase as [->| ->]; [apply Hr|]. exists bx. split; [exact Hbx|]. apply (ru_counted _ _ _ Hr most Hin k x bx Hk Hbx). apply not_elem_of_nil.
  - intros p Hl Hcp Hw. destruct (Hlow p Hw) as [Hw1 Hw2]. apply Hcd. split; [apply (ru_all _ _ _ Hr); auto; eapply clean_relabelled; eauto|]. split.
    + intros HpF. destruct (HF p HpF) as (bp & Hbp & _). destruct (restatused_lookup _ _ R p bp Hbp) as [st Hp'].
      destruct (Hcp 0%nat p _ eq_refl Hp') as [Hfa _]. rewrite (rl_failed _ _ _ R p bp _ Hbp Hp'), bool_decide_eq_true_2, orb_true_r in Hfa by exact HpF. discriminate.
    + apply Forall_forall. intros y Hy. eapply not_worse_trans; [exact Hw2|]. eapply stepped_way; eauto.
Qed.

Lemma aimed_kept (s s' : CS) most x l : aimed s (Some most) -> index_ok params (m_block_index s) -> is_Some (m_block_index s !! most) ->
  stepped params ctx s s' most x ∅ l -> is_Some (m_block_index s !! x) -> aimed s' (Some most).
Proof using HOL.
  intros (Hin & Hc & Hmax) Hix [bm Hm] Sp Hx. pose proof Sp as [_ _ [k Hk] R _ Hcd]. cbn. rewrite Hcd. split; [|split].
  - split; [exact Hin|]. split; [apply not_elem_of_empty|]. apply Forall_forall. intros y Hy.
    eapply not_worse_trans; [eapply ancestor_not_worse; eauto|]. eapply stepped_way; eauto.
  - eapply clean_relabelled_none; eauto.
  - intros q Hq Hcq. rewrite (worse_status _ _ _ _ (rl_status _ _ _ R)). apply Hmax; [apply Hcd, Hq|]. eapply clean_relabelled; eauto.
Qed.

(** What a round that returned did: the measure went down. *)
Record rounded (pblock : option CBlock) (s s' : CS) (tip x r r' : ptr) : Prop := {
  rd_running : running s' x r';
  rd_given : given_ok pblock s';
  rd_floor : r' = r \/ r' = x;
  rd_closing : closing (m_block_index s) (m_block_index s');
  rd_measure : (measure (m_block_index s') x < measure (m_block_index s) tip)%nat;
}.

Lemma step_round (s : CS) tip r most bm pblock given io state : running s tip r -> given_ok pblock s -> aimed s (Some most) -> most <> tip ->
  m_block_index s !! most = Some bm -> matching_block pblock bm = Ok given ->
  params_ok params -> (forall p, IsPruneMode (flushing (io p)) = false) -> m_mode state = M_VALID -> exists ok st' inv s',
  ActivateBestChainStep txout_size params ctx state most given io s = (Ok (ok, st', inv), s') /\
  (ok = false -> state_IsInvalid st' = false) /\
  (ok = true -> m_mode st' = M_VALID /\ exists x r', rounded pblock s s' tip x r r' /\ (inv = false -> aimed s' (Some most))).
Proof.
  intros Hr Hgiv Haim Hne Hm Hmatch Hpar Hio Hmode. pose proof Haim as (Hin & Hc & _). pose proof (ru_synced _ _ _ Hr) as Hs.
  pose proof (sy_index _ _ _ _ Hs) as Hix. destruct (sy_chain _ _ _ _ Hs) as (bt & Ht & _).
  destruct (step_spec txout_size params ctx s tip bt most bm given io state Hs Hpar Hio Hmode Ht Hm Hin) as (ok & st' & inv & s' & E & R1 & R2).
  { eapply running_forks; eauto. } { eapply running_on_disk; eauto. }
  exists ok, st', inv, s'. split; [exact E|]. split; [exact R2|]. intros Hok. destruct (R1 Hok) as (Hmode' & x & F & l & Sp & Hinv). split; [exact Hmode'|].
  pose proof (sp_index _ _ _ _ _ _ _ _ Sp) as R. pose proof (relabelled_closing _ _ _ R) as C.
  destruct (sp_branch _ _ _ _ _ _ _ _ Sp) as [k Hk]. destruct (up_in _ (proj1 Hix) _ _ _ _ Hm Hk) as [[bx Hbx] _].
  assert (HF : forall p, p ∈ F -> exists bp, m_block_index s !! p = Some bp /\ pprev bp = Some x).
  { destruct inv; [destruct Hinv as (p & bp & -> & Hp & Eq & _); intros q ->%elem_of_singleton; eauto|]. destruct Hinv as [-> _]. set_solver. }
  exists x, (raise (m_block_index s) r x). split.
  - constructor; [eapply step_running; eauto|eapply given_change; [apply R|apply Sp|exact Hgiv]|apply raise_spec|exact C|].
    destruct inv.
    + destruct Hinv as (p & bp & -> & Hp & Eq & [n Hn]). apply (measure_marked _ _ _ _ p C); [apply elem_of_dom; eauto| |]; unfold is_open.
      * rewrite Hp. destruct (Hc n p bp Hn Hp) as [-> _]. reflexivity.
      * destruct (restatused_lookup _ _ R p bp Hp) as [st Hp']. rewrite Hp', (rl_failed _ _ _ R p bp _ Hp Hp'), bool_decide_eq_true_2, orb_true_r by set_solver. reflexivity.
    + apply measure_better; [exact C| |apply elem_of_dom; eauto]. destruct Hinv as [_ [->|(bx' & Hx' & Hw)]].
      * destruct (worse_total (m_block_index s) tip most) as [->|[Hw|Hw]]; [contradiction|exact Hw|]. rewrite (ru_low _ _ _ Hr most Hin) in Hw. discriminate.
      * assert (bx' = bx) as -> by congruence. destruct (proj2 Hix x bx Hbx) as [_ _ [W1 _] _ _]. destruct (proj2 Hix tip bt Ht) as [_ _ [W2 _] _ _].
        apply (worse_work _ tip x bt bx); auto. rewrite uint_lt_spec by assumption. apply Z.ltb_lt, Hw.
  - intros ->. destruct Hinv as [-> _]. eapply aimed_kept; eauto.
Qed.

(** ** The loops *)

(** What the loops do to the state, one round at a time. *)
Inductive round (s s' : CS) : Prop :=
| round_find o : FindMostWorkChain s = (Ok o, s') -> round s s'
| round_step state most given io st' inv :
    ActivateBestChainStep txout_size params ctx state most given io s = (Ok (true, st', inv), s') -> round s s'.

(** [r] has been the tip since [s0]. *)
Definition visited (s0 s : CS) (r : ptr) : Prop := exists s1, rtc round s0 s1 /\ Tip (m_chain s1) = Some r /\ rtc round s1 s.

Record tracked (pblock : option CBlock) (s0 s : CS) (tip r : ptr) : Prop := {
  tr_running : running s tip r;
  tr_given : given_ok pblock s;
  tr_reached : rtc round s0 s;
  tr_visited : visited s0 s r;
}.

Lemma synced_tip (s : CS) tip : synced s tip -> Tip (m_chain s) = Some tip.
Proof using. intros Hs. apply (chain_to_tip _ (proj1 (sy_index _ _ _ _ Hs)) _ _ (sy_chain _ _ _ _ Hs)). Qed.

Lemma visited_round s0 s s' r : visited s0 s r -> round s s' -> visited s0 s' r.
Proof using. intros (s1 & H1 & Ht & H2) Hr. exists s1. split; [exact H1|]. split; [exact Ht|]. eapply rtc_r; eauto. Qed.

Lemma tracked_find pblock s0 s s' tip r o : tracked pblock s0 s tip r -> FindMostWorkChain s = (Ok o, s') -> running s' tip r ->
  restatused (m_block_index s) (m_block_index s') -> block_files s' = block_files s -> tracked pblock s0 s' tip r.
Proof using.
  intros [Hr Hg Hre Hv] E Hr' R Ef. constructor; [exact Hr'|eapply given_change; eauto|eapply rtc_r; [exact Hre|eapply round_find; eauto]|].
  eapply visited_round; [exact Hv|eapply round_find; eauto].
Qed.

Lemma tracked_step pblock s0 s s' tip r x r' : tracked pblock s0 s tip r -> round s s' -> rounded pblock s s' tip x r r' -> tracked pblock s0 s' x r'.
Proof using.
  intros [Hr Hg Hre Hv] Hround [Hr' Hg' Hf _ _]. constructor; auto; [eapply rtc_r; eauto|]. destruct Hf as [->| ->]; [eapply visited_round; eauto|].
  exists s'. split; [eapply rtc_r; eauto|]. split; [apply synced_tip, Hr'|apply rtc_refl].
Qed.

(** Nothing is left to do: the tip is the best clean candidate, or there is none. *)
Definition settled (s : CS) (tip : ptr) (most : option ptr) : Prop :=
  most = Some tip \/ (most = None /\ forall q, q ∈ setBlockIndexCandidates s -> ~ clean (m_block_index s) q).

Context (env : activation_env) (Hsteps : forall n p, IsPruneMode (flushing (step_io env n p)) = false)
  (Hlast : IsPruneMode (last_flush_env env) = false) (Hpar : params_ok params).

(** The target of a round: the one kept, or a new choice. *)
Lemma choose_round pblock s0 (s : CS) tip r pm : tracked pblock s0 s tip r -> aimed s pm -> exists o s1,
  (match pm with None => FindMostWorkChain | Some p => mret (Some p) end) s = (Ok o, s1) /\ tracked pblock s0 s1 tip r /\ aimed s1 o /\
  closing (m_block_index s) (m_block_index s1) /\ (o = None -> forall q, q ∈ setBlockIndexCandidates s1 -> ~ clean (m_block_index s1) q).
Proof using HOL.
  intros T Ha. destruct pm as [p|].
  - exists (Some p), s. split; [reflexivity|]. split; [exact T|]. split; [exact Ha|]. split; [split; [apply restatused_refl|auto]|discriminate].
  - destruct (find_round s tip r (tr_running _ _ _ _ _ T)) as (o & s1 & E & Hr & Haim & C & _ & Ef & Hnone). exists o, s1. split; [exact E|].
    split; [eapply tracked_find; eauto; apply C|]. auto.
Qed.

Lemma matching_total pblock b x : phashBlock b = Some x -> exists given, matching_block pblock b = Ok given.
Proof using. intros E. unfold matching_block, GetBlockHash. rewrite E. destruct pblock; cbn; eauto. Qed.

Lemma closing_trans h1 h2 h3 : closing h1 h2 -> closing h2 h3 -> closing h1 h3.
Proof using. intros [A1 A2] [B1 B2]. split; [eapply restatused_trans; eauto|auto]. Qed.

(** What the inner loop leaves; [before] and [after] say whether the tip had
    moved when it was entered and when it was left. *)
Record inner_done (pblock : option CBlock) (s0 s s' : CS) (tip tip' : ptr) (pm nt : option ptr) (before after : bool) : Prop := {
  in_tracked : exists r, tracked pblock s0 s' tip' r;
  in_aimed : aimed s' pm;
  in_closing : closing (m_block_index s) (m_block_index s');
  in_still : after = false -> settled s' tip' pm;
  in_moved : after = true -> nt = Some tip' /\ (measure (m_block_index s') tip' <= measure (m_block_index s) tip)%nat /\
    (before = false -> (measure (m_block_index s') tip' < measure (m_block_index s) tip)%nat);
}.

Lemma inner_spec pblock s0 starting fuel : forall (s : CS) tip r pm nt moved state, tracked pblock s0 s tip r -> aimed s pm -> m_mode state = M_VALID ->
  (measure (m_block_index s) tip <= fuel)%nat -> (moved = true -> nt = Some tip) -> exists ok pm' nt' moved' st' s',
  activate_inner txout_size params ctx fuel env pblock starting pm nt moved state s = (Ok (ok, pm', nt', moved', st'), s') /\
  (ok = false -> state_IsInvalid st' = false) /\
  (ok = true -> m_mode st' = M_VALID /\ exists tip', inner_done pblock s0 s s' tip tip' pm' nt' moved moved').
Proof.
  induction fuel as [|fuel IH]; intros s tip r pm nt moved state T Ha Hmode Hf Hnt; cbn [activate_inner].
  all: destruct (choose_round pblock s0 s tip r pm T Ha) as (o & s1 & E1 & T1 & A1 & C1 & Hnone).
  all: unfold mbind at 1, stm_bind at 1; rewrite E1; unfold mbind at 1, stm_bind at 1, get_st at 1.
  all: pose proof (measure_closing _ _ tip C1) as Hle1.
  all: assert (Hstop : settled s1 tip o -> inner_done pblock s0 s s1 tip tip o nt moved moved)
    by (intros Hset; constructor; eauto; intros Hmv; split; [auto|split; [exact Hle1|congruence]]).
  all: destruct o as [most|]; [|exists true, None, nt, moved, state, s1; (split; [reflexivity|]); (split; [discriminate|]); intros _; (split; [exact Hmode|]);
    exists tip; apply Hstop; right; auto].
  all: pose proof (ru_synced _ _ _ (tr_running _ _ _ _ _ T1)) as Hs1; rewrite (synced_tip _ _ Hs1); case_bool_decide as Et.
  1, 3: exists true, (Some most), nt, moved, state, s1; (split; [reflexivity|]); (split; [discriminate|]); intros _; (split; [exact Hmode|]);
    exists tip; apply Hstop; left; exact Et.
  all: destruct (ru_known _ _ _ (tr_running _ _ _ _ _ T1) most (proj1 A1)) as [bm Hm]; unfold mbind at 1, stm_bind at 1, lift_st at 1; rewrite (deref_ok _ most bm Hm).
  all: destruct (en_hash _ _ _ _ (proj2 (sy_index _ _ _ _ Hs1) most bm Hm)) as (xh & Exh & _); destruct (matching_total pblock bm xh Exh) as [given Eg].
  all: unfold mbind at 1, stm_bind at 1, lift_st at 1; rewrite Eg.
  - destruct (step_round s1 tip r most bm pblock given (step_io env 0) state (tr_running _ _ _ _ _ T1) (tr_given _ _ _ _ _ T1) A1 ltac:(congruence) Hm Eg Hpar (Hsteps 0) Hmode)
      as (ok & st' & inv & s2 & E2 & Rf & Rt).
    unfold mbind at 1, stm_bind at 1. rewrite E2. destruct ok; cbn [negb].
    + exfalso. destruct (Rt eq_refl) as (_ & x & r' & [_ _ _ _ Hlt] & _). lia.
    + do 6 eexists. split; [reflexivity|]. split; [exact Rf|discriminate].
  - destruct (step_round s1 tip r most bm pblock given (step_io env (S fuel)) state (tr_running _ _ _ _ _ T1) (tr_given _ _ _ _ _ T1) A1 ltac:(congruence) Hm Eg Hpar (Hsteps (S fuel)) Hmode)
      as (ok & st' & inv & s2 & E2 & Rf & Rt).
    unfold mbind at 1, stm_bind at 1. rewrite E2. destruct ok; cbn [negb].
    2: { do 6 eexists. split; [reflexivity|]. split; [exact Rf|discriminate]. }
    destruct (Rt eq_refl) as (Hmode' & x & r' & Hrd & Hkeep). clear Rt Rf. pose proof Hrd as [Hr2 _ _ C2 Hlt].
    pose proof (tracked_step pblock s0 s1 s2 tip r x r' T1 (round_step _ _ _ _ _ _ _ _ E2) Hrd) as T2.
    assert (A2 : aimed s2 (if inv then None else Some most)) by (destruct inv; [exact I|auto]).
    unfold mbind at 1, stm_bind at 1, get_st at 1. rewrite (synced_tip _ _ (ru_synced _ _ _ Hr2)).
    set (again := match starting with Some start => worse (m_block_index s2) x start | None => false end).
    assert (C : closing (m_block_index s) (m_block_index s2)) by (eapply closing_trans; eauto).
    destruct again.
    + destruct (IH s2 x r' (if inv then None else Some most) (Some x) true st' T2 A2 Hmode' ltac:(lia) ltac:(auto)) as (ok & pm' & nt' & mv & st3 & s3 & E3 & Rf & Rt).
      exists ok, pm', nt', mv, st3, s3. split; [exact E3|]. split; [exact Rf|]. intros Hok. destruct (Rt Hok) as (Hm3 & tip' & [D1 D2 D3 D4 D5]). split; [exact Hm3|].
      exists tip'. constructor; auto; [eapply closing_trans; eauto|]. intros Hmv. destruct (D5 Hmv) as (? & ? & _). split; [assumption|lia].
    + do 6 eexists. split; [reflexivity|]. split; [discriminate|]. intros _. split; [exact Hmode'|]. exists x. constructor; eauto; [discriminate|]. intros _. split; [reflexivity|lia].
Qed.

(** No interrupt and no shutdown during the call. *)
Definition undisturbed : Prop := forall n, m_interrupt env n = false /\ blockTip_interrupted env n = false.

Definition outer_done (pblock : option CBlock) (s0 s' : CS) (tip r : ptr) : Prop := exists s1, tracked pblock s0 s1 tip r /\ flushed s1 s' /\
  (undisturbed -> exists pm, aimed s1 pm /\ settled s1 tip pm).

Lemma outer_spec pblock s0 inner fuel : forall (s : CS) tip r pm nt state, tracked pblock s0 s tip r -> aimed s pm -> m_mode state = M_VALID ->
  (measure (m_block_index s) tip <= fuel)%nat -> (measure (m_block_index s) tip <= inner)%nat -> exists ok st' s',
  activate_outer txout_size params ctx fuel inner env pblock pm nt state s = (Ok (ok, st'), s') /\ (ok = false -> state_IsInvalid st' = false) /\
  (ok = true -> exists tip' r', outer_done pblock s0 s' tip' r').
Proof.
  induction fuel as [|fuel IH]; intros s tip r pm nt state T Ha Hmode Hf Hin; cbn [activate_outer].
  all: unfold mbind at 1, stm_bind at 1, get_st at 1; rewrite (synced_tip _ _ (ru_synced _ _ _ (tr_running _ _ _ _ _ T))).
  all: destruct (inner_spec pblock s0 (Some tip) inner s tip r pm nt false state T Ha Hmode Hin ltac:(discriminate)) as (ok & pm' & nt' & mv & st1 & s1 & E1 & Rf & Rt).
  all: unfold mbind at 1, stm_bind at 1; rewrite E1; destruct ok; cbn [negb];
    [|exists false, st1, s1; (split; [reflexivity|]); (split; [exact Rf|discriminate])].
  all: destruct (Rt eq_refl) as (Hmode1 & tip' & [[r' T1] A1 C1 D4 D5]); clear Rt Rf; pose proof (ru_synced _ _ _ (tr_running _ _ _ _ _ T1)) as Hs1.
  all: destruct mv; cbn [negb]; [|exists true, st1, s1; (split; [reflexivity|]); (split; [discriminate|]); intros _; exists tip', r', s1; (split; [exact T1|]);
    (split; [apply flushed_refl, Hs1|]); intros _; exists pm'; auto].
  all: destruct (D5 eq_refl) as (-> & _ & Hlt); specialize (Hlt eq_refl).
  { lia. }
  assert (Hfin : (undisturbed -> Some tip' = pm') -> exists ok st' s', finish_activation env st1 s1 = (Ok (ok, st'), s') /\
    (ok = false -> state_IsInvalid st' = false) /\ (ok = true -> exists tip' r', outer_done pblock s0 s' tip' r')).
  { intros Hu. destruct (FlushStateToDisk_spec (last_flush_env env) PERIODIC 0 st1 s1 Hlast (sy_view _ _ _ _ Hs1)) as (ok & st' & s' & E & F & _ & R2).
    exists ok, st', s'. split; [exact E|]. split; [intros Hok; unfold state_IsInvalid; rewrite (R2 Hok); reflexivity|]. intros _. exists tip', r', s1. split; [exact T1|]. split; [exact F|].
    intros U. exists pm'. split; [exact A1|]. left. symmetry. auto. }
  unfold mbind at 1, stm_bind at 1, get_st at 1.
  destruct (sy_chain _ _ _ _ (ru_synced _ _ _ (tr_running _ _ _ _ _ T))) as (bt & Hbt & _). destruct (restatused_lookup _ _ (proj1 C1) tip bt Hbt) as [stt Hbt1].
  destruct (FindFork_spec _ (proj1 (sy_index _ _ _ _ Hs1)) _ (or_intror (ex_intro _ tip' (sy_chain _ _ _ _ Hs1))) tip _ Hbt1) as (fork & Efk & _).
  unfold mbind at 1, stm_bind at 1, lift_st at 1. rewrite Efk. destruct (_ || m_interrupt env (S fuel))%bool eqn:Eint.
  - apply Hfin. intros U. destruct (U (S fuel)) as [U1 U2]. rewrite U1, U2, andb_false_r in Eint. discriminate.
  - clear Eint. case_bool_decide as Ept; [apply Hfin; auto|]. destruct (IH s1 tip' r' pm' (Some tip') st1 T1 A1 Hmode1) as (ok & st2 & s2 & E2 & R); [lia|lia|eauto].
Qed.

(** When the loops are done, the tip is the best of all clean, linked blocks,
    unless a block that had been the tip is no longer clean. *)
Lemma settled_best pblock s0 (s : CS) tip r pm : tracked pblock s0 s tip r -> aimed s pm -> settled s tip pm -> clean (m_block_index s) r ->
  forall p, linked (m_block_index s) p -> clean (m_block_index s) p -> p = tip \/ worse (m_block_index s) p tip = true.
Proof using HOL.
  intros [Hr _ _ _] Ha Hset Hcr p Hl Hcp. pose proof (ru_all _ _ _ Hr) as Hall.
  assert (Hrin : r ∈ setBlockIndexCandidates s) by (apply Hall; [apply Hr|exact Hcr|apply worse_irrefl]).
  destruct Hset as [->|[_ Hno]]; [|destruct (Hno r Hrin Hcr)]. destruct Ha as (_ & _ & Hmax).
  assert (Hrt : r = tip).
  { destruct (Hmax r Hrin Hcr) as [->|Hw]; [reflexivity|]. destruct (ru_floor _ _ _ Hr) as [->|Hw']; [reflexivity|].
    pose proof (worse_trans _ _ _ _ Hw Hw') as Cn. rewrite worse_irrefl in Cn. discriminate. }
  subst r. destruct (worse (m_block_index s) p tip) eqn:Ew; [auto|left]. destruct (Hmax p (Hall p Hl Hcp Ew) Hcp) as [?|?]; [assumption|congruence].
Qed.

Lemma flushed_synced (s s' : CS) tip : synced s tip -> flushed s s' -> synced s' tip.
Proof using.
  intros Hs (c & d & f & -> & Sv). pose proof Hs as [_ _ _ Hv _ _ _ [Hh Hk] Hin _].
  apply (synced_marks params ctx s); auto using restatused_refl.
Qed.
End Loops.

(** C4. [ActivateBestChain] terminates and ends at the best chain.  Started with
    the coins of the active chain and with the candidates that the block index
    calls for, it returns (no assertion fails, nothing throws, the rounds are
    bounded by the number of blocks known), and it never reports a system
    error as an invalid block.  On success the coins are those of replaying the
    new active chain; if nothing interrupted it, then the tip is the best of
    all blocks of the index whose branch is complete and not known to be
    invalid, and the candidates are again the ones called for — provided the
    best block [r] that was the tip during the call was not found invalid
    later. *)
Theorem ActivateBestChain_reaches_best {HP : Primitives} {HPL : PrimitivesLaws} {W : Type} {HW : CCoinsView W} {HA : ViewAbs W} {HVL : ViewLaws W}
    {HT : TxEnv} {HTL : TxEnvLaws} {HB : BlockEnv} {HE : LockEnv} {HL : LockEnvLaws} {HC : ConnectEnv}
    {HO : WorkOrder} {HOL : WorkOrderLaws} {HS : BlockStore W} {HSL : BlockStoreLaws W}
    (txout_size : Z) (params : Params) (ctx : node_context) (env : activation_env) (s : Chainstate W) (tip : ptr)
    (pblock : option CBlock) (state : BlockValidationState) :
  running params ctx s tip tip -> given_ok params pblock s -> params_ok params -> m_mode state = M_VALID ->
  (forall n p, IsPruneMode (flushing (step_io env n p)) = false) -> IsPruneMode (last_flush_env env) = false ->
  exists ok st' s',
  ActivateBestChain txout_size params ctx env pblock state s = (Ok (ok, st'), s') /\
  (ok = false -> state_IsInvalid st' = false) /\
  (ok = true -> exists tip' r, Tip (m_chain s') = Some tip' /\ coins (CoinsTip s') = replay (block_files s') (m_chain s') /\
     (exists s1, rtc (round txout_size params ctx) s s1 /\ Tip (m_chain s1) = Some r) /\
     (undisturbed env -> clean (m_block_index s') r -> running params ctx s' tip' tip' /\
        forall p, linked (m_block_index s') p -> clean (m_block_index s') p -> p = tip' \/ worse (m_block_index s') p tip' = true)).
Proof.
  intros Hr Hg Hpar Hmode Hsteps Hlast. unfold ActivateBestChain, mbind, stm_bind, get_st.
  assert (T : tracked txout_size params ctx pblock s s tip tip).
  { constructor; auto using rtc_refl. exists s. split; [apply rtc_refl|]. split; [eapply synced_tip, Hr|apply rtc_refl]. }
  destruct (outer_spec txout_size params ctx env Hsteps Hlast Hpar pblock s (rounds s) (rounds s) s tip tip None None state T I Hmode
    (measure_bound _ _) (measure_bound _ _)) as (ok & st' & s' & E & R1 & R2).
  exists ok, st', s'. split; [exact E|]. split; [exact R1|]. intros Hok. destruct (R2 Hok) as (tip' & r & s1 & T1 & F & Hset). exists tip', r.
  pose proof (flushed_synced params ctx s1 s' tip' (ru_synced _ _ _ _ _ (tr_running _ _ _ _ _ _ _ _ T1)) F) as Hs'.
  split; [eapply synced_tip; eauto|]. split; [apply Hs'|]. destruct (tr_visited _ _ _ _ _ _ _ _ T1) as (s2 & V1 & V2 & _). split; [eauto|].
  assert (Ei : m_block_index s' = m_block_index s1) by (destruct F as (? & ? & ? & -> & _); reflexivity).
  rewrite Ei. intros Hu Hcl. destruct (Hset Hu) as (pm & Ha & Hst). pose proof (settled_best txout_size params ctx pblock s s1 tip' r pm T1 Ha Hst Hcl) as Hbest.
  split; [|exact Hbest]. pose proof (tr_running _ _ _ _ _ _ _ _ T1) as Hr1.
  assert (r = tip') as ->.
  { destruct (Hbest r (ru_link _ _ _ _ _ Hr1) Hcl) as [?|Hw]; [assumption|]. destruct (ru_floor _ _ _ _ _ Hr1) as [?|Hw']; [congruence|].
    pose proof (worse_trans _ _ _ _ Hw Hw') as Cn. rewrite worse_irrefl in Cn. discriminate. }
  destruct F as (c & d & f & -> & Sv). destruct Hr1. constructor; assumption.
Qed.

(** ** The reorganisation again *)

#[local] Existing Instance zero_primitives.
#[local] Existing Instance zero_primitives_laws.
#[local] Existing Instance zero_tx_env.
#[local] Existing Instance zero_tx_laws.
#[local] Existing Instance nonce_blocks.
#[local] Existing Instance bip68.
#[local] Existing Instance bip68_laws.
#[local] Existing Instance permissive.
#[local] Existing Instance by_work.
#[local] Existing Instance by_work_laws.
#[local] Existing Instance calm_store.
#[local] Existing Instance calm_store_laws.

Definition calm_env : activation_env :=
  {| step_io := fun _ => calm_io; m_interrupt := fun _ => false; blockTip_interrupted := fun _ => false; last_flush_env := calm |}.

Lemma clean_all (h : heap) : forallb (fun kb => negb (failed kb.2) && has_data kb.2)%bool (map_to_list h) = true -> forall p, clean h p.
Proof.
  intros E p n q bq _ Hq. rewrite forallb_forall in E. specialize (E (q, bq)). rewrite <- list_elem_of_In, elem_of_map_to_list in E.
  specialize (E Hq). cbn in E. apply andb_true_iff in E as [E1 E2]. apply negb_true_iff in E1. auto.
Qed.

Lemma reorg_known p b : reorg_tree !! p = Some b -> p ∈ [0; 1; 2; 3]%nat.
Proof. intros Hb. apply elem_of_list_to_map_2 in Hb. apply (list_elem_of_fmap_2 fst) in Hb. exact Hb. Qed.

Lemma reorg_running : running sample_params sample_context reorg_state 1 1.
Proof.
  constructor.
  - exact reorg_synced.
  - intros p Hp. cbn in Hp. apply elem_of_union in Hp as [->%elem_of_singleton| ->%elem_of_singleton]; eexists; reflexivity.
  - intros p _. apply counted_all. vm_compute. reflexivity.
  - exists 0%nat. intros p [b Hb]. apply reorg_known in Hb. cbn [m_block_index reorg_state].
    repeat (apply elem_of_cons in Hb as [->|Hb]); [exists 0%nat|exists 1%nat|exists 1%nat|exists 2%nat|destruct (not_elem_of_nil _ Hb)]; reflexivity.
  - intros p b Hb _. apply reorg_known in Hb. repeat (apply elem_of_cons in Hb as [->|Hb]); [..|destruct (not_elem_of_nil _ Hb)]; eexists; reflexivity.
  - intros p b _ Hb. apply (clean_all reorg_tree ltac:(vm_compute; reflexivity) p 0%nat p b eq_refl Hb).
  - intros p Hp. cbn in Hp. apply elem_of_union in Hp as [->%elem_of_singleton| ->%elem_of_singleton]; vm_compute; reflexivity.
  - left. reflexivity.
  - eexists. split; reflexivity.
  - intros p (b & Hb & _) _ Hw. apply reorg_known in Hb. repeat (apply elem_of_cons in Hb as [->|Hb]); [..|destruct (not_elem_of_nil _ Hb)];
      first [vm_compute in Hw; discriminate|vm_compute; reflexivity].
Qed.

Lemma ActivateBestChain_reaches_best_witness : exists st' s',
  ActivateBestChain 9 sample_params sample_context calm_env None (fresh_state BLOCK_RESULT_UNSET) reorg_state = (Ok (true, st'), s') /\
  Tip (m_chain s') = Some 3%nat /\ running sample_params sample_context s' 3 3.
Proof.
  destruct (ActivateBestChain_reaches_best 9 sample_params sample_context calm_env reorg_state 1 None (fresh_state BLOCK_RESULT_UNSET)) as (ok & st' & s' & E & _ & R).
  - exact reorg_running.
  - intros ? ? ? ?. discriminate.
  - split; [cbn; lia|unfold in_u; cbn; lia].
  - reflexivity.
  - reflexivity.
  - reflexivity.
  - assert (F : match ActivateBestChain 9 sample_params sample_context calm_env None (fresh_state BLOCK_RESULT_UNSET) reorg_state with
              | (Ok (true, _), s1) => Tip (m_chain s1) = Some 3%nat /\ forallb (fun kb => negb (failed kb.2) && has_data kb.2)%bool (map_to_list (m_block_index s1)) = true
              | _ => False end) by (vm_compute; split; reflexivity).
    rewrite E in F. destruct ok; [|contradiction]. destruct F as [Ft Fc]. exists st', s'. split; [exact E|]. split; [exact Ft|].
    destruct (R eq_refl) as (tip' & r & Et & _ & _ & Hrun). assert (tip' = 3%nat) as -> by congruence.
    apply Hrun; [intros n; split; reflexivity|]. apply clean_all, Fc.
Defined.
