(* ===== verification/InvalidateProofs.v ===== *)
(** * Invalidating a block by hand

    Theorems about [InvalidateBlock] (src/validation.cpp) as
    [ChainActivation] models it: it takes the block and all blocks above it off
    the active chain, marks them invalid, and leaves the node in a state from
    which [ActivateBestChain] finds the best remaining chain. *)

From stdpp Require Import base numbers list gmap strings.
From Stdlib Require Import ZArith Lia.
From S2P Require Import Prelude ArithUint256 Compact Params Chain ActiveChain ChainWork Pow VersionBits.
From S2P Require Import Merkle Streams Serialize Compressor Transaction Coins CoinsProofs CoinsRefinement TxCheck.
From S2P Require Import Locks Blocks Connect ConnectBlock Replay.
From S2P Require Import ChainState ChainSelectionProofs ChainSelection ChainSteps ChainActivation ActivationProofs.

Local Open Scope Z_scope.

(** What [CheckBlockIndex] asks of the entries besides: a block with data has
    its transactions checked, and the transactions of a branch are counted from
    the genesis block on. *)
Record index_counts (h : heap) : Prop := {
  ic_valid : forall p b, h !! p = Some b -> has_data b = true -> BLOCK_VALID_TRANSACTIONS <= Z.land (nStatus b) BLOCK_VALID_MASK;
  ic_counted : forall p b, h !! p = Some b -> HaveNumChainTxs b = true -> counted h [] p;
  ic_linked : forall p b, h !! p = Some b -> Chain.nHeight b = 0 -> HaveNumChainTxs b = true;
}.

Lemma IsValid_transactions b : IsValid b BLOCK_VALID_TRANSACTIONS =
  Ok (negb (failed b) && (Z.land (nStatus b) BLOCK_VALID_MASK >=? BLOCK_VALID_TRANSACTIONS))%bool.
Proof. unfold IsValid, failed. cbn [mbind res_bind assert_]. change (assert_ _) with (Ok tt : res unit). cbn. destruct (_ =? 0); reflexivity. Qed.

Lemma candidates_by_work_spec `{WorkOrder} h c prev l : Forall (fun e => h !! e.1 = Some e.2) l -> tree_wf h -> active_chain h c -> exists r,
  candidates_by_work h c prev l = Ok r /\ Forall (fun e => exists b, h !! e.2 = Some b /\ HaveNumChainTxs b = true) r.
Proof.
  intros Hl Ht Hc. induction l as [|[p b] l IH]; [exists []; auto|]. apply Forall_cons in Hl as [Hp Hl]. destruct (IH Hl) as (r & Er & Hr). cbn in Hp.
  cbn [candidates_by_work]. rewrite (Contains_spec h Ht c Hc p b Hp), IsValid_transactions, Er. cbn [mbind res_bind]. eexists. split; [reflexivity|].
  destruct (_ && HaveNumChainTxs b)%bool eqn:E; [|exact Hr]. apply andb_true_iff in E as [_ E]. constructor; [eauto|exact Hr].
Qed.

Lemma missing_candidates_spec `{WorkOrder} h tip l : exists r, missing_candidates h tip l = Ok r /\ forall p, p ∈ r <-> exists b, (p, b) ∈ l /\
  failed b = false /\ BLOCK_VALID_TRANSACTIONS <= Z.land (nStatus b) BLOCK_VALID_MASK /\ HaveNumChainTxs b = true /\ worse h p tip = false.
Proof.
  induction l as [|[p b] l (r & Er & Hr)].
  - exists []. split; [reflexivity|]. intros q. split; [intros E; destruct (not_elem_of_nil _ E)|intros (? & E & _); destruct (not_elem_of_nil _ E)].
  - cbn [missing_candidates]. rewrite IsValid_transactions, Er. cbn [mbind res_bind]. eexists. split; [reflexivity|]. intros q.
    assert (Hp : forall A : Prop, (A /\ (negb (failed b) && (Z.land (nStatus b) BLOCK_VALID_MASK >=? BLOCK_VALID_TRANSACTIONS) && HaveNumChainTxs b && negb (worse h p tip))%bool = true
      <-> A /\ failed b = false /\ BLOCK_VALID_TRANSACTIONS <= Z.land (nStatus b) BLOCK_VALID_MASK /\ HaveNumChainTxs b = true /\ worse h p tip = false)).
    { intros A. rewrite !andb_true_iff, !negb_true_iff, Z.geb_le. tauto. }
    setoid_rewrite elem_of_cons. destruct (_ && negb (worse h p tip))%bool.
    + rewrite elem_of_cons, Hr. split.
      * intros [->|(b' & Hin & Hrest)]; [exists b; apply Hp; auto|exists b'; auto].
      * intros (b' & [[= -> ->]|Hin] & Hrest); [auto|eauto].
    + rewrite Hr. split; [intros (b' & Hin & Hrest); exists b'; auto|]. intros (b' & [[= -> ->]|Hin] & Hrest); [|eauto].
      destruct (proj2 (Hp True)) as [_ E]; [auto|discriminate].
Qed.

(** The entries of [F] with [BLOCK_FAILED_VALID] set. *)
Definition with_failed (F : gset ptr) (h : heap) : heap :=
  map_imap (fun p b => Some (if bool_decide (p ∈ F) then set_nStatus b (Z.lor (nStatus b) BLOCK_FAILED_VALID) else b)) h.

Lemma with_failed_lookup F h p : with_failed F h !! p =
  (fun b => if bool_decide (p ∈ F) then set_nStatus b (Z.lor (nStatus b) BLOCK_FAILED_VALID) else b) <$> h !! p.
Proof. unfold with_failed. rewrite map_lookup_imap. destruct (h !! p); reflexivity. Qed.

Lemma with_failed_none h : with_failed ∅ h = h.
Proof. apply map_eq. intros p. rewrite with_failed_lookup, bool_decide_eq_false_2 by apply not_elem_of_empty. destruct (h !! p); reflexivity. Qed.

Lemma with_failed_more F h p b : with_failed F h !! p = Some b ->
  <[p := set_nStatus b (Z.lor (nStatus b) BLOCK_FAILED_VALID)]> (with_failed F h) = with_failed (F ∪ {[p]}) h.
Proof.
  intros Hp. apply map_eq. intros q. rewrite with_failed_lookup. destruct (decide (q = p)) as [->|Hne].
  - rewrite lookup_insert_eq. rewrite with_failed_lookup in Hp. destruct (h !! p) as [b0|]; [|discriminate]. injection Hp as <-. cbn.
    rewrite (bool_decide_eq_true_2 (p ∈ F ∪ {[p]})) by set_solver. case_bool_decide; [|reflexivity]. cbn. rewrite <- Z.lor_assoc, Z.lor_diag. reflexivity.
  - rewrite lookup_insert_ne, with_failed_lookup by auto. rewrite (bool_decide_ext (q ∈ F ∪ {[p]}) (q ∈ F)) by set_solver. reflexivity.
Qed.

Lemma with_failed_relabelled F h : relabelled F h (with_failed F h).
Proof.
  constructor.
  - intros p. rewrite with_failed_lookup. destruct (h !! p) as [b|]; [|exact I]. cbn. case_bool_decide; destruct b; reflexivity.
  - intros p b b' Hb. rewrite with_failed_lookup, Hb. intros [= <-]. case_bool_decide; [|reflexivity]. unfold has_data. cbn. rewrite Z.land_lor_distr_l.
    change (Z.land BLOCK_FAILED_VALID BLOCK_HAVE_DATA) with 0. rewrite Z.lor_0_r. reflexivity.
  - intros p b b' Hb. rewrite with_failed_lookup, Hb. intros [= <-]. case_bool_decide; [rewrite failed_valid, orb_true_r; reflexivity|rewrite orb_false_r; reflexivity].
Qed.

Section Invalidate.
Context {HP : Primitives} {HPL : PrimitivesLaws} {W : Type} {HW : CCoinsView W} {HA : ViewAbs W} {HVL : ViewLaws W}.
Context {HT : TxEnv} {HTL : TxEnvLaws} {HB : BlockEnv} {HE : LockEnv} {HL : LockEnvLaws} {HC : ConnectEnv}.
Context {HO : WorkOrder} {HOL : WorkOrderLaws} {HS : BlockStore W} {HSL : BlockStoreLaws W}.
Context (txout_size : Z) (params : Params) (ctx : node_context).
Notation CS := (Chainstate W).
Notation synced := (synced params ctx).

(** [s] is [s0] with the blocks [F] taken off its chain and marked. *)
Record unwound (s0 s : CS) (t : ptr) (F : gset ptr) : Prop := {
  uw_synced : synced s t;
  uw_index : m_block_index s = with_failed F (m_block_index s0);
  uw_files : block_files s = block_files s0;
  uw_chain : exists l, m_chain s0 = m_chain s ++ map Some l /\ forall p, p ∈ F <-> p ∈ l;
  uw_cands : forall q, q ∈ setBlockIndexCandidates s -> is_Some (m_block_index s0 !! q) /\ counted (m_block_index s0) [] q /\ worse (m_block_index s0) q t = false;
}.

Lemma unwound_relabelled s0 s t F : unwound s0 s t F -> relabelled F (m_block_index s0) (m_block_index s).
Proof using. intros U. rewrite (uw_index _ _ _ _ U). apply with_failed_relabelled. Qed.

(** The candidates set aside at the start. *)
Definition set_aside (h : heap) (l : list (base_uint * ptr)) : Prop := Forall (fun e => exists b, h !! e.2 = Some b /\ HaveNumChainTxs b = true) l.

Lemma readmit_spec h prev bprev l rest ready : readmit h prev bprev l = (rest, ready) -> rest ⊆ l /\ forall p, p ∈ ready -> (exists w, (w, p) ∈ l) /\ worse h p prev = false.
Proof using.
  unfold readmit. intros [= <- <-]. split; [intros e He; apply list_elem_of_filter in He; tauto|]. intros p Hp.
  apply list_elem_of_fmap in Hp as ([w q] & -> & Hin). apply list_elem_of_filter in Hin as [E Hin]. split; [eauto|]. apply andb_true_iff in E as [_ E].
  apply negb_true_iff in E. exact E.
Qed.

(** Blocks of the chain that is left are not marked. *)
Lemma unwound_clear (s0 s : CS) t F p b tip : unwound s0 s t F -> chain_to (m_block_index s0) (m_chain s0) tip -> tree_wf (m_block_index s0) ->
  good_chain (m_block_index s0) (m_chain s0) -> Some p ∈ m_chain s -> m_block_index s !! p = Some b -> p ∉ F /\ failed b = false.
Proof using.
  intros U Hch Ht Hg Hp Hb. pose proof (unwound_relabelled _ _ _ _ U) as R. destruct U as [_ _ _ (l & El & HF) _]. destruct (restatused_lookup_inv _ _ R p b Hb) as (b0 & H0 & _).
  assert (Hn : p ∉ F).
  { intros Hin%HF. apply list_elem_of_lookup in Hp as [i Hi]. apply list_elem_of_lookup in Hin as [j Hj].
    assert (E1 : m_chain s0 !! i = Some (Some p)) by (rewrite El; apply lookup_app_l_Some, Hi).
    assert (E2 : m_chain s0 !! (length (m_chain s) + j)%nat = Some (Some p)).
    { rewrite El, lookup_app_r, Nat.add_comm, Nat.add_sub by lia. change (map Some l) with (Some <$> l). rewrite list_lookup_fmap, Hj. reflexivity. }
    pose proof (or_intror (ex_intro _ tip Hch) : active_chain _ _) as Hac.
    destruct (chain_height_lookup _ Ht _ Hac _ _ E1) as (b1 & B1 & L1), (chain_height_lookup _ Ht _ Hac _ _ E2) as (b2 & B2 & L2).
    assert (b1 = b2) as -> by congruence. apply lookup_lt_Some in Hi. lia. }
  split; [exact Hn|]. rewrite (rl_failed _ _ _ R p b0 b H0 Hb), bool_decide_eq_false_2 by exact Hn.
  destruct (Hg p b0) as [-> _]; [rewrite El; apply elem_of_app; auto|exact H0|reflexivity].
Qed.

Lemma failed_bit b : failed b = false -> Z.land (nStatus b) BLOCK_FAILED_VALID = 0.
Proof using.
  unfold failed. intros E%negb_false_iff%Z.eqb_eq. change BLOCK_FAILED_VALID with (Z.land BLOCK_FAILED_MASK BLOCK_FAILED_VALID). rewrite Z.land_assoc, E. reflexivity.
Qed.

Context (s0 : CS) (tip0 : ptr) (H0 : running params ctx s0 tip0 tip0) (Hic : index_counts (m_block_index s0)).
Notation h0 := (m_block_index s0).

Lemma chain_up p : Some p ∈ m_chain s0 -> exists n, up h0 n tip0 = Some p.
Proof using H0.
  intros Hp. apply list_elem_of_lookup in Hp as [i Hi]. destruct (sy_chain _ _ _ _ (ru_synced _ _ _ _ _ H0)) as (bt & Hbt & El & Hc).
  rewrite Hc in Hi by (apply lookup_lt_Some in Hi; lia). injection Hi as Hi. eauto.
Qed.

Lemma chain_counted p : Some p ∈ m_chain s0 -> counted h0 [] p.
Proof using H0 HOL.
  intros Hp. destruct (chain_up p Hp) as [n Hn].
  assert (Hin : tip0 ∈ setBlockIndexCandidates s0).
  { apply (ru_all _ _ _ _ _ H0); [apply H0| |apply worse_irrefl]. intros m q bq Hm Hq. apply (ru_good _ _ _ _ _ H0 q bq); [|exact Hq].
    destruct (sy_chain _ _ _ _ (ru_synced _ _ _ _ _ H0)) as (bt & Hbt & El & Hc).
    destruct (up_in _ (proj1 (sy_index _ _ _ _ (ru_synced _ _ _ _ _ H0))) _ _ _ _ Hbt Hm) as [_ Hle].
    apply (list_elem_of_lookup_2 _ (Z.to_nat (Chain.nHeight bt) - m)%nat). rewrite Hc by lia. f_equal.
    replace (Z.to_nat (Chain.nHeight bt) - (Z.to_nat (Chain.nHeight bt) - m))%nat with m by lia. exact Hm. }
  intros m q bq Hm Hq Hout. apply (ru_counted _ _ _ _ _ H0 tip0 Hin (n + m)%nat q bq); [rewrite up_add, Hn; exact Hm|exact Hq|exact Hout].
Qed.

Lemma unwound_start : unwound s0 s0 tip0 ∅.
Proof using H0.
  constructor; [apply H0|symmetry; apply with_failed_none|reflexivity| |intros q; apply (running_cands _ _ _ _ _ _ H0)].
  - exists []. cbn. rewrite app_nil_r. split; [reflexivity|]. intros p. split; intros Hp; [destruct (not_elem_of_empty _ Hp)|destruct (not_elem_of_nil _ Hp)].
Qed.

(** The parent takes over as a candidate, and those set aside that do not sort
    before it; the test for the block marked before never succeeds. *)
Lemma invalidate_tip_spec (s sd : CS) F t bt q tmf cands : unwound s0 s t F -> m_block_index s !! t = Some bt -> pprev bt = Some q ->
  synced sd q -> m_chain s = m_chain sd ++ [Some t] -> m_block_index sd = m_block_index s -> setBlockIndexCandidates sd = setBlockIndexCandidates s ->
  block_files sd = block_files s -> is_Some (h0 !! tmf) -> set_aside h0 cands -> exists rest s',
  invalidate_tip t tmf cands sd = (Ok rest, s') /\ unwound s0 s' q (F ∪ {[t]}) /\ set_aside h0 rest /\ m_chain s' = m_chain sd.
Proof.
  intros U Ht Eq Hsd Ec Ei Ecd Ef [bm0 Hm0] Has. pose proof (unwound_relabelled _ _ _ _ U) as R. pose proof U as [Hs Ewf Efi (l & El & HF) Hcd]. pose proof (ru_synced _ _ _ _ _ H0) as Hs0.
  pose proof (sy_index _ _ _ _ Hs0) as [Ht0 _]. pose proof (sy_index _ _ _ _ Hs) as Hix.
  unfold invalidate_tip. unfold mbind at 1, stm_bind at 1, mark_status. unfold mbind at 1, stm_bind at 1, get_st at 1. unfold mbind at 1, stm_bind at 1, lift_st at 1.
  rewrite Ei, (deref_ok _ t bt Ht). unfold mbind at 1, stm_bind at 1, modify_st at 1. unfold modify_st at 1. unfold mbind at 1, stm_bind at 1, get_st at 1.
  set (bt' := set_nStatus bt _). cbn [m_block_index update_index note_dirty update_dirty]. rewrite Ei. set (h1 := <[t := bt']> (m_block_index s)).
  assert (Eh1 : h1 = with_failed (F ∪ {[t]}) h0) by (unfold h1, bt'; rewrite Ewf in Ht |- *; apply with_failed_more, Ht).
  assert (R1 : relabelled (F ∪ {[t]}) h0 h1) by (rewrite Eh1; apply with_failed_relabelled).
  assert (Rs : restatused (m_block_index s) h1) by (apply restatused_insert, Ht).
  unfold mbind at 1, stm_bind at 1, lift_st at 1. rewrite (deref_ok h1 t bt') by apply lookup_insert_eq.
  unfold mbind at 1, stm_bind at 1, lift_st at 1. replace (pprev bt') with (Some q) by (symmetry; exact Eq). cbn [access].
  unfold mbind at 1, stm_bind at 1, modify_st at 1. destruct (restatused_lookup _ _ R1 tmf bm0 Hm0) as [stm Hm].
  unfold mbind at 1, stm_bind at 1, lift_st at 1. rewrite (deref_ok h1 tmf _ Hm).
  pose proof (tip_in_chain _ _ (synced_tip params ctx sd q Hsd)) as Hqc.
  assert (Hq0 : Some q ∈ m_chain s0) by (rewrite El, Ec; do 2 (apply elem_of_app; left); exact Hqc).
  destruct (ok_prev _ _ _ (tree_ok _ (proj1 Hix) t bt Ht) q Eq) as (bq & Hq & EH).
  assert (Hqt : q <> t) by (intros ->; assert (bq = bt) by congruence; subst; lia).
  replace (bool_decide (q = tmf) && _)%bool with false.
  2: { case_bool_decide as E; [|reflexivity]. subst tmf. unfold h1 in Hm. rewrite lookup_insert_ne in Hm by auto.
       assert (Hqs : Some q ∈ m_chain s) by (rewrite Ec; apply elem_of_app; auto).
       destruct (unwound_clear s0 s t F q _ tip0 U (sy_chain _ _ _ _ Hs0) Ht0 (ru_good _ _ _ _ _ H0) Hqs Hm) as [_ Hf].
       rewrite (failed_bit _ Hf). reflexivity. }
  unfold mbind at 1, stm_bind at 1, mret at 1, stm_ret at 1. unfold mbind at 1, stm_bind at 1, get_st at 1.
  destruct (restatused_lookup _ _ Rs q bq Hq) as [stq Hq1]. unfold mbind at 1, stm_bind at 1, lift_st at 1.
  cbn [m_block_index update_candidates update_index note_dirty update_dirty]. rewrite Ei. fold h1. rewrite (deref_ok h1 q _ Hq1).
  destruct (readmit h1 q _ cands) as [rest ready] eqn:Erd. destruct (readmit_spec _ _ _ _ _ _ Erd) as [Hrest Hready].
  unfold mbind, stm_bind, modify_st, mret, stm_ret. eexists rest, _. split; [reflexivity|].
  assert (Wo : forall x y, worse h1 x y = worse h0 x y) by (intros; apply worse_status, R1).
  split; [|split; [eapply Forall_forall; intros e He; exact (proj1 (Forall_forall _ _) Has e (Hrest e He))|reflexivity]].
  pose proof Hsd as [_ _ _ Hv _ _ _ [Hh Hk] Hin _]. constructor; cbn [m_block_index m_chain block_files setBlockIndexCandidates update_candidates update_index note_dirty update_dirty].
  - apply (synced_marks params ctx sd); auto; [cbn; rewrite Ei; exact Rs|apply same_view_refl, Hv].
  - rewrite Ei. exact Eh1.
  - congruence.
  - exists (t :: l). split; [rewrite El, Ec, <- app_assoc; reflexivity|]. intros p. rewrite elem_of_union, elem_of_singleton, elem_of_cons, HF. tauto.
  - intros x Hx. rewrite elem_of_union, elem_of_list_to_set in Hx. rewrite Ecd in Hx. destruct Hx as [Hx|Hx].
    + destruct (Hready x Hx) as [[w Hw] Hnw]. rewrite Wo in Hnw. destruct (proj1 (Forall_forall _ _) Has _ Hw) as (bx & Hbx & Hn). cbn in Hbx.
      split; [eauto|]. split; [apply (ic_counted _ Hic x bx Hbx Hn)|exact Hnw].
    + apply elem_of_union in Hx as [->%elem_of_singleton|[Hx _]%elem_of_difference].
      * destruct (restatused_lookup_inv _ _ R q bq Hq) as (bq0 & Hbq0 & _). split; [eauto|]. split; [apply chain_counted, Hq0|apply worse_irrefl].
      * destruct (Hcd x Hx) as (? & ? & Hnw). split; [assumption|]. split; [assumption|]. apply (not_worse_trans _ _ t); [exact Hnw|].
        rewrite <- (worse_status _ _ _ _ (rl_status _ _ _ R)). apply (ancestor_not_worse params _ 1 t bt q Hix Ht). cbn. rewrite Ht. cbn. rewrite Eq. reflexivity.
Qed.

Context (env : activation_env) (Hsteps : forall n p, IsPruneMode (flushing (step_io env n p)) = false) (Hint : forall n, m_interrupt env n = false).
Context (pindex : ptr) (b : CBlockIndex) (prev : ptr) (Hp : h0 !! pindex = Some b) (Hprev : pprev b = Some prev).

(** The loop ends with [pindex] off the chain, and then [to_mark_failed] is [pindex]. *)
Lemma invalidate_loop_spec fuel : forall (s : CS) t F tmf cands was state, unwound s0 s t F -> set_aside h0 cands -> is_Some (h0 !! tmf) ->
  (length (m_chain s) <= fuel)%nat -> exists ok tmf' was' st' s',
  invalidate_loop txout_size fuel env pindex tmf cands was state s = (Ok (ok, tmf', was', st'), s') /\
  (ok = false -> m_mode st' = M_ERROR) /\
  (ok = true -> st' = state /\ exists t' F', unwound s0 s' t' F' /\ ~ Some pindex ∈ m_chain s' /\
     (if bool_decide (Some pindex ∈ m_chain s) then tmf' = pindex /\ t' = prev else tmf' = tmf /\ t' = t /\ F' = F)).
Proof.
  induction fuel as [|fuel IH]; intros s t F tmf cands was state U Has Htm Hf; cbn [invalidate_loop].
  all: rewrite Hint; pose proof (unwound_relabelled _ _ _ _ U) as R; pose proof U as [Hs _ Efi (l & El & HF) Hcd]; pose proof (sy_index _ _ _ _ Hs) as [Ht _].
  all: pose proof (or_intror (ex_intro _ t (sy_chain _ _ _ _ Hs)) : active_chain _ _) as Hac.
  all: unfold mbind at 1, stm_bind at 1, get_st at 1; destruct (restatused_lookup _ _ R pindex b Hp) as [st Hp1].
  all: unfold mbind at 1, stm_bind at 1, lift_st at 1; rewrite (Contains_spec _ Ht _ Hac pindex _ Hp1); case_bool_decide as Hin; cbn [negb].
  2, 4: exists true, tmf, was, state, s; (split; [reflexivity|]); (split; [discriminate|]); intros _; (split; [reflexivity|]); exists t, F; auto.
  { exfalso. apply list_elem_of_lookup in Hin as [i Hi]. apply lookup_lt_Some in Hi. lia. }
  rewrite (synced_tip params ctx s t Hs). unfold mbind at 1, stm_bind at 1, lift_st at 1. cbn [access].
  destruct (sy_chain _ _ _ _ Hs) as (bt & Hbt & Elen & Hch).
  assert (Hhp : Chain.nHeight b <= Chain.nHeight bt /\ 0 < Chain.nHeight b).
  { apply list_elem_of_lookup in Hin as [i Hi]. destruct (chain_height_lookup _ Ht _ Hac _ _ Hi) as (b' & Hb' & Eh). assert (b' = set_nStatus b st) as -> by congruence.
    apply lookup_lt_Some in Hi. cbn in Eh. destruct (ok_prev _ _ _ (tree_ok _ Ht pindex _ Hp1) prev Hprev) as (bq & Hbq & Eq). destruct (tree_ok _ Ht prev bq Hbq). cbn in Eq. lia. }
  destruct (pprev bt) as [q|] eqn:Eq; [|pose proof (ok_root _ _ _ (tree_ok _ Ht t bt Hbt) Eq); lia].
  destruct (DisconnectTip_spec txout_size params ctx (step_io env (S fuel) t) state s t bt q Hs Hbt Eq (Hsteps (S fuel) t)) as (ok & st1 & sd & E1 & R1 & R2).
  unfold mbind at 1, stm_bind at 1. rewrite E1. destruct ok; cbn [negb].
  2: { exists false, tmf, true, st1, sd. split; [reflexivity|]. split; [exact R1|discriminate]. }
  destruct (R2 eq_refl) as (-> & Hsd & Ec & Ei & Ecd & Ef). clear R1 R2. unfold mbind at 1, stm_bind at 1, get_st at 1.
  unfold mbind at 1, stm_bind at 1, lift_st at 1. rewrite Ei, (deref_ok _ t bt Hbt). unfold mbind at 1, stm_bind at 1, lift_st at 1.
  rewrite (synced_tip params ctx sd q Hsd), bool_decide_eq_true_2 by exact Eq. cbn [assert_].
  destruct (invalidate_tip_spec s sd F t bt q tmf cands U Hbt Eq Hsd Ec Ei Ecd Ef Htm Has) as (rest & s1 & E2 & U1 & Has1 & Ec1).
  unfold mbind at 1, stm_bind at 1. rewrite E2.
  assert (Ht0 : is_Some (h0 !! t)) by (destruct (restatused_lookup_inv _ _ R t bt Hbt) as (? & ? & _); eauto).
  destruct (IH s1 q (F ∪ {[t]}) t rest true state U1 Has1 Ht0) as (ok & tmf' & was' & st' & s' & E3 & R3 & R4).
  { rewrite Ec1. rewrite Ec, length_app in Hf. cbn in Hf. lia. }
  exists ok, tmf', was', st', s'. split; [exact E3|]. split; [exact R3|]. intros Hok. destruct (R4 Hok) as (-> & t' & F' & U' & Hout & Hcase). split; [reflexivity|].
  exists t', F'. split; [exact U'|]. split; [exact Hout|]. rewrite Ec1 in Hcase. case_bool_decide as Hin1; [exact Hcase|]. destruct Hcase as (-> & -> & _).
  rewrite Ec in Hin. apply elem_of_app in Hin as [?|Hin%list_elem_of_singleton]; [contradiction|]. injection Hin as <-. split; [reflexivity|].
  assert (bt = set_nStatus b st) as -> by congruence. cbn in Eq. congruence.
Qed.

(** Marking the last block and completing the candidates. *)
Lemma finish_invalidate (s : CS) t F (state : BlockValidationState) : unwound s0 s t F -> ~ Some pindex ∈ m_chain s -> exists s',
  (_ ← mark_status pindex BLOCK_FAILED_VALID; _ ← erase_candidate pindex; _ ← modify_st (update_failed (union {[ pindex ]}));
   s ← get_st; tip ← lift_st (access (Tip (m_chain s)));
   more ← lift_st (missing_candidates (m_block_index s) tip (map_to_list (m_block_index s)));
   _ ← modify_st (update_candidates (union (list_to_set more))); _ ← InvalidChainFound pindex; mret (true, state)) s = (Ok (true, state), s') /\
  synced s' t /\ m_chain s' = m_chain s /\ block_files s' = block_files s /\ m_block_index s' = with_failed (F ∪ {[pindex]}) h0 /\
  (forall q, q ∈ setBlockIndexCandidates s' <-> (q ∈ setBlockIndexCandidates s /\ q <> pindex) \/ exists bq, m_block_index s' !! q = Some bq /\
     failed bq = false /\ BLOCK_VALID_TRANSACTIONS <= Z.land (nStatus bq) BLOCK_VALID_MASK /\ HaveNumChainTxs bq = true /\ worse h0 q t = false).
Proof.
  intros U Hout. pose proof (unwound_relabelled _ _ _ _ U) as R. pose proof U as [Hs Ewf Efi _ Hcd]. destruct (restatused_lookup _ _ R pindex b Hp) as [st Hp1].
  unfold mbind at 1, stm_bind at 1, mark_status. unfold mbind at 1, stm_bind at 1, get_st at 1. unfold mbind at 1, stm_bind at 1, lift_st at 1.
  rewrite (deref_ok _ pindex _ Hp1). unfold mbind at 1, stm_bind at 1, modify_st at 1. unfold modify_st at 1.
  unfold mbind at 1, stm_bind at 1, erase_candidate, modify_st at 1. unfold mbind at 1, stm_bind at 1, modify_st at 1.
  unfold mbind at 1, stm_bind at 1, get_st at 1. set (s1 := update_failed _ _). set (bp := set_nStatus (set_nStatus b st) _) in *.
  assert (Eh1 : m_block_index s1 = with_failed (F ∪ {[pindex]}) h0) by (cbn; unfold bp; rewrite Ewf in Hp1 |- *; apply with_failed_more, Hp1).
  assert (R1 : relabelled (F ∪ {[pindex]}) h0 (m_block_index s1)) by (rewrite Eh1; apply with_failed_relabelled).
  assert (Hs1 : synced s1 t).
  { pose proof Hs as [_ _ _ Hv _ _ _ [Hh Hk] Hin _]. apply (synced_marks params ctx s); auto; [apply restatused_insert, Hp1|apply same_view_refl, Hv]. }
  unfold mbind at 1, stm_bind at 1, lift_st at 1. rewrite (synced_tip params ctx s1 t Hs1). cbn [access].
  destruct (missing_candidates_spec (m_block_index s1) t (map_to_list (m_block_index s1))) as (more & Em & Hmore).
  unfold mbind at 1, stm_bind at 1, lift_st at 1. rewrite Em. unfold mbind at 1, stm_bind at 1, modify_st at 1. set (s2 := update_candidates _ s1).
  assert (Hs2 : synced s2 t).
  { pose proof Hs1 as [_ _ _ Hv _ _ _ [Hh Hk] Hin _]. apply (synced_marks params ctx s1); auto using restatused_refl, same_view_refl. }
  assert (Hp2 : m_block_index s2 !! pindex = Some bp) by apply lookup_insert_eq.
  destruct (InvalidChainFound_spec params ctx s2 t pindex bp Hs2 Hp2) as (s3 & E3 & Hs3 & M3 & Ei3 & Ec3). unfold mbind at 1, stm_bind at 1. rewrite E3.
  exists s3. split; [reflexivity|]. split; [exact Hs3|]. split; [exact (mo_chain _ _ _ M3)|]. split; [exact (mo_files _ _ _ M3)|]. rewrite Ei3, Ec3. split; [exact Eh1|].
  intros q. cbn [s2 s1 setBlockIndexCandidates m_block_index update_candidates update_failed update_index note_dirty update_dirty].
  rewrite elem_of_union, elem_of_list_to_set, elem_of_difference, elem_of_singleton, Hmore. setoid_rewrite elem_of_map_to_list.
  rewrite (worse_status _ _ q t (rl_status _ _ _ R1)). tauto.
Qed.

(** What [InvalidateBlock] leaves. *)
Definition invalidated (s' : CS) (tip' : ptr) (F : gset ptr) : Prop :=
  m_block_index s' = with_failed F h0 /\ running params ctx s' tip' tip' /\ ~ Some pindex ∈ m_chain s' /\
  if bool_decide (Some pindex ∈ m_chain s0)
  then tip' = prev /\ exists l, m_chain s0 = m_chain s' ++ map Some l /\ forall p, p ∈ F <-> p ∈ l
  else tip' = tip0 /\ m_chain s' = m_chain s0 /\ F = {[pindex]}.

(** The invariant of the loops holds again, with the new tip as floor. *)
Lemma invalidated_running (s1 s' : CS) t F : unwound s0 s1 t F -> ~ Some pindex ∈ m_chain s1 -> synced s' t -> m_chain s' = m_chain s1 -> block_files s' = block_files s1 ->
  m_block_index s' = with_failed (F ∪ {[pindex]}) h0 ->
  (forall q, q ∈ setBlockIndexCandidates s' <-> (q ∈ setBlockIndexCandidates s1 /\ q <> pindex) \/ exists bq, m_block_index s' !! q = Some bq /\
     failed bq = false /\ BLOCK_VALID_TRANSACTIONS <= Z.land (nStatus bq) BLOCK_VALID_MASK /\ HaveNumChainTxs bq = true /\ worse h0 q t = false) ->
  running params ctx s' t t.
Proof.
  intros U Hout Hs' Ec Ef Ei Hcd. pose proof (unwound_relabelled _ _ _ _ U) as R. pose proof (uw_synced _ _ _ _ U) as Hs1.
  pose proof (ru_synced _ _ _ _ _ H0) as Hs0. pose proof (sy_index _ _ _ _ Hs0) as [Ht0 _].
  pose proof (with_failed_relabelled (F ∪ {[pindex]}) h0) as R'. rewrite <- Ei in R'.
  assert (Hsub : forall p, Some p ∈ m_chain s1 -> Some p ∈ m_chain s0) by (intros p; destruct (uw_chain _ _ _ _ U) as (l & -> & _); rewrite elem_of_app; auto).
  pose proof (Hsub t (tip_in_chain _ _ (synced_tip params ctx s1 t Hs1))) as Htc.
  destruct (chain_up t Htc) as [n Hn]. destruct (sy_chain _ _ _ _ Hs0) as (btip & Hbtip & _). destruct (up_in _ Ht0 _ _ _ _ Hbtip Hn) as [[bt Hbt] _].
  apply (running_change params ctx s0 s' tip0 tip0 t t H0 Hs'); auto.
  - eapply relabelled_closing; exact R'.
  - apply R'.
  - rewrite Ef. apply U.
  - rewrite Ec. intros p bp' Hpc Hbp'. destruct (restatused_lookup_inv _ _ R' p bp' Hbp') as (bp & Hbp & _). destruct (restatused_lookup _ _ R p bp Hbp) as [sp Hp1'].
    destruct (unwound_clear s0 s1 t F p _ tip0 U (sy_chain _ _ _ _ Hs0) Ht0 (ru_good _ _ _ _ _ H0) Hpc Hp1') as [HnF _].
    rewrite (rl_failed _ _ _ R' p bp bp' Hbp Hbp'), (rl_data _ _ _ R' p bp bp' Hbp Hbp').
    destruct (ru_good _ _ _ _ _ H0 p bp (Hsub p Hpc) Hbp) as [-> ->]. rewrite bool_decide_eq_false_2; [auto|].
    rewrite elem_of_union, elem_of_singleton. intros [?| ->]; [contradiction|]. exact (Hout Hpc).
  - intros q [[Hq _]|(b' & Hb' & _ & _ & Hn' & Hw)]%Hcd; [apply (uw_cands _ _ _ _ U q Hq)|].
    destruct (restatused_lookup_inv _ _ R' q b' Hb') as (b0 & Hb0 & Eb). split; [eauto|]. split; [|exact Hw]. apply (ic_counted _ Hic q b0 Hb0). rewrite Eb in Hn'. exact Hn'.
  - exists bt. split; [exact Hbt|]. apply (chain_counted t Htc 0%nat t bt eq_refl Hbt). apply not_elem_of_nil.
  - intros p (bp & Hbp & Hlk) Hcl Hw. apply Hcd. right. destruct (restatused_lookup _ _ R' p bp Hbp) as [sp Hbp']. exists (set_nStatus bp sp). split; [exact Hbp'|].
    destruct (Hcl 0%nat p _ eq_refl Hbp') as [Hfl Hdt]. split; [exact Hfl|].
    assert (Hpn : p ∉ F ∪ {[pindex]}).
    { intros Hin. rewrite (rl_failed _ _ _ R' p bp _ Hbp Hbp'), bool_decide_eq_true_2, orb_true_r in Hfl by exact Hin. discriminate. }
    assert (Esame : set_nStatus bp sp = bp).
    { rewrite Ei, with_failed_lookup, Hbp, bool_decide_eq_false_2 in Hbp' by exact Hpn. injection Hbp' as <-. reflexivity. }
    rewrite Esame in *. split; [apply (ic_valid _ Hic p bp Hbp Hdt)|]. split; [|exact Hw]. apply orb_true_iff in Hlk as [?|Hz%Z.eqb_eq]; [assumption|].
    apply (ic_linked _ Hic p bp Hbp Hz).
Qed.

Lemma InvalidateBlock_spec state : exists ok st' s', InvalidateBlock txout_size env pindex state s0 = (Ok (ok, st'), s') /\
  (ok = false -> m_mode st' = M_ERROR) /\ (ok = true -> st' = state /\ exists tip' F, invalidated s' tip' F).
Proof.
  pose proof (ru_synced _ _ _ _ _ H0) as Hs0. pose proof (sy_index _ _ _ _ Hs0) as [Ht0 _].
  pose proof (or_intror (ex_intro _ tip0 (sy_chain _ _ _ _ Hs0)) : active_chain _ _) as Hac.
  destruct (ok_prev _ _ _ (tree_ok _ Ht0 pindex b Hp) prev Hprev) as (bq & Hbq & EH). destruct (tree_ok _ Ht0 prev bq Hbq) as [Hh0 _ _ _ _].
  unfold InvalidateBlock. unfold mbind at 1, stm_bind at 1, get_st at 1. unfold mbind at 1, stm_bind at 1, lift_st at 1. rewrite (deref_ok _ pindex b Hp).
  rewrite (proj2 (Z.eqb_neq _ _)) by lia. unfold mbind at 1, stm_bind at 1, lift_st at 1. rewrite Hprev. cbn [access].
  destruct (candidates_by_work_spec h0 (m_chain s0) prev (map_to_list h0)) as (cands & Ecb & Has); [|exact Ht0|exact Hac|].
  { apply Forall_forall. intros [q bx] Hin. apply elem_of_map_to_list in Hin. exact Hin. }
  unfold mbind at 1, stm_bind at 1, lift_st at 1. rewrite Ecb.
  destruct (invalidate_loop_spec (length (m_chain s0)) s0 tip0 ∅ pindex cands false state unwound_start Has ltac:(eauto) ltac:(lia))
    as (ok & tmf & was & st1 & s1 & E1 & Rf & Rt).
  unfold mbind at 1, stm_bind at 1. rewrite E1. destruct ok; cbn [negb].
  2: { exists false, st1, s1. split; [reflexivity|]. split; [exact Rf|discriminate]. }
  destruct (Rt eq_refl) as (-> & t & F & U & Hout & Hcase). clear Rt Rf. pose proof (unwound_relabelled _ _ _ _ U) as R.
  assert (tmf = pindex) as -> by (case_bool_decide; tauto). unfold mbind at 1, stm_bind at 1, get_st at 1.
  pose proof (uw_synced _ _ _ _ U) as Hs1. destruct (restatused_lookup _ _ R pindex b Hp) as [st Hp1]. unfold mbind at 1, stm_bind at 1, lift_st at 1.
  rewrite (Contains_spec _ (proj1 (sy_index _ _ _ _ Hs1)) _ (or_intror (ex_intro _ t (sy_chain _ _ _ _ Hs1))) pindex _ Hp1), bool_decide_eq_false_2 by exact Hout.
  destruct (finish_invalidate s1 t F state U Hout) as (s' & E2 & Hs' & Ec & Ef & Ei & Hcd).
  exists true, state, s'. split; [exact E2|]. split; [discriminate|]. intros _. split; [reflexivity|]. exists t, (F ∪ {[pindex]}).
  split; [exact Ei|]. split; [eapply invalidated_running; eauto|]. split; [rewrite Ec; exact Hout|]. destruct (uw_chain _ _ _ _ U) as (l & El & HF). rewrite Ec.
  case_bool_decide as Hin.
  - destruct Hcase as [_ ->]. split; [reflexivity|]. exists l. split; [exact El|]. intros p.
    rewrite elem_of_union, elem_of_singleton, HF. split; [|auto]. intros [?| ->]; [assumption|]. rewrite El in Hin. apply elem_of_app in Hin as [?|Hin]; [contradiction|].
    apply list_elem_of_fmap in Hin as (x & [= <-] & ?). assumption.
  - destruct Hcase as (_ & -> & ->). split; [reflexivity|]. split; [|apply (left_id_L ∅ (∪))]. rewrite El.
    destruct l as [|x l]; [rewrite app_nil_r; reflexivity|]. destruct (not_elem_of_empty (C:=gset ptr) x). apply HF. left.
Qed.
End Invalidate.

(** C6. [InvalidateBlock] takes the block, and every block above it, off the
    active chain and marks them; the rest of the block index is untouched, and
    the node is again in a state from which [ActivateBestChain] finds the best
    of the remaining chains: the coins are those of the shortened chain, and
    the candidates are all linked blocks with data, not marked, that do not
    sort before the new tip.  A block that is not on the active chain is only
    marked.  All blocks taken off get [BLOCK_FAILED_VALID], none gets
    [BLOCK_FAILED_CHILD].  A failure to disconnect is reported as an error of
    the node. *)
Theorem InvalidateBlock_correct {HP : Primitives} {HPL : PrimitivesLaws} {W : Type} {HW : CCoinsView W} {HA : ViewAbs W} {HVL : ViewLaws W}
    {HT : TxEnv} {HTL : TxEnvLaws} {HB : BlockEnv} {HE : LockEnv} {HL : LockEnvLaws} {HC : ConnectEnv}
    {HO : WorkOrder} {HOL : WorkOrderLaws} {HS : BlockStore W} {HSL : BlockStoreLaws W}
    (txout_size : Z) (params : Params) (ctx : node_context) (env : activation_env) (s : Chainstate W) (tip pindex prev : ptr) (b : CBlockIndex)
    (state : BlockValidationState) :
  running params ctx s tip tip -> index_counts (m_block_index s) ->
  (forall n p, IsPruneMode (flushing (step_io env n p)) = false) -> (forall n, m_interrupt env n = false) ->
  m_block_index s !! pindex = Some b -> pprev b = Some prev ->
  exists ok st' s',
  InvalidateBlock txout_size env pindex state s = (Ok (ok, st'), s') /\
  (ok = false -> m_mode st' = M_ERROR) /\
  (ok = true -> st' = state /\ exists tip' F, invalidated params ctx s tip pindex prev s' tip' F).
Proof. intros Hr Hic Hsteps Hint Hp Hprev. eapply InvalidateBlock_spec; eauto. Qed.

(** ** A chain of two blocks *)

#[local] Existing Instance zero_primitives.
#[local] Existing Instance zero_primitives_laws.
#[local] Existing Instance zero_tx_env.
#[local] Existing Instance zero_tx_laws.
#[local] Existing Instance nonce_blocks.
#[local] Existing Instance bip68.
#[local] Existing Instance bip68_laws.
#[local] Existing Instance permissive.
#[local] Existing Instance by_work.
#[local] Existing Instance by_work_laws.
#[local] Existing Instance calm_store.
#[local] Existing Instance calm_store_laws.

(** The tree of the reorganisation, on its longer branch. *)
Definition long_state : Chainstate plain :=
  {| m_block_index := reorg_tree; m_chain := [Some 0; Some 2; Some 3]%nat; setBlockIndexCandidates := {[ 3%nat ]};
     m_best_invalid := None; m_best_header := Some 3%nat; m_failed_blocks := ∅; m_dirty_blockindex := ∅; m_blocks_unlinked := [];
     m_prune_locks := ∅; m_counters := {| nBlockSequenceId := 10; nBlockReverseSequenceId := -1; nLastPreciousChainwork := uint_zero |};
     m_flush := {| m_last_write := 0; m_last_flush := 0; m_check_for_pruning := false; m_have_pruned := false |};
     CoinsTip := new_cache (<[(103, 0) := Coin_make (500 * COIN, [3]) 2 true]> {[ (102, 0) := Coin_make (500 * COIN, [2]) 1 true ]} : gmap COutPoint Coin, 13);
     block_files := reorg_files; undo_files := {[ 2%nat := []; 3%nat := [] ]} |}.

Lemma long_synced : synced sample_params sample_context long_state 3.
Proof.
  constructor.
  - exact reorg_index_ok.
  - exact reorg_files_ok.
  - eexists. split; [reflexivity|]. split; [reflexivity|]. intros i Hi. cbn in Hi. do 3 (destruct i as [|i]; [reflexivity|]). lia.
  - split; [repeat apply map_Forall_insert_2; [reflexivity|reflexivity|apply map_Forall_empty]|]. split; [apply map_Forall_empty|reflexivity].
  - vm_compute. reflexivity.
  - eexists _, [13]. split; [reflexivity|]. split; reflexivity.
  - intros i p H1 Hi. assert (Hc : (i = 1 /\ p = 2 \/ i = 2 /\ p = 3)%nat).
    { destruct i as [|[|[|i]]]; [lia|..|destruct i; discriminate]; cbn in Hi; injection Hi as <-; auto. }
    destruct Hc as [[-> ->]|[-> ->]];
      [exists (reward_block 12 102 [2]), (coinbase_tx 102 [(500 * COIN, [2])]), []|exists (reward_block 13 103 [3]), (coinbase_tx 103 [(500 * COIN, [3])]), []];
      (split; [reflexivity|]); (split; [reflexivity|]); (split; [reflexivity|]); (split; [constructor|]); (split; [|reflexivity]);
      (split; [|exact I]); (split; [reflexivity|]); (split; [repeat constructor; discriminate|]); (split; [|discriminate]).
    + intros j. apply lookup_empty.
    + intros j. assert (E : replay_upto reorg_files (m_chain long_state) 1 = {[ (102, 0) := Coin_make (500 * COIN, [2]) 1 true ]}) by (vm_compute; reflexivity).
      match goal with |- ?m !! _ = None => change m with (replay_upto reorg_files (m_chain long_state) 1) end. rewrite E. apply lookup_singleton_ne. discriminate.
  - split; [discriminate|]. intros p [= <-]. eexists. reflexivity.
  - discriminate.
  - discriminate.
Qed.

Lemma long_running : running sample_params sample_context long_state 3 3.
Proof.
  pose proof reorg_running as [_ _ _ R4 R5 _ _ _ _ _]. constructor; [exact long_synced| | |exact R4|exact R5| | |left; reflexivity|eexists; split; reflexivity|].
  - intros p Hp. cbn in Hp. apply elem_of_singleton in Hp as ->. eexists. reflexivity.
  - intros p _. apply counted_all. vm_compute. reflexivity.
  - intros p b _ Hb. apply (clean_all reorg_tree ltac:(vm_compute; reflexivity) p 0%nat p b eq_refl Hb).
  - intros p Hp. cbn in Hp. apply elem_of_singleton in Hp as ->. vm_compute. reflexivity.
  - intros p (b & Hb & _) _ Hw. apply reorg_known in Hb. repeat (apply elem_of_cons in Hb as [->|Hb]); [..|destruct (not_elem_of_nil _ Hb)];
      first [vm_compute in Hw; discriminate|vm_compute; reflexivity].
Qed.

Lemma reorg_counts : index_counts reorg_tree.
Proof.
  constructor.
  - intros p b Hb _. apply reorg_known in Hb as Hk. repeat (apply elem_of_cons in Hk as [->|Hk]); [..|destruct (not_elem_of_nil _ Hk)]; vm_compute in Hb; injection Hb as <-; vm_compute; discriminate.
  - intros p b _ _. apply counted_all. vm_compute. reflexivity.
  - intros p b Hb _. apply reorg_known in Hb as Hk. repeat (apply elem_of_cons in Hk as [->|Hk]); [..|destruct (not_elem_of_nil _ Hk)]; vm_compute in Hb; injection Hb as <-; reflexivity.
Qed.

Lemma InvalidateBlock_correct_witness : exists st' s' F, InvalidateBlock 9 calm_env 2 (fresh_state BLOCK_RESULT_UNSET) long_state = (Ok (true, st'), s') /\
  m_block_index s' = with_failed F reorg_tree /\ 3%nat ∈ F /\ running sample_params sample_context s' 0 0.
Proof.
  destruct (InvalidateBlock_correct 9 sample_params sample_context calm_env long_state 3 2 0 (entry 12 (Some 0%nat) 1 2 good_status) (fresh_state BLOCK_RESULT_UNSET))
    as (ok & st' & s' & E & _ & R).
  - exact long_running.
  - exact reorg_counts.
  - reflexivity.
  - reflexivity.
  - reflexivity.
  - reflexivity.
  - assert (Fx : match InvalidateBlock 9 calm_env 2 (fresh_state BLOCK_RESULT_UNSET) long_state with (Ok (true, _), s1) => m_chain s1 = [Some 0%nat] | _ => False end)
      by (vm_compute; reflexivity).
    rewrite E in Fx. destruct ok; [|contradiction]. destruct (R eq_refl) as (_ & tip' & F & Ei & Hrun & _ & Hcase). exists st', s', F. split; [exact E|]. split; [exact Ei|].
    rewrite bool_decide_eq_true_2 in Hcase by (right; left). destruct Hcase as (-> & l & El & HF). split; [|exact Hrun]. apply HF. rewrite Fx in El. cbn in El.
    destruct l as [|x [|y l]]; [discriminate El|discriminate El|]. injection El as <- <- _. right. left.
Defined.
