(* ===== verification/LinkProofs.v ===== *)
(** * Counting the transactions of a branch

    Theorems about [ReceivedBlockTransactions] (src/validation.cpp) as
    [ChainActivation] models it.  Blocks arrive in any order; [m_blocks_unlinked]
    holds those whose parent still lacks data.  The queue that links them ends,
    and [nChainTx] is then, for every entry, the number of transactions from the
    genesis block on, or 0 while some block of the branch is missing. *)

From stdpp Require Import base numbers list gmap strings.
From Stdlib Require Import ZArith Lia.
From S2P Require Import Prelude ArithUint256 Compact Params Chain ActiveChain ChainWork Pow VersionBits.
From S2P Require Import Merkle Streams Serialize Compressor Transaction Coins CoinsProofs CoinsRefinement TxCheck.
From S2P Require Import Locks Blocks Connect ConnectBlock.
From S2P Require Import ChainState ChainSelectionProofs ChainSelection ChainActivation.

Local Open Scope Z_scope.

(** ** The reference *)

(** The transactions of the branch of [p], or 0 if a block of it is missing. *)
Fixpoint branch_tx (fuel : nat) (h : heap) (p : ptr) : Z :=
  match h !! p with
  | None => 0
  | Some b =>
      if nTx b =? 0 then 0
      else match pprev b with
      | None => nTx b
      | Some q => match fuel with
                  | O => 0
                  | S fuel' => let below := branch_tx fuel' h q in if below =? 0 then 0 else below + nTx b
                  end
      end
  end.

(** The transactions received for the branch of [p] so far. *)
Fixpoint received_tx (fuel : nat) (h : heap) (p : ptr) : Z :=
  match h !! p with
  | None => 0
  | Some b => nTx b + match pprev b, fuel with Some q, S fuel' => received_tx fuel' h q | _, _ => 0 end
  end.

Definition height_of (h : heap) (p : ptr) : nat := match h !! p with Some b => Z.to_nat (Chain.nHeight b) | None => 0%nat end.

(** What an entry should say, given what its parent says. *)
Definition expected (h : heap) (b : CBlockIndex) : Z :=
  if nTx b =? 0 then 0
  else match pprev b with
  | None => nTx b
  | Some q => match h !! q with
              | Some bq => if nChainTx bq =? 0 then 0 else nChainTx bq + nTx b
              | None => 0
              end
  end.

(** Entry [p] has its transactions but its parent, [q], is not linked. *)
Definition waits (h : heap) (q p : ptr) : Prop :=
  exists b bq, h !! p = Some b /\ pprev b = Some q /\ h !! q = Some bq /\ nTx b <> 0 /\ nChainTx bq = 0.

(** The invariant while the blocks of [queue] are still to be linked. *)
Record linking (h : heap) (u : list (option ptr * ptr)) (queue : list ptr) : Prop := {
  lk_tree : tree_wf h;
  lk_pos : forall p b, h !! p = Some b -> 0 <= nTx b;
  lk_fits : forall p b, h !! p = Some b -> received_tx (height_of h p) h p < 2 ^ 32;
  lk_done : forall p b, h !! p = Some b -> p ∉ queue -> nChainTx b = expected h b;
  lk_next : forall p, p ∈ queue -> exists b, h !! p = Some b /\ nChainTx b = 0 /\ nTx b <> 0 /\ expected h b <> 0;
  lk_queue : NoDup queue;
  lk_waiting : forall o p, (o, p) ∈ u <-> exists q, o = Some q /\ waits h q p;
  lk_once : NoDup u;
}.

Lemma height_of_parent h p b q : tree_wf h -> h !! p = Some b -> pprev b = Some q -> height_of h p = S (height_of h q).
Proof.
  intros Ht Hp Eq. destruct (ok_prev _ _ _ (tree_ok h Ht p b Hp) q Eq) as (bq & Hq & EH). destruct (tree_ok h Ht q bq Hq) as [Hh _ _ _ _].
  unfold height_of. rewrite Hp, Hq. lia.
Qed.

(** With an empty queue every entry agrees with the reference. *)
Lemma linking_branch h u : linking h u [] -> forall p b, h !! p = Some b -> nChainTx b = branch_tx (height_of h p) h p.
Proof.
  intros L. assert (G : forall n p b, h !! p = Some b -> height_of h p = n -> nChainTx b = branch_tx n h p).
  { induction n as [|n IH]; intros p b Hp En; rewrite (lk_done _ _ _ L p b Hp) by apply not_elem_of_nil; unfold expected; cbn [branch_tx]; rewrite Hp;
      destruct (nTx b =? 0); try reflexivity; destruct (pprev b) as [q|] eqn:Eq; try reflexivity.
    all: pose proof (height_of_parent h p b q (lk_tree _ _ _ L) Hp Eq) as EH; rewrite En in EH.
    { discriminate EH. }
    destruct (ok_prev _ _ _ (tree_ok h (lk_tree _ _ _ L) p b Hp) q Eq) as (bq & Hq & _). rewrite Hq, (IH q bq Hq) by lia. reflexivity. }
  intros p b Hp. apply (G _ p b Hp eq_refl).
Qed.

(** While linking, no count exceeds what was received. *)
Lemma linking_bound h u queue : linking h u queue -> forall p b, h !! p = Some b -> 0 <= nChainTx b <= received_tx (height_of h p) h p.
Proof.
  intros L. pose proof (lk_tree _ _ _ L) as Ht.
  assert (R0 : forall n p, 0 <= received_tx n h p).
  { induction n as [|n IH]; intros p; cbn [received_tx]; destruct (h !! p) as [b|] eqn:Hp; try lia; pose proof (lk_pos _ _ _ L p b Hp);
      destruct (pprev b) as [q|]; try lia. specialize (IH q). lia. }
  assert (G : forall n p b, h !! p = Some b -> height_of h p = n -> 0 <= nChainTx b <= received_tx n h p).
  { induction n as [|n IH]; intros p b Hp En; pose proof (lk_pos _ _ _ L p b Hp) as Hpos; pose proof (R0 (height_of h p) p) as Hr; rewrite En in Hr;
      (destruct (decide (p ∈ queue)) as [Hq|Hq]; [destruct (lk_next _ _ _ L p Hq) as (b' & Hp' & E & _); assert (b' = b) as -> by congruence; lia|]);
      rewrite (lk_done _ _ _ L p b Hp Hq); unfold expected; cbn [received_tx] in *; rewrite Hp in *; destruct (nTx b =? 0); try lia;
      destruct (pprev b) as [q|] eqn:Eq; try lia.
    all: pose proof (height_of_parent h p b q Ht Hp Eq) as EH; rewrite En in EH.
    { discriminate EH. }
    destruct (ok_prev _ _ _ (tree_ok h Ht p b Hp) q Eq) as (bq & Hbq & _). rewrite Hbq. destruct (IH q bq Hbq ltac:(lia)). destruct (nChainTx bq =? 0); lia. }
  intros p b Hp. apply (G _ p b Hp eq_refl).
Qed.

(** ** One block of the queue *)

Lemma received_ext h h' : (forall p, (fun b => (nTx b, pprev b)) <$> h' !! p = (fun b => (nTx b, pprev b)) <$> h !! p) ->
  forall n p, received_tx n h' p = received_tx n h p.
Proof.
  intros E. induction n as [|n IH]; intros p; cbn [received_tx]; specialize (E p); destruct (h' !! p) as [b'|], (h !! p) as [b|]; try discriminate; try reflexivity;
    cbn in E; injection E as -> ->; destruct (pprev b); rewrite ?IH; reflexivity.
Qed.

Section Count.
Context (h : heap) (u : list (option ptr * ptr)) (p : ptr) (rest : list ptr) (b : CBlockIndex) (n : Z).
Context (L : linking h u (p :: rest)) (Hp : h !! p = Some b).
Notation b' := (set_nSequenceId (set_nChainTx b (expected h b)) n).
Notation h' := (<[p := b']> h).

Lemma count_entry q bq' : h' !! q = Some bq' -> exists bq, h !! q = Some bq /\ nTx bq' = nTx bq /\ pprev bq' = pprev bq /\
  Chain.nHeight bq' = Chain.nHeight bq /\ (q <> p -> bq' = bq) /\ (q = p -> bq = b /\ nChainTx bq' = expected h b).
Proof using Hp.
  intros Hq. destruct (decide (q = p)) as [->|Hne].
  - rewrite lookup_insert_eq in Hq. injection Hq as <-. exists b. split; [exact Hp|]. cbn. split; [reflexivity|]. split; [reflexivity|]. split; [reflexivity|]. split; [congruence|auto].
  - rewrite lookup_insert_ne in Hq by auto. exists bq'. split; [exact Hq|]. do 3 (split; [reflexivity|]). split; [reflexivity|congruence].
Qed.

Lemma count_other q bq : h !! q = Some bq -> q <> p -> h' !! q = Some bq.
Proof using. intros Hq Hne. rewrite lookup_insert_ne by auto. exact Hq. Qed.

Lemma count_next : nChainTx b = 0 /\ nTx b <> 0 /\ expected h b <> 0.
Proof using L Hp. destruct (lk_next _ _ _ L p ltac:(left)) as (b0 & Hb0 & E). assert (b0 = b) as -> by congruence. exact E. Qed.

Lemma count_tree : tree_wf h'.
Proof using L Hp.
  intros q bq' Hq. destruct (count_entry q bq' Hq) as (bq & Hbq & _ & Ep & Eh & Hother & Hself).
  assert (Hext : forall x c, h !! x = Some c -> exists c', h' !! x = Some c' /\ pprev c' = pprev c /\ Chain.nHeight c' = Chain.nHeight c).
  { intros x c Hx. destruct (decide (x = p)) as [->|Hne]; [exists b'; rewrite lookup_insert_eq; assert (c = b) as -> by congruence; auto|exists c; rewrite lookup_insert_ne by auto; auto]. }
  pose proof (block_ok_ext h h' q bq (lk_tree _ _ _ L) Hbq Hext (tree_ok h (lk_tree _ _ _ L) q bq Hbq)) as [? ? ? ? ?].
  destruct (decide (q = p)) as [->|Hne]; [|rewrite (Hother Hne) in *; constructor; assumption].
  rewrite lookup_insert_eq in Hq. injection Hq as <-. assert (bq = b) as -> by congruence. constructor; assumption.
Qed.

(** The parent of [p] is another entry, so that what [p] should say is
    unchanged. *)
Lemma not_own_parent q bq : h !! q = Some bq -> pprev bq <> Some q.
Proof using L.
  intros Hq Eq. destruct (ok_prev _ _ _ (tree_ok h (lk_tree _ _ _ L) q bq Hq) q Eq) as (bq' & Hq' & EH). assert (bq' = bq) by congruence. subst. lia.
Qed.

Lemma expected_other bq : pprev bq <> Some p -> expected h' bq = expected h bq.
Proof using. intros Hne. unfold expected. destruct (pprev bq) as [q|]; [|reflexivity]. rewrite lookup_insert_ne by congruence. reflexivity. Qed.

(** The blocks that wait for [p] are linked next. *)
Lemma linking_step : linking h' (still_unlinked p u) (rest ++ waiting_for p u).
Proof using L Hp.
  pose proof count_next as (E0 & Etx & Eex). pose proof (lk_tree _ _ _ L) as Ht. pose proof (lk_queue _ _ _ L) as Hq0. apply NoDup_cons in Hq0 as [Hpr Hnd].
  assert (Hwait : forall c, c ∈ waiting_for p u <-> waits h p c).
  { intros c. unfold waiting_for. rewrite list_elem_of_fmap. split.
    - intros ([o c'] & -> & Hin). apply list_elem_of_filter in Hin as [E Hin]. cbn in E. subst o. apply (lk_waiting _ _ _ L) in Hin as (q & [= <-] & Hw). exact Hw.
    - intros Hw. exists (Some p, c). split; [reflexivity|]. apply list_elem_of_filter. split; [reflexivity|]. apply (lk_waiting _ _ _ L). eauto. }
  assert (Hrest : forall c, c ∈ rest -> exists bc, h !! c = Some bc /\ c <> p /\ pprev bc <> Some p /\ nChainTx bc = 0 /\ nTx bc <> 0 /\ expected h bc <> 0).
  { intros c Hc. destruct (lk_next _ _ _ L c) as (bc & Hbc & E1 & E2 & E3); [right; exact Hc|]. exists bc. split; [exact Hbc|]. split; [intros ->; contradiction|].
    split; [|auto]. intros Ep. unfold expected in E3. rewrite Ep, Hp, E0 in E3. destruct (nTx bc =? 0); apply E3; reflexivity. }
  constructor.
  - exact count_tree.
  - intros q bq' Hq. destruct (count_entry q bq' Hq) as (bq & Hbq & -> & _). apply (lk_pos _ _ _ L q bq Hbq).
  - intros q bq' Hq. destruct (count_entry q bq' Hq) as (bq & Hbq & _ & _ & Eh & _). pose proof (lk_fits _ _ _ L q bq Hbq) as Hf.
    unfold height_of in *. rewrite Hq, Eh. rewrite Hbq in Hf. rewrite (received_ext h h'); [exact Hf|]. intros x.
    destruct (decide (x = p)) as [->|Hne]; [rewrite lookup_insert_eq, Hp; reflexivity|rewrite lookup_insert_ne by auto; reflexivity].
  - intros q bq' Hq Hout. rewrite not_elem_of_app in Hout. destruct Hout as [Hor How]. destruct (count_entry q bq' Hq) as (bq & Hbq & Et & Ep & _ & Hother & Hself).
    destruct (decide (q = p)) as [->|Hne].
    + destruct (Hself eq_refl) as [-> ->]. transitivity (expected h' b); [symmetry; apply expected_other, not_own_parent, Hp|]. unfold expected at 1 3. rewrite Et, Ep. reflexivity.
    + rewrite (Hother Hne) in *. destruct (decide (pprev bq = Some p)) as [Epp|Epp].
      * assert (nTx bq = 0) as Ez by (destruct (decide (nTx bq = 0)) as [|Hnz]; [assumption|]; destruct How; apply Hwait; exists bq, b; auto).
        rewrite (lk_done _ _ _ L q bq Hbq) by (apply not_elem_of_cons; auto). unfold expected. rewrite Ez. reflexivity.
      * rewrite expected_other by exact Epp. apply (lk_done _ _ _ L q bq Hbq). apply not_elem_of_cons. auto.
  - intros c [Hc|Hc]%elem_of_app.
    + destruct (Hrest c Hc) as (bc & Hbc & Hne & Hpp & E1 & E2 & E3). exists bc. rewrite (expected_other bc Hpp). split; [apply count_other; auto|auto].
    + apply Hwait in Hc as (bc & bp & Hbc & Epp & Hbp & Hnz & Hz). assert (Hne : c <> p) by (intros ->; apply (not_own_parent p bc Hbc Epp)).
      exists bc. split; [apply count_other; auto|]. assert (bp = b) as -> by congruence.
      split; [|split; [exact Hnz|]].
      * rewrite (lk_done _ _ _ L c bc Hbc); [unfold expected; rewrite Epp, Hp, E0; destruct (nTx bc =? 0); reflexivity|].
        apply not_elem_of_cons. split; [exact Hne|]. intros Hc. destruct (Hrest c Hc) as (bc' & Hbc' & _ & Hpp & _). congruence.
      * unfold expected. rewrite Epp, lookup_insert_eq. cbn [nChainTx set_nSequenceId set_nChainTx]. rewrite !(proj2 (Z.eqb_neq _ _)) by assumption.
        pose proof (lk_pos _ _ _ L c bc Hbc). pose proof (lk_pos _ _ _ L p b Hp). unfold expected in *. destruct (nTx b =? 0); [congruence|].
        destruct (pprev b) as [q|] eqn:Eqb; [|lia]. destruct (h !! q) as [bq|] eqn:Ebq; [|congruence]. pose proof (linking_bound _ _ _ L q bq Ebq).
        destruct (nChainTx bq =? 0); [congruence|lia].
  - apply NoDup_app. split; [exact Hnd|]. split.
    + intros c Hc Hw. apply Hwait in Hw as (bc & bp & Hbc & Epp & _). destruct (Hrest c Hc) as (bc' & Hbc' & _ & Hpp & _). congruence.
    + unfold waiting_for. pose proof (lk_once _ _ _ L) as Hu. clear - Hu. induction u as [|[o c] l IH]; [constructor|]. apply NoDup_cons in Hu as [Hn Hu].
      rewrite filter_cons. case_decide as E; [|auto]. cbn in E. subst o. cbn [map snd]. apply NoDup_cons. split; [|auto]. intros Hin.
      apply list_elem_of_fmap in Hin as ([o c'] & E & Hin). apply list_elem_of_filter in Hin as [E' Hin]. cbn in *. subst. contradiction.
  - intros o c. unfold still_unlinked. rewrite list_elem_of_filter. cbn [fst]. rewrite (lk_waiting _ _ _ L). split.
    + intros [Ho (q & -> & bc & bq & Hbc & Epp & Hbq & Hnz & Hz)]. exists q. split; [reflexivity|]. assert (Hqp : q <> p) by congruence.
      destruct (decide (c = p)) as [->|Hcp].
      * exists b', bq. assert (bc = b) as -> by congruence. rewrite lookup_insert_eq, lookup_insert_ne by auto. auto.
      * exists bc, bq. rewrite !lookup_insert_ne by auto. auto.
    + intros (q & -> & bc' & bq' & Hbc' & Epp & Hbq' & Hnz & Hz). destruct (count_entry c bc' Hbc') as (bc & Hbc & Et & Ep & _ & _ & _).
      destruct (count_entry q bq' Hbq') as (bq & Hbq & _ & _ & _ & Hother & Hself). assert (Hqp : q <> p) by (intros ->; destruct (Hself eq_refl) as [_ E]; congruence).
      rewrite (Hother Hqp) in *. split; [congruence|]. exists q. split; [reflexivity|]. exists bc, bq. rewrite <- Et, <- Ep. auto.
  - unfold still_unlinked. apply NoDup_filter, (lk_once _ _ _ L).
Qed.
End Count.

(** ** The queue *)

Lemma split_unlinked p (u : list (option ptr * ptr)) : (length (waiting_for p u) + length (still_unlinked p u) = length u)%nat.
Proof.
  unfold waiting_for, still_unlinked. rewrite length_map. induction u as [|e l IH]; [reflexivity|]. rewrite !filter_cons. repeat case_decide; cbn [length] in *; try lia; contradiction.
Qed.

(** Entries keep their transactions and their place. *)
Definition same_place (h h' : heap) : Prop := forall p, (fun b => (nTx b, pprev b, nStatus b)) <$> h' !! p = (fun b => (nTx b, pprev b, nStatus b)) <$> h !! p.

Section Queue.
Context `{WorkOrder} {W : Type}.
Notation CS := (Chainstate W).

Lemma TryAdd_spec p (s : CS) : exists c, TryAddBlockIndexCandidate p s = (Ok tt, update_candidates (fun _ => c) s) /\ setBlockIndexCandidates s ⊆ c /\
  (match Tip (m_chain s) with Some tip => worse (m_block_index s) p tip | None => false end = false -> p ∈ c).
Proof using.
  unfold TryAddBlockIndexCandidate, mbind, stm_bind, get_st. destruct (match Tip (m_chain s) with Some _ => _ | None => false end).
  - exists (setBlockIndexCandidates s). split; [destruct s; reflexivity|]. split; [reflexivity|discriminate].
  - exists ({[p]} ∪ setBlockIndexCandidates s). split; [destruct s; reflexivity|]. set_solver.
Qed.

Lemma link_queue_spec fuel : forall queue (s : CS), linking (m_block_index s) (m_blocks_unlinked s) queue ->
  (length queue + length (m_blocks_unlinked s) <= fuel)%nat -> exists s', link_queue fuel queue s = (Ok tt, s') /\
  linking (m_block_index s') (m_blocks_unlinked s') [] /\ same_place (m_block_index s) (m_block_index s') /\
  m_chain s' = m_chain s /\ setBlockIndexCandidates s ⊆ setBlockIndexCandidates s'.
Proof using.
  induction fuel as [|fuel IH]; intros queue s L Hf; (destruct queue as [|p rest]; [exists s; split; [reflexivity|]; split; [exact L|]; split; [intros q; reflexivity|auto]|]).
  { cbn in Hf. lia. }
  destruct (lk_next _ _ _ L p ltac:(left)) as (b & Hp & E0 & Etx & Eex). cbn [link_queue].
  unfold mbind at 1, stm_bind at 1, get_st at 1. unfold mbind at 1, stm_bind at 1, lift_st at 1. rewrite (deref_ok _ p b Hp).
  set (h := m_block_index s) in *.
  assert (Hb : exists before, match pprev b with None => Ok 0 | Some q => bq ← deref h q; Ok (nChainTx bq) end = Ok before /\ u32 (before + nTx b) = expected h b).
  { pose proof (lk_pos _ _ _ L p b Hp) as Hpos. pose proof (lk_fits _ _ _ L p b Hp) as Hfit. unfold expected in *. rewrite (proj2 (Z.eqb_neq _ _)) in * by exact Etx.
    destruct (pprev b) as [q|] eqn:Eq.
    - rewrite (height_of_parent h p b q (lk_tree _ _ _ L) Hp Eq) in Hfit. cbn [received_tx] in Hfit. rewrite Hp, Eq in Hfit.
      destruct (ok_prev _ _ _ (tree_ok h (lk_tree _ _ _ L) p b Hp) q Eq) as (bq & Hq & _). rewrite Hq in *. pose proof (linking_bound _ _ _ L q bq Hq) as Hbd.
      exists (nChainTx bq). rewrite (deref_ok h q bq Hq). cbn [mbind res_bind]. split; [reflexivity|]. destruct (nChainTx bq =? 0); [congruence|].
      unfold u32. rewrite Z.mod_small by lia. reflexivity.
    - exists 0. split; [reflexivity|]. destruct (height_of h p); cbn [received_tx] in Hfit; rewrite Hp, Eq in Hfit; unfold u32; rewrite Z.mod_small by lia; lia. }
  destruct Hb as (before & Ebf & Eu). unfold mbind at 1, stm_bind at 1, lift_st at 1. rewrite Ebf. unfold mbind at 1, stm_bind at 1, modify_st at 1. rewrite Eu.
  unfold mbind at 1, stm_bind at 1, modify_st at 1. set (s1 := update_counters _ _). destruct (TryAdd_spec p s1) as (c & Ec & Hsub & _).
  unfold mbind at 1, stm_bind at 1. rewrite Ec. unfold mbind at 1, stm_bind at 1, modify_st at 1.
  pose proof (linking_step h (m_blocks_unlinked s) p rest b (nBlockSequenceId (m_counters s)) L Hp) as L1.
  set (s2 := update_unlinked _ _).
  destruct (IH (rest ++ waiting_for p (m_blocks_unlinked s)) s2 L1) as (s' & E' & L' & Sp & Ech & Hc).
  { rewrite length_app. cbn [s2 s1 m_blocks_unlinked update_unlinked update_candidates update_counters update_index]. pose proof (split_unlinked p (m_blocks_unlinked s)).
    cbn [length] in Hf. lia. }
  exists s'. split; [exact E'|]. split; [exact L'|]. split; [|split; [exact Ech|etransitivity; [exact Hsub|exact Hc]]].
  intros q. rewrite Sp. cbn [s2 s1 m_block_index update_unlinked update_candidates update_counters update_index].
  destruct (decide (q = p)) as [->|Hne]; [rewrite lookup_insert_eq, Hp; reflexivity|rewrite lookup_insert_ne by auto; reflexivity].
Qed.
End Queue.

(** ** A block arrives *)

Section Arrival.
Context (h : heap) (u : list (option ptr * ptr)) (p : ptr) (b b1 : CBlockIndex).
Context (L : linking h u []) (Hp : h !! p = Some b) (Enew : nTx b = 0).
Context (Epp : pprev b1 = pprev b) (Eh : Chain.nHeight b1 = Chain.nHeight b) (Esk : pskip b1 = pskip b) (Eti : nTime b1 = nTime b).
Context (E1 : nChainTx b1 = 0) (Etx : 0 < nTx b1).
Notation h1 := (<[p := b1]> h).
Context (Hfits : forall q bq, h1 !! q = Some bq -> received_tx (height_of h1 q) h1 q < 2 ^ 32).

Lemma arrival_zero : nChainTx b = 0.
Proof using L Hp Enew. rewrite (lk_done _ _ _ L p b Hp) by apply not_elem_of_nil. unfold expected. rewrite Enew. reflexivity. Qed.

Lemma arrival_tree : tree_wf h1.
Proof using L Hp Epp Eh Esk Eti.
  assert (Hext : forall x c, h !! x = Some c -> exists c', h1 !! x = Some c' /\ pprev c' = pprev c /\ Chain.nHeight c' = Chain.nHeight c).
  { intros x c Hx. destruct (decide (x = p)) as [->|Hne]; [exists b1; rewrite lookup_insert_eq; assert (c = b) as -> by congruence; auto|exists c; rewrite lookup_insert_ne by auto; auto]. }
  intros q bq Hq. destruct (decide (q = p)) as [->|Hne].
  - rewrite lookup_insert_eq in Hq. injection Hq as <-.
    pose proof (block_ok_ext h h1 p b (lk_tree _ _ _ L) Hp Hext (tree_ok h (lk_tree _ _ _ L) p b Hp)) as [? ? ? ? ?].
    constructor; rewrite ?Eh, ?Epp, ?Esk, ?Eti; assumption.
  - rewrite lookup_insert_ne in Hq by auto. apply (block_ok_ext h h1 q bq (lk_tree _ _ _ L) Hq Hext (tree_ok h (lk_tree _ _ _ L) q bq Hq)).
Qed.

(** What the other entries should say does not depend on the arrival. *)
Lemma arrival_expected bq : expected h1 bq = expected h bq.
Proof using L Hp Enew E1.
  unfold expected. destruct (pprev bq) as [q|]; [|reflexivity]. destruct (decide (q = p)) as [->|Hne]; [|rewrite lookup_insert_ne by auto; reflexivity].
  rewrite lookup_insert_eq, Hp, E1, arrival_zero. reflexivity.
Qed.

Lemma arrival_waits q c : waits h1 q c <-> waits h q c \/ (c = p /\ pprev b = Some q /\ exists bq, h !! q = Some bq /\ nChainTx bq = 0).
Proof using L Hp Enew Epp E1 Etx.
  assert (Hz : forall z, (exists bz, h1 !! z = Some bz /\ nChainTx bz = 0) <-> exists bz, h !! z = Some bz /\ nChainTx bz = 0).
  { intros z. destruct (decide (z = p)) as [->|Hne]; [|rewrite lookup_insert_ne by auto; reflexivity]. rewrite lookup_insert_eq.
    split; intros _; [exists b; split; [exact Hp|apply arrival_zero]|exists b1; auto]. }
  unfold waits. split.
  - intros (bc & bq & Hc & Ep & Hq & Hn & E). destruct (proj1 (Hz q) ltac:(eauto)) as (bq0 & Hq0 & E0). destruct (decide (c = p)) as [->|Hne].
    + right. rewrite lookup_insert_eq in Hc. injection Hc as <-. rewrite <- Epp. eauto 6.
    + left. rewrite lookup_insert_ne in Hc by auto. exists bc, bq0. auto.
  - intros [(bc & bq & Hc & Ep & Hq & Hn & E)|(-> & Ep & bq & Hq & E)]; destruct (proj2 (Hz q) ltac:(eauto)) as (bq1 & Hq1 & E2).
    + exists bc, bq1. assert (Hne : c <> p) by (intros ->; congruence). rewrite (lookup_insert_ne h p c) by auto. auto.
    + exists b1, bq1. rewrite lookup_insert_eq, Epp. split; [reflexivity|]. split; [exact Ep|]. split; [exact Hq1|]. split; [lia|exact E2].
Qed.

Lemma arrival_common queue u' : NoDup u' -> NoDup queue -> (forall q, q ∈ queue -> q = p) ->
  (if decide (p ∈ queue) then expected h1 b1 <> 0 else expected h1 b1 = 0) ->
  (forall o c, (o, c) ∈ u' <-> exists q, o = Some q /\ waits h1 q c) -> linking h1 u' queue.
Proof using All.
  intros Hu Hq Hin Hex Hw. constructor; auto; [apply arrival_tree| | |].
  - intros q bq Hbq. destruct (decide (q = p)) as [->|Hne]; [rewrite lookup_insert_eq in Hbq; injection Hbq as <-; lia|].
    rewrite lookup_insert_ne in Hbq by auto. apply (lk_pos _ _ _ L q bq Hbq).
  - intros q bq Hbq Hout. destruct (decide (q = p)) as [->|Hne].
    + rewrite lookup_insert_eq in Hbq. injection Hbq as <-. rewrite decide_False in Hex by exact Hout. congruence.
    + rewrite lookup_insert_ne in Hbq by auto. rewrite arrival_expected. apply (lk_done _ _ _ L q bq Hbq), not_elem_of_nil.
  - intros q Hqq. pose proof (Hin q Hqq) as ->. exists b1. rewrite lookup_insert_eq. rewrite decide_True in Hex by exact Hqq. split; [reflexivity|]. split; [exact E1|]. split; [lia|exact Hex].
Qed.

(** The parent is linked, or there is none: the block can be linked next. *)
Lemma arrival_linked : match pprev b with None => True | Some q => exists bq, h !! q = Some bq /\ nChainTx bq <> 0 end -> linking h1 u [p].
Proof using All.
  intros Hq. apply arrival_common; [apply L|apply NoDup_singleton|intros q; apply list_elem_of_singleton| |].
  - rewrite decide_True by left. rewrite arrival_expected. unfold expected. rewrite Epp, (proj2 (Z.eqb_neq _ _)) by lia. destruct (pprev b) as [q|]; [|lia].
    destruct Hq as (bq & Hbq & Hn). rewrite Hbq, (proj2 (Z.eqb_neq _ _)) by exact Hn. pose proof (linking_bound _ _ _ L q bq Hbq). lia.
  - intros o c. rewrite (lk_waiting _ _ _ L). split; intros (q & -> & Hw); exists q; (split; [reflexivity|]); [apply arrival_waits; auto|].
    apply arrival_waits in Hw as [?|(-> & Ep & bq & Hbq & E)]; [assumption|]. rewrite Ep in Hq. destruct Hq as (bq' & ? & ?). congruence.
Qed.

(** The parent is not linked: the block waits for it. *)
Lemma arrival_unlinked q bq : pprev b = Some q -> h !! q = Some bq -> nChainTx bq = 0 -> linking h1 (u ++ [(Some q, p)]) [].
Proof using All.
  intros Ep Hbq E. assert (Hnew : ~ waits h q p) by (intros (bc & bq' & Hc & _ & _ & Hn & _); congruence).
  apply arrival_common; [|constructor|intros c Hc; destruct (not_elem_of_nil _ Hc)| |].
  - apply NoDup_app. split; [apply L|]. split; [|apply NoDup_singleton]. intros e He Hin. apply list_elem_of_singleton in Hin as ->.
    apply (lk_waiting _ _ _ L) in He as (x & [= <-] & Hw). contradiction.
  - rewrite decide_False by apply not_elem_of_nil. rewrite arrival_expected. unfold expected. rewrite Epp, Ep, Hbq, E. destruct (nTx b1 =? 0); reflexivity.
  - intros o c. rewrite elem_of_app, list_elem_of_singleton, (lk_waiting _ _ _ L). setoid_rewrite arrival_waits. split.
    + intros [(x & -> & Hw)|[= -> ->]]; [eauto|]. exists q. split; [reflexivity|]. right. eauto.
    + intros (x & -> & [Hw|(-> & Ex & _)]); [left; eauto|right; congruence].
Qed.
End Arrival.

Lemma raised_transactions b : exists r st, RaiseValidity b BLOCK_VALID_TRANSACTIONS = Ok (r, set_nStatus b st) /\ Z.testbit st 3 = Z.testbit (nStatus b) 3.
Proof.
  assert (E : set_nStatus b (nStatus b) = b) by (destruct b; reflexivity).
  unfold RaiseValidity. change (assert_ (Z.land BLOCK_VALID_TRANSACTIONS _ =? 0)) with (Ok tt : res unit). cbn [mbind res_bind].
  destruct (negb _); [exists false, (nStatus b); rewrite E; auto|]. destruct (_ <? _); [|exists false, (nStatus b); rewrite E; auto].
  rewrite andb_false_r. eexists _, _. split; [reflexivity|]. rewrite Z.lor_spec, Z.land_spec. change (Z.testbit (u32 _) 3) with true. rewrite andb_true_r. apply orb_false_r.
Qed.

(** The parent may be waited for: it is not marked invalid. *)
Definition may_wait (h : heap) (b : CBlockIndex) : Prop := forall q bq, pprev b = Some q -> h !! q = Some bq -> nChainTx bq = 0 ->
  failed bq = false /\ BLOCK_VALID_TREE <= Z.land (nStatus bq) BLOCK_VALID_MASK.

Lemma IsValid_tree b : failed b = false -> BLOCK_VALID_TREE <= Z.land (nStatus b) BLOCK_VALID_MASK -> IsValid b BLOCK_VALID_TREE = Ok true.
Proof.
  unfold IsValid, failed. change (assert_ (Z.land BLOCK_VALID_TREE _ =? 0)) with (Ok tt : res unit). cbn [mbind res_bind]. intros -> H. f_equal. lia.
Qed.

(** What the arrival of the [n] transactions of block [p] leaves: the counts
    agree with the reference, the rest of the index is as it was. *)
Record received {W} (s s' : Chainstate W) (p : ptr) (n : Z) : Prop := {
  rc_linking : linking (m_block_index s') (m_blocks_unlinked s') [];
  rc_counts : forall q bq, m_block_index s' !! q = Some bq -> nChainTx bq = branch_tx (height_of (m_block_index s') q) (m_block_index s') q;
  rc_block : exists bp, m_block_index s' !! p = Some bp /\ nTx bp = n /\ has_data bp = true;
  rc_others : forall q, q <> p -> (fun b => (nTx b, nStatus b)) <$> m_block_index s' !! q = (fun b => (nTx b, nStatus b)) <$> m_block_index s !! q;
  rc_chain : m_chain s' = m_chain s;
  rc_candidates : setBlockIndexCandidates s ⊆ setBlockIndexCandidates s';
}.

Lemma received_intro {W} (s s' : Chainstate W) p b1 : linking (m_block_index s') (m_blocks_unlinked s') [] ->
  same_place (<[p := b1]> (m_block_index s)) (m_block_index s') -> Z.testbit (nStatus b1) 3 = true -> m_chain s' = m_chain s ->
  setBlockIndexCandidates s ⊆ setBlockIndexCandidates s' -> received s s' p (nTx b1).
Proof.
  intros L' Sp Ebit Ec Hc. constructor; auto; [apply (linking_branch _ _ L')| |].
  - specialize (Sp p). rewrite lookup_insert_eq in Sp. destruct (m_block_index s' !! p) as [bp|]; [|discriminate]. exists bp. split; [reflexivity|].
    injection Sp as En _ Est. split; [exact En|]. unfold has_data. apply negb_true_iff, Z.eqb_neq. intros Ez. rewrite Est in Ez.
    assert (T : Z.testbit (Z.land (nStatus b1) BLOCK_HAVE_DATA) 3 = true) by (rewrite Z.land_spec, Ebit; reflexivity). rewrite Ez, Z.bits_0 in T. discriminate.
  - intros q Hne. specialize (Sp q). rewrite lookup_insert_ne in Sp by auto.
    destruct (m_block_index s' !! q), (m_block_index s !! q); try discriminate; [|reflexivity]. injection Sp as E1 _ E2. cbn. congruence.
Qed.

(** No branch receives more transactions than a counter holds. *)
Definition within_counter (h : heap) : Prop := forall q bq, h !! q = Some bq -> received_tx (height_of h q) h q < 2 ^ 32.

Lemma within_counter_ext h p b b' : within_counter (<[p := b]> h) -> nTx b' = nTx b -> pprev b' = pprev b -> Chain.nHeight b' = Chain.nHeight b ->
  within_counter (<[p := b']> h).
Proof.
  intros Hw E1 E2 E3 q bq Hq.
  assert (Ex : forall x, (fun b => (nTx b, pprev b)) <$> <[p := b']> h !! x = (fun b => (nTx b, pprev b)) <$> <[p := b]> h !! x).
  { intros x. destruct (decide (x = p)) as [->|Hne]; [rewrite !lookup_insert_eq; cbn; congruence|rewrite !lookup_insert_ne by auto; reflexivity]. }
  rewrite (received_ext _ _ Ex). unfold height_of. unfold within_counter, height_of in Hw. destruct (decide (q = p)) as [->|Hne].
  - rewrite lookup_insert_eq. rewrite lookup_insert_eq in Hq. specialize (Hw p b). rewrite lookup_insert_eq in Hw. rewrite E3. auto.
  - rewrite lookup_insert_ne in Hq |- * by auto. specialize (Hw q bq). rewrite lookup_insert_ne in Hw by auto. rewrite Hq in *. auto.
Qed.

(** C7. [ReceivedBlockTransactions] keeps the count of transactions exact whatever
    order blocks arrive in.  If before the call [nChainTx] is, for every entry,
    the number of transactions of its branch (0 while a block of the branch is
    missing) and [m_blocks_unlinked] holds exactly the blocks that wait for
    their parent, then the call ends, stores the new block's transactions, and
    both hold again: the queue links exactly the descendants that this block
    completes, and no others. *)
Theorem ReceivedBlockTransactions_counts {HO : WorkOrder} {W : Type}
    (params : Params) (block : CBlock) (p : ptr) (file pos : Z) (s : Chainstate W) (b : CBlockIndex) :
  linking (m_block_index s) (m_blocks_unlinked s) [] -> m_block_index s !! p = Some b -> nTx b = 0 ->
  (0 < length (vtx block))%nat -> Z.of_nat (length (vtx block)) < 2 ^ 32 -> may_wait (m_block_index s) b ->
  within_counter (<[p := set_data b (Z.of_nat (length (vtx block))) file pos]> (m_block_index s)) ->
  exists s', ReceivedBlockTransactions params block p file pos s = (Ok tt, s') /\ received s s' p (Z.of_nat (length (vtx block))).
Proof.
  intros L Hp Enew Hlen Hbig Hmay Hfits. unfold ReceivedBlockTransactions. unfold mbind at 1, stm_bind at 1, get_st at 1. unfold mbind at 1, stm_bind at 1, lift_st at 1.
  rewrite (deref_ok _ p b Hp). replace (u32 (Z.of_nat (length (vtx block)))) with (Z.of_nat (length (vtx block))) by (unfold u32; rewrite Z.mod_small; lia).
  set (n := Z.of_nat (length (vtx block))) in *. set (bd := set_data b n file pos) in *. set (stw := if BuriedActiveAt _ _ _ then _ else _).
  assert (Hstw : Z.testbit stw 3 = true) by (unfold stw; destruct (BuriedActiveAt _ _ _); rewrite ?Z.lor_spec; change (Z.testbit BLOCK_HAVE_DATA 3) with true; rewrite ?orb_true_r; reflexivity).
  destruct (raised_transactions (set_nStatus bd stw)) as (r & st & Er & Ebit). cbn [nStatus set_nStatus] in Ebit. rewrite Hstw in Ebit. unfold mbind at 1, stm_bind at 1, lift_st at 1. rewrite Er.
  set (b1 := set_nStatus (set_nStatus bd stw) st) in *. unfold mbind at 1, stm_bind at 1, modify_st at 1. unfold mbind at 1, stm_bind at 1, modify_st at 1.
  unfold mbind at 1, stm_bind at 1, get_st at 1. set (s1 := note_dirty p _).
  pose proof (within_counter_ext _ p bd b1 Hfits eq_refl eq_refl eq_refl) as Hfits1.
  assert (Arr : forall q bq, pprev b = Some q -> m_block_index s !! q = Some bq -> m_block_index s1 !! q = Some bq).
  { intros q bq Ep Hq. cbn. rewrite lookup_insert_ne; [exact Hq|]. intros <-. assert (bq = b) as -> by congruence.
    destruct (ok_prev _ _ _ (tree_ok _ (lk_tree _ _ _ L) p b Hp) p Ep) as (b' & Hb' & EH). assert (b' = b) by congruence. subst. lia. }
  destruct (pprev b1) as [q|] eqn:Epp; change (pprev b = Some q) in Epp || change (pprev b = None) in Epp.
  - destruct (ok_prev _ _ _ (tree_ok _ (lk_tree _ _ _ L) p b Hp) q Epp) as (bq & Hq & _). unfold mbind at 1, stm_bind at 1, lift_st at 1.
    rewrite (deref_ok _ q bq (Arr q bq Epp Hq)). cbn [mbind res_bind]. unfold HaveNumChainTxs. destruct (Z.eqb_spec (nChainTx bq) 0) as [Ez|Enz]; cbn [negb].
    + destruct (Hmay q bq Epp Hq Ez) as [Hf Hv]. unfold mbind, stm_bind, lift_st. rewrite (IsValid_tree bq Hf Hv).
      eexists. split; [reflexivity|]. apply (received_intro s _ p b1); [|intros x; reflexivity|exact Ebit|reflexivity|reflexivity].
      apply (arrival_unlinked _ _ p b b1 L Hp Enew) with (bq := bq); auto; cbn; lia.
    + assert (La : linking (m_block_index s1) (m_blocks_unlinked s1) [p]) by (apply (arrival_linked _ _ p b b1 L Hp Enew); auto; [cbn; lia|rewrite Epp; eauto]).
      destruct (link_queue_spec (S (length (m_blocks_unlinked s1))) [p] s1 La ltac:(cbn; lia)) as (s' & E' & L' & Sp & Ec & Hc). exists s'. split; [exact E'|]. apply (received_intro s s' p b1 L' Sp Ebit Ec Hc).
  - unfold mbind at 1, stm_bind at 1, lift_st at 1.
    assert (La : linking (m_block_index s1) (m_blocks_unlinked s1) [p]) by (apply (arrival_linked _ _ p b b1 L Hp Enew); auto; [cbn; lia|rewrite Epp; exact I]).
    destruct (link_queue_spec (S (length (m_blocks_unlinked s1))) [p] s1 La ltac:(cbn; lia)) as (s' & E' & L' & Sp & Ec & Hc). exists s'. split; [exact E'|]. apply (received_intro s s' p b1 L' Sp Ebit Ec Hc).
Qed.

(** ** A block that waits for a marked parent *)

Section Lost.
Context `{WorkOrder} {W : Type}.
Context (params : Params) (p : ptr).
Notation CS := (Chainstate W).

(** [p] is not linked, no candidate, and waits for nobody. *)
Record lost (s : CS) : Prop := {
  lost_entry : exists b, m_block_index s !! p = Some b /\ nChainTx b = 0;
  lost_candidate : p ∉ setBlockIndexCandidates s;
  lost_waits : forall e, e ∈ m_blocks_unlinked s -> snd e <> p;
}.

(** The arrival of other blocks, and taking back the marks of any block. *)
Inductive later : CS -> CS -> Prop :=
| later_here s : later s s
| later_arrival s block q file pos s1 s2 : q <> p -> ReceivedBlockTransactions params block q file pos s = (Ok tt, s1) -> later s1 s2 -> later s s2
| later_reset s q s1 s2 : ResetBlockFailureFlags q s = (Ok tt, s1) -> later s1 s2 -> later s s2.

Lemma RaiseValidity_transactions b : exists x b', RaiseValidity b BLOCK_VALID_TRANSACTIONS = Ok (x, b') /\ pprev b' = pprev b /\ nChainTx b' = nChainTx b.
Proof using.
  unfold RaiseValidity. cbn [assert_ mbind res_bind]. destruct (negb _); [|destruct (_ <? _)]; eexists _, _; (split; [reflexivity|]); auto.
Qed.

Lemma lost_set q b' (s : CS) : (q = p -> nChainTx b' = 0) -> lost s -> lost (update_index <[q := b']> s).
Proof using.
  intros Hq [(b & Hb & E) Hc Hu]. constructor; [|exact Hc|exact Hu]. cbn. destruct (decide (q = p)) as [->|Hne].
  - exists b'. rewrite lookup_insert_eq. auto.
  - exists b. rewrite lookup_insert_ne by assumption. auto.
Qed.

Lemma lost_same (s s' : CS) : m_block_index s' = m_block_index s -> setBlockIndexCandidates s' = setBlockIndexCandidates s -> m_blocks_unlinked s' = m_blocks_unlinked s -> lost s -> lost s'.
Proof using. intros E1 E2 E3 [H1 H2 H3]. constructor; rewrite ?E1, ?E2, ?E3; assumption. Qed.

Lemma lost_add q (s : CS) : q <> p -> lost s -> lost (update_candidates (union {[ q ]}) s).
Proof using. intros Hq [H1 H2 H3]. constructor; [exact H1|cbn; set_solver|exact H3]. Qed.

Lemma link_queue_lost fuel : forall queue (s s' : CS), p ∉ queue -> lost s -> link_queue fuel queue s = (Ok tt, s') -> lost s'.
Proof using.
  induction fuel as [|fuel IH]; intros [|q rest] s s' Hq Hl; cbn [link_queue]; try (intros [= <-]; exact Hl);
    unfold mbind, stm_bind, get_st, lift_st, modify_st; destruct (deref (m_block_index s) q) as [b|e]; try discriminate;
    (destruct (match pprev b with None => Ok 0 | Some _ => _ end) as [before|e]; [|discriminate]); unfold TryAddBlockIndexCandidate, mbind, stm_bind, get_st, mret, stm_ret, modify_st.
  - destruct (match Tip _ with Some _ => _ | None => _ end); discriminate.
  - apply not_elem_of_cons in Hq as [Hne Hq].
    set (s1 := update_counters _ (update_index _ s)). assert (L1 : lost s1) by (apply (lost_same (update_index <[q := set_nSequenceId (set_nChainTx b (u32 (before + nTx b))) (nBlockSequenceId (m_counters s))]> s)); try reflexivity; apply lost_set; [congruence|exact Hl]).
    set (more := waiting_for q (m_blocks_unlinked s)).
    assert (Hmore : p ∉ rest ++ more).
    { rewrite elem_of_app. intros [Hr|Hr]; [contradiction|]. unfold more, waiting_for in Hr. apply list_elem_of_fmap in Hr as (e & E & He). apply list_elem_of_filter in He as [_ He]. exact (lost_waits s Hl e He (eq_sym E)). }
    assert (Hun : forall t : CS, lost t -> lost (update_unlinked (still_unlinked q) t)).
    { intros t [H1 H2 H3]. constructor; [exact H1|exact H2|]. intros e He. cbn in He. apply list_elem_of_filter in He as [_ He]. exact (H3 e He). }
    destruct (match Tip _ with Some _ => _ | None => _ end); apply IH; try exact Hmore; apply Hun; [exact L1|apply lost_add; [congruence|exact L1]].
Qed.

Lemma arrival_lost block q file pos (s s' : CS) : q <> p -> lost s -> ReceivedBlockTransactions params block q file pos s = (Ok tt, s') -> lost s'.
Proof using.
  intros Hne Hl. unfold ReceivedBlockTransactions, mbind, stm_bind, get_st, lift_st, modify_st. destruct (deref (m_block_index s) q) as [b0|]; [|discriminate].
  destruct (RaiseValidity _ _) as [[x b]|]; [|discriminate]. set (s1 := note_dirty q (update_index <[q := b]> s)).
  assert (L1 : lost s1) by (apply (lost_same (update_index <[q := b]> s)); try reflexivity; apply lost_set; [congruence|exact Hl]).
  destruct (match pprev b with None => _ | Some _ => _ end) as [[|]|]; [apply link_queue_lost; [set_solver|exact L1]| |discriminate].
  destruct (pprev b) as [r|]; [|intros [= <-]; exact L1]. destruct (deref (m_block_index s1) r) as [br|]; [|discriminate].
  destruct (IsValid br BLOCK_VALID_TREE) as [[|]|]; [|intros [= <-]; exact L1|discriminate]. intros [= <-].
  destruct L1 as [H1 H2 H3]. constructor; [exact H1|exact H2|]. intros e He. cbn in He. apply elem_of_app in He as [He|He]; [exact (H3 e He)|].
  apply list_elem_of_singleton in He as ->. exact Hne.
Qed.

Lemma reset_entry_lost q n r (s s' : CS) : lost s -> reset_entry q n r s = (Ok tt, s') -> lost s'.
Proof using.
  intros Hl. unfold reset_entry, mbind, stm_bind, get_st, lift_st, modify_st, mret, stm_ret. destruct (deref (m_block_index s) r) as [b|] eqn:Eb; [|discriminate].
  destruct (IsValid b _) as [valid|]; [|discriminate]. destruct (GetAncestor _ _ _) as [a|]; [|discriminate].
  destruct (_ && _)%bool; [|intros [= <-]; exact Hl]. set (b' := set_nStatus b _). set (s1 := note_dirty r (update_index <[r := b']> s)).
  assert (Ec : r = p -> nChainTx b' = 0).
  { intros ->. destruct (lost_entry s Hl) as (b1 & Hb1 & E1). rewrite (deref_ok _ _ _ Hb1) in Eb. injection Eb as <-. exact E1. }
  assert (L1 : lost s1) by (apply (lost_same (update_index <[r := b']> s)); try reflexivity; apply lost_set; assumption).
  assert (Fin : forall t : CS, lost t -> lost (update_failed (fun f => f ∖ {[ r ]}) t)) by (intros t; apply lost_same; reflexivity).
  assert (Best : forall (t : CS) o, lost t -> lost (update_best None o t)) by (intros t o; apply lost_same; reflexivity).
  destruct (IsValid b' _) as [v|]; [|discriminate]. destruct (v && HaveNumChainTxs b')%bool eqn:Ev.
  - apply andb_true_iff in Ev as [_ Ev]. unfold HaveNumChainTxs in Ev. assert (Hne : r <> p) by (intros ->; rewrite (Ec eq_refl) in Ev; discriminate).
    destruct (access _) as [tip|]; [|discriminate]. destruct (worse _ _ _); destruct (bool_decide _); intros [= <-]; auto using lost_add.
  - destruct (bool_decide _); intros [= <-]; auto.
Qed.

Lemma reset_entries_lost q n l : forall s s' : CS, lost s -> reset_entries q n l s = (Ok tt, s') -> lost s'.
Proof using.
  induction l as [|r l IH]; intros s s' Hl; cbn [reset_entries]; [intros [= <-]; exact Hl|]. unfold mbind, stm_bind.
  destruct (reset_entry q n r s) as [[[]|e] s1] eqn:E; [|discriminate]. apply IH. exact (reset_entry_lost _ _ _ _ _ Hl E).
Qed.

Lemma reset_ancestors_lost fuel : forall o (s s' : CS), lost s -> reset_ancestors fuel o s = (Ok tt, s') -> lost s'.
Proof using.
  induction fuel as [|fuel IH]; intros [r|] s s' Hl; cbn [reset_ancestors]; try (intros [= <-]; exact Hl);
    unfold mbind, stm_bind, get_st, lift_st, modify_st, mret, stm_ret; (destruct (deref (m_block_index s) r) as [b|] eqn:Eb; [|discriminate]).
  - destruct (negb _); discriminate.
  - destruct (negb _); apply IH; [|exact Hl]. apply (lost_same (update_index <[r := set_nStatus b (Z.land (nStatus b) (u32 (Z.lnot BLOCK_FAILED_MASK)))]> s)); try reflexivity.
    apply lost_set; [|exact Hl]. intros ->. destruct (lost_entry s Hl) as (b1 & Hb1 & E1). rewrite (deref_ok _ _ _ Hb1) in Eb. injection Eb as <-. exact E1.
Qed.

Lemma later_lost s s' : later s s' -> lost s -> lost s'.
Proof using.
  induction 1 as [|s block q file pos s1 s2 Hne E _ IH|s q s1 s2 E _ IH]; [auto| |]; intros Hl; apply IH.
  - exact (arrival_lost _ _ _ _ _ _ Hne Hl E).
  - revert E. unfold ResetBlockFailureFlags, mbind, stm_bind, get_st, lift_st. destruct (deref _ _) as [b|]; [|discriminate].
    destruct (reset_entries _ _ _ s) as [[[]|e] t] eqn:Et; [|discriminate]. apply reset_ancestors_lost. exact (reset_entries_lost _ _ _ _ _ Hl Et).
Qed.
End Lost.

(** ** Blocks out of order *)

#[local] Existing Instance by_work.

Definition counted_entry (id : Z) (prev : option ptr) (height ntx chain status : Z) : CBlockIndex := set_nChainTx (set_data (entry id prev height (height + 1) status) ntx 0 0) chain.

(** Blocks 0-1-2: the genesis block is linked, block 2 waits for block 1. *)
Definition gap_tree : heap :=
  list_to_map [(0%nat, counted_entry 0 None 0 1 1 good_status);
               (1%nat, counted_entry 1 (Some 0%nat) 1 0 0 BLOCK_VALID_TREE);
               (2%nat, counted_entry 2 (Some 1%nat) 2 5 0 good_status)].

Definition gap_state : Chainstate plain :=
  {| m_block_index := gap_tree; m_chain := [Some 0%nat]; setBlockIndexCandidates := {[ 0%nat ]};
     m_best_invalid := None; m_best_header := Some 2%nat; m_failed_blocks := ∅; m_dirty_blockindex := ∅; m_blocks_unlinked := [(Some 1%nat, 2%nat)];
     m_prune_locks := ∅; m_counters := {| nBlockSequenceId := 1; nBlockReverseSequenceId := -1; nLastPreciousChainwork := uint_zero |};
     m_flush := {| m_last_write := 0; m_last_flush := 0; m_check_for_pruning := false; m_have_pruned := false |};
     CoinsTip := new_cache (∅ : gmap COutPoint Coin, 10); block_files := ∅; undo_files := ∅ |}.

Definition two_transactions : CBlock := {|
  header := {| hdr_nVersion := 4; hashPrevBlock := uint256_null; hdr_hashMerkleRoot := uint256_null; hdr_nTime := 140; hdr_nBits := 0x1d00ffff; hdr_nNonce := 1 |};
  vtx := [coinbase_tx 1 []; coinbase_tx 2 []]; fChecked := false; m_checked_witness_commitment := false; m_checked_merkle_root := false |}.

Lemma gap_known (P : ptr -> CBlockIndex -> Prop) : P 0%nat (counted_entry 0 None 0 1 1 good_status) -> P 1%nat (counted_entry 1 (Some 0%nat) 1 0 0 BLOCK_VALID_TREE) ->
  P 2%nat (counted_entry 2 (Some 1%nat) 2 5 0 good_status) -> map_Forall P gap_tree.
Proof. intros P0 P1 P2. repeat apply map_Forall_insert_2; [exact P0|exact P1|exact P2|apply map_Forall_empty]. Qed.

Lemma gap_linking : linking gap_tree [(Some 1%nat, 2%nat)] [].
Proof.
  constructor.
  - apply tree_wfb_ok. vm_compute. reflexivity.
  - apply (gap_known (fun _ b => 0 <= nTx b)); cbn; lia.
  - apply (gap_known (fun p _ => received_tx (height_of gap_tree p) gap_tree p < 2 ^ 32)); vm_compute; reflexivity.
  - apply (gap_known (fun p b => p ∉ [] -> nChainTx b = expected gap_tree b)); intros _; vm_compute; reflexivity.
  - intros p Hp. destruct (not_elem_of_nil _ Hp).
  - constructor.
  - intros o p. rewrite list_elem_of_singleton. split.
    + intros [= -> ->]. exists 1%nat. split; [reflexivity|]. eexists _, _. repeat (split; [reflexivity|]). split; [discriminate|reflexivity].
    + intros (q & -> & b & bq & Hp & Eq & Hq & Hn & Ez). revert p b Hp Eq Hn. apply (gap_known (fun p b => pprev b = Some q -> nTx b <> 0 -> (Some q, p) = (Some 1%nat, 2%nat))); cbn.
      * discriminate.
      * congruence.
      * intros [= <-] _. reflexivity.
  - apply NoDup_singleton.
Qed.

Lemma ReceivedBlockTransactions_counts_witness : exists s', ReceivedBlockTransactions sample_params two_transactions 1 0 80 gap_state = (Ok tt, s') /\
  nChainTx <$> m_block_index s' !! 2%nat = Some 8 /\ m_blocks_unlinked s' = [].
Proof.
  destruct (ReceivedBlockTransactions_counts sample_params two_transactions 1 0 80 gap_state (counted_entry 1 (Some 0%nat) 1 0 0 BLOCK_VALID_TREE)) as (s' & E & _).
  - exact gap_linking.
  - reflexivity.
  - reflexivity.
  - cbn. lia.
  - reflexivity.
  - intros q bq [= <-] Hq. vm_compute in Hq. injection Hq as <-. discriminate.
  - intros q bq. revert q bq. apply (map_Forall_lookup (fun q bq => received_tx _ _ q < 2 ^ 32)). repeat apply map_Forall_insert_2; [vm_compute; reflexivity..|apply map_Forall_empty].
  - exists s'. split; [exact E|].
    assert (F : match ReceivedBlockTransactions sample_params two_transactions 1 0 80 gap_state with
              | (Ok tt, s1) => nChainTx <$> m_block_index s1 !! 2%nat = Some 8 /\ m_blocks_unlinked s1 = [] | _ => False end) by (vm_compute; split; reflexivity).
    rewrite E in F. exact F.
Defined.

(** Blocks 0-1-2 known by their headers, block 1 marked invalid by hand. *)
Definition marked_state : Chainstate plain := update_unlinked (fun _ => []) (update_index (fun _ =>
  list_to_map [(0%nat, counted_entry 0 None 0 1 1 good_status);
               (1%nat, counted_entry 1 (Some 0%nat) 1 0 0 (Z.lor BLOCK_VALID_TREE BLOCK_FAILED_VALID));
               (2%nat, counted_entry 2 (Some 1%nat) 2 0 0 BLOCK_VALID_TREE)]) gap_state).

(** C39. A block that arrives while its parent is marked invalid, and not linked,
    is not noted in [m_blocks_unlinked].  Whatever happens afterwards, other
    blocks arriving in any order, the parent among them, and marks being taken
    back with [ResetBlockFailureFlags], nothing links the block: its [nChainTx]
    stays 0 and it does not become a candidate, also when its branch has
    become complete. *)
Theorem waiting_block_lost {HO : WorkOrder} {W : Type} (params : Params) (block : CBlock) (p q : ptr) (file pos : Z) (s : Chainstate W) (b bq : CBlockIndex) :
  m_block_index s !! p = Some b -> pprev b = Some q -> q <> p -> m_block_index s !! q = Some bq ->
  Z.land (nStatus bq) BLOCK_FAILED_MASK <> 0 -> nChainTx bq = 0 ->
  p ∉ setBlockIndexCandidates s -> (forall e, e ∈ m_blocks_unlinked s -> snd e <> p) ->
  exists s1, ReceivedBlockTransactions params block p file pos s = (Ok tt, s1) /\ m_blocks_unlinked s1 = m_blocks_unlinked s /\
    forall s2, later params p s1 s2 -> nChainTx <$> m_block_index s2 !! p = Some 0 /\ p ∉ setBlockIndexCandidates s2.
Proof.
  intros Hp Epp Hne Hq Hf Hz Hc Hu. unfold ReceivedBlockTransactions, mbind, stm_bind, get_st, lift_st, modify_st. rewrite (deref_ok _ _ _ Hp).
  set (b0 := set_nStatus _ _). destruct (RaiseValidity_transactions b0) as (x & b1 & Er & Ep & Ec). rewrite Er, Ep. change (pprev b0) with (pprev b). rewrite Epp.
  set (s1 := note_dirty p (update_index <[p := b1]> s)).
  assert (Hq1 : deref (m_block_index s1) q = Ok bq) by (apply deref_ok; cbn; rewrite lookup_insert_ne by congruence; exact Hq).
  rewrite Hq1. unfold HaveNumChainTxs. cbn [mbind res_bind]. rewrite Hz. cbn [Z.eqb negb].
  assert (Ev : IsValid bq BLOCK_VALID_TREE = Ok false) by (unfold IsValid; cbn [assert_ mbind res_bind]; apply Z.eqb_neq in Hf; rewrite Hf; reflexivity).
  rewrite Ev. exists s1. split; [reflexivity|]. split; [reflexivity|]. intros s2 Hl.
  assert (L : lost p s1) by (constructor; [exists b1; cbn; rewrite lookup_insert_eq; rewrite Ec; auto|exact Hc|exact Hu]).
  destruct (later_lost params p s1 s2 Hl L) as [(b2 & Hb2 & E2) H2 _]. rewrite Hb2. cbn. rewrite E2. auto.
Qed.

(** Block 2 arrives, the mark of block 1 is taken back, block 1 arrives: the
    branch has five transactions, but block 2 stays behind. *)
Lemma waiting_block_lost_witness : exists s1 s2 s3,
  ReceivedBlockTransactions sample_params two_transactions 2 0 80 marked_state = (Ok tt, s1) /\
  ResetBlockFailureFlags 1 s1 = (Ok tt, s2) /\
  ReceivedBlockTransactions sample_params two_transactions 1 0 160 s2 = (Ok tt, s3) /\
  branch_tx 2 (m_block_index s3) 2 = 5 /\ nChainTx <$> m_block_index s3 !! 2%nat = Some 0 /\ 2%nat ∉ setBlockIndexCandidates s3.
Proof.
  destruct (waiting_block_lost sample_params two_transactions 2 1 0 80 marked_state (counted_entry 2 (Some 1%nat) 2 0 0 BLOCK_VALID_TREE)
    (counted_entry 1 (Some 0%nat) 1 0 0 (Z.lor BLOCK_VALID_TREE BLOCK_FAILED_VALID))) as (s1 & E1 & _ & R).
  - reflexivity.
  - reflexivity.
  - discriminate.
  - reflexivity.
  - discriminate.
  - reflexivity.
  - cbn. set_solver.
  - intros e He. destruct (not_elem_of_nil _ He).
  - assert (F : match ReceivedBlockTransactions sample_params two_transactions 2 0 80 marked_state with
                | (Ok _, t1) => match ResetBlockFailureFlags 1 t1 with
                                | (Ok _, t2) => match ReceivedBlockTransactions sample_params two_transactions 1 0 160 t2 with
                                                | (Ok _, t3) => branch_tx 2 (m_block_index t3) 2 = 5 | _ => False end
                                | _ => False end
                | _ => False end) by (vm_compute; reflexivity).
    rewrite E1 in F. destruct (ResetBlockFailureFlags 1 s1) as [[[]|] s2] eqn:E2; [|contradiction].
    destruct (ReceivedBlockTransactions sample_params two_transactions 1 0 160 s2) as [[[]|] s3] eqn:E3; [|contradiction].
    exists s1, s2, s3. split; [exact E1|]. split; [exact E2|]. split; [exact E3|]. split; [exact F|].
    apply R. eapply later_reset; [exact E2|]. eapply later_arrival; [|exact E3|constructor]. discriminate.
Defined.
