(* ===== verification/CoinsDB.v ===== *)
(** * The coins database

    Models [CCoinsViewDB] of src/txdb.cpp and the batches of src/dbwrapper.cpp
    it writes: [GetCoin], [HaveCoin], [GetBestBlock], [GetHeadBlocks] and
    [BatchWrite].  LevelDB is third-party code: a database is the map from its
    keys to the values stored, and a batch reaches the disk whole or not at
    all.  Which writes fail, and where the process ends, is part of the state,
    so that a theorem about every state is a theorem about every crash.
    [DBWrapper] shows that the keys do not collide and that values read back. *)

From stdpp Require Import base numbers list gmap strings.
From Stdlib Require Import ZArith Lia.
From S2P Require Import Prelude Params Streams Serialize Compressor Transaction Coins.

Local Open Scope Z_scope.

(** ** Keys *)

Definition DB_COIN : Z := 67.
Definition DB_BEST_BLOCK : Z := 66.
Definition DB_HEAD_BLOCKS : Z := 72.

Section Sizes.
Context {HP : Primitives} {HS : ScriptEnv}.

(** [CoinEntry]: the key of a coin. *)
Definition CoinEntry_Ser {S : Type} `{Stream S} (outpoint : COutPoint) : stm S unit :=
  _ ← ser_writedata8 DB_COIN;
  _ ← stream_write (le_digits 8 32 (fst outpoint));
  WriteVarInt 32 (snd outpoint).

(** What is streamed into an empty [DataStream]. *)
Definition streamed {A} (m : stm DataStream A) : bytes := remaining (snd (m {| vch := []; m_read_pos := 0 |})).

(** ** Batches *)

Inductive db_op : Type :=
| WriteCoin (outpoint : COutPoint) (c : Coin)
| EraseCoin (outpoint : COutPoint)
| WriteBest (hash : Z)
| EraseBest
| WriteHeads (hashes : list Z)
| EraseHeads.

Record CDBBatch : Type := { batch_ops : list db_op; size_estimate : Z }.

Definition empty_batch : CDBBatch := {| batch_ops := []; size_estimate := 0 |}.

Definition op_key (o : db_op) : bytes :=
  match o with
  | WriteCoin outpoint _ | EraseCoin outpoint => streamed (CoinEntry_Ser outpoint)
  | WriteBest _ | EraseBest => streamed (ser_writedata8 DB_BEST_BLOCK)
  | WriteHeads _ | EraseHeads => streamed (ser_writedata8 DB_HEAD_BLOCKS)
  end.

Definition op_value (o : db_op) : option bytes :=
  match o with
  | WriteCoin _ c => Some (streamed (Coin_Serialize c))
  | WriteBest hash => Some (streamed (stream_write (le_digits 8 32 hash)))
  | WriteHeads hashes => Some (streamed (VectorFormatter_Ser (fun hash => stream_write (le_digits 8 32 hash)) hashes))
  | _ => None
  end.

(** What [WriteImpl] and [EraseImpl] add to [size_estimate]. *)
Definition op_estimate (o : db_op) : Z :=
  let key := Z.of_nat (length (op_key o)) in
  match op_value o with
  | Some v => 3 + Z.b2z (key >? 127) + key + Z.b2z (Z.of_nat (length v) >? 127) + Z.of_nat (length v)
  | None => 2 + Z.b2z (key >? 127) + key
  end.

Definition batch_add (o : db_op) (b : CDBBatch) : CDBBatch :=
  {| batch_ops := batch_ops b ++ [o]; size_estimate := u64 (size_estimate b + op_estimate o) |}.

(** ** The database *)

Record coins_data : Type := { db_coins : gmap COutPoint Coin; db_best : option Z; db_heads : option (list Z) }.

Definition apply_op (d : coins_data) (o : db_op) : coins_data :=
  match o with
  | WriteCoin outpoint c => {| db_coins := <[outpoint := c]> (db_coins d); db_best := db_best d; db_heads := db_heads d |}
  | EraseCoin outpoint => {| db_coins := delete outpoint (db_coins d); db_best := db_best d; db_heads := db_heads d |}
  | WriteBest hash => {| db_coins := db_coins d; db_best := Some hash; db_heads := db_heads d |}
  | EraseBest => {| db_coins := db_coins d; db_best := None; db_heads := db_heads d |}
  | WriteHeads hashes => {| db_coins := db_coins d; db_best := db_best d; db_heads := Some hashes |}
  | EraseHeads => {| db_coins := db_coins d; db_best := db_best d; db_heads := None |}
  end.

Record CoinsViewOptions : Type := { batch_write_bytes : Z; simulate_crash_ratio : Z }.

(** What the disk holds; which of the next writes fail, and at which of the next
    partial batches the simulated crash strikes (none once the lists end). *)
Record CCoinsViewDB : Type := { m_options : CoinsViewOptions; disk : coins_data; write_errors : list bool; crash_draws : list bool }.

(** [CDBWrapper::WriteBatch]: [HandleError] throws when LevelDB reports an error. *)
Definition WriteBatch (b : CDBBatch) : stm CCoinsViewDB bool := fun d =>
  if default false (head (write_errors d))
  then (Fail (Thrown "Fatal LevelDB error"),
        {| m_options := m_options d; disk := disk d; write_errors := tail (write_errors d); crash_draws := crash_draws d |})
  else (Ok true, {| m_options := m_options d; disk := foldl apply_op (disk d) (batch_ops b);
                    write_errors := tail (write_errors d); crash_draws := crash_draws d |}).

(** [rng.randrange(simulate_crash_ratio) == 0], and [_Exit(0)]: the end of the process is a failure. *)
Definition simulate_crash : stm CCoinsViewDB unit := fun d =>
  if simulate_crash_ratio (m_options d) =? 0 then (Ok tt, d)
  else
    let d' := {| m_options := m_options d; disk := disk d; write_errors := write_errors d; crash_draws := tail (crash_draws d) |} in
    if default false (head (crash_draws d)) then (Fail (Thrown "Simulating a crash. Goodbye."), d') else (Ok tt, d').

Definition DB_GetCoin (outpoint : COutPoint) : stm CCoinsViewDB (option Coin) := d ← get_st; mret (db_coins (disk d) !! outpoint).
Definition DB_HaveCoin (outpoint : COutPoint) : stm CCoinsViewDB bool :=
  d ← get_st; mret (bool_decide (is_Some (db_coins (disk d) !! outpoint))).
Definition DB_GetBestBlock : stm CCoinsViewDB Z := d ← get_st; mret (default 0 (db_best (disk d))).
Definition GetHeadBlocks : stm CCoinsViewDB (list Z) := d ← get_st; mret (default [] (db_heads (disk d))).

(** A call on the database while the child's map is at hand. *)
Definition on_db {A} (m : stm CCoinsViewDB A) : stm (CCoinsViewDB * CCoinsMap) A := fun '(d, mapCoins) =>
  let '(r, d') := m d in (r, (d', mapCoins)).

(** What an entry adds to the batch. *)
Definition batch_coin (outpoint : COutPoint) (e : CCoinsCacheEntry) (b : CDBBatch) : CDBBatch :=
  if has_flag e DIRTY then
    if IsSpent (coin e) then batch_add (EraseCoin outpoint) b else batch_add (WriteCoin outpoint (coin e)) b
  else b.

(** The loop over the child's map, in the order [l]: the batch left over. *)
Fixpoint write_loop (erase : bool) (l : list (COutPoint * CCoinsCacheEntry)) (b : CDBBatch) : stm (CCoinsViewDB * CCoinsMap) CDBBatch :=
  match l with
  | [] => mret b
  | (outpoint, e) :: rest =>
      let b := batch_coin outpoint e b in
      _ ← modify_st (fun '(d, mapCoins) => (d, if erase then delete outpoint mapCoins else mapCoins));
      s ← get_st;
      b ← (if size_estimate b >? batch_write_bytes (m_options (fst s)) then
             _ ← on_db (WriteBatch b);
             _ ← on_db simulate_crash;
             mret empty_batch
           else mret b);
      write_loop erase rest b
  end.

Definition DB_BatchWrite (hashBlock : Z) (erase : bool) : stm (CCoinsViewDB * CCoinsMap) bool :=
  _ ← lift_st (assert_ (negb (hashBlock =? 0)));
  old_tip ← on_db DB_GetBestBlock;
  old_tip ← (if old_tip =? 0 then
               old_heads ← on_db GetHeadBlocks;
               match old_heads with
               | [new_head; old_head] => _ ← lift_st (assert_ (new_head =? hashBlock)); mret old_head
               | _ => mret old_tip
               end
             else mret old_tip);
  let b := batch_add (WriteHeads [hashBlock; old_tip]) (batch_add EraseBest empty_batch) in
  s ← get_st;
  b ← write_loop erase (map_to_list (snd s)) b;
  let b := batch_add (WriteBest hashBlock) (batch_add EraseHeads b) in
  on_db (WriteBatch b).

#[global] Instance DB_view : CCoinsView CCoinsViewDB := {|
  view_GetCoin := DB_GetCoin;
  view_HaveCoin := DB_HaveCoin;
  view_GetBestBlock := DB_GetBestBlock;
  view_BatchWrite := DB_BatchWrite;
|}.
End Sizes.
