(* ===== verification/Recovery.v ===== *)
(** * Recovery after an interrupted write

    Models the start-up of a chainstate in src/validation.cpp: [ReplayBlocks],
    which completes the move of the coins database from an old tip to a new one
    when a write was interrupted, [LoadChainTip], [NeedsRedownload] and
    [ClearBlockIndexCandidates].  [find_block] is the lookup in
    [m_block_index]; block and undo files are maps. *)

From stdpp Require Import base numbers list gmap strings.
From Stdlib Require Import ZArith Lia.
From S2P Require Import Prelude ArithUint256 Compact Params Chain ActiveChain ChainWork Pow VersionBits.
From S2P Require Import Merkle Streams Serialize Compressor Transaction Coins CoinsProofs TxCheck Locks Blocks Connect ChainState ChainSelection CoinsDB.

Local Open Scope Z_scope.

Section Recovery.
Context {HP : Primitives} {HT : TxEnv} {HB : BlockEnv} {HS : ScriptEnv} {HE : LockEnv} {HC : ConnectEnv} {HO : WorkOrder}.
Context (txout_size : Z) (h : heap) (files : gmap ptr CBlock) (undos : gmap ptr CBlockUndo).

(** ** Moving the coins, on any view *)

Section Moves.
Context {V : Type} `{CCoinsView V}.
Notation cache := (CCoinsViewCache V).

(** [while (pindexOld != pindexFork)]; [false] for the error returns. *)
Fixpoint rollback_loop (fuel : nat) (pindexOld pindexFork : option ptr) : stm cache bool :=
  if bool_decide (pindexOld = pindexFork) then mret true
  else
    p ← lift_st (access pindexOld);
    b ← lift_st (deref h p);
    ok ← (if Chain.nHeight b >? 0 then
            match files !! p with
            | None => mret false
            | Some block =>
                r ← DisconnectBlock txout_size h p (vtx block) (undos !! p);
                mret (negb (bool_decide (r = DISCONNECT_FAILED)))
            end
          else mret true);
    if negb ok then mret false
    else match fuel with
    | O => fail_st OutOfFuel
    | Datatypes.S fuel' => rollback_loop fuel' (pprev b) pindexFork
    end.

(** [for (int nHeight = nForkHeight + 1; nHeight <= pindexNew->nHeight; ++nHeight)]: [n] rounds from height [nHeight]. *)
Fixpoint rollforward_loop (n : nat) (nHeight : Z) (pindexNew : ptr) : stm cache bool :=
  match n with
  | O => mret true
  | Datatypes.S n' =>
      a ← lift_st (GetAncestor h pindexNew nHeight);
      p ← lift_st (match a with Some p => Ok p | None => Fail AssertFailed end);
      ok ← RollforwardBlock h p (vtx <$> files !! p);
      if negb ok then mret false else rollforward_loop n' (nHeight + 1) pindexNew
  end.

(** From the two branches to the new coins. *)
Definition replay_moves (pindexOld pindexFork : option ptr) (pindexNew : ptr) : stm cache bool :=
  fuel ← lift_st (match pindexOld with None => Ok O | Some p => b ← deref h p; Ok (Z.to_nat (Chain.nHeight b)) end);
  ok ← rollback_loop fuel pindexOld pindexFork;
  if negb ok then mret false
  else
    nForkHeight ← lift_st (match pindexFork with None => Ok 0 | Some f => b ← deref h f; Ok (Chain.nHeight b) end);
    b ← lift_st (deref h pindexNew);
    ok ← rollforward_loop (Z.to_nat (Chain.nHeight b - nForkHeight)) (nForkHeight + 1) pindexNew;
    if negb ok then mret false
    else
      hash ← lift_st (GetBlockHash b);
      _ ← SetBestBlock (le_val 8 hash);
      _ ← Flush;
      mret true.
End Moves.

(** ** [ReplayBlocks] *)

Context (find_block : Z -> option ptr).

(** [CCoinsViewCache cache(&db)]: what [m] does to the database through it. *)
Definition on_db_cache {A} (m : stm (CCoinsViewCache CCoinsViewDB) A) : stm CCoinsViewDB A := fun d =>
  let '(r, c) := m (new_cache d) in (r, base c).

Definition ReplayBlocks : stm CCoinsViewDB bool :=
  hashHeads ← GetHeadBlocks;
  match hashHeads with
  | [] => mret true
  | [hashNew; hashOld] =>
      match find_block hashNew with
      | None => mret false
      | Some pindexNew =>
          if hashOld =? 0 then on_db_cache (replay_moves None None pindexNew)
          else
            match find_block hashOld with
            | None => mret false
            | Some pindexOld =>
                pindexFork ← lift_st (LastCommonAncestor h pindexOld pindexNew);
                _ ← lift_st (assert_ (bool_decide (is_Some pindexFork)));
                on_db_cache (replay_moves (Some pindexOld) pindexFork pindexNew)
            end
      end
  | _ => mret false
  end.

(** ** The chain of the coins *)

Context (params : Params).

(** [while (block != nullptr && DeploymentActiveAt(..., DEPLOYMENT_SEGWIT))]. *)
Fixpoint redownload_loop (fuel : nat) (block : option ptr) : res bool :=
  match block with
  | None => Ok false
  | Some p =>
      b ← deref h p;
      if BuriedActiveAt params DEPLOYMENT_SEGWIT b then
        if Z.land (nStatus b) BLOCK_OPT_WITNESS =? 0 then Ok true
        else match fuel with
        | O => Fail OutOfFuel
        | Datatypes.S fuel' => redownload_loop fuel' (pprev b)
        end
      else Ok false
  end.

Definition NeedsRedownload (c : CChain) : res bool := redownload_loop (length c) (Tip c).

Section Tip.
Context {W : Type} `{CCoinsView W}.
Notation CS := (Chainstate W).

Definition ClearBlockIndexCandidates : stm CS unit := modify_st (update_candidates (fun _ => ∅)).

Definition LoadChainTip : stm CS bool :=
  best ← on_coins GetBestBlock;
  _ ← lift_st (assert_ (negb (best =? 0)));
  s ← get_st;
  loaded ← (match Tip (m_chain s) with
            | None => mret false
            | Some tip =>
                b ← lift_st (deref (m_block_index s) tip);
                hash ← lift_st (GetBlockHash b);
                best ← on_coins GetBestBlock;
                mret (le_val 8 hash =? best)
            end);
  if loaded : bool then mret true
  else
    best ← on_coins GetBestBlock;
    match find_block best with
    | None => mret false
    | Some pindex =>
        s ← get_st;
        c ← lift_st (SetTip (m_block_index s) (m_chain s) pindex);
        _ ← modify_st (update_chain c);
        _ ← PruneBlockIndexCandidates;
        mret true
    end.
End Tip.
End Recovery.
