(* ===== verification/RecoveryProofs.v ===== *)
(** * The coins database and its repair, proofs

    What a batch write leaves in the database, the moves of the repair, and
    [ReplayBlocks] as a whole. *)

From stdpp Require Import base numbers list gmap strings.
From Stdlib Require Import ZArith Lia.
From S2P Require Import Prelude ArithUint256 Compact Params Chain ActiveChain ChainWork Pow VersionBits Merkle Streams Serialize Compressor Transaction Coins CoinsProofs CoinsRefinement TxCheck Locks Blocks Connect ConnectBlock Replay ChainState ChainSelection CoinsDB Recovery.

Local Open Scope Z_scope.

(** * What the coins database promises

    [CCoinsViewDB] (src/txdb.cpp) keeps the laws a coins cache relies on, so
    that everything proved of caches holds on top of it; and whatever fails
    while [BatchWrite] runs, the disk holds the coins of the old tip, those of
    the new one, or a mixture of both that is marked as such. *)

Section Batches.
Context {HP : Primitives} {HPL : PrimitivesLaws} {HS : ScriptEnv}.

(** The disk once the batch is written. *)
Definition with_batch (d : CCoinsViewDB) (b : CDBBatch) : coins_data := foldl apply_op (disk d) (batch_ops b).

(** Entries of a map applied to the coins of a disk. *)
Definition with_entries (D : coins_data) (l : list (COutPoint * CCoinsCacheEntry)) : coins_data :=
  {| db_coins := foldl apply_entry (db_coins D) l; db_best := db_best D; db_heads := db_heads D |}.

Lemma with_batch_add d o b : with_batch d (batch_add o b) = apply_op (with_batch d b) o.
Proof using. unfold with_batch, batch_add. cbn [batch_ops]. rewrite foldl_app. reflexivity. Qed.

Lemma with_batch_empty d : with_batch d empty_batch = disk d.
Proof using. reflexivity. Qed.

Lemma with_batch_coin d op e b : with_batch d (batch_coin op e b) = with_entries (with_batch d b) [(op, e)].
Proof using.
  unfold batch_coin, with_entries, apply_entry. cbn [foldl fst snd]. destruct (has_flag e DIRTY); [|destruct (with_batch d b); reflexivity].
  unfold live. destruct (IsSpent (coin e)); rewrite with_batch_add; reflexivity.
Qed.

Lemma with_entries_app D l1 l2 : with_entries (with_entries D l1) l2 = with_entries D (l1 ++ l2).
Proof using. unfold with_entries. cbn. rewrite foldl_app. reflexivity. Qed.

Definition faultless (d : CCoinsViewDB) : Prop := write_errors d = [] /\ crash_draws d = [].

(** Writing a batch, the only step that touches the disk. *)
Lemma WriteBatch_spec b d : exists r d', WriteBatch b d = (r, d') /\ m_options d' = m_options d /\
  (r = Ok true /\ disk d' = with_batch d b \/ (exists e, r = Fail e) /\ disk d' = disk d) /\ (faultless d -> r = Ok true /\ faultless d').
Proof using.
  unfold WriteBatch, faultless. destruct (write_errors d) as [|[|] l]; cbn; eexists _, _; (split; [reflexivity|]); (split; [reflexivity|]); cbn.
  - split; [left; auto|]. intros [_ E]. auto.
  - split; [right; eauto|]. intros [? _]. discriminate.
  - split; [left; auto|]. intros [? _]. discriminate.
Qed.

Lemma simulate_crash_spec d : exists r d', simulate_crash d = (r, d') /\ m_options d' = m_options d /\ disk d' = disk d /\
  (r = Ok tt \/ exists e, r = Fail e) /\ (faultless d -> r = Ok tt /\ faultless d').
Proof using.
  unfold simulate_crash, faultless. destruct (_ =? 0); [eexists _, _; split; [reflexivity|]; auto 10|].
  destruct (crash_draws d) as [|[|] l]; cbn; eexists _, _; (split; [reflexivity|]); (split; [reflexivity|]); (split; [reflexivity|]); cbn.
  - split; [left; reflexivity|]. intros [E _]. auto.
  - split; [right; eauto|]. intros [_ ?]. discriminate.
  - split; [left; reflexivity|]. intros [_ ?]. discriminate.
Qed.

(** A partial batch: written, or the run ends with what was written before or just now. *)
Definition spill (b : CDBBatch) : stm (CCoinsViewDB * CCoinsMap) CDBBatch :=
  _ ← on_db (WriteBatch b); _ ← on_db simulate_crash; mret empty_batch.

Lemma spill_spec b d m : exists r d', spill b (d, m) = (r, (d', m)) /\ m_options d' = m_options d /\
  (r = Ok empty_batch /\ disk d' = with_batch d b \/ (exists e, r = Fail e) /\ (disk d' = disk d \/ disk d' = with_batch d b)) /\
  (faultless d -> r = Ok empty_batch /\ faultless d').
Proof using.
  unfold spill, mbind, stm_bind, on_db. destruct (WriteBatch_spec b d) as (r1 & d1 & -> & O1 & C1 & F1).
  destruct C1 as [[-> D1]|[[e ->] D1]].
  - destruct (simulate_crash_spec d1) as (r2 & d2 & -> & O2 & D2 & C2 & F2). destruct C2 as [->|[e ->]].
    + eexists _, _. split; [reflexivity|]. split; [congruence|]. split; [left; split; [reflexivity|congruence]|]. intros Hf. destruct (F1 Hf) as [_ H1]. destruct (F2 H1). auto.
    + eexists _, _. split; [reflexivity|]. split; [congruence|]. split; [right; split; [eauto|right; congruence]|].
      intros Hf. destruct (F1 Hf) as [_ H1]. destruct (F2 H1). discriminate.
  - eexists _, _. split; [reflexivity|]. split; [congruence|]. split; [right; split; [eauto|left; congruence]|]. intros Hf. destruct (F1 Hf). discriminate.
Qed.

(** What the disk may hold while the entries [l] are written on top of [D]. *)
Definition partly (d : CCoinsViewDB) (D : coins_data) (l : list (COutPoint * CCoinsCacheEntry)) (d' : CCoinsViewDB) : Prop :=
  disk d' = disk d \/ exists l1 l2, l = l1 ++ l2 /\ disk d' = with_entries D l1.

Lemma write_loop_cons erase op e l b d m : write_loop erase ((op, e) :: l) b (d, m) =
  let b1 := batch_coin op e b in
  match (if size_estimate b1 >? batch_write_bytes (m_options d) then spill b1 else mret b1) (d, if erase then delete op m else m) with
  | (Ok b2, s) => write_loop erase l b2 s
  | (Fail err, s) => (Fail err, s)
  end.
Proof using. reflexivity. Qed.

Lemma write_loop_spec erase l b d m : exists r d' m', write_loop erase l b (d, m) = (r, (d', m')) /\
  partly d (with_batch d b) l d' /\
  match r with
  | Ok b' => with_batch d' b' = with_entries (with_batch d b) l /\ m' = if erase then foldl (fun m p => delete (fst p) m) m l else m
  | Fail _ => True
  end /\ (faultless d -> (exists b', r = Ok b') /\ faultless d').
Proof using.
  revert b d m. induction l as [|[op e] l IH]; intros b d m; [|rewrite write_loop_cons].
  { eexists _, _, _. split; [reflexivity|]. split; [left; reflexivity|]. split; [|eauto]. split; [destruct (with_batch d b); reflexivity|destruct erase; reflexivity]. }
  cbv zeta.
  set (b1 := batch_coin op e b). set (m1 := if erase then delete op m else m).
  assert (Eb : with_batch d b1 = with_entries (with_batch d b) [(op, e)]) by apply with_batch_coin.
  destruct (size_estimate b1 >? batch_write_bytes (m_options d)).
  - destruct (spill_spec b1 d m1) as (r & d1 & -> & O1 & C & F). destruct C as [[-> D1]|[[err ->] D1]].
    + destruct (IH empty_batch d1 m1) as (r & d' & m' & E' & P & R & F'). exists r, d', m'. split; [exact E'|]. rewrite with_batch_empty, D1, Eb in *. split; [|split].
      * right. destruct P as [P|(l1 & l2 & -> & P)]; [exists [(op, e)], l; split; [reflexivity|congruence]|].
        exists ((op, e) :: l1), l2. split; [reflexivity|]. rewrite P, with_entries_app. reflexivity.
      * destruct r as [b'|]; [|exact I]. destruct R as [-> ->]. rewrite with_entries_app. split; [reflexivity|]. unfold m1. destruct erase; reflexivity.
      * intros Hf. destruct (F Hf) as [_ H1]. exact (F' H1).
    + eexists _, _, _. split; [reflexivity|]. split; [|split; [exact I|]].
      * destruct D1 as [D1|D1]; [left; exact D1|]. right. exists [(op, e)], l. split; [reflexivity|congruence].
      * intros Hf. destruct (F Hf). discriminate.
  - cbn [mret stm_ret]. unfold mret, stm_ret. destruct (IH b1 d m1) as (r & d' & m' & E' & P & R & F'). exists r, d', m'. split; [exact E'|]. rewrite Eb in *. split; [|split].
    + destruct P as [P|(l1 & l2 & -> & P)]; [left; exact P|]. right. exists ((op, e) :: l1), l2. split; [reflexivity|]. rewrite P, with_entries_app. reflexivity.
    + destruct r as [b'|]; [|exact I]. destruct R as [-> ->]. rewrite with_entries_app. split; [reflexivity|]. unfold m1. destruct erase; reflexivity.
    + exact F'.
Qed.

(** ** [BatchWrite] *)

(** The block the coins on disk belong to, or belonged to before the transition. *)
Definition old_tip_of (D : coins_data) : Z :=
  if default 0 (db_best D) =? 0 then match db_heads D with Some [_; old] => old | _ => 0 end else default 0 (db_best D).

(** A transition that has begun is only continued towards the same block. *)
Definition heading (D : coins_data) (h : Z) : Prop :=
  default 0 (db_best D) = 0 -> forall new old, db_heads D = Some [new; old] -> new = h.

Definition torn (new old : Z) (M : gmap COutPoint Coin) : coins_data := {| db_coins := M; db_best := None; db_heads := Some [new; old] |}.
Definition settled (tip : Z) (U : gmap COutPoint Coin) : coins_data := {| db_coins := U; db_best := Some tip; db_heads := None |}.

(** Every coin of [M] is as in [U] or as in [U']. *)
Definition between (U U' M : gmap COutPoint Coin) : Prop := forall op, M !! op = U !! op \/ M !! op = U' !! op.

Lemma prefix_between U l1 l2 : NoDup (l1 ++ l2).*1 -> between U (foldl apply_entry U (l1 ++ l2)) (foldl apply_entry U l1).
Proof using.
  intros Hnd op. rewrite fmap_app in Hnd. pose proof (proj1 (NoDup_app _ _) Hnd) as (Hnd1 & Hd & Hnd2).
  rewrite foldl_app, (foldl_apply_batch l1) by exact Hnd1. rewrite (foldl_apply_batch l2) by exact Hnd2.
  rewrite (lookup_apply_batch (list_to_map l2)). destruct (list_to_map l2 !! op) as [e2|] eqn:E2; [|right; reflexivity].
  left. rewrite lookup_apply_batch. replace (list_to_map l1 !! op) with (@None CCoinsCacheEntry); [reflexivity|]. symmetry.
  apply not_elem_of_list_to_map. intros H1. apply (Hd _ H1). apply elem_of_list_to_map_2 in E2. apply (list_elem_of_fmap_2' fst _ _ _ E2). reflexivity.
Qed.

(** Choosing the old tip. *)
Lemma DB_BatchWrite_eq h erase d m : h <> 0 -> heading (disk d) h -> DB_BatchWrite h erase (d, m) =
  let b := batch_add (WriteHeads [h; old_tip_of (disk d)]) (batch_add EraseBest empty_batch) in
  match write_loop erase (map_to_list m) b (d, m) with
  | (Ok b', s) => on_db (WriteBatch (batch_add (WriteBest h) (batch_add EraseHeads b'))) s
  | (Fail err, s) => (Fail err, s)
  end.
Proof using.
  intros Hh Hd. unfold DB_BatchWrite, old_tip_of. unfold mbind at 1, stm_bind at 1, lift_st. destruct (Z.eqb_spec h 0) as [?|_]; [contradiction|]. cbn [negb assert_].
  unfold mbind at 1, stm_bind at 1, on_db at 1, DB_GetBestBlock, get_st at 1, mbind at 1, stm_bind at 1, mret at 1, stm_ret at 1.
  unfold heading in Hd. destruct (Z.eqb_spec (default 0 (db_best (disk d))) 0) as [E|E]; [|reflexivity]. rewrite E. specialize (Hd E).
  unfold mbind at 1, stm_bind at 1, on_db at 1, mbind at 1, stm_bind at 1, on_db at 1, GetHeadBlocks, get_st at 1, mbind at 1, stm_bind at 1, mret at 1, stm_ret at 1.
  destruct (db_heads (disk d)) as [[|new [|old [|? ?]]]|]; cbn [default from_option id]; try reflexivity.
  rewrite (Hd new old eq_refl), Z.eqb_refl. reflexivity.
Qed.

(** [BatchWrite], whatever fails: the disk is as before, or torn between the old
    coins and the new ones, or holds the new ones; it is the last of these
    exactly when the call returns, and it returns when nothing fails. *)
Lemma DB_BatchWrite_spec h erase d m : h <> 0 -> heading (disk d) h ->
  let U := db_coins (disk d) in let U' := apply_batch m U in
  exists r d' m', DB_BatchWrite h erase (d, m) = (r, (d', m')) /\
    (disk d' = disk d \/ (exists M, disk d' = torn h (old_tip_of (disk d)) M /\ between U U' M) \/ disk d' = settled h U') /\
    (r = Ok true /\ disk d' = settled h U' /\ m' = (if erase then ∅ else m) \/ exists err, r = Fail err) /\
    (faultless d -> r = Ok true /\ faultless d').
Proof using.
  intros Hh Hd U U'. rewrite DB_BatchWrite_eq by assumption. cbv zeta. set (b := batch_add _ _).
  assert (Eb : with_batch d b = torn h (old_tip_of (disk d)) U) by (unfold b; rewrite !with_batch_add, with_batch_empty; reflexivity).
  destruct (write_loop_spec erase (map_to_list m) b d m) as (r & d1 & m1 & -> & P & R & F). rewrite Eb in *.
  assert (Efold : foldl apply_entry U (map_to_list m) = U').
  { rewrite foldl_apply_batch by apply NoDup_fst_map_to_list. rewrite list_to_map_to_list. reflexivity. }
  assert (P1 : disk d1 = disk d \/ exists M, disk d1 = torn h (old_tip_of (disk d)) M /\ between U U' M).
  { destruct P as [P|(l1 & l2 & El & P)]; [left; exact P|]. right. exists (foldl apply_entry U l1). split; [exact P|]. rewrite <- Efold, El.
    apply prefix_between. rewrite <- El. apply NoDup_fst_map_to_list. }
  destruct r as [b'|err].
  - destruct R as [R Em]. unfold on_db. destruct (WriteBatch_spec (batch_add (WriteBest h) (batch_add EraseHeads b')) d1) as (r2 & d2 & -> & _ & C2 & F2).
    rewrite !with_batch_add, R in C2. unfold with_entries, torn in C2. cbn [apply_op db_coins db_best db_heads] in C2. rewrite Efold in C2. fold (settled h U') in C2.
    eexists _, _, _. split; [reflexivity|]. destruct C2 as [[-> D2]|[[err ->] D2]]; (split; [|split]).
    + auto.
    + left. split; [reflexivity|]. split; [exact D2|]. rewrite Em. destruct erase; [|reflexivity]. apply foldl_delete_all. intros. apply elem_of_map_to_list. assumption.
    + intros Hf. destruct (F Hf) as [_ H1]. auto.
    + rewrite D2. destruct P1; auto.
    + right. eauto.
    + intros Hf. destruct (F Hf) as [_ H1]. destruct (F2 H1). discriminate.
  - eexists _, _, _. split; [reflexivity|]. split; [destruct P1; auto|]. split; [right; eauto|]. intros Hf. destruct (F Hf) as [[? ?] _]. discriminate.
Qed.

(** ** A base for the caches *)

Definition all_unspent (u : gmap COutPoint Coin) : Prop := map_Forall (fun _ c => IsSpent c = false) u.

Lemma apply_batch_unspent m u : all_unspent u -> all_unspent (apply_batch m u).
Proof using.
  intros Hu op c. rewrite lookup_apply_batch. destruct (m !! op) as [e|]; [|apply Hu]. destruct (has_flag e DIRTY); [|apply Hu].
  unfold live. destruct (IsSpent (coin e)) eqn:Es; intros [= <-]. exact Es.
Qed.

(** Unless a crash is simulated, what [BatchWrite] throws is LevelDB's error. *)
Definition db_error : failure := Thrown "Fatal LevelDB error".

Lemma write_loop_error erase l : forall b d m err s, simulate_crash_ratio (m_options d) = 0 ->
  write_loop erase l b (d, m) = (Fail err, s) -> err = db_error.
Proof using.
  induction l as [|[op e] l IH]; intros b d m err s Hr; [discriminate|]. rewrite write_loop_cons. cbv zeta.
  destruct (_ >? _); [|apply IH; exact Hr]. unfold spill, mbind, stm_bind, on_db, WriteBatch, simulate_crash.
  destruct (default false (head (write_errors d))); [intros [= <- _]; reflexivity|]. cbn [m_options]. rewrite Hr, Z.eqb_refl. apply IH. exact Hr.
Qed.

Lemma DB_BatchWrite_error h erase d m err s : simulate_crash_ratio (m_options d) = 0 -> h <> 0 -> heading (disk d) h ->
  DB_BatchWrite h erase (d, m) = (Fail err, s) -> err = db_error.
Proof using.
  intros Hr Hh Hd. rewrite DB_BatchWrite_eq by assumption. cbv zeta. destruct (write_loop _ _ _ _) as [[b'|e] [d1 m1]] eqn:E.
  - unfold on_db, WriteBatch. destruct (default false _); [intros [= <- _]; reflexivity|discriminate].
  - intros [= <- _]. exact (write_loop_error _ _ _ _ _ _ _ Hr E).
Qed.

Lemma write_loop_options erase l : forall b d m r d' m', write_loop erase l b (d, m) = (r, (d', m')) -> m_options d' = m_options d.
Proof using.
  induction l as [|[op e] l IH]; intros b d m r d' m'; [intros [= _ <- _]; reflexivity|]. rewrite write_loop_cons. cbv zeta.
  destruct (_ >? _); [|apply IH]. destruct (spill_spec (batch_coin op e b) d (if erase then delete op m else m)) as (r1 & d1 & -> & O & _).
  destruct r1; [intros E; rewrite (IH _ _ _ _ _ _ E); exact O|intros [= _ <- _]; exact O].
Qed.

Lemma DB_BatchWrite_options h erase d m r d' m' : h <> 0 -> heading (disk d) h -> DB_BatchWrite h erase (d, m) = (r, (d', m')) -> m_options d' = m_options d.
Proof using.
  intros Hh Hd. rewrite DB_BatchWrite_eq by assumption. cbv zeta. destruct (write_loop _ _ _ _) as [[b'|e] [d1 m1]] eqn:E.
  - unfold on_db. destruct (WriteBatch_spec (batch_add (WriteBest h) (batch_add EraseHeads b')) d1) as (r1 & d2 & -> & O & _).
    intros [= _ <- _]. rewrite O. exact (write_loop_options _ _ _ _ _ _ _ _ E).
  - intros [= _ <- _]. exact (write_loop_options _ _ _ _ _ _ _ _ E).
Qed.

Lemma between_unspent U U' M : all_unspent U -> all_unspent U' -> between U U' M -> all_unspent M.
Proof using. intros H H' B op c E. destruct (B op) as [E1|E1]; rewrite E1 in E; [exact (H op c E)|exact (H' op c E)]. Qed.

(** Reading, in any state [d0] of the database, leaves it as it is. *)
Definition disk_abs (d0 : CCoinsViewDB) : ViewAbs CCoinsViewDB := {|
  coins := fun d => db_coins (disk d);
  best := fun d => default 0 (db_best (disk d));
  view_ok := fun d => d = d0 /\ all_unspent (db_coins (disk d0));
|}.

Lemma disk_reads d0 : @ViewReads HP CCoinsViewDB _ (disk_abs d0).
Proof using.
  split.
  - intros d op c [-> Hd] E. exact (Hd op c E).
  - intros d op [-> Hd]. exists d0. repeat split; auto.
  - intros d op [-> Hd]. exists d0. repeat split; auto.
  - intros d [-> Hd]. exists d0. repeat split; auto.
Qed.

(** A database that works and is not in a transition. *)
#[global] Instance DB_abs : ViewAbs CCoinsViewDB := {|
  coins := fun d => db_coins (disk d);
  best := fun d => default 0 (db_best (disk d));
  view_ok := fun d => all_unspent (db_coins (disk d)) /\ db_heads (disk d) = None /\ faultless d;
|}.

#[global] Instance DB_laws : ViewLaws CCoinsViewDB.
Proof using.
  split; [split|].
  - intros d op c (Hd & _) E. exact (Hd op c E).
  - intros d op Hd. exists d. split; [reflexivity|apply same_view_refl, Hd].
  - intros d op Hd. exists d. split; [reflexivity|apply same_view_refl, Hd].
  - intros d Hd. exists d. split; [reflexivity|apply same_view_refl, Hd].
  - intros d m h erase (Hd & Hn & Hf) Hh _. destruct (DB_BatchWrite_spec h erase d m Hh) as (r & d' & m' & E & _ & C & F).
    { intros _ new old E. rewrite Hn in E. discriminate. }
    destruct (F Hf) as [-> Hf']. destruct C as [(_ & Ed & ->)|[err ?]]; [|discriminate]. exists d'. split; [exact E|].
    cbn. rewrite Ed. cbn. split; [reflexivity|]. split; [reflexivity|]. split; [apply apply_batch_unspent, Hd|]. auto.
Qed.

(** [Flush] of a cache on the database, whatever fails. *)
Lemma Flush_DB_spec (d : CCoinsViewDB) (c : CCoinsViewCache CCoinsViewDB) :
  @view_ok _ (@cache_abs HP _ (disk_abs d)) c -> hashBlock c <> 0 -> heading (disk d) (hashBlock c) ->
  let U := db_coins (disk d) in let U' := overlay (cacheCoins c) U in
  exists r c', Flush c = (r, c') /\
    (disk (base c') = disk d \/ (exists M, disk (base c') = torn (hashBlock c) (old_tip_of (disk d)) M /\ between U U' M) \/ disk (base c') = settled (hashBlock c) U') /\
    (r = Ok true /\ disk (base c') = settled (hashBlock c) U' \/ exists err, r = Fail err) /\
    (faultless d -> r = Ok true /\ faultless (base c')).
Proof using.
  intros ([Eb Hu] & Hm & _) Hh Hd U U'. cbn [coins disk_abs] in Hm. rewrite Eb in Hm. destruct (apply_batch_overlay _ _ Hm) as [Ea _].
  destruct (DB_BatchWrite_spec (hashBlock c) true d (cacheCoins c) Hh Hd) as (r & d' & m' & E & D & C & F). fold U in Ea, D, C. rewrite Ea in D, C. fold U' in D, C.
  unfold Flush, mbind, stm_bind, base_BatchWrite. cbn [view_BatchWrite DB_view]. rewrite Eb, E. destruct C as [(-> & Ed & ->)|[err ->]].
  - unfold get_st, ReallocateCache, modify_st, mbind, stm_bind, lift_st, get_st. cbn [cacheCoins set_entries set_base]. rewrite bool_decide_eq_true_2 by reflexivity. cbn.
    eexists _, _. split; [reflexivity|]. cbn [base]. split; [exact D|]. split; [left; auto|]. exact F.
  - eexists _, _. split; [reflexivity|]. cbn [base set_entries set_base]. split; [exact D|]. split; [right; eauto|]. intros Hf. destruct (F Hf). discriminate.
Qed.
End Batches.

(** * Blocks put on and taken off any set of coins

    [DisconnectBlock] and [RollforwardBlock] (src/validation.cpp) on coins that
    need not be those of the block's chain, as after an interrupted write: each
    is a function of the coins that overwrites some of them and leaves the
    others ([steady]).  A steady move from one set of coins to another leads
    from every mixture of the two to the same place, which is why replaying
    repairs an interrupted write. *)

Notation coin_set := (gmap COutPoint Coin).

(** ** Steady moves *)

Definition steady (f : coin_set -> coin_set) : Prop :=
  forall op, (exists v, forall u, f u !! op = v) \/ (forall u, f u !! op = u !! op).

Lemma steady_id : steady (fun u => u).
Proof. intros op. right. reflexivity. Qed.

Lemma steady_compose f g : steady f -> steady g -> steady (fun u => g (f u)).
Proof.
  intros Hf Hg op. destruct (Hg op) as [[v Ev]|Eg]; [left; exists v; intros; apply Ev|].
  destruct (Hf op) as [[v Ev]|Ef]; [left; exists v; intros; rewrite Eg; apply Ev|right; intros; rewrite Eg; apply Ef].
Qed.

Lemma steady_insert op x : steady <[op := x]>.
Proof.
  intros k. destruct (decide (op = k)) as [->|Hne]; [left; exists (Some x); intros; apply lookup_insert_eq|right; intros; apply lookup_insert_ne, Hne].
Qed.

Lemma steady_delete op : steady (delete op).
Proof.
  intros k. destruct (decide (op = k)) as [->|Hne]; [left; exists None; intros; apply lookup_delete_eq|right; intros; apply lookup_delete_ne, Hne].
Qed.

Lemma steady_foldl {A} (f : A -> coin_set -> coin_set) l : (forall a, steady (f a)) -> steady (fun u => foldl (fun u a => f a u) u l).
Proof.
  intros Hf. induction l as [|a l IH]; [apply steady_id|]. cbn [foldl].
  apply (steady_compose (f a) (fun u => foldl (fun u a => f a u) u l)); auto.
Qed.

(** What a steady move does to the ends it does to every mixture of them. *)
Lemma steady_between f U U' M : steady f -> f U = U' -> between U U' M -> f M = U'.
Proof.
  intros Hf E B. apply map_eq. intros op. destruct (Hf op) as [[v Ev]|Ef]; [rewrite Ev, <- E, Ev; reflexivity|].
  rewrite Ef. assert (Eu : U' !! op = U !! op) by (rewrite <- E; apply Ef). destruct (B op) as [E1|E1]; congruence.
Qed.

Create HintDb steady.
#[export] Hint Resolve steady_id steady_insert steady_delete : steady.

Section Moves.
Context {HP : Primitives} {HPL : PrimitivesLaws}.

Fixpoint remove_outputs (txid i : Z) (outs : list CTxOut) (u : coin_set) : coin_set :=
  match outs with
  | [] => u
  | o :: rest => remove_outputs txid (i + 1) rest (if IsUnspendable (scriptPubKey o) then u else delete (txid, u32 i) u)
  end.

Definition take_tx (tx : CTransaction) (undo : option CTxUndo) (u : coin_set) : coin_set :=
  let u := remove_outputs (GetHash tx) 0 (vout tx) u in
  match undo with None => u | Some l => insert_all u (rev (zip (vin tx) l)) end.

Definition take_all (l : list (CTransaction * option CTxUndo)) (u : coin_set) : coin_set := foldl (fun u p => take_tx (fst p) (snd p) u) u l.

Lemma remove_outputs_steady txid i outs : steady (remove_outputs txid i outs).
Proof using.
  revert i. induction outs as [|o outs IH]; intros i; cbn [remove_outputs]; [apply steady_id|].
  apply (steady_compose (fun u => if IsUnspendable (scriptPubKey o) then u else delete (txid, u32 i) u) (remove_outputs txid (i + 1) outs)); [|apply IH].
  destruct (IsUnspendable _); auto with steady.
Qed.

Lemma insert_all_steady l : steady (fun u => insert_all u l).
Proof using. unfold insert_all. apply (steady_foldl (fun p u => <[prevout (fst p) := snd p]> u)). auto with steady. Qed.

Lemma spend_all_steady ins : steady (fun u => spend_all u ins).
Proof using. unfold spend_all. apply (steady_foldl (fun i u => delete (prevout i) u)). auto with steady. Qed.

Lemma add_outputs_steady txid height cb i outs : steady (add_outputs txid height cb i outs).
Proof using.
  revert i. induction outs as [|o outs IH]; intros i; cbn [add_outputs]; [apply steady_id|].
  apply (steady_compose (fun u => if IsUnspendable (scriptPubKey o) then u else <[(txid, i) := Coin_make o height cb]> u) (add_outputs txid height cb (i + 1) outs)); [|apply IH].
  destruct (IsUnspendable _); auto with steady.
Qed.

Lemma take_tx_steady tx undo : steady (take_tx tx undo).
Proof using.
  unfold take_tx. destruct undo as [l|]; [|apply remove_outputs_steady].
  apply (steady_compose (remove_outputs (GetHash tx) 0 (vout tx)) (fun u => insert_all u (rev (zip (vin tx) l)))); [apply remove_outputs_steady|apply insert_all_steady].
Qed.

Lemma take_all_steady l : steady (take_all l).
Proof using. unfold take_all. apply (steady_foldl (fun p u => take_tx (fst p) (snd p) u)). intros p. apply take_tx_steady. Qed.

Lemma connect_all_steady height txs : steady (connect_all height txs).
Proof using.
  induction txs as [|tx txs IH]; cbn [connect_all]; [apply steady_id|]. apply (steady_compose (connect_coins height tx) (connect_all height txs)); [|exact IH].
  unfold connect_coins. apply (steady_compose (fun u => if IsCoinBase tx then u else spend_all u (vin tx)) (add_outputs (GetHash tx) height (IsCoinBase tx) 0 (vout tx))); [|apply add_outputs_steady].
  destruct (IsCoinBase tx); [apply steady_id|apply spend_all_steady].
Qed.

(** ** Taking a block off *)

(** A coin that undo data can restore without looking at the other outputs. *)
Definition restorable (x : Coin) : Prop := Coins.nHeight x <> 0 /\ IsSpent x = false /\ IsUnspendable (scriptPubKey (out x)) = false.

Definition undo_fits (p : CTransaction * option CTxUndo) : Prop :=
  match snd p with None => True | Some l => length l = length (vin (fst p)) /\ Forall restorable l end.

Section Views.
Context {V : Type} {HV : CCoinsView V} {HA : ViewAbs V} {HR : ViewReads V} {HT : TxEnv}.
Notation cache := (CCoinsViewCache V).

Lemma unspend_outputs_any txid height cb ex outs i (c : cache) : view_ok c -> exists clean c',
  unspend_outputs txid height cb ex i outs c = (Ok clean, c') /\ view_ok c' /\ coins c' = remove_outputs txid i outs (coins c).
Proof using HPL HR.
  revert i c. induction outs as [|o outs IH]; intros i c Hok; cbn [unspend_outputs remove_outputs]; [exists true, c; auto|].
  unfold mbind, stm_bind. destruct (IsUnspendable (scriptPubKey o)); cbn [negb].
  { destruct (IH (i + 1) c Hok) as (f & c' & E & O & C). unfold mret, stm_ret. rewrite E. eauto. }
  destruct (SpendCoin_spec c (txid, u32 i) Hok) as (b & mv & c1 & E1 & O1 & _ & C1 & _). rewrite E1.
  destruct (IH (i + 1) c1 O1) as (f & c' & E & O & C). rewrite C1 in C. unfold mret, stm_ret.
  match goal with |- context [if ?x then _ else _] => destruct x end; rewrite E; eauto.
Qed.

Lemma ApplyTxInUndo_any txout_size (c : cache) op x : view_ok c -> restorable x -> exists r c',
  ApplyTxInUndo txout_size x op c = (Ok r, c') /\ r <> DISCONNECT_FAILED /\ view_ok c' /\ coins c' = <[op := x]> (coins c).
Proof using HPL HR.
  intros Hok (Hh & Hs & Hu). unfold ApplyTxInUndo, mbind, stm_bind.
  destruct (HaveCoin_spec c op Hok) as (c1 & E1 & C1 & B1 & O1). rewrite E1.
  destruct (Z.eqb_spec (Coins.nHeight x) 0); [contradiction|]. unfold mret, stm_ret. rewrite negb_involutive.
  destruct (AddCoin_spec c1 op x (bool_decide (is_Some (coins c !! op))) O1 Hs) as (c2 & E2 & O2 & B2 & C2).
  { rewrite C1. destruct (coins c !! op); [left; reflexivity|right; reflexivity]. }
  rewrite E2. rewrite Hu, C1 in C2. eexists _, c2. split; [reflexivity|]. split; [destruct (negb _); discriminate|auto].
Qed.

Lemma restore_inputs_any txout_size l f (c : cache) : view_ok c -> Forall (fun p => restorable (snd p)) l -> exists f' c',
  restore_inputs txout_size l f c = (Ok (Some f'), c') /\ view_ok c' /\ coins c' = insert_all (coins c) l.
Proof using HPL HR.
  revert f c. induction l as [|[i x] l IH]; intros f c Hok Hl; cbn [restore_inputs]; [exists f, c; auto|].
  apply Forall_cons in Hl as [Hx Hl]. destruct (ApplyTxInUndo_any txout_size c (prevout i) x Hok Hx) as (r & c1 & E1 & Hr & O1 & C1).
  unfold mbind, stm_bind. rewrite E1, (bool_decide_eq_false_2 _ Hr).
  destruct (IH (f && negb (bool_decide (r = DISCONNECT_UNCLEAN)))%bool c1 O1 Hl) as (f' & c2 & E2 & O2 & C2). rewrite E2. exists f', c2. rewrite C2, C1. auto.
Qed.

Lemma disconnect_tx_any txout_size height bip30 tx undo f (c : cache) : view_ok c -> undo_fits (tx, undo) -> exists f' c',
  disconnect_tx txout_size height bip30 tx undo f c = (Ok (Some f'), c') /\ view_ok c' /\ coins c' = take_tx tx undo (coins c).
Proof using HPL HR.
  intros Hok Hu. unfold disconnect_tx, take_tx, mbind, stm_bind.
  destruct (unspend_outputs_any (GetHash tx) height (IsCoinBase tx) (IsCoinBase tx && negb bip30) (vout tx) 0 c Hok) as (f1 & c1 & E1 & O1 & C1).
  rewrite E1. destruct undo as [l|]; [|eexists _, c1; split; [reflexivity|auto]].
  destruct Hu as [Hl Hf]. cbn [fst snd] in *. rewrite Hl, Nat.eqb_refl. cbn [negb].
  destruct (restore_inputs_any txout_size (rev (zip (vin tx) l)) (f && f1) c1 O1) as (f' & c2 & E2 & O2 & C2).
  { apply Forall_forall. intros [i x] Hix. apply list_elem_of_In, in_rev, list_elem_of_In in Hix. rewrite Forall_forall in Hf. apply Hf. eapply elem_of_zip_r, Hix. }
  exists f', c2. rewrite E2, C2, C1. auto.
Qed.

Lemma disconnect_loop_any txout_size height bip30 l f (c : cache) : view_ok c -> Forall undo_fits l -> exists f' c',
  disconnect_loop txout_size height bip30 l f c = (Ok (Some f'), c') /\ view_ok c' /\ coins c' = take_all l (coins c).
Proof using HPL HR.
  revert f c. induction l as [|[tx undo] l IH]; intros f c Hok Hl; cbn [disconnect_loop]; [exists f, c; auto|].
  apply Forall_cons in Hl as [Hx Hl]. destruct (disconnect_tx_any txout_size height bip30 tx undo f c Hok Hx) as (f1 & c1 & E1 & O1 & C1).
  unfold mbind, stm_bind. rewrite E1. destruct (IH f1 c1 O1 Hl) as (f' & c2 & E2 & O2 & C2). exists f', c2. rewrite E2, C2, C1. auto.
Qed.

(** ** Putting a block on *)

Lemma roll_inputs_any ins (c : cache) : view_ok c -> exists c',
  roll_inputs ins c = (Ok tt, c') /\ view_ok c' /\ coins c' = spend_all (coins c) ins.
Proof using HPL HR.
  revert c. induction ins as [|i ins IH]; intros c Hok; cbn [roll_inputs]; [exists c; auto|]. unfold mbind, stm_bind.
  destruct (SpendCoin_spec c (prevout i) Hok) as (b & mv & c1 & E1 & O1 & _ & C1 & _). rewrite E1.
  destruct (IH c1 O1) as (c2 & E2 & O2 & C2). exists c2. rewrite E2, C2, C1. auto.
Qed.

Definition outputs_fit (tx : CTransaction) : Prop := Z.of_nat (length (vout tx)) < 2 ^ 32 /\ Forall (fun o => 0 <= nValue o) (vout tx).

Lemma roll_loop_any height txs (c : cache) : view_ok c -> Forall outputs_fit txs -> exists c',
  roll_loop height txs c = (Ok tt, c') /\ view_ok c' /\ coins c' = connect_all height txs (coins c).
Proof using HPL HR.
  revert c. induction txs as [|tx txs IH]; intros c Hok Hf; cbn [roll_loop connect_all]; [exists c; auto|].
  apply Forall_cons in Hf as [[Hlen Hn] Hf]. unfold mbind, stm_bind.
  assert (G : exists c1, (if negb (IsCoinBase tx) then roll_inputs (vin tx) else mret tt) c = (Ok tt, c1) /\ view_ok c1 /\
    coins c1 = if IsCoinBase tx then coins c else spend_all (coins c) (vin tx)).
  { destruct (IsCoinBase tx); cbn [negb]; [exists c; auto|]. apply roll_inputs_any, Hok. }
  destruct G as (c1 & E1 & O1 & C1). rewrite E1. unfold AddCoins.
  destruct (AddCoins_loop_spec (GetHash tx) height (IsCoinBase tx) true (vout tx) 0 c1 O1) as (c2 & E2 & O2 & _ & C2); [lia|lia| |auto|].
  { eapply Forall_impl; [exact Hn|]. apply not_null. }
  rewrite E2. destruct (IH c2 O2 Hf) as (c3 & E3 & O3 & C3). exists c3. rewrite E3, C3, C2, C1. auto.
Qed.
End Views.

(** ** The undo data of a connected block *)

Lemma fits_outputs height txs u : fits_all height txs u -> Forall outputs_fit txs.
Proof using.
  revert u. induction txs as [|tx txs IH]; intros u Hf; [constructor|]. destruct Hf as [(Hl & Hn & _) Hf]. constructor; [split; assumption|]. eapply IH, Hf.
Qed.

Lemma kept_undos_fit height txs u : in_u 31 height -> 1 <= height -> coins_ok height u -> fits_all height txs u -> Forall undo_fits (kept_undos height txs u).
Proof using HPL.
  intros Hh H1. revert u. induction txs as [|tx txs IH]; intros u Hu Hf; cbn [kept_undos]; [constructor|]. destruct Hf as [Htx Hf].
  constructor; [|apply IH; [apply connect_coins_ok; auto|exact Hf]]. unfold undo_fits, kept_undo. cbn [fst snd]. destruct (IsCoinBase tx) eqn:Ecb; [exact I|].
  destruct Htx as (_ & _ & _ & Hin). destruct (Hin Ecb) as [_ Hp]. unfold undo_of. rewrite Ecb. split; [apply spent_length, Hp|].
  eapply coins_ok_restorable; eauto.
Qed.

(** Taking off what was put on gives the coins before. *)
Lemma take_connect {HT : TxEnv} height txs u : in_u 31 height -> 1 <= height -> coins_ok height u -> fits_all height txs u ->
  take_all (rev (kept_undos height txs u)) (connect_all height txs u) = u.
Proof using HPL.
  intros Hh H1 Hu Hf. pose (v := (connect_all height txs u, 0) : plain). pose proof (connect_all_ok height txs u Hh H1 Hf Hu) as Hc.
  assert (Hv : view_ok v) by (intros op x Ex; destruct (Hc op x Ex) as (_ & Hn & _); apply not_null, Hn).
  assert (Hk : view_ok (new_cache v)) by (split; [exact Hv|]; split; [apply map_Forall_empty|reflexivity]).
  assert (Ec : coins (new_cache v) = connect_all height txs u) by (apply map_eq; intros op; change (overlay ∅ (fst v) !! op = fst v !! op); rewrite lookup_overlay, lookup_empty; reflexivity).
  destruct (disconnect_loop_spec 8 height true txs true u (new_cache v) Hk Hh H1 Hu Hf Ec) as (c1 & E1 & _ & C1).
  destruct (disconnect_loop_any 8 height true (rev (kept_undos height txs u)) true (new_cache v) Hk) as (f' & c2 & E2 & _ & C2).
  { apply Forall_rev, kept_undos_fit; assumption. }
  rewrite E1 in E2. injection E2 as _ <-. rewrite Ec in C2. congruence.
Qed.
End Moves.

(** * An interrupted write is repaired

    [ReplayBlocks] (src/validation.cpp) on a coins database that was moving
    from one chain to another when the process ended, at whichever write:
    the coins end up exactly as replaying the new chain gives them, and a
    crash while repairing leaves a database that can be repaired again. *)

(** ** Along a chain *)

Section Chains.
Context (h : heap) (Hwf : tree_wf h).

Lemma chain_block_at c t i p : chain_to h c t -> c !! i = Some (Some p) -> exists b, h !! p = Some b /\ Chain.nHeight b = Z.of_nat i.
Proof using Hwf.
  intros (bt & Ht & Hl & Hc) Hi. pose proof (lookup_lt_Some _ _ _ Hi) as Hlt. destruct (tree_ok h Hwf t bt Ht) as [Hh _ _ _ _].
  rewrite Hc in Hi by exact Hlt. injection Hi as Hup. destruct (up_in h Hwf _ _ _ _ Ht Hup) as [[b Hb] _]. exists b. split; [exact Hb|].
  rewrite (up_height h Hwf _ _ _ _ _ Ht Hup Hb). lia.
Qed.

Lemma chain_prev c t i p b : chain_to h c t -> c !! Datatypes.S i = Some (Some p) -> h !! p = Some b ->
  exists q, pprev b = Some q /\ c !! i = Some (Some q).
Proof using Hwf.
  intros Hto Hi Hb. destruct (chain_block_at _ _ _ _ Hto Hi) as (b' & Hb' & EH). assert (b' = b) as -> by congruence.
  destruct Hto as (bt & Ht & Hl & Hc). pose proof (lookup_lt_Some _ _ _ Hi) as Hlt. destruct (tree_ok h Hwf t bt Ht) as [Hh _ _ _ _].
  rewrite Hc in Hi by exact Hlt. injection Hi as Hup. destruct (pprev b) as [q|] eqn:Eq.
  - exists q. split; [reflexivity|]. rewrite Hc by lia. replace (Z.to_nat (Chain.nHeight bt) - i)%nat with ((Z.to_nat (Chain.nHeight bt) - Datatypes.S i) + 1)%nat by lia.
    rewrite up_add, Hup. cbn. rewrite Hb. cbn. rewrite Eq. reflexivity.
  - pose proof (ok_root _ _ _ (tree_ok h Hwf p b Hb) Eq). lia.
Qed.

Lemma chain_ancestor c t bt i p : chain_to h c t -> h !! t = Some bt -> c !! i = Some (Some p) -> GetAncestor h t (Z.of_nat i) = Ok (Some p).
Proof using Hwf.
  intros (bt' & Ht & Hl & Hc) Ht' Hi. assert (bt' = bt) as -> by congruence. pose proof (lookup_lt_Some _ _ _ Hi). destruct (tree_ok h Hwf t bt Ht) as [Hh _ _ _ _].
  rewrite (GetAncestor_up h Hwf t bt _ Ht), decide_True by lia. rewrite Hc in Hi by lia. injection Hi as <-. do 2 f_equal. lia.
Qed.

(** Two chains with the same start share everything up to their last common ancestor. *)
Lemma chains_fork c1 t1 c2 t2 g : chain_to h c1 t1 -> chain_to h c2 t2 -> c1 !! 0%nat = Some (Some g) -> c2 !! 0%nat = Some (Some g) ->
  exists f k, LastCommonAncestor h t1 t2 = Ok (Some f) /\ c1 !! k = Some (Some f) /\ c2 !! k = Some (Some f) /\ (forall i, (i <= k)%nat -> c1 !! i = c2 !! i).
Proof using Hwf.
  intros H1 H2 G1 G2. pose proof H1 as (b1 & Hb1 & L1 & C1). pose proof H2 as (b2 & Hb2 & L2 & C2).
  destruct (LastCommonAncestor_spec h Hwf t1 b1 t2 b2 Hb1 Hb2) as (r & E & Hr).
  assert (A1 : ancestor h g t1) by (rewrite C1 in G1 by (apply lookup_lt_Some in G1; lia); injection G1 as G1; eexists; exact G1).
  assert (A2 : ancestor h g t2) by (rewrite C2 in G2 by (apply lookup_lt_Some in G2; lia); injection G2 as G2; eexists; exact G2).
  destruct r as [f|]; [|destruct (Hr g A1 A2)]. destruct Hr as (F1 & F2 & _).
  destruct F1 as [n1 U1]. destruct F2 as [n2 U2]. destruct (up_in h Hwf _ _ _ _ Hb1 U1) as [[bf Hf] N1]. destruct (up_in h Hwf _ _ _ _ Hb2 U2) as [_ N2].
  pose proof (up_height h Hwf _ _ _ _ _ Hb1 U1 Hf) as E1. pose proof (up_height h Hwf _ _ _ _ _ Hb2 U2 Hf) as E2.
  destruct (tree_ok h Hwf f bf Hf) as [Hhf _ _ _ _]. set (k := Z.to_nat (Chain.nHeight bf)).
  assert (K1 : forall i, (i <= k)%nat -> c1 !! i = Some (up h (k - i) f)).
  { intros i Hi. rewrite C1 by lia. replace (Z.to_nat (Chain.nHeight b1) - i)%nat with (n1 + (k - i))%nat by lia. rewrite up_add, U1. reflexivity. }
  assert (K2 : forall i, (i <= k)%nat -> c2 !! i = Some (up h (k - i) f)).
  { intros i Hi. rewrite C2 by lia. replace (Z.to_nat (Chain.nHeight b2) - i)%nat with (n2 + (k - i))%nat by lia. rewrite up_add, U2. reflexivity. }
  exists f, k. split; [exact E|]. rewrite K1, K2, Nat.sub_diag by lia. split; [reflexivity|]. split; [reflexivity|]. intros i Hi. rewrite K1, K2 by exact Hi. reflexivity.
Qed.
End Chains.

Section Replaying.
Context {HP : Primitives} {HPL : PrimitivesLaws} {HT : TxEnv} {HB : BlockEnv} {HS : ScriptEnv} {HE : LockEnv} {HC : ConnectEnv}.
Context (txout_size : Z) (h : heap) (files : gmap ptr CBlock) (undos : gmap ptr CBlockUndo).
Context (Hwf : tree_wf h) (Hhash : map_Forall (fun _ b => exists x, phashBlock b = Some x /\ le_val 8 x <> 0) h).

(** ** The moves as functions of the coins *)

Definition off (c : CChain) (i : nat) (u : coin_set) : coin_set :=
  match c !! i with
  | Some (Some p) => match files !! p, undos !! p with
                     | Some block, Some l => take_all (rev (zip (vtx block) (None :: map Some l))) u
                     | _, _ => u
                     end
  | _ => u
  end.

Definition on (c : CChain) (i : nat) (u : coin_set) : coin_set :=
  match block_at files c i with Some block => connect_all (Z.of_nat i) (vtx block) u | None => u end.

(** The blocks at heights [k + m] down to [k + 1] come off; those at [k + 1] to [k + m] go on. *)
Fixpoint unwind (c : CChain) (k m : nat) (u : coin_set) : coin_set :=
  match m with O => u | Datatypes.S m' => unwind c k m' (off c (k + Datatypes.S m') u) end.
Fixpoint advance (c : CChain) (k m : nat) (u : coin_set) : coin_set :=
  match m with O => u | Datatypes.S m' => advance c (Datatypes.S k) m' (on c (Datatypes.S k) u) end.

Lemma unwind_steady c k m : steady (unwind c k m).
Proof using.
  induction m as [|m IH]; cbn [unwind]; [apply steady_id|]. apply (steady_compose (off c (k + Datatypes.S m)) (unwind c k m)); [|exact IH].
  unfold off. repeat case_match; try apply steady_id. apply take_all_steady.
Qed.

Lemma advance_steady c k m : steady (advance c k m).
Proof using.
  revert k. induction m as [|m IH]; intros k; cbn [advance]; [apply steady_id|].
  apply (steady_compose (on c (Datatypes.S k)) (advance c (Datatypes.S k) m)); [|apply IH].
  unfold on. case_match; [apply connect_all_steady|apply steady_id].
Qed.

Lemma advance_replay c k m : advance c k m (replay_upto files c k) = replay_upto files c (k + m).
Proof using.
  revert k. induction m as [|m IH]; intros k; cbn [advance]; [rewrite Nat.add_0_r; reflexivity|].
  rewrite Nat.add_succ_r, <- Nat.add_succ_l. rewrite <- IH. f_equal.
Qed.

(** A block of a chain that was built, below height 2^31. *)
Lemma laid_facts c i p b : built files undos c -> (1 <= i)%nat -> c !! i = Some (Some p) -> h !! p = Some b -> Chain.nHeight b = Z.of_nat i ->
  exists block, files !! p = Some block /\ fits_all (Z.of_nat i) (vtx block) (replay_upto files c (i - 1)) /\
    coins_ok (Z.of_nat i) (replay_upto files c (i - 1)) /\ in_u 31 (Z.of_nat i) /\
    exists l, undos !! p = Some l /\ (length l + 1 = length (vtx block))%nat /\
      zip (vtx block) (None :: map Some l) = kept_undos (Z.of_nat i) (vtx block) (replay_upto files c (i - 1)).
Proof using Hwf.
  intros Hb H1 Hi Hp EH. destruct (tree_ok h Hwf p b Hp) as [Hh _ _ _ _]. pose proof (lookup_lt_Some _ _ _ Hi).
  destruct (Hb i p H1 Hi) as (block & cb & rest & Hf & Ev & Hcb & Hrest & Hfit & Hun). exists block. split; [exact Hf|]. split; [exact Hfit|].
  split; [apply (coins_ok_le (Z.of_nat (i - 1))); [lia|]; apply (replay_coins_ok files undos c (i - 1) Hb); lia|]. split; [unfold in_u; lia|].
  eexists. split; [exact Hun|]. rewrite Ev. cbn [undos_of tail kept_undos]. rewrite undos_of_length, Nat.add_1_r. split; [reflexivity|].
  rewrite kept_undos_zip by exact Hrest. unfold kept_undo. rewrite Hcb. reflexivity.
Qed.

Lemma off_replay c t i : built files undos c -> chain_to h c t -> (Datatypes.S i < length c)%nat -> off c (Datatypes.S i) (replay_upto files c (Datatypes.S i)) = replay_upto files c i.
Proof using HPL Hwf HT.
  intros Hb Hto Hi. destruct (lookup_lt_is_Some_2 c _ Hi) as [[p|] Hp].
  - destruct (chain_block_at h Hwf _ _ _ _ Hto Hp) as (b & Hbp & EH). destruct (laid_facts c (Datatypes.S i) p b Hb ltac:(lia) Hp Hbp EH) as (block & Hf & Hfit & Hok & Hin & l & Hl & _ & Ez).
    unfold off. rewrite Hp, Hf, Hl, Ez. cbn [replay_upto]. unfold block_at. rewrite Hp, Hf. replace (Datatypes.S i - 1)%nat with i in * by lia.
    apply take_connect; auto. lia.
  - exfalso. destruct Hto as (bt & Ht & Hl & Hc). rewrite Hc in Hp by exact Hi. injection Hp as Hp. destruct (tree_ok h Hwf t bt Ht) as [Hh _ _ _ _].
    destruct (up_total h Hwf (Z.to_nat (Chain.nHeight bt) - Datatypes.S i) t bt Ht ltac:(lia)) as (q & _ & Eq & _). congruence.
Qed.

Lemma unwind_replay c t k m : built files undos c -> chain_to h c t -> (k + m < length c)%nat -> unwind c k m (replay_upto files c (k + m)) = replay_upto files c k.
Proof using HPL Hwf HT.
  intros Hb Hto. induction m as [|m IH]; intros Hlt; cbn [unwind]; [rewrite Nat.add_0_r; reflexivity|].
  rewrite Nat.add_succ_r, (off_replay c t (k + m) Hb Hto) by lia. apply IH. lia.
Qed.

(** ** The loops *)

Section Views.
Context {V : Type} {HV : CCoinsView V} {HA : ViewAbs V} {HR : ViewReads V}.
Notation cache := (CCoinsViewCache V).

Lemma DisconnectBlock_any c t i p b (v : cache) : built files undos c -> chain_to h c t -> c !! Datatypes.S i = Some (Some p) -> h !! p = Some b -> view_ok v ->
  exists block r v', files !! p = Some block /\ DisconnectBlock txout_size h p (vtx block) (undos !! p) v = (Ok r, v') /\ r <> DISCONNECT_FAILED /\
    view_ok v' /\ coins v' = off c (Datatypes.S i) (coins v).
Proof using HPL HR Hwf Hhash.
  intros Hb Hto Hi Hp Hok. destruct (chain_block_at h Hwf _ _ _ _ Hto Hi) as (b' & Hb' & EH). assert (b' = b) as -> by congruence.
  destruct (laid_facts c (Datatypes.S i) p b Hb ltac:(lia) Hi Hp EH) as (block & Hf & Hfit & Hco & Hin & l & Hl & Hlen & Ez). exists block.
  destruct (chain_prev h Hwf _ _ _ _ b Hto Hi Hp) as (q & Eq & Hq). destruct (chain_block_at h Hwf _ _ _ _ Hto Hq) as (bq & Hbq & _).
  destruct (Hhash p b Hp) as (x & Ex & _). destruct (Hhash q bq Hbq) as (xq & Exq & _).
  assert (Hx : GetBlockHash b = Ok x) by (unfold GetBlockHash; rewrite Ex; reflexivity). destruct (bip30_tests_total b x Hx) as [_ [un Eun]].
  unfold DisconnectBlock, off. rewrite Hi, Hf, Hl, Hlen, Nat.eqb_refl. cbn [negb]. unfold mbind, stm_bind, lift_st. rewrite (deref_ok h p b Hp), Eun, Ez.
  destruct (disconnect_loop_any txout_size (Chain.nHeight b) (negb un) (rev (kept_undos (Z.of_nat (Datatypes.S i)) (vtx block) (replay_upto files c (Datatypes.S i - 1)))) true v Hok) as (f & v1 & E1 & O1 & C1).
  { apply Forall_rev, kept_undos_fit; auto. lia. }
  rewrite E1, Eq. cbn [access]. rewrite (deref_ok h q bq Hbq). unfold GetBlockHash. rewrite Exq. unfold SetBestBlock, modify_st, mret, stm_ret.
  eexists _, _. split; [reflexivity|]. split; [reflexivity|]. split; [destruct f; discriminate|]. split; [exact O1|exact C1].
Qed.

Lemma rollback_loop_spec c t k m fuel p f (v : cache) : built files undos c -> chain_to h c t -> c !! (k + m)%nat = Some (Some p) -> c !! k = Some (Some f) ->
  (m <= fuel)%nat -> view_ok v -> exists v', rollback_loop txout_size h files undos fuel (Some p) (Some f) v = (Ok true, v') /\ view_ok v' /\ coins v' = unwind c k m (coins v).
Proof using HPL HR Hwf Hhash.
  intros Hb Hto. revert p fuel v. induction m as [|m IH]; intros p fuel v Hp Hf Hfuel Hok; cbn [unwind].
  { rewrite Nat.add_0_r, Hf in Hp. injection Hp as <-. exists v. destruct fuel; cbn [rollback_loop]; rewrite bool_decide_eq_true_2 by reflexivity; auto. }
  destruct fuel as [|fuel]; [lia|]. cbn [rollback_loop]. rewrite Nat.add_succ_r in *.
  destruct (chain_block_at h Hwf _ _ _ _ Hto Hp) as (b & Hbp & EH). destruct (chain_block_at h Hwf _ _ _ _ Hto Hf) as (bf & Hbf & EHf).
  rewrite bool_decide_eq_false_2 by (intros [= ->]; assert (bf = b) as -> by congruence; lia).
  unfold mbind, stm_bind, lift_st. cbn [access]. rewrite (deref_ok h p b Hbp). destruct (Z.gtb_spec (Chain.nHeight b) 0); [|lia].
  destruct (DisconnectBlock_any c t _ p b v Hb Hto Hp Hbp Hok) as (block & r & v1 & Hfile & E1 & Hr & O1 & C1). rewrite Hfile, E1. unfold mret, stm_ret.
  rewrite (bool_decide_eq_false_2 _ Hr). cbn [negb]. destruct (chain_prev h Hwf _ _ _ _ b Hto Hp Hbp) as (q & -> & Hq).
  destruct (IH q fuel v1 Hq Hf ltac:(lia) O1) as (v2 & E2 & O2 & C2). exists v2. rewrite E2, C2, C1. auto.
Qed.

Lemma rollforward_loop_spec c t k m (v : cache) : built files undos c -> chain_to h c t -> (k + m < length c)%nat -> view_ok v ->
  exists v', rollforward_loop h files m (Z.of_nat k + 1) t v = (Ok true, v') /\ view_ok v' /\ coins v' = advance c k m (coins v).
Proof using HPL HR Hwf.
  intros Hb Hto. pose proof Hto as (bt & Ht & Hlen & Hc). destruct (tree_ok h Hwf t bt Ht) as [Hht _ _ _ _].
  revert k v. induction m as [|m IH]; intros k v Hlt Hok; cbn [rollforward_loop advance]; [exists v; auto|].
  assert (Hp : exists p, c !! Datatypes.S k = Some (Some p)).
  { rewrite Hc by lia. destruct (up_total h Hwf (Z.to_nat (Chain.nHeight bt) - Datatypes.S k) t bt Ht ltac:(lia)) as (q & _ & -> & _). eauto. }
  destruct Hp as [p Hp]. destruct (chain_block_at h Hwf _ _ _ _ Hto Hp) as (b & Hbp & EH).
  destruct (laid_facts c (Datatypes.S k) p b Hb ltac:(lia) Hp Hbp EH) as (block & Hf & Hfit & _). unfold mbind, stm_bind, lift_st.
  replace (Z.of_nat k + 1) with (Z.of_nat (Datatypes.S k)) by lia. rewrite (chain_ancestor h Hwf c t bt _ p Hto Ht Hp), Hf. cbn [fmap option_fmap option_map].
  unfold RollforwardBlock, mbind, stm_bind, lift_st. rewrite (deref_ok h p b Hbp).
  destruct (roll_loop_any (Chain.nHeight b) (vtx block) v Hok (fits_outputs _ _ _ Hfit)) as (v1 & E1 & O1 & C1). rewrite E1. unfold mret, stm_ret. cbn [negb].
  destruct (IH (Datatypes.S k) v1 ltac:(lia) O1) as (v2 & E2 & O2 & C2). exists v2. rewrite E2. split; [reflexivity|]. split; [exact O2|].
  rewrite C2, C1, EH. unfold on, block_at. rewrite Hp, Hf. reflexivity.
Qed.
End Views.

(** ** Two chains, and a database between them *)

(** A chain whose blocks were connected, with the hash of its tip (0 for none). *)
Definition branch (c : CChain) (z : Z) : Prop := built files undos c /\
  (c = [] /\ z = 0 \/ exists t b x, chain_to h c t /\ h !! t = Some b /\ phashBlock b = Some x /\ z = le_val 8 x).

Context (find_block : Z -> option ptr).
Context (Hfind : forall p b x, h !! p = Some b -> phashBlock b = Some x -> find_block (le_val 8 x) = Some p).

Lemma replay_unspent c z : branch c z -> all_unspent (replay files c).
Proof using HPL Hwf.
  intros [Hb [[-> _]|(t & b & x & Hto & Ht & _)]]; [apply map_Forall_empty|]. destruct (tree_ok h Hwf t b Ht) as [Hh _ _ _ _].
  pose proof (chain_to_length h Hwf _ _ b Hto Ht). intros op y Ey.
  destruct (replay_coins_ok files undos c (length c - 1) Hb ltac:(lia) ltac:(lia) op y Ey) as (_ & Hn & _). apply not_null, Hn.
Qed.

(** The new chain [cn] with tip [tn], the old one [co]; both start at the same block. *)
Context (co cn : CChain) (zo zn : Z) (tn : ptr) (bn : CBlockIndex) (xn : uint256).
Context (Hco : branch co zo) (Hcn : built files undos cn) (Htn : chain_to h cn tn) (Hbn : h !! tn = Some bn) (Hxn : phashBlock bn = Some xn) (Ezn : zn = le_val 8 xn).
Context (Hstart : co <> [] -> co !! 0%nat = cn !! 0%nat).

Let Uo := replay files co.
Let Un := replay files cn.

Lemma new_branch : branch cn zn.
Proof using Hcn Htn Hbn Hxn Ezn. split; [exact Hcn|]. right. eauto 10. Qed.

Lemma new_tip_nonzero : zn <> 0.
Proof using Hhash Hbn Hxn Ezn. destruct (Hhash tn bn Hbn) as (x & Ex & Hx). congruence. Qed.

(** What a disk in the middle of the transition may become. *)
Definition repaired (d : CCoinsViewDB) (r : res bool) (d' : CCoinsViewDB) : Prop :=
  ((exists M, disk d' = torn zn zo M /\ between Uo Un M) \/ disk d' = settled zn Un) /\
  (r = Ok true /\ disk d' = settled zn Un \/ exists err, r = Fail err) /\ (faultless d -> r = Ok true /\ faultless d').

Lemma between_trans M M' : between Uo Un M -> between M Un M' -> between Uo Un M'.
Proof using. intros B B' op. destruct (B' op) as [->|E]; [apply B|right; exact E]. Qed.

(** The end of the replay: the cache holds the new coins and is flushed. *)
Lemma replay_end (d : CCoinsViewDB) M (v : CCoinsViewCache CCoinsViewDB) : disk d = torn zn zo M -> between Uo Un M ->
  @view_ok _ (@cache_abs HP _ (disk_abs d)) v -> overlay (cacheCoins v) M = Un -> exists r v',
  (_ ← SetBestBlock zn; _ ← Flush; mret true) v = (r, v') /\ repaired d r (base v').
Proof using Hhash Hbn Hxn Ezn.
  intros Ed HM Hv Ev. unfold mbind, stm_bind, SetBestBlock, modify_st.
  destruct (Flush_DB_spec d (set_hashBlock zn v) Hv new_tip_nonzero) as (r & v' & E & D & C & F).
  { intros _ new old Eh. rewrite Ed in Eh. cbn in *. congruence. }
  cbn [hashBlock set_hashBlock cacheCoins] in *. rewrite Ed in D, C. cbn [db_coins torn] in D, C. rewrite Ev in D, C.
  rewrite E. unfold old_tip_of in D. cbn in D.
  assert (D' : (exists M', disk (base v') = torn zn zo M' /\ between Uo Un M') \/ disk (base v') = settled zn Un).
  { destruct D as [D|[(M' & D & B)|D]]; [left; exists M; auto|left; exists M'; split; [exact D|eapply between_trans; eauto]|right; exact D]. }
  destruct C as [[-> C]|[err ->]]; eexists _, _; (split; [reflexivity|]); split; try exact D'.
  - split; [left; auto|]. intros Hf. destruct (F Hf). auto.
  - split; [right; eauto|]. intros Hf. destruct (F Hf). discriminate.
Qed.

(** Rolling forward from height [k] of the new chain, then the end. *)
Lemma replay_forward (d : CCoinsViewDB) (M : coin_set) (k : nat) (u : coin_set) (v : CCoinsViewCache CCoinsViewDB) : disk d = torn zn zo M -> between Uo Un M ->
  (k < length cn)%nat -> @view_ok _ (@cache_abs HP _ (disk_abs d)) v -> @coins _ (@cache_abs HP _ (disk_abs d)) v = u ->
  advance cn k (length cn - 1 - k) u = Un -> exists r v',
  (b ← lift_st (deref h tn);
   ok ← rollforward_loop h files (Z.to_nat (Chain.nHeight b - Z.of_nat k)) (Z.of_nat k + 1) tn;
   if negb ok then mret false else hash ← lift_st (GetBlockHash b); _ ← SetBestBlock (le_val 8 hash); _ ← Flush; mret true) v = (r, v') /\ repaired d r (base v').
Proof using HPL Hwf Hhash Hcn Htn Hbn Hxn Ezn.
  intros Ed HM Hk Hv Ec Ea. pose proof (chain_to_length h Hwf _ _ bn Htn Hbn) as El. unfold mbind at 1, stm_bind at 1, lift_st at 1. rewrite (deref_ok h tn bn Hbn).
  replace (Z.to_nat (Chain.nHeight bn - Z.of_nat k)) with (length cn - 1 - k)%nat by lia.
  destruct (@rollforward_loop_spec CCoinsViewDB _ (disk_abs d) (disk_reads d) cn tn k (length cn - 1 - k) v Hcn Htn ltac:(lia) Hv) as (v1 & E1 & O1 & C1).
  unfold mbind at 1, stm_bind at 1. rewrite E1. cbn [negb]. unfold mbind at 1, stm_bind at 1, lift_st at 1. unfold GetBlockHash. rewrite Hxn, <- Ezn.
  apply (replay_end d M v1 Ed HM O1). rewrite Ec, Ea in C1. cbn in C1. pose proof (proj1 (proj1 O1)) as Eb. rewrite Eb, Ed in C1. exact C1.
Qed.

Lemma new_cache_disk (d : CCoinsViewDB) : all_unspent (db_coins (disk d)) ->
  @view_ok _ (@cache_abs HP _ (disk_abs d)) (new_cache d) /\ @coins _ (@cache_abs HP _ (disk_abs d)) (new_cache d) = db_coins (disk d).
Proof using.
  intros Hu. split; [split; [split; [reflexivity|exact Hu]|]; split; [apply map_Forall_empty|reflexivity]|].
  apply map_eq. intros op. change (overlay ∅ (db_coins (disk d)) !! op = db_coins (disk d) !! op). rewrite lookup_overlay, lookup_empty. reflexivity.
Qed.

(** [ReplayBlocks] on a disk in the middle of the transition. *)
Lemma ReplayBlocks_torn (d : CCoinsViewDB) (M : coin_set) : disk d = torn zn zo M -> between Uo Un M -> exists r d',
  ReplayBlocks txout_size h files undos find_block d = (r, d') /\ repaired d r d'.
Proof using HPL HT Hwf Hhash Hfind Hco Hcn Htn Hbn Hxn Ezn Hstart.
  intros Ed HM. assert (Hun : all_unspent M) by (eapply between_unspent; [eapply replay_unspent, Hco|eapply replay_unspent, new_branch|exact HM]).
  destruct (new_cache_disk d) as [Hv Ec]; [rewrite Ed; exact Hun|]. rewrite Ed in Ec. cbn [torn db_coins] in Ec.
  unfold ReplayBlocks. unfold mbind at 1, stm_bind at 1.
  change (GetHeadBlocks d) with (Ok (default [] (db_heads (disk d))), d). rewrite Ed. cbn [torn db_heads default from_option id]. assert (Fn : find_block zn = Some tn) by (rewrite Ezn; exact (Hfind tn bn xn Hbn Hxn)). rewrite Fn.
  pose proof (chain_to_length h Hwf _ _ bn Htn Hbn) as Eln. destruct (tree_ok h Hwf tn bn Hbn) as [Hhn _ _ _ _].
  destruct Hco as [Hbo [[Eco Ezo]|(to & bo & xo & Hto & Hbt & Exo & Ezo)]].
  - assert (Eo : Uo = ∅) by (unfold Uo; rewrite Eco; reflexivity). destruct (Z.eqb_spec zo 0) as [_|?]; [|contradiction]. unfold on_db_cache, replay_moves.
    unfold mbind at 1, stm_bind at 1, lift_st at 1. unfold mbind at 1, stm_bind at 1. cbn [rollback_loop]. rewrite bool_decide_eq_true_2 by reflexivity.
    unfold mret at 1, stm_ret at 1. cbn [negb]. unfold mbind at 1, stm_bind at 1, lift_st at 1.
    destruct (replay_forward d M 0 M (new_cache d) Ed HM ltac:(lia) Hv Ec) as (r & v' & E & R).
    { apply (steady_between _ Uo); [apply advance_steady| |exact HM]. rewrite Eo. rewrite (advance_replay cn 0). unfold Un, replay. f_equal. lia. }
    change (Z.of_nat 0) with 0 in E. rewrite E. eauto.
  - assert (Hzo : zo <> 0) by (destruct (Hhash to bo Hbt) as (x & Ex & Hx); congruence).
    destruct (Z.eqb_spec zo 0) as [?|_]; [contradiction|]. assert (Fo : find_block zo = Some to) by (rewrite Ezo; exact (Hfind to bo xo Hbt Exo)). rewrite Fo.
    pose proof (chain_to_length h Hwf _ _ bo Hto Hbt) as Elo. destruct (tree_ok h Hwf to bo Hbt) as [Hho _ _ _ _].
    assert (Hne : co <> []) by (intros E; rewrite E in Elo; cbn in Elo; lia).
    assert (Hg : exists g, cn !! 0%nat = Some (Some g)).
    { destruct Htn as (b' & Hb' & _ & Hc). rewrite Hc by lia. destruct (up_total h Hwf (Z.to_nat (Chain.nHeight b') - 0) tn b' Hb') as (q & _ & -> & _); [|eauto].
      assert (b' = bn) as -> by congruence. lia. }
    destruct Hg as [g Hg]. destruct (chains_fork h Hwf co to cn tn g Hto Htn) as (f & k & EL & Ko & Kn & Hsame); [rewrite Hstart by exact Hne; exact Hg|exact Hg|].
    unfold mbind at 1, stm_bind at 1, lift_st at 1. rewrite EL. unfold mbind at 1, stm_bind at 1, lift_st at 1. rewrite bool_decide_eq_true_2 by eauto. cbn [assert_].
    pose proof (lookup_lt_Some _ _ _ Ko) as Lo. pose proof (lookup_lt_Some _ _ _ Kn) as Ln. set (m := (length co - 1 - k)%nat).
    assert (Hlast : co !! (k + m)%nat = Some (Some to)).
    { destruct Hto as (b' & Hb' & _ & Hc). assert (b' = bo) as -> by congruence. rewrite Hc by lia. replace (Z.to_nat (Chain.nHeight bo) - (k + m))%nat with 0%nat by lia. reflexivity. }
    destruct (chain_block_at h Hwf _ _ _ _ Hto Ko) as (bf & Hbf & EHf).
    unfold on_db_cache, replay_moves. unfold mbind at 1, stm_bind at 1, lift_st at 1. rewrite (deref_ok h to bo Hbt). cbn [mbind res_bind].
    destruct (@rollback_loop_spec CCoinsViewDB _ (disk_abs d) (disk_reads d) co to k m (Z.to_nat (Chain.nHeight bo)) to f (new_cache d) Hbo Hto Hlast Ko ltac:(lia) Hv) as (v1 & E1 & O1 & C1).
    unfold mbind at 1, stm_bind at 1. rewrite E1. cbn [negb]. unfold mbind at 1, stm_bind at 1, lift_st at 1. rewrite (deref_ok h f bf Hbf). cbn [mbind res_bind]. rewrite EHf.
    rewrite Ec in C1. destruct (replay_forward d M k (unwind co k m M) v1 Ed HM Ln O1 C1) as (r & v' & E & R); [|rewrite E; eauto].
    apply (steady_between (fun u => advance cn k (length cn - 1 - k) (unwind co k m u)) Uo); [|  |exact HM].
    { apply (steady_compose (unwind co k m) (advance cn k (length cn - 1 - k))); [apply unwind_steady|apply advance_steady]. }
    unfold Uo, replay at 1. replace (length co - 1)%nat with (k + m)%nat by lia. rewrite (unwind_replay co to k m Hbo Hto) by lia.
    replace (replay_upto files co k) with (replay_upto files cn k); [rewrite advance_replay; unfold Un, replay; f_equal; lia|].
    clear -Hsame. assert (G : forall i, (i <= k)%nat -> replay_upto files cn i = replay_upto files co i); [|apply G; lia].
    induction i as [|i IH]; intros Hi; [reflexivity|]. cbn [replay_upto]. unfold block_at. rewrite Hsame by lia. rewrite IH by lia. reflexivity.
Qed.
End Replaying.
