(* ===== verification/DBWrapper.v ===== *)
(** * The database wrapper

    Models [util::Xor] (src/streams.h) and src/dbwrapper.h and
    src/dbwrapper.cpp at the level of bytes: [CDBBatch], [CDBWrapper::Read],
    [Exists], [Write], [Erase], [WriteBatch] and the obfuscation key of the
    constructor.  LevelDB is a map from byte strings to byte strings.  The
    theorems show that the coins database, which [CoinsDB] describes by its
    values, is what these bytes stand for: keys do not collide, values read
    back, and every batch of bytes does what the batch of values does. *)

From stdpp Require Import base numbers list gmap strings.
From Stdlib Require Import ZArith Lia.
From S2P Require Import Prelude Params Streams Serialize Compressor Transaction Coins CoinsProofs CoinsRefinement CoinsDB.

Local Open Scope Z_scope.

(** ** Obfuscation *)

(** The loop of [util::Xor] from index [j] of the key. *)
Fixpoint Xor_loop (key : bytes) (j : nat) (write : bytes) : bytes :=
  match write with
  | [] => []
  | b :: rest => Z.lxor b (nth j key 0) :: Xor_loop key (if (Datatypes.S j =? length key)%nat then O else Datatypes.S j) rest
  end.

Definition Xor (write key : bytes) (key_offset : nat) : bytes :=
  if (length key =? 0)%nat then write else Xor_loop key (key_offset mod length key) write.

Lemma Xor_loop_involutive key j write : Xor_loop key j (Xor_loop key j write) = write.
Proof.
  revert j. induction write as [|b write IH]; intros j; [reflexivity|]. cbn [Xor_loop]. rewrite IH, Z.lxor_assoc, Z.lxor_nilpotent, Z.lxor_0_r. reflexivity.
Qed.

Lemma Xor_involutive write key off : Xor (Xor write key off) key off = write.
Proof. unfold Xor. destruct (length key =? 0)%nat; [reflexivity|]. apply Xor_loop_involutive. Qed.

(** ** The wrapper *)

Record CDBWrapper : Type := { stored : gmap bytes bytes; obfuscate_key : bytes }.

(** [CDBBatch] of bytes: keys with the value to put, or none to delete. *)
Record raw_batch : Type := { raw_ops : list (bytes * option bytes); raw_estimate : Z }.

Definition raw_empty : raw_batch := {| raw_ops := []; raw_estimate := 0 |}.

Definition WriteImpl (parent : CDBWrapper) (key ssValue : bytes) (b : raw_batch) : raw_batch :=
  let slValue := Xor ssValue (obfuscate_key parent) 0 in
  {| raw_ops := raw_ops b ++ [(key, Some slValue)];
     raw_estimate := u64 (raw_estimate b + (3 + Z.b2z (Z.of_nat (length key) >? 127) + Z.of_nat (length key)
                                              + Z.b2z (Z.of_nat (length slValue) >? 127) + Z.of_nat (length slValue))) |}.

Definition EraseImpl (key : bytes) (b : raw_batch) : raw_batch :=
  {| raw_ops := raw_ops b ++ [(key, None)];
     raw_estimate := u64 (raw_estimate b + (2 + Z.b2z (Z.of_nat (length key) >? 127) + Z.of_nat (length key))) |}.

Definition raw_apply (m : gmap bytes bytes) (o : bytes * option bytes) : gmap bytes bytes :=
  match snd o with Some v => <[fst o := v]> m | None => delete (fst o) m end.

(** [WriteBatch], when LevelDB reports no error. *)
Definition raw_WriteBatch (b : raw_batch) (w : CDBWrapper) : CDBWrapper :=
  {| stored := foldl raw_apply (stored w) (raw_ops b); obfuscate_key := obfuscate_key w |}.

(** [leveldb::Status], as far as the wrapper looks at it. *)
Inductive Status : Type := status_ok | status_not_found | status_error (what : string).

Definition HandleError (status : Status) : res unit :=
  match status with
  | status_ok => Ok tt
  | status_not_found => Fail (Thrown "Fatal LevelDB error")
  | status_error what => Fail (Thrown (String.append "Fatal LevelDB error: " what))
  end.

(** [pdb->Get] of a LevelDB that can read all it holds. *)
Definition ldb_Get (key : bytes) (w : CDBWrapper) : Status * bytes :=
  match stored w !! key with Some v => (status_ok, v) | None => (status_not_found, []) end.

(** What [ReadImpl] and [ExistsImpl] make of the answer of [Get]: an error other
    than a missing key is thrown. *)
Definition read_answer (answer : Status * bytes) : res (option bytes) :=
  let '(status, strValue) := answer in
  match status with
  | status_not_found => Ok None
  | _ => _ ← HandleError status; Ok (Some strValue)
  end.

Definition ReadImpl (key : bytes) (w : CDBWrapper) : res (option bytes) := read_answer (ldb_Get key w).
Definition ExistsImpl (key : bytes) (w : CDBWrapper) : res bool := v ← read_answer (ldb_Get key w); Ok (bool_decide (is_Some v)).

(** [Read]: the value, or [None] for [false]; exceptions of the deserialiser are caught. *)
Definition Read {A} (ssKey : bytes) (unser : stm DataStream A) (w : CDBWrapper) : res (option A) :=
  strValue ← ReadImpl ssKey w;
  match strValue with
  | None => Ok None
  | Some strValue =>
      match fst (unser {| vch := Xor strValue (obfuscate_key w) 0; m_read_pos := 0 |}) with
      | Ok value => Ok (Some value)
      | Fail (Thrown _) => Ok None
      | Fail e => Fail e
      end
  end.

Definition Exists (ssKey : bytes) (w : CDBWrapper) : res bool := ExistsImpl ssKey w.
Definition Write (ssKey ssValue : bytes) (w : CDBWrapper) : CDBWrapper := raw_WriteBatch (WriteImpl w ssKey ssValue raw_empty) w.
Definition Erase (ssKey : bytes) (w : CDBWrapper) : CDBWrapper := raw_WriteBatch (EraseImpl ssKey raw_empty) w.
Definition IsEmpty (w : CDBWrapper) : bool := bool_decide (stored w = ∅).

(** ["\000obfuscate_key"], a string, is streamed with its length. *)
Definition OBFUSCATE_KEY_KEY : bytes := 14 :: 0 :: [111; 98; 102; 117; 115; 99; 97; 116; 101; 95; 107; 101; 121].
Definition OBFUSCATE_KEY_NUM_BYTES : nat := 8.

(** The end of the constructor, on the LevelDB contents [m]; [rand] is what
    [CreateObfuscateKey] draws. *)
Definition open_wrapper (m : gmap bytes bytes) (obfuscate : bool) (rand : bytes) : res CDBWrapper :=
  let w := {| stored := m; obfuscate_key := repeat 0 OBFUSCATE_KEY_NUM_BYTES |} in
  r ← Read OBFUSCATE_KEY_KEY bytes_Unserialize w;
  match r with
  | Some key => Ok {| stored := m; obfuscate_key := key |}
  | None =>
      if (obfuscate && IsEmpty w)%bool then
        let w' := Write OBFUSCATE_KEY_KEY (streamed (bytes_Serialize rand)) w in
        Ok {| stored := stored w'; obfuscate_key := rand |}
      else Ok w
  end.

(** A batch of values as the bytes [CDBBatch::Write] and [CDBBatch::Erase] make of it. *)
Definition add_raw {HP : Primitives} {HS : ScriptEnv} (w : CDBWrapper) (b : raw_batch) (o : db_op) : raw_batch :=
  match op_value o with Some v => WriteImpl w (op_key o) v b | None => EraseImpl (op_key o) b end.

(** ** What is streamed *)

Lemma streamed_writes {A} (m : stm DataStream A) bs a : Writes m bs a -> streamed m = bs.
Proof. intros W. destruct (W {| vch := []; m_read_pos := 0 |}) as (s & E & R & _); [cbn; lia|]. unfold streamed. rewrite E. exact R. Qed.

Lemma reads_run {A} (m : stm DataStream A) bs a : Reads m bs a -> fst (m {| vch := bs; m_read_pos := 0 |}) = Ok a.
Proof. intros R. destruct (R {| vch := bs; m_read_pos := 0 |} []) as (s & E & _); [cbn; lia|rewrite app_nil_r; reflexivity|]. rewrite E. reflexivity. Qed.

Lemma Reads_unique {A} (m : stm DataStream A) bs a a' : Reads m bs a -> Reads m bs a' -> a = a'.
Proof. intros R R'. apply reads_run in R, R'. congruence. Qed.

(** ** Keys *)

Inductive db_key : Type := KCoin (outpoint : COutPoint) | KBest | KHeads.

#[global] Instance db_key_eq_dec : EqDecision db_key.
Proof. solve_decision. Defined.

Section Contents.
Context {HP : Primitives} {HS : ScriptEnv} {HSL : ScriptEnvLaws}.

Definition key_of (o : db_op) : db_key :=
  match o with
  | WriteCoin outpoint _ | EraseCoin outpoint => KCoin outpoint
  | WriteBest _ | EraseBest => KBest
  | WriteHeads _ | EraseHeads => KHeads
  end.

Definition key_bytes (k : db_key) : bytes :=
  match k with KCoin outpoint => op_key (EraseCoin outpoint) | KBest => op_key EraseBest | KHeads => op_key EraseHeads end.

Lemma op_key_of o : op_key o = key_bytes (key_of o).
Proof using. destruct o; reflexivity. Qed.

Definition key_ok (k : db_key) : Prop := match k with KCoin (hash, n) => in_u 256 hash /\ in_u 32 n | _ => True end.

Lemma coin_key hash n : in_u 256 hash -> in_u 32 n -> key_bytes (KCoin (hash, n)) = DB_COIN :: le_digits 8 32 hash ++ varint_bytes 32 n.
Proof using.
  intros Hh Hn. apply (streamed_writes (A := unit) _ _ tt). change (DB_COIN :: le_digits 8 32 hash ++ varint_bytes 32 n) with ([DB_COIN] ++ le_digits 8 32 hash ++ varint_bytes 32 n).
  eapply Writes_bind; [apply Writes_8; unfold DB_COIN, in_u; lia|]. eapply Writes_bind; [apply Writes_write|]. apply WriteVarInt_writes; [lia|exact Hn].
Qed.

(** The keys of coins, of the best block and of the head blocks are distinct, and none is the key of the obfuscation key. *)
Lemma key_bytes_inj k k' : key_ok k -> key_ok k' -> key_bytes k = key_bytes k' -> k = k'.
Proof using.
  assert (EB : key_bytes KBest = [DB_BEST_BLOCK]) by reflexivity. assert (EH : key_bytes KHeads = [DB_HEAD_BLOCKS]) by reflexivity.
  destruct k as [[hash n]| |], k' as [[hash' n']| |]; intros Hk Hk' E; try reflexivity.
  - destruct Hk as [Hh Hn], Hk' as [Hh' Hn']. rewrite !coin_key in E by assumption. apply (f_equal tail) in E. cbn [tail] in E.
    apply app_inj_1 in E as [E1 E2]; [|rewrite !le_digits_length; reflexivity].
    assert (hash = hash') as -> by (rewrite <- (le_val_digits_small 32 hash Hh), E1; apply le_val_digits_small, Hh').
    pose proof (ReadVarInt_reads (S := DataStream) 32 n ltac:(lia) Hn) as R. rewrite E2 in R.
    pose proof (ReadVarInt_reads (S := DataStream) 32 n' ltac:(lia) Hn') as R'. rewrite (Reads_unique _ _ _ _ R R'). reflexivity.
  - destruct Hk. rewrite coin_key, EB in E by assumption. apply (f_equal head) in E. discriminate E.
  - destruct Hk. rewrite coin_key, EH in E by assumption. apply (f_equal head) in E. discriminate E.
  - destruct Hk'. rewrite coin_key, EB in E by assumption. apply (f_equal head) in E. discriminate E.
  - discriminate.
  - destruct Hk'. rewrite coin_key, EH in E by assumption. apply (f_equal head) in E. discriminate E.
  - discriminate.
Qed.

Lemma obfuscation_key_apart k : key_ok k -> key_bytes k <> OBFUSCATE_KEY_KEY.
Proof using. destruct k as [[hash n]| |]; intros Hk; [destruct Hk; rewrite coin_key by assumption|..]; intros E; apply (f_equal head) in E; discriminate E. Qed.

(** ** Values *)

Definition hash_ok (z : Z) : Prop := in_u 256 z.

(** The coins that can be stored: heights of 31 bits, amounts in range, scripts that can be spent. *)
Definition storable (c : Coin) : Prop :=
  in_u 31 (nHeight c) /\ MoneyRange (nValue (out c)) = true /\ Z.of_nat (length (scriptPubKey (out c))) <= MAX_SCRIPT_SIZE /\ IsSpent c = false.

Definition op_ok (o : db_op) : Prop := key_ok (key_of o) /\
  match o with
  | WriteCoin _ c => storable c
  | WriteBest hash => hash_ok hash
  | WriteHeads hashes => Forall hash_ok hashes /\ Z.of_nat (length hashes) <= MAX_SIZE
  | _ => True
  end.

(** What is stored under a key, before the obfuscation. *)
Definition contents (D : coins_data) (k : db_key) : option bytes :=
  match k with
  | KCoin outpoint => c ← db_coins D !! outpoint; op_value (WriteCoin outpoint c)
  | KBest => z ← db_best D; op_value (WriteBest z)
  | KHeads => l ← db_heads D; op_value (WriteHeads l)
  end.

Lemma contents_apply D o k : contents (apply_op D o) k = if decide (key_of o = k) then op_value o else contents D k.
Proof using.
  destruct o as [op c|op|z| |l|], k as [op'| |]; cbn [contents apply_op key_of db_coins db_best db_heads]; try (destruct (decide _) as [E|E]; [discriminate E|reflexivity]).
  - destruct (decide (KCoin op = KCoin op')) as [[= ->]|Hne]; [rewrite lookup_insert_eq; reflexivity|]. rewrite lookup_insert_ne by congruence. reflexivity.
  - destruct (decide (KCoin op = KCoin op')) as [[= ->]|Hne]; [rewrite lookup_delete_eq; reflexivity|]. rewrite lookup_delete_ne by congruence. reflexivity.
  - rewrite decide_True by reflexivity. reflexivity.
  - rewrite decide_True by reflexivity. reflexivity.
  - rewrite decide_True by reflexivity. reflexivity.
  - rewrite decide_True by reflexivity. reflexivity.
Qed.

(** The bytes of the wrapper stand for the data. *)
Definition stands_for (w : CDBWrapper) (D : coins_data) : Prop :=
  forall k, key_ok k -> stored w !! key_bytes k = (fun v => Xor v (obfuscate_key w) 0) <$> contents D k.

Lemma raw_apply_stands key m D o : (forall k, key_ok k -> m !! key_bytes k = (fun v => Xor v key 0) <$> contents D k) -> op_ok o ->
  forall k, key_ok k -> raw_apply m (op_key o, (fun v => Xor v key 0) <$> op_value o) !! key_bytes k = (fun v => Xor v key 0) <$> contents (apply_op D o) k.
Proof using.
  intros Hm [Hko _] k Hk. rewrite contents_apply, op_key_of. unfold raw_apply. cbn [fst snd]. destruct (decide (key_of o = k)) as [<-|Hne].
  - destruct (op_value o) as [v|]; cbn [fmap option_fmap option_map]; [apply lookup_insert_eq|apply lookup_delete_eq].
  - assert (Hb : key_bytes (key_of o) <> key_bytes k) by (intros E; apply Hne; eapply key_bytes_inj; eauto).
    destruct (op_value o); cbn [fmap option_fmap option_map]; [rewrite lookup_insert_ne by exact Hb|rewrite lookup_delete_ne by exact Hb]; apply Hm, Hk.
Qed.

Lemma add_raw_ops w b o : raw_ops (add_raw w b o) = raw_ops b ++ [(op_key o, (fun v => Xor v (obfuscate_key w) 0) <$> op_value o)].
Proof using. unfold add_raw. destruct (op_value o); reflexivity. Qed.

Lemma Xor_loop_length key j write : length (Xor_loop key j write) = length write.
Proof using. revert j. induction write as [|b write IH]; intros j; cbn; [|rewrite IH]; reflexivity. Qed.

Lemma add_raw_estimate w b o : raw_estimate (add_raw w b o) = u64 (raw_estimate b + op_estimate o).
Proof using.
  unfold add_raw, op_estimate. destruct (op_value o) as [v|]; [|reflexivity]. unfold WriteImpl. cbn [raw_estimate].
  assert (El : length (Xor v (obfuscate_key w) 0) = length v) by (unfold Xor; destruct (length (obfuscate_key w) =? 0)%nat; [reflexivity|apply Xor_loop_length]).
  rewrite El. reflexivity.
Qed.

Definition raw_of (w : CDBWrapper) (ops : list db_op) : raw_batch := foldl (add_raw w) raw_empty ops.

Lemma raw_of_snoc w ops o : raw_of w (ops ++ [o]) = add_raw w (raw_of w ops) o.
Proof using. unfold raw_of. rewrite foldl_app. reflexivity. Qed.

Lemma raw_of_stands w D ops : stands_for w D -> Forall op_ok ops -> stands_for (raw_WriteBatch (raw_of w ops) w) (foldl apply_op D ops).
Proof using.
  intros Hw. unfold stands_for, raw_WriteBatch. cbn [stored obfuscate_key]. induction ops as [|o ops IH] using rev_ind; intros Ho; [exact Hw|].
  apply Forall_app in Ho as [Ho Ho1]. apply Forall_cons in Ho1 as [Ho1 _]. rewrite raw_of_snoc, add_raw_ops, !foldl_app. cbn [foldl].
  apply raw_apply_stands; [apply IH, Ho|exact Ho1].
Qed.

Lemma raw_of_estimate w b : size_estimate b = raw_estimate (raw_of w (batch_ops b)) -> forall o,
  size_estimate (batch_add o b) = raw_estimate (raw_of w (batch_ops (batch_add o b))).
Proof using. intros E o. unfold batch_add. cbn [size_estimate batch_ops]. rewrite raw_of_snoc, add_raw_estimate, E. reflexivity. Qed.

(** ** Reading back *)

Record data_ok (D : coins_data) : Prop := {
  ok_coins : map_Forall (fun _ c => storable c) (db_coins D);
  ok_best : forall z, db_best D = Some z -> hash_ok z;
  ok_heads : forall l, db_heads D = Some l -> Forall hash_ok l /\ Z.of_nat (length l) <= MAX_SIZE;
}.

Lemma data_ok_apply D o : data_ok D -> op_ok o -> data_ok (apply_op D o).
Proof using.
  intros [Hc Hb Hh] [_ Ho]. destruct o; constructor; cbn [apply_op db_coins db_best db_heads]; try assumption; try (intros ? [= <-]; assumption); try discriminate.
  - apply map_Forall_insert_2; assumption.
  - apply map_Forall_delete; assumption.
Qed.

Lemma data_ok_batch D ops : data_ok D -> Forall op_ok ops -> data_ok (foldl apply_op D ops).
Proof using. revert D. induction ops as [|o ops IH]; intros D HD Ho; [exact HD|]. apply Forall_cons in Ho as [H1 Ho]. apply IH; [apply data_ok_apply; assumption|exact Ho]. Qed.

(** [uint256] on a stream. *)
Definition hash_unser : stm DataStream Z := b ← stream_read 32; mret (le_val 8 b).

(** The coin [GetCoin] reads into: [Coin()]. *)
Definition blank_coin : Coin := {| out := (-1, []); fCoinBase := false; nHeight := 0 |}.

Lemma coin_reads c : storable c -> fst (Coin_Unserialize blank_coin {| vch := streamed (Coin_Serialize c); m_read_pos := 0 |}) = Ok c.
Proof using HSL.
  intros (Hh & Hv & Hs & Hu). destruct (Coin_roundtrip (S := DataStream) c Hh Hv Hs) as [R _]. destruct (R Hu) as (bs & W & Rd).
  rewrite (streamed_writes _ _ _ W). exact (reads_run _ _ _ Rd).
Qed.

Lemma hash_format : Format (fun hash => stream_write (le_digits 8 32 hash)) hash_unser hash_ok (le_digits 8 32).
Proof using. split; intros z Hz; [apply Writes_write|]. apply (Reads_digits (S := DataStream) 32 z Hz). Qed.

Lemma heads_reads l : Forall hash_ok l -> Z.of_nat (length l) <= MAX_SIZE ->
  fst (VectorFormatter_Unser hash_unser 32 {| vch := streamed (VectorFormatter_Ser (fun hash => stream_write (le_digits 8 32 hash)) l); m_read_pos := 0 |}) = Ok l.
Proof using.
  intros Hl Hn. destruct (VectorFormatter_format _ _ _ _ (Format0 := hash_format) 32) as [W R]; [unfold MAX_VECTOR_ALLOCATE; lia|].
  rewrite (streamed_writes _ _ _ (W l (conj Hl Hn))). apply reads_run, R. auto.
Qed.

Lemma ReadImpl_stored key w : ReadImpl key w = Ok (stored w !! key).
Proof using. unfold ReadImpl, ldb_Get. destruct (stored w !! key); reflexivity. Qed.

Lemma Read_stored {A} w k (unser : stm DataStream A) (x : option A) D (enc : A -> bytes) : stands_for w D -> key_ok k ->
  contents D k = enc <$> x -> (forall a, x = Some a -> fst (unser {| vch := enc a; m_read_pos := 0 |}) = Ok a) -> Read (key_bytes k) unser w = Ok x.
Proof using.
  intros Hw Hk Hc Hr. unfold Read. rewrite ReadImpl_stored, (Hw k Hk), Hc. destruct x as [a|]; [|reflexivity]. cbn [fmap option_fmap option_map mbind res_bind].
  rewrite Xor_involutive, (Hr a eq_refl). reflexivity.
Qed.

(** What the coins database reads from the bytes. *)
Definition reads_as (w : CDBWrapper) (D : coins_data) : Prop :=
  (forall op, key_ok (KCoin op) -> Read (streamed (CoinEntry_Ser op)) (Coin_Unserialize blank_coin) w = Ok (db_coins D !! op) /\
     Exists (streamed (CoinEntry_Ser op)) w = Ok (bool_decide (is_Some (db_coins D !! op)))) /\
  Read (streamed (ser_writedata8 DB_BEST_BLOCK)) hash_unser w = Ok (db_best D) /\
  Read (streamed (ser_writedata8 DB_HEAD_BLOCKS)) (VectorFormatter_Unser hash_unser 32) w = Ok (db_heads D).

Lemma stands_reads w D : stands_for w D -> data_ok D -> reads_as w D.
Proof using HSL.
  intros Hw [Hc Hb Hh]. split; [|split].
  - intros op Hk. split.
    + apply (Read_stored w (KCoin op) _ _ D (fun c => streamed (Coin_Serialize c))); [exact Hw|exact Hk|cbn; destruct (db_coins D !! op); reflexivity|].
      intros c E. apply coin_reads, (Hc op c E).
    + unfold Exists, ExistsImpl. fold (ReadImpl (streamed (CoinEntry_Ser op)) w). rewrite ReadImpl_stored. change (streamed (CoinEntry_Ser op)) with (key_bytes (KCoin op)). rewrite (Hw (KCoin op) Hk). cbn. destruct (db_coins D !! op); reflexivity.
  - apply (Read_stored w KBest _ _ D (fun z => streamed (stream_write (le_digits 8 32 z)))); [exact Hw|exact I|cbn; destruct (db_best D); reflexivity|].
    intros z E. rewrite (streamed_writes _ _ _ (Writes_write (S := DataStream) _)). apply reads_run. apply (Reads_digits (S := DataStream) 32 z). apply Hb, E.
  - apply (Read_stored w KHeads _ _ D (fun l => streamed (VectorFormatter_Ser (fun hash => stream_write (le_digits 8 32 hash)) l))); [exact Hw|exact I|cbn; destruct (db_heads D); reflexivity|].
    intros l E. destruct (Hh l E). apply heads_reads; assumption.
Qed.

(** ** From the first start on *)

Definition no_data : coins_data := {| db_coins := ∅; db_best := None; db_heads := None |}.

(** The batches written one after the other. *)
Definition write_all (w : CDBWrapper) (batches : list (list db_op)) : CDBWrapper := foldl (fun w ops => raw_WriteBatch (raw_of w ops) w) w batches.

Lemma raw_of_other w ops key : Forall op_ok ops -> (forall k, key_ok k -> key_bytes k <> key) -> stored (raw_WriteBatch (raw_of w ops) w) !! key = stored w !! key.
Proof using.
  intros Ho Hk. unfold raw_WriteBatch. cbn [stored]. induction ops as [|o ops IH] using rev_ind; [reflexivity|].
  apply Forall_app in Ho as [Ho Ho1]. apply Forall_cons in Ho1 as [[Hko _] _]. rewrite raw_of_snoc, add_raw_ops, foldl_app. cbn [foldl]. rewrite <- (IH Ho).
  unfold raw_apply. cbn [fst snd]. rewrite op_key_of. destruct (op_value o); cbn [fmap option_fmap option_map]; [apply lookup_insert_ne|apply lookup_delete_ne]; apply Hk, Hko.
Qed.

Lemma write_all_stands w D batches : stands_for w D -> data_ok D -> Forall (Forall op_ok) batches ->
  stands_for (write_all w batches) (foldl (foldl apply_op) D batches) /\ data_ok (foldl (foldl apply_op) D batches) /\
  obfuscate_key (write_all w batches) = obfuscate_key w /\ stored (write_all w batches) !! OBFUSCATE_KEY_KEY = stored w !! OBFUSCATE_KEY_KEY.
Proof using.
  intros Hw HD Hb. revert w D Hw HD. induction Hb as [|ops batches Ho Hb IH]; intros w D Hw HD; cbn [write_all foldl]; [auto|].
  fold (write_all (raw_WriteBatch (raw_of w ops) w) batches).
  destruct (IH (raw_WriteBatch (raw_of w ops) w) (foldl apply_op D ops)) as (I1 & I2 & I3 & I4); [apply raw_of_stands; assumption|apply data_ok_batch; assumption|].
  split; [exact I1|]. split; [exact I2|]. split; [exact I3|]. rewrite I4. apply raw_of_other; [exact Ho|exact obfuscation_key_apart].
Qed.

Lemma open_fresh rand : Z.of_nat (length rand) <= MAX_SIZE -> exists w, open_wrapper ∅ true rand = Ok w /\ obfuscate_key w = rand /\ stands_for w no_data /\
  stored w !! OBFUSCATE_KEY_KEY = Some (Xor (streamed (bytes_Serialize rand)) (repeat 0 OBFUSCATE_KEY_NUM_BYTES) 0).
Proof using.
  intros Hr. eexists. split; [reflexivity|]. split; [reflexivity|]. split.
  - intros k Hk. cbn [stored]. unfold Write, raw_WriteBatch, WriteImpl. cbn [stored raw_ops raw_empty app foldl]. unfold raw_apply. cbn [fst snd].
    rewrite lookup_insert_ne by (apply not_eq_sym, obfuscation_key_apart, Hk). rewrite lookup_empty. destruct k; reflexivity.
  - cbn [stored]. unfold Write, raw_WriteBatch, WriteImpl. cbn [stored raw_ops raw_empty app foldl]. unfold raw_apply. cbn [fst snd]. apply lookup_insert_eq.
Qed.

Lemma reopen w rand obfuscate rand' : Z.of_nat (length rand) <= MAX_SIZE -> obfuscate_key w = rand ->
  stored w !! OBFUSCATE_KEY_KEY = Some (Xor (streamed (bytes_Serialize rand)) (repeat 0 OBFUSCATE_KEY_NUM_BYTES) 0) -> open_wrapper (stored w) obfuscate rand' = Ok w.
Proof using.
  intros Hr Ek Es. unfold open_wrapper, Read. rewrite ReadImpl_stored. cbn [stored obfuscate_key mbind res_bind]. rewrite Es. cbn [mbind res_bind]. rewrite Xor_involutive.
  destruct (bytes_format (S := DataStream)) as [W R]. rewrite (streamed_writes _ _ _ (W rand Hr)), (reads_run _ _ _ (R rand Hr)). cbn [mbind res_bind]. rewrite <- Ek. destruct w; reflexivity.
Qed.
End Contents.

(** C23. A coins database opened for the first time with obfuscation, written to in
    any number of batches, and opened again with whatever setting: the second
    start finds the obfuscation key of the first, and every coin, the best
    block and the head blocks read from the bytes exactly as from the map of
    values that the batches describe, [Exists] included; and the size a batch
    announces is that of its bytes. *)
Theorem database_bytes {HP : Primitives} {HS : ScriptEnv} {HSL : ScriptEnvLaws} (rand rand' : bytes) (obfuscate : bool) (batches : list (list db_op)) :
  length rand = OBFUSCATE_KEY_NUM_BYTES -> Forall (Forall op_ok) batches -> exists w,
  open_wrapper ∅ true rand = Ok w /\
  let w' := write_all w batches in
  open_wrapper (stored w') obfuscate rand' = Ok w' /\ reads_as w' (foldl (foldl apply_op) no_data batches) /\
  forall ops, raw_estimate (raw_of w' ops) = size_estimate (foldl (fun b o => batch_add o b) empty_batch ops).
Proof.
  intros Hl Hb. assert (Hr : Z.of_nat (length rand) <= MAX_SIZE) by (rewrite Hl; vm_compute; discriminate).
  destruct (open_fresh rand Hr) as (w & E & Ek & Hw & Es). exists w. split; [exact E|]. cbv zeta.
  destruct (write_all_stands w no_data batches Hw) as (S1 & D1 & K1 & O1); [constructor; [apply map_Forall_empty|discriminate|discriminate]|exact Hb|].
  split; [eapply reopen; [exact Hr|congruence|congruence]|]. split; [apply stands_reads; assumption|].
  intros ops. induction ops as [|o ops IH] using rev_ind; [reflexivity|]. rewrite raw_of_snoc, add_raw_estimate, IH, foldl_app. reflexivity.
Qed.

Lemma database_bytes_witness : exists w,
  open_wrapper ∅ true [1; 2; 3; 4; 5; 6; 7; 8] = Ok w /\
  let w' := @write_all sample_primitives sample_env w [[WriteCoin (17, 3) (sample_coin 1000); WriteHeads [5; 4]]; [WriteBest 5; EraseHeads]] in
  Read (streamed (CoinEntry_Ser (17, 3))) (@Coin_Unserialize sample_env DataStream _ blank_coin) w' = Ok (Some (sample_coin 1000)) /\
  Read (streamed (ser_writedata8 DB_HEAD_BLOCKS)) (VectorFormatter_Unser hash_unser 32) w' = Ok None.
Proof.
  destruct (@database_bytes sample_primitives sample_env sample_env_laws [1; 2; 3; 4; 5; 6; 7; 8] [] false
    [[WriteCoin (17, 3) (sample_coin 1000); WriteHeads [5; 4]]; [WriteBest 5; EraseHeads]]) as (w & E & _ & (R & _ & Rh) & _).
  - reflexivity.
  - repeat constructor; unfold in_u, hash_ok, in_u; vm_compute; try discriminate; reflexivity.
  - exists w. split; [exact E|]. split; [|exact Rh]. destruct (R (17, 3)) as [R1 _]; [split; split; vm_compute; try discriminate; reflexivity|]. rewrite R1. reflexivity.
Defined.
