(* ===== verification/CrashRecovery.v ===== *)
(** * Start-up after a crash

    The chain of the coins at start-up, and that no crash loses coins. *)

From stdpp Require Import base numbers list gmap strings.
From Stdlib Require Import ZArith Lia.
From S2P Require Import Prelude ArithUint256 Compact Params Chain ActiveChain ChainWork Pow VersionBits Merkle Streams Serialize Compressor Transaction Coins CoinsProofs CoinsRefinement TxCheck Locks Blocks Connect ConnectBlock Replay ChainState ChainSelectionProofs ChainSelection ChainSteps CoinsDB RecoveryProofs Recovery.

Local Open Scope Z_scope.

(** * The chain of the coins at start-up

    Lemmas about [LoadChainTip] and [NeedsRedownload] (src/validation.cpp): the
    active chain is the one whose coins the database holds, and the candidates
    that are behind it are dropped. *)

(** ** [NeedsRedownload] *)

Section Redownload.
Context (h : heap) (Hwf : tree_wf h) (params : Params).

(** The block [n] steps below [p], as long as segwit is active on the way. *)
Definition segwit_below (p : ptr) (n : nat) (b : CBlockIndex) : Prop :=
  (exists q, up h n p = Some q /\ h !! q = Some b) /\
  forall m q bq, (m <= n)%nat -> up h m p = Some q -> h !! q = Some bq -> BuriedActiveAt params DEPLOYMENT_SEGWIT bq = true.

Definition no_witness (b : CBlockIndex) : Prop := Z.land (nStatus b) BLOCK_OPT_WITNESS = 0.

Lemma redownload_loop_spec fuel p b : h !! p = Some b -> Chain.nHeight b < Z.of_nat fuel ->
  exists r, redownload_loop h params fuel (Some p) = Ok r /\ (r = true <-> exists n bn, segwit_below p n bn /\ no_witness bn).
Proof using Hwf.
  revert p b. induction fuel as [|fuel IH]; intros p b Hp Hf; [destruct (tree_ok h Hwf p b Hp); lia|]. cbn [redownload_loop].
  rewrite (deref_ok h p b Hp). cbn [mbind res_bind]. destruct (BuriedActiveAt params DEPLOYMENT_SEGWIT b) eqn:Ea.
  2: { exists false. split; [reflexivity|]. split; [discriminate|]. intros (n & bn & [_ Hact] & _). rewrite (Hact 0%nat p b ltac:(lia) eq_refl Hp) in Ea. discriminate. }
  destruct (Z.eqb_spec (Z.land (nStatus b) BLOCK_OPT_WITNESS) 0) as [Ew|Ew].
  { exists true. split; [reflexivity|]. split; [|reflexivity]. intros _. exists 0%nat, b. split; [|exact Ew]. split; [exists p; auto|].
    intros m q bq Hm Hu Hq. assert (m = 0%nat) as -> by lia. injection Hu as <-. congruence. }
  assert (Hnot0 : forall n bn, segwit_below p n bn -> no_witness bn -> exists n', n = Datatypes.S n').
  { intros [|n] bn [(q & Hu & Hq) _] Hw; [injection Hu as <-; unfold no_witness in Hw; congruence|eauto]. }
  destruct (pprev b) as [q|] eqn:Eq.
  - destruct (ok_prev _ _ _ (tree_ok h Hwf p b Hp) q Eq) as (bq & Hq & EH). destruct (IH q bq Hq ltac:(lia)) as (r & Er & Hr). exists r. split; [exact Er|].
    assert (Hup : forall m, up h (Datatypes.S m) p = up h m q) by (intros m; cbn [up]; rewrite Hp; cbn; rewrite Eq; reflexivity).
    rewrite Hr. split; intros (n & bn & Hs & Hw).
    + exists (Datatypes.S n), bn. split; [|exact Hw]. destruct Hs as [(x & Hx & Hbx) Hact]. split; [exists x; rewrite Hup; auto|].
      intros [|m] y bY Hm Hu Hy; [injection Hu as <-; congruence|]. rewrite Hup in Hu. apply (Hact m y bY); auto. lia.
    + destruct (Hnot0 n bn Hs Hw) as [n' ->]. exists n', bn. split; [|exact Hw]. destruct Hs as [(x & Hx & Hbx) Hact]. rewrite Hup in Hx. split; [eauto|].
      intros m y bY Hm Hu Hy. apply (Hact (Datatypes.S m) y bY); [lia|rewrite Hup; exact Hu|exact Hy].
  - exists false. split; [destruct fuel; reflexivity|]. split; [discriminate|]. intros (n & bn & Hs & Hw). destruct (Hnot0 n bn Hs Hw) as [n' ->].
    destruct Hs as [(x & Hx & _) _]. cbn [up] in Hx. rewrite Hp in Hx. cbn in Hx. rewrite Eq in Hx. discriminate.
Qed.

(** [NeedsRedownload] answers, and says whether below the tip, before the first
    block without segwit, a block was stored without its witnesses. *)
Lemma NeedsRedownload_spec c t : chain_to h c t ->
  exists r, NeedsRedownload h params c = Ok r /\ (r = true <-> exists n bn, segwit_below t n bn /\ no_witness bn).
Proof using Hwf.
  intros Hto. pose proof Hto as (b & Hb & _). unfold NeedsRedownload. rewrite (chain_to_tip h Hwf _ _ Hto).
  apply (redownload_loop_spec _ t b Hb). pose proof (chain_to_length h Hwf _ _ b Hto Hb). lia.
Qed.
End Redownload.

(** ** [LoadChainTip] *)

Section Tip.
Context {HP : Primitives} {HPL : PrimitivesLaws} {W : Type} {HW : CCoinsView W} {HA : ViewAbs W} {HVL : ViewLaws W} {HO : WorkOrder} {HOL : WorkOrderLaws}.
Notation CS := (Chainstate W).

(** A chainstate whose coins belong to the block [t] and that has no chain yet
    gets the chain to [t]; when a candidate is at least as good, the candidates
    that are not are dropped, and nothing else changes. *)
Lemma LoadChainTip_spec (find_block : Z -> option ptr) (s : CS) (t : ptr) (b : CBlockIndex) (x : uint256) : tree_wf (m_block_index s) -> m_chain s = [] ->
  view_ok (CoinsTip s) -> best (CoinsTip s) = le_val 8 x -> le_val 8 x <> 0 -> m_block_index s !! t = Some b -> find_block (le_val 8 x) = Some t ->
  not_worse (m_block_index s) t (setBlockIndexCandidates s) <> ∅ -> exists s',
  LoadChainTip find_block s = (Ok true, s') /\ chain_to (m_block_index s) (m_chain s') t /\ m_block_index s' = m_block_index s /\
  same_view (CoinsTip s) (CoinsTip s') /\ setBlockIndexCandidates s' = not_worse (m_block_index s) t (setBlockIndexCandidates s).
Proof using HPL HVL HOL.
  intros Hwf Hc Hv Hb Hx Ht Hf Hne. unfold LoadChainTip. unfold mbind at 1, stm_bind at 1, on_coins at 1.
  destruct (GetBestBlock_spec (CoinsTip s) Hv) as (c1 & E1 & S1). rewrite E1, Hb. unfold mbind at 1, stm_bind at 1, lift_st at 1.
  destruct (Z.eqb_spec (le_val 8 x) 0) as [?|_]; [contradiction|]. cbn [negb assert_]. unfold mbind at 1, stm_bind at 1, get_st at 1. cbn [m_chain update_coins]. rewrite Hc.
  unfold mbind at 1, stm_bind at 1. cbn [Tip length Nat.eqb]. unfold mret at 1, stm_ret at 1. unfold mbind at 1, stm_bind at 1, on_coins at 1. cbn [CoinsTip update_coins].
  destruct S1 as (C1 & B1 & O1). destruct (GetBestBlock_spec c1 O1) as (c2 & E2 & S2). rewrite E2, B1, Hb, Hf. unfold mbind at 1, stm_bind at 1, get_st at 1.
  unfold mbind at 1, stm_bind at 1, lift_st at 1. cbn [m_block_index m_chain update_coins]. rewrite Hc.
  destruct (SetTip_chain _ Hwf [] t b (or_introl eq_refl) Ht) as (c' & Es & Hto). rewrite Es. unfold mbind at 1, stm_bind at 1, modify_st at 1.
  set (s1 := update_chain c' _). unfold mbind at 1, stm_bind at 1. rewrite (PruneBlockIndexCandidates_spec t s1) by (apply (chain_to_tip _ Hwf _ _ Hto)).
  cbn [m_block_index setBlockIndexCandidates s1 update_chain update_coins]. rewrite bool_decide_eq_false_2 by exact Hne.
  eexists. split; [reflexivity|]. cbn. split; [exact Hto|]. split; [reflexivity|]. split; [|reflexivity]. destruct S2 as (C2 & B2 & O2). split; [congruence|]. split; [congruence|exact O2].
Qed.
End Tip.

(** * No crash loses the coins

    The write of the coins ([CCoinsViewCache::Flush] over [CCoinsViewDB]) and
    its repair at start-up ([ReplayBlocks]) together: whichever write fails,
    and however often the repair itself is cut short, the database ends up with
    the coins of the old chain, if nothing was written, or of the new one. *)

(** What is known of the block index, the files and the two chains. *)
Record crash_setting {HP : Primitives} (h : heap) (files : gmap ptr CBlock) (undos : gmap ptr CBlockUndo) (find_block : Z -> option ptr)
    (co cn : CChain) (zo zn : Z) : Prop := {
  cr_tree : tree_wf h;
  cr_hash : map_Forall (fun _ b => exists x, phashBlock b = Some x /\ le_val 8 x <> 0) h;
  cr_find : forall p b x, h !! p = Some b -> phashBlock b = Some x -> find_block (le_val 8 x) = Some p;
  cr_old : branch h files undos co zo;
  cr_new : branch h files undos cn zn;
  cr_nonempty : cn <> [];
  cr_start : co <> [] -> co !! 0%nat = cn !! 0%nat;
}.

(** The database of a node that starts again, with the faults it will meet. *)
Definition restart (faults : list bool * list bool) (d : CCoinsViewDB) : CCoinsViewDB :=
  {| m_options := m_options d; disk := disk d; write_errors := fst faults; crash_draws := snd faults |}.

(** A disk that is in no transition: the coins [U] of the block [z]. *)
Definition at_rest (z : Z) (U : coin_set) (D : coins_data) : Prop := db_coins D = U /\ default 0 (db_best D) = z /\ db_heads D = None.

Section Crash.
Context {HP : Primitives} {HPL : PrimitivesLaws} {HT : TxEnv} {HS : ScriptEnv}.
Context (txout_size : Z) (h : heap) (files : gmap ptr CBlock) (undos : gmap ptr CBlockUndo) (find_block : Z -> option ptr).
Context (co cn : CChain) (zo zn : Z) (Hset : crash_setting h files undos find_block co cn zo zn).
Notation Replays := (ReplayBlocks txout_size h files undos find_block).

(** Starting again and again, with faults each time. *)
Definition restarts (fs : list (list bool * list bool)) (d : CCoinsViewDB) : CCoinsViewDB :=
  foldl (fun d f => snd (Replays (restart f d))) d fs.

Lemma ReplayBlocks_rest d : db_heads (disk d) = None -> Replays d = (Ok true, d).
Proof using. intros E. unfold ReplayBlocks, mbind, stm_bind. change (GetHeadBlocks d) with (Ok (default [] (db_heads (disk d))), d). rewrite E. reflexivity. Qed.

(** The transition has begun: torn, or complete. *)
Definition begun (D : coins_data) : Prop :=
  (exists M, D = torn zn zo M /\ between (replay files co) (replay files cn) M) \/ D = settled zn (replay files cn).

Lemma ReplayBlocks_begun d : begun (disk d) -> exists r d', Replays d = (r, d') /\ begun (disk d') /\
  (faultless d -> r = Ok true /\ disk d' = settled zn (replay files cn) /\ faultless d').
Proof using HPL HT Hset.
  intros [(M & Ed & HM)|Ed].
  - destruct Hset as [Hwf Hhash Hfind Hold [Hb [[? _]|(t & b & x & Hto & Ht & Ex & Ez)]] Hne Hstart]; [contradiction|].
    destruct (ReplayBlocks_torn txout_size h files undos Hwf Hhash find_block Hfind co cn zo zn t b x Hold Hb Hto Ht Ex Ez Hstart d M Ed HM) as (r & d' & E & D & C & F).
    exists r, d'. split; [exact E|]. split; [exact D|]. intros Hf. destruct (F Hf) as [-> Hf']. destruct C as [[_ C]|[err ?]]; [auto|discriminate].
  - exists (Ok true), d. rewrite ReplayBlocks_rest by (rewrite Ed; reflexivity). split; [reflexivity|]. split; [right; exact Ed|]. auto.
Qed.

Lemma restarts_rest fs d : db_heads (disk d) = None -> disk (restarts fs d) = disk d.
Proof using.
  revert d. induction fs as [|f fs IH]; intros d E; [reflexivity|]. cbn [restarts foldl]. change (foldl _ ?x fs) with (restarts fs x).
  rewrite ReplayBlocks_rest by exact E. cbn [snd]. rewrite IH by exact E. reflexivity.
Qed.

Lemma restarts_begun fs d : begun (disk d) -> begun (disk (restarts fs d)).
Proof using HPL HT Hset.
  revert d. induction fs as [|f fs IH]; intros d Hd; [exact Hd|]. cbn [restarts foldl]. change (foldl _ ?x fs) with (restarts fs x).
  destruct (ReplayBlocks_begun (restart f d) Hd) as (r & d' & -> & Hd' & _). cbn [snd]. apply IH, Hd'.
Qed.

(** The interrupted write. *)
Lemma Flush_begun (c : CCoinsViewCache CCoinsViewDB) : at_rest zo (replay files co) (disk (base c)) ->
  @view_ok _ (@cache_abs HP _ (disk_abs (base c))) c -> overlay (cacheCoins c) (replay files co) = replay files cn -> hashBlock c = zn -> exists r c',
  Flush c = (r, c') /\ (disk (base c') = disk (base c) /\ (exists err, r = Fail err) \/ begun (disk (base c'))) /\
  (r = Ok true -> disk (base c') = settled zn (replay files cn)) /\ r <> Ok false /\ (faultless (base c) -> r = Ok true).
Proof using Hset.
  intros (EU & Ez & En) Hv Ec Eh. destruct Hset as [Hwf Hhash Hfind Hold [Hb [[? _]|(t & b & x & Hto & Ht & Ex & Ezn)]] Hne Hstart]; [contradiction|].
  assert (Hz : zn <> 0) by (destruct (Hhash t b Ht) as (x' & Ex' & Hx); congruence).
  destruct (Flush_DB_spec (base c) c Hv) as (r & c' & E & D & C & F); [congruence|intros _ new old Eq; rewrite En in Eq; discriminate|].
  assert (Eo : old_tip_of (disk (base c)) = zo).
  { unfold old_tip_of. rewrite Ez, En. destruct (Z.eqb_spec zo 0); congruence. }
  rewrite EU, Eo, Ec, Eh in *. exists r, c'. split; [exact E|]. split; [|split; [|split]].
  - destruct C as [[_ C]|[err ->]]; [right; right; exact C|]. destruct D as [D|[D|D]]; [left; eauto|right; left; exact D|right; right; exact D].
  - intros ->. destruct C as [[_ C]|[err ?]]; [exact C|discriminate].
  - intros ->. destruct C as [[? _]|[err ?]]; discriminate.
  - intros Hf. apply (F Hf).
Qed.
End Crash.

(** C3. [Flush] writes the coins of a new tip over those of an old one while
    writes may fail and the process may end between any two batches; then the
    node starts any number of times, each start cut short by faults of its own,
    and at last once without.  [ReplayBlocks] then returns true and the
    database is in no transition: it holds exactly the coins of the new chain
    and names its tip; only if the interrupted [Flush] had written nothing at
    all it holds what it held before.  If [Flush] had reported success the
    coins are the new ones, and without faults it does. *)
Theorem crash_recovery {HP : Primitives} {HPL : PrimitivesLaws} {HT : TxEnv} {HS : ScriptEnv}
    (txout_size : Z) (h : heap) (files : gmap ptr CBlock) (undos : gmap ptr CBlockUndo) (find_block : Z -> option ptr)
    (co cn : CChain) (zo zn : Z) (c : CCoinsViewCache CCoinsViewDB) (fs : list (list bool * list bool)) :
  crash_setting h files undos find_block co cn zo zn ->
  at_rest zo (replay files co) (disk (base c)) -> @view_ok _ (@cache_abs HP _ (disk_abs (base c))) c ->
  overlay (cacheCoins c) (replay files co) = replay files cn -> hashBlock c = zn ->
  exists r c' d, Flush c = (r, c') /\
    ReplayBlocks txout_size h files undos find_block (restart ([], []) (restarts txout_size h files undos find_block fs (base c'))) = (Ok true, d) /\
    (disk d = settled zn (replay files cn) \/ disk d = disk (base c) /\ disk (base c') = disk (base c) /\ exists err, r = Fail err) /\
    (r = Ok true -> disk d = settled zn (replay files cn)) /\ (faultless (base c) -> r = Ok true).
Proof.
  intros Hset Hr Hv Ec Eh. destruct (Flush_begun h files undos find_block co cn zo zn Hset c Hr Hv Ec Eh) as (r & c' & E & D & S & _ & F).
  exists r, c'. assert (Ff : forall d, faultless (restart ([], []) d)) by (split; reflexivity). destruct D as [[D Herr]|D].
  - assert (En : db_heads (disk (base c')) = None) by (rewrite D; apply Hr).
    pose proof (restarts_rest txout_size h files undos find_block fs (base c') En) as Er.
    eexists. split; [exact E|]. split; [apply ReplayBlocks_rest; cbn; rewrite Er; exact En|]. cbn [disk restart]. rewrite Er, D. split; [auto|]. split; [|exact F].
    intros ->. destruct Herr as [err ?]. discriminate.
  - pose proof (restarts_begun txout_size h files undos find_block co cn zo zn Hset fs (base c') D) as Db.
    destruct (ReplayBlocks_begun txout_size h files undos find_block co cn zo zn Hset (restart ([], []) (restarts txout_size h files undos find_block fs (base c'))) Db) as (r2 & d & E2 & _ & R).
    destruct (R (Ff _)) as (-> & Ed & _). exists d. split; [exact E|]. split; [exact E2|]. auto.
Qed.

(** ** A flush that failed and is tried again *)

(** The batch that opens the transition. *)
Definition first_batch {HP : Primitives} {HS : ScriptEnv} (new old : Z) : CDBBatch := batch_add (WriteHeads [new; old]) (batch_add EraseBest empty_batch).

(** C38. [BatchWrite] takes entries out of the cache before the batch they are in
    is written.  When the write of the first batch fails, and the cache is
    flushed again (as [Shutdown] does) with success, the database is marked as
    complete for the new tip without the coin of the lost entry: it keeps what
    it held of it before. *)
Theorem failed_flush_loses_coin {HP : Primitives} {HS : ScriptEnv} (c : CCoinsViewCache CCoinsViewDB) :
  hashBlock c <> 0 -> db_heads (disk (base c)) = None -> write_errors (base c) = [true] -> crash_draws (base c) = [] -> cacheCoins c <> ∅ ->
  (forall op e, cacheCoins c !! op = Some e ->
     batch_write_bytes (m_options (base c)) < size_estimate (batch_coin op e (first_batch (hashBlock c) (old_tip_of (disk (base c)))))) ->
  exists op e err c1 c2, cacheCoins c !! op = Some e /\ Flush c = (Fail err, c1) /\ Flush c1 = (Ok true, c2) /\
    disk (base c2) = settled (hashBlock c) (apply_batch (delete op (cacheCoins c)) (db_coins (disk (base c)))) /\
    db_coins (disk (base c2)) !! op = db_coins (disk (base c)) !! op.
Proof.
  intros Hh Hn Hw Hc Hm Hs. destruct (map_to_list (cacheCoins c)) as [|[op e] l] eqn:El; [apply map_to_list_empty_iff in El; contradiction|].
  assert (Ee : cacheCoins c !! op = Some e) by (apply elem_of_map_to_list; rewrite El; left). exists op, e.
  assert (Hd : heading (disk (base c)) (hashBlock c)) by (intros _ new old E; rewrite Hn in E; discriminate).
  set (d1 := {| m_options := m_options (base c); disk := disk (base c); write_errors := []; crash_draws := crash_draws (base c) |}).
  assert (E1 : DB_BatchWrite (hashBlock c) true (base c, cacheCoins c) = (Fail (Thrown "Fatal LevelDB error"), (d1, delete op (cacheCoins c)))).
  { rewrite DB_BatchWrite_eq by assumption. cbv zeta. rewrite El, write_loop_cons. cbv zeta. fold (first_batch (hashBlock c) (old_tip_of (disk (base c)))).
    rewrite (proj2 (Z.gtb_lt _ _) (Hs op e Ee)). unfold spill, mbind, stm_bind, on_db, WriteBatch. rewrite Hw. reflexivity. }
  destruct (DB_BatchWrite_spec (hashBlock c) true d1 (delete op (cacheCoins c)) Hh Hd) as (r & d2 & m2 & E2 & _ & C & F).
  destruct (F (conj eq_refl Hc)) as [-> _]. destruct C as [(_ & Ed & ->)|[err ?]]; [|discriminate].
  unfold Flush, base_BatchWrite, mbind, stm_bind. cbn [view_BatchWrite DB_view]. rewrite E1. eexists _, _, _. split; [exact Ee|]. split; [reflexivity|].
  cbn [base cacheCoins hashBlock set_entries set_base]. rewrite E2. unfold get_st, ReallocateCache, modify_st, mbind, stm_bind, lift_st, get_st. cbn [cacheCoins set_entries set_base].
  rewrite bool_decide_eq_true_2 by reflexivity. cbn. split; [reflexivity|]. split; [exact Ed|].
  change (db_coins (disk d2) !! op = db_coins (disk (base c)) !! op). rewrite Ed. cbn [settled db_coins]. rewrite lookup_apply_batch, lookup_delete_eq. reflexivity.
Qed.

(** ** Writing the chain state on the database *)

Section Store.
Context {HP : Primitives} {HPL : PrimitivesLaws} {HS : ScriptEnv} {HB : BlockStore CCoinsViewDB}.


End Store.


(** ** A crash in the middle of a reorganisation *)

#[local] Existing Instance zero_primitives.
#[local] Existing Instance zero_primitives_laws.
#[local] Existing Instance zero_tx_env.
#[local] Existing Instance sample_env.

Definition reward_coin (n height : Z) : Coin := Coin_make (500 * COIN, [n]) height true.

(** The coins of the chain 0-1 on disk, those of 0-2-3 in the cache; batches of
    one coin, of which the second fails. *)
Definition crash_cache : CCoinsViewCache CCoinsViewDB :=
  {| base := {| m_options := {| batch_write_bytes := 10; simulate_crash_ratio := 0 |};
                disk := {| db_coins := {[ (101, 0) := reward_coin 1 1 ]}; db_best := Some 11; db_heads := None |};
                write_errors := [false; true]; crash_draws := [] |};
     hashBlock := 13;
     cacheCoins := list_to_map [((101, 0), {| coin := coinEmpty; flags := 1 |});
                                ((102, 0), {| coin := reward_coin 2 1; flags := 3 |});
                                ((103, 0), {| coin := reward_coin 3 2; flags := 3 |})];
     cachedCoinsUsage := 2 |}.

Definition crash_undos : gmap ptr CBlockUndo := list_to_map [(1%nat, []); (2%nat, []); (3%nat, [])].
Definition crash_find (z : Z) : option ptr := if (10 <=? z) && (z <=? 13) then Some (Z.to_nat (z - 10)) else None.

Lemma reward_laid c i p nonce id n : reorg_files !! p = Some (reward_block nonce id [n]) -> crash_undos !! p = Some [] ->
  (forall j, replay_upto reorg_files c (i - 1) !! (id, j) = None) -> laid reorg_files crash_undos c i p.
Proof.
  intros Hf Hu Hn. exists (reward_block nonce id [n]), (coinbase_tx id [(500 * COIN, [n])]), []. split; [exact Hf|]. split; [reflexivity|]. split; [reflexivity|].
  split; [constructor|]. split; [|exact Hu]. split; [|exact I]. split; [reflexivity|]. split; [repeat constructor; discriminate|]. split; [exact Hn|discriminate].
Qed.

Lemma crash_example : crash_setting reorg_tree reorg_files crash_undos crash_find [Some 0%nat; Some 1%nat] [Some 0%nat; Some 2%nat; Some 3%nat] 11 13.
Proof.
  constructor.
  - apply tree_wfb_ok. vm_compute. reflexivity.
  - repeat apply map_Forall_insert_2; [..|apply map_Forall_empty]; cbn; eexists; (split; [reflexivity|discriminate]).
  - intros p b x Hp Hx. unfold reorg_tree in Hp. apply elem_of_list_to_map_2 in Hp.
    repeat match goal with H : _ ∈ _ :: _ |- _ => apply elem_of_cons in H as [H|H]; [injection H as -> ->|] | H : _ ∈ [] |- _ => destruct (not_elem_of_nil _ H) end.
    all: injection Hx as <-; reflexivity.
  - split.
    + intros i p H1 Hi. destruct i as [|[|i]]; [lia| |destruct i; discriminate]. injection Hi as <-. apply (reward_laid _ _ _ 11 101 1); [reflexivity..|]. intros j. apply lookup_empty.
    + right. exists 1%nat. eexists _, _. split; [|split; [reflexivity|split; reflexivity]]. eexists. split; [reflexivity|]. split; [reflexivity|]. intros i Hi. cbn in Hi. do 2 (destruct i as [|i]; [reflexivity|]). lia.
  - split.
    + intros i p H1 Hi. destruct i as [|[|[|i]]]; [lia| | |destruct i; discriminate]; injection Hi as <-.
      * apply (reward_laid _ _ _ 12 102 2); [reflexivity..|]. intros j. apply lookup_empty.
      * apply (reward_laid _ _ _ 13 103 3); [reflexivity..|]. intros j. change (replay_upto _ _ _) with (<[(102, 0) := reward_coin 2 1]> (∅ : coin_set)).
        rewrite lookup_insert_ne by (intros [=]). apply lookup_empty.
    + right. exists 3%nat. eexists _, _. split; [|split; [reflexivity|split; reflexivity]]. eexists. split; [reflexivity|]. split; [reflexivity|]. intros i Hi. cbn in Hi. do 3 (destruct i as [|i]; [reflexivity|]). lia.
  - discriminate.
  - reflexivity.
Qed.

Lemma crash_recovery_witness : exists c' d,
  Flush crash_cache = (Fail (Thrown "Fatal LevelDB error"), c') /\ db_heads (disk (base c')) = Some [13; 11] /\
  ReplayBlocks 9 reorg_tree reorg_files crash_undos crash_find
    (restart ([], []) (restarts 9 reorg_tree reorg_files crash_undos crash_find [([true], []); ([false; true], [])] (base c'))) = (Ok true, d) /\
  disk d = settled 13 (replay reorg_files [Some 0%nat; Some 2%nat; Some 3%nat]).
Proof.
  destruct (crash_recovery 9 reorg_tree reorg_files crash_undos crash_find [Some 0%nat; Some 1%nat] [Some 0%nat; Some 2%nat; Some 3%nat] 11 13 crash_cache
    [([true], []); ([false; true], [])]) as (r & c' & d & E & R & D & _).
  - exact crash_example.
  - split; [|split; reflexivity]. vm_compute. reflexivity.
  - split; [split; [reflexivity|apply map_Forall_singleton; reflexivity]|]. split; [|reflexivity].
    repeat apply map_Forall_insert_2; [..|apply map_Forall_empty].
    all: split; [vm_compute; auto 10|split; [intros Hf; vm_compute in Hf; try discriminate; vm_compute; reflexivity|intros Hf; vm_compute in Hf; discriminate]].
  - vm_compute. reflexivity.
  - reflexivity.
  - assert (X : match Flush crash_cache with
                | (Fail (Thrown what), s) => what = "Fatal LevelDB error"%string /\ db_heads (disk (base s)) = Some [13; 11]
                | _ => False end) by (vm_compute; split; reflexivity).
    rewrite E in X. destruct r as [|[]]; try contradiction. destruct X as [-> Xh]. exists c', d. split; [exact E|]. split; [exact Xh|]. split; [exact R|].
    destruct D as [D|(_ & D & _)]; [exact D|]. rewrite D in Xh. discriminate.
Defined.

(** The same cache, the first write failing, flushed twice: the spent coin of
    the old branch, or a coin of the new one, is wrong for good. *)
Definition retry_cache : CCoinsViewCache CCoinsViewDB :=
  set_base {| m_options := m_options (base crash_cache); disk := disk (base crash_cache); write_errors := [true]; crash_draws := [] |} crash_cache.

Lemma failed_flush_loses_coin_witness : exists err c1 c2,
  Flush retry_cache = (Fail err, c1) /\ Flush c1 = (Ok true, c2) /\ db_heads (disk (base c2)) = None /\ db_best (disk (base c2)) = Some 13 /\
  db_coins (disk (base c2)) <> replay reorg_files [Some 0%nat; Some 2%nat; Some 3%nat].
Proof.
  destruct (failed_flush_loses_coin retry_cache) as (op & e & err & c1 & c2 & Ee & E1 & E2 & Ed & Ec).
  - discriminate.
  - reflexivity.
  - reflexivity.
  - reflexivity.
  - intros E. apply (f_equal (lookup (101, 0))) in E. vm_compute in E. discriminate E.
  - intros op e Ee. cbn [retry_cache set_base cacheCoins crash_cache] in Ee. apply elem_of_list_to_map_2 in Ee.
    repeat match goal with H : _ ∈ _ :: _ |- _ => apply elem_of_cons in H as [H|H]; [injection H as -> ->|] | H : _ ∈ [] |- _ => destruct (not_elem_of_nil _ H) end.
    all: vm_compute; reflexivity.
  - exists err, c1, c2. split; [exact E1|]. split; [exact E2|]. rewrite Ed. split; [reflexivity|]. split; [reflexivity|]. intros X.
    rewrite Ed in Ec. cbn [settled db_coins] in Ec, X. rewrite X in Ec. clear X Ed E1 E2. cbn [retry_cache set_base cacheCoins crash_cache] in Ee. apply elem_of_list_to_map_2 in Ee.
    repeat match goal with H : _ ∈ _ :: _ |- _ => apply elem_of_cons in H as [H|H]; [injection H as -> ->|] | H : _ ∈ [] |- _ => destruct (not_elem_of_nil _ H) end.
    all: vm_compute in Ec; discriminate Ec.
Defined.


#[local] Existing Instances calm_store calm_store_laws.


