(* ===== verification/Acceptance.v ===== *)
(** * Headers and blocks that arrive

    Models the ways a header or a block enters the node (src/validation.cpp):
    [ChainstateManager::AcceptBlockHeader], [ProcessNewBlockHeaders],
    [AcceptBlock] and [ProcessNewBlock].  [AddToBlockIndex] and
    [SaveBlockToDisk] belong to the block store under src/node/, which the
    repository does not hold: they are the class [HeaderStore].  Locks, logs,
    notifications and [CheckBlockIndex] (off in production) are left out; there
    is one chainstate. *)

From stdpp Require Import base numbers list gmap strings.
From Stdlib Require Import ZArith Lia.
From S2P Require Import Prelude ArithUint256 Compact Params Chain ActiveChain ChainWork Pow VersionBits.
From S2P Require Import Merkle Streams Serialize Compressor Transaction Coins CoinsProofs TxCheck Locks Blocks Connect.
From S2P Require Import ChainState ChainSelection ChainActivation.

Local Open Scope Z_scope.

Definition MIN_BLOCKS_TO_KEEP : Z := 288.

(** [m_block_index.find(hash)]: the key of an entry is what its [phashBlock]
    points at. *)
Definition LookupBlockIndex (h : heap) (hash : uint256) : option ptr :=
  fst <$> head (filter (fun kb => phashBlock kb.2 = Some hash) (map_to_list h)).

(** [AddToBlockIndex(block, m_best_header)] and [SaveBlockToDisk(block, height,
    dbp)]; the latter returns the position of the block unless it is null. *)
Class HeaderStore (W : Type) : Type := {
  AddToBlockIndex : CBlockHeader -> stm (Chainstate W) ptr;
  SaveBlockToDisk : CBlock -> Z -> option (Z * Z) -> stm (Chainstate W) (option (Z * Z));
}.

(** What an arrival meets outside: the clock, the height of the last checkpoint
    known, and the surroundings of a flush. *)
Record arrival_env : Type := { clock : Z; known_checkpoint : option Z; arrival_flush : flush_env }.

(** A header as the checks of headers see it. *)
Definition header_only (hd : CBlockHeader) : CBlock :=
  {| header := hd; vtx := []; fChecked := false; m_checked_witness_commitment := false; m_checked_merkle_root := false |}.

(** The outcome of [AcceptBlock]: the return value, the validation state,
    [*ppindex], [*fNewBlock] and the flags of the block. *)
Record acceptance : Type := {
  accepted : bool;
  acc_state : BlockValidationState;
  acc_index : option ptr;
  acc_new : bool;
  acc_block : CBlock;
}.

Section Acceptance.
Context `{Primitives, !TxEnv, !BlockEnv, !ScriptEnv, !LockEnv, !ConnectEnv, !WorkOrder} {W : Type} `{CCoinsView W, !BlockStore W, !HeaderStore W}.
Context (txout_size : Z) (params : Params) (ctx : node_context).
Notation CS := (Chainstate W).

(** A check of a block, from within the node. *)
Definition run_check_on (m : stm (CBlock * BlockValidationState) bool) (block : CBlock) (state : BlockValidationState)
    : stm CS (bool * BlockValidationState * CBlock) := fun s =>
  match m (block, state) with
  | (Ok r, (block', state')) => (Ok (r, state', block'), s)
  | (Fail e, _) => (Fail e, s)
  end.

(** ** [AcceptBlockHeader] *)

(** [while (invalid_walk != failedit)]. *)
Fixpoint invalid_walk (fuel : nat) (walk failedit : ptr) : stm CS unit :=
  if bool_decide (walk = failedit) then mret tt
  else match fuel with
  | O => fail_st OutOfFuel
  | S fuel' =>
      s ← get_st;
      b ← lift_st (deref (m_block_index s) walk);
      _ ← mark_status walk BLOCK_FAILED_CHILD;
      q ← lift_st (access (pprev b));
      invalid_walk fuel' q failedit
  end.

(** [for (const CBlockIndex* failedit : m_failed_blocks)]: whether one of them
    is an ancestor of [pindexPrev]. *)
Fixpoint failed_loop (pindexPrev : ptr) (l : list ptr) : stm CS bool :=
  match l with
  | [] => mret false
  | failedit :: rest =>
      s ← get_st;
      bf ← lift_st (deref (m_block_index s) failedit);
      a ← lift_st (GetAncestor (m_block_index s) pindexPrev (Chain.nHeight bf));
      if bool_decide (a = Some failedit) then
        _ ← lift_st (assert_ (negb (Z.land (nStatus bf) BLOCK_FAILED_VALID =? 0)));
        bp ← lift_st (deref (m_block_index s) pindexPrev);
        _ ← invalid_walk (Z.to_nat (Chain.nHeight bp - Chain.nHeight bf)) pindexPrev failedit;
        mret true
      else failed_loop pindexPrev rest
  end.

(** The checks of a header that is not known yet. *)
Definition check_new_header (env : arrival_env) (block : CBlockHeader) (state : BlockValidationState) : stm CS (bool * BlockValidationState) :=
  '(ok, state, _) ← run_check_on (CheckBlockHeader params true) (header_only block) state;
  if negb ok then mret (false, state)
  else
    s ← get_st;
    match LookupBlockIndex (m_block_index s) (hashPrevBlock block) with
    | None => mret (Invalid BLOCK_MISSING_PREV "prev-blk-not-found" state)
    | Some pindexPrev =>
        bp ← lift_st (deref (m_block_index s) pindexPrev);
        if negb (Z.land (nStatus bp) BLOCK_FAILED_MASK =? 0) then mret (Invalid BLOCK_INVALID_PREV "bad-prevblk" state)
        else
          '(ok, state, _) ← run_check_on (ContextualCheckBlockHeader (m_block_index s) params (known_checkpoint env) (clock env) (Some pindexPrev))
                              (header_only block) state;
          if negb ok then mret (false, state)
          else
            scripts ← lift_st (IsValid bp BLOCK_VALID_SCRIPTS);
            if scripts : bool then mret (true, state)
            else
              failed ← failed_loop pindexPrev (elements (m_failed_blocks s));
              if failed : bool then mret (Invalid BLOCK_INVALID_PREV "bad-prevblk" state) else mret (true, state)
    end.

(** The return value, the validation state and [*ppindex]. *)
Definition AcceptBlockHeader (env : arrival_env) (block : CBlockHeader) (min_pow_checked : bool) (state : BlockValidationState)
    : stm CS (bool * BlockValidationState * option ptr) :=
  s ← get_st;
  let hash := header_hash block in
  let add (state : BlockValidationState) : stm CS (bool * BlockValidationState * option ptr) :=
    if negb min_pow_checked then
      let '(r, state) := Invalid BLOCK_HEADER_LOW_WORK "too-little-chainwork" state in mret (r, state, None)
    else p ← AddToBlockIndex block; mret (true, state, Some p) in
  if bool_decide (hash = hashGenesisBlock params) then add state
  else
    match LookupBlockIndex (m_block_index s) hash with
    | Some p =>
        b ← lift_st (deref (m_block_index s) p);
        if negb (Z.land (nStatus b) BLOCK_FAILED_MASK =? 0) then
          let '(r, state) := Invalid BLOCK_CACHED_INVALID "duplicate" state in mret (r, state, Some p)
        else mret (true, state, Some p)
    | None =>
        '(ok, state) ← check_new_header env block state;
        if negb ok then mret (false, state, None) else add state
    end.

(** [*ppindex] is the last header accepted. *)
Fixpoint ProcessNewBlockHeaders (env : arrival_env) (headers : list CBlockHeader) (min_pow_checked : bool) (state : BlockValidationState)
    (ppindex : option ptr) : stm CS (bool * BlockValidationState * option ptr) :=
  match headers with
  | [] => mret (true, state, ppindex)
  | hd :: rest =>
      '(ok, state, pindex) ← AcceptBlockHeader env hd min_pow_checked state;
      if negb ok then mret (false, state, ppindex) else ProcessNewBlockHeaders env rest min_pow_checked state pindex
  end.

(** ** [AcceptBlock] *)

(** The tests that let a block pass by without being looked at. *)
Definition block_unwanted (s : CS) (b : CBlockIndex) (fRequested : bool) : res bool :=
  tip_work ← (match Tip (m_chain s) with None => Ok None | Some t => bt ← deref (m_block_index s) t; Ok (Some (nChainWork bt)) end);
  let fAlreadyHave := negb (Z.land (nStatus b) BLOCK_HAVE_DATA =? 0) in
  let fHasMoreOrSameWork := match tip_work with Some w => negb (uint_lt (nChainWork b) w) | None => true end in
  let fTooFarAhead := Chain.nHeight b >? Height (m_chain s) + MIN_BLOCKS_TO_KEEP in
  Ok (fAlreadyHave ||
      (negb fRequested && (negb (nTx b =? 0) || negb fHasMoreOrSameWork || fTooFarAhead || uint_lt (nChainWork b) (minimum_chain_work ctx))))%bool.

(** [CheckBlock(...) && ContextualCheckBlock(...)]. *)
Definition check_whole_block (h : heap) (prev : option ptr) (block : CBlock) (state : BlockValidationState)
    : stm CS (bool * BlockValidationState * CBlock) :=
  '(ok, state, block) ← run_check_on (CheckBlock params true true) block state;
  if negb ok then mret (false, state, block)
  else run_check_on (ContextualCheckBlock h params prev) block state.

(** The content of the file at the position that the entry [p] is given. *)
Definition write_block (p : ptr) (block : CBlock) (s : CS) : CS :=
  {| m_block_index := m_block_index s; m_chain := m_chain s; setBlockIndexCandidates := setBlockIndexCandidates s;
     m_best_invalid := m_best_invalid s; m_best_header := m_best_header s; m_failed_blocks := m_failed_blocks s;
     m_dirty_blockindex := m_dirty_blockindex s; m_blocks_unlinked := m_blocks_unlinked s; m_prune_locks := m_prune_locks s;
     m_counters := m_counters s; m_flush := m_flush s; CoinsTip := CoinsTip s; block_files := <[p := block]> (block_files s);
     undo_files := undo_files s |}.

(** The body of the [try]. *)
Definition store_block (block : CBlock) (p : ptr) (b : CBlockIndex) (dbp : option (Z * Z)) (state : BlockValidationState)
    : stm CS (bool * BlockValidationState) :=
  pos ← SaveBlockToDisk block (Chain.nHeight b) dbp;
  match pos with
  | None => mret (Error "AcceptBlock: Failed to find position to write new block to disk" state)
  | Some (file, offset) =>
      _ ← modify_st (write_block p block);
      _ ← ReceivedBlockTransactions params block p file offset;
      mret (true, state)
  end.

Definition AcceptBlock (env : arrival_env) (block : CBlock) (state : BlockValidationState) (fRequested : bool) (dbp : option (Z * Z))
    (min_pow_checked : bool) : stm CS acceptance :=
  '(accepted_header, state, pindex) ← AcceptBlockHeader env (header block) min_pow_checked state;
  let done (r : bool) (state : BlockValidationState) (fNewBlock : bool) (block : CBlock) : stm CS acceptance :=
    mret {| accepted := r; acc_state := state; acc_index := pindex; acc_new := fNewBlock; acc_block := block |} in
  if negb accepted_header then done false state false block
  else
    p ← lift_st (access pindex);
    s ← get_st;
    b ← lift_st (deref (m_block_index s) p);
    unwanted ← lift_st (block_unwanted s b fRequested);
    if unwanted : bool then done true state false block
    else
      '(ok, state, block) ← check_whole_block (m_block_index s) (pprev b) block state;
      if negb ok then
        _ ← (if (state_IsInvalid state && negb (bool_decide (m_result state = BLOCK_MUTATED)))%bool
             then mark_status p BLOCK_FAILED_VALID else mret tt);
        done false state false block
      else
        '(ok, state) ← try_runtime (store_block block p b dbp state)
                         (fun what => mret (Error (String.append "System error: " what) state));
        if negb ok then done false state true block
        else
          '(_, state) ← FlushStateToDisk (arrival_flush env) NONE 0 state;
          done true state true block.

(** ** [ProcessNewBlock] *)

(** The return value and [*new_block]. *)
Definition ProcessNewBlock (env : arrival_env) (aenv : activation_env) (block : CBlock) (force_processing min_pow_checked : bool)
    : stm CS (bool * bool) :=
  '(ret, state, block) ← run_check_on (CheckBlock params true true) block (fresh_state BLOCK_RESULT_UNSET);
  if negb ret then mret (false, false)
  else
    r ← AcceptBlock env block state force_processing None min_pow_checked;
    if negb (accepted r) then mret (false, acc_new r)
    else
      '(ok, _) ← ActivateBestChain txout_size params ctx aenv (Some (acc_block r)) (fresh_state BLOCK_RESULT_UNSET);
      mret (ok, acc_new r).
End Acceptance.
