(* ===== verification/HeaderProofs.v ===== *)
(** * The tree of headers and accepting headers

    The invariant of the tree, and [AcceptBlockHeader] and
    [ProcessNewBlockHeaders] against it. *)

From stdpp Require Import base numbers list gmap strings.
From Stdlib Require Import ZArith Lia.
From S2P Require Import Prelude ArithUint256 Compact Params Chain ActiveChain ChainWork Pow VersionBits Merkle Streams Serialize Compressor Transaction Coins CoinsProofs CoinsRefinement TxCheck Locks Blocks Connect ChainState ChainSelectionProofs ChainSelection ChainActivation Acceptance.

Local Open Scope Z_scope.

(** * The tree of headers

    The invariant of the tree that [AcceptBlockHeader] keeps: heights, skip
    pointers, hashes, proof of work, difficulty, times and versions of all its
    entries, with the laws of [AddToBlockIndex] under which a header that
    passed the checks extends it. *)

(** ** Entries by hash *)

Definition has_hash (h : heap) (p : ptr) (b : CBlockIndex) (x : uint256) : Prop := h !! p = Some b /\ phashBlock b = Some x.

Definition unique_hashes (h : heap) : Prop := forall p q bp bq x, has_hash h p bp x -> has_hash h q bq x -> p = q.

Lemma LookupBlockIndex_None h x : LookupBlockIndex h x = None <-> forall p b, ~ has_hash h p b x.
Proof.
  unfold LookupBlockIndex. destruct (filter _ (map_to_list h)) as [|[p b] l] eqn:E; cbn.
  - split; [|reflexivity]. intros _ p b [Hp Hx].
    assert (Hin : (p, b) ∈ filter (fun kb : ptr * CBlockIndex => phashBlock kb.2 = Some x) (map_to_list h))
      by (apply list_elem_of_filter; split; [exact Hx|apply elem_of_map_to_list, Hp]).
    rewrite E in Hin. apply elem_of_nil in Hin. exact Hin.
  - split; [discriminate|]. intros Hn. exfalso. apply (Hn p b).
    assert (Hin : (p, b) ∈ filter (fun kb : ptr * CBlockIndex => phashBlock kb.2 = Some x) (map_to_list h)) by (rewrite E; left).
    apply list_elem_of_filter in Hin as [Hx Hin]. apply elem_of_map_to_list in Hin. split; assumption.
Qed.

Lemma LookupBlockIndex_Some h x p : LookupBlockIndex h x = Some p -> exists b, has_hash h p b x.
Proof.
  unfold LookupBlockIndex. destruct (filter _ (map_to_list h)) as [|[q b] l] eqn:E; cbn; [discriminate|]. intros [= ->].
  assert (Hin : (p, b) ∈ filter (fun kb : ptr * CBlockIndex => phashBlock kb.2 = Some x) (map_to_list h)) by (rewrite E; left).
  apply list_elem_of_filter in Hin as [Hx Hin]. apply elem_of_map_to_list in Hin. exists b. split; assumption.
Qed.

Lemma LookupBlockIndex_unique h x p b : unique_hashes h -> has_hash h p b x -> LookupBlockIndex h x = Some p.
Proof.
  intros Hu Hp. destruct (LookupBlockIndex h x) as [q|] eqn:E.
  - destruct (LookupBlockIndex_Some h x q E) as [bq Hq]. f_equal. eapply Hu; eauto.
  - destruct (proj1 (LookupBlockIndex_None h x) E p b Hp).
Qed.

(** ** Trees that grow *)

(** The part of an entry that comes from its header and its place. *)
Record same_header (b b' : CBlockIndex) : Prop := {
  sh_hash : phashBlock b' = phashBlock b;
  sh_prev : pprev b' = pprev b;
  sh_skip : pskip b' = pskip b;
  sh_height : Chain.nHeight b' = Chain.nHeight b;
  sh_work : nChainWork b' = nChainWork b;
  sh_version : Chain.nVersion b' = Chain.nVersion b;
  sh_time : nTime b' = nTime b;
  sh_bits : nBits b' = nBits b;
}.

Lemma same_header_refl b : same_header b b.
Proof. split; reflexivity. Qed.

Lemma same_header_trans b1 b2 b3 : same_header b1 b2 -> same_header b2 b3 -> same_header b1 b3.
Proof. intros [] []. split; etransitivity; eassumption. Qed.

(** [h'] holds the headers of [h], and more. *)
Definition grown (h h' : heap) : Prop := forall p b, h !! p = Some b -> exists b', h' !! p = Some b' /\ same_header b b'.

(** [h'] holds the headers of [h], and no more. *)
Definition same_headers (h h' : heap) : Prop := grown h h' /\ dom h' = dom h.

Lemma same_headers_refl h : same_headers h h.
Proof. split; [|reflexivity]. intros p b Hp. eauto using same_header_refl. Qed.

Lemma same_headers_trans h1 h2 h3 : same_headers h1 h2 -> same_headers h2 h3 -> same_headers h1 h3.
Proof.
  intros [G1 D1] [G2 D2]. split; [|congruence]. intros p b Hp. destruct (G1 p b Hp) as (b2 & H2 & S2). destruct (G2 p b2 H2) as (b3 & H3 & S3).
  eauto using same_header_trans.
Qed.

Lemma same_headers_inv h h' p b' : same_headers h h' -> h' !! p = Some b' -> exists b, h !! p = Some b /\ same_header b b'.
Proof.
  intros [Hg Hd] Hp. assert (is_Some (h !! p)) as [b Hb] by (apply elem_of_dom; rewrite <- Hd; eapply elem_of_dom_2; eauto).
  destruct (Hg p b Hb) as (b2 & H2 & S2). exists b. split; [exact Hb|congruence].
Qed.

Lemma same_headers_insert h p b b' : h !! p = Some b -> same_header b b' -> same_headers h (<[p := b']> h).
Proof.
  intros Hp Hs. split.
  - intros q bq Hq. destruct (decide (q = p)) as [->|Hne]; [exists b'; rewrite lookup_insert_eq; split; congruence|].
    exists bq. rewrite lookup_insert_ne by auto. auto using same_header_refl.
  - rewrite dom_insert_L. apply elem_of_dom_2 in Hp. set_solver.
Qed.

Lemma same_headers_restatused h h' : restatused h h' -> same_headers h h'.
Proof.
  intros Hs. split; [|apply restatused_dom, Hs]. intros p b Hp. destruct (restatused_lookup h h' Hs p b Hp) as [st Hst].
  exists (set_nStatus b st). split; [exact Hst|split; reflexivity].
Qed.

Lemma grown_insert h p b : h !! p = None -> grown h (<[p := b]> h).
Proof. intros Hp q bq Hq. exists bq. rewrite lookup_insert_ne by congruence. auto using same_header_refl. Qed.

Lemma same_headers_tree h h' : same_headers h h' -> tree_wf h -> tree_wf h'.
Proof.
  intros Hs Hwf q bq Hq. destruct (same_headers_inv h h' q bq Hs Hq) as (b0 & Hb0 & Sh).
  assert (Hext : forall q c, h !! q = Some c -> exists c', h' !! q = Some c' /\ pprev c' = pprev c /\ Chain.nHeight c' = Chain.nHeight c).
  { intros x bx Hx. destruct (proj1 Hs x bx Hx) as (bx' & Hx' & [? ? ? ? ? ? ? ?]). eauto. }
  pose proof (block_ok_ext h h' q b0 Hwf Hb0 Hext (tree_ok h Hwf q b0 Hb0)) as [? ? ? ? ?]. destruct Sh as [_ E1 E2 E3 _ _ E4 _].
  split; rewrite ?E1, ?E2, ?E3, ?E4; assumption.
Qed.

Section Grown.
Context (h h' : heap) (Hwf : tree_wf h) (Hwf' : tree_wf h') (Hg : grown h h').

Lemma grown_up n : forall p b, h !! p = Some b -> up h' n p = up h n p.
Proof using Hwf Hg.
  induction n as [|n IH]; intros p b Hp; [reflexivity|]. cbn [up]. destruct (Hg p b Hp) as (b' & Hp' & Sh). rewrite Hp, Hp'. cbn.
  rewrite (sh_prev _ _ Sh). destruct (pprev b) as [q|] eqn:Eq; [|reflexivity]. cbn.
  destruct (ok_prev _ _ _ (Hwf p b Hp) q Eq) as (bq & Hq & _). eapply IH; eauto.
Qed.

Lemma grown_times n : forall p b, h !! p = Some b -> collect_times n h' (Some p) = collect_times n h (Some p).
Proof using Hwf Hg.
  induction n as [|n IH]; intros p b Hp; [reflexivity|]. cbn [collect_times]. destruct (Hg p b Hp) as (b' & Hp' & Sh).
  rewrite (deref_ok h p b Hp), (deref_ok h' p _ Hp'). cbn. rewrite (sh_prev _ _ Sh). unfold GetBlockTime. rewrite (sh_time _ _ Sh).
  destruct (pprev b) as [q|] eqn:Eq; [|destruct n; reflexivity].
  destruct (ok_prev _ _ _ (Hwf p b Hp) q Eq) as (bq & Hq & _). rewrite (IH q bq Hq). reflexivity.
Qed.

Lemma grown_median p b : h !! p = Some b -> GetMedianTimePast h' p = GetMedianTimePast h p.
Proof using Hwf Hg. intros Hp. unfold GetMedianTimePast. rewrite (grown_times _ p b Hp). reflexivity. Qed.

Lemma grown_required params p b : pow_params_ok params -> h !! p = Some b ->
  GetNextWorkRequired h' (Some p) params = GetNextWorkRequired h (Some p) params.
Proof using Hwf Hwf' Hg.
  intros Hok Hp. destruct (Hg p b Hp) as (b' & Hp' & Sh).
  rewrite (GetNextWorkRequired_cases params Hok h Hwf p b Hp), (GetNextWorkRequired_cases params Hok h' Hwf' p _ Hp'). cbv zeta.
  unfold CalculateNextWorkRequired, GetBlockTime. rewrite (sh_height _ _ Sh), (sh_bits _ _ Sh), (sh_time _ _ Sh).
  rewrite (grown_up _ p b Hp). destruct (_ <? _); [reflexivity|]. destruct (negb _); [reflexivity|].
  destruct (up h _ p) as [q|] eqn:Eq; [|reflexivity]. cbn [mbind option_bind].
  destruct (up_in h Hwf _ p b q Hp Eq) as [[bq Hq] _]. destruct (Hg q bq Hq) as (bq' & Hq' & Sq). rewrite Hq, Hq', (sh_time _ _ Sq). reflexivity.
Qed.
End Grown.

(** ** The rules of the tree *)

Section Rules.
Context (params : Params).

(** What every entry but the genesis block owes to the checks of its header. *)
Record child_rules (h : heap) (q : ptr) (b : CBlockIndex) (x : uint256) : Prop := {
  cr_pow : CheckProofOfWork x (nBits b) params = true;
  cr_bits : GetNextWorkRequired h (Some q) params = Ok (nBits b);
  cr_time : exists mtp, GetMedianTimePast h q = Ok mtp /\ mtp < nTime b;
  cr_version : (BIP34Height params <= Chain.nHeight b -> 2 <= Chain.nVersion b) /\
    (BIP66Height params <= Chain.nHeight b -> 3 <= Chain.nVersion b) /\ (BIP65Height params <= Chain.nHeight b -> 4 <= Chain.nVersion b);
  cr_work : exists bq, h !! q = Some bq /\ uval (nChainWork b) = (uval (nChainWork bq) + work_of (nBits b)) mod 2 ^ 256;
}.

Record header_entry (h : heap) (b : CBlockIndex) : Prop := {
  he_hash : is_Some (phashBlock b);
  he_root : pprev b = None -> phashBlock b = Some (hashGenesisBlock params);
  he_bits : in_u 32 (nBits b) /\ compact_value (nBits b) <= pow_limit params;
  he_work : wf (nChainWork b);
  he_rules : forall q x, pprev b = Some q -> phashBlock b = Some x -> child_rules h q b x;
}.

Record header_tree (h : heap) : Prop := {
  ht_tree : tree_wf h;
  ht_unique : unique_hashes h;
  ht_entries : map_Forall (fun _ => header_entry h) h;
  ht_genesis : exists g b, has_hash h g b (hashGenesisBlock params) /\ pprev b = None;
}.

Context (Hpow : pow_params_ok params).

Lemma header_entry_grown h h' p b b' : tree_wf h -> tree_wf h' -> grown h h' -> h !! p = Some b -> same_header b b' -> header_entry h b -> header_entry h' b'.
Proof using Hpow.
  intros Hwf Hwf' Hg Hp [E1 E2 _ E4 E5 E6 E7 E8] [H1 H2 H3 H4 H5]. split; rewrite ?E1, ?E2, ?E5, ?E8; auto. intros q x Eq Ex.
  destruct (H5 q x Eq Ex) as [R1 R2 R3 R4 R5].
  destruct (ok_prev _ _ _ (Hwf p b Hp) q Eq) as (bq & Hq & _). split; rewrite ?E4, ?E5, ?E6, ?E7, ?E8; auto.
  - rewrite (grown_required h h' Hwf Hwf' Hg params q bq Hpow Hq). exact R2.
  - destruct R3 as (m & Hm & Hlt). exists m. rewrite (grown_median h h' Hwf Hg q bq Hq). auto.
  - destruct R5 as (bq2 & Hq2 & Ew). destruct (Hg q bq2 Hq2) as (bq' & Hq' & Sq). exists bq'. rewrite (sh_work _ _ Sq). auto.
Qed.

(** Whatever else changes in the entries, the tree keeps its rules. *)
Lemma header_tree_same h h' : same_headers h h' -> header_tree h -> header_tree h'.
Proof using Hpow.
  intros Hs [Hwf Hu He (g & bg & [Hg Hx] & Hr)]. pose proof (same_headers_tree h h' Hs Hwf) as Hwf'. split; [exact Hwf'|..].
  - intros p q bp bq x [Hp Ep] [Hq Eq]. destruct (same_headers_inv h h' p bp Hs Hp) as (cp & Hcp & Sp).
    destruct (same_headers_inv h h' q bq Hs Hq) as (cq & Hcq & Sq). rewrite (sh_hash _ _ Sp) in Ep. rewrite (sh_hash _ _ Sq) in Eq.
    apply (Hu p q cp cq x); split; auto.
  - intros p b Hp. destruct (same_headers_inv h h' p b Hs Hp) as (c & Hc & Sc).
    apply (header_entry_grown h h' p c); auto; [apply Hs|apply (He p c Hc)].
  - destruct (proj1 Hs g bg Hg) as (bg' & Hg' & Sg). exists g, bg'. split; [split; [exact Hg'|]|]; [rewrite (sh_hash _ _ Sg)|rewrite (sh_prev _ _ Sg)]; assumption.
Qed.
End Rules.

(** ** A new entry *)

(** What [AddToBlockIndex] puts into a new entry below [q]. *)
Record new_entry (h : heap) (hd : CBlockHeader) (hash : uint256) (q : ptr) (bq b : CBlockIndex) : Prop := {
  ne_hash : phashBlock b = Some hash;
  ne_prev : pprev b = Some q;
  ne_height : Chain.nHeight b = i32 (Chain.nHeight bq + 1);
  ne_skip : GetAncestor h q (GetSkipHeight (Chain.nHeight b)) = Ok (pskip b);
  ne_work : exists proof, GetBlockProof b = Ok proof /\ nChainWork b = op_add (nChainWork bq) proof;
  ne_status : nStatus b = BLOCK_VALID_TREE;
  ne_version : Chain.nVersion b = hdr_nVersion hd;
  ne_root : hashMerkleRoot b = hdr_hashMerkleRoot hd;
  ne_time : nTime b = hdr_nTime hd;
  ne_bits : nBits b = hdr_nBits hd;
  ne_nonce : nNonce b = hdr_nNonce hd;
  ne_data : nTx b = 0 /\ nChainTx b = 0;
}.

(** The members of a header are [uint32_t]. *)
Definition header_typed (hd : CBlockHeader) : Prop := in_u 32 (hdr_nTime hd) /\ in_u 32 (hdr_nBits hd).

(** The new best header after an entry of this work was added. *)
Definition better_header {W} (s : Chainstate W) (p : ptr) (b : CBlockIndex) : option ptr :=
  match m_best_header s with
  | None => Some p
  | Some t => match m_block_index s !! t with
              | Some bt => if uint_lt (nChainWork bt) (nChainWork b) then Some p else Some t
              | None => Some t
              end
  end.

Definition with_entry {W} (p : ptr) (b : CBlockIndex) (s : Chainstate W) : Chainstate W :=
  note_dirty p (update_best (m_best_invalid s) (better_header s p b) (update_index <[p := b]> s)).

(** A known header is left alone; a new one below a known parent gets an entry
    of its own, and may become the best header. *)
Class HeaderStoreLaws (W : Type) `{BlockEnv, !HeaderStore W} : Prop := {
  add_known : forall (s : Chainstate W) hd p, LookupBlockIndex (m_block_index s) (header_hash hd) = Some p ->
    AddToBlockIndex hd s = (Ok p, s);
  add_new : forall (s : Chainstate W) hd q bq, tree_wf (m_block_index s) -> header_typed hd ->
    LookupBlockIndex (m_block_index s) (header_hash hd) = None ->
    LookupBlockIndex (m_block_index s) (hashPrevBlock hd) = Some q -> m_block_index s !! q = Some bq ->
    exists p b, m_block_index s !! p = None /\ new_entry (m_block_index s) hd (header_hash hd) q bq b /\
      AddToBlockIndex hd s = (Ok p, with_entry p b s);
}.

Lemma new_entry_tree h hd x q bq b p : tree_wf h -> header_typed hd -> h !! p = None -> h !! q = Some bq -> Chain.nHeight bq < 2 ^ 31 - 1 ->
  new_entry h hd x q bq b -> tree_wf (<[p := b]> h).
Proof.
  intros Hwf [Ht _] Hp Hq Hlt [_ Eq Eh Es _ _ _ _ Et _ _ _]. destruct (ok_height _ _ _ (Hwf q bq Hq)) as [H0 _].
  rewrite swrap_small in Eh by (try lia; word_lia).
  destruct (BuildSkip_extends h p (set_pskip b None) q bq) as (s & Hs & _ & Hwf'); auto; try lia; try (cbn; lia); [cbn; rewrite Et; exact Ht|].
  cbn in Hs. rewrite (GetAncestor_up h Hwf q bq _ Hq), decide_True, Hs in Es by (pose proof (GetSkipHeight_range (Chain.nHeight b)); lia).
  injection Es as Es. replace (<[p := b]> h) with (<[p := set_pskip (set_pskip b None) (Some s)]> h); [exact Hwf'|].
  f_equal. destruct b; cbn in *; subst; reflexivity.
Qed.

Section Extend.
Context (params : Params) (Hpow : pow_params_ok params).

Lemma header_tree_extend h hd x q bq b p checkpoint now mtp : header_tree params h -> header_typed hd -> h !! p = None -> h !! q = Some bq ->
  Chain.nHeight bq < 2 ^ 31 - 1 -> new_entry h hd x q bq b -> (forall r br, ~ has_hash h r br x) ->
  CheckProofOfWork x (hdr_nBits hd) params = true -> GetMedianTimePast h q = Ok mtp ->
  GetNextWorkRequired h (Some q) params = Ok (hdr_nBits hd) -> header_valid params checkpoint now bq (hdr_nBits hd) mtp hd ->
  header_tree params (<[p := b]> h).
Proof using Hpow.
  intros [Hwf Hu He Hgen] Hty Hp Hq Hlt Hn Hfresh Hpw Hm Hreq (_ & _ & Htm & Hv2 & Hv3 & Hv4).
  pose proof (new_entry_tree h hd x q bq b p Hwf Hty Hp Hq Hlt Hn) as Hwf'. pose proof (grown_insert h p b Hp) as Hg.
  destruct (he_bits _ _ _ (He q bq Hq)) as [B1 B2]. destruct (GetNextWorkRequired_total params Hpow h Hwf q bq Hq B1 B2) as (c & Ec & C1 & C2).
  assert (c = hdr_nBits hd) as -> by congruence. destruct Hn as [Nx Nq Nh _ (w & Ew & Nw) _ Nv _ Nt Nb _ _].
  destruct (ok_height _ _ _ (Hwf q bq Hq)) as [H0 _]. rewrite swrap_small in Nh by (try lia; word_lia).
  destruct (GetBlockProof_spec b ltac:(rewrite Nb; exact C1)) as (w' & Ew' & Ww & Vw). assert (w' = w) as -> by congruence.
  pose proof (he_work _ _ _ (He q bq Hq)) as Wq.
  split; [exact Hwf'|..].
  - intros r1 r2 b1 b2 y [H1 E1] [H2 E2]. apply lookup_insert_Some in H1 as [[<- <-]|[N1 H1]], H2 as [[<- <-]|[N2 H2]]; auto.
    + exfalso. apply (Hfresh r2 b2). split; [exact H2|congruence].
    + exfalso. apply (Hfresh r1 b1). split; [exact H1|congruence].
    + eapply Hu; split; eauto.
  - intros r br Hr. apply lookup_insert_Some in Hr as [[<- <-]|[Nr Hr]].
    + split; [rewrite Nx; eauto|rewrite Nq; discriminate|rewrite Nb; auto|rewrite Nw; apply op_add_wf; auto|].
      intros q' y Eq Ey. rewrite Nq in Eq. rewrite Nx in Ey. injection Eq as <-. injection Ey as <-. split.
      * rewrite Nb. exact Hpw.
      * rewrite (grown_required h _ Hwf Hwf' Hg params q bq Hpow Hq), Nb. exact Hreq.
      * exists mtp. rewrite (grown_median h _ Hwf Hg q bq Hq), Nt. split; [exact Hm|lia].
      * rewrite Nh, Nv. auto.
      * exists bq. rewrite lookup_insert_ne by congruence. split; [exact Hq|]. rewrite Nw, op_add_val, Vw by auto. rewrite Nb. reflexivity.
    + apply (header_entry_grown params Hpow h _ r br); auto using same_header_refl. apply (He r br Hr).
  - destruct Hgen as (g & bg & [Hgg Eg] & Er). exists g, bg. split; [split; [|exact Eg]|exact Er]. rewrite lookup_insert_ne by congruence. exact Hgg.
Qed.
End Extend.

(** * Accepting headers

    [AcceptBlockHeader] is exactly its rules, and whatever headers arrive in
    [ProcessNewBlockHeaders], the tree of headers keeps its invariant. *)

(** ** Marks below failed blocks *)

(** Entries strictly below a block of [F] may have got [BLOCK_FAILED_CHILD]. *)
Definition child_marked (F : gset ptr) (h h' : heap) : Prop := forall p,
  match h !! p, h' !! p with
  | Some b, Some b' => b' = b \/ (b' = set_nStatus b (Z.lor (nStatus b) BLOCK_FAILED_CHILD) /\ exists f, f ∈ F /\ f <> p /\ ancestor h f p)
  | None, None => True
  | _, _ => False
  end.

Lemma child_marked_refl F h : child_marked F h h.
Proof. intros p. destruct (h !! p); auto. Qed.

Lemma child_marked_restatused F h h' : child_marked F h h' -> restatused h h'.
Proof.
  intros Hm p. specialize (Hm p). destruct (h !! p) as [b|], (h' !! p) as [b'|]; auto.
  destruct Hm as [->|[-> _]]; [destruct b|]; reflexivity.
Qed.

Lemma child_marked_trans F h1 h2 h3 : child_marked F h1 h2 -> child_marked F h2 h3 -> child_marked F h1 h3.
Proof.
  intros A B p. pose proof (child_marked_restatused F h1 h2 A) as R. specialize (A p). specialize (B p).
  destruct (h1 !! p) as [b1|], (h2 !! p) as [b2|], (h3 !! p) as [b3|]; try contradiction; auto.
  assert (T : (exists f, f ∈ F /\ f <> p /\ ancestor h2 f p) -> exists f, f ∈ F /\ f <> p /\ ancestor h1 f p).
  { intros (f & Hf & Hne & n & Hn). exists f. split; [exact Hf|]. split; [exact Hne|]. exists n. rewrite <- (restatused_up h1 h2 R). exact Hn. }
  destruct A as [->|[-> HA]], B as [->|[-> HB]]; auto. right. split; [|exact HA]. cbn. rewrite <- Z.lor_assoc, Z.lor_diag. reflexivity.
Qed.

Lemma child_marked_mono F G h h' : F ⊆ G -> child_marked F h h' -> child_marked G h h'.
Proof.
  intros HFG Hm p. specialize (Hm p). destruct (h !! p) as [b|], (h' !! p) as [b'|]; auto.
  destruct Hm as [->|(-> & f & Hf & Hr)]; [auto|right]. split; [reflexivity|]. exists f. split; [set_solver|exact Hr].
Qed.

Lemma child_marked_one F h p b f : h !! p = Some b -> f ∈ F -> f <> p -> ancestor h f p ->
  child_marked F h (<[p := set_nStatus b (Z.lor (nStatus b) BLOCK_FAILED_CHILD)]> h).
Proof.
  intros Hp Hf Hne Ha q. destruct (decide (q = p)) as [->|Hq].
  - rewrite Hp, lookup_insert_eq. right. split; [reflexivity|]. exists f. auto.
  - rewrite lookup_insert_ne by auto. destruct (h !! q); auto.
Qed.

(** A mark stays. *)
Lemma child_marked_failed F h h' p b : child_marked F h h' -> h !! p = Some b -> failed b = true ->
  exists b', h' !! p = Some b' /\ failed b' = true.
Proof.
  intros Hm Hp Hb. specialize (Hm p). rewrite Hp in Hm. destruct (h' !! p) as [b'|]; [|contradiction].
  exists b'. split; [reflexivity|]. destruct Hm as [->|[-> _]]; [exact Hb|apply failed_child].
Qed.

Lemma failed_valid_child b : Z.land (Z.lor (nStatus b) BLOCK_FAILED_CHILD) BLOCK_FAILED_VALID = Z.land (nStatus b) BLOCK_FAILED_VALID.
Proof. rewrite Z.land_lor_distr_l. change (Z.land BLOCK_FAILED_CHILD BLOCK_FAILED_VALID) with 0. apply Z.lor_0_r. Qed.

(** The ancestor at a block's height is that block exactly when the block is an
    ancestor. *)
Lemma GetAncestor_is h p b f bf : tree_wf h -> h !! p = Some b -> h !! f = Some bf ->
  exists a, GetAncestor h p (Chain.nHeight bf) = Ok a /\ (a = Some f <-> ancestor h f p).
Proof.
  intros Hwf Hp Hf. rewrite (GetAncestor_up h Hwf p b _ Hp). eexists. split; [reflexivity|].
  destruct (ok_height _ _ _ (Hwf f bf Hf)) as [H0 _]. destruct (decide _) as [Hd|Hd]; split.
  - intros Hu. eexists. exact Hu.
  - intros [n Hn]. pose proof (up_height h Hwf n p b f bf Hp Hn Hf). replace (Z.to_nat _) with n by lia. exact Hn.
  - discriminate.
  - intros [n Hn]. pose proof (up_height h Hwf n p b f bf Hp Hn Hf). lia.
Qed.

Section Headers.
Context {HP : Primitives} {HT : TxEnv} {HB : BlockEnv} {HSc : ScriptEnv} {HL : LockEnv} {W : Type} {HW : CCoinsView W}.
Context {HH : HeaderStore W} {HHL : HeaderStoreLaws W}.
Context (params : Params) (Hpow : pow_params_ok params).
Notation CS := (Chainstate W).

(** Only marks below failed blocks differ, and what is to be written. *)
Definition marks_below (s s' : CS) : Prop := child_marked (m_failed_blocks s) (m_block_index s) (m_block_index s') /\
  exists d, s' = update_dirty (fun _ => d) (update_index (fun _ => m_block_index s') s).

Lemma marks_below_refl s : marks_below s s.
Proof using. split; [apply child_marked_refl|]. exists (m_dirty_blockindex s). destruct s; reflexivity. Qed.

Lemma marks_below_trans s1 s2 s3 : marks_below s1 s2 -> marks_below s2 s3 -> marks_below s1 s3.
Proof using.
  intros [A [d1 E1]] [B [d2 E2]]. assert (F : m_failed_blocks s2 = m_failed_blocks s1) by (rewrite E1; reflexivity).
  rewrite F in B. split; [eapply child_marked_trans; eauto|]. exists d2. rewrite E2 at 1. rewrite E1. reflexivity.
Qed.

Lemma invalid_walk_spec f n : forall fuel p b (s : CS), tree_wf (m_block_index s) -> f ∈ m_failed_blocks s ->
  m_block_index s !! p = Some b -> up (m_block_index s) n p = Some f -> (n <= fuel)%nat ->
  exists s', invalid_walk fuel p f s = (Ok tt, s') /\ marks_below s s' /\
    ((0 < n)%nat -> exists b', m_block_index s' !! p = Some b' /\ failed b' = true).
Proof using.
  induction n as [|n IH]; intros fuel p b s Hwf Hf Hp Hu Hn.
  - cbn in Hu. injection Hu as ->. exists s. split; [destruct fuel; cbn [invalid_walk]; rewrite bool_decide_eq_true_2 by reflexivity; reflexivity|].
    split; [apply marks_below_refl|lia].
  - destruct fuel as [|fuel]; [lia|]. cbn [invalid_walk].
    assert (Hne : f <> p) by (intros ->; pose proof (up_height _ Hwf _ _ _ _ _ Hp Hu Hp); lia).
    pose proof Hu as Hu2. cbn [up] in Hu2. rewrite Hp in Hu2. cbn in Hu2. destruct (pprev b) as [q|] eqn:Eq; [|discriminate]. cbn in Hu2.
    rewrite bool_decide_eq_false_2 by auto. unfold mbind, stm_bind, get_st, lift_st. rewrite (deref_ok _ p b Hp).
    set (s1 := note_dirty p (update_index <[p := set_nStatus b (Z.lor (nStatus b) BLOCK_FAILED_CHILD)]> s)).
    assert (E1 : mark_status p BLOCK_FAILED_CHILD s = (Ok tt, s1)).
    { unfold mark_status, mbind, stm_bind, get_st, lift_st. rewrite (deref_ok _ p b Hp). reflexivity. }
    rewrite E1, Eq. cbn [access].
    assert (M1 : marks_below s s1).
    { split; [apply (child_marked_one _ _ p b f); auto; exists (S n); exact Hu|]. eexists. reflexivity. }
    pose proof (child_marked_restatused _ _ _ (proj1 M1)) as R1.
    destruct (ok_prev _ _ _ (Hwf p b Hp) q Eq) as (bq & Hq & _). destruct (restatused_lookup _ _ R1 q bq Hq) as [st Hq1].
    destruct (IH fuel q _ s1 (restatused_tree _ _ R1 Hwf) Hf Hq1 ltac:(rewrite (restatused_up _ _ R1); exact Hu2) ltac:(lia)) as (s' & E & M & _).
    exists s'. split; [exact E|]. split; [eapply marks_below_trans; eauto|]. intros _.
    eapply (child_marked_failed _ _ _ p _ (proj1 M)); [unfold s1; cbn; apply lookup_insert_eq|apply failed_child].
Qed.

(** The blocks of the set were found invalid. *)
Definition failed_blocks_ok (s : CS) : Prop := forall f, f ∈ m_failed_blocks s ->
  exists b, m_block_index s !! f = Some b /\ Z.land (nStatus b) BLOCK_FAILED_VALID <> 0.

Lemma failed_loop_spec p b (s : CS) l : tree_wf (m_block_index s) -> failed_blocks_ok s -> m_block_index s !! p = Some b ->
  (forall f, f ∈ l -> f ∈ m_failed_blocks s /\ f <> p) ->
  exists r s', failed_loop p l s = (Ok r, s') /\ (r = true <-> exists f, f ∈ l /\ ancestor (m_block_index s) f p) /\
    marks_below s s' /\ (r = false -> s' = s) /\ (r = true -> exists b', m_block_index s' !! p = Some b' /\ failed b' = true).
Proof using.
  intros Hwf Hfb Hp. induction l as [|f l IH]; intros Hl; cbn [failed_loop].
  { exists false, s. split; [reflexivity|]. split; [split; [discriminate|intros (f & Hf & _); apply elem_of_nil in Hf; contradiction]|].
    split; [apply marks_below_refl|]. split; [auto|discriminate]. }
  destruct (Hl f ltac:(left)) as [Hf Hfp]. destruct (Hfb f Hf) as (bf & Hbf & Hst).
  destruct (GetAncestor_is _ p b f bf Hwf Hp Hbf) as (a & Ea & Ra).
  unfold mbind at 1, stm_bind at 1, get_st at 1. cbn. unfold mbind at 1, stm_bind at 1, lift_st at 1. rewrite (deref_ok _ f bf Hbf).
  unfold mbind at 1, stm_bind at 1, lift_st at 1. rewrite Ea.
  destruct (decide (a = Some f)) as [Haf|Haf].
  - rewrite bool_decide_eq_true_2 by exact Haf. pose proof (proj1 Ra Haf) as [n Hn].
    unfold mbind, stm_bind, lift_st. apply Z.eqb_neq in Hst. rewrite Hst. cbn [negb assert_]. rewrite (deref_ok _ p b Hp).
    pose proof (up_height _ Hwf n p b f bf Hp Hn Hbf) as Hh.
    destruct (invalid_walk_spec f n (Z.to_nat (Chain.nHeight b - Chain.nHeight bf)) p b s Hwf Hf Hp Hn ltac:(lia)) as (s' & E & M & Hx).
    rewrite E. exists true, s'. split; [reflexivity|]. split; [split; [intros _; exists f; split; [left|exists n; exact Hn]|reflexivity]|].
    split; [exact M|]. split; [discriminate|]. intros _. apply Hx. destruct n; [|lia]. cbn in Hn. congruence.
  - rewrite bool_decide_eq_false_2 by exact Haf. destruct (IH ltac:(intros g Hg; apply Hl; right; exact Hg)) as (r & s' & E & R & M & E0 & E1).
    exists r, s'. split; [exact E|]. split; [|auto]. rewrite R. split; intros (g & Hg & Ha).
    + exists g. split; [right; exact Hg|exact Ha].
    + apply elem_of_cons in Hg as [->|Hg]; [tauto|]. exists g. auto.
Qed.

(** ** The invariant *)

Record headers_ok (s : CS) : Prop := {
  hs_tree : header_tree params (m_block_index s);
  hs_failed : failed_blocks_ok s;
  hs_best : forall p, m_best_header s = Some p -> is_Some (m_block_index s !! p);
}.

Lemma headers_ok_marks s s' : marks_below s s' -> headers_ok s -> headers_ok s'.
Proof using Hpow.
  intros [M [d E]] [Ht Hf Hb]. pose proof (child_marked_restatused _ _ _ M) as R. split.
  - eapply header_tree_same; eauto. apply same_headers_restatused, R.
  - intros f Hin. rewrite E in Hin. cbn in Hin. destruct (Hf f Hin) as (b & Hfb & Hst). specialize (M f). rewrite Hfb in M.
    destruct (m_block_index s' !! f) as [b'|]; [|contradiction]. exists b'. split; [reflexivity|].
    destruct M as [->|[-> _]]; [exact Hst|]. cbn [nStatus set_nStatus]. rewrite failed_valid_child. exact Hst.
  - intros p Hp. rewrite E in Hp. cbn in Hp. destruct (Hb p Hp) as [b Hpb]. destruct (restatused_lookup _ _ R p b Hpb) as [st ->]. eauto.
Qed.

(** The scripts of the block and of its ancestors have been checked. *)
Definition scripts_checked (b : CBlockIndex) : Prop := BLOCK_VALID_SCRIPTS <= Z.land (nStatus b) BLOCK_VALID_MASK.

(** The rules for a header that is not known yet, below [q]. *)
Record new_header_ok (env : arrival_env) (s : CS) (hd : CBlockHeader) (q : ptr) (bq : CBlockIndex) (mtp : Z) : Prop := {
  nh_parent : has_hash (m_block_index s) q bq (hashPrevBlock hd);
  nh_unfailed : failed bq = false;
  nh_pow : CheckProofOfWork (header_hash hd) (hdr_nBits hd) params = true;
  nh_required : GetNextWorkRequired (m_block_index s) (Some q) params = Ok (hdr_nBits hd);
  nh_mtp : GetMedianTimePast (m_block_index s) q = Ok mtp;
  nh_rules : header_valid params (known_checkpoint env) (clock env) bq (hdr_nBits hd) mtp hd;
  nh_clean : scripts_checked bq \/ forall f, f ∈ m_failed_blocks s -> ~ ancestor (m_block_index s) f q;
}.

Lemma failed_valid_failed b : Z.land (nStatus b) BLOCK_FAILED_VALID <> 0 -> failed b = true.
Proof using.
  intros Hn. unfold failed. apply negb_true_iff, Z.eqb_neq. intros E. apply Hn.
  change BLOCK_FAILED_VALID with (Z.land BLOCK_FAILED_MASK BLOCK_FAILED_VALID). rewrite Z.land_assoc, E. reflexivity.
Qed.

Lemma IsValid_scripts b : failed b = false -> IsValid b BLOCK_VALID_SCRIPTS = Ok (bool_decide (scripts_checked b)).
Proof using.
  intros Hf. unfold IsValid. change (Z.land BLOCK_VALID_SCRIPTS (u32 (Z.lnot BLOCK_VALID_MASK)) =? 0) with true. cbn [assert_ mbind res_bind].
  unfold failed in Hf. rewrite Hf. f_equal. unfold scripts_checked. rewrite Z.geb_leb. apply Bool.eq_iff_eq_true. rewrite Z.leb_le, bool_decide_eq_true. reflexivity.
Qed.

Lemma Invalid_state (result : BlockValidationResult) reason st : exists st', Invalid result reason st = (false, st') /\ state_IsValid st' = false.
Proof using. eexists. split; [reflexivity|]. cbn. destruct (m_mode st); reflexivity. Qed.

(** The checks of a new header, one after the other. *)
Definition checked_header (env : arrival_env) (s : CS) (hd : CBlockHeader) (st : BlockValidationState) (r : res (bool * BlockValidationState) * CS) : Prop :=
  exists ok st' s', r = (Ok (ok, st'), s') /\ marks_below s s' /\ (ok = true <-> exists q bq mtp, new_header_ok env s hd q bq mtp) /\
    (ok = true -> st' = st /\ s' = s) /\ (ok = false -> state_IsValid st' = false).

Lemma checked_reject env s hd st st' s' : (forall q bq mtp, ~ new_header_ok env s hd q bq mtp) -> state_IsValid st' = false -> marks_below s s' ->
  checked_header env s hd st (Ok (false, st'), s').
Proof using.
  intros Hn Hst M. exists false, st', s'. split; [reflexivity|]. split; [exact M|]. split; [|split; [discriminate|auto]].
  split; [discriminate|]. intros (q & bq & mtp & Hq). destruct (Hn q bq mtp Hq).
Qed.

Lemma check_new_header_spec env hd st s : headers_ok s -> (forall p b, m_block_index s !! p = Some b -> Chain.nHeight b < 2 ^ 31 - 1) ->
  checked_header env s hd st (check_new_header params env hd st s).
Proof using Hpow.
  intros [[Hwf Hu He _] Hf _] Hlt. unfold check_new_header, run_check_on. unfold mbind at 1, stm_bind at 1.
  unfold CheckBlockHeader, get_block. unfold mbind at 1, stm_bind at 1. cbn [fst header header_only andb].
  destruct (CheckProofOfWork (header_hash hd) (hdr_nBits hd) params) eqn:Epow; cbn [negb].
  2: { unfold reject. destruct (Invalid_state BLOCK_INVALID_HEADER "high-hash" st) as (st' & -> & Hst).
       apply checked_reject; [|exact Hst|apply marks_below_refl]. intros q bq mtp [_ _ E _ _ _ _]. congruence. }
  unfold mret, stm_ret at 1. cbn [negb]. unfold mbind at 1, stm_bind at 1, get_st at 1.
  destruct (LookupBlockIndex (m_block_index s) (hashPrevBlock hd)) as [q|] eqn:El.
  2: { destruct (Invalid_state BLOCK_MISSING_PREV "prev-blk-not-found" st) as (st' & E & Hst). rewrite E.
       apply checked_reject; [|exact Hst|apply marks_below_refl]. intros q bq mtp [Hq _ _ _ _ _ _]. exact (proj1 (LookupBlockIndex_None _ _) El q bq Hq). }
  destruct (LookupBlockIndex_Some _ _ _ El) as (bq & Hq & Ex).
  assert (Only : forall q' bq' mtp, new_header_ok env s hd q' bq' mtp -> q' = q /\ bq' = bq).
  { intros q' bq' mtp [[Hq' Ex'] _ _ _ _ _ _]. assert (q' = q) as -> by (eapply Hu; split; eauto). split; congruence. }
  unfold mbind at 1, stm_bind at 1, lift_st at 1. rewrite (deref_ok _ q bq Hq). fold (failed bq).
  destruct (failed bq) eqn:Efb.
  { destruct (Invalid_state BLOCK_INVALID_PREV "bad-prevblk" st) as (st' & E & Hst). rewrite E.
    apply checked_reject; [|exact Hst|apply marks_below_refl]. intros q' bq' mtp Hn. destruct (Only _ _ _ Hn) as [-> ->]. destruct Hn. congruence. }
  destruct (he_bits _ _ _ (He q bq Hq)) as [B1 B2]. destruct (GetNextWorkRequired_total params Hpow _ Hwf q bq Hq B1 B2) as (req & Er & _).
  destruct (ContextualCheckBlockHeader_spec _ params (known_checkpoint env) (clock env) q bq req (header_only hd) st Hwf Hq (Hlt q bq Hq) Er)
    as (mtp & ok & st1 & Em & E & R & Es & Ei).
  unfold mbind at 1, stm_bind at 1. rewrite E. destruct ok; cbn [negb].
  2: { apply checked_reject; [|auto|apply marks_below_refl]. intros q' bq' mtp' Hn. destruct (Only _ _ _ Hn) as [-> ->]. destruct Hn as [_ _ _ N1 N2 N3 _].
       assert (req = hdr_nBits hd) as -> by congruence. assert (mtp' = mtp) as -> by congruence. apply R in N3. discriminate. }
  destruct (R) as [Rv _]. specialize (Rv eq_refl). rewrite (Es eq_refl). pose proof (proj1 Rv) as Eb. cbn [header header_only] in Eb, Rv.
  unfold mbind at 1, stm_bind at 1, lift_st at 1. rewrite (IsValid_scripts bq Efb).
  assert (Acc : scripts_checked bq \/ (forall f, f ∈ m_failed_blocks s -> ~ ancestor (m_block_index s) f q) -> new_header_ok env s hd q bq mtp).
  { intros Hc. split; auto; [split; auto|congruence|rewrite Eb; exact Rv]. }
  destruct (bool_decide_reflect (scripts_checked bq)) as [Hsc|Hsc].
  { exists true, st, s. split; [reflexivity|]. split; [apply marks_below_refl|]. split; [|split; [auto|discriminate]]. split; [eauto 6|reflexivity]. }
  destruct (failed_loop_spec q bq s (elements (m_failed_blocks s)) Hwf Hf Hq) as (r & s' & El' & Rr & M & E0 & _).
  { intros f Hin. apply elem_of_elements in Hin. split; [exact Hin|]. intros ->. destruct (Hf q Hin) as (b' & Hb' & Hst).
    apply failed_valid_failed in Hst. congruence. }
  unfold mbind at 1, stm_bind at 1. rewrite El'. destruct r.
  - destruct (Invalid_state BLOCK_INVALID_PREV "bad-prevblk" st) as (st' & Ei' & Hst). rewrite Ei'.
    apply checked_reject; [|exact Hst|exact M]. intros q' bq' mtp' Hn. destruct (Only _ _ _ Hn) as [-> ->]. destruct Hn as [_ _ _ _ _ _ [Hc|Hc]]; [auto|].
    destruct (proj1 Rr eq_refl) as (f & Hin & Ha). apply elem_of_elements in Hin. exact (Hc f Hin Ha).
  - rewrite (E0 eq_refl). exists true, st, s. split; [reflexivity|]. split; [apply marks_below_refl|]. split; [|split; [auto|discriminate]].
    split; [|reflexivity]. intros _. exists q, bq, mtp. apply Acc. right. intros f Hin Ha.
    assert (false = true) by (apply Rr; exists f; split; [apply elem_of_elements; exact Hin|exact Ha]). discriminate.
Qed.

(** ** [AcceptBlockHeader] *)

(** The rules under which a header is taken: the genesis block, a known header
    that is not marked, or a new one that keeps the rules and comes with enough
    work. *)
Definition acceptable (env : arrival_env) (min_pow_checked : bool) (s : CS) (hd : CBlockHeader) : Prop :=
  let x := header_hash hd in
  (x = hashGenesisBlock params /\ min_pow_checked = true) \/
  (x <> hashGenesisBlock params /\ exists p b, has_hash (m_block_index s) p b x /\ failed b = false) \/
  (x <> hashGenesisBlock params /\ min_pow_checked = true /\ (forall p b, ~ has_hash (m_block_index s) p b x) /\
     exists q bq mtp, new_header_ok env s hd q bq mtp).

(** The header was known, or an entry was made for it. *)
Definition header_added (s s' : CS) (hd : CBlockHeader) (p : ptr) : Prop :=
  exists b, has_hash (m_block_index s') p b (header_hash hd) /\
    (s' = s \/ (m_block_index s !! p = None /\ s' = with_entry p b s /\
       exists q bq, m_block_index s !! q = Some bq /\ new_entry (m_block_index s) hd (header_hash hd) q bq b)).

Lemma headers_ok_added env s hd q bq mtp p b : headers_ok s -> header_typed hd -> Chain.nHeight bq < 2 ^ 31 - 1 -> new_header_ok env s hd q bq mtp ->
  (forall r br, ~ has_hash (m_block_index s) r br (header_hash hd)) -> m_block_index s !! p = None ->
  new_entry (m_block_index s) hd (header_hash hd) q bq b -> headers_ok (with_entry p b s).
Proof using Hpow.
  intros [Ht Hf Hb] Hty Hlt [[Hq _] _ Hp Hr Hm Hv _] Hfresh Hnone Hn. split.
  - eapply header_tree_extend; eauto.
  - intros f Hin. cbn in Hin |- *. destruct (Hf f Hin) as (bf & Hbf & Hst). exists bf. rewrite lookup_insert_ne by congruence. auto.
  - intros r Hr'. cbn in Hr' |- *. unfold better_header in Hr'. rewrite lookup_insert_is_Some. destruct (decide (p = r)) as [|Hne]; [auto|right].
    split; [exact Hne|]. destruct (m_best_header s) as [t|] eqn:Et; [|congruence]. destruct (Hb t eq_refl) as [bt Hbt]. rewrite Hbt in Hr'.
    destruct (uint_lt _ _); [congruence|]. assert (t = r) as -> by congruence. eauto.
Qed.

Lemma AcceptBlockHeader_spec env hd min_pow_checked st s : headers_ok s -> header_typed hd ->
  (forall p b, m_block_index s !! p = Some b -> Chain.nHeight b < 2 ^ 31 - 1) ->
  exists ok st' o s', AcceptBlockHeader params env hd min_pow_checked st s = (Ok (ok, st', o), s') /\ headers_ok s' /\
    (ok = true <-> acceptable env min_pow_checked s hd) /\
    (ok = true -> st' = st /\ exists p, o = Some p /\ header_added s s' hd p) /\
    (ok = false -> state_IsValid st' = false /\ marks_below s s').
Proof using Hpow HHL.
  intros Hs Hty Hlt. pose proof Hs as [[Hwf Hu He (g & bg & Hg & _)] _ _]. unfold AcceptBlockHeader, acceptable. cbv zeta.
  unfold mbind at 1, stm_bind at 1, get_st at 1.
  destruct (bool_decide_reflect (header_hash hd = hashGenesisBlock params)) as [Eg|Eg].
  { destruct min_pow_checked; cbn [negb].
    - unfold mbind, stm_bind. rewrite <- Eg in Hg. rewrite (add_known s hd g) by (eapply LookupBlockIndex_unique; eauto).
      exists true, st, (Some g), s. split; [reflexivity|]. split; [exact Hs|]. split; [tauto|]. split; [|discriminate]. intros _.
      split; [reflexivity|]. exists g. split; [reflexivity|]. exists bg. auto.
    - destruct (Invalid_state BLOCK_HEADER_LOW_WORK "too-little-chainwork" st) as (st' & E & Hst). rewrite E.
      exists false, st', None, s. split; [reflexivity|]. split; [exact Hs|]. split; [intuition congruence|]. split; [discriminate|].
      split; [exact Hst|apply marks_below_refl]. }
  destruct (LookupBlockIndex (m_block_index s) (header_hash hd)) as [p|] eqn:El.
  { destruct (LookupBlockIndex_Some _ _ _ El) as (b & Hp & Ex). unfold mbind at 1, stm_bind at 1, lift_st at 1. rewrite (deref_ok _ p b Hp). fold (failed b).
    assert (Only : forall p' b', has_hash (m_block_index s) p' b' (header_hash hd) -> b' = b).
    { intros p' b' [Hp' Ex']. assert (p' = p) as -> by (eapply Hu; split; eauto). congruence. }
    destruct (failed b) eqn:Ef.
    - destruct (Invalid_state BLOCK_CACHED_INVALID "duplicate" st) as (st' & E & Hst). rewrite E.
      exists false, st', (Some p), s. split; [reflexivity|]. split; [exact Hs|]. split; [|split; [discriminate|split; [exact Hst|apply marks_below_refl]]].
      split; [discriminate|]. intros [[? _]|[(_ & p' & b' & Hh & Hf')|(_ & _ & Hno & _)]]; [congruence| |exfalso; apply (Hno p b); split; auto].
      rewrite (Only p' b' Hh) in Hf'. congruence.
    - exists true, st, (Some p), s. split; [reflexivity|]. split; [exact Hs|]. split; [|split; [|discriminate]].
      + split; [intros _|reflexivity]. right. left. split; [exact Eg|]. exists p, b. split; [split|]; auto.
      + intros _. split; [reflexivity|]. exists p. split; [reflexivity|]. exists b. split; [split|]; auto. }
  assert (Hno : forall r br, ~ has_hash (m_block_index s) r br (header_hash hd)) by (apply LookupBlockIndex_None, El).
  destruct (check_new_header_spec env hd st s Hs Hlt) as (ok & st1 & s1 & E1 & M & R & Ek & Ei).
  unfold mbind at 1, stm_bind at 1. rewrite E1. destruct ok; cbn [negb].
  2: { exists false, st1, None, s1. split; [reflexivity|]. split; [eapply headers_ok_marks; eauto|]. split; [|split; [discriminate|auto]].
       split; [discriminate|]. intros [[? _]|[(_ & p' & b' & Hh & _)|(_ & _ & _ & Hn)]]; [congruence|destruct (Hno p' b' Hh)|]. apply R, Hn. }
  destruct (Ek eq_refl) as [-> ->]. destruct (proj1 R eq_refl) as (q & bq & mtp & Hn). destruct min_pow_checked; cbn [negb].
  - pose proof Hn as [Hq _ _ _ _ _ _]. destruct (add_new s hd q bq Hwf Hty El (LookupBlockIndex_unique _ _ _ _ Hu Hq) (proj1 Hq)) as (p & b & Hp & Hnew & Ea).
    unfold mbind, stm_bind. rewrite Ea. exists true, st, (Some p), (with_entry p b s). split; [reflexivity|].
    split; [eapply headers_ok_added; eauto; apply (Hlt q), Hq|]. split; [split; [intros _; right; right; eauto 8|reflexivity]|]. split; [|discriminate].
    intros _. split; [reflexivity|]. exists p. split; [reflexivity|]. exists b. split; [split; [apply lookup_insert_eq|apply Hnew]|].
    right. split; [exact Hp|]. split; [reflexivity|]. exists q, bq. split; [apply Hq|exact Hnew].
  - destruct (Invalid_state BLOCK_HEADER_LOW_WORK "too-little-chainwork" st) as (st' & E & Hst). rewrite E.
    exists false, st', None, s. split; [reflexivity|]. split; [exact Hs|]. split; [|split; [discriminate|split; [exact Hst|apply marks_below_refl]]].
    split; [discriminate|]. intros [[? _]|[(_ & p' & b' & Hh & _)|(_ & ? & _)]]; [congruence|destruct (Hno p' b' Hh)|congruence].
Qed.

(** One header raises the tree by one block at most. *)
Lemma header_heights env hd min_pow_checked st s ok st' o s' n : headers_ok s -> header_typed hd ->
  (forall p b, m_block_index s !! p = Some b -> Chain.nHeight b + Z.of_nat (S n) < 2 ^ 31) ->
  AcceptBlockHeader params env hd min_pow_checked st s = (Ok (ok, st', o), s') ->
  forall p b, m_block_index s' !! p = Some b -> Chain.nHeight b + Z.of_nat n < 2 ^ 31.
Proof using Hpow HHL.
  intros Hs Hty Hlt E p b Hp.
  destruct (AcceptBlockHeader_spec env hd min_pow_checked st s Hs Hty) as (ok' & st2 & o' & s2 & E' & _ & _ & Ht & Hf); [intros r br Hr; specialize (Hlt r br Hr); lia|].
  rewrite E in E'. injection E' as <- <- <- <-. destruct ok.
  - destruct (Ht eq_refl) as (_ & r & _ & br & _ & [->|(_ & -> & q & bq & Hq & Hn)]); [specialize (Hlt p b Hp); lia|].
    cbn in Hp. apply lookup_insert_Some in Hp as [[_ <-]|[_ Hp]]; [|specialize (Hlt p b Hp); lia].
    specialize (Hlt q bq Hq). pose proof (ok_height _ _ _ (ht_tree _ _ (hs_tree _ Hs) q bq Hq)).
    rewrite (ne_height _ _ _ _ _ _ Hn), swrap_small by (try lia; word_lia). lia.
  - destruct (Hf eq_refl) as [_ [M _]]. destruct (restatused_lookup_inv _ _ (child_marked_restatused _ _ _ M) p b Hp) as (b0 & Hb0 & ->).
    specialize (Hlt p b0 Hb0). cbn. lia.
Qed.

Lemma ProcessNewBlockHeaders_spec env hds min_pow_checked : forall st o s, headers_ok s -> Forall header_typed hds ->
  (forall p b, m_block_index s !! p = Some b -> Chain.nHeight b + Z.of_nat (length hds) < 2 ^ 31) ->
  exists ok st' o' s', ProcessNewBlockHeaders params env hds min_pow_checked st o s = (Ok (ok, st', o'), s') /\ headers_ok s' /\
    (ok = true -> st' = st /\ forall hd, hd ∈ hds -> exists p b, has_hash (m_block_index s') p b (header_hash hd)) /\
    (ok = false -> state_IsValid st' = false) /\
    (forall p b x, has_hash (m_block_index s) p b x -> exists b', has_hash (m_block_index s') p b' x).
Proof using Hpow HHL.
  induction hds as [|hd hds IH]; intros st o s Hs Hty Hlt; cbn [ProcessNewBlockHeaders].
  { exists true, st, o, s. split; [reflexivity|]. split; [exact Hs|]. split; [split; [reflexivity|intros hd Hh; apply elem_of_nil in Hh; contradiction]|].
    split; [discriminate|eauto]. }
  apply Forall_cons in Hty as [Hty1 Hty].
  assert (Hlt1 : forall p b, m_block_index s !! p = Some b -> Chain.nHeight b < 2 ^ 31 - 1) by (intros p b Hp; specialize (Hlt p b Hp); cbn in Hlt; lia).
  destruct (AcceptBlockHeader_spec env hd min_pow_checked st s Hs Hty1 Hlt1) as (ok & st1 & o1 & s1 & E & Hs1 & _ & Ht & Hf).
  assert (Kept : forall p b x, has_hash (m_block_index s) p b x -> exists b', has_hash (m_block_index s1) p b' x).
  { intros p b x [Hp Ex]. destruct ok.
    - destruct (Ht eq_refl) as (_ & r & _ & br & _ & [->|(Hnone & -> & _)]); [exists b; split; auto|]. exists b. split; [|exact Ex]. cbn.
      rewrite lookup_insert_ne by congruence. exact Hp.
    - destruct (Hf eq_refl) as [_ [M _]]. destruct (restatused_lookup _ _ (child_marked_restatused _ _ _ M) p b Hp) as [st' Hst].
      exists (set_nStatus b st'). split; [exact Hst|exact Ex]. }
  unfold mbind, stm_bind. rewrite E. destruct ok; cbn [negb].
  - destruct (Ht eq_refl) as (-> & p & -> & b & Hb & _).
    destruct (IH st (Some p) s1 Hs1 Hty (header_heights _ _ _ _ _ _ _ _ _ _ Hs Hty1 Hlt E)) as (ok & st' & o' & s' & E' & Hs' & Ht' & Hf' & Hk').
    exists ok, st', o', s'. split; [exact E'|]. split; [exact Hs'|]. split; [|split; [exact Hf'|]].
    + intros Hok. destruct (Ht' Hok) as [-> Hall]. split; [reflexivity|]. intros hd' Hin. apply elem_of_cons in Hin as [->|Hin]; [|auto].
      destruct (Hk' p b _ Hb) as [b' Hb']. eauto.
    + intros r br x Hr. destruct (Kept r br x Hr) as [br' Hr']. eapply Hk'; eauto.
  - destruct (Hf eq_refl) as [Hst _]. exists false, st1, o, s1. split; [reflexivity|]. split; [exact Hs1|]. split; [discriminate|]. split; [auto|exact Kept].
Qed.
End Headers.

(** C11. [AcceptBlockHeader] is exactly its rules.  On a node whose tree of
    headers is well formed it always returns, the tree is well formed
    afterwards, and it accepts exactly the genesis block, known headers that
    are not marked invalid, and new headers below an unmarked parent that meet
    their proof of work, the demanded difficulty, the checkpoint, the median
    time past, the clock and the version rules, have no ancestor among the
    blocks found invalid (unless the parent's scripts were checked) and come
    with enough work.  An accepted header has an entry with its hash; a
    rejected one makes the state invalid and changes nothing but marks of
    blocks that descend from invalid ones. *)
Theorem AcceptBlockHeader_exact {HP : Primitives} {HB : BlockEnv} {W : Type} {HH : HeaderStore W} {HHL : HeaderStoreLaws W}
    (params : Params) (env : arrival_env) (hd : CBlockHeader) (min_pow_checked : bool) (st : BlockValidationState) (s : Chainstate W) :
  pow_params_ok params -> headers_ok params s -> header_typed hd -> (forall p b, m_block_index s !! p = Some b -> Chain.nHeight b < 2 ^ 31 - 1) ->
  exists ok st' o s', AcceptBlockHeader params env hd min_pow_checked st s = (Ok (ok, st', o), s') /\ headers_ok params s' /\
    (ok = true <-> acceptable params env min_pow_checked s hd) /\
    (ok = true -> st' = st /\ exists p, o = Some p /\ header_added s s' hd p) /\
    (ok = false -> state_IsValid st' = false /\ marks_below s s').
Proof. intros Hpow. apply AcceptBlockHeader_spec, Hpow. Qed.

(** C10. The tree of headers is well typed whatever headers are sent: starting
    from a well-formed tree, any list of headers in [ProcessNewBlockHeaders],
    valid or not, leaves a tree in which heights, skip pointers and hashes are
    right, the genesis block is the only root, and every other entry meets its
    proof of work, carries the difficulty that its branch demands, is later
    than the median time past of its parent, has an allowed version and the
    chain work of its parent plus its own; the marks of failed blocks and the
    best header stay entries of the tree.  The call returns, no known header is
    lost, and after success every header sent is known. *)
Theorem ProcessNewBlockHeaders_keeps_tree {HP : Primitives} {HB : BlockEnv} {W : Type} {HH : HeaderStore W} {HHL : HeaderStoreLaws W}
    (params : Params) (env : arrival_env) (hds : list CBlockHeader) (min_pow_checked : bool) (st : BlockValidationState) (o : option ptr) (s : Chainstate W) :
  pow_params_ok params -> headers_ok params s -> Forall header_typed hds ->
  (forall p b, m_block_index s !! p = Some b -> Chain.nHeight b + Z.of_nat (length hds) < 2 ^ 31) ->
  exists ok st' o' s', ProcessNewBlockHeaders params env hds min_pow_checked st o s = (Ok (ok, st', o'), s') /\ headers_ok params s' /\
    (ok = true -> st' = st /\ forall hd, hd ∈ hds -> exists p b, has_hash (m_block_index s') p b (header_hash hd)) /\
    (ok = false -> state_IsValid st' = false) /\
    (forall p b x, has_hash (m_block_index s) p b x -> exists b', has_hash (m_block_index s') p b' x).
Proof. intros Hpow. apply ProcessNewBlockHeaders_spec, Hpow. Qed.

(** ** A store of headers *)

(** An address that is not in use. *)
Definition next_ptr (h : heap) : ptr := S (foldr Nat.max 0%nat (map fst (map_to_list h))).

Lemma next_ptr_fresh h : h !! next_ptr h = None.
Proof.
  destruct (h !! next_ptr h) as [b|] eqn:E; [|reflexivity]. exfalso. apply elem_of_map_to_list in E.
  assert (M : forall l : list ptr, forall x, x ∈ l -> (x <= foldr Nat.max 0%nat l)%nat).
  { induction l as [|y l IH]; intros x Hx; [apply elem_of_nil in Hx; contradiction|]. cbn. apply elem_of_cons in Hx as [->|Hx]; [lia|]. specialize (IH x Hx). lia. }
  assert (Hin : next_ptr h ∈ map fst (map_to_list h)) by (apply list_elem_of_fmap; exists (next_ptr h, b); auto).
  specialize (M _ _ Hin). unfold next_ptr in M. lia.
Qed.

Definition fresh_index (hash : uint256) (hd : CBlockHeader) (prev skip : option ptr) (height : Z) (work : base_uint) : CBlockIndex :=
  {| phashBlock := Some hash; pprev := prev; pskip := skip; Chain.nHeight := height; nFile := 0; nDataPos := 0; nUndoPos := 0;
     nChainWork := work; nTx := 0; nChainTx := 0; nStatus := BLOCK_VALID_TREE; Chain.nVersion := hdr_nVersion hd;
     hashMerkleRoot := hdr_hashMerkleRoot hd; nTime := hdr_nTime hd; nBits := hdr_nBits hd; nNonce := hdr_nNonce hd;
     nSequenceId := 0; nTimeMax := hdr_nTime hd |}.

(** A store that keeps the laws; files always have room. *)
Definition plain_headers {HP : Primitives} {HB : BlockEnv} {W : Type} : HeaderStore W := {|
  AddToBlockIndex := fun hd =>
    s ← get_st;
    let h := m_block_index s in
    match LookupBlockIndex h (header_hash hd) with
    | Some p => mret p
    | None =>
        proof ← lift_st (GetBlockProof (dummy_index hd));
        b ← lift_st (match LookupBlockIndex h (hashPrevBlock hd) with
                     | None => Ok (fresh_index (header_hash hd) hd None None 0 proof)
                     | Some q => bq ← deref h q;
                                 skip ← GetAncestor h q (GetSkipHeight (i32 (Chain.nHeight bq + 1)));
                                 Ok (fresh_index (header_hash hd) hd (Some q) skip (i32 (Chain.nHeight bq + 1)) (op_add (nChainWork bq) proof))
                     end);
        _ ← modify_st (with_entry (next_ptr h) b);
        mret (next_ptr h)
    end;
  SaveBlockToDisk := fun block height dbp => mret (Some (default (0, 8) dbp));
|}.

Lemma plain_headers_laws {HP : Primitives} {HB : BlockEnv} {W : Type} : @HeaderStoreLaws W HP HB plain_headers.
Proof.
  split.
  - intros s hd p E. cbn [AddToBlockIndex plain_headers]. unfold mbind, stm_bind, get_st. rewrite E. reflexivity.
  - intros s hd q bq Hwf [_ Hb] E Eq Hq. destruct (GetBlockProof_spec (dummy_index hd) Hb) as (w & Ew & _).
    exists (next_ptr (m_block_index s)). cbn [AddToBlockIndex plain_headers]. unfold mbind, stm_bind, get_st, lift_st. rewrite E, Ew, Eq.
    rewrite (deref_ok _ q bq Hq). unfold res_bind. rewrite (GetAncestor_up _ Hwf q bq _ Hq). set (skip := if decide _ then _ else _).
    eexists. split; [apply next_ptr_fresh|]. split; [|reflexivity].
    split; try reflexivity; [cbn; apply (GetAncestor_up _ Hwf q bq _ Hq)|exists w; split; [exact Ew|reflexivity]|split; reflexivity].
Qed.

(** Headers whose hash is their nonce. *)
Definition mined_blocks : @BlockEnv zero_primitives := {|
  header_hash := fun hd => hdr_nNonce hd :: repeat 0 31; hash2 := fun _ _ => uint256_null; hash256 := fun _ => uint256_null;
  tx_hash := fun _ => uint256_null; GetWitnessHash := fun _ => uint256_null; HasWitness := fun _ => false;
  coinbase_witness := fun _ => []; block_size_no_witness := fun l => 60 * Z.of_nat (length l);
  block_size_with_witness := fun l => 60 * Z.of_nat (length l); CheckSignetBlockSolution := fun _ _ _ => true;
  script_num := fun h => [h] |}.

Definition sample_header (prev nonce time : Z) : CBlockHeader :=
  {| hdr_nVersion := 4; hashPrevBlock := prev :: repeat 0 31; hdr_hashMerkleRoot := uint256_null; hdr_nTime := time; hdr_nBits := 0x1d00ffff; hdr_nNonce := nonce |}.

(** A node that knows the genesis block only. *)
Definition genesis_entry : CBlockIndex :=
  set_nChainTx (set_data (set_nStatus (fresh_index uint256_null (sample_header 0 0 100) None None 0 (of_u64 4295032833))
    (Z.lor BLOCK_VALID_SCRIPTS BLOCK_HAVE_DATA)) 1 0 8) 1.
Definition genesis_state : Chainstate plain :=
  {| m_block_index := {[ 0%nat := genesis_entry ]}; m_chain := [Some 0%nat]; setBlockIndexCandidates := {[ 0%nat ]};
     m_best_invalid := None; m_best_header := Some 0%nat; m_failed_blocks := ∅; m_dirty_blockindex := ∅; m_blocks_unlinked := [];
     m_prune_locks := ∅; m_counters := {| nBlockSequenceId := 1; nBlockReverseSequenceId := -1; nLastPreciousChainwork := uint_zero |};
     m_flush := {| m_last_write := 0; m_last_flush := 0; m_check_for_pruning := false; m_have_pruned := false |};
     CoinsTip := new_cache (∅ : gmap COutPoint Coin, 10); block_files := ∅; undo_files := ∅ |}.

Lemma genesis_only (P : ptr -> CBlockIndex -> Prop) : P 0%nat genesis_entry -> forall p b, m_block_index genesis_state !! p = Some b -> P p b.
Proof. intros H0 p b Hp. cbn in Hp. apply lookup_singleton_Some in Hp as [<- <-]. exact H0. Qed.

Lemma genesis_headers_ok : headers_ok sample_params genesis_state.
Proof.
  split; [split|..].
  - apply tree_wfb_ok. vm_compute. reflexivity.
  - intros p q bp bq x [Hp _] [Hq _]. cbn in Hp, Hq. apply lookup_singleton_Some in Hp as [<- _], Hq as [<- _]. reflexivity.
  - intros p b. apply (genesis_only (fun _ => header_entry sample_params _)). split.
    + eauto.
    + reflexivity.
    + vm_compute. intuition discriminate.
    + apply of_u64_wf.
    + discriminate.
  - exists 0%nat, genesis_entry. split; [split|]; reflexivity.
  - intros f Hf. destruct (not_elem_of_empty f Hf).
  - intros p [= <-]. eexists. reflexivity.
Qed.

Definition quiet_env : arrival_env := {| clock := 1000; known_checkpoint := None; arrival_flush := calm |}.

#[local] Existing Instances zero_primitives mined_blocks plain_headers plain_headers_laws.

Lemma AcceptBlockHeader_exact_witness : exists s' p, AcceptBlockHeader sample_params quiet_env
    (sample_header 0 1 200) true (fresh_state BLOCK_RESULT_UNSET) genesis_state = (Ok (true, fresh_state BLOCK_RESULT_UNSET, Some p), s') /\
  headers_ok sample_params s' /\ header_added genesis_state s' (sample_header 0 1 200) p.
Proof.
  destruct (AcceptBlockHeader_exact sample_params quiet_env (sample_header 0 1 200) true
    (fresh_state BLOCK_RESULT_UNSET) genesis_state sample_params_ok genesis_headers_ok) as (ok & st' & o & s' & E & Hs & R & Ht & _).
  - vm_compute. intuition discriminate.
  - apply (genesis_only (fun _ b => Chain.nHeight b < 2 ^ 31 - 1)). cbn. lia.
  - assert (ok = true) as ->.
    { assert (F : match AcceptBlockHeader sample_params quiet_env
        (sample_header 0 1 200) true (fresh_state BLOCK_RESULT_UNSET) genesis_state with (Ok (r, _, _), _) => r = true | _ => False end) by (vm_compute; reflexivity).
      rewrite E in F. exact F. }
    destruct (Ht eq_refl) as (-> & p & -> & Ha). exists s', p. auto.
Defined.

Lemma ProcessNewBlockHeaders_keeps_tree_witness : exists s' p, ProcessNewBlockHeaders sample_params quiet_env
    [sample_header 0 1 200; sample_header 1 2 300; sample_header 1 3 300] true (fresh_state BLOCK_RESULT_UNSET) None genesis_state
      = (Ok (true, fresh_state BLOCK_RESULT_UNSET, p), s') /\ headers_ok sample_params s'.
Proof.
  destruct (ProcessNewBlockHeaders_keeps_tree sample_params quiet_env
    [sample_header 0 1 200; sample_header 1 2 300; sample_header 1 3 300] true (fresh_state BLOCK_RESULT_UNSET) None genesis_state sample_params_ok genesis_headers_ok)
    as (ok & st' & o & s' & E & Hs & Ht & _).
  - repeat constructor; vm_compute; intuition discriminate.
  - apply (genesis_only (fun _ b => Chain.nHeight b + 3 < 2 ^ 31)). cbn. lia.
  - assert (ok = true) as ->.
    { assert (F : match ProcessNewBlockHeaders sample_params quiet_env
        [sample_header 0 1 200; sample_header 1 2 300; sample_header 1 3 300] true (fresh_state BLOCK_RESULT_UNSET) None genesis_state
        with (Ok (r, _, _), _) => r = true | _ => False end) by (vm_compute; reflexivity).
      rewrite E in F. exact F. }
    destruct (Ht eq_refl) as [-> _]. exists s', o. auto.
Defined.
