(* ===== verification/BlockAcceptance.v ===== *)
(** * The arrival and the acceptance of blocks

    What [ReceivedBlockTransactions] leaves alone, and [AcceptBlock] as a whole. *)

From stdpp Require Import base numbers list gmap strings.
From Stdlib Require Import ZArith Lia.
From S2P Require Import Prelude ArithUint256 Compact Params Chain ActiveChain ChainWork Pow VersionBits Merkle Streams Serialize Compressor Transaction Coins CoinsProofs CoinsRefinement TxCheck Locks Blocks BlockRules Connect ConnectBlock ChainState ChainSelectionProofs ChainSelection ChainActivation LinkProofs Acceptance HeaderProofs.

Local Open Scope Z_scope.

(** * What the arrival of a block leaves alone

    [ReceivedBlockTransactions] always returns and touches neither the headers
    of the tree nor the marks of failed blocks; [CheckBlock] and
    [ContextualCheckBlock] together are exactly the rules for a block. *)

(** ** Linking *)

(** Headers and failure marks of [h] are those of [h']. *)
Record same_marks (h h' : heap) : Prop := {
  sm_headers : same_headers h h';
  sm_failed : forall q b b', h !! q = Some b -> h' !! q = Some b' -> Z.land (nStatus b') BLOCK_FAILED_VALID = Z.land (nStatus b) BLOCK_FAILED_VALID;
  sm_data : forall q b b', h !! q = Some b -> h' !! q = Some b' -> has_data b = true -> has_data b' = true;
}.

Lemma same_marks_refl h : same_marks h h.
Proof. split; [apply same_headers_refl|intros; congruence|intros; congruence]. Qed.

Lemma same_marks_trans h1 h2 h3 : same_marks h1 h2 -> same_marks h2 h3 -> same_marks h1 h3.
Proof.
  intros [A1 B1 C1] [A2 B2 C2]. split; [eapply same_headers_trans; eauto|..].
  - intros q b b3 Hb Hb3. destruct (proj1 A1 q b Hb) as (b2 & Hb2 & _). rewrite (B2 q b2 b3), (B1 q b b2) by assumption. reflexivity.
  - intros q b b3 Hb Hb3 Hd. destruct (proj1 A1 q b Hb) as (b2 & Hb2 & _). eauto.
Qed.

Lemma same_marks_insert h p b b' : h !! p = Some b -> same_header b b' -> Z.land (nStatus b') BLOCK_FAILED_VALID = Z.land (nStatus b) BLOCK_FAILED_VALID ->
  (has_data b = true -> has_data b' = true) -> same_marks h (<[p := b']> h).
Proof.
  intros Hp Hs Hf Hd. split; [apply (same_headers_insert h p b b'); assumption|..]; intros q c c' Hc Hc';
    (destruct (decide (q = p)) as [->|Hne]; [rewrite lookup_insert_eq in Hc'; simplify_eq; auto|rewrite lookup_insert_ne in Hc' by auto; simplify_eq; auto]).
Qed.

Section Link.
Context `{WorkOrder} {W : Type}.
Notation CS := (Chainstate W).

(** Only counts, candidates and the blocks that wait differ. *)
Record linked (s s' : CS) : Prop := {
  ln_marks : same_marks (m_block_index s) (m_block_index s');
  ln_waiting : forall e, e ∈ m_blocks_unlinked s' -> e ∈ m_blocks_unlinked s;
  ln_rest : exists c k, s' = update_unlinked (fun _ => m_blocks_unlinked s') (update_counters k (update_candidates (fun _ => c)
    (update_index (fun _ => m_block_index s') s)));
}.

Lemma linked_refl s : linked s s.
Proof using. split; [apply same_marks_refl|auto|]. exists (setBlockIndexCandidates s), (m_counters s). destruct s; reflexivity. Qed.

Lemma linked_trans s1 s2 s3 : linked s1 s2 -> linked s2 s3 -> linked s1 s3.
Proof using.
  intros [A1 B1 (c1 & k1 & E1)] [A2 B2 (c2 & k2 & E2)]. split; [eapply same_marks_trans; eauto|auto|].
  exists c2, k2. rewrite E2 at 1. rewrite E1. reflexivity.
Qed.

Definition waiting_known (h : heap) (u : list (option ptr * ptr)) : Prop := forall o q, (o, q) ∈ u -> is_Some (h !! q).

Lemma waiting_known_same h h' u u' : same_headers h h' -> (forall e, e ∈ u' -> e ∈ u) -> waiting_known h u -> waiting_known h' u'.
Proof using. intros [Hg _] Hu Hk o q Hin. destruct (Hk o q (Hu _ Hin)) as [b Hb]. destruct (Hg q b Hb) as (b' & -> & _). eauto. Qed.

Lemma link_queue_total fuel : forall queue (s : CS), tree_wf (m_block_index s) -> waiting_known (m_block_index s) (m_blocks_unlinked s) ->
  (forall q, q ∈ queue -> is_Some (m_block_index s !! q)) -> (length queue + length (m_blocks_unlinked s) <= fuel)%nat ->
  exists s', link_queue fuel queue s = (Ok tt, s') /\ linked s s'.
Proof using.
  induction fuel as [|fuel IH]; intros queue s Hwf Hk Hq Hf; (destruct queue as [|p rest]; [exists s; split; [reflexivity|apply linked_refl]|]).
  { cbn in Hf. lia. }
  destruct (Hq p ltac:(left)) as [b Hp]. cbn [link_queue].
  unfold mbind at 1, stm_bind at 1, get_st at 1. unfold mbind at 1, stm_bind at 1, lift_st at 1. rewrite (deref_ok _ p b Hp).
  assert (Hb : exists before, match pprev b with None => Ok 0 | Some q => bq ← deref (m_block_index s) q; Ok (nChainTx bq) end = Ok before).
  { destruct (pprev b) as [q|] eqn:Eq; [|eauto]. destruct (ok_prev _ _ _ (Hwf p b Hp) q Eq) as (bq & Hbq & _). rewrite (deref_ok _ q bq Hbq). cbn. eauto. }
  destruct Hb as [before Ebf]. unfold mbind at 1, stm_bind at 1, lift_st at 1. rewrite Ebf. unfold mbind at 1, stm_bind at 1, modify_st at 1.
  set (b1 := set_nSequenceId _ _). unfold mbind at 1, stm_bind at 1, modify_st at 1. set (s1 := update_counters _ _).
  destruct (TryAdd_spec p s1) as (c & Ec & _). unfold mbind at 1, stm_bind at 1. rewrite Ec. unfold mbind at 1, stm_bind at 1, modify_st at 1.
  set (s2 := update_unlinked _ _).
  assert (L : linked s s2).
  { split; [apply (same_marks_insert _ p b b1); auto; split; reflexivity| |exists c; eexists; reflexivity].
    intros e He. apply list_elem_of_filter in He as [_ He]. exact He. }
  pose proof (sm_headers _ _ (ln_marks _ _ L)) as Hs.
  destruct (IH (rest ++ waiting_for p (m_blocks_unlinked s)) s2) as (s' & E & L').
  - apply (same_headers_tree _ _ Hs Hwf).
  - apply (waiting_known_same _ _ _ _ Hs (ln_waiting _ _ L) Hk).
  - intros q Hin. assert (is_Some (m_block_index s !! q)) as [bq Hbq].
    { apply elem_of_app in Hin as [Hin|Hin]; [apply Hq; right; exact Hin|]. apply list_elem_of_fmap in Hin as ([o x] & -> & Hin).
      apply list_elem_of_filter in Hin as [_ Hin]. apply (Hk o x Hin). }
    destruct (proj1 Hs q bq Hbq) as (bq' & -> & _). eauto.
  - rewrite length_app. change (m_blocks_unlinked s2) with (still_unlinked p (m_blocks_unlinked s)). pose proof (split_unlinked p (m_blocks_unlinked s)). cbn [length] in Hf. lia.
  - exists s'. split; [exact E|eapply linked_trans; eauto].
Qed.

Lemma raised_status b : exists r st, RaiseValidity b BLOCK_VALID_TRANSACTIONS = Ok (r, set_nStatus b st) /\
  Z.testbit st 3 = Z.testbit (nStatus b) 3 /\ Z.land st BLOCK_FAILED_VALID = Z.land (nStatus b) BLOCK_FAILED_VALID.
Proof using.
  assert (E : set_nStatus b (nStatus b) = b) by (destruct b; reflexivity).
  unfold RaiseValidity. change (assert_ (Z.land BLOCK_VALID_TRANSACTIONS _ =? 0)) with (Ok tt : res unit). cbn [mbind res_bind].
  destruct (negb _); [exists false, (nStatus b); rewrite E; auto|]. destruct (_ <? _); [|exists false, (nStatus b); rewrite E; auto].
  rewrite andb_false_r. eexists _, _. split; [reflexivity|]. split.
  - rewrite Z.lor_spec, Z.land_spec. change (Z.testbit (u32 _) 3) with true. rewrite andb_true_r. apply orb_false_r.
  - rewrite Z.land_lor_distr_l. change (Z.land BLOCK_VALID_TRANSACTIONS BLOCK_FAILED_VALID) with 0. rewrite Z.lor_0_r, <- Z.land_assoc. reflexivity.
Qed.

Lemma has_data_bit b : Z.testbit (nStatus b) 3 = true <-> has_data b = true.
Proof using.
  unfold has_data. rewrite negb_true_iff, Z.eqb_neq. change BLOCK_HAVE_DATA with (2 ^ 3). split.
  - intros Hb Ez. assert (T : Z.testbit (Z.land (nStatus b) (2 ^ 3)) 3 = true) by (rewrite Z.land_spec, Hb; reflexivity). rewrite Ez in T. discriminate.
  - intros Hn. destruct (Z.testbit (nStatus b) 3) eqn:Hb; [reflexivity|]. destruct Hn. apply Z.bits_inj'. intros i Hi.
    rewrite Z.land_spec, testbit_pow2, Z.bits_0 by lia. destruct (Z.eqb_spec i 3) as [->|]; [rewrite Hb; reflexivity|apply andb_false_r].
Qed.

(** After the transactions of block [p] arrived. *)
Record arrived (p : ptr) (s s' : CS) : Prop := {
  av_marks : same_marks (m_block_index s) (m_block_index s');
  av_data : exists b, m_block_index s' !! p = Some b /\ has_data b = true;
  av_waiting : forall o q, (o, q) ∈ m_blocks_unlinked s' -> (o, q) ∈ m_blocks_unlinked s \/ q = p;
  av_rest : exists c k d, s' = update_dirty (fun _ => d) (update_unlinked (fun _ => m_blocks_unlinked s') (update_counters k (update_candidates (fun _ => c)
    (update_index (fun _ => m_block_index s') s))));
}.

Lemma ReceivedBlockTransactions_total params block p file pos (s : CS) b : tree_wf (m_block_index s) ->
  waiting_known (m_block_index s) (m_blocks_unlinked s) -> m_block_index s !! p = Some b ->
  exists s', ReceivedBlockTransactions params block p file pos s = (Ok tt, s') /\ arrived p s s'.
Proof using.
  intros Hwf Hk Hp. unfold ReceivedBlockTransactions. unfold mbind at 1, stm_bind at 1, get_st at 1. unfold mbind at 1, stm_bind at 1, lift_st at 1.
  rewrite (deref_ok _ p b Hp). set (bd := set_data b _ _ _). set (stw := if BuriedActiveAt _ _ _ then _ else _).
  assert (Hst : Z.testbit stw 3 = true /\ Z.land stw BLOCK_FAILED_VALID = Z.land (nStatus b) BLOCK_FAILED_VALID).
  { unfold stw, bd. cbn [nStatus set_data]. destruct (BuriedActiveAt _ _ _); rewrite ?Z.lor_spec, ?Z.land_lor_distr_l;
      change (Z.testbit BLOCK_HAVE_DATA 3) with true; change (Z.land BLOCK_HAVE_DATA BLOCK_FAILED_VALID) with 0;
      change (Z.land BLOCK_OPT_WITNESS BLOCK_FAILED_VALID) with 0; rewrite ?orb_true_r, ?Z.lor_0_r; auto. }
  destruct Hst as [H3 Hfv]. destruct (raised_status (set_nStatus bd stw)) as (r & st & Er & E3 & Ef). cbn [nStatus set_nStatus] in E3, Ef.
  unfold mbind at 1, stm_bind at 1, lift_st at 1. rewrite Er. set (b1 := set_nStatus (set_nStatus bd stw) st).
  unfold mbind at 1, stm_bind at 1, modify_st at 1. unfold mbind at 1, stm_bind at 1, modify_st at 1. unfold mbind at 1, stm_bind at 1, get_st at 1. set (s1 := note_dirty p _).
  assert (Hd1 : has_data b1 = true) by (apply has_data_bit; change (Z.testbit st 3 = true); congruence).
  assert (M1 : same_marks (m_block_index s) (m_block_index s1)).
  { apply (same_marks_insert _ p b b1); [exact Hp|split; reflexivity|cbn [b1 nStatus set_nStatus]; congruence|auto]. }
  pose proof (sm_headers _ _ M1) as Hs1. pose proof (same_headers_tree _ _ Hs1 Hwf) as Hwf1.
  assert (Hp1 : m_block_index s1 !! p = Some b1) by apply lookup_insert_eq.
  assert (Link : exists s', link_queue (S (length (m_blocks_unlinked s1))) [p] s1 = (Ok tt, s') /\ arrived p s s').
  { destruct (link_queue_total (S (length (m_blocks_unlinked s1))) [p] s1 Hwf1) as (s' & E & [L1 L2 (c & k & L3)]).
    - apply (waiting_known_same _ _ _ _ Hs1 (fun e He => He) Hk).
    - intros q Hq. apply list_elem_of_singleton in Hq as ->. eauto.
    - cbn. lia.
    - exists s'. split; [exact E|]. split; [eapply same_marks_trans; eauto| |intros o q Hin; left; apply (L2 _ Hin)|].
      + destruct (proj1 (sm_headers _ _ L1) p b1 Hp1) as (b' & Hb' & _). exists b'. split; [exact Hb'|]. apply (sm_data _ _ L1 p b1 b' Hp1 Hb' Hd1).
      + exists c, k, (m_dirty_blockindex s1). rewrite L3 at 1. reflexivity. }
  change (pprev b1) with (pprev b). destruct (pprev b) as [q|] eqn:Eq; [|exact Link].
  destruct (ok_prev _ _ _ (Hwf p b Hp) q Eq) as (bq0 & Hq0 & _). destruct (proj1 Hs1 q bq0 Hq0) as (bq & Hq & _).
  unfold mbind at 1, stm_bind at 1, lift_st at 1. rewrite (deref_ok _ q bq Hq). cbn [mbind res_bind]. destruct (HaveNumChainTxs bq); [exact Link|].
  unfold mbind, stm_bind, lift_st, IsValid. change (assert_ (Z.land BLOCK_VALID_TREE _ =? 0)) with (Ok tt : res unit). unfold res_bind.
  assert (Hkeep : forall u, (forall o x, (o, x) ∈ u -> (o, x) ∈ m_blocks_unlinked s \/ x = p) -> arrived p s (update_unlinked (fun _ => u) s1)).
  { intros u Hu. split; [exact M1|exists b1; auto|exact Hu|]. exists (setBlockIndexCandidates s), (m_counters s), (m_dirty_blockindex s1). destruct s; reflexivity. }
  assert (Ea : arrived p s s1) by (exact (Hkeep (m_blocks_unlinked s) ltac:(auto))).
  assert (Eb : arrived p s (update_unlinked (fun l => l ++ [(Some q, p)]) s1)).
  { apply (Hkeep (m_blocks_unlinked s ++ [(Some q, p)])). intros o x Hx. apply elem_of_app in Hx as [Hx|Hx]; [auto|]. apply list_elem_of_singleton in Hx. right. congruence. }
  destruct (negb _); [exists s1; auto|]. destruct (_ >=? _); [eexists; split; [reflexivity|exact Eb]|exists s1; auto].
Qed.
End Link.

(** * Accepting blocks

    [AcceptBlock] always returns, and stores exactly the blocks that are wanted
    and keep all rules; the blocks on disk are therefore always checked ones.
    A defect of the set of failed blocks is recorded at the end. *)

(** Writing a block may throw a file system error and changes nothing else of
    the state. *)
Class BlockSaveLaws (W : Type) `{BlockStore W, !HeaderStore W} : Prop := {
  save_block_law : forall block height dbp (s : Chainstate W), exists r, SaveBlockToDisk block height dbp s = (r, s) /\
    match r with Ok _ => True | Fail e => exists what, e = Thrown what /\ is_runtime_error what = true end;
}.

(** ** The checks of a block *)

Section Checks.
Context {HP : Primitives} {HB : BlockEnv} {HT : TxEnv} {HSc : ScriptEnv} {HL : LockEnv} {W : Type}.
Context (params : Params).
Notation CS := (Chainstate W).

(** The context-free checks do not look at the witness flag. *)
Lemma CheckBlock_witness_flag pow merkle b st r b' st' : CheckBlock params pow merkle (b, st) = (r, (b', st')) ->
  m_checked_witness_commitment b' = m_checked_witness_commitment b.
Proof using.
  assert (Kr : forall result reason b0 st0 r0 b1 st1, reject result reason (b0, st0) = (r0, (b1, st1)) ->
    m_checked_witness_commitment b1 = m_checked_witness_commitment b0) by (intros ? ? ? ? ? ? ? [= _ <- _]; reflexivity).
  assert (Km : forall b0 st0 r0 b1 st1, CheckMerkleRoot (b0, st0) = (r0, (b1, st1)) -> m_checked_witness_commitment b1 = m_checked_witness_commitment b0).
  { intros b0 st0 r0 b1 st1. unfold CheckMerkleRoot, mbind, stm_bind, get_block, lift_st. cbn [fst]. destruct (m_checked_merkle_root b0); [intros [= _ <- _]; reflexivity|].
    destruct (BlockMerkleRoot _ _ _) as [[root mutated]|e]; [|intros [= _ <- _]; reflexivity]. destruct (negb _); [apply Kr|]. destruct mutated; [apply Kr|].
    intros [= _ <- _]. reflexivity. }
  assert (Kb : forall b2 b0 st0 r0 b1 st1, check_body pow merkle b2 (b0, st0) = (r0, (b1, st1)) -> m_checked_witness_commitment b1 = m_checked_witness_commitment b0).
  { intros b2 b0 st0 r0 b1 st1. unfold check_body. destruct (_ || _)%bool; [apply Kr|]. destruct (match vtx b2 with [] => true | _ => _ end); [apply Kr|].
    destruct (existsb _ _); [apply Kr|]. unfold mbind, stm_bind, lift_st. destruct (check_transactions _) as [[reason|]|e]; [apply Kr| |intros [= _ <- _]; reflexivity].
    destruct (_ >? _); [apply Kr|]. destruct (pow && merkle)%bool; intros [= _ <- _]; reflexivity. }
  unfold CheckBlock, CheckBlockHeader, mbind, stm_bind, get_block. cbn [fst]. destruct (fChecked b); [intros [= _ <- _]; reflexivity|].
  destruct (pow && _)%bool; [intros [= _ <- _]; reflexivity|]. cbn [mret stm_ret negb].
  destruct (_ && _)%bool; [apply Kr|].
  destruct ((if merkle then CheckMerkleRoot else mret true) (b, st)) as [[ok|e] [b1 st1]] eqn:E1.
  - assert (E : m_checked_witness_commitment b1 = m_checked_witness_commitment b) by (destruct merkle; [eapply Km; eauto|injection E1 as _ <- _; reflexivity]).
    destruct ok; cbn [negb]; [intros E2; rewrite <- E; eapply Kb; eauto|intros [= _ <- _]; exact E].
  - intros [= _ <- _]. destruct merkle; [eapply Km; eauto|discriminate].
Qed.

(** The memory of a block is justified. *)
Definition memory_sound (b : CBlock) : Prop := flags_sound params b /\ witness_flag_sound b.

Lemma CheckBlock_on_block b st (s : CS) : memory_sound b -> exists ok b' st',
  run_check_on (CheckBlock params true true) b st s = (Ok (ok, st', b'), s) /\ (ok = true <-> block_valid params true true b) /\
  same_block b b' /\ memory_sound b' /\ (ok = true -> st' = st) /\ (ok = false -> state_IsValid st' = false).
Proof using.
  intros [Hf Hw]. destruct (CheckBlock_spec params true true b st Hf) as (ok & b' & st' & E & R & Eh & Ev & (Hf' & _) & Es & Ei).
  exists ok, b', st'. unfold run_check_on. rewrite E. split; [reflexivity|]. split; [|split; [split; assumption|split; [split; [exact Hf'|]|auto]]].
  - rewrite R. split; [intros [Hc|Hv]; [apply Hf, Hc|exact Hv]|auto].
  - intros Hc. rewrite (CheckBlock_witness_flag _ _ _ _ _ _ _ E) in Hc. apply (witness_ok_same true b); [split; assumption|apply Hw, Hc].
Qed.

Lemma block_valid_coinbase b : block_valid params true true b -> has_coinbase b.
Proof using. intros Hv. apply block_valid_body in Hv as [_ Hb]. eapply body_has_coinbase; eauto. Qed.

(** What the two checks together demand of a block below [q]. *)
Definition block_rules (h : heap) (q : ptr) (b : CBlock) : Prop := block_valid params true true b /\
  exists bq mtp, h !! q = Some bq /\ GetMedianTimePast h q = Ok mtp /\ contextual_valid params (Chain.nHeight bq + 1) mtp b.

Lemma check_whole_block_spec h q bq b st (s : CS) : tree_wf h -> h !! q = Some bq -> Chain.nHeight bq < 2 ^ 31 - 1 -> memory_sound b -> exists ok b' st',
  check_whole_block params h (Some q) b st s = (Ok (ok, st', b'), s) /\ (ok = true <-> block_rules h q b) /\
  same_block b b' /\ memory_sound b' /\ (ok = true -> st' = st) /\ (ok = false -> state_IsValid st' = false).
Proof using.
  intros Hwf Hq Hlt Hm. destruct (CheckBlock_on_block b st s Hm) as (ok & b1 & st1 & E & R & Sb & [Mf Mw] & Es & Ei).
  unfold check_whole_block, mbind, stm_bind. rewrite E. destruct ok; cbn [negb].
  2: { exists false, b1, st1. split; [reflexivity|]. split; [|split; [exact Sb|split; [split; assumption|split; [discriminate|auto]]]].
       split; [discriminate|]. intros [Hv _]. apply R, Hv. }
  rewrite (Es eq_refl) in *. pose proof (proj1 R eq_refl) as Hv. destruct (GetMedianTimePast_total h Hwf q bq Hq) as [mtp Em].
  assert (Hcb : has_coinbase b1) by (destruct (block_valid_coinbase b Hv) as (cb & rest & i & ins & E1 & E2); exists cb, rest, i, ins; rewrite (proj2 Sb); auto).
  destruct (ok_height _ _ _ (Hwf q bq Hq)) as [H0 _].
  destruct (ContextualCheckBlock_spec h params q bq mtp b1 st Hq ltac:(lia) Em Hcb Mw) as (ok & b2 & st2 & E2 & R2 & Eh2 & Ev2 & (F1 & F2 & F3) & Es2 & Ei2).
  unfold run_check_on. rewrite E2. exists ok, b2, st2. split; [reflexivity|]. split; [|split; [|split; [|auto]]].
  - rewrite R2. split.
    + intros Hc. split; [exact Hv|]. exists bq, mtp. split; [exact Hq|]. split; [exact Em|]. apply (contextual_valid_same _ _ _ b1); [destruct Sb; split; congruence|exact Hc].
    + intros (_ & bq' & mtp' & Hq' & Em' & Hc). assert (bq' = bq) as -> by congruence. assert (mtp' = mtp) as -> by congruence. eapply contextual_valid_same; eauto.
  - destruct Sb. split; congruence.
  - split; [|exact F3]. split.
    + rewrite F1. intros Hc. apply (block_valid_ext params true true b1); [exact Eh2|exact Ev2|apply Mf, Hc].
    + rewrite F2. unfold merkle_ok. rewrite Eh2, Ev2. apply Mf.
Qed.
End Checks.

(** ** The invariant of arrivals *)

Section Accept.
Context {HP : Primitives} {HPL : PrimitivesLaws} {HB : BlockEnv} {HT : TxEnv} {HSc : ScriptEnv} {HL : LockEnv}.
Context {W : Type} {HW : CCoinsView W} {HA : ViewAbs W} {HVL : ViewLaws W} {HO : WorkOrder}.
Context {HS : BlockStore W} {HSL : BlockStoreLaws W} {HH : HeaderStore W} {HHL : HeaderStoreLaws W} {HBL : BlockSaveLaws W}.
Context (params : Params) (Hpow : pow_params_ok params) (ctx : node_context).
Notation CS := (Chainstate W).

(** The block stored for an entry has its hash and was checked. *)
Definition stored_rules (h : heap) (p : ptr) (block : CBlock) : Prop := exists b, has_hash h p b (header_hash (header block)) /\
  block_valid params true true block /\ forall q, pprev b = Some q -> block_rules params h q block.

Record arrival_ok (s : CS) : Prop := {
  ao_headers : headers_ok params s;
  ao_waiting : waiting_known (m_block_index s) (m_blocks_unlinked s);
  ao_view : view_ok (CoinsTip s);
  ao_tip : forall t, Tip (m_chain s) = Some t -> is_Some (m_block_index s !! t);
  ao_files : map_Forall (stored_rules (m_block_index s)) (block_files s);
  ao_root : forall p b, m_block_index s !! p = Some b -> pprev b = None -> has_data b = true;
}.

Lemma block_rules_grown h h' q bq b : tree_wf h -> grown h h' -> h !! q = Some bq -> block_rules params h q b -> block_rules params h' q b.
Proof using.
  intros Hwf Hg Hq (Hv & bq' & mtp & Hq' & Em & Hc). split; [exact Hv|]. destruct (Hg q bq' Hq') as (bq2 & Hq2 & Sq).
  exists bq2, mtp. split; [exact Hq2|]. rewrite (grown_median h h' Hwf Hg q bq Hq), (sh_height _ _ Sq). auto.
Qed.

Lemma stored_rules_grown h h' p block : tree_wf h -> grown h h' -> stored_rules h p block -> stored_rules h' p block.
Proof using.
  intros Hwf Hg (b & [Hp Ex] & Hv & Hr). destruct (Hg p b Hp) as (b' & Hp' & Sb). exists b'. rewrite <- (sh_hash _ _ Sb) in Ex.
  split; [split; assumption|]. split; [exact Hv|]. intros q Eq. rewrite (sh_prev _ _ Sb) in Eq.
  destruct (ok_prev _ _ _ (Hwf p b Hp) q Eq) as (bq & Hq & _). eapply block_rules_grown; eauto.
Qed.

(** Growing the index, with the rest as it was. *)
Lemma arrival_ok_grown (s s' : CS) : arrival_ok s -> headers_ok params s' -> grown (m_block_index s) (m_block_index s') ->
  m_blocks_unlinked s' = m_blocks_unlinked s -> CoinsTip s' = CoinsTip s -> m_chain s' = m_chain s -> block_files s' = block_files s ->
  (forall p b, m_block_index s' !! p = Some b -> pprev b = None -> has_data b = true) -> arrival_ok s'.
Proof using.
  intros [A1 A2 A3 A4 A5 A6] Hh Hg E1 E2 E3 E4 Hr. pose proof (ht_tree _ _ (hs_tree _ _ A1)) as Hwf. split; [exact Hh|..].
  - rewrite E1. intros o q Hin. destruct (A2 o q Hin) as [b Hb]. destruct (Hg q b Hb) as (b' & -> & _). eauto.
  - rewrite E2. exact A3.
  - rewrite E3. intros t Ht. destruct (A4 t Ht) as [b Hb]. destruct (Hg t b Hb) as (b' & -> & _). eauto.
  - rewrite E4. intros p block Hp. apply (stored_rules_grown (m_block_index s)); auto.
  - exact Hr.
Qed.

Lemma arrival_ok_marks (s s' : CS) : arrival_ok s -> marks_below s s' -> arrival_ok s'.
Proof using Hpow.
  intros Ha M. pose proof M as [Mc [d E]]. pose proof (child_marked_restatused _ _ _ Mc) as R.
  apply (arrival_ok_grown s); try (rewrite E; reflexivity); auto.
  - eapply headers_ok_marks; [exact Hpow|exact M|apply Ha].
  - apply same_headers_restatused, R.
  - intros p b Hp Er. destruct (restatused_lookup_inv _ _ R p b Hp) as (b0 & Hb0 & Eb). specialize (Mc p). rewrite Hb0, Hp in Mc.
    assert (Hd : has_data b0 = true) by (apply (ao_root _ Ha p b0 Hb0); rewrite Eb in Er; exact Er).
    destruct Mc as [->|[-> _]]; [exact Hd|rewrite has_data_child; exact Hd].
Qed.

Lemma arrival_ok_added (s s' : CS) hd p : arrival_ok s -> headers_ok params s' -> header_added s s' hd p -> arrival_ok s'.
Proof using.
  intros Ha Hh (b & _ & [->|(Hn & -> & q & bq & _ & Hnew)]); [exact Ha|].
  apply (arrival_ok_grown s); auto; [apply grown_insert, Hn|]. intros r br Hr Er. cbn in Hr. apply lookup_insert_Some in Hr as [[<- <-]|[_ Hr]].
  - rewrite (ne_prev _ _ _ _ _ _ Hnew) in Er. discriminate.
  - apply (ao_root _ Ha r br Hr Er).
Qed.

(** A mark on one entry. *)
Lemma arrival_ok_failed (s : CS) p b : arrival_ok s -> m_block_index s !! p = Some b ->
  mark_status p BLOCK_FAILED_VALID s = (Ok tt, note_dirty p (update_index <[p := set_nStatus b (Z.lor (nStatus b) BLOCK_FAILED_VALID)]> s)) /\
  arrival_ok (note_dirty p (update_index <[p := set_nStatus b (Z.lor (nStatus b) BLOCK_FAILED_VALID)]> s)).
Proof using Hpow.
  intros Ha Hp. split; [unfold mark_status, mbind, stm_bind, get_st, lift_st; rewrite (deref_ok _ p b Hp); reflexivity|].
  set (b' := set_nStatus b _).
  assert (Sh : same_headers (m_block_index s) (<[p := b']> (m_block_index s))) by (apply (same_headers_insert _ p b b' Hp); split; reflexivity).
  apply (arrival_ok_grown s); auto; [|apply Sh|].
  - destruct (ao_headers _ Ha) as [Ht Hf Hb]. split; [eapply header_tree_same; eauto|..].
    + intros f Hin. destruct (Hf f Hin) as (bf & Hbf & Hst). cbn. destruct (decide (f = p)) as [->|Hne].
      * exists b'. rewrite lookup_insert_eq. split; [reflexivity|]. cbn. rewrite Z.land_lor_distr_l. change (Z.land BLOCK_FAILED_VALID BLOCK_FAILED_VALID) with 32.
        intros E0. apply Z.lor_eq_0_iff in E0 as [_ E0]. discriminate.
      * exists bf. rewrite lookup_insert_ne by auto. auto.
    + intros r Hr. cbn. destruct (Hb r Hr) as [br Hbr]. destruct (proj1 Sh r br Hbr) as (b2 & -> & _). eauto.
  - intros r br Hr Er. cbn in Hr. apply lookup_insert_Some in Hr as [[<- <-]|[_ Hr]]; [|apply (ao_root _ Ha r br Hr Er)].
    pose proof (ao_root _ Ha p b Hp Er) as Hd. unfold has_data in *. cbn. rewrite Z.land_lor_distr_l. change (Z.land BLOCK_FAILED_VALID BLOCK_HAVE_DATA) with 0.
    rewrite Z.lor_0_r. exact Hd.
Qed.

(** A block is ignored that is there already; or that nobody asked for, and that
    has been there (and was pruned), has less work than the tip, is more than 288
    blocks ahead of it, or has less work than any chain must have. *)
Definition ignored (s : CS) (b : CBlockIndex) (fRequested : bool) : Prop :=
  has_data b = true \/
  fRequested = false /\
  (nTx b <> 0 \/
   (exists t bt, Tip (m_chain s) = Some t /\ m_block_index s !! t = Some bt /\ uint_lt (nChainWork b) (nChainWork bt) = true) \/
   Height (m_chain s) + 288 < Chain.nHeight b \/
   uint_lt (nChainWork b) (minimum_chain_work ctx) = true).

Lemma block_unwanted_iff (s : CS) b fRequested : arrival_ok s -> exists r, block_unwanted ctx s b fRequested = Ok r /\ (r = true <-> ignored s b fRequested).
Proof using.
  intros Ha. unfold block_unwanted, ignored, has_data, MIN_BLOCKS_TO_KEEP.
  assert (Hw : exists o, (match Tip (m_chain s) with None => Ok None | Some t => bt ← deref (m_block_index s) t; Ok (Some (nChainWork bt)) end) = Ok o /\
    (match o with Some w => uint_lt (nChainWork b) w | None => false end = true <->
     exists t bt, Tip (m_chain s) = Some t /\ m_block_index s !! t = Some bt /\ uint_lt (nChainWork b) (nChainWork bt) = true)).
  { destruct (Tip (m_chain s)) as [t|] eqn:Et.
    - destruct (ao_tip _ Ha t Et) as [bt Ht]. rewrite (deref_ok _ t bt Ht). eexists. split; [reflexivity|]. split; [eauto|].
      intros (t' & bt' & [= <-] & Ht' & E). assert (bt' = bt) as -> by congruence. exact E.
    - eexists. split; [reflexivity|]. split; [discriminate|]. intros (t & bt & ? & _). discriminate. }
  destruct Hw as (o & -> & Hw). cbn [mbind res_bind]. eexists. split; [reflexivity|].
  rewrite orb_true_iff, andb_true_iff, !orb_true_iff, !negb_true_iff, !Z.eqb_neq, Z.gtb_lt.
  rewrite <- Hw. destruct o as [w|]; [rewrite negb_false_iff; tauto|]. intuition discriminate.
Qed.

(** An entry without data has a parent. *)
Lemma wanted_parent (s : CS) p b fRequested : arrival_ok s -> m_block_index s !! p = Some b -> ~ ignored s b fRequested ->
  exists q bq, pprev b = Some q /\ m_block_index s !! q = Some bq /\ Chain.nHeight bq < 2 ^ 31 - 1.
Proof using.
  intros Ha Hp Hw. pose proof (ht_tree _ _ (hs_tree _ _ (ao_headers _ Ha))) as Hwf. destruct (pprev b) as [q|] eqn:Eq.
  - destruct (ok_prev _ _ _ (Hwf p b Hp) q Eq) as (bq & Hq & Hh). exists q, bq. split; [reflexivity|]. split; [exact Hq|].
    pose proof (ok_height _ _ _ (Hwf p b Hp)). lia.
  - exfalso. pose proof (ao_root _ Ha p b Hp Eq) as Hd. apply Hw. left. exact Hd.
Qed.

(** Storing the block and its data. *)
Lemma store_block_spec block p b q dbp st (s : CS) : arrival_ok s -> has_hash (m_block_index s) p b (header_hash (header block)) -> pprev b = Some q ->
  block_rules params (m_block_index s) q block ->
  exists ok st' s', try_runtime (store_block params block p b dbp st) (fun what => mret (Error (String.append "System error: " what) st)) s = (Ok (ok, st'), s') /\
    arrival_ok s' /\ (ok = true -> st' = st /\ block_files s' = <[p := block]> (block_files s) /\ m_chain s' = m_chain s /\
       exists b', m_block_index s' !! p = Some b' /\ has_data b' = true) /\ (ok = false -> m_mode st' = M_ERROR /\ s' = s).
Proof using Hpow HBL.
  intros Ha [Hp Ex] Eq Hr. destruct (save_block_law block (Chain.nHeight b) dbp s) as (r & Er & Hfail).
  unfold try_runtime, store_block. unfold mbind at 1, stm_bind at 1. rewrite Er. destruct r as [[[file offset]|]|e].
  - unfold mbind at 1, stm_bind at 1, modify_st at 1. pose proof (ht_tree _ _ (hs_tree _ _ (ao_headers _ Ha))) as Hwf.
    destruct (ReceivedBlockTransactions_total params block p file offset (write_block p block s) b Hwf (ao_waiting _ Ha) Hp) as (s' & E & [M (b' & Hb' & Hd) Hw (c & k & d & Erest)]).
    unfold mbind, stm_bind. rewrite E. exists true, st, s'. split; [reflexivity|].
    assert (F : m_failed_blocks s' = m_failed_blocks s /\ m_best_header s' = m_best_header s /\ m_chain s' = m_chain s /\ CoinsTip s' = CoinsTip s /\
      block_files s' = <[p := block]> (block_files s)) by (rewrite Erest; auto 10).
    destruct F as (F1 & F2 & F3 & F4 & F5). pose proof (sm_headers _ _ M) as Sh. cbn [m_block_index write_block] in Sh, M.
    split; [|split; [eauto 10|discriminate]]. destruct Ha as [[Ht Hf Hb] A2 A3 A4 A5 A6]. split.
    + split; [eapply header_tree_same; eauto|..].
      * intros f Hin. rewrite F1 in Hin. destruct (Hf f Hin) as (bf & Hbf & Hst). destruct (proj1 Sh f bf Hbf) as (bf' & Hbf' & _). exists bf'. split; [exact Hbf'|].
        rewrite (sm_failed _ _ M f bf bf' Hbf Hbf'). exact Hst.
      * intros t Et. rewrite F2 in Et. destruct (Hb t Et) as [bt Hbt]. destruct (proj1 Sh t bt Hbt) as (bt' & -> & _). eauto.
    + intros o x Hin. destruct (Hw o x Hin) as [Hin'| ->]; [|eauto]. destruct (A2 o x Hin') as [bx Hbx]. destruct (proj1 Sh x bx Hbx) as (bx' & -> & _). eauto.
    + rewrite F4. exact A3.
    + rewrite F3. intros t Et. destruct (A4 t Et) as [bt Hbt]. destruct (proj1 Sh t bt Hbt) as (bt' & -> & _). eauto.
    + rewrite F5. intros x blk Hx. eapply stored_rules_grown; [exact Hwf|apply Sh|]. apply lookup_insert_Some in Hx as [[<- <-]|[_ Hx]]; [|apply (A5 x blk Hx)].
      exists b. split; [split; assumption|]. split; [apply Hr|]. intros q' Eq'. assert (q' = q) as -> by congruence. exact Hr.
    + intros x bx Hx Ex'. destruct (same_headers_inv _ _ x bx Sh Hx) as (bx0 & Hx0 & Sx). rewrite (sh_prev _ _ Sx) in Ex'.
      apply (sm_data _ _ M x bx0 bx Hx0 Hx), (A6 x bx0 Hx0 Ex').
  - eexists false, _, s. split; [reflexivity|]. split; [exact Ha|]. split; [discriminate|auto].
  - destruct Hfail as (what & -> & ->). eexists false, _, s. split; [reflexivity|]. split; [exact Ha|]. split; [discriminate|auto].
Qed.

Lemma arrival_ok_flushed (s s' : CS) : arrival_ok s -> flushed s s' -> arrival_ok s'.
Proof using.
  intros [[A1 A2 A2'] A3 A4 A5 A6 A7] F. pose proof (flushed_ok _ _ F) as Hv. destruct F as (c & d & f & -> & _).
  split; [split; [exact A1|exact A2|exact A2']|exact A3|exact Hv|exact A5|exact A6|exact A7].
Qed.

(** ** [AcceptBlock] *)

(** The ways a block may go, each with its condition: the header is refused; the
    block is there already or not wanted; it breaks a rule; it cannot be
    written; it is stored. *)
Inductive block_outcome (env : arrival_env) (min_pow_checked fRequested : bool) (s : CS) (block : CBlock) (r : acceptance) (s' : CS) : Prop :=
| bo_header : ~ acceptable params env min_pow_checked s (header block) -> accepted r = false -> acc_new r = false -> marks_below s s' ->
    block_outcome env min_pow_checked fRequested s block r s'
| bo_unwanted p b : acceptable params env min_pow_checked s (header block) -> header_added s s' (header block) p -> m_block_index s' !! p = Some b ->
    ignored s' b fRequested -> accepted r = true -> acc_new r = false ->
    block_outcome env min_pow_checked fRequested s block r s'
| bo_invalid s1 p b q : acceptable params env min_pow_checked s (header block) -> header_added s s1 (header block) p -> m_block_index s1 !! p = Some b ->
    ~ ignored s1 b fRequested -> pprev b = Some q -> ~ block_rules params (m_block_index s1) q block ->
    accepted r = false -> acc_new r = false -> state_IsValid (acc_state r) = false ->
    s' = (if (state_IsInvalid (acc_state r) && negb (bool_decide (m_result (acc_state r) = BLOCK_MUTATED)))%bool
          then note_dirty p (update_index <[p := set_nStatus b (Z.lor (nStatus b) BLOCK_FAILED_VALID)]> s1) else s1) ->
    block_outcome env min_pow_checked fRequested s block r s'
| bo_disk p b q : acceptable params env min_pow_checked s (header block) -> header_added s s' (header block) p -> m_block_index s' !! p = Some b ->
    ~ ignored s' b fRequested -> pprev b = Some q -> block_rules params (m_block_index s') q block ->
    accepted r = false -> acc_new r = true -> m_mode (acc_state r) = M_ERROR ->
    block_outcome env min_pow_checked fRequested s block r s'
| bo_stored s1 p b b' q : acceptable params env min_pow_checked s (header block) -> header_added s s1 (header block) p -> m_block_index s1 !! p = Some b ->
    ~ ignored s1 b fRequested -> pprev b = Some q -> block_rules params (m_block_index s1) q block ->
    accepted r = true -> acc_new r = true -> m_block_index s' !! p = Some b' -> has_data b' = true ->
    block_files s' = <[p := acc_block r]> (block_files s) -> m_chain s' = m_chain s ->
    block_outcome env min_pow_checked fRequested s block r s'.

Lemma header_added_rest (s s1 : CS) hd p : header_added s s1 hd p -> block_files s1 = block_files s /\ m_chain s1 = m_chain s.
Proof using. intros (b & _ & [->|(_ & -> & _)]); auto. Qed.

Lemma block_rules_same h q b b' : same_block b b' -> block_rules params h q b -> block_rules params h q b'.
Proof using.
  intros Sb (Hv & bq & mtp & Hq & Em & Hc). split; [apply (block_valid_ext params true true b); [apply Sb|apply Sb|exact Hv]|].
  exists bq, mtp. split; [exact Hq|]. split; [exact Em|]. eapply contextual_valid_same; eauto.
Qed.

Lemma AcceptBlock_spec env block st fRequested dbp min_pow_checked (s : CS) : IsPruneMode (arrival_flush env) = false -> arrival_ok s ->
  header_typed (header block) -> memory_sound params block -> (forall p b, m_block_index s !! p = Some b -> Chain.nHeight b < 2 ^ 31 - 1) ->
  exists r s', AcceptBlock params ctx env block st fRequested dbp min_pow_checked s = (Ok r, s') /\ arrival_ok s' /\
    same_block block (acc_block r) /\ memory_sound params (acc_block r) /\ block_outcome env min_pow_checked fRequested s block r s'.
Proof using Hpow HPL HVL HSL HHL HBL.
  intros Hpr Ha Hty Hm Hlt.
  destruct (AcceptBlockHeader_spec params Hpow env (header block) min_pow_checked st s (ao_headers _ Ha) Hty Hlt) as (ok & st1 & o & s1 & E & Hs1 & R & Ht & Hf).
  unfold AcceptBlock. unfold mbind at 1, stm_bind at 1. rewrite E. cbv zeta. destruct ok; cbn [negb].
  2: { destruct (Hf eq_refl) as [Hst M]. eexists _, s1. split; [reflexivity|]. split; [eapply arrival_ok_marks; eauto|]. split; [split; reflexivity|]. split; [exact Hm|].
       apply bo_header; auto. intros Hacc. apply R in Hacc. discriminate. }
  destruct (Ht eq_refl) as (-> & p & -> & Hadd). pose proof (proj1 R eq_refl) as Hacc. pose proof (arrival_ok_added _ _ _ _ Ha Hs1 Hadd) as Ha1.
  pose proof Hadd as (b & [Hp Ex] & _). unfold mbind at 1, stm_bind at 1, lift_st at 1. cbn [access].
  unfold mbind at 1, stm_bind at 1, get_st at 1. unfold mbind at 1, stm_bind at 1, lift_st at 1. rewrite (deref_ok _ p b Hp).
  destruct (block_unwanted_iff s1 b fRequested Ha1) as (unwanted & Eu & Hu). unfold mbind at 1, stm_bind at 1, lift_st at 1. rewrite Eu. destruct unwanted.
  { eexists _, s1. split; [reflexivity|]. split; [exact Ha1|]. split; [split; reflexivity|]. split; [exact Hm|]. eapply bo_unwanted; eauto. apply Hu. reflexivity. }
  assert (Hi : ~ ignored s1 b fRequested) by (rewrite <- Hu; discriminate).
  destruct (wanted_parent s1 p b fRequested Ha1 Hp Hi) as (q & bq & Eq & Hq & Hlq).
  destruct (check_whole_block_spec params (m_block_index s1) q bq block st s1 (ht_tree _ _ (hs_tree _ _ Hs1)) Hq Hlq Hm) as (ok & b1 & st2 & E2 & R2 & Sb & Hm2 & Es & Ei).
  unfold mbind at 1, stm_bind at 1. rewrite Eq, E2. destruct ok; cbn [negb].
  2: { unfold mbind at 1, stm_bind at 1. destruct (arrival_ok_failed s1 p b Ha1 Hp) as [Emark Ha2].
       destruct (state_IsInvalid st2 && negb (bool_decide (m_result st2 = BLOCK_MUTATED)))%bool eqn:Ec; [rewrite Emark|]; eexists _, _;
         (split; [reflexivity|]; split; [assumption|]; split; [exact Sb|]; split; [exact Hm2|]);
         (eapply (bo_invalid _ _ _ _ _ _ _ s1 p b q); eauto; [rewrite <- R2; discriminate|cbn; rewrite Ec; reflexivity]). }
  rewrite (Es eq_refl). pose proof (proj1 R2 eq_refl) as Hr. pose proof (block_rules_same _ _ _ _ Sb Hr) as Hr1.
  assert (Ex1 : has_hash (m_block_index s1) p b (header_hash (header b1))) by (split; [exact Hp|rewrite (proj1 Sb); exact Ex]).
  destruct (store_block_spec b1 p b q dbp st s1 Ha1 Ex1 Eq Hr1) as (ok & st3 & s2 & E3 & Ha3 & Hok & Hno).
  unfold mbind at 1, stm_bind at 1. rewrite E3. destruct (header_added_rest _ _ _ _ Hadd) as [Ef Ech]. destruct ok; cbn [negb].
  2: { destruct (Hno eq_refl) as [Hmode ->]. eexists _, s1. split; [reflexivity|]. split; [exact Ha3|]. split; [exact Sb|]. split; [exact Hm2|]. eapply bo_disk; eauto. }
  destruct (Hok eq_refl) as (-> & Efiles & Echain & b' & Hb' & Hd).
  destruct (FlushStateToDisk_spec (arrival_flush env) NONE 0 st s2 Hpr (ao_view _ Ha3)) as (okf & st4 & s3 & E4 & Fl & _).
  unfold mbind at 1, stm_bind at 1. rewrite E4. eexists _, s3. split; [reflexivity|]. split; [eapply arrival_ok_flushed; eauto|]. split; [exact Sb|]. split; [exact Hm2|].
  destruct Fl as (c & d & f & -> & _). eapply (bo_stored _ _ _ _ _ _ _ s1 p b b' q); eauto; cbn; congruence.
Qed.
End Accept.

(** C9. [AcceptBlock] is exactly its rules, and what it writes to disk is
    checked.  On a node in order, for a block whose memory of checks is
    justified, outside prune mode, it returns, and leaves the node in order: the
    tree of headers keeps its rules and every block on disk has the hash of its
    entry and passed all checks in the context of its parent.  It refuses a
    block whose header is refused; ignores one that is there already, or was
    not asked for and is pruned, of less work than the tip, too far ahead or
    below the minimum chain work; marks a block that breaks a rule as failed
    unless it is mutated; reports an error of the disk as an error of the node;
    and otherwise stores exactly this block. *)
Theorem AcceptBlock_exact {HP : Primitives} {HPL : PrimitivesLaws} {HB : BlockEnv} {HT : TxEnv} {HSc : ScriptEnv} {HL : LockEnv}
    {W : Type} {HW : CCoinsView W} {HA : ViewAbs W} {HVL : ViewLaws W} {HO : WorkOrder} {HS : BlockStore W} {HSL : BlockStoreLaws W}
    {HH : HeaderStore W} {HHL : HeaderStoreLaws W} {HBL : BlockSaveLaws W} (params : Params) (ctx : node_context)
    (env : arrival_env) (block : CBlock) (st : BlockValidationState) (fRequested : bool) (dbp : option (Z * Z)) (min_pow_checked : bool) (s : Chainstate W) :
  pow_params_ok params -> IsPruneMode (arrival_flush env) = false -> arrival_ok params s ->
  header_typed (header block) -> memory_sound params block -> (forall p b, m_block_index s !! p = Some b -> Chain.nHeight b < 2 ^ 31 - 1) ->
  exists r s', AcceptBlock params ctx env block st fRequested dbp min_pow_checked s = (Ok r, s') /\ arrival_ok params s' /\
    same_block block (acc_block r) /\ memory_sound params (acc_block r) /\ block_outcome params ctx env min_pow_checked fRequested s block r s'.
Proof. intros Hpow. apply AcceptBlock_spec, Hpow. Qed.

(** ** Examples *)

#[local] Existing Instances zero_primitives zero_primitives_laws mined_blocks zero_tx_env Compressor.sample_env bip68 permissive.
#[local] Existing Instances by_work calm_store calm_store_laws plain_headers plain_headers_laws.

#[local] Instance plain_save_laws : BlockSaveLaws plain.
Proof. split. intros block height dbp s. eexists. split; [reflexivity|exact I]. Qed.

Definition sample_ctx : node_context := {| parallel_script_checks := false; assumed_valid := uint256_null; find_block := fun _ => None;
  best_header := None; minimum_chain_work := of_u64 0 |}.

Lemma genesis_arrival_ok : arrival_ok sample_params genesis_state.
Proof.
  split.
  - exact genesis_headers_ok.
  - intros o q Hin. apply elem_of_nil in Hin. contradiction.
  - split; [apply map_Forall_empty|]. split; [apply map_Forall_empty|reflexivity].
  - intros t [= <-]. eexists. reflexivity.
  - apply map_Forall_empty.
  - apply (genesis_only (fun _ b => pprev b = None -> has_data b = true)). reflexivity.
Qed.

(** A block with one coinbase, whose script starts with [first]. *)
Definition coinbase_block (prev nonce time first : Z) : CBlock := {|
  header := sample_header prev nonce time;
  vtx := [{| Transaction.nVersion := 1; vin := [{| prevout := (0, 4294967295); scriptSig := [first; 2]; nSequence := 0 |}]; vout := [(50, [1])]; nLockTime := 0 |}];
  fChecked := false; m_checked_witness_commitment := false; m_checked_merkle_root := false |}.

Lemma unchecked_memory prev nonce time first : memory_sound sample_params (coinbase_block prev nonce time first).
Proof. split; [split; discriminate|discriminate]. Qed.

Lemma AcceptBlock_exact_witness : exists r s', AcceptBlock sample_params sample_ctx quiet_env (coinbase_block 0 1 200 1) (fresh_state BLOCK_RESULT_UNSET) true None true genesis_state = (Ok r, s') /\
  accepted r = true /\ acc_new r = true /\ arrival_ok sample_params s' /\ block_files s' = {[ 1%nat := acc_block r ]}.
Proof.
  destruct (AcceptBlock_exact sample_params sample_ctx quiet_env (coinbase_block 0 1 200 1) (fresh_state BLOCK_RESULT_UNSET) true None true genesis_state sample_params_ok)
    as (r & s' & E & Ha & _ & _ & _).
  - reflexivity.
  - exact genesis_arrival_ok.
  - vm_compute. intuition discriminate.
  - apply unchecked_memory.
  - apply (genesis_only (fun _ b => Chain.nHeight b < 2 ^ 31 - 1)). cbn. lia.
  - exists r, s'. split; [exact E|].
    assert (F : match AcceptBlock sample_params sample_ctx quiet_env (coinbase_block 0 1 200 1) (fresh_state BLOCK_RESULT_UNSET) true None true genesis_state with
      | (Ok r, s') => accepted r = true /\ acc_new r = true /\ block_files s' = {[ 1%nat := acc_block r ]} | _ => False end) by (vm_compute; auto).
    rewrite E in F. destruct F as (F1 & F2 & F3). auto.
Defined.

(** ** A failed block that later headers do not see *)

Definition calm_activation : activation_env := {| step_io := fun _ _ => {| undo_written := true; flushing := calm |}; m_interrupt := fun _ => false;
  blockTip_interrupted := fun _ => false; last_flush_env := calm |}.

(** A block that fails the checks of [AcceptBlock] is marked
    [BLOCK_FAILED_VALID] but not put into [m_failed_blocks], although that set
    is documented to hold all blocks marked since the start.  Three headers 1,
    2 on 1 and 3 on 2 arrive, where block 1 arrives after header 2: its
    coinbase has the wrong height, so it is rejected and marked; header 3 is
    still accepted on top of it, and becomes the best header, where a header on
    block 1 itself is refused. *)
Theorem rejected_block_not_listed : exists s1 o1 s2 s3 st3 p3 s4 st4,
  ProcessNewBlockHeaders sample_params quiet_env [sample_header 0 1 200; sample_header 1 2 300] true (fresh_state BLOCK_RESULT_UNSET) None genesis_state
    = (Ok (true, fresh_state BLOCK_RESULT_UNSET, o1), s1) /\
  ProcessNewBlock 0 sample_params sample_ctx quiet_env calm_activation (coinbase_block 0 1 200 9) true true s1 = (Ok (false, false), s2) /\
  (Z.land 32 ∘ nStatus) <$> m_block_index s2 !! 1%nat = Some BLOCK_FAILED_VALID /\ m_failed_blocks s2 = ∅ /\
  AcceptBlockHeader sample_params quiet_env (sample_header 2 3 400) true (fresh_state BLOCK_RESULT_UNSET) s2 = (Ok (true, st3, Some p3), s3) /\
  ancestor (m_block_index s3) 1 p3 /\ m_best_header s3 = Some p3 /\
  AcceptBlockHeader sample_params quiet_env (sample_header 1 4 400) true (fresh_state BLOCK_RESULT_UNSET) s2 = (Ok (false, st4, None), s4).
Proof.
  eexists _, _, _, _, _, _, _, _. repeat (split; [vm_compute; reflexivity|]). split; [exists 2%nat; vm_compute; reflexivity|]. split; vm_compute; reflexivity.
Qed.
