(* ===== verification/HeadersSync.v ===== *)
(** * Downloading headers twice

    Models src/headerssync.cpp and headerssync.h: [HeadersSyncState], which
    downloads the headers of a peer twice, keeping one bit per 606 headers the
    first time ([PRESYNC]) and comparing with these bits the second time
    ([REDOWNLOAD]), before any header is handed to validation.
    [CBlockIndex::GetBlockHeader] of src/chain.h is here too.  The salted hash
    function is a parameter; [Assume] does not stop a release build, the tests
    that follow it do. *)

From stdpp Require Import base numbers list gmap strings.
From Stdlib Require Import ZArith Lia.
From S2P Require Import Prelude ArithUint256 Compact Params Chain ActiveChain ChainWork Pow VersionBits.
From S2P Require Import Merkle Streams Serialize Compressor Transaction TxCheck Locks Blocks.

Local Open Scope Z_scope.

Definition HEADER_COMMITMENT_PERIOD : Z := 606.
Definition REDOWNLOAD_BUFFER_SIZE : nat := 14441.

(** ** Headers without the hash of their parent *)

Record CompressedHeader : Type := { ch_nVersion : Z; ch_hashMerkleRoot : uint256; ch_nTime : Z; ch_nBits : Z; ch_nNonce : Z }.

Definition compress_header (hd : CBlockHeader) : CompressedHeader :=
  {| ch_nVersion := hdr_nVersion hd; ch_hashMerkleRoot := hdr_hashMerkleRoot hd; ch_nTime := hdr_nTime hd; ch_nBits := hdr_nBits hd; ch_nNonce := hdr_nNonce hd |}.

Definition GetFullHeader (c : CompressedHeader) (hash_prev_block : uint256) : CBlockHeader :=
  {| hdr_nVersion := ch_nVersion c; hashPrevBlock := hash_prev_block; hdr_hashMerkleRoot := ch_hashMerkleRoot c; hdr_nTime := ch_nTime c;
     hdr_nBits := ch_nBits c; hdr_nNonce := ch_nNonce c |}.

(** [CBlockHeader::SetNull]. *)
Definition null_header : CBlockHeader :=
  {| hdr_nVersion := 0; hashPrevBlock := uint256_null; hdr_hashMerkleRoot := uint256_null; hdr_nTime := 0; hdr_nBits := 0; hdr_nNonce := 0 |}.

Definition GetBlockHeader (h : heap) (b : CBlockIndex) : res CBlockHeader :=
  prev ← (match pprev b with None => Ok uint256_null | Some q => bq ← deref h q; GetBlockHash bq end);
  Ok {| hdr_nVersion := Chain.nVersion b; hashPrevBlock := prev; hdr_hashMerkleRoot := hashMerkleRoot b; hdr_nTime := nTime b;
        hdr_nBits := nBits b; hdr_nNonce := nNonce b |}.

(** ** The state *)

Inductive sync_phase : Type := PRESYNC | REDOWNLOAD | FINAL.
#[global] Instance sync_phase_eq_dec : EqDecision sync_phase.
Proof. solve_decision. Defined.

(** The members that never change; [m_chain_start] with the entry it points at. *)
Record sync_const : Type := {
  m_commit_offset : Z;
  m_consensus_params : Params;
  m_chain_start : ptr;
  start_entry : CBlockIndex;
  m_minimum_required_work : base_uint;
  m_hasher : uint256 -> Z;
}.

Record HeadersSyncState : Type := {
  m_current_chain_work : base_uint;
  m_header_commitments : list bool;
  m_max_commitments : Z;
  m_last_header_received : CBlockHeader;
  m_current_height : Z;
  m_redownloaded_headers : list CompressedHeader;
  m_redownload_buffer_last_height : Z;
  m_redownload_buffer_last_hash : uint256;
  m_redownload_buffer_first_prev_hash : uint256;
  m_redownload_chain_work : base_uint;
  m_process_all_remaining_headers : bool;
  m_download_state : sync_phase;
}.

(** What a caller reads of the first download. *)
Definition GetState (s : HeadersSyncState) : sync_phase := m_download_state s.
Definition GetPresyncHeight (s : HeadersSyncState) : Z := m_current_height s.
Definition GetPresyncTime (s : HeadersSyncState) : Z := hdr_nTime (m_last_header_received s).
Definition GetPresyncWork (s : HeadersSyncState) : base_uint := m_current_chain_work s.

Record ProcessingResult : Type := { pow_validated_headers : list CBlockHeader; success : bool; request_more : bool }.

Section HeadersSync.
Context `{BlockEnv}.
Context (c : sync_const).
Notation sync := (stm HeadersSyncState).

(** The constructor; [now] is the clock in nanoseconds, [mtp] the median time
    past of the start of the chain.  The division is one of [size_t]. *)
Definition new_HeadersSyncState (now mtp : Z) (start_header : CBlockHeader) : HeadersSyncState :=
  {| m_current_chain_work := nChainWork (start_entry c);
     m_header_commitments := [];
     m_max_commitments := u64 (6 * (Z.quot (now - mtp * 1000000000) 1000000000 + MAX_FUTURE_BLOCK_TIME)) / HEADER_COMMITMENT_PERIOD;
     m_last_header_received := start_header;
     m_current_height := Chain.nHeight (start_entry c);
     m_redownloaded_headers := [];
     m_redownload_buffer_last_height := 0;
     m_redownload_buffer_last_hash := uint256_null;
     m_redownload_buffer_first_prev_hash := uint256_null;
     m_redownload_chain_work := uint_zero;
     m_process_all_remaining_headers := false;
     m_download_state := PRESYNC |}.

Definition HeadersSyncState_init (h : heap) (now : Z) : res HeadersSyncState :=
  mtp ← GetMedianTimePast h (m_chain_start c);
  start_header ← GetBlockHeader h (start_entry c);
  Ok (new_HeadersSyncState now mtp start_header).

Definition Finalize : sync unit := modify_st (fun s =>
  {| m_current_chain_work := m_current_chain_work s;
     m_header_commitments := [];
     m_max_commitments := m_max_commitments s;
     m_last_header_received := null_header;
     m_current_height := 0;
     m_redownloaded_headers := [];
     m_redownload_buffer_last_height := m_redownload_buffer_last_height s;
     m_redownload_buffer_last_hash := uint256_null;
     m_redownload_buffer_first_prev_hash := uint256_null;
     m_redownload_chain_work := m_redownload_chain_work s;
     m_process_all_remaining_headers := false;
     m_download_state := FINAL |}).

(** ** [PRESYNC] *)

Definition push_commitment (bit : bool) (s : HeadersSyncState) : HeadersSyncState :=
  {| m_current_chain_work := m_current_chain_work s; m_header_commitments := m_header_commitments s ++ [bit];
     m_max_commitments := m_max_commitments s; m_last_header_received := m_last_header_received s; m_current_height := m_current_height s;
     m_redownloaded_headers := m_redownloaded_headers s; m_redownload_buffer_last_height := m_redownload_buffer_last_height s;
     m_redownload_buffer_last_hash := m_redownload_buffer_last_hash s; m_redownload_buffer_first_prev_hash := m_redownload_buffer_first_prev_hash s;
     m_redownload_chain_work := m_redownload_chain_work s; m_process_all_remaining_headers := m_process_all_remaining_headers s;
     m_download_state := m_download_state s |}.

Definition advance_presync (work : base_uint) (current : CBlockHeader) (height : Z) (s : HeadersSyncState) : HeadersSyncState :=
  {| m_current_chain_work := work; m_header_commitments := m_header_commitments s;
     m_max_commitments := m_max_commitments s; m_last_header_received := current; m_current_height := height;
     m_redownloaded_headers := m_redownloaded_headers s; m_redownload_buffer_last_height := m_redownload_buffer_last_height s;
     m_redownload_buffer_last_hash := m_redownload_buffer_last_hash s; m_redownload_buffer_first_prev_hash := m_redownload_buffer_first_prev_hash s;
     m_redownload_chain_work := m_redownload_chain_work s; m_process_all_remaining_headers := m_process_all_remaining_headers s;
     m_download_state := m_download_state s |}.

(** [height % HEADER_COMMITMENT_PERIOD == m_commit_offset], as [size_t]. *)
Definition commits_at (height : Z) : bool := u64 height mod HEADER_COMMITMENT_PERIOD =? m_commit_offset c.

(** [m_hasher(hash) & 1]. *)
Definition commitment_of (hd : CBlockHeader) : bool := negb (Z.land (m_hasher c (header_hash hd)) 1 =? 0).

Definition ValidateAndProcessSingleHeader (current : CBlockHeader) : sync bool :=
  s ← get_st;
  if negb (bool_decide (m_download_state s = PRESYNC)) then mret false
  else
    let next_height := i32 (m_current_height s + 1) in
    permitted ← lift_st (PermittedDifficultyTransition (m_consensus_params c) next_height (hdr_nBits (m_last_header_received s)) (hdr_nBits current));
    if negb permitted then mret false
    else
      room ← (if commits_at next_height then
                _ ← modify_st (push_commitment (commitment_of current));
                s ← get_st;
                mret (negb (Z.of_nat (length (m_header_commitments s)) >? m_max_commitments s))
              else mret true);
      if negb room then mret false
      else
        proof ← lift_st (GetBlockProof (dummy_index current));
        _ ← modify_st (advance_presync (op_add (m_current_chain_work s) proof) current next_height);
        mret true.

Fixpoint presync_loop (headers : list CBlockHeader) : sync bool :=
  match headers with
  | [] => mret true
  | hdr :: rest => ok ← ValidateAndProcessSingleHeader hdr; if negb ok then mret false else presync_loop rest
  end.

(** The state when enough work was seen: start again from the beginning. *)
Definition begin_redownload (start_hash : uint256) (s : HeadersSyncState) : HeadersSyncState :=
  {| m_current_chain_work := m_current_chain_work s; m_header_commitments := m_header_commitments s;
     m_max_commitments := m_max_commitments s; m_last_header_received := m_last_header_received s; m_current_height := m_current_height s;
     m_redownloaded_headers := []; m_redownload_buffer_last_height := Chain.nHeight (start_entry c);
     m_redownload_buffer_last_hash := start_hash; m_redownload_buffer_first_prev_hash := start_hash;
     m_redownload_chain_work := nChainWork (start_entry c); m_process_all_remaining_headers := m_process_all_remaining_headers s;
     m_download_state := REDOWNLOAD |}.

Definition ValidateAndStoreHeadersCommitments (headers : list CBlockHeader) : sync bool :=
  match headers with
  | [] => mret true
  | first :: _ =>
      s ← get_st;
      if negb (bool_decide (m_download_state s = PRESYNC)) then mret false
      else if negb (bool_decide (hashPrevBlock first = header_hash (m_last_header_received s))) then mret false
      else
        ok ← presync_loop headers;
        if negb ok then mret false
        else
          s ← get_st;
          _ ← (if uint_lt (m_current_chain_work s) (m_minimum_required_work c) then mret tt
               else start_hash ← lift_st (GetBlockHash (start_entry c)); modify_st (begin_redownload start_hash));
          mret true
  end.

(** ** [REDOWNLOAD] *)

Definition set_redownload (work : base_uint) (all : bool) (commitments : list bool) (s : HeadersSyncState) : HeadersSyncState :=
  {| m_current_chain_work := m_current_chain_work s; m_header_commitments := commitments;
     m_max_commitments := m_max_commitments s; m_last_header_received := m_last_header_received s; m_current_height := m_current_height s;
     m_redownloaded_headers := m_redownloaded_headers s; m_redownload_buffer_last_height := m_redownload_buffer_last_height s;
     m_redownload_buffer_last_hash := m_redownload_buffer_last_hash s; m_redownload_buffer_first_prev_hash := m_redownload_buffer_first_prev_hash s;
     m_redownload_chain_work := work; m_process_all_remaining_headers := all;
     m_download_state := m_download_state s |}.

Definition store_header (header : CBlockHeader) (height : Z) (s : HeadersSyncState) : HeadersSyncState :=
  {| m_current_chain_work := m_current_chain_work s; m_header_commitments := m_header_commitments s;
     m_max_commitments := m_max_commitments s; m_last_header_received := m_last_header_received s; m_current_height := m_current_height s;
     m_redownloaded_headers := m_redownloaded_headers s ++ [compress_header header]; m_redownload_buffer_last_height := height;
     m_redownload_buffer_last_hash := header_hash header; m_redownload_buffer_first_prev_hash := m_redownload_buffer_first_prev_hash s;
     m_redownload_chain_work := m_redownload_chain_work s; m_process_all_remaining_headers := m_process_all_remaining_headers s;
     m_download_state := m_download_state s |}.

Definition ValidateAndStoreRedownloadedHeader (header : CBlockHeader) : sync bool :=
  s ← get_st;
  if negb (bool_decide (m_download_state s = REDOWNLOAD)) then mret false
  else
    let next_height := i64 (m_redownload_buffer_last_height s + 1) in
    if negb (bool_decide (hashPrevBlock header = m_redownload_buffer_last_hash s)) then mret false
    else
      let previous_nBits := match last (m_redownloaded_headers s) with Some e => ch_nBits e | None => nBits (start_entry c) end in
      permitted ← lift_st (PermittedDifficultyTransition (m_consensus_params c) next_height previous_nBits (hdr_nBits header));
      if negb permitted then mret false
      else
        proof ← lift_st (GetBlockProof (dummy_index header));
        let work := op_add (m_redownload_chain_work s) proof in
        let all := (m_process_all_remaining_headers s || negb (uint_lt work (m_minimum_required_work c)))%bool in
        _ ← modify_st (set_redownload work all (m_header_commitments s));
        matches ← (if (negb all && commits_at next_height)%bool then
                     match m_header_commitments s with
                     | [] => mret false
                     | expected_commitment :: rest =>
                         _ ← modify_st (set_redownload work all rest);
                         mret (bool_decide (commitment_of header = expected_commitment))
                     end
                   else mret true);
        if negb matches then mret false
        else _ ← modify_st (store_header header next_height); mret true.

Fixpoint recheck_loop (headers : list CBlockHeader) : sync bool :=
  match headers with
  | [] => mret true
  | hdr :: rest => ok ← ValidateAndStoreRedownloadedHeader hdr; if negb ok then mret false else recheck_loop rest
  end.

(** The loop of [PopHeadersReadyForAcceptance] over the buffer: the headers
    released, the hash of the last of them, and the buffer left. *)
Fixpoint pop_loop (buffer : list CompressedHeader) (first_prev_hash : uint256) (all : bool) : list CBlockHeader * uint256 * list CompressedHeader :=
  match buffer with
  | [] => ([], first_prev_hash, [])
  | e :: rest =>
      if ((REDOWNLOAD_BUFFER_SIZE <? length buffer)%nat || all)%bool then
        let hd := GetFullHeader e first_prev_hash in
        let '(ret, hash, kept) := pop_loop rest (header_hash hd) all in (hd :: ret, hash, kept)
      else ([], first_prev_hash, buffer)
  end.

Definition set_buffer (first_prev_hash : uint256) (buffer : list CompressedHeader) (s : HeadersSyncState) : HeadersSyncState :=
  {| m_current_chain_work := m_current_chain_work s; m_header_commitments := m_header_commitments s;
     m_max_commitments := m_max_commitments s; m_last_header_received := m_last_header_received s; m_current_height := m_current_height s;
     m_redownloaded_headers := buffer; m_redownload_buffer_last_height := m_redownload_buffer_last_height s;
     m_redownload_buffer_last_hash := m_redownload_buffer_last_hash s; m_redownload_buffer_first_prev_hash := first_prev_hash;
     m_redownload_chain_work := m_redownload_chain_work s; m_process_all_remaining_headers := m_process_all_remaining_headers s;
     m_download_state := m_download_state s |}.

Definition PopHeadersReadyForAcceptance : sync (list CBlockHeader) :=
  s ← get_st;
  if negb (bool_decide (m_download_state s = REDOWNLOAD)) then mret []
  else
    let '(ret, hash, kept) := pop_loop (m_redownloaded_headers s) (m_redownload_buffer_first_prev_hash s) (m_process_all_remaining_headers s) in
    _ ← modify_st (set_buffer hash kept);
    mret ret.

(** ** A batch *)

Definition ProcessNextHeaders (received_headers : list CBlockHeader) (full_headers_message : bool) : sync ProcessingResult :=
  s ← get_st;
  match received_headers, m_download_state s with
  | [], _ | _, FINAL => mret {| pow_validated_headers := []; success := false; request_more := false |}
  | _, PRESYNC =>
      ok ← ValidateAndStoreHeadersCommitments received_headers;
      s ← get_st;
      let more := (ok && (full_headers_message || bool_decide (m_download_state s = REDOWNLOAD)))%bool in
      _ ← (if more then mret tt else Finalize);
      mret {| pow_validated_headers := []; success := ok; request_more := more |}
  | _, REDOWNLOAD =>
      ok ← recheck_loop received_headers;
      if negb ok then _ ← Finalize; mret {| pow_validated_headers := []; success := false; request_more := false |}
      else
        ready ← PopHeadersReadyForAcceptance;
        s ← get_st;
        let complete := (bool_decide (m_redownloaded_headers s = []) && m_process_all_remaining_headers s)%bool in
        let more := (negb complete && full_headers_message)%bool in
        _ ← (if more then mret tt else Finalize);
        mret {| pow_validated_headers := ready; success := true; request_more := more |}
  end.

Definition NextHeadersRequestLocator (h : heap) (s : HeadersSyncState) : res (list uint256) :=
  match m_download_state s with
  | FINAL => Ok []
  | phase =>
      chain_start_locator ← LocatorEntries h (Some (m_chain_start c));
      Ok (match phase with
          | PRESYNC => [header_hash (m_last_header_received s)]
          | REDOWNLOAD => [m_redownload_buffer_last_hash s]
          | FINAL => []
          end ++ chain_start_locator)
  end.
End HeadersSync.
