(* ===== verification/HeadersSyncRun.v ===== *)
(** * Downloads of headers, proofs

    What one call releases, and whole downloads. *)

From stdpp Require Import base numbers list gmap strings.
From Stdlib Require Import ZArith Lia.
From S2P Require Import Prelude ArithUint256 Compact Params Chain ActiveChain ChainWork Pow VersionBits Merkle Streams Serialize Compressor Transaction Coins CoinsProofs CoinsRefinement TxCheck Locks Blocks Connect ChainState ChainSelectionProofs ChainSelection ChainActivation Acceptance HeaderProofs HeadersSync.

Local Open Scope Z_scope.

(** * What a download of headers releases

    Whatever a peer sends, in whatever batches, [HeadersSyncState] returns,
    holds a bounded amount, and hands to validation only a connected chain with
    permitted difficulties that either has the required work or is buried under
    14441 headers checked against the first download; a peer that serves the
    same chain twice has all of it accepted. *)

(** ** Transitions are always decided *)

Section Total.
Context (params : Params) (Hok : pow_params_ok params).

Lemma scale_target_total nbits span : in_u 32 nbits -> exists r, scale_target params nbits span = Ok r /\ wf r.
Proof using Hok.
  intros Hn. destruct (limit_wf params Hok) as [Hwl _]. unfold scale_target. pose proof (SetCompact_spec nbits Hn) as HS. destruct (SetCompact nbits) as [[r n] o].
  destruct HS as (Hr & _). assert (Hm : wf (op_mul32 r (u32 span))) by (apply op_mul32_wf; [exact Hr|apply uwrap_range; lia]).
  assert (HT : in_u 64 (nPowTargetTimespan params)) by (destruct Hok as [_ A B C _ _]; word_lia).
  destruct (op_div_spec _ (of_u64 (u64 (nPowTargetTimespan params))) Hm (of_u64_wf _)) as (q & -> & Hq & _).
  { rewrite (uwrap_small 64) by exact HT. rewrite uval_of_u64 by exact HT. destruct Hok. lia. }
  cbn [mbind res_bind]. eexists. split; [reflexivity|]. destruct (uint_gt _ _); assumption.
Qed.

Lemma Permitted_total height old new : in_u 32 old -> exists r, PermittedDifficultyTransition params height old new = Ok r.
Proof using Hok.
  intros Ho. unfold PermittedDifficultyTransition. destruct (fPowAllowMinDifficultyBlocks params); [eauto|]. destruct (_ =? 0); [|destruct (negb _); eauto].
  destruct (SetCompact new) as [[obs ?] ?]. cbv zeta.
  destruct (scale_target_total old (i64 (nPowTargetTimespan params * 4)) Ho) as (r1 & -> & W1). cbn [mbind res_bind]. rewrite GetCompact_encode by exact W1. cbn [mbind res_bind].
  destruct (SetCompact _) as [[t1 ?] ?]. destruct (uint_lt _ _); [eauto|].
  destruct (scale_target_total old (Z.quot (nPowTargetTimespan params) 4) Ho) as (r2 & -> & W2). cbn [mbind res_bind]. rewrite GetCompact_encode by exact W2. cbn [mbind res_bind].
  destruct (SetCompact _) as [[t2 ?] ?]. destruct (uint_gt _ _); eauto.
Qed.
End Total.

(** ** Chains of headers *)

Section Chains.
Context `{BlockEnv} (c : sync_const).

Notation params := (m_consensus_params c).
Notation start := (start_entry c).

(** Each header names the one before it. *)
Fixpoint connected (prev : uint256) (hs : list CBlockHeader) : Prop :=
  match hs with [] => True | hd :: rest => hashPrevBlock hd = prev /\ connected (header_hash hd) rest end.

Definition tip_hash (prev : uint256) (hs : list CBlockHeader) : uint256 := match last hs with Some hd => header_hash hd | None => prev end.
Definition tip_bits (bits : Z) (hs : list CBlockHeader) : Z := match last hs with Some hd => hdr_nBits hd | None => bits end.

(** Every step of difficulty is permitted. *)
Fixpoint permitted_chain (height bits : Z) (hs : list CBlockHeader) : Prop :=
  match hs with
  | [] => True
  | hd :: rest => PermittedDifficultyTransition params (height + 1) bits (hdr_nBits hd) = Ok true /\ permitted_chain (height + 1) (hdr_nBits hd) rest
  end.

(** The bits kept of a chain. *)
Fixpoint commitments (height : Z) (hs : list CBlockHeader) : list bool :=
  match hs with
  | [] => []
  | hd :: rest => (if commits_at c (height + 1) then [commitment_of c hd] else []) ++ commitments (height + 1) rest
  end.

(** The work of a chain on top of the start, without the wrap-around. *)
Definition work_sum (hs : list CBlockHeader) : Z := foldr (fun hd w => work_of (hdr_nBits hd) + w) 0 hs.
Definition total_work (hs : list CBlockHeader) : Z := uval (nChainWork start) + work_sum hs.

Definition bits_typed (hd : CBlockHeader) : Prop := in_u 32 (hdr_nBits hd).

Lemma connected_snoc prev hs hd : connected prev (hs ++ [hd]) <-> connected prev hs /\ hashPrevBlock hd = tip_hash prev hs.
Proof using.
  revert prev. induction hs as [|x hs IH]; intros prev; cbn [app connected]; [unfold tip_hash; cbn; tauto|]. rewrite IH. unfold tip_hash.
  destruct hs as [|y hs] using rev_ind; cbn [last]; [tauto|]. rewrite app_comm_cons, !last_snoc. tauto.
Qed.

Lemma permitted_snoc height bits hs hd : permitted_chain height bits (hs ++ [hd]) <->
  permitted_chain height bits hs /\ PermittedDifficultyTransition params (height + Z.of_nat (length hs) + 1) (tip_bits bits hs) (hdr_nBits hd) = Ok true.
Proof using.
  revert height bits. induction hs as [|x hs IH]; intros height bits; cbn [app permitted_chain length]; [rewrite Z.add_0_r; unfold tip_bits; cbn; tauto|]. rewrite IH.
  replace (height + 1 + Z.of_nat (length hs) + 1) with (height + Z.of_nat (S (length hs)) + 1) by lia. unfold tip_bits.
  destruct hs as [|y hs] using rev_ind; cbn [last]; [tauto|]. rewrite app_comm_cons, !last_snoc. tauto.
Qed.

Lemma permitted_prefix h b l1 l2 : permitted_chain h b (l1 ++ l2) -> permitted_chain h b l1.
Proof using. revert h b. induction l1 as [|x l1 IH]; intros h b; [intros; exact I|]. cbn. intros [? ?]. eauto. Qed.
Lemma connected_prefix y l1 l2 : connected y (l1 ++ l2) -> connected y l1.
Proof using. revert y. induction l1 as [|x l1 IH]; intros y; [intros; exact I|]. cbn. intros [? ?]. eauto. Qed.

Lemma commitments_app height hs1 hs2 : commitments height (hs1 ++ hs2) = commitments height hs1 ++ commitments (height + Z.of_nat (length hs1)) hs2.
Proof using.
  revert height. induction hs1 as [|x hs IH]; intros height; cbn [app commitments length]; [rewrite Z.add_0_r; reflexivity|]. rewrite IH, app_assoc.
  replace (height + 1 + Z.of_nat (length hs)) with (height + Z.of_nat (S (length hs))) by lia. reflexivity.
Qed.

Lemma work_sum_app hs1 hs2 : work_sum (hs1 ++ hs2) = work_sum hs1 + work_sum hs2.
Proof using. induction hs1 as [|x hs IH]; [reflexivity|]. unfold work_sum in *. cbn [app foldr]. rewrite IH. lia. Qed.

Lemma work_sum_nonneg hs : Forall bits_typed hs -> 0 <= work_sum hs.
Proof using. induction 1 as [|hd hs Hd _ IH]; [reflexivity|]. unfold work_sum in *. cbn. pose proof (work_of_range _ Hd). lia. Qed.

Lemma tip_hash_app prev hs1 hs2 : tip_hash prev (hs1 ++ hs2) = tip_hash (tip_hash prev hs1) hs2.
Proof using.
  unfold tip_hash. destruct hs2 as [|x hs] using rev_ind; [rewrite app_nil_r; reflexivity|]. rewrite app_assoc, !last_snoc. reflexivity.
Qed.

(** ** The buffer *)

(** The full headers behind a buffer of compressed ones. *)
Fixpoint expand (prev : uint256) (buffer : list CompressedHeader) : list CBlockHeader :=
  match buffer with [] => [] | e :: rest => let hd := GetFullHeader e prev in hd :: expand (header_hash hd) rest end.

Lemma full_compress hd : GetFullHeader (compress_header hd) (hashPrevBlock hd) = hd.
Proof using. destruct hd; reflexivity. Qed.

Lemma expand_length prev buffer : length (expand prev buffer) = length buffer.
Proof using. revert prev. induction buffer as [|e buffer IH]; intros prev; cbn; [reflexivity|]. f_equal. apply IH. Qed.

Lemma expand_compress prev hs : connected prev hs -> expand prev (map compress_header hs) = hs.
Proof using.
  revert prev. induction hs as [|hd hs IH]; intros prev; cbn [connected map expand]; [reflexivity|]. intros [E Hc]. rewrite <- E, full_compress. f_equal. apply IH, Hc.
Qed.

Lemma expand_drop prev buffer k : (k <= length buffer)%nat -> expand (tip_hash prev (take k (expand prev buffer))) (drop k buffer) = drop k (expand prev buffer).
Proof using.
  revert prev k. induction buffer as [|e buffer IH]; intros prev k Hk; [destruct k; reflexivity|]. destruct k as [|k]; [reflexivity|]. cbn [expand drop take].
  change (GetFullHeader e prev :: take k (expand (header_hash (GetFullHeader e prev)) buffer)) with ([GetFullHeader e prev] ++ take k (expand (header_hash (GetFullHeader e prev)) buffer)).
  rewrite tip_hash_app. apply IH. cbn in Hk. lia.
Qed.

(** The loop releases all but the last 14441 headers, or all. *)
Lemma pop_loop_spec all buffer : forall prev, let '(ret, hash, kept) := pop_loop buffer prev all in
  exists n, ret = take n (expand prev buffer) /\ kept = drop n buffer /\ hash = tip_hash prev ret /\ (n <= length buffer)%nat /\
    n = (if all then length buffer else length buffer - REDOWNLOAD_BUFFER_SIZE)%nat.
Proof using.
  induction buffer as [|e buffer IH]; intros prev; cbn [pop_loop].
  { exists 0%nat. repeat split; try lia. destruct all; reflexivity. }
  set (hd := GetFullHeader e prev). specialize (IH (header_hash hd)). destruct (pop_loop buffer (header_hash hd) all) as [[ret hash] kept].
  destruct IH as (n & -> & -> & -> & Hle & En). destruct (Nat.ltb_spec REDOWNLOAD_BUFFER_SIZE (length (e :: buffer))) as [Hl|Hl]; cbn [orb].
  - exists (S n). cbn [expand take drop length]. fold hd. repeat split; auto; [|lia|destruct all; cbn [length] in Hl; lia].
    change (hd :: take n (expand (header_hash hd) buffer)) with ([hd] ++ take n (expand (header_hash hd) buffer)). rewrite tip_hash_app. reflexivity.
  - destruct all; cbn [orb].
    + exists (S n). cbn [expand take drop length]. fold hd. repeat split; auto; [|lia].
      change (hd :: take n (expand (header_hash hd) buffer)) with ([hd] ++ take n (expand (header_hash hd) buffer)). rewrite tip_hash_app. reflexivity.
    + exists 0%nat. cbn [length] in *. repeat split; lia.
Qed.
End Chains.

Section Sync.
Context {HP : Primitives} {HB : BlockEnv} (c : sync_const).
Notation params := (m_consensus_params c).
Notation start := (start_entry c).
Notation height0 := (Chain.nHeight (start_entry c)).
Notation min_work := (uval (m_minimum_required_work c)).

(** A sync that starts at an entry of the tree whose header is [sh]. *)
Record sync_setup (sh : CBlockHeader) : Prop := {
  su_pow : pow_params_ok params;
  su_hash : phashBlock start = Some (header_hash sh);
  su_bits : hdr_nBits sh = nBits start /\ in_u 32 (nBits start);
  su_work : wf (nChainWork start) /\ wf (m_minimum_required_work c);
  su_height : 0 <= height0;
}.

Context (sh : CBlockHeader) (Hsu : sync_setup sh).
Notation x0 := (header_hash sh).

(** The work of a chain, as 256 bits hold it, is what is required. *)
Definition enough (hs : list CBlockHeader) : Prop := min_work <= total_work c hs mod 2 ^ 256.

Definition holds_work (w : base_uint) (hs : list CBlockHeader) : Prop := wf w /\ uval w = total_work c hs mod 2 ^ 256.

Lemma holds_work_snoc w hs hd : holds_work w hs -> bits_typed hd -> exists proof, GetBlockProof (dummy_index hd) = Ok proof /\ holds_work (op_add w proof) (hs ++ [hd]).
Proof using.
  intros [Hw Vw] Hd. destruct (GetBlockProof_spec (dummy_index hd) Hd) as (p & Ep & Wp & Vp). exists p. split; [exact Ep|]. split; [apply op_add_wf; assumption|].
  rewrite op_add_val, Vw, Vp by assumption. cbn [nBits dummy_index]. unfold total_work. rewrite work_sum_app. unfold work_sum at 3. cbn [foldr]. rewrite Z.add_0_r, Zplus_mod_idemp_l. f_equal. lia.
Qed.

Lemma holds_work_enough w hs : holds_work w hs -> uint_lt w (m_minimum_required_work c) = false <-> enough hs.
Proof using Hsu. intros [Hw Vw]. destruct (su_work _ Hsu) as [_ Hm]. rewrite uint_lt_spec, Z.ltb_ge by assumption. unfold enough. rewrite Vw. reflexivity. Qed.

Lemma tip_bits_typed hs : Forall bits_typed hs -> in_u 32 (tip_bits (nBits start) hs).
Proof using Hsu.
  intros Ht. unfold tip_bits. destruct (last hs) as [hd|] eqn:E; [|apply (su_bits _ Hsu)].
  apply last_Some_elem_of in E. rewrite Forall_forall in Ht. apply Ht, E.
Qed.

(** ** The first download *)

Record presync_inv (s : HeadersSyncState) (pre : list CBlockHeader) : Prop := {
  ps_state : m_download_state s = PRESYNC;
  ps_work : holds_work (m_current_chain_work s) pre;
  ps_height : m_current_height s = height0 + Z.of_nat (length pre);
  ps_last : m_last_header_received s = default sh (last pre);
  ps_commit : m_header_commitments s = commitments c height0 pre;
  ps_room : Z.of_nat (length (m_header_commitments s)) <= m_max_commitments s;
  ps_permitted : permitted_chain c height0 (nBits start) pre;
  ps_flag : m_process_all_remaining_headers s = false;
  ps_typed : Forall bits_typed pre;
  ps_buffer : m_redownloaded_headers s = [];
}.

Lemma last_tip_hash pre : header_hash (default sh (last pre)) = tip_hash x0 pre.
Proof using. unfold tip_hash. destruct (last pre); reflexivity. Qed.
Lemma last_tip_bits pre : hdr_nBits (default sh (last pre)) = tip_bits (nBits start) pre.
Proof using Hsu. unfold tip_bits. destruct (last pre); [reflexivity|]. cbn. apply (su_bits _ Hsu). Qed.

(** The conditions under which one more header is taken. *)
Definition presync_ok (s : HeadersSyncState) (pre : list CBlockHeader) (hd : CBlockHeader) : Prop :=
  PermittedDifficultyTransition params (height0 + Z.of_nat (length pre) + 1) (tip_bits (nBits start) pre) (hdr_nBits hd) = Ok true /\
  Z.of_nat (length (commitments c height0 (pre ++ [hd]))) <= m_max_commitments s.

Lemma presync_step s pre hd : presync_inv s pre -> bits_typed hd -> height0 + Z.of_nat (length pre) + 1 < 2 ^ 31 ->
  exists ok s', ValidateAndProcessSingleHeader c hd s = (Ok ok, s') /\ (ok = true <-> presync_ok s pre hd) /\ m_max_commitments s' = m_max_commitments s /\
    (ok = true -> presync_inv s' (pre ++ [hd])).
Proof using Hsu.
  intros [Is Iw Ih Il Ic Ir Ip If It Ib] Hd Hlt. pose proof (su_height _ Hsu) as H0. unfold ValidateAndProcessSingleHeader, presync_ok. unfold mbind at 1, stm_bind at 1, get_st at 1.
  rewrite Is, bool_decide_eq_true_2 by reflexivity. cbn [negb]. rewrite Ih, swrap_small by (try lia; word_lia). rewrite Il, last_tip_bits.
  set (height := height0 + Z.of_nat (length pre) + 1). unfold mbind at 1, stm_bind at 1, lift_st at 1.
  destruct (Permitted_total params (su_pow _ Hsu) height _ (hdr_nBits hd) (tip_bits_typed pre It)) as [permitted Ep]. rewrite Ep.
  destruct permitted; cbn [negb]; [|exists false, s; split; [reflexivity|]; split; [split; [discriminate|intros [E _]; congruence]|]; split; [reflexivity|discriminate]].
  assert (Ecom : commitments c height0 (pre ++ [hd]) = commitments c height0 pre ++ if commits_at c height then [commitment_of c hd] else []).
  { rewrite commitments_app. cbn [commitments]. rewrite app_nil_r. reflexivity. }
  rewrite Ecom. destruct (holds_work_snoc _ _ hd Iw Hd) as (proof & Epr & Iw').
  assert (Fin : forall s1, m_download_state s1 = PRESYNC -> m_header_commitments s1 = commitments c height0 (pre ++ [hd]) -> m_max_commitments s1 = m_max_commitments s ->
    m_process_all_remaining_headers s1 = false -> Z.of_nat (length (m_header_commitments s1)) <= m_max_commitments s -> m_redownloaded_headers s1 = [] ->
    presync_inv (advance_presync (op_add (m_current_chain_work s) proof) hd height s1) (pre ++ [hd])).
  { intros s1 E1 E2 E3 E4 E5 E6. split; cbn; auto.
    - rewrite length_app. cbn. unfold height. lia.
    - rewrite last_snoc. reflexivity.
    - lia.
    - rewrite permitted_snoc. auto.
    - apply Forall_app_2; [exact It|constructor; [exact Hd|constructor]]. }
  destruct (commits_at c height); unfold mbind at 1, stm_bind at 1.
  - unfold mbind at 1, stm_bind at 1, modify_st at 1. unfold mbind at 1, stm_bind at 1, get_st at 1. cbn [m_header_commitments push_commitment m_max_commitments mret stm_ret]. rewrite Ic.
    destruct (Z.gtb_spec (Z.of_nat (length (commitments c height0 pre ++ [commitment_of c hd]))) (m_max_commitments s)) as [Hg|Hg]; cbn [negb].
    + eexists false, _. split; [reflexivity|]. split; [split; [discriminate|intros [_ E]; lia]|]. split; [reflexivity|discriminate].
    + unfold mbind at 1, stm_bind at 1, lift_st at 1. rewrite Epr. eexists true, _. split; [reflexivity|]. split; [split; [auto|reflexivity]|]. split; [reflexivity|].
      intros _. apply Fin; cbn; auto; rewrite ?Ic; auto.
  - cbn [mret stm_ret negb]. unfold mbind at 1, stm_bind at 1, lift_st at 1. rewrite Epr. rewrite app_nil_r in Ecom |- *. rewrite <- Ic.
    eexists true, _. split; [reflexivity|]. split; [split; [auto|reflexivity]|]. split; [reflexivity|]. intros _. apply Fin; auto. rewrite Ecom. exact Ic.
Qed.

(** A batch of the first download. *)
Lemma presync_loop_spec hs : forall s pre, presync_inv s pre -> Forall bits_typed hs -> height0 + Z.of_nat (length (pre ++ hs)) < 2 ^ 31 ->
  exists ok s', presync_loop c hs s = (Ok ok, s') /\ m_max_commitments s' = m_max_commitments s /\ (ok = true -> presync_inv s' (pre ++ hs)) /\
    (permitted_chain c height0 (nBits start) (pre ++ hs) -> Z.of_nat (length (commitments c height0 (pre ++ hs))) <= m_max_commitments s -> ok = true).
Proof using Hsu.
  induction hs as [|hd hs IH]; intros s pre Hi Ht Hlt; cbn [presync_loop]; [exists true, s; rewrite app_nil_r; auto|].
  apply Forall_cons in Ht as [Hd Ht]. rewrite length_app in Hlt. cbn [length] in Hlt.
  destruct (presync_step s pre hd Hi Hd ltac:(lia)) as (ok & s1 & E & R & Em & Hi1). unfold mbind, stm_bind. rewrite E.
  replace (pre ++ hd :: hs) with ((pre ++ [hd]) ++ hs) by (rewrite <- app_assoc; reflexivity). destruct ok; cbn [negb].
  - destruct (IH s1 (pre ++ [hd]) (Hi1 eq_refl) Ht) as (ok & s2 & E2 & Em2 & Hi2 & Hc2); [rewrite !length_app; cbn; lia|].
    exists ok, s2. split; [exact E2|]. split; [congruence|]. split; [exact Hi2|]. intros Hp Hr. apply Hc2; [exact Hp|]. rewrite Em. exact Hr.
  - exists false, s1. split; [reflexivity|]. split; [exact Em|]. split; [discriminate|]. intros Hp Hr. apply R. split.
    + apply permitted_prefix in Hp. rewrite permitted_snoc in Hp. apply Hp.
    + rewrite commitments_app, length_app in Hr. lia.
Qed.

(** ** The second download *)

(** A first download that reached the work required. *)
Definition first_download (pre : list CBlockHeader) : Prop := permitted_chain c height0 (nBits start) pre /\ enough pre.

Record redownload_inv (s : HeadersSyncState) (pre seen rel : list CBlockHeader) : Prop := {
  rd_state : m_download_state s = REDOWNLOAD;
  rd_pre : first_download pre;
  rd_seen : seen = rel ++ expand (m_redownload_buffer_first_prev_hash s) (m_redownloaded_headers s);
  rd_first : m_redownload_buffer_first_prev_hash s = tip_hash x0 rel;
  rd_last : m_redownload_buffer_last_hash s = tip_hash x0 seen;
  rd_height : m_redownload_buffer_last_height s = height0 + Z.of_nat (length seen);
  rd_connected : connected x0 seen;
  rd_permitted : permitted_chain c height0 (nBits start) seen;
  rd_work : holds_work (m_redownload_chain_work s) seen;
  rd_typed : Forall bits_typed seen;
  rd_buffer : m_redownloaded_headers s = [] -> seen = [];
  rd_room : Z.of_nat (length (m_header_commitments s)) <= m_max_commitments s;
  rd_checked : if m_process_all_remaining_headers s then exists n, enough (take n seen)
               else commitments c height0 seen ++ m_header_commitments s = commitments c height0 pre;
  rd_low : m_process_all_remaining_headers s = false -> seen = [] \/ ~ enough seen;
}.

Lemma expand_snoc prev buffer e : expand prev (buffer ++ [e]) = expand prev buffer ++ [GetFullHeader e (tip_hash prev (expand prev buffer))].
Proof using.
  revert prev. induction buffer as [|x buffer IH]; intros prev; [reflexivity|]. cbn [app expand]. rewrite IH. cbn [app]. do 3 f_equal.
  change (GetFullHeader x prev :: expand (header_hash (GetFullHeader x prev)) buffer) with ([GetFullHeader x prev] ++ expand (header_hash (GetFullHeader x prev)) buffer).
  rewrite tip_hash_app. reflexivity.
Qed.

Lemma expand_last prev buffer e : last buffer = Some e -> exists y, last (expand prev buffer) = Some (GetFullHeader e y).
Proof using.
  destruct buffer as [|x buffer _] using rev_ind; [discriminate|]. rewrite last_snoc. intros [= <-]. rewrite expand_snoc, last_snoc. eauto.
Qed.

Lemma buffer_bits s pre seen rel : redownload_inv s pre seen rel ->
  match last (m_redownloaded_headers s) with Some e => ch_nBits e | None => nBits start end = tip_bits (nBits start) seen.
Proof using.
  intros [_ _ Es _ _ _ _ _ _ _ Eb _ _ _]. destruct (last (m_redownloaded_headers s)) as [e|] eqn:El.
  - destruct (expand_last (m_redownload_buffer_first_prev_hash s) _ e El) as [y Ey]. unfold tip_bits. rewrite Es, last_app, Ey. reflexivity.
  - apply last_None in El. rewrite (Eb El). reflexivity.
Qed.

(** The conditions under which one more header is stored: it connects, its
    difficulty is permitted, and it agrees with the first download, unless
    enough work was seen. *)
Definition redownload_ok (s : HeadersSyncState) (pre seen : list CBlockHeader) (hd : CBlockHeader) : Prop :=
  hashPrevBlock hd = tip_hash x0 seen /\
  PermittedDifficultyTransition params (height0 + Z.of_nat (length seen) + 1) (tip_bits (nBits start) seen) (hdr_nBits hd) = Ok true /\
  (m_process_all_remaining_headers s = true \/ enough (seen ++ [hd]) \/ exists rest, commitments c height0 (seen ++ [hd]) ++ rest = commitments c height0 pre).

Lemma redownload_step s pre seen rel hd : redownload_inv s pre seen rel -> bits_typed hd -> height0 + Z.of_nat (length seen) + 1 < 2 ^ 31 ->
  exists ok s', ValidateAndStoreRedownloadedHeader c hd s = (Ok ok, s') /\ m_max_commitments s' = m_max_commitments s /\
    (redownload_ok s pre seen hd -> ok = true) /\ (ok = true -> redownload_inv s' pre (seen ++ [hd]) rel).
Proof using Hsu.
  intros Hi Hd Hlt. pose proof Hi as [Is Ipre Iseen If Il Ih Ic Ip Iw It Ib Ir Ick _]. pose proof (su_height _ Hsu) as H0.
  unfold ValidateAndStoreRedownloadedHeader, redownload_ok. unfold mbind at 1, stm_bind at 1, get_st at 1.
  rewrite Is, bool_decide_eq_true_2 by reflexivity. cbn [negb]. rewrite Ih, swrap_small by (try lia; word_lia). rewrite Il, (buffer_bits s pre seen rel Hi).
  set (height := height0 + Z.of_nat (length seen) + 1).
  destruct (bool_decide_reflect (hashPrevBlock hd = tip_hash x0 seen)) as [Ec|Ec]; cbn [negb];
    [|exists false, s; split; [reflexivity|]; split; [reflexivity|]; split; [intros [E _]; contradiction|discriminate]].
  unfold mbind at 1, stm_bind at 1, lift_st at 1.
  destruct (Permitted_total params (su_pow _ Hsu) height _ (hdr_nBits hd) (tip_bits_typed seen It)) as [permitted Ep]. rewrite Ep.
  destruct permitted; cbn [negb]; [|exists false, s; split; [reflexivity|]; split; [reflexivity|]; split; [intros (_ & E & _); congruence|discriminate]].
  destruct (holds_work_snoc _ _ hd Iw Hd) as (proof & Epr & Iw'). unfold mbind at 1, stm_bind at 1, lift_st at 1. rewrite Epr.
  pose proof (holds_work_enough _ _ Iw') as Ren. set (work := op_add (m_redownload_chain_work s) proof) in *. set (all := (m_process_all_remaining_headers s || _)%bool).
  assert (Eco : commitments c height0 (seen ++ [hd]) = commitments c height0 seen ++ if commits_at c height then [commitment_of c hd] else []).
  { rewrite commitments_app. cbn [commitments]. rewrite app_nil_r. reflexivity. }
  assert (Hall : all = true -> exists n, enough (take n (seen ++ [hd]))).
  { unfold all. rewrite orb_true_iff, negb_true_iff. intros [E|E].
    - rewrite E in Ick. destruct Ick as [n Hn]. exists (min n (length seen)). rewrite take_app_le by lia. destruct (Nat.le_gt_cases n (length seen)).
      + rewrite Nat.min_l by lia. exact Hn.
      + rewrite Nat.min_r by lia. rewrite take_ge in Hn by lia. rewrite firstn_all. exact Hn.
    - apply Ren in E. exists (S (length seen)). rewrite take_ge by (rewrite length_app; cbn; lia). exact E. }
  assert (Fin : forall coms, Z.of_nat (length coms) <= m_max_commitments s ->
    (all = false -> commitments c height0 (seen ++ [hd]) ++ coms = commitments c height0 pre) ->
    redownload_inv (store_header hd height (set_redownload work all coms s)) pre (seen ++ [hd]) rel).
  { intros coms Hr Hck. split; cbn; auto.
    - rewrite expand_snoc, app_assoc, <- Iseen. do 2 f_equal. rewrite If, <- tip_hash_app, <- If, <- Iseen, <- Ec. symmetry. apply full_compress.
    - unfold tip_hash. rewrite last_snoc. reflexivity.
    - rewrite length_app. cbn. unfold height. lia.
    - rewrite connected_snoc. auto.
    - rewrite permitted_snoc. auto.
    - apply Forall_app_2; [exact It|constructor; [exact Hd|constructor]].
    - intros E. destruct (m_redownloaded_headers s); discriminate.
    - destruct all; auto.
    - intros E. right. unfold all in E. apply orb_false_iff in E as [_ E]. apply negb_false_iff in E. rewrite <- Ren. congruence. }
  unfold mbind at 1, stm_bind at 1, modify_st at 1. destruct all eqn:Eall; cbn [negb andb].
  { unfold mbind at 1, stm_bind at 1. cbn [mret stm_ret negb]. unfold mbind, stm_bind, modify_st. eexists true, _. split; [reflexivity|]. split; [reflexivity|]. split; [auto|].
    intros _. apply Fin; [exact Ir|discriminate]. }
  unfold all in Eall. apply orb_false_iff in Eall as [Eflag Elow]. rewrite Eflag in Ick. apply negb_false_iff in Elow.
  assert (Nen : ~ enough (seen ++ [hd])) by (intros E; apply Ren in E; congruence).
  destruct (commits_at c height); unfold mbind at 1, stm_bind at 1.
  - destruct (m_header_commitments s) as [|expected rest] eqn:Em.
    + cbn [mret stm_ret negb]. eexists false, _. split; [reflexivity|]. split; [reflexivity|]. split; [|discriminate].
      intros (_ & _ & [E|[E|[rest E]]]); [congruence|contradiction|]. rewrite app_nil_r in Ick. rewrite Eco, <- Ick in E.
      apply (f_equal length) in E. rewrite !length_app in E. cbn in E. lia.
    + unfold mbind at 1, stm_bind at 1, modify_st at 1. cbn [mret stm_ret]. destruct (bool_decide_reflect (commitment_of c hd = expected)) as [Ex|Ex]; cbn [negb].
      * unfold mbind, stm_bind, modify_st. eexists true, _. split; [reflexivity|]. split; [reflexivity|]. split; [auto|]. intros _.
        apply (Fin rest); [cbn in Ir; lia|]. intros _. rewrite Eco, <- app_assoc, Ex. exact Ick.
      * eexists false, _. split; [reflexivity|]. split; [reflexivity|]. split; [|discriminate]. intros (_ & _ & [E|[E|[rest' E]]]); [congruence|contradiction|].
        rewrite Eco, <- Ick, <- app_assoc in E. apply app_inv_head in E. injection E as E _. contradiction.
  - cbn [mret stm_ret negb]. unfold mbind, stm_bind, modify_st. eexists true, _. split; [reflexivity|]. split; [reflexivity|]. split; [auto|]. intros _.
    apply Fin; [exact Ir|]. intros _. rewrite Eco, app_nil_r. exact Ick.
Qed.

(** A batch of the second download; the headers of the first are taken again. *)
Lemma recheck_loop_spec hs : forall s pre seen rel, redownload_inv s pre seen rel -> Forall bits_typed hs -> height0 + Z.of_nat (length (seen ++ hs)) < 2 ^ 31 ->
  exists ok s', recheck_loop c hs s = (Ok ok, s') /\ m_max_commitments s' = m_max_commitments s /\ (ok = true -> redownload_inv s' pre (seen ++ hs) rel) /\
    (connected x0 (seen ++ hs) -> permitted_chain c height0 (nBits start) (seen ++ hs) -> (exists rest, pre = (seen ++ hs) ++ rest) -> ok = true).
Proof using Hsu.
  induction hs as [|hd hs IH]; intros s pre seen rel Hi Ht Hlt; cbn [recheck_loop]; [exists true, s; rewrite app_nil_r; auto|].
  apply Forall_cons in Ht as [Hd Ht]. rewrite length_app in Hlt. cbn [length] in Hlt.
  destruct (redownload_step s pre seen rel hd Hi Hd ltac:(lia)) as (ok & s1 & E & Em & R & Hi1). unfold mbind, stm_bind. rewrite E.
  replace (seen ++ hd :: hs) with ((seen ++ [hd]) ++ hs) by (rewrite <- app_assoc; reflexivity). destruct ok; cbn [negb].
  - destruct (IH s1 pre (seen ++ [hd]) rel (Hi1 eq_refl) Ht) as (ok & s2 & E2 & Em2 & Hi2 & Hc2); [rewrite !length_app; cbn; lia|].
    exists ok, s2. split; [exact E2|]. split; [congruence|]. auto.
  - exists false, s1. split; [reflexivity|]. split; [exact Em|]. split; [discriminate|]. intros Hc Hp [rest Hr]. apply R.
    apply connected_prefix, connected_snoc in Hc. apply permitted_prefix, permitted_snoc in Hp. split; [apply Hc|]. split; [apply Hp|]. right. right.
    rewrite Hr, <- app_assoc, (commitments_app c height0 (seen ++ [hd])). eauto.
Qed.

(** What is released, and what stays. *)
Lemma pop_spec s pre seen rel : redownload_inv s pre seen rel -> exists ret s', PopHeadersReadyForAcceptance s = (Ok ret, s') /\
  m_max_commitments s' = m_max_commitments s /\ m_process_all_remaining_headers s' = m_process_all_remaining_headers s /\
  if m_process_all_remaining_headers s then rel ++ ret = seen /\ m_redownloaded_headers s' = []
  else redownload_inv s' pre seen (rel ++ ret) /\ (length (m_redownloaded_headers s') <= REDOWNLOAD_BUFFER_SIZE)%nat /\
    (ret <> [] -> length (m_redownloaded_headers s') = REDOWNLOAD_BUFFER_SIZE).
Proof using.
  intros Hi. pose proof Hi as [Is Ipre Iseen If Il Ih Ic Ip Iw It Ib Ir Ick Ilow]. unfold PopHeadersReadyForAcceptance. unfold mbind at 1, stm_bind at 1, get_st at 1.
  rewrite Is, bool_decide_eq_true_2 by reflexivity. cbn [negb].
  pose proof (pop_loop_spec (m_process_all_remaining_headers s) (m_redownloaded_headers s) (m_redownload_buffer_first_prev_hash s)) as P.
  destruct (pop_loop _ _ _) as [[ret hash] kept]. destruct P as (n & Eret & Ekept & Ehash & Hle & En). unfold mbind, stm_bind, modify_st.
  eexists ret, _. split; [reflexivity|]. split; [reflexivity|]. split; [reflexivity|]. cbn [set_buffer m_redownloaded_headers m_process_all_remaining_headers].
  set (full := expand (m_redownload_buffer_first_prev_hash s) (m_redownloaded_headers s)) in *.
  assert (Hlen : length full = length (m_redownloaded_headers s)) by apply expand_length.
  destruct (m_process_all_remaining_headers s) eqn:Eall.
  - split; [|rewrite Ekept, drop_ge by lia; reflexivity]. rewrite Eret, take_ge by lia. symmetry. exact Iseen.
  - assert (Elk : length kept = (length (m_redownloaded_headers s) - n)%nat) by (rewrite Ekept; apply length_drop).
    assert (Lr : length ret = n) by (rewrite Eret, length_take; lia).
    assert (Ex : expand hash kept = drop n full).
    { rewrite Ehash, Eret, Ekept. apply expand_drop. exact Hle. }
    split; [|split].
    + split; cbn; auto.
      * rewrite Ex, <- app_assoc, Eret, take_drop. exact Iseen.
      * rewrite Ehash, If. symmetry. apply tip_hash_app.
      * intros E. apply Ib. apply (f_equal length) in E. rewrite Elk in E. cbn in E. apply length_zero_iff_nil. destruct REDOWNLOAD_BUFFER_SIZE eqn:Ebs; [discriminate Ebs|lia].
      * rewrite Eall in *. exact Ick.
    + lia.
    + intros Hne. assert (n <> 0%nat) by (intros ->; apply Hne, length_zero_iff_nil, Lr). lia.
Qed.
End Sync.

(** * Whole downloads of headers

    [ProcessNextHeaders] over any sequence of messages: what the state holds
    and what has been released after each ([sync_ok]), and that a chain served
    twice is released whole. *)

Section Run.
Context {HP : Primitives} {HB : BlockEnv} (c : sync_const).
Context (sh : CBlockHeader) (Hsu : sync_setup c sh).
Notation start := (start_entry c).
Notation height0 := (Chain.nHeight (start_entry c)).
Notation x0 := (header_hash sh).

(** The messages of a peer, one after the other. *)
Fixpoint run_sync (calls : list (list CBlockHeader * bool)) : stm HeadersSyncState (list ProcessingResult) :=
  match calls with
  | [] => mret []
  | (received, full) :: rest => r ← ProcessNextHeaders c received full; rs ← run_sync rest; mret (r :: rs)
  end.

Definition received (calls : list (list CBlockHeader * bool)) : list CBlockHeader := concat (map fst calls).
Definition released (results : list ProcessingResult) : list CBlockHeader := concat (map pow_validated_headers results).

(** What stands behind the headers released out of those received: a first
    download [pre] with enough work, and a second one that connects to the
    start, has permitted difficulties, and either has the work itself or
    agrees with the first in every bit kept, up to 14441 headers further. *)
Definition evidence (got rel : list CBlockHeader) : Prop := rel = [] \/
  exists pre rest later, got = pre ++ (rel ++ rest) ++ later /\ first_download c pre /\
    connected x0 (rel ++ rest) /\ permitted_chain c height0 (nBits start) (rel ++ rest) /\
    ((exists n, enough c (take n rel)) \/ (length rest = REDOWNLOAD_BUFFER_SIZE /\ commitments c height0 (rel ++ rest) `prefix_of` commitments c height0 pre)).

Lemma evidence_later got rel more : evidence got rel -> evidence (got ++ more) rel.
Proof using.
  intros [E|(pre & rest & later & -> & R)]; [left; exact E|]. right. exists pre, rest, (later ++ more). rewrite <- !app_assoc in *. split; [reflexivity|exact R].
Qed.

(** ** The invariant between messages *)

Definition sync_ok (s : HeadersSyncState) (got rel : list CBlockHeader) : Prop :=
  0 <= m_max_commitments s /\
  match m_download_state s with
  | PRESYNC => presync_inv c sh s got /\ rel = []
  | REDOWNLOAD => exists pre seen, got = pre ++ seen /\ redownload_inv c sh s pre seen rel /\ m_process_all_remaining_headers s = false /\
      (length (m_redownloaded_headers s) <= REDOWNLOAD_BUFFER_SIZE)%nat /\ evidence got rel
  | FINAL => m_header_commitments s = [] /\ m_redownloaded_headers s = [] /\ evidence got rel
  end.

Lemma sync_ok_evidence s got rel : sync_ok s got rel -> evidence got rel.
Proof using. intros [_ H]. destruct (m_download_state s); [left; apply H| |apply H]. destruct H as (pre & seen & _ & _ & _ & _ & H). exact H. Qed.

Lemma sync_ok_memory s got rel : sync_ok s got rel ->
  Z.of_nat (length (m_header_commitments s)) <= m_max_commitments s /\ (length (m_redownloaded_headers s) <= REDOWNLOAD_BUFFER_SIZE)%nat.
Proof using.
  intros [H0 H]. destruct (m_download_state s).
  - destruct H as [Hi _]. split; [apply Hi|]. rewrite (ps_buffer _ _ _ _ Hi). cbn. lia.
  - destruct H as (pre & seen & _ & Hi & _ & Hb & _). split; [apply Hi|exact Hb].
  - destruct H as (-> & -> & _). cbn. split; lia.
Qed.

(** A batch of the first download, whole: on enough work the second begins. *)
Lemma commitments_stored hs s pre : presync_inv c sh s pre -> hs <> [] -> Forall bits_typed hs -> height0 + Z.of_nat (length (pre ++ hs)) < 2 ^ 31 ->
  exists ok s', ValidateAndStoreHeadersCommitments c hs s = (Ok ok, s') /\ m_max_commitments s' = m_max_commitments s /\
    (ok = true -> (enough c (pre ++ hs) /\ redownload_inv c sh s' (pre ++ hs) [] [] /\ m_process_all_remaining_headers s' = false /\ m_redownloaded_headers s' = []) \/
                  (~ enough c (pre ++ hs) /\ presync_inv c sh s' (pre ++ hs))) /\
    (connected x0 (pre ++ hs) -> permitted_chain c height0 (nBits start) (pre ++ hs) ->
     Z.of_nat (length (commitments c height0 (pre ++ hs))) <= m_max_commitments s -> ok = true).
Proof using Hsu.
  intros Hi Hne Ht Hlt. destruct hs as [|first rest]; [contradiction|]. cbn [ValidateAndStoreHeadersCommitments].
  unfold mbind at 1, stm_bind at 1, get_st at 1. rewrite (ps_state _ _ _ _ Hi), bool_decide_eq_true_2 by reflexivity. cbn [negb].
  rewrite (ps_last _ _ _ _ Hi), last_tip_hash. destruct (bool_decide_reflect (hashPrevBlock first = tip_hash x0 pre)) as [Ec|Ec]; cbn [negb].
  2:{ exists false, s. split; [reflexivity|]. split; [reflexivity|]. split; [discriminate|]. intros Hc. exfalso. apply Ec.
      change (first :: rest) with ([first] ++ rest) in Hc. rewrite app_assoc in Hc. apply connected_prefix, connected_snoc in Hc. apply Hc. }
  destruct (presync_loop_spec c sh Hsu (first :: rest) s pre Hi Ht Hlt) as (ok & s1 & E & Em & Hi1 & Hc1). unfold mbind at 1, stm_bind at 1. rewrite E.
  destruct ok; cbn [negb]; [|exists false, s1; split; [reflexivity|]; split; [exact Em|]; split; [discriminate|auto]].
  specialize (Hi1 eq_refl). unfold mbind at 1, stm_bind at 1, get_st at 1. unfold mbind at 1, stm_bind at 1.
  pose proof (holds_work_enough c sh Hsu _ _ (ps_work _ _ _ _ Hi1)) as R. destruct (uint_lt _ _).
  - exists true, s1. split; [reflexivity|]. split; [exact Em|]. split; [|auto]. intros _. right. split; [rewrite <- R; discriminate|exact Hi1].
  - assert (He : enough c (pre ++ first :: rest)) by (apply R; reflexivity).
    unfold mbind at 1, stm_bind at 1, lift_st at 1, GetBlockHash. rewrite (su_hash _ _ Hsu). eexists true, _. split; [reflexivity|]. split; [exact Em|]. split; [|auto].
    intros _. left. split; [exact He|]. split; [|split; [apply Hi1|reflexivity]]. pose proof Hi1 as [Is Iw Ih Il Ic Ir Ip If It Ib].
    split; cbn; auto.
    + split; assumption.
    + lia.
    + split; [apply (su_work _ _ Hsu)|]. unfold total_work. cbn. rewrite Z.add_0_r. symmetry. apply Z.mod_small. apply uval_bound, (su_work _ _ Hsu).
    + rewrite If. exact Ic.
Qed.

Lemma finalized_ok s got rel : 0 <= m_max_commitments s -> evidence got rel -> exists s', Finalize s = (Ok tt, s') /\ sync_ok s' got rel /\ m_download_state s' = FINAL.
Proof using. intros H0 He. eexists. split; [reflexivity|]. split; [|reflexivity]. split; [exact H0|]. cbn. auto. Qed.
(** A message of the first download. *)
Lemma presync_call hs full s got : presync_inv c sh s got -> 0 <= m_max_commitments s -> hs <> [] -> Forall bits_typed hs -> height0 + Z.of_nat (length (got ++ hs)) < 2 ^ 31 ->
  exists r s', ProcessNextHeaders c hs full s = (Ok r, s') /\ m_max_commitments s' = m_max_commitments s /\ sync_ok s' (got ++ hs) [] /\ pow_validated_headers r = [] /\
    (connected x0 (got ++ hs) -> permitted_chain c height0 (nBits start) (got ++ hs) -> Z.of_nat (length (commitments c height0 (got ++ hs))) <= m_max_commitments s ->
     success r = true /\ (enough c (got ++ hs) -> redownload_inv c sh s' (got ++ hs) [] [] /\ m_process_all_remaining_headers s' = false) /\
     (~ enough c (got ++ hs) -> full = true -> presync_inv c sh s' (got ++ hs))).
Proof using Hsu.
  intros Hi H0 Hne Ht Hlt. destruct (commitments_stored hs s got Hi Hne Ht Hlt) as (ok & s1 & E & Em & Hst & Hc). unfold ProcessNextHeaders. unfold mbind at 1, stm_bind at 1, get_st at 1.
  rewrite (ps_state _ _ _ _ Hi). destruct hs as [|hd hs]; [contradiction|]. unfold mbind at 1, stm_bind at 1. rewrite E. unfold mbind at 1, stm_bind at 1, get_st at 1. unfold mbind at 1, stm_bind at 1.
  assert (H1 : 0 <= m_max_commitments s1) by lia. assert (Ev : evidence (got ++ hd :: hs) []) by (left; reflexivity). destruct ok; cbn [andb].
  - destruct (Hst eq_refl) as [(He & Hr & Hf & Hb)|(He & Hp)].
    + rewrite (rd_state _ _ _ _ _ _ Hr), bool_decide_eq_true_2, orb_true_r by reflexivity. eexists _, s1. split; [reflexivity|]. split; [exact Em|]. split; [|split; [reflexivity|]].
      * split; [exact H1|]. rewrite (rd_state _ _ _ _ _ _ Hr). exists (got ++ hd :: hs), []. rewrite app_nil_r, Hb. cbn. auto with lia.
      * intros _ _ _. cbn. split; [reflexivity|]. split; [auto|]. intros N. contradiction.
    + rewrite (ps_state _ _ _ _ Hp), bool_decide_eq_false_2, orb_false_r by discriminate. destruct full; eexists _, _; (split; [reflexivity|]); (split; [exact Em|]); (split; [|split; [reflexivity|]]).
      * split; [exact H1|]. rewrite (ps_state _ _ _ _ Hp). auto.
      * intros _ _ _. cbn. split; [reflexivity|]. split; [intros N; contradiction|auto].
      * split; [exact H1|]. cbn. auto.
      * intros _ _ _. cbn. split; [reflexivity|]. split; [intros N; contradiction|discriminate].
  - eexists _, _. split; [reflexivity|]. split; [exact Em|]. split; [split; [exact H1|cbn; auto]|]. split; [reflexivity|]. intros A B D. specialize (Hc A B D). discriminate.
Qed.

(** A message of the second download. *)
Lemma redownload_call hs full s pre seen rel : redownload_inv c sh s pre seen rel -> m_process_all_remaining_headers s = false -> evidence (pre ++ seen) rel ->
  0 <= m_max_commitments s -> hs <> [] -> Forall bits_typed hs -> height0 + Z.of_nat (length (seen ++ hs)) < 2 ^ 31 ->
  exists r s', ProcessNextHeaders c hs full s = (Ok r, s') /\ m_max_commitments s' = m_max_commitments s /\ sync_ok s' (pre ++ seen ++ hs) (rel ++ pow_validated_headers r) /\
    (connected x0 (seen ++ hs) -> permitted_chain c height0 (nBits start) (seen ++ hs) -> (exists rest, pre = (seen ++ hs) ++ rest) ->
     success r = true /\ (enough c (seen ++ hs) -> rel ++ pow_validated_headers r = seen ++ hs /\ m_download_state s' = FINAL) /\
     (~ (exists n, enough c (take n (seen ++ hs))) -> full = true -> redownload_inv c sh s' pre (seen ++ hs) (rel ++ pow_validated_headers r) /\ m_process_all_remaining_headers s' = false)).
Proof using Hsu.
  intros Hi Hflag Hev H0 Hne Ht Hlt. destruct (recheck_loop_spec c sh Hsu hs s pre seen rel Hi Ht Hlt) as (ok & s1 & E & Em & Hi1 & Hc). unfold ProcessNextHeaders.
  unfold mbind at 1, stm_bind at 1, get_st at 1. rewrite (rd_state _ _ _ _ _ _ Hi). destruct hs as [|hd hs]; [contradiction|]. unfold mbind at 1, stm_bind at 1. rewrite E. rewrite <- Em in H0.
  destruct ok; cbn [negb].
  2:{ eexists _, _. split; [reflexivity|]. split; [exact Em|]. split; [|intros A B D; specialize (Hc A B D); discriminate].
      cbn. rewrite app_nil_r, app_assoc. split; [exact H0|]. cbn. split; [reflexivity|]. split; [reflexivity|]. apply evidence_later, Hev. }
  specialize (Hi1 eq_refl). destruct (pop_spec c sh s1 pre _ rel Hi1) as (ret & s2 & Epop & Em2 & Ef2 & Hpop). unfold mbind at 1, stm_bind at 1. rewrite Epop.
  unfold mbind at 1, stm_bind at 1, get_st at 1. unfold mbind at 1, stm_bind at 1. rewrite Ef2. rewrite <- Em2 in H0.
  pose proof Hi1 as [Is Ipre Iseen If Il Ih Ic Ip Iw It Ib Ir Ick Ilow]. destruct (m_process_all_remaining_headers s1) eqn:Eall.
  - destruct Hpop as [Erel Eb]. rewrite Eb, bool_decide_eq_true_2 by reflexivity. cbn [andb negb]. eexists _, _. split; [reflexivity|]. split; [exact (eq_trans Em2 Em)|]. cbn [pow_validated_headers success].
    split; [|intros _ _ _; split; [reflexivity|]; split; [auto|]; intros N; contradiction]. split; [exact H0|]. cbn. split; [reflexivity|]. split; [reflexivity|]. right.
    exists pre, [], []. rewrite !app_nil_r, Erel. auto 10.
  - destruct Hpop as (Hi2 & Hb & Hfull). rewrite andb_false_r. cbn [negb andb].
    assert (Ev : evidence (pre ++ seen ++ hd :: hs) (rel ++ ret)).
    { destruct ret as [|x ret]; [rewrite app_nil_r, app_assoc; apply evidence_later, Hev|]. right. pose proof (rd_seen _ _ _ _ _ _ Hi2) as Es.
      eexists pre, _, []. rewrite app_nil_r, <- Es. split; [reflexivity|]. split; [exact Ipre|]. split; [exact Ic|]. split; [exact Ip|]. right.
      rewrite expand_length. split; [apply Hfull; discriminate|]. rewrite <- Ick. apply prefix_app_r. reflexivity. }
    assert (Nen : enough c (seen ++ hd :: hs) -> False) by (intros He; destruct (Ilow eq_refl) as [N|N]; [destruct seen; discriminate|contradiction]).
    destruct full; eexists _, _; (split; [reflexivity|]); (split; [exact (eq_trans Em2 Em)|]); cbn [pow_validated_headers success].
    + split; [|intros _ _ _; split; [reflexivity|]; split; [intros He; destruct (Nen He)|auto]]. split; [exact H0|]. rewrite (rd_state _ _ _ _ _ _ Hi2). exists pre, (seen ++ hd :: hs). auto.
    + split; [|intros _ _ _; split; [reflexivity|]; split; [intros He; destruct (Nen He)|discriminate]]. split; [exact H0|]. cbn. auto.
Qed.
Lemma new_presync now mtp : presync_inv c sh (new_HeadersSyncState c now mtp sh) [].
Proof using Hsu.
  split; cbn; auto; try lia.
  - split; [apply (su_work _ _ Hsu)|]. unfold total_work. cbn. rewrite Z.add_0_r. symmetry. apply Z.mod_small, uval_bound, (su_work _ _ Hsu).
  - apply Z.div_pos; [apply uwrap_range; lia|reflexivity].
Qed.

Lemma new_sync_ok now mtp : sync_ok (new_HeadersSyncState c now mtp sh) [] [].
Proof using Hsu. split; [|split; [apply new_presync|reflexivity]]. pose proof (ps_room _ _ _ _ (new_presync now mtp)). cbn in *. lia. Qed.

(** Every message keeps the invariant. *)
Lemma sync_step hs full s got rel : sync_ok s got rel -> Forall bits_typed hs -> height0 + Z.of_nat (length (got ++ hs)) < 2 ^ 31 ->
  exists r s', ProcessNextHeaders c hs full s = (Ok r, s') /\ m_max_commitments s' = m_max_commitments s /\ sync_ok s' (got ++ hs) (rel ++ pow_validated_headers r).
Proof using Hsu.
  intros Hok Ht Hlt. destruct (decide (hs = [])) as [->|Hne]; [eexists _, s; split; [reflexivity|]; cbn; rewrite !app_nil_r; auto|].
  pose proof Hok as [H0 Hm]. destruct (m_download_state s) eqn:Es.
  - destruct Hm as [Hi ->]. destruct (presync_call hs full s got Hi H0 Hne Ht Hlt) as (r & s' & E & Em & Hs & Er & _). exists r, s'. rewrite Er. auto.
  - destruct Hm as (pre & seen & -> & Hi & Hf & _ & Hev). rewrite <- app_assoc in Hlt |- *. rewrite length_app in Hlt.
    destruct (redownload_call hs full s pre seen rel Hi Hf Hev H0 Hne Ht ltac:(lia)) as (r & s' & E & Em & Hs & _). eauto.
  - exists {| pow_validated_headers := []; success := false; request_more := false |}, s. split; [|split; [reflexivity|]].
    + unfold ProcessNextHeaders, mbind, stm_bind, get_st. rewrite Es. destruct hs; reflexivity.
    + cbn. rewrite app_nil_r. split; [exact H0|]. rewrite Es. destruct Hm as (A & B & Hev). split; [exact A|]. split; [exact B|]. apply evidence_later, Hev.
Qed.

Lemma sync_run calls : forall s got rel, sync_ok s got rel -> Forall bits_typed (received calls) -> height0 + Z.of_nat (length (got ++ received calls)) < 2 ^ 31 ->
  exists rs s', run_sync calls s = (Ok rs, s') /\ m_max_commitments s' = m_max_commitments s /\ sync_ok s' (got ++ received calls) (rel ++ released rs).
Proof using Hsu.
  induction calls as [|[hs full] calls IH]; intros s got rel Hok Ht Hlt; cbn [run_sync received map concat fst] in *; [exists [], s; cbn; rewrite !app_nil_r; auto|].
  fold (received calls) in *. apply Forall_app in Ht as [Hd Ht]. rewrite app_assoc in Hlt. unfold mbind at 1, stm_bind at 1.
  destruct (sync_step hs full s got rel Hok Hd) as (r & s1 & -> & Em & H1); [rewrite length_app in Hlt; lia|].
  destruct (IH s1 _ _ H1 Ht Hlt) as (rs & s2 & E & Em2 & H2). unfold mbind, stm_bind. rewrite E. eexists (r :: rs), s2. split; [reflexivity|]. split; [congruence|].
  cbn [released map concat]. rewrite !app_assoc. exact H2.
Qed.

(** ** A chain served twice *)

(** The messages that carry a chain: full ones, the work required reached with
    the last, which need not be full. *)
Definition serves (chain : list CBlockHeader) (calls : list (list CBlockHeader * bool)) : Prop :=
  exists full_ones batch full, calls = full_ones ++ [(batch, full)] /\ Forall (fun call => call.1 <> [] /\ call.2 = true) full_ones /\ batch <> [] /\
    chain = received full_ones ++ batch /\ ~ enough c (received full_ones).

Record good_chain (chain : list CBlockHeader) (max : Z) : Prop := {
  gc_connected : connected x0 chain;
  gc_permitted : permitted_chain c height0 (nBits start) chain;
  gc_typed : Forall bits_typed chain;
  gc_height : height0 + Z.of_nat (length chain) < 2 ^ 31;
  gc_work : enough c chain;
  gc_no_wrap : total_work c chain < 2 ^ 256;
  gc_room : Z.of_nat (length (commitments c height0 chain)) <= max;
}.

Lemma run_sync_app calls1 calls2 s rs1 s1 : run_sync calls1 s = (Ok rs1, s1) ->
  forall rs2 s2, run_sync calls2 s1 = (Ok rs2, s2) -> run_sync (calls1 ++ calls2) s = (Ok (rs1 ++ rs2), s2).
Proof using.
  revert s rs1. induction calls1 as [|[hs full] calls1 IH]; intros s rs1; cbn [run_sync app]; [intros [= <- <-]; auto|].
  unfold mbind, stm_bind. destruct (ProcessNextHeaders c hs full s) as [[r|] s0]; [|discriminate]. destruct (run_sync calls1 s0) as [[rs|] s3] eqn:E; [|discriminate].
  intros [= <- <-] rs2 s2 E2. rewrite (IH _ _ E _ _ E2). reflexivity.
Qed.

Lemma good_prefix chain max l1 l2 : good_chain chain max -> chain = l1 ++ l2 ->
  connected x0 l1 /\ permitted_chain c height0 (nBits start) l1 /\ Forall bits_typed l1 /\ height0 + Z.of_nat (length l1) < 2 ^ 31 /\
  Z.of_nat (length (commitments c height0 l1)) <= max /\ (forall n, enough c (take n l1) -> enough c l1).
Proof using Hsu.
  intros [A B C D E F G] ->. apply Forall_app in C as [C C2]. rewrite length_app in D. rewrite commitments_app, length_app in G.
  repeat split; eauto using connected_prefix, permitted_prefix; try lia.
  intros n. unfold enough, total_work in *. pose proof (work_sum_nonneg _ C2). pose proof (uval_bound _ (proj1 (su_work _ _ Hsu))).
  rewrite work_sum_app in F. assert (Ew : work_sum l1 = work_sum (take n l1) + work_sum (drop n l1)) by (rewrite <- work_sum_app, take_drop; reflexivity).
  pose proof (work_sum_nonneg _ (Forall_take _ n _ C)). pose proof (work_sum_nonneg _ (Forall_drop _ n _ C)). rewrite !Z.mod_small by lia. lia.
Qed.

(** Messages that keep an invariant of the state, what was seen and what was
    released, all succeed. *)
Lemma full_run (I : HeadersSyncState -> list CBlockHeader -> list CBlockHeader -> Prop) goal :
  (forall s seen rel hs rest, I s seen rel -> hs <> [] -> goal = (seen ++ hs) ++ rest ->
   exists r s', ProcessNextHeaders c hs true s = (Ok r, s') /\ success r = true /\ I s' (seen ++ hs) (rel ++ pow_validated_headers r)) ->
  forall calls s seen rel, Forall (fun call => call.1 <> [] /\ call.2 = true) calls -> I s seen rel -> goal = seen ++ received calls ->
  exists rs s', run_sync calls s = (Ok rs, s') /\ Forall (fun r => success r = true) rs /\ I s' goal (rel ++ released rs).
Proof using.
  intros Step. induction calls as [|[hs full] calls IH]; intros s seen rel Hf Hi Eg; cbn [received map concat fst] in Eg.
  - rewrite app_nil_r in Eg. subst goal. exists [], s. cbn. rewrite app_nil_r. auto.
  - fold (received calls) in Eg. apply Forall_cons in Hf as [[Hne Ef] Hf]. cbn in Hne, Ef. subst full. rewrite app_assoc in Eg.
    destruct (Step s seen rel hs _ Hi Hne Eg) as (r & s1 & E & Hs & H1). destruct (IH s1 _ _ Hf H1 Eg) as (rs & s2 & E2 & Hs2 & H2).
    exists (r :: rs), s2. cbn [run_sync]. unfold mbind, stm_bind. rewrite E, E2. split; [reflexivity|]. split; [constructor; assumption|].
    cbn [released map concat]. rewrite app_assoc. exact H2.
Qed.

Lemma run_snoc calls s rs s1 call r s2 : run_sync calls s = (Ok rs, s1) -> ProcessNextHeaders c call.1 call.2 s1 = (Ok r, s2) ->
  run_sync (calls ++ [call]) s = (Ok (rs ++ [r]), s2).
Proof using. intros E E2. apply (run_sync_app _ _ _ _ _ E). destruct call. cbn in *. unfold mbind, stm_bind. rewrite E2. reflexivity. Qed.

Lemma first_run chain max calls : good_chain chain max -> serves chain calls -> forall s, presync_inv c sh s [] -> m_max_commitments s = max -> 0 <= max ->
  exists rs s', run_sync calls s = (Ok rs, s') /\ Forall (fun r => success r = true) rs /\ released rs = [] /\ m_max_commitments s' = max /\
    redownload_inv c sh s' chain [] [] /\ m_process_all_remaining_headers s' = false.
Proof using Hsu.
  intros Hg (full_ones & batch & full & -> & Hfull & Hne & Ech & Hlow) s Hi Emax H0.
  destruct (full_run (fun s seen rel => presync_inv c sh s seen /\ m_max_commitments s = max /\ rel = []) (received full_ones)) with (calls := full_ones) (s := s) (seen := @nil CBlockHeader) (rel := @nil CBlockHeader)
    as (rs & s1 & E1 & H1 & I1 & M1 & V1); auto.
  { intros s0 seen rel hs rest (I0 & M0 & ->) Hn Eg. rewrite Eg, <- app_assoc in Ech. destruct (good_prefix chain max _ _ Hg Ech) as (A & B & C & D & E & _). pose proof C as C'. apply Forall_app in C' as [_ C'].
    destruct (presync_call hs true s0 seen I0 ltac:(lia) Hn C' D) as (r & s1 & Er & Em & _ & Ev & Hr). destruct (Hr A B ltac:(lia)) as (Hs & _ & Hp).
    exists r, s1. split; [exact Er|]. split; [exact Hs|]. rewrite Ev. split; [|split; [congruence|reflexivity]]. apply Hp; [|reflexivity]. intros He. apply Hlow. rewrite Eg in *.
    rewrite app_assoc in Ech. destruct (good_prefix chain max _ _ Hg Ech) as (_ & _ & _ & _ & _ & M). apply (M (length (seen ++ hs))). rewrite take_app_length. exact He. }
  destruct (good_prefix chain max chain [] Hg (eq_sym (app_nil_r _))) as (A & B & C & D & E & F). rewrite Ech in A, B, C, D, E. apply Forall_app in C as [_ C].
  destruct (presync_call batch full s1 _ I1 ltac:(lia) Hne C D) as (r & s2 & Er & Em & _ & Ev & Hr). destruct (Hr A B ltac:(lia)) as (Hs & Hp & _). rewrite <- Ech in Hp.
  destruct (Hp (gc_work _ _ Hg)) as [Hrd Hfl]. exists (rs ++ [r]), s2. split; [eapply run_snoc; [exact E1|exact Er]|].
  split; [apply Forall_app_2; [exact H1|constructor; [exact Hs|constructor]]|]. split; [unfold released in *; rewrite map_app, concat_app; cbn in *; rewrite V1, Ev; reflexivity|].
  split; [congruence|auto].
Qed.

Lemma second_run chain max calls : good_chain chain max -> serves chain calls -> forall s, redownload_inv c sh s chain [] [] -> m_process_all_remaining_headers s = false ->
  m_max_commitments s = max -> 0 <= max ->
  exists rs s', run_sync calls s = (Ok rs, s') /\ Forall (fun r => success r = true) rs /\ released rs = chain /\ m_download_state s' = FINAL.
Proof using Hsu.
  intros Hg (full_ones & batch & full & -> & Hfull & Hne & Ech & Hlow) s Hi Hflag Emax H0.
  destruct (full_run (fun s seen rel => redownload_inv c sh s chain seen rel /\ m_process_all_remaining_headers s = false /\ m_max_commitments s = max /\ evidence (chain ++ seen) rel) (received full_ones))
    with (calls := full_ones) (s := s) (seen := @nil CBlockHeader) (rel := @nil CBlockHeader) as (rs & s1 & E1 & H1 & I1 & F1 & M1 & V1); auto.
  { intros s0 seen rel hs rest (I0 & F0 & M0 & V0) Hn Eg. pose proof Ech as Ech'. rewrite Eg, <- app_assoc in Ech'. destruct (good_prefix chain max _ _ Hg Ech') as (A & B & C & D & E & F). pose proof C as C'. apply Forall_app in C' as [_ C'].
    destruct (redownload_call hs true s0 chain seen rel I0 F0 V0 ltac:(lia) Hn C' D) as (r & s1 & Er & Em & Hok & Hr).
    destruct (Hr A B ltac:(eauto)) as (Hs & _ & Hp). exists r, s1. split; [exact Er|]. split; [exact Hs|].
    destruct Hp as [Hp Hf]; [|reflexivity|split; [exact Hp|]; split; [exact Hf|]; split; [congruence|exact (sync_ok_evidence _ _ _ Hok)]].
    intros [n He]. apply F in He. apply Hlow. rewrite Eg. destruct (good_prefix chain max _ _ Hg Ech) as (_ & _ & _ & _ & _ & M). rewrite <- Eg.
    apply (M (length (seen ++ hs))). rewrite Eg, take_app_length. exact He. }
  { split; [exact Hi|]. split; [exact Hflag|]. split; [exact Emax|left; reflexivity]. }
  destruct (good_prefix chain max chain [] Hg (eq_sym (app_nil_r _))) as (A & B & C & D & E & F). rewrite Ech in A, B, C, D. apply Forall_app in C as [_ C].
  destruct (redownload_call batch full s1 chain _ _ I1 F1 V1 ltac:(lia) Hne C D) as (r & s2 & Er & Em & Hok & Hr).
  destruct (Hr A B) as (Hs & Hp & _); [exists []; rewrite app_nil_r; exact Ech|]. rewrite <- Ech in Hp. destruct (Hp (gc_work _ _ Hg)) as [Ev Hfin].
  exists (rs ++ [r]), s2. split; [eapply run_snoc; [exact E1|exact Er]|].
  split; [apply Forall_app_2; [exact H1|constructor; [exact Hs|constructor]]|]. split; [|exact Hfin]. unfold released in *. rewrite map_app, concat_app. cbn in *. rewrite app_nil_r. exact Ev.
Qed.

(** C12. Whatever a peer sends, the download of headers returns at every message, keeps at most
    the bits it has room for and 14441 headers, and releases only headers that
    stand on evidence: the messages before carried a chain of permitted difficulties with the
    required work, those after it a chain of which the released headers are
    the beginning, that connects to the start and has permitted difficulties,
    and that has the required work within the released part or agrees with the
    first in all bits kept up to 14441 headers further. *)
Theorem headers_sync_safe (now mtp : Z) calls : Forall bits_typed (received calls) -> height0 + Z.of_nat (length (received calls)) < 2 ^ 31 ->
  exists results s', run_sync calls (new_HeadersSyncState c now mtp sh) = (Ok results, s') /\
    Z.of_nat (length (m_header_commitments s')) <= m_max_commitments s' /\ (length (m_redownloaded_headers s') <= REDOWNLOAD_BUFFER_SIZE)%nat /\
    m_max_commitments s' = m_max_commitments (new_HeadersSyncState c now mtp sh) /\ evidence (received calls) (released results).
Proof using Hsu.
  intros Ht Hlt. destruct (sync_run calls _ [] [] (new_sync_ok now mtp) Ht Hlt) as (rs & s' & E & Em & Hok). exists rs, s'. split; [exact E|].
  destruct (sync_ok_memory _ _ _ Hok) as [A B]. split; [exact A|]. split; [exact B|]. split; [exact Em|]. exact (sync_ok_evidence _ _ _ Hok).
Qed.

(** C13. A peer that serves the same chain of permitted difficulties twice, in
    full messages of any sizes, the required work being reached in the last
    message of each pass, has every message succeed and the whole chain
    released; the state is then final. *)
Theorem headers_sync_completes (now mtp : Z) chain first second : good_chain chain (m_max_commitments (new_HeadersSyncState c now mtp sh)) ->
  serves chain first -> serves chain second ->
  exists results s', run_sync (first ++ second) (new_HeadersSyncState c now mtp sh) = (Ok results, s') /\ Forall (fun r => success r = true) results /\
    released results = chain /\ m_download_state s' = FINAL.
Proof using Hsu.
  intros Hg H1 H2. pose proof (ps_room _ _ _ _ (new_presync now mtp)) as H0.
  destruct (first_run _ _ first Hg H1 _ (new_presync now mtp) eq_refl) as (rs1 & s1 & E1 & S1 & V1 & M1 & I1 & F1); [cbn in *; lia|].
  destruct (second_run _ _ second Hg H2 s1 I1 F1 M1) as (rs2 & s2 & E2 & S2 & V2 & Fin); [cbn in *; lia|].
  exists (rs1 ++ rs2), s2. split; [exact (run_sync_app _ _ _ _ _ E1 _ _ E2)|]. split; [apply Forall_app_2; assumption|]. split; [|exact Fin].
  unfold released in *. rewrite map_app, concat_app, V1, V2. reflexivity.
Qed.
End Run.

(** ** Samples *)

#[local] Existing Instances zero_primitives mined_blocks.

(** A download from the genesis block that needs three headers of work and
    keeps the parity of the nonce of the first. *)
Definition sample_sync : sync_const :=
  {| m_commit_offset := 1; m_consensus_params := sample_params; m_chain_start := 0%nat; start_entry := genesis_entry;
     m_minimum_required_work := of_u64 (4 * 4295032833); m_hasher := fun x => hd 0 x |}.

Lemma sample_sync_setup : sync_setup sample_sync (sample_header 0 0 100).
Proof.
  split.
  - exact sample_params_ok.
  - reflexivity.
  - split; [reflexivity|vm_compute; intuition discriminate].
  - split; apply of_u64_wf.
  - discriminate.
Qed.

Definition served_chain : list CBlockHeader := [sample_header 0 1 200; sample_header 1 2 300; sample_header 2 3 400].

(** The second time, the first header has another parity. *)
Definition cheating_calls : list (list CBlockHeader * bool) :=
  [(served_chain, true); ([sample_header 0 2 200; sample_header 2 3 300], true)].

Lemma headers_sync_safe_witness : exists results s', run_sync sample_sync cheating_calls (new_HeadersSyncState sample_sync 1000000000000 100 (sample_header 0 0 100)) = (Ok results, s') /\
  map success results = [true; false] /\ released results = [] /\ m_download_state s' = FINAL.
Proof.
  destruct (headers_sync_safe sample_sync (sample_header 0 0 100) sample_sync_setup 1000000000000 100 cheating_calls) as (rs & s' & E & _).
  - repeat constructor; vm_compute; discriminate.
  - reflexivity.
  - exists rs, s'. split; [exact E|]. vm_compute in E. injection E as <- <-. repeat split.
Defined.

Lemma served_chain_good : good_chain sample_sync (sample_header 0 0 100) served_chain 70.
Proof.
  split.
  - repeat split.
  - repeat split; vm_compute; reflexivity.
  - repeat constructor; vm_compute; discriminate.
  - reflexivity.
  - vm_compute. discriminate.
  - vm_compute. reflexivity.
  - vm_compute. discriminate.
Qed.

Lemma headers_sync_completes_witness : exists results s', run_sync sample_sync
  ([(take 2 served_chain, true); (drop 2 served_chain, false)] ++ [(served_chain, false)]) (new_HeadersSyncState sample_sync 1000000000000 100 (sample_header 0 0 100)) = (Ok results, s') /\
  released results = served_chain /\ map request_more results = [true; true; false].
Proof.
  destruct (headers_sync_completes sample_sync (sample_header 0 0 100) sample_sync_setup 1000000000000 100 served_chain
    [(take 2 served_chain, true); (drop 2 served_chain, false)] [(served_chain, false)]) as (rs & s' & E & _ & V & _).
  - replace (m_max_commitments _) with 80; [|vm_compute; reflexivity]. destruct served_chain_good; split; auto; lia.
  - exists [(take 2 served_chain, true)], (drop 2 served_chain), false. repeat split; [repeat constructor; discriminate|discriminate|vm_compute; intros N; apply N; reflexivity].
  - exists [], served_chain, false. repeat split; [constructor|discriminate|vm_compute; intros N; apply N; reflexivity].
  - exists rs, s'. split; [exact E|]. split; [exact V|]. vm_compute in E. injection E as <- _. reflexivity.
Defined.
