(* ===== verification/SipHash.v ===== *)
(** * SipHash

    Models src/crypto/siphash.cpp and siphash.h: [CSipHasher], which absorbs
    bytes or 64-bit words in any pieces, and the two unrolled routines for
    hashes; with [uint256::GetUint64] of src/uint256.h.  They all compute
    SipHash-2-4 ([siphash24]) of the bytes written. *)

From stdpp Require Import base numbers list.
From Stdlib Require Import ZArith Lia.
From S2P Require Import Prelude Compact Params.

Local Open Scope Z_scope.

(** [std::rotl] on 64 bits. *)
Definition rotl (x s : Z) : Z := Z.lor (u64 (Z.shiftl x s)) (Z.shiftr x (64 - s)).

(** The four words [v]. *)
Record sip_words : Type := { v0 : Z; v1 : Z; v2 : Z; v3 : Z }.

Definition SIPROUND (v : sip_words) : sip_words :=
  let '{| v0 := v0; v1 := v1; v2 := v2; v3 := v3 |} := v in
  let v0 := u64 (v0 + v1) in let v1 := rotl v1 13 in let v1 := Z.lxor v1 v0 in
  let v0 := rotl v0 32 in
  let v2 := u64 (v2 + v3) in let v3 := rotl v3 16 in let v3 := Z.lxor v3 v2 in
  let v0 := u64 (v0 + v3) in let v3 := rotl v3 21 in let v3 := Z.lxor v3 v0 in
  let v2 := u64 (v2 + v1) in let v1 := rotl v1 17 in let v1 := Z.lxor v1 v2 in
  let v2 := rotl v2 32 in
  {| v0 := v0; v1 := v1; v2 := v2; v3 := v3 |}.

Definition xor_v0 (d : Z) (v : sip_words) : sip_words := {| v0 := Z.lxor (v0 v) d; v1 := v1 v; v2 := v2 v; v3 := v3 v |}.
Definition xor_v2 (d : Z) (v : sip_words) : sip_words := {| v0 := v0 v; v1 := v1 v; v2 := Z.lxor (v2 v) d; v3 := v3 v |}.
Definition xor_v3 (d : Z) (v : sip_words) : sip_words := {| v0 := v0 v; v1 := v1 v; v2 := v2 v; v3 := Z.lxor (v3 v) d |}.

(** The four lines that absorb a word. *)
Definition absorb (v : sip_words) (d : Z) : sip_words := xor_v0 d (SIPROUND (SIPROUND (xor_v3 d v))).

Definition squeeze (v : sip_words) : Z :=
  let v := SIPROUND (SIPROUND (SIPROUND (SIPROUND (xor_v2 0xFF v)))) in
  Z.lxor (Z.lxor (Z.lxor (v0 v) (v1 v)) (v2 v)) (v3 v).

Record CSipHasher : Type := { sip_v : sip_words; tmp : Z; count : Z }.

Definition sip_init (k0 k1 : Z) : sip_words :=
  {| v0 := Z.lxor 0x736f6d6570736575 k0; v1 := Z.lxor 0x646f72616e646f6d k1; v2 := Z.lxor 0x6c7967656e657261 k0; v3 := Z.lxor 0x7465646279746573 k1 |}.

Definition new_CSipHasher (k0 k1 : Z) : CSipHasher := {| sip_v := sip_init k0 k1; tmp := 0; count := 0 |}.

(** [Write(uint64_t)]. *)
Definition Write64 (data : Z) (h : CSipHasher) : res CSipHasher :=
  _ ← assert_ (count h mod 8 =? 0);
  Ok {| sip_v := absorb (sip_v h) data; tmp := tmp h; count := u8 (count h + 8) |}.

(** The loop of [Write(Span)], one byte a turn. *)
Fixpoint write_bytes (data : list Z) (v : sip_words) (t c : Z) : CSipHasher :=
  match data with
  | [] => {| sip_v := v; tmp := t; count := c |}
  | b :: rest =>
      let t := Z.lor t (u64 (Z.shiftl b (8 * (c mod 8)))) in
      let c := u8 (c + 1) in
      if Z.land c 7 =? 0 then write_bytes rest (absorb v t) 0 c else write_bytes rest v t c
  end.

Definition WriteSpan (data : list Z) (h : CSipHasher) : CSipHasher := write_bytes data (sip_v h) (tmp h) (count h).

Definition SipHasher_Finalize (h : CSipHasher) : Z :=
  squeeze (absorb (sip_v h) (Z.lor (tmp h) (u64 (Z.shiftl (count h) 56)))).

(** [ReadLE64] at word [pos] of the 32 bytes. *)
Definition GetUint64 (val : uint256) (pos : nat) : Z := le_val 8 (take 8 (drop (pos * 8) val)).

(** The unrolled routines: the first word goes into the initial state. *)
Definition absorb_uint256 (k0 k1 : Z) (val : uint256) : sip_words :=
  let d := GetUint64 val 0 in
  let v := {| v0 := Z.lxor 0x736f6d6570736575 k0; v1 := Z.lxor 0x646f72616e646f6d k1; v2 := Z.lxor 0x6c7967656e657261 k0; v3 := Z.lxor (Z.lxor 0x7465646279746573 k1) d |} in
  let v := xor_v0 d (SIPROUND (SIPROUND v)) in
  let d := GetUint64 val 1 in let v := xor_v0 d (SIPROUND (SIPROUND (xor_v3 d v))) in
  let d := GetUint64 val 2 in let v := xor_v0 d (SIPROUND (SIPROUND (xor_v3 d v))) in
  let d := GetUint64 val 3 in xor_v0 d (SIPROUND (SIPROUND (xor_v3 d v))).

Definition SipHashUint256 (k0 k1 : Z) (val : uint256) : Z :=
  let v := absorb_uint256 k0 k1 val in
  squeeze (xor_v0 (u64 (Z.shiftl 4 59)) (SIPROUND (SIPROUND (xor_v3 (u64 (Z.shiftl 4 59)) v)))).

Definition SipHashUint256Extra (k0 k1 : Z) (val : uint256) (extra : Z) : Z :=
  let v := absorb_uint256 k0 k1 val in
  let d := Z.lor (u64 (Z.shiftl 36 56)) extra in
  squeeze (xor_v0 d (SIPROUND (SIPROUND (xor_v3 d v)))).

(** ** The reference: whole words, then the rest with the length *)

Fixpoint sip_blocks (v : sip_words) (msg : list Z) : sip_words * list Z :=
  match msg with
  | b0 :: b1 :: b2 :: b3 :: b4 :: b5 :: b6 :: b7 :: rest => sip_blocks (absorb v (le_val 8 [b0; b1; b2; b3; b4; b5; b6; b7])) rest
  | rest => (v, rest)
  end.

Definition siphash24 (k0 k1 : Z) (msg : list Z) : Z :=
  let '(v, rest) := sip_blocks (sip_init k0 k1) msg in
  squeeze (absorb v (le_val 8 rest + 2 ^ 56 * (Z.of_nat (length msg) mod 256))).

(** ** Bytes collect into words *)

Lemma count_mod8 c i : u8 (c + i) mod 8 = (c + i) mod 8.
Proof. unfold uwrap. rewrite <- (Z.mod_mod_divide (c + i) (2 ^ 8) 8); [reflexivity|]. exists 32. reflexivity. Qed.

Lemma land7 c : Z.land c 7 = c mod 8.
Proof. change 7 with (Z.ones 3). rewrite Z.land_ones by lia. reflexivity. Qed.

(** A byte goes on top of those collected. *)
Lemma collect pre b : Forall (in_u 8) (pre ++ [b]) -> (length pre < 8)%nat ->
  Z.lor (le_val 8 pre) (u64 (Z.shiftl b (8 * Z.of_nat (length pre)))) = le_val 8 (pre ++ [b]).
Proof.
  intros Ht Hl. pose proof (le_val_bound 8 (pre ++ [b]) ltac:(lia) Ht) as Hb. apply Forall_app in Ht as [Ht Hb1]. apply Forall_cons in Hb1 as [Hb1 _].
  pose proof (le_val_bound 8 pre ltac:(lia) Ht) as Hp. rewrite le_val_app in * by lia. cbn [le_val] in *. rewrite Z.mul_0_r, Z.add_0_r in *. rewrite length_app in Hb. cbn [length] in Hb.
  assert (Hs : Z.shiftl b (8 * Z.of_nat (length pre)) = b * 2 ^ (8 * Z.of_nat (length pre))) by (apply Z.shiftl_mul_pow2; lia).
  assert (in_u 64 (Z.shiftl b (8 * Z.of_nat (length pre)))).
  { rewrite Hs. unfold in_u in *. assert (2 ^ (8 * Z.of_nat (length pre + 1)) <= 2 ^ 64) by (apply Z.pow_le_mono_r; lia). split; [apply Z.mul_nonneg_nonneg; [lia|apply Z.pow_nonneg; lia]|]. lia. }
  rewrite uwrap_small by assumption. rewrite lor_low_high by (try lia; exact Hp). lia.
Qed.

Lemma write_partial l : forall pre rest v c, Forall (in_u 8) (pre ++ l) -> (length pre + length l < 8)%nat -> c mod 8 = Z.of_nat (length pre) ->
  write_bytes (l ++ rest) v (le_val 8 pre) c = write_bytes rest v (le_val 8 (pre ++ l)) (if decide (l = []) then c else u8 (c + Z.of_nat (length l))).
Proof.
  induction l as [|b l IH]; intros pre rest v c Ht Hlen Hc; [rewrite app_nil_r; reflexivity|]. cbn [app write_bytes length] in *.
  replace (pre ++ b :: l) with ((pre ++ [b]) ++ l) in * by (rewrite <- app_assoc; reflexivity). pose proof Ht as Ht'. apply Forall_app in Ht' as [Hp _].
  rewrite Hc, collect by (try exact Hp; lia). rewrite land7, count_mod8.
  assert (E1 : (c + 1) mod 8 = Z.of_nat (length (pre ++ [b]))) by (rewrite length_app; cbn [length]; rewrite <- Zplus_mod_idemp_l, Hc, Z.mod_small by lia; lia).
  destruct (Z.eqb_spec ((c + 1) mod 8) 0) as [E|_]; [rewrite length_app in E1; cbn in E1; lia|].
  rewrite IH; [|exact Ht|rewrite length_app; cbn; lia|rewrite count_mod8; exact E1]. f_equal. destruct (decide (l = [])) as [->|]; [reflexivity|]. cbn [length].
  rewrite decide_False by discriminate. unfold uwrap. rewrite Zplus_mod_idemp_l. f_equal. lia.
Qed.

Lemma write_word l rest v c : length l = 8%nat -> Forall (in_u 8) l -> c mod 8 = 0 -> write_bytes (l ++ rest) v 0 c = write_bytes rest (absorb v (le_val 8 l)) 0 (u8 (c + 8)).
Proof.
  intros Hl Ht Hc. destruct l as [|b l _] using rev_ind; [discriminate|]. rewrite length_app in Hl. cbn in Hl. rewrite <- app_assoc.
  pose proof Ht as Ht'. apply Forall_app in Ht' as [Hp _]. pose proof (write_partial l [] ([b] ++ rest) v c Hp ltac:(cbn; lia) Hc) as W. cbn [le_val] in W. rewrite W.
  rewrite decide_False by (intros ->; discriminate). cbn [app write_bytes]. assert (E7 : u8 (c + Z.of_nat (length l)) mod 8 = Z.of_nat (length l)) by (rewrite count_mod8, <- Zplus_mod_idemp_l, Hc, Z.mod_small; lia).
  rewrite E7, collect by (try exact Ht; lia). rewrite land7, count_mod8, <- Zplus_mod_idemp_l, E7. replace (Z.of_nat (length l) + 1) with 8 by lia. cbn [Z.eqb Z.modulo Z.div_eucl].
  change (8 mod 8 =? 0) with true. cbv iota. f_equal. unfold uwrap. rewrite Zplus_mod_idemp_l. f_equal. lia.
Qed.

(** What is left of a message after its whole words. *)
Lemma write_message n : forall msg v c, (length msg <= n)%nat -> Forall (in_u 8) msg -> c mod 8 = 0 -> in_u 8 c ->
  write_bytes msg v 0 c = let '(v', rest) := sip_blocks v msg in {| sip_v := v'; tmp := le_val 8 rest; count := u8 (c + Z.of_nat (length msg)) |}.
Proof.
  induction n as [|n IH]; intros msg v c Hn Ht Hc Hr.
  - destruct msg; [|cbn in Hn; lia]. cbn. rewrite Z.add_0_r, uwrap_small by exact Hr. reflexivity.
  - destruct (Nat.le_gt_cases 8 (length msg)) as [H8|H8].
    + assert (Em : msg = take 8 msg ++ drop 8 msg) by (symmetry; apply take_drop). assert (L8 : length (take 8 msg) = 8%nat) by (rewrite length_take; lia).
      assert (Ht8 : Forall (in_u 8) (take 8 msg)) by (apply Forall_take, Ht). rewrite Em at 1. rewrite write_word by assumption.
      rewrite IH; [|rewrite length_drop; lia|apply Forall_drop, Ht|rewrite count_mod8; rewrite <- Zplus_mod_idemp_l, Hc; reflexivity|apply uwrap_range; lia].
      replace (sip_blocks v msg) with (sip_blocks (absorb v (le_val 8 (take 8 msg))) (drop 8 msg)) by (do 8 (destruct msg as [|? msg]; [cbn in H8; lia|]); reflexivity).
      destruct (sip_blocks _ _) as [v' rest]. f_equal. rewrite length_drop. unfold uwrap. rewrite Zplus_mod_idemp_l. f_equal. lia.
    + replace (sip_blocks v msg) with (v, msg) by (do 8 (destruct msg as [|? msg]; [reflexivity|]); cbn in H8; lia).
      pose proof (write_partial msg [] [] v c Ht ltac:(cbn; lia) Hc) as W. rewrite app_nil_r in W. cbn [le_val app] in W. rewrite W. cbn [write_bytes]. f_equal.
      destruct (decide (msg = [])) as [->|]; [cbn; rewrite Z.add_0_r, uwrap_small by exact Hr; reflexivity|reflexivity].
Qed.

Lemma write_bytes_app a : forall b v t c, write_bytes (a ++ b) v t c = WriteSpan b (write_bytes a v t c).
Proof. induction a as [|x a IH]; intros b v t c; cbn [app write_bytes]; [reflexivity|]. destruct (_ =? 0); apply IH. Qed.

Lemma write_chunks chunks : forall h, fold_left (fun h d => WriteSpan d h) chunks h = WriteSpan (concat chunks) h.
Proof.
  induction chunks as [|d chunks IH]; intros h; cbn [fold_left concat]; [destruct h; reflexivity|]. rewrite IH. unfold WriteSpan at 3. rewrite write_bytes_app. reflexivity.
Qed.

Lemma sip_blocks_rest n : forall msg v, (length msg <= n)%nat -> Forall (in_u 8) msg -> let '(_, rest) := sip_blocks v msg in (length rest < 8)%nat /\ Forall (in_u 8) rest.
Proof.
  induction n as [|n IH]; intros msg v Hn Ht; [destruct msg; [cbn; split; [lia|constructor]|cbn in Hn; lia]|].
  do 8 (destruct msg as [|? msg]; [cbn; split; [lia|exact Ht]|]). cbn [sip_blocks]. apply IH; [cbn in Hn; lia|]. do 8 (apply Forall_cons in Ht as [_ Ht]). exact Ht.
Qed.

(** The last word: the bytes left over and the low byte of the length. *)
Lemma final_word rest c : (length rest < 8)%nat -> Forall (in_u 8) rest -> in_u 8 c -> Z.lor (le_val 8 rest) (u64 (Z.shiftl c 56)) = le_val 8 rest + 2 ^ 56 * c.
Proof.
  intros Hl Ht Hc. pose proof (le_val_bound 8 rest ltac:(lia) Ht) as Hb. assert (2 ^ (8 * Z.of_nat (length rest)) <= 2 ^ 56) by (apply Z.pow_le_mono_r; lia).
  rewrite uwrap_small by (rewrite Z.shiftl_mul_pow2 by lia; unfold in_u in *; lia). rewrite lor_low_high by (try lia; unfold in_u; lia). lia.
Qed.

Lemma finalize_message k0 k1 msg : Forall (in_u 8) msg -> SipHasher_Finalize (WriteSpan msg (new_CSipHasher k0 k1)) = siphash24 k0 k1 msg.
Proof.
  intros Ht. unfold WriteSpan, siphash24. cbn [sip_v tmp count new_CSipHasher]. rewrite (write_message (length msg)) by (first [exact Ht|reflexivity|lia|split; [discriminate|reflexivity]]).
  pose proof (sip_blocks_rest (length msg) msg (sip_init k0 k1) ltac:(lia) Ht) as R. destruct (sip_blocks _ _) as [v rest]. destruct R as [Hl Hr]. unfold SipHasher_Finalize. cbn [sip_v tmp count].
  rewrite final_word by (try assumption; apply uwrap_range; lia). reflexivity.
Qed.

(** A word written at once is its eight bytes. *)
Lemma Write64_bytes d h : in_u 64 d -> count h mod 8 = 0 -> tmp h = 0 -> Write64 d h = Ok (WriteSpan (le_digits 8 8 d) h).
Proof.
  intros Hd Hc Ht. unfold Write64, WriteSpan. rewrite Hc, Ht. cbn [Z.eqb assert_ mbind res_bind]. f_equal.
  rewrite <- (app_nil_r (le_digits 8 8 d)), write_word by (try apply le_digits_length; try apply le_digits_in_u; lia). cbn [write_bytes].
  rewrite le_val_digits by lia. rewrite Z.mod_small by exact Hd. reflexivity.
Qed.

Lemma uint256_blocks k0 k1 val rest : blob val -> absorb_uint256 k0 k1 val = fst (sip_blocks (sip_init k0 k1) (take 32 (val ++ rest))) /\
  sip_blocks (sip_init k0 k1) (val ++ rest) = sip_blocks (absorb_uint256 k0 k1 val) rest.
Proof.
  intros [Hl _]. do 32 (destruct val as [|? val]; [discriminate|]). destruct val; [|discriminate]. split; reflexivity.
Qed.

(** C34. However the bytes are cut into pieces, [CSipHasher] returns SipHash-2-4 of
    all of them; a 64-bit word counts as its eight bytes; [SipHashUint256] and
    [SipHashUint256Extra] return the same for the 32 bytes of a hash, alone
    and followed by the four bytes of the extra word. *)
Theorem siphash_correct k0 k1 chunks val extra : Forall (in_u 8) (concat chunks) -> blob val -> in_u 32 extra ->
  SipHasher_Finalize (fold_left (fun h d => WriteSpan d h) chunks (new_CSipHasher k0 k1)) = siphash24 k0 k1 (concat chunks) /\
  (forall d h, in_u 64 d -> h = WriteSpan val (new_CSipHasher k0 k1) -> Write64 d h = Ok (WriteSpan (le_digits 8 8 d) h)) /\
  SipHashUint256 k0 k1 val = siphash24 k0 k1 val /\ SipHashUint256Extra k0 k1 val extra = siphash24 k0 k1 (val ++ le_digits 8 4 extra).
Proof.
  intros Ht Hv He. split; [|split; [|split]].
  - rewrite write_chunks. apply finalize_message, Ht.
  - intros d h Hd ->. destruct Hv as [Hl Hv]. pose proof (write_message 32 val (sip_init k0 k1) 0 ltac:(lia) Hv eq_refl ltac:(split; [discriminate|reflexivity])) as W.
    apply Write64_bytes; [exact Hd|..]; unfold WriteSpan; cbn [sip_v tmp count new_CSipHasher]; rewrite W; destruct (uint256_blocks k0 k1 val [] (conj Hl Hv)) as [_ B];
      rewrite app_nil_r in B; rewrite B; cbn [sip_blocks count tmp le_val]; [rewrite Hl|]; reflexivity.
  - destruct (uint256_blocks k0 k1 val [] Hv) as [_ B]. rewrite app_nil_r in B. unfold siphash24, SipHashUint256. rewrite B. destruct Hv as [Hl _]. rewrite Hl.
    generalize (absorb_uint256 k0 k1 val). intros v. cbn [sip_blocks]. unfold absorb. replace (le_val 8 [] + 2 ^ 56 * (Z.of_nat 32 mod 256)) with (u64 (Z.shiftl 4 59)) by (vm_compute; reflexivity). reflexivity.
  - destruct (uint256_blocks k0 k1 val (le_digits 8 4 extra) Hv) as [_ B]. unfold siphash24, SipHashUint256Extra. rewrite B. destruct Hv as [Hl _]. rewrite length_app, Hl, le_digits_length.
    pose proof (le_val_digits 8 4 extra ltac:(lia)) as Ev. rewrite Z.mod_small in Ev by exact He. destruct (le_digits 8 4 extra) as [|a [|b [|d [|e [|]]]]] eqn:Ed; try discriminate.
    generalize (absorb_uint256 k0 k1 val). intros v. cbn [sip_blocks]. rewrite Ev. unfold absorb. replace (Z.lor (u64 (Z.shiftl 36 56)) extra) with (extra + 2 ^ 56 * (Z.of_nat (32 + 4) mod 256)); [reflexivity|].
    rewrite Z.lor_comm. change (u64 (Z.shiftl 36 56)) with (Z.shiftl 36 56). rewrite lor_low_high by (try lia; unfold in_u in *; lia). change (Z.of_nat (32 + 4) mod 256) with 36. lia.
Qed.

(** The test vector of the SipHash paper: key 00..0f, message 00..0e. *)
Lemma siphash_correct_witness : SipHasher_Finalize (fold_left (fun h d => WriteSpan d h) [map Z.of_nat (seq 0 9); map Z.of_nat (seq 9 6)]
  (new_CSipHasher 0x0706050403020100 0x0F0E0D0C0B0A0908)) = 0xa129ca6149be45e5.
Proof.
  destruct (siphash_correct 0x0706050403020100 0x0F0E0D0C0B0A0908 [map Z.of_nat (seq 0 9); map Z.of_nat (seq 9 6)] (repeat 0 32) 0) as [-> _].
  - repeat constructor; vm_compute; discriminate.
  - split; [reflexivity|]. repeat constructor; vm_compute; discriminate.
  - split; [discriminate|reflexivity].
  - vm_compute. reflexivity.
Defined.
