(* ===== verification/Orphanage.v ===== *)
(** * The orphanage

    Models src/txorphanage.cpp and txorphanage.h: transactions whose parents
    are missing, kept by txid with three indexes (by witness hash, by the
    outpoints they spend, and in a vector for random eviction) and the work
    sets of the peers.  [GetTransactionWeight] of src/consensus/validation.h
    and [base_blob::Compare] of src/uint256.h are here too.

    An iterator of [m_orphans] is the key it points at; dereferencing one whose
    key is gone is a bad access.  The classes of src/primitives/ and
    src/policy/, which the repository does not hold, are parameters
    ([OrphanEnv]), as are the addresses that order the sets of iterators. *)

From stdpp Require Import base numbers list gmap sorting strings.
From Stdlib Require Import ZArith Lia.
From S2P Require Import Prelude Params.

Local Open Scope Z_scope.

Definition ORPHAN_TX_EXPIRE_TIME : Z := 20 * 60.
Definition ORPHAN_TX_EXPIRE_INTERVAL : Z := 5 * 60.

(** ** The order of hashes *)

(** [base_blob::Compare], the comparison of [memcmp]. *)
Fixpoint Compare (a b : uint256) : comparison :=
  match a, b with
  | [], [] => Eq
  | [], _ :: _ => Lt
  | _ :: _, [] => Gt
  | x :: a, y :: b => match x ?= y with Eq => Compare a b | r => r end
  end.

Definition hash_le (a b : uint256) : Prop := Compare a b <> Gt.

#[global] Instance hash_le_dec : RelDecision hash_le.
Proof. intros a b. unfold hash_le. destruct (Compare a b); [left|left|right]; congruence. Defined.

(** The keys of an [std::map] or [std::set] of hashes, in order. *)
Definition in_order (keys : gset uint256) : list uint256 := merge_sort hash_le (elements keys).

(** ** Transactions *)

(** A [COutPoint]: txid and output number. *)
Notation outpoint := (uint256 * Z)%type.

Class OrphanEnv (Tx : Type) : Type := {
  GetTxid : Tx -> uint256;
  GetWtxid : Tx -> uint256;
  spends : Tx -> list outpoint;
  vout_size : Tx -> nat;
  size_no_witness : Tx -> Z;
  size_with_witness : Tx -> Z;
  MAX_STANDARD_TX_WEIGHT : Z;
  by_address : gset uint256 -> list uint256;
}.

(** What the repository relies on: a witness hash determines the txid, and a
    set is walked once over each of its elements. *)
Class OrphanEnvLaws (Tx : Type) `{OrphanEnv Tx} : Prop := {
  wtxid_txid (t1 t2 : Tx) : GetWtxid t1 = GetWtxid t2 -> GetTxid t1 = GetTxid t2;
  by_address_elements s : by_address s ≡ₚ elements s;
}.

(** [GenTxid]: a hash that names a transaction by its txid or by its wtxid;
    its constructors and accessors. *)
Class GenTxids : Type := {
  GenTxid : Type;
  GenTxid_Txid : uint256 -> GenTxid;
  GenTxid_Wtxid : uint256 -> GenTxid;
  gtxid_hash : GenTxid -> uint256;
  IsWtxid : GenTxid -> bool;
}.

Record OrphanTx (Tx : Type) : Type := { tx : Tx; fromPeer : Z; nTimeExpire : Z; list_pos : nat }.
Arguments tx {Tx} _.
Arguments fromPeer {Tx} _.
Arguments nTimeExpire {Tx} _.
Arguments list_pos {Tx} _.

(** The members, and the static variable of [LimitOrphans]. *)
Record TxOrphanage (Tx : Type) : Type := {
  m_orphans : gmap uint256 (OrphanTx Tx);
  m_peer_work_set : gmap Z (gset uint256);
  m_outpoint_to_orphan_it : gmap outpoint (gset uint256);
  m_orphan_list : list uint256;
  m_wtxid_to_orphan_it : gmap uint256 uint256;
  nNextSweep : Z;
}.
Arguments m_orphans {Tx} _.
Arguments m_peer_work_set {Tx} _.
Arguments m_outpoint_to_orphan_it {Tx} _.
Arguments m_orphan_list {Tx} _.
Arguments m_wtxid_to_orphan_it {Tx} _.
Arguments nNextSweep {Tx} _.

Section Orphanage.
Context {Tx : Type} `{OrphanEnv Tx}.
Notation orphan_st := (stm (TxOrphanage Tx)).

Definition new_TxOrphanage : TxOrphanage Tx :=
  {| m_orphans := ∅; m_peer_work_set := ∅; m_outpoint_to_orphan_it := ∅; m_orphan_list := []; m_wtxid_to_orphan_it := ∅; nNextSweep := 0 |}.

Definition set_orphans (f : gmap uint256 (OrphanTx Tx) -> gmap uint256 (OrphanTx Tx)) (s : TxOrphanage Tx) : TxOrphanage Tx :=
  {| m_orphans := f (m_orphans s); m_peer_work_set := m_peer_work_set s; m_outpoint_to_orphan_it := m_outpoint_to_orphan_it s;
     m_orphan_list := m_orphan_list s; m_wtxid_to_orphan_it := m_wtxid_to_orphan_it s; nNextSweep := nNextSweep s |}.
Definition set_work (f : gmap Z (gset uint256) -> gmap Z (gset uint256)) (s : TxOrphanage Tx) : TxOrphanage Tx :=
  {| m_orphans := m_orphans s; m_peer_work_set := f (m_peer_work_set s); m_outpoint_to_orphan_it := m_outpoint_to_orphan_it s;
     m_orphan_list := m_orphan_list s; m_wtxid_to_orphan_it := m_wtxid_to_orphan_it s; nNextSweep := nNextSweep s |}.
Definition set_outpoints (f : gmap outpoint (gset uint256) -> gmap outpoint (gset uint256)) (s : TxOrphanage Tx) : TxOrphanage Tx :=
  {| m_orphans := m_orphans s; m_peer_work_set := m_peer_work_set s; m_outpoint_to_orphan_it := f (m_outpoint_to_orphan_it s);
     m_orphan_list := m_orphan_list s; m_wtxid_to_orphan_it := m_wtxid_to_orphan_it s; nNextSweep := nNextSweep s |}.
Definition set_list (f : list uint256 -> list uint256) (s : TxOrphanage Tx) : TxOrphanage Tx :=
  {| m_orphans := m_orphans s; m_peer_work_set := m_peer_work_set s; m_outpoint_to_orphan_it := m_outpoint_to_orphan_it s;
     m_orphan_list := f (m_orphan_list s); m_wtxid_to_orphan_it := m_wtxid_to_orphan_it s; nNextSweep := nNextSweep s |}.
Definition set_wtxids (f : gmap uint256 uint256 -> gmap uint256 uint256) (s : TxOrphanage Tx) : TxOrphanage Tx :=
  {| m_orphans := m_orphans s; m_peer_work_set := m_peer_work_set s; m_outpoint_to_orphan_it := m_outpoint_to_orphan_it s;
     m_orphan_list := m_orphan_list s; m_wtxid_to_orphan_it := f (m_wtxid_to_orphan_it s); nNextSweep := nNextSweep s |}.
Definition set_sweep (time : Z) (s : TxOrphanage Tx) : TxOrphanage Tx :=
  {| m_orphans := m_orphans s; m_peer_work_set := m_peer_work_set s; m_outpoint_to_orphan_it := m_outpoint_to_orphan_it s;
     m_orphan_list := m_orphan_list s; m_wtxid_to_orphan_it := m_wtxid_to_orphan_it s; nNextSweep := time |}.

(** The result is an [int32_t], compared as [unsigned int]. *)
Definition GetTransactionWeight (t : Tx) : Z := i32 (size_no_witness t * (WITNESS_SCALE_FACTOR - 1) + size_with_witness t).

(** [*it] of an iterator of [m_orphans]. *)
Definition orphan_at (it : uint256) : orphan_st (OrphanTx Tx) := s ← get_st; lift_st (access (m_orphans s !! it)).

Definition set_pos (o : OrphanTx Tx) (pos : nat) : OrphanTx Tx :=
  {| tx := tx o; fromPeer := fromPeer o; nTimeExpire := nTimeExpire o; list_pos := pos |}.

(** ** Adding *)

(** [m_outpoint_to_orphan_it[prevout].insert(it)]. *)
Definition add_spender (it : uint256) (m : gmap outpoint (gset uint256)) (prevout : outpoint) : gmap outpoint (gset uint256) :=
  <[prevout := default ∅ (m !! prevout) ∪ {[it]}]> m.

(** [emplace] leaves an entry that exists. *)
Definition emplace_wtxid (wtxid it : uint256) (m : gmap uint256 uint256) : gmap uint256 uint256 :=
  match m !! wtxid with Some _ => m | None => <[wtxid := it]> m end.

Definition AddTx (t : Tx) (peer now : Z) : orphan_st bool :=
  s ← get_st;
  let hash := GetTxid t in
  if decide (is_Some (m_orphans s !! hash)) then mret false
  else if u32 (GetTransactionWeight t) >? MAX_STANDARD_TX_WEIGHT then mret false
  else
    _ ← modify_st (set_orphans <[hash := {| tx := t; fromPeer := peer; nTimeExpire := i64 (now + ORPHAN_TX_EXPIRE_TIME); list_pos := length (m_orphan_list s) |}]>);
    _ ← modify_st (set_list (fun l => l ++ [hash]));
    _ ← modify_st (set_wtxids (emplace_wtxid (GetWtxid t) hash));
    _ ← modify_st (set_outpoints (fun m => fold_left (add_spender hash) (spends t) m));
    mret true.

(** ** Erasing *)

Definition drop_spender (it : uint256) (m : gmap outpoint (gset uint256)) (prevout : outpoint) : gmap outpoint (gset uint256) :=
  match m !! prevout with
  | None => m
  | Some its => let its := its ∖ {[it]} in if decide (its = ∅) then delete prevout m else <[prevout := its]> m
  end.

Definition EraseTxNoLock (txid : uint256) : orphan_st Z :=
  s ← get_st;
  match m_orphans s !! txid with
  | None => mret 0
  | Some o =>
      _ ← modify_st (set_outpoints (fun m => fold_left (drop_spender txid) (spends (tx o)) m));
      let old_pos := list_pos o in
      here ← lift_st (access (m_orphan_list s !! old_pos));
      _ ← lift_st (assert_ (bool_decide (here = txid)));
      _ ← (if decide (S old_pos = length (m_orphan_list s)) then mret tt
           else
             it_last ← lift_st (access (last (m_orphan_list s)));
             _ ← modify_st (set_list <[old_pos := it_last]>);
             o_last ← orphan_at it_last;
             modify_st (set_orphans <[it_last := set_pos o_last old_pos]>));
      _ ← modify_st (set_list (@removelast uint256));
      _ ← modify_st (set_wtxids (delete (GetWtxid (tx o))));
      _ ← modify_st (set_orphans (delete txid));
      mret 1
  end.

Definition EraseTx (txid : uint256) : orphan_st Z := EraseTxNoLock txid.

(** The walks over [m_orphans], the iterator moved on before the erasure. *)
Fixpoint peer_loop (peer : Z) (its : list uint256) (nErased : Z) : orphan_st Z :=
  match its with
  | [] => mret nErased
  | maybeErase :: rest =>
      o ← orphan_at maybeErase;
      if fromPeer o =? peer then n ← EraseTxNoLock (GetTxid (tx o)); peer_loop peer rest (nErased + n)
      else peer_loop peer rest nErased
  end.

Definition EraseForPeer (peer : Z) : orphan_st unit :=
  _ ← modify_st (set_work (delete peer));
  s ← get_st;
  _ ← peer_loop peer (in_order (dom (m_orphans s))) 0;
  mret tt.

Fixpoint expire_loop (nNow : Z) (its : list uint256) (nMinExpTime : Z) : orphan_st Z :=
  match its with
  | [] => mret nMinExpTime
  | maybeErase :: rest =>
      o ← orphan_at maybeErase;
      if nTimeExpire o <=? nNow then _ ← EraseTxNoLock (GetTxid (tx o)); expire_loop nNow rest nMinExpTime
      else expire_loop nNow rest (Z.min (nTimeExpire o) nMinExpTime)
  end.

(** [rng.randrange(n)] is the next number drawn; [randrange] asserts that [n]
    is positive. *)
Fixpoint evict_loop (fuel : nat) (max_orphans : Z) (draw : nat -> nat -> nat) : orphan_st unit :=
  s ← get_st;
  if Z.of_nat (size (m_orphans s)) >? max_orphans then
    match fuel with
    | O => fail_st OutOfFuel
    | S fuel =>
        _ ← lift_st (assert_ (negb (bool_decide (length (m_orphan_list s) = 0%nat))));
        let randompos := draw fuel (length (m_orphan_list s)) in
        it ← lift_st (access (m_orphan_list s !! randompos));
        _ ← EraseTxNoLock it;
        evict_loop fuel max_orphans draw
    end
  else mret tt.

(** Each turn of the loop erases a transaction, so their number is fuel enough. *)
Definition LimitOrphans (max_orphans nNow : Z) (draw : nat -> nat -> nat) : orphan_st unit :=
  s ← get_st;
  _ ← (if nNextSweep s <=? nNow then
         nMinExpTime ← expire_loop nNow (in_order (dom (m_orphans s))) (i64 (nNow + ORPHAN_TX_EXPIRE_TIME - ORPHAN_TX_EXPIRE_INTERVAL));
         modify_st (set_sweep (i64 (nMinExpTime + ORPHAN_TX_EXPIRE_INTERVAL)))
       else mret tt);
  s ← get_st;
  evict_loop (size (m_orphans s)) max_orphans draw.

(** ** Reconsidering *)

(** [m_peer_work_set.try_emplace(peer).first->second.insert(txid)]. *)
Definition add_work (peer : Z) (txid : uint256) (m : gmap Z (gset uint256)) : gmap Z (gset uint256) :=
  <[peer := default ∅ (m !! peer) ∪ {[txid]}]> m.

Fixpoint work_loop (its : list uint256) : orphan_st unit :=
  match its with
  | [] => mret tt
  | elem :: rest => o ← orphan_at elem; _ ← modify_st (set_work (add_work (fromPeer o) elem)); work_loop rest
  end.

Fixpoint outputs_loop (txid : uint256) (outs : list nat) : orphan_st unit :=
  match outs with
  | [] => mret tt
  | i :: rest =>
      s ← get_st;
      _ ← (match m_outpoint_to_orphan_it s !! (txid, Z.of_nat i) with
           | None => mret tt
           | Some its => work_loop (by_address its)
           end);
      outputs_loop txid rest
  end.

Definition AddChildrenToWorkSet (t : Tx) : orphan_st unit := outputs_loop (GetTxid t) (seq 0 (vout_size t)).

Definition HaveTx {GT : GenTxids} (gtxid : GenTxid) (s : TxOrphanage Tx) : bool :=
  if IsWtxid gtxid then bool_decide (is_Some (m_wtxid_to_orphan_it s !! gtxid_hash gtxid)) else bool_decide (is_Some (m_orphans s !! gtxid_hash gtxid)).

(** The loop of [GetTxToReconsider] over the work set, smallest first: the
    transaction found and what is left of the set. *)
Fixpoint reconsider_loop (orphans : gmap uint256 (OrphanTx Tx)) (work : list uint256) : option Tx * list uint256 :=
  match work with
  | [] => (None, [])
  | txid :: rest => match orphans !! txid with Some o => (Some (tx o), rest) | None => reconsider_loop orphans rest end
  end.

Definition GetTxToReconsider (peer : Z) : orphan_st (option Tx) :=
  s ← get_st;
  match m_peer_work_set s !! peer with
  | None => mret None
  | Some work =>
      let '(found, remaining) := reconsider_loop (m_orphans s) (in_order work) in
      _ ← modify_st (set_work <[peer := list_to_set remaining]>);
      mret found
  end.

Definition HaveTxToReconsider (peer : Z) (s : TxOrphanage Tx) : bool :=
  match m_peer_work_set s !! peer with Some work => negb (bool_decide (work = ∅)) | None => false end.

Definition Size (s : TxOrphanage Tx) : nat := size (m_orphans s).

(** ** Blocks *)

(** The hashes of the transactions behind a set of iterators. *)
Fixpoint hashes_of (its : list uint256) : orphan_st (list uint256) :=
  match its with
  | [] => mret []
  | mi :: rest => o ← orphan_at mi; hs ← hashes_of rest; mret (GetTxid (tx o) :: hs)
  end.

Fixpoint block_orphans (prevouts : list outpoint) : orphan_st (list uint256) :=
  match prevouts with
  | [] => mret []
  | prevout :: rest =>
      s ← get_st;
      here ← (match m_outpoint_to_orphan_it s !! prevout with None => mret [] | Some its => hashes_of (by_address its) end);
      later ← block_orphans rest;
      mret (here ++ later)
  end.

Fixpoint erase_loop (txids : list uint256) : orphan_st unit :=
  match txids with [] => mret tt | txid :: rest => _ ← EraseTxNoLock txid; erase_loop rest end.

Definition EraseForBlock (vtx : list Tx) : orphan_st unit :=
  vOrphanErase ← block_orphans (vtx ≫= spends);
  erase_loop vOrphanErase.
End Orphanage.
