(* ===== verification/OrphanageRefinement.v ===== *)
(** * The orphanage, proofs

    The indexes stay exact, and the orphanage is a map of transactions. *)

From stdpp Require Import base numbers list gmap sorting strings.
From Stdlib Require Import ZArith Lia.
From S2P Require Import Prelude Params Orphanage.

Local Open Scope Z_scope.

(** * The orphanage keeps its indexes

    The invariant that ties the three indexes to [m_orphans]
    ([orphanage_ok]), the orphanage as a plain map of transactions ([kept]),
    and what each operation does to that map. *)

(** ** The index by outpoint *)

Definition spenders (m : gmap outpoint (gset uint256)) (p : outpoint) : gset uint256 := default ∅ (m !! p).

Lemma add_spenders it ps : forall m, (forall p, m !! p <> Some ∅) ->
  (forall p k, k ∈ spenders (fold_left (add_spender it) ps m) p <-> k ∈ spenders m p \/ (k = it /\ p ∈ ps)) /\ (forall p, fold_left (add_spender it) ps m !! p <> Some ∅).
Proof.
  induction ps as [|q ps IH]; intros m Hm; cbn [fold_left]; [split; [intros; set_solver|exact Hm]|].
  destruct (IH (add_spender it m q)) as [A B].
  { intros p. unfold add_spender. destruct (decide (q = p)) as [->|E]; [rewrite lookup_insert_eq; intros [= E]; set_solver|rewrite lookup_insert_ne by exact E; apply Hm]. }
  split; [|exact B]. intros p k. rewrite A. unfold spenders at 1, add_spender. destruct (decide (q = p)) as [->|E].
  - rewrite lookup_insert_eq. cbn. fold (spenders m p). rewrite elem_of_union, elem_of_singleton, elem_of_cons. naive_solver.
  - rewrite lookup_insert_ne by exact E. fold (spenders m p). rewrite elem_of_cons. naive_solver.
Qed.

Lemma drop_spenders it ps : forall m, (forall p, m !! p <> Some ∅) ->
  (forall p k, k ∈ spenders (fold_left (drop_spender it) ps m) p <-> k ∈ spenders m p /\ ~ (k = it /\ p ∈ ps)) /\ (forall p, fold_left (drop_spender it) ps m !! p <> Some ∅).
Proof.
  induction ps as [|q ps IH]; intros m Hm; cbn [fold_left]; [split; [intros; set_solver|exact Hm]|].
  assert (D : forall p k, k ∈ spenders (drop_spender it m q) p <-> k ∈ spenders m p /\ ~ (k = it /\ p = q)).
  { intros p k. unfold drop_spender. destruct (m !! q) as [its|] eqn:Eq; [destruct (decide _) as [Ee|Ee]|].
    - unfold spenders. destruct (decide (q = p)) as [<-|E]; [rewrite lookup_delete_eq, Eq|rewrite lookup_delete_ne by exact E; naive_solver]. cbn. set_solver.
    - unfold spenders. destruct (decide (q = p)) as [<-|E]; [rewrite lookup_insert_eq, Eq|rewrite lookup_insert_ne by exact E; naive_solver]. cbn. set_solver.
    - unfold spenders. split; [|tauto]. intros Hk. split; [exact Hk|]. intros [_ ->]. rewrite Eq in Hk. set_solver. }
  destruct (IH (drop_spender it m q)) as [A B].
  { intros p. unfold drop_spender. destruct (m !! q) as [its|]; [|apply Hm]. destruct (decide _); destruct (decide (q = p)) as [<-|E].
    - rewrite lookup_delete_eq. discriminate.
    - rewrite lookup_delete_ne by exact E. apply Hm.
    - rewrite lookup_insert_eq. congruence.
    - rewrite lookup_insert_ne by exact E. apply Hm. }
  split; [|exact B]. intros p k. rewrite A, D, elem_of_cons. naive_solver.
Qed.

Section Proofs.
Context {Tx : Type} `{OrphanEnvLaws Tx}.
Notation orphanage := (TxOrphanage Tx).

Record orphanage_ok (s : orphanage) : Prop := {
  oo_key k o : m_orphans s !! k = Some o -> GetTxid (tx o) = k;
  oo_list i k : m_orphan_list s !! i = Some k <-> exists o, m_orphans s !! k = Some o /\ list_pos o = i;
  oo_wtxid w k : m_wtxid_to_orphan_it s !! w = Some k <-> exists o, m_orphans s !! k = Some o /\ GetWtxid (tx o) = w;
  oo_out p k : k ∈ default ∅ (m_outpoint_to_orphan_it s !! p) <-> exists o, m_orphans s !! k = Some o /\ p ∈ spends (tx o);
  oo_some p : m_outpoint_to_orphan_it s !! p <> Some ∅;
}.

(** What is kept of a transaction: itself, who sent it, until when. *)
Record kept_tx : Type := { kept : Tx; sender : Z; until : Z }.
Definition keep (o : OrphanTx Tx) : kept_tx := {| kept := tx o; sender := fromPeer o; until := nTimeExpire o |}.

(** The orphanage as a map of transactions. *)
Definition contents (s : orphanage) : gmap uint256 kept_tx := keep <$> m_orphans s.

Lemma contents_lookup s k e : contents s !! k = Some e <-> exists o, m_orphans s !! k = Some o /\ e = keep o.
Proof using. unfold contents. rewrite lookup_fmap, fmap_Some. reflexivity. Qed.

(** ** Adding *)

Definition big (t : Tx) : Prop := MAX_STANDARD_TX_WEIGHT < u32 (GetTransactionWeight t).

Lemma AddTx_spec t peer now s : orphanage_ok s -> exists ok s', AddTx t peer now s = (Ok ok, s') /\ orphanage_ok s' /\
  (ok = true <-> contents s !! GetTxid t = None /\ ~ big t) /\ m_peer_work_set s' = m_peer_work_set s /\ nNextSweep s' = nNextSweep s /\
  contents s' = if ok then <[GetTxid t := {| kept := t; sender := peer; until := i64 (now + ORPHAN_TX_EXPIRE_TIME) |}]> (contents s) else contents s.
Proof using All.
  intros Hs. pose proof Hs as [Hk Hl Hw Ho Hn]. unfold AddTx. unfold mbind at 1, stm_bind at 1, get_st at 1.
  assert (Ec : contents s !! GetTxid t = None <-> m_orphans s !! GetTxid t = None) by (unfold contents; rewrite lookup_fmap; apply fmap_None). setoid_rewrite Ec.
  destruct (decide _) as [[o Eo]|Eo]; [exists false, s; rewrite Eo; split; [reflexivity|]; split; [exact Hs|]; split; [split; [discriminate|intros [? _]; discriminate]|auto]|].
  apply eq_None_not_Some in Eo. unfold big. destruct (Z.gtb_spec (u32 (GetTransactionWeight t)) MAX_STANDARD_TX_WEIGHT) as [Hb|Hb].
  { exists false, s. split; [reflexivity|]. split; [exact Hs|]. split; [split; [discriminate|intros [_ ?]; lia]|auto]. }
  unfold mbind, stm_bind, modify_st. eexists true, _. split; [reflexivity|]. split; [|split; [split; [intros _; split; [exact Eo|lia]|auto]|]; split; [reflexivity|]; split; [reflexivity|]].
  2:{ unfold contents. cbn. rewrite fmap_insert. reflexivity. }
  set (e := {| tx := t; fromPeer := peer; nTimeExpire := _; list_pos := _ |}).
  assert (Hins : forall k o, <[GetTxid t:=e]> (m_orphans s) !! k = Some o <-> (k = GetTxid t /\ o = e) \/ (k <> GetTxid t /\ m_orphans s !! k = Some o)).
  { intros k o. rewrite lookup_insert_Some. naive_solver. }
  destruct (add_spenders (GetTxid t) (spends t) (m_outpoint_to_orphan_it s) Hn) as [A B].
  split; cbn; try setoid_rewrite Hins.
  - intros k o [[-> ->]|[_ E]]; [reflexivity|eauto].
  - intros i k. rewrite lookup_app_Some, Hl, list_lookup_singleton_Some. split.
    + intros [(o & Eo' & <-)|(Hi & Ei & <-)]; [exists o; split; [right; split; [intros ->; congruence|exact Eo']|reflexivity]|exists e; split; [left; auto|cbn; lia]].
    + intros (o & [[-> ->]|[_ E]] & <-); [right; cbn; rewrite Nat.sub_diag; auto|left; eauto].
  - intros w k. assert (Fresh : m_wtxid_to_orphan_it s !! GetWtxid t = None).
    { destruct (m_wtxid_to_orphan_it s !! GetWtxid t) as [k'|] eqn:E; [|reflexivity]. apply Hw in E as (o & E & Ew). apply wtxid_txid in Ew. rewrite (Hk _ _ E) in Ew. congruence. }
    unfold emplace_wtxid. rewrite Fresh, lookup_insert_Some, Hw. split.
    + intros [[<- <-]|(Hne & o & E & Ew)]; [exists e; auto|exists o; split; [right; split; [intros ->; congruence|exact E]|exact Ew]].
    + intros (o & [[-> ->]|[Hne E]] & Ew); [left; auto|right; split; [|eauto]]. intros <-. apply wtxid_txid in Ew. rewrite (Hk _ _ E) in Ew. contradiction.
  - intros p k. rewrite (A p k). unfold spenders at 1. rewrite Ho. split.
    + intros [(o & E & Hp)|[-> Hp]]; [exists o; split; [right; split; [intros ->; congruence|exact E]|exact Hp]|exists e; auto].
    + intros (o & [[-> ->]|[_ E]] & Hp); [right; auto|left; eauto].
  - exact B.
Qed.
(** ** Erasing *)

(** What the swap with the last entry and the removal leave. *)
Lemma erased_ok s s' txid o it_last : orphanage_ok s -> m_orphans s !! txid = Some o -> last (m_orphan_list s) = Some it_last ->
  (forall k o', m_orphans s' !! k = Some o' <-> k <> txid /\ exists o0, m_orphans s !! k = Some o0 /\ o' = if decide (k = it_last) then set_pos o0 (list_pos o) else o0) ->
  m_orphan_list s' = take (length (m_orphan_list s) - 1) (<[list_pos o := it_last]> (m_orphan_list s)) ->
  m_wtxid_to_orphan_it s' = delete (GetWtxid (tx o)) (m_wtxid_to_orphan_it s) ->
  m_outpoint_to_orphan_it s' = fold_left (drop_spender txid) (spends (tx o)) (m_outpoint_to_orphan_it s) ->
  orphanage_ok s' /\ contents s' = delete txid (contents s).
Proof using All.
  intros [Hk Hl Hw Ho Hn] Eo Elast Hm El Ew Eout. destruct (drop_spenders txid (spends (tx o)) _ Hn) as [A B]. rewrite <- Eout in A, B. rewrite last_lookup in Elast.
  set (len := length (m_orphan_list s)) in *. set (pos := list_pos o) in *. assert (Ep : m_orphan_list s !! pos = Some txid) by (apply Hl; eauto).
  pose proof (lookup_lt_Some _ _ _ Ep) as Hpos. fold len in Hpos.
  assert (Stx : forall k (o0 : OrphanTx Tx), keep (if decide (k = it_last) then set_pos o0 pos else o0) = keep o0) by (intros k o0; destruct (decide _); reflexivity).
  assert (Stx' : forall k (o0 : OrphanTx Tx), tx (if decide (k = it_last) then set_pos o0 pos else o0) = tx o0) by (intros k o0; destruct (decide _); reflexivity).
  split; [split|].
  - intros k o' E. apply Hm in E as (_ & o0 & E & ->). rewrite Stx'. eauto.
  - intros i k. rewrite El, lookup_take_Some, list_lookup_insert_Some. fold len. split.
    + intros [[(<- & <- & _)|(Hne & E)] Hi].
      * pose proof Elast as E. apply Hl in E as (ol & E & Epos). assert (it_last <> txid) by (intros ->; rewrite Eo in E; injection E as <-; lia).
        eexists. split; [apply Hm; split; [assumption|]; exists ol; split; [exact E|reflexivity]|]. rewrite decide_True by reflexivity. reflexivity.
      * assert (k <> txid) by (intros ->; apply Hl in E as (o1 & E1 & <-); rewrite Eo in E1; injection E1 as <-; contradiction). pose proof E as E1. apply Hl in E1 as (o1 & E1 & Ei).
        eexists. split; [apply Hm; split; [assumption|]; exists o1; split; [exact E1|reflexivity]|]. rewrite decide_False; [exact Ei|]. intros ->. apply Hl in Elast as (o2 & E2 & E3). rewrite E1 in E2. injection E2 as <-. lia.
    + intros (o' & E & <-). apply Hm in E as (Hne & o0 & E & ->). destruct (decide (k = it_last)) as [->|Hnl]; cbn.
      * fold pos. split; [left; split; [reflexivity|]; split; [reflexivity|exact Hpos]|]. assert (pos <> pred len) by (intros Epl; rewrite Epl, Elast in Ep; congruence). lia.
      * assert (E1 : m_orphan_list s !! list_pos o0 = Some k) by (apply Hl; eauto). split; [right; split; [intros Ex; rewrite <- Ex in E1; congruence|exact E1]|].
        pose proof (lookup_lt_Some _ _ _ E1) as Hlt. fold len in Hlt. assert (list_pos o0 <> pred len) by (intros Ex; rewrite Ex, Elast in E1; congruence). lia.
  - intros w k. rewrite Ew, lookup_delete_Some, Hw. split.
    + intros (Hne & o0 & E & <-). eexists. split; [apply Hm; split; [|exists o0; split; [exact E|reflexivity]]|rewrite Stx'; reflexivity]. intros ->. congruence.
    + intros (o' & E & <-). apply Hm in E as (Hne & o0 & E & ->). rewrite Stx'. split; [|eauto]. intros Ex. apply wtxid_txid in Ex. rewrite (Hk _ _ Eo), (Hk _ _ E) in Ex. congruence.
  - intros p k. rewrite (A p k). unfold spenders at 1. rewrite Ho. split.
    + intros [(o0 & E & Hp) Hno]. eexists. split; [apply Hm; split; [|exists o0; split; [exact E|reflexivity]]|rewrite Stx'; exact Hp]. intros ->. apply Hno. split; [reflexivity|congruence].
    + intros (o' & E & Hp). apply Hm in E as (Hne & o0 & E & ->). rewrite Stx' in Hp. split; [eauto|tauto].
  - exact B.
  - apply map_eq. intros k. apply option_eq. intros e. rewrite lookup_delete_Some, !contents_lookup. split.
    + intros (o' & E & ->). apply Hm in E as (Hne & o0 & E & ->). rewrite Stx. split; [congruence|eauto].
    + intros (Hne & o0 & E & ->). eexists. split; [apply Hm; split; [congruence|]; exists o0; split; [exact E|reflexivity]|]. symmetry. apply Stx.
Qed.

(** The work sets and the time of the next sweep stay. *)
Definition same_rest (s s' : orphanage) : Prop := m_peer_work_set s' = m_peer_work_set s /\ nNextSweep s' = nNextSweep s.

Lemma EraseTxNoLock_spec txid s : orphanage_ok s -> exists s', EraseTxNoLock txid s = (Ok (if contents s !! txid then 1 else 0), s') /\ orphanage_ok s' /\
  contents s' = delete txid (contents s) /\ same_rest s s'.
Proof using All.
  intros Hs. pose proof Hs as [Hk Hl Hw Ho Hn]. unfold EraseTxNoLock. unfold mbind at 1, stm_bind at 1, get_st at 1. unfold contents at 1. rewrite lookup_fmap.
  destruct (m_orphans s !! txid) as [o|] eqn:Eo; cbn [fmap option_fmap option_map].
  2:{ exists s. split; [reflexivity|]. split; [exact Hs|]. split; [|split; reflexivity]. rewrite delete_id; [reflexivity|]. unfold contents. rewrite lookup_fmap, Eo. reflexivity. }
  assert (Ep : m_orphan_list s !! list_pos o = Some txid) by (apply Hl; eauto). pose proof (lookup_lt_Some _ _ _ Ep) as Hpos.
  destruct (last (m_orphan_list s)) as [it_last|] eqn:Elast; [|apply last_None in Elast; rewrite Elast in Ep; discriminate].
  pose proof Elast as Elk. rewrite last_lookup in Elk.
  unfold mbind at 1, stm_bind at 1, modify_st at 1. unfold mbind at 1, stm_bind at 1, lift_st at 1. rewrite Ep. cbn [access]. unfold mbind at 1, stm_bind at 1, lift_st at 1.
  rewrite bool_decide_eq_true_2 by reflexivity. cbn [assert_]. unfold mbind at 1, stm_bind at 1. destruct (decide _) as [Es|Es].
  - cbn [mret stm_ret]. unfold mbind, stm_bind, modify_st. eexists. split; [reflexivity|].
    assert (it_last = txid) as -> by (rewrite <- Es in Elk; cbn in Elk; congruence).
    match goal with |- ?A /\ ?B /\ ?C => cut ((A /\ B) /\ C); [tauto|] end. split; [|split; reflexivity]. eapply (erased_ok s _ txid o txid); eauto; cbn.
    + intros k o'. rewrite lookup_delete_Some. split.
      * intros [Hne E]. split; [congruence|]. exists o'. split; [exact E|]. rewrite decide_False by congruence. reflexivity.
      * intros (Hne & o0 & E & ->). rewrite decide_False by congruence. split; [congruence|exact E].
    + rewrite removelast_firstn_len, list_insert_id by exact Ep. f_equal. lia.
  - assert (Hlast : exists ol, m_orphans s !! it_last = Some ol) by (apply Hl in Elk as (ol & E & _); eauto). destruct Hlast as [ol El].
    unfold mbind at 1, stm_bind at 1, lift_st at 1. cbn [access].
    unfold mbind at 1, stm_bind at 1, modify_st at 1. unfold mbind at 1, stm_bind at 1, orphan_at. unfold mbind at 1, stm_bind at 1, get_st at 1, lift_st at 1. cbn. rewrite El. cbn.
    unfold mbind, stm_bind, modify_st. eexists. split; [reflexivity|].
    match goal with |- ?A /\ ?B /\ ?C => cut ((A /\ B) /\ C); [tauto|] end. split; [|split; reflexivity]. eapply (erased_ok s _ txid o it_last); eauto; cbn.
    + intros k o'. rewrite lookup_delete_Some, lookup_insert_Some. split.
      * intros [Hne [[<- <-]|[Hnl E]]]; (split; [congruence|]); [exists ol; rewrite decide_True by reflexivity; auto|exists o'; rewrite decide_False by congruence; auto].
      * intros (Hne & o0 & E & ->). split; [congruence|]. destruct (decide (k = it_last)) as [->|Hnl]; [left; split; [reflexivity|congruence]|right; split; [congruence|exact E]].
    + rewrite removelast_firstn_len, length_insert. f_equal. lia.
Qed.
(** ** Walks that erase *)

Lemma orphan_at_ok (s : orphanage) k o : m_orphans s !! k = Some o -> orphan_at k s = (Ok o, s).
Proof using. intros E. unfold orphan_at, mbind, stm_bind, get_st, lift_st. rewrite E. reflexivity. Qed.

Lemma live_orphan s k : is_Some (contents s !! k) -> exists o, m_orphans s !! k = Some o /\ contents s !! k = Some (keep o).
Proof using. intros [e E]. pose proof E as E'. apply contents_lookup in E' as (o & Eo & ->). eauto. Qed.

(** After a walk over [its], the transactions of [its] with [P] are gone. *)
Definition swept (P : kept_tx -> Prop) (its : list uint256) (s s' : orphanage) : Prop :=
  forall k e, contents s' !! k = Some e <-> contents s !! k = Some e /\ ~ (k ∈ its /\ P e).

Lemma swept_gone (P : kept_tx -> Prop) k e its s s1 s' : contents s !! k = Some e -> P e -> contents s1 = delete k (contents s) -> swept P its s1 s' -> swept P (k :: its) s s'.
Proof using.
  intros Ek Hp E1 Hs k' e'. rewrite (Hs k' e'), E1, lookup_delete_Some, elem_of_cons. split.
  - intros ((Hne & E) & Hno). split; [exact E|]. intros [[->|Hin] Hp']; [congruence|tauto].
  - intros (E & Hno). split; [split; [|exact E]|tauto]. intros <-. apply Hno. split; [left; reflexivity|congruence].
Qed.

Lemma swept_kept (P : kept_tx -> Prop) k e its s s' : contents s !! k = Some e -> ~ P e -> swept P its s s' -> swept P (k :: its) s s'.
Proof using.
  intros Ek Hp Hs k' e'. rewrite (Hs k' e'), elem_of_cons. split.
  - intros (E & Hno). split; [exact E|]. intros [[->|Hin] Hp']; [congruence|tauto].
  - intros (E & Hno). tauto.
Qed.

Lemma still_live k its s s1 : NoDup (k :: its) -> Forall (fun x => is_Some (contents s !! x)) (k :: its) -> contents s1 = delete k (contents s) ->
  Forall (fun x => is_Some (contents s1 !! x)) its.
Proof using.
  intros Hnd Hl ->. apply NoDup_cons in Hnd as [Hni _]. apply Forall_cons in Hl as [_ Hl]. rewrite Forall_forall in *. intros x Hx. rewrite lookup_delete_ne; [auto|]. intros ->. contradiction.
Qed.

Lemma peer_loop_spec peer its : forall s count, orphanage_ok s -> NoDup its -> Forall (fun k => is_Some (contents s !! k)) its ->
  exists n s', peer_loop peer its count s = (Ok n, s') /\ orphanage_ok s' /\ swept (fun e => sender e = peer) its s s' /\ same_rest s s'.
Proof using All.
  induction its as [|k its IH]; intros s count Hs Hnd Hl; cbn [peer_loop].
  - exists count, s. split; [reflexivity|]. split; [exact Hs|]. split; [|split; reflexivity]. intros k e. rewrite elem_of_nil. tauto.
  - pose proof Hl as Hl'. apply Forall_cons in Hl' as [Hk Hl']. destruct (live_orphan s k Hk) as (o & Eo & Ek). unfold mbind at 1, stm_bind at 1. rewrite (orphan_at_ok s k o Eo).
    pose proof Hnd as Hnd'. apply NoDup_cons in Hnd' as [_ Hnd']. destruct (Z.eqb_spec (fromPeer o) peer) as [Ep|Ep].
    + rewrite (oo_key _ Hs _ _ Eo). destruct (EraseTxNoLock_spec k s Hs) as (s1 & E1 & H1 & C1 & R1a & R1b). unfold mbind, stm_bind. rewrite E1.
      destruct (IH s1 (count + (if contents s !! k then 1 else 0)) H1 Hnd' (still_live _ _ _ _ Hnd Hl C1)) as (n & s2 & E2 & H2 & S2 & R2a & R2b). exists n, s2. split; [exact E2|]. split; [exact H2|].
      split; [|split; congruence]. exact (swept_gone _ k (keep o) its s s1 s2 Ek Ep C1 S2).
    + destruct (IH s count Hs Hnd' Hl') as (n & s2 & E2 & H2 & S2 & R2). exists n, s2. split; [exact E2|]. split; [exact H2|]. split; [|exact R2]. exact (swept_kept _ k (keep o) its s s2 Ek Ep S2).
Qed.

Lemma expire_loop_spec now its : forall s least, orphanage_ok s -> NoDup its -> Forall (fun k => is_Some (contents s !! k)) its -> now < least ->
  exists m s', expire_loop now its least s = (Ok m, s') /\ orphanage_ok s' /\ swept (fun e => until e <= now) its s s' /\ same_rest s s' /\
    now < m <= least /\ (forall k e, k ∈ its -> contents s' !! k = Some e -> m <= until e).
Proof using All.
  induction its as [|k its IH]; intros s least Hs Hnd Hl Hlt; cbn [expire_loop].
  - exists least, s. split; [reflexivity|]. split; [exact Hs|]. split; [intros k e; rewrite elem_of_nil; tauto|]. split; [split; reflexivity|]. split; [lia|]. intros k e Hk. apply not_elem_of_nil in Hk. contradiction.
  - pose proof Hl as Hl'. apply Forall_cons in Hl' as [Hk Hl']. destruct (live_orphan s k Hk) as (o & Eo & Ek). unfold mbind at 1, stm_bind at 1. rewrite (orphan_at_ok s k o Eo).
    pose proof Hnd as Hnd'. apply NoDup_cons in Hnd' as [_ Hnd']. destruct (Z.leb_spec (nTimeExpire o) now) as [Ep|Ep].
    + rewrite (oo_key _ Hs _ _ Eo). destruct (EraseTxNoLock_spec k s Hs) as (s1 & E1 & H1 & C1 & R1a & R1b). unfold mbind, stm_bind. rewrite E1.
      destruct (IH s1 least H1 Hnd' (still_live _ _ _ _ Hnd Hl C1) Hlt) as (m & s2 & E2 & H2 & S2 & (R2a & R2b) & Hm & Hall). exists m, s2. split; [exact E2|]. split; [exact H2|].
      assert (S' := swept_gone _ k (keep o) its s s1 s2 Ek Ep C1 S2). split; [exact S'|]. split; [split; congruence|]. split; [exact Hm|].
      intros k' e' Hin E'. apply elem_of_cons in Hin as [->|Hin]; [|eauto]. apply S' in E' as [E' Hno]. exfalso. apply Hno. split; [left|]. rewrite Ek in E'. injection E' as <-. exact Ep.
    + destruct (IH s (Z.min (nTimeExpire o) least) Hs Hnd' Hl' ltac:(lia)) as (m & s2 & E2 & H2 & S2 & R2 & Hm & Hall). exists m, s2. split; [exact E2|]. split; [exact H2|].
      assert (Nx : ~ until (keep o) <= now) by (cbn; lia). assert (S' := swept_kept _ k (keep o) its s s2 Ek Nx S2). split; [exact S'|]. split; [exact R2|]. split; [lia|].
      intros k' e' Hin E'. apply elem_of_cons in Hin as [->|Hin]; [|eauto]. apply S' in E' as [E' _]. rewrite Ek in E'. injection E' as <-. cbn. lia.
Qed.

(** The keys of [m_orphans], each once. *)
Lemma all_keys s : NoDup (in_order (dom (m_orphans s))) /\ Forall (fun k => is_Some (contents s !! k)) (in_order (dom (m_orphans s))) /\
  (forall k, is_Some (contents s !! k) -> k ∈ in_order (dom (m_orphans s))).
Proof using.
  unfold in_order. assert (P := merge_sort_Permutation hash_le (elements (dom (m_orphans s)))). split; [rewrite P; apply NoDup_elements|].
  assert (I : forall k, k ∈ merge_sort hash_le (elements (dom (m_orphans s))) <-> is_Some (contents s !! k))
    by (intros k; rewrite P, elem_of_elements, elem_of_dom; unfold contents; rewrite lookup_fmap, fmap_is_Some; reflexivity).
  split; [apply Forall_forall; intros k Hk; apply I, Hk|intros k Hk; apply I, Hk].
Qed.

Lemma swept_all P s s' its : (forall k, is_Some (contents s !! k) -> k ∈ its) -> swept P its s s' -> forall k e, contents s' !! k = Some e <-> contents s !! k = Some e /\ ~ P e.
Proof using. intros Hall Hs k e. rewrite (Hs k e). split; [intros (E & Hno)|intros (E & Hno)]; (split; [exact E|]); [intros Hp; apply Hno; eauto|tauto]. Qed.

Lemma EraseForPeer_spec peer s : orphanage_ok s -> exists s', EraseForPeer peer s = (Ok tt, s') /\ orphanage_ok s' /\
  (forall k e, contents s' !! k = Some e <-> contents s !! k = Some e /\ sender e <> peer) /\ m_peer_work_set s' = delete peer (m_peer_work_set s) /\ nNextSweep s' = nNextSweep s.
Proof using All.
  intros Hs. set (s0 := set_work (delete peer) s). assert (H0' : orphanage_ok s0) by (destruct Hs; split; assumption).
  destruct (all_keys s0) as (Hnd & Hl & Hall). destruct (peer_loop_spec peer _ s0 0 H0' Hnd Hl) as (n & s' & E & H' & Hsw & R1 & R2).
  exists s'. unfold EraseForPeer, mbind, stm_bind, modify_st, get_st. fold s0. rewrite E. split; [reflexivity|]. split; [exact H'|].
  split; [exact (swept_all _ s0 s' _ Hall Hsw)|]. split; [exact R1|exact R2].
Qed.

(** ** Eviction *)

Lemma list_size s : orphanage_ok s -> length (m_orphan_list s) = size (contents s).
Proof using.
  intros [Hk Hl _ _ _]. unfold contents. rewrite map_size_fmap, <- (size_dom (D := gset uint256)). change (size (dom (m_orphans s))) with (length (elements (dom (m_orphans s)))).
  apply Permutation_length, NoDup_Permutation; [|apply NoDup_elements|].
  - apply NoDup_alt. intros i j k Ei Ej. apply Hl in Ei as (o & E & <-), Ej as (o' & E' & <-). congruence.
  - intros k. rewrite elem_of_elements, elem_of_dom, list_elem_of_lookup. split; [intros [i Ei]; apply Hl in Ei as (o & E & _); eauto|intros [o E]; exists (list_pos o); apply Hl; eauto].
Qed.
(** [rng.randrange(n)] stays below [n]. *)
Definition draws (draw : nat -> nat -> nat) : Prop := forall i n, (0 < n)%nat -> (draw i n < n)%nat.

Lemma evict_loop_spec draw max fuel : draws draw -> 0 <= max -> forall s, orphanage_ok s -> (size (contents s) <= fuel)%nat ->
  exists s', evict_loop fuel max draw s = (Ok tt, s') /\ orphanage_ok s' /\ contents s' ⊆ contents s /\ same_rest s s' /\
    Z.of_nat (size (contents s')) = Z.min (Z.of_nat (size (contents s))) max.
Proof using All.
  intros Hd Hmax. induction fuel as [|fuel IH]; intros s Hs Hf; cbn [evict_loop]; unfold mbind at 1, stm_bind at 1, get_st at 1;
    replace (size (m_orphans s)) with (size (contents s)) by apply map_size_fmap; destruct (Z.gtb_spec (Z.of_nat (size (contents s))) max) as [Hg|Hg].
  1: lia.
  1,3: exists s; split; [reflexivity|]; split; [exact Hs|]; split; [reflexivity|]; split; [split; reflexivity|lia].
  pose proof (list_size s Hs) as El. unfold mbind at 1, stm_bind at 1, lift_st at 1. rewrite bool_decide_eq_false_2 by lia. cbn [negb assert_].
  destruct (lookup_lt_is_Some_2 (m_orphan_list s) (draw fuel (length (m_orphan_list s)))) as [it Eit]; [apply Hd; lia|].
  unfold mbind at 1, stm_bind at 1, lift_st at 1. rewrite Eit. cbn [access]. destruct (EraseTxNoLock_spec it s Hs) as (s1 & E1 & H1 & C1 & R1a & R1b). unfold mbind, stm_bind. rewrite E1.
  assert (Live : is_Some (contents s !! it)) by (apply (oo_list _ Hs) in Eit as (o & Eo & _); exists (keep o); apply contents_lookup; eauto).
  assert (Sz : size (contents s1) = pred (size (contents s))) by (rewrite C1; apply map_size_delete_Some, Live).
  destruct (IH s1 H1 ltac:(lia)) as (s2 & E2 & H2 & Sub & (R2a & R2b) & Sz2). exists s2. split; [exact E2|]. split; [exact H2|].
  split; [etransitivity; [exact Sub|]; rewrite C1; apply delete_subseteq|]. split; [split; congruence|lia].
Qed.

(** The transactions left by the sweep of [LimitOrphans], when it is due. *)
Definition unexpired (s : orphanage) (now : Z) (e : kept_tx) : Prop := nNextSweep s <= now -> now < until e.

#[export] Instance unexpired_dec s now e : Decision (unexpired s now e).
Proof using. unfold unexpired. solve_decision. Defined.

Definition fresh_ones (s : orphanage) (now : Z) : gmap uint256 kept_tx := filter (fun ke => unexpired s now (snd ke)) (contents s).

Definition clock_ok (now : Z) : Prop := 0 <= now < 2 ^ 62.

Lemma LimitOrphans_spec max now draw s : draws draw -> 0 <= max -> clock_ok now -> orphanage_ok s ->
  exists s', LimitOrphans max now draw s = (Ok tt, s') /\ orphanage_ok s' /\ contents s' ⊆ fresh_ones s now /\
    Z.of_nat (size (contents s')) = Z.min (Z.of_nat (size (fresh_ones s now))) max /\ m_peer_work_set s' = m_peer_work_set s /\
    if nNextSweep s <=? now then nNextSweep s' <= now + ORPHAN_TX_EXPIRE_TIME /\ (forall k e, contents s' !! k = Some e -> nNextSweep s' <= until e + ORPHAN_TX_EXPIRE_INTERVAL)
    else nNextSweep s' = nNextSweep s.
Proof using All.
  intros Hd Hmax Hc Hs. unfold LimitOrphans. unfold mbind at 1, stm_bind at 1, get_st at 1. unfold mbind at 1, stm_bind at 1. unfold ORPHAN_TX_EXPIRE_TIME, ORPHAN_TX_EXPIRE_INTERVAL in *.
  unfold clock_ok in Hc. destruct (Z.leb_spec (nNextSweep s) now) as [Hdue|Hdue].
  - destruct (all_keys s) as (Hnd & Hl & Hall). rewrite swrap_small by (try lia; word_lia).
    destruct (expire_loop_spec now _ s (now + 20 * 60 - 5 * 60) Hs Hnd Hl ltac:(lia)) as (m & s1 & E1 & H1 & Hsw & (R1 & _) & Hm & Hle). unfold mbind at 1, stm_bind at 1. rewrite E1.
    pose proof (swept_all _ s s1 _ Hall Hsw) as Hc1. unfold modify_st at 1. rewrite swrap_small by (try lia; word_lia).
    assert (Ef : contents s1 = fresh_ones s now).
    { apply map_eq. intros k. apply option_eq. intros e. unfold fresh_ones. rewrite map_lookup_filter_Some, Hc1. cbn. unfold unexpired. split; intros [E Hx]; (split; [exact E|]); [lia|]. specialize (Hx Hdue). lia. }
    set (s2 := set_sweep (m + 5 * 60) s1). assert (H2 : orphanage_ok s2) by (destruct H1; split; assumption).
    unfold mbind, stm_bind, get_st. destruct (evict_loop_spec draw max (size (m_orphans s2)) Hd Hmax s2 H2) as (s' & E' & H' & Sub & (R3a & R3b) & Sz).
    { unfold contents. rewrite map_size_fmap. reflexivity. }
    change (contents s2) with (contents s1) in *. rewrite Ef in *. exists s'. split; [exact E'|]. split; [exact H'|]. split; [exact Sub|]. split; [exact Sz|]. split; [cbn in R3a; congruence|].
    cbn in R3b. rewrite R3b. split; [lia|]. intros k e Ek. pose proof (lookup_weaken _ _ _ _ Ek Sub) as Ek1. specialize (Hle k e).
    assert (Hin : k ∈ in_order (dom (m_orphans s))) by (apply Hall; apply Hc1 in Ek1 as [Ek1 _]; eauto). specialize (Hle Hin Ek1). lia.
  - unfold mret at 1, stm_ret at 1. assert (Ef : fresh_ones s now = contents s).
    { apply map_eq. intros k. apply option_eq. intros e. unfold fresh_ones. rewrite map_lookup_filter_Some. unfold unexpired. split; [tauto|]. intros E. split; [exact E|]. lia. }
    unfold mbind, stm_bind, get_st. destruct (evict_loop_spec draw max (size (m_orphans s)) Hd Hmax s Hs) as (s' & E' & H' & Sub & (R3a & R3b) & Sz); [unfold contents; rewrite map_size_fmap; reflexivity|]. exists s'. rewrite Ef. auto 10.
Qed.

(** ** Work sets *)

Definition work_of_peer (s : orphanage) (peer : Z) : gset uint256 := default ∅ (m_peer_work_set s !! peer).

(** Only the work sets differ. *)
Definition same_orphans (s s' : orphanage) : Prop :=
  m_orphans s' = m_orphans s /\ m_outpoint_to_orphan_it s' = m_outpoint_to_orphan_it s /\ m_orphan_list s' = m_orphan_list s /\
  m_wtxid_to_orphan_it s' = m_wtxid_to_orphan_it s /\ nNextSweep s' = nNextSweep s.

Lemma same_orphans_ok s s' : same_orphans s s' -> orphanage_ok s -> orphanage_ok s' /\ contents s' = contents s.
Proof using. intros (A & B & C & D & _) [Hk Hl Hw Ho Hn]. split; [split; rewrite ?A, ?B, ?C, ?D; assumption|]. unfold contents. rewrite A. reflexivity. Qed.

Lemma work_loop_spec its : forall s, Forall (fun k => is_Some (contents s !! k)) its -> exists s', work_loop its s = (Ok tt, s') /\ same_orphans s s' /\
  (forall peer k, k ∈ work_of_peer s' peer <-> k ∈ work_of_peer s peer \/ (k ∈ its /\ exists e, contents s !! k = Some e /\ sender e = peer)).
Proof using.
  induction its as [|k its IH]; intros s Hl; cbn [work_loop].
  - exists s. split; [reflexivity|]. split; [repeat split|]. intros peer k. rewrite elem_of_nil. tauto.
  - apply Forall_cons in Hl as [Hk Hl]. destruct (live_orphan s k Hk) as (o & Eo & Ek). unfold mbind at 1, stm_bind at 1. rewrite (orphan_at_ok s k o Eo).
    unfold mbind at 1, stm_bind at 1, modify_st at 1. destruct (IH (set_work (add_work (fromPeer o) k) s) Hl) as (s' & E & Hsame & Hw). exists s'. split; [exact E|]. split; [exact Hsame|].
    intros peer k'. rewrite Hw, elem_of_cons. change (contents (set_work (add_work (fromPeer o) k) s)) with (contents s). unfold work_of_peer at 1. cbn. unfold add_work.
    destruct (decide (fromPeer o = peer)) as [<-|Hne].
    + rewrite lookup_insert_eq. cbn. fold (work_of_peer s (fromPeer o)). rewrite elem_of_union, elem_of_singleton. split.
      * intros [[Hin| ->]|Hin]; [tauto|right; split; [auto|]; exists (keep o); auto|tauto].
      * intros [Hin|[[->|Hin] He]]; tauto.
    + rewrite lookup_insert_ne by exact Hne. fold (work_of_peer s peer). split; [tauto|]. intros [Hin|[[->|Hin] (e & Ee & Es)]]; [tauto|rewrite Ek in Ee; injection Ee as <-; contradiction|right; eauto].
Qed.

Lemma spenders_live s its p : orphanage_ok s -> m_outpoint_to_orphan_it s !! p = Some its ->
  Forall (fun k => is_Some (contents s !! k)) (by_address its) /\ (forall k, k ∈ by_address its <-> exists e, contents s !! k = Some e /\ p ∈ spends (kept e)).
Proof using All.
  intros Hs Ep. assert (I : forall k, k ∈ by_address its <-> exists e, contents s !! k = Some e /\ p ∈ spends (kept e)).
  { intros k. rewrite by_address_elements, elem_of_elements. pose proof (oo_out _ Hs p k) as Ho. rewrite Ep in Ho. cbn in Ho. rewrite Ho. split.
    - intros (o & Eo & Hp). exists (keep o). split; [apply contents_lookup; eauto|exact Hp].
    - intros (e & Ee & Hp). apply contents_lookup in Ee as (o & Eo & ->). eauto. }
  split; [|exact I]. apply Forall_forall. intros k Hk. apply I in Hk as (e & Ee & _). eauto.
Qed.

Lemma no_spenders s p : orphanage_ok s -> m_outpoint_to_orphan_it s !! p = None -> forall k e, contents s !! k = Some e -> p ∉ spends (kept e).
Proof using.
  intros Hs Ep k e Ee Hp. apply contents_lookup in Ee as (o & Eo & ->). pose proof (oo_out _ Hs p k) as Ho. rewrite Ep in Ho. cbn in Ho. assert (X : k ∈ (∅ : gset uint256)) by (apply Ho; eauto). exact (not_elem_of_empty k X).
Qed.

Lemma outputs_loop_spec txid outs : forall s, orphanage_ok s -> exists s', outputs_loop txid outs s = (Ok tt, s') /\ same_orphans s s' /\
  (forall peer k, k ∈ work_of_peer s' peer <-> k ∈ work_of_peer s peer \/
     exists e i, contents s !! k = Some e /\ sender e = peer /\ i ∈ outs /\ (txid, Z.of_nat i) ∈ spends (kept e)).
Proof using All.
  induction outs as [|i outs IH]; intros s Hs; cbn [outputs_loop].
  - exists s. split; [reflexivity|]. split; [repeat split|]. intros peer k. split; [tauto|]. intros [Hk|(e & i & _ & _ & Hi & _)]; [exact Hk|]. apply not_elem_of_nil in Hi. contradiction.
  - unfold mbind at 1, stm_bind at 1, get_st at 1. unfold mbind at 1, stm_bind at 1.
    assert (Step : exists s1, (match m_outpoint_to_orphan_it s !! (txid, Z.of_nat i) with None => mret tt | Some its => work_loop (by_address its) end) s = (Ok tt, s1) /\ same_orphans s s1 /\
      (forall peer k, k ∈ work_of_peer s1 peer <-> k ∈ work_of_peer s peer \/ exists e, contents s !! k = Some e /\ sender e = peer /\ (txid, Z.of_nat i) ∈ spends (kept e))).
    { destruct (m_outpoint_to_orphan_it s !! (txid, Z.of_nat i)) as [its|] eqn:Ei.
      - destruct (spenders_live s its _ Hs Ei) as [Hl Hin]. destruct (work_loop_spec (by_address its) s Hl) as (s1 & E1 & S1 & W1). exists s1. split; [exact E1|]. split; [exact S1|].
        intros peer k. rewrite W1, Hin. split; [intros [A|[(e & Ee & Hp) (e' & Ee' & Hs')]]; [tauto|right; exists e; split; [exact Ee|]; split; [congruence|exact Hp]]|intros [A|(e & Ee & Hs' & Hp)]; [tauto|right; split; eauto]].
      - exists s. split; [reflexivity|]. split; [repeat split|]. intros peer k. split; [tauto|]. intros [A|(e & Ee & _ & Hp)]; [exact A|]. destruct (no_spenders s _ Hs Ei k e Ee Hp). }
    destruct Step as (s1 & E1 & S1 & W1). rewrite E1. destruct (same_orphans_ok s s1 S1 Hs) as [H1 C1]. destruct (IH s1 H1) as (s2 & E2 & S2 & W2). exists s2. split; [exact E2|].
    split; [unfold same_orphans in *; destruct S1 as (? & ? & ? & ? & ?), S2 as (? & ? & ? & ? & ?); repeat split; congruence|].
    intros peer k. rewrite W2, W1, C1. setoid_rewrite elem_of_cons. split.
    + intros [[A|(e & Ee & Hs' & Hp)]|(e & j & Ee & Hs' & Hj & Hp)]; [tauto|right; exists e, i; auto|right; exists e, j; auto].
    + intros [A|(e & j & Ee & Hs' & [->|Hj] & Hp)]; [tauto|left; right; eauto|right; eauto 10].
Qed.

Lemma AddChildrenToWorkSet_spec t s : orphanage_ok s -> exists s', AddChildrenToWorkSet t s = (Ok tt, s') /\ same_orphans s s' /\
  (forall peer k, k ∈ work_of_peer s' peer <-> k ∈ work_of_peer s peer \/
     exists e i, contents s !! k = Some e /\ sender e = peer /\ (i < vout_size t)%nat /\ (GetTxid t, Z.of_nat i) ∈ spends (kept e)).
Proof using All.
  intros Hs. destruct (outputs_loop_spec (GetTxid t) (seq 0 (vout_size t)) s Hs) as (s' & E & S & W). exists s'. split; [exact E|]. split; [exact S|].
  intros peer k. rewrite W. setoid_rewrite elem_of_seq. split; (intros [A|(e & i & Ee & Hs' & Hi & Hp)]; [tauto|right; exists e, i; repeat split; auto; lia]).
Qed.
End Proofs.

(** * The orphanage is a map of transactions

    An abstract orphanage ([orphan_spec]: a map of transactions, the work of
    each peer, the time of the next sweep), what every operation may do to it
    ([spec_step]), and that the indexed one does just that; from the abstract
    one, how long a transaction stays. *)

(** ** Hashes are totally ordered *)

Lemma Compare_eq a : forall b, Compare a b = Eq -> a = b.
Proof.
  induction a as [|x a IH]; intros [|y b]; cbn; try discriminate; [reflexivity|]. destruct (Z.compare_spec x y) as [->|?|?]; try discriminate. intros E. f_equal. apply IH, E.
Qed.

Lemma Compare_anti a : forall b, Compare b a = CompOpp (Compare a b).
Proof. induction a as [|x a IH]; intros [|y b]; cbn; try reflexivity. rewrite (Z.compare_antisym x y). destruct (x ?= y); cbn; auto. Qed.

#[global] Instance hash_le_total : Total hash_le.
Proof. intros a b. unfold hash_le. rewrite (Compare_anti a b). destruct (Compare a b); cbn; [left|left|right]; discriminate. Qed.

#[global] Instance hash_le_antisymm : AntiSymm (=) hash_le.
Proof. intros a b. unfold hash_le. rewrite (Compare_anti a b). destruct (Compare a b) eqn:E; cbn; [intros _ _; apply Compare_eq, E|congruence|congruence]. Qed.

#[global] Instance hash_le_trans : Transitive hash_le.
Proof.
  unfold hash_le. intros a. induction a as [|x a IH]; intros [|y b] [|z d]; cbn; try congruence.
  destruct (Z.compare_spec x y) as [->|H1|H1], (Z.compare_spec y z) as [->|H2|H2]; try congruence; try apply IH; intros _ _.
  all: rewrite (proj2 (Z.compare_lt_iff _ _)) by lia; discriminate.
Qed.

Lemma in_order_elements keys k : k ∈ in_order keys <-> k ∈ keys.
Proof. unfold in_order. rewrite merge_sort_Permutation, elem_of_elements. reflexivity. Qed.

Lemma in_order_sorted keys : StronglySorted hash_le (in_order keys).
Proof. apply StronglySorted_merge_sort; apply _. Qed.

Lemma in_order_nodup keys : NoDup (in_order keys).
Proof. unfold in_order. rewrite merge_sort_Permutation. apply NoDup_elements. Qed.

Section Refinement.
Context {Tx : Type} `{OrphanEnvLaws Tx}.
Notation orphanage := (TxOrphanage Tx).
Notation kept_tx := (@kept_tx Tx).

(** ** Blocks *)

Lemma hashes_of_spec its s : orphanage_ok s -> Forall (fun k => is_Some (contents s !! k)) its -> hashes_of its s = (Ok its, s).
Proof using.
  intros Hs. induction 1 as [|k its Hk _ IH]; cbn [hashes_of]; [reflexivity|]. destruct (live_orphan s k Hk) as (o & Eo & _).
  unfold mbind, stm_bind. rewrite (orphan_at_ok s k o Eo), IH, (oo_key _ Hs _ _ Eo). reflexivity.
Qed.

Lemma block_orphans_spec ps s : orphanage_ok s -> exists l, block_orphans ps s = (Ok l, s) /\
  forall k, k ∈ l <-> exists e p, contents s !! k = Some e /\ p ∈ ps /\ p ∈ spends (kept e).
Proof using All.
  intros Hs. induction ps as [|p ps IH]; cbn [block_orphans].
  - exists []. split; [reflexivity|]. intros k. rewrite elem_of_nil. split; [tauto|]. intros (e & p & _ & Hp & _). apply not_elem_of_nil in Hp. exact Hp.
  - destruct IH as (l & El & Hl). unfold mbind at 1, stm_bind at 1, get_st at 1. unfold mbind at 1, stm_bind at 1.
    assert (Here : exists h, (match m_outpoint_to_orphan_it s !! p with None => mret [] | Some its => hashes_of (by_address its) end) s = (Ok h, s) /\
      forall k, k ∈ h <-> exists e, contents s !! k = Some e /\ p ∈ spends (kept e)).
    { destruct (m_outpoint_to_orphan_it s !! p) as [its|] eqn:Ep.
      - destruct (spenders_live s its p Hs Ep) as [Hv Hin]. exists (by_address its). split; [apply hashes_of_spec; assumption|exact Hin].
      - exists []. split; [reflexivity|]. intros k. rewrite elem_of_nil. split; [tauto|]. intros (e & Ee & Hp). exact (no_spenders s p Hs Ep k e Ee Hp). }
    destruct Here as (h & -> & Hh). unfold mbind, stm_bind. rewrite El. exists (h ++ l). split; [reflexivity|]. intros k. rewrite elem_of_app, Hh, Hl. setoid_rewrite elem_of_cons. split.
    + intros [(e & Ee & Hp)|(e & q & Ee & Hq & Hp)]; [exists e, p; auto|exists e, q; auto].
    + intros (e & q & Ee & [->|Hq] & Hp); [left; eauto|right; eauto].
Qed.

Lemma erase_loop_spec txids : forall s, orphanage_ok s -> exists s', erase_loop txids s = (Ok tt, s') /\ orphanage_ok s' /\
  (forall k e, contents s' !! k = Some e <-> contents s !! k = Some e /\ k ∉ txids) /\ same_rest s s'.
Proof using All.
  induction txids as [|k txids IH]; intros s Hs; cbn [erase_loop].
  - exists s. split; [reflexivity|]. split; [exact Hs|]. split; [|split; reflexivity]. intros k e. rewrite elem_of_nil. tauto.
  - destruct (EraseTxNoLock_spec k s Hs) as (s1 & E1 & H1 & C1 & R1a & R1b). unfold mbind, stm_bind. rewrite E1. destruct (IH s1 H1) as (s2 & E2 & H2 & C2 & R2a & R2b).
    exists s2. split; [exact E2|]. split; [exact H2|]. split; [|split; congruence]. intros k' e. rewrite C2, C1, lookup_delete_Some, elem_of_cons. intuition congruence.
Qed.

Lemma EraseForBlock_spec vtx s : orphanage_ok s -> exists s', EraseForBlock vtx s = (Ok tt, s') /\ orphanage_ok s' /\
  (forall k e, contents s' !! k = Some e <-> contents s !! k = Some e /\ (forall p, p ∈ spends (kept e) -> p ∉ vtx ≫= spends)) /\ same_rest s s'.
Proof using All.
  intros Hs. destruct (block_orphans_spec (vtx ≫= spends) s Hs) as (l & El & Hl). destruct (erase_loop_spec l s Hs) as (s' & E & H' & C & R).
  exists s'. unfold EraseForBlock. unfold mbind at 1, stm_bind at 1. rewrite El. split; [exact E|]. split; [exact H'|]. split; [|exact R]. intros k e. rewrite C, Hl. split.
  - intros (Ee & Hno). split; [exact Ee|]. intros p Hp Hin. apply Hno. eauto.
  - intros (Ee & Hno). split; [exact Ee|]. intros (e' & p & Ee' & Hin & Hp). rewrite Ee in Ee'. injection Ee' as <-. exact (Hno p Hp Hin).
Qed.

(** ** Reconsidering *)

Lemma reconsider_loop_spec (s : orphanage) work found remaining : reconsider_loop (m_orphans s) work = (found, remaining) ->
  match found with
  | None => remaining = [] /\ (forall k, k ∈ work -> contents s !! k = None)
  | Some t => exists skipped k e, work = skipped ++ k :: remaining /\ contents s !! k = Some e /\ t = kept e /\ (forall x, x ∈ skipped -> contents s !! x = None)
  end.
Proof using.
  revert found remaining. induction work as [|x work IH]; intros found remaining; cbn [reconsider_loop].
  - intros [= <- <-]. split; [reflexivity|]. intros k Hk. apply not_elem_of_nil in Hk. contradiction.
  - destruct (m_orphans s !! x) as [o|] eqn:Ex.
    + intros [= <- <-]. exists [], x, (keep o). split; [reflexivity|]. split; [apply contents_lookup; eauto|]. split; [reflexivity|]. intros y Hy. apply not_elem_of_nil in Hy. contradiction.
    + assert (Dx : contents s !! x = None) by (unfold contents; rewrite lookup_fmap, Ex; reflexivity).
      intros E. specialize (IH _ _ E). destruct found as [t|].
      * destruct IH as (sk & k & e & -> & Ek & Et & Hsk). exists (x :: sk), k, e. split; [reflexivity|]. split; [exact Ek|]. split; [exact Et|].
        intros y Hy. apply elem_of_cons in Hy as [->|Hy]; auto.
      * destruct IH as [-> Hd]. split; [reflexivity|]. intros y Hy. apply elem_of_cons in Hy as [->|Hy]; auto.
Qed.

(** The least transaction of the work set that is still there, and what is
    left of the set. *)
Definition reconsidered (txs : gmap uint256 kept_tx) (work : gset uint256) (found : option Tx) (work' : gset uint256) : Prop :=
  match found with
  | None => work' = ∅ /\ (forall k, k ∈ work -> txs !! k = None)
  | Some t => exists k e, k ∈ work /\ txs !! k = Some e /\ t = kept e /\ (forall x, x ∈ work -> is_Some (txs !! x) -> hash_le k x) /\
      (forall x, x ∈ work' <-> x ∈ work /\ ~ hash_le x k)
  end.

Lemma GetTxToReconsider_spec peer (s : orphanage) : exists found s', GetTxToReconsider peer s = (Ok found, s') /\ same_orphans s s' /\
  (forall p, p <> peer -> work_of_peer s' p = work_of_peer s p) /\ reconsidered (contents s) (work_of_peer s peer) found (work_of_peer s' peer).
Proof using.
  unfold GetTxToReconsider. unfold mbind at 1, stm_bind at 1, get_st at 1. unfold work_of_peer. destruct (m_peer_work_set s !! peer) as [work|] eqn:Ew.
  2:{ exists None, s. split; [reflexivity|]. split; [repeat split|]. split; [reflexivity|]. rewrite Ew. split; [reflexivity|]. intros k Hk. cbn in Hk. destruct (not_elem_of_empty k Hk). }
  destruct (reconsider_loop (m_orphans s) (in_order work)) as [found remaining] eqn:Er. unfold mbind, stm_bind, modify_st. eexists found, _. split; [reflexivity|]. split; [repeat split|].
  split; [intros p Hp; cbn; rewrite lookup_insert_ne by congruence; reflexivity|]. cbn. rewrite lookup_insert_eq. cbn. pose proof (reconsider_loop_spec s _ _ _ Er) as R. destruct found as [t|].
  2:{ destruct R as [-> Hd]. split; [reflexivity|]. intros k Hk. apply Hd, in_order_elements, Hk. }
  destruct R as (sk & k & e & El & Ek & Et & Hsk). pose proof (in_order_sorted work) as Hso. pose proof (in_order_nodup work) as Hnd. rewrite El in Hso, Hnd.
  assert (I : forall x, x ∈ work <-> x ∈ sk \/ x = k \/ x ∈ remaining) by (intros x; rewrite <- in_order_elements, El, elem_of_app, elem_of_cons; tauto).
  apply StronglySorted_app in Hso as (Hlt & _ & Hso). apply StronglySorted_cons in Hso as [Hgt Hso]. rewrite Forall_forall in Hgt.
  apply NoDup_app in Hnd as (_ & _ & Hnd). apply NoDup_cons in Hnd as [Hni _].
  exists k, e. split; [apply I; auto|]. split; [exact Ek|]. split; [exact Et|]. split.
  - intros x Hx [ex Ex]. apply I in Hx as [Hx|[->|Hx]]; [rewrite (Hsk x Hx) in Ex; discriminate|destruct (total hash_le k k); assumption|auto].
  - intros x. rewrite elem_of_list_to_set, I. split.
    + intros Hx. split; [auto|]. intros Hle. assert (x = k) as -> by (apply (anti_symm hash_le); auto). contradiction.
    + intros [[Hx|[->|Hx]] Hn]; [|destruct (total hash_le k k); contradiction|exact Hx]. exfalso. apply Hn, Hlt; [exact Hx|left].
Qed.

Lemma HaveTx_spec {GT : GenTxids} (gtxid : GenTxid) s : orphanage_ok s -> HaveTx gtxid s = true <->
  exists k e, contents s !! k = Some e /\ (if IsWtxid gtxid then GetWtxid (kept e) else GetTxid (kept e)) = gtxid_hash gtxid.
Proof using.
  intros Hs. unfold HaveTx. destruct (IsWtxid gtxid); rewrite bool_decide_eq_true; split.
  - intros [k Ek]. apply (oo_wtxid _ Hs) in Ek as (o & Eo & Ew). exists k, (keep o). split; [apply contents_lookup; eauto|exact Ew].
  - intros (k & e & Ee & <-). apply contents_lookup in Ee as (o & Eo & ->). exists k. apply (oo_wtxid _ Hs). eauto.
  - intros [o Eo]. exists (gtxid_hash gtxid), (keep o). split; [apply contents_lookup; eauto|]. exact (oo_key _ Hs _ _ Eo).
  - intros (k & e & Ee & <-). apply contents_lookup in Ee as (o & Eo & ->). cbn. rewrite (oo_key _ Hs _ _ Eo). eauto.
Qed.
(** ** The abstract orphanage *)

Record orphan_spec : Type := { txs : gmap uint256 kept_tx; work : Z -> gset uint256; sweep : Z }.

Definition abstract (s : orphanage) : orphan_spec := {| txs := contents s; work := work_of_peer s; sweep := nNextSweep s |}.

Inductive orphan_op : Type :=
| OpAdd (t : Tx) (peer now : Z)
| OpErase (txid : uint256)
| OpEraseForPeer (peer : Z)
| OpEraseForBlock (vtx : list Tx)
| OpLimit (max now : Z) (draw : nat -> nat -> nat)
| OpChildren (t : Tx)
| OpReconsider (peer : Z).

Inductive orphan_out : Type := OutBool (b : bool) | OutInt (n : Z) | OutTx (found : option Tx) | OutUnit.

Definition perform (op : orphan_op) : stm orphanage orphan_out :=
  match op with
  | OpAdd t peer now => b ← AddTx t peer now; mret (OutBool b)
  | OpErase txid => n ← EraseTx txid; mret (OutInt n)
  | OpEraseForPeer peer => _ ← EraseForPeer peer; mret OutUnit
  | OpEraseForBlock vtx => _ ← EraseForBlock vtx; mret OutUnit
  | OpLimit max now draw => _ ← LimitOrphans max now draw; mret OutUnit
  | OpChildren t => _ ← AddChildrenToWorkSet t; mret OutUnit
  | OpReconsider peer => found ← GetTxToReconsider peer; mret (OutTx found)
  end.

Fixpoint run_orphans (ops : list orphan_op) : stm orphanage (list orphan_out) :=
  match ops with [] => mret [] | op :: rest => o ← perform op; os ← run_orphans rest; mret (o :: os) end.

(** Clocks in range, random numbers in range, a limit of [unsigned int]. *)
Definition op_ok (op : orphan_op) : Prop :=
  match op with OpAdd _ _ now => clock_ok now | OpLimit max now draw => 0 <= max /\ clock_ok now /\ draws draw | _ => True end.

(** The transactions that a sweep at [now] leaves. *)
Definition swept_txs (a : orphan_spec) (now : Z) : gmap uint256 kept_tx := filter (fun ke => sweep a <= now -> now < until (snd ke)) (txs a).

(** What each operation may answer and change. *)
Definition spec_step (op : orphan_op) (a : orphan_spec) (out : orphan_out) (a' : orphan_spec) : Prop :=
  match op with
  | OpAdd t peer now => exists ok, out = OutBool ok /\ (ok = true <-> txs a !! GetTxid t = None /\ ~ big t) /\
      txs a' = (if ok then <[GetTxid t := {| kept := t; sender := peer; until := now + ORPHAN_TX_EXPIRE_TIME |}]> (txs a) else txs a) /\ work a' = work a /\ sweep a' = sweep a
  | OpErase txid => out = OutInt (if txs a !! txid then 1 else 0) /\ txs a' = delete txid (txs a) /\ work a' = work a /\ sweep a' = sweep a
  | OpEraseForPeer peer => out = OutUnit /\ txs a' = filter (fun ke => sender (snd ke) <> peer) (txs a) /\
      (forall p, work a' p = if decide (p = peer) then ∅ else work a p) /\ sweep a' = sweep a
  | OpEraseForBlock vtx => out = OutUnit /\ txs a' = filter (fun ke => Forall (fun p => p ∉ vtx ≫= spends) (spends (kept (snd ke)))) (txs a) /\ work a' = work a /\ sweep a' = sweep a
  | OpLimit max now _ => out = OutUnit /\ txs a' ⊆ swept_txs a now /\ Z.of_nat (size (txs a')) = Z.min (Z.of_nat (size (swept_txs a now))) max /\ work a' = work a /\
      if sweep a <=? now then sweep a' <= now + ORPHAN_TX_EXPIRE_TIME /\ (forall k e, txs a' !! k = Some e -> sweep a' <= until e + ORPHAN_TX_EXPIRE_INTERVAL)
      else sweep a' = sweep a
  | OpChildren t => out = OutUnit /\ txs a' = txs a /\ sweep a' = sweep a /\
      (forall p k, k ∈ work a' p <-> k ∈ work a p \/
         exists e i, txs a !! k = Some e /\ sender e = p /\ (i < vout_size t)%nat /\ (GetTxid t, Z.of_nat i) ∈ spends (kept e))
  | OpReconsider peer => exists found, out = OutTx found /\ txs a' = txs a /\ sweep a' = sweep a /\ (forall p, p <> peer -> work a' p = work a p) /\
      reconsidered (txs a) (work a peer) found (work a' peer)
  end.

Fixpoint spec_run (ops : list orphan_op) (a : orphan_spec) (outs : list orphan_out) (a' : orphan_spec) : Prop :=
  match ops, outs with
  | [], [] => a' = a
  | op :: ops, o :: outs => exists a1, spec_step op a o a1 /\ spec_run ops a1 outs a'
  | _, _ => False
  end.

Lemma work_same (s s' : orphanage) : m_peer_work_set s' = m_peer_work_set s -> work_of_peer s' = work_of_peer s.
Proof using. intros E. unfold work_of_peer. rewrite E. reflexivity. Qed.

Lemma perform_refines op s : orphanage_ok s -> op_ok op -> exists out s', perform op s = (Ok out, s') /\ orphanage_ok s' /\ spec_step op (abstract s) out (abstract s').
Proof using All.
  intros Hs Hop. destruct op as [t peer now|txid|peer|vtx|max now draw|t|peer]; cbn [perform spec_step op_ok] in *; unfold mbind at 1, stm_bind at 1.
  - destruct (AddTx_spec t peer now s Hs) as (ok & s' & -> & H' & Hok & W & Sw & C). exists (OutBool ok), s'. split; [reflexivity|]. split; [exact H'|]. exists ok. split; [reflexivity|]. split; [exact Hok|].
    split; [|split; [apply work_same, W|exact Sw]]. cbn. rewrite C. unfold ORPHAN_TX_EXPIRE_TIME, clock_ok in *. rewrite swrap_small by (try lia; word_lia). reflexivity.
  - unfold EraseTx. destruct (EraseTxNoLock_spec txid s Hs) as (s' & -> & H' & C & W & Sw). eexists _, s'. split; [reflexivity|]. split; [exact H'|]. split; [reflexivity|]. split; [exact C|]. split; [apply work_same, W|exact Sw].
  - destruct (EraseForPeer_spec peer s Hs) as (s' & -> & H' & C & W & Sw). exists OutUnit, s'. split; [reflexivity|]. split; [exact H'|]. split; [reflexivity|]. split; [|split; [|exact Sw]].
    + apply map_eq. intros k. apply option_eq. intros e. rewrite map_lookup_filter_Some. apply C.
    + intros p. cbn. unfold work_of_peer. rewrite W. destruct (decide (p = peer)) as [->|Hne]; [rewrite lookup_delete_eq; reflexivity|rewrite lookup_delete_ne by congruence; reflexivity].
  - destruct (EraseForBlock_spec vtx s Hs) as (s' & -> & H' & C & W & Sw). exists OutUnit, s'. split; [reflexivity|]. split; [exact H'|]. split; [reflexivity|]. split; [|split; [apply work_same, W|exact Sw]].
    apply map_eq. intros k. apply option_eq. intros e. rewrite map_lookup_filter_Some. cbn. rewrite C, Forall_forall. reflexivity.
  - destruct Hop as (Hmax & Hc & Hd). destruct (LimitOrphans_spec max now draw s Hd Hmax Hc Hs) as (s' & -> & H' & Sub & Sz & W & Sw). exists OutUnit, s'. split; [reflexivity|]. split; [exact H'|].
    split; [reflexivity|]. split; [exact Sub|]. split; [exact Sz|]. split; [apply work_same, W|exact Sw].
  - destruct (AddChildrenToWorkSet_spec t s Hs) as (s' & -> & S & W). destruct (same_orphans_ok s s' S Hs) as [H' C]. exists OutUnit, s'. split; [reflexivity|]. split; [exact H'|].
    split; [reflexivity|]. split; [exact C|]. split; [apply S|exact W].
  - destruct (GetTxToReconsider_spec peer s) as (found & s' & -> & S & W & R). destruct (same_orphans_ok s s' S Hs) as [H' C]. exists (OutTx found), s'. split; [reflexivity|]. split; [exact H'|].
    exists found. split; [reflexivity|]. split; [exact C|]. split; [apply S|]. split; [exact W|exact R].
Qed.

Lemma run_refines ops : forall s, orphanage_ok s -> Forall op_ok ops -> exists outs s', run_orphans ops s = (Ok outs, s') /\ orphanage_ok s' /\ spec_run ops (abstract s) outs (abstract s').
Proof using All.
  induction ops as [|op ops IH]; intros s Hs Hops; cbn [run_orphans]; [exists [], s; cbn; auto|]. apply Forall_cons in Hops as [Hop Hops].
  destruct (perform_refines op s Hs Hop) as (o & s1 & E1 & H1 & S1). destruct (IH s1 H1 Hops) as (os & s2 & E2 & H2 & S2).
  exists (o :: os), s2. unfold mbind, stm_bind. rewrite E1, E2. split; [reflexivity|]. split; [exact H2|]. exists (abstract s1). auto.
Qed.

Lemma new_orphanage_ok : orphanage_ok (new_TxOrphanage (Tx := Tx)).
Proof using.
  split; cbn.
  - intros k o E. rewrite lookup_empty in E. discriminate.
  - intros i k. split; [discriminate|]. intros (o & E & _). rewrite lookup_empty in E. discriminate.
  - intros w k. rewrite lookup_empty. split; [discriminate|]. intros (o & E & _). rewrite lookup_empty in E. discriminate.
  - intros p k. rewrite lookup_empty. cbn. split; [intros Hk; destruct (not_elem_of_empty k Hk)|]. intros (o & E & _). rewrite lookup_empty in E. discriminate.
  - intros p. rewrite lookup_empty. discriminate.
Qed.

(** ** How long a transaction stays *)

(** The time an operation reads, if it reads the clock. *)
Definition op_time (op : orphan_op) : option Z := match op with OpAdd _ _ now | OpLimit _ now _ => Some now | _ => None end.

(** The clock does not go back. *)
Fixpoint clock_forward (last : Z) (ops : list orphan_op) : Prop :=
  match ops with [] => True | op :: ops => match op_time op with Some now => last <= now /\ clock_forward now ops | None => clock_forward last ops end end.

(** Every transaction kept was added, and the next sweep comes at most five
    minutes after it expires. *)
Definition timely (a : orphan_spec) (done : list orphan_op) (last : Z) : Prop := sweep a <= last + ORPHAN_TX_EXPIRE_TIME /\
  (forall k e, txs a !! k = Some e -> sweep a <= until e + ORPHAN_TX_EXPIRE_INTERVAL /\
     exists received, OpAdd (kept e) (sender e) received ∈ done /\ until e = received + ORPHAN_TX_EXPIRE_TIME).

Lemma timely_shrinks a a' done op last now : timely a done last -> last <= now -> sweep a' = sweep a -> txs a' ⊆ txs a -> timely a' (done ++ [op]) now.
Proof using.
  intros [Ht Ha] Hle Es Hsub. split; [rewrite Es; lia|]. intros k e Ek. destruct (Ha k e (lookup_weaken _ _ _ _ Ek Hsub)) as (B & r & Hr & Eu). rewrite Es. split; [exact B|].
  exists r. split; [apply elem_of_app; auto|exact Eu].
Qed.

Lemma timely_step op a out a' done last : timely a done last -> spec_step op a out a' -> (forall now, op_time op = Some now -> last <= now) ->
  timely a' (done ++ [op]) (default last (op_time op)).
Proof using.
  intros Hti Hst Hti'. destruct op as [t peer now|txid|peer|vtx|max now draw|t|peer]; cbn [spec_step op_time from_option id] in *.
  - destruct Hst as (ok & _ & _ & Et & _ & Es). specialize (Hti' now eq_refl). destruct ok; [|apply (timely_shrinks a a' done _ last now Hti Hti' Es); rewrite Et; reflexivity].
    destruct Hti as [Hs Ha]. unfold ORPHAN_TX_EXPIRE_TIME, ORPHAN_TX_EXPIRE_INTERVAL in *. split; [unfold ORPHAN_TX_EXPIRE_TIME; lia|]. intros k e. rewrite Et, lookup_insert_Some. intros [[_ <-]|[_ Ek]].
    + cbn. unfold ORPHAN_TX_EXPIRE_INTERVAL. split; [lia|]. exists now. split; [apply elem_of_app; right; left|reflexivity].
    + destruct (Ha k e Ek) as (B & r & Hr & Eu). unfold ORPHAN_TX_EXPIRE_INTERVAL. split; [lia|]. exists r. split; [apply elem_of_app; auto|exact Eu].
  - destruct Hst as (_ & Et & _ & Es). apply (timely_shrinks a a' done _ last last Hti ltac:(lia) Es). rewrite Et. apply delete_subseteq.
  - destruct Hst as (_ & Et & _ & Es). apply (timely_shrinks a a' done _ last last Hti ltac:(lia) Es). rewrite Et. apply map_filter_subseteq.
  - destruct Hst as (_ & Et & _ & Es). apply (timely_shrinks a a' done _ last last Hti ltac:(lia) Es). rewrite Et. apply map_filter_subseteq.
  - destruct Hst as (_ & Hsub & _ & _ & Hsw). specialize (Hti' now eq_refl). assert (Hsub' : txs a' ⊆ txs a) by (etransitivity; [exact Hsub|apply map_filter_subseteq]).
    destruct (Z.leb_spec (sweep a) now) as [Hd|Hd]; [|exact (timely_shrinks a a' done _ last now Hti Hti' Hsw Hsub')].
    destruct Hsw as [Hs Ha]. split; [exact Hs|]. intros k e Ek. split; [eauto|]. destruct Hti as [_ Hb]. destruct (Hb k e (lookup_weaken _ _ _ _ Ek Hsub')) as (_ & r & Hr & Eu). exists r. split; [apply elem_of_app; auto|exact Eu].
  - destruct Hst as (_ & Et & Es & _). apply (timely_shrinks a a' done _ last last Hti ltac:(lia) Es). rewrite Et. reflexivity.
  - destruct Hst as (found & _ & Et & Es & _). apply (timely_shrinks a a' done _ last last Hti ltac:(lia) Es). rewrite Et. reflexivity.
Qed.

Lemma timely_run ops : forall a outs a' done last, timely a done last -> spec_run ops a outs a' -> clock_forward last ops ->
  exists last', timely a' (done ++ ops) last'.
Proof using.
  induction ops as [|op ops IH]; intros a outs a' done last Hti Hrun Hc; destruct outs as [|o outs]; cbn [spec_run] in Hrun; try contradiction.
  - subst a'. exists last. rewrite app_nil_r. exact Hti.
  - destruct Hrun as (a1 & Hst & Hrun). cbn [clock_forward] in Hc.
    assert (Hnow : forall now, op_time op = Some now -> last <= now) by (intros now En; rewrite En in Hc; apply Hc).
    pose proof (timely_step op a o a1 done last Hti Hst Hnow) as H1. destruct (IH a1 outs a' (done ++ [op]) _ H1 Hrun) as [last' H2].
    { destruct (op_time op); cbn; [apply Hc|exact Hc]. }
    exists last'. rewrite <- app_assoc in H2. exact H2.
Qed.

Lemma spec_run_snoc ops op : forall a outs a', spec_run (ops ++ [op]) a outs a' -> exists outs1 o a1, spec_run ops a outs1 a1 /\ spec_step op a1 o a'.
Proof using.
  induction ops as [|x ops IH]; intros a [|o outs] a'; cbn [app spec_run]; try contradiction.
  - intros (a1 & Hst & Hr). destruct outs; [|contradiction]. subst a1. exists [], o, a. auto.
  - intros (a1 & Hst & Hr). destruct (IH _ _ _ Hr) as (outs1 & o1 & a2 & H1 & H2). exists (o :: outs1), o1, a2. split; [|exact H2]. exists a1. auto.
Qed.

(** ** The properties *)

(** C14. From an empty orphanage, every sequence of operations returns (no failed
    assertion, no dangling iterator, no access out of range), leaves the
    indexes by witness hash, by outpoint and by position exactly those of the
    transactions kept, and answers and changes what the abstract orphanage, a
    map of transactions and the work sets of the peers, prescribes. *)
Theorem orphanage_refines ops : Forall op_ok ops -> exists outs s', run_orphans ops new_TxOrphanage = (Ok outs, s') /\ orphanage_ok s' /\
  spec_run ops (abstract new_TxOrphanage) outs (abstract s') /\
  (forall (GT : GenTxids) (gtxid : GenTxid), HaveTx gtxid s' = true <->
     exists k e, txs (abstract s') !! k = Some e /\ (if IsWtxid gtxid then GetWtxid (kept e) else GetTxid (kept e)) = gtxid_hash gtxid).
Proof using All.
  intros Hops. destruct (run_refines ops _ new_orphanage_ok Hops) as (outs & s' & E & H' & Hr). exists outs, s'. split; [exact E|]. split; [exact H'|]. split; [exact Hr|].
  intros GT gtxid. apply HaveTx_spec, H'.
Qed.

(** While the clock does not go back, [LimitOrphans] leaves at most the number
    of transactions it is given, each of which was added less than 25 minutes
    before: the twenty minutes after which a transaction expires and the five
    that a sweep may be late. *)
Theorem orphans_bounded ops max now draw : Forall op_ok (ops ++ [OpLimit max now draw]) -> clock_forward 0 ops ->
  exists outs s', run_orphans (ops ++ [OpLimit max now draw]) new_TxOrphanage = (Ok outs, s') /\ Z.of_nat (Size s') <= max /\
    forall k e, contents s' !! k = Some e -> exists received, OpAdd (kept e) (sender e) received ∈ ops /\ now < received + ORPHAN_TX_EXPIRE_TIME + ORPHAN_TX_EXPIRE_INTERVAL.
Proof using All.
  intros Hops Hc. destruct (run_refines _ _ new_orphanage_ok Hops) as (outs & s' & E & H' & Hr). exists outs, s'. split; [exact E|].
  destruct (spec_run_snoc _ _ _ _ _ Hr) as (outs1 & o & a1 & Hr1 & (_ & Hsub & Hsz & _)). split.
  - assert (Esz : size (txs (abstract s')) = Size s') by apply map_size_fmap. lia.
  - assert (H0' : timely (abstract new_TxOrphanage) [] 0) by (split; [discriminate|intros k e Ek; cbn in Ek; unfold contents in Ek; cbn in Ek; rewrite fmap_empty, lookup_empty in Ek; discriminate]).
    destruct (timely_run ops _ _ _ [] 0 H0' Hr1 Hc) as [last' [_ Ht]]. intros k e Ek. pose proof (lookup_weaken _ _ _ _ Ek Hsub) as Es. unfold swept_txs in Es. apply map_lookup_filter_Some in Es as [Es Hex].
    destruct (Ht k e Es) as (Hsw & received & Hin & Eu). exists received. split; [exact Hin|]. cbn in Hex. unfold ORPHAN_TX_EXPIRE_TIME, ORPHAN_TX_EXPIRE_INTERVAL in *.
    destruct (Z.le_gt_cases (sweep a1) now) as [Hd|Hd]; [specialize (Hex Hd)|]; lia.
Qed.
End Refinement.

(** ** A sample *)

(** Transactions with a txid, a witness, inputs and a number of outputs. *)
Record sample_tx : Type := { s_id : Z; s_witness : Z; s_inputs : list (Z * Z); s_outputs : nat }.

#[local] Instance sample_orphan_env : OrphanEnv sample_tx := {|
  GetTxid := fun t => [s_id t]; GetWtxid := fun t => [s_id t; s_witness t]; spends := fun t => map (fun p => ([fst p], snd p)) (s_inputs t); vout_size := s_outputs;
  size_no_witness := fun _ => 100; size_with_witness := fun _ => 120; MAX_STANDARD_TX_WEIGHT := 400000; by_address := elements |}.

#[local] Instance sample_orphan_laws : OrphanEnvLaws sample_tx.
Proof. split; [intros t1 t2 [= E _]; cbn; congruence|reflexivity]. Qed.

(** Two orphans of one parent, from two peers. *)
Definition parent : sample_tx := {| s_id := 1; s_witness := 0; s_inputs := []; s_outputs := 2 |}.
Definition child (id out : Z) : sample_tx := {| s_id := id; s_witness := 7; s_inputs := [(1, out); (9, id)]; s_outputs := 1 |}.

Definition sample_ops : list (@orphan_op sample_tx) :=
  [OpAdd (child 2 0) 5 1000; OpAdd (child 3 1) 6 1100; OpAdd (child 2 0) 6 1200; OpChildren parent; OpReconsider 6; OpEraseForPeer 6; OpReconsider 5].

Lemma sample_ops_ok : Forall op_ok sample_ops.
Proof. repeat constructor; discriminate. Qed.

Lemma orphanage_refines_witness : exists outs s', run_orphans sample_ops new_TxOrphanage = (Ok outs, s') /\ orphanage_ok s' /\
  outs = [OutBool true; OutBool true; OutBool false; OutUnit; OutTx (Some (child 3 1)); OutUnit; OutTx (Some (child 2 0))].
Proof.
  destruct (orphanage_refines sample_ops sample_ops_ok) as (outs & s' & E & H & _). exists outs, s'. split; [exact E|]. split; [exact H|].
  assert (F : match run_orphans sample_ops new_TxOrphanage with
    | (Ok o, _) => o = [OutBool true; OutBool true; OutBool false; OutUnit; OutTx (Some (child 3 1)); OutUnit; OutTx (Some (child 2 0))]
    | _ => False end) by (vm_compute; reflexivity).
  rewrite E in F. exact F.
Defined.

Lemma orphans_bounded_witness : exists outs s', run_orphans (sample_ops ++ [OpLimit 100 2300 (fun _ _ => 0%nat)]) new_TxOrphanage = (Ok outs, s') /\ Size s' = 0%nat.
Proof.
  destruct (orphans_bounded sample_ops 100 2300 (fun _ _ => 0%nat)) as (outs & s' & E & _).
  - apply Forall_app_2; [exact sample_ops_ok|]. constructor; [|constructor]. split; [discriminate|]. split; [split; [discriminate|reflexivity]|intros i n Hn; exact Hn].
  - repeat split; discriminate.
  - exists outs, s'. split; [exact E|]. assert (F : match run_orphans (sample_ops ++ [OpLimit 100 2300 (fun _ _ => 0%nat)]) new_TxOrphanage with (Ok _, x) => Size x = 0%nat | _ => False end) by (vm_compute; reflexivity).
    rewrite E in F. exact F.
Defined.
