(* ===== verification/TxRequest.v ===== *)
(** * Requests of transactions

    Models src/txrequest.cpp: [TxRequestTracker], which decides from which peer
    an announced transaction is asked for, and when.  The container that holds
    the announcements with its three sorted indexes is a
    [boost::multi_index_container]; it is the class [MultiIndex], with what
    its documentation promises as [MultiIndexLaws].  An iterator is the node it
    points at, in whichever index; [std::next] and [std::prev] read the index.
    Counters are of [size_t]; times are counts of microseconds. *)

From stdpp Require Import base numbers list gmap sorting strings.
From Stdlib Require Import ZArith Lia.
From S2P Require Import Prelude Params SipHash Orphanage.

Local Open Scope Z_scope.

Inductive ann_state : Type := CANDIDATE_DELAYED | CANDIDATE_READY | CANDIDATE_BEST | REQUESTED | COMPLETED.
#[global] Instance ann_state_eq_dec : EqDecision ann_state.
Proof. solve_decision. Defined.

(** The values of the enumeration order the index by txhash. *)
Definition state_value (s : ann_state) : Z :=
  match s with CANDIDATE_DELAYED => 0 | CANDIDATE_READY => 1 | CANDIDATE_BEST => 2 | REQUESTED => 3 | COMPLETED => 4 end.

Record Announcement : Type := {
  m_txhash : uint256;
  m_time : Z;
  m_peer : Z;
  m_sequence : Z;
  m_preferred : bool;
  m_is_wtxid : bool;
  m_state : ann_state;
}.

(** The constructor; [m_sequence] is a bit field of 59 bits. *)
Definition new_Announcement {GT : GenTxids} (gtxid : GenTxid) (peer : Z) (preferred : bool) (reqtime sequence : Z) : Announcement :=
  {| m_txhash := gtxid_hash gtxid; m_time := reqtime; m_peer := peer; m_sequence := uwrap 59 sequence; m_preferred := preferred;
     m_is_wtxid := IsWtxid gtxid; m_state := CANDIDATE_DELAYED |}.

Definition SetState (state : ann_state) (a : Announcement) : Announcement :=
  {| m_txhash := m_txhash a; m_time := m_time a; m_peer := m_peer a; m_sequence := m_sequence a; m_preferred := m_preferred a;
     m_is_wtxid := m_is_wtxid a; m_state := state |}.
Definition SetTime (time : Z) (a : Announcement) : Announcement :=
  {| m_txhash := m_txhash a; m_time := time; m_peer := m_peer a; m_sequence := m_sequence a; m_preferred := m_preferred a;
     m_is_wtxid := m_is_wtxid a; m_state := m_state a |}.

Definition is_state (st : ann_state) (a : Announcement) : bool := bool_decide (m_state a = st).
Definition IsSelected (a : Announcement) : bool := (is_state CANDIDATE_BEST a || is_state REQUESTED a)%bool.
Definition IsWaiting (a : Announcement) : bool := (is_state REQUESTED a || is_state CANDIDATE_DELAYED a)%bool.
Definition IsSelectable (a : Announcement) : bool := (is_state CANDIDATE_READY a || is_state CANDIDATE_BEST a)%bool.

Definition ToGenTxid {GT : GenTxids} (a : Announcement) : GenTxid := if m_is_wtxid a then GenTxid_Wtxid (m_txhash a) else GenTxid_Txid (m_txhash a).

(** [PriorityComputer::operator()]: the upper bit is preferredness. *)
Definition PriorityComputer (k0 k1 : Z) (txhash : uint256) (peer : Z) (preferred : bool) : res Z :=
  h ← Write64 (u64 peer) (WriteSpan txhash (new_CSipHasher k0 k1));
  let low_bits := Z.shiftr (SipHasher_Finalize h) 1 in
  Ok (Z.lor low_bits (u64 (Z.shiftl (if preferred then 1 else 0) 63))).

(** ** The three orders *)

Definition then_compare (c d : comparison) : comparison := match c with Eq => d | _ => c end.
Definition bool_compare (a b : bool) : comparison := match a, b with false, true => Lt | true, false => Gt | _, _ => Eq end.

Notation ByPeerView := (Z * bool * uint256)%type.
Definition peer_view (a : Announcement) : ByPeerView := (m_peer a, is_state CANDIDATE_BEST a, m_txhash a).
Definition peer_compare (x y : ByPeerView) : comparison :=
  then_compare (fst (fst x) ?= fst (fst y)) (then_compare (bool_compare (snd (fst x)) (snd (fst y))) (Compare (snd x) (snd y))).

Notation ByTxHashView := (uint256 * ann_state * Z)%type.
Definition txhash_compare (x y : ByTxHashView) : comparison :=
  then_compare (Compare (fst (fst x)) (fst (fst y))) (then_compare (state_value (snd (fst x)) ?= state_value (snd (fst y))) (snd x ?= snd y)).

(** [WaitState]: [FUTURE_EVENT], [NO_EVENT], [PAST_EVENT]. *)
Definition GetWaitState (a : Announcement) : Z := if IsWaiting a then 0 else if IsSelectable a then 2 else 1.
Notation ByTimeView := (Z * Z)%type.
Definition time_view (a : Announcement) : ByTimeView := (GetWaitState a, m_time a).
Definition time_compare (x y : ByTimeView) : comparison := then_compare (fst x ?= fst y) (snd x ?= snd y).

Section Views.
Context (m_computer : uint256 -> Z -> bool -> Z).

Definition computer (a : Announcement) : Z := m_computer (m_txhash a) (m_peer a) (m_preferred a).

Definition txhash_view (a : Announcement) : ByTxHashView :=
  (m_txhash a, m_state a, if is_state CANDIDATE_READY a then computer a else 0).
End Views.

(** ** The container *)

Class MultiIndex (Index : Type) : Type := {
  nodes : Index -> gmap nat Announcement;
  ByPeer : Index -> list nat;
  ByTxHash : Index -> list nat;
  ByTime : Index -> list nat;
  index_empty : Index;
  index_emplace : Announcement -> Index -> option (nat * Index);
  index_erase : nat -> Index -> Index;
  index_modify : nat -> (Announcement -> Announcement) -> Index -> Index;
}.

(** An index lists every node once, in the order of its keys. *)
Definition lists_in_order {K : Type} (compare : K -> K -> comparison) (key : Announcement -> K) (m : gmap nat Announcement) (l : list nat) : Prop :=
  NoDup l /\ (forall x, x ∈ l <-> is_Some (m !! x)) /\
  (forall i j x y a b, (i < j)%nat -> l !! i = Some x -> l !! j = Some y -> m !! x = Some a -> m !! y = Some b -> compare (key a) (key b) <> Gt).

(** What the documentation of the container promises: sorted indexes; the
    index by peer refuses a second equal key; [modify] and [erase] touch the
    one element, and [erase] leaves the others in their order. *)
Class MultiIndexLaws (Index : Type) (m_computer : uint256 -> Z -> bool -> Z) `{MultiIndex Index} : Prop := {
  by_peer_sorted i : lists_in_order peer_compare peer_view (nodes i) (ByPeer i);
  by_txhash_sorted i : lists_in_order txhash_compare (txhash_view m_computer) (nodes i) (ByTxHash i);
  by_time_sorted i : lists_in_order time_compare time_view (nodes i) (ByTime i);
  nodes_empty : nodes index_empty = ∅;
  nodes_emplace a i : match index_emplace a i with
    | Some (it, i') => nodes i !! it = None /\ nodes i' = <[it := a]> (nodes i) /\ (forall y b, nodes i !! y = Some b -> peer_view b <> peer_view a)
    | None => exists y b, nodes i !! y = Some b /\ peer_view b = peer_view a
    end;
  nodes_erase it i : nodes (index_erase it i) = delete it (nodes i);
  order_erase it i : ByTxHash (index_erase it i) = filter (fun x => x <> it) (ByTxHash i);
  nodes_modify it f i a : nodes i !! it = Some a -> (forall y b, y <> it -> nodes i !! y = Some b -> peer_view b <> peer_view (f a)) ->
    nodes (index_modify it f i) = <[it := f a]> (nodes i);
}.

(** [std::next] and [std::prev] of a node in an index. *)
Fixpoint next_in (l : list nat) (it : nat) : option nat :=
  match l with
  | x :: (y :: _) as rest => if decide (x = it) then Some y else next_in rest it
  | _ => None
  end.
Fixpoint prev_in (l : list nat) (it : nat) : option nat :=
  match l with
  | x :: (y :: _) as rest => if decide (y = it) then Some x else prev_in rest it
  | _ => None
  end.

Record PeerInfo : Type := { m_total : Z; m_completed : Z; m_requested : Z }.
#[global] Instance PeerInfo_eq_dec : EqDecision PeerInfo.
Proof. solve_decision. Defined.

Definition no_announcements : PeerInfo := {| m_total := 0; m_completed := 0; m_requested := 0 |}.

(** [size_t] and a comparison that counts as 0 or 1. *)
Definition count_if (b : bool) : Z := if b then 1 else 0.

Record tracker (Index : Type) : Type := { m_current_sequence : Z; m_index : Index; m_peerinfo : gmap Z PeerInfo }.
Arguments m_current_sequence {Index} _.
Arguments m_index {Index} _.
Arguments m_peerinfo {Index} _.

Section TxRequest.
Context {GT : GenTxids} {Index : Type} `{MultiIndex Index} (m_computer : uint256 -> Z -> bool -> Z).
Notation track := (stm (tracker Index)).

Definition new_tracker : tracker Index := {| m_current_sequence := 0; m_index := index_empty; m_peerinfo := ∅ |}.

Definition set_index (f : Index -> Index) (s : tracker Index) : tracker Index :=
  {| m_current_sequence := m_current_sequence s; m_index := f (m_index s); m_peerinfo := m_peerinfo s |}.
Definition set_peerinfo (f : gmap Z PeerInfo -> gmap Z PeerInfo) (s : tracker Index) : tracker Index :=
  {| m_current_sequence := m_current_sequence s; m_index := m_index s; m_peerinfo := f (m_peerinfo s) |}.
Definition next_sequence (s : tracker Index) : tracker Index :=
  {| m_current_sequence := u64 (m_current_sequence s + 1); m_index := m_index s; m_peerinfo := m_peerinfo s |}.

(** [*it]. *)
Definition ann_at (it : nat) : track Announcement := s ← get_st; lift_st (access (nodes (m_index s) !! it)).

(** ** Consistency checks *)

(** The announcements, in the order of the first index. *)
Definition announcements (i : Index) : list Announcement := omap (fun it => nodes i !! it) (ByPeer i).

Definition count_peer (ret : gmap Z PeerInfo) (a : Announcement) : gmap Z PeerInfo :=
  let info := default no_announcements (ret !! m_peer a) in
  <[m_peer a := {| m_total := u64 (m_total info + 1); m_completed := u64 (m_completed info + count_if (is_state COMPLETED a));
                   m_requested := u64 (m_requested info + count_if (is_state REQUESTED a)) |}]> ret.

Definition RecomputePeerInfo (i : Index) : gmap Z PeerInfo := fold_left count_peer (announcements i) ∅.

Record TxHashInfo : Type := {
  m_candidate_delayed : Z;
  m_candidate_ready : Z;
  m_candidate_best : Z;
  m_info_requested : Z;
  m_priority_candidate_best : Z;
  m_priority_best_candidate_ready : Z;
  m_peers : list Z;
}.

Definition new_TxHashInfo : TxHashInfo :=
  {| m_candidate_delayed := 0; m_candidate_ready := 0; m_candidate_best := 0; m_info_requested := 0; m_priority_candidate_best := 2 ^ 64 - 1;
     m_priority_best_candidate_ready := 0; m_peers := [] |}.

Definition add_info (info : TxHashInfo) (a : Announcement) : TxHashInfo :=
  {| m_candidate_delayed := u64 (m_candidate_delayed info + count_if (is_state CANDIDATE_DELAYED a));
     m_candidate_ready := u64 (m_candidate_ready info + count_if (is_state CANDIDATE_READY a));
     m_candidate_best := u64 (m_candidate_best info + count_if (is_state CANDIDATE_BEST a));
     m_info_requested := u64 (m_info_requested info + count_if (is_state REQUESTED a));
     m_priority_candidate_best := if is_state CANDIDATE_BEST a then computer m_computer a else m_priority_candidate_best info;
     m_priority_best_candidate_ready := if is_state CANDIDATE_READY a then Z.max (m_priority_best_candidate_ready info) (computer m_computer a) else m_priority_best_candidate_ready info;
     m_peers := m_peers info ++ [m_peer a] |}.

Definition count_txhash (ret : gmap uint256 TxHashInfo) (a : Announcement) : gmap uint256 TxHashInfo :=
  <[m_txhash a := add_info (default new_TxHashInfo (ret !! m_txhash a)) a]> ret.

Definition ComputeTxHashInfo (i : Index) : gmap uint256 TxHashInfo := fold_left count_txhash (announcements i) ∅.

(** [std::adjacent_find] finds two equal neighbours. *)
Fixpoint adjacent_equal (l : list Z) : bool :=
  match l with x :: ((y :: _) as rest) => ((x =? y) || adjacent_equal rest)%bool | _ => false end.

Definition check_txhash (info : TxHashInfo) : res unit :=
  _ ← assert_ (u64 (m_candidate_delayed info + m_candidate_ready info + m_candidate_best info + m_info_requested info) >? 0);
  _ ← assert_ (u64 (m_candidate_best info + m_info_requested info) <=? 1);
  _ ← assert_ (negb (m_candidate_ready info >? 0) || (u64 (m_candidate_best info + m_info_requested info) =? 1));
  _ ← assert_ (negb (negb (m_candidate_ready info =? 0) && negb (m_candidate_best info =? 0)) || (m_priority_candidate_best info >=? m_priority_best_candidate_ready info));
  assert_ (negb (adjacent_equal (merge_sort Z.le (m_peers info)))).

Fixpoint check_all (infos : list (uint256 * TxHashInfo)) : res unit :=
  match infos with [] => Ok tt | item :: rest => _ ← check_txhash (snd item); check_all rest end.

Definition TxRequest_SanityCheck (s : tracker Index) : res unit :=
  _ ← assert_ (bool_decide (m_peerinfo s = RecomputePeerInfo (m_index s)));
  check_all (map_to_list (ComputeTxHashInfo (m_index s))).

Fixpoint check_times (now : Z) (anns : list Announcement) : res unit :=
  match anns with
  | [] => Ok tt
  | a :: rest =>
      _ ← (if IsWaiting a then assert_ (m_time a >? now) else if IsSelectable a then assert_ (m_time a <=? now) else Ok tt);
      check_times now rest
  end.

Definition PostGetRequestableSanityCheck (now : Z) (s : tracker Index) : res unit := check_times now (announcements (m_index s)).

(** ** The wrappers of the container *)

(** [m_peerinfo.find(peer)], dereferenced. *)
Definition peer_at (peer : Z) : track PeerInfo := s ← get_st; lift_st (access (m_peerinfo s !! peer)).

(** Takes an announcement off the counters but [m_total]. *)
Definition uncount (a : Announcement) (info : PeerInfo) : PeerInfo :=
  {| m_total := m_total info; m_completed := u64 (m_completed info - count_if (is_state COMPLETED a)); m_requested := u64 (m_requested info - count_if (is_state REQUESTED a)) |}.
Definition recount (a : Announcement) (info : PeerInfo) : PeerInfo :=
  {| m_total := m_total info; m_completed := u64 (m_completed info + count_if (is_state COMPLETED a)); m_requested := u64 (m_requested info + count_if (is_state REQUESTED a)) |}.
Definition drop_one (info : PeerInfo) : PeerInfo :=
  {| m_total := u64 (m_total info - 1); m_completed := m_completed info; m_requested := m_requested info |}.

(** [Erase<Tag>]; the iterator it returns is the next in the index [view]. *)
Definition TxRequest_Erase (view : Index -> list nat) (it : nat) : track (option nat) :=
  a ← ann_at it;
  info ← peer_at (m_peer a);
  let info := drop_one (uncount a info) in
  _ ← modify_st (set_peerinfo (if m_total info =? 0 then delete (m_peer a) else <[m_peer a := info]>));
  s ← get_st;
  let it_next := next_in (view (m_index s)) it in
  _ ← modify_st (set_index (index_erase it));
  mret it_next.

Definition Modify (it : nat) (modifier : Announcement -> Announcement) : track unit :=
  a ← ann_at it;
  info ← peer_at (m_peer a);
  _ ← modify_st (set_peerinfo <[m_peer a := uncount a info]>);
  _ ← modify_st (set_index (index_modify it modifier));
  a' ← ann_at it;
  modify_st (set_peerinfo <[m_peer a := recount a' (uncount a info)]>).

(** ** Steps *)

(** Reads an iterator that may be the end. *)
Definition ann_opt (it : option nat) : track (option Announcement) :=
  match it with None => mret None | Some it => a ← ann_at it; mret (Some a) end.

Definition PromoteCandidateReady (it : nat) : track unit :=
  a ← ann_at it;
  _ ← lift_st (assert_ (is_state CANDIDATE_DELAYED a));
  _ ← Modify it (SetState CANDIDATE_READY);
  s ← get_st;
  let it_next := next_in (ByTxHash (m_index s)) it in
  a ← ann_at it;
  next ← ann_opt it_next;
  match it_next, next with
  | Some it_next, Some b =>
      if (negb (bool_decide (m_txhash b = m_txhash a)) || is_state COMPLETED b)%bool then Modify it (SetState CANDIDATE_BEST)
      else if is_state CANDIDATE_BEST b then
        if computer m_computer a >? computer m_computer b then
          _ ← Modify it_next (SetState CANDIDATE_READY);
          Modify it (SetState CANDIDATE_BEST)
        else mret tt
      else mret tt
  | _, _ => Modify it (SetState CANDIDATE_BEST)
  end.

Definition ChangeAndReselect (it : nat) (new_state : ann_state) : track unit :=
  _ ← lift_st (assert_ (bool_decide (new_state = COMPLETED) || bool_decide (new_state = CANDIDATE_DELAYED)));
  a ← ann_at it;
  s ← get_st;
  let it_prev := prev_in (ByTxHash (m_index s)) it in
  prev ← ann_opt it_prev;
  _ ← (match it_prev, prev with
       | Some it_prev, Some b =>
           if (IsSelected a && bool_decide (m_txhash b = m_txhash a) && is_state CANDIDATE_READY b)%bool then Modify it_prev (SetState CANDIDATE_BEST) else mret tt
       | _, _ => mret tt
       end);
  Modify it (SetState new_state).

Definition IsOnlyNonCompleted (it : nat) : track bool :=
  a ← ann_at it;
  _ ← lift_st (assert_ (negb (is_state COMPLETED a)));
  s ← get_st;
  prev ← ann_opt (prev_in (ByTxHash (m_index s)) it);
  next ← ann_opt (next_in (ByTxHash (m_index s)) it);
  if match prev with Some b => bool_decide (m_txhash b = m_txhash a) | None => false end then mret false
  else if match next with Some b => (bool_decide (m_txhash b = m_txhash a) && negb (is_state COMPLETED b))%bool | None => false end then mret false
  else mret true.

(** [do it = Erase<ByTxHash>(it); while (it != end && it->m_txhash == txhash)]. *)
Fixpoint erase_hash (fuel : nat) (txhash : uint256) (it : nat) : track unit :=
  it_next ← TxRequest_Erase ByTxHash it;
  next ← ann_opt it_next;
  match it_next, next with
  | Some it_next, Some b =>
      if bool_decide (m_txhash b = txhash) then match fuel with O => fail_st OutOfFuel | S fuel => erase_hash fuel txhash it_next end
      else mret tt
  | _, _ => mret tt
  end.

(** Every turn erases a node, so their number is fuel enough, here and below. *)
Definition MakeCompleted (it : nat) : track bool :=
  a ← ann_at it;
  if is_state COMPLETED a then mret true
  else
    only ← IsOnlyNonCompleted it;
    match only with
    | true =>
        s ← get_st;
        _ ← erase_hash (size (nodes (m_index s))) (m_txhash a) it;
        mret false
    | false =>
        _ ← ChangeAndReselect it COMPLETED;
        mret true
    end.

Fixpoint time_forward (fuel : nat) (now : Z) (expired : list (Z * GenTxid)) : track (list (Z * GenTxid)) :=
  s ← get_st;
  match ByTime (m_index s) with
  | [] => mret expired
  | it :: _ =>
      a ← ann_at it;
      if (is_state CANDIDATE_DELAYED a && (m_time a <=? now))%bool then
        match fuel with O => fail_st OutOfFuel | S fuel => _ ← PromoteCandidateReady it; time_forward fuel now expired end
      else if (is_state REQUESTED a && (m_time a <=? now))%bool then
        match fuel with O => fail_st OutOfFuel | S fuel => _ ← MakeCompleted it; time_forward fuel now (expired ++ [(m_peer a, ToGenTxid a)]) end
      else mret expired
  end.

Fixpoint time_backward (fuel : nat) (now : Z) : track unit :=
  s ← get_st;
  match last (ByTime (m_index s)) with
  | None => mret tt
  | Some it =>
      a ← ann_at it;
      if (IsSelectable a && (m_time a >? now))%bool then
        match fuel with O => fail_st OutOfFuel | S fuel => _ ← ChangeAndReselect it CANDIDATE_DELAYED; time_backward fuel now end
      else mret tt
  end.

Definition SetTimePoint (now : Z) : track (list (Z * GenTxid)) :=
  s ← get_st;
  expired ← time_forward (size (nodes (m_index s))) now [];
  s ← get_st;
  _ ← time_backward (size (nodes (m_index s))) now;
  mret expired.

(** ** The operations *)

(** The nodes of an index from the first that is not below a key. *)
Definition from_key {K : Type} (compare : K -> K -> comparison) (key : Announcement -> K) (i : Index) (view : Index -> list nat) (k : K) : list nat :=
  filter (fun it => match nodes i !! it with Some a => negb (bool_decide (compare (key a) k = Lt)) | None => false end = true) (view i).

(** [index_lower_bound] of a key. *)
Definition index_lower_bound {K : Type} (compare : K -> K -> comparison) (key : Announcement -> K) (i : Index) (view : Index -> list nat) (k : K) : option nat :=
  head (from_key compare key i view k).

(** [find] in the index by peer. *)
Definition find_peer (i : Index) (k : ByPeerView) : option nat :=
  head (filter (fun it => match nodes i !! it with Some a => bool_decide (peer_view a = k) | None => false end = true) (ByPeer i)).

Definition ZERO : uint256 := repeat 0 32.

Fixpoint peer_erase_loop (fuel : nat) (peer : Z) (it : option nat) : track unit :=
  match it with
  | None => mret tt
  | Some it =>
      a ← ann_at it;
      if negb (m_peer a =? peer) then mret tt
      else
        match fuel with
        | O => fail_st OutOfFuel
        | S fuel =>
            s ← get_st;
            let after := next_in (ByPeer (m_index s)) it in
            b ← ann_opt after;
            let it_next := match b with Some b => if m_peer b =? peer then after else None | None => None end in
            exists_still ← MakeCompleted it;
            _ ← (match exists_still with true => _ ← TxRequest_Erase ByPeer it; mret tt | false => mret tt end);
            peer_erase_loop fuel peer it_next
        end
  end.

Definition DisconnectedPeer (peer : Z) : track unit :=
  s ← get_st;
  peer_erase_loop (size (nodes (m_index s))) peer (index_lower_bound peer_compare peer_view (m_index s) ByPeer (peer, false, ZERO)).

Definition ForgetTxHash (txhash : uint256) : track unit :=
  s ← get_st;
  let it := index_lower_bound txhash_compare (txhash_view m_computer) (m_index s) ByTxHash (txhash, CANDIDATE_DELAYED, 0) in
  a ← ann_opt it;
  match it, a with
  | Some it, Some a => if bool_decide (m_txhash a = txhash) then erase_hash (size (nodes (m_index s))) txhash it else mret tt
  | _, _ => mret tt
  end.

Definition ReceivedInv (peer : Z) (gtxid : GenTxid) (preferred : bool) (reqtime : Z) : track unit :=
  s ← get_st;
  match find_peer (m_index s) (peer, true, gtxid_hash gtxid) with
  | Some _ => mret tt
  | None =>
      match index_emplace (new_Announcement gtxid peer preferred reqtime (m_current_sequence s)) (m_index s) with
      | None => mret tt
      | Some (_, i) =>
          _ ← modify_st (set_index (fun _ => i));
          let info := default no_announcements (m_peerinfo s !! peer) in
          _ ← modify_st (set_peerinfo <[peer := {| m_total := u64 (m_total info + 1); m_completed := m_completed info; m_requested := m_requested info |}]>);
          modify_st next_sequence
      end
  end.

(** The walk over the best candidates of a peer. *)
Fixpoint best_of_peer (i : Index) (peer : Z) (its : list nat) : list Announcement :=
  match its with
  | [] => []
  | it :: rest =>
      match nodes i !! it with
      | Some a => if ((m_peer a =? peer) && is_state CANDIDATE_BEST a)%bool then a :: best_of_peer i peer rest else []
      | None => []
      end
  end.

Definition by_sequence (a b : Announcement) : Prop := m_sequence a <= m_sequence b.
#[global] Instance by_sequence_dec : RelDecision by_sequence := fun a b => decide (m_sequence a <= m_sequence b).

Definition GetRequestable (peer now : Z) : track (list GenTxid * list (Z * GenTxid)) :=
  expired ← SetTimePoint now;
  s ← get_st;
  let i := m_index s in
  let selected := merge_sort by_sequence (best_of_peer i peer (from_key peer_compare peer_view i ByPeer (peer, true, ZERO))) in
  mret (map ToGenTxid selected, expired).

Definition RequestedTx (peer : Z) (txhash : uint256) (expiry : Z) : track unit :=
  let request (it : nat) : track unit := Modify it (fun a => SetTime expiry (SetState REQUESTED a)) in
  s ← get_st;
  match find_peer (m_index s) (peer, true, txhash) with
  | Some it => request it
  | None =>
      match find_peer (m_index s) (peer, false, txhash) with
      | None => mret tt
      | Some it =>
          a ← ann_at it;
          if (negb (is_state CANDIDATE_DELAYED a) && negb (is_state CANDIDATE_READY a))%bool then mret tt
          else
            let it_old := index_lower_bound txhash_compare (txhash_view m_computer) (m_index s) ByTxHash (txhash, CANDIDATE_BEST, 0) in
            old ← ann_opt it_old;
            _ ← (match it_old, old with
                 | Some it_old, Some b =>
                     if bool_decide (m_txhash b = txhash) then
                       if is_state CANDIDATE_BEST b then Modify it_old (SetState CANDIDATE_READY)
                       else if is_state REQUESTED b then Modify it_old (SetState COMPLETED)
                       else mret tt
                     else mret tt
                 | _, _ => mret tt
                 end);
            request it
      end
  end.

Definition ReceivedResponse (peer : Z) (txhash : uint256) : track unit :=
  s ← get_st;
  let it := match find_peer (m_index s) (peer, false, txhash) with Some it => Some it | None => find_peer (m_index s) (peer, true, txhash) end in
  match it with None => mret tt | Some it => _ ← MakeCompleted it; mret tt end.

Definition CountInFlight (peer : Z) (s : tracker Index) : Z := match m_peerinfo s !! peer with Some info => m_requested info | None => 0 end.
Definition CountCandidates (peer : Z) (s : tracker Index) : Z :=
  match m_peerinfo s !! peer with Some info => u64 (m_total info - m_requested info - m_completed info) | None => 0 end.
Definition Count (peer : Z) (s : tracker Index) : Z := match m_peerinfo s !! peer with Some info => m_total info | None => 0 end.
Definition TxRequest_Size (s : tracker Index) : nat := size (nodes (m_index s)).
Definition ComputePriority (txhash : uint256) (peer : Z) (preferred : bool) : Z := m_computer txhash peer preferred.
End TxRequest.
