(* ===== verification/TxRequestProofs.v ===== *)
(** * The tracker's container and the choice of a peer

    Positions in a sorted index and the wrappers that keep the counters exact;
    then the invariant of the selection and the steps that keep it. *)

From stdpp Require Import base numbers list gmap sorting strings.
From Stdlib Require Import ZArith Lia.
From S2P Require Import Prelude Compact Params SipHash Orphanage OrphanageRefinement TxRequest.

Local Open Scope Z_scope.

(** * The tracker's container

    Positions in a sorted index and what they say of the announcements, the
    counters of the peers, and the wrappers [TxRequest_Erase] and [Modify]: they return
    and keep the counters exact ([wf]). *)

(** ** Positions *)

Lemma next_in_spec l it i : NoDup l -> l !! i = Some it -> next_in l it = l !! S i.
Proof.
  revert i. induction l as [|x l IH]; intros i Hnd Hi; [discriminate|]. apply NoDup_cons in Hnd as [Hx Hnd]. destruct l as [|y l].
  - destruct i; [reflexivity|destruct i; discriminate].
  - cbn [next_in]. destruct i as [|i]; [injection Hi as ->; rewrite decide_True by reflexivity; reflexivity|]. cbn in Hi.
    rewrite decide_False; [exact (IH i Hnd Hi)|]. intros ->. apply Hx. apply (list_elem_of_lookup_2 _ _ _ Hi).
Qed.

Lemma prev_in_spec l it i : NoDup l -> l !! i = Some it -> prev_in l it = match i with O => None | S j => l !! j end.
Proof.
  revert i. induction l as [|x l IH]; intros i Hnd Hi; [discriminate|]. apply NoDup_cons in Hnd as [Hx Hnd]. destruct l as [|y l]; [destruct i; [reflexivity|destruct i; discriminate]|].
  cbn [prev_in]. destruct i as [|i]; cbn in Hi.
  - injection Hi as ->. rewrite decide_False by (intros ->; apply Hx; left). assert (G : forall l', it ∉ l' -> prev_in l' it = None).
    { induction l' as [|u [|w l'] IH']; cbn; try reflexivity. intros Hn. rewrite decide_False by (intros ->; apply Hn; right; left). apply IH'. intros Hin. apply Hn. right. exact Hin. }
    exact (G (y :: l) Hx).
  - destruct (decide (y = it)) as [->|Hne].
    + destruct i as [|i]; [reflexivity|]. apply NoDup_cons in Hnd as [Hy _]. cbn in Hi. apply list_elem_of_lookup_2 in Hi. contradiction.
    + destruct i as [|i]; [injection Hi as ->; contradiction|]. exact (IH (S i) Hnd Hi).
Qed.

(** What the neighbours of a node in a sorted index say of all others. *)
Section Order.
Context {K : Type} (compare : K -> K -> comparison) (key : Announcement -> K) (m : gmap nat Announcement) (l : list nat) (Hl : lists_in_order compare key m l).

Definition below (a b : Announcement) : Prop := compare (key a) (key b) <> Gt.

(** Comes before in the index. *)
Definition precedes (x y : nat) : Prop := exists i j, (i < j)%nat /\ l !! i = Some x /\ l !! j = Some y.

Lemma precedes_asym x y : precedes x y -> precedes y x -> False.
Proof using Hl.
  intros (i & j & Hij & Ei & Ej) (j' & i' & Hji & Ej' & Ei'). destruct Hl as (Hnd & _). pose proof (NoDup_lookup _ _ _ _ Hnd Ei Ei'). pose proof (NoDup_lookup _ _ _ _ Hnd Ej Ej'). lia.
Qed.

Lemma position x a : m !! x = Some a -> exists i, l !! i = Some x.
Proof using Hl. intros E. destruct Hl as (_ & Hin & _). apply list_elem_of_lookup, Hin. eauto. Qed.

Lemma at_position i x : l !! i = Some x -> exists a, m !! x = Some a.
Proof using Hl. intros E. destruct Hl as (_ & Hin & _). apply Hin. apply (list_elem_of_lookup_2 _ _ _ E). Qed.

Lemma order_next it a : m !! it = Some a -> match next_in l it with
  | None => forall y b, m !! y = Some b -> y <> it -> precedes y it /\ below b a
  | Some n => exists c, m !! n = Some c /\ n <> it /\ precedes it n /\ below a c /\
      forall y b, m !! y = Some b -> y <> it -> y <> n -> (precedes y it /\ below b a) \/ (precedes n y /\ below c b)
  end.
Proof using Hl.
  intros Ea. destruct (position it a Ea) as [i Ei]. pose proof Hl as (Hnd & _ & Hso). rewrite (next_in_spec l it i Hnd Ei). destruct (l !! S i) as [n|] eqn:En.
  - destruct (at_position _ _ En) as [c Ec]. exists c. split; [exact Ec|]. split; [intros ->; pose proof (NoDup_lookup _ _ _ _ Hnd Ei En); lia|].
    split; [exists i, (S i); auto|]. split; [exact (Hso i (S i) it n a c ltac:(lia) Ei En Ea Ec)|].
    intros y b Eb Hy1 Hy2. destruct (position y b Eb) as [j Ej]. destruct (Nat.lt_trichotomy j i) as [Hj|[->|Hj]]; [left; split; [exists j, i; auto|exact (Hso j i y it b a Hj Ej Ei Eb Ea)]|congruence|].
    right. destruct (Nat.eq_dec j (S i)) as [->|Hj2]; [congruence|]. split; [exists (S i), j; split; [lia|auto]|exact (Hso (S i) j n y c b ltac:(lia) En Ej Ec Eb)].
  - intros y b Eb Hy. destruct (position y b Eb) as [j Ej]. apply lookup_ge_None in En. pose proof (lookup_lt_Some _ _ _ Ej).
    destruct (Nat.lt_trichotomy j i) as [Hj|[->|Hj]]; [split; [exists j, i; auto|exact (Hso j i y it b a Hj Ej Ei Eb Ea)]|congruence|lia].
Qed.

Lemma order_prev it a : m !! it = Some a -> match prev_in l it with
  | None => forall y b, m !! y = Some b -> y <> it -> precedes it y /\ below a b
  | Some n => exists c, m !! n = Some c /\ n <> it /\ precedes n it /\ below c a /\
      forall y b, m !! y = Some b -> y <> it -> y <> n -> (precedes y n /\ below b c) \/ (precedes it y /\ below a b)
  end.
Proof using Hl.
  intros Ea. destruct (position it a Ea) as [i Ei]. pose proof Hl as (Hnd & _ & Hso). rewrite (prev_in_spec l it i Hnd Ei). destruct i as [|i].
  - intros y b Eb Hy. destruct (position y b Eb) as [j Ej]. destruct j as [|j]; [congruence|]. split; [exists 0%nat, (S j); split; [lia|auto]|exact (Hso 0%nat (S j) it y a b ltac:(lia) Ei Ej Ea Eb)].
  - destruct (l !! i) as [n|] eqn:En; [|apply lookup_ge_None in En; apply lookup_lt_Some in Ei; lia]. destruct (at_position _ _ En) as [c Ec].
    exists c. split; [exact Ec|]. split; [intros ->; pose proof (NoDup_lookup _ _ _ _ Hnd Ei En); lia|]. split; [exists i, (S i); auto|]. split; [exact (Hso i (S i) n it c a ltac:(lia) En Ei Ec Ea)|].
    intros y b Eb Hy1 Hy2. destruct (position y b Eb) as [j Ej]. destruct (Nat.lt_trichotomy j (S i)) as [Hj|[->|Hj]]; [|congruence|right; split; [exists (S i), j; auto|exact (Hso (S i) j it y a b Hj Ei Ej Ea Eb)]].
    left. destruct (Nat.eq_dec j i) as [->|Hj2]; [congruence|]. split; [exists j, i; split; [lia|auto]|exact (Hso j i y n b c ltac:(lia) Ej En Eb Ec)].
Qed.

Lemma order_head n rest : l = n :: rest -> exists c, m !! n = Some c /\ forall y b, m !! y = Some b -> y <> n -> below c b.
Proof using Hl.
  intros El. assert (En : l !! 0%nat = Some n) by (rewrite El; reflexivity). destruct (at_position _ _ En) as [c Ec]. exists c. split; [exact Ec|]. intros y b Eb Hy.
  destruct (position y b Eb) as [[|j] Ej]; [congruence|]. destruct Hl as (_ & _ & Hso). exact (Hso 0%nat (S j) n y c b ltac:(lia) En Ej Ec Eb).
Qed.

Lemma order_last n : last l = Some n -> exists c, m !! n = Some c /\ forall y b, m !! y = Some b -> y <> n -> below b c.
Proof using Hl.
  intros El. rewrite last_lookup in El. destruct (at_position _ _ El) as [c Ec]. exists c. split; [exact Ec|]. intros y b Eb Hy.
  destruct (position y b Eb) as [j Ej]. pose proof (lookup_lt_Some _ _ _ Ej). destruct (Nat.eq_dec j (pred (length l))) as [->|Hj]; [congruence|].
  destruct Hl as (_ & _ & Hso). exact (Hso j (pred (length l)) y n b c ltac:(lia) Ej El Eb Ec).
Qed.

(** The first node of a sorted index that satisfies a test. *)
Lemma order_first (P : nat -> Prop) `{!forall x, Decision (P x)} : match head (filter P l) with
  | None => forall y b, m !! y = Some b -> ~ P y
  | Some n => exists c, m !! n = Some c /\ P n /\ forall y b, m !! y = Some b -> y <> n -> ~ P y \/ (precedes n y /\ below c b)
  end.
Proof using Hl.
  destruct (filter P l) as [|n r] eqn:Ef; cbn.
  - intros y b Eb Hp. destruct Hl as (_ & Hin & _). assert (Hy : y ∈ filter P l) by (apply list_elem_of_filter; split; [exact Hp|apply Hin; eauto]). rewrite Ef in Hy. apply not_elem_of_nil in Hy. exact Hy.
  - assert (Hn : n ∈ filter P l) by (rewrite Ef; left). apply list_elem_of_filter in Hn as [Hp Hn]. destruct Hl as (Hnd & Hin & Hso). destruct (proj1 (Hin n) Hn) as [c Ec]. exists c. split; [exact Ec|]. split; [exact Hp|].
    intros y b Eb Hy. destruct (decide (P y)) as [Hpy|Hpy]; [right|left; exact Hpy]. destruct (position y b Eb) as [j Ej]. apply list_elem_of_lookup in Hn as [i Ei].
    destruct (Nat.lt_trichotomy i j) as [Hij|[->|Hij]]; [split; [exists i, j; auto|exact (Hso i j n y c b Hij Ei Ej Ec Eb)]|congruence|]. exfalso.
    rewrite <- (take_drop i l), filter_app in Ef. assert (Hy' : y ∈ filter P (take i l)) by (apply list_elem_of_filter; split; [exact Hpy|]; apply list_elem_of_lookup; exists j; rewrite lookup_take_lt by exact Hij; exact Ej).
    destruct (filter P (take i l)) as [|n' r'] eqn:Et; [apply not_elem_of_nil in Hy'; exact Hy'|]. cbn in Ef. injection Ef as -> _.
    assert (Hn' : n ∈ filter P (take i l)) by (rewrite Et; left). apply list_elem_of_filter in Hn' as [_ Hn']. apply list_elem_of_lookup in Hn' as [k Ek].
    assert (k < i)%nat by (apply lookup_lt_Some in Ek; rewrite length_take in Ek; lia). rewrite lookup_take_lt in Ek by assumption. pose proof (NoDup_lookup _ _ _ _ Hnd Ei Ek). lia.
Qed.
End Order.

(** ** The orders, unpacked *)

Lemma Compare_refl a : Compare a a = Eq.
Proof. induction a as [|x a IH]; cbn; [reflexivity|]. rewrite Z.compare_refl. exact IH. Qed.

Section Views.
Context (m_computer : uint256 -> Z -> bool -> Z).
Notation prio := (computer m_computer).

Definition rank (a : Announcement) : Z := state_value (m_state a).
Definition key_prio (a : Announcement) : Z := if is_state CANDIDATE_READY a then prio a else 0.

Notation le_txhash := (below txhash_compare (txhash_view m_computer)).

Lemma le_txhash_hash a b : le_txhash a b -> hash_le (m_txhash a) (m_txhash b).
Proof using. unfold below, txhash_compare, hash_le. cbn. destruct (Compare _ _); cbn; congruence. Qed.

Lemma le_txhash_same a b : m_txhash a = m_txhash b -> le_txhash a b -> rank a < rank b \/ (rank a = rank b /\ key_prio a <= key_prio b).
Proof using.
  unfold below, txhash_compare, rank, key_prio. cbn. intros ->. rewrite Compare_refl. cbn. destruct (Z.compare_spec (state_value (m_state a)) (state_value (m_state b))) as [E|E|E]; cbn; [|auto|congruence].
  intros Hp. right. split; [exact E|]. apply Z.compare_ngt_iff in Hp. lia.
Qed.

(** Between two announcements of a transaction there is no other one. *)
Lemma le_txhash_between a b c : le_txhash a b -> le_txhash b c -> m_txhash a = m_txhash c -> m_txhash b = m_txhash a.
Proof using. intros H1%le_txhash_hash H2%le_txhash_hash E. apply (anti_symm hash_le); [rewrite E; exact H2|exact H1]. Qed.
End Views.

Lemma peer_compare_eq x y : peer_compare x y = Eq -> x = y.
Proof.
  destruct x as [[p b] h], y as [[p' b'] h']. unfold peer_compare. cbn. destruct (Z.compare_spec p p') as [->|?|?]; cbn; try discriminate.
  destruct b, b'; cbn; try discriminate; intros E%Compare_eq; subst; reflexivity.
Qed.

Lemma le_time a b : below time_compare time_view a b -> GetWaitState a < GetWaitState b \/ (GetWaitState a = GetWaitState b /\ m_time a <= m_time b).
Proof.
  unfold below, time_compare. cbn. destruct (Z.compare_spec (GetWaitState a) (GetWaitState b)) as [E|E|E]; cbn; [|auto|congruence]. intros Hp. right. split; [exact E|]. apply Z.compare_ngt_iff in Hp. lia.
Qed.

(** ** Counting *)

Definition cnt (P : Announcement -> bool) (m : gmap nat Announcement) : Z := Z.of_nat (size (filter (fun xa => P (snd xa) = true) m)).

Lemma cnt_fresh P m x a : m !! x = None -> cnt P (<[x := a]> m) = cnt P m + count_if (P a).
Proof.
  intros E. unfold cnt, count_if. destruct (P a) eqn:Ep.
  - rewrite map_filter_insert_True by exact Ep. rewrite map_size_insert_None; [lia|]. apply map_lookup_filter_None. left. exact E.
  - rewrite map_filter_insert_False by (cbn; congruence). rewrite delete_id by exact E. lia.
Qed.

Lemma cnt_delete P m x a : m !! x = Some a -> cnt P (delete x m) = cnt P m - count_if (P a).
Proof.
  intros E. rewrite <- (insert_delete_id m x a E) at 2. rewrite cnt_fresh by apply lookup_delete_eq. lia.
Qed.

Lemma cnt_update P m x a b : m !! x = Some a -> cnt P (<[x := b]> m) = cnt P m - count_if (P a) + count_if (P b).
Proof. intros E. rewrite <- insert_delete_eq, cnt_fresh by apply lookup_delete_eq. rewrite (cnt_delete P m x a E). lia. Qed.

Lemma cnt_range P m : 0 <= cnt P m <= Z.of_nat (size m).
Proof. unfold cnt. split; [lia|]. apply inj_le, map_subseteq_size, map_filter_subseteq. Qed.

Lemma cnt_pos P m x a : m !! x = Some a -> P a = true -> 1 <= cnt P m.
Proof. intros E Hp. pose proof (cnt_delete P m x a E) as D. pose proof (cnt_range P (delete x m)). unfold count_if in D. rewrite Hp in D. lia. Qed.

Lemma cnt_le P Q m : (forall a, P a = true -> Q a = true) -> cnt P m <= cnt Q m.
Proof.
  intros Himp. unfold cnt. apply inj_le, map_subseteq_size. apply map_filter_subseteq_ext. intros x a _. apply Himp.
Qed.

Lemma cnt_zero P m : cnt P m = 0 <-> forall x a, m !! x = Some a -> P a = false.
Proof.
  split.
  - intros E x a Ea. destruct (P a) eqn:Ep; [|reflexivity]. pose proof (cnt_pos P m x a Ea Ep). lia.
  - intros Hall. unfold cnt. replace (filter _ m) with (∅ : gmap nat Announcement); [rewrite map_size_empty; reflexivity|]. symmetry. apply map_eq. intros x. rewrite lookup_empty.
    apply map_lookup_filter_None. right. intros a Ea. cbn. rewrite (Hall x a Ea). discriminate.
Qed.

(** ** The counters of the peers *)

Definition of_peer (p : Z) (a : Announcement) : bool := m_peer a =? p.
Definition of_peer_in (p : Z) (st : ann_state) (a : Announcement) : bool := (of_peer p a && is_state st a)%bool.

Definition counts (m : gmap nat Announcement) (p : Z) : PeerInfo :=
  {| m_total := cnt (of_peer p) m; m_completed := cnt (of_peer_in p COMPLETED) m; m_requested := cnt (of_peer_in p REQUESTED) m |}.

Definition infos (m : gmap nat Announcement) (p : Z) : option PeerInfo := if cnt (of_peer p) m =? 0 then None else Some (counts m p).

Definition uniq (m : gmap nat Announcement) : Prop :=
  forall x y a b, m !! x = Some a -> m !! y = Some b -> m_peer a = m_peer b -> m_txhash a = m_txhash b -> x = y.

Section Wrappers.
Context {Index : Type} {HI : MultiIndex Index} (m_computer : uint256 -> Z -> bool -> Z) {HL : MultiIndexLaws Index m_computer}.
Notation st := (tracker Index).

Definition anns (s : st) : gmap nat Announcement := nodes (m_index s).

Record wf (s : st) : Prop := {
  wf_uniq : uniq (anns s);
  wf_info p : m_peerinfo s !! p = infos (anns s) p;
  wf_small : Z.of_nat (size (anns s)) < 2 ^ 63;
  wf_typed x a : anns s !! x = Some a -> blob (m_txhash a);
}.

Lemma cnt_u64 P s : wf s -> in_u 64 (cnt P (anns s)).
Proof using. intros Hw. pose proof (cnt_range P (anns s)). pose proof (wf_small _ Hw). unfold in_u. lia. Qed.

Lemma ann_at_ok s it a : anns s !! it = Some a -> ann_at it s = (Ok a, s).
Proof using. intros E. unfold ann_at, anns in *. unfold mbind, stm_bind, get_st, lift_st. rewrite E. reflexivity. Qed.

Lemma ann_opt_some s it a : anns s !! it = Some a -> ann_opt (Some it) s = (Ok (Some a), s).
Proof using. intros E. unfold ann_opt. rewrite (bind_ok _ _ _ _ _ (ann_at_ok s it a E)). reflexivity. Qed.

Lemma of_own_peer p a : m_peer a = p -> of_peer p a = true.
Proof using. intros <-. apply Z.eqb_refl. Qed.

Lemma peer_known s it a : wf s -> anns s !! it = Some a -> m_peerinfo s !! m_peer a = Some (counts (anns s) (m_peer a)) /\ 1 <= cnt (of_peer (m_peer a)) (anns s).
Proof using.
  intros Hw Ea. pose proof (cnt_pos (of_peer (m_peer a)) (anns s) it a Ea (of_own_peer _ _ eq_refl)) as Hp. split; [|exact Hp]. rewrite (wf_info _ Hw). unfold infos. destruct (Z.eqb_spec (cnt (of_peer (m_peer a)) (anns s)) 0); [lia|reflexivity].
Qed.

(** The counters of a peer do not see announcements of others. *)
Lemma counts_other m it a p : m !! it = Some a -> m_peer a <> p -> infos (delete it m) p = infos m p /\ (forall b, m_peer b <> p -> infos (<[it := b]> m) p = infos m p).
Proof using.
  intros Ea Hne. assert (N : forall b, m_peer b <> p -> of_peer p b = false) by (intros b Hb; apply Z.eqb_neq, Hb).
  assert (N' : forall b st, m_peer b <> p -> of_peer_in p st b = false) by (intros b st Hb; unfold of_peer_in; rewrite (N b Hb); reflexivity).
  unfold infos, counts. split; [|intros b Hb]; rewrite ?(cnt_delete _ _ _ _ Ea), ?(cnt_update _ _ _ _ b Ea), ?N, ?N' by assumption; cbn [count_if]; rewrite ?Z.sub_0_r, ?Z.add_0_r; reflexivity.
Qed.

Lemma Modify_spec it f a s : wf s -> anns s !! it = Some a -> m_peer (f a) = m_peer a -> m_txhash (f a) = m_txhash a ->
  exists s', Modify it f s = (Ok tt, s') /\ anns s' = <[it := f a]> (anns s) /\ wf s' /\ m_current_sequence s' = m_current_sequence s.
Proof using HL.
  intros Hw Ea Hp Hh. destruct (peer_known s it a Hw Ea) as [Einfo Hpos]. unfold Modify. rewrite (bind_ok _ _ _ _ _ (ann_at_ok s it a Ea)).
  unfold peer_at. unfold mbind at 1, stm_bind at 1. unfold mbind at 1, stm_bind at 1, get_st at 1, lift_st at 1. rewrite Einfo. cbn [access].
  assert (En : nodes (index_modify it f (m_index s)) = <[it := f a]> (anns s)).
  { apply (nodes_modify (m_computer := m_computer)); [exact Ea|]. intros y b Hy Eb Ev. unfold peer_view in Ev. injection Ev as E1 _ E2. apply Hy. apply (wf_uniq _ Hw y it b a Eb Ea); congruence. }
  unfold mbind, stm_bind, modify_st. unfold ann_at, mbind, stm_bind, get_st, lift_st. cbn [m_index set_index set_peerinfo]. rewrite En, lookup_insert_eq. cbn [access].
  assert (Est : forall st, u64 (u64 (cnt (of_peer_in (m_peer a) st) (anns s) - count_if (is_state st a)) + count_if (is_state st (f a))) = cnt (of_peer_in (m_peer a) st) (<[it := f a]> (anns s))).
  { intros st0. pose proof (cnt_range (of_peer_in (m_peer a) st0) (<[it := f a]> (anns s))) as R. rewrite map_size_insert_Some in R by eauto. pose proof (wf_small _ Hw). rewrite (cnt_update _ _ _ _ (f a) Ea) in R |- *.
    unfold of_peer_in in R |- *. rewrite (of_own_peer _ _ eq_refl), (of_own_peer _ (f a) Hp) in R |- *. cbn [andb] in R |- *. unfold uwrap. rewrite Zplus_mod_idemp_l. apply Z.mod_small. lia. }
  eexists. split; [reflexivity|]. unfold anns at 1. cbn [m_index set_index set_peerinfo m_peerinfo m_current_sequence]. split; [exact En|]. split; [|reflexivity]. split.
  - unfold anns. cbn. rewrite En. intros x y b c. rewrite !lookup_insert_Some. intros [[<- <-]|[Hx Eb]] [[<- <-]|[Hy Ec]] E1 E2; auto.
    + apply (wf_uniq _ Hw it y a c Ea Ec); congruence.
    + apply (wf_uniq _ Hw x it b a Eb Ea); congruence.
    + apply (wf_uniq _ Hw x y b c Eb Ec); assumption.
  - intros p. unfold anns. cbn. rewrite En. destruct (decide (m_peer a = p)) as [<-|Hne].
    + change (nodes (m_index s)) with (anns s). rewrite insert_insert_eq, lookup_insert_eq. unfold infos. rewrite (cnt_update _ _ _ _ (f a) Ea), (of_own_peer _ _ eq_refl), (of_own_peer _ (f a) Hp). cbn [count_if].
      replace (cnt (of_peer (m_peer a)) (anns s) - 1 + 1 =? 0) with false by (symmetry; apply Z.eqb_neq; lia). f_equal. unfold recount, uncount, counts. cbn [m_total m_completed m_requested]. rewrite !Est. f_equal.
      rewrite (cnt_update _ _ _ _ (f a) Ea), (of_own_peer _ _ eq_refl), (of_own_peer _ (f a) Hp). cbn [count_if]. lia.
    + rewrite !lookup_insert_ne by exact Hne. rewrite (wf_info _ Hw). symmetry. apply (counts_other _ it a p Ea Hne). congruence.
  - unfold anns. cbn. rewrite En, map_size_insert_Some by eauto. apply (wf_small _ Hw).
  - unfold anns. cbn. rewrite En. intros x b. rewrite lookup_insert_Some. intros [[<- <-]|[_ Eb]]; [rewrite Hh|]; eapply (wf_typed _ Hw); eassumption.
Qed.

Lemma Erase_spec view it a s : wf s -> anns s !! it = Some a ->
  exists s', TxRequest_Erase view it s = (Ok (next_in (view (m_index s)) it), s') /\ anns s' = delete it (anns s) /\ wf s' /\ m_current_sequence s' = m_current_sequence s /\
  m_index s' = index_erase it (m_index s).
Proof using HL.
  intros Hw Ea. destruct (peer_known s it a Hw Ea) as [Einfo Hpos]. unfold TxRequest_Erase. rewrite (bind_ok _ _ _ _ _ (ann_at_ok s it a Ea)).
  unfold peer_at. unfold mbind at 1, stm_bind at 1. unfold mbind at 1, stm_bind at 1, get_st at 1, lift_st at 1. rewrite Einfo. cbn [access].
  unfold mbind, stm_bind, modify_st, get_st. cbn [m_index set_peerinfo mret stm_ret]. eexists. split; [reflexivity|].
  assert (En : nodes (index_erase it (m_index s)) = delete it (anns s)) by apply nodes_erase. unfold anns at 1. cbn [m_index set_index set_peerinfo m_peerinfo m_current_sequence]. split; [exact En|]. split; [|split; reflexivity].
  assert (Hsz : Z.of_nat (size (delete it (anns s))) < 2 ^ 63) by (pose proof (wf_small _ Hw); rewrite map_size_delete_Some by eauto; lia). split.
  - unfold anns. cbn. rewrite En. intros x y b c [_ Eb]%lookup_delete_Some [_ Ec]%lookup_delete_Some. exact (wf_uniq _ Hw x y b c Eb Ec).
  - intros p. unfold anns. cbn. rewrite En.
    assert (Etot : u64 (cnt (of_peer (m_peer a)) (anns s) - 1) = cnt (of_peer (m_peer a)) (delete it (anns s))).
    { rewrite (cnt_delete _ _ _ _ Ea), (of_own_peer _ _ eq_refl). cbn [count_if]. apply uwrap_small. pose proof (cnt_u64 (of_peer (m_peer a)) s Hw). unfold in_u in *. lia. }
    assert (Est : forall st, u64 (cnt (of_peer_in (m_peer a) st) (anns s) - count_if (is_state st a)) = cnt (of_peer_in (m_peer a) st) (delete it (anns s))).
    { intros st. pose proof (cnt_range (of_peer_in (m_peer a) st) (delete it (anns s))) as R. rewrite (cnt_delete _ _ _ _ Ea) in R |- *. unfold of_peer_in in R |- *. rewrite (of_own_peer _ _ eq_refl) in R |- *. cbn [andb] in R |- *.
      apply uwrap_small. unfold in_u. lia. }
    cbn [drop_one uncount counts m_total]. change (nodes (m_index s)) with (anns s). rewrite Etot. destruct (decide (m_peer a = p)) as [<-|Hne].
    + unfold infos. destruct (cnt (of_peer (m_peer a)) (delete it (anns s)) =? 0); [apply lookup_delete_eq|]. rewrite lookup_insert_eq. f_equal. unfold drop_one, uncount, counts. cbn. rewrite Etot, !Est. reflexivity.
    + destruct (counts_other _ it a p Ea Hne) as [-> _]. rewrite <- (wf_info _ Hw). destruct (_ =? 0); [apply lookup_delete_ne|apply lookup_insert_ne]; exact Hne.
  - unfold anns. cbn. rewrite En. exact Hsz.
  - unfold anns. cbn. rewrite En. intros x b [_ Eb]%lookup_delete_Some. exact (wf_typed _ Hw x b Eb).
Qed.
End Wrappers.

(** * Selecting a peer

    The invariant of the selection ([sel_ok]), which is what [TxRequest_SanityCheck]
    tests per transaction, and the steps that keep it:
    [PromoteCandidateReady], [ChangeAndReselect], [MakeCompleted] and
    [ForgetTxHash]. *)

Section Selection.
Context (m_computer : uint256 -> Z -> bool -> Z).
Notation prio := (computer m_computer).

Definition best (a : Announcement) : Prop := m_state a = CANDIDATE_BEST.
Definition ready (a : Announcement) : Prop := m_state a = CANDIDATE_READY.
Definition chosen (a : Announcement) : Prop := m_state a = CANDIDATE_BEST \/ m_state a = REQUESTED.
Definition live (a : Announcement) : Prop := m_state a <> COMPLETED.

(** The announcements of a transaction. *)
Definition about (m : gmap nat Announcement) (h : uint256) (x : nat) (a : Announcement) : Prop := m !! x = Some a /\ m_txhash a = h.

(** At most one chosen; one is chosen when one is ready; the best is the best;
    not all are completed. *)
Record sel_at (m : gmap nat Announcement) (h : uint256) : Prop := {
  sa_one x y a b : about m h x a -> about m h y b -> chosen a -> chosen b -> x = y;
  sa_ready x a : about m h x a -> ready a -> exists y b, about m h y b /\ chosen b;
  sa_best x y a b : about m h x a -> about m h y b -> ready a -> best b -> prio a <= prio b;
  sa_live x a : about m h x a -> exists y b, about m h y b /\ live b;
}.

Definition sel_ok (m : gmap nat Announcement) : Prop := forall h, sel_at m h.

(** Nothing changes but for one transaction. *)
Definition only_hash (h : uint256) (m m' : gmap nat Announcement) : Prop := forall h' x a, h' <> h -> about m' h' x a <-> about m h' x a.

Lemma sel_ok_local h m m' : sel_ok m -> only_hash h m m' -> sel_at m' h -> sel_ok m'.
Proof using.
  intros Hm Ho Hh h'. destruct (decide (h' = h)) as [->|Hne]; [exact Hh|]. destruct (Hm h') as [A B C D]. split.
  - intros x y a b. rewrite !(Ho h') by exact Hne. apply A.
  - intros x a. rewrite (Ho h') by exact Hne. intros Ha Hr. destruct (B x a Ha Hr) as (y & b & Hb & Hc). exists y, b. rewrite (Ho h') by exact Hne. auto.
  - intros x y a b. rewrite !(Ho h') by exact Hne. apply C.
  - intros x a. rewrite (Ho h') by exact Hne. intros Ha. destruct (D x a Ha) as (y & b & Hb & Hc). exists y, b. rewrite (Ho h') by exact Hne. auto.
Qed.

Lemma only_hash_refl h m : only_hash h m m.
Proof using. intros h' x a _. reflexivity. Qed.
Lemma only_hash_trans h m1 m2 m3 : only_hash h m1 m2 -> only_hash h m2 m3 -> only_hash h m1 m3.
Proof using. intros H1 H2 h' x a Hne. rewrite (H2 h' x a Hne). apply H1, Hne. Qed.

Lemma only_hash_insert m it a b : m !! it = Some a -> m_txhash b = m_txhash a -> only_hash (m_txhash a) m (<[it := b]> m).
Proof using.
  intros Ea Eh h' x c Hne. unfold about. rewrite lookup_insert_Some. split.
  - intros [[[<- <-]|[_ E]] Hc]; [congruence|auto].
  - intros [E Hc]. split; [|exact Hc]. right. split; [|exact E]. intros <-. congruence.
Qed.

Lemma about_insert m it b h x c : m_txhash b = h -> about (<[it := b]> m) h x c <-> (x = it /\ c = b) \/ (x <> it /\ about m h x c).
Proof using. intros Hb. unfold about. rewrite lookup_insert_Some. split; [intros [[[<- <-]|[? ?]] ?]; auto|intros [[-> ->]|[? [? ?]]]; auto]. Qed.

(** ** What the order by transaction says *)

Section Neighbours.
Context (m : gmap nat Announcement) (l : list nat) (Hl : lists_in_order txhash_compare (txhash_view m_computer) m l) (h : uint256).
Notation le := (below txhash_compare (txhash_view m_computer)).

Lemma le_rank a b : m_txhash a = h -> m_txhash b = h -> le a b -> rank a <= rank b /\ (rank a = rank b -> key_prio m_computer a <= key_prio m_computer b).
Proof using. intros Ha Hb Hle. destruct (le_txhash_same m_computer a b ltac:(congruence) Hle) as [?|[? ?]]; split; lia. Qed.

(** The node after [a], among those of its transaction. *)
Lemma after_node it a : about m h it a -> match next_in l it with
  | Some n => exists c, m !! n = Some c /\ n <> it /\
      (m_txhash c <> h -> forall y b, about m h y b -> y <> it -> precedes l y it /\ le b a) /\
      (m_txhash c = h -> precedes l it n /\ le a c /\ forall y b, about m h y b -> y <> it -> y <> n -> (precedes l y it /\ le b a) \/ (precedes l n y /\ le c b))
  | None => forall y b, about m h y b -> y <> it -> precedes l y it /\ le b a
  end.
Proof using Hl.
  intros [Ea Ha]. pose proof (order_next _ _ _ _ Hl it a Ea) as O. destruct (next_in l it) as [n|].
  - destruct O as (c & Ec & Hn & Hpn & Hac & Hall). exists c. split; [exact Ec|]. split; [exact Hn|]. split.
    + intros Hc y b [Eb Hb] Hy. destruct (decide (y = n)) as [->|Hyn]; [congruence|]. destruct (Hall y b Eb Hy Hyn) as [Hle|[_ Hle]]; [exact Hle|].
      exfalso. apply Hc. rewrite <- Ha. apply (le_txhash_between m_computer a c b Hac Hle). congruence.
    + intros Hc. split; [exact Hpn|]. split; [exact Hac|]. intros y b [Eb Hb] Hy Hyn. exact (Hall y b Eb Hy Hyn).
  - intros y b [Eb Hb] Hy. exact (O y b Eb Hy).
Qed.

Lemma before_node it a : about m h it a -> match prev_in l it with
  | Some n => exists c, m !! n = Some c /\ n <> it /\
      (m_txhash c <> h -> forall y b, about m h y b -> y <> it -> precedes l it y /\ le a b) /\
      (m_txhash c = h -> precedes l n it /\ le c a /\ forall y b, about m h y b -> y <> it -> y <> n -> (precedes l y n /\ le b c) \/ (precedes l it y /\ le a b))
  | None => forall y b, about m h y b -> y <> it -> precedes l it y /\ le a b
  end.
Proof using Hl.
  intros [Ea Ha]. pose proof (order_prev _ _ _ _ Hl it a Ea) as O. destruct (prev_in l it) as [n|].
  - destruct O as (c & Ec & Hn & Hpn & Hca & Hall). exists c. split; [exact Ec|]. split; [exact Hn|]. split.
    + intros Hc y b [Eb Hb] Hy. destruct (decide (y = n)) as [->|Hyn]; [congruence|]. destruct (Hall y b Eb Hy Hyn) as [[_ Hle]|Hle]; [|exact Hle].
      exfalso. apply Hc. rewrite <- Hb. apply (le_txhash_between m_computer b c a Hle Hca). congruence.
    + intros Hc. split; [exact Hpn|]. split; [exact Hca|]. intros y b [Eb Hb] Hy Hyn. exact (Hall y b Eb Hy Hyn).
  - intros y b [Eb Hb] Hy. exact (O y b Eb Hy).
Qed.
End Neighbours.

Lemma rank_chosen a : chosen a -> 2 <= rank a <= 3.
Proof using. unfold chosen, rank. intros [-> | ->]; cbn; lia. Qed.
Lemma rank_ready a : ready a <-> rank a = 1.
Proof using. unfold ready, rank. destruct (m_state a); cbn; split; try reflexivity; try discriminate; lia. Qed.
Lemma rank_live a : live a <-> rank a < 4.
Proof using. unfold live, rank. destruct (m_state a); cbn; split; try discriminate; try lia; try congruence. Qed.
Lemma key_prio_ready a : ready a -> key_prio m_computer a = prio a.
Proof using. unfold ready, key_prio, is_state. intros ->. rewrite bool_decide_eq_true_2 by reflexivity. reflexivity. Qed.

(** ** Changes that keep the selection *)

Section Changes.
Context (m : gmap nat Announcement) (h : uint256) (Hsel : sel_at m h) (it : nat) (a : Announcement) (Ha : about m h it a).

Lemma state_hash (st : ann_state) : m_txhash (SetState st a) = h.
Proof using Ha. apply Ha. Qed.

Ltac cases := rewrite ?(about_insert _ _ _ _ _ _ (state_hash _)) in *; unfold chosen, ready, best, live in *; cbn [m_state SetState] in *.

(** The first candidate becomes the best. *)
Lemma becomes_best : (forall y b, about m h y b -> ~ chosen b) -> sel_at (<[it := SetState CANDIDATE_BEST a]> m) h.
Proof using Hsel Ha.
  intros Hno. assert (Hnr : forall y b, about m h y b -> ~ ready b) by (intros y b Hb Hr; destruct (sa_ready _ _ Hsel y b Hb Hr) as (z & d & Hd & Hc); exact (Hno z d Hd Hc)). split.
  - intros x y b c. cases. intros [[-> ->]|[Hx Hb]] [[-> ->]|[Hy Hc]] H1 H2; auto; [destruct (Hno y c Hc H2)|destruct (Hno x b Hb H1)|destruct (Hno y c Hc H2)].
  - intros x b _ _. exists it, (SetState CANDIDATE_BEST a). cases. auto.
  - intros x y b c. cases. intros [[-> ->]|[Hx Hb]] _ Hr; [discriminate|destruct (Hnr x b Hb Hr)].
  - intros x b _. exists it, (SetState CANDIDATE_BEST a). cases. split; [auto|discriminate].
Qed.

(** A candidate waits behind the chosen one. *)
Lemma becomes_ready : m_state a = CANDIDATE_DELAYED -> (exists y b, about m h y b /\ chosen b) -> (forall y b, about m h y b -> best b -> prio a <= prio b) ->
  sel_at (<[it := SetState CANDIDATE_READY a]> m) h.
Proof using Hsel Ha.
  intros Hd (w & d & Hw & Hcd) Hbest. assert (Hwi : w <> it) by (intros ->; destruct Ha as [E _], Hw as [E' _]; rewrite E in E'; injection E' as <-; destruct Hcd; congruence). split.
  - intros x y b c. cases. intros [[-> ->]|[Hx Hb]] [[-> ->]|[Hy Hc]] [H1|H1] [H2|H2]; try discriminate; eapply (sa_one _ _ Hsel); unfold chosen; eauto.
  - intros x b _ _. exists w, d. cases. auto.
  - intros x y b c. cases. intros [[-> ->]|[Hx Hb]] [[-> ->]|[Hy Hc]] H1 H2; try discriminate; [exact (Hbest y c Hc H2)|exact (sa_best _ _ Hsel x y b c Hb Hc H1 H2)].
  - intros x b _. exists w, d. cases. split; [auto|]. destruct Hcd; congruence.
Qed.

(** A better candidate takes the place of the best. *)
Lemma becomes_better n c : m_state a = CANDIDATE_DELAYED -> about m h n c -> best c -> prio c < prio a ->
  sel_at (<[it := SetState CANDIDATE_BEST a]> (<[n := SetState CANDIDATE_READY c]> m)) h.
Proof using Hsel Ha.
  intros Hd Hn Hc Hp. assert (Hne : n <> it) by (intros ->; destruct Ha as [E _], Hn as [E' _]; rewrite E in E'; injection E' as <-; unfold best in Hc; congruence).
  assert (Hhc : m_txhash (SetState CANDIDATE_READY c) = h) by apply Hn.
  assert (Only : forall y b, y <> n -> about m h y b -> ~ chosen b) by (intros y b Hy Hb Hcb; apply Hy, (sa_one _ _ Hsel y n b c Hb Hn Hcb); left; exact Hc).
  split.
  - intros x y b d. cases. rewrite ?(about_insert m n _ h _ _ Hhc). intros [[-> ->]|[Hx [[-> ->]|[Hx' Hb]]]] [[-> ->]|[Hy [[-> ->]|[Hy' Hd']]]] H1 H2; auto; cbn in *;
      try (destruct H1; discriminate); try (destruct H2; discriminate); first [destruct (Only y d Hy' Hd' H2)|destruct (Only x b Hx' Hb H1)].
  - intros x b _ _. exists it, (SetState CANDIDATE_BEST a). cases. auto.
  - intros x y b d. cases. rewrite ?(about_insert m n _ h _ _ Hhc). intros [[-> ->]|[Hx [[-> ->]|[Hx' Hb]]]] [[-> ->]|[Hy [[-> ->]|[Hy' Hd']]]] H1 H2; try discriminate;
      try (destruct (Only y d Hy' Hd'); left; exact H2); change (prio (SetState CANDIDATE_BEST a)) with (prio a); [change (prio (SetState CANDIDATE_READY c)) with (prio c); lia|].
    pose proof (sa_best _ _ Hsel x n b c Hb Hn H1 Hc). lia.
  - intros x b _. exists it, (SetState CANDIDATE_BEST a). cases. split; [auto|discriminate].
Qed.

(** The chosen one goes and the best of the ready ones takes its place. *)
Lemma replaced n c new : (new = COMPLETED \/ new = CANDIDATE_DELAYED) -> chosen a -> about m h n c -> ready c -> (forall y b, about m h y b -> ready b -> prio b <= prio c) ->
  sel_at (<[it := SetState new a]> (<[n := SetState CANDIDATE_BEST c]> m)) h.
Proof using Hsel Ha.
  intros Hnew Hca Hn Hrc Hmax. assert (Hne : n <> it) by (intros ->; destruct Ha as [E _], Hn as [E' _]; rewrite E in E'; injection E' as <-; unfold ready in Hrc; destruct Hca; congruence).
  assert (Hhc : m_txhash (SetState CANDIDATE_BEST c) = h) by apply Hn.
  assert (Only : forall y b, y <> it -> about m h y b -> ~ chosen b) by (intros y b Hy Hb Hcb; apply Hy, (sa_one _ _ Hsel y it b a Hb Ha Hcb Hca)).
  assert (Nnew : new <> CANDIDATE_BEST /\ new <> REQUESTED /\ new <> CANDIDATE_READY) by (destruct Hnew as [-> | ->]; repeat split; discriminate). destruct Nnew as (N1 & N2 & N3).
  split.
  - intros x y b d. cases. rewrite ?(about_insert m n _ h _ _ Hhc). intros [[-> ->]|[Hx [[-> ->]|[Hx' Hb]]]] [[-> ->]|[Hy [[-> ->]|[Hy' Hd']]]] H1 H2; auto; cbn in *;
      try (destruct H1; contradiction); try (destruct H2; contradiction); first [destruct (Only y d Hy Hd' H2)|destruct (Only x b Hx Hb H1)].
  - intros x b _ _. exists n, (SetState CANDIDATE_BEST c). cases. rewrite (about_insert m n _ h _ _ Hhc). split; [right; split; [exact Hne|left; auto]|auto].
  - intros x y b d. cases. rewrite ?(about_insert m n _ h _ _ Hhc). intros [[-> ->]|[Hx [[-> ->]|[Hx' Hb]]]] [[-> ->]|[Hy [[-> ->]|[Hy' Hd']]]] H1 H2; try contradiction; try discriminate.
    + exact (Hmax x b Hb H1).
    + destruct (Only y d Hy Hd'). left. exact H2.
  - intros x b _. exists n, (SetState CANDIDATE_BEST c). cases. rewrite (about_insert m n _ h _ _ Hhc). split; [right; split; [exact Hne|left; auto]|discriminate].
Qed.

(** One goes that leaves nothing to choose, or was not the chosen one. *)
Lemma steps_back new : (new = COMPLETED \/ new = CANDIDATE_DELAYED) -> (chosen a -> forall y b, about m h y b -> ~ ready b) ->
  (new = COMPLETED -> exists y b, y <> it /\ about m h y b /\ live b) -> sel_at (<[it := SetState new a]> m) h.
Proof using Hsel Ha.
  intros Hnew Hnr Hlive. assert (Nnew : new <> CANDIDATE_BEST /\ new <> REQUESTED /\ new <> CANDIDATE_READY) by (destruct Hnew as [-> | ->]; repeat split; discriminate). destruct Nnew as (N1 & N2 & N3). split.
  - intros x y b d. cases. intros [[-> ->]|[Hx Hb]] [[-> ->]|[Hy Hd]] H1 H2; auto; try (destruct H1; contradiction); try (destruct H2; contradiction). exact (sa_one _ _ Hsel x y b d Hb Hd H1 H2).
  - intros x b. cases. intros [[-> ->]|[Hx Hb]] Hr; [contradiction|]. destruct (sa_ready _ _ Hsel x b Hb Hr) as (y & d & Hd & Hc). exists y, d. cases. split; [|exact Hc]. right. split; [|exact Hd].
    intros ->. destruct Ha as [E _], Hd as [E' _]. rewrite E in E'. injection E' as <-. exact (Hnr Hc x b Hb Hr).
  - intros x y b d. cases. intros [[-> ->]|[Hx Hb]] [[-> ->]|[Hy Hd]] H1 H2; try contradiction. exact (sa_best _ _ Hsel x y b d Hb Hd H1 H2).
  - intros x b _. destruct Hnew as [E|E].
    + destruct (Hlive E) as (y & d & Hy & Hd & Hld). exists y, d. cases. auto.
    + exists it, (SetState new a). cases. split; [auto|]. rewrite E. discriminate.
Qed.
End Changes.
End Selection.

(** ** Announcements as a caller sees them *)

Inductive standing : Type := Candidate (reqtime : Z) | Requested (expiry : Z) | Completed.

Record entry : Type := { e_peer : Z; e_hash : uint256; e_seq : Z; e_preferred : bool; e_wtxid : bool; e_standing : standing }.

Definition standing_of (a : Announcement) : standing :=
  match m_state a with REQUESTED => Requested (m_time a) | COMPLETED => Completed | _ => Candidate (m_time a) end.

Definition entry_of (a : Announcement) : entry :=
  {| e_peer := m_peer a; e_hash := m_txhash a; e_seq := m_sequence a; e_preferred := m_preferred a; e_wtxid := m_is_wtxid a; e_standing := standing_of a |}.

(** A candidate for the same transaction may have moved between ready and best. *)
Definition reranked (it : nat) (h : uint256) (m m2 : gmap nat Announcement) : Prop := m2 = m \/
  exists n c st, n <> it /\ m !! n = Some c /\ m_txhash c = h /\ IsSelectable c = true /\ (st = CANDIDATE_READY \/ st = CANDIDATE_BEST) /\ m2 = <[n := SetState st c]> m.

Lemma selectable_cases a : IsSelectable a = true <-> m_state a = CANDIDATE_READY \/ m_state a = CANDIDATE_BEST.
Proof. unfold IsSelectable, is_state. rewrite orb_true_iff, !bool_decide_eq_true. reflexivity. Qed.

Lemma waiting_cases a : IsWaiting a = true <-> m_state a = REQUESTED \/ m_state a = CANDIDATE_DELAYED.
Proof. unfold IsWaiting, is_state. rewrite orb_true_iff, !bool_decide_eq_true. reflexivity. Qed.

Lemma selected_cases a : IsSelected a = true <-> chosen a.
Proof. unfold IsSelected, is_state. rewrite orb_true_iff, !bool_decide_eq_true. reflexivity. Qed.

Lemma is_state_true st a : is_state st a = true <-> m_state a = st.
Proof. apply bool_decide_eq_true. Qed.
Lemma is_state_false st a : is_state st a = false <-> m_state a <> st.
Proof. apply bool_decide_eq_false. Qed.

Lemma reranked_facts it h m m2 : reranked it h m m2 -> entry_of <$> m2 = entry_of <$> m /\ m2 !! it = m !! it /\
  (forall x b, IsSelectable b = false -> m2 !! x = Some b <-> m !! x = Some b) /\
  (forall x b, m2 !! x = Some b -> IsSelectable b = true -> exists b', m !! x = Some b' /\ IsSelectable b' = true /\ m_time b' = m_time b).
Proof.
  intros [->|(n & c & st & Hn & Ec & _ & Hs & Hst & ->)]; [repeat split; auto; eauto|]. pose proof Hs as Hs'. apply selectable_cases in Hs'. split; [|split; [|split]].
  - rewrite fmap_insert. apply insert_id. rewrite lookup_fmap, Ec. cbn. f_equal. unfold entry_of, standing_of. cbn. destruct Hs' as [-> | ->], Hst as [-> | ->]; reflexivity.
  - apply lookup_insert_ne. congruence.
  - intros x b Hb. rewrite lookup_insert_Some. split.
    + intros [[<- <-]|[_ E]]; [|exact E]. exfalso. apply not_true_iff_false in Hb. apply Hb, selectable_cases. cbn. exact Hst.
    + intros E. right. split; [|exact E]. intros ->. congruence.
  - intros x b. rewrite lookup_insert_Some. intros [[<- <-]|[_ E]] Hb; [exists c; auto|eauto].
Qed.

Section Steps.
Context {Index : Type} {HI : MultiIndex Index} (m_computer : uint256 -> Z -> bool -> Z) {HL : MultiIndexLaws Index m_computer}.
Notation prio := (computer m_computer).
Notation st := (tracker Index).
Notation sel_ok := (sel_ok m_computer).

(** The state of an announcement was set, and another one may have been
    reranked. *)
Definition moved (it : nat) (a : Announcement) (new : ann_state) (s s' : st) : Prop :=
  exists m2, reranked it (m_txhash a) (anns s) m2 /\ anns s' = <[it := SetState new a]> m2.

Lemma in_txhash_order s : lists_in_order txhash_compare (txhash_view m_computer) (anns s) (ByTxHash (m_index s)).
Proof using HL. apply by_txhash_sorted. Qed.

Lemma set_state_spec it new a s : wf s -> anns s !! it = Some a ->
  exists s', Modify it (SetState new) s = (Ok tt, s') /\ anns s' = <[it := SetState new a]> (anns s) /\ wf s' /\ m_current_sequence s' = m_current_sequence s.
Proof using HL. intros Hw Ea. apply (Modify_spec m_computer it (SetState new) a s Hw Ea); reflexivity. Qed.

Lemma PromoteCandidateReady_spec it a s : wf s -> sel_ok (anns s) -> anns s !! it = Some a -> m_state a = CANDIDATE_DELAYED ->
  exists s' new, PromoteCandidateReady m_computer it s = (Ok tt, s') /\ wf s' /\ sel_ok (anns s') /\ moved it a new s s' /\ (new = CANDIDATE_READY \/ new = CANDIDATE_BEST) /\
    m_current_sequence s' = m_current_sequence s.
Proof using HL.
  intros Hw Hsel Ea Hd. set (h := m_txhash a). assert (Ha : about (anns s) h it a) by (split; [exact Ea|reflexivity]). unfold PromoteCandidateReady.
  rewrite (bind_ok _ _ _ _ _ (ann_at_ok s it a Ea)). unfold mbind at 1, stm_bind at 1, lift_st at 1. rewrite (proj2 (is_state_true _ _) Hd). cbn [assert_].
  destruct (set_state_spec it CANDIDATE_READY a s Hw Ea) as (s1 & E1 & M1 & W1 & Q1). rewrite (bind_ok _ _ _ _ _ E1). unfold mbind at 1, stm_bind at 1, get_st at 1.
  set (a1 := SetState CANDIDATE_READY a) in *. assert (Ea1 : anns s1 !! it = Some a1) by (rewrite M1; apply lookup_insert_eq).
  rewrite (bind_ok _ _ _ _ _ (ann_at_ok s1 it a1 Ea1)). assert (Ha1 : about (anns s1) h it a1) by (split; [exact Ea1|reflexivity]).
  assert (Up : forall y b, about (anns s1) h y b -> y <> it -> about (anns s) h y b) by (intros y b [E Hb] Hy; rewrite M1, lookup_insert_ne in E by congruence; split; assumption).
  assert (Dn : forall y b, about (anns s) h y b -> y <> it -> about (anns s1) h y b) by (intros y b [E Hb] Hy; split; [rewrite M1, lookup_insert_ne by congruence; exact E|exact Hb]).
  assert (Ra : rank a1 = 1) by reflexivity.
  assert (Nit : forall y b, about (anns s) h y b -> chosen b -> y <> it) by (intros y b [E _] Hc ->; rewrite Ea in E; injection E as <-; destruct Hc; congruence).
  (* it becomes the best when nothing of the transaction comes after it but completed ones *)
  assert (Best : (forall y b, about (anns s) h y b -> ~ chosen b) -> exists s' new, Modify it (SetState CANDIDATE_BEST) s1 = (Ok tt, s') /\ wf s' /\ sel_ok (anns s') /\ moved it a new s s' /\
    (new = CANDIDATE_READY \/ new = CANDIDATE_BEST) /\ m_current_sequence s' = m_current_sequence s).
  { intros Hno. destruct (set_state_spec it CANDIDATE_BEST a1 s1 W1 Ea1) as (s2 & E2 & M2 & W2 & Q2). rewrite M1, insert_insert_eq in M2. change (SetState CANDIDATE_BEST a1) with (SetState CANDIDATE_BEST a) in M2.
    exists s2, CANDIDATE_BEST. split; [exact E2|]. split; [exact W2|]. split; [|split; [exists (anns s); split; [left; reflexivity|exact M2]|split; [auto|congruence]]].
    rewrite M2. apply (sel_ok_local _ h (anns s)); [exact Hsel|apply only_hash_insert; [exact Ea|reflexivity]|]. apply becomes_best; [apply Hsel|exact Ha|exact Hno]. }
  (* it waits behind the chosen one *)
  assert (Stay : (exists y b, about (anns s) h y b /\ chosen b) -> (forall y b, about (anns s) h y b -> best b -> prio a <= prio b) -> exists s' new, @mret (stm st) _ unit tt s1 = (Ok tt, s') /\ wf s' /\ sel_ok (anns s') /\
    moved it a new s s' /\ (new = CANDIDATE_READY \/ new = CANDIDATE_BEST) /\ m_current_sequence s' = m_current_sequence s).
  { intros Hc Hp. exists s1, CANDIDATE_READY. split; [reflexivity|]. split; [exact W1|]. split; [|split; [exists (anns s); split; [left; reflexivity|exact M1]|auto]].
    rewrite M1. apply (sel_ok_local _ h (anns s)); [exact Hsel|apply only_hash_insert; [exact Ea|reflexivity]|]. apply becomes_ready; [apply Hsel|exact Ha|exact Hd|exact Hc|exact Hp]. }
  pose proof (after_node m_computer (anns s1) _ (in_txhash_order s1) h it a1 Ha1) as Nx. destruct (next_in (ByTxHash (m_index s1)) it) as [n|].
  2:{ unfold mbind at 1, stm_bind at 1. cbn [ann_opt mret stm_ret]. apply Best. intros y b Hb Hc. pose proof (Nit y b Hb Hc) as Hy. destruct (le_rank m_computer h b a1 (proj2 Hb) eq_refl (proj2 (Nx y b (Dn y b Hb Hy) Hy))) as [R _]. pose proof (rank_chosen b Hc). lia. }
  destruct Nx as (c & Ec & Hn & Hdiff & Hsame). rewrite (bind_ok _ _ _ _ _ (ann_opt_some s1 n c Ec)). change (m_txhash a1) with h.
  destruct (bool_decide_reflect (m_txhash c = h)) as [Hc|Hc]; cbn [negb orb].
  2:{ apply Best. intros y b Hb Hcb. pose proof (Nit y b Hb Hcb) as Hy. destruct (le_rank m_computer h b a1 (proj2 Hb) eq_refl (proj2 (Hdiff Hc y b (Dn y b Hb Hy) Hy))) as [R _]. pose proof (rank_chosen b Hcb). lia. }
  destruct (Hsame Hc) as (_ & Hac & Hall). destruct (le_rank m_computer h a1 c eq_refl Hc Hac) as [Rac Pac]. assert (Hcs : about (anns s) h n c) by (apply Up; [split; assumption|exact Hn]).
  destruct (is_state COMPLETED c) eqn:Ecc.
  { apply is_state_true in Ecc. assert (Rc : rank c = 4) by (unfold rank; rewrite Ecc; reflexivity). apply Best. intros y b Hb Hcb. pose proof (Nit y b Hb Hcb) as Hy. pose proof (rank_chosen b Hcb).
    destruct (decide (y = n)) as [->|Hyn]; [destruct Hb as [E _], Hcs as [E' _]; rewrite E in E'; injection E' as ->; lia|].
    destruct (Hall y b (Dn y b Hb Hy) Hy Hyn) as [[_ Hle]|[_ Hle]]; [destruct (le_rank m_computer h b a1 (proj2 Hb) eq_refl Hle); lia|destruct (le_rank m_computer h c b Hc (proj2 Hb) Hle); lia]. }
  destruct (is_state CANDIDATE_BEST c) eqn:Ecb.
  { apply is_state_true in Ecb. change (prio a1) with (prio a). destruct (Z.gtb_spec (prio a) (prio c)) as [Hp|Hp].
    - destruct (set_state_spec n CANDIDATE_READY c s1 W1 Ec) as (s2 & E2 & M2 & W2 & Q2). rewrite (bind_ok _ _ _ _ _ E2).
      assert (Ea2 : anns s2 !! it = Some a1) by (rewrite M2, lookup_insert_ne by congruence; exact Ea1). destruct (set_state_spec it CANDIDATE_BEST a1 s2 W2 Ea2) as (s3 & E3 & M3 & W3 & Q3).
      rewrite M2, M1, (insert_insert_ne _ n it) in M3 by congruence. rewrite insert_insert_eq in M3. change (SetState CANDIDATE_BEST a1) with (SetState CANDIDATE_BEST a) in M3.
      exists s3, CANDIDATE_BEST. split; [exact E3|]. split; [exact W3|]. split; [|split; [|split; [auto|congruence]]].
      + rewrite M3. apply (sel_ok_local _ h (anns s)); [exact Hsel| |apply becomes_better; [apply Hsel|exact Ha|exact Hd|exact Hcs|exact Ecb|lia]].
        apply (only_hash_trans _ _ (<[n := SetState CANDIDATE_READY c]> (anns s))); [rewrite <- Hc; apply only_hash_insert; [apply Hcs|reflexivity]|].
        change h with (m_txhash a). apply only_hash_insert; [rewrite lookup_insert_ne by congruence; exact Ea|reflexivity].
      + exists (<[n := SetState CANDIDATE_READY c]> (anns s)). split; [|exact M3]. right. exists n, c, CANDIDATE_READY. split; [exact Hn|]. split; [apply Hcs|]. split; [exact Hc|]. split; [apply selectable_cases; auto|auto].
    - apply Stay; [exists n, c; split; [exact Hcs|left; exact Ecb]|]. intros y b Hb Hbb. assert (y = n) as -> by (apply (sa_one _ _ _ (Hsel h) y n b c Hb Hcs); left; assumption).
      destruct Hb as [E _], Hcs as [E' _]. rewrite E in E'. injection E' as ->. exact Hp. }
  apply is_state_false in Ecc, Ecb. assert (Rc : rank c = 1 \/ rank c = 3) by (unfold rank in *; change (rank a1) with 1 in Rac; destruct (m_state c); cbn in *; try lia; congruence).
  apply Stay.
  - destruct Rc as [Rc|Rc]; [apply rank_ready in Rc; exact (sa_ready _ _ _ (Hsel h) n c Hcs Rc)|exists n, c; split; [exact Hcs|right; unfold rank in Rc; destruct (m_state c); try discriminate; reflexivity]].
  - intros y b Hb Hbb. destruct Rc as [Rc|Rc].
    + pose proof (sa_best _ _ _ (Hsel h) n y c b Hcs Hb (proj2 (rank_ready c) Rc) Hbb) as P. specialize (Pac ltac:(lia)). rewrite !key_prio_ready in Pac by (try apply rank_ready; auto). change (prio a1) with (prio a) in Pac. lia.
    + assert (chosen c) by (right; unfold rank in Rc; destruct (m_state c); try discriminate; reflexivity). assert (y = n) as -> by (apply (sa_one _ _ _ (Hsel h) y n b c Hb Hcs); [left; exact Hbb|assumption]).
      destruct Hb as [E _], Hcs as [E' _]. rewrite E in E'. injection E' as ->. contradiction.
Qed.
(** The node before a chosen one is the best of the ready ones, if there is one. *)
Lemma before_chosen s it a : sel_ok (anns s) -> anns s !! it = Some a -> chosen a -> match prev_in (ByTxHash (m_index s)) it with
  | Some n => exists c, anns s !! n = Some c /\ n <> it /\ ((m_txhash c = m_txhash a /\ ready c /\ forall y b, about (anns s) (m_txhash a) y b -> ready b -> prio b <= prio c) \/
      (~ (m_txhash c = m_txhash a /\ ready c) /\ forall y b, about (anns s) (m_txhash a) y b -> ~ ready b))
  | None => forall y b, about (anns s) (m_txhash a) y b -> ~ ready b
  end.
Proof using HL.
  intros Hsel Ea Hc. set (h := m_txhash a). assert (Ha : about (anns s) h it a) by (split; [exact Ea|reflexivity]). pose proof (rank_chosen a Hc) as Ra.
  assert (Nit : forall y b, about (anns s) h y b -> ready b -> y <> it) by (intros y b [E _] Hr ->; rewrite Ea in E; injection E as <-; apply rank_ready in Hr; lia).
  assert (Aft : forall b, m_txhash b = h -> ready b -> ~ below txhash_compare (txhash_view m_computer) a b) by (intros b Hb Hr Hle; destruct (le_rank m_computer h a b eq_refl Hb Hle); apply rank_ready in Hr; lia).
  pose proof (before_node m_computer (anns s) _ (in_txhash_order s) h it a Ha) as P. destruct (prev_in (ByTxHash (m_index s)) it) as [n|].
  2:{ intros y b Hb Hr. exact (Aft b (proj2 Hb) Hr (proj2 (P y b Hb (Nit y b Hb Hr)))). }
  destruct P as (c & Ec & Hn & Hdiff & Hsame). exists c. split; [exact Ec|]. split; [exact Hn|]. destruct (decide (m_txhash c = h)) as [Hch|Hch].
  2:{ right. split; [tauto|]. intros y b Hb Hr. exact (Aft b (proj2 Hb) Hr (proj2 (Hdiff Hch y b Hb (Nit y b Hb Hr)))). }
  destruct (Hsame Hch) as (_ & Hca & Hall). destruct (le_rank m_computer h c a Hch eq_refl Hca) as [Rca _]. destruct (decide (m_state c = CANDIDATE_READY)) as [Hrc|Hrc].
  - left. split; [exact Hch|]. split; [exact Hrc|]. intros y b Hb Hr. destruct (decide (y = n)) as [->|Hyn]; [destruct Hb as [E _]; rewrite Ec in E; injection E as ->; lia|].
    destruct (Hall y b Hb (Nit y b Hb Hr) Hyn) as [[_ Hle]|[_ Hle]]; [|destruct (Aft b (proj2 Hb) Hr Hle)]. destruct (le_rank m_computer h b c (proj2 Hb) Hch Hle) as [_ Pb].
    assert (R1 : rank b = 1) by (apply rank_ready, Hr). assert (R2 : rank c = 1) by (apply rank_ready, Hrc). rewrite <- !(key_prio_ready m_computer) by assumption. apply Pb. lia.
  - right. split; [intros [_ Hr]; contradiction|]. intros y b Hb Hr. destruct (decide (y = n)) as [->|Hyn]; [destruct Hb as [E _]; rewrite Ec in E; injection E as ->; contradiction|].
    destruct (Hall y b Hb (Nit y b Hb Hr) Hyn) as [[_ Hle]|[_ Hle]]; [|exact (Aft b (proj2 Hb) Hr Hle)]. destruct (le_rank m_computer h b c (proj2 Hb) Hch Hle) as [Rbc _]. apply rank_ready in Hr.
    assert (Hcc : chosen c) by (unfold chosen, rank in *; destruct (m_state c); cbn in *; auto; try lia; congruence). apply Hn. apply (sa_one _ _ _ (Hsel h) n it c a); [split; assumption|exact Ha|exact Hcc|exact Hc].
Qed.

Lemma ChangeAndReselect_spec it a new s : wf s -> sel_ok (anns s) -> anns s !! it = Some a -> (new = COMPLETED \/ new = CANDIDATE_DELAYED) ->
  (new = COMPLETED -> exists y b, y <> it /\ about (anns s) (m_txhash a) y b /\ live b) ->
  exists s', ChangeAndReselect it new s = (Ok tt, s') /\ wf s' /\ sel_ok (anns s') /\ moved it a new s s' /\ m_current_sequence s' = m_current_sequence s.
Proof using HL.
  intros Hw Hsel Ea Hnew Hlive. set (h := m_txhash a). assert (Ha : about (anns s) h it a) by (split; [exact Ea|reflexivity]). unfold ChangeAndReselect.
  unfold mbind at 1, stm_bind at 1, lift_st at 1. replace (assert_ _) with (Ok tt : res unit) by (destruct Hnew as [-> | ->]; reflexivity).
  rewrite (bind_ok _ _ _ _ _ (ann_at_ok s it a Ea)). unfold mbind at 1, stm_bind at 1, get_st at 1.
  assert (Plain : (chosen a -> forall y b, about (anns s) h y b -> ~ ready b) -> exists s', Modify it (SetState new) s = (Ok tt, s') /\ wf s' /\ sel_ok (anns s') /\ moved it a new s s' /\ m_current_sequence s' = m_current_sequence s).
  { intros Hnr. destruct (set_state_spec it new a s Hw Ea) as (s1 & E1 & M1 & W1 & Q1). exists s1. split; [exact E1|]. split; [exact W1|]. split; [|split; [exists (anns s); split; [left; reflexivity|exact M1]|exact Q1]].
    rewrite M1. apply (sel_ok_local _ h (anns s)); [exact Hsel|apply only_hash_insert; [exact Ea|reflexivity]|]. apply steps_back; [apply Hsel|exact Ha|exact Hnew|exact Hnr|exact Hlive]. }
  destruct (IsSelected a) eqn:Es.
  2:{ assert (Hnc : ~ chosen a) by (rewrite <- selected_cases, Es; discriminate). pose proof (before_node m_computer (anns s) _ (in_txhash_order s) h it a Ha) as P.
      destruct (prev_in (ByTxHash (m_index s)) it) as [n|].
      - destruct P as (c & Ec & _). rewrite (bind_ok _ _ _ _ _ (ann_opt_some s n c Ec)). cbn [andb]. unfold mbind at 1, stm_bind at 1. cbn [mret stm_ret]. apply Plain. intros Hc. contradiction.
      - unfold mbind at 1, stm_bind at 1. cbn [ann_opt mret stm_ret]. unfold mbind at 1, stm_bind at 1. cbn [mret stm_ret]. apply Plain. intros Hc. contradiction. }
  apply selected_cases in Es. pose proof (before_chosen s it a Hsel Ea Es) as P. destruct (prev_in (ByTxHash (m_index s)) it) as [n|].
  2:{ unfold mbind at 1, stm_bind at 1. cbn [ann_opt mret stm_ret]. unfold mbind at 1, stm_bind at 1. cbn [mret stm_ret]. apply Plain. intros _. exact P. }
  destruct P as (c & Ec & Hn & P). rewrite (bind_ok _ _ _ _ _ (ann_opt_some s n c Ec)). cbn [andb]. destruct P as [(Hch & Hrc & Hmax)|(Hno & Hnr)].
  - rewrite (bool_decide_eq_true_2 _ Hch), (proj2 (is_state_true _ _) Hrc). cbn [andb]. destruct (set_state_spec n CANDIDATE_BEST c s Hw Ec) as (s1 & E1 & M1 & W1 & Q1).
    rewrite (bind_ok _ _ _ _ _ E1). assert (Ea1 : anns s1 !! it = Some a) by (rewrite M1, lookup_insert_ne by congruence; exact Ea). destruct (set_state_spec it new a s1 W1 Ea1) as (s2 & E2 & M2 & W2 & Q2).
    rewrite M1 in M2. exists s2. split; [exact E2|]. split; [exact W2|]. split; [|split; [|congruence]].
    + rewrite M2. apply (sel_ok_local _ h (anns s)); [exact Hsel| |apply replaced; [apply Hsel|exact Ha|exact Hnew|exact Es|split; assumption|exact Hrc|exact Hmax]].
      apply (only_hash_trans _ _ (<[n := SetState CANDIDATE_BEST c]> (anns s))); [change h with (m_txhash a); rewrite <- Hch; apply only_hash_insert; [exact Ec|reflexivity]|].
      change h with (m_txhash a). apply only_hash_insert; [rewrite lookup_insert_ne by congruence; exact Ea|reflexivity].
    + exists (<[n := SetState CANDIDATE_BEST c]> (anns s)). split; [|exact M2]. right. exists n, c, CANDIDATE_BEST. split; [exact Hn|]. split; [exact Ec|]. split; [exact Hch|]. split; [apply selectable_cases; auto|auto].
  - replace (bool_decide (m_txhash c = m_txhash a) && is_state CANDIDATE_READY c)%bool with false; [unfold mbind at 1, stm_bind at 1; cbn [mret stm_ret]; apply Plain; intros _; exact Hnr|].
    symmetry. apply andb_false_iff. destruct (decide (m_txhash c = m_txhash a)) as [Hch|Hch]; [right; apply is_state_false; intros Hr; apply Hno; auto|left; apply bool_decide_eq_false, Hch].
Qed.

(** Whether all other announcements of the transaction are completed. *)
Lemma IsOnlyNonCompleted_spec it a s : anns s !! it = Some a -> live a -> exists r, IsOnlyNonCompleted it s = (Ok r, s) /\
  (r = true -> forall y b, about (anns s) (m_txhash a) y b -> y <> it -> m_state b = COMPLETED) /\
  (r = false -> exists y b, y <> it /\ about (anns s) (m_txhash a) y b /\ live b).
Proof using HL.
  intros Ea Hl. set (h := m_txhash a). assert (Ha : about (anns s) h it a) by (split; [exact Ea|reflexivity]). pose proof Hl as Ra. apply rank_live in Ra. unfold IsOnlyNonCompleted.
  rewrite (bind_ok _ _ _ _ _ (ann_at_ok s it a Ea)). unfold mbind at 1, stm_bind at 1, lift_st at 1. rewrite (proj2 (is_state_false COMPLETED a) Hl). cbn [negb assert_]. unfold mbind at 1, stm_bind at 1, get_st at 1.
  pose proof (before_node m_computer (anns s) _ (in_txhash_order s) h it a Ha) as P. pose proof (after_node m_computer (anns s) _ (in_txhash_order s) h it a Ha) as N. set (l := ByTxHash (m_index s)) in *.
  assert (Le : forall x y, m_txhash x = h -> m_txhash y = h -> below txhash_compare (txhash_view m_computer) x y -> rank x <= rank y) by (intros x y Hx Hy Hle; apply (le_rank m_computer h x y Hx Hy Hle)).
  assert (Prev : exists pv, ann_opt (prev_in l it) s = (Ok pv, s) /\ if match pv with Some b => bool_decide (m_txhash b = h) | None => false end
    then exists y b, y <> it /\ about (anns s) h y b /\ live b else forall y b, about (anns s) h y b -> y <> it -> precedes l it y).
  { destruct (prev_in l it) as [n|]; [|exists None; split; [reflexivity|]; intros y b Hb Hy; apply (P y b Hb Hy)]. destruct P as (c & Ec & Hn & Hd & Hs). exists (Some c). split; [apply ann_opt_some, Ec|].
    destruct (bool_decide_reflect (m_txhash c = h)) as [Hc|Hc]; [|intros y b Hb Hy; apply (Hd Hc y b Hb Hy)]. exists n, c. split; [exact Hn|]. split; [split; assumption|].
    apply rank_live. destruct (Hs Hc) as (_ & Hle & _). specialize (Le c a Hc eq_refl Hle). lia. }
  assert (Next : exists nv, ann_opt (next_in l it) s = (Ok nv, s) /\ if match nv with Some b => (bool_decide (m_txhash b = h) && negb (is_state COMPLETED b))%bool | None => false end
    then exists y b, y <> it /\ about (anns s) h y b /\ live b else forall y b, about (anns s) h y b -> y <> it -> precedes l it y -> m_state b = COMPLETED).
  { assert (Cp : forall b, 4 <= rank b -> m_state b = COMPLETED) by (intros b; unfold rank; destruct (m_state b); cbn; try lia; reflexivity).
    assert (As : forall y, precedes l y it -> precedes l it y -> False) by (intros y H1 H2; exact (precedes_asym _ _ _ _ (in_txhash_order s) y it H1 H2)).
    destruct (next_in l it) as [n|]; [|exists None; split; [reflexivity|]; intros y b Hb Hy Hp; destruct (As y (proj1 (N y b Hb Hy)) Hp)]. destruct N as (c & Ec & Hn & Hd & Hs). exists (Some c). split; [apply ann_opt_some, Ec|].
    destruct (bool_decide_reflect (m_txhash c = h)) as [Hc|Hc]; cbn [andb]; [|intros y b Hb Hy Hp; destruct (As y (proj1 (Hd Hc y b Hb Hy)) Hp)]. destruct (Hs Hc) as (_ & _ & Hall). destruct (is_state COMPLETED c) eqn:Ecc; cbn [negb].
    - apply is_state_true in Ecc. intros y b Hb Hy Hp. destruct (decide (y = n)) as [->|Hyn]; [destruct Hb as [E _]; rewrite Ec in E; injection E as <-; exact Ecc|].
      destruct (Hall y b Hb Hy Hyn) as [[Hq _]|[_ Hle]]; [destruct (As y Hq Hp)|]. apply Cp. specialize (Le c b Hc (proj2 Hb) Hle). unfold rank in Le at 1. rewrite Ecc in Le. exact Le.
    - apply is_state_false in Ecc. exists n, c. split; [exact Hn|]. split; [split; assumption|exact Ecc]. }
  destruct Prev as (pv & Ep & Pt). rewrite (bind_ok _ _ _ _ _ Ep). destruct Next as (nv & En & Nt). rewrite (bind_ok _ _ _ _ _ En). fold h. destruct (match pv with Some _ => _ | None => _ end).
  { exists false. split; [reflexivity|]. split; [discriminate|]. intros _. exact Pt. }
  destruct (match nv with Some _ => _ | None => _ end).
  { exists false. split; [reflexivity|]. split; [discriminate|]. intros _. exact Nt. }
  exists true. split; [reflexivity|]. split; [|discriminate]. intros _ y b Hb Hy. exact (Nt y b Hb Hy (Pt y b Hb Hy)).
Qed.
(** ** Erasing a transaction *)

Lemma filter_out_at (l : list nat) i x : NoDup l -> l !! i = Some x -> filter (fun y => y <> x) l = take i l ++ drop (S i) l.
Proof using.
  intros Hnd Ei. rewrite <- (take_drop_middle l i x Ei) at 1. rewrite <- (take_drop_middle l i x Ei) in Hnd. apply NoDup_app in Hnd as (_ & Hd & Hnd). apply NoDup_cons in Hnd as [Hx _].
  assert (Keep : forall k : list nat, x ∉ k -> filter (fun y => y <> x) k = k).
  { induction k as [|y k IH]; intros Hk; [reflexivity|]. rewrite filter_cons_True by (intros ->; apply Hk; left). f_equal. apply IH. intros Hin. apply Hk. right. exact Hin. }
  rewrite filter_app, filter_cons_False by tauto. rewrite !Keep; [reflexivity|exact Hx|]. intros Hin. apply (Hd x Hin). left.
Qed.

Definition without (h : uint256) (m : gmap nat Announcement) : gmap nat Announcement := filter (fun xa => m_txhash (snd xa) <> h) m.

Lemma without_delete h m it a : m !! it = Some a -> m_txhash a = h -> without h (delete it m) = without h m.
Proof using.
  intros Ea Hh. apply map_eq. intros x. apply option_eq. intros b. unfold without. rewrite !map_lookup_filter_Some, lookup_delete_Some. cbn. split; [tauto|].
  intros [E Hb]. split; [split; [|exact E]|exact Hb]. intros ->. congruence.
Qed.

Lemma without_none h m : (forall y b, m !! y = Some b -> m_txhash b <> h) -> without h m = m.
Proof using. intros Hn. apply map_filter_id. intros y b Eb. exact (Hn y b Eb). Qed.

(** [it], at [i], is the first node of the transaction in the index. *)
Definition first_of (h : uint256) (s : st) (it i : nat) : Prop := ByTxHash (m_index s) !! i = Some it /\ (exists a, about (anns s) h it a) /\
  forall j y b, ByTxHash (m_index s) !! j = Some y -> about (anns s) h y b -> (i <= j)%nat.

Lemma erase_hash_spec h fuel : forall s it i, wf s -> first_of h s it i -> (size (anns s) <= S fuel)%nat ->
  exists s', erase_hash fuel h it s = (Ok tt, s') /\ wf s' /\ anns s' = without h (anns s) /\ m_current_sequence s' = m_current_sequence s.
Proof using HL.
  induction fuel as [|fuel IH]; intros s it i Hw (Ei & [a [Ea Ha]] & Hfirst) Hsz; destruct (Erase_spec m_computer ByTxHash it a s Hw Ea) as (s1 & E1 & M1 & W1 & Q1 & I1);
    cbn [erase_hash]; rewrite (bind_ok _ _ _ _ _ E1); pose proof (in_txhash_order s) as (Hnd & Hin & Hso); rewrite (next_in_spec _ it i Hnd Ei).
  all: assert (Later : forall y b, about (anns s) h y b -> y <> it -> exists j, (i < j)%nat /\ ByTxHash (m_index s) !! j = Some y)
    by (intros y b Hb Hy; destruct (position _ _ _ _ (in_txhash_order s) y b (proj1 Hb)) as [j Ej]; exists j; split; [|exact Ej]; pose proof (Hfirst j y b Ej Hb); destruct (Nat.eq_dec i j) as [->|?]; [congruence|lia]).
  all: assert (Done : (forall y b, about (anns s) h y b -> y = it) -> anns s1 = without h (anns s))
    by (intros Hall; rewrite M1, <- (without_delete h (anns s) it a Ea Ha); symmetry; apply without_none; intros y b [Hy Eb]%lookup_delete_Some Hb; apply Hy; symmetry; exact (Hall y b (conj Eb Hb))).
  all: destruct (ByTxHash (m_index s) !! S i) as [n|] eqn:En.
  2,4: unfold mbind, stm_bind; cbn [ann_opt mret stm_ret]; exists s1; split; [reflexivity|]; split; [exact W1|]; split; [|exact Q1]; apply Done; intros y b Hb; destruct (decide (y = it)) as [->|Hy]; [reflexivity|];
    destruct (Later y b Hb Hy) as (j & Hj & Ej); apply lookup_ge_None in En; apply lookup_lt_Some in Ej; lia.
  all: destruct (at_position _ _ _ _ (in_txhash_order s) _ _ En) as [c Ec]; assert (Hn : n <> it) by (intros ->; pose proof (NoDup_lookup _ _ _ _ Hnd Ei En); lia);
    assert (Ec1 : anns s1 !! n = Some c) by (rewrite M1, lookup_delete_ne by congruence; exact Ec); rewrite (bind_ok _ _ _ _ _ (ann_opt_some s1 n c Ec1));
    destruct (bool_decide_reflect (m_txhash c = h)) as [Hc|Hc].
  2,4: exists s1; split; [reflexivity|]; split; [exact W1|]; split; [|exact Q1]; apply Done; intros y b Hb; destruct (decide (y = it)) as [->|Hy]; [reflexivity|]; exfalso; apply Hc;
    destruct (Later y b Hb Hy) as (j & Hj & Ej); destruct (Nat.eq_dec j (S i)) as [->|Hj2]; [destruct Hb; congruence|]; rewrite <- Ha;
    apply (le_txhash_between m_computer a c b); [exact (Hso i (S i) it n a c ltac:(lia) Ei En Ea Ec)|exact (Hso (S i) j n y c b ltac:(lia) En Ej Ec (proj1 Hb))|destruct Hb; congruence].
  - exfalso. assert (Sz : size (anns s1) = pred (size (anns s))) by (rewrite M1; apply map_size_delete_Some; eauto). assert (size (anns s1) <> 0%nat) by (intros E0; apply map_size_empty_inv in E0; rewrite E0 in Ec1; discriminate). lia.
  - assert (Sz : size (anns s1) = pred (size (anns s))) by (rewrite M1; apply map_size_delete_Some; eauto).
    assert (L1 : ByTxHash (m_index s1) = take i (ByTxHash (m_index s)) ++ drop (S i) (ByTxHash (m_index s))) by (rewrite I1, (order_erase (m_computer := m_computer)); apply filter_out_at; assumption).
    assert (Li : length (take i (ByTxHash (m_index s))) = i) by (rewrite length_take; apply lookup_lt_Some in Ei; lia).
    destruct (IH s1 n i W1) as (s2 & E2 & W2 & M2 & Q2); [|lia|].
    + split; [|split; [exists c; split; assumption|]].
      * rewrite L1, lookup_app_r by lia. rewrite Li, Nat.sub_diag, lookup_drop, Nat.add_0_r. exact En.
      * intros j y b Ej [Eb Hb]. destruct (Nat.le_gt_cases i j) as [Hle|Hlt]; [exact Hle|]. rewrite L1, lookup_app_l, lookup_take_lt in Ej by lia. rewrite M1 in Eb. apply lookup_delete_Some in Eb as [_ Eb]. exact (Hfirst j y b Ej (conj Eb Hb)).
    + exists s2. split; [exact E2|]. split; [exact W2|]. split; [|congruence]. rewrite M2, M1. exact (without_delete h (anns s) it a Ea Ha).
Qed.

Lemma without_sel h m : sel_ok m -> sel_ok (without h m).
Proof using.
  intros Hsel. apply (sel_ok_local _ h m); [exact Hsel| |].
  - intros h' x a Hne. unfold about, without. rewrite map_lookup_filter_Some. cbn. split; [tauto|]. intros [E Ha]. split; [split; [exact E|congruence]|exact Ha].
  - assert (N : forall x a, ~ about (without h m) h x a) by (intros x a [E Ha]; apply map_lookup_filter_Some in E as [_ E]; cbn in E; contradiction).
    split; [intros x y a b Ha|intros x a Ha|intros x y a b Ha|intros x a Ha]; destruct (N _ _ Ha).
Qed.

(** ** Completing an announcement *)

(** Either it is marked, or it was the last and the transaction is gone. *)
Definition completes (it : nat) (a : Announcement) (still : bool) (s s' : st) : Prop :=
  if still then m_state a = COMPLETED /\ s' = s \/ live a /\ moved it a COMPLETED s s' /\ (exists y b, y <> it /\ about (anns s) (m_txhash a) y b /\ live b)
  else live a /\ (forall y b, about (anns s) (m_txhash a) y b -> y <> it -> m_state b = COMPLETED) /\ anns s' = without (m_txhash a) (anns s).

Lemma MakeCompleted_spec it a s : wf s -> sel_ok (anns s) -> anns s !! it = Some a ->
  exists still s', MakeCompleted it s = (Ok still, s') /\ wf s' /\ sel_ok (anns s') /\ completes it a still s s' /\ m_current_sequence s' = m_current_sequence s.
Proof using HL.
  intros Hw Hsel Ea. set (h := m_txhash a). unfold MakeCompleted. rewrite (bind_ok _ _ _ _ _ (ann_at_ok s it a Ea)). destruct (is_state COMPLETED a) eqn:Ec.
  { apply is_state_true in Ec. exists true, s. split; [reflexivity|]. split; [exact Hw|]. split; [exact Hsel|]. split; [left; auto|reflexivity]. }
  apply is_state_false in Ec. destruct (IsOnlyNonCompleted_spec it a s Ea Ec) as (only & Eo & Ht & Hf). rewrite (bind_ok _ _ _ _ _ Eo). destruct only.
  - specialize (Ht eq_refl). unfold mbind at 1, stm_bind at 1, get_st at 1. destruct (position _ _ _ _ (in_txhash_order s) it a Ea) as [i Ei].
    destruct (erase_hash_spec h (size (anns s)) s it i Hw) as (s1 & E1 & W1 & M1 & Q1); [|lia|].
    + split; [exact Ei|]. split; [exists a; split; [exact Ea|reflexivity]|]. intros j y b Ej Hb. destruct (Nat.le_gt_cases i j) as [Hle|Hlt]; [exact Hle|]. exfalso.
      assert (Hy : y <> it) by (intros ->; destruct (in_txhash_order s) as (Hnd & _); pose proof (NoDup_lookup _ _ _ _ Hnd Ei Ej); lia). pose proof (Ht y b Hb Hy) as Hcb.
      destruct (in_txhash_order s) as (_ & _ & Hso). destruct (le_rank m_computer h b a (proj2 Hb) eq_refl (Hso j i y it b a Hlt Ej Ei (proj1 Hb) Ea)) as [R _]. apply rank_live in Ec. unfold rank in R at 1. rewrite Hcb in R. cbn in R. lia.
    + rewrite (bind_ok _ _ _ _ _ E1). exists false, s1. split; [reflexivity|]. split; [exact W1|]. split; [rewrite M1; apply without_sel, Hsel|]. split; [split; [exact Ec|split; [exact Ht|exact M1]]|exact Q1].
  - specialize (Hf eq_refl). destruct (ChangeAndReselect_spec it a COMPLETED s Hw Hsel Ea (or_introl eq_refl) (fun _ => Hf)) as (s1 & E1 & W1 & S1 & Mv & Q1). rewrite (bind_ok _ _ _ _ _ E1).
    exists true, s1. split; [reflexivity|]. split; [exact W1|]. split; [exact S1|]. split; [right; split; [exact Ec|split; assumption]|exact Q1].
Qed.

Lemma ForgetTxHash_spec h s : wf s -> sel_ok (anns s) -> exists s', ForgetTxHash m_computer h s = (Ok tt, s') /\ wf s' /\ sel_ok (anns s') /\ anns s' = without h (anns s) /\
  m_current_sequence s' = m_current_sequence s.
Proof using HL.
  intros Hw Hsel. unfold ForgetTxHash. unfold mbind at 1, stm_bind at 1, get_st at 1.
  set (P := fun it => match nodes (m_index s) !! it with Some a => negb (bool_decide (txhash_compare (txhash_view m_computer a) (h, CANDIDATE_DELAYED, 0) = Lt)) | None => false end = true).
  assert (Hp : forall y b, about (anns s) h y b -> P y).
  { intros y b [Eb Hb]. unfold P. unfold anns in Eb. rewrite Eb. apply negb_true_iff, bool_decide_eq_false. unfold txhash_compare, txhash_view. cbn. rewrite Hb, Compare_refl. cbn.
    unfold is_state. destruct (m_state b); cbn; discriminate. }
  pose proof (order_first _ _ _ _ (in_txhash_order s) P) as O. unfold index_lower_bound, from_key. fold P. destruct (head (filter P (ByTxHash (m_index s)))) as [n|] eqn:Eh.
  - destruct O as (c & Ec & Pn & Hall). rewrite (bind_ok _ _ _ _ _ (ann_opt_some s n c Ec)). assert (Hge : hash_le h (m_txhash c)).
    { unfold P in Pn. unfold anns in Ec. rewrite Ec in Pn. apply negb_true_iff, bool_decide_eq_false in Pn. unfold txhash_compare in Pn. cbn in Pn. unfold hash_le. rewrite (Compare_anti (m_txhash c)). destruct (Compare (m_txhash c) h); cbn in *; congruence. }
    destruct (bool_decide_reflect (m_txhash c = h)) as [Hc|Hc].
    + destruct (position _ _ _ _ (in_txhash_order s) n c Ec) as [i Ei]. destruct (erase_hash_spec h (size (anns s)) s n i Hw) as (s1 & E1 & W1 & M1 & Q1); [|lia|].
      * split; [exact Ei|]. split; [exists c; split; assumption|]. intros j y b Ej Hb. destruct (in_txhash_order s) as (Hnd & _). destruct (decide (y = n)) as [->|Hy]; [pose proof (NoDup_lookup _ _ _ _ Hnd Ei Ej); lia|].
        destruct (Hall y b (proj1 Hb) Hy) as [N|[(i' & j' & Hij & Ei' & Ej') _]]; [destruct (N (Hp y b Hb))|]. pose proof (NoDup_lookup _ _ _ _ Hnd Ei Ei'). pose proof (NoDup_lookup _ _ _ _ Hnd Ej Ej'). lia.
      * exists s1. split; [exact E1|]. split; [exact W1|]. split; [rewrite M1; apply without_sel, Hsel|]. split; [exact M1|exact Q1].
    + exists s. split; [reflexivity|]. split; [exact Hw|]. split; [exact Hsel|]. split; [|reflexivity]. symmetry. apply without_none. intros y b Eb Hb. destruct (decide (y = n)) as [->|Hy]; [congruence|].
      destruct (Hall y b Eb Hy) as [N|[_ Hle]]; [exact (N (Hp y b (conj Eb Hb)))|]. apply Hc, (anti_symm hash_le); [rewrite <- Hb; exact (le_txhash_hash m_computer c b Hle)|exact Hge].
  - exists s. split; [reflexivity|]. split; [exact Hw|]. split; [exact Hsel|]. split; [|reflexivity]. symmetry. apply without_none. intros y b Eb Hb. exact (O y b Eb (Hp y b (conj Eb Hb))).
Qed.
End Steps.
