(* ===== verification/TxRequestOps.v ===== *)
(** * The tracker and its calls as the documentation describes them

    The collection of entries that src/txrequest.h describes, what the
    operations of [TxRequestTracker] do to it, and what its calls do. *)

From stdpp Require Import base numbers list gmap sorting strings.
From Stdlib Require Import ZArith Lia Morphisms.
From S2P Require Import Prelude Compact Params SipHash Orphanage OrphanageRefinement TxRequest TxRequestProofs.

Local Open Scope Z_scope.

(** * The tracker, as its documentation describes it

    A tracker is a collection of entries, one per peer and transaction, each a
    candidate, a request or completed ([entry]); what the operations do to such
    a collection ([pruned], [image], [expire], [request]), and the effect of
    the internal steps on it. *)

(** ** Collections of entries *)

Notation coll := (entry -> Prop).
Notation same := (pointwise_relation entry iff).

Definition live_entry (e : entry) : Prop := e_standing e <> Completed.

(** Transactions of which only completed entries are left are forgotten. *)
Definition pruned (T : coll) : coll := fun e => T e /\ exists e', T e' /\ e_hash e' = e_hash e /\ live_entry e'.
Definition image (f : entry -> entry) (T : coll) : coll := fun e => exists e0, T e0 /\ e = f e0.
Definition restrict (P : entry -> Prop) (T : coll) : coll := fun e => T e /\ P e.

#[global] Instance pruned_proper : Proper (same ==> same) pruned.
Proof. intros T T' HT e. unfold pruned. setoid_rewrite HT. reflexivity. Qed.
#[global] Instance image_proper f : Proper (same ==> same) (image f).
Proof. intros T T' HT e. unfold image. setoid_rewrite HT. reflexivity. Qed.
#[global] Instance restrict_proper P : Proper (same ==> same) (restrict P).
Proof. intros T T' HT e. unfold restrict. rewrite (HT e). reflexivity. Qed.

Definition with_standing (sd : standing) (e : entry) : entry :=
  {| e_peer := e_peer e; e_hash := e_hash e; e_seq := e_seq e; e_preferred := e_preferred e; e_wtxid := e_wtxid e; e_standing := sd |}.

Definition at_key (p : Z) (h : uint256) (e : entry) : bool := bool_decide (e_peer e = p /\ e_hash e = h).

(** The entry of a peer and transaction is completed. *)
Definition complete_at (p : Z) (h : uint256) (e : entry) : entry := if at_key p h e then with_standing Completed e else e.

(** Requests that were not answered in time are completed. *)
Definition expire (now : Z) (e : entry) : entry :=
  match e_standing e with Requested expiry => if expiry <=? now then with_standing Completed e else e | _ => e end.

(** A request replaces the candidate; a request to another peer is given up. *)
Definition request_at (p : Z) (h : uint256) (expiry : Z) (e : entry) : entry :=
  if at_key p h e then with_standing (Requested expiry) e
  else match e_standing e with Requested _ => if bool_decide (e_hash e = h) then with_standing Completed e else e | _ => e end.

(** A change that keeps transactions apart and revives nothing. *)
Definition tame (f : entry -> entry) : Prop := forall e, e_hash (f e) = e_hash e /\ (live_entry (f e) -> live_entry e).

Lemma complete_tame p h : tame (complete_at p h).
Proof. intros e. unfold complete_at, live_entry. destruct (at_key p h e); cbn; split; auto; congruence. Qed.
Lemma expire_tame now : tame (expire now).
Proof. intros e. unfold expire, live_entry. destruct (e_standing e) eqn:E; rewrite ?E; auto. destruct (_ <=? _); cbn; rewrite ?E; split; auto; congruence. Qed.

Lemma pruned_image_pruned f T : tame f -> same (pruned (image f (pruned T))) (pruned (image f T)).
Proof.
  intros Hf e. split.
  - intros [(e0 & [H0 _] & ->) (e' & (e1 & [H1 _] & ->) & Hh & Hl)]. split; [exists e0; auto|]. exists (f e1). split; [exists e1; auto|auto].
  - intros [(e0 & H0 & ->) (e' & (e1 & H1 & ->) & Hh & Hl)]. destruct (Hf e0) as [F0 _], (Hf e1) as [F1 L1]. assert (Hh' : e_hash e1 = e_hash e0) by congruence. specialize (L1 Hl). split.
    + exists e0. split; [split; [exact H0|exists e1; auto]|reflexivity].
    + exists (f e1). split; [exists e1; split; [split; [exact H1|exists e1; auto]|reflexivity]|auto].
Qed.

Lemma pruned_restrict_pruned P T : same (pruned (restrict P (pruned T))) (pruned (restrict P T)).
Proof.
  intros e. split.
  - intros [[[H0 _] HP] (e' & [[H1 _] HP'] & Hh & Hl)]. split; [split; assumption|]. exists e'. split; [split; assumption|auto].
  - intros [[H0 HP] (e' & [H1 HP'] & Hh & Hl)]. split; [split; [split; [exact H0|exists e'; auto]|exact HP]|]. exists e'. split; [split; [split; [exact H1|exists e'; auto]|exact HP']|auto].
Qed.

(** ** The collection of a tracker *)

Definition tracked (m : gmap nat Announcement) : coll := fun e => exists x a, m !! x = Some a /\ entry_of a = e.

Lemma tracked_fmap m m' : entry_of <$> m' = entry_of <$> m -> same (tracked m') (tracked m).
Proof.
  intros E e. assert (G : forall k, tracked k e <-> exists x, (entry_of <$> k) !! x = Some e).
  { intros k. unfold tracked. setoid_rewrite lookup_fmap. setoid_rewrite fmap_Some. split; [intros (x & a & Ea & <-); exists x, a; auto|intros (x & a & Ea & ->); exists x, a; auto]. }
  rewrite !G, E. reflexivity.
Qed.

Lemma tracked_insert m it a e : tracked (<[it := a]> m) e <-> entry_of a = e \/ tracked (delete it m) e.
Proof.
  unfold tracked. split.
  - intros (x & b & Eb & <-). apply lookup_insert_Some in Eb as [[<- <-]|[Hx Eb]]; [auto|]. right. exists x, b. rewrite lookup_delete_ne by exact Hx. auto.
  - intros [<-|(x & b & Eb & <-)]; [exists it, a; rewrite lookup_insert_eq; auto|]. apply lookup_delete_Some in Eb as [Hx Eb]. exists x, b. rewrite lookup_insert_ne by exact Hx. auto.
Qed.

Lemma tracked_split m it a e : m !! it = Some a -> tracked m e <-> entry_of a = e \/ tracked (delete it m) e.
Proof. intros E. rewrite <- tracked_insert, insert_id by exact E. reflexivity. Qed.

Lemma live_entry_of a : live_entry (entry_of a) <-> live a.
Proof. unfold live_entry, live, entry_of, standing_of. cbn. destruct (m_state a); split; congruence. Qed.

(** In a selection nothing is left to forget. *)
Lemma tracked_pruned m_computer m : sel_ok m_computer m -> same (pruned (tracked m)) (tracked m).
Proof.
  intros Hsel e. split; [intros [H _]; exact H|]. intros He. split; [exact He|]. destruct He as (x & a & Ea & <-).
  destruct (sa_live _ _ _ (Hsel (m_txhash a)) x a (conj Ea eq_refl)) as (y & b & [Eb Hb] & Hl). exists (entry_of b). split; [exists y, b; auto|]. split; [exact Hb|]. apply live_entry_of, Hl.
Qed.

Lemma entry_completed a : entry_of (SetState COMPLETED a) = with_standing Completed (entry_of a).
Proof. reflexivity. Qed.

Lemma with_own_standing e : with_standing (e_standing e) e = e.
Proof. destruct e. reflexivity. Qed.

(** Apart from one node, no entry has its key. *)
Lemma other_key m it a : uniq m -> m !! it = Some a -> forall e, tracked (delete it m) e -> at_key (m_peer a) (m_txhash a) e = false.
Proof.
  intros Hu Ea e (x & b & [Hx Eb]%lookup_delete_Some & <-). apply bool_decide_eq_false. cbn. intros [H1 H2]. apply Hx. symmetry. exact (Hu x it b a Eb Ea H1 H2).
Qed.

Lemma own_key a : at_key (m_peer a) (m_txhash a) (entry_of a) = true.
Proof. apply bool_decide_eq_true. auto. Qed.

(** A change of entries by key, when only one node has that key. *)
Lemma image_one m it a f : uniq m -> m !! it = Some a -> (forall e, at_key (m_peer a) (m_txhash a) e = false -> tracked (delete it m) e -> f e = e) ->
  forall e, image f (tracked m) e <-> f (entry_of a) = e \/ tracked (delete it m) e.
Proof.
  intros Hu Ea Hf e. unfold image. split.
  - intros (e0 & H0 & ->). apply (tracked_split m it a e0 Ea) in H0 as [<-|H0]; [auto|]. right. rewrite Hf by (eauto using other_key). exact H0.
  - intros [<-|He]; [exists (entry_of a); split; [apply (tracked_split m it a _ Ea); auto|reflexivity]|]. exists e. split; [apply (tracked_split m it a _ Ea); auto|]. symmetry. apply Hf; eauto using other_key.
Qed.

Section Steps.
Context {Index : Type} {HI : MultiIndex Index} (m_computer : uint256 -> Z -> bool -> Z).
Notation st := (tracker Index).
Notation sel_ok := (sel_ok m_computer).

Lemma moved_tracked it a new (s s' : st) : moved it a new s s' -> forall e, tracked (anns s') e <-> entry_of (SetState new a) = e \/ tracked (delete it (anns s)) e.
Proof using.
  intros (m2 & Hr & ->) e. rewrite tracked_insert. destruct (reranked_facts it _ _ _ Hr) as (Ef & _). assert (E : entry_of <$> delete it m2 = entry_of <$> delete it (anns s)) by (rewrite !fmap_delete, Ef; reflexivity).
  rewrite (tracked_fmap _ _ E e). reflexivity.
Qed.

(** A move between the candidate states does not show. *)
Lemma moved_candidate it a new (s s' : st) : anns s !! it = Some a -> moved it a new s s' -> standing_of (SetState new a) = standing_of a -> same (tracked (anns s')) (tracked (anns s)).
Proof using.
  intros Ea Hm Hst e. rewrite (moved_tracked it a new s s' Hm), (tracked_split (anns s) it a e Ea). assert (E : entry_of (SetState new a) = entry_of a) by (unfold entry_of; cbn; rewrite Hst; reflexivity). rewrite E. reflexivity.
Qed.

Lemma completes_tracked it a still (s s' : st) : uniq (anns s) -> sel_ok (anns s) -> sel_ok (anns s') -> anns s !! it = Some a -> completes it a still s s' ->
  same (tracked (anns s')) (pruned (image (complete_at (m_peer a) (m_txhash a)) (tracked (anns s)))).
Proof using.
  intros Hu Hsel Hsel' Ea Hc. set (f := complete_at (m_peer a) (m_txhash a)).
  assert (Im : forall e, image f (tracked (anns s)) e <-> with_standing Completed (entry_of a) = e \/ tracked (delete it (anns s)) e).
  { intros e. unfold f. rewrite (image_one (anns s) it a _ Hu Ea); [unfold complete_at; rewrite own_key; reflexivity|]. intros e0 Hk _. unfold complete_at. rewrite Hk. reflexivity. }
  destruct still; [destruct Hc as [[Hcm ->]|(Hl & Hm & _)]|destruct Hc as (Hl & Hall & Em)].
  - assert (Ei : same (image f (tracked (anns s))) (tracked (anns s))).
    { intros e. rewrite Im, (tracked_split (anns s) it a e Ea). assert (E : with_standing Completed (entry_of a) = entry_of a) by (unfold with_standing, entry_of, standing_of; rewrite Hcm; reflexivity). rewrite E. reflexivity. }
    rewrite Ei. symmetry. exact (tracked_pruned m_computer (anns s) Hsel).
  - assert (Ei : same (tracked (anns s')) (image f (tracked (anns s)))) by (intros e; rewrite Im, (moved_tracked it a COMPLETED s s' Hm); reflexivity).
    rewrite <- Ei. symmetry. exact (tracked_pruned m_computer (anns s') Hsel').
  - intros e. rewrite Em. split.
    + intros (x & b & [Eb Hb]%map_lookup_filter_Some & <-). cbn in Hb. assert (Hx : x <> it) by congruence. destruct (sa_live _ _ _ (Hsel (m_txhash b)) x b (conj Eb eq_refl)) as (y & d & [Ed Hd] & Hld).
      assert (Hy : y <> it) by congruence. split; [apply Im; right; exists x, b; rewrite lookup_delete_ne by congruence; auto|].
      exists (entry_of d). split; [apply Im; right; exists y, d; rewrite lookup_delete_ne by congruence; auto|]. split; [exact Hd|apply live_entry_of, Hld].
    + intros [He (e' & He' & Hh & Hl')]. apply Im in He, He'. assert (Hne : e_hash e <> m_txhash a).
      { intros Eh. destruct He' as [<-|(y & b & [Hy Eb]%lookup_delete_Some & <-)]; [apply Hl'; reflexivity|]. apply live_entry_of in Hl'. apply Hl'. apply (Hall y b); [split; [exact Eb|cbn in Hh; congruence]|congruence]. }
      destruct He as [<-|(y & b & [Hy Eb]%lookup_delete_Some & <-)]; [destruct (Hne eq_refl)|]. exists y, b. split; [|reflexivity]. apply map_lookup_filter_Some. auto.
Qed.
End Steps.

(** * The operations of the tracker

    What each operation of [TxRequestTracker] does to the collection of
    entries; [SetTimePoint] and its loops first. *)

Lemma cnt_mono P m m' : m ⊆ m' -> cnt P m <= cnt P m'.
Proof.
  intros Hs. unfold cnt. apply inj_le, map_subseteq_size. apply map_subseteq_spec. intros x a [E Hp]%map_lookup_filter_Some. apply map_lookup_filter_Some. split; [exact (lookup_weaken _ _ _ _ E Hs)|exact Hp].
Qed.

Section Ops.
Context {GT : GenTxids} {Index : Type} {HI : MultiIndex Index} (m_computer : uint256 -> Z -> bool -> Z) {HL : MultiIndexLaws Index m_computer}.
Notation st := (tracker Index).
Notation sel_ok := (sel_ok m_computer).

Definition good (s : st) : Prop := wf s /\ sel_ok (anns s).

(** ** Time *)

Lemma moved_cnt P it a new (s s' : st) : anns s !! it = Some a -> moved it a new s s' ->
  (forall c sd, IsSelectable c = true -> (sd = CANDIDATE_READY \/ sd = CANDIDATE_BEST) -> P (SetState sd c) = P c) ->
  cnt P (anns s') = cnt P (anns s) - count_if (P a) + count_if (P (SetState new a)).
Proof using.
  intros Ea (m2 & Hr & ->) HP. destruct (reranked_facts it _ _ _ Hr) as (_ & E2 & _). rewrite (cnt_update P m2 it a) by (rewrite E2; exact Ea). f_equal. f_equal.
  destruct Hr as [->|(n & c & sd & _ & Ec & _ & Hs & Hst & ->)]; [reflexivity|]. rewrite (cnt_update P _ n c _ Ec), (HP c sd Hs Hst). lia.
Qed.

(** Announcements whose time has come. *)
Definition due (now : Z) (a : Announcement) : bool := (IsWaiting a && (m_time a <=? now))%bool.
(** Candidates that were ready before the clock went back. *)
Definition early (now : Z) (a : Announcement) : bool := (IsSelectable a && (m_time a >? now))%bool.

Lemma due_reranked now c sd : IsSelectable c = true -> (sd = CANDIDATE_READY \/ sd = CANDIDATE_BEST) -> due now (SetState sd c) = due now c.
Proof using.
  intros Hs Hst. unfold due. replace (IsWaiting c) with false by (apply selectable_cases in Hs; unfold IsWaiting, is_state; destruct Hs as [-> | ->]; reflexivity).
  replace (IsWaiting (SetState sd c)) with false by (unfold IsWaiting, is_state; cbn; destruct Hst as [-> | ->]; reflexivity). reflexivity.
Qed.

Lemma early_reranked now c sd : IsSelectable c = true -> (sd = CANDIDATE_READY \/ sd = CANDIDATE_BEST) -> early now (SetState sd c) = early now c.
Proof using.
  intros Hs Hst. unfold early. rewrite Hs. replace (IsSelectable (SetState sd c)) with true by (symmetry; apply selectable_cases; exact Hst). reflexivity.
Qed.

(** The requests in a collection that are overdue. *)
Definition overdue (now : Z) (T : coll) (pg : Z * GenTxid) : Prop :=
  exists e expiry, T e /\ e_standing e = Requested expiry /\ expiry <= now /\ pg = (e_peer e, if e_wtxid e then GenTxid_Wtxid (e_hash e) else GenTxid_Txid (e_hash e)).

#[local] Instance overdue_proper now : Proper (same ==> pointwise_relation _ iff) (overdue now).
Proof using. intros T T' HT pg. unfold overdue. setoid_rewrite HT. reflexivity. Qed.

Lemma expire_complete now a : m_state a = REQUESTED -> m_time a <= now -> forall e, tracked {[ 0%nat := a ]} e -> expire now (complete_at (m_peer a) (m_txhash a) e) = expire now e.
Proof using.
  intros Hs Ht e (x & b & Eb & <-). apply lookup_singleton_Some in Eb as [_ <-]. unfold complete_at. rewrite own_key. unfold expire, entry_of, standing_of. cbn. rewrite Hs. cbn.
  rewrite (proj2 (Z.leb_le _ _) Ht). reflexivity.
Qed.

(** Completing an overdue request changes nothing in what is left of the
    collection once all overdue requests are completed. *)
Lemma complete_overdue now m it a : uniq m -> m !! it = Some a -> m_state a = REQUESTED -> m_time a <= now ->
  same (pruned (image (expire now) (pruned (image (complete_at (m_peer a) (m_txhash a)) (tracked m))))) (pruned (image (expire now) (tracked m))).
Proof using.
  intros Hu Ea Hs Ht. rewrite (pruned_image_pruned (expire now) (image (complete_at (m_peer a) (m_txhash a)) (tracked m)) (expire_tame now)).
  assert (E : same (image (expire now) (image (complete_at (m_peer a) (m_txhash a)) (tracked m))) (image (expire now) (tracked m))); [|rewrite E; reflexivity].
  assert (X : forall e, tracked m e -> expire now (complete_at (m_peer a) (m_txhash a) e) = expire now e).
  { intros e He. apply (tracked_split m it a e Ea) in He as [<-|He].
    - apply expire_complete; [exact Hs|exact Ht|]. exists 0%nat, a. rewrite lookup_singleton_eq. auto.
    - unfold complete_at. rewrite (other_key m it a Hu Ea e He). reflexivity. }
  intros e. split.
  - intros (e1 & (e0 & H0 & ->) & ->). exists e0. split; [exact H0|]. apply X, H0.
  - intros (e0 & H0 & ->). exists (complete_at (m_peer a) (m_txhash a) e0). split; [exists e0; auto|]. symmetry. apply X, H0.
Qed.

Lemma in_time_order s : lists_in_order time_compare time_view (anns s) (ByTime (m_index s)).
Proof using HL. apply by_time_sorted. Qed.

(** The other overdue requests stay. *)
Lemma completes_waiting it a still (s s' : st) : anns s !! it = Some a -> live a -> completes it a still s s' -> forall x b, IsWaiting b = true -> (anns s' !! x = Some b <-> anns s !! x = Some b /\ x <> it).
Proof using.
  intros Ea Hl Hc x b Hb. pose proof Hb as Hb'. apply waiting_cases in Hb'. destruct still; [destruct Hc as [[Hcm _]|(_ & (m2 & Hr & ->) & _)]; [contradiction|]|destruct Hc as (_ & Hall & ->)].
  - destruct (reranked_facts it _ _ _ Hr) as (_ & _ & Hsame & _). rewrite lookup_insert_Some, (Hsame x b) by (apply not_true_iff_false; intros Hs; apply selectable_cases in Hs; destruct Hb', Hs; congruence). split.
    + intros [[<- <-]|[Hx E]]; [cbn in Hb'; destruct Hb'; discriminate|auto].
    + intros [E Hx]. right. auto.
  - unfold without. rewrite map_lookup_filter_Some. cbn. split.
    + intros [E Hh]. split; [exact E|]. intros ->. rewrite Ea in E. injection E as <-. contradiction.
    + intros [E Hx]. split; [exact E|]. intros Hh. rewrite (Hall x b (conj E Hh) Hx) in Hb'. destruct Hb'; discriminate.
Qed.

Lemma completes_cnt now it a still (s s' : st) : anns s !! it = Some a -> m_state a = REQUESTED -> due now a = true -> completes it a still s s' -> cnt (due now) (anns s') < cnt (due now) (anns s).
Proof using.
  intros Ea Hs Hd Hc. destruct still; [destruct Hc as [[Hcm _]|(_ & Hm & _)]; [congruence|]|destruct Hc as (_ & _ & ->)].
  - rewrite (moved_cnt (due now) it a COMPLETED s s' Ea Hm (due_reranked now)), Hd. cbn [count_if]. change (due now (SetState COMPLETED a)) with false. cbn. lia.
  - pose proof (cnt_delete (due now) (anns s) it a Ea) as D. rewrite Hd in D. cbn in D. enough (cnt (due now) (without (m_txhash a) (anns s)) <= cnt (due now) (delete it (anns s))) by lia.
    apply cnt_mono, map_subseteq_spec. intros x b [E Hb]%map_lookup_filter_Some. rewrite lookup_delete_ne; [exact E|]. intros ->. cbn in Hb. congruence.
Qed.

(** A request of the collection is an announcement in that state. *)
Lemma requested_entry a expiry : e_standing (entry_of a) = Requested expiry <-> m_state a = REQUESTED /\ m_time a = expiry.
Proof using. unfold entry_of, standing_of. cbn. destruct (m_state a); split; try discriminate; try (intros [? ?]; discriminate); [intros [= <-]; auto|intros [_ ->]; reflexivity]. Qed.

Definition answer (a : Announcement) : Z * GenTxid := (m_peer a, ToGenTxid a).

Lemma overdue_tracked now m pg : overdue now (tracked m) pg <-> exists x a, m !! x = Some a /\ m_state a = REQUESTED /\ m_time a <= now /\ pg = answer a.
Proof using.
  unfold overdue. split.
  - intros (e & expiry & (x & a & Ea & <-) & Hs & Hle & ->). apply requested_entry in Hs as [Hs <-]. exists x, a. auto.
  - intros (x & a & Ea & Hs & Hle & ->). exists (entry_of a), (m_time a). split; [exists x, a; auto|]. split; [apply requested_entry; auto|]. auto.
Qed.

Lemma completes_overdue now it a still (s s' : st) pg : anns s !! it = Some a -> m_state a = REQUESTED -> m_time a <= now -> completes it a still s s' ->
  overdue now (tracked (anns s)) pg <-> pg = answer a \/ overdue now (tracked (anns s')) pg.
Proof using.
  intros Ea Hs Hle Hc. rewrite !overdue_tracked. assert (Hl : live a) by (unfold live; congruence). assert (W : forall b, m_state b = REQUESTED -> IsWaiting b = true) by (intros b Hb; apply waiting_cases; auto). split.
  - intros (x & b & Eb & Hb & Ht & ->). destruct (decide (x = it)) as [->|Hx]; [left; congruence|]. right. exists x, b. split; [apply (completes_waiting it a still s s' Ea Hl Hc x b (W b Hb)); auto|auto].
  - intros [->|(x & b & Eb & Hb & Ht & ->)]; [exists it, a; auto|]. exists x, b. split; [apply (completes_waiting it a still s s' Ea Hl Hc x b (W b Hb)), Eb|auto].
Qed.

(** When nothing is due, the collection is as it should be. *)
Lemma nothing_due now (s : st) : sel_ok (anns s) -> (forall x a, anns s !! x = Some a -> due now a = false) ->
  same (tracked (anns s)) (pruned (image (expire now) (tracked (anns s)))) /\ (forall pg, ~ overdue now (tracked (anns s)) pg).
Proof using.
  intros Hsel Hno. assert (Late : forall x a, anns s !! x = Some a -> m_state a = REQUESTED -> now < m_time a).
  { intros x a Ea Hs. pose proof (Hno x a Ea) as Hd. unfold due in Hd. rewrite (proj2 (waiting_cases a) (or_introl Hs)) in Hd. cbn in Hd. apply Z.leb_gt in Hd. exact Hd. }
  split.
  - assert (E : same (image (expire now) (tracked (anns s))) (tracked (anns s))); [|rewrite E; symmetry; exact (tracked_pruned m_computer (anns s) Hsel)].
    assert (X : forall e, tracked (anns s) e -> expire now e = e).
    { intros e (x & a & Ea & <-). unfold expire. destruct (e_standing (entry_of a)) as [|expiry|] eqn:Es; try reflexivity. apply requested_entry in Es as [Hs <-]. rewrite (proj2 (Z.leb_gt _ _) (Late x a Ea Hs)). reflexivity. }
    intros e. split; [intros (e0 & H0 & ->); rewrite X by exact H0; exact H0|]. intros He. exists e. split; [exact He|]. symmetry. apply X, He.
  - intros pg Ho. apply overdue_tracked in Ho as (x & a & Ea & Hs & Hle & _). specialize (Late x a Ea Hs). lia.
Qed.

(** The head of the index by time tells whether anything is due. *)
Lemma head_due now s it rest : ByTime (m_index s) = it :: rest -> exists a, anns s !! it = Some a /\ (due now a = false -> forall x b, anns s !! x = Some b -> due now b = false).
Proof using HL.
  intros El. destruct (order_head _ _ _ _ (in_time_order s) it rest El) as (a & Ea & Hmin). exists a. split; [exact Ea|]. intros Hd x b Eb. destruct (decide (x = it)) as [->|Hx]; [congruence|].
  apply not_true_iff_false. intros Hb. unfold due in Hb, Hd. apply andb_true_iff in Hb as [Hb1 Hb2]. apply Z.leb_le in Hb2. pose proof (le_time a b (Hmin x b Eb Hx)) as Hle.
  unfold GetWaitState in Hle. rewrite Hb1 in Hle. destruct (IsWaiting a); [|destruct (IsSelectable a); lia]. cbn in Hd. apply Z.leb_gt in Hd. lia.
Qed.

Lemma due_split now a : due now a = ((is_state CANDIDATE_DELAYED a && (m_time a <=? now)) || (is_state REQUESTED a && (m_time a <=? now)))%bool.
Proof using. unfold due, IsWaiting. destruct (is_state REQUESTED a), (is_state CANDIDATE_DELAYED a), (m_time a <=? now); reflexivity. Qed.

(** What the loop over the announcements that are due achieves. *)
Definition forwarded (now : Z) (acc : list (Z * GenTxid)) (s : st) (out : list (Z * GenTxid)) (s' : st) : Prop :=
  good s' /\ m_current_sequence s' = m_current_sequence s /\ (forall x a, anns s' !! x = Some a -> due now a = false) /\
  same (tracked (anns s')) (pruned (image (expire now) (tracked (anns s)))) /\ (forall pg, pg ∈ out <-> pg ∈ acc \/ overdue now (tracked (anns s)) pg).

Lemma time_forward_spec now fuel : forall s acc, good s -> cnt (due now) (anns s) <= Z.of_nat fuel -> exists out s', time_forward m_computer fuel now acc s = (Ok out, s') /\ forwarded now acc s out s'.
Proof using HL.
  induction fuel as [|fuel IH]; intros s acc [Hw Hsel] Hf; cbn [time_forward]; unfold mbind at 1, stm_bind at 1, get_st at 1.
  all: assert (Stop : (forall x a, anns s !! x = Some a -> due now a = false) -> exists out s', @mret (stm st) _ _ acc s = (Ok out, s') /\ forwarded now acc s out s')
    by (intros Hno; destruct (nothing_due now s Hsel Hno) as [E1 E2]; exists acc, s; split; [reflexivity|]; split; [split; assumption|]; split; [reflexivity|]; split; [exact Hno|]; split; [exact E1|];
        intros pg; specialize (E2 pg); tauto).
  all: destruct (ByTime (m_index s)) as [|it rest] eqn:El;
    [apply Stop; intros x a Ea; destruct (in_time_order s) as (_ & Hin & _); rewrite El in Hin; exfalso; apply (not_elem_of_nil x), Hin; eauto|].
  all: destruct (head_due now s it rest El) as (a & Ea & Hhead); rewrite (bind_ok _ _ _ _ _ (ann_at_ok s it a Ea)); rewrite due_split in Hhead.
  all: destruct (is_state CANDIDATE_DELAYED a && (m_time a <=? now))%bool eqn:C1; [|destruct (is_state REQUESTED a && (m_time a <=? now))%bool eqn:C2; [|exact (Stop (Hhead eq_refl))]].
  all: assert (Hdue : due now a = true) by (rewrite due_split, ?C1, ?C2, ?orb_true_r; reflexivity); pose proof (cnt_pos (due now) (anns s) it a Ea Hdue) as Hpos; try lia.
  - clear Hhead. apply andb_true_iff in C1 as [C1%is_state_true _]. destruct (PromoteCandidateReady_spec m_computer it a s Hw Hsel Ea C1) as (s1 & new & E1 & W1 & S1 & Mv & Hnew & Q1). rewrite (bind_ok _ _ _ _ _ E1).
    assert (Sd : standing_of (SetState new a) = standing_of a) by (unfold standing_of; rewrite C1; cbn; destruct Hnew as [-> | ->]; reflexivity). pose proof (moved_candidate it a new s s1 Ea Mv Sd) as T1.
    assert (C : cnt (due now) (anns s1) = cnt (due now) (anns s) - 1).
    { rewrite (moved_cnt (due now) it a new s s1 Ea Mv (due_reranked now)), Hdue. replace (due now (SetState new a)) with false by (unfold due, IsWaiting, is_state; cbn; destruct Hnew as [-> | ->]; reflexivity). cbn. lia. }
    destruct (IH s1 acc (conj W1 S1) ltac:(lia)) as (out & s2 & E2 & G2 & Q2 & D2 & T2 & O2). exists out, s2. split; [exact E2|]. split; [exact G2|]. split; [congruence|]. split; [exact D2|]. rewrite T1 in T2. split; [exact T2|].
    intros pg. rewrite O2, (overdue_proper now _ _ T1 pg). reflexivity.
  - clear Hhead. apply andb_true_iff in C2 as [C2%is_state_true Ht%Z.leb_le]. destruct (MakeCompleted_spec m_computer it a s Hw Hsel Ea) as (still & s1 & E1 & W1 & S1 & Cp & Q1). rewrite (bind_ok _ _ _ _ _ E1).
    pose proof (completes_tracked m_computer it a still s s1 (wf_uniq _ Hw) Hsel S1 Ea Cp) as T1. pose proof (completes_cnt now it a still s s1 Ea C2 Hdue Cp) as C.
    destruct (IH s1 (acc ++ [(m_peer a, ToGenTxid a)]) (conj W1 S1) ltac:(lia)) as (out & s2 & E2 & G2 & Q2 & D2 & T2 & O2). exists out, s2. split; [exact E2|]. split; [exact G2|]. split; [congruence|]. split; [exact D2|].
    rewrite T1, (complete_overdue now (anns s) it a (wf_uniq _ Hw) Ea C2 Ht) in T2. split; [exact T2|].
    intros pg. rewrite O2, elem_of_app, list_elem_of_singleton, (completes_overdue now it a still s s1 pg Ea C2 Ht Cp). unfold answer. tauto.
Qed.
Lemma last_early now s it : last (ByTime (m_index s)) = Some it -> exists a, anns s !! it = Some a /\ (early now a = false -> forall x b, anns s !! x = Some b -> early now b = false).
Proof using HL.
  intros El. destruct (order_last _ _ _ _ (in_time_order s) it El) as (a & Ea & Hmax). exists a. split; [exact Ea|]. intros Hd x b Eb. destruct (decide (x = it)) as [->|Hx]; [congruence|].
  apply not_true_iff_false. intros Hb. unfold early in Hb, Hd. apply andb_true_iff in Hb as [Hb1 Hb2]. rewrite Z.gtb_ltb in Hb2. apply Z.ltb_lt in Hb2. pose proof (le_time b a (Hmax x b Eb Hx)) as Hle.
  unfold GetWaitState in Hle. replace (IsWaiting b) with false in Hle by (apply selectable_cases in Hb1; unfold IsWaiting, is_state; destruct Hb1 as [-> | ->]; reflexivity). rewrite Hb1 in Hle.
  destruct (IsWaiting a); [lia|]. destruct (IsSelectable a); [|lia]. cbn in Hd. rewrite Z.gtb_ltb in Hd. apply Z.ltb_ge in Hd. lia.
Qed.

Lemma time_backward_spec now fuel : forall s, good s -> cnt (early now) (anns s) <= Z.of_nat fuel -> (forall x a, anns s !! x = Some a -> due now a = false) ->
  exists s', time_backward fuel now s = (Ok tt, s') /\ good s' /\ m_current_sequence s' = m_current_sequence s /\ (forall x a, anns s' !! x = Some a -> due now a = false /\ early now a = false) /\
    same (tracked (anns s')) (tracked (anns s)).
Proof using HL.
  induction fuel as [|fuel IH]; intros s [Hw Hsel] Hf Hdue; cbn [time_backward]; unfold mbind at 1, stm_bind at 1, get_st at 1.
  all: assert (Stop : (forall x a, anns s !! x = Some a -> early now a = false) -> exists s', @mret (stm st) _ _ tt s = (Ok tt, s') /\ good s' /\ m_current_sequence s' = m_current_sequence s /\
      (forall x a, anns s' !! x = Some a -> due now a = false /\ early now a = false) /\ same (tracked (anns s')) (tracked (anns s)))
    by (intros Hno; exists s; split; [reflexivity|]; split; [split; assumption|]; split; [reflexivity|]; split; [intros x a Ea; split; [exact (Hdue x a Ea)|exact (Hno x a Ea)]|intros e; reflexivity]).
  all: destruct (last (ByTime (m_index s))) as [it|] eqn:El;
    [|apply Stop; intros x a Ea; destruct (in_time_order s) as (_ & Hin & _); apply last_None in El; rewrite El in Hin; exfalso; apply (not_elem_of_nil x), Hin; eauto].
  all: destruct (last_early now s it El) as (a & Ea & Hlast); rewrite (bind_ok _ _ _ _ _ (ann_at_ok s it a Ea)); unfold early in Hlast.
  all: destruct (IsSelectable a && (m_time a >? now))%bool eqn:C; [|exact (Stop (Hlast eq_refl))]; pose proof (cnt_pos (early now) (anns s) it a Ea C) as Hpos; try lia.
  apply andb_true_iff in C as [C1 C2]. rewrite Z.gtb_ltb in C2. apply Z.ltb_lt in C2. pose proof C1 as C1'. apply selectable_cases in C1'.
  destruct (ChangeAndReselect_spec m_computer it a CANDIDATE_DELAYED s Hw Hsel Ea (or_intror eq_refl) ltac:(discriminate)) as (s1 & E1 & W1 & S1 & Mv & Q1). rewrite (bind_ok _ _ _ _ _ E1).
  assert (Sd : standing_of (SetState CANDIDATE_DELAYED a) = standing_of a) by (unfold standing_of; cbn; destruct C1' as [-> | ->]; reflexivity). pose proof (moved_candidate it a _ s s1 Ea Mv Sd) as T1.
  destruct (IH s1 (conj W1 S1)) as (s2 & E2 & G2 & Q2 & D2 & T2).
  - rewrite (moved_cnt (early now) it a _ s s1 Ea Mv (early_reranked now)). replace (early now a) with true by (unfold early; rewrite C1, Z.gtb_ltb; symmetry; apply Z.ltb_lt, C2).
    change (early now (SetState CANDIDATE_DELAYED a)) with false. cbn. lia.
  - intros x b Eb. destruct Mv as (m2 & Hr & M2). rewrite M2 in Eb. apply lookup_insert_Some in Eb as [[<- <-]|[Hx Eb]].
    + unfold due. cbn. apply andb_false_iff. right. apply Z.leb_gt, C2.
    + destruct (reranked_facts it _ _ _ Hr) as (_ & _ & Hs & _). destruct (IsSelectable b) eqn:Sb; [|apply (Hdue x b), Hs; assumption].
      unfold due. replace (IsWaiting b) with false by (apply selectable_cases in Sb; unfold IsWaiting, is_state; destruct Sb as [-> | ->]; reflexivity). reflexivity.
  - exists s2. split; [exact E2|]. split; [exact G2|]. split; [congruence|]. split; [exact D2|]. rewrite T2. exact T1.
Qed.

(** After [SetTimePoint] the states fit the time, the overdue requests are
    completed and reported, and candidates are as before. *)
Lemma SetTimePoint_spec now s : good s -> exists out s', SetTimePoint m_computer now s = (Ok out, s') /\ good s' /\ m_current_sequence s' = m_current_sequence s /\
  (forall x a, anns s' !! x = Some a -> (IsWaiting a = true -> now < m_time a) /\ (IsSelectable a = true -> m_time a <= now)) /\
  same (tracked (anns s')) (pruned (image (expire now) (tracked (anns s)))) /\ (forall pg, pg ∈ out <-> overdue now (tracked (anns s)) pg).
Proof using HL.
  intros Hg. unfold SetTimePoint. unfold mbind at 1, stm_bind at 1, get_st at 1. destruct (time_forward_spec now (size (anns s)) s [] Hg) as (out & s1 & E1 & G1 & Q1 & D1 & T1 & O1); [apply cnt_range|].
  rewrite (bind_ok _ _ _ _ _ E1). unfold mbind at 1, stm_bind at 1, get_st at 1. destruct (time_backward_spec now (size (anns s1)) s1 G1) as (s2 & E2 & G2 & Q2 & D2 & T2); [apply cnt_range|exact D1|].
  rewrite (bind_ok _ _ _ _ _ E2). exists out, s2. split; [reflexivity|]. split; [exact G2|]. split; [congruence|]. split; [|split].
  - intros x a Ea. destruct (D2 x a Ea) as [Hd He]. unfold due, early in *. split; intros Hs; rewrite Hs in *; cbn in *; [apply Z.leb_gt in Hd; exact Hd|rewrite Z.gtb_ltb in He; apply Z.ltb_ge in He; exact He].
  - rewrite T2. exact T1.
  - intros pg. rewrite O1. rewrite elem_of_nil. tauto.
Qed.

(** ** A peer goes *)

Lemma in_peer_order s : lists_in_order peer_compare peer_view (anns s) (ByPeer (m_index s)).
Proof using HL. apply (by_peer_sorted (m_computer := m_computer)). Qed.

Notation le_peer := (below peer_compare peer_view).

Lemma le_peer_peer a b : le_peer a b -> m_peer a <= m_peer b.
Proof using. unfold below, peer_compare. cbn. destruct (Z.compare_spec (m_peer a) (m_peer b)); cbn; [lia|lia|congruence]. Qed.

Lemma peer_compare_anti x y : peer_compare y x = CompOpp (peer_compare x y).
Proof using.
  destruct x as [[p b] h], y as [[p' b'] h']. unfold peer_compare. cbn. rewrite (Z.compare_antisym p p'). destruct (p ?= p'); cbn; try reflexivity. destruct b, b'; cbn; try reflexivity; apply Compare_anti.
Qed.

(** Two announcements that are below each other are one. *)
Lemma le_peer_antisym m x y a b : uniq m -> m !! x = Some a -> m !! y = Some b -> le_peer a b -> le_peer b a -> x = y.
Proof using.
  intros Hu Ea Eb H1 H2. unfold below in *. rewrite (peer_compare_anti (peer_view a)) in H2. destruct (peer_compare (peer_view a) (peer_view b)) eqn:E; cbn in *; try congruence.
  apply peer_compare_eq in E. unfold peer_view in E. injection E as E1 _ E2. exact (Hu x y a b Ea Eb E1 E2).
Qed.

(** [it] is the first announcement of the peer, or there is none. *)
Definition first_of_peer (p : Z) (m : gmap nat Announcement) (it : option nat) : Prop :=
  match it with
  | Some x => exists a, m !! x = Some a /\ m_peer a = p /\ forall y b, m !! y = Some b -> m_peer b = p -> y <> x -> le_peer a b
  | None => forall y b, m !! y = Some b -> m_peer b <> p
  end.

(** What follows the first announcement of a peer. *)
Lemma second_of_peer p s it a : wf s -> anns s !! it = Some a -> m_peer a = p -> (forall y b, anns s !! y = Some b -> m_peer b = p -> y <> it -> le_peer a b) ->
  exists bo, ann_opt (next_in (ByPeer (m_index s)) it) s = (Ok bo, s) /\
    first_of_peer p (delete it (anns s)) (match bo with Some b => if m_peer b =? p then next_in (ByPeer (m_index s)) it else None | None => None end).
Proof using HL.
  intros Hw Ea Hp Hmin. pose proof (order_next _ _ _ _ (in_peer_order s) it a Ea) as O. destruct (next_in (ByPeer (m_index s)) it) as [n|].
  - destruct O as (c & Ec & Hn & _ & Hac & Hall). exists (Some c). split; [apply ann_opt_some, Ec|]. destruct (Z.eqb_spec (m_peer c) p) as [Hc|Hc].
    + exists c. rewrite lookup_delete_ne by congruence. split; [exact Ec|]. split; [exact Hc|]. intros y b [Hy Eb]%lookup_delete_Some Hb Hyn. destruct (Hall y b Eb ltac:(congruence) Hyn) as [[_ Hle]|[_ Hle]]; [|exact Hle].
      exfalso. apply Hy. symmetry. apply (le_peer_antisym (anns s) y it b a (wf_uniq _ Hw) Eb Ea Hle). apply (Hmin y b Eb Hb). congruence.
    + intros y b [Hy Eb]%lookup_delete_Some Hb. destruct (decide (y = n)) as [->|Hyn]; [congruence|]. destruct (Hall y b Eb ltac:(congruence) Hyn) as [[_ Hle]|[_ Hle]].
      * apply Hy. symmetry. apply (le_peer_antisym (anns s) y it b a (wf_uniq _ Hw) Eb Ea Hle). apply (Hmin y b Eb Hb). congruence.
      * apply le_peer_peer in Hac, Hle. lia.
  - exists None. split; [reflexivity|]. intros y b [Hy Eb]%lookup_delete_Some Hb. destruct (O y b Eb ltac:(congruence)) as [_ Hle].
    apply Hy. symmetry. apply (le_peer_antisym (anns s) y it b a (wf_uniq _ Hw) Eb Ea Hle). apply (Hmin y b Eb Hb). congruence.
Qed.
Lemma drop_completed_sel m it a : sel_ok m -> m !! it = Some a -> m_state a = COMPLETED -> sel_ok (delete it m).
Proof using.
  intros Hsel Ea Hc h. destruct (Hsel h) as [A B C D]. assert (Up : forall x b, about (delete it m) h x b <-> about m h x b /\ x <> it) by (intros x b; unfold about; rewrite lookup_delete_Some; intuition congruence).
  assert (Ne : forall x b, about m h x b -> live b -> x <> it) by (intros x b [E _] Hl ->; unfold live in Hl; congruence).
  assert (Ch : forall b, chosen b -> live b) by (intros b [Hb|Hb]; unfold live; congruence). split.
  - intros x y b d Hb Hd. apply Up in Hb as [Hb _], Hd as [Hd _]. exact (A x y b d Hb Hd).
  - intros x b Hb Hr. apply Up in Hb as [Hb _]. destruct (B x b Hb Hr) as (y & d & Hd & Hcd). exists y, d. rewrite Up. eauto.
  - intros x y b d Hb Hd. apply Up in Hb as [Hb _], Hd as [Hd _]. exact (C x y b d Hb Hd).
  - intros x b Hb. apply Up in Hb as [Hb _]. destruct (D x b Hb) as (y & d & Hd & Hl). exists y, d. rewrite Up. eauto.
Qed.

Definition not_of (p : Z) (e : entry) : Prop := e_peer e <> p.

Lemma restrict_complete p h T : same (restrict (not_of p) (image (complete_at p h) T)) (restrict (not_of p) T).
Proof using.
  assert (X : forall e, not_of p (complete_at p h e) <-> not_of p e) by (intros e; unfold not_of, complete_at; destruct (at_key p h e); reflexivity).
  assert (Y : forall e, not_of p e -> complete_at p h e = e) by (intros e He; unfold complete_at, at_key; rewrite bool_decide_eq_false_2; [reflexivity|]; intros [E _]; contradiction).
  intros e. split.
  - intros [(e0 & H0 & ->) Hp]. apply (proj1 (X e0)) in Hp. rewrite (Y e0 Hp). split; assumption.
  - intros [He Hp]. split; [|exact Hp]. exists e. split; [exact He|]. symmetry. apply Y, Hp.
Qed.

(** The other announcements of the peer stay. *)
Lemma completes_peer it a still (s s' : st) : uniq (anns s) -> anns s !! it = Some a -> completes it a still s s' ->
  forall y b, m_peer b = m_peer a -> y <> it -> (anns s' !! y = Some b <-> anns s !! y = Some b).
Proof using.
  intros Hu Ea Hc y b Hb Hy. destruct still; [destruct Hc as [[_ ->]|(_ & (m2 & Hr & ->) & _)]; [reflexivity|]|destruct Hc as (_ & _ & ->)].
  - rewrite lookup_insert_ne by congruence. destruct Hr as [->|(n & c & sd & Hn & Ec & Hh & _ & _ & ->)]; [reflexivity|]. destruct (decide (n = y)) as [->|Hny]; [|rewrite lookup_insert_ne by exact Hny; reflexivity].
    rewrite lookup_insert_eq, Ec. split; intros [= E]; exfalso; apply Hn, (Hu y it c a Ec Ea); try exact Hh; rewrite <- Hb, <- E; reflexivity.
  - unfold without. rewrite map_lookup_filter_Some. cbn. split; [tauto|]. intros E. split; [exact E|]. intros Hh. apply Hy. exact (Hu y it b a E Ea Hb Hh).
Qed.

Lemma completes_size it a still (s s' : st) : anns s !! it = Some a -> completes it a still s s' ->
  if still then size (anns s') = size (anns s) /\ exists a', anns s' !! it = Some a' /\ m_peer a' = m_peer a /\ m_state a' = COMPLETED else (size (anns s') < size (anns s))%nat /\ anns s' !! it = None.
Proof using.
  intros Ea Hc. destruct still; [destruct Hc as [[Hcm ->]|(_ & (m2 & Hr & ->) & _)]|destruct Hc as (_ & _ & ->)].
  - split; [reflexivity|]. exists a. auto.
  - destruct (reranked_facts it _ _ _ Hr) as (_ & E2 & _). rewrite map_size_insert_Some by (rewrite E2; eauto). split; [|exists (SetState COMPLETED a); rewrite lookup_insert_eq; auto].
    destruct Hr as [->|(n & c & sd & _ & Ec & _ & _ & _ & ->)]; [reflexivity|]. apply map_size_insert_Some. eauto.
  - assert (N : without (m_txhash a) (anns s) !! it = None) by (apply map_lookup_filter_None; right; intros b Eb; cbn; rewrite Ea in Eb; injection Eb as <-; tauto). split; [|exact N].
    assert (Sub : without (m_txhash a) (anns s) ⊆ delete it (anns s)).
    { apply map_subseteq_spec. intros x b [E Hb]%map_lookup_filter_Some. rewrite lookup_delete_ne; [exact E|]. intros ->. cbn in Hb. congruence. }
    apply map_subseteq_size in Sub. rewrite map_size_delete_Some in Sub by eauto. assert (size (anns s) <> 0%nat) by (intros E0; apply map_size_empty_inv in E0; rewrite E0 in Ea; discriminate). lia.
Qed.

(** One announcement of a peer goes. *)
Lemma forget_one p it a s : good s -> anns s !! it = Some a -> m_peer a = p -> exists still s1 s2, MakeCompleted it s = (Ok still, s1) /\
  (match still with true => _ ← TxRequest_Erase ByPeer it; mret tt | false => mret tt end) s1 = (Ok tt, s2) /\ good s2 /\ m_current_sequence s2 = m_current_sequence s /\ (size (anns s2) < size (anns s))%nat /\
  (forall y b, m_peer b = p -> anns s2 !! y = Some b <-> delete it (anns s) !! y = Some b) /\ same (pruned (restrict (not_of p) (tracked (anns s2)))) (pruned (restrict (not_of p) (tracked (anns s)))).
Proof using HL.
  intros [Hw Hsel] Ea Hp. destruct (MakeCompleted_spec m_computer it a s Hw Hsel Ea) as (still & s1 & E1 & W1 & S1 & Cp & Q1). pose proof (completes_tracked m_computer it a still s s1 (wf_uniq _ Hw) Hsel S1 Ea Cp) as T1.
  pose proof (completes_peer it a still s s1 (wf_uniq _ Hw) Ea Cp) as P1. pose proof (completes_size it a still s s1 Ea Cp) as Z1.
  assert (R1 : same (pruned (restrict (not_of p) (tracked (anns s1)))) (pruned (restrict (not_of p) (tracked (anns s))))).
  { rewrite T1, (pruned_restrict_pruned (not_of p) (image (complete_at (m_peer a) (m_txhash a)) (tracked (anns s)))), Hp, (restrict_complete p (m_txhash a) (tracked (anns s))). reflexivity. }
  exists still, s1. destruct still.
  - destruct Z1 as (Sz & a' & Ea' & Hp' & Hc'). destruct (Erase_spec m_computer ByPeer it a' s1 W1 Ea') as (s2 & E2 & M2 & W2 & Q2 & _). exists s2. split; [exact E1|]. rewrite (bind_ok _ _ _ _ _ E2). split; [reflexivity|].
    split; [split; [exact W2|rewrite M2; exact (drop_completed_sel _ it a' S1 Ea' Hc')]|]. split; [congruence|]. split.
    { rewrite M2, map_size_delete_Some by eauto. assert (size (anns s1) <> 0%nat) by (intros E0; apply map_size_empty_inv in E0; rewrite E0 in Ea'; discriminate). lia. }
    split; [intros y b Hb; rewrite M2, !lookup_delete_Some; split; intros [Hy E]; (split; [exact Hy|]); apply (P1 y b); congruence|].
    rewrite <- R1. assert (E : same (restrict (not_of p) (tracked (anns s2))) (restrict (not_of p) (tracked (anns s1)))); [|rewrite E; reflexivity].
    intros e. unfold restrict. rewrite (tracked_split (anns s1) it a' e Ea'), M2. split; [tauto|]. intros [[<-|He] Hn]; [|auto]. unfold not_of in Hn. cbn in Hn. congruence.
  - destruct Z1 as [Sz Hno]. exists s1. split; [exact E1|]. split; [reflexivity|]. split; [split; assumption|]. split; [exact Q1|]. split; [exact Sz|]. split; [|exact R1].
    intros y b Hb. rewrite lookup_delete_Some. split.
    + intros E. assert (Hy : it <> y) by (intros ->; congruence). split; [exact Hy|]. apply (P1 y b); congruence.
    + intros [Hy E]. apply (P1 y b); congruence.
Qed.

Lemma peer_erase_loop_spec p fuel : forall s it, good s -> first_of_peer p (anns s) it -> (size (anns s) <= fuel)%nat ->
  exists s', peer_erase_loop fuel p it s = (Ok tt, s') /\ good s' /\ m_current_sequence s' = m_current_sequence s /\ same (tracked (anns s')) (pruned (restrict (not_of p) (tracked (anns s)))).
Proof using HL.
  induction fuel as [|fuel IH]; intros s it Hg Hfirst Hsz; destruct it as [it|]; cbn [peer_erase_loop].
  2,4: exists s; split; [reflexivity|]; split; [exact Hg|]; split; [reflexivity|];
    assert (E : same (restrict (not_of p) (tracked (anns s))) (tracked (anns s))) by (intros e; split; [intros [He _]; exact He|]; intros He; split; [exact He|]; destruct He as (x & b & Eb & <-); exact (Hfirst x b Eb));
    rewrite E; symmetry; exact (tracked_pruned m_computer (anns s) (proj2 Hg)).
  all: destruct Hfirst as (a & Ea & Hp & Hmin); rewrite (bind_ok _ _ _ _ _ (ann_at_ok s it a Ea)); rewrite (proj2 (Z.eqb_eq _ _) Hp); cbn [negb].
  - exfalso. assert (size (anns s) <> 0%nat) by (intros E0; apply map_size_empty_inv in E0; rewrite E0 in Ea; discriminate). lia.
  - unfold mbind at 1, stm_bind at 1, get_st at 1. destruct (second_of_peer p s it a (proj1 Hg) Ea Hp Hmin) as (bo & Eb & Hnext). rewrite (bind_ok _ _ _ _ _ Eb).
    destruct (forget_one p it a s Hg Ea Hp) as (still & s1 & s2 & E1 & E2 & G2 & Q2 & Sz & Pe & R2). rewrite (bind_ok _ _ _ _ _ E1), (bind_ok _ _ _ _ _ E2).
    destruct (IH s2 (match bo with Some b => if m_peer b =? p then next_in (ByPeer (m_index s)) it else None | None => None end) G2) as (s3 & E3 & G3 & Q3 & T3); [|lia|].
    + destruct (match bo with Some b => _ | None => None end) as [n|]; cbn in Hnext |- *.
      * destruct Hnext as (c & Ec & Hc & Hm). exists c. split; [apply Pe; assumption|]. split; [exact Hc|]. intros y b Ey Hb Hy. apply (Hm y b); [apply Pe; assumption|exact Hb|exact Hy].
      * intros y b Ey Hb. apply (Hnext y b); [apply Pe; assumption|exact Hb].
    + exists s3. split; [exact E3|]. split; [exact G3|]. split; [congruence|]. rewrite T3. exact R2.
Qed.

Lemma loop_stops p fuel s n c : anns s !! n = Some c -> m_peer c <> p -> peer_erase_loop fuel p (Some n) s = peer_erase_loop fuel p None s.
Proof using. intros Ec Hc. destruct fuel; cbn [peer_erase_loop]; rewrite (bind_ok _ _ _ _ _ (ann_at_ok s n c Ec)), (proj2 (Z.eqb_neq _ _) Hc); reflexivity. Qed.

(** No hash is below the zero one. *)
Lemma zero_least h : blob h -> Compare h ZERO <> Lt.
Proof using.
  unfold ZERO. intros [Hl Hb]. rewrite <- Hl. clear Hl. induction Hb as [|x h Hx _ IH]; cbn; [discriminate|]. unfold in_u in Hx. destruct (Z.compare_spec x 0) as [->|?|?]; [exact IH|lia|discriminate].
Qed.

Lemma DisconnectedPeer_spec p s : good s -> exists s', DisconnectedPeer p s = (Ok tt, s') /\ good s' /\ m_current_sequence s' = m_current_sequence s /\
  same (tracked (anns s')) (pruned (restrict (not_of p) (tracked (anns s)))).
Proof using HL.
  intros Hg. unfold DisconnectedPeer. unfold mbind at 1, stm_bind at 1, get_st at 1. unfold index_lower_bound, from_key.
  set (P := fun it => match nodes (m_index s) !! it with Some a => negb (bool_decide (peer_compare (peer_view a) (p, false, ZERO) = Lt)) | None => false end = true).
  pose proof (order_first _ _ _ _ (in_peer_order s) P) as O.
  assert (Hp : forall y b, anns s !! y = Some b -> m_peer b = p -> P y).
  { intros y b Eb Hb. unfold P. unfold anns in Eb. rewrite Eb. apply negb_true_iff, bool_decide_eq_false. unfold peer_compare, peer_view. cbn. rewrite Hb, Z.compare_refl. cbn.
    pose proof (zero_least (m_txhash b) (wf_typed _ (proj1 Hg) y b Eb)). destruct (is_state CANDIDATE_BEST b); cbn; [discriminate|assumption]. }
  destruct (head (filter P (ByPeer (m_index s)))) as [n|] eqn:Eh.
  - destruct O as (c & Ec & Pn & Hall). destruct (decide (m_peer c = p)) as [Hc|Hc].
    + apply peer_erase_loop_spec; [exact Hg| |reflexivity]. exists c. split; [exact Ec|]. split; [exact Hc|]. intros y b Eb Hb Hy. destruct (Hall y b Eb Hy) as [N|[_ Hle]]; [destruct (N (Hp y b Eb Hb))|exact Hle].
    + assert (Hgt : p < m_peer c).
      { unfold P in Pn. unfold anns in Ec. rewrite Ec in Pn. apply negb_true_iff, bool_decide_eq_false in Pn. unfold peer_compare in Pn. cbn in Pn. destruct (Z.compare_spec (m_peer c) p); cbn in Pn; [contradiction|congruence|assumption]. }
      assert (None' : first_of_peer p (anns s) None).
      { intros y b Eb Hb. destruct (decide (y = n)) as [->|Hy]; [congruence|]. destruct (Hall y b Eb Hy) as [N|[_ Hle]]; [exact (N (Hp y b Eb Hb))|]. apply le_peer_peer in Hle. lia. }
      rewrite (loop_stops p _ s n c Ec Hc). exact (peer_erase_loop_spec p _ s None Hg None' ltac:(reflexivity)).
  - apply peer_erase_loop_spec; [exact Hg| |reflexivity]. intros y b Eb Hb. exact (O y b Eb (Hp y b Eb Hb)).
Qed.
End Ops.

(** * The calls of the tracker

    [ReceivedInv], [RequestedTx], [ReceivedResponse] and [GetRequestable]: what
    they do to the collection of entries, and which transactions
    [GetRequestable] answers. *)

Section Calls.
Context {GT : GenTxids} {Index : Type} {HI : MultiIndex Index} (m_computer : uint256 -> Z -> bool -> Z) {HL : MultiIndexLaws Index m_computer}.
Notation st := (tracker Index).
Notation sel_ok := (sel_ok m_computer).
Notation good := (good m_computer).

Lemma find_peer_spec (s : st) k : match find_peer (m_index s) k with
  | Some it => exists a, anns s !! it = Some a /\ peer_view a = k
  | None => forall y b, anns s !! y = Some b -> peer_view b <> k
  end.
Proof using HL.
  unfold find_peer. set (P := fun it => match nodes (m_index s) !! it with Some a => bool_decide (peer_view a = k) | None => false end = true).
  pose proof (order_first _ _ _ _ (in_peer_order m_computer s) P) as O. destruct (head (filter P (ByPeer (m_index s)))) as [n|].
  - destruct O as (c & Ec & Pn & _). exists c. split; [exact Ec|]. unfold P in Pn. unfold anns in Ec. rewrite Ec in Pn. apply bool_decide_eq_true in Pn. exact Pn.
  - intros y b Eb Hk. apply (O y b Eb). unfold P. unfold anns in Eb. rewrite Eb. apply bool_decide_eq_true, Hk.
Qed.

(** ** An announcement *)

Definition known (T : coll) (p : Z) (h : uint256) : Prop := exists e, T e /\ at_key p h e = true.

Lemma known_tracked (s : st) p h : known (tracked (anns s)) p h <-> exists y b, anns s !! y = Some b /\ m_peer b = p /\ m_txhash b = h.
Proof using.
  unfold known. split.
  - intros (e & (y & b & Eb & <-) & Hk). apply bool_decide_eq_true in Hk as [H1 H2]. exists y, b. auto.
  - intros (y & b & Eb & H1 & H2). exists (entry_of b). split; [exists y, b; auto|]. apply bool_decide_eq_true. auto.
Qed.

Definition candidate (peer : Z) (gtxid : GenTxid) (preferred : bool) (reqtime sequence : Z) : entry :=
  {| e_peer := peer; e_hash := gtxid_hash gtxid; e_seq := sequence; e_preferred := preferred; e_wtxid := IsWtxid gtxid; e_standing := Candidate reqtime |}.

(** A delayed candidate disturbs no selection. *)
Lemma add_delayed m it a : sel_ok m -> m !! it = None -> m_state a = CANDIDATE_DELAYED -> sel_ok (<[it := a]> m).
Proof using.
  intros Hsel Hn Hd h. destruct (Hsel h) as [A B C D].
  assert (Up : forall x b, about (<[it := a]> m) h x b <-> (x = it /\ b = a /\ m_txhash a = h) \/ about m h x b).
  { intros x b. unfold about. rewrite lookup_insert_Some. split; [intros [[[<- <-]|[_ E]] Hb]; auto|intros [(-> & -> & Hh)|[E Hb]]; [auto|split; [right; split; [intros ->; congruence|exact E]|exact Hb]]]. }
  assert (Nc : ~ chosen a /\ ~ ready a) by (unfold chosen, ready; rewrite Hd; split; [intros [?|?]|]; discriminate). destruct Nc as [Nc Nr]. split.
  - intros x y b d Hb Hd'. apply Up in Hb as [(-> & -> & _)|Hb]; [intros; contradiction|]. apply Up in Hd' as [(-> & -> & _)|Hd']; [intros; contradiction|]. exact (A x y b d Hb Hd').
  - intros x b Hb Hr. apply Up in Hb as [(-> & -> & _)|Hb]; [contradiction|]. destruct (B x b Hb Hr) as (y & d & Hy & Hc). exists y, d. split; [apply Up; auto|exact Hc].
  - intros x y b d Hb Hd' Hr Hbest. apply Up in Hb as [(-> & -> & _)|Hb]; [contradiction|]. apply Up in Hd' as [(-> & -> & _)|Hd']; [unfold best in Hbest; congruence|]. exact (C x y b d Hb Hd' Hr Hbest).
  - intros x b Hb. apply Up in Hb as [(-> & -> & Hh)|Hb]; [exists it, a; split; [apply Up; auto|unfold live; congruence]|]. destruct (D x b Hb) as (y & d & Hy & Hl). exists y, d. split; [apply Up; auto|exact Hl].
Qed.

Lemma ReceivedInv_spec peer g preferred reqtime s : good s -> blob (gtxid_hash g) -> Z.of_nat (size (anns s)) + 1 < 2 ^ 63 -> 0 <= m_current_sequence s < 2 ^ 59 - 1 ->
  exists s', ReceivedInv peer g preferred reqtime s = (Ok tt, s') /\ good s' /\
    ((known (tracked (anns s)) peer (gtxid_hash g) /\ s' = s) \/
     (~ known (tracked (anns s)) peer (gtxid_hash g) /\ m_current_sequence s' = m_current_sequence s + 1 /\ size (anns s') = S (size (anns s)) /\
      forall e, tracked (anns s') e <-> tracked (anns s) e \/ e = candidate peer g preferred reqtime (m_current_sequence s))).
Proof using HL.
  intros [Hw Hsel] Hblob Hsz Hseq. unfold ReceivedInv. unfold mbind at 1, stm_bind at 1, get_st at 1. set (h := gtxid_hash g) in *.
  assert (Known : forall y b k, anns s !! y = Some b -> peer_view b = (peer, k, h) -> exists s', @mret (stm st) _ _ tt s = (Ok tt, s') /\ good s' /\ ((known (tracked (anns s)) peer h /\ s' = s) \/
     (~ known (tracked (anns s)) peer h /\ m_current_sequence s' = m_current_sequence s + 1 /\ size (anns s') = S (size (anns s)) /\
      forall e, tracked (anns s') e <-> tracked (anns s) e \/ e = candidate peer g preferred reqtime (m_current_sequence s)))).
  { intros y b k Eb Hb. unfold peer_view in Hb. injection Hb as H1 _ H2. exists s. split; [reflexivity|]. split; [split; assumption|]. left. split; [|reflexivity]. apply known_tracked. exists y, b. auto. }
  pose proof (find_peer_spec s (peer, true, h)) as F. destruct (find_peer (m_index s) (peer, true, h)) as [it|].
  { destruct F as (a & Ea & Ha). exact (Known it a true Ea Ha). }
  set (new := new_Announcement g peer preferred reqtime (m_current_sequence s)). pose proof (nodes_emplace (m_computer := m_computer) new (m_index s)) as Em.
  destruct (index_emplace new (m_index s)) as [[it i]|]; [|destruct Em as (y & b & Eb & Hb); exact (Known y b false Eb Hb)]. destruct Em as (Hfresh & Hnodes & Hdiff).
  assert (Nk : forall y b, anns s !! y = Some b -> m_peer b = peer -> m_txhash b = h -> False).
  { intros y b Eb H1 H2. destruct (is_state CANDIDATE_BEST b) eqn:Eb'; [apply (F y b Eb)|apply (Hdiff y b Eb)]; unfold peer_view; rewrite H1, H2, Eb'; reflexivity. }
  unfold mbind, stm_bind, modify_st. cbn [m_index set_index set_peerinfo m_peerinfo]. eexists. split; [reflexivity|]. unfold anns, TxRequestProofs.anns in *. cbn [m_index set_index set_peerinfo next_sequence m_current_sequence].
  split; [split|right; split; [|split; [|split]]].
  - split; cbn; unfold anns; cbn; rewrite ?Hnodes.
    + intros x y a b. rewrite !lookup_insert_Some. intros [[<- <-]|[Hx Ea]] [[<- <-]|[Hy Eb]] H1 H2; auto.
      * destruct (Nk y b Eb); [symmetry; exact H1|symmetry; exact H2].
      * destruct (Nk x a Ea H1 H2).
      * exact (wf_uniq _ Hw x y a b Ea Eb H1 H2).
    + intros p. assert (Cn : forall P, cnt P (<[it := new]> (nodes (m_index s))) = cnt P (nodes (m_index s)) + count_if (P new)) by (intros P; apply cnt_fresh, Hfresh).
      unfold infos, counts. rewrite !Cn. pose proof (wf_info _ Hw p) as Hi. unfold infos, counts, anns in Hi. destruct (decide (peer = p)) as [->|Hne].
      * rewrite lookup_insert_eq. replace (of_peer p new) with true by (symmetry; apply Z.eqb_refl). replace (of_peer_in p COMPLETED new) with false by (unfold of_peer_in; rewrite andb_false_r; reflexivity).
        replace (of_peer_in p REQUESTED new) with false by (unfold of_peer_in; rewrite andb_false_r; reflexivity). cbn [count_if]. pose proof (cnt_range (of_peer p) (nodes (m_index s))) as R. unfold anns in Hsz.
        replace (cnt (of_peer p) (nodes (m_index s)) + 1 =? 0) with false by (symmetry; apply Z.eqb_neq; lia). rewrite !Z.add_0_r, Hi. f_equal. destruct (Z.eqb_spec (cnt (of_peer p) (nodes (m_index s))) 0) as [Z0|Z0]; cbn.
        -- pose proof (cnt_le (of_peer_in p COMPLETED) (of_peer p) (nodes (m_index s))) as L1. pose proof (cnt_le (of_peer_in p REQUESTED) (of_peer p) (nodes (m_index s))) as L2.
           pose proof (cnt_range (of_peer_in p COMPLETED) (nodes (m_index s))). pose proof (cnt_range (of_peer_in p REQUESTED) (nodes (m_index s))).
           assert (cnt (of_peer_in p COMPLETED) (nodes (m_index s)) = 0) as -> by (apply Z.le_antisymm; [rewrite <- Z0; apply L1; intros a Ha; apply andb_true_iff in Ha; tauto|lia]).
           assert (cnt (of_peer_in p REQUESTED) (nodes (m_index s)) = 0) as -> by (apply Z.le_antisymm; [rewrite <- Z0; apply L2; intros a Ha; apply andb_true_iff in Ha; tauto|lia]). rewrite Z0. reflexivity.
        -- f_equal. apply uwrap_small. unfold in_u. lia.
      * rewrite lookup_insert_ne by exact Hne. replace (of_peer p new) with false by (symmetry; apply Z.eqb_neq, Hne). unfold of_peer_in. replace (of_peer p new) with false by (symmetry; apply Z.eqb_neq, Hne).
        cbn [andb count_if]. rewrite !Z.add_0_r. exact Hi.
    + rewrite map_size_insert_None by exact Hfresh. unfold anns in Hsz. lia.
    + intros x a. rewrite lookup_insert_Some. intros [[_ <-]|[_ Ea]]; [exact Hblob|exact (wf_typed _ Hw x a Ea)].
  - unfold anns. cbn. rewrite Hnodes. apply add_delayed; [exact Hsel|exact Hfresh|reflexivity].
  - intros Hk. apply (known_tracked s) in Hk as (y & b & Eb & H1 & H2). exact (Nk y b Eb H1 H2).
  - apply uwrap_small. unfold in_u. lia.
  - cbn. rewrite Hnodes. apply map_size_insert_None, Hfresh.
  - intros e. cbn. rewrite Hnodes, tracked_insert, delete_id by exact Hfresh. split; [intros [<-|He]; [right|auto]|intros [He| ->]; [auto|left]]; unfold entry_of, candidate, new, new_Announcement, standing_of; cbn; rewrite uwrap_small by (unfold in_u; lia); reflexivity.
Qed.

(** ** A response *)

Lemma ReceivedResponse_spec p h s : good s -> exists s', ReceivedResponse p h s = (Ok tt, s') /\ good s' /\ m_current_sequence s' = m_current_sequence s /\
  same (tracked (anns s')) (pruned (image (complete_at p h) (tracked (anns s)))).
Proof using HL.
  intros [Hw Hsel]. unfold ReceivedResponse. unfold mbind at 1, stm_bind at 1, get_st at 1.
  assert (Found : forall it a k, anns s !! it = Some a -> peer_view a = (p, k, h) -> exists s', (_ ← MakeCompleted it; mret tt) s = (Ok tt, s') /\ good s' /\ m_current_sequence s' = m_current_sequence s /\
    same (tracked (anns s')) (pruned (image (complete_at p h) (tracked (anns s))))).
  { intros it a k Ea Ha. unfold peer_view in Ha. injection Ha as <- _ <-. destruct (MakeCompleted_spec m_computer it a s Hw Hsel Ea) as (still & s1 & E1 & W1 & S1 & Cp & Q1). rewrite (bind_ok _ _ _ _ _ E1).
    exists s1. split; [reflexivity|]. split; [split; assumption|]. split; [exact Q1|]. exact (completes_tracked m_computer it a still s s1 (wf_uniq _ Hw) Hsel S1 Ea Cp). }
  pose proof (find_peer_spec s (p, false, h)) as F. destruct (find_peer (m_index s) (p, false, h)) as [it|].
  { destruct F as (a & Ea & Ha). exact (Found it a false Ea Ha). }
  pose proof (find_peer_spec s (p, true, h)) as F'. destruct (find_peer (m_index s) (p, true, h)) as [it|].
  { destruct F' as (a & Ea & Ha). exact (Found it a true Ea Ha). }
  exists s. split; [reflexivity|]. split; [split; assumption|]. split; [reflexivity|]. rewrite <- (tracked_pruned m_computer (anns s) Hsel) at 1.
  assert (E : same (image (complete_at p h) (tracked (anns s))) (tracked (anns s))); [|rewrite E; reflexivity].
  assert (Id : forall e, tracked (anns s) e -> complete_at p h e = e).
  { intros e (y & b & Eb & <-). unfold complete_at, at_key. rewrite bool_decide_eq_false_2; [reflexivity|]. cbn. intros [H1 H2].
    destruct (is_state CANDIDATE_BEST b) eqn:Eb'; [apply (F' y b Eb)|apply (F y b Eb)]; unfold peer_view; rewrite H1, H2, Eb'; reflexivity. }
  intros e. split; [intros (e0 & H0 & ->); rewrite (Id e0 H0); exact H0|intros He; exists e; split; [exact He|symmetry; apply Id, He]].
Qed.

(** ** A request *)

Lemma tracked_image f m m' : (forall x, entry_of <$> m' !! x = (fun a => f (entry_of a)) <$> m !! x) -> same (tracked m') (image f (tracked m)).
Proof using.
  intros E e. split.
  - intros (x & a' & Ea' & <-). specialize (E x). rewrite Ea' in E. cbn in E. destruct (m !! x) as [a|] eqn:Ea; [|discriminate]. injection E as ->. exists (entry_of a). split; [exists x, a; auto|reflexivity].
  - intros (e0 & (x & a & Ea & <-) & ->). specialize (E x). rewrite Ea in E. cbn in E. destruct (m' !! x) as [a'|] eqn:Ea'; [|discriminate]. injection E as E. exists x, a'. auto.
Qed.

(** The requested announcement is the one chosen. *)
Lemma becomes_requested m it a' : m_state a' = REQUESTED -> (forall y b, about m (m_txhash a') y b -> y <> it -> ~ chosen b) -> sel_at m_computer (<[it := a']> m) (m_txhash a').
Proof using.
  intros Hr Hno. assert (A : about (<[it := a']> m) (m_txhash a') it a') by (split; [apply lookup_insert_eq|reflexivity]).
  split; [intros x y b c|intros x b _ _; exists it, a'; split; [exact A|right; exact Hr]|intros x y b c|intros x b _; exists it, a'; split; [exact A|unfold live; congruence]]; rewrite !(about_insert _ _ _ _ _ _ eq_refl).
  - intros [[-> ->]|[Hx Hb]] [[-> ->]|[Hy Hc]] H1 H2; auto; [destruct (Hno y c Hc Hy H2)|destruct (Hno x b Hb Hx H1)|destruct (Hno x b Hb Hx H1)].
  - intros _ [[-> ->]|[Hy Hc]] _ H2; [unfold best in H2; congruence|destruct (Hno y c Hc Hy); left; exact H2].
Qed.

(** The search for the chosen announcement of a transaction. *)
Lemma chosen_search h s : let it := index_lower_bound txhash_compare (txhash_view m_computer) (m_index s) ByTxHash (h, CANDIDATE_BEST, 0) in
  (exists n c, it = Some n /\ about (anns s) h n c /\ chosen c) \/
  ((forall y b, about (anns s) h y b -> ~ chosen b) /\ match it with Some n => exists c, anns s !! n = Some c /\ (m_txhash c = h -> m_state c = COMPLETED) | None => True end).
Proof using HL.
  unfold index_lower_bound, from_key. set (P := fun it => match nodes (m_index s) !! it with Some a => negb (bool_decide (txhash_compare (txhash_view m_computer a) (h, CANDIDATE_BEST, 0) = Lt)) | None => false end = true). cbn zeta.
  assert (Hp : forall y b, about (anns s) h y b -> chosen b -> P y).
  { intros y b [Eb Hb] Hc. unfold P. unfold anns in Eb. rewrite Eb. apply negb_true_iff, bool_decide_eq_false. unfold txhash_compare, txhash_view. cbn. rewrite Hb, Compare_refl. cbn.
    unfold is_state. destruct Hc as [-> | ->]; cbn; discriminate. }
  pose proof (order_first _ _ _ _ (by_txhash_sorted (m_computer := m_computer) (m_index s)) P) as O. fold (anns s) in O. destruct (head (filter P (ByTxHash (m_index s)))) as [n|]; [|right; split; [|exact I]; intros y b Hb Hc; exact (O y b (proj1 Hb) (Hp y b Hb Hc))].
  destruct O as (c & Ec & Pn & Hall). unfold P in Pn. unfold anns in Ec. rewrite Ec in Pn. apply negb_true_iff, bool_decide_eq_false in Pn. unfold txhash_compare in Pn. cbn in Pn.
  assert (Below : forall y b, about (anns s) h y b -> chosen b -> y <> n -> below txhash_compare (txhash_view m_computer) c b).
  { intros y b Hb Hc Hy. destruct (Hall y b (proj1 Hb) Hy) as [N|[_ Hle]]; [destruct (N (Hp y b Hb Hc))|exact Hle]. }
  destruct (decide (m_txhash c = h)) as [Hc|Hc].
  - rewrite Hc, Compare_refl in Pn. cbn in Pn. assert (Hst : chosen c \/ m_state c = COMPLETED) by (unfold chosen; destruct (m_state c); cbn in Pn; try congruence; auto).
    destruct Hst as [Hch|Hco]; [left; exists n, c; split; [reflexivity|split; [split; assumption|exact Hch]]|]. right. split; [|exists c; auto]. intros y b Hb Hcb.
    assert (Hy : y <> n) by (intros ->; destruct Hb as [E _]; unfold anns in E; rewrite Ec in E; injection E as <-; destruct Hcb; congruence).
    destruct (le_rank m_computer h c b Hc (proj2 Hb) (Below y b Hb Hcb Hy)) as [R _]. apply rank_chosen in Hcb. unfold rank in R at 1. rewrite Hco in R. cbn in R. lia.
  - right. split; [|exists c; split; [exact Ec|contradiction]]. intros y b Hb Hcb. assert (Hy : y <> n) by (intros ->; destruct Hb as [E Hb]; unfold anns in E; congruence).
    apply Hc, (anti_symm hash_le); [rewrite <- (proj2 Hb); exact (le_txhash_hash m_computer c b (Below y b Hb Hcb Hy))|]. unfold hash_le. rewrite (Compare_anti (m_txhash c)). destruct (Compare (m_txhash c) h); cbn in *; congruence.
Qed.

Definition as_request (expiry : Z) (a : Announcement) : Announcement := SetTime expiry (SetState REQUESTED a).

(** An announcement that a request for another one does not concern. *)
Lemma request_at_other m it a expiry x b : uniq m -> m !! it = Some a -> m !! x = Some b -> x <> it -> ~ (m_txhash b = m_txhash a /\ m_state b = REQUESTED) ->
  request_at (m_peer a) (m_txhash a) expiry (entry_of b) = entry_of b.
Proof using.
  intros Hu Ea Eb Hx Hn. unfold request_at. rewrite (other_key m it a Hu Ea (entry_of b)) by (exists x, b; rewrite lookup_delete_ne by congruence; auto).
  unfold entry_of at 1, standing_of. cbn. destruct (m_state b) eqn:Es; try reflexivity. rewrite bool_decide_eq_false_2 by tauto. reflexivity.
Qed.

Lemma request_step it a expiry (s s1 : st) : good s -> anns s !! it = Some a -> wf s1 -> anns s1 !! it = Some a -> only_hash (m_txhash a) (anns s) (anns s1) -> m_current_sequence s1 = m_current_sequence s ->
  (forall x, x <> it -> entry_of <$> anns s1 !! x = (fun b => request_at (m_peer a) (m_txhash a) expiry (entry_of b)) <$> anns s !! x) ->
  (forall y b, about (anns s1) (m_txhash a) y b -> y <> it -> ~ chosen b) ->
  exists s', Modify it (as_request expiry) s1 = (Ok tt, s') /\ good s' /\ m_current_sequence s' = m_current_sequence s /\
    same (tracked (anns s')) (image (request_at (m_peer a) (m_txhash a) expiry) (tracked (anns s))).
Proof using HL.
  intros [Hw Hsel] Ea W1 Ea1 Ho Q1 Hx Hno. destruct (Modify_spec m_computer it (as_request expiry) a s1 W1 Ea1 eq_refl eq_refl) as (s2 & E2 & M2 & W2 & Q2). exists s2. split; [exact E2|].
  split; [split; [exact W2|]|split; [congruence|]].
  - rewrite M2. apply (sel_ok_local m_computer (m_txhash a) (anns s)); [exact Hsel| |exact (becomes_requested (anns s1) it (as_request expiry a) eq_refl Hno)].
    exact (only_hash_trans _ _ _ _ Ho (only_hash_insert (anns s1) it a (as_request expiry a) Ea1 eq_refl)).
  - apply tracked_image. intros x. rewrite M2. destruct (decide (it = x)) as [<-|Hne]; [|rewrite lookup_insert_ne by exact Hne; apply Hx; congruence]. rewrite lookup_insert_eq, Ea. cbn. f_equal. unfold request_at. rewrite own_key. reflexivity.
Qed.

(** Without another one chosen the request is the only change. *)
Lemma request_alone it a expiry s : good s -> anns s !! it = Some a -> (forall y b, about (anns s) (m_txhash a) y b -> y <> it -> ~ chosen b) ->
  exists s', Modify it (as_request expiry) s = (Ok tt, s') /\ good s' /\ m_current_sequence s' = m_current_sequence s /\
    same (tracked (anns s')) (image (request_at (m_peer a) (m_txhash a) expiry) (tracked (anns s))).
Proof using HL.
  intros Hg Ea Hno. apply (request_step it a expiry s s Hg Ea (proj1 Hg) Ea (only_hash_refl _ _) eq_refl); [|exact Hno]. intros x Hx. destruct (anns s !! x) as [b|] eqn:Eb; [|reflexivity]. cbn. f_equal. symmetry.
  apply (request_at_other (anns s) it a expiry x b (wf_uniq _ (proj1 Hg)) Ea Eb Hx). intros [Hh Hr]. apply (Hno x b (conj Eb Hh) Hx). right. exact Hr.
Qed.

(** The one chosen before steps back. *)
Lemma request_instead it a n c sd expiry s : good s -> anns s !! it = Some a -> n <> it -> about (anns s) (m_txhash a) n c -> chosen c ->
  (m_state c = CANDIDATE_BEST /\ sd = CANDIDATE_READY \/ m_state c = REQUESTED /\ sd = COMPLETED) ->
  exists s', (_ ← Modify n (SetState sd); Modify it (as_request expiry)) s = (Ok tt, s') /\ good s' /\ m_current_sequence s' = m_current_sequence s /\
    same (tracked (anns s')) (image (request_at (m_peer a) (m_txhash a) expiry) (tracked (anns s))).
Proof using HL.
  intros Hg Ea Hn [Ec Hhc] Hc Hsd. destruct (Modify_spec m_computer n (SetState sd) c s (proj1 Hg) Ec eq_refl eq_refl) as (s1 & E1 & M1 & W1 & Q1). rewrite (bind_ok _ _ _ _ _ E1).
  assert (Other : forall y b, about (anns s) (m_txhash a) y b -> y <> n -> ~ chosen b) by (intros y b Hb Hy Hcb; apply Hy, (sa_one _ _ _ (proj2 Hg (m_txhash a)) y n b c Hb (conj Ec Hhc) Hcb Hc)).
  apply (request_step it a expiry s s1 Hg Ea W1); [rewrite M1, lookup_insert_ne by exact Hn; exact Ea|rewrite M1, <- Hhc; exact (only_hash_insert (anns s) n c (SetState sd c) Ec eq_refl)|exact Q1| |].
  - intros x Hx. rewrite M1. destruct (decide (n = x)) as [<-|Hnx].
    + rewrite lookup_insert_eq, Ec. cbn. f_equal. unfold request_at. rewrite (other_key (anns s) it a (wf_uniq _ (proj1 Hg)) Ea (entry_of c)) by (exists n, c; rewrite lookup_delete_ne by congruence; auto).
      unfold entry_of, standing_of, with_standing. destruct Hsd as [[-> ->]|[-> ->]]; cbn; [reflexivity|]. rewrite bool_decide_eq_true_2 by exact Hhc. reflexivity.
    + rewrite lookup_insert_ne by exact Hnx. destruct (anns s !! x) as [b|] eqn:Eb; [|reflexivity]. cbn. f_equal. symmetry.
      apply (request_at_other (anns s) it a expiry x b (wf_uniq _ (proj1 Hg)) Ea Eb Hx). intros [Hh Hr]. apply (Other x b (conj Eb Hh)); [congruence|right; exact Hr].
  - intros y b Hb Hy. rewrite M1 in Hb. apply (about_insert _ _ (SetState sd c)) in Hb as [[-> ->]|[Hyn Hb]]; [|exact (Other y b Hb Hyn)|exact Hhc].
    unfold chosen. cbn. destruct Hsd as [[_ ->]|[_ ->]]; intros [?|?]; discriminate.
Qed.

(** A candidate of the peer for the transaction. *)
Definition offered (T : coll) (p : Z) (h : uint256) : Prop := exists e reqtime, T e /\ at_key p h e = true /\ e_standing e = Candidate reqtime.

Lemma RequestedTx_spec p h expiry s : good s -> exists s', RequestedTx m_computer p h expiry s = (Ok tt, s') /\ good s' /\ m_current_sequence s' = m_current_sequence s /\
  ((offered (tracked (anns s)) p h /\ same (tracked (anns s')) (image (request_at p h expiry) (tracked (anns s)))) \/ (~ offered (tracked (anns s)) p h /\ s' = s)).
Proof using HL.
  intros Hg. unfold RequestedTx. unfold mbind at 1, stm_bind at 1, get_st at 1. change (fun a => SetTime expiry (SetState REQUESTED a)) with (as_request expiry).
  assert (Key : forall k a, peer_view a = (p, k, h) -> m_peer a = p /\ m_txhash a = h /\ is_state CANDIDATE_BEST a = k) by (intros k a Hv; unfold peer_view in Hv; injection Hv as H1 H2 H3; auto).
  assert (Offer : forall it a, anns s !! it = Some a -> m_peer a = p -> m_txhash a = h -> (exists t, standing_of a = Candidate t) -> offered (tracked (anns s)) p h).
  { intros it a Ea H1 H2 [t Ht]. exists (entry_of a), t. split; [exists it, a; auto|]. split; [subst; apply own_key|exact Ht]. }
  assert (NoOffer : (forall it a, anns s !! it = Some a -> m_peer a = p -> m_txhash a = h -> forall t, standing_of a <> Candidate t) -> ~ offered (tracked (anns s)) p h).
  { intros Hno (e & t & (it & a & Ea & <-) & Hk & Hs). apply bool_decide_eq_true in Hk as [H1 H2]. exact (Hno it a Ea H1 H2 t Hs). }
  pose proof (find_peer_spec s (p, true, h)) as F. destruct (find_peer (m_index s) (p, true, h)) as [it|].
  { destruct F as (a & Ea & Ha). apply Key in Ha as (Hp & Hh & Hb). apply is_state_true in Hb. destruct (request_alone it a expiry s Hg Ea) as (s' & E & G & Q & T).
    - intros y b Hy Hne Hc. apply Hne, (sa_one _ _ _ (proj2 Hg (m_txhash a)) y it b a Hy (conj Ea eq_refl) Hc). left. exact Hb.
    - exists s'. split; [exact E|]. split; [exact G|]. split; [exact Q|]. left. rewrite Hp, Hh in T. split; [|exact T]. apply (Offer it a Ea Hp Hh). exists (m_time a). unfold standing_of. rewrite Hb. reflexivity. }
  pose proof (find_peer_spec s (p, false, h)) as F'. destruct (find_peer (m_index s) (p, false, h)) as [it|].
  2: { exists s. split; [reflexivity|]. split; [exact Hg|]. split; [reflexivity|]. right. split; [|reflexivity]. apply NoOffer. intros it a Ea H1 H2 _ _.
       destruct (is_state CANDIDATE_BEST a) eqn:Eb; [apply (F it a Ea)|apply (F' it a Ea)]; unfold peer_view; rewrite H1, H2, Eb; reflexivity. }
  destruct F' as (a & Ea & Ha). apply Key in Ha as (Hp & Hh & Hb). apply is_state_false in Hb. rewrite (bind_ok _ _ _ _ _ (ann_at_ok s it a Ea)).
  destruct (negb (is_state CANDIDATE_DELAYED a) && negb (is_state CANDIDATE_READY a))%bool eqn:Est.
  { exists s. split; [reflexivity|]. split; [exact Hg|]. split; [reflexivity|]. right. split; [|reflexivity]. apply NoOffer. intros y b Eb H1 H2. assert (y = it) as -> by (apply (wf_uniq _ (proj1 Hg) y it b a Eb Ea); congruence).
    rewrite Ea in Eb. injection Eb as <-. apply andb_true_iff in Est as [E1 E2]. apply negb_true_iff, is_state_false in E1, E2. intros t. unfold standing_of. destruct (m_state a); congruence. }
  assert (Cand : m_state a = CANDIDATE_DELAYED \/ m_state a = CANDIDATE_READY) by (apply andb_false_iff in Est as [E|E]; apply negb_false_iff, is_state_true in E; auto).
  assert (Off : offered (tracked (anns s)) p h) by (apply (Offer it a Ea Hp Hh); exists (m_time a); unfold standing_of; destruct Cand as [-> | ->]; reflexivity).
  pose proof (chosen_search h s) as Ch. cbn zeta in Ch. subst p h. destruct Ch as [(n & c & En & Hc & Hch)|[Hno Hn]].
  - rewrite En, (bind_ok _ _ _ _ _ (ann_opt_some s n c (proj1 Hc))). rewrite bool_decide_eq_true_2 by apply Hc. assert (Hne : n <> it) by (intros ->; destruct Hc as [E _]; rewrite Ea in E; injection E as <-; destruct Cand, Hch; congruence).
    destruct (is_state CANDIDATE_BEST c) eqn:Ebc; [apply is_state_true in Ebc|apply is_state_false in Ebc; assert (Er : m_state c = REQUESTED) by (destruct Hch; [contradiction|assumption]); rewrite (proj2 (is_state_true _ _) Er)].
    + destruct (request_instead it a n c CANDIDATE_READY expiry s Hg Ea Hne Hc Hch (or_introl (conj Ebc eq_refl))) as (s' & E & G & Q & T). exists s'. split; [exact E|auto].
    + destruct (request_instead it a n c COMPLETED expiry s Hg Ea Hne Hc Hch (or_intror (conj Er eq_refl))) as (s' & E & G & Q & T). exists s'. split; [exact E|auto].
  - destruct (request_alone it a expiry s Hg Ea) as (s' & E & G & Q & T); [intros y b Hy _; exact (Hno y b Hy)|]. destruct (index_lower_bound _ _ _ _ _) as [n|]; [|exists s'; split; [exact E|auto]].
    destruct Hn as (c & Ec & Hco). rewrite (bind_ok _ _ _ _ _ (ann_opt_some s n c Ec)). exists s'. split; [|auto]. destruct (bool_decide_reflect (m_txhash c = m_txhash a)) as [Hhc|Hhc]; [|exact E].
    unfold is_state. rewrite (Hco Hhc). exact E.
Qed.
End Calls.
