(* ===== verification/TxRequestRefinement.v ===== *)
(** * The tracker: answers, checks, container, priorities, promises

    What [GetRequestable] answers, the consistency checks, a container that has
    the laws, the priorities, and from these the theorems about sequences of
    calls. *)

From stdpp Require Import base numbers list gmap sorting strings.
From Stdlib Require Import ZArith Lia Morphisms.
From S2P Require Import Prelude ArithUint256 Compact Params SipHash Orphanage OrphanageRefinement TxRequest TxRequestProofs TxRequestOps.

Local Open Scope Z_scope.

(** * What the tracker answers

    [GetRequestable]: after the clock is set, the transactions to ask a peer
    for are those for which it is the best of the candidates whose time has
    come, in the order of their announcement. *)

(** ** The documented answer *)

Section Documented.
Context {GT : GenTxids} (m_computer : uint256 -> Z -> bool -> Z).

Definition entry_gtxid (e : entry) : GenTxid := if e_wtxid e then GenTxid_Wtxid (e_hash e) else GenTxid_Txid (e_hash e).
Definition entry_prio (e : entry) : Z := m_computer (e_hash e) (e_peer e) (e_preferred e).

(** A candidate whose time has come, for a transaction that is not requested. *)
Definition eligible (now : Z) (T : coll) (e : entry) : Prop :=
  T e /\ (exists reqtime, e_standing e = Candidate reqtime /\ reqtime <= now) /\ forall e' expiry, T e' -> e_hash e' = e_hash e -> e_standing e' <> Requested expiry.

(** No other eligible entry of the transaction has a higher priority. *)
Definition top (now : Z) (T : coll) (e : entry) : Prop := eligible now T e /\ forall e', eligible now T e' -> e_hash e' = e_hash e -> entry_prio e' <= entry_prio e.
(** Every other eligible entry of the transaction has a lower priority. *)
Definition clear_top (now : Z) (T : coll) (e : entry) : Prop := eligible now T e /\ forall e', eligible now T e' -> e_hash e' = e_hash e -> e' <> e -> entry_prio e' < entry_prio e.

Definition requestable (peer now : Z) (T : coll) (answer : list GenTxid) : Prop :=
  exists es, answer = map entry_gtxid es /\ StronglySorted (fun e e' => e_seq e < e_seq e') es /\
    (forall e, e ∈ es -> e_peer e = peer /\ top now T e) /\ (forall e, e_peer e = peer -> clear_top now T e -> e ∈ es).

(** Entries are numbered in the order of their announcement. *)
Definition numbered (n : Z) (T : coll) : Prop :=
  (forall e, T e -> 0 <= e_seq e < n) /\ (forall e e', T e -> T e' -> e_seq e = e_seq e' -> e_peer e = e_peer e' /\ e_hash e = e_hash e').
End Documented.

#[global] Instance eligible_proper now : Proper (same ==> same) (eligible now).
Proof. intros T T' HT e. unfold eligible. rewrite (HT e). setoid_rewrite HT. reflexivity. Qed.
#[global] Instance requestable_proper {GT : GenTxids} c peer now : Proper (same ==> pointwise_relation _ iff) (requestable c peer now).
Proof. intros T T' HT l. pose proof (eligible_proper now T T' HT) as He. unfold pointwise_relation in He. unfold requestable, top, clear_top. setoid_rewrite He. reflexivity. Qed.
#[global] Instance numbered_proper n : Proper (same ==> iff) (numbered n).
Proof. intros T T' HT. unfold numbered. setoid_rewrite HT. reflexivity. Qed.

(** ** The walk over the best candidates *)

Lemma strongly_sorted_filter {A} (R : A -> A -> Prop) (P : A -> Prop) `{!forall x, Decision (P x)} l : StronglySorted R l -> StronglySorted R (filter P l).
Proof.
  induction 1 as [|x l Hl IH Hx]; [constructor|]. rewrite filter_cons. destruct (decide (P x)); [|exact IH]. constructor; [exact IH|].
  apply Forall_forall. intros y [_ Hy]%list_elem_of_filter. exact (proj1 (Forall_forall _ _) Hx y Hy).
Qed.

Lemma strongly_sorted_index {A} (R : A -> A -> Prop) l : (forall i j x y, (i < j)%nat -> l !! i = Some x -> l !! j = Some y -> R x y) -> StronglySorted R l.
Proof.
  induction l as [|x l IH]; intros HR; constructor.
  - apply IH. intros i j a b Hij. apply (HR (S i) (S j)). lia.
  - apply Forall_forall. intros y [j Ej]%list_elem_of_lookup. exact (HR 0%nat (S j) x y ltac:(lia) eq_refl Ej).
Qed.

Section Answers.
Context {GT : GenTxids} {Index : Type} {HI : MultiIndex Index} (m_computer : uint256 -> Z -> bool -> Z) {HL : MultiIndexLaws Index m_computer}.
Notation st := (tracker Index).
Notation sel_ok := (sel_ok m_computer).
Notation good := (good m_computer).
Notation le_peer := (below peer_compare peer_view).

Definition best_of (p : Z) (a : Announcement) : Prop := m_peer a = p /\ best a.

Lemma best_of_test p a : ((m_peer a =? p) && is_state CANDIDATE_BEST a)%bool = true <-> best_of p a.
Proof using. rewrite andb_true_iff, Z.eqb_eq, is_state_true. reflexivity. Qed.

(** Between the first best candidate of a peer and another there are only such. *)
Lemma best_between p a b : peer_compare (peer_view a) (p, true, ZERO) <> Lt -> le_peer a b -> best_of p b -> best_of p a.
Proof using.
  unfold below, peer_compare, peer_view, best_of. cbn. intros Ha Hle [Hp Hb%is_state_true]. rewrite Hp, Hb in Hle. split; [|apply is_state_true];
    destruct (Z.compare_spec (m_peer a) p) as [E|E|E]; cbn in *; try congruence; destruct (is_state CANDIDATE_BEST a); cbn in *; congruence.
Qed.

Definition best_nodes (i : Index) (p : Z) (its : list nat) : list nat :=
  filter (fun x => match nodes i !! x with Some a => (m_peer a =? p) && is_state CANDIDATE_BEST a | None => false end = true)%bool its.

Lemma best_nodes_spec i p its x : x ∈ best_nodes i p its <-> x ∈ its /\ exists a, nodes i !! x = Some a /\ best_of p a.
Proof using.
  unfold best_nodes. rewrite list_elem_of_filter. destruct (nodes i !! x) as [a|].
  - rewrite best_of_test. split; [intros [H1 H2]; eauto|intros [H1 (b & [= <-] & H2)]; auto].
  - split; [intros [? _]; discriminate|intros [_ (b & ? & _)]; discriminate].
Qed.

Lemma best_walk i p its : StronglySorted (fun x y => forall a b, nodes i !! x = Some a -> nodes i !! y = Some b -> le_peer a b) its ->
  (forall x, x ∈ its -> exists a, nodes i !! x = Some a /\ peer_compare (peer_view a) (p, true, ZERO) <> Lt) ->
  best_of_peer i p its = omap (fun x => nodes i !! x) (best_nodes i p its).
Proof using.
  induction 1 as [|x its Hs IH Hx]; intros Hall; [reflexivity|]. destruct (Hall x ltac:(left)) as (a & Ea & Ha). cbn [best_of_peer]. rewrite Ea.
  destruct ((m_peer a =? p) && is_state CANDIDATE_BEST a)%bool eqn:Et.
  - unfold best_nodes. rewrite filter_cons_True by (rewrite Ea; exact Et). cbn [omap list_omap]. rewrite Ea. f_equal. apply IH. intros y Hy. apply Hall. right. exact Hy.
  - replace (best_nodes i p (x :: its)) with (@nil nat); [reflexivity|]. symmetry. apply elem_of_nil_inv. intros y Hy. apply best_nodes_spec in Hy as [Hy (b & Eb & Hb)]. enough (best_of p a) as Hp by (apply best_of_test in Hp; congruence).
    apply elem_of_cons in Hy as [->|Hy]; [rewrite Ea in Eb; injection Eb as <-; exact Hb|]. exact (best_between p a b Ha (proj1 (Forall_forall _ _) Hx y Hy a b Ea Eb) Hb).
Qed.

(** The walk finds all best candidates of the peer, each once. *)
Lemma best_candidates p (s : st) : wf s -> exists l, NoDup l /\ (forall x, x ∈ l <-> exists a, anns s !! x = Some a /\ best_of p a) /\
  best_of_peer (m_index s) p (from_key peer_compare peer_view (m_index s) ByPeer (p, true, ZERO)) = omap (fun x => anns s !! x) l.
Proof using HL.
  intros Hw. set (its := from_key peer_compare peer_view (m_index s) ByPeer (p, true, ZERO)). destruct (in_peer_order m_computer s) as (Hnd & Hin & Hso).
  assert (Mem : forall x, x ∈ its <-> exists a, anns s !! x = Some a /\ peer_compare (peer_view a) (p, true, ZERO) <> Lt).
  { intros x. unfold its, from_key. rewrite list_elem_of_filter, Hin. unfold anns. destruct (nodes (m_index s) !! x) as [a|].
    - rewrite negb_true_iff, bool_decide_eq_false. split; [intros [H1 _]; eauto|intros (b & [= <-] & Hb); eauto].
    - split; [intros [? _]; discriminate|intros (b & ? & _); discriminate]. }
  exists (best_nodes (m_index s) p its). split; [unfold best_nodes, its, from_key; apply NoDup_filter, NoDup_filter, Hnd|]. split.
  - intros x. rewrite best_nodes_spec, Mem. split; [tauto|]. intros (a & Ea & Hb). split; [|eauto]. exists a. split; [exact Ea|]. destruct Hb as [Hp Hb%is_state_true]. unfold peer_compare, peer_view. cbn.
    rewrite Hp, Hb, Z.compare_refl. cbn. exact (zero_least (m_txhash a) (wf_typed _ Hw x a Ea)).
  - apply best_walk; [|intros x; apply Mem]. unfold its, from_key. apply strongly_sorted_filter, strongly_sorted_index. intros i j x y Hij Ei Ej a b Ea Eb. exact (Hso i j x y a b Hij Ei Ej Ea Eb).
Qed.

(** ** The best candidates, as entries *)

(** The clock has been set. *)
Definition timed (now : Z) (m : gmap nat Announcement) : Prop := forall x a, m !! x = Some a -> (IsWaiting a = true -> now < m_time a) /\ (IsSelectable a = true -> m_time a <= now).

Lemma candidate_entry now m x a t : timed now m -> m !! x = Some a -> e_standing (entry_of a) = Candidate t -> t <= now -> m_state a = CANDIDATE_READY \/ m_state a = CANDIDATE_BEST.
Proof using.
  intros Ht Ea Hs Hle. destruct (Ht x a Ea) as [Hw _]. cbn in Hs. unfold standing_of in Hs. destruct (m_state a) eqn:Est; try discriminate; auto. injection Hs as <-. exfalso.
  assert (now < m_time a) by (apply Hw, waiting_cases; auto). lia.
Qed.

Lemma eligible_tracked now m e : timed now m -> eligible now (tracked m) e <->
  exists x a, m !! x = Some a /\ entry_of a = e /\ (m_state a = CANDIDATE_READY \/ m_state a = CANDIDATE_BEST) /\ forall y b, about m (m_txhash a) y b -> m_state b <> REQUESTED.
Proof using.
  intros Ht. unfold eligible. split.
  - intros ((x & a & Ea & <-) & (t & Hs & Hle) & Hno). exists x, a. split; [exact Ea|]. split; [reflexivity|]. split; [exact (candidate_entry now m x a t Ht Ea Hs Hle)|].
    intros y b [Eb Hb] Hr. apply (Hno (entry_of b) (m_time b)); [exists y, b; auto|exact Hb|apply requested_entry; auto].
  - intros (x & a & Ea & <- & Hst & Hno). split; [exists x, a; auto|]. split.
    + exists (m_time a). split; [cbn; unfold standing_of; destruct Hst as [-> | ->]; reflexivity|]. apply (Ht x a Ea), selectable_cases, Hst.
    + intros e' t (y & b & Eb & <-) Hh Hs. apply requested_entry in Hs as [Hr _]. exact (Hno y b (conj Eb Hh) Hr).
Qed.

Lemma best_not_requested m x a : sel_ok m -> m !! x = Some a -> best a -> forall y b, about m (m_txhash a) y b -> m_state b <> REQUESTED.
Proof using.
  intros Hsel Ea Hb y b Hy Hr. assert (y = x) as -> by (apply (sa_one _ _ _ (Hsel (m_txhash a)) y x b a Hy (conj Ea eq_refl)); [right; exact Hr|left; exact Hb]). destruct Hy as [E _]. unfold best in Hb. congruence.
Qed.

Lemma best_top now m x a : timed now m -> sel_ok m -> m !! x = Some a -> best a -> top m_computer now (tracked m) (entry_of a).
Proof using.
  intros Ht Hsel Ea Hb. split.
  - apply (eligible_tracked now m _ Ht). exists x, a. split; [exact Ea|]. split; [reflexivity|]. split; [right; exact Hb|exact (best_not_requested m x a Hsel Ea Hb)].
  - intros e' He Hh. apply (eligible_tracked now m _ Ht) in He as (y & b & Eb & <- & Hst & _). assert (Hy : about m (m_txhash a) y b) by (split; [exact Eb|exact Hh]). change (computer m_computer b <= computer m_computer a). destruct Hst as [Hr|Hb'].
    + exact (sa_best _ _ _ (Hsel (m_txhash a)) y x b a Hy (conj Ea eq_refl) Hr Hb).
    + assert (y = x) as -> by (apply (sa_one _ _ _ (Hsel (m_txhash a)) y x b a Hy (conj Ea eq_refl)); left; assumption). destruct Hy as [E _]. rewrite Ea in E. injection E as <-. lia.
Qed.

Lemma clear_top_best now m e : uniq m -> timed now m -> sel_ok m -> clear_top m_computer now (tracked m) e -> exists x a, m !! x = Some a /\ entry_of a = e /\ best a.
Proof using.
  intros Hu Ht Hsel [He Hclear]. apply (eligible_tracked now m _ Ht) in He as (x & a & Ea & <- & Hst & Hno). exists x, a. split; [exact Ea|]. split; [reflexivity|]. destruct Hst as [Hr|Hb]; [exfalso|exact Hb].
  destruct (sa_ready _ _ _ (Hsel (m_txhash a)) x a (conj Ea eq_refl) Hr) as (y & b & Hy & [Hb|Hb]); [|exact (Hno y b Hy Hb)]. pose proof (sa_best _ _ _ (Hsel (m_txhash a)) x y a b (conj Ea eq_refl) Hy Hr Hb) as Hle.
  assert (Hne : entry_of b <> entry_of a).
  { intros E. assert (y = x) as -> by (apply (Hu y x b a (proj1 Hy) Ea); [exact (f_equal e_peer E)|apply Hy]). destruct Hy as [E' _]. unfold ready, best in *. congruence. }
  assert (computer m_computer b < computer m_computer a); [|lia].
  apply (Hclear (entry_of b)); [|exact (proj2 Hy)|exact Hne]. apply (eligible_tracked now m _ Ht). exists y, b. split; [apply Hy|]. split; [reflexivity|]. split; [right; exact Hb|exact (best_not_requested m y b Hsel (proj1 Hy) Hb)].
Qed.

(** Different nodes have different numbers. *)
Lemma numbered_nodes n m x y a b : uniq m -> numbered n (tracked m) -> m !! x = Some a -> m !! y = Some b -> m_sequence a = m_sequence b -> x = y.
Proof using.
  intros Hu [_ Hn] Ea Eb E. destruct (Hn (entry_of a) (entry_of b)) as [H1 H2]; [exists x, a; auto|exists y, b; auto|exact E|]. exact (Hu x y a b Ea Eb H1 H2).
Qed.

Lemma omap_nodes_numbered n m l : uniq m -> numbered n (tracked m) -> NoDup l -> NoDup (map m_sequence (omap (fun x => m !! x) l)).
Proof using.
  intros Hu Hn. induction 1 as [|x l Hx Hnd IH]; [constructor|]. cbn. destruct (m !! x) as [a|] eqn:Ea; [|exact IH]. cbn. constructor; [|exact IH]. intros Hin. apply Hx.
  apply list_elem_of_fmap in Hin as (b & Eab & Hb). apply list_elem_of_omap in Hb as (y & Hy & Eb). rewrite (numbered_nodes n m x y a b Hu Hn Ea Eb Eab). exact Hy.
Qed.

Lemma sorted_strictly l : Sorted by_sequence l -> NoDup (map m_sequence l) -> StronglySorted (fun e e' => e_seq e < e_seq e') (map entry_of l).
Proof using.
  intros Hs%Sorted_StronglySorted Hnd; [|intros a b c; unfold by_sequence; lia]. induction Hs as [|a l Hs IH Ha]; cbn in *; [constructor|]. apply NoDup_cons in Hnd as [Hn Hnd]. constructor; [exact (IH Hnd)|].
  apply Forall_forall. intros e (b & -> & Hb)%list_elem_of_fmap. cbn. pose proof (proj1 (Forall_forall _ _) Ha b Hb) as Hle. unfold by_sequence in Hle. assert (m_sequence a <> m_sequence b); [|lia].
  intros E. apply Hn. rewrite E. apply list_elem_of_fmap. exists b. auto.
Qed.

#[local] Instance by_sequence_total : Total by_sequence.
Proof using. intros a b. unfold by_sequence. lia. Qed.

Lemma numbered_sub n T f : (forall e, e_seq (f e) = e_seq e /\ e_peer (f e) = e_peer e /\ e_hash (f e) = e_hash e) -> numbered n T -> numbered n (pruned (image f T)).
Proof using.
  intros Hf [H1 H2]. split.
  - intros e [(e0 & H0 & ->) _]. destruct (Hf e0) as [-> _]. exact (H1 e0 H0).
  - intros e e' [(e0 & H0 & ->) _] [(e0' & H0' & ->) _]. destruct (Hf e0) as (-> & -> & ->), (Hf e0') as (-> & -> & ->). exact (H2 e0 e0' H0 H0').
Qed.

Lemma expire_fields now e : e_seq (expire now e) = e_seq e /\ e_peer (expire now e) = e_peer e /\ e_hash (expire now e) = e_hash e.
Proof using. unfold expire. destruct (e_standing e); try (destruct (_ <=? _)); auto. Qed.

Lemma GetRequestable_spec peer now n s : good s -> numbered n (tracked (anns s)) -> exists answer expired s', GetRequestable m_computer peer now s = (Ok (answer, expired), s') /\ good s' /\ m_current_sequence s' = m_current_sequence s /\
  timed now (anns s') /\ same (tracked (anns s')) (pruned (image (expire now) (tracked (anns s)))) /\ (forall pg, pg ∈ expired <-> overdue now (tracked (anns s)) pg) /\
  requestable m_computer peer now (tracked (anns s')) answer.
Proof using HL.
  intros Hg Hn. unfold GetRequestable. destruct (SetTimePoint_spec m_computer now s Hg) as (out & s1 & E1 & G1 & Q1 & Ht & T1 & O1). rewrite (bind_ok _ _ _ _ _ E1). unfold mbind, stm_bind, get_st. cbn [mret stm_ret].
  destruct (best_candidates peer s1 (proj1 G1)) as (l & Hnd & Hl & ->). set (sel := omap (fun x => anns s1 !! x) l). assert (N1 : numbered n (tracked (anns s1))) by (rewrite T1; exact (numbered_sub n _ _ (expire_fields now) Hn)).
  assert (Mem : forall a, a ∈ merge_sort by_sequence sel <-> exists x, anns s1 !! x = Some a /\ best_of peer a).
  { intros a. rewrite (merge_sort_Permutation by_sequence sel). unfold sel. rewrite list_elem_of_omap. split.
    - intros (x & Hx & Ea). apply Hl in Hx as (b & Eb & Hb). rewrite Ea in Eb. injection Eb as <-. eauto.
    - intros (x & Ea & Hb). exists x. split; [apply Hl; eauto|exact Ea]. }
  exists (map ToGenTxid (merge_sort by_sequence sel)), out, s1. split; [reflexivity|]. split; [exact G1|]. split; [exact Q1|]. split; [exact Ht|]. split; [exact T1|]. split; [exact O1|].
  exists (map entry_of (merge_sort by_sequence sel)). split; [rewrite map_map; reflexivity|]. split; [|split].
  - apply sorted_strictly; [apply Sorted_merge_sort; apply _|]. rewrite (merge_sort_Permutation by_sequence sel). exact (omap_nodes_numbered n (anns s1) l (wf_uniq _ (proj1 G1)) N1 Hnd).
  - intros e (a & -> & Ha)%list_elem_of_fmap. apply Mem in Ha as (x & Ea & Hp & Hb). split; [exact Hp|exact (best_top now (anns s1) x a Ht (proj2 G1) Ea Hb)].
  - intros e Hp Hc. destruct (clear_top_best now (anns s1) e (wf_uniq _ (proj1 G1)) Ht (proj2 G1) Hc) as (x & a & Ea & <- & Hb). apply list_elem_of_fmap. exists a. split; [reflexivity|]. apply Mem. exists x. split; [exact Ea|split; assumption].
Qed.
End Answers.

(** * The consistency checks of the tracker

    [TxRequest_SanityCheck] recounts the announcements of every peer and of every
    transaction from the container; a tracker that satisfies [good] passes it,
    and one whose clock has been set passes [PostGetRequestableSanityCheck]. *)

(** ** Recounting *)

(** A fold that keeps one value per key folds the elements of each key. *)
Lemma grouped_fold {A V K : Type} `{Countable K} (key : A -> K) (f : V -> A -> V) (d : V) (l : list A) (k : K) :
  fold_left (fun ret a => <[key a := f (default d (ret !! key a)) a]> ret) l (∅ : gmap K V) !! k =
  match filter (fun a => key a = k) l with [] => None | group => Some (fold_left f group d) end.
Proof.
  induction l as [|a l IH] using rev_ind; [reflexivity|]. rewrite fold_left_app, filter_app. cbn [fold_left]. set (ret := fold_left _ l ∅) in *. destruct (decide (key a = k)) as [<-|Hne].
  - rewrite lookup_insert_eq, (filter_cons_True (fun b => key b = key a) a []), filter_nil by reflexivity. rewrite IH. destruct (filter (fun b => key b = key a) l) as [|b group]; [reflexivity|]. change ((b :: group) ++ [a]) with (b :: (group ++ [a])). cbn [default fold_left]. rewrite fold_left_app. reflexivity.
  - rewrite lookup_insert_ne, (filter_cons_False (fun b => key b = k) a []), filter_nil, app_nil_r by congruence. exact IH.
Qed.

Definition lcnt (P : Announcement -> bool) (l : list Announcement) : Z := Z.of_nat (length (filter (fun a => P a = true) l)).

Lemma lcnt_snoc P l a : lcnt P (l ++ [a]) = lcnt P l + count_if (P a).
Proof. unfold lcnt, count_if. rewrite filter_app, length_app, filter_cons, filter_nil. destruct (decide (P a = true)) as [->|N]; [cbn; lia|]. apply not_true_iff_false in N. rewrite N. cbn. lia. Qed.

Lemma lcnt_range P l : 0 <= lcnt P l <= Z.of_nat (length l).
Proof. unfold lcnt. pose proof (length_filter (fun a => P a = true) l). lia. Qed.

Lemma lcnt_all l : lcnt (fun _ => true) l = Z.of_nat (length l).
Proof. induction l as [|a l IH] using rev_ind; [reflexivity|]. rewrite lcnt_snoc, IH, length_app. cbn. lia. Qed.

Lemma lcnt_filter P (Q : Announcement -> Prop) (q : Announcement -> bool) `{!forall a, Decision (Q a)} l : (forall a, q a = true <-> Q a) -> lcnt P (filter Q l) = lcnt (fun a => q a && P a)%bool l.
Proof.
  intros Hq. unfold lcnt. rewrite list_filter_filter. do 2 f_equal. apply list_filter_iff. intros a. rewrite andb_true_iff, Hq. tauto.
Qed.

(** The nodes listed by an index are counted as those of the container. *)
Lemma lcnt_nodes P l : forall m, NoDup l -> (forall x, x ∈ l <-> is_Some (m !! x)) -> lcnt P (omap (fun x => m !! x) l) = cnt P m.
Proof.
  induction l as [|x l IH]; intros m Hnd Hin.
  - symmetry. apply cnt_zero. intros y b Eb. assert (Hy : y ∈ []) by (apply Hin; eauto). apply not_elem_of_nil in Hy. contradiction.
  - apply NoDup_cons in Hnd as [Hx Hnd]. destruct (proj1 (Hin x) ltac:(left)) as [a Ea]. cbn [omap list_omap]. rewrite Ea. pose proof (cnt_delete P m x a Ea) as D.
    assert (E : omap (fun y => m !! y) l = omap (fun y => delete x m !! y) l).
    { apply list_omap_ext. apply Forall2_same_length_lookup_2; [reflexivity|]. intros i y y' E1 E2. rewrite E1 in E2. injection E2 as <-. rewrite lookup_delete_ne; [reflexivity|]. intros ->. apply Hx. exact (list_elem_of_lookup_2 _ _ _ E1). }
    specialize (IH (delete x m) Hnd). rewrite E. unfold lcnt in *. rewrite filter_cons. destruct (decide (P a = true)) as [Hp|Hp]; [rewrite Hp in D|apply not_true_iff_false in Hp; rewrite Hp in D]; cbn [length count_if] in *;
      rewrite ?Nat2Z.inj_succ, IH; try lia; intros y; rewrite lookup_delete_is_Some, <- Hin, elem_of_cons; (split; [intros Hy; split; [congruence|auto]|intros [H1 [H2|H2]]; [congruence|exact H2]]).
Qed.

(** The counters of a peer's announcements. *)
Definition add_peer (info : PeerInfo) (a : Announcement) : PeerInfo :=
  {| m_total := u64 (m_total info + 1); m_completed := u64 (m_completed info + count_if (is_state COMPLETED a)); m_requested := u64 (m_requested info + count_if (is_state REQUESTED a)) |}.

Lemma add_peers l : Z.of_nat (length l) < 2 ^ 64 -> fold_left add_peer l no_announcements = {| m_total := Z.of_nat (length l); m_completed := lcnt (is_state COMPLETED) l; m_requested := lcnt (is_state REQUESTED) l |}.
Proof.
  induction l as [|a l IH] using rev_ind; intros Hl; [reflexivity|]. rewrite length_app in Hl. cbn in Hl. rewrite fold_left_app, IH by lia. cbn [fold_left]. unfold add_peer. cbn [m_total m_completed m_requested].
  rewrite !lcnt_snoc, length_app. pose proof (lcnt_range (is_state COMPLETED) l). pose proof (lcnt_range (is_state REQUESTED) l). cbn [length].
  assert (B : forall b, 0 <= count_if b <= 1) by (intros []; cbn; lia). pose proof (B (is_state COMPLETED a)). pose proof (B (is_state REQUESTED a)). rewrite !uwrap_small by (unfold in_u; lia). f_equal. lia.
Qed.

(** The counters of a transaction's announcements. *)
Section Infos.
Context (m_computer : uint256 -> Z -> bool -> Z) (Hnonneg : forall h p b, 0 <= m_computer h p b).
Notation prio := (computer m_computer).

Record summary (l : list Announcement) (info : TxHashInfo) : Prop := {
  su_delayed : m_candidate_delayed info = lcnt (is_state CANDIDATE_DELAYED) l;
  su_ready : m_candidate_ready info = lcnt (is_state CANDIDATE_READY) l;
  su_best : m_candidate_best info = lcnt (is_state CANDIDATE_BEST) l;
  su_requested : m_info_requested info = lcnt (is_state REQUESTED) l;
  su_peers : m_peers info = map m_peer l;
  su_prio_best : m_priority_candidate_best info = 2 ^ 64 - 1 /\ lcnt (is_state CANDIDATE_BEST) l = 0 \/ exists b, b ∈ l /\ best b /\ m_priority_candidate_best info = prio b;
  su_prio_ready : m_priority_best_candidate_ready info = 0 \/ exists b, b ∈ l /\ ready b /\ m_priority_best_candidate_ready info = prio b;
}.

Lemma add_infos l : Z.of_nat (length l) < 2 ^ 64 -> summary l (fold_left (add_info m_computer) l new_TxHashInfo).
Proof using.
  induction l as [|a l IH] using rev_ind; intros Hl; [split; cbn; auto|]. rewrite length_app in Hl. cbn in Hl. rewrite fold_left_app. cbn [fold_left]. destruct (IH ltac:(lia)) as [A B C D E F G]. set (info := fold_left _ l new_TxHashInfo) in *.
  assert (W : forall st, u64 (lcnt (is_state st) l + count_if (is_state st a)) = lcnt (is_state st) (l ++ [a])).
  { intros st. rewrite lcnt_snoc. apply uwrap_small. pose proof (lcnt_range (is_state st) l). unfold in_u, count_if. destruct (is_state st a); lia. }
  assert (In : forall b, b ∈ l -> b ∈ l ++ [a]) by (intros b Hb; apply elem_of_app; auto). assert (Ia : a ∈ l ++ [a]) by (apply elem_of_app; right; left).
  split; cbn [add_info m_candidate_delayed m_candidate_ready m_candidate_best m_info_requested m_peers m_priority_candidate_best m_priority_best_candidate_ready]; rewrite ?A, ?B, ?C, ?D, ?E, ?W; try reflexivity.
  - rewrite map_app. reflexivity.
  - destruct (is_state CANDIDATE_BEST a) eqn:Es; [right; exists a; apply is_state_true in Es; auto|]. destruct F as [[F1 F2]|(b & Hb & H1 & H2)]; [|right; exists b; auto]. left. split; [exact F1|]. rewrite lcnt_snoc, Es, F2. reflexivity.
  - destruct (is_state CANDIDATE_READY a) eqn:Es; [|destruct G as [G|(b & Hb & H1 & H2)]; [auto|right; exists b; auto]]. apply is_state_true in Es.
    destruct (Z.max_spec (m_priority_best_candidate_ready info) (prio a)) as [[_ ->]|[_ ->]]; [right; exists a; auto|]. destruct G as [G|(b & Hb & H1 & H2)]; [auto|right; exists b; auto].
Qed.

Lemma no_adjacent l : NoDup l -> adjacent_equal l = false.
Proof using. induction 1 as [|x l Hx Hnd IH]; [reflexivity|]. destruct l as [|y l]; [reflexivity|]. cbn [adjacent_equal]. apply orb_false_iff. split; [|exact IH]. apply Z.eqb_neq. intros ->. apply Hx. left. Qed.

Lemma states_apart l : lcnt (is_state CANDIDATE_DELAYED) l + lcnt (is_state CANDIDATE_READY) l + lcnt (is_state CANDIDATE_BEST) l + lcnt (is_state REQUESTED) l <= Z.of_nat (length l).
Proof using. induction l as [|a l IH] using rev_ind; [vm_compute; discriminate|]. rewrite !lcnt_snoc, length_app. assert (E : forall st, is_state st a = bool_decide (m_state a = st)) by reflexivity. rewrite !E. cbn [length]. rewrite Nat2Z.inj_add. destruct (m_state a); repeat case_bool_decide; try congruence; cbn [count_if]; lia. Qed.

Lemma selected_sum l : lcnt (is_state CANDIDATE_BEST) l + lcnt (is_state REQUESTED) l = lcnt IsSelected l.
Proof using. induction l as [|a l IH] using rev_ind; [reflexivity|]. rewrite !lcnt_snoc, <- IH. unfold IsSelected. assert (E : forall st, is_state st a = bool_decide (m_state a = st)) by reflexivity. rewrite !E. repeat case_bool_decide; try congruence; cbn [orb count_if]; lia. Qed.

(** What [check_txhash] tests. *)
Lemma check_txhash_ok l : Z.of_nat (length l) < 2 ^ 63 -> NoDup (map m_peer l) -> (exists a, a ∈ l /\ live a) ->
  lcnt (is_state CANDIDATE_BEST) l + lcnt (is_state REQUESTED) l <= 1 -> (0 < lcnt (is_state CANDIDATE_READY) l -> 1 <= lcnt (is_state CANDIDATE_BEST) l + lcnt (is_state REQUESTED) l) ->
  (forall a b, a ∈ l -> b ∈ l -> ready a -> best b -> prio a <= prio b) -> check_txhash (fold_left (add_info m_computer) l new_TxHashInfo) = Ok tt.
Proof using Hnonneg.
  intros Hl Hnd (a & Ha & Hlive) Hone Hready Hbest. destruct (add_infos l ltac:(lia)) as [A B C D E F G]. set (info := fold_left _ l new_TxHashInfo) in *. unfold check_txhash. rewrite A, B, C, D, E.
  assert (R : forall st, 0 <= lcnt (is_state st) l <= Z.of_nat (length l)) by (intros st; apply lcnt_range). pose proof (R CANDIDATE_BEST). pose proof (R REQUESTED). pose proof (R CANDIDATE_READY). pose proof (R CANDIDATE_DELAYED).
  assert (Pos : forall b st, b ∈ l -> m_state b = st -> 0 < lcnt (is_state st) l).
  { intros b st Hb Hst. unfold lcnt. assert (b ∈ filter (fun c => is_state st c = true) l) as Hf by (apply list_elem_of_filter; split; [apply is_state_true, Hst|exact Hb]). destruct (filter _ l); [apply not_elem_of_nil in Hf; contradiction|cbn; lia]. }
  assert (Sum : 0 < lcnt (is_state CANDIDATE_DELAYED) l + lcnt (is_state CANDIDATE_READY) l + lcnt (is_state CANDIDATE_BEST) l + lcnt (is_state REQUESTED) l).
  { destruct (m_state a) eqn:Es; [pose proof (Pos a _ Ha Es); lia..|contradiction]. }
  pose proof (states_apart l). rewrite !uwrap_small by (unfold in_u; lia).
  rewrite (proj2 (Z.gtb_lt _ _) Sum), (proj2 (Z.leb_le _ _) Hone). cbn [assert_]. unfold mbind, res_bind.
  replace (negb (lcnt (is_state CANDIDATE_READY) l >? 0) || (lcnt (is_state CANDIDATE_BEST) l + lcnt (is_state REQUESTED) l =? 1))%bool with true.
  2: { symmetry. apply orb_true_iff. destruct (Z.gtb_spec (lcnt (is_state CANDIDATE_READY) l) 0) as [Hp|Hp]; [right; apply Z.eqb_eq; specialize (Hready ltac:(lia)); lia|left; reflexivity]. }
  replace (negb (negb (lcnt (is_state CANDIDATE_READY) l =? 0) && negb (lcnt (is_state CANDIDATE_BEST) l =? 0)) || (m_priority_candidate_best info >=? m_priority_best_candidate_ready info))%bool with true.
  2: { symmetry. apply orb_true_iff. destruct (Z.eqb_spec (lcnt (is_state CANDIDATE_BEST) l) 0) as [Hz|Hz]; [left; rewrite andb_false_r; reflexivity|]. right. apply Z.geb_le.
       destruct F as [[_ F]|(b & Hb & Hbb & ->)]; [contradiction|]. destruct G as [->|(c & Hc & Hrc & ->)]; [apply Hnonneg|exact (Hbest c b Hc Hb Hrc Hbb)]. }
  cbn [assert_]. rewrite no_adjacent; [reflexivity|]. rewrite (merge_sort_Permutation Z.le (map m_peer l)). exact Hnd.
Qed.
End Infos.

(** ** The checks pass *)

Lemma check_all_ok infos : (forall h info, (h, info) ∈ infos -> check_txhash info = Ok tt) -> check_all infos = Ok tt.
Proof.
  induction infos as [|[h info] infos IH]; intros Hall; [reflexivity|]. cbn. rewrite (Hall h info) by left. cbn. apply IH. intros h' info' Hin. apply (Hall h' info'). right. exact Hin.
Qed.

Lemma cnt_witness P m : 0 < cnt P m -> exists x a, m !! x = Some a /\ P a = true.
Proof.
  intros Hne. unfold cnt in Hne. destruct (map_choose (filter (fun xa => P (snd xa) = true) m)) as (x & a & E); [intros E0; rewrite E0, map_size_empty in Hne; lia|]. apply map_lookup_filter_Some in E as [E Hp]. eauto.
Qed.

Lemma cnt_one P m : (forall x y a b, m !! x = Some a -> m !! y = Some b -> P a = true -> P b = true -> x = y) -> cnt P m <= 1.
Proof.
  intros Hone. destruct (Z_lt_le_dec 0 (cnt P m)) as [Hpos|?]; [|lia]. destruct (cnt_witness P m Hpos) as (x & a & Ea & Hp). pose proof (cnt_delete P m x a Ea) as D. rewrite Hp in D. cbn in D. enough (cnt P (delete x m) = 0) by lia. apply cnt_zero. intros y b [Hy Eb]%lookup_delete_Some.
  apply not_true_iff_false. intros Hb. exact (Hy (Hone x y a b Ea Eb Hp Hb)).
Qed.

Section Checks.
Context {Index : Type} {HI : MultiIndex Index} (m_computer : uint256 -> Z -> bool -> Z) {HL : MultiIndexLaws Index m_computer} (Hnonneg : forall h p b, 0 <= m_computer h p b).
Notation st := (tracker Index).
Notation good := (good m_computer).

Lemma announcements_spec (s : st) a : a ∈ announcements (m_index s) <-> exists x, anns s !! x = Some a.
Proof using HL.
  unfold announcements. rewrite list_elem_of_omap. destruct (in_peer_order m_computer s) as (_ & Hin & _). unfold anns in *. split; [intros (x & _ & E); eauto|intros (x & E); exists x; split; [apply Hin; eauto|exact E]].
Qed.

Lemma announcements_cnt (s : st) P : lcnt P (announcements (m_index s)) = cnt P (anns s).
Proof using HL. destruct (in_peer_order m_computer s) as (Hnd & Hin & _). exact (lcnt_nodes P _ _ Hnd Hin). Qed.

Lemma announcements_small (s : st) : wf s -> Z.of_nat (length (announcements (m_index s))) < 2 ^ 63.
Proof using HL.
  intros Hw. pose proof (announcements_cnt s (fun _ => true)) as E. rewrite lcnt_all in E. rewrite E. pose proof (cnt_range (fun _ => true) (anns s)). pose proof (wf_small _ Hw). lia.
Qed.

(** The announcements of a key. *)
Lemma group_small (s : st) (P : Announcement -> Prop) `{!forall a, Decision (P a)} : wf s -> Z.of_nat (length (filter P (announcements (m_index s)))) < 2 ^ 63.
Proof using HL. intros Hw. pose proof (announcements_small s Hw). pose proof (length_filter P (announcements (m_index s))). lia. Qed.

Lemma RecomputePeerInfo_spec (s : st) : wf s -> RecomputePeerInfo (m_index s) = m_peerinfo s.
Proof using HL.
  intros Hw. apply map_eq. intros p. rewrite (wf_info _ Hw). unfold RecomputePeerInfo. change count_peer with (fun (ret : gmap Z PeerInfo) a => <[m_peer a := add_peer (default no_announcements (ret !! m_peer a)) a]> ret). rewrite grouped_fold.
  set (group := filter (fun a => m_peer a = p) (announcements (m_index s))). assert (Hs : Z.of_nat (length group) < 2 ^ 63) by exact (group_small s _ Hw).
  assert (Cnt : forall P, lcnt P group = cnt (fun a => of_peer p a && P a)%bool (anns s)).
  { intros P. unfold group. rewrite (lcnt_filter P _ (of_peer p)); [apply announcements_cnt|]. intros a. apply Z.eqb_eq. }
  assert (Len : Z.of_nat (length group) = cnt (of_peer p) (anns s)).
  { rewrite <- lcnt_all, Cnt. unfold cnt. do 2 f_equal. apply map_filter_ext. intros x a _. cbn. rewrite andb_true_r. reflexivity. }
  unfold infos, counts. rewrite <- Len. destruct group as [|a group'] eqn:Eg; [reflexivity|]. rewrite <- Eg in *. rewrite add_peers, !Cnt by lia. replace (Z.of_nat (length group) =? 0) with false; [reflexivity|].
  symmetry. apply Z.eqb_neq. rewrite Eg. cbn. lia.
Qed.

Lemma group_peers (s : st) h : wf s -> NoDup (map m_peer (filter (fun a => m_txhash a = h) (announcements (m_index s)))).
Proof using HL.
  intros Hw. destruct (in_peer_order m_computer s) as (Hnd & _). unfold announcements. fold (anns s). induction Hnd as [|x l Hx Hnd IH]; [constructor|]. cbn [omap list_omap]. destruct (anns s !! x) as [a|] eqn:Ea; [|exact IH].
  rewrite filter_cons. destruct (decide (m_txhash a = h)) as [Hh|_]; [|exact IH]. cbn. constructor; [|exact IH]. intros (b & Hp & [Hb Hin]%list_elem_of_filter)%list_elem_of_fmap. apply list_elem_of_omap in Hin as (y & Hy & Eb).
  apply Hx. rewrite (wf_uniq _ Hw x y a b Ea Eb Hp ltac:(congruence)). exact Hy.
Qed.

Lemma SanityCheck_spec s : good s -> TxRequest_SanityCheck m_computer s = Ok tt.
Proof using HL Hnonneg.
  intros [Hw Hsel]. unfold TxRequest_SanityCheck. rewrite (RecomputePeerInfo_spec s Hw), bool_decide_eq_true_2 by reflexivity. cbn [assert_]. unfold mbind, res_bind. apply check_all_ok. intros h info Hin%elem_of_map_to_list.
  unfold ComputeTxHashInfo in Hin. change (count_txhash m_computer) with (fun (ret : gmap uint256 TxHashInfo) a => <[m_txhash a := add_info m_computer (default new_TxHashInfo (ret !! m_txhash a)) a]> ret) in Hin. rewrite grouped_fold in Hin.
  pose proof (group_small s (fun a => m_txhash a = h) Hw) as Hl. pose proof (group_peers s h Hw) as Hnd. set (group := filter (fun a => m_txhash a = h) (announcements (m_index s))) in *.
  assert (Mem : forall a, a ∈ group <-> exists x, about (anns s) h x a) by (intros a; unfold group, about; rewrite list_elem_of_filter, announcements_spec; split; [intros [Hh [x E]]; exists x; auto|intros (x & E & Hh); eauto]).
  assert (Cnt : forall P, lcnt P group = cnt (fun a => bool_decide (m_txhash a = h) && P a)%bool (anns s)).
  { intros P. unfold group. rewrite (lcnt_filter P _ (fun a => bool_decide (m_txhash a = h))); [apply announcements_cnt|]. intros a. apply bool_decide_eq_true. }
  destruct (Hsel h) as [One Ready Best Live]. destruct group as [|a group'] eqn:Eg; [discriminate|]. rewrite <- Eg in *. injection Hin as <-. apply (check_txhash_ok m_computer Hnonneg group Hl Hnd).
  - destruct (proj1 (Mem a)) as [x Hx]; [rewrite Eg; left|]. destruct (Live x a Hx) as (y & b & Hb & Hlb). exists b. split; [apply Mem; eauto|exact Hlb].
  - rewrite selected_sum, Cnt. apply cnt_one. intros x y b c Eb Ec [H1%bool_decide_eq_true H2%selected_cases]%andb_true_iff [H3%bool_decide_eq_true H4%selected_cases]%andb_true_iff.
    exact (One x y b c (conj Eb H1) (conj Ec H3) H2 H4).
  - rewrite selected_sum, !Cnt. intros Hr. destruct (cnt_witness _ _ Hr) as (x & b & Eb & [H1%bool_decide_eq_true H2%is_state_true]%andb_true_iff).
    destruct (Ready x b (conj Eb H1) H2) as (y & c & [Ec Hc] & Hch). apply (cnt_pos _ _ y c Ec). rewrite (bool_decide_eq_true_2 _ Hc). apply selected_cases, Hch.
  - intros b c [x Hb]%Mem [y Hc]%Mem H1 H2. exact (Best x y b c Hb Hc H1 H2).
Qed.

Lemma PostGetRequestable_spec now s : timed now (anns s) -> PostGetRequestableSanityCheck now s = Ok tt.
Proof using HL.
  intros Ht. unfold PostGetRequestableSanityCheck. assert (Hall : forall a, a ∈ announcements (m_index s) -> (IsWaiting a = true -> now < m_time a) /\ (IsSelectable a = true -> m_time a <= now)).
  { intros a [x Ea]%announcements_spec. exact (Ht x a Ea). }
  induction (announcements (m_index s)) as [|a l IH]; [reflexivity|]. cbn [check_times]. destruct (Hall a ltac:(left)) as [H1 H2]. assert (E : (if IsWaiting a then assert_ (m_time a >? now) else if IsSelectable a then assert_ (m_time a <=? now) else Ok tt) = Ok tt).
  { destruct (IsWaiting a); [rewrite (proj2 (Z.gtb_lt _ _) (H1 eq_refl)); reflexivity|]. destruct (IsSelectable a); [rewrite (proj2 (Z.leb_le _ _) (H2 eq_refl))|]; reflexivity. }
  rewrite E. cbn. apply IH. intros b Hb. apply Hall. right. exact Hb.
Qed.
End Checks.

(** * A container for the tracker

    A map of announcements whose three indexes are sorted on demand: it has
    the laws that the tracker relies on ([MultiIndexLaws]), so they are
    consistent and the tracker can be run on it. *)

(** ** Comparisons *)

Record ordered {K : Type} (c : K -> K -> comparison) : Prop := {
  o_refl x : c x x = Eq;
  o_anti x y : c y x = CompOpp (c x y);
  o_eq x y z : c x y = Eq -> c x z = c y z;
  o_lt x y z : c x y = Lt -> c y z = Lt -> c x z = Lt;
}.

Lemma ordered_Z : ordered Z.compare.
Proof. split; [apply Z.compare_refl|intros x y; apply Z.compare_antisym|intros x y z ->%Z.compare_eq; reflexivity|intros x y z; rewrite !Z.compare_lt_iff; lia]. Qed.
Lemma ordered_nat : ordered Nat.compare.
Proof. split; [apply Nat.compare_refl|intros x y; apply Nat.compare_antisym|intros x y z ->%Nat.compare_eq; reflexivity|intros x y z; rewrite !Nat.compare_lt_iff; lia]. Qed.
Lemma ordered_bool : ordered bool_compare.
Proof. split; intros; repeat match goal with b : bool |- _ => destruct b end; cbn in *; congruence. Qed.

Lemma ordered_hash : ordered Compare.
Proof.
  split; [apply Compare_refl|intros x y; apply Compare_anti|intros x y z ->%Compare_eq; reflexivity|].
  intros x y z H1 H2. assert (L : hash_le x z) by (apply (transitivity (y := y)); unfold hash_le; congruence). unfold hash_le in L. destruct (Compare x z) eqn:E; [|reflexivity|contradiction].
  apply Compare_eq in E as ->. rewrite Compare_anti, H2 in H1. discriminate.
Qed.

Lemma ordered_then {K A B : Type} (c : A -> A -> comparison) (d : B -> B -> comparison) (f : K -> A) (g : K -> B) :
  ordered c -> ordered d -> ordered (fun x y => then_compare (c (f x) (f y)) (d (g x) (g y))).
Proof.
  intros [R1 A1 E1 L1] [R2 A2 E2 L2]. split.
  - intros x. rewrite R1. apply R2.
  - intros x y. rewrite (A1 (f x)), (A2 (g x)). destruct (c (f x) (f y)); reflexivity.
  - intros x y z. destruct (c (f x) (f y)) eqn:E; cbn; try discriminate. intros H. rewrite (E1 _ _ (f z) E), (E2 _ _ (g z) H). reflexivity.
  - intros x y z. destruct (c (f x) (f y)) eqn:E; cbn; try discriminate; intros H.
    + rewrite (E1 _ _ (f z) E). destruct (c (f y) (f z)); cbn; try discriminate; [intros H'; exact (L2 _ _ _ H H')|auto].
    + destruct (c (f y) (f z)) eqn:E'; cbn; try discriminate; intros _.
      * rewrite (A1 (f z) (f x)), <- (E1 _ _ (f x) E'), (A1 (f x) (f y)), E. reflexivity.
      * rewrite (L1 _ _ _ E E'). reflexivity.
Qed.

Lemma ordered_peer : ordered peer_compare.
Proof. exact (ordered_then _ _ (fun x => fst (fst x)) (fun x => x) ordered_Z (ordered_then _ _ (fun x => snd (fst x)) snd ordered_bool ordered_hash)). Qed.
Lemma ordered_txhash : ordered txhash_compare.
Proof. exact (ordered_then _ _ (fun x => fst (fst x)) (fun x => x) ordered_hash (ordered_then _ _ (fun x => state_value (snd (fst x))) snd ordered_Z ordered_Z)). Qed.
Lemma ordered_time : ordered time_compare.
Proof. exact (ordered_then _ _ fst snd ordered_Z ordered_Z). Qed.

(** ** The container *)

Section Sorted.
Context {K : Type} (compare : K -> K -> comparison) (key : Announcement -> K) (Hc : ordered compare).
Notation store := (gmap nat Announcement).

Definition node_compare (m : store) (x y : nat) : comparison :=
  then_compare (match m !! x, m !! y with Some a, Some b => compare (key a) (key b) | None, Some _ => Lt | Some _, None => Gt | None, None => Eq end) (Nat.compare x y).
Definition node_le (m : store) (x y : nat) : Prop := node_compare m x y <> Gt.

#[global] Instance node_le_dec m : RelDecision (node_le m).
Proof using. intros x y. unfold node_le. destruct (node_compare m x y); [left|left|right]; congruence. Defined.

(** The nodes by key, equal keys by age. *)
Definition sorted_view (m : store) : list nat := merge_sort (node_le m) (map fst (map_to_list m)).

Lemma ordered_option : ordered (fun x y : option Announcement => match x, y with Some a, Some b => compare (key a) (key b) | None, Some _ => Lt | Some _, None => Gt | None, None => Eq end).
Proof using Hc.
  destruct Hc as [R A E L]. split.
  - intros [a|]; [apply R|reflexivity].
  - intros [a|] [b|]; try reflexivity. apply A.
  - intros [a|] [b|] [d|]; try discriminate; try reflexivity. apply E.
  - intros [a|] [b|] [d|]; try discriminate; try reflexivity. apply L.
Qed.

Lemma ordered_node m : ordered (node_compare m).
Proof using Hc. exact (ordered_then _ _ (fun x => m !! x) (fun x => x) ordered_option ordered_nat). Qed.

#[local] Instance node_le_total m : Total (node_le m).
Proof using Hc. intros x y. unfold node_le. rewrite (o_anti _ (ordered_node m) x y). destruct (node_compare m x y); cbn; [left|left|right]; discriminate. Qed.
#[local] Instance node_le_trans m : Transitive (node_le m).
Proof using Hc.
  intros x y z. unfold node_le. destruct (ordered_node m) as [R A E L]. destruct (node_compare m x y) eqn:E1; [rewrite (E x y z E1); auto| |congruence]. destruct (node_compare m y z) eqn:E2; [|rewrite (L x y z E1 E2); congruence|congruence].
  intros _ _. rewrite (A z x), <- (E y z x E2), (A x y), E1. discriminate.
Qed.
#[local] Instance node_le_antisymm m : AntiSymm (=) (node_le m).
Proof using Hc.
  intros x y. unfold node_le. rewrite (o_anti _ (ordered_node m) x y). destruct (node_compare m x y) eqn:E; cbn; try congruence. intros _ _. unfold node_compare in E. destruct (match m !! x with Some _ => _ | None => _ end); cbn in E; try discriminate.
  apply Nat.compare_eq, E.
Qed.

Lemma sorted_view_elem m x : x ∈ sorted_view m <-> is_Some (m !! x).
Proof using.
  unfold sorted_view. rewrite (merge_sort_Permutation (node_le m)), list_elem_of_fmap. split; [intros ([y a] & -> & E%elem_of_map_to_list); cbn; eauto|intros [a E]; exists (x, a); split; [reflexivity|apply elem_of_map_to_list, E]].
Qed.
Lemma sorted_view_nodup m : NoDup (sorted_view m).
Proof using. unfold sorted_view. rewrite (merge_sort_Permutation (node_le m)). apply NoDup_fst_map_to_list. Qed.
Lemma sorted_view_sorted m : StronglySorted (node_le m) (sorted_view m).
Proof using Hc. apply StronglySorted_merge_sort; apply _. Qed.

Lemma strongly_sorted_lookup {A} (R : A -> A -> Prop) l i j x y : StronglySorted R l -> (i < j)%nat -> l !! i = Some x -> l !! j = Some y -> R x y.
Proof using.
  intros Hs. revert i j. induction Hs as [|z l Hs IH Hz]; intros i j Hij Ei Ej; [discriminate|]. destruct j as [|j]; [lia|]. cbn in Ej. destruct i as [|i]; cbn in Ei.
  - injection Ei as <-. exact (proj1 (Forall_forall _ _) Hz y (list_elem_of_lookup_2 _ _ _ Ej)).
  - exact (IH i j ltac:(lia) Ei Ej).
Qed.

Lemma sorted_view_order m : lists_in_order compare key m (sorted_view m).
Proof using Hc.
  split; [apply sorted_view_nodup|]. split; [intros x; apply sorted_view_elem|]. intros i j x y a b Hij Ei Ej Ea Eb Hgt. apply (strongly_sorted_lookup _ _ i j x y (sorted_view_sorted m) Hij Ei Ej).
  unfold node_compare. rewrite Ea, Eb, Hgt. reflexivity.
Qed.

Lemma strongly_sorted_keep {A} (R S : A -> A -> Prop) (P : A -> Prop) `{!forall x, Decision (P x)} l : (forall x y, P x -> P y -> R x y -> S x y) -> StronglySorted R l -> StronglySorted S (filter P l).
Proof using.
  intros HRS. induction 1 as [|x l Hl IH Hx]; [constructor|]. rewrite filter_cons. destruct (decide (P x)) as [Hp|]; [|exact IH]. constructor; [exact IH|].
  apply Forall_forall. intros y [Hy Hin]%list_elem_of_filter. apply HRS; [exact Hp|exact Hy|]. exact (proj1 (Forall_forall _ _) Hx y Hin).
Qed.

Lemma sorted_view_delete m it : sorted_view (delete it m) = filter (fun x => x <> it) (sorted_view m).
Proof using Hc.
  apply (StronglySorted_unique (node_le (delete it m))); [apply sorted_view_sorted| |].
  - apply (strongly_sorted_keep (node_le m)); [|apply sorted_view_sorted]. intros x y Hx Hy. unfold node_le, node_compare. rewrite !lookup_delete_ne by congruence. auto.
  - apply NoDup_Permutation; [apply sorted_view_nodup|apply NoDup_filter, sorted_view_nodup|]. intros x. rewrite sorted_view_elem, list_elem_of_filter, sorted_view_elem, lookup_delete_is_Some. split; intros [H1 H2]; auto.
Qed.
End Sorted.

Section Container.
Context (m_computer : uint256 -> Z -> bool -> Z).
Notation store := (gmap nat Announcement).

(** A node above all others. *)
Definition fresh_node (m : store) : nat := S (fold_right Nat.max 0%nat (map fst (map_to_list m))).

Lemma fresh_node_spec m : m !! fresh_node m = None.
Proof using.
  apply eq_None_not_Some. intros [a Ha]. apply elem_of_map_to_list in Ha. unfold fresh_node in Ha. assert (G : forall (l : list (nat * Announcement)) x b, (x, b) ∈ l -> (x <= fold_right Nat.max 0 (map fst l))%nat).
  { induction l as [|[y d] l IH]; intros x b Hin; [apply not_elem_of_nil in Hin; contradiction|]. cbn. apply elem_of_cons in Hin as [[= -> ->]|Hin]; [lia|]. specialize (IH x b Hin). lia. }
  apply G in Ha. lia.
Qed.

Definition store_emplace (a : Announcement) (m : store) : option (nat * store) :=
  if existsb (fun xb => bool_decide (peer_view (snd xb) = peer_view a)) (map_to_list m) then None else let it := fresh_node m in Some (it, <[it := a]> m).

#[global] Instance store_index : MultiIndex store := {
  nodes m := m;
  ByPeer m := sorted_view peer_compare peer_view m;
  ByTxHash m := sorted_view txhash_compare (txhash_view m_computer) m;
  ByTime m := sorted_view time_compare time_view m;
  index_empty := ∅;
  index_emplace := store_emplace;
  index_erase it m := delete it m;
  index_modify it f m := match m !! it with Some a => <[it := f a]> m | None => m end;
}.

#[global] Instance store_laws : MultiIndexLaws store m_computer.
Proof using.
  split; cbn.
  - intros m. apply sorted_view_order, ordered_peer.
  - intros m. apply sorted_view_order, ordered_txhash.
  - intros m. apply sorted_view_order, ordered_time.
  - reflexivity.
  - intros a m. unfold store_emplace. destruct (existsb _ (map_to_list m)) eqn:Ex.
    + apply existsb_exists in Ex as ([y b] & Hin & Hb). apply bool_decide_eq_true in Hb. exists y, b. split; [|exact Hb]. apply elem_of_map_to_list, list_elem_of_In, Hin.
    + split; [apply fresh_node_spec|]. split; [reflexivity|]. intros y b Eb Hb. apply not_true_iff_false in Ex. apply Ex, existsb_exists. exists (y, b).
      split; [apply list_elem_of_In, elem_of_map_to_list, Eb|apply bool_decide_eq_true, Hb].
  - reflexivity.
  - intros it m. apply sorted_view_delete, ordered_txhash.
  - intros it f m a -> _. reflexivity.
Qed.
End Container.

(** * Priorities

    [PriorityComputer] returns 64 bits for every announcement, and an
    announcement from a preferred peer always has a higher priority than one
    from a peer that is not. *)

Lemma lxor_in_u w a b : 0 <= w -> in_u w a -> in_u w b -> in_u w (Z.lxor a b).
Proof.
  intros Hw Ha Hb. apply in_u_testbit; [exact Hw|apply Z.lxor_nonneg; unfold in_u in *; lia|]. intros i Hi. rewrite Z.lxor_spec, (testbit_above w a i Ha), (testbit_above w b i Hb) by lia. reflexivity.
Qed.

Lemma rotl_in_u x s : 0 <= s <= 64 -> in_u 64 x -> in_u 64 (rotl x s).
Proof. intros Hs Hx. apply lor_in_u; [lia|apply uwrap_range; lia|apply shiftr_in_u; [lia|lia|exact Hx]]. Qed.

(** The four words stay words. *)
Definition words_ok (v : sip_words) : Prop := in_u 64 (v0 v) /\ in_u 64 (v1 v) /\ in_u 64 (v2 v) /\ in_u 64 (v3 v).

Ltac split_words := split; [|split; [|split]].

Lemma SIPROUND_ok v : words_ok v -> words_ok (SIPROUND v).
Proof.
  destruct v as [a b c d]. unfold words_ok, SIPROUND. cbn [v0 v1 v2 v3]. intros (Ha & Hb & Hc & Hd).
  split_words; repeat first [apply lxor_in_u; [lia| |]|apply rotl_in_u; [lia|]|apply uwrap_range; lia|assumption].
Qed.

Lemma xor_words_ok v d : words_ok v -> in_u 64 d -> words_ok (xor_v0 d v) /\ words_ok (xor_v2 d v) /\ words_ok (xor_v3 d v).
Proof.
  destruct v as [a b c e]. unfold words_ok. cbn [xor_v0 xor_v2 xor_v3 v0 v1 v2 v3]. intros (Ha & Hb & Hc & He) Hd. assert (X : forall x, in_u 64 x -> in_u 64 (Z.lxor x d)) by (intros x Hx; apply lxor_in_u; [lia|assumption..]). auto 10.
Qed.

Lemma absorb_ok v d : words_ok v -> in_u 64 d -> words_ok (absorb v d).
Proof. intros Hv Hd. exact (proj1 (xor_words_ok _ _ (SIPROUND_ok _ (SIPROUND_ok _ (proj2 (proj2 (xor_words_ok v d Hv Hd))))) Hd)). Qed.

Lemma xor_all_in_u v : words_ok v -> in_u 64 (Z.lxor (Z.lxor (Z.lxor (v0 v) (v1 v)) (v2 v)) (v3 v)).
Proof. intros (? & ? & ? & ?). repeat (apply lxor_in_u; [lia| |]); assumption. Qed.

Lemma squeeze_in_u v : words_ok v -> in_u 64 (squeeze v).
Proof. intros Hv. assert (H : words_ok (xor_v2 0xFF v)) by (apply (xor_words_ok v 0xFF Hv); unfold in_u; lia). exact (xor_all_in_u _ (SIPROUND_ok _ (SIPROUND_ok _ (SIPROUND_ok _ (SIPROUND_ok _ H))))). Qed.

Lemma write_bytes_ok data : forall v t c, words_ok v -> in_u 64 t -> words_ok (sip_v (write_bytes data v t c)) /\ in_u 64 (tmp (write_bytes data v t c)).
Proof.
  induction data as [|b data IH]; intros v t c Hv Ht; [split; assumption|]. cbn [write_bytes]. assert (Ht' : in_u 64 (Z.lor t (u64 (Z.shiftl b (8 * (c mod 8)))))) by (apply lor_in_u; [lia|exact Ht|apply uwrap_range; lia]).
  destruct (_ =? 0); apply IH; try assumption; [apply absorb_ok; assumption|unfold in_u; lia].
Qed.

Lemma Finalize_in_u h : words_ok (sip_v h) -> in_u 64 (tmp h) -> in_u 64 (SipHasher_Finalize h).
Proof. intros Hv Ht. apply squeeze_in_u, absorb_ok; [exact Hv|]. apply lor_in_u; [lia|exact Ht|apply uwrap_range; lia]. Qed.

Section Salted.
Context (k0 k1 : Z) (Hk0 : in_u 64 k0) (Hk1 : in_u 64 k1).

(** The function that a tracker holds. *)
Definition salted (txhash : uint256) (peer : Z) (preferred : bool) : Z := match PriorityComputer k0 k1 txhash peer preferred with Ok priority => priority | _ => 0 end.

Lemma PriorityComputer_range txhash peer preferred priority : PriorityComputer k0 k1 txhash peer preferred = Ok priority -> in_u 64 priority /\ (2 ^ 63 <= priority <-> preferred = true).
Proof using Hk0 Hk1.
  unfold PriorityComputer. destruct (Write64 _ _) as [h|er] eqn:Eh; [|discriminate]. cbn [mbind res_bind]. intros [= <-].
  assert (Hi : words_ok (sip_init k0 k1)) by (split_words; apply lxor_in_u; try assumption; unfold in_u; lia).
  assert (Hh : words_ok (sip_v h) /\ in_u 64 (tmp h)).
  { unfold Write64 in Eh. destruct (assert_ _); try discriminate. cbn in Eh. injection Eh as <-. cbn [sip_v tmp]. unfold WriteSpan. cbn [sip_v tmp count new_CSipHasher].
    destruct (write_bytes_ok txhash (sip_init k0 k1) 0 0 Hi ltac:(unfold in_u; lia)) as [H1 H2]. split; [|exact H2]. apply absorb_ok; [exact H1|apply uwrap_range; lia]. }
  pose proof (Finalize_in_u h (proj1 Hh) (proj2 Hh)) as Hf. set (x := SipHasher_Finalize h) in *. assert (Hx : in_u 63 (Z.shiftr x 1)).
  { rewrite Z.shiftr_div_pow2 by lia. unfold in_u in *. change (2 ^ 1) with 2. split; [apply Z.div_pos; lia|apply Z.div_lt_upper_bound; lia]. }
  destruct preferred.
  - change (u64 (Z.shiftl 1 63)) with (Z.shiftl 1 63). rewrite lor_low_high by (try lia; exact Hx). unfold in_u in *. split; [lia|]. split; [reflexivity|lia].
  - change (u64 (Z.shiftl 0 63)) with 0. rewrite Z.lor_0_r. unfold in_u in *. split; [lia|]. split; [lia|discriminate].
Qed.

Lemma PriorityComputer_total txhash peer preferred : blob txhash -> exists priority, PriorityComputer k0 k1 txhash peer preferred = Ok priority.
Proof using.
  intros [Hl Hb]. unfold PriorityComputer, Write64, WriteSpan. cbn [sip_v tmp count new_CSipHasher]. rewrite (write_message 32) by (first [exact Hb|reflexivity|lia|split; [discriminate|reflexivity]]).
  destruct (sip_blocks _ _) as [v rest]. cbn [count]. rewrite Hl. change (u8 (0 + Z.of_nat 32) mod 8 =? 0) with true. cbn. eauto.
Qed.

Lemma salted_nonneg txhash peer preferred : 0 <= salted txhash peer preferred.
Proof using Hk0 Hk1. unfold salted. destruct (PriorityComputer k0 k1 txhash peer preferred) eqn:E; try lia. apply PriorityComputer_range in E as [E _]. unfold in_u in E. lia. Qed.

(** Preferred peers come first. *)
Lemma salted_preferred txhash p q : blob txhash -> salted txhash p false < salted txhash q true.
Proof using Hk0 Hk1.
  intros Hb. unfold salted. destruct (PriorityComputer_total txhash p false Hb) as [x Ex], (PriorityComputer_total txhash q true Hb) as [y Ey]. rewrite Ex, Ey.
  apply PriorityComputer_range in Ex as [_ Hx], Ey as [_ Hy]. assert (2 ^ 63 <= y) by (apply Hy; reflexivity). assert (~ 2 ^ 63 <= x) by (rewrite Hx; discriminate). lia.
Qed.
End Salted.

(** * The tracker keeps its promises

    Calls to [TxRequestTracker] in any order, from an empty tracker: they all
    return, the collection of entries changes as src/txrequest.h describes
    ([documented], [history]) and [GetRequestable] answers what it says, and
    the consistency checks of the class pass after each of them. *)

(** ** Calls *)

Inductive call {GT : GenTxids} : Type :=
| InvCall (peer : Z) (gtxid : GenTxid) (preferred : bool) (reqtime : Z)
| GetCall (peer now : Z)
| RequestedCall (peer : Z) (txhash : uint256) (expiry : Z)
| ResponseCall (peer : Z) (txhash : uint256)
| DisconnectedCall (peer : Z)
| ForgetCall (txhash : uint256).

(** What [GetRequestable] returns, with the requests that expired. *)
Notation reply := (option (list GenTxid * list (Z * GenTxid))).

Definition call_ok {GT : GenTxids} (c : call) : Prop := match c with InvCall _ gtxid _ _ => blob (gtxid_hash gtxid) | _ => True end.

(** ** What the documentation says of a call *)

Section Documented.
Context {GT : GenTxids} (m_computer : uint256 -> Z -> bool -> Z).

Definition add (e0 : entry) (T : coll) : coll := fun e => T e \/ e = e0.
Definition not_about (h : uint256) (e : entry) : Prop := e_hash e <> h.

(** [n] is the number of announcements so far. *)
Definition documented (c : call) (n : Z) (T : coll) (r : reply) (n' : Z) (T' : coll) : Prop :=
  match c with
  | InvCall peer gtxid preferred reqtime => r = None /\
      ((known T peer (gtxid_hash gtxid) /\ n' = n /\ same T' T) \/
       (~ known T peer (gtxid_hash gtxid) /\ n' = n + 1 /\ same T' (add (candidate peer gtxid preferred reqtime n) T)))
  | GetCall peer now => n' = n /\ same T' (pruned (image (expire now) T)) /\
      exists answer expired, r = Some (answer, expired) /\ (forall pg, pg ∈ expired <-> overdue now T pg) /\ requestable m_computer peer now T' answer
  | RequestedCall peer txhash expiry => r = None /\ n' = n /\
      ((offered T peer txhash /\ same T' (image (request_at peer txhash expiry) T)) \/ (~ offered T peer txhash /\ same T' T))
  | ResponseCall peer txhash => r = None /\ n' = n /\ same T' (pruned (image (complete_at peer txhash) T))
  | DisconnectedCall peer => r = None /\ n' = n /\ same T' (pruned (restrict (not_of peer) T))
  | ForgetCall txhash => r = None /\ n' = n /\ same T' (restrict (not_about txhash) T)
  end.

Inductive history : list call -> list reply -> Z -> coll -> Prop :=
| history_start T : same T (fun _ => False) -> history [] [] 0 T
| history_call cs rs n T c r n' T' : history cs rs n T -> documented c n T r n' T' -> history (cs ++ [c]) (rs ++ [r]) n' T'.
End Documented.

(** ** Entries are numbered *)

Lemma numbered_from n T T' : (forall e', T' e' -> exists e, T e /\ e_seq e' = e_seq e /\ e_peer e' = e_peer e /\ e_hash e' = e_hash e) -> numbered n T -> numbered n T'.
Proof.
  intros Hf [H1 H2]. split.
  - intros e He. destruct (Hf e He) as (e0 & H0 & -> & _). exact (H1 e0 H0).
  - intros e e' He He'. destruct (Hf e He) as (e0 & H0 & -> & -> & ->), (Hf e' He') as (e0' & H0' & -> & -> & ->). exact (H2 e0 e0' H0 H0').
Qed.

Lemma numbered_add n T e : e_seq e = n -> 0 <= n -> numbered n T -> numbered (n + 1) (add e T).
Proof.
  intros He Hn [H1 H2]. split.
  - intros e0 [H0| ->]; [pose proof (H1 e0 H0)|]; lia.
  - intros e1 e2 [A| ->] [B| ->] E; [exact (H2 e1 e2 A B E)|pose proof (H1 e1 A); lia|pose proof (H1 e2 B); lia|auto].
Qed.

Lemma request_fields p h expiry e : e_seq (request_at p h expiry e) = e_seq e /\ e_peer (request_at p h expiry e) = e_peer e /\ e_hash (request_at p h expiry e) = e_hash e.
Proof. unfold request_at. destruct (at_key p h e); [auto|]. destruct (e_standing e); try (destruct (bool_decide _)); auto. Qed.
Lemma complete_fields p h e : e_seq (complete_at p h e) = e_seq e /\ e_peer (complete_at p h e) = e_peer e /\ e_hash (complete_at p h e) = e_hash e.
Proof. unfold complete_at. destruct (at_key p h e); auto. Qed.

Lemma documented_numbered {GT : GenTxids} m_computer c n T r n' T' : documented m_computer c n T r n' T' -> 0 <= n -> numbered n T -> n <= n' <= n + 1 /\ numbered n' T'.
Proof.
  assert (Image : forall f, (forall e, e_seq (f e) = e_seq e /\ e_peer (f e) = e_peer e /\ e_hash (f e) = e_hash e) -> forall e', image f T e' -> exists e, T e /\ e_seq e' = e_seq e /\ e_peer e' = e_peer e /\ e_hash e' = e_hash e).
  { intros f Hf e' (e & He & ->). exists e. auto. }
  intros D Hn HT. destruct c; cbn [documented] in D.
  - destruct D as [_ [(_ & -> & ->)|(_ & -> & ->)]]; (split; [lia|]); [exact HT|]. apply numbered_add; [reflexivity|exact Hn|exact HT].
  - destruct D as (-> & -> & _). split; [lia|]. apply (numbered_from n T); [|exact HT]. intros e' [He' _]. exact (Image _ (expire_fields now) e' He').
  - destruct D as (_ & -> & [[_ ->]|[_ ->]]); (split; [lia|]); [|exact HT]. apply (numbered_from n T); [|exact HT]. exact (Image _ (request_fields peer txhash expiry)).
  - destruct D as (_ & -> & ->). split; [lia|]. apply (numbered_from n T); [|exact HT]. intros e' [He' _]. exact (Image _ (complete_fields peer txhash) e' He').
  - destruct D as (_ & -> & ->). split; [lia|]. apply (numbered_from n T); [|exact HT]. intros e' [[He' _] _]. eauto.
  - destruct D as (_ & -> & ->). split; [lia|]. apply (numbered_from n T); [|exact HT]. intros e' [He' _]. eauto.
Qed.

(** There are at most as many nodes as numbers. *)
Lemma numbered_size n m : uniq m -> numbered n (tracked m) -> 0 <= n -> Z.of_nat (size m) <= n.
Proof.
  intros Hu Hn H0. assert (Hnd : NoDup (map (fun xa => m_sequence (snd xa)) (map_to_list m))).
  { apply NoDup_fmap_2_strong; [|apply NoDup_map_to_list]. intros [x a] [y b] Ea%elem_of_map_to_list Eb%elem_of_map_to_list E. cbn in E. pose proof (numbered_nodes n m x y a b Hu Hn Ea Eb E) as ->. congruence. }
  apply (NoDup_submseteq _ (seqZ 0 n)), submseteq_length in Hnd.
  - rewrite length_map, length_map_to_list, length_seqZ in Hnd. lia.
  - intros q ([x a] & -> & Ea%elem_of_map_to_list)%list_elem_of_fmap. apply elem_of_seqZ. cbn. assert (He : tracked m (entry_of a)) by (exists x, a; auto). pose proof (proj1 Hn _ He) as R. cbn in R. lia.
Qed.

(** ** Runs *)

Section Runs.
Context {GT : GenTxids} {Index : Type} {HI : MultiIndex Index} (m_computer : uint256 -> Z -> bool -> Z).
Notation track := (stm (tracker Index)).

Definition silent (m : track unit) : track reply := _ ← m; mret None.

Definition do_call (c : call) : track reply :=
  match c with
  | InvCall peer gtxid preferred reqtime => silent (ReceivedInv peer gtxid preferred reqtime)
  | GetCall peer now => r ← GetRequestable m_computer peer now; mret (Some r)
  | RequestedCall peer txhash expiry => silent (RequestedTx m_computer peer txhash expiry)
  | ResponseCall peer txhash => silent (ReceivedResponse peer txhash)
  | DisconnectedCall peer => silent (DisconnectedPeer peer)
  | ForgetCall txhash => silent (ForgetTxHash m_computer txhash)
  end.

Fixpoint run (cs : list call) : track (list reply) :=
  match cs with [] => mret [] | c :: cs => r ← do_call c; rs ← run cs; mret (r :: rs) end.

Lemma run_calls_snoc cs c s rs s1 r s2 : run cs s = (Ok rs, s1) -> do_call c s1 = (Ok r, s2) -> run (cs ++ [c]) s = (Ok (rs ++ [r]), s2).
Proof using.
  revert s rs. induction cs as [|d cs IH]; intros s rs Er Ec; cbn [run app] in *.
  - injection Er as <- <-. rewrite (bind_ok _ _ _ _ _ Ec). reflexivity.
  - unfold mbind, stm_bind in Er |- *. destruct (do_call d s) as [[r0|] s0]; [|discriminate]. destruct (run cs s0) as [[rs0|] s3] eqn:E3; [|discriminate]. injection Er as <- <-.
    rewrite (IH s0 rs0 E3 Ec). reflexivity.
Qed.

Context {HL : MultiIndexLaws Index m_computer}.

(** What holds between calls. *)
Definition sound (s : tracker Index) : Prop := good m_computer s /\ 0 <= m_current_sequence s /\ numbered (m_current_sequence s) (tracked (anns s)).

Lemma without_tracked h m : same (tracked (without h m)) (restrict (not_about h) (tracked m)).
Proof using.
  intros e. unfold tracked, restrict, without. setoid_rewrite map_lookup_filter_Some. cbn. split; [intros (x & a & [Ea Hh] & <-); split; [eauto|exact Hh]|intros [(x & a & Ea & <-) Hh]; exists x, a; auto].
Qed.

Lemma call_documented c s : sound s -> call_ok c -> m_current_sequence s < 2 ^ 59 - 1 -> exists r s', do_call c s = (Ok r, s') /\ good m_computer s' /\
  documented m_computer c (m_current_sequence s) (tracked (anns s)) r (m_current_sequence s') (tracked (anns s')) /\ match c with GetCall _ now => timed now (anns s') | _ => True end.
Proof using HL.
  intros (Hg & H0 & Hn) Hok Hlt. destruct c; cbn [do_call documented call_ok] in *.
  - pose proof (numbered_size _ _ (wf_uniq _ (proj1 Hg)) Hn H0) as Hsz. destruct (ReceivedInv_spec m_computer peer gtxid preferred reqtime s Hg Hok) as (s' & E & G & D); [lia|lia|]. exists None, s'. unfold silent. rewrite (bind_ok _ _ _ _ _ E).
    split; [reflexivity|]. split; [exact G|]. split; [|exact I]. split; [reflexivity|]. destruct D as [[Hk ->]|(Hk & Q & _ & T)]; [left|right]; (split; [exact Hk|]); split; [reflexivity|reflexivity|exact Q|exact T].
  - destruct (GetRequestable_spec m_computer peer now _ s Hg Hn) as (answer & expired & s' & E & G & Q & Ht & T & O & R). exists (Some (answer, expired)), s'. rewrite (bind_ok _ _ _ _ _ E). split; [reflexivity|]. split; [exact G|]. split; [|exact Ht].
    split; [exact Q|]. split; [exact T|]. exists answer, expired. auto.
  - destruct (RequestedTx_spec m_computer peer txhash expiry s Hg) as (s' & E & G & Q & D). exists None, s'. unfold silent. rewrite (bind_ok _ _ _ _ _ E). split; [reflexivity|]. split; [exact G|]. split; [|exact I].
    split; [reflexivity|]. split; [exact Q|]. destruct D as [D|[Hk ->]]; [left; exact D|right; split; [exact Hk|reflexivity]].
  - destruct (ReceivedResponse_spec m_computer peer txhash s Hg) as (s' & E & G & Q & T). exists None, s'. unfold silent. rewrite (bind_ok _ _ _ _ _ E). auto 10.
  - destruct (DisconnectedPeer_spec m_computer peer s Hg) as (s' & E & G & Q & T). exists None, s'. unfold silent. rewrite (bind_ok _ _ _ _ _ E). auto 10.
  - destruct (ForgetTxHash_spec m_computer txhash s (proj1 Hg) (proj2 Hg)) as (s' & E & W & S & M & Q). exists None, s'. unfold silent. rewrite (bind_ok _ _ _ _ _ E). split; [reflexivity|]. split; [split; assumption|]. split; [|exact I].
    split; [reflexivity|]. split; [exact Q|]. rewrite M. apply without_tracked.
Qed.

Lemma new_tracker_sound : sound new_tracker.
Proof using HL.
  assert (E : anns (new_tracker (Index := Index)) = ∅) by (unfold anns; cbn; apply (nodes_empty (m_computer := m_computer))). unfold sound, good. rewrite E. split; [split|].
  - split; rewrite ?E.
    + intros x y a b Ha. rewrite lookup_empty in Ha. discriminate.
    + intros p. cbn. rewrite lookup_empty. reflexivity.
    + reflexivity.
    + intros x a Ha. rewrite lookup_empty in Ha. discriminate.
  - intros h. assert (N : forall x a, ~ about ∅ h x a) by (intros x a [Ha _]; rewrite lookup_empty in Ha; discriminate). split; [intros x y a b Ha|intros x a Ha|intros x y a b Ha|intros x a Ha]; destruct (N _ _ Ha).
  - split; [reflexivity|]. split; [intros e (x & a & Ha & _)|intros e e' (x & a & Ha & _)]; rewrite lookup_empty in Ha; discriminate.
Qed.

(** Every call of a run returns and does what is documented. *)
Lemma run_documented cs : Forall call_ok cs -> Z.of_nat (length cs) < 2 ^ 59 -> exists rs s, run cs new_tracker = (Ok rs, s) /\ sound s /\ m_current_sequence s <= Z.of_nat (length cs) /\
  history m_computer cs rs (m_current_sequence s) (tracked (anns s)) /\ forall peer now, last cs = Some (GetCall peer now) -> timed now (anns s).
Proof using HL.
  induction cs as [|c cs IH] using rev_ind; intros Hok Hl.
  - exists [], new_tracker. split; [reflexivity|]. split; [exact new_tracker_sound|]. split; [reflexivity|]. split; [|discriminate]. apply history_start. intros e. split; [|contradiction]. intros (x & a & Ha & _).
    unfold anns in Ha. cbn in Ha. rewrite (nodes_empty (m_computer := m_computer)), lookup_empty in Ha. discriminate.
  - apply Forall_app in Hok as [Hok Hc]. apply Forall_cons in Hc as [Hc _]. rewrite length_app in Hl |- *. cbn [length] in *. destruct (IH Hok ltac:(lia)) as (rs & s & E & Hs & Hle & Hh & _).
    destruct (call_documented c s Hs Hc ltac:(lia)) as (r & s' & E' & G & D & Ht). destruct Hs as (_ & H0 & Hn). destruct (documented_numbered _ _ _ _ _ _ _ D H0 Hn) as [R N].
    exists (rs ++ [r]), s'. split; [exact (run_calls_snoc _ _ _ _ _ _ _ E E')|]. split; [split; [exact G|split; [lia|exact N]]|]. split; [lia|]. split; [exact (history_call _ _ _ _ _ _ _ _ _ Hh D)|].
    intros peer now Hlast. rewrite last_snoc in Hlast. injection Hlast as ->. exact Ht.
Qed.
End Runs.

(** ** Counters *)

Lemma cnt_split P Q m : cnt P m = cnt (fun a => P a && Q a)%bool m + cnt (fun a => P a && negb (Q a))%bool m.
Proof.
  induction m as [|x a m Hx IH] using map_ind; [reflexivity|]. rewrite !cnt_fresh, IH by exact Hx. destruct (P a), (Q a); cbn; lia.
Qed.

Definition is_candidate (a : Announcement) : bool := (is_state CANDIDATE_DELAYED a || IsSelectable a)%bool.

Lemma candidates_cnt p m : cnt (of_peer p) m - cnt (of_peer_in p REQUESTED) m - cnt (of_peer_in p COMPLETED) m = cnt (fun a => of_peer p a && is_candidate a)%bool m.
Proof.
  rewrite (cnt_split (of_peer p) is_candidate), (cnt_split (fun a => of_peer p a && negb (is_candidate a))%bool (is_state REQUESTED)).
  assert (Ext : forall P Q, (forall a, P a = Q a) -> cnt P m = cnt Q m) by (intros P Q HPQ; unfold cnt; do 2 f_equal; apply map_filter_ext; intros x a _; cbn; rewrite HPQ; reflexivity).
  assert (St : forall a st, is_state st a = bool_decide (m_state a = st)) by reflexivity.
  assert (E1 : cnt (fun a => of_peer p a && negb (is_candidate a) && is_state REQUESTED a)%bool m = cnt (of_peer_in p REQUESTED) m)
    by (apply Ext; intros a; unfold of_peer_in, is_candidate, IsSelectable; rewrite !St; destruct (of_peer p a), (m_state a); reflexivity).
  assert (E2 : cnt (fun a => of_peer p a && negb (is_candidate a) && negb (is_state REQUESTED a))%bool m = cnt (of_peer_in p COMPLETED) m)
    by (apply Ext; intros a; unfold of_peer_in, is_candidate, IsSelectable; rewrite !St; destruct (of_peer p a), (m_state a); reflexivity).
  lia.
Qed.

(** ** The promises of the class *)

Section Promises.
Context {GT : GenTxids} {Index : Type} {HI : MultiIndex Index} (k0 k1 : Z) {HL : MultiIndexLaws Index (salted k0 k1)}.
Notation run := (run (salted k0 k1)).

(** C15. However the calls are ordered, each returns; the collection of
    announcements changes as the documentation of each call says, transactions
    with only completed announcements are forgotten, and [GetRequestable]
    returns the requests that expired and, in the order of announcement, the
    transactions for which the peer is the best of the candidates whose time
    has come and which nobody is asked for. *)
Theorem tracker_refines cs : Forall call_ok cs -> Z.of_nat (length cs) < 2 ^ 59 ->
  exists rs s, run cs new_tracker = (Ok rs, s) /\ history (salted k0 k1) cs rs (m_current_sequence s) (tracked (anns s)).
Proof using HL.
  intros Hok Hl. destruct (run_documented (salted k0 k1) cs Hok Hl) as (rs & s & E & _ & _ & Hh & _). eauto.
Qed.

(** After any calls the recount of [TxRequest_SanityCheck] agrees and none of its
    assertions fails; after [GetRequestable] neither does one of the check for
    that time; the counters return the numbers of announcements a peer has in
    total, requested and as candidates. *)
Theorem tracker_consistent cs : in_u 64 k0 -> in_u 64 k1 -> Forall call_ok cs -> Z.of_nat (length cs) < 2 ^ 59 ->
  exists rs s, run cs new_tracker = (Ok rs, s) /\ TxRequest_SanityCheck (salted k0 k1) s = Ok tt /\
    (forall peer now, last cs = Some (GetCall peer now) -> PostGetRequestableSanityCheck now s = Ok tt) /\
    forall peer, Count peer s = cnt (of_peer peer) (anns s) /\ CountInFlight peer s = cnt (of_peer_in peer REQUESTED) (anns s) /\
      CountCandidates peer s = cnt (fun a => of_peer peer a && is_candidate a)%bool (anns s).
Proof using HL.
  intros H0 H1 Hok Hl. destruct (run_documented (salted k0 k1) cs Hok Hl) as (rs & s & E & (Hg & _) & _ & _ & Ht). exists rs, s. split; [exact E|].
  split; [exact (SanityCheck_spec (salted k0 k1) (salted_nonneg k0 k1 H0 H1) s Hg)|]. split; [intros peer now Hlast; exact (PostGetRequestable_spec (salted k0 k1) now s (Ht peer now Hlast))|].
  intros peer. unfold Count, CountInFlight, CountCandidates. rewrite (wf_info _ (proj1 Hg)). unfold infos. pose proof (candidates_cnt peer (anns s)) as C.
  assert (R : forall P, 0 <= cnt P (anns s) < 2 ^ 63) by (intros P; pose proof (cnt_range P (anns s)); pose proof (wf_small _ (proj1 Hg)); lia). assert (Le : forall st, cnt (of_peer_in peer st) (anns s) <= cnt (of_peer peer) (anns s)).
  { intros st. apply cnt_le. intros a Ha. apply andb_true_iff in Ha. tauto. }
  pose proof (R (of_peer peer)). pose proof (R (of_peer_in peer REQUESTED)). pose proof (R (of_peer_in peer COMPLETED)). pose proof (R (fun a => of_peer peer a && is_candidate a)%bool). pose proof (Le REQUESTED). pose proof (Le COMPLETED).
  destruct (Z.eqb_spec (cnt (of_peer peer) (anns s)) 0); cbn; [lia|]. rewrite uwrap_small by (unfold in_u; lia). lia.
Qed.

(** C16. Never are two peers asked for a transaction at once.  [GetRequestable]
    offers only transactions that the peer announced, whose time has come and
    for which no request is outstanding, and never one of a peer that is not
    preferred when a preferred one is a candidate. *)
Theorem requests_safe cs : in_u 64 k0 -> in_u 64 k1 -> Forall call_ok cs -> Z.of_nat (length cs) < 2 ^ 59 ->
  exists rs s, run cs new_tracker = (Ok rs, s) /\
    (forall e e' t t', tracked (anns s) e -> tracked (anns s) e' -> e_hash e = e_hash e' -> e_standing e = Requested t -> e_standing e' = Requested t' -> e = e') /\
    (forall peer now answer expired, last cs = Some (GetCall peer now) -> last rs = Some (Some (answer, expired)) -> forall g, g ∈ answer ->
      exists e t, tracked (anns s) e /\ e_peer e = peer /\ entry_gtxid e = g /\ e_standing e = Candidate t /\ t <= now /\
        (forall e' t', tracked (anns s) e' -> e_hash e' = e_hash e -> e_standing e' <> Requested t') /\
        (e_preferred e = false -> forall e' t', tracked (anns s) e' -> e_hash e' = e_hash e -> e_standing e' = Candidate t' -> t' <= now -> e_preferred e' = false)).
Proof using HL.
  intros H0 H1 Hok Hl. destruct (run_documented (salted k0 k1) cs Hok Hl) as (rs & s & E & (Hg & _) & _ & Hh & Ht). exists rs, s. split; [exact E|]. split.
  - intros e e' t t' (x & a & Ea & <-) (y & b & Eb & <-) Hhash Hr Hr'. apply requested_entry in Hr as [Hr _], Hr' as [Hr' _].
    assert (x = y) as -> by (apply (sa_one _ _ _ (proj2 Hg (m_txhash b)) x y a b); [split; assumption|split; [exact Eb|reflexivity]|right; exact Hr|right; exact Hr']). congruence.
  - intros peer now answer expired Hlast Hans g Hin. inversion Hh as [T HT|cs0 rs0 n T c r n' T' _ D]; subst; [discriminate|]. rewrite last_snoc in Hlast. rewrite last_snoc in Hans. injection Hlast as ->. injection Hans as ->.
    cbn [documented] in D. destruct D as (_ & _ & answer' & expired' & [= <- <-] & _ & (es & -> & _ & Htop & _)). apply list_elem_of_fmap in Hin as (e & -> & He). destruct (Htop e He) as [Hp [((x & a & Ea & Hea) & (t & Hs & Hle) & Hno) Hmax]].
    exists e, t. split; [exists x, a; auto|]. split; [exact Hp|]. split; [reflexivity|]. split; [exact Hs|]. split; [exact Hle|]. split; [exact Hno|]. intros Hnp e' t' He' Hh' Hs' Hle'. destruct (e_preferred e') eqn:Ep; [exfalso|reflexivity].
    assert (El : eligible now (tracked (anns s)) e') by (split; [exact He'|]; split; [eauto|]; rewrite Hh'; exact Hno). pose proof (Hmax e' El Hh') as Hle2. unfold entry_prio in Hle2. rewrite Ep, Hnp, Hh' in Hle2.
    assert (Hb : blob (e_hash e)) by (rewrite <- Hea; exact (wf_typed _ (proj1 Hg) x a Ea)). pose proof (salted_preferred k0 k1 H0 H1 (e_hash e) (e_peer e) (e_peer e') Hb). lia.
Qed.
End Promises.

(** ** A run *)

(** A hash with a tag. *)
#[local] Instance tagged_txids : GenTxids := {| GenTxid := bool * uint256; GenTxid_Txid h := (false, h); GenTxid_Wtxid h := (true, h); gtxid_hash := snd; IsWtxid := fst |}.

Definition sample_hash (b : Z) : uint256 := b :: repeat 7 31.

(** Peers 1 and 2, the second preferred, announce a transaction, the first
    another one as well, which it does not deliver in time; nor does peer 2
    have the one it is asked for. *)
Definition sample_calls : list call :=
  [InvCall 1 (GenTxid_Wtxid (sample_hash 1)) false 10; InvCall 2 (GenTxid_Wtxid (sample_hash 1)) true 20; InvCall 1 (GenTxid_Txid (sample_hash 2)) false 5;
   GetCall 1 15; RequestedCall 1 (sample_hash 2) 40; GetCall 2 30; RequestedCall 2 (sample_hash 1) 60; ResponseCall 2 (sample_hash 1); GetCall 1 50].

Definition sample_replies : list reply :=
  [None; None; None; Some ([GenTxid_Wtxid (sample_hash 1); GenTxid_Txid (sample_hash 2)], []); None; Some ([GenTxid_Wtxid (sample_hash 1)], []); None; None;
   Some ([GenTxid_Wtxid (sample_hash 1)], [(1, GenTxid_Txid (sample_hash 2))])].

Definition sample_run : res (list reply) * tracker (gmap nat Announcement) := run (HI := store_index (salted 1 2)) (salted 1 2) sample_calls (new_tracker (H := store_index (salted 1 2))).

Lemma sample_calls_ok : Forall call_ok sample_calls.
Proof. repeat constructor; vm_compute; discriminate. Qed.

Lemma sample_run_replies : fst sample_run = Ok sample_replies.
Proof. vm_compute. reflexivity. Qed.

Lemma tracker_refines_witness : exists s, sample_run = (Ok sample_replies, s) /\ history (salted 1 2) sample_calls sample_replies (m_current_sequence s) (tracked (anns (HI := store_index (salted 1 2)) s)).
Proof.
  destruct (tracker_refines (HI := store_index (salted 1 2)) 1 2 sample_calls sample_calls_ok eq_refl) as (rs & s & E & Hh). pose proof sample_run_replies as R. unfold sample_run in *. rewrite E in *. injection R as ->. eauto.
Defined.

Lemma tracker_consistent_witness : exists s, sample_run = (Ok sample_replies, s) /\ TxRequest_SanityCheck (H := store_index (salted 1 2)) (salted 1 2) s = Ok tt /\ PostGetRequestableSanityCheck (H := store_index (salted 1 2)) 50 s = Ok tt.
Proof.
  destruct (tracker_consistent (HI := store_index (salted 1 2)) 1 2 sample_calls) as (rs & s & E & H1 & H2 & _); [split; [discriminate|reflexivity]|split; [discriminate|reflexivity]|exact sample_calls_ok|reflexivity|].
  pose proof sample_run_replies as R. unfold sample_run in *. rewrite E in *. injection R as ->. exists s. split; [reflexivity|]. split; [exact H1|]. exact (H2 1 50 eq_refl).
Defined.

Lemma requests_safe_witness : exists s e, sample_run = (Ok sample_replies, s) /\ tracked (anns (HI := store_index (salted 1 2)) s) e /\ e_peer e = 1 /\ entry_gtxid e = GenTxid_Wtxid (sample_hash 1).
Proof.
  destruct (requests_safe (HI := store_index (salted 1 2)) 1 2 sample_calls) as (rs & s & E & _ & H2); [split; [discriminate|reflexivity]|split; [discriminate|reflexivity]|exact sample_calls_ok|reflexivity|].
  pose proof sample_run_replies as R. unfold sample_run in *. rewrite E in *. injection R as ->. destruct (H2 1 50 _ _ eq_refl eq_refl (GenTxid_Wtxid (sample_hash 1)) ltac:(left)) as (e & t & He & Hp & Hg & _). exists s, e. auto.
Defined.
