(* ===== verification/AddrMan.v ===== *)
(** * The address manager

    Models src/addrman.cpp and addrman_impl.h: [AddrManImpl], the tables of
    addresses that were heard of and of those that were connected to.  Network
    addresses (src/netaddress.cpp), the groups they belong to (src/netgroup.cpp)
    and the hash are the class [AddrEnv].  Times are in seconds; the clock and
    the random numbers are arguments; an array is a map from its indexes, -1
    where nothing was written, and an access outside of it fails.  Writing the
    tables to a file and reading them back is not modelled. *)

From stdpp Require Import base numbers list gmap sorting strings.
From Stdlib Require Import ZArith Lia.
From S2P Require Import Prelude Params Streams Serialize.

Local Open Scope Z_scope.

Definition ADDRMAN_TRIED_BUCKETS_PER_GROUP : Z := 8.
Definition ADDRMAN_NEW_BUCKETS_PER_SOURCE_GROUP : Z := 64.
Definition ADDRMAN_NEW_BUCKETS_PER_ADDRESS : Z := 8.
Definition ADDRMAN_HORIZON : Z := 30 * 24 * 3600.
Definition ADDRMAN_RETRIES : Z := 3.
Definition ADDRMAN_MAX_FAILURES : Z := 10.
Definition ADDRMAN_MIN_FAIL : Z := 7 * 24 * 3600.
Definition ADDRMAN_REPLACEMENT : Z := 4 * 3600.
Definition ADDRMAN_SET_TRIED_COLLISION_SIZE : nat := 10.
Definition ADDRMAN_TEST_WINDOW : Z := 40 * 60.
Definition ADDRMAN_TRIED_BUCKET_COUNT : Z := Z.shiftl 1 8.
Definition ADDRMAN_NEW_BUCKET_COUNT : Z := Z.shiftl 1 10.
Definition ADDRMAN_BUCKET_SIZE : Z := Z.shiftl 1 6.

(** What the manager uses of addresses: [operator==] and the hash of
    [CService] make it a key of a map. *)
Class AddrEnv : Type := {
  CNetAddr : Type;
  CService : Type;
  Network : Type;
  CNetAddr_eq_dec :: EqDecision CNetAddr;
  CService_eq_dec :: EqDecision CService;
  CService_countable :: Countable CService;
  Network_eq_dec :: EqDecision Network;
  Network_countable :: Countable Network;
  no_netaddr : CNetAddr;
  no_service : CService;
  netaddr_of : CService -> CNetAddr;
  IsRoutable : CNetAddr -> bool;
  netaddr_IsValid : CNetAddr -> bool;
  GetNetwork : CNetAddr -> Network;
  GetNetClass : CNetAddr -> Network;
  GetKey : CService -> list Z;
  GetGroup : CNetAddr -> list Z;
  addr_hash : list Z -> uint256;
}.

Section AddrMan.
Context {E : AddrEnv}.

Record CAddress : Type := { ca_service : CService; ca_time : Z; ca_services : Z }.

Record AddrInfo : Type := {
  ai_service : CService;
  ai_time : Z;
  ai_services : Z;
  m_last_try : Z;
  m_last_count_attempt : Z;
  source : CNetAddr;
  m_last_success : Z;
  nAttempts : Z;
  nRefCount : Z;
  fInTried : bool;
  nRandomPos : Z;
}.

Definition new_AddrInfo (addrIn : CAddress) (addrSource : CNetAddr) : AddrInfo :=
  {| ai_service := ca_service addrIn; ai_time := ca_time addrIn; ai_services := ca_services addrIn; m_last_try := 0; m_last_count_attempt := 0;
     source := addrSource; m_last_success := 0; nAttempts := 0; nRefCount := 0; fInTried := false; nRandomPos := -1 |}.

(** [AddrInfo()]; [TIME_INIT] and [NODE_NONE] of [CAddress]. *)
Definition no_AddrInfo : AddrInfo := new_AddrInfo {| ca_service := no_service; ca_time := 100000000; ca_services := 0 |} no_netaddr.

Definition as_CAddress (i : AddrInfo) : CAddress := {| ca_service := ai_service i; ca_time := ai_time i; ca_services := ai_services i |}.
Definition info_network (i : AddrInfo) : Network := GetNetwork (netaddr_of (ai_service i)).

(** ** Buckets *)

(** [HashWriter::GetCheapHash]. *)
Definition GetCheapHash (data : list Z) : Z := le_val 8 (take 8 (addr_hash data)).
(** A vector of bytes and a 64-bit number, as they are hashed. *)
Definition ser_vector (v : list Z) : list Z := compact_bytes (Z.of_nat (length v)) ++ v.

Definition GetTriedBucket (nKey : uint256) (i : AddrInfo) : Z :=
  let hash1 := GetCheapHash (nKey ++ ser_vector (GetKey (ai_service i))) in
  let hash2 := GetCheapHash (nKey ++ ser_vector (GetGroup (netaddr_of (ai_service i))) ++ le_digits 8 8 (hash1 mod ADDRMAN_TRIED_BUCKETS_PER_GROUP)) in
  hash2 mod ADDRMAN_TRIED_BUCKET_COUNT.

Definition GetNewBucket (nKey : uint256) (src : CNetAddr) (i : AddrInfo) : Z :=
  let vchSourceGroupKey := GetGroup src in
  let hash1 := GetCheapHash (nKey ++ ser_vector (GetGroup (netaddr_of (ai_service i))) ++ ser_vector vchSourceGroupKey) in
  let hash2 := GetCheapHash (nKey ++ ser_vector vchSourceGroupKey ++ le_digits 8 8 (hash1 mod ADDRMAN_NEW_BUCKETS_PER_SOURCE_GROUP)) in
  hash2 mod ADDRMAN_NEW_BUCKET_COUNT.

(** The letters N and K, and the bucket as a 32-bit number. *)
Definition GetBucketPosition (nKey : uint256) (fNew : bool) (bucket : Z) (i : AddrInfo) : Z :=
  GetCheapHash (nKey ++ [if fNew then 78 else 75] ++ le_digits 8 4 bucket ++ ser_vector (GetKey (ai_service i))) mod ADDRMAN_BUCKET_SIZE.

Definition IsTerrible (now : Z) (i : AddrInfo) : bool :=
  if now - m_last_try i <=? 60 then false
  else if ai_time i >? now + 600 then true
  else if now - ai_time i >? ADDRMAN_HORIZON then true
  else if ((m_last_success i =? 0) && (nAttempts i >=? ADDRMAN_RETRIES))%bool then true
  else if ((now - m_last_success i >? ADDRMAN_MIN_FAIL) && (nAttempts i >=? ADDRMAN_MAX_FAILURES))%bool then true
  else false.

(** ** The state *)

Notation cells := (gmap (Z * Z) Z).

Record NewTriedCount : Type := { n_new : Z; n_tried : Z }.
Definition no_count : NewTriedCount := {| n_new := 0; n_tried := 0 |}.

Record AddrMan : Type := {
  nKey : uint256;
  nIdCount : Z;
  mapInfo : gmap Z AddrInfo;
  mapAddr : gmap CService Z;
  vRandom : list Z;
  nTried : Z;
  vvTried : cells;
  nNew : Z;
  vvNew : cells;
  m_last_good : Z;
  m_tried_collisions : gset Z;
  m_network_counts : gmap Network NewTriedCount;
}.
Notation am := (stm AddrMan).

Definition new_AddrMan (key : uint256) : AddrMan :=
  {| nKey := key; nIdCount := 0; mapInfo := ∅; mapAddr := ∅; vRandom := []; nTried := 0; vvTried := ∅; nNew := 0; vvNew := ∅; m_last_good := 1;
     m_tried_collisions := ∅; m_network_counts := ∅ |}.

Definition set_ids (f : Z -> Z) (s : AddrMan) : AddrMan :=
  {| nKey := nKey s; nIdCount := f (nIdCount s); mapInfo := mapInfo s; mapAddr := mapAddr s; vRandom := vRandom s; nTried := nTried s; vvTried := vvTried s;
     nNew := nNew s; vvNew := vvNew s; m_last_good := m_last_good s; m_tried_collisions := m_tried_collisions s; m_network_counts := m_network_counts s |}.
Definition set_info (f : gmap Z AddrInfo -> gmap Z AddrInfo) (s : AddrMan) : AddrMan :=
  {| nKey := nKey s; nIdCount := nIdCount s; mapInfo := f (mapInfo s); mapAddr := mapAddr s; vRandom := vRandom s; nTried := nTried s; vvTried := vvTried s;
     nNew := nNew s; vvNew := vvNew s; m_last_good := m_last_good s; m_tried_collisions := m_tried_collisions s; m_network_counts := m_network_counts s |}.
Definition set_addr (f : gmap CService Z -> gmap CService Z) (s : AddrMan) : AddrMan :=
  {| nKey := nKey s; nIdCount := nIdCount s; mapInfo := mapInfo s; mapAddr := f (mapAddr s); vRandom := vRandom s; nTried := nTried s; vvTried := vvTried s;
     nNew := nNew s; vvNew := vvNew s; m_last_good := m_last_good s; m_tried_collisions := m_tried_collisions s; m_network_counts := m_network_counts s |}.
Definition set_random (f : list Z -> list Z) (s : AddrMan) : AddrMan :=
  {| nKey := nKey s; nIdCount := nIdCount s; mapInfo := mapInfo s; mapAddr := mapAddr s; vRandom := f (vRandom s); nTried := nTried s; vvTried := vvTried s;
     nNew := nNew s; vvNew := vvNew s; m_last_good := m_last_good s; m_tried_collisions := m_tried_collisions s; m_network_counts := m_network_counts s |}.
Definition set_nTried (f : Z -> Z) (s : AddrMan) : AddrMan :=
  {| nKey := nKey s; nIdCount := nIdCount s; mapInfo := mapInfo s; mapAddr := mapAddr s; vRandom := vRandom s; nTried := f (nTried s); vvTried := vvTried s;
     nNew := nNew s; vvNew := vvNew s; m_last_good := m_last_good s; m_tried_collisions := m_tried_collisions s; m_network_counts := m_network_counts s |}.
Definition set_nNew (f : Z -> Z) (s : AddrMan) : AddrMan :=
  {| nKey := nKey s; nIdCount := nIdCount s; mapInfo := mapInfo s; mapAddr := mapAddr s; vRandom := vRandom s; nTried := nTried s; vvTried := vvTried s;
     nNew := f (nNew s); vvNew := vvNew s; m_last_good := m_last_good s; m_tried_collisions := m_tried_collisions s; m_network_counts := m_network_counts s |}.
Definition set_table (tried : bool) (f : cells -> cells) (s : AddrMan) : AddrMan :=
  {| nKey := nKey s; nIdCount := nIdCount s; mapInfo := mapInfo s; mapAddr := mapAddr s; vRandom := vRandom s; nTried := nTried s;
     vvTried := if tried then f (vvTried s) else vvTried s; nNew := nNew s; vvNew := if tried then vvNew s else f (vvNew s); m_last_good := m_last_good s;
     m_tried_collisions := m_tried_collisions s; m_network_counts := m_network_counts s |}.
Definition set_last_good (time : Z) (s : AddrMan) : AddrMan :=
  {| nKey := nKey s; nIdCount := nIdCount s; mapInfo := mapInfo s; mapAddr := mapAddr s; vRandom := vRandom s; nTried := nTried s; vvTried := vvTried s;
     nNew := nNew s; vvNew := vvNew s; m_last_good := time; m_tried_collisions := m_tried_collisions s; m_network_counts := m_network_counts s |}.
Definition set_collisions (f : gset Z -> gset Z) (s : AddrMan) : AddrMan :=
  {| nKey := nKey s; nIdCount := nIdCount s; mapInfo := mapInfo s; mapAddr := mapAddr s; vRandom := vRandom s; nTried := nTried s; vvTried := vvTried s;
     nNew := nNew s; vvNew := vvNew s; m_last_good := m_last_good s; m_tried_collisions := f (m_tried_collisions s); m_network_counts := m_network_counts s |}.
Definition set_counts (f : gmap Network NewTriedCount -> gmap Network NewTriedCount) (s : AddrMan) : AddrMan :=
  {| nKey := nKey s; nIdCount := nIdCount s; mapInfo := mapInfo s; mapAddr := mapAddr s; vRandom := vRandom s; nTried := nTried s; vvTried := vvTried s;
     nNew := nNew s; vvNew := vvNew s; m_last_good := m_last_good s; m_tried_collisions := m_tried_collisions s; m_network_counts := f (m_network_counts s) |}.

Definition with_time (time : Z) (i : AddrInfo) : AddrInfo :=
  {| ai_service := ai_service i; ai_time := time; ai_services := ai_services i; m_last_try := m_last_try i; m_last_count_attempt := m_last_count_attempt i; source := source i; m_last_success := m_last_success i; nAttempts := nAttempts i; nRefCount := nRefCount i; fInTried := fInTried i; nRandomPos := nRandomPos i |}.
Definition with_services (services : Z) (i : AddrInfo) : AddrInfo :=
  {| ai_service := ai_service i; ai_time := ai_time i; ai_services := services; m_last_try := m_last_try i; m_last_count_attempt := m_last_count_attempt i; source := source i; m_last_success := m_last_success i; nAttempts := nAttempts i; nRefCount := nRefCount i; fInTried := fInTried i; nRandomPos := nRandomPos i |}.
Definition with_ref (count : Z) (i : AddrInfo) : AddrInfo :=
  {| ai_service := ai_service i; ai_time := ai_time i; ai_services := ai_services i; m_last_try := m_last_try i; m_last_count_attempt := m_last_count_attempt i; source := source i; m_last_success := m_last_success i; nAttempts := nAttempts i; nRefCount := count; fInTried := fInTried i; nRandomPos := nRandomPos i |}.
Definition with_tried (tried : bool) (i : AddrInfo) : AddrInfo :=
  {| ai_service := ai_service i; ai_time := ai_time i; ai_services := ai_services i; m_last_try := m_last_try i; m_last_count_attempt := m_last_count_attempt i; source := source i; m_last_success := m_last_success i; nAttempts := nAttempts i; nRefCount := nRefCount i; fInTried := tried; nRandomPos := nRandomPos i |}.
Definition with_pos (pos : Z) (i : AddrInfo) : AddrInfo :=
  {| ai_service := ai_service i; ai_time := ai_time i; ai_services := ai_services i; m_last_try := m_last_try i; m_last_count_attempt := m_last_count_attempt i; source := source i; m_last_success := m_last_success i; nAttempts := nAttempts i; nRefCount := nRefCount i; fInTried := fInTried i; nRandomPos := pos |}.
Definition with_success (time : Z) (i : AddrInfo) : AddrInfo :=
  {| ai_service := ai_service i; ai_time := ai_time i; ai_services := ai_services i; m_last_try := time; m_last_count_attempt := m_last_count_attempt i; source := source i; m_last_success := time; nAttempts := 0; nRefCount := nRefCount i; fInTried := fInTried i; nRandomPos := nRandomPos i |}.
Definition with_try (time : Z) (i : AddrInfo) : AddrInfo :=
  {| ai_service := ai_service i; ai_time := ai_time i; ai_services := ai_services i; m_last_try := time; m_last_count_attempt := m_last_count_attempt i; source := source i; m_last_success := m_last_success i; nAttempts := nAttempts i; nRefCount := nRefCount i; fInTried := fInTried i; nRandomPos := nRandomPos i |}.
Definition with_counted (time : Z) (i : AddrInfo) : AddrInfo :=
  {| ai_service := ai_service i; ai_time := ai_time i; ai_services := ai_services i; m_last_try := m_last_try i; m_last_count_attempt := time; source := source i; m_last_success := m_last_success i; nAttempts := i32 (nAttempts i + 1); nRefCount := nRefCount i; fInTried := fInTried i; nRandomPos := nRandomPos i |}.

(** ** Access *)

(** A reference into [mapInfo] that was taken before. *)
Definition info_ref (id : Z) : am AddrInfo := s ← get_st; lift_st (access (mapInfo s !! id)).
Definition change_info (id : Z) (f : AddrInfo -> AddrInfo) : am unit := i ← info_ref id; modify_st (set_info <[id := f i]>).

(** [mapInfo[id]], which makes an entry where there is none. *)
Definition info_index (id : Z) : am AddrInfo :=
  s ← get_st;
  match mapInfo s !! id with
  | Some i => mret i
  | None => _ ← modify_st (set_info <[id := no_AddrInfo]>); mret no_AddrInfo
  end.

Definition bucket_count (tried : bool) : Z := if tried then ADDRMAN_TRIED_BUCKET_COUNT else ADDRMAN_NEW_BUCKET_COUNT.
Definition in_table (tried : bool) (bucket position : Z) : bool :=
  ((0 <=? bucket) && (bucket <? bucket_count tried) && (0 <=? position) && (position <? ADDRMAN_BUCKET_SIZE))%bool.
Definition table (tried : bool) (s : AddrMan) : cells := if tried then vvTried s else vvNew s.
Definition cell (tried : bool) (s : AddrMan) (bucket position : Z) : Z := default (-1) (table tried s !! (bucket, position)).

Definition read_cell (tried : bool) (bucket position : Z) : am Z :=
  s ← get_st; if in_table tried bucket position then mret (cell tried s bucket position) else fail_st BadAccess.
Definition write_cell (tried : bool) (bucket position id : Z) : am unit :=
  if in_table tried bucket position then modify_st (set_table tried <[(bucket, position) := id]>) else fail_st BadAccess.

(** [m_network_counts[net].n_new += d] and the same of [n_tried]. *)
Definition count_new (net : Network) (d : Z) : am unit :=
  modify_st (set_counts (fun m => let c := default no_count (m !! net) in <[net := {| n_new := u64 (n_new c + d); n_tried := n_tried c |}]> m)).
Definition count_tried (net : Network) (d : Z) : am unit :=
  modify_st (set_counts (fun m => let c := default no_count (m !! net) in <[net := {| n_new := n_new c; n_tried := u64 (n_tried c + d) |}]> m)).

(** ** Entries *)

Definition Find (addr : CService) (s : AddrMan) : option Z :=
  match mapAddr s !! addr with
  | None => None
  | Some id => match mapInfo s !! id with Some _ => Some id | None => None end
  end.

Definition Create (addr : CAddress) (addrSource : CNetAddr) : am Z :=
  s ← get_st;
  let nId := nIdCount s in
  _ ← modify_st (set_ids (fun n => i32 (n + 1)));
  _ ← modify_st (set_info <[nId := new_AddrInfo addr addrSource]>);
  _ ← modify_st (set_addr <[ca_service addr := nId]>);
  _ ← change_info nId (with_pos (Z.of_nat (length (vRandom s))));
  _ ← modify_st (set_random (fun l => l ++ [nId]));
  _ ← modify_st (set_nNew (fun n => i32 (n + 1)));
  _ ← count_new (GetNetwork (netaddr_of (ca_service addr))) 1;
  mret nId.

(** Positions are [unsigned int]. *)
Definition SwapRandom (nRndPos1 nRndPos2 : Z) : am unit :=
  if u32 nRndPos1 =? u32 nRndPos2 then mret tt
  else
    let p1 := Z.to_nat (u32 nRndPos1) in
    let p2 := Z.to_nat (u32 nRndPos2) in
    s ← get_st;
    _ ← lift_st (assert_ ((p1 <? length (vRandom s))%nat && (p2 <? length (vRandom s))%nat));
    nId1 ← lift_st (access (vRandom s !! p1));
    nId2 ← lift_st (access (vRandom s !! p2));
    _ ← lift_st (assert_ (bool_decide (is_Some (mapInfo s !! nId1))));
    _ ← lift_st (assert_ (bool_decide (is_Some (mapInfo s !! nId2))));
    _ ← change_info nId1 (with_pos (i32 (u32 nRndPos2)));
    _ ← change_info nId2 (with_pos (i32 (u32 nRndPos1)));
    _ ← modify_st (set_random <[p1 := nId2]>);
    modify_st (set_random <[p2 := nId1]>).

Definition Delete (nId : Z) : am unit :=
  s ← get_st;
  _ ← lift_st (assert_ (bool_decide (is_Some (mapInfo s !! nId))));
  info ← info_ref nId;
  _ ← lift_st (assert_ (negb (fInTried info)));
  _ ← lift_st (assert_ (nRefCount info =? 0));
  _ ← SwapRandom (nRandomPos info) (Z.of_nat (length (vRandom s)) - 1);
  _ ← count_new (info_network info) (-1);
  _ ← modify_st (set_random (fun l => removelast l));
  _ ← modify_st (set_addr (delete (ai_service info)));
  _ ← modify_st (set_info (delete nId));
  modify_st (set_nNew (fun n => n - 1)).

Definition ClearNew (nUBucket nUBucketPos : Z) : am unit :=
  nIdDelete ← read_cell false nUBucket nUBucketPos;
  if nIdDelete =? -1 then mret tt
  else
    infoDelete ← info_index nIdDelete;
    _ ← lift_st (assert_ (nRefCount infoDelete >? 0));
    _ ← change_info nIdDelete (with_ref (nRefCount infoDelete - 1));
    _ ← write_cell false nUBucket nUBucketPos (-1);
    if nRefCount infoDelete - 1 =? 0 then Delete nIdDelete else mret tt.

(** The loop over the new buckets in [MakeTried]. *)
Fixpoint unlink_loop (start_bucket nId : Z) (ns : list Z) : am unit :=
  match ns with
  | [] => mret tt
  | n :: rest =>
      s ← get_st;
      info ← info_ref nId;
      let bucket := (start_bucket + n) mod ADDRMAN_NEW_BUCKET_COUNT in
      let pos := GetBucketPosition (nKey s) true bucket info in
      id ← read_cell false bucket pos;
      if id =? nId then
        _ ← write_cell false bucket pos (-1);
        _ ← change_info nId (with_ref (nRefCount info - 1));
        if nRefCount info - 1 =? 0 then mret tt else unlink_loop start_bucket nId rest
      else unlink_loop start_bucket nId rest
  end.

(** The eviction of what is in the place of the tried table. *)
Definition evict_tried (nKBucket nKBucketPos : Z) : am unit :=
  nIdEvict ← read_cell true nKBucket nKBucketPos;
  if nIdEvict =? -1 then mret tt
  else
    s ← get_st;
    _ ← lift_st (assert_ (bool_decide (is_Some (mapInfo s !! nIdEvict))));
    infoOld ← info_ref nIdEvict;
    _ ← change_info nIdEvict (with_tried false);
    _ ← write_cell true nKBucket nKBucketPos (-1);
    _ ← modify_st (set_nTried (fun n => n - 1));
    _ ← count_tried (info_network infoOld) (-1);
    let nUBucket := GetNewBucket (nKey s) (source infoOld) infoOld in
    let nUBucketPos := GetBucketPosition (nKey s) true nUBucket infoOld in
    _ ← ClearNew nUBucket nUBucketPos;
    id ← read_cell false nUBucket nUBucketPos;
    _ ← lift_st (assert_ (id =? -1));
    _ ← change_info nIdEvict (with_ref 1);
    _ ← write_cell false nUBucket nUBucketPos nIdEvict;
    _ ← modify_st (set_nNew (fun n => i32 (n + 1)));
    count_new (info_network infoOld) 1.

Definition MakeTried (nId : Z) : am unit :=
  s ← get_st;
  info ← info_ref nId;
  _ ← unlink_loop (GetNewBucket (nKey s) (source info) info) nId (seqZ 0 ADDRMAN_NEW_BUCKET_COUNT);
  _ ← modify_st (set_nNew (fun n => n - 1));
  _ ← count_new (info_network info) (-1);
  now_info ← info_ref nId;
  _ ← lift_st (assert_ (nRefCount now_info =? 0));
  let nKBucket := GetTriedBucket (nKey s) info in
  let nKBucketPos := GetBucketPosition (nKey s) false nKBucket info in
  _ ← evict_tried nKBucket nKBucketPos;
  id ← read_cell true nKBucket nKBucketPos;
  _ ← lift_st (assert_ (id =? -1));
  _ ← write_cell true nKBucket nKBucketPos nId;
  _ ← modify_st (set_nTried (fun n => i32 (n + 1)));
  _ ← change_info nId (with_tried true);
  count_tried (info_network info) 1.

(** ** The operations *)

(** [AddSingle]: an address that was heard of; [now] is the clock, [draw] the
    random number below a bound. *)
Definition add_known (addr : CAddress) (time_penalty now : Z) (draw : Z -> Z) (nId : Z) : am bool :=
  info ← info_ref nId;
  let currently_online := now - ca_time addr <? 24 * 3600 in
  let update_interval := if currently_online then 3600 else 24 * 3600 in
  _ ← (if ai_time info <? ca_time addr - update_interval - time_penalty
       then change_info nId (with_time (Z.max 0 (ca_time addr - time_penalty))) else mret tt);
  _ ← change_info nId (with_services (Z.lor (ai_services info) (ca_services addr)));
  info ← info_ref nId;
  if ca_time addr <=? ai_time info then mret false
  else if fInTried info then mret false
  else if nRefCount info =? ADDRMAN_NEW_BUCKETS_PER_ADDRESS then mret false
  else if ((nRefCount info >? 0) && negb (draw (Z.shiftl 1 (nRefCount info)) =? 0))%bool then mret false
  else mret true.

(** The place in the new table of an address from this source. *)
Definition add_to_new (src : CNetAddr) (now nId : Z) : am bool :=
  s ← get_st;
  info ← info_ref nId;
  let nUBucket := GetNewBucket (nKey s) src info in
  let nUBucketPos := GetBucketPosition (nKey s) true nUBucket info in
  id ← read_cell false nUBucket nUBucketPos;
  let fInsert := id =? -1 in
  if id =? nId then mret fInsert
  else
    fInsert ← (if fInsert then mret true
               else
                 infoExisting ← info_index id;
                 mret (IsTerrible now infoExisting || ((nRefCount infoExisting >? 1) && (nRefCount info =? 0)))%bool);
    match fInsert with
    | true =>
        _ ← ClearNew nUBucket nUBucketPos;
        info ← info_ref nId;
        _ ← change_info nId (with_ref (nRefCount info + 1));
        _ ← write_cell false nUBucket nUBucketPos nId;
        mret true
    | false =>
        _ ← (if nRefCount info =? 0 then Delete nId else mret tt);
        mret false
    end.

Definition AddSingle (addr : CAddress) (src : CNetAddr) (time_penalty now : Z) (draw : Z -> Z) : am bool :=
  if negb (IsRoutable (netaddr_of (ca_service addr))) then mret false
  else
    s ← get_st;
    let time_penalty := if decide (netaddr_of (ca_service addr) = src) then 0 else time_penalty in
    match Find (ca_service addr) s with
    | Some nId =>
        go ← add_known addr time_penalty now draw nId;
        match go with true => add_to_new src now nId | false => mret false end
    | None =>
        nId ← Create addr src;
        info ← info_ref nId;
        _ ← change_info nId (with_time (Z.max 0 (ai_time info - time_penalty)));
        add_to_new src now nId
    end.

Fixpoint add_all (vAddr : list (CAddress * (Z -> Z))) (src : CNetAddr) (time_penalty now added : Z) : am Z :=
  match vAddr with
  | [] => mret added
  | (addr, draw) :: rest =>
      ok ← AddSingle addr src time_penalty now draw;
      add_all rest src time_penalty now (added + if ok : bool then 1 else 0)
  end.
(** Each address comes with the random number drawn for it. *)
Definition Add_ (vAddr : list (CAddress * (Z -> Z))) (src : CNetAddr) (time_penalty now : Z) : am bool :=
  added ← add_all vAddr src time_penalty now 0; mret (added >? 0).

Definition Good_ (addr : CService) (test_before_evict : bool) (time : Z) : am bool :=
  _ ← modify_st (set_last_good time);
  s ← get_st;
  match Find addr s with
  | None => mret false
  | Some nId =>
      _ ← change_info nId (with_success time);
      info ← info_ref nId;
      if fInTried info then mret false
      else if negb (nRefCount info >? 0) then mret false
      else
        let tried_bucket := GetTriedBucket (nKey s) info in
        let tried_bucket_pos := GetBucketPosition (nKey s) false tried_bucket info in
        id ← read_cell true tried_bucket tried_bucket_pos;
        if (test_before_evict && negb (id =? -1))%bool then
          _ ← modify_st (set_collisions (fun c => if (size c <? ADDRMAN_SET_TRIED_COLLISION_SIZE)%nat then {[ nId ]} ∪ c else c));
          mret false
        else
          _ ← MakeTried nId;
          mret true
  end.

Definition Attempt_ (addr : CService) (fCountFailure : bool) (time : Z) : am unit :=
  s ← get_st;
  match Find addr s with
  | None => mret tt
  | Some nId =>
      _ ← change_info nId (with_try time);
      info ← info_ref nId;
      if (fCountFailure && (m_last_count_attempt info <? m_last_good s))%bool then change_info nId (with_counted time) else mret tt
  end.

Definition Connected_ (addr : CService) (time : Z) : am unit :=
  s ← get_st;
  match Find addr s with
  | None => mret tt
  | Some nId => info ← info_ref nId; if time - ai_time info >? 20 * 60 then change_info nId (with_time time) else mret tt
  end.

Definition SetServices_ (addr : CService) (services : Z) : am unit :=
  s ← get_st;
  match Find addr s with None => mret tt | Some nId => change_info nId (with_services services) end.

(** One turn of the loop of [ResolveCollisions_]: whether the collision is
    settled. *)
Definition resolve_one (id_new now : Z) : am bool :=
  s ← get_st;
  match mapInfo s !! id_new with
  | None => mret true
  | Some info_new =>
      let tried_bucket := GetTriedBucket (nKey s) info_new in
      let tried_bucket_pos := GetBucketPosition (nKey s) false tried_bucket info_new in
      if negb (netaddr_IsValid (netaddr_of (ai_service info_new))) then mret true
      else
        id_old ← read_cell true tried_bucket tried_bucket_pos;
        if negb (id_old =? -1) then
          info_old ← info_index id_old;
          if now - m_last_success info_old <? ADDRMAN_REPLACEMENT then mret true
          else if now - m_last_try info_old <? ADDRMAN_REPLACEMENT then
            if now - m_last_try info_old >? 60 then _ ← Good_ (ai_service info_new) false now; mret true else mret false
          else if now - m_last_success info_new >? ADDRMAN_TEST_WINDOW then _ ← Good_ (ai_service info_new) false now; mret true
          else mret false
        else _ ← Good_ (ai_service info_new) false now; mret true
  end.

Fixpoint resolve_loop (ids : list Z) (clock : Z -> Z) : am unit :=
  match ids with
  | [] => mret tt
  | id_new :: rest =>
      erase_collision ← resolve_one id_new (clock id_new);
      _ ← (match erase_collision with true => modify_st (set_collisions (fun c => c ∖ {[ id_new ]})) | false => mret tt end);
      resolve_loop rest clock
  end.

(** A [std::set<int>] in order. *)
Definition set_order (c : gset Z) : list Z := merge_sort Z.le (elements c).

(** [clock] is the time at which each collision is looked at. *)
Definition ResolveCollisions_ (clock : Z -> Z) : am unit :=
  s ← get_st; resolve_loop (set_order (m_tried_collisions s)) clock.

Definition SelectTriedCollision_ (draw : Z -> Z) : am (option (CAddress * Z)) :=
  s ← get_st;
  if (size (m_tried_collisions s) =? 0)%nat then mret None
  else
    id_new ← lift_st (access (set_order (m_tried_collisions s) !! Z.to_nat (draw (Z.of_nat (size (m_tried_collisions s))))));
    match mapInfo s !! id_new with
    | None => _ ← modify_st (set_collisions (fun c => c ∖ {[ id_new ]})); mret None
    | Some newInfo =>
        let tried_bucket := GetTriedBucket (nKey s) newInfo in
        let tried_bucket_pos := GetBucketPosition (nKey s) false tried_bucket newInfo in
        id_old ← read_cell true tried_bucket tried_bucket_pos;
        info_old ← info_index id_old;
        mret (Some (as_CAddress info_old, m_last_try info_old))
    end.

(** ** Queries *)

Definition GetEntry (use_tried : bool) (bucket position : Z) (s : AddrMan) : Z := if in_table use_tried bucket position then cell use_tried s bucket position else -1.

(** The positions of a bucket from the initial one, looking for an entry (of
    the network, when one is given). *)
Fixpoint scan_bucket (use_tried : bool) (network : option Network) (bucket : Z) (positions : list Z) (s : AddrMan) : option Z :=
  match positions with
  | [] => None
  | position :: rest =>
      let node_id := GetEntry use_tried bucket position s in
      let fits := match network with
        | None => true
        | Some net => match mapInfo s !! node_id with Some i => bool_decide (info_network i = net) | None => false end
        end in
      if (negb (node_id =? -1) && fits)%bool then Some node_id else scan_bucket use_tried network bucket rest s
  end.

(** The random choices of [Select_]: a table, and for each turn a bucket, a
    position, and whether the entry found is taken, which depends on its
    [GetChance] and on how often the search has begun again. *)
Record select_draws : Type := {
  draw_table : bool;
  draw_bucket : nat -> Z -> Z;
  draw_position : nat -> Z -> Z;
  draw_accepts : nat -> nat -> AddrInfo -> bool;
}.

Fixpoint select_loop (fuel : nat) (draws : select_draws) (search_tried : bool) (network : option Network) (turn refused : nat) (s : AddrMan) : res (CAddress * Z) :=
  match fuel with
  | O => Fail OutOfFuel
  | S fuel =>
      let bucket := draw_bucket draws turn (bucket_count search_tried) in
      let initial_position := draw_position draws turn ADDRMAN_BUCKET_SIZE in
      match scan_bucket search_tried network bucket (map (fun i => (initial_position + i) mod ADDRMAN_BUCKET_SIZE) (seqZ 0 ADDRMAN_BUCKET_SIZE)) s with
      | None => select_loop fuel draws search_tried network (S turn) refused s
      | Some node_id =>
          _ ← assert_ (bool_decide (is_Some (mapInfo s !! node_id)));
          info ← access (mapInfo s !! node_id);
          if draw_accepts draws turn refused info then Ok (as_CAddress info, m_last_try info)
          else select_loop fuel draws search_tried network (S turn) (S refused) s
      end
  end.

Definition Select_ (fuel : nat) (draws : select_draws) (new_only : bool) (network : option Network) (s : AddrMan) : res (option (CAddress * Z)) :=
  match vRandom s with
  | [] => Ok None
  | _ :: _ =>
      let counts := match network with
        | None => Some (u64 (nNew s), u64 (nTried s))
        | Some net => match m_network_counts s !! net with Some c => Some (n_new c, n_tried c) | None => None end
        end in
      match counts with
      | None => Ok None
      | Some (new_count, tried_count) =>
          if (new_only && (new_count =? 0))%bool then Ok None
          else if u64 (new_count + tried_count) =? 0 then Ok None
          else
            let search_tried := if (new_only || (tried_count =? 0))%bool then false else if new_count =? 0 then true else draw_table draws in
            r ← select_loop fuel draws search_tried network 0 0 s;
            Ok (Some r)
      end
  end.

(** The loop of [GetAddr_] at position [n]; [draw] takes the turn and a bound. *)
Fixpoint getaddr_loop (fuel : nat) (draw : Z -> Z -> Z) (nNodes : Z) (network : option Network) (filtered : bool) (now n : Z) (addresses : list CAddress) : am (list CAddress) :=
  s ← get_st;
  let total := Z.of_nat (length (vRandom s)) in
  if ((n >=? total) || (Z.of_nat (length addresses) >=? nNodes))%bool then mret addresses
  else
    match fuel with
    | O => fail_st OutOfFuel
    | S fuel =>
        let nRndPos := draw n (total - n) + n in
        _ ← SwapRandom n nRndPos;
        s ← get_st;
        id ← lift_st (access (vRandom s !! Z.to_nat n));
        _ ← lift_st (assert_ (bool_decide (is_Some (mapInfo s !! id))));
        ai ← info_ref id;
        let skip := (match network with None => false | Some net => negb (bool_decide (GetNetClass (netaddr_of (ai_service ai)) = net)) end || (IsTerrible now ai && filtered))%bool in
        getaddr_loop fuel draw nNodes network filtered now (n + 1) (if skip then addresses else addresses ++ [as_CAddress ai])
    end.

Definition GetAddr_ (max_addresses max_pct : Z) (network : option Network) (filtered : bool) (now : Z) (draw : Z -> Z -> Z) : am (list CAddress) :=
  s ← get_st;
  let nNodes := Z.of_nat (length (vRandom s)) in
  let nNodes := if max_pct =? 0 then nNodes else u64 (max_pct * nNodes) / 100 in
  let nNodes := if max_addresses =? 0 then nNodes else Z.min nNodes max_addresses in
  getaddr_loop (length (vRandom s)) draw nNodes network filtered now 0 [].

Record AddressPosition : Type := { ap_tried : bool; ap_multiplicity : Z; ap_bucket : Z; ap_position : Z }.

Fixpoint entries_loop (from_tried : bool) (places : list (Z * Z)) (s : AddrMan) : res (list (AddrInfo * AddressPosition)) :=
  match places with
  | [] => Ok []
  | (bucket, position) :: rest =>
      let id := GetEntry from_tried bucket position s in
      if id >=? 0 then
        info ← match mapInfo s !! id with Some i => Ok i | None => Fail (Thrown "out_of_range") end;
        infos ← entries_loop from_tried rest s;
        Ok ((info, {| ap_tried := from_tried; ap_multiplicity := if from_tried then 1 else nRefCount info; ap_bucket := bucket; ap_position := position |}) :: infos)
      else entries_loop from_tried rest s
  end.

Definition places (tried : bool) : list (Z * Z) := b ← seqZ 0 (bucket_count tried); p ← seqZ 0 ADDRMAN_BUCKET_SIZE; [(b, p)].
Definition GetEntries_ (from_tried : bool) (s : AddrMan) : res (list (AddrInfo * AddressPosition)) := entries_loop from_tried (places from_tried) s.

Definition FindAddressEntry_ (addr : CService) (s : AddrMan) : option AddressPosition :=
  match Find addr s with
  | None => None
  | Some nId =>
      match mapInfo s !! nId with
      | None => None
      | Some info =>
          let bucket := if fInTried info then GetTriedBucket (nKey s) info else GetNewBucket (nKey s) (source info) info in
          Some {| ap_tried := fInTried info; ap_multiplicity := if fInTried info then 1 else nRefCount info; ap_bucket := bucket;
                  ap_position := GetBucketPosition (nKey s) (negb (fInTried info)) bucket info |}
      end
  end.

Definition Size_ (net : option Network) (in_new : option bool) (s : AddrMan) : Z :=
  match net with
  | None => match in_new with Some b => if b then u64 (nNew s) else u64 (nTried s) | None => Z.of_nat (length (vRandom s)) end
  | Some net =>
      match m_network_counts s !! net with
      | Some c => match in_new with Some b => if b then n_new c else n_tried c | None => u64 (n_new c + n_tried c) end
      | None => 0
      end
  end.

(** ** The consistency check *)

Record check_state : Type := { setTried : gset Z; mapNew : gmap Z Z; local_counts : gmap Network NewTriedCount }.

Definition count_local (net : Network) (tried : bool) (m : gmap Network NewTriedCount) : gmap Network NewTriedCount :=
  let c := default no_count (m !! net) in
  <[net := if tried then {| n_new := n_new c; n_tried := u64 (n_tried c + 1) |} else {| n_new := u64 (n_new c + 1); n_tried := n_tried c |}]> m.

(** An error code, or what the loop has collected. *)
Definition check_entry (s : AddrMan) (n : Z) (info : AddrInfo) (st : check_state) : Z + check_state :=
  let rest (st : check_state) : Z + check_state :=
    if negb (bool_decide (mapAddr s !! ai_service info = Some n)) then inl (-5)
    else if ((nRandomPos info <? 0) || (nRandomPos info >=? Z.of_nat (length (vRandom s))) || negb (bool_decide (vRandom s !! Z.to_nat (nRandomPos info) = Some n)))%bool then inl (-14)
    else if m_last_try info <? 0 then inl (-6)
    else if m_last_success info <? 0 then inl (-8)
    else inr st in
  if fInTried info then
    if m_last_success info =? 0 then inl (-1)
    else if negb (nRefCount info =? 0) then inl (-2)
    else rest {| setTried := {[ n ]} ∪ setTried st; mapNew := mapNew st; local_counts := count_local (info_network info) true (local_counts st) |}
  else if ((nRefCount info <? 0) || (nRefCount info >? ADDRMAN_NEW_BUCKETS_PER_ADDRESS))%bool then inl (-3)
  else if nRefCount info =? 0 then inl (-4)
  else rest {| setTried := setTried st; mapNew := <[n := nRefCount info]> (mapNew st); local_counts := count_local (info_network info) false (local_counts st) |}.

Fixpoint check_entries (s : AddrMan) (entries : list (Z * AddrInfo)) (st : check_state) : Z + check_state :=
  match entries with
  | [] => inr st
  | (n, info) :: rest => match check_entry s n info st with inl err => inl err | inr st => check_entries s rest st end
  end.

Fixpoint check_tried (s : AddrMan) (ps : list (Z * Z)) (left : gset Z) : Z + gset Z :=
  match ps with
  | [] => inr left
  | (n, i) :: rest =>
      let id := cell true s n i in
      if id =? -1 then check_tried s rest left
      else if negb (bool_decide (id ∈ left)) then inl (-11)
      else
        match mapInfo s !! id with
        | None => inl (-17)
        | Some info =>
            if negb (GetTriedBucket (nKey s) info =? n) then inl (-17)
            else if negb (GetBucketPosition (nKey s) false n info =? i) then inl (-18)
            else check_tried s rest (left ∖ {[ id ]})
        end
  end.

Fixpoint check_new (s : AddrMan) (ps : list (Z * Z)) (left : gmap Z Z) : Z + gmap Z Z :=
  match ps with
  | [] => inr left
  | (n, i) :: rest =>
      let id := cell false s n i in
      if id =? -1 then check_new s rest left
      else
        match left !! id with
        | None => inl (-12)
        | Some count =>
            match mapInfo s !! id with
            | None => inl (-19)
            | Some info =>
                if negb (GetBucketPosition (nKey s) true n info =? i) then inl (-19)
                else check_new s rest (if count - 1 =? 0 then delete id left else <[id := count - 1]> left)
            end
        end
  end.

Definition same_count (c d : NewTriedCount) : bool := ((n_new c =? n_new d) && (n_tried c =? n_tried d))%bool.

Definition CheckAddrman (s : AddrMan) : Z :=
  if negb (Z.of_nat (length (vRandom s)) =? u64 (i32 (nTried s + nNew s))) then -7
  else
    match check_entries s (map_to_list (mapInfo s)) {| setTried := ∅; mapNew := ∅; local_counts := ∅ |} with
    | inl err => err
    | inr st =>
        if negb (Z.of_nat (size (setTried st)) =? u64 (nTried s)) then -9
        else if negb (Z.of_nat (size (mapNew st)) =? u64 (nNew s)) then -10
        else
          match check_tried s (places true) (setTried st) with
          | inl err => err
          | inr left_tried =>
              match check_new s (places false) (mapNew st) with
              | inl err => err
              | inr left_new =>
                  if negb (size left_tried =? 0)%nat then -13
                  else if negb (size left_new =? 0)%nat then -15
                  else if forallb (Z.eqb 0) (nKey s) then -16
                  else if (size (m_network_counts s) <? size (local_counts st))%nat then -20
                  else if negb (forallb (fun '(net, c) => same_count (default no_count (local_counts st !! net)) c) (map_to_list (m_network_counts s))) then -21
                  else 0
              end
          end
    end.
End AddrMan.
