(* ===== verification/AddrManProofs.v ===== *)
(** * The tables of the address manager and the steps on them

    The invariant of the maps, tables and counters; removing, making and moving
    entries keep it. *)

From stdpp Require Import base numbers list gmap sorting strings.
From Stdlib Require Import ZArith Lia.
From S2P Require Import Prelude Params Streams Serialize AddrMan.

Local Open Scope Z_scope.

(** * The tables of the address manager

    What holds of the maps, the tables and the counters of [AddrManImpl]
    between its steps ([am_ok]): an entry may be in neither table ([L]) or not
    counted ([U]) while it is moved.  The steps that move entries keep it. *)

(** ** Counting *)

Section Counting.
Context {A : Type}.
Implicit Types (m : gmap Z A) (P : Z -> A -> bool).

Definition mcnt P m : Z := Z.of_nat (size (filter (fun xa => P (fst xa) (snd xa) = true) m)).
Definition one (b : bool) : Z := if b then 1 else 0.

Lemma mcnt_fresh P m x a : m !! x = None -> mcnt P (<[x := a]> m) = mcnt P m + one (P x a).
Proof.
  intros E. unfold mcnt, one. destruct (P x a) eqn:Ep.
  - rewrite map_filter_insert_True by exact Ep. rewrite map_size_insert_None; [lia|]. apply map_lookup_filter_None. left. exact E.
  - rewrite map_filter_insert_False by (cbn; congruence). rewrite delete_id by exact E. lia.
Qed.
Lemma mcnt_delete P m x a : m !! x = Some a -> mcnt P (delete x m) = mcnt P m - one (P x a).
Proof. intros E. rewrite <- (insert_delete_id m x a E) at 2. rewrite mcnt_fresh by apply lookup_delete_eq. lia. Qed.
Lemma mcnt_update P m x a b : m !! x = Some a -> mcnt P (<[x := b]> m) = mcnt P m - one (P x a) + one (P x b).
Proof. intros E. rewrite <- insert_delete_eq, mcnt_fresh by apply lookup_delete_eq. rewrite (mcnt_delete P m x a E). lia. Qed.
Lemma mcnt_range P m : 0 <= mcnt P m <= Z.of_nat (size m).
Proof. unfold mcnt. split; [lia|]. apply inj_le, map_subseteq_size, map_filter_subseteq. Qed.
Lemma mcnt_ext P Q m : (forall x a, m !! x = Some a -> P x a = Q x a) -> mcnt P m = mcnt Q m.
Proof. intros H. unfold mcnt. do 2 f_equal. apply map_filter_ext. intros x a E. cbn. rewrite (H x a E). reflexivity. Qed.
Lemma mcnt_pos P m x a : m !! x = Some a -> P x a = true -> 1 <= mcnt P m.
Proof. intros E Hp. pose proof (mcnt_delete P m x a E) as D. pose proof (mcnt_range P (delete x m)). unfold one in D. rewrite Hp in D. lia. Qed.

(** The count of a predicate that changes its mind at one key. *)
Lemma mcnt_switch P Q m x a : m !! x = Some a -> (forall y b, y <> x -> m !! y = Some b -> P y b = Q y b) -> mcnt Q m = mcnt P m - one (P x a) + one (Q x a).
Proof.
  intros E H. rewrite <- (insert_delete_id m x a E), !mcnt_fresh by apply lookup_delete_eq. rewrite (mcnt_ext P Q (delete x m)); [lia|]. intros y b [Hy Eb]%lookup_delete_Some. apply H; [congruence|exact Eb].
Qed.
End Counting.

Section ListCounting.
Context {A : Type}.
Implicit Types (l : list A) (P Q : A -> bool).

Definition lcount P l : Z := Z.of_nat (length (filter (fun c => P c = true) l)).

Lemma lcount_cons P x l : lcount P (x :: l) = one (P x) + lcount P l.
Proof. unfold lcount, one. rewrite filter_cons. destruct (decide (P x = true)) as [->|N]; [cbn; lia|]. apply not_true_iff_false in N. rewrite N. lia. Qed.

Lemma lcount_ext P Q l : (forall c, c ∈ l -> P c = Q c) -> lcount P l = lcount Q l.
Proof.
  induction l as [|x l IH]; intros H; [reflexivity|]. rewrite !lcount_cons, (H x) by left. rewrite IH; [reflexivity|]. intros c Hc. apply H. right. exact Hc.
Qed.

Lemma lcount_switch P Q l b : NoDup l -> b ∈ l -> (forall c, c ∈ l -> c <> b -> P c = Q c) -> lcount Q l = lcount P l - one (P b) + one (Q b).
Proof.
  intros Hnd. induction Hnd as [|x l Hx Hnd IH]; intros Hb H; [apply not_elem_of_nil in Hb; contradiction|]. rewrite !lcount_cons. apply elem_of_cons in Hb as [<-|Hb].
  - rewrite (lcount_ext P Q l); [lia|]. intros c Hc. apply H; [right; exact Hc|congruence].
  - rewrite (H x) by (try left; congruence). rewrite IH; [lia|exact Hb|]. intros c Hc. apply H. right. exact Hc.
Qed.

Lemma lcount_none P l : (forall c, c ∈ l -> P c = false) -> lcount P l = 0.
Proof. intros H. induction l as [|x l IH]; [reflexivity|]. rewrite lcount_cons, (H x) by left. rewrite IH; [reflexivity|]. intros c Hc. apply H. right. exact Hc. Qed.

Lemma lcount_witness P l : 0 < lcount P l -> exists c, c ∈ l /\ P c = true.
Proof.
  unfold lcount. intros H. destruct (filter (fun c => P c = true) l) as [|c r] eqn:Ef; [cbn in H; lia|]. exists c. assert (Hc : c ∈ filter (fun d => P d = true) l) by (rewrite Ef; left). apply list_elem_of_filter in Hc as [H1 H2]. auto.
Qed.
Lemma lcount_nonneg P l : 0 <= lcount P l.
Proof. unfold lcount. lia. Qed.
End ListCounting.

Section Invariant.
Context {E : AddrEnv}.
Notation infos := (gmap Z AddrInfo).
Notation cells := (gmap (Z * Z) Z).

(** ** The maps *)

Record ix_ok (n : Z) (m : infos) (a : gmap CService Z) (r : list Z) : Prop := {
  ix_ids id i : m !! id = Some i -> 0 <= id < n;
  ix_addr x id : a !! x = Some id <-> exists i, m !! id = Some i /\ ai_service i = x;
  ix_random k id : r !! k = Some id <-> exists i, m !! id = Some i /\ nRandomPos i = Z.of_nat k;
  ix_pos id i : m !! id = Some i -> 0 <= nRandomPos i;
}.

Lemma ix_update n m a r id i i' : ix_ok n m a r -> m !! id = Some i -> ai_service i' = ai_service i -> nRandomPos i' = nRandomPos i -> ix_ok n (<[id := i']> m) a r.
Proof using.
  intros [H1 H2 H3 H4] Ei Es Ep.
  assert (X : forall (f : AddrInfo -> Prop), (f i' <-> f i) -> forall id0, (exists i0, <[id := i']> m !! id0 = Some i0 /\ f i0) <-> exists i0, m !! id0 = Some i0 /\ f i0).
  { intros f Hf id0. destruct (decide (id = id0)) as [<-|Hne]; [|rewrite lookup_insert_ne by exact Hne; reflexivity]. rewrite lookup_insert_eq, Ei. split; intros (i0 & [= <-] & H0); eexists; (split; [reflexivity|]); tauto. }
  split.
  - intros id0 i0. rewrite lookup_insert_Some. intros [[<- _]|[_ E0]]; eauto.
  - intros x id0. rewrite H2. symmetry. apply (X (fun i0 => ai_service i0 = x)). rewrite Es. reflexivity.
  - intros k id0. rewrite H3. symmetry. apply (X (fun i0 => nRandomPos i0 = Z.of_nat k)). rewrite Ep. reflexivity.
  - intros id0 i0. rewrite lookup_insert_Some. intros [[<- <-]|[_ E0]]; [rewrite Ep|]; eauto.
Qed.

Lemma ix_at n m a r id i : ix_ok n m a r -> m !! id = Some i -> r !! Z.to_nat (nRandomPos i) = Some id.
Proof using. intros H Ei. apply (ix_random _ _ _ _ H). exists i. split; [exact Ei|]. pose proof (ix_pos _ _ _ _ H id i Ei). lia. Qed.

Lemma ix_nodup n m a r : ix_ok n m a r -> NoDup r.
Proof using.
  intros H. apply NoDup_alt. intros k k' id Ek Ek'. apply (ix_random _ _ _ _ H) in Ek as (i & Ei & Hi), Ek' as (i' & Ei' & Hi'). rewrite Ei in Ei'. injection Ei' as <-. lia.
Qed.

(** There are as many positions as entries. *)
Lemma ix_length n m a r : ix_ok n m a r -> length r = size m.
Proof using.
  intros H. rewrite <- size_dom. replace (dom m) with (list_to_set r : gset Z); [symmetry; apply size_list_to_set, (ix_nodup _ _ _ _ H)|].
  apply set_eq. intros id. rewrite elem_of_list_to_set, elem_of_dom. split.
  - intros [k Ek]%list_elem_of_lookup. apply (ix_random _ _ _ _ H) in Ek as (i & Ei & _). eauto.
  - intros [i Ei]. exact (list_elem_of_lookup_2 _ _ _ (ix_at _ _ _ _ _ _ H Ei)).
Qed.

Lemma ix_size n m a r : ix_ok n m a r -> 0 <= n -> Z.of_nat (size m) <= n.
Proof using.
  intros H Hn. rewrite <- size_dom. assert (Hs : dom m ⊆ list_to_set (seqZ 0 n)) by (intros id [i Ei]%elem_of_dom; apply elem_of_list_to_set, elem_of_seqZ; pose proof (ix_ids _ _ _ _ H id i Ei); lia).
  apply subseteq_size in Hs. pose proof (size_list_to_set (C := gset Z) (seqZ 0 n) (NoDup_seqZ 0 n)) as L. rewrite length_seqZ in L. lia.
Qed.

Lemma ix_create n m a r i : ix_ok n m a r -> 0 <= n -> a !! ai_service i = None -> nRandomPos i = Z.of_nat (length r) -> ix_ok (n + 1) (<[n := i]> m) (<[ai_service i := n]> a) (r ++ [n]).
Proof using.
  intros [H1 H2 H3 H4] Hn Ha Hp. assert (Fresh : m !! n = None) by (apply eq_None_not_Some; intros [j Ej]; pose proof (H1 n j Ej); lia).
  assert (Other : forall id j, m !! id = Some j -> ai_service j <> ai_service i) by (intros id j Ej Hs; assert (X : a !! ai_service i = Some id) by (apply H2; eauto); congruence). split.
  - intros id j. rewrite lookup_insert_Some. intros [[<- _]|[_ Ej]]; [lia|]. pose proof (H1 id j Ej). lia.
  - intros x id. rewrite lookup_insert_Some, H2. split.
    + intros [[<- <-]|[Hx (j & Ej & <-)]]; [exists i; rewrite lookup_insert_eq; auto|]. exists j. split; [|reflexivity]. rewrite lookup_insert_ne; [exact Ej|]. intros <-. congruence.
    + intros (j & Ej & <-). apply lookup_insert_Some in Ej as [[<- <-]|[Hne Ej]]; [left; auto|]. right. split; [|eauto]. intros Heq. apply (Other id j Ej). congruence.
  - intros k id. rewrite lookup_app_Some, list_lookup_singleton_Some, H3. split.
    + intros [(j & Ej & Hj)|(Hk & Hk0 & <-)]; [exists j; split; [|exact Hj]; rewrite lookup_insert_ne; [exact Ej|intros <-; congruence]|]. exists i. rewrite lookup_insert_eq. split; [reflexivity|lia].
    + intros (j & Ej & Hj). apply lookup_insert_Some in Ej as [[<- <-]|[Hne Ej]]; [right; rewrite Hp in Hj; lia|left; eauto].
  - intros id j. rewrite lookup_insert_Some. intros [[_ <-]|[_ Ej]]; [lia|eauto].
Qed.

(** Two entries trade their positions. *)
Lemma ix_swap n m a r p1 p2 id1 id2 i1 i2 : ix_ok n m a r -> p1 <> p2 -> r !! p1 = Some id1 -> r !! p2 = Some id2 -> m !! id1 = Some i1 -> m !! id2 = Some i2 ->
  ix_ok n (<[id2 := with_pos (Z.of_nat p1) i2]> (<[id1 := with_pos (Z.of_nat p2) i1]> m)) a (<[p2 := id1]> (<[p1 := id2]> r)).
Proof using.
  intros H Hp E1 E2 F1 F2. pose proof (ix_nodup _ _ _ _ H) as Hnd. destruct H as [H1 H2 H3 H4]. assert (Hid : id1 <> id2) by (intros ->; apply Hp, (NoDup_lookup _ _ _ _ Hnd E1 E2)).
  assert (P1 : nRandomPos i1 = Z.of_nat p1) by (apply H3 in E1 as (j & Ej & Hj); rewrite F1 in Ej; injection Ej as <-; exact Hj). assert (P2 : nRandomPos i2 = Z.of_nat p2) by (apply H3 in E2 as (j & Ej & Hj); rewrite F2 in Ej; injection Ej as <-; exact Hj).
  pose proof (lookup_lt_Some _ _ _ E1) as L1. pose proof (lookup_lt_Some _ _ _ E2) as L2. set (m' := <[id2 := _]> _).
  assert (M : forall id j, m' !! id = Some j <-> (id = id2 /\ j = with_pos (Z.of_nat p1) i2) \/ (id = id1 /\ j = with_pos (Z.of_nat p2) i1) \/ (id <> id1 /\ id <> id2 /\ m !! id = Some j)).
  { intros id j. unfold m'. rewrite !lookup_insert_Some. split; [intros [[<- <-]|[? [[<- <-]|[? ?]]]]; auto|intros [[-> ->]|[[-> ->]|(? & ? & ?)]]; auto]. }
  split.
  - intros id j. rewrite M. intros [[-> _]|[[-> _]|(_ & _ & Ej)]]; eauto.
  - intros x id. rewrite H2. split.
    + intros (j & Ej & <-). destruct (decide (id = id1)) as [->|N1]; [exists (with_pos (Z.of_nat p2) i1); rewrite M; split; [auto|cbn; congruence]|].
      destruct (decide (id = id2)) as [->|N2]; [exists (with_pos (Z.of_nat p1) i2); rewrite M; split; [auto|cbn; congruence]|]. exists j. rewrite M. auto 8.
    + intros (j & Ej & <-). apply M in Ej as [[-> ->]|[[-> ->]|(_ & _ & Ej)]]; eauto.
  - intros k id. rewrite list_lookup_insert_Some, length_insert, list_lookup_insert_Some, H3. split.
    + intros [(-> & -> & _)|(Nk & [(-> & -> & _)|(Nk' & j & Ej & Hj)])]; [exists (with_pos (Z.of_nat k) i1)|exists (with_pos (Z.of_nat k) i2)|exists j]; rewrite M; cbn; auto 8.
      split; [|exact Hj]. right. right. split; [intros ->; rewrite F1 in Ej; injection Ej as <-; lia|]. split; [intros ->; rewrite F2 in Ej; injection Ej as <-; lia|exact Ej].
    + intros (j & Ej & Hj). apply M in Ej as [[-> ->]|[[-> ->]|(N1 & N2 & Ej)]]; cbn in Hj; [assert (k = p1) as -> by lia; right; split; [congruence|left; auto]|assert (k = p2) as -> by lia; left; auto|].
      right. split; [intros <-; apply N2|right; split; [intros <-; apply N1|eauto]].
      * assert (X : r !! p2 = Some id) by (apply H3; eauto). congruence.
      * assert (X : r !! p1 = Some id) by (apply H3; eauto). congruence.
  - intros id j. rewrite M. intros [[-> ->]|[[-> ->]|(_ & _ & Ej)]]; cbn; [lia|lia|eauto].
Qed.

(** The entry at the last position goes. *)
Lemma ix_delete n m a r id i : ix_ok n m a r -> m !! id = Some i -> nRandomPos i = Z.of_nat (length r) - 1 -> ix_ok n (delete id m) (delete (ai_service i) a) (removelast r).
Proof using.
  intros H Ei Hp. pose proof (ix_at _ _ _ _ _ _ H Ei) as At. destruct H as [H1 H2 H3 H4]. pose proof (lookup_lt_Some _ _ _ At) as Lt. replace (Z.to_nat (nRandomPos i)) with (length r - 1)%nat in At by lia.
  destruct r as [|x r _] using rev_ind; [cbn in Lt; lia|]. rewrite removelast_last. rewrite length_app in *. cbn [length] in *. assert (x = id) as ->.
  { rewrite lookup_app_r in At by lia. replace (length r + 1 - 1 - length r)%nat with 0%nat in At by lia. cbn in At. congruence. }
  assert (One : forall j k, m !! k = Some j -> ai_service j = ai_service i -> k = id).
  { intros j k Ej Hs. assert (X : a !! ai_service i = Some k) by (apply H2; eauto). assert (Y : a !! ai_service i = Some id) by (apply H2; eauto). congruence. }
  split.
  - intros k j [_ Ej]%lookup_delete_Some. eauto.
  - intros y k. rewrite lookup_delete_Some, H2. split.
    + intros [Hy (j & Ej & <-)]. exists j. rewrite lookup_delete_ne; [auto|]. intros <-. rewrite Ei in Ej. injection Ej as <-. contradiction.
    + intros (j & [Hk Ej]%lookup_delete_Some & <-). split; [intros Hs; apply Hk; symmetry; apply (One j k Ej); congruence|eauto].
  - intros k y. split.
    + intros Ek. assert (Hk : (k < length r)%nat) by exact (lookup_lt_Some _ _ _ Ek). assert (X : (r ++ [id]) !! k = Some y) by (rewrite lookup_app_l by exact Hk; exact Ek). apply H3 in X as (j & Ej & Hj).
      exists j. rewrite lookup_delete_ne; [auto|]. intros <-. rewrite Ei in Ej. injection Ej as <-. lia.
    + intros (j & [Hk Ej]%lookup_delete_Some & Hj). assert (X : (r ++ [id]) !! k = Some y) by (apply H3; eauto). apply lookup_app_Some in X as [X|[_ X]]; [exact X|].
      apply list_lookup_singleton_Some in X as [_ X]. congruence.
  - intros k j [_ Ej]%lookup_delete_Some. eauto.
Qed.

(** ** The tables *)

Definition cellv (t : cells) (b p : Z) : Z := default (-1) (t !! (b, p)).

Lemma cellv_insert t b p x b' p' : cellv (<[(b, p) := x]> t) b' p' = if decide ((b, p) = (b', p')) then x else cellv t b' p'.
Proof using. unfold cellv. destruct (decide ((b, p) = (b', p'))) as [Hq|Hq]; [rewrite <- Hq, lookup_insert_eq; reflexivity|rewrite lookup_insert_ne by exact Hq; reflexivity]. Qed.

Section Tables.
Context (key : uint256).

Definition tbucket (i : AddrInfo) : Z := GetTriedBucket key i.
Definition tpos (i : AddrInfo) : Z := GetBucketPosition key false (tbucket i) i.
Definition npos (i : AddrInfo) (b : Z) : Z := GetBucketPosition key true b i.

Lemma same_bucket i j : ai_service i = ai_service j -> tbucket i = tbucket j /\ tpos i = tpos j /\ npos i = npos j.
Proof using. unfold tpos, npos, tbucket, GetTriedBucket, GetBucketPosition. intros ->. auto. Qed.

(** How often an entry is in the new table. *)
Definition in_bucket (v : cells) (id : Z) (i : AddrInfo) (b : Z) : bool := cellv v b (npos i b) =? id.
Definition refs (v : cells) (id : Z) (i : AddrInfo) : Z := lcount (in_bucket v id i) (seqZ 0 ADDRMAN_NEW_BUCKET_COUNT).

Lemma refs_same v id i j : ai_service i = ai_service j -> refs v id i = refs v id j.
Proof using. intros H. unfold refs. apply lcount_ext. intros b _. unfold in_bucket. destruct (same_bucket i j H) as (_ & _ & ->). reflexivity. Qed.

Lemma refs_insert v b p x id i : 0 <= b < ADDRMAN_NEW_BUCKET_COUNT -> npos i b = p -> refs (<[(b, p) := x]> v) id i = refs v id i - one (cellv v b p =? id) + one (x =? id).
Proof using.
  intros Hb Hp. unfold refs. rewrite (lcount_switch (in_bucket v id i) (in_bucket (<[(b, p) := x]> v) id i) _ b); [|apply NoDup_seqZ|apply elem_of_seqZ; lia|].
  - unfold in_bucket. rewrite Hp, cellv_insert, decide_True by reflexivity. reflexivity.
  - intros c _ Hc. unfold in_bucket. rewrite cellv_insert, decide_False by congruence. reflexivity.
Qed.

Lemma refs_insert_elsewhere v b p x id i : npos i b <> p -> refs (<[(b, p) := x]> v) id i = refs v id i.
Proof using. intros Hp. unfold refs. apply lcount_ext. intros c _. unfold in_bucket. rewrite cellv_insert, decide_False by congruence. reflexivity. Qed.

Lemma refs_two v id i b b' : 0 <= b < ADDRMAN_NEW_BUCKET_COUNT -> 0 <= b' < ADDRMAN_NEW_BUCKET_COUNT -> b <> b' -> in_bucket v id i b = true -> in_bucket v id i b' = true -> 2 <= refs v id i.
Proof using.
  intros Hb Hb' Hne H1 H2. unfold refs. rewrite (lcount_switch (fun c => in_bucket v id i c && negb (c =? b))%bool _ _ b); [|apply NoDup_seqZ|apply elem_of_seqZ; lia|intros c _ Hcb; apply Z.eqb_neq in Hcb; rewrite Hcb, andb_true_r; reflexivity].
  rewrite (lcount_switch (fun c => in_bucket v id i c && negb (c =? b) && negb (c =? b'))%bool (fun c => in_bucket v id i c && negb (c =? b))%bool _ b'); [|apply NoDup_seqZ|apply elem_of_seqZ; lia|intros c _ Hcb; apply Z.eqb_neq in Hcb; rewrite Hcb, andb_true_r; reflexivity].
  rewrite H1, H2, !Z.eqb_refl, !andb_false_r, (proj2 (Z.eqb_neq b' b)) by congruence. cbn [one andb negb]. pose proof (lcount_nonneg (fun c => in_bucket v id i c && negb (c =? b) && negb (c =? b'))%bool (seqZ 0 ADDRMAN_NEW_BUCKET_COUNT)). lia.
Qed.

Record tb_ok (m : infos) (t v : cells) (L : gset Z) : Prop := {
  tb_tried b p : cellv t b p <> -1 -> exists i, m !! cellv t b p = Some i /\ fInTried i = true /\ tbucket i = b /\ tpos i = p;
  tb_placed id i : m !! id = Some i -> fInTried i = true -> cellv t (tbucket i) (tpos i) = id /\ nRefCount i = 0 /\ 0 < m_last_success i /\ id ∉ L;
  tb_new b p : cellv v b p <> -1 -> 0 <= b < ADDRMAN_NEW_BUCKET_COUNT /\ cellv v b p ∉ L /\ exists i, m !! cellv v b p = Some i /\ fInTried i = false /\ npos i b = p;
  tb_ref id i : m !! id = Some i -> fInTried i = false -> nRefCount i = refs v id i /\ nRefCount i <= ADDRMAN_NEW_BUCKETS_PER_ADDRESS /\ (id ∉ L -> 1 <= nRefCount i);
  tb_lim id : id ∈ L -> exists i, m !! id = Some i /\ fInTried i = false;
  tb_ids id i : m !! id = Some i -> 0 <= id;
}.

Lemma refs_zero m t v L id i : tb_ok m t v L -> id <> -1 -> id ∈ L \/ m !! id = None \/ (exists j, m !! id = Some j /\ fInTried j = true) -> refs v id i = 0.
Proof using.
  intros H Hid Hno. apply lcount_none. intros b _. apply not_true_iff_false. intros Hc%Z.eqb_eq. destruct (tb_new _ _ _ _ H b (npos i b)) as (_ & HL & j & Ej & Hj & _); [congruence|]. rewrite Hc in *.
  destruct Hno as [?|[?|(k & Ek & Hk)]]; [contradiction|congruence|]. congruence.
Qed.

(** Entries change in what the tables do not depend on. *)
Lemma tb_update m t v L id i i' : tb_ok m t v L -> m !! id = Some i -> ai_service i' = ai_service i -> fInTried i' = fInTried i -> nRefCount i' = nRefCount i ->
  (fInTried i = true -> 0 < m_last_success i') -> tb_ok (<[id := i']> m) t v L.
Proof using.
  intros [A B C D F G] Ei Es Et Er Hs. destruct (same_bucket i' i Es) as (P1 & P2 & P3).
  assert (X : forall k (f : AddrInfo -> Prop), (f i -> f i') -> (exists j, m !! k = Some j /\ f j) -> exists j, <[id := i']> m !! k = Some j /\ f j).
  { intros k f Hf (j & Ej & Hj). destruct (decide (id = k)) as [<-|Hne]; [exists i'; rewrite lookup_insert_eq; split; [reflexivity|]; rewrite Ei in Ej; injection Ej as <-; auto|]. exists j. rewrite lookup_insert_ne by exact Hne. auto. }
  split.
  - intros b p Hc. apply X; [rewrite Et, P1, P2; auto|]. exact (A b p Hc).
  - intros k j Ej Hj. apply lookup_insert_Some in Ej as [[<- <-]|[_ Ej]]; [|exact (B k j Ej Hj)]. rewrite P1, P2, Er. rewrite Et in Hj. destruct (B id i Ei Hj) as (B1 & B2 & _ & B4). auto.
  - intros b p Hc. destruct (C b p Hc) as (C1 & C2 & C3). split; [exact C1|]. split; [exact C2|]. revert C3. apply X. rewrite Et, P3. auto.
  - intros k j Ej Hj. apply lookup_insert_Some in Ej as [[<- <-]|[_ Ej]]; [|exact (D k j Ej Hj)]. rewrite (refs_same _ _ i' i Es), Er. apply (D id i Ei). congruence.
  - intros k Hk. apply X; [congruence|]. exact (F k Hk).
  - intros k j Ej. apply lookup_insert_Some in Ej as [[<- _]|[_ Ej]]; eauto.
Qed.

(** A reference from the new table goes. *)
Lemma tb_unlink m t v L b p id i : tb_ok m t v L -> id <> -1 -> cellv v b p = id -> m !! id = Some i ->
  tb_ok (<[id := with_ref (nRefCount i - 1) i]> m) t (<[(b, p) := -1]> v) (if nRefCount i - 1 =? 0 then {[ id ]} ∪ L else L) /\ 1 <= nRefCount i.
Proof using.
  intros H Hid Hc Ei. pose proof H as [A B C D F G]. destruct (C b p ltac:(congruence)) as (Hb & HL & j & Ej & Hj & Hp). rewrite Hc in *. rewrite Ei in Ej. injection Ej as <-. destruct (D id i Ei Hj) as (D1 & D2 & D3). specialize (D3 HL).
  split; [|exact D3]. set (i' := with_ref (nRefCount i - 1) i). set (m' := <[id := i']> m). set (L' := if nRefCount i - 1 =? 0 then {[ id ]} ∪ L else L).
  assert (HL' : forall k, k <> id -> k ∈ L' <-> k ∈ L) by (intros k Hk; unfold L'; destruct (_ =? 0); [rewrite elem_of_union, elem_of_singleton; tauto|reflexivity]).
  assert (Hid' : id ∈ L' <-> nRefCount i = 1) by (unfold L'; destruct (Z.eqb_spec (nRefCount i - 1) 0); [rewrite elem_of_union, elem_of_singleton; split; [lia|auto]|split; [tauto|lia]]).
  assert (Refs : forall k j, k <> -1 -> refs (<[(b, p) := -1]> v) k j = refs v k j - one ((id =? k) && (npos j b =? p))%bool).
  { intros k j Hk. destruct (Z.eqb_spec (npos j b) p) as [Hq|Hq]; [|rewrite refs_insert_elsewhere by exact Hq; rewrite andb_false_r; cbn; lia].
    rewrite (refs_insert v b p (-1) k j Hb Hq), Hc. replace (-1 =? k) with false by (symmetry; apply Z.eqb_neq; congruence). rewrite andb_true_r. cbn. lia. }
  split.
  - intros b' p' Hc'. destruct (A b' p' Hc') as (k & Ek & Hk & Hk1 & Hk2). exists k. unfold m'. rewrite lookup_insert_ne; [auto|]. intros E'. rewrite <- E', Ei in Ek. injection Ek as <-. congruence.
  - intros k j Ek Hk. apply lookup_insert_Some in Ek as [[<- <-]|[Hne Ek]]; [cbn in Hk; congruence|]. destruct (B k j Ek Hk) as (B1 & B2 & B3 & B4). rewrite HL' by congruence. auto.
  - intros b' p'. rewrite cellv_insert. destruct (decide ((b, p) = (b', p'))) as [Hq|Hq]; [congruence|]. intros Hc'. destruct (C b' p' Hc') as (C1 & C2 & k & Ek & Hk & Hp'). split; [exact C1|].
    destruct (decide (cellv v b' p' = id)) as [Hi|Hi].
    + rewrite Hi in *. rewrite Ei in Ek. injection Ek as <-. split; [|exists i'; unfold m'; rewrite lookup_insert_eq; auto]. rewrite Hid'. intros H1. rewrite D1 in H1. unfold refs in H1.
      assert (Hb' : b <> b') by (intros ->; congruence). pose proof (refs_two v id i b b' Hb C1 Hb') as H2. unfold in_bucket in H2. rewrite Hp, Hp', Hc, Hi, Z.eqb_refl in H2. unfold refs in H2. specialize (H2 eq_refl eq_refl). lia.
    + rewrite HL' by exact Hi. split; [exact C2|]. exists k. unfold m'. rewrite lookup_insert_ne by congruence. auto.
  - intros k j Ek Hk. apply lookup_insert_Some in Ek as [[<- <-]|[Hne Ek]].
    + rewrite (refs_same _ _ i' i eq_refl), Refs by exact Hid. rewrite Z.eqb_refl, Hp, Z.eqb_refl. cbn. split; [lia|]. split; [lia|]. intros Hn. rewrite Hid' in Hn. lia.
    + pose proof (G k j Ek). destruct (D k j Ek Hk) as (E1 & E2 & E3). rewrite Refs by lia. rewrite (proj2 (Z.eqb_neq id k) Hne). cbn. rewrite HL' by congruence. split; [lia|auto].
  - intros k Hk. destruct (decide (k = id)) as [->|Hne]; [exists i'; unfold m'; rewrite lookup_insert_eq; auto|]. apply HL' in Hk; [|exact Hne]. destruct (F k Hk) as (j & Ek & Hj'). exists j. unfold m'. rewrite lookup_insert_ne by congruence. auto.
  - intros k j Ek. apply lookup_insert_Some in Ek as [[<- _]|[_ Ek]]; eauto.
Qed.

(** A reference from the new table is added. *)
Lemma tb_link m t v L b id i : tb_ok m t v L -> m !! id = Some i -> fInTried i = false -> nRefCount i < ADDRMAN_NEW_BUCKETS_PER_ADDRESS -> 0 <= b < ADDRMAN_NEW_BUCKET_COUNT -> cellv v b (npos i b) = -1 ->
  tb_ok (<[id := with_ref (nRefCount i + 1) i]> m) t (<[(b, npos i b) := id]> v) (L ∖ {[ id ]}).
Proof using.
  intros H Ei Hi Hlt Hb Hc. pose proof H as [A B C D F G]. set (p := npos i b) in *. set (i' := with_ref (nRefCount i + 1) i). pose proof (G id i Ei) as Hid. destruct (D id i Ei Hi) as (D1 & D2 & D3).
  assert (Refs : forall k j, k <> -1 -> refs (<[(b, p) := id]> v) k j = refs v k j + one ((id =? k) && (npos j b =? p))%bool).
  { intros k j Hk. destruct (Z.eqb_spec (npos j b) p) as [Hq|Hq]; [|rewrite refs_insert_elsewhere by exact Hq; rewrite andb_false_r; cbn; lia].
    rewrite (refs_insert v b p id k j Hb Hq), Hc. replace (-1 =? k) with false by (symmetry; apply Z.eqb_neq; congruence). rewrite andb_true_r. cbn [one]. lia. }
  split.
  - intros b' p' Hc'. destruct (A b' p' Hc') as (k & Ek & Hk & Hk1 & Hk2). exists k. rewrite lookup_insert_ne; [auto|]. intros E'. rewrite <- E', Ei in Ek. injection Ek as <-. congruence.
  - intros k j Ek Hk. apply lookup_insert_Some in Ek as [[<- <-]|[Hne Ek]]; [cbn in Hk; congruence|]. destruct (B k j Ek Hk) as (B1 & B2 & B3 & B4). split; [exact B1|]. split; [exact B2|]. split; [exact B3|set_solver].
  - intros b' p'. rewrite cellv_insert. destruct (decide ((b, p) = (b', p'))) as [Hq|Hq]; intros Hc'.
    + injection Hq as <- <-. split; [exact Hb|]. split; [set_solver|]. exists i'. rewrite lookup_insert_eq. auto.
    + destruct (C b' p' Hc') as (C1 & C2 & k & Ek & Hk & Hp'). split; [exact C1|]. split; [set_solver|]. destruct (decide (id = cellv v b' p')) as [Hq'|Hq']; [exists i'; rewrite Hq', lookup_insert_eq; split; [reflexivity|]|exists k; rewrite lookup_insert_ne by exact Hq'; auto].
      rewrite <- Hq', Ei in Ek. injection Ek as <-. split; [exact Hi|exact Hp'].
  - intros k j Ek Hk. apply lookup_insert_Some in Ek as [[<- <-]|[Hne Ek]].
    + rewrite (refs_same _ _ i' i eq_refl), Refs by lia. rewrite Z.eqb_refl, Z.eqb_refl. cbn. pose proof (lcount_nonneg (in_bucket v id i) (seqZ 0 ADDRMAN_NEW_BUCKET_COUNT)). unfold refs in *. split; [lia|]. split; [lia|]. intros _. lia.
    + pose proof (G k j Ek). destruct (D k j Ek Hk) as (E1 & E2 & E3). rewrite Refs by lia. rewrite (proj2 (Z.eqb_neq id k) Hne). cbn. split; [lia|]. split; [exact E2|]. intros Hn. apply E3. set_solver.
  - intros k [Hk Hne]%elem_of_difference. destruct (F k Hk) as (j & Ek & Hj'). exists j. rewrite lookup_insert_ne by set_solver. auto.
  - intros k j Ek. apply lookup_insert_Some in Ek as [[<- _]|[_ Ek]]; eauto.
Qed.

(** An entry leaves the tried table. *)
Lemma tb_untry m t v L id i : tb_ok m t v L -> m !! id = Some i -> fInTried i = true -> tb_ok (<[id := with_tried false i]> m) (<[(tbucket i, tpos i) := -1]> t) v ({[ id ]} ∪ L).
Proof using.
  intros H Ei Hi. pose proof H as [A B C D F G]. set (i' := with_tried false i). pose proof (G id i Ei) as Hid. destruct (B id i Ei Hi) as (B1 & B2 & B3 & B4). split.
  - intros b p. rewrite cellv_insert. destruct (decide ((tbucket i, tpos i) = (b, p))) as [Hq|Hq]; [congruence|]. intros Hc. destruct (A b p Hc) as (k & Ek & Hk & <- & <-). exists k. rewrite lookup_insert_ne; [auto|].
    intros E'. rewrite <- E', Ei in Ek. injection Ek as <-. congruence.
  - intros k j Ek Hk. apply lookup_insert_Some in Ek as [[<- <-]|[Hne Ek]]; [discriminate|]. destruct (B k j Ek Hk) as (C1 & C2 & C3 & C4). split; [|split; [exact C2|split; [exact C3|set_solver]]].
    rewrite cellv_insert, decide_False; [exact C1|]. intros Hq. injection Hq as Hq1 Hq2. rewrite <- Hq1, <- Hq2 in C1. congruence.
  - intros b p Hc. destruct (C b p Hc) as (C1 & C2 & k & Ek & Hk & Hp). assert (Hne : id <> cellv v b p) by (intros E'; rewrite <- E', Ei in Ek; injection Ek as <-; congruence).
    split; [exact C1|]. split; [set_solver|]. exists k. rewrite lookup_insert_ne by exact Hne. auto.
  - intros k j Ek Hk. apply lookup_insert_Some in Ek as [[<- <-]|[Hne Ek]].
    + rewrite (refs_same _ _ i' i eq_refl), (refs_zero m t v L id i H) by (try lia; eauto). cbn. rewrite B2. split; [reflexivity|]. split; [discriminate|set_solver].
    + destruct (D k j Ek Hk) as (E1 & E2 & E3). split; [exact E1|]. split; [exact E2|]. intros Hn. apply E3. set_solver.
  - intros k Hk. apply elem_of_union in Hk as [->%elem_of_singleton|Hk]; [exists i'; rewrite lookup_insert_eq; auto|]. destruct (F k Hk) as (j & Ek & Hj). exists j. rewrite lookup_insert_ne; [auto|]. intros <-. rewrite Ei in Ek. injection Ek as <-. congruence.
  - intros k j Ek. apply lookup_insert_Some in Ek as [[<- _]|[_ Ek]]; eauto.
Qed.

(** An entry enters the tried table. *)
Lemma tb_try m t v L id i : tb_ok m t v L -> m !! id = Some i -> id ∈ L -> 0 < m_last_success i -> cellv t (tbucket i) (tpos i) = -1 ->
  tb_ok (<[id := with_tried true i]> m) (<[(tbucket i, tpos i) := id]> t) v (L ∖ {[ id ]}).
Proof using.
  intros H Ei HL Hs Hc. pose proof H as [A B C D F G]. set (i' := with_tried true i). pose proof (G id i Ei) as Hid. destruct (F id HL) as (i0 & Ei0 & Hi). rewrite Ei in Ei0. injection Ei0 as <-. destruct (D id i Ei Hi) as (D1 & _ & _).
  rewrite (refs_zero m t v L id i H) in D1 by (auto; lia). split.
  - intros b p. rewrite cellv_insert. destruct (decide ((tbucket i, tpos i) = (b, p))) as [Hq|Hq]; intros Hc'.
    + injection Hq as <- <-. exists i'. rewrite lookup_insert_eq. auto.
    + destruct (A b p Hc') as (k & Ek & Hk & <- & <-). exists k. rewrite lookup_insert_ne; [auto|]. intros E'. rewrite <- E', Ei in Ek. injection Ek as <-. congruence.
  - intros k j Ek Hk. apply lookup_insert_Some in Ek as [[<- <-]|[Hne Ek]].
    + split; [rewrite cellv_insert, decide_True by reflexivity; reflexivity|]. split; [exact D1|]. split; [exact Hs|set_solver].
    + destruct (B k j Ek Hk) as (C1 & C2 & C3 & C4). split; [|split; [exact C2|split; [exact C3|set_solver]]]. rewrite cellv_insert, decide_False; [exact C1|]. intros Hq. injection Hq as Hq1 Hq2. rewrite <- Hq1, <- Hq2, Hc in C1. pose proof (G k j Ek). lia.
  - intros b p Hc'. destruct (C b p Hc') as (C1 & C2 & k & Ek & Hk & Hp). assert (Hne : id <> cellv v b p) by (intros E'; rewrite <- E' in C2; contradiction).
    split; [exact C1|]. split; [set_solver|]. exists k. rewrite lookup_insert_ne by exact Hne. auto.
  - intros k j Ek Hk. apply lookup_insert_Some in Ek as [[<- <-]|[Hne Ek]]; [discriminate|]. destruct (D k j Ek Hk) as (E1 & E2 & E3). split; [exact E1|]. split; [exact E2|]. intros Hn. apply E3. set_solver.
  - intros k [Hk Hne]%elem_of_difference. destruct (F k Hk) as (j & Ek & Hj). exists j. rewrite lookup_insert_ne by set_solver. auto.
  - intros k j Ek. apply lookup_insert_Some in Ek as [[<- _]|[_ Ek]]; eauto.
Qed.

(** An entry in neither table goes, or is made. *)
Lemma tb_delete m t v L id : tb_ok m t v L -> id ∈ L -> tb_ok (delete id m) t v (L ∖ {[ id ]}).
Proof using.
  intros H HL. pose proof H as [A B C D F G]. destruct (F id HL) as (i & Ei & Hi). split.
  - intros b p Hc. destruct (A b p Hc) as (k & Ek & Hk & Hk1 & Hk2). exists k. rewrite lookup_delete_ne; [auto|]. intros E'. rewrite <- E', Ei in Ek. injection Ek as <-. congruence.
  - intros k j [Hne Ek]%lookup_delete_Some Hk. destruct (B k j Ek Hk) as (C1 & C2 & C3 & C4). split; [exact C1|split; [exact C2|split; [exact C3|set_solver]]].
  - intros b p Hc. destruct (C b p Hc) as (C1 & C2 & k & Ek & Hk & Hp). split; [exact C1|]. split; [set_solver|]. exists k. rewrite lookup_delete_ne; [auto|]. intros E'. rewrite <- E' in C2. contradiction.
  - intros k j [Hne Ek]%lookup_delete_Some Hk. destruct (D k j Ek Hk) as (E1 & E2 & E3). split; [exact E1|]. split; [exact E2|]. intros Hn. apply E3. set_solver.
  - intros k [Hk Hne]%elem_of_difference. destruct (F k Hk) as (j & Ek & Hj). exists j. rewrite lookup_delete_ne by set_solver. auto.
  - intros k j [_ Ek]%lookup_delete_Some. eauto.
Qed.

Lemma tb_create m t v L id i : tb_ok m t v L -> m !! id = None -> 0 <= id -> fInTried i = false -> nRefCount i = 0 -> tb_ok (<[id := i]> m) t v ({[ id ]} ∪ L).
Proof using.
  intros H Hn Hid Hi Hr. pose proof H as [A B C D F G]. split.
  - intros b p Hc. destruct (A b p Hc) as (k & Ek & Hk & Hk1 & Hk2). exists k. rewrite lookup_insert_ne by congruence. auto.
  - intros k j Ek Hk. apply lookup_insert_Some in Ek as [[<- <-]|[Hne Ek]]; [congruence|]. destruct (B k j Ek Hk) as (C1 & C2 & C3 & C4). split; [exact C1|split; [exact C2|split; [exact C3|set_solver]]].
  - intros b p Hc. destruct (C b p Hc) as (C1 & C2 & k & Ek & Hk & Hp). assert (Hne : id <> cellv v b p) by congruence. split; [exact C1|]. split; [set_solver|]. exists k. rewrite lookup_insert_ne by exact Hne. auto.
  - intros k j Ek Hk. apply lookup_insert_Some in Ek as [[<- <-]|[Hne Ek]].
    + rewrite (refs_zero m t v L id i H) by (auto; lia). split; [exact Hr|]. rewrite Hr. split; [discriminate|set_solver].
    + destruct (D k j Ek Hk) as (E1 & E2 & E3). split; [exact E1|]. split; [exact E2|]. intros Hn'. apply E3. set_solver.
  - intros k Hk. apply elem_of_union in Hk as [->%elem_of_singleton|Hk]; [exists i; rewrite lookup_insert_eq; auto|]. destruct (F k Hk) as (j & Ek & Hj). exists j. rewrite lookup_insert_ne by congruence. auto.
  - intros k j Ek. apply lookup_insert_Some in Ek as [[<- _]|[_ Ek]]; eauto.
Qed.
End Tables.

(** ** The counters *)

(** Of the network, or of any. *)
Definition here (net : option Network) (x : Network) : bool := match net with None => true | Some n => bool_decide (x = n) end.
Definition is_tried (net : option Network) (id : Z) (i : AddrInfo) : bool := (fInTried i && here net (info_network i))%bool.
Definition is_new (U : gset Z) (net : option Network) (id : Z) (i : AddrInfo) : bool := (negb (fInTried i) && negb (bool_decide (id ∈ U)) && here net (info_network i))%bool.

Record ct_ok (m : infos) (nt nn : Z) (c : gmap Network NewTriedCount) (U : gset Z) : Prop := {
  ct_nt : nt = mcnt (is_tried None) m;
  ct_nn : nn = mcnt (is_new U None) m;
  ct_net net : default no_count (c !! net) = {| n_new := mcnt (is_new U (Some net)) m; n_tried := mcnt (is_tried (Some net)) m |};
  ct_lim id : id ∈ U -> exists i, m !! id = Some i /\ fInTried i = false;
  ct_small : Z.of_nat (size m) < 2 ^ 31;
}.

(** The counters of one network move. *)
Definition bumped (N : Network) (dn dt : Z) (c c' : gmap Network NewTriedCount) : Prop := forall net, default no_count (c' !! net) =
  let x := default no_count (c !! net) in if decide (net = N) then {| n_new := u64 (n_new x + dn); n_tried := u64 (n_tried x + dt) |} else x.

Lemma ct_step m nt nn c U m' c' U' N dn dt : ct_ok m nt nn c U -> bumped N dn dt c c' ->
  (forall net, mcnt (is_new U' net) m' = mcnt (is_new U net) m + dn * one (here net N)) -> (forall net, mcnt (is_tried net) m' = mcnt (is_tried net) m + dt * one (here net N)) ->
  (forall id, id ∈ U' -> exists i, m' !! id = Some i /\ fInTried i = false) -> Z.of_nat (size m') < 2 ^ 31 -> ct_ok m' (nt + dt) (nn + dn) c' U'.
Proof using.
  intros [A B C D F] Hb Hn Ht Hl Hs. split; [rewrite (Ht None), A; cbn; lia|rewrite (Hn None), B; cbn; lia| |exact Hl|exact Hs].
  intros net. rewrite Hb, C. cbn [n_new n_tried]. pose proof (mcnt_range (is_new U' (Some net)) m') as R1. pose proof (mcnt_range (is_tried (Some net)) m') as R2. rewrite (Hn (Some net)), (Ht (Some net)) in *. cbn [here] in *.
  destruct (decide (net = N)) as [->|Hne]; [rewrite bool_decide_eq_true_2 in * by reflexivity; cbn [one] in *; rewrite !uwrap_small by (unfold in_u; lia); f_equal; lia|].
  rewrite bool_decide_eq_false_2 by congruence. cbn. f_equal; lia.
Qed.

Lemma ct_update m nt nn c U id i i' : ct_ok m nt nn c U -> m !! id = Some i -> ai_service i' = ai_service i -> fInTried i' = fInTried i -> ct_ok (<[id := i']> m) nt nn c U.
Proof using.
  intros [A B C D F] Ei Es Et. assert (Hn : forall net, mcnt (is_new U net) (<[id := i']> m) = mcnt (is_new U net) m) by (intros net; rewrite (mcnt_update _ _ _ _ i' Ei); unfold is_new, info_network; rewrite Es, Et; lia).
  assert (Ht : forall net, mcnt (is_tried net) (<[id := i']> m) = mcnt (is_tried net) m) by (intros net; rewrite (mcnt_update _ _ _ _ i' Ei); unfold is_tried, info_network; rewrite Es, Et; lia).
  split; rewrite ?Hn, ?Ht; try assumption.
  - intros net. rewrite Hn, Ht. apply C.
  - intros k Hk. destruct (D k Hk) as (j & Ej & Hj). destruct (decide (id = k)) as [<-|Hne]; [exists i'; rewrite lookup_insert_eq; split; [reflexivity|congruence]|exists j; rewrite lookup_insert_ne by exact Hne; auto].
  - rewrite map_size_insert_Some by eauto. exact F.
Qed.

Section Moves.
Context (m : infos) (nt nn : Z) (c c' : gmap Network NewTriedCount) (U : gset Z) (H : ct_ok m nt nn c U) (id : Z) (i : AddrInfo).

Lemma ct_create : m !! id = None -> fInTried i = false -> Z.of_nat (size m) + 1 < 2 ^ 31 -> bumped (info_network i) 1 0 c c' -> ct_ok (<[id := i]> m) nt (nn + 1) c' U.
Proof using H.
  intros Hn Hi Hs Hb. assert (HU : id ∉ U) by (intros Hin; destruct (ct_lim _ _ _ _ _ H id Hin) as (j & Ej & _); congruence). replace nt with (nt + 0) by lia. apply (ct_step m nt nn c U _ c' U (info_network i) 1 0 H Hb).
  - intros net. rewrite mcnt_fresh by exact Hn. unfold is_new at 2. rewrite Hi, bool_decide_eq_false_2 by exact HU. cbn. lia.
  - intros net. rewrite mcnt_fresh by exact Hn. unfold is_tried at 2. rewrite Hi. cbn. lia.
  - intros k Hk. destruct (ct_lim _ _ _ _ _ H k Hk) as (j & Ej & Hj). exists j. rewrite lookup_insert_ne by congruence. auto.
  - rewrite map_size_insert_None by exact Hn. lia.
Qed.

Lemma ct_delete : m !! id = Some i -> fInTried i = false -> id ∉ U -> bumped (info_network i) (-1) 0 c c' -> ct_ok (delete id m) nt (nn - 1) c' U.
Proof using H.
  intros Ei Hi HU Hb. replace nt with (nt + 0) by lia. apply (ct_step m nt nn c U _ c' U (info_network i) (-1) 0 H Hb).
  - intros net. rewrite (mcnt_delete _ _ _ _ Ei). unfold is_new at 2. rewrite Hi, bool_decide_eq_false_2 by exact HU. cbn [negb andb]. lia.
  - intros net. rewrite (mcnt_delete _ _ _ _ Ei). unfold is_tried at 2. rewrite Hi. cbn. lia.
  - intros k Hk. destruct (ct_lim _ _ _ _ _ H k Hk) as (j & Ej & Hj). exists j. rewrite lookup_delete_ne by congruence. auto.
  - pose proof (ct_small _ _ _ _ _ H). rewrite map_size_delete_Some by eauto. lia.
Qed.

Lemma ct_uncount : m !! id = Some i -> fInTried i = false -> id ∉ U -> bumped (info_network i) (-1) 0 c c' -> ct_ok m nt (nn - 1) c' ({[ id ]} ∪ U).
Proof using H.
  intros Ei Hi HU Hb. replace nt with (nt + 0) by lia. apply (ct_step m nt nn c U _ c' _ (info_network i) (-1) 0 H Hb).
  - intros net. rewrite (mcnt_switch (is_new U net) (is_new ({[ id ]} ∪ U) net) m id i Ei).
    + unfold is_new at 2 3. rewrite Hi, bool_decide_eq_false_2, bool_decide_eq_true_2 by set_solver. cbn [negb andb one]. lia.
    + intros k j Hk _. unfold is_new. rewrite (bool_decide_ext (k ∈ {[ id ]} ∪ U) (k ∈ U)) by set_solver. reflexivity.
  - intros net. lia.
  - intros k [->%elem_of_singleton|Hk]%elem_of_union; [eauto|exact (ct_lim _ _ _ _ _ H k Hk)].
  - exact (ct_small _ _ _ _ _ H).
Qed.

Lemma ct_count : m !! id = Some i -> id ∈ U -> bumped (info_network i) 1 0 c c' -> ct_ok m nt (nn + 1) c' (U ∖ {[ id ]}).
Proof using H.
  intros Ei HU Hb. destruct (ct_lim _ _ _ _ _ H id HU) as (i0 & Ei0 & Hi). rewrite Ei in Ei0. injection Ei0 as <-. replace nt with (nt + 0) by lia. apply (ct_step m nt nn c U _ c' _ (info_network i) 1 0 H Hb).
  - intros net. rewrite (mcnt_switch (is_new U net) (is_new (U ∖ {[ id ]}) net) m id i Ei).
    + unfold is_new at 2 3. rewrite Hi, bool_decide_eq_true_2, bool_decide_eq_false_2 by set_solver. cbn [negb andb one]. lia.
    + intros k j Hk _. unfold is_new. rewrite (bool_decide_ext (k ∈ U ∖ {[ id ]}) (k ∈ U)) by set_solver. reflexivity.
  - intros net. lia.
  - intros k [Hk _]%elem_of_difference. exact (ct_lim _ _ _ _ _ H k Hk).
  - exact (ct_small _ _ _ _ _ H).
Qed.

Lemma ct_untry : m !! id = Some i -> fInTried i = true -> bumped (info_network i) 0 (-1) c c' -> ct_ok (<[id := with_tried false i]> m) (nt - 1) nn c' ({[ id ]} ∪ U).
Proof using H.
  intros Ei Hi Hb. assert (HU : id ∉ U) by (intros Hin; destruct (ct_lim _ _ _ _ _ H id Hin) as (j & Ej & Hj); congruence). replace nn with (nn + 0) by lia. apply (ct_step m nt nn c U _ c' _ (info_network i) 0 (-1) H Hb).
  - intros net. rewrite (mcnt_update _ _ _ _ (with_tried false i) Ei), (mcnt_switch (is_new U net) (is_new ({[ id ]} ∪ U) net) m id i Ei).
    + unfold is_new at 2 3 4 5. cbn [fInTried with_tried]. rewrite Hi, (bool_decide_eq_true_2 (id ∈ {[ id ]} ∪ U)) by set_solver. cbn [negb andb one]. lia.
    + intros k j Hk _. unfold is_new. rewrite (bool_decide_ext (k ∈ {[ id ]} ∪ U) (k ∈ U)) by set_solver. reflexivity.
  - intros net. rewrite (mcnt_update _ _ _ _ (with_tried false i) Ei). unfold is_tried at 2 3. cbn [fInTried with_tried]. rewrite Hi. cbn [andb one]. lia.
  - intros k [->%elem_of_singleton|Hk]%elem_of_union; [exists (with_tried false i); rewrite lookup_insert_eq; auto|]. destruct (ct_lim _ _ _ _ _ H k Hk) as (j & Ej & Hj). exists j. rewrite lookup_insert_ne by congruence. auto.
  - rewrite map_size_insert_Some by eauto. exact (ct_small _ _ _ _ _ H).
Qed.

Lemma ct_try : m !! id = Some i -> id ∈ U -> bumped (info_network i) 0 1 c c' -> ct_ok (<[id := with_tried true i]> m) (nt + 1) nn c' (U ∖ {[ id ]}).
Proof using H.
  intros Ei HU Hb. destruct (ct_lim _ _ _ _ _ H id HU) as (i0 & Ei0 & Hi). rewrite Ei in Ei0. injection Ei0 as <-. replace nn with (nn + 0) by lia. apply (ct_step m nt nn c U _ c' _ (info_network i) 0 1 H Hb).
  - intros net. rewrite (mcnt_update _ _ _ _ (with_tried true i) Ei), (mcnt_switch (is_new U net) (is_new (U ∖ {[ id ]}) net) m id i Ei).
    + unfold is_new at 2 3 4 5. cbn [fInTried with_tried]. rewrite Hi, (bool_decide_eq_false_2 (id ∈ U ∖ {[ id ]})), (bool_decide_eq_true_2 (id ∈ U)) by set_solver. cbn [negb andb one]. lia.
    + intros k j Hk _. unfold is_new. rewrite (bool_decide_ext (k ∈ U ∖ {[ id ]}) (k ∈ U)) by set_solver. reflexivity.
  - intros net. rewrite (mcnt_update _ _ _ _ (with_tried true i) Ei). unfold is_tried at 2 3. cbn [fInTried with_tried]. rewrite Hi. cbn [andb one]. change (info_network (with_tried true i)) with (info_network i). lia.
  - intros k [Hk Hne]%elem_of_difference. destruct (ct_lim _ _ _ _ _ H k Hk) as (j & Ej & Hj). exists j. rewrite lookup_insert_ne by set_solver. auto.
  - rewrite map_size_insert_Some by eauto. exact (ct_small _ _ _ _ _ H).
Qed.
End Moves.
End Invariant.

(** * The steps of the address manager

    [SwapRandom], [Delete], [ClearNew], [Create] and [MakeTried] return and
    keep the invariant of the tables; what they leave as it was. *)

Section Steps.
Context {E : AddrEnv}.

Record am_ok (L U : gset Z) (s : AddrMan) : Prop := {
  ok_ix : ix_ok (nIdCount s) (mapInfo s) (mapAddr s) (vRandom s);
  ok_tb : tb_ok (nKey s) (mapInfo s) (vvTried s) (vvNew s) L;
  ok_ct : ct_ok (mapInfo s) (nTried s) (nNew s) (m_network_counts s) U;
  ok_sub : U ⊆ L;
  ok_times id i : mapInfo s !! id = Some i -> 0 <= m_last_try i /\ 0 <= m_last_success i;
  ok_count : 0 <= nIdCount s < 2 ^ 31;
}.

(** Entries are what they were but for their positions. *)
Definition up_to_pos (i j : AddrInfo) : Prop := exists q, j = with_pos q i.

Lemma up_to_pos_refl i : up_to_pos i i.
Proof using. exists (nRandomPos i). destruct i. reflexivity. Qed.
Lemma up_to_pos_trans i j k : up_to_pos i j -> up_to_pos j k -> up_to_pos i k.
Proof using. intros [p ->] [q ->]. exists q. reflexivity. Qed.

(** What the steps leave alone. *)
Record framed (s s' : AddrMan) : Prop := {
  fr_key : nKey s' = nKey s;
  fr_ids : nIdCount s' = nIdCount s;
  fr_tried : vvTried s' = vvTried s;
  fr_good : m_last_good s' = m_last_good s;
  fr_coll : m_tried_collisions s' = m_tried_collisions s;
}.

Lemma framed_refl s : framed s s.
Proof using. split; reflexivity. Qed.
Lemma framed_trans s1 s2 s3 : framed s1 s2 -> framed s2 s3 -> framed s1 s3.
Proof using. intros [A1 A2 A3 A4 A5] [B1 B2 B3 B4 B5]. split; congruence. Qed.

(** The entries of [s'] come from [s], and all but those in [D] are still there. *)
Record descends (D : Z -> Prop) (s s' : AddrMan) : Prop := {
  de_from k i' : mapInfo s' !! k = Some i' -> exists i, mapInfo s !! k = Some i /\ ai_service i' = ai_service i;
  de_kept k i : ~ D k -> mapInfo s !! k = Some i -> exists i', mapInfo s' !! k = Some i' /\ up_to_pos i i';
}.

Lemma descends_refl D s : descends D s s.
Proof using. split; [eauto|]. intros k i _ Ei. exists i. split; [exact Ei|apply up_to_pos_refl]. Qed.
Lemma descends_trans (D1 D2 D : Z -> Prop) s1 s2 s3 : descends D1 s1 s2 -> descends D2 s2 s3 -> (forall k, ~ D k -> ~ D1 k /\ ~ D2 k) -> descends D s1 s3.
Proof using.
  intros [A1 B1] [A2 B2] HD. split.
  - intros k i'' E3. destruct (A2 k i'' E3) as (i' & E2 & H2). destruct (A1 k i' E2) as (i & E1 & H1). exists i. split; [exact E1|congruence].
  - intros k i HDk E1. destruct (HD k HDk) as [H1 H2]. destruct (B1 k i H1 E1) as (i' & E2 & U1). destruct (B2 k i' H2 E2) as (i'' & E3 & U2). exists i''. split; [exact E3|exact (up_to_pos_trans _ _ _ U1 U2)].
Qed.

Lemma cell_cellv tried (s : AddrMan) b p : cell tried s b p = cellv (table tried s) b p.
Proof using. reflexivity. Qed.

Lemma info_ref_ok s id i : mapInfo s !! id = Some i -> info_ref id s = (Ok i, s).
Proof using. intros Ei. unfold info_ref, mbind, stm_bind, get_st, lift_st. rewrite Ei. reflexivity. Qed.
Lemma change_info_ok s id i f : mapInfo s !! id = Some i -> change_info id f s = (Ok tt, set_info <[id := f i]> s).
Proof using. intros Ei. unfold change_info. rewrite (bind_ok _ _ _ _ _ (info_ref_ok s id i Ei)). reflexivity. Qed.
Lemma info_index_ok s id i : mapInfo s !! id = Some i -> info_index id s = (Ok i, s).
Proof using. intros Ei. unfold info_index, mbind, stm_bind, get_st. rewrite Ei. reflexivity. Qed.
Lemma read_cell_ok tried s b p : in_table tried b p = true -> read_cell tried b p s = (Ok (cell tried s b p), s).
Proof using. intros H. unfold read_cell, mbind, stm_bind, get_st. rewrite H. reflexivity. Qed.
Lemma write_cell_ok tried s b p id : in_table tried b p = true -> write_cell tried b p id s = (Ok tt, set_table tried <[(b, p) := id]> s).
Proof using. intros H. unfold write_cell. rewrite H. reflexivity. Qed.
Lemma assert_st_ok {S} (b : bool) (s : S) : b = true -> lift_st (assert_ b) s = (Ok tt, s).
Proof using. intros ->. reflexivity. Qed.

Lemma count_new_bumped m nt nn c U N d : ct_ok m nt nn c U -> bumped N d 0 c (let x := default no_count (c !! N) in <[N := {| n_new := u64 (n_new x + d); n_tried := n_tried x |}]> c).
Proof using.
  intros H net. cbn zeta. destruct (decide (net = N)) as [->|Hne]; [|rewrite lookup_insert_ne by congruence; reflexivity]. rewrite lookup_insert_eq. unfold default at 1. f_equal. rewrite (ct_net _ _ _ _ _ H). cbn [n_tried].
  pose proof (mcnt_range (is_tried (Some N)) m). pose proof (ct_small _ _ _ _ _ H). rewrite Z.add_0_r, (uwrap_small 64 (mcnt _ _)) by (unfold in_u; lia). reflexivity.
Qed.
Lemma count_tried_bumped m nt nn c U N d : ct_ok m nt nn c U -> bumped N 0 d c (let x := default no_count (c !! N) in <[N := {| n_new := n_new x; n_tried := u64 (n_tried x + d) |}]> c).
Proof using.
  intros H net. cbn zeta. destruct (decide (net = N)) as [->|Hne]; [|rewrite lookup_insert_ne by congruence; reflexivity]. rewrite lookup_insert_eq. unfold default at 1. f_equal. rewrite (ct_net _ _ _ _ _ H). cbn [n_new].
  pose proof (mcnt_range (is_new U (Some N)) m). pose proof (ct_small _ _ _ _ _ H). rewrite Z.add_0_r, (uwrap_small 64 (mcnt _ _)) by (unfold in_u; lia). reflexivity.
Qed.

(** The places of entries are inside the tables. *)
Lemma position_range key fNew b i : 0 <= GetBucketPosition key fNew b i < ADDRMAN_BUCKET_SIZE.
Proof using. apply Z.mod_pos_bound. reflexivity. Qed.
Lemma tried_in_table key i : in_table true (tbucket key i) (tpos key i) = true.
Proof using. unfold in_table. pose proof (position_range key false (tbucket key i) i) as Hp. assert (Hb : 0 <= tbucket key i < ADDRMAN_TRIED_BUCKET_COUNT) by (apply Z.mod_pos_bound; reflexivity). unfold tpos. cbn [bucket_count]. rewrite !andb_true_iff, !Z.leb_le, !Z.ltb_lt. lia. Qed.
Lemma new_bucket_range key src i : 0 <= GetNewBucket key src i < ADDRMAN_NEW_BUCKET_COUNT.
Proof using. apply Z.mod_pos_bound. reflexivity. Qed.
Lemma new_in_table key b i : 0 <= b < ADDRMAN_NEW_BUCKET_COUNT -> in_table false b (npos key i b) = true.
Proof using. intros Hb. unfold in_table, npos. pose proof (position_range key true b i) as Hp. cbn [bucket_count]. rewrite !andb_true_iff, !Z.leb_le, !Z.ltb_lt. lia. Qed.

(** ** Positions *)

Lemma am_update L U s id i i' : am_ok L U s -> mapInfo s !! id = Some i -> ai_service i' = ai_service i -> nRandomPos i' = nRandomPos i -> fInTried i' = fInTried i -> nRefCount i' = nRefCount i ->
  (fInTried i = true -> 0 < m_last_success i') -> 0 <= m_last_try i' -> 0 <= m_last_success i' -> am_ok L U (set_info <[id := i']> s).
Proof using.
  intros [A B C D F G] Ei H1 H2 H3 H4 H5 H6 H7. split; cbn.
  - exact (ix_update _ _ _ _ id i i' A Ei H1 H2).
  - exact (tb_update _ _ _ _ _ id i i' B Ei H1 H3 H4 H5).
  - exact (ct_update _ _ _ _ _ id i i' C Ei H1 H3).
  - exact D.
  - intros k j. rewrite lookup_insert_Some. intros [[<- <-]|[_ Ej]]; eauto.
  - exact G.
Qed.

(** Everything but the order is as before. *)
Record reordered (s s' : AddrMan) : Prop := {
  re_frame : framed s s';
  re_new : vvNew s' = vvNew s;
  re_addr : mapAddr s' = mapAddr s;
  re_nNew : nNew s' = nNew s;
  re_nTried : nTried s' = nTried s;
  re_counts : m_network_counts s' = m_network_counts s;
  re_length : length (vRandom s') = length (vRandom s);
  re_info : descends (fun _ => False) s s';
}.

Lemma SwapRandom_spec L U p1 p2 id1 s : am_ok L U s -> vRandom s !! p1 = Some id1 -> (p2 < length (vRandom s))%nat ->
  exists s', SwapRandom (Z.of_nat p1) (Z.of_nat p2) s = (Ok tt, s') /\ am_ok L U s' /\ reordered s s' /\ vRandom s' !! p2 = Some id1 /\ forall k, k <> p1 -> k <> p2 -> vRandom s' !! k = vRandom s !! k.
Proof using.
  intros H E1 L2. pose proof H as [A B C D F G]. pose proof (ix_length _ _ _ _ A) as Len. pose proof (ix_size _ _ _ _ A ltac:(lia)) as Sz. pose proof (lookup_lt_Some _ _ _ E1) as L1. unfold SwapRandom.
  assert (Q : forall p, (p < length (vRandom s))%nat -> u32 (Z.of_nat p) = Z.of_nat p /\ i32 (u32 (Z.of_nat p)) = Z.of_nat p).
  { intros p Hp. rewrite uwrap_small by (unfold in_u; lia). split; [reflexivity|]. apply swrap_small; unfold in_s; lia. }
  destruct (Q p1 L1) as [U1 I1], (Q p2 L2) as [U2 I2]. rewrite I1, I2, U1, U2. destruct (Z.eqb_spec (Z.of_nat p1) (Z.of_nat p2)) as [Hp|Hp].
  { assert (p1 = p2) as <- by lia. exists s. split; [reflexivity|]. split; [exact H|]. split; [split; try reflexivity; [apply framed_refl|apply descends_refl]|split; [exact E1|reflexivity]]. }
  rewrite !Nat2Z.id. destruct (lookup_lt_is_Some_2 (vRandom s) p2 L2) as [id2 E2]. unfold mbind at 1, stm_bind at 1, get_st at 1.
  rewrite (bind_ok _ _ _ _ _ (assert_st_ok _ _ (proj2 (andb_true_iff _ _) (conj (proj2 (Nat.ltb_lt _ _) L1) (proj2 (Nat.ltb_lt _ _) L2))))).
  rewrite E1, E2. rewrite (bind_ok (lift_st (access (Some id1))) _ s id1 s) by reflexivity. rewrite (bind_ok (lift_st (access (Some id2))) _ s id2 s) by reflexivity.
  pose proof E1 as X1. pose proof E2 as X2. apply (ix_random _ _ _ _ A) in X1 as (i1 & F1 & P1), X2 as (i2 & F2 & P2).
  assert (Hid : id1 <> id2) by (intros <-; apply Hp; pose proof (NoDup_lookup _ _ _ _ (ix_nodup _ _ _ _ A) E1 E2); lia).
  rewrite (bind_ok _ _ _ _ _ (assert_st_ok _ _ (bool_decide_eq_true_2 _ (mk_is_Some _ _ F1)))), (bind_ok _ _ _ _ _ (assert_st_ok _ _ (bool_decide_eq_true_2 _ (mk_is_Some _ _ F2)))).
  rewrite (bind_ok _ _ _ _ _ (change_info_ok s id1 i1 _ F1)). assert (F2' : mapInfo (set_info <[id1 := with_pos (Z.of_nat p2) i1]> s) !! id2 = Some i2) by (cbn; rewrite lookup_insert_ne by exact Hid; exact F2).
  rewrite (bind_ok _ _ _ _ _ (change_info_ok _ id2 i2 _ F2')). unfold mbind, stm_bind, modify_st. eexists. split; [reflexivity|]. split; [|split].
  - split; cbn.
    + exact (ix_swap _ _ _ _ p1 p2 id1 id2 i1 i2 A ltac:(lia) E1 E2 F1 F2).
    + apply (tb_update _ _ _ _ _ id2 i2 (with_pos (Z.of_nat p1) i2)); try reflexivity; [|rewrite lookup_insert_ne by exact Hid; exact F2|intros Ht; apply (tb_placed _ _ _ _ _ B id2 i2 F2 Ht)].
      apply (tb_update _ _ _ _ _ id1 i1 (with_pos (Z.of_nat p2) i1)); try reflexivity; [exact B|exact F1|intros Ht; apply (tb_placed _ _ _ _ _ B id1 i1 F1 Ht)].
    + apply (ct_update _ _ _ _ _ id2 i2); try reflexivity; [|rewrite lookup_insert_ne by exact Hid; exact F2]. apply (ct_update _ _ _ _ _ id1 i1); try reflexivity; [exact C|exact F1].
    + exact D.
    + intros k j. rewrite !lookup_insert_Some. intros [[<- <-]|[_ [[<- <-]|[_ Ej]]]]; [exact (F id2 i2 F2)|exact (F id1 i1 F1)|exact (F k j Ej)].
    + exact G.
  - split; cbn; try reflexivity; [split; reflexivity|rewrite !length_insert; reflexivity|]. split; cbn.
    + intros k j. rewrite !lookup_insert_Some. intros [[<- <-]|[_ [[<- <-]|[_ Ej]]]]; eauto.
    + intros k j _ Ej. destruct (decide (k = id2)) as [->|N2]; [exists (with_pos (Z.of_nat p1) i2); rewrite lookup_insert_eq; rewrite F2 in Ej; injection Ej as <-; split; [reflexivity|eexists; reflexivity]|]. rewrite lookup_insert_ne by congruence.
      destruct (decide (k = id1)) as [->|N1]; [exists (with_pos (Z.of_nat p2) i1); rewrite lookup_insert_eq; rewrite F1 in Ej; injection Ej as <-; split; [reflexivity|eexists; reflexivity]|]. rewrite lookup_insert_ne by congruence.
      exists j. split; [exact Ej|apply up_to_pos_refl].
  - cbn. split; [apply list_lookup_insert_eq; rewrite length_insert; exact L2|]. intros k K1 K2. rewrite !list_lookup_insert_ne by congruence. reflexivity.
Qed.

(** ** Deleting *)

Lemma ok_limbo L U s id : am_ok L U s -> id ∈ L -> exists i, mapInfo s !! id = Some i /\ fInTried i = false /\ nRefCount i = 0 /\ 0 <= id.
Proof using.
  intros [A B C D F G] HL. destruct (tb_lim _ _ _ _ _ B id HL) as (i & Ei & Hi). exists i. split; [exact Ei|]. split; [exact Hi|]. destruct (tb_ref _ _ _ _ _ B id i Ei Hi) as (-> & _). pose proof (tb_ids _ _ _ _ _ B id i Ei). split; [|lia].
  apply (refs_zero _ _ _ _ _ _ _ B); [lia|auto].
Qed.

Lemma times_delete (m : gmap Z AddrInfo) id : (forall k j, m !! k = Some j -> 0 <= m_last_try j /\ 0 <= m_last_success j) -> forall k j, delete id m !! k = Some j -> 0 <= m_last_try j /\ 0 <= m_last_success j.
Proof using. intros H k j [_ Ej]%lookup_delete_Some. eauto. Qed.
Lemma times_insert (m : gmap Z AddrInfo) id i : (forall k j, m !! k = Some j -> 0 <= m_last_try j /\ 0 <= m_last_success j) -> 0 <= m_last_try i /\ 0 <= m_last_success i -> forall k j, <[id := i]> m !! k = Some j -> 0 <= m_last_try j /\ 0 <= m_last_success j.
Proof using. intros H Hi k j [[<- <-]|[_ Ej]]%lookup_insert_Some; eauto. Qed.

Lemma Delete_spec L U s id : am_ok L U s -> id ∈ L -> id ∉ U ->
  exists s', Delete id s = (Ok tt, s') /\ am_ok (L ∖ {[ id ]}) U s' /\ framed s s' /\ vvNew s' = vvNew s /\ descends (eq id) s s' /\ mapInfo s' !! id = None.
Proof using.
  intros H HL HU. destruct (ok_limbo _ _ _ _ H HL) as (i & Ei & Hi & Hr & Hid). pose proof (ix_at _ _ _ _ _ _ (ok_ix _ _ _ H) Ei) as At. pose proof (ix_pos _ _ _ _ (ok_ix _ _ _ H) id i Ei) as Hp. pose proof (lookup_lt_Some _ _ _ At) as Lt.
  destruct (SwapRandom_spec L U _ (length (vRandom s) - 1) id s H At ltac:(lia)) as (s1 & Run & H1 & R & Last & _). unfold Delete, mbind at 1, stm_bind at 1, get_st at 1.
  rewrite (bind_ok _ _ _ _ _ (assert_st_ok _ _ (bool_decide_eq_true_2 _ (mk_is_Some _ _ Ei)))), (bind_ok _ _ _ _ _ (info_ref_ok s id i Ei)). rewrite (bind_ok _ _ _ _ _ (assert_st_ok (negb (fInTried i)) s ltac:(rewrite Hi; reflexivity))).
  rewrite (bind_ok _ _ _ _ _ (assert_st_ok (nRefCount i =? 0) s ltac:(rewrite Hr; reflexivity))). replace (Z.of_nat (Z.to_nat (nRandomPos i))) with (nRandomPos i) in Run by lia. replace (Z.of_nat (length (vRandom s) - 1)) with (Z.of_nat (length (vRandom s)) - 1) in Run by lia.
  rewrite (bind_ok _ _ _ _ _ Run). unfold mbind, stm_bind, count_new, modify_st. eexists. split; [reflexivity|].
  destruct (de_kept _ _ _ (re_info _ _ R) id i ltac:(tauto) Ei) as (i1 & Ei1 & q & ->). pose proof Last as (j & Ej & Hj)%(ix_random _ _ _ _ (ok_ix _ _ _ H1)). rewrite Ei1 in Ej. injection Ej as <-.
  pose proof H1 as [A B C D F G]. split; [|split; [|split; [|split]]].
  - split; cbn.
    + apply (ix_delete _ _ _ _ _ _ A Ei1). rewrite Hj, (re_length _ _ R). lia.
    + exact (tb_delete _ _ _ _ _ _ B HL).
    + exact (ct_delete _ _ _ _ _ _ C id (with_pos q i) Ei1 Hi HU (count_new_bumped _ _ _ _ _ _ _ C)).
    + set_solver.
    + exact (times_delete _ _ F).
    + exact G.
  - destruct (re_frame _ _ R). split; cbn; assumption.
  - exact (re_new _ _ R).
  - apply (descends_trans (fun _ => False) (eq id) _ s s1 _ (re_info _ _ R)); [|intros k Hk; split; [tauto|exact Hk]]. split; cbn.
    + intros k j [_ Ej]%lookup_delete_Some. eauto.
    + intros k j Hk Ej. exists j. rewrite lookup_delete_ne by exact Hk. split; [exact Ej|apply up_to_pos_refl].
  - cbn. apply lookup_delete_eq.
Qed.

(** A reference from the new table goes. *)
Definition unlinked (id : Z) (i : AddrInfo) (b p : Z) (s : AddrMan) : AddrMan := set_table false <[(b, p) := -1]> (set_info <[id := with_ref (nRefCount i - 1) i]> s).

Lemma am_unlink L U s b p id i : am_ok L U s -> id <> -1 -> cell false s b p = id -> mapInfo s !! id = Some i ->
  am_ok (if nRefCount i - 1 =? 0 then {[ id ]} ∪ L else L) U (unlinked id i b p s) /\ 1 <= nRefCount i /\ id ∉ L /\ fInTried i = false.
Proof using.
  intros [A B C D F G] Hid Hc Ei. destruct (tb_unlink _ _ _ _ _ b p id i B Hid Hc Ei) as [B' Hr]. destruct (tb_new _ _ _ _ _ B b p) as (_ & HL & j & Ej & Hj & _); [unfold cell in Hc; unfold cellv; cbn in Hc; congruence|].
  change (cellv (vvNew s) b p) with (cell false s b p) in *. rewrite Hc in *. rewrite Ei in Ej. injection Ej as <-. split; [|auto]. split; cbn.
  - apply (ix_update _ _ _ _ id i); [exact A|exact Ei|reflexivity|reflexivity].
  - exact B'.
  - apply (ct_update _ _ _ _ _ id i); [exact C|exact Ei|reflexivity|reflexivity].
  - destruct (_ =? 0); set_solver.
  - apply times_insert; [exact F|exact (F id i Ei)].
  - exact G.
Qed.

Lemma unlinked_framed id i b p s : framed s (unlinked id i b p s).
Proof using. split; reflexivity. Qed.
Lemma unlinked_descends id i b p s : mapInfo s !! id = Some i -> descends (eq id) s (unlinked id i b p s).
Proof using.
  intros Ei. split; cbn.
  - intros k j. rewrite lookup_insert_Some. intros [[<- <-]|[_ Ej]]; eauto.
  - intros k j Hk Ej. exists j. rewrite lookup_insert_ne by exact Hk. split; [exact Ej|apply up_to_pos_refl].
Qed.

Lemma ClearNew_spec L U s b p : am_ok L U s -> in_table false b p = true ->
  exists s', ClearNew b p s = (Ok tt, s') /\ am_ok L U s' /\ framed s s' /\ descends (eq (cell false s b p)) s s' /\ cell false s' b p = -1.
Proof using.
  intros H Hin. unfold ClearNew. rewrite (bind_ok _ _ _ _ _ (read_cell_ok false s b p Hin)). set (id := cell false s b p). destruct (Z.eqb_spec id (-1)) as [Hc|Hc].
  { exists s. split; [reflexivity|]. split; [exact H|]. split; [apply framed_refl|]. split; [apply descends_refl|exact Hc]. }
  destruct (tb_new _ _ _ _ _ (ok_tb _ _ _ H) b p Hc) as (_ & _ & i & Ei & _). change (cellv (vvNew s) b p) with id in Ei. rewrite (bind_ok _ _ _ _ _ (info_index_ok s id i Ei)).
  destruct (am_unlink L U s b p id i H Hc eq_refl Ei) as (H1 & Hr & HL & Hi). rewrite (bind_ok _ _ _ _ _ (assert_st_ok (nRefCount i >? 0) s ltac:(apply Z.gtb_lt; lia))), (bind_ok _ _ _ _ _ (change_info_ok s id i _ Ei)), (bind_ok _ _ _ _ _ (write_cell_ok false _ b p (-1) Hin)).
  change (set_table false _ _) with (unlinked id i b p s). assert (Cl : cell false (unlinked id i b p s) b p = -1) by (unfold cell; cbn; rewrite lookup_insert_eq; reflexivity). destruct (nRefCount i - 1 =? 0).
  - destruct (Delete_spec _ U _ id H1) as (s' & Run & H' & Fr & Nw & De & Gone); [set_solver|intros HU; apply HL, (ok_sub _ _ _ H), HU|]. exists s'. split; [exact Run|]. split; [replace (({[ id ]} ∪ L) ∖ {[ id ]}) with L in H' by set_solver; exact H'|].
    split; [exact (framed_trans _ _ _ (unlinked_framed _ _ _ _ _) Fr)|]. split; [apply (descends_trans _ _ _ _ _ _ (unlinked_descends id i b p s Ei) De); tauto|]. unfold cell, table. rewrite Nw. exact Cl.
  - eexists. split; [reflexivity|]. split; [exact H1|]. split; [apply unlinked_framed|]. split; [exact (unlinked_descends id i b p s Ei)|exact Cl].
Qed.
End Steps.

(** * Entries that are made and moved

    [Create] and [MakeTried] of the address manager return and keep the
    invariant; the entry that [MakeTried] drives out of the tried table is in
    the new table afterwards. *)

Section Moves.
Context {E : AddrEnv}.

Lemma ok_new_small L U s : am_ok L U s -> 0 <= nNew s <= nIdCount s.
Proof using. intros [A B C D F G]. rewrite (ct_nn _ _ _ _ _ C). pose proof (mcnt_range (is_new U None) (mapInfo s)). pose proof (ix_size _ _ _ _ A ltac:(lia)). lia. Qed.
Lemma ok_tried_small L U s : am_ok L U s -> 0 <= nTried s <= nIdCount s.
Proof using. intros [A B C D F G]. rewrite (ct_nt _ _ _ _ _ C). pose proof (mcnt_range (is_tried None) (mapInfo s)). pose proof (ix_size _ _ _ _ A ltac:(lia)). lia. Qed.
Lemma i32_small z : 0 <= z < 2 ^ 31 -> i32 z = z.
Proof using. intros H. apply swrap_small; unfold in_s; lia. Qed.

Lemma ok_fresh L U s : am_ok L U s -> mapInfo s !! nIdCount s = None.
Proof using. intros H. apply eq_None_not_Some. intros [i Ei]. pose proof (ix_ids _ _ _ _ (ok_ix _ _ _ H) _ _ Ei). lia. Qed.

(** ** Making *)

Definition created (addr : CAddress) (src : CNetAddr) (s : AddrMan) : AddrInfo := with_pos (Z.of_nat (length (vRandom s))) (new_AddrInfo addr src).

Lemma Create_spec L U s addr src : am_ok L U s -> mapAddr s !! ca_service addr = None -> nIdCount s + 1 < 2 ^ 31 ->
  exists s', Create addr src s = (Ok (nIdCount s), s') /\ am_ok ({[ nIdCount s ]} ∪ L) U s' /\ nIdCount s' = nIdCount s + 1 /\ mapInfo s' = <[nIdCount s := created addr src s]> (mapInfo s) /\
    nKey s' = nKey s /\ vvTried s' = vvTried s /\ vvNew s' = vvNew s /\ m_last_good s' = m_last_good s /\ m_tried_collisions s' = m_tried_collisions s.
Proof using.
  intros H Ha Hlt. pose proof (ok_new_small _ _ _ H) as Hn. pose proof (ok_fresh _ _ _ H) as Fr. pose proof H as [A B C D F G]. unfold Create, mbind, stm_bind, get_st, modify_st, count_new. cbn [nIdCount set_ids].
  rewrite (change_info_ok _ (nIdCount s) (new_AddrInfo addr src)) by (cbn; apply lookup_insert_eq). eexists. split; [reflexivity|]. cbn. rewrite insert_insert_eq, (i32_small (nIdCount s + 1)) by lia.
  split; [|repeat split; reflexivity]. change (with_pos (Z.of_nat (length (vRandom s))) (new_AddrInfo addr src)) with (created addr src s). split; cbn.
  - rewrite ?insert_insert_eq, (i32_small (nIdCount s + 1)) by lia. exact (ix_create _ _ _ _ (created addr src s) A ltac:(lia) Ha eq_refl).
  - rewrite ?insert_insert_eq. apply tb_create; [exact B|exact Fr|lia|reflexivity|reflexivity].
  - rewrite ?insert_insert_eq, (i32_small (nNew s + 1)) by lia. apply (ct_create _ _ _ _ _ _ C (nIdCount s) (created addr src s)); [exact Fr|reflexivity| |exact (count_new_bumped _ _ _ _ _ _ 1 C)].
    pose proof (ix_size _ _ _ _ A ltac:(lia)). lia.
  - set_solver.
  - rewrite ?insert_insert_eq. apply times_insert; [exact F|cbn; lia].
  - rewrite (i32_small (nIdCount s + 1)) by lia. lia.
Qed.

(** ** Out of the new table *)

Lemma with_ref_ref a b i : with_ref a (with_ref b i) = with_ref a i.
Proof using. reflexivity. Qed.

Lemma unlink_loop_spec L U start id ns : forall s i, am_ok L U s -> mapInfo s !! id = Some i -> fInTried i = false -> id ∉ L ->
  (forall b, 0 <= b < ADDRMAN_NEW_BUCKET_COUNT -> in_bucket (nKey s) (vvNew s) id i b = true -> b ∈ map (fun n => (start + n) mod ADDRMAN_NEW_BUCKET_COUNT) ns) ->
  exists s', unlink_loop start id ns s = (Ok tt, s') /\ am_ok ({[ id ]} ∪ L) U s' /\ framed s s' /\ mapInfo s' = <[id := with_ref 0 i]> (mapInfo s) /\ nNew s' = nNew s /\ nTried s' = nTried s.
Proof using.
  induction ns as [|n rest IH]; intros s i H Ei Hi HL Cov.
  { exfalso. destruct (tb_ref _ _ _ _ _ (ok_tb _ _ _ H) id i Ei Hi) as (R1 & _ & R2). specialize (R2 HL). rewrite R1 in R2. assert (R3 : 0 < refs (nKey s) (vvNew s) id i) by lia. apply lcount_witness in R3 as (b & Hb & Hc). apply elem_of_seqZ in Hb. pose proof (Cov b ltac:(lia) Hc) as X. apply not_elem_of_nil in X. exact X. }
  cbn [unlink_loop]. unfold mbind at 1, stm_bind at 1, get_st at 1. rewrite (bind_ok _ _ _ _ _ (info_ref_ok s id i Ei)). set (b := (start + n) mod ADDRMAN_NEW_BUCKET_COUNT).
  assert (Hb : 0 <= b < ADDRMAN_NEW_BUCKET_COUNT) by (apply Z.mod_pos_bound; reflexivity). change (GetBucketPosition (nKey s) true b i) with (npos (nKey s) i b). pose proof (new_in_table (nKey s) b i Hb) as Hin.
  rewrite (bind_ok _ _ _ _ _ (read_cell_ok false s b _ Hin)). destruct (Z.eqb_spec (cell false s b (npos (nKey s) i b)) id) as [Hc|Hc].
  - pose proof (ix_ids _ _ _ _ (ok_ix _ _ _ H) id i Ei) as Hid. rewrite (bind_ok _ _ _ _ _ (write_cell_ok false s b _ (-1) Hin)). rewrite (bind_ok _ _ _ _ _ (change_info_ok (set_table false <[(b, npos (nKey s) i b) := -1]> s) id i _ Ei)).
    destruct (am_unlink L U s b _ id i H ltac:(lia) Hc Ei) as (H1 & Hr & _). change (set_info <[id := with_ref (nRefCount i - 1) i]> (set_table false <[(b, npos (nKey s) i b) := -1]> s)) with (unlinked id i b (npos (nKey s) i b) s).
    destruct (Z.eqb_spec (nRefCount i - 1) 0) as [Hz|Hz].
    + eexists. split; [reflexivity|]. split; [exact H1|]. split; [apply unlinked_framed|]. cbn. rewrite Hz. auto.
    + destruct (IH _ (with_ref (nRefCount i - 1) i) H1) as (s' & Run & H' & Fr & Mi & N1 & N2); [cbn; apply lookup_insert_eq|exact Hi|exact HL| |].
      * intros b' Hb' Hc'. unfold in_bucket in Hc'. cbn in Hc'. rewrite cellv_insert in Hc'. destruct (decide ((b, npos (nKey s) i b) = (b', npos (nKey s) (with_ref (nRefCount i - 1) i) b'))) as [Hq|Hq]; [apply Z.eqb_eq in Hc'; lia|].
        specialize (Cov b' Hb' Hc'). cbn [map] in Cov. apply elem_of_cons in Cov as [->|Cov]; [exfalso; apply Hq; reflexivity|exact Cov].
      * exists s'. split; [exact Run|]. split; [exact H'|]. split; [exact (framed_trans _ _ _ (unlinked_framed _ _ _ _ _) Fr)|]. rewrite Mi, N1, N2. cbn. rewrite insert_insert_eq. auto.
  - apply (IH s i H Ei Hi HL). intros b' Hb' Hc'. pose proof (Cov b' Hb' Hc') as X. cbn [map] in X. apply elem_of_cons in X as [->|X]; [|exact X]. apply Z.eqb_eq in Hc'. contradiction.
Qed.

(** The loop comes by every bucket. *)
Lemma every_bucket start b : 0 <= b < ADDRMAN_NEW_BUCKET_COUNT -> b ∈ map (fun n => (start + n) mod ADDRMAN_NEW_BUCKET_COUNT) (seqZ 0 ADDRMAN_NEW_BUCKET_COUNT).
Proof using.
  intros Hb. apply list_elem_of_fmap. exists ((b - start) mod ADDRMAN_NEW_BUCKET_COUNT). split.
  - rewrite Zplus_mod_idemp_r. replace (start + (b - start)) with b by lia. symmetry. apply Z.mod_small. exact Hb.
  - apply elem_of_seqZ. pose proof (Z.mod_pos_bound (b - start) ADDRMAN_NEW_BUCKET_COUNT ltac:(reflexivity)). lia.
Qed.

(** ** Into the new table *)

Record steady (s s' : AddrMan) : Prop := {
  st_key : nKey s' = nKey s;
  st_ids : nIdCount s' = nIdCount s;
  st_good : m_last_good s' = m_last_good s;
  st_coll : m_tried_collisions s' = m_tried_collisions s;
}.
Lemma framed_steady s s' : framed s s' -> steady s s'.
Proof using. intros []. split; assumption. Qed.
Lemma steady_trans s1 s2 s3 : steady s1 s2 -> steady s2 s3 -> steady s1 s3.
Proof using. intros [] []. split; congruence. Qed.

(** A reference from the new table is added. *)
Definition linked (id : Z) (i : AddrInfo) (b p : Z) (s : AddrMan) : AddrMan := set_table false <[(b, p) := id]> (set_info <[id := with_ref (nRefCount i + 1) i]> s).

Lemma am_link L U s b id i : am_ok L U s -> mapInfo s !! id = Some i -> fInTried i = false -> nRefCount i < ADDRMAN_NEW_BUCKETS_PER_ADDRESS -> 0 <= b < ADDRMAN_NEW_BUCKET_COUNT -> id ∉ U ->
  cell false s b (npos (nKey s) i b) = -1 -> am_ok (L ∖ {[ id ]}) U (linked id i b (npos (nKey s) i b) s).
Proof using.
  intros [A B C D F G] Ei Hi Hr Hb HU Hc. split; cbn.
  - apply (ix_update _ _ _ _ id i); [exact A|exact Ei|reflexivity|reflexivity].
  - exact (tb_link _ _ _ _ _ b id i B Ei Hi Hr Hb Hc).
  - apply (ct_update _ _ _ _ _ id i); [exact C|exact Ei|reflexivity|reflexivity].
  - set_solver.
  - apply times_insert; [exact F|exact (F id i Ei)].
  - exact G.
Qed.

(** An entry leaves the tried table. *)
Definition untried (e : Z) (i : AddrInfo) (b p : Z) (s : AddrMan) : AddrMan :=
  set_counts (fun m => let c := default no_count (m !! info_network i) in <[info_network i := {| n_new := n_new c; n_tried := u64 (n_tried c + -1) |}]> m)
    (set_nTried (fun n => n - 1) (set_table true <[(b, p) := -1]> (set_info <[e := with_tried false i]> s))).

Lemma am_untry L U s e i : am_ok L U s -> mapInfo s !! e = Some i -> fInTried i = true -> am_ok ({[ e ]} ∪ L) ({[ e ]} ∪ U) (untried e i (tbucket (nKey s) i) (tpos (nKey s) i) s).
Proof using.
  intros [A B C D F G] Ei Hi. split; cbn.
  - apply (ix_update _ _ _ _ e i); [exact A|exact Ei|reflexivity|reflexivity].
  - exact (tb_untry _ _ _ _ _ _ _ B Ei Hi).
  - exact (ct_untry _ _ _ _ _ _ C e i Ei Hi (count_tried_bumped _ _ _ _ _ _ (-1) C)).
  - set_solver.
  - apply times_insert; [exact F|exact (F e i Ei)].
  - exact G.
Qed.

(** An entry that is not counted is counted as new. *)
Definition counted (N : Network) (s : AddrMan) : AddrMan :=
  set_counts (fun m => let c := default no_count (m !! N) in <[N := {| n_new := u64 (n_new c + 1); n_tried := n_tried c |}]> m) (set_nNew (fun n => i32 (n + 1)) s).

Lemma am_count L U s e i : am_ok L U s -> mapInfo s !! e = Some i -> e ∈ U -> am_ok L (U ∖ {[ e ]}) (counted (info_network i) s).
Proof using.
  intros H Ei HU. pose proof H as [A B C D F G]. pose proof (ct_count _ _ _ _ _ _ C e i Ei HU (count_new_bumped _ _ _ _ _ _ 1 C)) as C'. assert (Small : i32 (nNew s + 1) = nNew s + 1).
  { apply i32_small. pose proof (ok_new_small _ _ _ H). rewrite (ct_nn _ _ _ _ _ C'). pose proof (mcnt_range (is_new (U ∖ {[ e ]}) None) (mapInfo s)). pose proof (ct_small _ _ _ _ _ C). lia. }
  split; cbn; [exact A|exact B|rewrite Small; exact C'|set_solver|exact F|exact G].
Qed.

(** ** Into the tried table *)

Lemma ok_tried_at L U s b p : am_ok L U s -> cell true s b p <> -1 -> exists i, mapInfo s !! cell true s b p = Some i /\ fInTried i = true /\ tbucket (nKey s) i = b /\ tpos (nKey s) i = p /\ cell true s b p ∉ L.
Proof using.
  intros H Hc. destruct (tb_tried _ _ _ _ _ (ok_tb _ _ _ H) b p Hc) as (i & Ei & Hi & Hb & Hp). exists i. split; [exact Ei|]. split; [exact Hi|]. split; [exact Hb|]. split; [exact Hp|]. apply (tb_placed _ _ _ _ _ (ok_tb _ _ _ H) _ i Ei Hi).
Qed.

Lemma ok_new_at L U s b p : am_ok L U s -> cell false s b p <> -1 -> cell false s b p ∉ L /\ exists i, mapInfo s !! cell false s b p = Some i /\ fInTried i = false /\ npos (nKey s) i b = p.
Proof using. intros H Hc. destruct (tb_new _ _ _ _ _ (ok_tb _ _ _ H) b p Hc) as (_ & H1 & H2). auto. Qed.

Record evicted (b p : Z) (L : gset Z) (s s' : AddrMan) : Prop := {
  ev_steady : steady s s';
  ev_cells b' p' : cell true s' b' p' = if decide ((b, p) = (b', p')) then -1 else cell true s b' p';
  ev_info : descends (fun k => k ∉ L /\ (k = cell true s b p \/ exists i, mapInfo s !! k = Some i /\ fInTried i = false)) s s';
  ev_moved : cell true s b p <> -1 -> exists i, mapInfo s' !! cell true s b p = Some i /\ fInTried i = false /\ nRefCount i = 1;
}.

Lemma bind_modify {S B} (f : S -> S) (k : unit -> stm S B) s : (modify_st f ≫= k) s = k tt (f s).
Proof using. reflexivity. Qed.

Lemma evict_tried_spec L U s b p : am_ok L U s -> in_table true b p = true -> exists s', evict_tried b p s = (Ok tt, s') /\ am_ok L U s' /\ evicted b p L s s'.
Proof using.
  intros H Hin. unfold evict_tried. rewrite (bind_ok _ _ _ _ _ (read_cell_ok true s b p Hin)). destruct (Z.eqb_spec (cell true s b p) (-1)) as [Hc|Hc].
  { exists s. split; [reflexivity|]. split; [exact H|]. split; [split; reflexivity|intros b' p'; destruct (decide _) as [Hq|]; [injection Hq as <- <-; exact Hc|reflexivity]|apply descends_refl|contradiction]. }
  destruct (ok_tried_at _ _ _ _ _ H Hc) as (i & Ei & Hi & Hb & Hp & HL). set (e := cell true s b p) in *. unfold mbind at 1, stm_bind at 1, get_st at 1.
  rewrite (bind_ok _ _ _ _ _ (assert_st_ok _ _ (bool_decide_eq_true_2 _ (mk_is_Some _ _ Ei)))), (bind_ok _ _ _ _ _ (info_ref_ok s e i Ei)), (bind_ok _ _ _ _ _ (change_info_ok s e i _ Ei)), (bind_ok _ _ _ _ _ (write_cell_ok true _ b p (-1) Hin)).
  pose proof (am_untry L U s e i H Ei Hi) as H1. rewrite Hb, Hp in H1. set (s1 := untried e i b p s) in *. erewrite bind_ok by reflexivity. erewrite (bind_ok (count_tried _ _) _ _ _ s1) by reflexivity.
  set (nb := GetNewBucket (nKey s) (source i) i). change (GetBucketPosition (nKey s) true nb i) with (npos (nKey s) i nb). pose proof (new_bucket_range (nKey s) (source i) i) as Hnb. fold nb in Hnb. pose proof (new_in_table (nKey s) nb i Hnb) as Hin'. set (np := npos (nKey s) i nb) in *.
  destruct (ClearNew_spec _ _ s1 nb np H1 Hin') as (s2 & Run & H2 & Fr & De & Cl). rewrite (bind_ok _ _ _ _ _ Run), (bind_ok _ _ _ _ _ (read_cell_ok false s2 nb np Hin')), (bind_ok _ _ _ _ _ (assert_st_ok _ s2 (proj2 (Z.eqb_eq _ _) Cl))).
  assert (Hcl : cell false s1 nb np <> e).
  { intros Hq. destruct (tb_new _ _ _ _ _ (ok_tb _ _ _ H1) nb np) as (_ & X & _); [change (cell false s1 nb np <> -1); congruence|]. apply X. change (cellv (vvNew s1) nb np) with (cell false s1 nb np). rewrite Hq. set_solver. }
  destruct (de_kept _ _ _ De e (with_tried false i) Hcl) as (i2 & Ei2 & q & Hi2); [cbn; apply lookup_insert_eq|]. destruct (ok_limbo _ _ _ e H2 ltac:(set_solver)) as (i2' & Ei2' & T2 & R2 & _). rewrite Ei2 in Ei2'. injection Ei2' as <-.
  rewrite (bind_ok _ _ _ _ _ (change_info_ok s2 e i2 _ Ei2)), (bind_ok _ _ _ _ _ (write_cell_ok false _ nb np e Hin')). erewrite bind_ok by reflexivity. unfold count_new, modify_st. eexists. split; [reflexivity|].
  assert (Hs : ai_service i2 = ai_service i) by (rewrite Hi2; reflexivity). pose proof (am_count _ _ s2 e i2 H2 Ei2 ltac:(set_solver)) as H3. replace (info_network i2) with (info_network i) in H3 by (unfold info_network; rewrite Hs; reflexivity).
  assert (Hnp : npos (nKey s2) i2 nb = np) by (rewrite (fr_key _ _ Fr); exact (f_equal (fun f => f nb) (proj2 (proj2 (same_bucket (nKey s) i2 i Hs))))).
  pose proof (am_link _ _ (counted (info_network i) s2) nb e i2 H3 Ei2 T2) as H4. cbn [counted nKey set_counts set_nNew] in H4. rewrite Hnp in H4. specialize (H4 ltac:(rewrite R2; reflexivity) Hnb ltac:(set_solver) Cl). unfold linked in H4. rewrite R2 in H4.
  split; [|split].
  - replace (({[ e ]} ∪ L) ∖ {[ e ]}) with L in H4 by set_solver. replace (({[ e ]} ∪ U) ∖ {[ e ]}) with U in H4 by (pose proof (ok_sub _ _ _ H); set_solver). exact H4.
  - apply (steady_trans s s1); [split; reflexivity|]. destruct Fr. split; assumption.
  - intros b' p'. unfold cell, table. cbn. rewrite (fr_tried _ _ Fr). cbn. exact (cellv_insert (vvTried s) b p (-1) b' p').
  - split; cbn.
    + intros k j [[<- <-]|[_ Ej]]%lookup_insert_Some; [exists i; split; [exact Ei|exact Hs]|]. destruct (de_from _ _ _ De k j Ej) as (j1 & Ej1 & Hj1). cbn in Ej1. apply lookup_insert_Some in Ej1 as [[<- <-]|[_ Ej1]]; eauto.
    + intros k j Hk Ej. assert (Hke : e <> k) by (intros <-; apply Hk; auto). rewrite lookup_insert_ne by exact Hke. assert (Ej1 : mapInfo s1 !! k = Some j) by (cbn; rewrite lookup_insert_ne by exact Hke; exact Ej).
      apply (de_kept _ _ _ De k j); [|exact Ej1]. intros Hq. pose proof (tb_ids _ _ _ _ _ (ok_tb _ _ _ H) k j Ej) as Hk0. destruct (ok_new_at _ _ s1 nb np H1 ltac:(lia)) as (X & j2 & Ej2 & Hj2 & _). rewrite Hq, Ej1 in Ej2. injection Ej2 as <-. apply Hk. split; [rewrite Hq in X; clear -X; set_solver|eauto].
  - intros _. fold e. exists (with_ref 1 i2). cbn. rewrite lookup_insert_eq. auto.
Qed.

(** An entry in no new bucket is no longer counted as new. *)
Definition uncounted (N : Network) (s : AddrMan) : AddrMan :=
  set_counts (fun m => let c := default no_count (m !! N) in <[N := {| n_new := u64 (n_new c + -1); n_tried := n_tried c |}]> m) (set_nNew (fun n => n - 1) s).

Lemma am_uncount L U s e i : am_ok L U s -> mapInfo s !! e = Some i -> e ∈ L -> e ∉ U -> am_ok L ({[ e ]} ∪ U) (uncounted (info_network i) s).
Proof using.
  intros H Ei HL HU. destruct (ok_limbo _ _ _ e H HL) as (j & Ej & Hj & _). rewrite Ei in Ej. injection Ej as <-. pose proof H as [A B C D F G].
  split; cbn; [exact A|exact B|exact (ct_uncount _ _ _ _ _ _ C e i Ei Hj HU (count_new_bumped _ _ _ _ _ _ (-1) C))|set_solver|exact F|exact G].
Qed.

Definition tried_now (id : Z) (i : AddrInfo) (b p : Z) (s : AddrMan) : AddrMan :=
  set_counts (fun m => let c := default no_count (m !! info_network i) in <[info_network i := {| n_new := n_new c; n_tried := u64 (n_tried c + 1) |}]> m)
    (set_info <[id := with_tried true i]> (set_nTried (fun n => i32 (n + 1)) (set_table true <[(b, p) := id]> s))).

Lemma am_try L U s id i : am_ok L U s -> mapInfo s !! id = Some i -> id ∈ U -> 0 < m_last_success i -> cell true s (tbucket (nKey s) i) (tpos (nKey s) i) = -1 ->
  am_ok (L ∖ {[ id ]}) (U ∖ {[ id ]}) (tried_now id i (tbucket (nKey s) i) (tpos (nKey s) i) s).
Proof using.
  intros H Ei HU Hs Hc. pose proof H as [A B C D F G]. pose proof (ct_try _ _ _ _ _ _ C id i Ei HU (count_tried_bumped _ _ _ _ _ _ 1 C)) as C'. assert (Small : i32 (nTried s + 1) = nTried s + 1).
  { apply i32_small. pose proof (ok_tried_small _ _ _ H). rewrite (ct_nt _ _ _ _ _ C'). pose proof (mcnt_range (is_tried None) (<[id := with_tried true i]> (mapInfo s))). pose proof (ct_small _ _ _ _ _ C'). lia. }
  split; cbn.
  - apply (ix_update _ _ _ _ id i); [exact A|exact Ei|reflexivity|reflexivity].
  - apply (tb_try _ _ _ _ _ id i B Ei); [set_solver|exact Hs|exact Hc].
  - rewrite Small. exact C'.
  - set_solver.
  - apply times_insert; [exact F|exact (F id i Ei)].
  - exact G.
Qed.

Record made_tried (id b p : Z) (s s' : AddrMan) : Prop := {
  mt_steady : steady s s';
  mt_cells b' p' : cell true s' b' p' = if decide ((b, p) = (b', p')) then id else cell true s b' p';
  mt_from k j' : mapInfo s' !! k = Some j' -> exists j, mapInfo s !! k = Some j /\ ai_service j' = ai_service j;
  mt_kept k j : k <> id -> k <> cell true s b p -> mapInfo s !! k = Some j -> fInTried j = true -> exists j', mapInfo s' !! k = Some j' /\ up_to_pos j j';
  mt_entry : exists i, mapInfo s' !! id = Some i /\ fInTried i = true;
  mt_moved : cell true s b p <> -1 -> exists i, mapInfo s' !! cell true s b p = Some i /\ fInTried i = false /\ nRefCount i = 1;
}.

Lemma MakeTried_spec s id i : am_ok ∅ ∅ s -> mapInfo s !! id = Some i -> fInTried i = false -> 0 < m_last_success i ->
  exists s', MakeTried id s = (Ok tt, s') /\ am_ok ∅ ∅ s' /\ made_tried id (tbucket (nKey s) i) (tpos (nKey s) i) s s'.
Proof using.
  intros H Ei Hi Hs. assert (In1 : id ∈ ({[ id ]} ∪ ∅ : gset Z)) by set_solver. assert (Out : id ∉ (∅ : gset Z)) by set_solver. unfold MakeTried, mbind at 1, stm_bind at 1, get_st at 1. rewrite (bind_ok _ _ _ _ _ (info_ref_ok s id i Ei)). set (start := GetNewBucket (nKey s) (source i) i).
  destruct (unlink_loop_spec ∅ ∅ start id (seqZ 0 ADDRMAN_NEW_BUCKET_COUNT) s i H Ei Hi Out ltac:(intros; apply every_bucket; assumption)) as (s1 & Run1 & H1 & F1 & M1 & _). rewrite (bind_ok _ _ _ _ _ Run1).
  assert (E1 : mapInfo s1 !! id = Some (with_ref 0 i)) by (rewrite M1; apply lookup_insert_eq). pose proof (am_uncount _ _ s1 id _ H1 E1 In1 Out) as H2. change (info_network (with_ref 0 i)) with (info_network i) in H2.
  unfold count_new. rewrite !bind_modify. change (set_counts _ (set_nNew _ s1)) with (uncounted (info_network i) s1). set (s2 := uncounted (info_network i) s1) in *. rewrite (bind_ok _ _ _ _ _ (info_ref_ok s2 id _ E1)), (bind_ok _ _ _ _ _ (assert_st_ok (nRefCount (with_ref 0 i) =? 0) s2 eq_refl)).
  change (GetBucketPosition (nKey s) false (GetTriedBucket (nKey s) i) i) with (tpos (nKey s) i). change (GetTriedBucket (nKey s) i) with (tbucket (nKey s) i). pose proof (tried_in_table (nKey s) i) as Hin. set (b := tbucket (nKey s) i) in *. set (p := tpos (nKey s) i) in *.
  destruct (evict_tried_spec _ _ s2 b p H2 Hin) as (s3 & Run3 & H3 & Ev). rewrite (bind_ok _ _ _ _ _ Run3), (bind_ok _ _ _ _ _ (read_cell_ok true s3 b p Hin)). pose proof (ev_cells _ _ _ _ _ Ev b p) as Cl. rewrite decide_True in Cl by reflexivity.
  rewrite (bind_ok _ _ _ _ _ (assert_st_ok _ s3 (proj2 (Z.eqb_eq _ _) Cl))), (bind_ok _ _ _ _ _ (write_cell_ok true s3 b p id Hin)), bind_modify.
  destruct (de_kept _ _ _ (ev_info _ _ _ _ _ Ev) id _ ltac:(intros [X _]; exact (X In1)) E1) as (i3 & E3 & q & Hi3). rewrite (bind_ok _ _ _ _ _ (change_info_ok (set_nTried (fun n => i32 (n + 1)) (set_table true <[(b, p) := id]> s3)) id i3 _ E3)). unfold count_tried, modify_st. eexists. split; [reflexivity|].
  assert (Hk : nKey s3 = nKey s) by (rewrite (st_key _ _ (ev_steady _ _ _ _ _ Ev)); exact (fr_key _ _ F1)). assert (Hsv : ai_service i3 = ai_service i) by (rewrite Hi3; reflexivity). destruct (same_bucket (nKey s) i3 i Hsv) as (P1 & P2 & _).
  pose proof (am_try _ _ s3 id i3 H3 E3 In1 ltac:(rewrite Hi3; exact Hs)) as H4. rewrite Hk, P1, P2 in H4. fold b p in H4. specialize (H4 Cl). unfold tried_now in H4. replace (info_network i3) with (info_network i) in H4 by (unfold info_network; rewrite Hsv; reflexivity). split; [|split].
  - replace (({[ id ]} ∪ ∅) ∖ {[ id ]} : gset Z) with (∅ : gset Z) in H4 by (clear; set_solver). exact H4.
  - apply (steady_trans s s1); [exact (framed_steady _ _ F1)|]. destruct (ev_steady _ _ _ _ _ Ev). split; assumption.
  - intros b' p'. transitivity (cellv (<[(b, p) := id]> (vvTried s3)) b' p'); [reflexivity|]. rewrite cellv_insert. destruct (decide _) as [|Hq]; [reflexivity|]. change (cellv (vvTried s3) b' p') with (cell true s3 b' p'). rewrite (ev_cells _ _ _ _ _ Ev), decide_False by exact Hq.
    unfold cell. cbn. rewrite (fr_tried _ _ F1). reflexivity.
  - assert (From : forall k j, mapInfo s3 !! k = Some j -> exists j0, mapInfo s !! k = Some j0 /\ ai_service j = ai_service j0).
    { intros k j (j1 & Ej1 & Hj1)%(de_from _ _ _ (ev_info _ _ _ _ _ Ev)). cbn in Ej1. rewrite M1 in Ej1. apply lookup_insert_Some in Ej1 as [[<- <-]|[_ Ej1]]; [exists i; auto|eauto]. }
    intros k j. cbn. rewrite lookup_insert_Some. intros [[<- <-]|[_ Ej]]; [exists i; auto|exact (From k j Ej)].
  - intros k j Hki Hk' Ej Hj. cbn. rewrite lookup_insert_ne by congruence. apply (de_kept _ _ _ (ev_info _ _ _ _ _ Ev) k j); cbn; rewrite M1, lookup_insert_ne by congruence; [|exact Ej]. unfold cell. cbn. rewrite (fr_tried _ _ F1). intros [_ [X|(j0 & X & Y)]]; [exact (Hk' X)|congruence].
  - exists (with_tried true i3). cbn. rewrite lookup_insert_eq. auto.
  - assert (Cs : cell true s2 b p = cell true s b p) by (unfold cell; cbn; rewrite (fr_tried _ _ F1); reflexivity). intros Hc. destruct (ev_moved _ _ _ _ _ Ev ltac:(congruence)) as (j & Ej & Hj & Hr). rewrite Cs in Ej. exists j. cbn.
    rewrite lookup_insert_ne; [auto|]. intros Hq. rewrite <- Hq in Hc. destruct (ok_tried_at _ _ _ b p H) as (j0 & Ej0 & Hj0 & _); [congruence|]. rewrite <- Hq in Ej0. congruence.
Qed.
End Moves.
