(* ===== verification/AddrManOps.v ===== *)
(** * The operations of the address manager and its check

    Every operation returns and keeps the invariant, and [CheckAddrman] finds no
    error in a state that has it. *)

From stdpp Require Import base numbers list gmap sorting strings.
From Stdlib Require Import ZArith Lia.
From S2P Require Import Prelude Params Streams Serialize AddrMan AddrManProofs.

Local Open Scope Z_scope.

(** * The operations of the address manager

    Every operation returns and keeps the invariant [man_ok] of the tables and
    of the collisions that wait for a test; what each has done. *)

Section Ops.
Context {E : AddrEnv}.

(** What waits to enter the tried table waits for an occupied place. *)
Record collisions_ok (s : AddrMan) : Prop := {
  co_old id : id ∈ m_tried_collisions s -> id < nIdCount s;
  co_place id i : id ∈ m_tried_collisions s -> mapInfo s !! id = Some i -> cell true s (tbucket (nKey s) i) (tpos (nKey s) i) <> -1;
  co_size : (size (m_tried_collisions s) <= ADDRMAN_SET_TRIED_COLLISION_SIZE)%nat;
}.

Record man_ok (s : AddrMan) : Prop := { man_am : am_ok ∅ ∅ s; man_coll : collisions_ok s }.

(** How the state moves on: identifiers are not used again, addresses stay
    with them, and a place of the tried table stays occupied. *)
Record later (s s' : AddrMan) : Prop := {
  lt_key : nKey s' = nKey s;
  lt_ids : nIdCount s <= nIdCount s';
  lt_tried b p : cell true s b p <> -1 -> cell true s' b p <> -1;
  lt_info k i' : k < nIdCount s -> mapInfo s' !! k = Some i' -> exists i, mapInfo s !! k = Some i /\ ai_service i' = ai_service i;
}.

Lemma later_refl s : later s s.
Proof using. split; [reflexivity|lia|auto|eauto]. Qed.
Lemma later_trans s1 s2 s3 : later s1 s2 -> later s2 s3 -> later s1 s3.
Proof using.
  intros [A1 A2 A3 A4] [B1 B2 B3 B4]. split; [congruence|lia|auto|]. intros k i Hk Ei. destruct (B4 k i ltac:(lia) Ei) as (i2 & Ei2 & H2). destruct (A4 k i2 Hk Ei2) as (i1 & Ei1 & H1). exists i1. split; [exact Ei1|congruence].
Qed.

Lemma framed_later D s s' : framed s s' -> descends D s s' -> later s s'.
Proof using.
  intros [F1 F2 F3 F4 F5] [De _]. split; [exact F1|lia| |].
  - intros b p. unfold cell. cbn. rewrite F3. auto.
  - intros k i' _ Ei. exact (De k i' Ei).
Qed.

Lemma collisions_later s s' : collisions_ok s -> later s s' -> m_tried_collisions s' ⊆ m_tried_collisions s -> collisions_ok s'.
Proof using.
  intros [C1 C2 C3] [A1 A2 A3 A4] Hs. split.
  - intros id Hid%Hs. specialize (C1 id Hid). lia.
  - intros id i' Hid%Hs Ei. destruct (A4 id i' (C1 id Hid) Ei) as (i & Ei0 & Hi). apply A3. rewrite A1. destruct (same_bucket (nKey s) i' i Hi) as (-> & -> & _). exact (C2 id i Hid Ei0).
  - etransitivity; [apply subseteq_size, Hs|exact C3].
Qed.

(** An entry changes in what neither table depends on. *)
Definition touches (f : AddrInfo -> AddrInfo) : Prop := forall i : AddrInfo, ai_service (f i) = ai_service i /\ nRandomPos (f i) = nRandomPos i /\ fInTried (f i) = fInTried i /\ nRefCount (f i) = nRefCount i.

Lemma set_info_later s id i i' : mapInfo s !! id = Some i -> ai_service i' = ai_service i -> later s (set_info <[id := i']> s).
Proof using. intros Ei Hs. split; [reflexivity|cbn; lia|auto|]. cbn. intros k j _ [[<- <-]|[_ Ej]]%lookup_insert_Some; eauto. Qed.

Lemma change_spec L U s id i f : am_ok L U s -> mapInfo s !! id = Some i -> touches f -> (fInTried i = true -> 0 < m_last_success (f i)) -> 0 <= m_last_try (f i) -> 0 <= m_last_success (f i) ->
  change_info id f s = (Ok tt, set_info <[id := f i]> s) /\ am_ok L U (set_info <[id := f i]> s) /\ later s (set_info <[id := f i]> s).
Proof using.
  intros H Ei Hf H1 H2 H3. destruct (Hf i) as (F1 & F2 & F3 & F4). split; [exact (change_info_ok s id i f Ei)|]. split; [exact (am_update L U s id i (f i) H Ei F1 F2 F3 F4 H1 H2 H3)|exact (set_info_later s id i (f i) Ei F1)].
Qed.

Lemma ok_success L U s id i : am_ok L U s -> mapInfo s !! id = Some i -> (fInTried i = true -> 0 < m_last_success i) /\ 0 <= m_last_try i /\ 0 <= m_last_success i.
Proof using. intros H Ei. split; [intros Hi; apply (tb_placed _ _ _ _ _ (ok_tb _ _ _ H) id i Ei Hi)|exact (ok_times _ _ _ H id i Ei)]. Qed.

(** [Find] is the map of addresses. *)
Lemma Find_ok L U s addr : am_ok L U s -> Find addr s = mapAddr s !! addr.
Proof using. intros H. unfold Find. destruct (mapAddr s !! addr) as [id|] eqn:Ea; [|reflexivity]. apply (ix_addr _ _ _ _ (ok_ix _ _ _ H)) in Ea as (i & -> & _). reflexivity. Qed.
Lemma Find_some L U s addr id : am_ok L U s -> Find addr s = Some id -> exists i, mapInfo s !! id = Some i /\ ai_service i = addr.
Proof using. intros H. rewrite (Find_ok _ _ _ _ H). apply (ix_addr _ _ _ _ (ok_ix _ _ _ H)). Qed.

(** ** Adding *)

(** The place in the new table of an address and a source. *)
Definition listed (s : AddrMan) (src : CNetAddr) (id : Z) (i : AddrInfo) : Prop := mapInfo s !! id = Some i /\ fInTried i = false /\
  cell false s (GetNewBucket (nKey s) src i) (npos (nKey s) i (GetNewBucket (nKey s) src i)) = id.

Record added (s s' : AddrMan) : Prop := { ad_later : later s s'; ad_ids : nIdCount s' = nIdCount s; ad_coll : m_tried_collisions s' = m_tried_collisions s; ad_cells b p : cell true s' b p = cell true s b p }.

Lemma link_added s s1 id i b p : framed s s1 -> descends (fun k => k = cell false s b p) s s1 -> mapInfo s1 !! id = Some i -> added s (linked id i b p s1).
Proof using.
  intros F D Ei. split; [|exact (fr_ids _ _ F)|exact (fr_coll _ _ F)|intros b' p'; unfold cell; cbn; rewrite (fr_tried _ _ F); reflexivity]. apply (later_trans s s1); [exact (framed_later _ _ _ F D)|]. split; [reflexivity|cbn; lia|auto|]. cbn. intros k j _ [[<- <-]|[_ Ej]]%lookup_insert_Some; eauto.
Qed.

Lemma add_to_new_spec L s src now id i : am_ok L ∅ s -> L ⊆ {[ id ]} -> mapInfo s !! id = Some i -> fInTried i = false -> nRefCount i < ADDRMAN_NEW_BUCKETS_PER_ADDRESS ->
  exists r s', add_to_new src now id s = (Ok r, s') /\ am_ok ∅ ∅ s' /\ added s s' /\ (r = true -> exists i', listed s' src id i' /\ ai_service i' = ai_service i).
Proof using.
  intros H HL Ei Hi Hr. unfold add_to_new, mbind at 1, stm_bind at 1, get_st at 1. rewrite (bind_ok _ _ _ _ _ (info_ref_ok s id i Ei)). set (b := GetNewBucket (nKey s) src i). pose proof (new_bucket_range (nKey s) src i) as Hb. fold b in Hb.
  change (GetBucketPosition (nKey s) true b i) with (npos (nKey s) i b). pose proof (new_in_table (nKey s) b i Hb) as Hin. set (p := npos (nKey s) i b) in *. rewrite (bind_ok _ _ _ _ _ (read_cell_ok false s b p Hin)). set (c := cell false s b p).
  pose proof (ix_ids _ _ _ _ (ok_ix _ _ _ H) id i Ei) as Hid. assert (Empty : id ∉ L -> L = ∅) by (clear -HL; intros; set_solver). assert (Clear : L ∖ {[ id ]} = ∅) by (clear -HL; set_solver).
  destruct (Z.eqb_spec c id) as [Hc|Hc].
  { assert (L0 : L = ∅) by (apply Empty; rewrite <- Hc; apply (ok_new_at _ _ _ _ _ H); unfold c in Hc; lia). rewrite L0 in H. exists false, s. replace (c =? -1) with false by (symmetry; apply Z.eqb_neq; lia). split; [reflexivity|]. split; [exact H|]. split; [split; [apply later_refl|reflexivity|reflexivity|reflexivity]|discriminate]. }
  set (flag := if c =? -1 then _ else _). assert (Hflag : exists x, flag s = (Ok x, s)).
  { unfold flag. destruct (Z.eqb_spec c (-1)) as [Hn|Hn]; [eexists; reflexivity|]. destruct (ok_new_at _ _ _ _ _ H Hn) as (_ & j & Ej & _). fold c in Ej. rewrite (bind_ok _ _ _ _ _ (info_index_ok s c j Ej)). eexists. reflexivity. }
  destruct Hflag as [x Hx]. rewrite (bind_ok _ _ _ _ _ Hx). destruct x.
  - destruct (ClearNew_spec _ _ s b p H Hin) as (s1 & Run & H1 & F & D & Cl). rewrite (bind_ok _ _ _ _ _ Run). destruct (de_kept _ _ _ D id i Hc Ei) as (i1 & Ei1 & q & Hi1). rewrite (bind_ok _ _ _ _ _ (info_ref_ok s1 id i1 Ei1)), (bind_ok _ _ _ _ _ (change_info_ok s1 id i1 _ Ei1)), (bind_ok _ _ _ _ _ (write_cell_ok false _ b p id Hin)).
    change (set_table false _ (set_info _ s1)) with (linked id i1 b p s1). exists true, (linked id i1 b p s1). split; [reflexivity|]. assert (Hp : npos (nKey s1) i1 b = p) by (rewrite (fr_key _ _ F), Hi1; reflexivity).
    pose proof (am_link L ∅ s1 b id i1 H1 Ei1 ltac:(rewrite Hi1; exact Hi) ltac:(rewrite Hi1; exact Hr) Hb ltac:(apply not_elem_of_empty)) as H2. rewrite Hp, Clear in H2. split; [exact (H2 Cl)|].
    split; [apply (link_added s s1); [exact F|destruct D as [D1 D2]; split; [exact D1|intros k j Hk; apply D2; congruence]|exact Ei1]|]. intros _. exists (with_ref (nRefCount i1 + 1) i1). split; [|rewrite Hi1; reflexivity]. split; [cbn; apply lookup_insert_eq|]. split; [rewrite Hi1; exact Hi|].
    cbn [linked nKey set_table set_info]. rewrite (fr_key _ _ F). assert (Hb1 : GetNewBucket (nKey s) src (with_ref (nRefCount i1 + 1) i1) = b) by (rewrite Hi1; reflexivity). rewrite Hb1. replace (npos (nKey s) (with_ref (nRefCount i1 + 1) i1) b) with p by (rewrite Hi1; reflexivity).
    transitivity (cellv (<[(b, p) := id]> (vvNew s1)) b p); [reflexivity|]. rewrite cellv_insert, decide_True by reflexivity. reflexivity.
  - destruct (Z.eqb_spec (nRefCount i) 0) as [Hz|Hz].
    + destruct (decide (id ∈ L)) as [HidL|HidL]; [|destruct (tb_ref _ _ _ _ _ (ok_tb _ _ _ H) id i Ei Hi) as (_ & _ & R); specialize (R HidL); lia].
      destruct (Delete_spec L ∅ s id H HidL ltac:(apply not_elem_of_empty)) as (s1 & Run & H1 & F & _ & D & _). rewrite (bind_ok _ _ _ _ _ Run). exists false, s1. split; [reflexivity|]. rewrite Clear in H1. split; [exact H1|]. split; [split; [exact (framed_later _ _ _ F D)|exact (fr_ids _ _ F)|exact (fr_coll _ _ F)|intros b' p'; unfold cell; cbn; rewrite (fr_tried _ _ F); reflexivity]|discriminate].
    + assert (HidL : id ∉ L) by (intros HidL; destruct (ok_limbo _ _ _ id H HidL) as (j & Ej & _ & Hj & _); congruence). exists false, s. rewrite (Empty HidL) in H. split; [reflexivity|]. split; [exact H|]. split; [split; [apply later_refl|reflexivity|reflexivity|reflexivity]|discriminate].
Qed.

Lemma added_refl s : added s s.
Proof using. split; [apply later_refl|reflexivity|reflexivity|reflexivity]. Qed.
Lemma added_trans s1 s2 s3 : added s1 s2 -> added s2 s3 -> added s1 s3.
Proof using. intros [] []. split; [eapply later_trans; eassumption|congruence|congruence|intros; etransitivity; eauto]. Qed.

Lemma change_added L U s id i f : am_ok L U s -> mapInfo s !! id = Some i -> touches f -> (fInTried i = true -> 0 < m_last_success (f i)) -> 0 <= m_last_try (f i) -> 0 <= m_last_success (f i) ->
  exists s', change_info id f s = (Ok tt, s') /\ am_ok L U s' /\ added s s' /\ mapInfo s' !! id = Some (f i).
Proof using.
  intros H Ei Hf H1 H2 H3. destruct (change_spec L U s id i f H Ei Hf H1 H2 H3) as (Run & H' & Lt). eexists. split; [exact Run|]. split; [exact H'|]. split; [split; [exact Lt|reflexivity|reflexivity|reflexivity]|cbn; apply lookup_insert_eq].
Qed.
Lemma touches_time t : touches (with_time t).
Proof using. intros i. auto. Qed.
Lemma touches_services t : touches (with_services t).
Proof using. intros i. auto. Qed.
Lemma touches_success t : touches (with_success t).
Proof using. intros i. auto. Qed.
Lemma touches_try t : touches (with_try t).
Proof using. intros i. auto. Qed.
Lemma touches_counted t : touches (with_counted t).
Proof using. intros i. auto. Qed.

Lemma add_known_spec s addr pen now draw id i : am_ok ∅ ∅ s -> mapInfo s !! id = Some i ->
  exists r s' i', add_known addr pen now draw id s = (Ok r, s') /\ am_ok ∅ ∅ s' /\ added s s' /\ mapInfo s' !! id = Some i' /\ ai_service i' = ai_service i /\
    (r = true -> fInTried i' = false /\ nRefCount i' < ADDRMAN_NEW_BUCKETS_PER_ADDRESS).
Proof using.
  intros H Ei. unfold add_known. rewrite (bind_ok _ _ _ _ _ (info_ref_ok s id i Ei)). set (upd := if ai_time i <? _ then _ else _).
  assert (Upd : exists s1 i1, upd s = (Ok tt, s1) /\ am_ok ∅ ∅ s1 /\ added s s1 /\ mapInfo s1 !! id = Some i1 /\ ai_service i1 = ai_service i).
  { unfold upd. destruct (ai_time i <? _); [|exists s, i; split; [reflexivity|]; auto using added_refl]. destruct (ok_success _ _ _ id i H Ei) as (S1 & S2 & S3).
    destruct (change_added _ _ s id i _ H Ei (touches_time (Z.max 0 (ca_time addr - pen))) S1 S2 S3) as (s1 & Run & H1 & A1 & E1). exists s1, (with_time (Z.max 0 (ca_time addr - pen)) i). auto. }
  destruct Upd as (s1 & i1 & Run & H1 & A1 & E1 & V1). rewrite (bind_ok _ _ _ _ _ Run). destruct (ok_success _ _ _ id i1 H1 E1) as (S1 & S2 & S3). set (sv := Z.lor _ _).
  destruct (change_added _ _ s1 id i1 _ H1 E1 (touches_services sv) S1 S2 S3) as (s2 & Run2 & H2 & A2 & E2). rewrite (bind_ok _ _ _ _ _ Run2), (bind_ok _ _ _ _ _ (info_ref_ok s2 id _ E2)). set (i2 := with_services sv i1) in *.
  assert (Fin : forall r, (r = true -> fInTried i2 = false /\ nRefCount i2 < ADDRMAN_NEW_BUCKETS_PER_ADDRESS) -> exists r0 s' i', (Ok r, s2) = (Ok r0, s') /\ am_ok ∅ ∅ s' /\ added s s' /\ mapInfo s' !! id = Some i' /\ ai_service i' = ai_service i /\ (r0 = true -> fInTried i' = false /\ nRefCount i' < ADDRMAN_NEW_BUCKETS_PER_ADDRESS)).
  { intros r Hr. exists r, s2, i2. split; [reflexivity|]. split; [exact H2|]. split; [exact (added_trans _ _ _ A1 A2)|]. split; [exact E2|]. split; [exact V1|exact Hr]. }
  destruct (ca_time addr <=? _); [apply Fin; discriminate|]. destruct (fInTried i2) eqn:Ht; [apply Fin; discriminate|]. destruct (Z.eqb_spec (nRefCount i2) ADDRMAN_NEW_BUCKETS_PER_ADDRESS) as [|Hn]; [apply Fin; discriminate|].
  destruct (_ && _)%bool; [apply Fin; discriminate|]. apply Fin. intros _. split; [reflexivity|]. destruct (tb_ref _ _ _ _ _ (ok_tb _ _ _ H2) id i2 E2 Ht) as (_ & R & _). lia.
Qed.

Definition Listed (s : AddrMan) (src : CNetAddr) (addr : CService) : Prop := exists id i, listed s src id i /\ ai_service i = addr.

Lemma AddSingle_spec s addr src pen now draw : man_ok s -> nIdCount s + 1 < 2 ^ 31 ->
  exists r s', AddSingle addr src pen now draw s = (Ok r, s') /\ man_ok s' /\ later s s' /\ nIdCount s' <= nIdCount s + 1 /\ (forall b p, cell true s' b p = cell true s b p) /\ (r = true -> Listed s' src (ca_service addr)).
Proof using.
  intros [H C] Hlt. unfold AddSingle. destruct (negb _).
  { exists false, s. split; [reflexivity|]. split; [split; assumption|]. split; [apply later_refl|]. split; [lia|]. split; [reflexivity|discriminate]. }
  unfold mbind at 1, stm_bind at 1, get_st at 1. set (tp := if decide _ then 0 else pen). destruct (Find (ca_service addr) s) as [id|] eqn:Ef.
  - destruct (Find_some _ _ _ _ _ H Ef) as (i & Ei & Hs). destruct (add_known_spec s addr tp now draw id i H Ei) as (r & s1 & i1 & Run & H1 & A1 & E1 & V1 & Hr). rewrite (bind_ok _ _ _ _ _ Run).
    assert (Keep : forall s2, am_ok ∅ ∅ s2 -> added s1 s2 -> man_ok s2 /\ later s s2 /\ nIdCount s2 <= nIdCount s + 1 /\ forall b p, cell true s2 b p = cell true s b p).
    { intros s2 H2 A2. destruct (added_trans _ _ _ A1 A2) as [Lt Ids Co Ce]. split; [split; [exact H2|apply (collisions_later s s2 C Lt); rewrite Co; reflexivity]|]. split; [exact Lt|]. split; [lia|exact Ce]. }
    destruct r; [|exists false, s1; split; [reflexivity|]; destruct (Keep s1 H1 (added_refl s1)) as (K1 & K2 & K3 & K4); split; [exact K1|split; [exact K2|split; [exact K3|split; [exact K4|discriminate]]]]]. destruct (Hr eq_refl) as [T1 R1].
    destruct (add_to_new_spec ∅ s1 src now id i1 H1 ltac:(apply empty_subseteq) E1 T1 R1) as (r & s2 & Run2 & H2 & A2 & Hr2). exists r, s2. split; [exact Run2|]. destruct (Keep s2 H2 A2) as (K1 & K2 & K3 & K4). split; [exact K1|]. split; [exact K2|]. split; [exact K3|]. split; [exact K4|].
    intros (i2 & L2 & V2)%Hr2. exists id, i2. split; [exact L2|congruence].
  - assert (Hn : mapAddr s !! ca_service addr = None) by (rewrite <- (Find_ok _ _ _ _ H); exact Ef). destruct (Create_spec ∅ ∅ s addr src H Hn Hlt) as (s1 & Run & H1 & I1 & M1 & K1 & T1 & _ & _ & Co1). rewrite (bind_ok _ _ _ _ _ Run).
    assert (E1 : mapInfo s1 !! nIdCount s = Some (created addr src s)) by (rewrite M1; apply lookup_insert_eq). rewrite (bind_ok _ _ _ _ _ (info_ref_ok s1 _ _ E1)).
    assert (L1 : later s s1). { split; [exact K1|lia|intros b p; unfold cell; cbn; rewrite T1; auto|]. intros k j Hk. rewrite M1, lookup_insert_ne by lia. eauto. }
    destruct (change_added _ _ s1 (nIdCount s) _ _ H1 E1 (touches_time (Z.max 0 (ai_time (created addr src s) - tp))) ltac:(discriminate) ltac:(cbn; lia) ltac:(cbn; lia)) as (s2 & Run2 & H2 & A2 & E2). rewrite (bind_ok _ _ _ _ _ Run2).
    destruct (add_to_new_spec _ s2 src now (nIdCount s) _ H2 ltac:(clear; set_solver) E2 eq_refl ltac:(reflexivity)) as (r & s3 & Run3 & H3 & A3 & Hr3). exists r, s3. split; [exact Run3|]. destruct (added_trans _ _ _ A2 A3) as [Lt Ids Co Ce].
    assert (L3 : later s s3) by exact (later_trans _ _ _ L1 Lt). split; [split; [exact H3|apply (collisions_later s s3 C L3); rewrite Co, Co1; reflexivity]|]. split; [exact L3|]. split; [lia|]. split; [intros b p; rewrite Ce; unfold cell; cbn; rewrite T1; reflexivity|]. intros (i3 & L & V)%Hr3. exists (nIdCount s), i3. split; [exact L|exact V].
Qed.

Lemma add_all_spec src pen now : forall vAddr s n, man_ok s -> nIdCount s + Z.of_nat (length vAddr) < 2 ^ 31 ->
  exists r s', add_all vAddr src pen now n s = (Ok r, s') /\ man_ok s' /\ later s s' /\ nIdCount s' <= nIdCount s + Z.of_nat (length vAddr) /\ forall b p, cell true s' b p = cell true s b p.
Proof using.
  induction vAddr as [|[addr draw] rest IH]; intros s n H Hlt; cbn [add_all length] in *; [exists n, s; split; [reflexivity|]; split; [exact H|]; split; [apply later_refl|]; split; [lia|reflexivity]|].
  destruct (AddSingle_spec s addr src pen now draw H ltac:(lia)) as (ok & s1 & Run & H1 & L1 & I1 & C1 & _). rewrite (bind_ok _ _ _ _ _ Run). destruct (IH s1 (n + if ok then 1 else 0) H1 ltac:(lia)) as (r & s2 & Run2 & H2 & L2 & I2 & C2).
  exists r, s2. split; [exact Run2|]. split; [exact H2|]. split; [exact (later_trans _ _ _ L1 L2)|]. split; [lia|]. intros b p. rewrite C2. apply C1.
Qed.

Lemma Add_spec s vAddr src pen now : man_ok s -> nIdCount s + Z.of_nat (length vAddr) < 2 ^ 31 ->
  exists r s', Add_ vAddr src pen now s = (Ok r, s') /\ man_ok s' /\ later s s' /\ nIdCount s' <= nIdCount s + Z.of_nat (length vAddr) /\ forall b p, cell true s' b p = cell true s b p.
Proof using. intros H Hlt. destruct (add_all_spec src pen now vAddr s 0 H Hlt) as (r & s' & Run & H'). unfold Add_. rewrite (bind_ok _ _ _ _ _ Run). eauto. Qed.
End Ops.

(** * Addresses that answered

    [Good_], [Attempt_], [Connected_], [SetServices_] and the tests before an
    eviction ([ResolveCollisions_], [SelectTriedCollision_]) keep the
    invariant; when an entry of the tried table has to leave. *)

Section Good.
Context {E : AddrEnv}.

(** An address that can be moved to the tried table: it is known and not there,
    and its place is free or need not be. *)
Definition good_result (s : AddrMan) (addr : CService) (test_before_evict : bool) : bool :=
  match Find addr s with
  | Some id =>
      match mapInfo s !! id with
      | Some i => (negb (fInTried i) && negb (test_before_evict && negb (cell true s (tbucket (nKey s) i) (tpos (nKey s) i) =? -1)))%bool
      | None => false
      end
  | None => false
  end.

(** The entry [e] of the tried table stays as it is, at its place. *)
Definition stays (b p : Z) (e : Z) (i : AddrInfo) (s' : AddrMan) : Prop := cell true s' b p = e /\ exists i', mapInfo s' !! e = Some i' /\ up_to_pos i i'.

Record good_step (addr : CService) (tbe : bool) (s s' : AddrMan) : Prop := {
  gs_later : later s s';
  gs_ids : nIdCount s' = nIdCount s;
  gs_coll : tbe = false -> m_tried_collisions s' = m_tried_collisions s;
  gs_place b p i : cell true s b p <> -1 -> mapInfo s !! cell true s b p = Some i -> stays b p (cell true s b p) i s' \/ exists id j, Find addr s = Some id /\ mapInfo s !! id = Some j /\ tbucket (nKey s) j = b /\ tpos (nKey s) j = p;
  gs_tested b p : tbe = true -> cell true s b p <> -1 -> cell true s' b p = cell true s b p;
  gs_tried : good_result s addr tbe = true -> exists id i, mapInfo s' !! id = Some i /\ ai_service i = addr /\ fInTried i = true;
  gs_moved id i : Find addr s = Some id -> mapInfo s !! id = Some i -> good_result s addr tbe = true -> cell true s (tbucket (nKey s) i) (tpos (nKey s) i) <> -1 ->
    exists j, mapInfo s' !! cell true s (tbucket (nKey s) i) (tpos (nKey s) i) = Some j /\ fInTried j = false /\ nRefCount j = 1;
}.

Lemma am_last_good L U s t : am_ok L U s -> am_ok L U (set_last_good t s).
Proof using. intros [A B C D F G]. split; assumption. Qed.
Lemma am_collisions L U s f : am_ok L U s -> am_ok L U (set_collisions f s).
Proof using. intros [A B C D F G]. split; assumption. Qed.

(** An entry that is touched. *)
Lemma touched_stays s id i f b p j : mapInfo s !! id = Some i -> cell true s b p <> id -> mapInfo s !! cell true s b p = Some j -> stays b p (cell true s b p) j (set_info <[id := f i]> s).
Proof using. intros Ei Hne Ej. split; [reflexivity|]. exists j. cbn. rewrite lookup_insert_ne by congruence. split; [exact Ej|apply up_to_pos_refl]. Qed.

Lemma ok_place L U s b p i : am_ok L U s -> cell true s b p <> -1 -> mapInfo s !! cell true s b p = Some i -> fInTried i = true /\ tbucket (nKey s) i = b /\ tpos (nKey s) i = p.
Proof using. intros H Hc Ei. destruct (ok_tried_at _ _ _ _ _ H Hc) as (j & Ej & Hj & Hb & Hp & _). rewrite Ei in Ej. injection Ej as <-. auto. Qed.

(** A known address is told good and stays where it is. *)
Lemma good_touched s addr tbe time id i : am_ok ∅ ∅ s -> 0 < time -> Find addr s = Some id -> mapInfo s !! id = Some i -> good_result s addr tbe = false ->
  let s' := set_info <[id := with_success time i]> (set_last_good time s) in am_ok ∅ ∅ s' /\ forall c, (tbe = false -> c = m_tried_collisions s) -> good_step addr tbe s (set_collisions (fun _ => c) s').
Proof using.
  intros H Ht Ef Ei Hg s'. destruct (change_spec ∅ ∅ (set_last_good time s) id i (with_success time) (am_last_good _ _ _ time H) Ei (touches_success time) ltac:(auto) ltac:(cbn; lia) ltac:(cbn; lia)) as (_ & H' & Lt). split; [exact H'|].
  intros c Hc. split; [|reflexivity|exact Hc| |reflexivity|congruence|congruence].
  - destruct Lt as [L1 L2 L3 L4]. split; assumption.
  - intros b p j Hb Ej. destruct (decide (cell true s b p = id)) as [He|He]; [right; exists id, i; rewrite He, Ei in Ej; injection Ej as <-; destruct (ok_place _ _ _ b p i H Hb ltac:(rewrite He; exact Ei)) as (_ & ? & ?); auto|]. left. exact (touched_stays (set_last_good time s) id i (with_success time) b p j Ei He Ej).
Qed.
Lemma set_collisions_same s : set_collisions (fun _ => m_tried_collisions s) s = s.
Proof using. destruct s. reflexivity. Qed.

Lemma Good_spec s addr tbe time : man_ok s -> 0 < time -> exists s', Good_ addr tbe time s = (Ok (good_result s addr tbe), s') /\ man_ok s' /\ good_step addr tbe s s'.
Proof using.
  intros [H C] Ht. unfold Good_. rewrite bind_modify. unfold mbind at 1, stm_bind at 1, get_st at 1. change (Find addr (set_last_good time s)) with (Find addr s). destruct (Find addr s) as [id|] eqn:Ef.
  2:{ assert (Hg : good_result s addr tbe = false) by (unfold good_result; rewrite Ef; reflexivity). rewrite Hg. eexists. split; [reflexivity|]. split; [split; [exact (am_last_good _ _ _ time H)|destruct C; split; assumption]|].
      split; [split; [reflexivity|cbn; lia|auto|eauto]|reflexivity|reflexivity| |reflexivity|congruence|congruence]. intros b p i _ Ei. left. split; [reflexivity|]. exists i. split; [exact Ei|apply up_to_pos_refl]. }
  destruct (Find_some _ _ _ _ _ H Ef) as (i & Ei & Hs). set (i1 := with_success time i). set (s1 := set_info <[id := i1]> (set_last_good time s)). rewrite (bind_ok _ _ _ _ _ (change_info_ok (set_last_good time s) id i _ Ei)). fold i1 s1.
  assert (E1 : mapInfo s1 !! id = Some i1) by (cbn; apply lookup_insert_eq). rewrite (bind_ok _ _ _ _ _ (info_ref_ok s1 id i1 E1)). change (fInTried i1) with (fInTried i). change (nRefCount i1) with (nRefCount i). change (nKey (set_last_good time s)) with (nKey s).
  change (GetBucketPosition (nKey s) false (GetTriedBucket (nKey s) i1) i1) with (tpos (nKey s) i). change (GetTriedBucket (nKey s) i1) with (tbucket (nKey s) i). set (b := tbucket (nKey s) i). set (p := tpos (nKey s) i).
  assert (Hg : good_result s addr tbe = (negb (fInTried i) && negb (tbe && negb (cell true s b p =? -1)))%bool) by (unfold good_result; rewrite Ef, Ei; reflexivity). pose proof (good_touched s addr tbe time id i H Ht Ef Ei) as Touch. cbn zeta in Touch. fold i1 s1 in Touch.
  destruct (fInTried i) eqn:Hi.
  { cbn in Hg. rewrite Hg. destruct (Touch Hg) as [H1 G1]. exists s1. split; [reflexivity|]. specialize (G1 _ (fun _ => eq_refl)). change (m_tried_collisions s) with (m_tried_collisions s1) in G1. rewrite set_collisions_same in G1. split; [split; [exact H1|]|exact G1]. exact (collisions_later s s1 C (gs_later _ _ _ _ G1) ltac:(reflexivity)). }
  destruct (tb_ref _ _ _ _ _ (ok_tb _ _ _ H) id i Ei Hi) as (_ & _ & Hr). specialize (Hr ltac:(apply not_elem_of_empty)). replace (nRefCount i >? 0) with true by (symmetry; apply Z.gtb_lt; lia). cbn [negb]. pose proof (tried_in_table (nKey s) i) as Hin. fold b p in Hin.
  rewrite (bind_ok _ _ _ _ _ (read_cell_ok true s1 b p Hin)). change (cell true s1 b p) with (cell true s b p). cbn [negb andb] in Hg. destruct (tbe && negb (cell true s b p =? -1))%bool eqn:Hq; cbn [negb] in Hg.
  - apply andb_true_iff in Hq as [Hq1 Hq2]. apply negb_true_iff, Z.eqb_neq in Hq2. rewrite Hg, bind_modify. destruct (Touch Hg) as [H1 G1]. pose (c := if (size (m_tried_collisions s) <? ADDRMAN_SET_TRIED_COLLISION_SIZE)%nat then {[ id ]} ∪ m_tried_collisions s else m_tried_collisions s).
    exists (set_collisions (fun _ => c) s1). split; [reflexivity|]. specialize (G1 c ltac:(congruence)). split; [|exact G1]. split; [apply am_collisions; exact H1|]. destruct C as [C1 C2 C3]. pose proof (gs_later _ _ _ _ G1) as Lt.
    assert (Hc : forall k, k ∈ c -> k = id \/ k ∈ m_tried_collisions s) by (unfold c; intros k; destruct (_ <? _)%nat; clear; set_solver). split.
    + intros k [->|Hk]%Hc; [exact (proj2 (ix_ids _ _ _ _ (ok_ix _ _ _ H) id i Ei))|exact (C1 k Hk)].
    + intros k j Hk Ej. cbn in Ej. apply lookup_insert_Some in Ej as [[<- <-]|[Hne Ej]]; [exact Hq2|]. apply Hc in Hk as [->|Hk]; [contradiction|]. exact (C2 k j Hk Ej).
    + cbn [m_tried_collisions set_collisions]. unfold c. destruct (Nat.ltb_spec (size (m_tried_collisions s)) ADDRMAN_SET_TRIED_COLLISION_SIZE); [|exact C3]. pose proof (size_union_alt {[ id ]} (m_tried_collisions s)) as Su. pose proof (subseteq_size (m_tried_collisions s ∖ {[ id ]}) (m_tried_collisions s) ltac:(set_solver)). rewrite size_singleton in Su. lia.
  - assert (H1 : am_ok ∅ ∅ s1) by (apply (am_update _ _ (set_last_good time s) id i i1 (am_last_good _ _ _ time H) Ei); try reflexivity; [intros _; exact Ht|cbn; lia|cbn; lia]).
    destruct (MakeTried_spec s1 id i1 H1 E1 Hi Ht) as (s2 & Run & H2 & Mt). rewrite (bind_ok _ _ _ _ _ Run), Hg. exists s2. split; [reflexivity|]. change (tbucket (nKey s1) i1) with b in Mt. change (tpos (nKey s1) i1) with p in Mt. destruct Mt as [[T1 T2 T3 T4] Cs From Kept (it & Eit & Hit) Mv].
    assert (Lt : later s s2).
    { split; [exact T1|rewrite T2; cbn; lia| |]. - intros b' p' Hc. rewrite Cs. destruct (decide _); [pose proof (ix_ids _ _ _ _ (ok_ix _ _ _ H) id i Ei); lia|exact Hc].
      - intros k j _ (j1 & Ej1 & Hj1)%From. cbn in Ej1. apply lookup_insert_Some in Ej1 as [[<- <-]|[_ Ej1]]; [exists i; auto|eauto]. }
    split; [split; [exact H2|apply (collisions_later s s2 C Lt); rewrite T4; reflexivity]|]. split; [exact Lt|exact T2|intros _; exact T4| | | |].
    + intros b' p' j Hc Ej. destruct (decide ((b, p) = (b', p'))) as [Hbp|Hbp]; [right; exists id, i; injection Hbp as <- <-; auto|]. left. split; [rewrite Cs, decide_False by exact Hbp; reflexivity|].
      destruct (ok_place _ _ _ b' p' j H Hc Ej) as (Hj & Hb' & Hp'). assert (Hne : cell true s b' p' <> id) by (intros Hq'; rewrite Hq', Ei in Ej; injection Ej as <-; congruence). apply (Kept _ j Hne); [|cbn; rewrite lookup_insert_ne by congruence; exact Ej|exact Hj].
      intros Hq'. change (cell true s1 b p) with (cell true s b p) in Hq'. apply Hbp. rewrite Hq' in Ej, Hc. destruct (ok_place _ _ _ b p j H Hc Ej) as (_ & <- & <-). congruence.
    + intros b' p' -> Hc. rewrite Cs. destruct (decide ((b, p) = (b', p'))) as [Hbp|Hbp]; [|reflexivity]. injection Hbp as <- <-. apply Z.eqb_neq in Hc. rewrite Hc in Hq. discriminate.
    + intros _. exists id, it. split; [exact Eit|]. split; [|exact Hit]. destruct (From id it Eit) as (j & Ej & Hj). rewrite E1 in Ej. injection Ej as <-. exact (eq_trans Hj Hs).
    + intros id0 i0 Ef0 Ei0 _ Hc. assert (id0 = id) as -> by congruence. assert (i0 = i) as -> by congruence. exact (Mv Hc).
Qed.

(** ** Entries that are brought up to date *)

Lemma man_added s s' : man_ok s -> am_ok ∅ ∅ s' -> added s s' -> man_ok s'.
Proof using. intros [_ C] H' [Lt _ Co _]. split; [exact H'|]. apply (collisions_later s s' C Lt). rewrite Co. reflexivity. Qed.

Lemma touch_spec s id i f : man_ok s -> mapInfo s !! id = Some i -> touches f -> 0 <= m_last_try (f i) -> m_last_success (f i) = m_last_success i ->
  exists s', change_info id f s = (Ok tt, s') /\ man_ok s' /\ added s s' /\ mapInfo s' !! id = Some (f i).
Proof using.
  intros H Ei Hf H1 H2. destruct (ok_success _ _ _ id i (man_am _ H) Ei) as (S1 & S2 & S3). destruct (change_spec ∅ ∅ s id i f (man_am _ H) Ei Hf ltac:(rewrite H2; exact S1) H1 ltac:(rewrite H2; exact S3)) as (Run & H' & Lt).
  assert (A : added s (set_info <[id := f i]> s)) by (split; [exact Lt|reflexivity|reflexivity|reflexivity]). eexists. split; [exact Run|]. split; [exact (man_added _ _ H H' A)|]. split; [exact A|cbn; apply lookup_insert_eq].
Qed.

Lemma Attempt_spec s addr count time : man_ok s -> 0 <= time -> exists s', Attempt_ addr count time s = (Ok tt, s') /\ man_ok s' /\ added s s'.
Proof using.
  intros H Ht. unfold Attempt_, mbind at 1, stm_bind at 1, get_st at 1. destruct (Find addr s) as [id|] eqn:Ef; [|exists s; split; [reflexivity|]; split; [exact H|apply added_refl]].
  destruct (Find_some _ _ _ _ _ (man_am _ H) Ef) as (i & Ei & _). destruct (touch_spec s id i _ H Ei (touches_try time) Ht eq_refl) as (s1 & Run & H1 & T1 & E1). rewrite (bind_ok _ _ _ _ _ Run), (bind_ok _ _ _ _ _ (info_ref_ok s1 id _ E1)).
  destruct (_ && _)%bool; [|exists s1; auto]. destruct (touch_spec s1 id _ _ H1 E1 (touches_counted time) Ht eq_refl) as (s2 & Run2 & H2 & T2 & _). exists s2. split; [exact Run2|]. split; [exact H2|exact (added_trans _ _ _ T1 T2)].
Qed.

Lemma Connected_spec s addr time : man_ok s -> exists s', Connected_ addr time s = (Ok tt, s') /\ man_ok s' /\ added s s'.
Proof using.
  intros H. unfold Connected_, mbind at 1, stm_bind at 1, get_st at 1. destruct (Find addr s) as [id|] eqn:Ef; [|exists s; split; [reflexivity|]; split; [exact H|apply added_refl]].
  destruct (Find_some _ _ _ _ _ (man_am _ H) Ef) as (i & Ei & _). rewrite (bind_ok _ _ _ _ _ (info_ref_ok s id i Ei)). destruct (_ >? _); [|exists s; split; [reflexivity|]; split; [exact H|apply added_refl]].
  destruct (touch_spec s id i _ H Ei (touches_time time) (proj1 (proj2 (ok_success _ _ _ id i (man_am _ H) Ei))) eq_refl) as (s1 & Run & H1 & T1 & _). eauto.
Qed.

Lemma SetServices_spec s addr services : man_ok s -> exists s', SetServices_ addr services s = (Ok tt, s') /\ man_ok s' /\ added s s'.
Proof using.
  intros H. unfold SetServices_, mbind at 1, stm_bind at 1, get_st at 1. destruct (Find addr s) as [id|] eqn:Ef; [|exists s; split; [reflexivity|]; split; [exact H|apply added_refl]].
  destruct (Find_some _ _ _ _ _ (man_am _ H) Ef) as (i & Ei & _). destruct (touch_spec s id i _ H Ei (touches_services services) (proj1 (proj2 (ok_success _ _ _ id i (man_am _ H) Ei))) eq_refl) as (s1 & Run & H1 & T1 & _). eauto.
Qed.

(** ** Tests before an eviction *)

(** The entry has not answered for four hours, and was tried a minute ago or
    longer. *)
Definition unheard (now : Z) (i : AddrInfo) : Prop := ADDRMAN_REPLACEMENT <= now - m_last_success i /\ 60 < now - m_last_try i.

Record resolved (now : Z) (s s' : AddrMan) : Prop := {
  rs_later : later s s';
  rs_ids : nIdCount s' = nIdCount s;
  rs_coll : m_tried_collisions s' ⊆ m_tried_collisions s;
  rs_place b p i : cell true s b p <> -1 -> mapInfo s !! cell true s b p = Some i -> stays b p (cell true s b p) i s' \/ unheard now i;
}.

Lemma stays_refl s b p i : mapInfo s !! cell true s b p = Some i -> stays b p (cell true s b p) i s.
Proof using. intros Ei. split; [reflexivity|]. exists i. split; [exact Ei|apply up_to_pos_refl]. Qed.
Lemma resolved_refl now s : resolved now s s.
Proof using. split; [apply later_refl|reflexivity|reflexivity|]. intros b p i _ Ei. left. exact (stays_refl s b p i Ei). Qed.

Lemma resolve_one_spec s id now : man_ok s -> 0 < now -> exists r s', resolve_one id now s = (Ok r, s') /\ man_ok s' /\ resolved now s s'.
Proof using.
  intros H Hn. unfold resolve_one, mbind at 1, stm_bind at 1, get_st at 1. destruct (mapInfo s !! id) as [i|] eqn:Ei; [|exists true, s; split; [reflexivity|]; split; [exact H|apply resolved_refl]].
  destruct (negb _); [exists true, s; split; [reflexivity|]; split; [exact H|apply resolved_refl]|]. change (GetBucketPosition (nKey s) false (GetTriedBucket (nKey s) i) i) with (tpos (nKey s) i). change (GetTriedBucket (nKey s) i) with (tbucket (nKey s) i).
  pose proof (tried_in_table (nKey s) i) as Hin. set (b := tbucket (nKey s) i) in *. set (p := tpos (nKey s) i) in *. rewrite (bind_ok _ _ _ _ _ (read_cell_ok true s b p Hin)).
  assert (Ef : Find (ai_service i) s = Some id) by (rewrite (Find_ok _ _ _ _ (man_am _ H)); apply (ix_addr _ _ _ _ (ok_ix _ _ _ (man_am _ H))); eauto).
  assert (Done : (cell true s b p <> -1 -> forall i0, mapInfo s !! cell true s b p = Some i0 -> unheard now i0) -> exists r s', (Good_ (ai_service i) false now ≫= fun _ => mret true) s = (Ok r, s') /\ man_ok s' /\ resolved now s s').
  { intros Hold. destruct (Good_spec s (ai_service i) false now H Hn) as (s1 & Run & H1 & G1). rewrite (bind_ok _ _ _ _ _ Run). exists true, s1. split; [reflexivity|]. split; [exact H1|]. split; [exact (gs_later _ _ _ _ G1)|exact (gs_ids _ _ _ _ G1)|rewrite (gs_coll _ _ _ _ G1 eq_refl); reflexivity|].
    intros b' p' j Hc Ej. destruct (gs_place _ _ _ _ G1 b' p' j Hc Ej) as [St|(id' & j' & Ef' & Ej' & <- & <-)]; [left; exact St|right]. rewrite Ef in Ef'. injection Ef' as <-. rewrite Ei in Ej'. injection Ej' as <-. exact (Hold Hc j Ej). }
  destruct (Z.eqb_spec (cell true s b p) (-1)) as [Hc|Hc]; cbn [negb]; [apply Done; contradiction|]. destruct (ok_tried_at _ _ _ b p (man_am _ H) Hc) as (io & Eo & _). rewrite (bind_ok _ _ _ _ _ (info_index_ok s _ io Eo)).
  assert (Keep : forall r : bool, exists r0 s', (Ok r, s) = (Ok r0, s') /\ man_ok s' /\ resolved now s s') by (intros r; exists r, s; split; [reflexivity|]; split; [exact H|apply resolved_refl]).
  assert (Old : unheard now io -> cell true s b p <> -1 -> forall i0, mapInfo s !! cell true s b p = Some i0 -> unheard now i0) by (intros U _ i0 E0; rewrite Eo in E0; injection E0 as <-; exact U).
  destruct (Z.ltb_spec (now - m_last_success io) ADDRMAN_REPLACEMENT) as [|Q1]; [apply Keep|]. destruct (Z.ltb_spec (now - m_last_try io) ADDRMAN_REPLACEMENT) as [Q2|Q2].
  - destruct (Z.gtb_spec (now - m_last_try io) 60) as [Q3|]; [apply Done, Old; split; lia|apply Keep].
  - destruct (_ >? _); [|apply Keep]. apply Done, Old. split; unfold ADDRMAN_REPLACEMENT in *; lia.
Qed.

Lemma resolve_loop_spec clock : forall ids s, man_ok s -> (forall k, k ∈ ids -> 0 < clock k) -> exists s', resolve_loop ids clock s = (Ok tt, s') /\ man_ok s' /\ later s s' /\ nIdCount s' = nIdCount s /\
    m_tried_collisions s' ⊆ m_tried_collisions s /\
    forall b p i, cell true s b p <> -1 -> mapInfo s !! cell true s b p = Some i -> stays b p (cell true s b p) i s' \/ exists k, k ∈ ids /\ unheard (clock k) i.
Proof using.
  induction ids as [|id rest IH]; intros s H Hk; cbn [resolve_loop].
  { exists s. split; [reflexivity|]. split; [exact H|]. split; [apply later_refl|]. split; [reflexivity|]. split; [reflexivity|]. intros b p i _ Ei. left. exact (stays_refl s b p i Ei). }
  destruct (resolve_one_spec s id (clock id) H (Hk id ltac:(left))) as (r & s1 & Run & H1 & [L1 I1 C1 P1]). rewrite (bind_ok _ _ _ _ _ Run). set (er := match r with true => _ | false => _ end).
  assert (Er : exists s2, er s1 = (Ok tt, s2) /\ man_ok s2 /\ later s1 s2 /\ nIdCount s2 = nIdCount s1 /\ m_tried_collisions s2 ⊆ m_tried_collisions s1 /\ (forall b p, cell true s2 b p = cell true s1 b p) /\ mapInfo s2 = mapInfo s1).
  { unfold er. destruct r; [|exists s1; split; [reflexivity|]; split; [exact H1|]; split; [apply later_refl|]; repeat split; reflexivity]. unfold modify_st. eexists. split; [reflexivity|].
    assert (Lt : later s1 (set_collisions (λ c : gset Z, c ∖ {[id]}) s1)) by (split; [reflexivity|cbn; lia|auto|eauto]). assert (Sub : m_tried_collisions (set_collisions (λ c : gset Z, c ∖ {[id]}) s1) ⊆ m_tried_collisions s1) by (cbn; clear; set_solver).
    split; [split; [exact (am_collisions _ _ _ _ (man_am _ H1))|exact (collisions_later s1 _ (man_coll _ H1) Lt Sub)]|]. split; [exact Lt|]. repeat split; exact Sub. }
  destruct Er as (s2 & Run2 & H2 & L2 & I2 & C2 & Ce2 & M2). rewrite (bind_ok _ _ _ _ _ Run2). destruct (IH s2 H2) as (s3 & Run3 & H3 & L3 & I3 & C3 & P3); [intros k Hin; apply Hk; right; exact Hin|].
  exists s3. split; [exact Run3|]. split; [exact H3|]. split; [exact (later_trans _ _ _ L1 (later_trans _ _ _ L2 L3))|]. split; [congruence|]. split; [clear -C1 C2 C3; set_solver|]. intros b p i Hc Ei. destruct (P1 b p i Hc Ei) as [[S1 (i1 & Ei1 & q & ->)]|U1]; [|right; exists id; split; [left|exact U1]].
  destruct (P3 b p (with_pos q i)) as [[S3 (i3 & Ei3 & U3)]|(k & Hin & U3)]; rewrite ?Ce2, ?S1, ?M2; try assumption; [left|right; exists k; split; [right; exact Hin|exact U3]]. rewrite Ce2, S1 in *. split; [exact S3|]. exists i3. split; [exact Ei3|]. exact (up_to_pos_trans _ _ _ (ex_intro _ q eq_refl) U3).
Qed.
End Good.

(** * The consistency check of the address manager

    [CheckAddrman] compares the tables, the maps and the counters; in a state
    that satisfies the invariant it finds no error. *)

(** ** Counting over places *)

Lemma lcount_app {A} (P : A -> bool) l k : lcount P (l ++ k) = lcount P l + lcount P k.
Proof. unfold lcount. rewrite filter_app, length_app. lia. Qed.
Lemma lcount_one {A} `{EqDecision A} (P : A -> bool) l x : NoDup l -> x ∈ l -> (forall y, y ∈ l -> P y = true -> y = x) -> lcount P l = one (P x).
Proof.
  intros Hnd Hx Hy. rewrite (lcount_switch (fun _ => false) P l x Hnd Hx).
  - rewrite lcount_none by reflexivity. cbn. lia.
  - intros c Hc Hne. symmetry. apply not_true_iff_false. intros Hp. exact (Hne (Hy c Hc Hp)).
Qed.
Lemma lcount_pairs (P : Z * Z -> bool) (Q : Z -> bool) bs ps : (forall b, b ∈ bs -> lcount (fun p => P (b, p)) ps = one (Q b)) -> lcount P (b ← bs; p ← ps; [(b, p)]) = lcount Q bs.
Proof.
  intros H. induction bs as [|b bs IH]; [reflexivity|]. cbn [mbind list_bind]. rewrite lcount_app, lcount_cons, IH by (intros c Hc; apply H; right; exact Hc). f_equal. rewrite <- (H b) by left. clear. induction ps as [|p ps IH]; [reflexivity|]. cbn. rewrite !lcount_cons, IH. reflexivity.
Qed.

Section Check.
Context {E : AddrEnv}.

Lemma elem_of_places tried b p : (b, p) ∈ places tried <-> in_table tried b p = true.
Proof using.
  unfold places, in_table. rewrite list_elem_of_bind. setoid_rewrite list_elem_of_bind. setoid_rewrite list_elem_of_singleton. rewrite !andb_true_iff, !Z.leb_le, !Z.ltb_lt. split.
  - intros (b' & (p' & [= <- <-] & Hp) & Hb). apply elem_of_seqZ in Hp, Hb. lia.
  - intros H. exists b. split; [exists p; split; [reflexivity|apply elem_of_seqZ; lia]|apply elem_of_seqZ; lia].
Qed.
Lemma NoDup_places tried : NoDup (places tried).
Proof using.
  unfold places. assert (X : forall bs ps : list Z, NoDup bs -> NoDup ps -> NoDup (b ← bs; p ← ps; [(b, p)])).
  { intros bs ps Hb Hp. induction Hb as [|b bs Hn Hb IH]; [constructor|]. cbn [mbind list_bind]. apply NoDup_app. split; [|split; [|exact IH]].
    - clear -Hp. induction Hp as [|p ps Hn Hp IH]; [constructor|]. cbn. constructor; [|exact IH]. rewrite list_elem_of_bind. intros (q & Hq & Hin). apply list_elem_of_singleton in Hq. injection Hq as <-. contradiction.
    - intros [b' p']. rewrite !list_elem_of_bind. setoid_rewrite list_elem_of_bind. intros (q & Hq & _) (b2 & (q2 & Hq2 & _) & Hin). apply list_elem_of_singleton in Hq, Hq2. congruence. }
  apply X; apply NoDup_seqZ.
Qed.

(** ** The entries *)

Record seen (done : gmap Z AddrInfo) (st : check_state) : Prop := {
  se_tried id : id ∈ setTried st <-> exists i, done !! id = Some i /\ fInTried i = true;
  se_new id : mapNew st !! id = match done !! id with Some i => if fInTried i then None else Some (nRefCount i) | None => None end;
  se_size : Z.of_nat (size (setTried st)) = mcnt (is_tried None) done /\ Z.of_nat (size (mapNew st)) = mcnt (is_new ∅ None) done;
  se_net net : default no_count (local_counts st !! net) = {| n_new := mcnt (is_new ∅ (Some net)) done; n_tried := mcnt (is_tried (Some net)) done |};
  se_dom net : is_Some (local_counts st !! net) -> exists id i, done !! id = Some i /\ info_network i = net;
}.

Lemma seen_nothing : seen ∅ {| setTried := ∅; mapNew := ∅; local_counts := ∅ |}.
Proof using.
  split; cbn.
  - intros id. rewrite lookup_empty. split; [intros X; apply not_elem_of_empty in X; contradiction|intros (i & X & _); discriminate].
  - intros id. rewrite !lookup_empty. reflexivity.
  - split; reflexivity.
  - intros net. rewrite lookup_empty. reflexivity.
  - intros net [c Hc]. rewrite lookup_empty in Hc. discriminate.
Qed.

Lemma count_local_ok done c net tried k i : (forall n, default no_count (c !! n) = {| n_new := mcnt (is_new ∅ (Some n)) done; n_tried := mcnt (is_tried (Some n)) done |}) ->
  done !! k = None -> Z.of_nat (size done) + 1 < 2 ^ 31 -> fInTried i = tried -> info_network i = net ->
  forall n, default no_count (count_local net tried c !! n) = {| n_new := mcnt (is_new ∅ (Some n)) (<[k := i]> done); n_tried := mcnt (is_tried (Some n)) (<[k := i]> done) |}.
Proof using.
  intros H Hn Hs Ht Hi n. rewrite !mcnt_fresh by exact Hn. unfold is_new at 2, is_tried at 2. rewrite Ht, Hi, (bool_decide_eq_false_2 (k ∈ ∅)) by apply not_elem_of_empty. unfold count_local, here. rewrite H. pose proof (mcnt_range (is_new ∅ (Some net)) done). pose proof (mcnt_range (is_tried (Some net)) done).
  destruct (decide (net = n)) as [<-|Hne].
  - rewrite lookup_insert_eq, bool_decide_eq_true_2 by reflexivity. cbn [default n_new n_tried]. rewrite !uwrap_small by (unfold in_u; lia). destruct tried; cbn; f_equal; lia.
  - rewrite lookup_insert_ne by exact Hne. rewrite bool_decide_eq_false_2 by exact Hne. rewrite H, !andb_false_r. cbn [one]. f_equal; lia.
Qed.

Lemma check_entry_ok s done st k i : am_ok ∅ ∅ s -> mapInfo s !! k = Some i -> seen done st -> done !! k = None -> Z.of_nat (size done) + 1 < 2 ^ 31 -> exists st', check_entry s k i st = inr st' /\ seen (<[k := i]> done) st'.
Proof using.
  intros H Ei [S1 S2 [S3 S4] S5 S6] Hn Hs. pose proof (ok_times _ _ _ H k i Ei) as [T1 T2]. pose proof (ix_at _ _ _ _ _ _ (ok_ix _ _ _ H) Ei) as At. pose proof (ix_pos _ _ _ _ (ok_ix _ _ _ H) k i Ei) as P0. pose proof (lookup_lt_Some _ _ _ At) as Pl.
  assert (Ad : mapAddr s !! ai_service i = Some k) by (apply (ix_addr _ _ _ _ (ok_ix _ _ _ H)); eauto).
  assert (Rest : forall st1 : check_state, (if negb (bool_decide (mapAddr s !! ai_service i = Some k)) then inl (-5)
    else if ((nRandomPos i <? 0) || (nRandomPos i >=? Z.of_nat (length (vRandom s))) || negb (bool_decide (vRandom s !! Z.to_nat (nRandomPos i) = Some k)))%bool then inl (-14)
    else if m_last_try i <? 0 then inl (-6) else if m_last_success i <? 0 then inl (-8) else inr st1) = (inr st1 : Z + check_state)).
  { intros st1. rewrite (bool_decide_eq_true_2 _ Ad), (bool_decide_eq_true_2 _ At). rewrite (proj2 (Z.ltb_ge _ _) P0), (proj2 (Z.ltb_ge _ _) T1), (proj2 (Z.ltb_ge _ _) T2). replace (nRandomPos i >=? Z.of_nat (length (vRandom s))) with false by (symmetry; rewrite Z.geb_leb; apply Z.leb_gt; lia). reflexivity. }
  assert (Dom : forall tried n, is_Some (count_local (info_network i) tried (local_counts st) !! n) -> exists id j, <[k := i]> done !! id = Some j /\ info_network j = n).
  { intros tried n. unfold count_local. destruct (decide (info_network i = n)) as [Hq|Hq]; [intros _; exists k, i; rewrite lookup_insert_eq; auto|]. rewrite lookup_insert_ne by exact Hq. intros (id & j & Ej & Hj)%S6. exists id, j. rewrite lookup_insert_ne; [auto|]. intros <-. congruence. }
  unfold check_entry. destruct (fInTried i) eqn:Hi.
  - destruct (tb_placed _ _ _ _ _ (ok_tb _ _ _ H) k i Ei Hi) as (_ & R0 & Sx & _). rewrite (proj2 (Z.eqb_neq _ _)), R0 by lia. cbn [negb Z.eqb]. eexists. split; [apply Rest|]. split; cbn.
    + intros id. rewrite elem_of_union, elem_of_singleton, S1. destruct (decide (k = id)) as [<-|Hne]; [rewrite lookup_insert_eq; split; [intros _; eauto|auto]|]. rewrite lookup_insert_ne by exact Hne. split; [intros [->|X]; [contradiction|exact X]|auto].
    + intros id. rewrite S2. destruct (decide (k = id)) as [<-|Hne]; [rewrite lookup_insert_eq, Hn, Hi; reflexivity|rewrite lookup_insert_ne by exact Hne; reflexivity].
    + rewrite !mcnt_fresh by exact Hn. unfold is_tried at 2, is_new at 2. rewrite Hi. cbn [negb andb one here]. rewrite size_union, size_singleton; [lia|]. intros x ->%elem_of_singleton (j & Ej & _)%S1. congruence.
    + apply count_local_ok; auto.
    + apply Dom.
  - destruct (tb_ref _ _ _ _ _ (ok_tb _ _ _ H) k i Ei Hi) as (_ & R1 & R2). specialize (R2 ltac:(apply not_elem_of_empty)). rewrite (proj2 (Z.ltb_ge _ _)) by lia. replace (nRefCount i >? ADDRMAN_NEW_BUCKETS_PER_ADDRESS) with false by (symmetry; rewrite Z.gtb_ltb; apply Z.ltb_ge; lia).
    rewrite (proj2 (Z.eqb_neq (nRefCount i) 0)) by lia. cbn [orb]. eexists. split; [apply Rest|]. split; cbn.
    + intros id. rewrite S1. destruct (decide (k = id)) as [<-|Hne]; [|rewrite lookup_insert_ne by exact Hne; reflexivity]. rewrite lookup_insert_eq, Hn. split; [intros (j & X & _); discriminate|intros (j & [= <-] & X); congruence].
    + intros id. destruct (decide (k = id)) as [<-|Hne]; [rewrite !lookup_insert_eq, Hi; reflexivity|rewrite !lookup_insert_ne by exact Hne; apply S2].
    + rewrite !mcnt_fresh by exact Hn. unfold is_tried at 2, is_new at 2. rewrite Hi, (bool_decide_eq_false_2 (k ∈ ∅)) by apply not_elem_of_empty. cbn [negb andb one here]. rewrite map_size_insert_None by (rewrite S2, Hn; reflexivity). lia.
    + apply count_local_ok; auto.
    + apply Dom.
Qed.

Lemma check_entries_ok s : am_ok ∅ ∅ s -> forall l done st, seen done st -> NoDup l.*1 -> (forall k i, mapInfo s !! k = Some i <-> done !! k = Some i \/ (k, i) ∈ l) -> (forall k, k ∈ l.*1 -> done !! k = None) ->
  exists st', check_entries s l st = inr st' /\ seen (mapInfo s) st'.
Proof using.
  intros H. induction l as [|[k i] l IH]; intros done st Hs Hnd Hall Hout; cbn [check_entries].
  - exists st. split; [reflexivity|]. replace (mapInfo s) with done; [exact Hs|]. apply map_eq. intros k. apply option_eq. intros i. rewrite Hall. split; [auto|]. intros [X|X]; [exact X|apply not_elem_of_nil in X; contradiction].
  - assert (Ei : mapInfo s !! k = Some i) by (apply Hall; right; left). assert (Hk : done !! k = None) by (apply Hout; left). cbn [fmap list_fmap fst] in Hnd. apply NoDup_cons in Hnd as [Hkl Hnd].
    assert (Sub : <[k := i]> done ⊆ mapInfo s) by (apply map_subseteq_spec; intros k' i' [[<- <-]|[_ Ei']]%lookup_insert_Some; [exact Ei|apply Hall; left; exact Ei']).
    apply map_subseteq_size in Sub. rewrite map_size_insert_None in Sub by exact Hk. pose proof (ct_small _ _ _ _ _ (ok_ct _ _ _ H)) as Small. destruct (check_entry_ok s done st k i H Ei Hs Hk ltac:(lia)) as (st' & -> & Hs'). apply (IH _ _ Hs' Hnd).
    + intros k' i'. rewrite Hall, elem_of_cons, lookup_insert_Some. split; [intros [X|[[= -> ->]|X]]; [left; right; split; [intros <-; congruence|exact X]|left; left; auto|right; exact X]|intros [[[<- <-]|[_ X]]|X]; auto].
    + intros k' Hk'. rewrite lookup_insert_ne by (intros <-; contradiction). apply Hout. right. exact Hk'.
Qed.

Lemma entries_checked s : am_ok ∅ ∅ s -> exists st, check_entries s (map_to_list (mapInfo s)) {| setTried := ∅; mapNew := ∅; local_counts := ∅ |} = inr st /\ seen (mapInfo s) st.
Proof using.
  intros H. apply (check_entries_ok s H _ ∅ _ seen_nothing (NoDup_fst_map_to_list _)).
  - intros k i. rewrite elem_of_map_to_list, lookup_empty. split; [auto|]. intros [X|X]; [discriminate|exact X].
  - intros k _. apply lookup_empty.
Qed.

(** ** The tables *)

Lemma check_tried_ok s : am_ok ∅ ∅ s -> forall ps left, NoDup ps -> (forall id, id ∈ left <-> exists i, mapInfo s !! id = Some i /\ fInTried i = true /\ (tbucket (nKey s) i, tpos (nKey s) i) ∈ ps) -> exists left', check_tried s ps left = inr left' /\ size left' = 0%nat.
Proof using.
  intros H. induction ps as [|[b p] ps IH]; intros left Hnd Hl; cbn [check_tried].
  - exists left. split; [reflexivity|]. apply size_empty_iff. intros id. rewrite Hl. split; [intros (i & _ & _ & X); apply not_elem_of_nil in X; contradiction|intros X; apply not_elem_of_empty in X; contradiction].
  - apply NoDup_cons in Hnd as [Hbp Hnd]. destruct (Z.eqb_spec (cell true s b p) (-1)) as [Hc|Hc].
    + apply (IH left Hnd). intros id. rewrite Hl. apply exist_proper. intros i. split; [intros (Ei & Hi & X)|intros (Ei & Hi & X); split; [exact Ei|split; [exact Hi|right; exact X]]]. split; [exact Ei|]. split; [exact Hi|]. apply elem_of_cons in X as [X|X]; [|exact X].
      injection X as <- <-. destruct (tb_placed _ _ _ _ _ (ok_tb _ _ _ H) id i Ei Hi) as (Q & _). change (cell true s (tbucket (nKey s) i) (tpos (nKey s) i) = id) in Q. pose proof (tb_ids _ _ _ _ _ (ok_tb _ _ _ H) id i Ei). lia.
    + destruct (ok_tried_at _ _ _ b p H Hc) as (i & Ei & Hi & Hb & Hp & _). set (e := cell true s b p) in *. rewrite bool_decide_eq_true_2 by (apply Hl; exists i; rewrite Hb, Hp; split; [exact Ei|]; split; [exact Hi|left]). cbn [negb]. rewrite Ei. change (GetTriedBucket (nKey s) i) with (tbucket (nKey s) i).
      rewrite Hb, Z.eqb_refl. replace (GetBucketPosition (nKey s) false b i) with (tpos (nKey s) i) by (unfold tpos; rewrite Hb; reflexivity). rewrite Hp, Z.eqb_refl. cbn [negb]. apply (IH _ Hnd). intros id. rewrite elem_of_difference, elem_of_singleton, Hl. split.
      * intros [(j & Ej & Hj & X) Hne]. exists j. split; [exact Ej|]. split; [exact Hj|]. apply elem_of_cons in X as [X|X]; [|exact X]. injection X as Xb Xp. destruct (tb_placed _ _ _ _ _ (ok_tb _ _ _ H) id j Ej Hj) as (Q & _). rewrite Xb, Xp in Q. exfalso. apply Hne. symmetry. exact Q.
      * intros (j & Ej & Hj & X). split; [exists j; split; [exact Ej|split; [exact Hj|right; exact X]]|]. intros ->. rewrite Ei in Ej. injection Ej as <-. rewrite Hb, Hp in X. contradiction.
Qed.

(** How often an entry is at the places. *)
Definition held (s : AddrMan) (ps : list (Z * Z)) (id : Z) : Z := lcount (fun bp => cell false s (fst bp) (snd bp) =? id) ps.

Lemma check_new_ok s : am_ok ∅ ∅ s -> forall ps left, (forall id, id <> -1 -> left !! id = if held s ps id =? 0 then None else Some (held s ps id)) -> left !! (-1) = None -> exists left', check_new s ps left = inr left' /\ size left' = 0%nat.
Proof using.
  intros H. induction ps as [|[b p] ps IH]; intros left Hl Hm; cbn [check_new].
  - exists left. split; [reflexivity|]. apply map_size_empty_iff. apply map_eq. intros id. rewrite lookup_empty. destruct (decide (id = -1)) as [->|Hne]; [exact Hm|]. rewrite Hl by exact Hne. reflexivity.
  - assert (Step : forall id, held s ((b, p) :: ps) id = one (cell false s b p =? id) + held s ps id) by (intros id; unfold held; rewrite lcount_cons; reflexivity). destruct (Z.eqb_spec (cell false s b p) (-1)) as [Hc|Hc].
    + apply IH; [|exact Hm]. intros id Hid. rewrite (Hl id Hid), Step. rewrite (proj2 (Z.eqb_neq (cell false s b p) id)) by congruence. reflexivity.
    + destruct (ok_new_at _ _ _ b p H Hc) as (_ & i & Ei & _ & Hp). set (e := cell false s b p) in *. pose proof (lcount_nonneg (fun bp => cell false s (fst bp) (snd bp) =? e) ps) as Ge. fold (held s ps e) in Ge. assert (He : left !! e = Some (1 + held s ps e)).
      { rewrite (Hl e Hc), Step, Z.eqb_refl. cbn [one]. rewrite (proj2 (Z.eqb_neq _ 0)) by lia. reflexivity. }
      rewrite He, Ei. change (GetBucketPosition (nKey s) true b i) with (npos (nKey s) i b). rewrite Hp, Z.eqb_refl. cbn [negb]. replace (1 + held s ps e - 1) with (held s ps e) by lia. apply IH.
      * intros id Hid. destruct (decide (e = id)) as [<-|Hne]; [destruct (held s ps e =? 0); [apply lookup_delete_eq|apply lookup_insert_eq]|].
        replace ((if held s ps e =? 0 then delete e left else <[e := held s ps e]> left) !! id) with (left !! id) by (destruct (held s ps e =? 0); [rewrite lookup_delete_ne by exact Hne|rewrite lookup_insert_ne by exact Hne]; reflexivity).
        rewrite (Hl id Hid), Step, (proj2 (Z.eqb_neq e id) Hne). reflexivity.
      * destruct (held s ps e =? 0); [rewrite lookup_delete_ne by exact Hc|rewrite lookup_insert_ne by exact Hc]; exact Hm.
Qed.

Lemma held_refs s id i : am_ok ∅ ∅ s -> mapInfo s !! id = Some i -> fInTried i = false -> held s (places false) id = nRefCount i.
Proof using.
  intros H Ei Hi. destruct (tb_ref _ _ _ _ _ (ok_tb _ _ _ H) id i Ei Hi) as (-> & _). pose proof (tb_ids _ _ _ _ _ (ok_tb _ _ _ H) id i Ei) as Hid. unfold held, places, refs. apply (lcount_pairs _ (in_bucket (nKey s) (vvNew s) id i)). intros b _. cbn [fst snd].
  pose proof (position_range (nKey s) true b i) as Hr. apply (lcount_one (fun p => cell false s b p =? id) _ (npos (nKey s) i b)); [apply NoDup_seqZ|apply elem_of_seqZ; unfold npos; lia|].
  intros p _ Hc%Z.eqb_eq. destruct (ok_new_at _ _ _ b p H ltac:(lia)) as (_ & j & Ej & _ & Hp). rewrite Hc, Ei in Ej. injection Ej as <-. symmetry. exact Hp.
Qed.
Lemma held_none s id : am_ok ∅ ∅ s -> id <> -1 -> (forall i, mapInfo s !! id = Some i -> fInTried i = true) -> held s (places false) id = 0.
Proof using.
  intros H Hid Hno. apply lcount_none. intros [b p] _. cbn. apply Z.eqb_neq. intros Hc. destruct (ok_new_at _ _ _ b p H ltac:(lia)) as (_ & j & Ej & Hj & _). rewrite Hc in Ej. specialize (Hno j Ej). congruence.
Qed.

Lemma mcnt_sum (m : gmap Z AddrInfo) : mcnt (is_tried None) m + mcnt (is_new ∅ None) m = Z.of_nat (size m).
Proof using.
  induction m as [|k i m Hk IH] using map_ind; [reflexivity|]. rewrite !mcnt_fresh, map_size_insert_None by exact Hk. unfold is_tried at 2, is_new at 2. rewrite (bool_decide_eq_false_2 (k ∈ ∅)) by apply not_elem_of_empty. destruct (fInTried i); cbn [negb andb one here]; lia.
Qed.

Lemma counts_dom s st : am_ok ∅ ∅ s -> seen (mapInfo s) st -> (size (local_counts st) <= size (m_network_counts s))%nat.
Proof using.
  intros H Hs. rewrite <- !size_dom. apply subseteq_size. intros net (id & i & Ei & Hi)%elem_of_dom%(se_dom _ _ Hs). apply elem_of_dom. pose proof (ct_net _ _ _ _ _ (ok_ct _ _ _ H) net) as Hc. destruct (m_network_counts s !! net) as [c|]; [eauto|]. exfalso. cbn in Hc. injection Hc as H1 H2.
  destruct (fInTried i) eqn:Ht.
  - pose proof (mcnt_pos (is_tried (Some net)) (mapInfo s) id i Ei) as X. unfold is_tried at 1, here in X. rewrite Ht, bool_decide_eq_true_2 in X by exact Hi. specialize (X eq_refl). lia.
  - pose proof (mcnt_pos (is_new ∅ (Some net)) (mapInfo s) id i Ei) as X. unfold is_new at 1, here in X. rewrite Ht, (bool_decide_eq_false_2 (id ∈ ∅)), bool_decide_eq_true_2 in X by (exact Hi || apply not_elem_of_empty). specialize (X eq_refl). lia.
Qed.

Lemma CheckAddrman_spec s : am_ok ∅ ∅ s -> forallb (Z.eqb 0) (nKey s) = false -> CheckAddrman s = 0.
Proof using.
  intros H Hk. pose proof (mcnt_sum (mapInfo s)) as Sum. pose proof (ct_small _ _ _ _ _ (ok_ct _ _ _ H)) as Small. pose proof (ct_nt _ _ _ _ _ (ok_ct _ _ _ H)) as Nt. pose proof (ct_nn _ _ _ _ _ (ok_ct _ _ _ H)) as Nn.
  pose proof (mcnt_range (is_tried None) (mapInfo s)) as R1. pose proof (mcnt_range (is_new ∅ None) (mapInfo s)) as R2. unfold CheckAddrman. rewrite (ix_length _ _ _ _ (ok_ix _ _ _ H)), i32_small by lia. rewrite (uwrap_small 64 (nTried s + nNew s)) by (unfold in_u; lia). rewrite (proj2 (Z.eqb_eq _ _)) by lia. cbn [negb].
  destruct (entries_checked s H) as (st & -> & Hs). pose proof (se_size _ _ Hs) as [Sz1 Sz2]. rewrite !uwrap_small by (unfold in_u; lia). rewrite (proj2 (Z.eqb_eq (Z.of_nat (size (setTried st))) _)), (proj2 (Z.eqb_eq (Z.of_nat (size (mapNew st))) _)) by congruence. cbn [negb].
  destruct (check_tried_ok s H (places true) (setTried st) (NoDup_places true)) as (lt & -> & Lt).
  { intros id. rewrite (se_tried _ _ Hs). apply exist_proper. intros i. split; [intros [Ei Hi]; split; [exact Ei|split; [exact Hi|apply elem_of_places, tried_in_table]]|intros (Ei & Hi & _); auto]. }
  destruct (check_new_ok s H (places false) (mapNew st)) as (ln & -> & Ln).
  { intros id Hid. rewrite (se_new _ _ Hs). destruct (mapInfo s !! id) as [i|] eqn:Ei; [|rewrite held_none by (try assumption; congruence); reflexivity]. destruct (fInTried i) eqn:Hi; [rewrite held_none by (try assumption; congruence); reflexivity|].
    rewrite (held_refs s id i H Ei Hi). destruct (tb_ref _ _ _ _ _ (ok_tb _ _ _ H) id i Ei Hi) as (_ & _ & R). specialize (R ltac:(apply not_elem_of_empty)). rewrite (proj2 (Z.eqb_neq _ 0)) by lia. reflexivity. }
  { rewrite (se_new _ _ Hs). destruct (mapInfo s !! -1) as [i|] eqn:Ei; [|reflexivity]. pose proof (tb_ids _ _ _ _ _ (ok_tb _ _ _ H) _ i Ei). lia. }
  rewrite Lt, Ln. cbn [Nat.eqb negb]. rewrite Hk. rewrite (proj2 (Nat.ltb_ge _ _) (counts_dom s st H Hs)). replace (forallb _ _) with true; [reflexivity|]. symmetry. apply forallb_forall. intros [net c] Hin%list_elem_of_In%elem_of_map_to_list.
  pose proof (ct_net _ _ _ _ _ (ok_ct _ _ _ H) net) as Hc. rewrite Hin in Hc. cbn in Hc. rewrite (se_net _ _ Hs), <- Hc. unfold same_count. rewrite !Z.eqb_refl. reflexivity.
Qed.
End Check.
