(* ===== verification/AddrManRuns.v ===== *)
(** * Queries and runs of the address manager

    What the queries answer, and the theorems about sequences of operations. *)

From stdpp Require Import base numbers list gmap sorting strings.
From Stdlib Require Import ZArith Lia.
From S2P Require Import Prelude Params Streams Serialize AddrMan AddrManProofs AddrManOps.

Local Open Scope Z_scope.

(** * What the address manager answers

    [GetAddr_] returns distinct entries that fit the request, as many as the
    limits allow; [Select_] and [SelectTriedCollision_] return entries of the
    table asked for. *)

Lemma lcount_perm {A} (P : A -> bool) l k : l ≡ₚ k -> lcount P l = lcount P k.
Proof. induction 1; rewrite ?lcount_cons; try lia. Qed.
Lemma lcount_take {A} (P : A -> bool) l n : lcount P (take n l) <= lcount P l.
Proof. rewrite <- (take_drop n l) at 2. rewrite lcount_app. pose proof (lcount_nonneg P (drop n l)). lia. Qed.
Lemma lcount_take_S {A} (P : A -> bool) l n x : l !! n = Some x -> lcount P (take (S n) l) = lcount P (take n l) + one (P x).
Proof. intros E. rewrite (take_S_r l n x E), lcount_app, lcount_cons. change (lcount P []) with 0. lia. Qed.

Section Queries.
Context {E : AddrEnv}.

(** ** GetAddr *)

(** The entry is one that was asked for. *)
Definition fits (network : option Network) (filtered : bool) (now : Z) (i : AddrInfo) : bool :=
  negb (match network with None => false | Some net => negb (bool_decide (GetNetClass (netaddr_of (ai_service i)) = net)) end || (IsTerrible now i && filtered))%bool.

Definition id_fits (s : AddrMan) (network : option Network) (filtered : bool) (now : Z) (id : Z) : bool :=
  match mapInfo s !! id with Some i => fits network filtered now i | None => false end.
Definition address_of (s : AddrMan) (id : Z) : CAddress := match mapInfo s !! id with Some i => as_CAddress i | None => as_CAddress no_AddrInfo end.

(** The ids among the first [n] that fit. *)
Definition picked (s : AddrMan) (network : option Network) (filtered : bool) (now : Z) (l : list Z) : list Z := filter (fun id => id_fits s network filtered now id = true) l.

Lemma up_to_pos_fits i j network filtered now : up_to_pos i j -> fits network filtered now j = fits network filtered now i /\ as_CAddress j = as_CAddress i.
Proof using. intros [q ->]. split; reflexivity. Qed.

Lemma reordered_perm L U L' U' s s' : am_ok L U s -> am_ok L' U' s' -> descends (fun _ => False) s s' -> vRandom s' ≡ₚ vRandom s.
Proof using.
  intros H H' D. apply NoDup_Permutation; [exact (ix_nodup _ _ _ _ (ok_ix _ _ _ H'))|exact (ix_nodup _ _ _ _ (ok_ix _ _ _ H))|].
  assert (X : forall L U s, am_ok L U s -> forall k, k ∈ vRandom s <-> is_Some (mapInfo s !! k)).
  { intros L0 U0 s0 H0 k. split; [intros [q Eq]%list_elem_of_lookup; apply (ix_random _ _ _ _ (ok_ix _ _ _ H0)) in Eq as (i & Ei & _); eauto|intros [i Ei]; exact (list_elem_of_lookup_2 _ _ _ (ix_at _ _ _ _ _ _ (ok_ix _ _ _ H0) Ei))]. }
  intros k. rewrite (X _ _ _ H), (X _ _ _ H'). split; [intros [i Ei]; destruct (de_from _ _ _ D k i Ei) as (j & Ej & _); eauto|intros [i Ei]; destruct (de_kept _ _ _ D k i ltac:(tauto) Ei) as (j & Ej & _); eauto].
Qed.

Lemma descends_fits s s' network filtered now id : descends (fun _ => False) s s' -> id_fits s' network filtered now id = id_fits s network filtered now id /\ address_of s' id = address_of s id.
Proof using.
  intros D. unfold id_fits, address_of. destruct (mapInfo s !! id) as [i|] eqn:Ei.
  - destruct (de_kept _ _ _ D id i ltac:(tauto) Ei) as (j & -> & U). exact (up_to_pos_fits i j network filtered now U).
  - destruct (mapInfo s' !! id) as [j|] eqn:Ej; [|auto]. destruct (de_from _ _ _ D id j Ej) as (i & Ei' & _). congruence.
Qed.

Section Loop.
Context (draw : Z -> Z -> Z) (nNodes now : Z) (network : option Network) (filtered : bool) (s0 : AddrMan).
Hypothesis Hdraw : forall n bound, 0 < bound -> 0 <= draw n bound < bound.
Notation picks := (picked s0 network filtered now).

Lemma getaddr_loop_spec L U : forall fuel s n, am_ok L U s -> descends (fun _ => False) s0 s -> framed s0 s -> (n <= length (vRandom s))%nat -> (length (vRandom s) <= n + fuel)%nat -> Z.of_nat (length (picks (take n (vRandom s)))) <= Z.max 0 nNodes ->
  exists ids s', getaddr_loop fuel draw nNodes network filtered now (Z.of_nat n) (address_of s0 <$> picks (take n (vRandom s))) s = (Ok (address_of s0 <$> ids), s') /\ am_ok L U s' /\ descends (fun _ => False) s0 s' /\ framed s0 s' /\
    exists k, ids = picks (take k (vRandom s')) /\ (k = length (vRandom s') \/ nNodes <= Z.of_nat (length ids)) /\ Z.of_nat (length ids) <= Z.max 0 nNodes.
Proof using Hdraw.
  induction fuel as [|fuel IH]; intros s n H D F Hn Hf Hlen; cbn [getaddr_loop]; unfold mbind at 1, stm_bind at 1, get_st at 1; rewrite length_fmap.
  all: destruct (_ || _)%bool eqn:Hstop; [eexists _, s; split; [reflexivity|]; split; [exact H|]; split; [exact D|]; split; [exact F|]; exists n; split; [reflexivity|]; split; [|exact Hlen]; apply orb_true_iff in Hstop as [Hs|Hs]; rewrite Z.geb_leb, Z.leb_le in Hs; [left; lia|right; exact Hs]|].
  { apply orb_false_iff in Hstop as [Hs _]. rewrite Z.geb_leb, Z.leb_gt in Hs. lia. }
  apply orb_false_iff in Hstop as [Hs1 Hs2]. rewrite Z.geb_leb, Z.leb_gt in Hs1, Hs2. pose proof (Hdraw (Z.of_nat n) (Z.of_nat (length (vRandom s)) - Z.of_nat n) ltac:(lia)) as Hd. set (r := draw _ _) in *.
  assert (Hr : exists q, r + Z.of_nat n = Z.of_nat q /\ (n <= q < length (vRandom s))%nat) by (exists (Z.to_nat (r + Z.of_nat n)); lia). destruct Hr as (q & -> & Hq). destruct (lookup_lt_is_Some_2 (vRandom s) n ltac:(lia)) as [id1 E1].
  destruct (SwapRandom_spec L U n q id1 s H E1 ltac:(lia)) as (s1 & Run & H1 & R & _ & Others). rewrite (bind_ok _ _ _ _ _ Run). unfold mbind at 1, stm_bind at 1, get_st at 1. rewrite Nat2Z.id. pose proof (re_length _ _ R) as Len.
  destruct (lookup_lt_is_Some_2 (vRandom s1) n ltac:(lia)) as [id En]. rewrite En. rewrite (bind_ok (lift_st (access (Some id))) _ s1 id s1) by reflexivity. pose proof En as (i & Ei & _)%(ix_random _ _ _ _ (ok_ix _ _ _ H1)).
  rewrite (bind_ok _ _ _ _ _ (assert_st_ok _ _ (bool_decide_eq_true_2 _ (mk_is_Some _ _ Ei)))), (bind_ok _ _ _ _ _ (info_ref_ok s1 id i Ei)).
  assert (D1 : descends (fun _ => False) s0 s1) by (apply (descends_trans _ _ _ _ _ _ D (re_info _ _ R)); tauto). assert (Take : take n (vRandom s1) = take n (vRandom s)).
  { apply list_eq. intros k. destruct (decide (k < n)%nat) as [Hk|Hk]; [rewrite !lookup_take_lt by lia; apply Others; lia|rewrite !lookup_take_ge by lia; reflexivity]. }
  destruct (descends_fits s0 s1 network filtered now id D1) as [Fit Ad]. unfold id_fits at 1 in Fit. rewrite Ei in Fit. unfold address_of at 1 in Ad. rewrite Ei in Ad.
  unfold fits in Fit. set (skip := (_ || _)%bool) in *.
  assert (Next : (if skip then address_of s0 <$> picks (take n (vRandom s)) else (address_of s0 <$> picks (take n (vRandom s))) ++ [as_CAddress i]) = address_of s0 <$> picks (take (S n) (vRandom s1))).
  { rewrite (take_S_r _ n id En), Take. unfold picked. rewrite filter_app, fmap_app. cbn [filter list_filter]. rewrite <- Fit, Ad. destruct skip; cbn; rewrite ?app_nil_r; reflexivity. }
  rewrite Next. replace (Z.of_nat n + 1) with (Z.of_nat (S n)) by lia. apply IH; [exact H1|exact D1|exact (framed_trans _ _ _ F (re_frame _ _ R))|lia|lia|].
  rewrite (take_S_r _ n id En), Take. unfold picked in *. rewrite filter_app, length_app. cbn [filter list_filter]. destruct (decide _); cbn [length]; lia.
Qed.
End Loop.

(** The most addresses a request may return. *)
Definition request_limit (s : AddrMan) (max_addresses max_pct : Z) : Z :=
  let known := Z.of_nat (length (vRandom s)) in
  let share := if max_pct =? 0 then known else max_pct * known / 100 in
  if max_addresses =? 0 then share else Z.min share max_addresses.

Lemma man_reordered s s' : man_ok s -> am_ok ∅ ∅ s' -> descends (fun _ => False) s s' -> framed s s' -> man_ok s' /\ added s s'.
Proof using.
  intros H H' D F. assert (A : added s s') by (split; [exact (framed_later _ _ _ F D)|exact (fr_ids _ _ F)|exact (fr_coll _ _ F)|intros b p; unfold cell; cbn; rewrite (fr_tried _ _ F); reflexivity]). split; [exact (man_added _ _ H H' A)|exact A].
Qed.

Lemma GetAddr_spec s max_addresses max_pct network filtered now draw : man_ok s -> 0 <= max_addresses -> 0 <= max_pct <= 100 -> (forall n bound, 0 < bound -> 0 <= draw n bound < bound) ->
  exists ids s', GetAddr_ max_addresses max_pct network filtered now draw s = (Ok (address_of s <$> ids), s') /\ man_ok s' /\ added s s' /\ NoDup ids /\ (forall id, id ∈ ids -> id_fits s network filtered now id = true) /\
    Z.of_nat (length ids) = Z.min (request_limit s max_addresses max_pct) (lcount (id_fits s network filtered now) (vRandom s)).
Proof using.
  intros H Ha Hp Hd. unfold GetAddr_, mbind at 1, stm_bind at 1, get_st at 1. pose proof (ix_length _ _ _ _ (ok_ix _ _ _ (man_am _ H))) as Len. pose proof (ct_small _ _ _ _ _ (ok_ct _ _ _ (man_am _ H))) as Small.
  rewrite uwrap_small by (unfold in_u; nia). set (known := Z.of_nat (length (vRandom s))). set (share := if max_pct =? 0 then known else max_pct * known / 100). set (lim := if max_addresses =? 0 then share else Z.min share max_addresses).
  assert (Hlim : 0 <= lim) by (unfold lim, share, known; destruct (max_addresses =? 0), (max_pct =? 0); try apply Z.min_glb; try lia; apply Z.div_pos; nia). change (request_limit s max_addresses max_pct) with lim.
  destruct (getaddr_loop_spec draw lim now network filtered s Hd ∅ ∅ (length (vRandom s)) s 0 (man_am _ H) (descends_refl _ s) (framed_refl s) ltac:(lia) ltac:(lia) ltac:(apply Z.le_max_l)) as (ids & s' & Run & H' & D & F & k & -> & Hk & Hl).
  rewrite (Run : getaddr_loop (length (vRandom s)) draw lim network filtered now 0 [] s = _). eexists _, s'. split; [reflexivity|]. destruct (man_reordered s s' H H' D F) as [H2 T]. split; [exact H2|]. split; [exact T|]. pose proof (ix_nodup _ _ _ _ (ok_ix _ _ _ H')) as Nd. pose proof (reordered_perm _ _ _ _ _ _ (man_am _ H) H' D) as Perm.
  assert (Lc : forall l, Z.of_nat (length (picked s network filtered now l)) = lcount (id_fits s network filtered now) l) by reflexivity. split; [|split].
  - apply NoDup_filter. rewrite <- (take_drop k) in Nd. apply NoDup_app in Nd. apply Nd.
  - intros id [Hid _]%list_elem_of_filter. exact Hid.
  - rewrite Lc in *. rewrite <- (lcount_perm _ _ _ Perm). pose proof (lcount_take (id_fits s network filtered now) (vRandom s') k). destruct Hk as [->|Hk]; [rewrite take_ge in * by lia|]; lia.
Qed.

(** ** Tests *)

Lemma elem_of_set_order c id : id ∈ set_order c <-> id ∈ c.
Proof using. unfold set_order. rewrite merge_sort_Permutation. apply elem_of_elements. Qed.
Lemma length_set_order c : length (set_order c) = size c.
Proof using. unfold set_order. rewrite merge_sort_Permutation. reflexivity. Qed.

Lemma ResolveCollisions_spec s clock : man_ok s -> (forall k, 0 < clock k) -> exists s', ResolveCollisions_ clock s = (Ok tt, s') /\ man_ok s' /\ later s s' /\ nIdCount s' = nIdCount s /\ m_tried_collisions s' ⊆ m_tried_collisions s /\
    forall b p i, cell true s b p <> -1 -> mapInfo s !! cell true s b p = Some i -> stays b p (cell true s b p) i s' \/ exists k, k ∈ m_tried_collisions s /\ unheard (clock k) i.
Proof using.
  intros H Hk. destruct (resolve_loop_spec clock (set_order (m_tried_collisions s)) s H ltac:(auto)) as (s' & Run & H' & L & I & C & P). exists s'. split; [exact Run|]. split; [exact H'|]. split; [exact L|]. split; [exact I|]. split; [exact C|].
  intros b p i Hc Ei. destruct (P b p i Hc Ei) as [St|(k & Hin & U)]; [left; exact St|right; exists k; split; [apply elem_of_set_order; exact Hin|exact U]].
Qed.

(** An entry of the tried table, as it is returned. *)
Definition tried_answer (s : AddrMan) (r : option (CAddress * Z)) : Prop := match r with
  | None => True
  | Some (a, t) => exists id i, mapInfo s !! id = Some i /\ fInTried i = true /\ a = as_CAddress i /\ t = m_last_try i
  end.

Lemma SelectTriedCollision_spec s draw : man_ok s -> (forall bound, 0 < bound -> 0 <= draw bound < bound) ->
  exists r s', SelectTriedCollision_ draw s = (Ok r, s') /\ man_ok s' /\ later s s' /\ nIdCount s' = nIdCount s /\ (forall b p, cell true s' b p = cell true s b p) /\ mapInfo s' = mapInfo s /\ tried_answer s r.
Proof using.
  intros H Hd. unfold SelectTriedCollision_, mbind at 1, stm_bind at 1, get_st at 1. destruct (Nat.eqb_spec (size (m_tried_collisions s)) 0) as [Hz|Hz]; [exists None, s; split; [reflexivity|]; split; [exact H|]; split; [apply later_refl|]; repeat split|].
  assert (Hpos : 0 < Z.of_nat (size (m_tried_collisions s))) by (destruct (size (m_tried_collisions s)); [contradiction|lia]). specialize (Hd _ Hpos). set (r := draw _) in *. destruct (lookup_lt_is_Some_2 (set_order (m_tried_collisions s)) (Z.to_nat r)) as [id Eid]; [rewrite length_set_order; lia|].
  rewrite Eid, (bind_ok (lift_st (access (Some id))) _ s id s) by reflexivity. pose proof (proj1 (elem_of_set_order _ _) (list_elem_of_lookup_2 _ _ _ Eid)) as Hin. destruct (mapInfo s !! id) as [i|] eqn:Ei.
  - change (GetBucketPosition (nKey s) false (GetTriedBucket (nKey s) i) i) with (tpos (nKey s) i). change (GetTriedBucket (nKey s) i) with (tbucket (nKey s) i). rewrite (bind_ok _ _ _ _ _ (read_cell_ok true s _ _ (tried_in_table (nKey s) i))).
    destruct (ok_tried_at _ _ s _ _ (man_am _ H) (co_place _ (man_coll _ H) id i Hin Ei)) as (io & Eo & Ho & _). rewrite (bind_ok _ _ _ _ _ (info_index_ok s _ io Eo)). eexists _, s. split; [reflexivity|]. split; [exact H|]. split; [apply later_refl|]. repeat split. cbn. eauto 8.
  - rewrite bind_modify. eexists None, _. split; [reflexivity|]. assert (Lt : later s (set_collisions (fun c => c ∖ {[ id ]}) s)) by (split; [reflexivity|cbn; lia|auto|eauto]).
    split; [split; [exact (am_collisions _ _ _ _ (man_am _ H))|apply (collisions_later s _ (man_coll _ H) Lt); cbn; clear; set_solver]|]. split; [exact Lt|]. repeat split.
Qed.

(** ** Select *)

Lemma mcnt_witness {A} (P : Z -> A -> bool) (m : gmap Z A) : 0 < mcnt P m -> exists x a, m !! x = Some a /\ P x a = true.
Proof using.
  unfold mcnt. intros H. set (f := filter _ m) in H. destruct (decide (f = ∅)) as [Hf|(x & a & Ea)%map_choose]; [rewrite Hf, map_size_empty in H; cbn in H; lia|]. apply map_lookup_filter_Some in Ea as [Ea Hp]. eauto.
Qed.

Lemma scan_some use_tried network b ps s id : scan_bucket use_tried network b ps s = Some id ->
  id <> -1 /\ (exists p, p ∈ ps /\ GetEntry use_tried b p s = id) /\ (forall net, network = Some net -> exists i, mapInfo s !! id = Some i /\ info_network i = net).
Proof using.
  induction ps as [|p ps IH]; cbn [scan_bucket]; [discriminate|]. destruct (negb (_ =? -1) && _)%bool eqn:Hf.
  - intros [= <-]. apply andb_true_iff in Hf as [H1 H2]. apply negb_true_iff, Z.eqb_neq in H1. split; [exact H1|]. split; [exists p; split; [left|reflexivity]|]. intros net ->. destruct (mapInfo s !! _) as [i|]; [|discriminate]. apply bool_decide_eq_true in H2. eauto.
  - intros Hs. destruct (IH Hs) as (H1 & (q & Hq & H2) & H3). split; [exact H1|]. split; [exists q; split; [right; exact Hq|exact H2]|exact H3].
Qed.

Lemma scan_finds use_tried network b ps s p i : p ∈ ps -> GetEntry use_tried b p s <> -1 -> mapInfo s !! GetEntry use_tried b p s = Some i -> here network (info_network i) = true -> scan_bucket use_tried network b ps s <> None.
Proof using.
  intros Hp Hc Ei Hh. induction ps as [|q ps IH]; cbn [scan_bucket]; [apply not_elem_of_nil in Hp; contradiction|]. destruct (negb _ && _)%bool eqn:Hf; [discriminate|]. apply elem_of_cons in Hp as [<-|Hp]; [|exact (IH Hp)].
  exfalso. apply andb_false_iff in Hf as [Hf|Hf]; [apply negb_false_iff, Z.eqb_eq in Hf; contradiction|]. destruct network as [net|]; [|discriminate]. rewrite Ei in Hf. cbn in Hh. congruence.
Qed.

(** What a search in one table may return. *)
Definition select_answer (s : AddrMan) (tried : bool) (network : option Network) (r : CAddress * Z) : Prop :=
  exists id i, mapInfo s !! id = Some i /\ fInTried i = tried /\ here network (info_network i) = true /\ r = (as_CAddress i, m_last_try i).

Definition scan_order (draws : select_draws) (turn : nat) : list Z := map (fun i => (draw_position draws turn ADDRMAN_BUCKET_SIZE + i) mod ADDRMAN_BUCKET_SIZE) (seqZ 0 ADDRMAN_BUCKET_SIZE).

Lemma scan_answer s tried network b ps id : am_ok ∅ ∅ s -> scan_bucket tried network b ps s = Some id -> exists i, mapInfo s !! id = Some i /\ fInTried i = tried /\ here network (info_network i) = true.
Proof using.
  intros H (Hid & (p & _ & Hp) & Hn)%scan_some. unfold GetEntry in Hp. destruct (in_table tried b p); [|congruence].
  assert (X : exists i, mapInfo s !! id = Some i /\ fInTried i = tried).
  { destruct tried; [destruct (ok_tried_at _ _ s b p H ltac:(congruence)) as (i & Ei & Hi & _)|destruct (ok_new_at _ _ s b p H ltac:(congruence)) as (_ & i & Ei & Hi & _)]; rewrite Hp in Ei; eauto. }
  destruct X as (i & Ei & Hi). exists i. split; [exact Ei|]. split; [exact Hi|]. destruct network as [net|]; [|reflexivity]. destruct (Hn net eq_refl) as (j & Ej & <-). rewrite Ei in Ej. injection Ej as <-. apply bool_decide_eq_true_2. reflexivity.
Qed.

Lemma select_loop_sound s tried network draws : am_ok ∅ ∅ s -> forall fuel turn refused, match select_loop fuel draws tried network turn refused s with Ok r => select_answer s tried network r | Fail e => e = OutOfFuel end.
Proof using.
  intros H. induction fuel as [|fuel IH]; intros turn refused; cbn [select_loop]; [reflexivity|]. fold (scan_order draws turn). destruct (scan_bucket tried network _ (scan_order draws turn) s) as [id|] eqn:Es; [|apply IH].
  destruct (scan_answer s tried network _ _ id H Es) as (i & Ei & Hi & Hn). rewrite Ei. rewrite bool_decide_eq_true_2 by eauto. cbn. destruct (draw_accepts draws turn refused i); [exists id, i; auto|apply IH].
Qed.

Lemma select_loop_ends s tried network draws T b : am_ok ∅ ∅ s -> draw_bucket draws T (bucket_count tried) = b -> (forall ps, (forall p, 0 <= p < ADDRMAN_BUCKET_SIZE -> p ∈ ps) -> scan_bucket tried network b ps s <> None) -> (forall r i, draw_accepts draws T r i = true) ->
  forall fuel turn refused, (turn <= T < turn + fuel)%nat -> exists r, select_loop fuel draws tried network turn refused s = Ok r.
Proof using.
  intros H Hb Hf Ha. induction fuel as [|fuel IH]; intros turn refused Ht; [lia|]. cbn [select_loop]. fold (scan_order draws turn). destruct (decide (turn = T)) as [->|Hne].
  - rewrite Hb. destruct (scan_bucket tried network b (scan_order draws T) s) as [id|] eqn:Es.
    + destruct (scan_answer s tried network _ _ id H Es) as (i & Ei & _). rewrite Ei, bool_decide_eq_true_2 by eauto. cbn. rewrite Ha. eauto.
    + exfalso. apply (Hf (scan_order draws T)); [|exact Es]. intros p Hp. apply list_elem_of_fmap. set (d := draw_position draws T ADDRMAN_BUCKET_SIZE). exists ((p - d) mod ADDRMAN_BUCKET_SIZE).
      pose proof (Z.mod_pos_bound (p - d) ADDRMAN_BUCKET_SIZE ltac:(reflexivity)). split; [|apply elem_of_seqZ; lia]. rewrite Zplus_mod_idemp_r. replace (d + (p - d)) with p by lia. symmetry. apply Z.mod_small, Hp.
  - destruct (scan_bucket tried network _ (scan_order draws turn) s) as [id|] eqn:Es; [|apply IH; lia]. destruct (scan_answer s tried network _ _ id H Es) as (i & Ei & _). rewrite Ei, bool_decide_eq_true_2 by eauto. cbn. destruct (draw_accepts draws turn refused i); [eauto|apply IH; lia].
Qed.

(** A table with an entry that fits has a bucket in which it is found. *)
Lemma bucket_exists s (tried : bool) (network : option Network) : am_ok ∅ ∅ s -> 0 < mcnt (if tried then is_tried network else is_new ∅ network) (mapInfo s) ->
  exists b, 0 <= b < bucket_count tried /\ forall ps, (forall p, 0 <= p < ADDRMAN_BUCKET_SIZE -> p ∈ ps) -> scan_bucket tried network b ps s <> None.
Proof using.
  intros H (id & i & Ei & Hp)%mcnt_witness. pose proof (tb_ids _ _ _ _ _ (ok_tb _ _ _ H) id i Ei) as Hid.
  assert (X : exists b p, in_table tried b p = true /\ cell tried s b p = id /\ here network (info_network i) = true).
  { destruct tried.
    - apply andb_true_iff in Hp as [Ht Hh]. exists (tbucket (nKey s) i), (tpos (nKey s) i). split; [apply tried_in_table|]. split; [apply (tb_placed _ _ _ _ _ (ok_tb _ _ _ H) id i Ei Ht)|exact Hh].
    - apply andb_true_iff in Hp as [[Ht%negb_true_iff _]%andb_true_iff Hh]. destruct (tb_ref _ _ _ _ _ (ok_tb _ _ _ H) id i Ei Ht) as (R1 & _ & R2). specialize (R2 ltac:(apply not_elem_of_empty)). assert (R3 : 0 < refs (nKey s) (vvNew s) id i) by lia.
      apply lcount_witness in R3 as (b & Hb%elem_of_seqZ & Hc%Z.eqb_eq). exists b, (npos (nKey s) i b). split; [apply new_in_table; lia|]. split; [exact Hc|exact Hh]. }
  destruct X as (b & p & Hin & Hc & Hh). exists b. pose proof Hin as Hr. unfold in_table in Hr. rewrite !andb_true_iff, !Z.leb_le, !Z.ltb_lt in Hr. split; [lia|]. intros ps Hps. assert (Hg : GetEntry tried b p s = id) by (unfold GetEntry; rewrite Hin; exact Hc).
  apply (scan_finds tried network b ps s p i); [apply Hps; lia|rewrite Hg; lia|rewrite Hg; exact Ei|exact Hh].
Qed.

(** The table that is searched, and whether there is one. *)
Definition select_table (s : AddrMan) (draws : select_draws) (new_only : bool) (network : option Network) : option bool :=
  let new_count := mcnt (is_new ∅ network) (mapInfo s) in
  let tried_count := mcnt (is_tried network) (mapInfo s) in
  if new_only then (if new_count =? 0 then None else Some false)
  else if tried_count =? 0 then (if new_count =? 0 then None else Some false)
  else if new_count =? 0 then Some true else Some (draw_table draws).

Lemma Select_unfold s fuel draws new_only network : am_ok ∅ ∅ s ->
  Select_ fuel draws new_only network s = match select_table s draws new_only network with None => Ok None | Some t => r ← select_loop fuel draws t network 0 0 s; Ok (Some r) end.
Proof using.
  intros H. pose proof (mcnt_range (is_new ∅ network) (mapInfo s)) as R1. pose proof (mcnt_range (is_tried network) (mapInfo s)) as R2. pose proof (ct_small _ _ _ _ _ (ok_ct _ _ _ H)) as Small. unfold select_table. set (nc := mcnt (is_new ∅ network) (mapInfo s)) in *. set (tc := mcnt (is_tried network) (mapInfo s)) in *.
  pose proof (ix_length _ _ _ _ (ok_ix _ _ _ H)) as Len. unfold Select_. destruct (vRandom s) as [|x l].
  { cbn in Len. replace nc with 0 by lia. replace tc with 0 by lia. destruct new_only; reflexivity. }
  set (counts := match network with None => _ | Some _ => _ end). assert (Hc : counts = Some (nc, tc) \/ (counts = None /\ nc = 0 /\ tc = 0)).
  { unfold counts, nc, tc in *. destruct network as [net|].
    - pose proof (ct_net _ _ _ _ _ (ok_ct _ _ _ H) net) as Hn. destruct (m_network_counts s !! net) as [c|]; cbn in Hn; [left; rewrite Hn; reflexivity|right]. injection Hn as -> ->. auto.
    - left. rewrite (ct_nn _ _ _ _ _ (ok_ct _ _ _ H)), (ct_nt _ _ _ _ _ (ok_ct _ _ _ H)), !uwrap_small by (unfold in_u; lia). reflexivity. }
  destruct Hc as [->|(-> & -> & ->)]; [|destruct new_only; reflexivity]. rewrite uwrap_small by (unfold in_u; lia). destruct (Z.eqb_spec nc 0) as [->|Hn], (Z.eqb_spec tc 0) as [->|Ht], new_only; cbn [andb orb]; rewrite ?(proj2 (Z.eqb_neq _ 0)) by lia; try reflexivity.
Qed.
End Queries.

(** * Runs of the address manager

    Sequences of the operations of [AddrMan] on a new manager: the consistency
    check finds nothing after any of them, the tables have their sizes, entries
    that work are not driven out, and what the queries return. *)

Section Runs.
Context {E : AddrEnv}.

(** What the rest of the node calls; [Good] always asks for a test. *)
Inductive addr_op : Type :=
  | OpAdd (vAddr : list (CAddress * (Z -> Z))) (src : CNetAddr) (time_penalty now : Z)
  | OpGood (addr : CService) (time : Z)
  | OpAttempt (addr : CService) (fCountFailure : bool) (time : Z)
  | OpConnected (addr : CService) (time : Z)
  | OpSetServices (addr : CService) (services : Z)
  | OpResolveCollisions (clock : Z -> Z)
  | OpSelectTriedCollision (draw : Z -> Z)
  | OpGetAddr (max_addresses max_pct : Z) (network : option Network) (filtered : bool) (now : Z) (draw : Z -> Z -> Z).

Definition run_addr_op (o : addr_op) : stm AddrMan unit :=
  match o with
  | OpAdd vAddr src time_penalty now => _ ← Add_ vAddr src time_penalty now; mret tt
  | OpGood addr time => _ ← Good_ addr true time; mret tt
  | OpAttempt addr fCountFailure time => Attempt_ addr fCountFailure time
  | OpConnected addr time => Connected_ addr time
  | OpSetServices addr services => SetServices_ addr services
  | OpResolveCollisions clock => ResolveCollisions_ clock
  | OpSelectTriedCollision draw => _ ← SelectTriedCollision_ draw; mret tt
  | OpGetAddr max_addresses max_pct network filtered now draw => _ ← GetAddr_ max_addresses max_pct network filtered now draw; mret tt
  end.

Fixpoint run_addr_ops (os : list addr_op) : stm AddrMan unit := match os with [] => mret tt | o :: os => _ ← run_addr_op o; run_addr_ops os end.

(** The clock is past the epoch and random numbers are below their bound. *)
Definition allowed (o : addr_op) : Prop :=
  match o with
  | OpGood _ time => 0 < time
  | OpAttempt _ _ time => 0 <= time
  | OpResolveCollisions clock => forall k, 0 < clock k
  | OpSelectTriedCollision draw => forall bound, 0 < bound -> 0 <= draw bound < bound
  | OpGetAddr max_addresses max_pct _ _ _ draw => 0 <= max_addresses /\ 0 <= max_pct <= 100 /\ forall n bound, 0 < bound -> 0 <= draw n bound < bound
  | _ => True
  end.

(** How many addresses it may add. *)
Definition additions (o : addr_op) : Z := match o with OpAdd vAddr _ _ _ => Z.of_nat (length vAddr) | _ => 0 end.
Definition all_additions (os : list addr_op) : Z := foldr (fun o n => additions o + n) 0 os.

Lemma additions_pos o : 0 <= additions o.
Proof using. destruct o; cbn; lia. Qed.
Lemma all_additions_pos os : 0 <= all_additions os.
Proof using. induction os as [|o os IH]; cbn; [lia|]. pose proof (additions_pos o). unfold all_additions in IH. lia. Qed.

(** Why an entry of the tried table was driven out. *)
Definition driven_out (o : addr_op) (s : AddrMan) (i : AddrInfo) : Prop := exists clock k, o = OpResolveCollisions clock /\ k ∈ m_tried_collisions s /\ unheard (clock k) i.

Lemma run_addr_op_spec o s : man_ok s -> allowed o -> nIdCount s + additions o < 2 ^ 31 -> exists s', run_addr_op o s = (Ok tt, s') /\ man_ok s' /\ later s s' /\ nIdCount s' <= nIdCount s + additions o /\
  forall b p i, cell true s b p <> -1 -> mapInfo s !! cell true s b p = Some i -> cell true s' b p = cell true s b p \/ driven_out o s i.
Proof using.
  intros H Ha Hn.
  assert (Fin : forall s', man_ok s' -> later s s' -> nIdCount s' <= nIdCount s + additions o -> (forall b p, cell true s b p <> -1 -> cell true s' b p = cell true s b p) -> exists s0, (Ok tt, s') = (Ok tt, s0) /\ man_ok s0 /\ later s s0 /\ nIdCount s0 <= nIdCount s + additions o /\
    forall b p i, cell true s b p <> -1 -> mapInfo s !! cell true s b p = Some i -> cell true s0 b p = cell true s b p \/ driven_out o s i).
  { intros s' H' L I C. exists s'. split; [reflexivity|]. split; [exact H'|]. split; [exact L|]. split; [exact I|]. intros b p i Hc _. left. exact (C b p Hc). }
  destruct o as [vAddr src pen now|addr time|addr count time|addr time|addr services|clock|draw|ma mp net filt now draw]; cbn [run_addr_op allowed additions] in *.
  - destruct (Add_spec s vAddr src pen now H Hn) as (r & s' & Run & H' & L & I & C). rewrite (bind_ok _ _ _ _ _ Run). apply Fin; auto.
  - destruct (Good_spec s addr true time H Ha) as (s' & Run & H' & G). rewrite (bind_ok _ _ _ _ _ Run). pose proof (gs_ids _ _ _ _ G). apply Fin; [exact H'|exact (gs_later _ _ _ _ G)|lia|intros b p Hc; exact (gs_tested _ _ _ _ G b p eq_refl Hc)].
  - destruct (Attempt_spec s addr count time H Ha) as (s' & Run & H' & [L I _ C]). rewrite Run. apply Fin; auto; lia.
  - destruct (Connected_spec s addr time H) as (s' & Run & H' & [L I _ C]). rewrite Run. apply Fin; auto; lia.
  - destruct (SetServices_spec s addr services H) as (s' & Run & H' & [L I _ C]). rewrite Run. apply Fin; auto; lia.
  - destruct (ResolveCollisions_spec s clock H Ha) as (s' & Run & H' & L & I & _ & P). rewrite Run. exists s'. split; [reflexivity|]. split; [exact H'|]. split; [exact L|]. split; [lia|]. intros b p i Hc Ei. destruct (P b p i Hc Ei) as [[St _]|(k & Hk & U)]; [left; exact St|right; exists clock, k; auto].
  - destruct (SelectTriedCollision_spec s draw H Ha) as (r & s' & Run & H' & L & I & C & _). rewrite (bind_ok _ _ _ _ _ Run). apply Fin; auto; lia.
  - destruct Ha as (A1 & A2 & A3). destruct (GetAddr_spec s ma mp net filt now draw H A1 A2 A3) as (ids & s' & Run & H' & [L I _ C] & _). rewrite (bind_ok _ _ _ _ _ Run). apply Fin; auto; lia.
Qed.

Lemma run_addr_ops_spec os : forall s, man_ok s -> Forall allowed os -> nIdCount s + all_additions os < 2 ^ 31 -> exists s', run_addr_ops os s = (Ok tt, s') /\ man_ok s' /\ later s s' /\ nIdCount s' <= nIdCount s + all_additions os.
Proof using.
  induction os as [|o os IH]; intros s H Ha Hn; cbn [run_addr_ops all_additions foldr] in *; [exists s; split; [reflexivity|]; split; [exact H|]; split; [apply later_refl|lia]|]. fold (all_additions os) in *.
  apply Forall_cons in Ha as [Ha1 Ha2]. pose proof (all_additions_pos os). destruct (run_addr_op_spec o s H Ha1 ltac:(lia)) as (s1 & Run & H1 & L1 & I1 & _). rewrite (bind_ok _ _ _ _ _ Run). destruct (IH s1 H1 Ha2 ltac:(lia)) as (s2 & Run2 & H2 & L2 & I2).
  exists s2. split; [exact Run2|]. split; [exact H2|]. split; [exact (later_trans _ _ _ L1 L2)|lia].
Qed.

Lemma new_man_ok key : man_ok (new_AddrMan key).
Proof using.
  assert (C : forall (t : gmap (Z * Z) Z) b p, t = ∅ -> cellv t b p = -1) by (intros t b p ->; unfold cellv; rewrite lookup_empty; reflexivity). split; split; cbn.
  - split; [intros id i X; rewrite lookup_empty in X; discriminate| | |intros id i X; rewrite lookup_empty in X; discriminate].
    + intros x id. rewrite lookup_empty. split; [discriminate|]. intros (i & X & _). rewrite lookup_empty in X. discriminate.
    + intros k id. rewrite lookup_nil. split; [discriminate|]. intros (i & X & _). rewrite lookup_empty in X. discriminate.
  - split; [intros b p X; rewrite C in X by reflexivity; contradiction|intros id i X; rewrite lookup_empty in X; discriminate|intros b p X; rewrite C in X by reflexivity; contradiction|intros id i X; rewrite lookup_empty in X; discriminate|intros id X; apply not_elem_of_empty in X; contradiction|intros id i X; rewrite lookup_empty in X; discriminate].
  - split; [reflexivity|reflexivity| |intros id X; apply not_elem_of_empty in X; contradiction|rewrite map_size_empty; lia]. intros net. rewrite lookup_empty. reflexivity.
  - reflexivity.
  - intros id i X. rewrite lookup_empty in X. discriminate.
  - lia.
  - intros id X. apply not_elem_of_empty in X. contradiction.
  - intros id i X. apply not_elem_of_empty in X. contradiction.
  - rewrite size_empty. lia.
Qed.

(** What the node reaches from a new manager. *)
Lemma run_new key os : Forall allowed os -> all_additions os < 2 ^ 31 -> exists s, run_addr_ops os (new_AddrMan key) = (Ok tt, s) /\ man_ok s /\ nKey s = key.
Proof using.
  intros Ha Hn. destruct (run_addr_ops_spec os (new_AddrMan key) (new_man_ok key) Ha ltac:(cbn; lia)) as (s & Run & H & L & _). exists s. split; [exact Run|]. split; [exact H|exact (lt_key _ _ L)].
Qed.

(** ** The sizes of the tables *)




(** How many places of a table hold an entry. *)
Definition held_in (tried : bool) (s : AddrMan) (id : Z) : Z := lcount (fun bp => cell tried s (fst bp) (snd bp) =? id) (places tried).

Lemma held_tried s id i : am_ok ∅ ∅ s -> mapInfo s !! id = Some i -> held_in true s id = if fInTried i then 1 else 0.
Proof using.
  intros H Ei. pose proof (tb_ids _ _ _ _ _ (ok_tb _ _ _ H) id i Ei) as Hid. destruct (fInTried i) eqn:Hi.
  - destruct (tb_placed _ _ _ _ _ (ok_tb _ _ _ H) id i Ei Hi) as (Hc & _). unfold held_in. rewrite (lcount_one _ _ (tbucket (nKey s) i, tpos (nKey s) i) (NoDup_places true)).
    + cbn [fst snd]. change (cell true s (tbucket (nKey s) i) (tpos (nKey s) i) = id) in Hc. rewrite Hc, Z.eqb_refl. reflexivity.
    + apply elem_of_places, tried_in_table.
    + intros [b p] _ Hq%Z.eqb_eq. cbn in Hq. destruct (ok_place _ _ s b p i H) as (_ & <- & <-); [lia|rewrite Hq; exact Ei|reflexivity].
  - apply lcount_none. intros [b p] _. cbn. apply Z.eqb_neq. intros Hq. destruct (ok_place _ _ s b p i H) as (X & _); [lia|rewrite Hq; exact Ei|]. congruence.
Qed.

Definition reached (s : AddrMan) : Prop := exists key os, Forall allowed os /\ all_additions os < 2 ^ 31 /\ run_addr_ops os (new_AddrMan key) = (Ok tt, s).

Lemma reached_ok s : reached s -> man_ok s.
Proof using. intros (key & os & Ha & Hn & Run). destruct (run_new key os Ha Hn) as (s' & Run' & H & _). rewrite Run in Run'. injection Run' as <-. exact H. Qed.


(** An address that is known is in exactly one of the tables: at one place
    of the tried table, or at one to eight places of the new table, and its
    reference count says at how many. *)
Theorem addresses_placed s addr id : reached s -> Find addr s = Some id ->
  exists i, mapInfo s !! id = Some i /\ ai_service i = addr /\
    if fInTried i then held_in true s id = 1 /\ held_in false s id = 0 /\ cell true s (GetTriedBucket (nKey s) i) (GetBucketPosition (nKey s) false (GetTriedBucket (nKey s) i) i) = id
    else held_in true s id = 0 /\ held_in false s id = nRefCount i /\ 1 <= nRefCount i <= ADDRMAN_NEW_BUCKETS_PER_ADDRESS.
Proof using.
  intros R%reached_ok Ef. pose proof (man_am _ R) as H. destruct (Find_some _ _ _ _ _ H Ef) as (i & Ei & Hs). exists i. split; [exact Ei|]. split; [exact Hs|]. pose proof (held_tried s id i H Ei) as Ht. pose proof (tb_ids _ _ _ _ _ (ok_tb _ _ _ H) id i Ei) as Hid. destruct (fInTried i) eqn:Hi.
  - split; [exact Ht|]. split; [exact (held_none s id H ltac:(lia) ltac:(congruence))|]. apply (tb_placed _ _ _ _ _ (ok_tb _ _ _ H) id i Ei Hi).
  - split; [exact Ht|]. split; [exact (held_refs s id i H Ei Hi)|]. destruct (tb_ref _ _ _ _ _ (ok_tb _ _ _ H) id i Ei Hi) as (_ & R1 & R2). specialize (R2 ltac:(apply not_elem_of_empty)). lia.
Qed.

(** An entry of the tried table keeps its place through every call, but for
    one case: [ResolveCollisions] finds that an address that works waits for the
    place, the entry has not been connected to for four hours, and the last try
    to connect to it was more than a minute ago.  Peers cannot drive a working
    entry out by sending addresses. *)
Theorem tried_entries_protected s o b p : reached s -> allowed o -> nIdCount s + additions o < 2 ^ 31 -> cell true s b p <> -1 ->
  exists i s', mapInfo s !! cell true s b p = Some i /\ run_addr_op o s = (Ok tt, s') /\ (cell true s' b p = cell true s b p \/ driven_out o s i).
Proof using.
  intros R%reached_ok Ha Hn Hc. destruct (ok_tried_at _ _ s b p (man_am _ R) Hc) as (i & Ei & _). destruct (run_addr_op_spec o s R Ha Hn) as (s' & Run & _ & _ & _ & P). exists i, s'. split; [exact Ei|]. split; [exact Run|exact (P b p i Hc Ei)].
Qed.

(** An address that answered moves to the tried table when it is known, not
    there yet, and its place is free (or the caller does not want a test); what
    had the place goes back to the new table and is not lost.  When a test is
    asked for, no entry of the tried table moves. *)
Theorem Good_correct s addr test_before_evict time : reached s -> 0 < time ->
  exists s', Good_ addr test_before_evict time s = (Ok (good_result s addr test_before_evict), s') /\ man_ok s' /\
    (good_result s addr test_before_evict = true -> exists id i, Find addr s' = Some id /\ mapInfo s' !! id = Some i /\ fInTried i = true) /\
    (forall id i, Find addr s = Some id -> mapInfo s !! id = Some i -> good_result s addr test_before_evict = true -> cell true s (tbucket (nKey s) i) (tpos (nKey s) i) <> -1 ->
      exists j, mapInfo s' !! cell true s (tbucket (nKey s) i) (tpos (nKey s) i) = Some j /\ fInTried j = false /\ nRefCount j = 1) /\
    (test_before_evict = true -> forall b p, cell true s b p <> -1 -> cell true s' b p = cell true s b p).
Proof using.
  intros R%reached_ok Ht. destruct (Good_spec s addr test_before_evict time R Ht) as (s' & Run & H' & G). exists s'. split; [exact Run|]. split; [exact H'|]. split; [|split; [exact (gs_moved _ _ _ _ G)|intros Hq b p; exact (gs_tested _ _ _ _ G b p Hq)]].
  intros (id & i & Ei & Hs & Hi)%(gs_tried _ _ _ _ G). exists id, i. split; [|auto]. rewrite (Find_ok _ _ _ _ (man_am _ H')). apply (ix_addr _ _ _ _ (ok_ix _ _ _ (man_am _ H'))). eauto.
Qed.

(** A request for addresses returns entries that are known and were asked
    for (the network, and none that is terrible when they are filtered), none
    of them twice, and as many as there are up to the limits of the request. *)
Theorem GetAddr_correct s max_addresses max_pct network filtered now draw : reached s -> 0 <= max_addresses -> 0 <= max_pct <= 100 -> (forall n bound, 0 < bound -> 0 <= draw n bound < bound) ->
  exists ids s', GetAddr_ max_addresses max_pct network filtered now draw s = (Ok (address_of s <$> ids), s') /\ man_ok s' /\ NoDup (ca_service <$> (address_of s <$> ids)) /\
    (forall id, id ∈ ids -> exists i, mapInfo s !! id = Some i /\ fits network filtered now i = true) /\
    Z.of_nat (length ids) = Z.min (request_limit s max_addresses max_pct) (lcount (id_fits s network filtered now) (vRandom s)).
Proof using.
  intros R%reached_ok H1 H2 H3. destruct (GetAddr_spec s max_addresses max_pct network filtered now draw R H1 H2 H3) as (ids & s' & Run & H' & _ & Nd & Fit & Len). exists ids, s'. split; [exact Run|]. split; [exact H'|].
  assert (Known : forall id, id ∈ ids -> exists i, mapInfo s !! id = Some i /\ fits network filtered now i = true) by (intros id Hid%Fit; unfold id_fits in Hid; destruct (mapInfo s !! id) as [i|]; [eauto|discriminate]). split; [|auto].
  rewrite <- list_fmap_compose. apply NoDup_fmap_2_strong; [|exact Nd]. intros x y (i & Ei & _)%Known (j & Ej & _)%Known. cbn. unfold address_of. rewrite Ei, Ej. cbn. intros Hs.
  pose proof (ix_addr _ _ _ _ (ok_ix _ _ _ (man_am _ R))) as A. assert (X : mapAddr s !! ai_service i = Some x) by (apply A; eauto). assert (Y : mapAddr s !! ai_service i = Some y) by (apply A; eauto). congruence.
Qed.

(** [Select] returns nothing exactly when the tables it may look in have no
    entry of the network; otherwise every answer is such an entry, no failure
    but running out of turns is possible, and there is a bucket that ends the
    search in the turn in which it is drawn and the entry accepted. *)
Theorem Select_correct s draws new_only network : reached s ->
  match select_table s draws new_only network with
  | None => forall fuel, Select_ fuel draws new_only network s = Ok None
  | Some tried =>
      (forall fuel, match Select_ fuel draws new_only network s with Ok (Some r) => select_answer s tried network r | Ok None => False | Fail e => e = OutOfFuel end) /\
      exists b, 0 <= b < bucket_count tried /\ forall T, draw_bucket draws T (bucket_count tried) = b -> (forall r i, draw_accepts draws T r i = true) -> exists r, Select_ (S T) draws new_only network s = Ok (Some r)
  end.
Proof using.
  intros R%reached_ok. pose proof (man_am _ R) as H. destruct (select_table s draws new_only network) as [t|] eqn:Et; [|intros fuel; rewrite Select_unfold, Et by exact H; reflexivity]. split.
  - intros fuel. rewrite Select_unfold, Et by exact H. pose proof (select_loop_sound s t network draws H fuel 0 0) as S. destruct (select_loop fuel draws t network 0 0 s) as [r|e]; cbn; exact S.
  - destruct (bucket_exists s t network H) as (b & Hb & Hf).
    { unfold select_table in Et. pose proof (mcnt_range (is_new ∅ network) (mapInfo s)). pose proof (mcnt_range (is_tried network) (mapInfo s)). destruct new_only, (Z.eqb_spec (mcnt (is_tried network) (mapInfo s)) 0), (Z.eqb_spec (mcnt (is_new ∅ network) (mapInfo s)) 0), t; try discriminate; lia. }
    exists b. split; [exact Hb|]. intros T Hd Ha. destruct (select_loop_ends s t network draws T b H Hd Hf Ha (S T) 0 0 ltac:(lia)) as (r & Hr). exists r. rewrite Select_unfold, Et, Hr by exact H. reflexivity.
Qed.
End Runs.

(** ** A run *)

(** Addresses are numbers, with a port; the network is whether they are even. *)
#[local] Instance sample_env : AddrEnv := {|
  CNetAddr := Z; CService := Z * Z; Network := bool; no_netaddr := 0; no_service := (0, 0); netaddr_of := fst; IsRoutable := fun a => 0 <? a; netaddr_IsValid := fun a => 0 <? a;
  GetNetwork := Z.even; GetNetClass := Z.even; GetKey := fun x => [fst x; snd x]; GetGroup := fun a => [a / 256];
  addr_hash := fun data => le_digits 8 32 (fold_left (fun h x => (h * 131 + x + 7) mod 2 ^ 64) data 17) |}.

Definition sample_key : uint256 := repeat 3 32.
Definition sample_address (a time : Z) : CAddress := {| ca_service := (a, 8333); ca_time := time; ca_services := 1 |}.
Definition sample_ops : list addr_op := [
  OpAdd [(sample_address 300 1000000, fun _ => 0); (sample_address 301 1000000, fun _ => 0); (sample_address 900 1000000, fun _ => 0)] 77 0 1000000;
  OpGood (300, 8333) 1000100;
  OpAttempt (301, 8333) true 1000200;
  OpSetServices (301, 8333) 9;
  OpResolveCollisions (fun _ => 1000300);
  OpGetAddr 0 0 None true 1000400 (fun _ _ => 0)].
Definition sample_state : AddrMan := snd (run_addr_ops sample_ops (new_AddrMan sample_key)).

Lemma sample_allowed : Forall allowed sample_ops.
Proof. repeat constructor; cbn; try lia; intros; lia. Qed.


Lemma sample_reached : reached sample_state.
Proof. exists sample_key, sample_ops. split; [exact sample_allowed|]. split; [reflexivity|]. rewrite (surjective_pairing (run_addr_ops sample_ops (new_AddrMan sample_key))). f_equal. Qed.

(** The first address is in the tried table and the others in the new one. *)
Example sample_tables : nTried sample_state = 1 /\ nNew sample_state = 2 /\ Find (300, 8333) sample_state = Some 0 /\ Find (302, 8333) sample_state = None.
Proof. vm_compute. auto. Qed.

Lemma addresses_placed_witness : exists i, mapInfo sample_state !! 0 = Some i /\ ai_service i = (300, 8333) /\
    if fInTried i then held_in true sample_state 0 = 1 /\ held_in false sample_state 0 = 0 /\ cell true sample_state (GetTriedBucket (nKey sample_state) i) (GetBucketPosition (nKey sample_state) false (GetTriedBucket (nKey sample_state) i) i) = 0
    else held_in true sample_state 0 = 0 /\ held_in false sample_state 0 = nRefCount i /\ 1 <= nRefCount i <= ADDRMAN_NEW_BUCKETS_PER_ADDRESS.
Proof. apply (addresses_placed sample_state (300, 8333) 0); [exact sample_reached|vm_compute; reflexivity]. Defined.

(** The place of the first address in the tried table. *)
Definition sample_place : Z * Z := default (0, 0) (match mapInfo sample_state !! 0 with Some i => Some (tbucket sample_key i, tpos sample_key i) | None => None end).

Lemma tried_entries_protected_witness : exists i s', mapInfo sample_state !! cell true sample_state (fst sample_place) (snd sample_place) = Some i /\ run_addr_op (OpResolveCollisions (fun _ => 2000000)) sample_state = (Ok tt, s') /\
    (cell true s' (fst sample_place) (snd sample_place) = cell true sample_state (fst sample_place) (snd sample_place) \/ driven_out (OpResolveCollisions (fun _ => 2000000)) sample_state i).
Proof. apply tried_entries_protected; [exact sample_reached|cbn; intros; lia|vm_compute; reflexivity|vm_compute; discriminate]. Defined.

Lemma Good_correct_witness : exists s', Good_ (301, 8333) true 1001000 sample_state = (Ok (good_result sample_state (301, 8333) true), s') /\ man_ok s' /\
    (good_result sample_state (301, 8333) true = true -> exists id i, Find (301, 8333) s' = Some id /\ mapInfo s' !! id = Some i /\ fInTried i = true) /\
    (forall id i, Find (301, 8333) sample_state = Some id -> mapInfo sample_state !! id = Some i -> good_result sample_state (301, 8333) true = true -> cell true sample_state (tbucket (nKey sample_state) i) (tpos (nKey sample_state) i) <> -1 ->
      exists j, mapInfo s' !! cell true sample_state (tbucket (nKey sample_state) i) (tpos (nKey sample_state) i) = Some j /\ fInTried j = false /\ nRefCount j = 1) /\
    (true = true -> forall b p, cell true sample_state b p <> -1 -> cell true s' b p = cell true sample_state b p).
Proof. apply (Good_correct sample_state (301, 8333) true 1001000); [exact sample_reached|lia]. Defined.

Lemma GetAddr_correct_witness : exists ids s', GetAddr_ 2 100 (Some true) true 1000400 (fun _ _ => 0) sample_state = (Ok (address_of sample_state <$> ids), s') /\ man_ok s' /\ NoDup (ca_service <$> (address_of sample_state <$> ids)) /\
    (forall id, id ∈ ids -> exists i, mapInfo sample_state !! id = Some i /\ fits (Some true) true 1000400 i = true) /\
    Z.of_nat (length ids) = Z.min (request_limit sample_state 2 100) (lcount (id_fits sample_state (Some true) true 1000400) (vRandom sample_state)).
Proof. apply GetAddr_correct; [exact sample_reached|lia|lia|intros; lia]. Defined.

Definition sample_draws : select_draws := {| draw_table := true; draw_bucket := fun turn _ => Z.of_nat turn; draw_position := fun _ _ => 5; draw_accepts := fun _ _ _ => true |}.

Lemma Select_correct_witness : match select_table sample_state sample_draws false None with
  | None => forall fuel, Select_ fuel sample_draws false None sample_state = Ok None
  | Some tried =>
      (forall fuel, match Select_ fuel sample_draws false None sample_state with Ok (Some r) => select_answer sample_state tried None r | Ok None => False | Fail e => e = OutOfFuel end) /\
      exists b, 0 <= b < bucket_count tried /\ forall T, draw_bucket sample_draws T (bucket_count tried) = b -> (forall r i, draw_accepts sample_draws T r i = true) -> exists r, Select_ (S T) sample_draws false None sample_state = Ok (Some r)
  end.
Proof. apply (Select_correct sample_state sample_draws false None). exact sample_reached. Defined.
