(* ===== verification/HashWriter.v ===== *)
(** * Words, bytes and hashing in pieces

    The accessors of src/crypto/common.h and rotations, and what the hash classes
    of src/crypto/ have in common. *)

From stdpp Require Import base numbers list.
From Stdlib Require Import ZArith Lia.
From S2P Require Import Prelude.

Local Open Scope Z_scope.

(** * Words and bytes

    The big-endian and 64-bit functions of src/crypto/common.h and rotations of
    machine words, which the hash functions and ciphers share. *)

Definition ReadBE32 (bytes : list Z) : Z := le_val 8 (rev (take 4 bytes)).
Definition ReadBE64 (bytes : list Z) : Z := le_val 8 (rev (take 8 bytes)).
Definition ReadLE64 (bytes : list Z) : Z := le_val 8 (take 8 bytes).
Definition WriteBE32 (x : Z) : list Z := rev (le_digits 8 4 x).
Definition WriteBE64 (x : Z) : list Z := rev (le_digits 8 8 x).
Definition WriteLE64 (x : Z) : list Z := le_digits 8 8 x.

(** [x >> n | x << (32 - n)], and the same to the left and in 64 bits. *)
Definition ror32 (x n : Z) : Z := Z.lor (Z.shiftr x n) (u32 (Z.shiftl x (32 - n))).
Definition rol32 (x n : Z) : Z := Z.lor (u32 (Z.shiftl x n)) (Z.shiftr x (32 - n)).
Definition ror64 (x n : Z) : Z := Z.lor (Z.shiftr x n) (u64 (Z.shiftl x (64 - n))).

(** Every element is a byte. *)
Definition bytes_ok (l : list Z) : Prop := Forall (in_u 8) l.
Lemma bytes_ok_check l : forallb (fun x => (0 <=? x) && (x <? 256)) l = true -> bytes_ok l.
Proof. intros H. apply List.Forall_forall. intros x Hx. rewrite List.forallb_forall in H. apply H in Hx. apply andb_prop in Hx as [H1 H2]. unfold in_u. lia. Qed.

Lemma length_WriteBE32 x : length (WriteBE32 x) = 4%nat.
Proof. unfold WriteBE32. rewrite length_rev, le_digits_length. reflexivity. Qed.
Lemma length_WriteBE64 x : length (WriteBE64 x) = 8%nat.
Proof. unfold WriteBE64. rewrite length_rev, le_digits_length. reflexivity. Qed.
Lemma length_WriteLE64 x : length (WriteLE64 x) = 8%nat.
Proof. apply le_digits_length. Qed.

(** * Hashing in pieces

    The classes [CSHA256], [CSHA512], [CSHA1] and [CRIPEMD160] of src/crypto/
    share one way to take bytes: a buffer of one block, a count of bytes, and a
    transformation of the state by each full block.  [BlockHash] holds what
    they differ in; [Write_] and [Finalize_] are their common code.  However the
    bytes come, the result is the hash of all of them, padded. *)

Record BlockHash : Type := {
  bh_block : nat;
  bh_init : list Z;
  bh_transform : list Z -> list Z -> list Z;
  bh_sizedesc : Z -> list Z;
  bh_pad : Z;
  bh_out : list Z -> list Z;
}.

(** The members of the classes. *)
Record Hasher : Type := { h_s : list Z; h_buf : list Z; h_bytes : Z }.

(** [memcpy(buf + at, data, len)]. *)
Definition copy_at (at_ : nat) (data buf : list Z) : list Z := take at_ buf ++ data ++ drop (at_ + length data) buf.

Section Writer.
Context (H : BlockHash).
Notation B := (bh_block H).

(** What the buffer holds before anything is written does not matter. *)
Definition new_Hasher : Hasher := {| h_s := bh_init H; h_buf := replicate B 0; h_bytes := 0 |}.

Fixpoint absorb_blocks (s : list Z) (blocks : nat) (data : list Z) : list Z :=
  match blocks with
  | O => s
  | S blocks => absorb_blocks (bh_transform H s (take B data)) blocks (drop B data)
  end.

Definition fill_block (st : Hasher) (bufsize : nat) (data : list Z) : Hasher :=
  let buf := copy_at bufsize (take (B - bufsize) data) (h_buf st) in
  {| h_s := bh_transform H (h_s st) buf; h_buf := buf; h_bytes := u64 (h_bytes st + Z.of_nat (B - bufsize)) |}.

Definition direct_blocks (st : Hasher) (data : list Z) : Hasher :=
  let blocks := (length data / B)%nat in
  {| h_s := absorb_blocks (h_s st) blocks data; h_buf := h_buf st; h_bytes := u64 (h_bytes st + Z.of_nat (B * blocks)) |}.

Definition buffer_rest (st : Hasher) (bufsize : nat) (data : list Z) : Hasher :=
  match data with
  | [] => st
  | _ => {| h_s := h_s st; h_buf := copy_at bufsize data (h_buf st); h_bytes := u64 (h_bytes st + Z.of_nat (length data)) |}
  end.

Definition Write_ (st : Hasher) (data : list Z) : Hasher :=
  let bufsize := Z.to_nat (h_bytes st mod Z.of_nat B) in
  let '(st, data, bufsize) :=
    if (negb (bufsize =? 0)%nat && (B <=? bufsize + length data)%nat)%bool then (fill_block st bufsize data, drop (B - bufsize) data, 0%nat)
    else (st, data, bufsize) in
  let '(st, data) := if (B <=? length data)%nat then (direct_blocks st data, drop (B * (length data / B)) data) else (st, data) in
  buffer_rest st bufsize data.

Definition Finalize_ (st : Hasher) : list Z * Hasher :=
  let sizedesc := bh_sizedesc H (u64 (Z.shiftl (h_bytes st) 3)) in
  let st := Write_ st (take (Z.to_nat (1 + (bh_pad H - h_bytes st mod Z.of_nat B) mod Z.of_nat B)) (128 :: replicate (B - 1) 0)) in
  let st := Write_ st sizedesc in
  (bh_out H (h_s st), st).

Definition Reset_ (st : Hasher) : Hasher := {| h_s := bh_init H; h_buf := h_buf st; h_bytes := 0 |}.

(** ** The hash of all the bytes *)

Definition padding (m : list Z) : list Z :=
  let n := Z.of_nat (length m) in
  128 :: replicate (Z.to_nat ((bh_pad H - n) mod Z.of_nat B)) 0 ++ bh_sizedesc H (u64 (8 * n)).

Definition hash_of (m : list Z) : list Z := let p := m ++ padding m in bh_out H (absorb_blocks (bh_init H) (length p / B) p).

(** A block is a power of two bytes, and padding fills a block. *)
Record BlockHash_ok : Prop := {
  bo_block : Z.of_nat B = 64 \/ Z.of_nat B = 128;
  bo_pad : bh_pad H = 2 * Z.of_nat B - 1 - Z.of_nat (length (bh_sizedesc H 0));
  bo_desc z : length (bh_sizedesc H z) = length (bh_sizedesc H 0);
  bo_small : (length (bh_sizedesc H 0) < B)%nat;
}.
Hypothesis HB : BlockHash_ok.

Let Bpos : (0 < B)%nat.
Proof. destruct (bo_block HB); lia. Qed.
Let Bdiv : (Z.of_nat B | 2 ^ 64).
Proof. destruct (bo_block HB) as [->| ->]; [exists (2 ^ 58)|exists (2 ^ 57)]; reflexivity. Qed.

Lemma u64_mod_block n : u64 n mod Z.of_nat B = n mod Z.of_nat B.
Proof using HB. unfold uwrap. apply Z.mod_mod_divide. exact Bdiv. Qed.

Lemma absorb_prefix n : forall s d x, (B * n <= length d)%nat -> absorb_blocks s n (d ++ x) = absorb_blocks s n d.
Proof using HB.
  induction n as [|n IH]; intros s d x Hd; [reflexivity|]. cbn [absorb_blocks]. rewrite take_app_le, drop_app_le by lia. apply IH. rewrite length_drop. lia.
Qed.
Lemma absorb_app a : forall b s d, absorb_blocks s (a + b) d = absorb_blocks (absorb_blocks s a d) b (drop (B * a) d).
Proof using HB.
  induction a as [|a IH]; intros b s d; [rewrite Nat.mul_0_r; reflexivity|]. cbn [absorb_blocks Nat.add]. rewrite IH, drop_drop. do 2 f_equal. lia.
Qed.

(** The state has taken [m]: its full blocks are absorbed and the rest is in
    the buffer. *)
Record has_taken (st : Hasher) (m : list Z) : Prop := {
  ht_buf : length (h_buf st) = B;
  ht_bytes : h_bytes st = u64 (Z.of_nat (length m));
  ht_s : h_s st = absorb_blocks (bh_init H) (length m / B) m;
  ht_rest : take (length m mod B) (h_buf st) = drop (B * (length m / B)) m;
}.

Lemma taken_nothing buf : length buf = B -> has_taken {| h_s := bh_init H; h_buf := buf; h_bytes := 0 |} [].
Proof using HB. intros Hb. split; cbn; [exact Hb|reflexivity| |]; rewrite ?Nat.Div0.div_0_l, ?Nat.Div0.mod_0_l; [reflexivity|]. rewrite Nat.mul_0_r. reflexivity. Qed.

Lemma bufsize_ok st m : has_taken st m -> Z.to_nat (h_bytes st mod Z.of_nat B) = (length m mod B)%nat.
Proof using HB. intros T. rewrite (ht_bytes _ _ T), u64_mod_block, <- Nat2Z.inj_mod, Nat2Z.id. reflexivity. Qed.

Lemma count_ok st m n : has_taken st m -> u64 (h_bytes st + Z.of_nat n) = u64 (Z.of_nat (length m + n)).
Proof using HB. intros T. rewrite (ht_bytes _ _ T). unfold uwrap. rewrite Zplus_mod_idemp_l, Nat2Z.inj_add. reflexivity. Qed.

Lemma fill_ok st m d : has_taken st m -> (length m mod B <> 0)%nat -> (B <= length m mod B + length d)%nat ->
  has_taken (fill_block st (length m mod B) d) (m ++ take (B - length m mod B) d) /\ (length (m ++ take (B - length m mod B) d) mod B)%nat = 0%nat.
Proof using HB.
  intros T Hr Hd. pose proof (Nat.mod_upper_bound (length m) B ltac:(lia)) as Hlt. pose proof (Nat.div_mod_eq (length m) B) as Dm. set (q := (length m / B)%nat) in *. set (r := (length m mod B)%nat) in *.
  assert (Lt : length (take (B - r) d) = (B - r)%nat) by (rewrite length_take; lia). assert (Len : length (m ++ take (B - r) d) = (B * S q)%nat) by (rewrite length_app, Lt; nia).
  assert (Hq : (length (m ++ take (B - r) d) / B)%nat = S q) by (rewrite Len, Nat.mul_comm, Nat.div_mul; lia). assert (Hz : (length (m ++ take (B - r) d) mod B)%nat = 0%nat) by (rewrite Len, Nat.mul_comm, Nat.Div0.mod_mul; reflexivity).
  assert (Buf : copy_at r (take (B - r) d) (h_buf st) = drop (B * q) m ++ take (B - r) d).
  { unfold copy_at. rewrite (ht_rest _ _ T : take r (h_buf st) = drop (B * q) m), Lt, (drop_ge (h_buf st)) by (rewrite (ht_buf _ _ T); lia). rewrite app_nil_r. reflexivity. }
  split; [|exact Hz]. split; cbn [fill_block h_s h_buf h_bytes].
  - rewrite Buf, length_app, length_drop, Lt. lia.
  - rewrite (count_ok st m _ T). f_equal. rewrite Len. nia.
  - rewrite Hq, Buf, (ht_s _ _ T). fold q. replace (S q) with (q + 1)%nat by lia. rewrite absorb_app, absorb_prefix by lia. cbn [absorb_blocks]. f_equal.
    rewrite drop_app_le by lia. rewrite (take_ge (drop (B * q) m ++ take (B - r) d)); [reflexivity|]. rewrite length_app, length_drop, Lt. lia.
  - rewrite Hz, Hq, drop_ge by lia. reflexivity.
Qed.

Lemma direct_ok st m d : has_taken st m -> (length m mod B = 0)%nat -> has_taken (direct_blocks st d) (m ++ take (B * (length d / B)) d) /\ (length (m ++ take (B * (length d / B)) d) mod B)%nat = 0%nat.
Proof using HB.
  intros T Hr. pose proof (Nat.div_mod_eq (length m) B) as Dm. rewrite Hr, Nat.add_0_r in Dm. set (q := (length m / B)%nat) in *. set (k := (length d / B)%nat). pose proof (Nat.Div0.mul_div_le (length d) B) as Hk. fold k in Hk.
  assert (Lt : length (take (B * k) d) = (B * k)%nat) by (rewrite length_take; lia). assert (Len : length (m ++ take (B * k) d) = (B * (q + k))%nat) by (rewrite length_app, Lt; nia).
  assert (Hq : (length (m ++ take (B * k) d) / B)%nat = (q + k)%nat) by (rewrite Len, Nat.mul_comm, Nat.div_mul; lia). assert (Hz : (length (m ++ take (B * k) d) mod B)%nat = 0%nat) by (rewrite Len, Nat.mul_comm, Nat.Div0.mod_mul; reflexivity).
  split; [|exact Hz]. split; cbn [direct_blocks h_s h_buf h_bytes]; fold k.
  - exact (ht_buf _ _ T).
  - rewrite (count_ok st m _ T). f_equal. rewrite Len. nia.
  - rewrite Hq, (ht_s _ _ T). fold q. rewrite absorb_app, absorb_prefix by lia. rewrite drop_app_le, drop_ge by lia. cbn [app]. rewrite <- (take_drop (B * k) d) at 1. apply absorb_prefix. lia.
  - rewrite Hz, Hq, drop_ge by lia. reflexivity.
Qed.

Lemma rest_ok st m d : has_taken st m -> (length m mod B + length d < B)%nat -> has_taken (buffer_rest st (length m mod B) d) (m ++ d).
Proof using HB.
  intros T Hd. destruct d as [|x d0]; [rewrite app_nil_r; exact T|]. set (d := x :: d0) in *. change (buffer_rest st (length m mod B) d) with {| h_s := h_s st; h_buf := copy_at (length m mod B) d (h_buf st); h_bytes := u64 (h_bytes st + Z.of_nat (length d)) |}.
  pose proof (Nat.div_mod_eq (length m) B) as Dm. set (q := (length m / B)%nat) in *. set (r := (length m mod B)%nat) in *. assert (Len : length (m ++ d) = (B * q + (r + length d))%nat) by (rewrite length_app; lia).
  assert (Hq : (length (m ++ d) / B)%nat = q) by (rewrite Len, Nat.mul_comm, Nat.div_add_l, Nat.div_small; lia). assert (Hr : (length (m ++ d) mod B)%nat = (r + length d)%nat) by (rewrite Len, Nat.add_comm, Nat.mul_comm, Nat.Div0.mod_add, Nat.mod_small; lia).
  pose proof (ht_buf _ _ T) as Lb. assert (Ltk : length (take r (h_buf st)) = r) by (rewrite length_take; lia). split; cbn [h_s h_buf h_bytes].
  - unfold copy_at. rewrite !length_app, Ltk, length_drop. lia.
  - rewrite (count_ok st m _ T). f_equal. rewrite length_app. lia.
  - rewrite Hq, (ht_s _ _ T). fold q. rewrite absorb_prefix by lia. reflexivity.
  - rewrite Hr, Hq. unfold copy_at. rewrite app_assoc, take_app_le by (rewrite length_app; lia). rewrite take_ge by (rewrite length_app; lia). rewrite (ht_rest _ _ T : take r (h_buf st) = drop (B * q) m), drop_app_le by lia. reflexivity.
Qed.

Lemma Write_taken st m d : has_taken st m -> has_taken (Write_ st d) (m ++ d).
Proof using HB.
  intros T. unfold Write_. rewrite (bufsize_ok st m T). pose proof (Nat.mod_upper_bound (length m) B ltac:(lia)) as Hlt.
  assert (Aligned : forall st' m' d', has_taken st' m' -> (length m' mod B = 0)%nat -> has_taken (let '(st0, data0) := if (B <=? length d')%nat then (direct_blocks st' d', drop (B * (length d' / B)) d') else (st', d') in buffer_rest st0 0 data0) (m' ++ d')).
  { intros st' m' d' T' H0. destruct (Nat.leb_spec B (length d')) as [Hb|Hb].
    - destruct (direct_ok st' m' d' T' H0) as [T1 H1]. replace (m' ++ d') with ((m' ++ take (B * (length d' / B)) d') ++ drop (B * (length d' / B)) d') by (rewrite <- app_assoc, take_drop; reflexivity).
      rewrite <- H1 at 1. apply rest_ok; [exact T1|]. rewrite H1, length_drop. pose proof (Nat.div_mod_eq (length d') B). pose proof (Nat.mod_upper_bound (length d') B ltac:(lia)). lia.
    - rewrite <- H0 at 1. apply rest_ok; [exact T'|lia]. }
  destruct (Nat.eqb_spec (length m mod B) 0) as [H0|H0]; cbn [negb andb]; [rewrite H0; apply Aligned; assumption|]. destruct (Nat.leb_spec B (length m mod B + length d)) as [Hb|Hb].
  - destruct (fill_ok st m d T H0 Hb) as [T1 H1]. replace (m ++ d) with ((m ++ take (B - length m mod B) d) ++ drop (B - length m mod B) d) by (rewrite <- app_assoc, take_drop; reflexivity). apply Aligned; assumption.
  - replace (B <=? length d)%nat with false by (symmetry; apply Nat.leb_gt; lia). apply rest_ok; [exact T|exact Hb].
Qed.

Lemma Finalize_hash st m : has_taken st m -> fst (Finalize_ st) = hash_of m.
Proof using HB.
  intros T. unfold Finalize_, hash_of. set (n := Z.of_nat (length m)). cbn [fst].
  assert (Hd : u64 (Z.shiftl (h_bytes st) 3) = u64 (8 * n)) by (rewrite (ht_bytes _ _ T), Z.shiftl_mul_pow2 by lia; unfold uwrap; rewrite Z.mul_mod_idemp_l by discriminate; f_equal; unfold n; lia).
  assert (Hk : (bh_pad H - h_bytes st mod Z.of_nat B) mod Z.of_nat B = (bh_pad H - n) mod Z.of_nat B) by (rewrite (ht_bytes _ _ T), u64_mod_block, Zminus_mod_idemp_r; reflexivity).
  rewrite Hd, Hk. set (k := (bh_pad H - n) mod Z.of_nat B). assert (Hkr : 0 <= k < Z.of_nat B) by (apply Z.mod_pos_bound; lia).
  assert (Pad : take (Z.to_nat (1 + k)) (128 :: replicate (B - 1) 0) = 128 :: replicate (Z.to_nat k) 0) by (replace (Z.to_nat (1 + k)) with (S (Z.to_nat k)) by lia; cbn [take]; rewrite take_replicate; do 2 f_equal; lia).
  rewrite Pad. pose proof (Write_taken _ _ (bh_sizedesc H (u64 (8 * n))) (Write_taken _ _ (128 :: replicate (Z.to_nat k) 0) T)) as T2.
  assert (Eq : (m ++ 128 :: replicate (Z.to_nat k) 0) ++ bh_sizedesc H (u64 (8 * n)) = m ++ padding m) by (rewrite <- app_assoc; reflexivity). rewrite Eq in T2. rewrite (ht_s _ _ T2). reflexivity.
Qed.

(** Padding ends a block, so that the hash takes all of the bytes. *)
Lemma padding_fills m : (length (m ++ padding m) mod B)%nat = 0%nat.
Proof using HB.
  unfold padding. rewrite length_app. cbn [length]. rewrite length_app, length_replicate, (bo_desc HB). pose proof (bo_pad HB) as Hp. set (dl := length (bh_sizedesc H 0)) in *. set (n := length m). rewrite Hp. set (k := (_ - Z.of_nat n) mod Z.of_nat B).
  pose proof (Z.mod_pos_bound (2 * Z.of_nat B - 1 - Z.of_nat dl - Z.of_nat n) (Z.of_nat B) ltac:(lia)) as Hk. fold k in Hk. apply Nat2Z.inj. rewrite Nat2Z.inj_mod. replace (Z.of_nat (n + S (Z.to_nat k + dl))) with (k + (Z.of_nat n + 1 + Z.of_nat dl)) by lia.
  unfold k. rewrite Zplus_mod_idemp_l. replace (2 * Z.of_nat B - 1 - Z.of_nat dl - Z.of_nat n + (Z.of_nat n + 1 + Z.of_nat dl)) with (2 * Z.of_nat B) by lia. apply Z.mod_mul. lia.
Qed.

(** What the constructor and [Reset] leave has taken nothing. *)
Lemma new_taken : has_taken new_Hasher [].
Proof using HB. apply taken_nothing. apply length_replicate. Qed.
Lemma Reset_taken st m : has_taken st m -> has_taken (Reset_ st) [].
Proof using HB. intros T. apply taken_nothing. exact (ht_buf _ _ T). Qed.
Lemma writes_taken ds : forall st m, has_taken st m -> has_taken (fold_left Write_ ds st) (m ++ concat ds).
Proof using HB. induction ds as [|d ds IH]; intros st m T; cbn [fold_left concat]; [rewrite app_nil_r; exact T|]. rewrite app_assoc. apply IH, Write_taken, T. Qed.
Lemma Finalize_taken st m : has_taken st m -> exists m', has_taken (snd (Finalize_ st)) m'.
Proof using HB. intros T. eexists. unfold Finalize_. cbn [snd]. apply Write_taken, Write_taken, T. Qed.

(** An object used again and again, with [Reset] between the messages, each
    written in pieces. *)
Fixpoint hash_each (st : Hasher) (msgs : list (list (list Z))) : list (list Z) :=
  match msgs with
  | [] => []
  | pieces :: msgs => let '(h, st) := Finalize_ (fold_left Write_ pieces st) in h :: hash_each (Reset_ st) msgs
  end.
Lemma hash_each_spec msgs : forall st, has_taken st [] -> hash_each st msgs = map (fun pieces => hash_of (concat pieces)) msgs.
Proof using HB.
  induction msgs as [|ds msgs IH]; intros st T; [reflexivity|]. cbn [hash_each map]. pose proof (writes_taken ds st [] T) as T1. pose proof (Finalize_hash _ _ T1) as E. destruct (Finalize_taken _ _ T1) as [m' T2]. destruct (Finalize_ (fold_left Write_ ds st)) as [h st']. cbn [fst snd] in *. rewrite E. f_equal. exact (IH _ (Reset_taken _ _ T2)).
Qed.
End Writer.
