(* ===== verification/Sha256.v ===== *)
(** * SHA-256

    Models src/crypto/sha256.cpp: the portable transformation, the class
    [CSHA256], and the routine for the double hash of 64 bytes that the merkle
    trees use, with its merged constants.  The unrolled rounds are a fold over
    their constants: the registers move on by one in each. *)

From stdpp Require Import base numbers list.
From Stdlib Require Import ZArith Lia.
From S2P Require Import Prelude HashWriter.

Local Open Scope Z_scope.

Definition Ch (x y z : Z) : Z := Z.lxor z (Z.land x (Z.lxor y z)).
Definition Maj (x y z : Z) : Z := Z.lor (Z.land x y) (Z.land z (Z.lor x y)).
Definition Sigma0 (x : Z) : Z := Z.lxor (Z.lxor (ror32 x 2) (ror32 x 13)) (ror32 x 22).
Definition Sigma1 (x : Z) : Z := Z.lxor (Z.lxor (ror32 x 6) (ror32 x 11)) (ror32 x 25).
Definition sigma0 (x : Z) : Z := Z.lxor (Z.lxor (ror32 x 7) (ror32 x 18)) (Z.shiftr x 3).
Definition sigma1 (x : Z) : Z := Z.lxor (Z.lxor (ror32 x 17) (ror32 x 19)) (Z.shiftr x 10).

Record regs : Type := Regs { ra : Z; rb : Z; rc : Z; rd : Z; re : Z; rf : Z; rg : Z; rh : Z }.

(** The registers, renamed for the next round. *)
Definition Round (r : regs) (k : Z) : regs :=
  let t1 := u32 (rh r + Sigma1 (re r) + Ch (re r) (rf r) (rg r) + k) in
  let t2 := u32 (Sigma0 (ra r) + Maj (ra r) (rb r) (rc r)) in
  Regs (u32 (t1 + t2)) (ra r) (rb r) (rc r) (u32 (rd r + t1)) (re r) (rf r) (rg r).

Definition Initialize : list Z := [0x6a09e667; 0xbb67ae85; 0x3c6ef372; 0xa54ff53a; 0x510e527f; 0x9b05688c; 0x1f83d9ab; 0x5be0cd19].

Definition K256 : list Z :=
  [0x428a2f98; 0x71374491; 0xb5c0fbcf; 0xe9b5dba5; 0x3956c25b; 0x59f111f1; 0x923f82a4; 0xab1c5ed5] ++
  [0xd807aa98; 0x12835b01; 0x243185be; 0x550c7dc3; 0x72be5d74; 0x80deb1fe; 0x9bdc06a7; 0xc19bf174] ++
  [0xe49b69c1; 0xefbe4786; 0x0fc19dc6; 0x240ca1cc; 0x2de92c6f; 0x4a7484aa; 0x5cb0a9dc; 0x76f988da] ++
  [0x983e5152; 0xa831c66d; 0xb00327c8; 0xbf597fc7; 0xc6e00bf3; 0xd5a79147; 0x06ca6351; 0x14292967] ++
  [0x27b70a85; 0x2e1b2138; 0x4d2c6dfc; 0x53380d13; 0x650a7354; 0x766a0abb; 0x81c2c92e; 0x92722c85] ++
  [0xa2bfe8a1; 0xa81a664b; 0xc24b8b70; 0xc76c51a3; 0xd192e819; 0xd6990624; 0xf40e3585; 0x106aa070] ++
  [0x19a4c116; 0x1e376c08; 0x2748774c; 0x34b0bcb5; 0x391c0cb3; 0x4ed8aa4a; 0x5b9cca4f; 0x682e6ff3] ++
  [0x748f82ee; 0x78a5636f; 0x84c87814; 0x8cc70208; 0x90befffa; 0xa4506ceb; 0xbef9a3f7; 0xc67178f2].

(** The words [w0] to [w15] read the block; [w0 += sigma1(w14) + w9 + sigma0(w1)]
    and so on, with the words renamed for the next round. *)
Definition block_words (chunk : list Z) : list Z := map (fun i => ReadBE32 (drop (4 * i) chunk)) (seq 0 16).
Definition next_word (w : list Z) : Z := u32 (nth 0 w 0 + (sigma1 (nth 14 w 0) + nth 9 w 0 + sigma0 (nth 1 w 0))).
Definition shift_words (w : list Z) : list Z := tail w ++ [next_word w].
Fixpoint word_rounds (rounds : nat) (w : list Z) : list Z :=
  match rounds with O => [] | S rounds => nth 0 w 0 :: word_rounds rounds (shift_words w) end.

Definition add_const (k w : Z) : Z := u32 (k + w).
Definition to_regs (s : list Z) : regs := Regs (nth 0 s 0) (nth 1 s 0) (nth 2 s 0) (nth 3 s 0) (nth 4 s 0) (nth 5 s 0) (nth 6 s 0) (nth 7 s 0).
Definition add_regs (s : list Z) (r : regs) : list Z := zip_with (fun x y => u32 (x + y)) s [ra r; rb r; rc r; rd r; re r; rf r; rg r; rh r].

(** [Transform] on one block. *)
Definition Transform (s chunk : list Z) : list Z := add_regs s (fold_left Round (zip_with add_const K256 (word_rounds 64 (block_words chunk))) (to_regs s)).

Definition sha256 : BlockHash := {|
  bh_block := 64;
  bh_init := Initialize;
  bh_transform := Transform;
  bh_sizedesc := WriteBE64;
  bh_pad := 119;
  bh_out := fun s => s ≫= WriteBE32;
|}.

Definition CSHA256 : Type := Hasher.
Definition new_CSHA256 : CSHA256 := new_Hasher sha256.
Definition CSHA256_Write : CSHA256 -> list Z -> CSHA256 := Write_ sha256.
Definition CSHA256_Finalize : CSHA256 -> list Z * CSHA256 := Finalize_ sha256.
Definition CSHA256_Reset : CSHA256 -> CSHA256 := Reset_ sha256.

(** ** The double hash of 64 bytes *)

(** The constants of the second transformation, with the words of its block, which is padding. *)
Definition K256_padding : list Z :=
  [0xc28a2f98; 0x71374491; 0xb5c0fbcf; 0xe9b5dba5; 0x3956c25b; 0x59f111f1; 0x923f82a4; 0xab1c5ed5] ++
  [0xd807aa98; 0x12835b01; 0x243185be; 0x550c7dc3; 0x72be5d74; 0x80deb1fe; 0x9bdc06a7; 0xc19bf374] ++
  [0x649b69c1; 0xf0fe4786; 0x0fe1edc6; 0x240cf254; 0x4fe9346f; 0x6cc984be; 0x61b9411e; 0x16f988fa] ++
  [0xf2c65152; 0xa88e5a6d; 0xb019fc65; 0xb9d99ec7; 0x9a1231c3; 0xe70eeaa0; 0xfdb1232b; 0xc7353eb0] ++
  [0x3069bad5; 0xcb976d5f; 0x5a0f118f; 0xdc1eeefd; 0x0a35b689; 0xde0b7a04; 0x58f4ca9d; 0xe15d5b16] ++
  [0x007f3e86; 0x37088980; 0xa507ea32; 0x6fab9537; 0x17406110; 0x0d8cd6f1; 0xcdaa3b6d; 0xc0bbbe37] ++
  [0x83613bda; 0xdb48a363; 0x0b02e931; 0x6fd15ca7; 0x521afaca; 0x31338431; 0x6ed41a95; 0x6d437890] ++
  [0xc39c91f2; 0x9eccabbd; 0xb5c9a0e6; 0x532fb63c; 0xd2c741c6; 0x07237ea3; 0xa4954b68; 0x4c191d76].

(** Rounds 16 to 31 of the third transformation, in which eight words are
    padding: the words that are left. *)
Definition third_words (w : list Z) : list Z :=
  let w0 := nth 0 w 0 in let w1 := nth 1 w 0 in let w2 := nth 2 w 0 in let w3 := nth 3 w 0 in
  let w4 := nth 4 w 0 in let w5 := nth 5 w 0 in let w6 := nth 6 w 0 in let w7 := nth 7 w 0 in
  let w0 := u32 (w0 + sigma0 w1) in
  let w1 := u32 (w1 + (0xa00000 + sigma0 w2)) in
  let w2 := u32 (w2 + (sigma1 w0 + sigma0 w3)) in
  let w3 := u32 (w3 + (sigma1 w1 + sigma0 w4)) in
  let w4 := u32 (w4 + (sigma1 w2 + sigma0 w5)) in
  let w5 := u32 (w5 + (sigma1 w3 + sigma0 w6)) in
  let w6 := u32 (w6 + (sigma1 w4 + 0x100 + sigma0 w7)) in
  let w7 := u32 (w7 + (sigma1 w5 + w0 + 0x11002000)) in
  let w8 := u32 (0x80000000 + sigma1 w6 + w1) in
  let w9 := u32 (sigma1 w7 + w2) in
  let w10 := u32 (sigma1 w8 + w3) in
  let w11 := u32 (sigma1 w9 + w4) in
  let w12 := u32 (sigma1 w10 + w5) in
  let w13 := u32 (sigma1 w11 + w6) in
  let w14 := u32 (sigma1 w12 + w7 + 0x400022) in
  let w15 := u32 (0x100 + sigma1 w13 + w8 + sigma0 w0) in
  [w0; w1; w2; w3; w4; w5; w6; w7; w8; w9; w10; w11; w12; w13; w14; w15].

Definition TransformD64 (chunk : list Z) : list Z :=
  let t := add_regs Initialize (fold_left Round (zip_with add_const K256 (word_rounds 64 (block_words chunk))) (to_regs Initialize)) in
  let w := add_regs t (fold_left Round K256_padding (to_regs t)) in
  let rounds := zip_with add_const (take 8 K256) w ++ [0x5807aa98; 0x12835b01; 0x243185be; 0x550c7dc3; 0x72be5d74; 0x80deb1fe; 0x9bdc06a7; 0xc19bf274] ++
    zip_with add_const (drop 16 K256) (word_rounds 48 (third_words w)) in
  add_regs Initialize (fold_left Round rounds (to_regs Initialize)) ≫= WriteBE32.

(** The same with the transformation of the machine, [tr]. *)
Definition wrapper_padding1 : list Z := 128 :: replicate 61 0 ++ [2; 0].
Definition wrapper_padding2 : list Z := 128 :: replicate 29 0 ++ [1; 0].
Definition TransformD64Wrapper (tr : list Z -> list Z -> list Z) (chunk : list Z) : list Z :=
  let s := tr (tr Initialize chunk) wrapper_padding1 in
  let buffer2 := (s ≫= WriteBE32) ++ wrapper_padding2 in
  tr Initialize buffer2 ≫= WriteBE32.

(** The loops over several blocks: [ways] blocks at a time, when there is a
    routine for that. *)
Fixpoint D64_ways (fuel ways : nat) (routine : list Z -> list Z) (chunk : list Z) (blocks : nat) : list Z * list Z * nat :=
  match fuel with
  | O => ([], chunk, blocks)
  | S fuel =>
      if (ways <=? blocks)%nat then
        let '(out, rest, n) := D64_ways fuel ways routine (drop (64 * ways) chunk) (blocks - ways) in
        (routine (take (64 * ways) chunk) ++ out, rest, n)
      else ([], chunk, blocks)
  end.
Definition D64_optional (ways : nat) (routine : option (list Z -> list Z)) (chunk : list Z) (blocks : nat) : list Z * list Z * nat :=
  match routine with Some routine => D64_ways blocks ways routine chunk blocks | None => ([], chunk, blocks) end.

(** The routines that the machine offers. *)
Record D64_routines : Type := { way8 : option (list Z -> list Z); way4 : option (list Z -> list Z); way2 : option (list Z -> list Z); way1 : list Z -> list Z }.

Definition SHA256D64 (m : D64_routines) (chunk : list Z) (blocks : nat) : list Z :=
  let '(out8, chunk, blocks) := D64_optional 8 (way8 m) chunk blocks in
  let '(out4, chunk, blocks) := D64_optional 4 (way4 m) chunk blocks in
  let '(out2, chunk, blocks) := D64_optional 2 (way2 m) chunk blocks in
  let '(out1, _, _) := D64_ways blocks 1 (way1 m) chunk blocks in
  out8 ++ out4 ++ out2 ++ out1.

(** ** Test vectors *)

Example sha256_abc : hash_of sha256 [97; 98; 99] = [0xba; 0x78; 0x16; 0xbf; 0x8f; 0x01; 0xcf; 0xea; 0x41; 0x41; 0x40; 0xde; 0x5d; 0xae; 0x22; 0x23; 0xb0; 0x03; 0x61; 0xa3; 0x96; 0x17; 0x7a; 0x9c; 0xb4; 0x10; 0xff; 0x61; 0xf2; 0x00; 0x15; 0xad].
Proof. vm_compute. reflexivity. Qed.
Example sha256_d64_zero : TransformD64 (replicate 64 0) = hash_of sha256 (hash_of sha256 (replicate 64 0)).
Proof. vm_compute. reflexivity. Qed.
