(* ===== verification/Sha256Proofs.v ===== *)
(** * SHA-256, proofs

    The class [CSHA256] computes the hash of all bytes written, and the routine
    with merged constants is the double hash. *)

From stdpp Require Import base numbers list.
From Stdlib Require Import ZArith Lia.
From S2P Require Import Prelude HashWriter Sha256.

Local Open Scope Z_scope.

Lemma sha256_ok : BlockHash_ok sha256.
Proof. split; cbn [sha256 bh_block bh_pad bh_sizedesc]; [left; reflexivity|rewrite length_WriteBE64; reflexivity|intros z; rewrite !length_WriteBE64; reflexivity|rewrite length_WriteBE64; lia]. Qed.

(** ** The third transformation *)

Lemma word_rounds_app a : forall b w, word_rounds (a + b) w = word_rounds a w ++ word_rounds b (Nat.iter a shift_words w).
Proof. induction a as [|a IH]; intros b w; [reflexivity|]. cbn [Nat.add word_rounds app]. rewrite IH, <- Nat.iter_succ_r. reflexivity. Qed.

Section ThirdWords.
Lemma shift_eq a0 a1 a2 a3 a4 a5 a6 a7 a8 a9 a10 a11 a12 a13 a14 a15 v : u32 (a0 + (sigma1 a14 + a9 + sigma0 a1)) = v -> shift_words [a0; a1; a2; a3; a4; a5; a6; a7; a8; a9; a10; a11; a12; a13; a14; a15] = [a1; a2; a3; a4; a5; a6; a7; a8; a9; a10; a11; a12; a13; a14; a15; v].
Proof. intros <-. reflexivity. Qed.

Lemma merged_constants : sigma0 0 = 0 /\ sigma1 0 = 0 /\ sigma1 0x100 = 0xa00000 /\ sigma0 0x80000000 = 0x11002000 /\ sigma0 0x100 = 0x400022.
Proof. vm_compute. auto. Qed.

Lemma third_words_steps w0 w1 w2 w3 w4 w5 w6 w7 m0 m1 m2 m3 m4 m5 m6 m7 m8 m9 m10 m11 m12 m13 m14 m15 : u32 (w0 + sigma0 w1) = m0 -> u32 (w1 + (0xa00000 + sigma0 w2)) = m1 -> u32 (w2 + (sigma1 m0 + sigma0 w3)) = m2 -> u32 (w3 + (sigma1 m1 + sigma0 w4)) = m3 -> u32 (w4 + (sigma1 m2 + sigma0 w5)) = m4 -> u32 (w5 + (sigma1 m3 + sigma0 w6)) = m5 -> u32 (w6 + (sigma1 m4 + 0x100 + sigma0 w7)) = m6 -> u32 (w7 + (sigma1 m5 + m0 + 0x11002000)) = m7 -> u32 (0x80000000 + sigma1 m6 + m1) = m8 -> u32 (sigma1 m7 + m2) = m9 -> u32 (sigma1 m8 + m3) = m10 -> u32 (sigma1 m9 + m4) = m11 -> u32 (sigma1 m10 + m5) = m12 -> u32 (sigma1 m11 + m6) = m13 -> u32 (sigma1 m12 + m7 + 0x400022) = m14 -> u32 (0x100 + sigma1 m13 + m8 + sigma0 m0) = m15 ->
  Nat.iter 16 shift_words [w0; w1; w2; w3; w4; w5; w6; w7; 0x80000000; 0; 0; 0; 0; 0; 0; 0x100] = [m0; m1; m2; m3; m4; m5; m6; m7; m8; m9; m10; m11; m12; m13; m14; m15].
Proof.
  intros E0 E1 E2 E3 E4 E5 E6 E7 E8 E9 E10 E11 E12 E13 E14 E15. destruct merged_constants as (S0 & S1 & S2 & S3 & S4). cbn [Nat.iter nat_rect].
  rewrite (shift_eq w0 w1 w2 w3 w4 w5 w6 w7 0x80000000 0 0 0 0 0 0 0x100 m0) by (rewrite <- E0, ?S0, ?S1, ?S2, ?S3, ?S4; f_equal; ring).
  rewrite (shift_eq w1 w2 w3 w4 w5 w6 w7 0x80000000 0 0 0 0 0 0 0x100 m0 m1) by (rewrite <- E1, ?S0, ?S1, ?S2, ?S3, ?S4; f_equal; ring).
  rewrite (shift_eq w2 w3 w4 w5 w6 w7 0x80000000 0 0 0 0 0 0 0x100 m0 m1 m2) by (rewrite <- E2, ?S0, ?S1, ?S2, ?S3, ?S4; f_equal; ring).
  rewrite (shift_eq w3 w4 w5 w6 w7 0x80000000 0 0 0 0 0 0 0x100 m0 m1 m2 m3) by (rewrite <- E3, ?S0, ?S1, ?S2, ?S3, ?S4; f_equal; ring).
  rewrite (shift_eq w4 w5 w6 w7 0x80000000 0 0 0 0 0 0 0x100 m0 m1 m2 m3 m4) by (rewrite <- E4, ?S0, ?S1, ?S2, ?S3, ?S4; f_equal; ring).
  rewrite (shift_eq w5 w6 w7 0x80000000 0 0 0 0 0 0 0x100 m0 m1 m2 m3 m4 m5) by (rewrite <- E5, ?S0, ?S1, ?S2, ?S3, ?S4; f_equal; ring).
  rewrite (shift_eq w6 w7 0x80000000 0 0 0 0 0 0 0x100 m0 m1 m2 m3 m4 m5 m6) by (rewrite <- E6, ?S0, ?S1, ?S2, ?S3, ?S4; f_equal; ring).
  rewrite (shift_eq w7 0x80000000 0 0 0 0 0 0 0x100 m0 m1 m2 m3 m4 m5 m6 m7) by (rewrite <- E7, ?S0, ?S1, ?S2, ?S3, ?S4; f_equal; ring).
  rewrite (shift_eq 0x80000000 0 0 0 0 0 0 0x100 m0 m1 m2 m3 m4 m5 m6 m7 m8) by (rewrite <- E8, ?S0, ?S1, ?S2, ?S3, ?S4; f_equal; ring).
  rewrite (shift_eq 0 0 0 0 0 0 0x100 m0 m1 m2 m3 m4 m5 m6 m7 m8 m9) by (rewrite <- E9, ?S0, ?S1, ?S2, ?S3, ?S4; f_equal; ring).
  rewrite (shift_eq 0 0 0 0 0 0x100 m0 m1 m2 m3 m4 m5 m6 m7 m8 m9 m10) by (rewrite <- E10, ?S0, ?S1, ?S2, ?S3, ?S4; f_equal; ring).
  rewrite (shift_eq 0 0 0 0 0x100 m0 m1 m2 m3 m4 m5 m6 m7 m8 m9 m10 m11) by (rewrite <- E11, ?S0, ?S1, ?S2, ?S3, ?S4; f_equal; ring).
  rewrite (shift_eq 0 0 0 0x100 m0 m1 m2 m3 m4 m5 m6 m7 m8 m9 m10 m11 m12) by (rewrite <- E12, ?S0, ?S1, ?S2, ?S3, ?S4; f_equal; ring).
  rewrite (shift_eq 0 0 0x100 m0 m1 m2 m3 m4 m5 m6 m7 m8 m9 m10 m11 m12 m13) by (rewrite <- E13, ?S0, ?S1, ?S2, ?S3, ?S4; f_equal; ring).
  rewrite (shift_eq 0 0x100 m0 m1 m2 m3 m4 m5 m6 m7 m8 m9 m10 m11 m12 m13 m14) by (rewrite <- E14, ?S0, ?S1, ?S2, ?S3, ?S4; f_equal; ring).
  rewrite (shift_eq 0x100 m0 m1 m2 m3 m4 m5 m6 m7 m8 m9 m10 m11 m12 m13 m14 m15) by (rewrite <- E15, ?S0, ?S1, ?S2, ?S3, ?S4; f_equal; ring).
  reflexivity.
Qed.

Lemma third_words_ok w0 w1 w2 w3 w4 w5 w6 w7 : Nat.iter 16 shift_words [w0; w1; w2; w3; w4; w5; w6; w7; 0x80000000; 0; 0; 0; 0; 0; 0; 0x100] = third_words [w0; w1; w2; w3; w4; w5; w6; w7].
Proof. unfold third_words. cbn [nth]. apply third_words_steps; reflexivity. Qed.
End ThirdWords.

(** ** Words and bytes *)

Lemma ReadBE32_write x l : in_u 32 x -> ReadBE32 (WriteBE32 x ++ l) = x.
Proof.
  intros Hx. unfold ReadBE32. rewrite take_app_length' by (symmetry; apply length_WriteBE32). unfold WriteBE32. rewrite rev_involutive, le_val_digits by lia. apply Z.mod_small. exact Hx.
Qed.
Lemma words_drop ws : forall i, drop (4 * i) (ws ≫= WriteBE32) = drop i ws ≫= WriteBE32.
Proof.
  induction ws as [|x ws IH]; intros [|i]; try reflexivity. cbn [mbind list_bind drop]. replace (4 * S i)%nat with (length (WriteBE32 x) + 4 * i)%nat by (rewrite length_WriteBE32; lia). rewrite <- drop_drop, drop_app_length. apply IH.
Qed.
Lemma length_words ws : length (ws ≫= WriteBE32) = (4 * length ws)%nat.
Proof. induction ws as [|x ws IH]; [reflexivity|]. cbn [mbind list_bind]. rewrite length_app, length_WriteBE32. cbn [length]. change (list_bind Z Z WriteBE32 ws) with (ws ≫= WriteBE32). rewrite IH. lia. Qed.

Lemma block_words_write ws : length ws = 16%nat -> Forall (in_u 32) ws -> block_words (ws ≫= WriteBE32) = ws.
Proof.
  intros Hl Hw. unfold block_words. apply list_eq. intros i. change (map ?f ?l) with (f <$> l). rewrite list_lookup_fmap. destruct (decide (i < 16)%nat) as [Hi|Hi].
  - rewrite lookup_seq_lt by exact Hi. destruct (lookup_lt_is_Some_2 ws i ltac:(lia)) as [x Ex]. rewrite Ex. change (0 + i)%nat with i. cbn [fmap option_fmap option_map]. f_equal. rewrite words_drop, (drop_S _ _ _ Ex), bind_cons. apply ReadBE32_write. rewrite Forall_lookup in Hw. exact (Hw i x Ex).
  - rewrite lookup_seq_ge by lia. symmetry. apply lookup_ge_None. lia.
Qed.

Lemma add_regs_words s r : length s = 8%nat -> length (add_regs s r) = 8%nat /\ Forall (in_u 32) (add_regs s r).
Proof.
  intros Hs. unfold add_regs. split; [rewrite length_zip_with, Hs; reflexivity|]. apply Forall_lookup. intros i x Ex. apply lookup_zip_with_Some in Ex as (a & b & -> & _). apply Z.mod_pos_bound. reflexivity.
Qed.
Lemma Transform_words s chunk : length s = 8%nat -> length (Transform s chunk) = 8%nat /\ Forall (in_u 32) (Transform s chunk).
Proof. apply add_regs_words. Qed.

(** ** The double hash *)

Definition double_hash (m : list Z) : list Z := hash_of sha256 (hash_of sha256 m).

Definition pad_words64 : list Z := 0x80000000 :: replicate 14 0 ++ [512].
Definition pad_words32 : list Z := [0x80000000; 0; 0; 0; 0; 0; 0; 0x100].

Lemma hash_of_64 m : length m = 64%nat -> hash_of sha256 m = Transform (Transform Initialize m) (pad_words64 ≫= WriteBE32) ≫= WriteBE32.
Proof.
  intros Hm. unfold hash_of. assert (Hp : padding sha256 m = pad_words64 ≫= WriteBE32) by (unfold padding; rewrite Hm; vm_compute; reflexivity). rewrite Hp. set (pw := pad_words64 ≫= WriteBE32). assert (Hw : length pw = 64%nat) by reflexivity.
  rewrite length_app, Hm, Hw. change ((64 + 64) / bh_block sha256)%nat with 2%nat. cbn [absorb_blocks sha256 bh_block bh_transform bh_init bh_out]. rewrite take_app_length', drop_app_length' by (symmetry; exact Hm). rewrite take_ge by lia. reflexivity.
Qed.
Lemma hash_of_32 ws : length ws = 8%nat -> hash_of sha256 (ws ≫= WriteBE32) = Transform Initialize ((ws ++ pad_words32) ≫= WriteBE32) ≫= WriteBE32.
Proof.
  intros Hw. set (m := ws ≫= WriteBE32). assert (Hm : length m = 32%nat) by (unfold m; rewrite length_words, Hw; reflexivity). unfold hash_of. assert (Hp : padding sha256 m = pad_words32 ≫= WriteBE32) by (unfold padding; rewrite Hm; vm_compute; reflexivity).
  rewrite Hp, bind_app. fold m. set (pw := pad_words32 ≫= WriteBE32). assert (Hl : length pw = 32%nat) by reflexivity. rewrite length_app, Hm, Hl. change ((32 + 32) / bh_block sha256)%nat with 1%nat. cbn [absorb_blocks sha256 bh_block bh_transform bh_init bh_out].
  rewrite take_ge by (rewrite length_app; lia). reflexivity.
Qed.

Lemma second_constants : zip_with add_const K256 (word_rounds 64 (block_words (pad_words64 ≫= WriteBE32))) = K256_padding.
Proof. vm_compute. reflexivity. Qed.

Lemma third_constants w : length w = 8%nat ->
  zip_with add_const K256 (word_rounds 64 (w ++ pad_words32)) =
  zip_with add_const (take 8 K256) w ++ [0x5807aa98; 0x12835b01; 0x243185be; 0x550c7dc3; 0x72be5d74; 0x80deb1fe; 0x9bdc06a7; 0xc19bf274] ++ zip_with add_const (drop 16 K256) (word_rounds 48 (third_words w)).
Proof.
  intros Hw. destruct w as [|w0 [|w1 [|w2 [|w3 [|w4 [|w5 [|w6 [|w7 [|]]]]]]]]]; try discriminate Hw. change 64%nat with (16 + 48)%nat. rewrite word_rounds_app. unfold pad_words32 at 2. cbn [app]. rewrite third_words_ok.
  set (rest := word_rounds 48 _). clearbody rest. reflexivity.
Qed.

Lemma TransformD64_double m : length m = 64%nat -> TransformD64 m = double_hash m.
Proof.
  intros Hm. unfold double_hash. rewrite (hash_of_64 m Hm). set (t := Transform Initialize m). destruct (Transform_words Initialize m eq_refl) as [Lt Wt]. fold t in Lt, Wt. set (w := Transform t (pad_words64 ≫= WriteBE32)). destruct (Transform_words t (pad_words64 ≫= WriteBE32) Lt) as [Lw Ww]. fold w in Lw, Ww.
  rewrite (hash_of_32 w Lw). unfold TransformD64. fold (Transform Initialize m). fold t. assert (Hw2 : add_regs t (fold_left Round K256_padding (to_regs t)) = w) by (unfold w, Transform; rewrite second_constants; reflexivity). rewrite Hw2. f_equal.
  unfold Transform. rewrite block_words_write; [rewrite (third_constants w Lw); reflexivity|rewrite length_app, Lw; reflexivity|]. apply Forall_app. split; [exact Ww|]. repeat constructor; unfold in_u; lia.
Qed.

(** The double hashes of blocks of 64 bytes, one after the other. *)
Fixpoint double_hashes (blocks : nat) (chunk : list Z) : list Z :=
  match blocks with O => [] | S blocks => double_hash (take 64 chunk) ++ double_hashes blocks (drop 64 chunk) end.
Definition computes_doubles (ways : nat) (routine : list Z -> list Z) : Prop := forall c, length c = (64 * ways)%nat -> routine c = double_hashes ways c.

Lemma double_hashes_app a : forall b c, double_hashes (a + b) c = double_hashes a (take (64 * a) c) ++ double_hashes b (drop (64 * a) c).
Proof.
  induction a as [|a IH]; intros b c; [rewrite Nat.mul_0_r, drop_0; reflexivity|]. cbn [Nat.add double_hashes]. rewrite IH, app_assoc. f_equal.
  - f_equal; [rewrite take_take; do 2 f_equal; lia|]. f_equal. rewrite !take_drop_commute. do 2 f_equal. lia.
  - rewrite drop_drop. do 2 f_equal. lia.
Qed.

(** What is left after a loop is less than its stride, and the output so far is right. *)
Lemma D64_ways_spec ways routine : (0 < ways)%nat -> computes_doubles ways routine -> forall fuel chunk blocks, (blocks <= fuel)%nat -> length chunk = (64 * blocks)%nat ->
  exists out rest n, D64_ways fuel ways routine chunk blocks = (out, rest, n) /\ length rest = (64 * n)%nat /\ (n < ways)%nat /\ out ++ double_hashes n rest = double_hashes blocks chunk.
Proof.
  intros Hw Hr. induction fuel as [|fuel IH]; intros chunk blocks Hb Hl; cbn [D64_ways].
  - assert (blocks = 0%nat) as -> by lia. exists [], chunk, 0%nat. auto with lia.
  - destruct (Nat.leb_spec ways blocks) as [Hle|Hlt]; [|exists [], chunk, blocks; auto]. destruct (IH (drop (64 * ways) chunk) (blocks - ways)%nat ltac:(lia) ltac:(rewrite length_drop; lia)) as (out & rest & n & -> & L & N & E).
    eexists _, rest, n. split; [reflexivity|]. split; [exact L|]. split; [exact N|]. rewrite <- app_assoc, E, Hr by (rewrite length_take; lia). rewrite <- double_hashes_app. f_equal. lia.
Qed.
Lemma D64_optional_spec ways routine : (0 < ways)%nat -> (forall f, routine = Some f -> computes_doubles ways f) -> forall chunk blocks, length chunk = (64 * blocks)%nat ->
  exists out rest n, D64_optional ways routine chunk blocks = (out, rest, n) /\ length rest = (64 * n)%nat /\ out ++ double_hashes n rest = double_hashes blocks chunk.
Proof.
  intros Hw Hr chunk blocks Hl. destruct routine as [f|]; cbn [D64_optional].
  - destruct (D64_ways_spec ways f Hw (Hr f eq_refl) blocks chunk blocks (Nat.le_refl _) Hl) as (out & rest & n & E & L & _ & O). eauto 6.
  - exists [], chunk, blocks. auto.
Qed.

(** What the routines of the machine promise. *)
Record routines_ok (m : D64_routines) : Prop := {
  ok8 f : way8 m = Some f -> computes_doubles 8 f;
  ok4 f : way4 m = Some f -> computes_doubles 4 f;
  ok2 f : way2 m = Some f -> computes_doubles 2 f;
  ok1 : computes_doubles 1 (way1 m);
}.

(** The routine of sha256.cpp itself, and a machine that has no other. *)
Lemma TransformD64_computes : computes_doubles 1 TransformD64.
Proof. intros c Hc. rewrite (TransformD64_double c Hc). cbn [double_hashes]. rewrite app_nil_r, take_ge by lia. reflexivity. Qed.
Lemma TransformD64Wrapper_computes tr : (forall s c, length c = 64%nat -> tr s c = Transform s c) -> computes_doubles 1 (TransformD64Wrapper tr).
Proof.
  intros Htr c Hc. cbn [double_hashes]. rewrite app_nil_r, take_ge by lia. unfold double_hash. rewrite (hash_of_64 c Hc). unfold TransformD64Wrapper. rewrite (Htr Initialize c Hc), (Htr (Transform Initialize c) wrapper_padding1 eq_refl). change wrapper_padding1 with (pad_words64 ≫= WriteBE32).
  destruct (Transform_words Initialize c eq_refl) as [L1 _]. destruct (Transform_words (Transform Initialize c) (pad_words64 ≫= WriteBE32) L1) as [L2 _]. rewrite (hash_of_32 _ L2), bind_app. change wrapper_padding2 with (pad_words32 ≫= WriteBE32). rewrite Htr; [reflexivity|]. rewrite length_app, !length_words, L2. reflexivity.
Qed.
Definition plain_routines : D64_routines := {| way8 := None; way4 := None; way2 := None; way1 := TransformD64 |}.
Lemma plain_routines_ok : routines_ok plain_routines.
Proof. split; cbn [way8 way4 way2 way1 plain_routines]; try discriminate. exact TransformD64_computes. Qed.
Definition paired_routines : D64_routines := {| way8 := None; way4 := None; way2 := Some (fun c => TransformD64 (take 64 c) ++ TransformD64 (drop 64 c)); way1 := TransformD64 |}.
Lemma paired_routines_ok : routines_ok paired_routines.
Proof.
  split; cbn [way8 way4 way2 way1 paired_routines]; try discriminate; [|exact TransformD64_computes]. intros f Hf c Hc. apply (inj Some) in Hf as <-. cbn [double_hashes]. rewrite !TransformD64_double by (rewrite ?length_take, ?length_drop; lia). rewrite app_nil_r, (take_ge (drop 64 c)) by (rewrite length_drop; lia). reflexivity.
Qed.

(** Many blocks at once: the double hash of each, in order, for every choice of
    correct routines. *)
Lemma SHA256D64_spec (m : D64_routines) (chunk : list Z) (blocks : nat) :
  routines_ok m -> length chunk = (64 * blocks)%nat -> SHA256D64 m chunk blocks = double_hashes blocks chunk.
Proof.
  intros Hm Hl. unfold SHA256D64. destruct (D64_optional_spec 8 (way8 m) ltac:(lia) (ok8 m Hm) chunk blocks Hl) as (o8 & c8 & n8 & -> & L8 & E8). destruct (D64_optional_spec 4 (way4 m) ltac:(lia) (ok4 m Hm) c8 n8 L8) as (o4 & c4 & n4 & -> & L4 & E4). destruct (D64_optional_spec 2 (way2 m) ltac:(lia) (ok2 m Hm) c4 n4 L4) as (o2 & c2 & n2 & -> & L2 & E2).
  destruct (D64_ways_spec 1 (way1 m) ltac:(lia) (ok1 m Hm) n2 c2 n2 (Nat.le_refl _) L2) as (o1 & c1 & n1 & -> & _ & N1 & E1). assert (n1 = 0%nat) as -> by lia. cbn [double_hashes] in E1. rewrite app_nil_r in E1. rewrite E1, E2, E4, E8. reflexivity.
Qed.

(** However a message is cut into pieces, and whatever the object hashed
    before it was reset, [CSHA256] gives the SHA-256 hash of the message. *)
Theorem CSHA256_correct (msgs : list (list (list Z))) :
  hash_each sha256 new_CSHA256 msgs = map (fun pieces => hash_of sha256 (concat pieces)) msgs.
Proof. apply (hash_each_spec sha256 sha256_ok). exact (new_taken sha256 sha256_ok). Qed.
