(* ===== verification/Sha512.v ===== *)
(** * SHA-512

    Models src/crypto/sha512.cpp: the transformation, whose unrolled rounds are
    a fold over their constants, and the class [CSHA512]. *)

From stdpp Require Import base numbers list.
From Stdlib Require Import ZArith Lia.
From S2P Require Import Prelude HashWriter.

Local Open Scope Z_scope.

Definition Ch (x y z : Z) : Z := Z.lxor z (Z.land x (Z.lxor y z)).
Definition Maj (x y z : Z) : Z := Z.lor (Z.land x y) (Z.land z (Z.lor x y)).
Definition Sigma0 (x : Z) : Z := Z.lxor (Z.lxor (ror64 x 28) (ror64 x 34)) (ror64 x 39).
Definition Sigma1 (x : Z) : Z := Z.lxor (Z.lxor (ror64 x 14) (ror64 x 18)) (ror64 x 41).
Definition sigma0 (x : Z) : Z := Z.lxor (Z.lxor (ror64 x 1) (ror64 x 8)) (Z.shiftr x 7).
Definition sigma1 (x : Z) : Z := Z.lxor (Z.lxor (ror64 x 19) (ror64 x 61)) (Z.shiftr x 6).

Record regs : Type := Regs { ra : Z; rb : Z; rc : Z; rd : Z; re : Z; rf : Z; rg : Z; rh : Z }.

(** The registers, renamed for the next round; [kw] is the constant and the word. *)
Definition Round (r : regs) (kw : Z * Z) : regs :=
  let t1 := u64 (rh r + Sigma1 (re r) + Ch (re r) (rf r) (rg r) + fst kw + snd kw) in
  let t2 := u64 (Sigma0 (ra r) + Maj (ra r) (rb r) (rc r)) in
  Regs (u64 (t1 + t2)) (ra r) (rb r) (rc r) (u64 (rd r + t1)) (re r) (rf r) (rg r).

Definition Initialize : list Z := [
  0x6a09e667f3bcc908; 0xbb67ae8584caa73b; 0x3c6ef372fe94f82b; 0xa54ff53a5f1d36f1;
  0x510e527fade682d1; 0x9b05688c2b3e6c1f; 0x1f83d9abfb41bd6b; 0x5be0cd19137e2179].

Definition K512 : list Z :=
  [0x428a2f98d728ae22; 0x7137449123ef65cd; 0xb5c0fbcfec4d3b2f; 0xe9b5dba58189dbbc] ++
  [0x3956c25bf348b538; 0x59f111f1b605d019; 0x923f82a4af194f9b; 0xab1c5ed5da6d8118] ++
  [0xd807aa98a3030242; 0x12835b0145706fbe; 0x243185be4ee4b28c; 0x550c7dc3d5ffb4e2] ++
  [0x72be5d74f27b896f; 0x80deb1fe3b1696b1; 0x9bdc06a725c71235; 0xc19bf174cf692694] ++
  [0xe49b69c19ef14ad2; 0xefbe4786384f25e3; 0x0fc19dc68b8cd5b5; 0x240ca1cc77ac9c65] ++
  [0x2de92c6f592b0275; 0x4a7484aa6ea6e483; 0x5cb0a9dcbd41fbd4; 0x76f988da831153b5] ++
  [0x983e5152ee66dfab; 0xa831c66d2db43210; 0xb00327c898fb213f; 0xbf597fc7beef0ee4] ++
  [0xc6e00bf33da88fc2; 0xd5a79147930aa725; 0x06ca6351e003826f; 0x142929670a0e6e70] ++
  [0x27b70a8546d22ffc; 0x2e1b21385c26c926; 0x4d2c6dfc5ac42aed; 0x53380d139d95b3df] ++
  [0x650a73548baf63de; 0x766a0abb3c77b2a8; 0x81c2c92e47edaee6; 0x92722c851482353b] ++
  [0xa2bfe8a14cf10364; 0xa81a664bbc423001; 0xc24b8b70d0f89791; 0xc76c51a30654be30] ++
  [0xd192e819d6ef5218; 0xd69906245565a910; 0xf40e35855771202a; 0x106aa07032bbd1b8] ++
  [0x19a4c116b8d2d0c8; 0x1e376c085141ab53; 0x2748774cdf8eeb99; 0x34b0bcb5e19b48a8] ++
  [0x391c0cb3c5c95a63; 0x4ed8aa4ae3418acb; 0x5b9cca4f7763e373; 0x682e6ff3d6b2b8a3] ++
  [0x748f82ee5defb2fc; 0x78a5636f43172f60; 0x84c87814a1f0ab72; 0x8cc702081a6439ec] ++
  [0x90befffa23631e28; 0xa4506cebde82bde9; 0xbef9a3f7b2c67915; 0xc67178f2e372532b] ++
  [0xca273eceea26619c; 0xd186b8c721c0c207; 0xeada7dd6cde0eb1e; 0xf57d4f7fee6ed178] ++
  [0x06f067aa72176fba; 0x0a637dc5a2c898a6; 0x113f9804bef90dae; 0x1b710b35131c471b] ++
  [0x28db77f523047d84; 0x32caab7b40c72493; 0x3c9ebe0a15c9bebc; 0x431d67c49c100d4c] ++
  [0x4cc5d4becb3e42b6; 0x597f299cfc657e2a; 0x5fcb6fab3ad6faec; 0x6c44198c4a475817].

(** The words [w0] to [w15] read the block; [w0 += sigma1(w14) + w9 + sigma0(w1)]
    and so on, with the words renamed for the next round. *)
Definition block_words (chunk : list Z) : list Z := map (fun i => ReadBE64 (drop (8 * i) chunk)) (seq 0 16).
Definition next_word (w : list Z) : Z := u64 (nth 0 w 0 + sigma1 (nth 14 w 0) + nth 9 w 0 + sigma0 (nth 1 w 0)).
Fixpoint word_rounds (rounds : nat) (w : list Z) : list Z :=
  match rounds with O => [] | S rounds => nth 0 w 0 :: word_rounds rounds (tail w ++ [next_word w]) end.

Definition to_regs (s : list Z) : regs := Regs (nth 0 s 0) (nth 1 s 0) (nth 2 s 0) (nth 3 s 0) (nth 4 s 0) (nth 5 s 0) (nth 6 s 0) (nth 7 s 0).
Definition add_regs (s : list Z) (r : regs) : list Z := zip_with (fun x y => u64 (x + y)) s [ra r; rb r; rc r; rd r; re r; rf r; rg r; rh r].

Definition Transform (s chunk : list Z) : list Z := add_regs s (fold_left Round (zip K512 (word_rounds 80 (block_words chunk))) (to_regs s)).

(** The length is written in the last eight of sixteen bytes. *)
Definition sha512 : BlockHash := {|
  bh_block := 128;
  bh_init := Initialize;
  bh_transform := Transform;
  bh_sizedesc := fun bits => replicate 8 0 ++ WriteBE64 bits;
  bh_pad := 239;
  bh_out := fun s => s ≫= WriteBE64;
|}.

Definition CSHA512 : Type := Hasher.
Definition new_CSHA512 : CSHA512 := new_Hasher sha512.
Definition CSHA512_Write : CSHA512 -> list Z -> CSHA512 := Write_ sha512.
Definition CSHA512_Finalize : CSHA512 -> list Z * CSHA512 := Finalize_ sha512.
Definition CSHA512_Reset : CSHA512 -> CSHA512 := Reset_ sha512.

Lemma sha512_ok : BlockHash_ok sha512.
Proof.
  assert (L : forall z, length (replicate 8 0 ++ WriteBE64 z) = 16%nat) by (intros z; rewrite length_app, length_WriteBE64; reflexivity).
  split; cbn [sha512 bh_block bh_pad bh_sizedesc]; [right; reflexivity|rewrite L; reflexivity|intros z; rewrite !L; reflexivity|rewrite L; lia].
Qed.

Example sha512_abc : hash_of sha512 [97; 98; 99] = [0xdd; 0xaf; 0x35; 0xa1; 0x93; 0x61; 0x7a; 0xba; 0xcc; 0x41; 0x73; 0x49; 0xae; 0x20; 0x41; 0x31; 0x12; 0xe6; 0xfa; 0x4e; 0x89; 0xa9; 0x7e; 0xa2; 0x0a; 0x9e; 0xee; 0xe6; 0x4b; 0x55; 0xd3; 0x9a; 0x21; 0x92; 0x99; 0x2a; 0x27; 0x4f; 0xc1; 0xa8; 0x36; 0xba; 0x3c; 0x23; 0xa3; 0xfe; 0xeb; 0xbd; 0x45; 0x4d; 0x44; 0x23; 0x64; 0x3c; 0xe8; 0x0e; 0x2a; 0x9a; 0xc9; 0x4f; 0xa5; 0x4c; 0xa4; 0x9f].
Proof. vm_compute. reflexivity. Qed.

(** However a message is cut into pieces, and whatever the object hashed
    before it was reset, [CSHA512] gives the SHA-512 hash of the message. *)
Theorem CSHA512_correct (msgs : list (list (list Z))) :
  hash_each sha512 new_CSHA512 msgs = map (fun pieces => hash_of sha512 (concat pieces)) msgs.
Proof. apply (hash_each_spec sha512 sha512_ok). exact (new_taken sha512 sha512_ok). Qed.
