(* ===== verification/Sha1.v ===== *)
(** * SHA-1

    Models src/crypto/sha1.cpp: the transformation, whose unrolled rounds are a
    fold over their functions and constants, and the class [CSHA1]. *)

From stdpp Require Import base numbers list.
From Stdlib Require Import ZArith Lia.
From S2P Require Import Prelude HashWriter.

Local Open Scope Z_scope.

Record regs : Type := Regs { ra : Z; rb : Z; rc : Z; rd : Z; re : Z }.

Definition f1 (b c d : Z) : Z := Z.lxor d (Z.land b (Z.lxor c d)).
Definition f2 (b c d : Z) : Z := Z.lxor (Z.lxor b c) d.
Definition f3 (b c d : Z) : Z := Z.lor (Z.land b c) (Z.land d (Z.lor b c)).
Definition left (x : Z) : Z := rol32 x 1.

(** The registers, renamed for the next round. *)
Definition Round (r : regs) (fkw : (Z -> Z -> Z -> Z) * Z * Z) : regs :=
  let '(f, k, w) := fkw in
  Regs (u32 (re r + (rol32 (ra r) 5 + f (rb r) (rc r) (rd r) + k + w))) (ra r) (rol32 (rb r) 30) (rc r) (rd r).

Definition Initialize : list Z := [0x67452301; 0xefcdab89; 0x98badcfe; 0x10325476; 0xc3d2e1f0].

Definition k1 : Z := 0x5a827999.
Definition k2 : Z := 0x6ed9eba1.
Definition k3 : Z := 0x8f1bbcdc.
Definition k4 : Z := 0xca62c1d6.

Definition block_words (chunk : list Z) : list Z := map (fun i => ReadBE32 (drop (4 * i) chunk)) (seq 0 16).

(** [w0 = left(w0 ^ w13 ^ w8 ^ w2)] and so on, with the words renamed for the next round. *)
Definition next_word (w : list Z) : Z := left (Z.lxor (Z.lxor (Z.lxor (nth 0 w 0) (nth 13 w 0)) (nth 8 w 0)) (nth 2 w 0)).
Fixpoint word_rounds (rounds : nat) (w : list Z) : list Z :=
  match rounds with O => [] | S rounds => nth 0 w 0 :: word_rounds rounds (tail w ++ [next_word w]) end.

(** The function and the constant of each round. *)
Definition round_kinds : list ((Z -> Z -> Z -> Z) * Z) := replicate 20 (f1, k1) ++ replicate 20 (f2, k2) ++ replicate 20 (f3, k3) ++ replicate 20 (f2, k4).

Definition to_regs (s : list Z) : regs := Regs (nth 0 s 0) (nth 1 s 0) (nth 2 s 0) (nth 3 s 0) (nth 4 s 0).
Definition Transform (s chunk : list Z) : list Z :=
  let r := fold_left Round (zip round_kinds (word_rounds 80 (block_words chunk))) (to_regs s) in
  zip_with (fun x y => u32 (x + y)) s [ra r; rb r; rc r; rd r; re r].

Definition sha1 : BlockHash := {|
  bh_block := 64;
  bh_init := Initialize;
  bh_transform := Transform;
  bh_sizedesc := WriteBE64;
  bh_pad := 119;
  bh_out := fun s => s ≫= WriteBE32;
|}.

Definition CSHA1 : Type := Hasher.
Definition new_CSHA1 : CSHA1 := new_Hasher sha1.
Definition CSHA1_Write : CSHA1 -> list Z -> CSHA1 := Write_ sha1.
Definition CSHA1_Finalize : CSHA1 -> list Z * CSHA1 := Finalize_ sha1.
Definition CSHA1_Reset : CSHA1 -> CSHA1 := Reset_ sha1.

Lemma sha1_ok : BlockHash_ok sha1.
Proof. split; cbn [sha1 bh_block bh_pad bh_sizedesc]; [now left|rewrite length_WriteBE64; reflexivity|intros z; rewrite !length_WriteBE64; reflexivity|rewrite length_WriteBE64; lia]. Qed.

Example sha1_abc : hash_of sha1 [97; 98; 99] = [0xa9; 0x99; 0x3e; 0x36; 0x47; 0x06; 0x81; 0x6a; 0xba; 0x3e; 0x25; 0x71; 0x78; 0x50; 0xc2; 0x6c; 0x9c; 0xd0; 0xd8; 0x9d].
Proof. vm_compute. reflexivity. Qed.

(** However a message is cut into pieces, and whatever the object hashed before
    it was reset, [CSHA1] gives the SHA-1 hash of the message. *)
Theorem CSHA1_correct (msgs : list (list (list Z))) :
  hash_each sha1 new_CSHA1 msgs = map (fun pieces => hash_of sha1 (concat pieces)) msgs.
Proof. apply (hash_each_spec sha1 sha1_ok). exact (new_taken sha1 sha1_ok). Qed.
