(* ===== verification/Ripemd160.v ===== *)
(** * RIPEMD-160

    Models src/crypto/ripemd160.cpp: the transformation, whose two lines of
    unrolled rounds are folds over tables of the words and rotations they name,
    and the class [CRIPEMD160]. *)

From stdpp Require Import base numbers list.
From Stdlib Require Import ZArith Lia.
From S2P Require Import Prelude Compact HashWriter.

Local Open Scope Z_scope.

Record regs : Type := Regs { ra : Z; rb : Z; rc : Z; rd : Z; re : Z }.

Definition not32 (x : Z) : Z := u32 (Z.lnot x).
Definition f1 (x y z : Z) : Z := Z.lxor (Z.lxor x y) z.
Definition f2 (x y z : Z) : Z := Z.lor (Z.land x y) (Z.land (not32 x) z).
Definition f3 (x y z : Z) : Z := Z.lxor (Z.lor x (not32 y)) z.
Definition f4 (x y z : Z) : Z := Z.lor (Z.land x z) (Z.land y (not32 z)).
Definition f5 (x y z : Z) : Z := Z.lxor x (Z.lor y (not32 z)).

Definition Initialize : list Z := [0x67452301; 0xefcdab89; 0x98badcfe; 0x10325476; 0xc3d2e1f0].

(** The registers, renamed for the next round. *)
Definition Round (r : regs) (f : Z -> Z -> Z -> Z) (x k rot : Z) : regs :=
  Regs (re r) (u32 (rol32 (u32 (ra r + f (rb r) (rc r) (rd r) + x + k)) rot + re r)) (rb r) (rol32 (rc r) 10) (rd r).

(** The functions and constants of [R11] to [R51] and of [R12] to [R52]. *)
Definition kinds1 : list ((Z -> Z -> Z -> Z) * Z) := [(f1, 0); (f2, 0x5a827999); (f3, 0x6ed9eba1); (f4, 0x8f1bbcdc); (f5, 0xa953fd4e)].
Definition kinds2 : list ((Z -> Z -> Z -> Z) * Z) := [(f5, 0x50a28be6); (f4, 0x5c4dd124); (f3, 0x6d703ef3); (f2, 0x7a6d76e9); (f1, 0)].

(** The word and the rotation of each round of the two lines. *)
Definition line1 : list (nat * Z) := [
  (0%nat, 11); (1%nat, 14); (2%nat, 15); (3%nat, 12); (4%nat, 5); (5%nat, 8); (6%nat, 7); (7%nat, 9);
  (8%nat, 11); (9%nat, 13); (10%nat, 14); (11%nat, 15); (12%nat, 6); (13%nat, 7); (14%nat, 9); (15%nat, 8);
  (7%nat, 7); (4%nat, 6); (13%nat, 8); (1%nat, 13); (10%nat, 11); (6%nat, 9); (15%nat, 7); (3%nat, 15);
  (12%nat, 7); (0%nat, 12); (9%nat, 15); (5%nat, 9); (2%nat, 11); (14%nat, 7); (11%nat, 13); (8%nat, 12);
  (3%nat, 11); (10%nat, 13); (14%nat, 6); (4%nat, 7); (9%nat, 14); (15%nat, 9); (8%nat, 13); (1%nat, 15);
  (2%nat, 14); (7%nat, 8); (0%nat, 13); (6%nat, 6); (13%nat, 5); (11%nat, 12); (5%nat, 7); (12%nat, 5);
  (1%nat, 11); (9%nat, 12); (11%nat, 14); (10%nat, 15); (0%nat, 14); (8%nat, 15); (12%nat, 9); (4%nat, 8);
  (13%nat, 9); (3%nat, 14); (7%nat, 5); (15%nat, 6); (14%nat, 8); (5%nat, 6); (6%nat, 5); (2%nat, 12);
  (4%nat, 9); (0%nat, 15); (5%nat, 5); (9%nat, 11); (7%nat, 6); (12%nat, 8); (2%nat, 13); (10%nat, 12);
  (14%nat, 5); (1%nat, 12); (3%nat, 13); (8%nat, 14); (11%nat, 11); (6%nat, 8); (15%nat, 5); (13%nat, 6)].
Definition line2 : list (nat * Z) := [
  (5%nat, 8); (14%nat, 9); (7%nat, 9); (0%nat, 11); (9%nat, 13); (2%nat, 15); (11%nat, 15); (4%nat, 5);
  (13%nat, 7); (6%nat, 7); (15%nat, 8); (8%nat, 11); (1%nat, 14); (10%nat, 14); (3%nat, 12); (12%nat, 6);
  (6%nat, 9); (11%nat, 13); (3%nat, 15); (7%nat, 7); (0%nat, 12); (13%nat, 8); (5%nat, 9); (10%nat, 11);
  (14%nat, 7); (15%nat, 7); (8%nat, 12); (12%nat, 7); (4%nat, 6); (9%nat, 15); (1%nat, 13); (2%nat, 11);
  (15%nat, 9); (5%nat, 7); (1%nat, 15); (3%nat, 11); (7%nat, 8); (14%nat, 6); (6%nat, 6); (9%nat, 14);
  (11%nat, 12); (8%nat, 13); (12%nat, 5); (2%nat, 14); (10%nat, 13); (0%nat, 13); (4%nat, 7); (13%nat, 5);
  (8%nat, 15); (6%nat, 5); (4%nat, 8); (1%nat, 11); (3%nat, 14); (11%nat, 14); (15%nat, 6); (0%nat, 14);
  (5%nat, 6); (12%nat, 9); (2%nat, 12); (13%nat, 9); (9%nat, 12); (7%nat, 5); (10%nat, 15); (14%nat, 8);
  (12%nat, 8); (15%nat, 5); (10%nat, 12); (4%nat, 9); (1%nat, 12); (5%nat, 5); (8%nat, 14); (7%nat, 6);
  (6%nat, 8); (2%nat, 13); (13%nat, 6); (14%nat, 5); (0%nat, 15); (3%nat, 13); (9%nat, 11); (11%nat, 11)].

Definition block_words (chunk : list Z) : list Z := map (fun i => ReadLE32 (drop (4 * i) chunk)) (seq 0 16).
Definition line_rounds (kinds : list ((Z -> Z -> Z -> Z) * Z)) (line : list (nat * Z)) (w : list Z) (r : regs) : regs :=
  fold_left (fun r '(kind, (i, rot)) => Round r (fst kind) (nth i w 0) (snd kind) rot) (zip (kinds ≫= replicate 16) line) r.

Definition to_regs (s : list Z) : regs := Regs (nth 0 s 0) (nth 1 s 0) (nth 2 s 0) (nth 3 s 0) (nth 4 s 0).
Definition Transform (s chunk : list Z) : list Z :=
  let w := block_words chunk in
  let r1 := line_rounds kinds1 line1 w (to_regs s) in
  let r2 := line_rounds kinds2 line2 w (to_regs s) in
  let t := nth 0 s 0 in
  [u32 (nth 1 s 0 + rc r1 + rd r2); u32 (nth 2 s 0 + rd r1 + re r2); u32 (nth 3 s 0 + re r1 + ra r2); u32 (nth 4 s 0 + ra r1 + rb r2); u32 (t + rb r1 + rc r2)].

Definition ripemd160 : BlockHash := {|
  bh_block := 64;
  bh_init := Initialize;
  bh_transform := Transform;
  bh_sizedesc := WriteLE64;
  bh_pad := 119;
  bh_out := fun s => s ≫= WriteLE32;
|}.

Definition CRIPEMD160 : Type := Hasher.
Definition new_CRIPEMD160 : CRIPEMD160 := new_Hasher ripemd160.
Definition CRIPEMD160_Write : CRIPEMD160 -> list Z -> CRIPEMD160 := Write_ ripemd160.
Definition CRIPEMD160_Finalize : CRIPEMD160 -> list Z * CRIPEMD160 := Finalize_ ripemd160.
Definition CRIPEMD160_Reset : CRIPEMD160 -> CRIPEMD160 := Reset_ ripemd160.

Lemma ripemd160_ok : BlockHash_ok ripemd160.
Proof. split; cbn [ripemd160 bh_block bh_pad bh_sizedesc]; [now left|rewrite length_WriteLE64; reflexivity|intros z; rewrite !length_WriteLE64; reflexivity|rewrite length_WriteLE64; lia]. Qed.

Example ripemd160_abc : hash_of ripemd160 [97; 98; 99] = [0x8e; 0xb2; 0x08; 0xf7; 0xe0; 0x5d; 0x98; 0x7a; 0x9b; 0x04; 0x4a; 0x8e; 0x98; 0xc6; 0xb0; 0x87; 0xf1; 0x5a; 0x0b; 0xfc].
Proof. vm_compute. reflexivity. Qed.

(** However a message is cut into pieces, and whatever the object hashed before
    it was reset, [CRIPEMD160] gives the RIPEMD-160 hash of the message. *)
Theorem CRIPEMD160_correct (msgs : list (list (list Z))) :
  hash_each ripemd160 new_CRIPEMD160 msgs = map (fun pieces => hash_of ripemd160 (concat pieces)) msgs.
Proof. apply (hash_each_spec ripemd160 ripemd160_ok). exact (new_taken ripemd160 ripemd160_ok). Qed.
