(* ===== verification/Hashing.v ===== *)
(** * Hashes and codes built from the hash functions

    Models src/hash.h, src/hash.cpp, src/crypto/hmac_sha256.cpp,
    src/crypto/hmac_sha512.cpp and src/crypto/hkdf_sha256_32.cpp: the double
    hash and the 160-bit hash, the stream that hashes what is written to it or
    read through it, tagged hashes, message authentication codes and the
    derivation of keys, each shown to be its textbook definition for every way
    to cut the input. *)

From Stdlib Require Import ZArith Lia Ascii String.
From stdpp Require Import base numbers list strings.
From S2P Require Import Prelude Compact HashWriter Sha256 Sha256Proofs Sha512 Ripemd160.

Local Open Scope Z_scope.

Notation sha256_of := (hash_of Sha256.sha256).
Notation sha512_of := (hash_of Sha512.sha512).
Notation ripemd160_of := (hash_of Ripemd160.ripemd160).

(** ** [CHash256] and [CHash160] *)

Definition CHash256 : Type := CSHA256.
Definition CHash256_Finalize (sha : CHash256) : list Z * CHash256 :=
  let '(buf, sha) := CSHA256_Finalize sha in CSHA256_Finalize (CSHA256_Write (CSHA256_Reset sha) buf).
Definition CHash256_Write (sha : CHash256) (input : list Z) : CHash256 := CSHA256_Write sha input.
Definition CHash256_Reset (sha : CHash256) : CHash256 := CSHA256_Reset sha.

Definition CHash160 : Type := CSHA256.
Definition CHash160_Finalize (sha : CHash160) : list Z * CHash160 :=
  let '(buf, sha) := CSHA256_Finalize sha in (fst (CRIPEMD160_Finalize (CRIPEMD160_Write new_CRIPEMD160 buf)), sha).
Definition CHash160_Write (sha : CHash160) (input : list Z) : CHash160 := CSHA256_Write sha input.
Definition CHash160_Reset (sha : CHash160) : CHash160 := CSHA256_Reset sha.

Definition Hash (in1 : list Z) : list Z := fst (CHash256_Finalize (CHash256_Write new_CSHA256 in1)).
Definition Hash2 (in1 in2 : list Z) : list Z := fst (CHash256_Finalize (CHash256_Write (CHash256_Write new_CSHA256 in1) in2)).
Definition Hash160 (in1 : list Z) : list Z := fst (CHash160_Finalize (CHash160_Write new_CSHA256 in1)).
Definition RIPEMD160 (data : list Z) : list Z := fst (CRIPEMD160_Finalize (CRIPEMD160_Write new_CRIPEMD160 data)).
Definition SHA256Uint256 (input : list Z) : list Z := fst (CSHA256_Finalize (CSHA256_Write new_CSHA256 input)).

(** ** Streams that hash *)

(** The class [HashWriter]. *)
Definition HashStream : Type := CSHA256.
Definition stream_write (ctx : HashStream) (src : list Z) : HashStream := CSHA256_Write ctx src.
Definition GetHash (ctx : HashStream) : list Z * HashStream :=
  let '(result, ctx) := CSHA256_Finalize ctx in CSHA256_Finalize (CSHA256_Write (CSHA256_Reset ctx) result).
Definition GetSHA256 (ctx : HashStream) : list Z * HashStream := CSHA256_Finalize ctx.
Definition GetCheapHash (ctx : HashStream) : Z := ReadLE64 (fst (GetHash ctx)).

Definition string_bytes (s : string) : list Z := map (fun c => Z.of_nat (nat_of_ascii c)) (String.list_ascii_of_string s).

Definition TaggedHash (tag : string) : HashStream :=
  let taghash := fst (CSHA256_Finalize (CSHA256_Write new_CSHA256 (string_bytes tag))) in
  stream_write (stream_write new_CSHA256 taghash) taghash.

(** The class [HashVerifier]: its source is the bytes left to read, and a read
    past their end throws. *)
Record HashVerifier : Type := { hv_ctx : HashStream; hv_source : list Z }.
Definition verifier_read (v : HashVerifier) (n : nat) : option (list Z * HashVerifier) :=
  if (n <=? length (hv_source v))%nat then Some (take n (hv_source v), {| hv_ctx := stream_write (hv_ctx v) (take n (hv_source v)); hv_source := drop n (hv_source v) |}) else None.
Fixpoint verifier_ignore (fuel : nat) (v : HashVerifier) (num_bytes : nat) : option HashVerifier :=
  match fuel with
  | O => Some v
  | S fuel =>
      if (0 <? num_bytes)%nat then
        let now := Nat.min num_bytes 1024 in
        '(_, v) ← verifier_read v now; verifier_ignore fuel v (num_bytes - now)
      else Some v
  end.

(** The class [HashedSourceWriter]: what it wrote, and the hash of it. *)
Record HashedSourceWriter : Type := { hs_ctx : HashStream; hs_out : list Z }.
Definition source_write (w : HashedSourceWriter) (src : list Z) : HashedSourceWriter := {| hs_ctx := stream_write (hs_ctx w) src; hs_out := hs_out w ++ src |}.

(** ** Message authentication codes *)

Section Hmac.
Context (H : BlockHash).

Record CHMAC : Type := { outer : Hasher; inner : Hasher }.

Definition rkey (key : list Z) : list Z :=
  if (length key <=? bh_block H)%nat then key ++ replicate (bh_block H - length key) 0
  else fst (Finalize_ H (Write_ H (new_Hasher H) key)) ++ replicate (bh_block H / 2) 0.
Definition new_CHMAC (key : list Z) : CHMAC :=
  let rk := map (fun b => Z.lxor b 0x5c) (rkey key) in
  let out := Write_ H (new_Hasher H) rk in
  let rk := map (fun b => Z.lxor b (Z.lxor 0x5c 0x36)) rk in
  {| outer := out; inner := Write_ H (new_Hasher H) rk |}.
Definition CHMAC_Write (m : CHMAC) (data : list Z) : CHMAC := {| outer := outer m; inner := Write_ H (inner m) data |}.
Definition CHMAC_Finalize (m : CHMAC) : list Z := fst (Finalize_ H (Write_ H (outer m) (fst (Finalize_ H (inner m))))).

(** The code of RFC 2104. *)
Definition hmac_key (key : list Z) : list Z :=
  if (length key <=? bh_block H)%nat then key ++ replicate (bh_block H - length key) 0 else hash_of H key ++ replicate (bh_block H / 2) 0.
Definition hmac (key m : list Z) : list Z :=
  hash_of H (map (fun b => Z.lxor b 0x5c) (hmac_key key) ++ hash_of H (map (fun b => Z.lxor b 0x36) (hmac_key key) ++ m)).

Hypothesis HB : BlockHash_ok H.

Lemma one_write d : has_taken H (Write_ H (new_Hasher H) d) d.
Proof using HB. exact (Write_taken H HB _ _ d (new_taken H HB)). Qed.
Lemma rkey_spec key : rkey key = hmac_key key.
Proof using HB. unfold rkey, hmac_key. rewrite (Finalize_hash H HB _ key (one_write key)). reflexivity. Qed.

Lemma CHMAC_writes ds : forall m, fold_left CHMAC_Write ds m = {| outer := outer m; inner := fold_left (Write_ H) ds (inner m) |}.
Proof using. induction ds as [|d ds IH]; intros [o i]; [reflexivity|]. cbn [fold_left]. rewrite IH. reflexivity. Qed.

Lemma CHMAC_spec key ds : CHMAC_Finalize (fold_left CHMAC_Write ds (new_CHMAC key)) = hmac key (concat ds).
Proof using HB.
  rewrite CHMAC_writes. unfold CHMAC_Finalize, new_CHMAC, hmac. cbn [outer inner]. rewrite rkey_spec, map_map. rewrite (map_ext (fun b => Z.lxor (Z.lxor b 0x5c) (Z.lxor 0x5c 0x36)) (fun b => Z.lxor b 0x36)) by (intros b; rewrite Z.lxor_assoc; reflexivity).
  rewrite (Finalize_hash H HB _ _ (writes_taken H HB ds _ _ (one_write (map (fun b => Z.lxor b 0x36) (hmac_key key))))). apply (Finalize_hash H HB), (Write_taken H HB), one_write.
Qed.
End Hmac.

Definition CHMAC_SHA256 : Type := CHMAC.
Definition new_CHMAC_SHA256 : list Z -> CHMAC_SHA256 := new_CHMAC Sha256.sha256.
Definition CHMAC_SHA256_Write : CHMAC_SHA256 -> list Z -> CHMAC_SHA256 := CHMAC_Write Sha256.sha256.
Definition CHMAC_SHA256_Finalize : CHMAC_SHA256 -> list Z := CHMAC_Finalize Sha256.sha256.
Definition CHMAC_SHA512 : Type := CHMAC.
Definition new_CHMAC_SHA512 : list Z -> CHMAC_SHA512 := new_CHMAC Sha512.sha512.
Definition CHMAC_SHA512_Write : CHMAC_SHA512 -> list Z -> CHMAC_SHA512 := CHMAC_Write Sha512.sha512.
Definition CHMAC_SHA512_Finalize : CHMAC_SHA512 -> list Z := CHMAC_Finalize Sha512.sha512.

Definition BIP32Hash (chainCode : list Z) (nChild header : Z) (data : list Z) : list Z :=
  CHMAC_SHA512_Finalize (CHMAC_SHA512_Write (CHMAC_SHA512_Write (CHMAC_SHA512_Write (new_CHMAC_SHA512 chainCode) [header]) data) (WriteBE32 nChild)).

(** ** Derivation of keys *)

(** The class [CHKDF_HMAC_SHA256_L32] holds [m_prk]; [None] is the failed assertion. *)
Definition new_CHKDF (ikm : list Z) (salt : list Z) : list Z := CHMAC_SHA256_Finalize (CHMAC_SHA256_Write (new_CHMAC_SHA256 salt) ikm).
Definition Expand32 (m_prk info : list Z) : option (list Z) :=
  if (length info <=? 128)%nat then Some (CHMAC_SHA256_Finalize (CHMAC_SHA256_Write (CHMAC_SHA256_Write (new_CHMAC_SHA256 m_prk) info) [1])) else None.

(** RFC 5869: extraction, and the blocks T(1), T(2), ... of the expansion. *)
Definition hkdf_extract (salt ikm : list Z) : list Z := hmac Sha256.sha256 salt ikm.
Fixpoint hkdf_blocks (prk info prev : list Z) (i : Z) (n : nat) : list Z :=
  match n with O => [] | S n => let t := hmac Sha256.sha256 prk (prev ++ info ++ [i]) in t ++ hkdf_blocks prk info t (i + 1) n end.
Definition hkdf_expand (prk info : list Z) (L : nat) : list Z := take L (hkdf_blocks prk info [] 1 ((L + 31) / 32)).

(** ** [MurmurHash3] *)

Definition murmur_mix (k1 : Z) : Z := u32 (rol32 (u32 (k1 * 0xcc9e2d51)) 15 * 0x1b873593).
Fixpoint murmur_body (nblocks : nat) (h1 : Z) (blocks : list Z) : Z :=
  match nblocks with
  | O => h1
  | S nblocks => murmur_body nblocks (u32 (rol32 (Z.lxor h1 (murmur_mix (ReadLE32 blocks))) 13 * 5 + 0xe6546b64)) (drop 4 blocks)
  end.
Definition murmur_tail (h1 : Z) (tail : list Z) : Z :=
  match tail with
  | [b0; b1; b2] => Z.lxor h1 (murmur_mix (Z.lxor (Z.lxor (Z.shiftl b2 16) (Z.shiftl b1 8)) b0))
  | [b0; b1] => Z.lxor h1 (murmur_mix (Z.lxor (Z.shiftl b1 8) b0))
  | [b0] => Z.lxor h1 (murmur_mix b0)
  | _ => h1
  end.
Definition MurmurHash3 (nHashSeed : Z) (vDataToHash : list Z) : Z :=
  let nblocks := (length vDataToHash / 4)%nat in
  let h1 := murmur_tail (murmur_body nblocks nHashSeed vDataToHash) (drop (nblocks * 4) vDataToHash) in
  let h1 := u32 (Z.lxor h1 (Z.of_nat (length vDataToHash))) in
  let h1 := u32 (Z.lxor h1 (Z.shiftr h1 16) * 0x85ebca6b) in
  let h1 := u32 (Z.lxor h1 (Z.shiftr h1 13) * 0xc2b2ae35) in
  Z.lxor h1 (Z.shiftr h1 16).

Example MurmurHash3_vectors : MurmurHash3 0xfba4c795 [] = 0x6a396f08 /\ MurmurHash3 0xffffffff [] = 0x81f16f39 /\ MurmurHash3 0xfba4c795 [0] = 0xea3f0b17 /\ MurmurHash3 0 [0; 17; 34; 51] = 0xb4471bf8 /\ MurmurHash3 0 [0; 17; 34] = 0x8eb51c3d.
Proof. vm_compute. auto. Qed.

(** ** Properties *)

Lemma ok256 : BlockHash_ok Sha256.sha256.
Proof. exact sha256_ok. Qed.
#[local] Hint Resolve ok256 sha512_ok ripemd160_ok : core.

Lemma CHash256_spec sha m : has_taken Sha256.sha256 sha m -> fst (CHash256_Finalize sha) = double_hash m.
Proof.
  intros T. unfold CHash256_Finalize, CSHA256_Finalize. pose proof (Finalize_hash _ ok256 _ _ T) as E. destruct (Finalize_taken _ ok256 _ _ T) as [m' T']. destruct (Finalize_ Sha256.sha256 sha) as [buf sha']. cbn [fst snd] in *. subst buf.
  apply (Finalize_hash _ ok256). exact (Write_taken _ ok256 _ _ _ (Reset_taken _ ok256 _ _ T')).
Qed.
Lemma CHash160_spec sha m : has_taken Sha256.sha256 sha m -> fst (CHash160_Finalize sha) = ripemd160_of (sha256_of m).
Proof.
  intros T. unfold CHash160_Finalize, CSHA256_Finalize. pose proof (Finalize_hash _ ok256 _ _ T) as E. destruct (Finalize_ Sha256.sha256 sha) as [buf sha']. cbn [fst] in *. subst buf. apply (Finalize_hash _ ripemd160_ok), one_write. exact ripemd160_ok.
Qed.

(** Written to a stream, read through it or passed on by it, the bytes are
    hashed. *)
Lemma stream_spec ds : has_taken Sha256.sha256 (fold_left stream_write ds new_CSHA256) (concat ds).
Proof. exact (writes_taken _ ok256 ds _ _ (new_taken _ ok256)). Qed.

Lemma verifier_read_spec v m n : has_taken Sha256.sha256 (hv_ctx v) m -> (n <= length (hv_source v))%nat ->
  exists v', verifier_read v n = Some (take n (hv_source v), v') /\ hv_source v' = drop n (hv_source v) /\ has_taken Sha256.sha256 (hv_ctx v') (m ++ take n (hv_source v)).
Proof.
  intros T Hn. unfold verifier_read. rewrite (proj2 (Nat.leb_le _ _) Hn). eexists. split; [reflexivity|]. split; [reflexivity|]. exact (Write_taken _ ok256 _ _ _ T).
Qed.
Lemma verifier_read_short v n : (length (hv_source v) < n)%nat -> verifier_read v n = None.
Proof. intros Hn. unfold verifier_read. rewrite (proj2 (Nat.leb_gt _ _) Hn). reflexivity. Qed.

(** Skipped bytes are hashed too; one step at least for each kilobyte. *)
Lemma verifier_ignore_spec fuel : forall v m n, has_taken Sha256.sha256 (hv_ctx v) m -> (n <= fuel)%nat ->
  if decide (n <= length (hv_source v))%nat then exists v', verifier_ignore fuel v n = Some v' /\ hv_source v' = drop n (hv_source v) /\ has_taken Sha256.sha256 (hv_ctx v') (m ++ take n (hv_source v))
  else verifier_ignore fuel v n = None.
Proof.
  induction fuel as [|fuel IH]; intros v m n T Hf; cbn [verifier_ignore].
  - assert (n = 0%nat) as -> by lia. rewrite decide_True by lia. exists v. rewrite drop_0. cbn [take]. rewrite app_nil_r. auto.
  - destruct (Nat.ltb_spec 0 n) as [Hp|Hp]; [|assert (n = 0%nat) as -> by lia; rewrite decide_True by lia; exists v; rewrite drop_0; cbn [take]; rewrite app_nil_r; auto]. set (now := Nat.min n 1024). assert (Hnow : (0 < now <= n)%nat) by lia.
    destruct (decide (now <= length (hv_source v))%nat) as [Hl|Hl].
    + destruct (verifier_read_spec v m now T Hl) as (v' & -> & Es & T'). cbn [mbind option_bind]. specialize (IH v' _ (n - now)%nat T' ltac:(lia)). rewrite Es, length_drop in IH. destruct (decide (n <= length (hv_source v))%nat) as [Hn|Hn].
      * rewrite decide_True in IH by lia. destruct IH as (v2 & -> & Es2 & T2). exists v2. split; [reflexivity|]. rewrite Es2, drop_drop. replace (now + (n - now))%nat with n by lia. split; [reflexivity|]. rewrite <- app_assoc, take_take_drop in T2. replace (now + (n - now))%nat with n in T2 by lia. exact T2.
      * rewrite decide_False in IH by lia. exact IH.
    + rewrite decide_False by lia. rewrite verifier_read_short by lia. reflexivity.
Qed.

Lemma absorb_words n : forall s d, length s = 8%nat -> length (absorb_blocks Sha256.sha256 s n d) = 8%nat.
Proof. induction n as [|n IH]; intros s d Hs; [exact Hs|]. apply IH. exact (proj1 (Transform_words s _ Hs)). Qed.
Lemma length_sha256 m : length (sha256_of m) = 32%nat.
Proof. unfold hash_of. cbn [Sha256.sha256 bh_out]. rewrite length_words, absorb_words; reflexivity. Qed.

(** The hash functions of hash.h are what their names say: the double
    SHA-256 of one object or of two together, SHA-256 then RIPEMD-160, and a
    tagged hash is the SHA-256 of the tag's hash, twice, and the message,
    however it is written to the stream. *)
Theorem hash_functions_correct (a b : list Z) (tag : string) (ds : list (list Z)) :
  Hash a = sha256_of (sha256_of a) /\ Hash2 a b = sha256_of (sha256_of (a ++ b)) /\ Hash160 a = ripemd160_of (sha256_of a) /\
  RIPEMD160 a = ripemd160_of a /\ SHA256Uint256 a = sha256_of a /\
  fst (GetHash (fold_left stream_write ds new_CSHA256)) = sha256_of (sha256_of (concat ds)) /\
  (let t := sha256_of (string_bytes tag) in fst (GetSHA256 (fold_left stream_write ds (TaggedHash tag))) = sha256_of (t ++ t ++ concat ds)).
Proof.
  pose proof (fun d => one_write Sha256.sha256 ok256 d) as W. split_and!.
  - exact (CHash256_spec _ _ (W a)).
  - exact (CHash256_spec _ _ (Write_taken _ ok256 _ _ b (W a))).
  - exact (CHash160_spec _ _ (W a)).
  - apply (Finalize_hash _ ripemd160_ok), one_write, ripemd160_ok.
  - exact (Finalize_hash _ ok256 _ _ (W a)).
  - exact (CHash256_spec _ _ (stream_spec ds)).
  - cbn zeta. unfold TaggedHash. assert (E : fst (CSHA256_Finalize (CSHA256_Write new_CSHA256 (string_bytes tag))) = sha256_of (string_bytes tag)) by exact (Finalize_hash _ ok256 _ _ (W (string_bytes tag))). rewrite E, app_assoc. apply (Finalize_hash _ ok256), (writes_taken _ ok256), (Write_taken _ ok256), (W _).
Qed.

(** The message authentication codes are those of RFC 2104, over SHA-256
    and SHA-512, for keys shorter and longer than a block and however the
    message is written; the hash of BIP 32 is such a code. *)
Theorem HMAC_correct (key : list Z) (ds : list (list Z)) (nChild header : Z) (data : list Z) :
  CHMAC_SHA256_Finalize (fold_left CHMAC_SHA256_Write ds (new_CHMAC_SHA256 key)) = hmac Sha256.sha256 key (concat ds) /\
  CHMAC_SHA512_Finalize (fold_left CHMAC_SHA512_Write ds (new_CHMAC_SHA512 key)) = hmac Sha512.sha512 key (concat ds) /\
  BIP32Hash key nChild header data = hmac Sha512.sha512 key (header :: data ++ WriteBE32 nChild).
Proof.
  split_and!; [exact (CHMAC_spec _ ok256 key ds)|exact (CHMAC_spec _ sha512_ok key ds)|]. pose proof (CHMAC_spec _ sha512_ok key [[header]; data; WriteBE32 nChild]) as E. cbn [concat app] in E. rewrite app_nil_r in E. exact E.
Qed.

(** The key derivation is that of RFC 5869 with an output of 32 bytes; a
    longer [info] than 128 bytes fails the assertion. *)
Theorem HKDF_correct (ikm salt info : list Z) :
  Expand32 (new_CHKDF ikm salt) info = if decide (length info <= 128)%nat then Some (hkdf_expand (hkdf_extract salt ikm) info 32) else None.
Proof.
  assert (P : new_CHKDF ikm salt = hkdf_extract salt ikm) by (pose proof (CHMAC_spec _ ok256 salt [ikm]) as E; cbn [concat] in E; rewrite app_nil_r in E; exact E).
  rewrite P. unfold Expand32. destruct (Nat.leb_spec (length info) 128) as [Hi|Hi]; [rewrite decide_True by exact Hi|rewrite decide_False by lia; reflexivity]. f_equal.
  pose proof (CHMAC_spec _ ok256 (hkdf_extract salt ikm) [info; [1]]) as E. cbn [concat app fold_left] in E. unfold CHMAC_SHA256_Finalize, CHMAC_SHA256_Write, new_CHMAC_SHA256. rewrite E. unfold hkdf_expand. change ((32 + 31) / 32)%nat with 1%nat. cbn [hkdf_blocks app]. rewrite app_nil_r, take_ge; [reflexivity|]. unfold hmac. rewrite length_sha256. lia.
Qed.

(** Vectors: RFC 4231 case 2, and the double hash of nothing. *)
Example hmac_sha256_jefe : CHMAC_SHA256_Finalize (CHMAC_SHA256_Write (new_CHMAC_SHA256 (string_bytes "Jefe")) (string_bytes "what do ya want for nothing?")) =
  [0x5b; 0xdc; 0xc1; 0x46; 0xbf; 0x60; 0x75; 0x4e; 0x6a; 0x04; 0x24; 0x26; 0x08; 0x95; 0x75; 0xc7; 0x5a; 0x00; 0x3f; 0x08; 0x9d; 0x27; 0x39; 0x83; 0x9d; 0xec; 0x58; 0xb9; 0x64; 0xec; 0x38; 0x43].
Proof. vm_compute. reflexivity. Qed.
Example Hash_empty : Hash [] = [0x5d; 0xf6; 0xe0; 0xe2; 0x76; 0x13; 0x59; 0xd3; 0x0a; 0x82; 0x75; 0x05; 0x8e; 0x29; 0x9f; 0xcc; 0x03; 0x81; 0x53; 0x45; 0x45; 0xf5; 0x5c; 0xf4; 0x3e; 0x41; 0x98; 0x3f; 0x5d; 0x4c; 0x94; 0x56].
Proof. vm_compute. reflexivity. Qed.
Example Hash160_abc : Hash160 [97; 98; 99] = [0xbb; 0x1b; 0xe9; 0x8c; 0x14; 0x24; 0x44; 0xd7; 0xa5; 0x6a; 0xa3; 0x98; 0x1c; 0x39; 0x42; 0xa9; 0x78; 0xe4; 0xdc; 0x33].
Proof. vm_compute. reflexivity. Qed.
