(* ===== verification/Transport.v ===== *)
(** * Messages and transports

    The interface [Transport] of src/net.h, between a connection and the bytes
    on the wire, the messages it carries, and the message header of
    src/protocol.h and src/protocol.cpp.  Strings are lists of bytes. *)

From Stdlib Require Import ZArith Lia String.
From stdpp Require Import base numbers list strings.
From S2P Require Import Prelude Compact HashWriter Hashing.

Local Open Scope Z_scope.

Record CSerializedNetMsg : Type := { sm_data : list Z; sm_type : list Z }.

Record CNetMessage : Type := { m_recv : list Z; m_time : Z; m_message_size : Z; m_raw_message_size : Z; nm_type : list Z }.

(** What a transport offers to a connection.  [None] is a failed assertion;
    [ReceivedBytes] gives whether the bytes are valid and the bytes that are
    left; [GetReceivedMessage] also whether the message is to be rejected;
    [GetBytesToSend] the bytes, whether there will be more, and the type. *)
Class Transport (T : Type) : Type := {
  ReceivedMessageComplete : T -> bool;
  ReceivedBytes : T -> list Z -> option (bool * T * list Z);
  GetReceivedMessage : T -> Z -> option (CNetMessage * bool * T);
  SetMessageToSend : T -> CSerializedNetMsg -> option (bool * T);
  GetBytesToSend : T -> bool -> list Z * bool * list Z;
  MarkBytesSent : T -> nat -> T;
  GetSendMemoryUsage : T -> Z;
}.

(** ** Message headers *)

Definition COMMAND_SIZE : nat := 12.
Definition CHECKSUM_SIZE : nat := 4.
Definition MESSAGE_START_SIZE : nat := 4.
Definition HEADER_SIZE : nat := MESSAGE_START_SIZE + COMMAND_SIZE + 4 + CHECKSUM_SIZE.

Record CMessageHeader : Type := { pchMessageStart : list Z; pchCommand : list Z; nMessageSize : Z; pchChecksum : list Z }.

Definition no_header : CMessageHeader := {| pchMessageStart := replicate MESSAGE_START_SIZE 0; pchCommand := replicate COMMAND_SIZE 0; nMessageSize := 2 ^ 32 - 1; pchChecksum := replicate CHECKSUM_SIZE 0 |}.

(** The bytes before the first zero, at most [n]; a string ends in a zero. *)
Fixpoint strnlen (s : list Z) (n : nat) : nat :=
  match n, s with S n, c :: s => if c =? 0 then 0%nat else S (strnlen s n) | _, _ => 0%nat end.

Definition new_CMessageHeader (start pszCommand : list Z) (size : Z) : option CMessageHeader :=
  let i := strnlen pszCommand COMMAND_SIZE in
  if nth i pszCommand 0 =? 0 then
    Some {| pchMessageStart := start; pchCommand := take i pszCommand ++ replicate (COMMAND_SIZE - i) 0; nMessageSize := u32 size; pchChecksum := replicate CHECKSUM_SIZE 0 |}
  else None.

Definition GetCommand (h : CMessageHeader) : list Z := take (strnlen (pchCommand h) COMMAND_SIZE) (pchCommand h).

(** Bytes above 127 are rejected whether [char] is signed or not. *)
Fixpoint command_valid (p1 : list Z) : bool :=
  match p1 with
  | [] => true
  | c :: rest => if c =? 0 then forallb (fun c => c =? 0) (c :: rest) else if (c <? 32) || (0x7e <? c) then false else command_valid rest
  end.
Definition IsCommandValid (h : CMessageHeader) : bool := command_valid (pchCommand h).

Definition Serialize_header (h : CMessageHeader) : list Z := pchMessageStart h ++ pchCommand h ++ WriteLE32 (nMessageSize h) ++ pchChecksum h.
Definition Unserialize_header (s : list Z) : option (CMessageHeader * list Z) :=
  if (length s <? HEADER_SIZE)%nat then None
  else Some ({| pchMessageStart := take 4 s; pchCommand := take 12 (drop 4 s); nMessageSize := ReadLE32 (drop 16 s); pchChecksum := take 4 (drop 20 s) |}, drop HEADER_SIZE s).

(** ** Proofs on headers *)

(** A type that can be sent: printable, and short enough. *)
Definition valid_type (t : list Z) : Prop := (length t <= COMMAND_SIZE)%nat /\ Forall (fun c => 32 <= c <= 0x7e) t.
#[global] Instance valid_type_dec t : Decision (valid_type t).
Proof. unfold valid_type. apply _. Defined.

Lemma strnlen_type t : forall n, Forall (fun c => 32 <= c <= 0x7e) t -> (length t <= n)%nat -> forall k, strnlen (t ++ replicate k 0) n = length t.
Proof.
  induction t as [|c t IH]; intros n Ht Hn k; [destruct n, k; reflexivity|]. apply Forall_cons_1 in Ht as [Hc Ht]. destruct n as [|n]; [cbn in Hn; lia|]. cbn [app strnlen length] in *. destruct (Z.eqb_spec c 0); [lia|]. rewrite IH by (auto; lia). reflexivity.
Qed.
Lemma command_valid_type t k : Forall (fun c => 32 <= c <= 0x7e) t -> command_valid (t ++ replicate k 0) = true.
Proof.
  induction 1 as [|c t Hc Ht IH]; cbn [app].
  - destruct k as [|k]; [reflexivity|]. cbn [replicate command_valid Z.eqb]. apply forallb_forall. intros x Hx. apply Z.eqb_eq. destruct Hx as [<-|Hx]; [reflexivity|]. apply list_elem_of_In, elem_of_replicate in Hx as [-> _]. reflexivity.
  - cbn [command_valid]. destruct (Z.eqb_spec c 0); [lia|]. destruct (Z.ltb_spec c 32); [lia|]. destruct (Z.ltb_spec 0x7e c); [lia|]. exact IH.
Qed.

Lemma new_header_spec start t size : valid_type t ->
  new_CMessageHeader start t size = Some {| pchMessageStart := start; pchCommand := t ++ replicate (COMMAND_SIZE - length t) 0; nMessageSize := u32 size; pchChecksum := replicate CHECKSUM_SIZE 0 |}.
Proof.
  intros [Hl Ht]. unfold new_CMessageHeader. pose proof (strnlen_type t COMMAND_SIZE Ht Hl 0) as E. cbn [replicate] in E. rewrite app_nil_r in E. rewrite E, nth_overflow by lia. cbn [Z.eqb]. rewrite take_ge by lia. reflexivity.
Qed.
Lemma header_command start t size sum : valid_type t ->
  let h := {| pchMessageStart := start; pchCommand := t ++ replicate (COMMAND_SIZE - length t) 0; nMessageSize := size; pchChecksum := sum |} in
  GetCommand h = t /\ IsCommandValid h = true.
Proof.
  intros [Hl Ht]. unfold GetCommand, IsCommandValid. cbn [pchCommand]. rewrite strnlen_type, take_app_length by assumption. split; [reflexivity|]. apply command_valid_type, Ht.
Qed.

Definition header_shape (h : CMessageHeader) : Prop := length (pchMessageStart h) = 4%nat /\ length (pchCommand h) = 12%nat /\ in_u 32 (nMessageSize h) /\ length (pchChecksum h) = 4%nat.

Lemma length_WriteLE32 x : length (WriteLE32 x) = 4%nat.
Proof. apply le_digits_length. Qed.
Lemma ReadLE32_write x l : in_u 32 x -> ReadLE32 (WriteLE32 x ++ l) = x.
Proof. intros Hx. unfold ReadLE32. rewrite take_app_length' by (symmetry; apply length_WriteLE32). unfold WriteLE32. rewrite le_val_digits by lia. apply Z.mod_small. exact Hx. Qed.

Lemma header_round_trip h l : header_shape h -> length (Serialize_header h) = HEADER_SIZE /\ Unserialize_header (Serialize_header h ++ l) = Some (h, l).
Proof.
  intros (Hs & Hc & Hn & Hk). assert (L : length (Serialize_header h) = HEADER_SIZE) by (unfold Serialize_header; rewrite !length_app, Hs, Hc, Hk, length_WriteLE32; reflexivity). split; [exact L|].
  unfold Unserialize_header. rewrite length_app, L. replace (HEADER_SIZE + length l <? HEADER_SIZE)%nat with false by (symmetry; apply Nat.ltb_ge; lia). rewrite (drop_app_length' (Serialize_header h) l HEADER_SIZE) by (symmetry; exact L). unfold Serialize_header. rewrite <- !app_assoc.
  change 20%nat with (4 + (12 + 4))%nat. change 16%nat with (4 + 12)%nat. rewrite <- !drop_drop.
  rewrite (take_app_length' _ _ 4), !(drop_app_length' _ _ 4) by (symmetry; assumption). rewrite (take_app_length' _ _ 12), !(drop_app_length' _ _ 12) by (symmetry; assumption). rewrite ReadLE32_write by exact Hn. rewrite (drop_app_length' _ _ 4) by (symmetry; apply length_WriteLE32). rewrite (take_app_length' _ _ 4) by (symmetry; exact Hk). destruct h. reflexivity.
Qed.
