(* ===== verification/V1Transport.v ===== *)
(** * The first transport

    Models [V1Transport] of src/net.h and src/net.cpp: the parser of headers and
    payloads, fed with bytes as they come, and the sender.  The two halves of the
    state are under two locks and are two records here. *)

From Stdlib Require Import ZArith Lia String.
From stdpp Require Import base numbers list strings.
From S2P Require Import Prelude Compact HashWriter Sha256 Hashing Transport.

Local Open Scope Z_scope.

Definition MAX_PROTOCOL_MESSAGE_LENGTH : Z := 4 * 1000 * 1000.
Definition MAX_SIZE : Z := 0x02000000.

Record V1Recv : Type := {
  hasher : CHash256;
  data_hash : list Z;
  in_data : bool;
  hdrbuf : list Z;
  hdr : CMessageHeader;
  vRecv : list Z;
  nHdrPos : Z;
  nDataPos : Z;
}.
Record V1Send : Type := {
  m_header_to_send : list Z;
  m_message_to_send : CSerializedNetMsg;
  m_sending_header : bool;
  m_bytes_sent : Z;
}.
Record V1Transport : Type := { m_magic_bytes : list Z; v1_recv : V1Recv; v1_send : V1Send }.

Definition null_hash : list Z := replicate 32 0.

Definition V1_Reset (r : V1Recv) : V1Recv := {|
  vRecv := []; hdrbuf := replicate 24 0; in_data := false; nHdrPos := 0; nDataPos := 0; data_hash := null_hash; hasher := CHash256_Reset (hasher r); hdr := hdr r |}.

Definition new_V1Transport (magic : list Z) : V1Transport := {|
  m_magic_bytes := magic;
  v1_recv := V1_Reset {| vRecv := []; hdrbuf := []; in_data := false; nHdrPos := 0; nDataPos := 0; data_hash := null_hash; hasher := new_CSHA256; hdr := no_header |};
  v1_send := {| m_header_to_send := []; m_message_to_send := {| sm_data := []; sm_type := [] |}; m_sending_header := false; m_bytes_sent := 0 |};
|}.

Definition CompleteInternal (r : V1Recv) : bool := if in_data r then nMessageSize (hdr r) =? nDataPos r else false.

(** The result is the number of bytes taken, or negative. *)
Definition readHeader (magic : list Z) (r : V1Recv) (msg_bytes : list Z) : Z * V1Recv :=
  let nRemaining := u32 (Z.of_nat HEADER_SIZE - nHdrPos r) in
  let nCopy := Z.min nRemaining (u32 (Z.of_nat (length msg_bytes))) in
  let r := {| hasher := hasher r; data_hash := data_hash r; in_data := in_data r; hdr := hdr r; vRecv := vRecv r; nDataPos := nDataPos r;
    hdrbuf := copy_at (Z.to_nat (nHdrPos r)) (take (Z.to_nat nCopy) msg_bytes) (hdrbuf r); nHdrPos := u32 (nHdrPos r + nCopy) |} in
  if nHdrPos r <? Z.of_nat HEADER_SIZE then (nCopy, r)
  else match Unserialize_header (hdrbuf r) with
  | None => (-1, r)
  | Some (h, rest) =>
      let r := {| hasher := hasher r; data_hash := data_hash r; in_data := in_data r; hdr := h; vRecv := vRecv r; nDataPos := nDataPos r; hdrbuf := rest; nHdrPos := nHdrPos r |} in
      if negb (bool_decide (pchMessageStart h = magic)) then (-1, r)
      else if (MAX_SIZE <? nMessageSize h) || (MAX_PROTOCOL_MESSAGE_LENGTH <? nMessageSize h) then (-1, r)
      else (nCopy, {| hasher := hasher r; data_hash := data_hash r; in_data := true; hdr := hdr r; vRecv := vRecv r; nDataPos := nDataPos r; hdrbuf := hdrbuf r; nHdrPos := nHdrPos r |})
  end.

Definition readData (r : V1Recv) (msg_bytes : list Z) : Z * V1Recv :=
  let nRemaining := u32 (nMessageSize (hdr r) - nDataPos r) in
  let nCopy := Z.min nRemaining (u32 (Z.of_nat (length msg_bytes))) in
  let buf := if Z.of_nat (length (vRecv r)) <? u32 (nDataPos r + nCopy) then resize (Z.to_nat (Z.min (nMessageSize (hdr r)) (u32 (nDataPos r + nCopy + 256 * 1024)))) 0 (vRecv r) else vRecv r in
  let data := take (Z.to_nat nCopy) msg_bytes in
  (nCopy, {| hasher := CHash256_Write (hasher r) data; data_hash := data_hash r; in_data := in_data r; hdr := hdr r; hdrbuf := hdrbuf r; nHdrPos := nHdrPos r;
    vRecv := copy_at (Z.to_nat (nDataPos r)) data buf; nDataPos := u32 (nDataPos r + nCopy) |}).

Definition V1_ReceivedBytes (magic : list Z) (r : V1Recv) (msg_bytes : list Z) : bool * V1Recv * list Z :=
  let '(ret, r) := if in_data r then readData r msg_bytes else readHeader magic r msg_bytes in
  if ret <? 0 then (false, V1_Reset r, msg_bytes) else (true, r, drop (Z.to_nat ret) msg_bytes).

Definition GetMessageHash (r : V1Recv) : option (list Z * V1Recv) :=
  if CompleteInternal r then
    if bool_decide (data_hash r = null_hash) then
      let '(h, hs) := CHash256_Finalize (hasher r) in
      Some (h, {| hasher := hs; data_hash := h; in_data := in_data r; hdr := hdr r; hdrbuf := hdrbuf r; nHdrPos := nHdrPos r; vRecv := vRecv r; nDataPos := nDataPos r |})
    else Some (data_hash r, r)
  else None.

Definition V1_GetReceivedMessage (r : V1Recv) (time : Z) : option (CNetMessage * bool * V1Recv) :=
  let msg := {| m_recv := vRecv r; nm_type := GetCommand (hdr r); m_time := time; m_message_size := nMessageSize (hdr r); m_raw_message_size := u32 (nMessageSize (hdr r) + Z.of_nat HEADER_SIZE) |} in
  '(hash, r) ← GetMessageHash r;
  let reject_message :=
    if negb (bool_decide (take CHECKSUM_SIZE hash = pchChecksum (hdr r))) then true
    else if negb (IsCommandValid (hdr r)) then true else false in
  Some (msg, reject_message, V1_Reset r).

Definition V1_SetMessageToSend (magic : list Z) (s : V1Send) (msg : CSerializedNetMsg) : option (bool * V1Send) :=
  if m_sending_header s || (m_bytes_sent s <? Z.of_nat (length (sm_data (m_message_to_send s)))) then Some (false, s)
  else
    let hash := Hash (sm_data msg) in
    h ← new_CMessageHeader magic (sm_type msg) (Z.of_nat (length (sm_data msg)));
    let h := {| pchMessageStart := pchMessageStart h; pchCommand := pchCommand h; nMessageSize := nMessageSize h; pchChecksum := take CHECKSUM_SIZE hash |} in
    Some (true, {| m_header_to_send := Serialize_header h; m_message_to_send := msg; m_sending_header := true; m_bytes_sent := 0 |}).

Definition V1_GetBytesToSend (s : V1Send) (have_next_message : bool) : list Z * bool * list Z :=
  let sent := Z.to_nat (m_bytes_sent s) in
  let msg := m_message_to_send s in
  if m_sending_header s then (drop sent (m_header_to_send s), have_next_message || negb (bool_decide (sm_data msg = [])), sm_type msg)
  else (drop sent (sm_data msg), have_next_message, sm_type msg).

Definition V1_MarkBytesSent (s : V1Send) (bytes_sent : nat) : V1Send :=
  let s := {| m_header_to_send := m_header_to_send s; m_message_to_send := m_message_to_send s; m_sending_header := m_sending_header s; m_bytes_sent := u64 (m_bytes_sent s + Z.of_nat bytes_sent) |} in
  if m_sending_header s && (m_bytes_sent s =? Z.of_nat (length (m_header_to_send s))) then
    {| m_header_to_send := m_header_to_send s; m_message_to_send := m_message_to_send s; m_sending_header := false; m_bytes_sent := 0 |}
  else if negb (m_sending_header s) && (m_bytes_sent s =? Z.of_nat (length (sm_data (m_message_to_send s)))) then
    {| m_header_to_send := m_header_to_send s; m_message_to_send := {| sm_data := []; sm_type := sm_type (m_message_to_send s) |}; m_sending_header := m_sending_header s; m_bytes_sent := 0 |}
  else s.

Section V1.
(** [CSerializedNetMsg::GetMemoryUsage] asks the allocator. *)
Context (GetMemoryUsage : CSerializedNetMsg -> Z).

Definition V1_GetSendMemoryUsage (s : V1Send) : Z := GetMemoryUsage (m_message_to_send s).

Definition V1_is_Transport : Transport V1Transport := {|
  ReceivedMessageComplete t := CompleteInternal (v1_recv t);
  ReceivedBytes t bs := let '(ok, r, rest) := V1_ReceivedBytes (m_magic_bytes t) (v1_recv t) bs in Some (ok, {| m_magic_bytes := m_magic_bytes t; v1_recv := r; v1_send := v1_send t |}, rest);
  GetReceivedMessage t time := '(msg, reject, r) ← V1_GetReceivedMessage (v1_recv t) time; Some (msg, reject, {| m_magic_bytes := m_magic_bytes t; v1_recv := r; v1_send := v1_send t |});
  SetMessageToSend t msg := '(ok, s) ← V1_SetMessageToSend (m_magic_bytes t) (v1_send t) msg; Some (ok, {| m_magic_bytes := m_magic_bytes t; v1_recv := v1_recv t; v1_send := s |});
  GetBytesToSend t more := V1_GetBytesToSend (v1_send t) more;
  MarkBytesSent t n := {| m_magic_bytes := m_magic_bytes t; v1_recv := v1_recv t; v1_send := V1_MarkBytesSent (v1_send t) n |};
  GetSendMemoryUsage t := V1_GetSendMemoryUsage (v1_send t);
|}.
End V1.
