(* ===== verification/NetNode.v ===== *)
(** * Connections

    Models the part of [CNode] and [CConnman] of src/net.h and src/net.cpp that
    moves messages between their queues, a transport and a socket:
    [ReceiveMsgBytes], [MarkReceivedMsgsForProcessing], [PollMessage],
    [PushMessage], [SocketSendData], the choice of events to wait for, one round
    of [SocketHandlerConnected] for a node, and the accounting of traffic.  The
    state is cut into the parts that one lock guards each.  What a socket
    answers is an argument. *)

From Stdlib Require Import ZArith Lia String.
From stdpp Require Import base numbers list strings gmap.
From S2P Require Import Prelude Hashing Transport.

Local Open Scope Z_scope.

(** What [Sock::Send] and [Sock::Recv] answer; an error is fatal or one to try
    again after. *)
Inductive SendResult : Type := Sent (n : nat) | SendError (fatal : bool).
Inductive RecvResult : Type := Received (bytes : list Z) | SockClosed | RecvError (fatal : bool).

Definition NET_MESSAGE_TYPE_OTHER : list Z := string_bytes "*other*".
Definition getAllNetMessageTypes : list (list Z) := map string_bytes [
  "version"; "verack"; "addr"; "addrv2"; "sendaddrv2"; "inv"; "getdata"; "merkleblock"; "getblocks"; "getheaders"; "tx"; "headers"; "block"; "getaddr"; "mempool"; "ping"; "pong";
  "notfound"; "filterload"; "filteradd"; "filterclear"; "sendheaders"; "feefilter"; "sendcmpct"; "cmpctblock"; "getblocktxn"; "blocktxn"; "getcfilters"; "cfilter"; "getcfheaders";
  "cfheaders"; "getcfcheckpt"; "cfcheckpt"; "wtxidrelay"; "sendtxrcncl"]%string.

(** Under [cs_vRecv], [cs_vSend] and [m_msg_process_queue_mutex]. *)
Record NodeRecv : Type := { vRecvMsg : list CNetMessage; mapRecvBytesPerMsgType : gmap (list Z) Z; nRecvBytes : Z; m_last_recv : Z }.
Record NodeSend : Type := { vSendMsg : list CSerializedNetMsg; m_send_memusage : Z; mapSendBytesPerMsgType : gmap (list Z) Z; nSendBytes : Z; m_last_send : Z; fPauseSend : bool }.
Record NodeQueue : Type := { m_msg_process_queue : list CNetMessage; m_msg_process_queue_size : Z; fPauseRecv : bool }.

Record CNode (T : Type) : Type := { m_transport : T; node_recv : NodeRecv; node_send : NodeSend; node_queue : NodeQueue; m_sock : bool; fDisconnect : bool; m_recv_flood_size : Z; m_connected : Z; fSuccessfullyConnected : bool }.
Arguments m_transport {T}. Arguments node_recv {T}. Arguments node_send {T}. Arguments node_queue {T}. Arguments m_sock {T}. Arguments fDisconnect {T}. Arguments m_recv_flood_size {T}. Arguments m_connected {T}. Arguments fSuccessfullyConnected {T}.

Definition new_recv_map : gmap (list Z) Z := <[NET_MESSAGE_TYPE_OTHER := 0]> (foldl (fun m t => <[t := 0]> m) ∅ getAllNetMessageTypes).
Definition new_CNode {T} (t : T) (flood_size time : Z) : CNode T := {|
  m_transport := t; node_recv := {| vRecvMsg := []; mapRecvBytesPerMsgType := new_recv_map; nRecvBytes := 0; m_last_recv := 0 |};
  node_send := {| vSendMsg := []; m_send_memusage := 0; mapSendBytesPerMsgType := ∅; nSendBytes := 0; m_last_send := 0; fPauseSend := false |};
  node_queue := {| m_msg_process_queue := []; m_msg_process_queue_size := 0; fPauseRecv := false |}; m_sock := true; fDisconnect := false; m_recv_flood_size := flood_size; m_connected := time; fSuccessfullyConnected := false |}.

(** ** Accounting of traffic *)

Definition MAX_UPLOAD_TIMEFRAME : Z := 60 * 60 * 24.
Definition MAX_BLOCK_SERIALIZED_SIZE : Z := 4000000.
Definition TIMEOUT_INTERVAL : Z := 20 * 60.

Record Traffic : Type := { nTotalBytesRecv : Z; nTotalBytesSent : Z; nMaxOutboundTotalBytesSentInCycle : Z; nMaxOutboundCycleStartTime : Z; nMaxOutboundLimit : Z }.

Definition RecordBytesRecv (c : Traffic) (bytes : Z) : Traffic :=
  {| nTotalBytesRecv := u64 (nTotalBytesRecv c + bytes); nTotalBytesSent := nTotalBytesSent c; nMaxOutboundTotalBytesSentInCycle := nMaxOutboundTotalBytesSentInCycle c; nMaxOutboundCycleStartTime := nMaxOutboundCycleStartTime c; nMaxOutboundLimit := nMaxOutboundLimit c |}.
Definition RecordBytesSent (c : Traffic) (now bytes : Z) : Traffic :=
  let expired := nMaxOutboundCycleStartTime c + MAX_UPLOAD_TIMEFRAME <? now in
  {| nTotalBytesRecv := nTotalBytesRecv c; nTotalBytesSent := u64 (nTotalBytesSent c + bytes); nMaxOutboundCycleStartTime := if expired then now else nMaxOutboundCycleStartTime c;
     nMaxOutboundTotalBytesSentInCycle := u64 ((if expired then 0 else nMaxOutboundTotalBytesSentInCycle c) + bytes); nMaxOutboundLimit := nMaxOutboundLimit c |}.
Definition GetMaxOutboundTimeLeftInCycle_ (c : Traffic) (now : Z) : Z :=
  if nMaxOutboundLimit c =? 0 then 0
  else if nMaxOutboundCycleStartTime c =? 0 then MAX_UPLOAD_TIMEFRAME
  else let cycleEndTime := nMaxOutboundCycleStartTime c + MAX_UPLOAD_TIMEFRAME in if cycleEndTime <? now then 0 else cycleEndTime - now.
Definition OutboundTargetReached (c : Traffic) (now : Z) (historicalBlockServingLimit : bool) : bool :=
  if nMaxOutboundLimit c =? 0 then false
  else if historicalBlockServingLimit then
    let buffer := u64 (Z.quot (GetMaxOutboundTimeLeftInCycle_ c now) (10 * 60) * MAX_BLOCK_SERIALIZED_SIZE) in
    (nMaxOutboundLimit c <=? buffer) || (u64 (nMaxOutboundLimit c - buffer) <=? nMaxOutboundTotalBytesSentInCycle c)
  else nMaxOutboundLimit c <=? nMaxOutboundTotalBytesSentInCycle c.
Definition GetOutboundTargetBytesLeft (c : Traffic) : Z :=
  if nMaxOutboundLimit c =? 0 then 0
  else if nMaxOutboundLimit c <=? nMaxOutboundTotalBytesSentInCycle c then 0 else nMaxOutboundLimit c - nMaxOutboundTotalBytesSentInCycle c.

Section Node.
Context {T : Type} {HT : Transport T} (GetMemoryUsage : CSerializedNetMsg -> Z).
Implicit Types n : CNode T.

Definition with_transport n (t : T) : CNode T :=
  {| m_transport := t; node_recv := node_recv n; node_send := node_send n; node_queue := node_queue n; m_sock := m_sock n; fDisconnect := fDisconnect n; m_recv_flood_size := m_recv_flood_size n; m_connected := m_connected n; fSuccessfullyConnected := fSuccessfullyConnected n |}.
Definition with_recv n (r : NodeRecv) : CNode T :=
  {| m_transport := m_transport n; node_recv := r; node_send := node_send n; node_queue := node_queue n; m_sock := m_sock n; fDisconnect := fDisconnect n; m_recv_flood_size := m_recv_flood_size n; m_connected := m_connected n; fSuccessfullyConnected := fSuccessfullyConnected n |}.
Definition with_send n (s : NodeSend) : CNode T :=
  {| m_transport := m_transport n; node_recv := node_recv n; node_send := s; node_queue := node_queue n; m_sock := m_sock n; fDisconnect := fDisconnect n; m_recv_flood_size := m_recv_flood_size n; m_connected := m_connected n; fSuccessfullyConnected := fSuccessfullyConnected n |}.
Definition with_queue n (q : NodeQueue) : CNode T :=
  {| m_transport := m_transport n; node_recv := node_recv n; node_send := node_send n; node_queue := q; m_sock := m_sock n; fDisconnect := fDisconnect n; m_recv_flood_size := m_recv_flood_size n; m_connected := m_connected n; fSuccessfullyConnected := fSuccessfullyConnected n |}.
Definition set_disconnect n (sock : bool) : CNode T :=
  {| m_transport := m_transport n; node_recv := node_recv n; node_send := node_send n; node_queue := node_queue n; m_sock := sock; fDisconnect := true; m_recv_flood_size := m_recv_flood_size n; m_connected := m_connected n; fSuccessfullyConnected := fSuccessfullyConnected n |}.
Definition CloseSocketDisconnect n : CNode T := set_disconnect n false.

(** ** Receiving *)

(** [None] is a failed assertion, an exception, or fuel that is used up. *)
Definition account_recv (m : gmap (list Z) Z) (key : list Z) (raw : Z) : option (gmap (list Z) Z) := count ← m !! key; Some (<[key := u64 (count + raw)]> m).
Definition known_type (m : gmap (list Z) Z) (type : list Z) : list Z := match m !! type with Some _ => type | None => NET_MESSAGE_TYPE_OTHER end.

Fixpoint receive_loop (fuel : nat) (time : Z) n (msg_bytes : list Z) (complete : bool) : option (bool * bool * CNode T) :=
  match msg_bytes with
  | [] => Some (true, complete, n)
  | _ =>
      match fuel with
      | O => None
      | S fuel =>
          '(ok, t, rest) ← ReceivedBytes (m_transport n) msg_bytes;
          let n := with_transport n t in
          if negb (ok : bool) then Some (false, complete, n)
          else if ReceivedMessageComplete t then
            '(msg, reject_message, t) ← GetReceivedMessage t time;
            let n := with_transport n t in
            let r := node_recv n in
            if reject_message : bool then
              m ← account_recv (mapRecvBytesPerMsgType r) NET_MESSAGE_TYPE_OTHER (m_raw_message_size msg);
              receive_loop fuel time (with_recv n {| vRecvMsg := vRecvMsg r; mapRecvBytesPerMsgType := m; nRecvBytes := nRecvBytes r; m_last_recv := m_last_recv r |}) rest complete
            else
              m ← account_recv (mapRecvBytesPerMsgType r) (known_type (mapRecvBytesPerMsgType r) (nm_type msg)) (m_raw_message_size msg);
              receive_loop fuel time (with_recv n {| vRecvMsg := vRecvMsg r ++ [msg]; mapRecvBytesPerMsgType := m; nRecvBytes := nRecvBytes r; m_last_recv := m_last_recv r |}) rest true
          else receive_loop fuel time n rest complete
      end
  end.

Definition ReceiveMsgBytes n (time : Z) (msg_bytes : list Z) : option (bool * bool * CNode T) :=
  let r := node_recv n in
  receive_loop (length msg_bytes) time
    (with_recv n {| vRecvMsg := vRecvMsg r; mapRecvBytesPerMsgType := mapRecvBytesPerMsgType r; nRecvBytes := u64 (nRecvBytes r + Z.of_nat (length msg_bytes)); m_last_recv := Z.quot time 1000000 |})
    msg_bytes false.

Definition MarkReceivedMsgsForProcessing n : CNode T :=
  let r := node_recv n in let q := node_queue n in
  let nSizeAdded := foldl (fun s msg => u64 (s + m_raw_message_size msg)) 0 (vRecvMsg r) in
  let size := u64 (m_msg_process_queue_size q + nSizeAdded) in
  with_queue (with_recv n {| vRecvMsg := []; mapRecvBytesPerMsgType := mapRecvBytesPerMsgType r; nRecvBytes := nRecvBytes r; m_last_recv := m_last_recv r |})
    {| m_msg_process_queue := m_msg_process_queue q ++ vRecvMsg r; m_msg_process_queue_size := size; fPauseRecv := m_recv_flood_size n <? size |}.

Definition PollMessage n : option (CNetMessage * bool) * CNode T :=
  let q := node_queue n in
  match m_msg_process_queue q with
  | [] => (None, n)
  | msg :: rest =>
      let size := u64 (m_msg_process_queue_size q - m_raw_message_size msg) in
      (Some (msg, negb (bool_decide (length rest = 0%nat))), with_queue n {| m_msg_process_queue := rest; m_msg_process_queue_size := size; fPauseRecv := m_recv_flood_size n <? size |})
  end.

(** ** Sending *)

Definition is_empty {A} (l : list A) : bool := match l with [] => true | _ => false end.

(** The variables of the loop: the node, the messages from [it] on, what was sent
    so far, [data_left], [expected_more], whether every [Assume] held, and the
    bytes that the socket took, for the peer to read. *)
Record SendLoop : Type := { sl_node : CNode T; sl_it : list CSerializedNetMsg; nSentSize : Z; data_left : bool; expected_more : option bool; assumed : bool; sl_out : list Z }.

Definition account_sent (m : gmap (list Z) Z) (type : list Z) (bytes : Z) : gmap (list Z) Z := <[type := u64 (default 0 (m !! type) + bytes)]> m.

(** The first step of the loop: a message goes to the transport, if it can. *)
Definition hand_over n (it : list CSerializedNetMsg) : option (CNode T * list CSerializedNetMsg) :=
  match it with
  | [] => Some (n, it)
  | msg :: rest =>
      '(ok, t) ← SetMessageToSend (m_transport n) msg;
      let n := with_transport n t in
      let s := node_send n in
      if ok : bool then
        Some (with_send n {| vSendMsg := vSendMsg s; m_send_memusage := u64 (m_send_memusage s - GetMemoryUsage msg); mapSendBytesPerMsgType := mapSendBytesPerMsgType s; nSendBytes := nSendBytes s; m_last_send := m_last_send s; fPauseSend := fPauseSend s |}, rest)
      else Some (n, it)
  end.

Definition mark_sent n (now : Z) (type : list Z) (nBytes : nat) : CNode T :=
  let s := node_send n in
  with_send (with_transport n (MarkBytesSent (m_transport n) nBytes))
    {| vSendMsg := vSendMsg s; m_send_memusage := m_send_memusage s; nSendBytes := u64 (nSendBytes s + Z.of_nat nBytes); m_last_send := now; fPauseSend := fPauseSend s;
       mapSendBytesPerMsgType := if is_empty type then mapSendBytesPerMsgType s else account_sent (mapSendBytesPerMsgType s) type (Z.of_nat nBytes) |}.

(** The variables after a round in which [sent] bytes of [data] were sent. *)
Definition round_end (l : SendLoop) n (it : list CSerializedNetMsg) (data : list Z) (more : bool) (sent : nat) : SendLoop :=
  {| sl_node := n; sl_it := it; nSentSize := u64 (nSentSize l + Z.of_nat sent); data_left := negb (is_empty data); expected_more := Some more;
     assumed := assumed l && match expected_more l with Some e => Bool.eqb (negb (is_empty data)) e | None => true end; sl_out := sl_out l ++ take sent data |}.

Fixpoint send_loop (fuel : nat) (sock : nat -> list Z -> bool -> SendResult) (now : Z) (call : nat) (l : SendLoop) : option SendLoop :=
  match fuel with
  | O => None
  | S fuel =>
      '(n, it) ← hand_over (sl_node l) (sl_it l);
      let '(data, more, msg_type) := GetBytesToSend (m_transport n) (negb (is_empty it)) in
      let l' (n : CNode T) (sent : nat) := round_end l n it data more sent in
      if is_empty data then Some (l' n 0%nat)
      else if negb (m_sock n) then Some (l' n 0%nat)
      else match sock call data more with
      | Sent O => Some (l' n 0%nat)
      | Sent nBytes =>
          let n := mark_sent n now msg_type nBytes in
          if (nBytes =? length data)%nat then send_loop fuel sock now (S call) (l' n nBytes) else Some (l' n nBytes)
      | SendError fatal => Some (l' (if fatal then CloseSocketDisconnect n else n) 0%nat)
      end
  end.

Definition set_queue n (nSendBufferMaxSize : Z) (it : list CSerializedNetMsg) : CNode T :=
  let s := node_send n in
  with_send n {| vSendMsg := it; m_send_memusage := m_send_memusage s; mapSendBytesPerMsgType := mapSendBytesPerMsgType s; nSendBytes := nSendBytes s; m_last_send := m_last_send s;
    fPauseSend := nSendBufferMaxSize <? u64 (m_send_memusage s + GetSendMemoryUsage (m_transport n)) |}.

(** The number of bytes sent, whether data is left, whether each [Assume] held,
    the node, and the bytes that the socket took. *)
Record SendData : Type := { sd_sent : Z; sd_left : bool; sd_assumed : bool; sd_node : CNode T; sd_out : list Z }.
Definition SocketSendData (nSendBufferMaxSize : Z) (sock : nat -> list Z -> bool -> SendResult) (now : Z) n : option SendData :=
  let queue := vSendMsg (node_send n) in
  l ← send_loop (2 * length queue + 3) sock now 0 {| sl_node := n; sl_it := queue; nSentSize := 0; data_left := false; expected_more := None; assumed := true; sl_out := [] |};
  if is_empty (sl_it l) && negb (m_send_memusage (node_send (sl_node l)) =? 0) then None
  else Some {| sd_sent := nSentSize l; sd_left := data_left l; sd_assumed := assumed l; sd_node := set_queue (sl_node l) nSendBufferMaxSize (sl_it l); sd_out := sl_out l |}.

Definition PushMessage (nSendBufferMaxSize : Z) (sock : nat -> list Z -> bool -> SendResult) (now : Z) n (msg : CSerializedNetMsg) (c : Traffic) : option (CNode T * Traffic * list Z) :=
  let '(to_send, more, _) := GetBytesToSend (m_transport n) true in
  let s := node_send n in
  let queue_was_empty := is_empty to_send && is_empty (vSendMsg s) in
  let usage := u64 (m_send_memusage s + GetMemoryUsage msg) in
  let n := with_send n {| vSendMsg := vSendMsg s ++ [msg]; m_send_memusage := usage; mapSendBytesPerMsgType := mapSendBytesPerMsgType s; nSendBytes := nSendBytes s; m_last_send := m_last_send s;
    fPauseSend := if nSendBufferMaxSize <? u64 (usage + GetSendMemoryUsage (m_transport n)) then true else fPauseSend s |} in
  if queue_was_empty && more then
    d ← SocketSendData nSendBufferMaxSize sock now n;
    Some (sd_node d, if sd_sent d =? 0 then c else RecordBytesSent c now (sd_sent d), sd_out d)
  else Some (n, c, []).

(** ** Events *)

(** The events [GenerateWaitSockets] waits for: to receive, to send. *)
Definition wait_events n : bool * bool :=
  let '(to_send, more, _) := GetBytesToSend (m_transport n) (negb (is_empty (vSendMsg (node_send n)))) in
  if m_sock n then (negb (fPauseRecv (node_queue n)), negb (is_empty to_send) || more) else (false, false).

Definition ShouldRunInactivityChecks (m_peer_connect_timeout : Z) n (now : Z) : bool := m_connected n + m_peer_connect_timeout <? now.
Definition InactivityCheck (m_peer_connect_timeout : Z) n (now : Z) : bool :=
  let last_send := m_last_send (node_send n) in
  let last_recv := m_last_recv (node_recv n) in
  if negb (ShouldRunInactivityChecks m_peer_connect_timeout n now) then false
  else if (last_recv =? 0) || (last_send =? 0) then true
  else if last_send + TIMEOUT_INTERVAL <? now then true
  else if last_recv + TIMEOUT_INTERVAL <? now then true
  else negb (fSuccessfullyConnected n).

(** The receiving half of [SocketHandlerConnected]; [time] is in microseconds. *)
Definition handle_recv n (time : Z) (res : RecvResult) (c : Traffic) : option (CNode T * Traffic) :=
  match res with
  | Received [] | SockClosed => Some (CloseSocketDisconnect n, c)
  | Received bytes =>
      '(ok, notify, n) ← ReceiveMsgBytes n time bytes;
      let n := if ok : bool then n else CloseSocketDisconnect n in
      Some (if notify : bool then MarkReceivedMsgsForProcessing n else n, RecordBytesRecv c (Z.of_nat (length bytes)))
  | RecvError fatal => Some (if fatal then CloseSocketDisconnect n else n, c)
  end.

(** One node in [SocketHandlerConnected], with the events that occurred. *)
Definition SocketHandlerConnected (nSendBufferMaxSize m_peer_connect_timeout : Z) (sock : nat -> list Z -> bool -> SendResult) (time : Z) n (recvSet sendSet errorSet : bool) (res : RecvResult) (c : Traffic) : option (CNode T * Traffic * list Z) :=
  let now := Z.quot time 1000000 in
  if negb (m_sock n) then Some (n, c, [])
  else
    '(n, c, recvSet, out) ←
      (if sendSet then
        d ← SocketSendData nSendBufferMaxSize sock now n;
        Some (if sd_sent d =? 0 then (sd_node d, c, recvSet, sd_out d) else (sd_node d, RecordBytesSent c now (sd_sent d), if sd_left d then false else recvSet, sd_out d))
      else Some (n, c, recvSet, []));
    if (recvSet || errorSet) && negb (m_sock n) then Some (n, c, out)
    else
      '(n, c) ← (if (recvSet || errorSet : bool) then handle_recv n time res c else Some (n, c));
      Some (if InactivityCheck m_peer_connect_timeout n now then set_disconnect n (m_sock n) else n, c, out).

(** ** The loop, one round at a time *)

Lemma receive_loop_step fuel time n l complete : l <> [] ->
  receive_loop (S fuel) time n l complete =
  '(ok, t, rest) ← ReceivedBytes (m_transport n) l;
  let n := with_transport n t in
  if negb (ok : bool) then Some (false, complete, n)
  else if ReceivedMessageComplete t then
    '(msg, reject_message, t) ← GetReceivedMessage t time;
    let n := with_transport n t in
    let r := node_recv n in
    if reject_message : bool then
      m ← account_recv (mapRecvBytesPerMsgType r) NET_MESSAGE_TYPE_OTHER (m_raw_message_size msg);
      receive_loop fuel time (with_recv n {| vRecvMsg := vRecvMsg r; mapRecvBytesPerMsgType := m; nRecvBytes := nRecvBytes r; m_last_recv := m_last_recv r |}) rest complete
    else
      m ← account_recv (mapRecvBytesPerMsgType r) (known_type (mapRecvBytesPerMsgType r) (nm_type msg)) (m_raw_message_size msg);
      receive_loop fuel time (with_recv n {| vRecvMsg := vRecvMsg r ++ [msg]; mapRecvBytesPerMsgType := m; nRecvBytes := nRecvBytes r; m_last_recv := m_last_recv r |}) rest true
  else receive_loop fuel time n rest complete.
Proof. destruct l; [contradiction|reflexivity]. Qed.
End Node.
