(* ===== verification/V1Channel.v ===== *)
(** * The first transport and the connections over it

    The parser against a specification on the whole stream, sending over any
    transport that keeps its promises, and the two halves together. *)

From Stdlib Require Import ZArith Lia String.
From stdpp Require Import base numbers list strings gmap.
From S2P Require Import Prelude Compact HashWriter Sha256 Sha256Proofs Hashing Transport V1Transport NetNode.

Local Open Scope Z_scope.

(** * Receiving over the first transport

    The parser of [V1Transport] against a specification on the whole stream of
    bytes: whatever the pieces in which the stream comes, the connection gets
    the messages that the stream holds, and keeps only what belongs to the
    message that is not complete yet. *)

(** ** The stream *)

Definition header_of (s : list Z) : CMessageHeader := {| pchMessageStart := take 4 s; pchCommand := take 12 (drop 4 s); nMessageSize := ReadLE32 (drop 16 s); pchChecksum := take 4 (drop 20 s) |}.
Definition header_ok (magic : list Z) (h : CMessageHeader) : Prop := pchMessageStart h = magic /\ nMessageSize h <= MAX_PROTOCOL_MESSAGE_LENGTH.
Definition payload_size (s : list Z) : nat := Z.to_nat (nMessageSize (header_of s)).

(** A message is good when its checksum and its type are. *)
Definition good_message (h : CMessageHeader) (payload : list Z) : bool := bool_decide (take 4 (double_hash payload) = pchChecksum h) && IsCommandValid h.
Definition message_of (h : CMessageHeader) (payload : list Z) : CSerializedNetMsg * bool := ({| sm_data := payload; sm_type := GetCommand h |}, good_message h payload).

(** The messages of a stream, with whether each is good, and the bytes after
    the last; [None] when a header is bad. *)
Inductive parses (magic : list Z) : list Z -> list (CSerializedNetMsg * bool) -> option (list Z) -> Prop :=
  | parses_short s : (length s < 24)%nat -> parses magic s [] (Some s)
  | parses_partial s : (24 <= length s)%nat -> header_ok magic (header_of s) -> (length s < 24 + payload_size s)%nat -> parses magic s [] (Some s)
  | parses_bad s : (24 <= length s)%nat -> ~ header_ok magic (header_of s) -> parses magic s [] None
  | parses_message s ms e : (24 + payload_size s <= length s)%nat -> header_ok magic (header_of s) -> parses magic (drop (24 + payload_size s) s) ms e ->
      parses magic s (message_of (header_of s) (take (payload_size s) (drop 24 s)) :: ms) e.

Definition accepted (ms : list (CSerializedNetMsg * bool)) : list CSerializedNetMsg := omap (fun m : CSerializedNetMsg * bool => if m.2 then Some m.1 else None) ms.

Lemma header_of_app s l : (24 <= length s)%nat -> header_of (s ++ l) = header_of s.
Proof.
  intros Hs. unfold header_of, ReadLE32. rewrite !drop_app_le by lia. rewrite !take_app_le by (rewrite ?length_drop; lia). reflexivity.
Qed.
Lemma payload_size_app s l : (24 <= length s)%nat -> payload_size (s ++ l) = payload_size s.
Proof. intros Hs. unfold payload_size. rewrite header_of_app by exact Hs. reflexivity. Qed.

Lemma Unserialize_header_of s : (24 <= length s)%nat -> Unserialize_header s = Some (header_of s, drop 24 s).
Proof. intros Hs. unfold Unserialize_header. change HEADER_SIZE with 24%nat. replace (length s <? 24)%nat with false by (symmetry; apply Nat.ltb_ge; lia). reflexivity. Qed.

(** ** The state of the parser *)

(** The bytes of [p] came since the last message: less than a header, or a good
    header and some of its payload. *)
Record in_header (r : V1Recv) (p : list Z) : Prop := {
  ih_len : (length p < 24)%nat;
  ih_in : in_data r = false;
  ih_buf : length (hdrbuf r) = 24%nat;
  ih_take : take (length p) (hdrbuf r) = p;
  ih_pos : nHdrPos r = Z.of_nat (length p);
  ih_data : nDataPos r = 0;
  ih_recv : vRecv r = [];
  ih_null : data_hash r = null_hash;
  ih_hash : has_taken sha256 (hasher r) [];
}.
Record in_payload (magic : list Z) (r : V1Recv) (p : list Z) : Prop := {
  ip_len : (24 <= length p <= 24 + payload_size p)%nat;
  ip_in : in_data r = true;
  ip_hdr : hdr r = header_of p;
  ip_ok : header_ok magic (header_of p);
  ip_nonneg : 0 <= nMessageSize (header_of p);
  ip_pos : nDataPos r = Z.of_nat (length p - 24);
  ip_take : take (length p - 24) (vRecv r) = drop 24 p;
  ip_room : (length p - 24 <= length (vRecv r) <= payload_size p)%nat;
  ip_bound : Z.of_nat (length (vRecv r)) <= Z.of_nat (length p - 24) + 256 * 1024;
  ip_null : data_hash r = null_hash;
  ip_hash : has_taken sha256 (hasher r) (drop 24 p);
}.
Definition V1_at (magic : list Z) (r : V1Recv) (p : list Z) : Prop := in_header r p \/ in_payload magic r p /\ (length p < 24 + payload_size p)%nat.

Lemma sha_buf sha m : has_taken sha256 sha m -> has_taken sha256 (CHash256_Reset sha) [].
Proof. exact (Reset_taken sha256 sha256_ok sha m). Qed.

Lemma Reset_at r m : has_taken sha256 (hasher r) m -> in_header (V1_Reset r) [].
Proof. intros T. split; try reflexivity; [cbn; lia|]. exact (sha_buf _ _ T). Qed.

Lemma length_copy_at k d b : (k + length d <= length b)%nat -> length (copy_at k d b) = length b.
Proof. intros H. unfold copy_at. rewrite !length_app, length_take, length_drop. lia. Qed.
Lemma take_copy_at k d b : (k + length d <= length b)%nat -> take (k + length d) (copy_at k d b) = take k b ++ d.
Proof. intros H. unfold copy_at. rewrite app_assoc, take_app_length'; [reflexivity|]. rewrite length_app, length_take. lia. Qed.

Lemma u32_small n : 0 <= n < 2 ^ 32 -> u32 n = n.
Proof. apply uwrap_small. Qed.

Definition wire_ok (l : list Z) : Prop := Forall (in_u 8) l.

Section Parser.
Context (magic : list Z).

Lemma header_size_range s : wire_ok s -> 0 <= nMessageSize (header_of s) < 2 ^ 32.
Proof.
  intros Hw. cbn [header_of nMessageSize]. unfold ReadLE32. pose proof (le_val_bound 8 (take 4 (drop 16 s)) ltac:(lia) ltac:(apply Forall_take, Forall_drop, Hw)) as Hb. split; [apply Hb|]. eapply Z.lt_le_trans; [apply Hb|]. apply Z.pow_le_mono_r; [lia|]. rewrite length_take. lia.
Qed.

Lemma readHeader_spec r p l : in_header r p -> wire_ok p -> wire_ok l -> l <> [] -> Z.of_nat (length l) < 2 ^ 32 ->
  let k := Nat.min (24 - length p) (length l) in
  exists ret r', readHeader magic r l = (ret, r') /\ hasher r' = hasher r /\
    ((length (p ++ take k l) < 24)%nat /\ ret = Z.of_nat k /\ in_header r' (p ++ take k l) \/
     length (p ++ take k l) = 24%nat /\ header_ok magic (header_of (p ++ take k l)) /\ ret = Z.of_nat k /\ in_payload magic r' (p ++ take k l) \/
     length (p ++ take k l) = 24%nat /\ ~ header_ok magic (header_of (p ++ take k l)) /\ ret = -1).
Proof.
  intros IH Wp Wl Hl Hsz k. pose proof (ih_len _ _ IH) as Hp. assert (Hpos : (0 < length l)%nat) by (destruct l; [contradiction|cbn; lia]). assert (Hlt : length (take k l) = k) by (rewrite length_take; lia).
  unfold readHeader. change (Z.of_nat HEADER_SIZE) with 24. rewrite (ih_pos _ _ IH). rewrite (u32_small (24 - Z.of_nat (length p))), (u32_small (Z.of_nat (length l))) by lia.
  assert (Ek : Z.min (24 - Z.of_nat (length p)) (Z.of_nat (length l)) = Z.of_nat k) by lia. rewrite Ek, !Nat2Z.id. rewrite u32_small by lia. cbn [nHdrPos hdrbuf hasher data_hash in_data hdr vRecv nDataPos].
  set (buf := copy_at (length p) (take k l) (hdrbuf r)). assert (Hfit : (length p + length (take k l) <= length (hdrbuf r))%nat) by (rewrite (ih_buf _ _ IH); lia). assert (Lb : length buf = 24%nat) by (unfold buf; rewrite length_copy_at by exact Hfit; apply (ih_buf _ _ IH)).
  assert (Tb : take (length (p ++ take k l)) buf = p ++ take k l) by (rewrite length_app; unfold buf; rewrite take_copy_at by exact Hfit; rewrite (ih_take _ _ IH); reflexivity).
  destruct (Z.ltb_spec (Z.of_nat (length p) + Z.of_nat k) 24) as [H24|H24].
  - eexists _, _. split; [reflexivity|]. cbn [hasher]. split; [reflexivity|]. left. split; [rewrite length_app; lia|]. split; [reflexivity|]. split; cbn [in_data hdrbuf nHdrPos nDataPos vRecv data_hash hasher]; try apply IH; [rewrite length_app; lia|exact Lb|exact Tb|rewrite length_app; lia].
  - assert (L24 : length (p ++ take k l) = 24%nat) by (rewrite length_app; lia). assert (Eb : buf = p ++ take k l) by (rewrite <- Tb, L24, take_ge by lia; reflexivity). rewrite Unserialize_header_of, Eb by lia. set (q := p ++ take k l) in *.
    assert (Wq : wire_ok q) by (apply Forall_app; split; [exact Wp|apply Forall_take, Wl]). pose proof (header_size_range q Wq) as Hrange.
    destruct (bool_decide_reflect (pchMessageStart (header_of q) = magic)) as [Hm|Hm]; cbn [negb]; [|eexists _, _; split; [reflexivity|]; split; [reflexivity|]; right; right; split; [exact L24|]; split; [|reflexivity]; intros [E _]; exact (Hm E)].
    destruct (Z.ltb_spec MAX_SIZE (nMessageSize (header_of q))) as [Hb|Hb]; cbn [orb].
    { eexists _, _. split; [reflexivity|]. split; [reflexivity|]. right. right. split; [exact L24|]. split; [|reflexivity]. intros [_ E]. unfold MAX_SIZE, MAX_PROTOCOL_MESSAGE_LENGTH in *. lia. }
    destruct (Z.ltb_spec MAX_PROTOCOL_MESSAGE_LENGTH (nMessageSize (header_of q))) as [Hx|Hx].
    { eexists _, _. split; [reflexivity|]. split; [reflexivity|]. right. right. split; [exact L24|]. split; [|reflexivity]. intros [_ E]. lia. }
    eexists _, _. split; [reflexivity|]. split; [reflexivity|]. right. left. split; [exact L24|]. split; [split; assumption|]. split; [reflexivity|].
    split; cbn [in_data hdr nDataPos vRecv data_hash hasher]; try reflexivity; try apply IH; try lia; rewrite ?L24, ?(ih_data _ _ IH), ?(ih_recv _ _ IH), ?drop_ge by lia; try reflexivity; [split; assumption|cbn; lia|cbn; lia|exact (ih_hash _ _ IH)].
Qed.

Lemma payload_small r p : in_payload magic r p -> Z.of_nat (payload_size p) <= 4000000 /\ nMessageSize (hdr r) = Z.of_nat (payload_size p).
Proof.
  intros I. pose proof (ip_nonneg _ _ _ I). destruct (ip_ok _ _ _ I) as [_ Hmax]. rewrite (ip_hdr _ _ _ I). unfold payload_size, MAX_PROTOCOL_MESSAGE_LENGTH in *. lia.
Qed.

Lemma readData_spec r p l : in_payload magic r p -> (length p < 24 + payload_size p)%nat -> l <> [] -> Z.of_nat (length l) < 2 ^ 32 ->
  let k := Nat.min (24 + payload_size p - length p) (length l) in
  exists r', readData r l = (Z.of_nat k, r') /\ in_payload magic r' (p ++ take k l).
Proof.
  intros I Hinc Hl Hsz k. pose proof (ip_len _ _ _ I) as Hlen. destruct (payload_small r p I) as [Hsmall Hsize]. assert (Hpos : (0 < length l)%nat) by (destruct l; [contradiction|cbn; lia]). assert (Hlt : length (take k l) = k) by (rewrite length_take; lia).
  pose proof (ip_room _ _ _ I) as Hroom. pose proof (ip_bound _ _ _ I) as Hbound. unfold readData. rewrite Hsize, (ip_pos _ _ _ I). set (S := payload_size p) in *. set (n := (length p - 24)%nat) in *. rewrite (u32_small (Z.of_nat S - Z.of_nat n)), (u32_small (Z.of_nat (length l))) by lia.
  assert (Ek : Z.min (Z.of_nat S - Z.of_nat n) (Z.of_nat (length l)) = Z.of_nat k) by lia. rewrite Ek, !Nat2Z.id. rewrite !u32_small by lia. eexists. split; [reflexivity|].
  set (buf := if Z.of_nat (length (vRecv r)) <? _ then _ else _). assert (Hbuf : (n + k <= length buf <= S)%nat /\ Z.of_nat (length buf) <= Z.of_nat (n + k) + 256 * 1024 /\ take n buf = drop 24 p).
  { unfold buf. destruct (Z.ltb_spec (Z.of_nat (length (vRecv r))) (Z.of_nat n + Z.of_nat k)); [rewrite length_resize|]; split_and?; try lia; [|exact (ip_take _ _ _ I)].
    rewrite take_resize_le by lia. rewrite resize_le by lia. exact (ip_take _ _ _ I). }
  destruct Hbuf as (Hb1 & Hb2 & Hb3). assert (Hfit : (n + length (take k l) <= length buf)%nat) by lia. assert (Hp24 : (24 <= length p)%nat) by lia. assert (En : (length (p ++ take k l) - 24)%nat = (n + k)%nat) by (rewrite length_app; lia).
  split; cbn [in_data hdr nDataPos vRecv data_hash hasher]; rewrite ?header_of_app, ?payload_size_app by exact Hp24; try apply I; rewrite ?En; try lia.
  - pose proof (take_copy_at n (take k l) buf Hfit) as Et. rewrite Hlt in Et. rewrite Et. rewrite Hb3, drop_app_le by exact Hp24. reflexivity.
  - rewrite length_copy_at by exact Hfit. fold S. lia.
  - rewrite length_copy_at by exact Hfit. exact Hb2.
  - rewrite drop_app_le by exact Hp24. exact (Write_taken sha256 sha256_ok _ _ _ (ip_hash _ _ _ I)).
Qed.

Lemma complete_spec r p : in_payload magic r p -> CompleteInternal r = bool_decide (length p = 24 + payload_size p)%nat.
Proof.
  intros I. unfold CompleteInternal. destruct (payload_small r p I) as [_ ->]. rewrite (ip_in _ _ _ I), (ip_pos _ _ _ I). pose proof (ip_len _ _ _ I). destruct (bool_decide_reflect (length p = 24 + payload_size p)%nat); [apply Z.eqb_eq|apply Z.eqb_neq]; lia.
Qed.

Lemma GetReceivedMessage_spec r p time : in_payload magic r p -> length p = (24 + payload_size p)%nat ->
  exists msg r', V1_GetReceivedMessage r time = Some (msg, negb (message_of (header_of p) (drop 24 p)).2, r') /\ in_header r' [] /\
    {| sm_data := m_recv msg; sm_type := nm_type msg |} = (message_of (header_of p) (drop 24 p)).1 /\ m_raw_message_size msg = Z.of_nat (length p) /\ m_time msg = time.
Proof.
  intros I Hc. unfold V1_GetReceivedMessage, GetMessageHash. rewrite (complete_spec r p I), bool_decide_true by exact Hc. rewrite (ip_null _ _ _ I), bool_decide_true by reflexivity.
  pose proof (CHash256_spec _ _ (ip_hash _ _ _ I)) as Eh. unfold CHash256_Finalize in *. destruct (Finalize_taken sha256 sha256_ok _ _ (ip_hash _ _ _ I)) as [m1 T1]. change (Finalize_ sha256) with CSHA256_Finalize in T1. destruct (CSHA256_Finalize (hasher r)) as [h1 sha1] eqn:E1. cbn [snd] in T1.
  pose proof (Write_taken sha256 sha256_ok _ _ h1 (Reset_taken sha256 sha256_ok _ _ T1)) as T2. change (Reset_ sha256) with CSHA256_Reset in T2. change (Write_ sha256) with CSHA256_Write in T2. destruct (Finalize_taken sha256 sha256_ok _ _ T2) as [m3 T3]. change (Finalize_ sha256) with CSHA256_Finalize in T3.
  destruct (CSHA256_Finalize (CSHA256_Write (CSHA256_Reset sha1) h1)) as [h2 sha2]. cbn [fst snd mbind option_bind hdr hasher] in *. subst h2. eexists _, _. split.
  - apply f_equal. apply (f_equal2 pair); [|reflexivity]. apply (f_equal2 pair); [reflexivity|]. unfold message_of, good_message. cbn [snd]. rewrite (ip_hdr _ _ _ I). change CHECKSUM_SIZE with 4%nat. destruct (bool_decide _); [|reflexivity]. cbn [negb andb]. destruct (IsCommandValid _); reflexivity.
  - split; [eapply Reset_at; exact T3|]. cbn [m_recv nm_type m_raw_message_size m_time]. destruct (payload_small r p I) as [Hs ->]. rewrite (ip_hdr _ _ _ I). unfold message_of. cbn [fst]. split_and!; [|change (Z.of_nat HEADER_SIZE) with 24; rewrite u32_small by lia; lia|reflexivity].
    f_equal. pose proof (ip_room _ _ _ I). rewrite <- (ip_take _ _ _ I), take_ge by lia. reflexivity.
Qed.
End Parser.

Section Loop.
Context (GetMemoryUsage : CSerializedNetMsg -> Z) (magic : list Z).
#[local] Instance V1_transport : Transport V1Transport := V1_is_Transport GetMemoryUsage.

Lemma V1_ReceivedBytes_spec r p l : V1_at magic r p -> wire_ok p -> wire_ok l -> l <> [] -> Z.of_nat (length l) < 2 ^ 32 ->
  exists k, (1 <= k <= length l)%nat /\
   ((exists r', V1_ReceivedBytes magic r l = (true, r', drop k l) /\ V1_at magic r' (p ++ take k l) /\ CompleteInternal r' = false) \/
    (exists r', V1_ReceivedBytes magic r l = (true, r', drop k l) /\ in_payload magic r' (p ++ take k l) /\ length (p ++ take k l) = (24 + payload_size (p ++ take k l))%nat /\ CompleteInternal r' = true) \/
    (exists r', V1_ReceivedBytes magic r l = (false, r', l) /\ (24 <= length (p ++ take k l))%nat /\ ~ header_ok magic (header_of (p ++ take k l)))).
Proof.
  intros A Wp Wl Hl Hsz. assert (Hpos : (0 < length l)%nat) by (destruct l; [contradiction|cbn; lia]).
  assert (Got : forall r' q, in_payload magic r' q -> V1_at magic r' q /\ CompleteInternal r' = false \/ length q = (24 + payload_size q)%nat /\ CompleteInternal r' = true).
  { intros r' q I. rewrite (complete_spec magic r' q I). destruct (decide (length q = 24 + payload_size q)%nat) as [E|E]; [right; rewrite bool_decide_true by exact E; auto|left]. rewrite bool_decide_false by exact E. split; [|reflexivity]. right. split; [exact I|]. pose proof (ip_len _ _ _ I). lia. }
  unfold V1_ReceivedBytes. destruct A as [A|[A Hinc]].
  - rewrite (ih_in _ _ A). destruct (readHeader_spec magic r p l A Wp Wl Hl Hsz) as (ret & r' & -> & _ & C). pose proof (ih_len _ _ A). set (k := Nat.min (24 - length p) (length l)) in *. exists k. split; [lia|]. destruct C as [(Hlt & -> & I)|[(H24 & Hok & -> & I)|(H24 & Hbad & ->)]].
    + left. exists r'. replace (Z.of_nat k <? 0) with false by (symmetry; apply Z.ltb_ge; lia). rewrite Nat2Z.id. split; [reflexivity|]. split; [left; exact I|]. unfold CompleteInternal. rewrite (ih_in _ _ I). reflexivity.
    + replace (Z.of_nat k <? 0) with false by (symmetry; apply Z.ltb_ge; lia). rewrite Nat2Z.id. destruct (Got _ _ I) as [[C1 C2]|[C1 C2]]; [left|right; left]; eauto.
    + right. right. eexists. split; [reflexivity|]. split; [lia|exact Hbad].
  - rewrite (ip_in _ _ _ A). destruct (readData_spec magic r p l A Hinc Hl Hsz) as (r' & -> & I). set (k := Nat.min _ (length l)) in *. exists k. split; [lia|]. replace (Z.of_nat k <? 0) with false by (symmetry; apply Z.ltb_ge; lia). rewrite Nat2Z.id. destruct (Got _ _ I) as [[C1 C2]|[C1 C2]]; [left|right; left]; eauto.
Qed.

Lemma V1_at_waits r p : V1_at magic r p -> parses magic p [] (Some p).
Proof. intros [A|[A Hp]]; [apply parses_short, A|]. pose proof (ip_len _ _ _ A). apply parses_partial; [lia|exact (ip_ok _ _ _ A)|exact Hp]. Qed.

(** The counts of received bytes. *)
Definition counts_ok (m : gmap (list Z) Z) : Prop := is_Some (m !! NET_MESSAGE_TYPE_OTHER).
Lemma account_recv_known m t raw : counts_ok m -> exists m', account_recv m (known_type m t) raw = Some m' /\ counts_ok m'.
Proof.
  intros Hm. unfold account_recv, known_type. destruct (m !! t) as [c|] eqn:E; [rewrite E|destruct Hm as [c Hc]; rewrite Hc]; cbn [mbind option_bind]; eexists; (split; [reflexivity|]); unfold counts_ok; rewrite lookup_insert; case_decide; eauto; exact Hm.
Qed.
Lemma account_recv_other m raw : counts_ok m -> exists m', account_recv m NET_MESSAGE_TYPE_OTHER raw = Some m' /\ counts_ok m'.
Proof. intros [c Hc]. unfold account_recv. rewrite Hc. cbn [mbind option_bind]. eexists. split; [reflexivity|]. unfold counts_ok. rewrite lookup_insert. case_decide; eauto. Qed.

Definition content (m : CNetMessage) : CSerializedNetMsg := {| sm_data := m_recv m; sm_type := nm_type m |}.

(** What receiving leaves alone. *)
Definition same_rest (n n' : CNode V1Transport) : Prop :=
  v1_send (m_transport n') = v1_send (m_transport n) /\ m_magic_bytes (m_transport n') = m_magic_bytes (m_transport n) /\ node_send n' = node_send n /\ node_queue n' = node_queue n /\ m_sock n' = m_sock n /\ fDisconnect n' = fDisconnect n /\
  m_recv_flood_size n' = m_recv_flood_size n /\ m_connected n' = m_connected n /\ fSuccessfullyConnected n' = fSuccessfullyConnected n.
Lemma same_rest_trans n1 n2 n3 : same_rest n1 n2 -> same_rest n2 n3 -> same_rest n1 n3.
Proof. unfold same_rest. intros A B. decompose [and] A. decompose [and] B. repeat split; congruence. Qed.

(** A node whose parser has taken [p]. *)
Record node_at (n : CNode V1Transport) (p : list Z) : Prop := {
  na_magic : m_magic_bytes (m_transport n) = magic;
  na_parser : V1_at magic (v1_recv (m_transport n)) p;
  na_counts : counts_ok (mapRecvBytesPerMsgType (node_recv n));
}.

Lemma receive_loop_spec fuel : forall time n p l complete, node_at n p -> wire_ok p -> wire_ok l -> (length l <= fuel)%nat -> Z.of_nat (length l) < 2 ^ 32 ->
  exists ms e n', parses magic (p ++ l) ms e /\ receive_loop fuel time n l complete = Some (bool_decide (is_Some e), complete || negb (is_empty (accepted ms)), n') /\
    map content (vRecvMsg (node_recv n')) = map content (vRecvMsg (node_recv n)) ++ accepted ms /\ same_rest n n' /\ (forall p', e = Some p' -> node_at n' p' /\ wire_ok p').
Proof.
  induction fuel as [|fuel IH]; intros time n p l complete A Wp Wl Hf Hsz.
  - assert (l = []) as -> by (destruct l; [reflexivity|cbn in Hf; lia]). exists [], (Some p), n. rewrite app_nil_r. split; [exact (V1_at_waits _ _ (na_parser _ _ A))|]. cbn [receive_loop accepted omap list_omap is_empty negb]. rewrite orb_false_r, app_nil_r. split; [reflexivity|]. split; [reflexivity|]. split; [repeat split|]. intros p' [= <-]. auto.
  - destruct (decide (l = [])) as [->|Hl].
    { exists [], (Some p), n. rewrite app_nil_r. split; [exact (V1_at_waits _ _ (na_parser _ _ A))|]. cbn [receive_loop accepted omap list_omap is_empty negb]. rewrite orb_false_r, app_nil_r. split; [reflexivity|]. split; [reflexivity|]. split; [repeat split|]. intros p' [= <-]. auto. }
    destruct (V1_ReceivedBytes_spec _ p l (na_parser _ _ A) Wp Wl Hl Hsz) as (k & Hk & C). set (q := p ++ take k l) in *. assert (Eq : p ++ l = q ++ drop k l) by (unfold q; rewrite <- app_assoc, take_drop; reflexivity). assert (Wq : wire_ok q) by (apply Forall_app; split; [exact Wp|apply Forall_take, Wl]). assert (Wd : wire_ok (drop k l)) by (apply Forall_drop, Wl).
    assert (Ld : (length (drop k l) <= fuel)%nat) by (rewrite length_drop; lia). assert (Sd : Z.of_nat (length (drop k l)) < 2 ^ 32) by (rewrite length_drop; lia). rewrite Eq.
    rewrite (receive_loop_step fuel time n l complete Hl). cbn [ReceivedBytes V1_transport V1_is_Transport ReceivedMessageComplete GetReceivedMessage]. rewrite (na_magic _ _ A). destruct C as [(r' & -> & At & Ec)|[(r' & -> & I & Hfull & Ec)|(r' & -> & H24 & Hbad)]]; cbn [negb v1_recv mbind option_bind].
    + rewrite Ec. destruct (IH time (with_transport n {| m_magic_bytes := magic; v1_recv := r'; v1_send := v1_send (m_transport n) |}) q (drop k l) complete) as (ms & e & n' & P & -> & M & R & N); try assumption; [split; [reflexivity|exact At|exact (na_counts _ _ A)]|].
      exists ms, e, n'. split; [exact P|]. split; [reflexivity|]. split; [exact M|]. split; [|exact N]. eapply same_rest_trans; [|exact R]. repeat split. symmetry. exact (na_magic _ _ A).
    + rewrite Ec. destruct (GetReceivedMessage_spec magic r' q time I Hfull) as (msg & r2 & -> & I2 & Em & _ & _). cbn [mbind option_bind v1_recv v1_send m_magic_bytes]. set (mo := message_of (header_of q) (drop 24 q)) in *.
      assert (Hp24 : (24 <= length q)%nat) by (pose proof (ip_len _ _ _ I); lia). assert (Step : forall ms e, parses magic (drop k l) ms e -> parses magic (q ++ drop k l) (mo :: ms) e).
      { intros ms e P. pose proof (parses_message magic (q ++ drop k l) ms e) as C. rewrite (header_of_app q _ Hp24), (payload_size_app q _ Hp24), drop_app_length' in C by (symmetry; exact Hfull). rewrite (drop_app_le q) in C by exact Hp24. rewrite (take_app_length' (drop 24 q)) in C by (rewrite length_drop; lia). apply C; [rewrite length_app; lia|exact (ip_ok _ _ _ I)|exact P]. }
      assert (Acc : forall ms, accepted (mo :: ms) = if mo.2 then mo.1 :: accepted ms else accepted ms) by (intros ms; unfold accepted; cbn [omap list_omap]; destruct (mo.2); reflexivity).
      destruct (mo.2) eqn:Eg; cbn [negb].
      * destruct (account_recv_known (mapRecvBytesPerMsgType (node_recv n)) (nm_type msg) (m_raw_message_size msg) (na_counts _ _ A)) as (m' & Em' & Cm). cbn [node_recv with_transport with_recv]. rewrite Em'. cbn [mbind option_bind].
        set (n1 := with_recv _ _). destruct (IH time n1 [] (drop k l) true) as (ms & e & n' & P & -> & M & R & N); try assumption; [split; [reflexivity|left; exact I2|exact Cm]|constructor|]. exists (mo :: ms), e, n'. rewrite Acc. split; [apply Step, P|]. cbn [is_empty negb]. rewrite orb_true_r. split; [reflexivity|].
        split; [rewrite M; cbn [n1 node_recv with_recv vRecvMsg]; rewrite map_app, <- app_assoc; f_equal; cbn [map app]; f_equal; exact Em|]. split; [|exact N]. eapply same_rest_trans; [|exact R]. repeat split. symmetry. exact (na_magic _ _ A).
      * destruct (account_recv_other (mapRecvBytesPerMsgType (node_recv n)) (m_raw_message_size msg) (na_counts _ _ A)) as (m' & Em' & Cm). cbn [node_recv with_transport with_recv]. rewrite Em'. cbn [mbind option_bind].
        set (n1 := with_recv _ _). destruct (IH time n1 [] (drop k l) complete) as (ms & e & n' & P & -> & M & R & N); try assumption; [split; [reflexivity|left; exact I2|exact Cm]|constructor|]. exists (mo :: ms), e, n'. rewrite Acc. split; [apply Step, P|]. split; [reflexivity|].
        split; [exact M|]. split; [|exact N]. eapply same_rest_trans; [|exact R]. repeat split. symmetry. exact (na_magic _ _ A).
    + exists [], None, (with_transport n {| m_magic_bytes := magic; v1_recv := r'; v1_send := v1_send (m_transport n) |}). split; [apply parses_bad; rewrite ?header_of_app by exact H24; [rewrite length_app; lia|exact Hbad]|]. cbn [accepted omap list_omap is_empty negb]. rewrite orb_false_r, app_nil_r. split; [reflexivity|]. split; [reflexivity|]. split; [repeat split; symmetry; exact (na_magic _ _ A)|discriminate].
Qed.
End Loop.

(** * Sending over a transport

    What a transport promises to the sending half of a connection
    ([SendingTransport]), and what [SocketSendData] and [PushMessage] make of
    it: the bytes that the socket took, those that the transport has not sent
    and the messages that wait are the messages pushed, in order; the loop ends;
    the assertion on the memory in use and the prediction of more data hold. *)

(** [unsent] is what is left to send of the messages handed over, [encode] a
    message on the wire, [pieces] how many times there is something to send,
    and [receiving] the half that sending leaves alone. *)
Class SendingTransport (T R : Type) {HT : Transport T} : Type := {
  sending_ok : T -> Prop;
  unsent : T -> list Z;
  pieces : T -> nat;
  receiving : T -> R;
  encode : CSerializedNetMsg -> list Z;
  sendable : CSerializedNetMsg -> Prop;
  encode_some m : sendable m -> encode m <> [];
  set_message t m : sending_ok t -> sendable m ->
    exists ok t', SetMessageToSend t m = Some (ok, t') /\ sending_ok t' /\ receiving t' = receiving t /\
      (ok = true /\ unsent t = [] /\ unsent t' = encode m /\ (pieces t' <= 2)%nat \/ ok = false /\ unsent t <> [] /\ t' = t);
  get_bytes t next : sending_ok t ->
    exists data rest, unsent t = data ++ rest /\ (data = [] -> rest = []) /\ (GetBytesToSend t next).1.1 = data /\ (GetBytesToSend t next).1.2 = next || negb (is_empty rest);
  mark_bytes t next k : sending_ok t -> (k <= length (GetBytesToSend t next).1.1)%nat ->
    sending_ok (MarkBytesSent t k) /\ unsent (MarkBytesSent t k) = drop k (unsent t) /\ receiving (MarkBytesSent t k) = receiving t /\
    (k = length (GetBytesToSend t next).1.1 -> k <> 0%nat -> pieces (MarkBytesSent t k) < pieces t)%nat;
  pieces_few t : sending_ok t -> (pieces t <= 2)%nat;
}.

(** Documented of [send]: it takes no more bytes than it is given. *)
Definition socket_ok (sock : nat -> list Z -> bool -> SendResult) : Prop := forall call data more n, sock call data more = Sent n -> (n <= length data)%nat.

Section Send.
Context {T R : Type} {HT : Transport T} {ST : SendingTransport T R} (GetMemoryUsage : CSerializedNetMsg -> Z).

Definition queued (ms : list CSerializedNetMsg) : list Z := concat (map encode ms).
Definition usage (ms : list CSerializedNetMsg) : Z := foldr (fun m s => GetMemoryUsage m + s) 0 ms.

(** The sending half of a node. *)
Record sender_ok (n : CNode T) (it : list CSerializedNetMsg) : Prop := {
  so_transport : sending_ok (m_transport n);
  so_sendable : Forall sendable it;
  so_usage : m_send_memusage (node_send n) = u64 (usage it);
}.

(** What sending leaves alone. *)
Definition same_receiver (n n' : CNode T) : Prop := receiving (m_transport n') = receiving (m_transport n) /\ node_recv n' = node_recv n /\ node_queue n' = node_queue n /\ (m_sock n = false -> m_sock n' = false).
Lemma same_receiver_trans n1 n2 n3 : same_receiver n1 n2 -> same_receiver n2 n3 -> same_receiver n1 n3.
Proof using. intros (A1 & A2 & A3 & A4) (B1 & B2 & B3 & B4). repeat split; try congruence. auto. Qed.

Lemma usage_app a b : usage (a ++ b) = usage a + usage b.
Proof using. induction a as [|m a IH]; [reflexivity|]. cbn [usage foldr app] in *. change (foldr _ 0 ?l) with (usage l) in *. lia. Qed.
Lemma usage_drop m it u : u = u64 (usage (m :: it)) -> u64 (u - GetMemoryUsage m) = u64 (usage it).
Proof using. intros ->. unfold uwrap. rewrite Zminus_mod_idemp_l. f_equal. cbn [usage foldr]. change (foldr _ 0 it) with (usage it). lia. Qed.

Lemma hand_over_spec n it : sender_ok n it ->
  exists n' it', hand_over GetMemoryUsage n it = Some (n', it') /\ sender_ok n' it' /\ same_receiver n n' /\
    unsent (m_transport n) ++ queued it = unsent (m_transport n') ++ queued it' /\ (exists k, it' = drop k it) /\
    (unsent (m_transport n') = [] -> it' = [] /\ unsent (m_transport n) = [] /\ it = []) /\ (pieces (m_transport n') + 2 * length it' <= pieces (m_transport n) + 2 * length it)%nat.
Proof using.
  intros [Ht Hs Hu]. destruct it as [|m it]; cbn [hand_over].
  - exists n, []. split; [reflexivity|]. split; [split; assumption|]. split; [repeat split; auto|]. split; [reflexivity|]. split; [exists 0%nat; reflexivity|]. auto.
  - apply Forall_cons_1 in Hs as [Hm Hs]. destruct (set_message (m_transport n) m Ht Hm) as (ok & t' & -> & Ht' & Hr & [(-> & Hun & Hen & Hp)|(-> & Hne & ->)]); cbn [mbind option_bind].
    + eexists _, it. split; [reflexivity|]. cbn [m_transport with_send with_transport node_send]. split; [split; [exact Ht'|exact Hs|exact (usage_drop m it _ Hu)]|]. split; [repeat split; auto|]. rewrite Hun, Hen. split; [reflexivity|]. split; [exists 1%nat; reflexivity|].
      split; [intros E; exfalso; exact (encode_some m Hm E)|]. cbn [length]. lia.
    + eexists _, (m :: it). split; [reflexivity|]. cbn [m_transport with_transport node_send]. split; [split; [exact Ht'|constructor; assumption|exact Hu]|]. split; [repeat split; auto|]. split; [reflexivity|]. split; [exists 0%nat; reflexivity|]. split; [intros E; contradiction|lia].
Qed.

(** What one round leaves to say about the rounds after it. *)
Definition has_more (n : CNode T) (it : list CSerializedNetMsg) : bool := negb (is_empty (unsent (m_transport n))) || negb (is_empty it).

Record loop_ok (l : SendLoop) : Prop := {
  lo_sender : sender_ok (sl_node l) (sl_it l);
  lo_assumed : assumed l = true;
  lo_sent : nSentSize l = u64 (Z.of_nat (length (sl_out l)));
}.
(** The stream, from the first byte the socket took to the last byte in the queue. *)
Definition stream (l : SendLoop) : list Z := sl_out l ++ unsent (m_transport (sl_node l)) ++ queued (sl_it l).

Lemma is_empty_app {A} (a b : list A) : is_empty (a ++ b) = is_empty a && is_empty b.
Proof using. destruct a; reflexivity. Qed.
Lemma is_empty_nil {A} (a : list A) : is_empty a = true <-> a = [].
Proof using. destruct a; split; (reflexivity || discriminate). Qed.

Lemma is_empty_drop {A} (a : list A) k : (k < length a)%nat -> is_empty (drop k a) = false.
Proof using. intros Hk. destruct (drop k a) eqn:E; [|reflexivity]. apply (f_equal length) in E. rewrite length_drop in E. cbn in E. lia. Qed.

Lemma has_more_round n it n' it' : unsent (m_transport n) ++ queued it = unsent (m_transport n') ++ queued it' -> (unsent (m_transport n') = [] -> it' = [] /\ unsent (m_transport n) = [] /\ it = []) -> has_more n it = negb (is_empty (unsent (m_transport n'))).
Proof using.
  intros E H. unfold has_more. destruct (unsent (m_transport n')) as [|x u].
  - destruct (H eq_refl) as (_ & -> & ->). reflexivity.
  - cbn [is_empty negb]. destruct (unsent (m_transport n)); [|reflexivity]. destruct it; [discriminate E|reflexivity].
Qed.

Lemma round_end_ok l n it data rest more k : loop_ok l -> (forall e, expected_more l = Some e -> e = negb (is_empty data)) -> (k <= length data)%nat ->
  sender_ok n it -> unsent (m_transport n) = drop k (data ++ rest) -> loop_ok (round_end l n it data more k) /\ stream (round_end l n it data more k) = sl_out l ++ (data ++ rest) ++ queued it.
Proof using.
  intros [So Ha Hs] He Hk Sn Hu. split.
  - split; [exact Sn| |]; cbn [round_end assumed nSentSize sl_out].
    + rewrite Ha. cbn [andb]. destruct (expected_more l) as [e|]; [|reflexivity]. rewrite (He e eq_refl). apply eqb_reflx.
    + rewrite Hs, length_app, length_take. unfold uwrap. rewrite Zplus_mod_idemp_l. f_equal. lia.
  - unfold stream. cbn [round_end sl_out sl_node sl_it]. rewrite Hu, drop_app_le, <- app_assoc by exact Hk. rewrite !app_assoc. do 2 f_equal. rewrite <- (take_drop k data) at 3. rewrite app_assoc. reflexivity.
Qed.

Lemma send_loop_spec sock now : socket_ok sock -> forall fuel call l, loop_ok l -> (forall e, expected_more l = Some e -> e = has_more (sl_node l) (sl_it l)) -> (pieces (m_transport (sl_node l)) + 2 * length (sl_it l) < fuel)%nat ->
  exists l', send_loop GetMemoryUsage fuel sock now call l = Some l' /\ loop_ok l' /\ same_receiver (sl_node l) (sl_node l') /\
    stream l' = stream l /\ (exists k, sl_it l' = drop k (sl_it l)) /\ data_left l' = negb (is_empty (unsent (m_transport (sl_node l')))).
Proof using.
  intros Hsock. induction fuel as [|fuel IH]; intros call l Hl Hmore Hf; [lia|]. cbn [send_loop]. destruct (hand_over_spec _ _ (lo_sender l Hl)) as (n & it & -> & Sn & Rn & Est & [j Ej] & Hemp & Hpc). cbn [mbind option_bind].
  destruct (get_bytes (m_transport n) (negb (is_empty it)) (so_transport _ _ Sn)) as (data & rest & Eu & Hd & E1 & E2). pose proof (fun k => mark_bytes (m_transport n) (negb (is_empty it)) k (so_transport _ _ Sn)) as Mk. destruct (GetBytesToSend (m_transport n) (negb (is_empty it))) as [[d more] ty]. cbn [fst snd] in *. subst d more.
  assert (Hde : is_empty (unsent (m_transport n)) = is_empty data) by (rewrite Eu, is_empty_app; destruct data; [rewrite Hd by reflexivity|]; reflexivity).
  assert (He : forall e, expected_more l = Some e -> e = negb (is_empty data)) by (intros e Ee; rewrite (Hmore e Ee), (has_more_round _ _ _ _ Est Hemp), Hde; reflexivity).
  assert (Stop : forall n' k, (k = 0 \/ k < length data)%nat -> sender_ok n' it -> same_receiver n n' -> unsent (m_transport n') = drop k (unsent (m_transport n)) -> let l' := round_end l n' it data (negb (is_empty it) || negb (is_empty rest)) k in
    loop_ok l' /\ same_receiver (sl_node l) (sl_node l') /\ stream l' = stream l /\ (exists k, sl_it l' = drop k (sl_it l)) /\ data_left l' = negb (is_empty (unsent (m_transport (sl_node l'))))).
  { intros n' k Hk Sn' Rn' Eu'; cbn zeta. destruct (round_end_ok l n' it data rest (negb (is_empty it) || negb (is_empty rest)) k Hl He ltac:(lia) Sn' ltac:(rewrite Eu', Eu; reflexivity)) as [L1 L2]. split; [exact L1|]. split; [exact (same_receiver_trans _ _ _ Rn Rn')|].
    split; [rewrite L2, <- Eu; unfold stream; rewrite Est; reflexivity|]. split; [exists j; exact Ej|]. cbn [round_end data_left sl_node]. rewrite Eu'. destruct Hk as [->|Hk]; [rewrite drop_0, Hde; reflexivity|]. rewrite Eu, drop_app_le, is_empty_app, is_empty_drop by lia. destruct data; [cbn in Hk; lia|reflexivity]. }
  assert (Same : forall n', m_transport n' = m_transport n -> node_send n' = node_send n -> node_recv n' = node_recv n -> node_queue n' = node_queue n -> (m_sock n = false -> m_sock n' = false) -> sender_ok n' it /\ same_receiver n n' /\ unsent (m_transport n') = drop 0 (unsent (m_transport n))).
  { intros n' A1 A2 A3 A4 A5. destruct Sn as [B1 B2 B3]. split; [split; [rewrite A1; exact B1|exact B2|rewrite A2; exact B3]|]. split; [repeat split; [rewrite A1; reflexivity|exact A3|exact A4|exact A5]|]. rewrite A1, drop_0. reflexivity. }
  destruct (Same n eq_refl eq_refl eq_refl eq_refl (fun E => E)) as (Sn0 & Rn0 & Eu0).
  destruct (is_empty data) eqn:Ed; [eexists; split; [reflexivity|apply Stop; auto]|]. destruct (m_sock n) eqn:Ems; cbn [negb]; [|eexists; split; [reflexivity|apply Stop; auto]].
  destruct (sock call data (negb (is_empty it) || negb (is_empty rest))) as [[|k]|fatal] eqn:Es.
  - eexists. split; [reflexivity|]. apply Stop; auto.
  - pose proof (Hsock _ _ _ _ Es) as Hk. destruct (Mk (S k) Hk) as (M1 & M2 & M3 & M4). set (n2 := mark_sent n now ty (S k)). assert (S2 : sender_ok n2 it) by (split; [exact M1|apply Sn|apply Sn]). assert (R2 : same_receiver n n2) by (repeat split; auto).
    destruct (Nat.eqb_spec (S k) (length data)) as [Ek2|Ek2]; [|eexists; split; [reflexivity|apply Stop; auto; lia]].
    destruct (round_end_ok l n2 it data rest (negb (is_empty it) || negb (is_empty rest)) (S k) Hl ltac:(rewrite Ed; exact He) Hk S2 ltac:(rewrite <- Eu; exact M2)) as [L1 L2]. destruct (IH (S call) _ L1) as (l' & E' & O' & R' & St' & [j' Ej'] & D').
    + intros e [= <-]. unfold has_more. cbn [round_end sl_node sl_it]. change (m_transport n2) with (MarkBytesSent (m_transport n) (S k)). rewrite M2, Eu, Ek2, drop_app_length. apply orb_comm.
    + cbn [round_end sl_node sl_it]. change (m_transport n2) with (MarkBytesSent (m_transport n) (S k)). specialize (M4 Ek2 ltac:(lia)). lia.
    + exists l'. split; [exact E'|]. split; [exact O'|]. split; [exact (same_receiver_trans _ _ _ Rn (same_receiver_trans _ _ _ R2 R'))|]. split; [rewrite St', L2, <- Eu; unfold stream; rewrite Est; reflexivity|]. split; [|exact D']. exists (j + j')%nat. rewrite Ej'. cbn [round_end sl_it]. rewrite Ej, drop_drop. reflexivity.
  - eexists. split; [reflexivity|]. destruct (Same (if fatal then CloseSocketDisconnect n else n)) as (S1 & R1 & U1); [destruct fatal; first [reflexivity|intros; assumption|discriminate]..|]. apply Stop; auto.
Qed.

(** A node that may push and send, and the bytes it still has to send. *)
Definition node_sends (n : CNode T) : Prop := sender_ok n (vSendMsg (node_send n)).
Definition pending (n : CNode T) : list Z := unsent (m_transport n) ++ queued (vSendMsg (node_send n)).

Lemma SocketSendData_spec max sock now n : socket_ok sock -> node_sends n ->
  exists d, SocketSendData GetMemoryUsage max sock now n = Some d /\ node_sends (sd_node d) /\ same_receiver n (sd_node d) /\ sd_out d ++ pending (sd_node d) = pending n /\
    sd_assumed d = true /\ sd_sent d = u64 (Z.of_nat (length (sd_out d))) /\ sd_left d = negb (is_empty (unsent (m_transport (sd_node d)))).
Proof using.
  intros Hsock Hn. unfold SocketSendData. set (l0 := {| sl_node := n; sl_it := _; nSentSize := 0; data_left := _; expected_more := _; assumed := _; sl_out := _ |}).
  destruct (send_loop_spec sock now Hsock (2 * length (vSendMsg (node_send n)) + 3) 0 l0) as (l & -> & [O1 O2 O3] & Rl & St & _ & D); [split; [exact Hn|reflexivity|reflexivity]|discriminate|cbn [l0 sl_node sl_it]; pose proof (pieces_few (m_transport n) (so_transport _ _ Hn)); lia|]. cbn [mbind option_bind].
  assert (Hz : is_empty (sl_it l) && negb (m_send_memusage (node_send (sl_node l)) =? 0) = false) by (rewrite (so_usage _ _ O1); destruct (sl_it l); reflexivity). rewrite Hz. eexists. split; [reflexivity|]. cbn [sd_node sd_out sd_assumed sd_sent sd_left]. split; [split; apply O1|]. split; [exact Rl|]. split; [exact St|]. split; [exact O2|]. split; [exact O3|exact D].
Qed.

Lemma PushMessage_spec max sock now n msg c : socket_ok sock -> node_sends n -> sendable msg ->
  exists n' c' out, PushMessage GetMemoryUsage max sock now n msg c = Some (n', c', out) /\ node_sends n' /\ same_receiver n n' /\ out ++ pending n' = pending n ++ encode msg.
Proof using.
  intros Hsock Hn Hm. unfold PushMessage. destruct (GetBytesToSend (m_transport n) true) as [[to_send more] ty]. set (n1 := with_send n _).
  assert (Sn1 : node_sends n1) by (destruct Hn as [H1 H2 H3]; split; cbn [n1 with_send m_transport node_send vSendMsg m_send_memusage]; [exact H1|apply Forall_app; auto|rewrite H3, usage_app; unfold uwrap; rewrite Zplus_mod_idemp_l; f_equal; cbn [usage foldr]; lia]).
  assert (P1 : pending n1 = pending n ++ encode msg) by (unfold pending, queued; cbn [n1 with_send m_transport node_send vSendMsg]; rewrite map_app, concat_app; cbn [map concat]; rewrite app_nil_r, app_assoc; reflexivity).
  destruct (is_empty to_send && is_empty (vSendMsg (node_send n)) && more).
  - destruct (SocketSendData_spec max sock now n1 Hsock Sn1) as (d & -> & Sd & Rd & E & _). cbn [mbind option_bind]. eexists _, _, _. split; [reflexivity|]. split; [exact Sd|]. split; [exact Rd|]. rewrite E. exact P1.
  - eexists _, _, _. split; [reflexivity|]. split; [exact Sn1|]. split; [repeat split; auto|exact P1].
Qed.
End Send.

(** * A channel over the first transport

    The sending half of [V1Transport] keeps the promises of a sending transport,
    and the two halves together: what one node pushes is what the other takes
    from its queue, in order and unchanged, whatever pieces the sockets take and
    give. *)

(** ** Messages on the wire *)

Definition wire_header (magic : list Z) (m : CSerializedNetMsg) : CMessageHeader :=
  {| pchMessageStart := magic; pchCommand := sm_type m ++ replicate (COMMAND_SIZE - length (sm_type m)) 0; nMessageSize := u32 (Z.of_nat (length (sm_data m))); pchChecksum := take 4 (double_hash (sm_data m)) |}.
Definition wire (magic : list Z) (m : CSerializedNetMsg) : list Z := Serialize_header (wire_header magic m) ++ sm_data m.

(** What can be sent: a printable type and at most as much data as is accepted. *)
Definition valid_message (m : CSerializedNetMsg) : Prop := valid_type (sm_type m) /\ Z.of_nat (length (sm_data m)) <= MAX_PROTOCOL_MESSAGE_LENGTH /\ wire_ok (sm_data m).
#[global] Instance valid_message_dec m : Decision (valid_message m).
Proof. unfold valid_message, wire_ok. apply _. Defined.
Definition magic_ok (magic : list Z) : Prop := length magic = 4%nat /\ wire_ok magic.

Lemma wire_header_shape magic m : magic_ok magic -> valid_message m -> header_shape (wire_header magic m).
Proof.
  intros [Hm _] [[Ht _] _]. repeat split; cbn [wire_header pchMessageStart pchCommand nMessageSize pchChecksum]; try exact Hm; try (apply Z.mod_pos_bound; lia).
  - rewrite length_app, length_replicate. unfold COMMAND_SIZE in *. lia.
  - rewrite length_take. unfold double_hash. rewrite length_sha256. reflexivity.
Qed.
Lemma wire_parts magic m rest : magic_ok magic -> valid_message m ->
  header_of (wire magic m ++ rest) = wire_header magic m /\ drop 24 (wire magic m ++ rest) = sm_data m ++ rest /\ payload_size (wire magic m ++ rest) = length (sm_data m) /\ length (wire magic m) = (24 + length (sm_data m))%nat.
Proof.
  intros Hm Hv. destruct (header_round_trip (wire_header magic m) (sm_data m ++ rest) (wire_header_shape magic m Hm Hv)) as [L E]. change HEADER_SIZE with 24%nat in L. assert (Lw : length (wire magic m) = (24 + length (sm_data m))%nat) by (unfold wire; rewrite length_app, L; reflexivity).
  rewrite Unserialize_header_of in E by (rewrite length_app; lia). apply (inj Some) in E. apply pair_equal_spec in E as [E1 E2]. rewrite app_assoc in E1, E2. split; [exact E1|]. split; [exact E2|]. split; [|exact Lw]. unfold payload_size. fold (wire magic m) in E1. rewrite E1. cbn [wire_header nMessageSize]. destruct Hv as (_ & Hs & _). unfold MAX_PROTOCOL_MESSAGE_LENGTH in Hs. rewrite u32_small by lia. lia.
Qed.

Lemma parses_wire magic m rest ms e : magic_ok magic -> valid_message m -> parses magic rest ms e -> parses magic (wire magic m ++ rest) ((m, true) :: ms) e.
Proof.
  intros Hm Hv P. destruct (wire_parts magic m rest Hm Hv) as (E1 & E2 & E3 & E4). pose proof (parses_message magic (wire magic m ++ rest) ms e) as C. rewrite E1, E2, E3 in C. rewrite take_app_length, drop_app_length' in C by (symmetry; exact E4).
  assert (Mo : message_of (wire_header magic m) (sm_data m) = (m, true)).
  { destruct Hv as (Ht & Hs & _). unfold message_of, good_message. destruct (header_command magic (sm_type m) (u32 (Z.of_nat (length (sm_data m)))) (take 4 (double_hash (sm_data m))) Ht) as [G1 G2]. fold (wire_header magic m) in G1, G2. rewrite G1, G2. cbn [wire_header pchChecksum]. rewrite bool_decide_true by reflexivity. destruct m. reflexivity. }
  rewrite Mo in C. apply C; [rewrite length_app; lia| |exact P]. destruct Hv as (_ & Hs & _). split; [reflexivity|]. cbn [wire_header nMessageSize]. unfold MAX_PROTOCOL_MESSAGE_LENGTH in *. rewrite u32_small by lia. exact Hs.
Qed.
Lemma parses_wires magic ms : magic_ok magic -> Forall valid_message ms -> parses magic (concat (map (wire magic) ms)) (map (fun m => (m, true)) ms) (Some []).
Proof. intros Hm. induction 1 as [|m ms Hv _ IH]; cbn [map concat]; [apply parses_short; cbn; lia|]. apply parses_wire; assumption. Qed.

(** A stream has one parse, and more bytes only add to it. *)
Lemma parses_fun magic s ms e : parses magic s ms e -> forall ms' e', parses magic s ms' e' -> ms' = ms /\ e' = e.
Proof.
  induction 1 as [s H|s H1 H2 H3|s H1 H2|s ms e H1 H2 P IH]; intros ms' e' Q; inversion Q; subst; try (exfalso; first [lia|contradiction]); auto.
  match goal with HP : parses _ (drop _ _) _ _ |- _ => destruct (IH _ _ HP) as [-> ->] end. auto.
Qed.
Lemma parses_app magic s ms e : parses magic s ms e -> forall b, match e with Some p => forall ms2 e2, parses magic (p ++ b) ms2 e2 -> parses magic (s ++ b) (ms ++ ms2) e2 | None => parses magic (s ++ b) ms None end.
Proof.
  induction 1 as [s H|s H1 H2 H3|s H1 H2|s ms e H1 H2 P IH]; intros b.
  - auto.
  - auto.
  - apply parses_bad; [rewrite length_app; lia|rewrite header_of_app by lia; exact H2].
  - assert (H24 : (24 <= length s)%nat) by lia. specialize (IH b). assert (C : forall ms2 e2, parses magic (drop (24 + payload_size s) s ++ b) ms2 e2 -> parses magic (s ++ b) (message_of (header_of s) (take (payload_size s) (drop 24 s)) :: ms2) e2).
    { intros ms2 e2 Q. pose proof (parses_message magic (s ++ b) ms2 e2) as C. rewrite (header_of_app s b H24), (payload_size_app s b H24), !drop_app_le in C by lia. rewrite take_app_le in C by (rewrite length_drop; lia). apply C; [rewrite length_app; lia|exact H2|exact Q]. }
    destruct e as [p|]; [intros ms2 e2 Q; exact (C _ _ (IH _ _ Q))|exact (C _ _ IH)].
Qed.
Lemma parses_total magic s : exists ms e, parses magic s ms e.
Proof.
  induction s as [s IH] using (induction_ltof1 _ (@length Z)). unfold ltof in IH. destruct (decide (length s < 24)%nat) as [H|H]; [exists [], (Some s); apply parses_short, H|].
  destruct (decide (pchMessageStart (header_of s) = magic)) as [Hm|Hm]; [|exists [], None; apply parses_bad; [lia|intros [E _]; exact (Hm E)]]. destruct (decide (nMessageSize (header_of s) <= MAX_PROTOCOL_MESSAGE_LENGTH)) as [Hs|Hs]; [|exists [], None; apply parses_bad; [lia|intros [_ E]; exact (Hs E)]].
  destruct (decide (length s < 24 + payload_size s)%nat) as [Hp|Hp]; [exists [], (Some s); apply parses_partial; [lia|split; assumption|exact Hp]|]. destruct (IH (drop (24 + payload_size s) s)) as (ms & e & P); [rewrite length_drop; lia|]. eexists _, e. apply parses_message; [lia|split; assumption|exact P].
Qed.

(** ** The sending half *)

Section Sending.
Context (GetMemoryUsage : CSerializedNetMsg -> Z) (magic : list Z) (Hmagic : magic_ok magic).
#[local] Hint Extern 0 (Transport V1Transport) => exact (V1_transport GetMemoryUsage) : typeclass_instances.

Definition V1_data (s : V1Send) : list Z := sm_data (m_message_to_send s).
Definition V1_sends (s : V1Send) : Prop :=
  Z.of_nat (length (V1_data s)) < 2 ^ 64 /\
  if m_sending_header s then length (m_header_to_send s) = 24%nat /\ 0 <= m_bytes_sent s < 24
  else 0 <= m_bytes_sent s < Z.of_nat (length (V1_data s)) \/ V1_data s = [] /\ m_bytes_sent s = 0.
Definition V1_unsent (s : V1Send) : list Z :=
  if m_sending_header s then drop (Z.to_nat (m_bytes_sent s)) (m_header_to_send s) ++ V1_data s else drop (Z.to_nat (m_bytes_sent s)) (V1_data s).
Definition V1_pieces (s : V1Send) : nat := (if m_sending_header s then 1 else 0) + (if is_empty (V1_data s) then 0 else 1).

Lemma V1_set s m : V1_sends s -> valid_message m -> exists ok s', V1_SetMessageToSend magic s m = Some (ok, s') /\ V1_sends s' /\
  (ok = true /\ V1_unsent s = [] /\ V1_unsent s' = wire magic m /\ (V1_pieces s' <= 2)%nat \/ ok = false /\ V1_unsent s <> [] /\ s' = s).
Proof using Hmagic.
  intros [Hl Hs] Hv. unfold V1_SetMessageToSend. fold (V1_data s). destruct (m_sending_header s) eqn:Eh; cbn [orb].
  - eexists false, s. split; [reflexivity|]. split; [split; [exact Hl|rewrite Eh; exact Hs]|]. right. split; [reflexivity|]. split; [|reflexivity]. unfold V1_unsent. rewrite Eh. intros E. apply (f_equal length) in E. rewrite length_app, length_drop in E. cbn in E. lia.
  - destruct (Z.ltb_spec (m_bytes_sent s) (Z.of_nat (length (V1_data s)))) as [Hb|Hb].
    + eexists false, s. split; [reflexivity|]. split; [split; [exact Hl|rewrite Eh; exact Hs]|]. right. split; [reflexivity|]. split; [|reflexivity]. unfold V1_unsent. rewrite Eh. intros E. apply (f_equal length) in E. rewrite length_drop in E. cbn in E. destruct Hs as [Hs|[Hd H0]]; [lia|rewrite Hd in Hb; cbn in Hb; lia].
    + destruct Hv as (Ht & Hsz & Hw). rewrite (new_header_spec magic (sm_type m) _ Ht). cbn [mbind option_bind pchMessageStart pchCommand nMessageSize]. assert (Eh2 : Hash (sm_data m) = double_hash (sm_data m)) by exact (CHash256_spec _ _ (one_write sha256 sha256_ok (sm_data m))). rewrite Eh2. change CHECKSUM_SIZE with 4%nat. fold (wire_header magic m).
      destruct (header_round_trip (wire_header magic m) [] (wire_header_shape magic m Hmagic (conj Ht (conj Hsz Hw)))) as [L _]. change HEADER_SIZE with 24%nat in L. eexists true, _. split; [reflexivity|]. unfold MAX_PROTOCOL_MESSAGE_LENGTH in Hsz. split; [split; unfold V1_data; cbn [m_message_to_send m_sending_header m_bytes_sent m_header_to_send]; [lia|split; [exact L|lia]]|]. left. split; [reflexivity|].
      split; [unfold V1_unsent; rewrite Eh; destruct Hs as [Hs|[-> ->]]; [lia|reflexivity]|]. split; [unfold V1_unsent, V1_data; cbn [m_sending_header m_bytes_sent m_header_to_send m_message_to_send]; rewrite drop_0; reflexivity|]. unfold V1_pieces. cbn [m_sending_header]. destruct (is_empty _); lia.
Qed.

Lemma V1_get s next : V1_sends s -> exists data rest, V1_unsent s = data ++ rest /\ (data = [] -> rest = []) /\ (V1_GetBytesToSend s next).1.1 = data /\ (V1_GetBytesToSend s next).1.2 = next || negb (is_empty rest).
Proof using.
  intros [Hl Hs]. unfold V1_GetBytesToSend, V1_unsent. destruct (m_sending_header s); cbn [fst snd].
  - eexists _, (V1_data s). split; [reflexivity|]. split; [intros E; apply (f_equal length) in E; rewrite length_drop in E; cbn in E; lia|]. split; [reflexivity|]. fold (V1_data s). destruct (V1_data s); reflexivity.
  - eexists _, []. rewrite app_nil_r. split; [reflexivity|]. split; [reflexivity|]. split; [reflexivity|]. cbn [is_empty negb]. rewrite orb_false_r. reflexivity.
Qed.

Lemma V1_mark s next k : V1_sends s -> (k <= length (V1_GetBytesToSend s next).1.1)%nat ->
  V1_sends (V1_MarkBytesSent s k) /\ V1_unsent (V1_MarkBytesSent s k) = drop k (V1_unsent s) /\ (k = length (V1_GetBytesToSend s next).1.1 -> k <> 0%nat -> V1_pieces (V1_MarkBytesSent s k) < V1_pieces s)%nat.
Proof using.
  intros [Hl Hs] Hk. unfold V1_GetBytesToSend in *. fold (V1_data s) in *. unfold V1_MarkBytesSent. cbn [m_sending_header m_bytes_sent m_header_to_send m_message_to_send]. fold (V1_data s). destruct (m_sending_header s) eqn:Eh; cbn [fst snd negb andb] in *; rewrite length_drop in Hk.
  - destruct Hs as [L24 Hb]. rewrite L24 in *. rewrite uwrap_small by (unfold in_u; lia). destruct (Z.eqb_spec (m_bytes_sent s + Z.of_nat k) (Z.of_nat 24)) as [E|E].
    + split; [split; [exact Hl|cbn [m_sending_header m_bytes_sent]]|]. { change (V1_data {| m_header_to_send := m_header_to_send s; m_message_to_send := m_message_to_send s; m_sending_header := false; m_bytes_sent := 0 |}) with (V1_data s). destruct (V1_data s); [right; auto|left; cbn; lia]. }
      split; [|intros _ _; unfold V1_pieces, V1_data; rewrite Eh; cbn [m_sending_header m_message_to_send]; lia]. unfold V1_unsent. rewrite Eh. cbn [m_sending_header m_bytes_sent]. rewrite drop_app_length' by (rewrite length_drop, L24; lia). reflexivity.
    + split; [split; [exact Hl|cbn [m_sending_header m_bytes_sent m_header_to_send]; split; [exact L24|lia]]|]. split; [|intros Hke; rewrite length_drop, L24 in Hke; lia].
      unfold V1_unsent. rewrite Eh. cbn [m_sending_header m_bytes_sent m_header_to_send]. rewrite drop_app_le by (rewrite length_drop, L24; lia). rewrite drop_drop. do 2 f_equal. lia.
  - assert (Hb : 0 <= m_bytes_sent s /\ m_bytes_sent s + Z.of_nat k <= Z.of_nat (length (V1_data s))) by (destruct Hs as [Hs|[Ed Es]]; [lia|rewrite Ed, Es in *; cbn in *; lia]). rewrite uwrap_small by (unfold in_u; lia). destruct (Z.eqb_spec (m_bytes_sent s + Z.of_nat k) (Z.of_nat (length (V1_data s)))) as [E|E].
    + split; [split; [cbn; lia|cbn [m_sending_header]; right; auto]|]. split; [unfold V1_unsent; rewrite Eh; cbn [m_sending_header]; rewrite drop_drop, (drop_ge (V1_data s)) by lia; apply drop_nil|].
      intros _ Hk0. unfold V1_pieces. rewrite Eh. destruct (V1_data s) eqn:Ed; cbn; cbn in Hk; lia.
    + split; [split; [exact Hl|cbn [m_sending_header m_bytes_sent]; left; fold (V1_data s); change (V1_data {| m_header_to_send := _; m_message_to_send := m_message_to_send s; m_sending_header := _; m_bytes_sent := _ |}) with (V1_data s); lia]|]. split; [unfold V1_unsent; rewrite Eh; cbn [m_sending_header m_bytes_sent]; rewrite drop_drop; f_equal; lia|]. intros Hke. rewrite length_drop in Hke. lia.
Qed.

#[local] Instance V1_sending : SendingTransport V1Transport (list Z * V1Recv).
Proof using Hmagic.
  refine {|
    sending_ok t := m_magic_bytes t = magic /\ V1_sends (v1_send t);
    unsent t := V1_unsent (v1_send t);
    pieces t := V1_pieces (v1_send t);
    receiving t := (m_magic_bytes t, v1_recv t);
    encode := wire magic;
    sendable := valid_message;
  |}.
  - intros m Hv E. destruct (wire_parts magic m [] Hmagic Hv) as (_ & _ & _ & L). rewrite E in L. cbn in L. lia.
  - intros t m [Em Hs] Hv. destruct (V1_set (v1_send t) m Hs Hv) as (ok & s' & E & Hs' & C). cbn [SetMessageToSend V1_transport V1_is_Transport]. rewrite Em, E. cbn [mbind option_bind]. eexists ok, _. split; [reflexivity|]. cbn [m_magic_bytes v1_send v1_recv]. split; [auto|]. split; [reflexivity|]. destruct C as [(C1 & C2 & C3 & C4)|(C1 & C2 & ->)]; [left; auto|right]. split; [exact C1|]. split; [exact C2|]. destruct t. cbn in *. subst. reflexivity.
  - intros t next [_ Hs]. exact (V1_get (v1_send t) next Hs).
  - intros t next k [Em Hs] Hk. destruct (V1_mark (v1_send t) next k Hs Hk) as (A & B & C). cbn [MarkBytesSent V1_transport V1_is_Transport m_magic_bytes v1_send v1_recv]. auto.
  - intros t _. unfold V1_pieces. destruct (m_sending_header _), (is_empty _); lia.
Defined.

(** ** Runs of a node *)

(** A message is pushed; the socket can take bytes; the socket gave bytes; the
    message handler takes a message. *)
Inductive node_event : Type :=
  | Push (m : CSerializedNetMsg) (sock : nat -> list Z -> bool -> SendResult) (now : Z)
  | Send (sock : nat -> list Z -> bool -> SendResult) (now : Z)
  | Recv (time : Z) (bytes : list Z)
  | Poll.

(** The node, the bytes its socket took, the bytes it read, and the messages
    that were taken from its queue. *)
Record NodeRun : Type := { r_node : CNode V1Transport; r_traffic : Traffic; r_out : list Z; r_in : list Z; r_polled : list CNetMessage }.

Context (nSendBufferMaxSize : Z).

Definition node_step (r : NodeRun) (ev : node_event) : option NodeRun :=
  match ev with
  | Push m sock now =>
      '(n, c, out) ← PushMessage GetMemoryUsage nSendBufferMaxSize sock now (r_node r) m (r_traffic r);
      Some {| r_node := n; r_traffic := c; r_out := r_out r ++ out; r_in := r_in r; r_polled := r_polled r |}
  | Send sock now =>
      d ← SocketSendData GetMemoryUsage nSendBufferMaxSize sock now (r_node r);
      Some {| r_node := sd_node d; r_traffic := r_traffic r; r_out := r_out r ++ sd_out d; r_in := r_in r; r_polled := r_polled r |}
  | Recv time bytes =>
      if m_sock (r_node r) then
        '(n, c) ← handle_recv (r_node r) time (Received bytes) (r_traffic r);
        Some {| r_node := n; r_traffic := c; r_out := r_out r; r_in := r_in r ++ bytes; r_polled := r_polled r |}
      else Some r
  | Poll =>
      let '(msg, n) := PollMessage (r_node r) in
      Some {| r_node := n; r_traffic := r_traffic r; r_out := r_out r; r_in := r_in r; r_polled := r_polled r ++ match msg with Some (m, _) => [m] | None => [] end |}
  end.
Fixpoint node_run (r : NodeRun) (evs : list node_event) : option NodeRun :=
  match evs with [] => Some r | ev :: evs => r ← node_step r ev; node_run r evs end.

Definition new_run (flood_size time : Z) (c : Traffic) : NodeRun := {| r_node := new_CNode (new_V1Transport magic) flood_size time; r_traffic := c; r_out := []; r_in := []; r_polled := [] |}.

Definition event_ok (ev : node_event) : Prop :=
  match ev with
  | Push m sock _ => valid_message m /\ socket_ok sock
  | Send sock _ => socket_ok sock
  | Recv _ bytes => wire_ok bytes /\ Z.of_nat (length bytes) < 2 ^ 32
  | Poll => True
  end.
Definition pushed (evs : list node_event) : list CSerializedNetMsg := omap (fun ev => match ev with Push m _ _ => Some m | _ => None end) evs.

(** The messages that came, taken from the queue or still in it. *)
Definition delivered (r : NodeRun) : list CSerializedNetMsg := map content (r_polled r ++ m_msg_process_queue (node_queue (r_node r))).

Record run_ok (r : NodeRun) (ms : list CSerializedNetMsg) : Prop := {
  ro_sends : node_sends GetMemoryUsage (r_node r);
  ro_stream : r_out r ++ pending (r_node r) = concat (map (wire magic) ms);
  ro_empty : vRecvMsg (node_recv (r_node r)) = [];
  ro_parse : exists got e, parses magic (r_in r) got e /\ delivered r = accepted got /\ (m_sock (r_node r) = true -> exists p, e = Some p /\ node_at magic (r_node r) p /\ wire_ok p);
}.

Lemma same_receiver_at n n' p : same_receiver n n' -> node_at magic n p -> node_at magic n' p.
Proof using. intros (R1 & R2 & R3 & _) [A1 A2 A3]. injection R1 as R4 R5. split; [congruence|rewrite R5; exact A2|rewrite R2; exact A3]. Qed.
Lemma delivered_same (n n' : CNode V1Transport) : same_receiver n n' -> m_msg_process_queue (node_queue n') = m_msg_process_queue (node_queue n).
Proof using. intros (_ & _ & -> & _). reflexivity. Qed.

Lemma sent_ok r ms n' c out ms' : run_ok r ms -> node_sends GetMemoryUsage n' -> same_receiver (r_node r) n' -> (r_out r ++ out) ++ pending n' = concat (map (wire magic) ms') -> run_ok {| r_node := n'; r_traffic := c; r_out := r_out r ++ out; r_in := r_in r; r_polled := r_polled r |} ms'.
Proof using.
  intros [O1 O2 O3 (got & e & O4 & O5 & O6)] S' R' E. split; cbn [r_node r_out r_in r_polled]; [exact S'|exact E|destruct R' as (_ & -> & _); exact O3|]. exists got, e. split; [exact O4|]. split; [unfold delivered in *; cbn [r_polled r_node]; rewrite (delivered_same _ _ R'); exact O5|]. intros Hs.
  destruct (m_sock (r_node r)) eqn:Em; [|destruct R' as (_ & _ & _ & R4); rewrite R4 in Hs by exact Em; discriminate Hs]. destruct (O6 eq_refl) as (p & -> & A & W). exists p. split; [reflexivity|]. split; [exact (same_receiver_at _ _ _ R' A)|exact W].
Qed.

Lemma handle_recv_ok r ms time bytes : run_ok r ms -> m_sock (r_node r) = true -> wire_ok bytes -> Z.of_nat (length bytes) < 2 ^ 32 ->
  exists n c, handle_recv (r_node r) time (Received bytes) (r_traffic r) = Some (n, c) /\ run_ok {| r_node := n; r_traffic := c; r_out := r_out r; r_in := r_in r ++ bytes; r_polled := r_polled r |} ms.
Proof using Hmagic.
  intros [O1 O2 O3 (got & e & O4 & O5 & O6)] Hs Wb Hb. destruct (O6 Hs) as (p & -> & A & W). destruct bytes as [|b0 bs]; [|set (bytes := b0 :: bs) in *].
  { eexists _, _. split; [reflexivity|]. rewrite app_nil_r. split; cbn [r_node r_out r_in]; [destruct O1; split; assumption|exact O2|exact O3|]. exists got, (Some p). split; [exact O4|]. split; [exact O5|discriminate]. }
  change (handle_recv (r_node r) time (Received bytes) (r_traffic r)) with ('(ok, notify, n) ← ReceiveMsgBytes (r_node r) time bytes; let n := if ok : bool then n else CloseSocketDisconnect n in Some (if notify : bool then MarkReceivedMsgsForProcessing n else n, RecordBytesRecv (r_traffic r) (Z.of_nat (length bytes)))).
  unfold ReceiveMsgBytes. set (n0 := with_recv _ _). assert (A0 : node_at magic n0 p) by (destruct A as [A1 A2 A3]; split; [exact A1|exact A2|exact A3]). destruct (receive_loop_spec GetMemoryUsage magic (length bytes) time n0 p bytes false A0 W Wb (Nat.le_refl _) Hb) as (ms2 & e2 & n' & P & -> & M & R & N). cbn [mbind option_bind orb].
  pose proof (parses_app magic _ _ _ O4 bytes ms2 e2 P) as P2. cbn [n0 with_recv node_recv vRecvMsg] in M. rewrite O3 in M. cbn [map app] in M. set (n1 := if bool_decide (is_Some e2) then n' else CloseSocketDisconnect n').
  assert (N1 : node_recv n1 = node_recv n' /\ node_send n1 = node_send n' /\ node_queue n1 = node_queue n' /\ m_transport n1 = m_transport n') by (unfold n1; destruct (bool_decide _); auto). destruct N1 as (N2 & N3 & N4 & N5). destruct R as (R1 & R2 & R3 & R4 & _).
  assert (Acc : accepted (got ++ ms2) = accepted got ++ accepted ms2) by (unfold accepted; apply omap_app). set (notify := negb (is_empty (accepted ms2))). set (n2 := if notify then MarkReceivedMsgsForProcessing n1 else n1). eexists n2, _. split; [reflexivity|].
  assert (Eb : notify = false -> vRecvMsg (node_recv n1) = [] /\ accepted ms2 = []) by (unfold notify; intros Ee; rewrite N2; destruct (accepted ms2); [split; [|reflexivity]|discriminate Ee]; exact (map_eq_nil _ _ M)).
  assert (Q : m_transport n2 = m_transport n' /\ node_send n2 = node_send n' /\ m_sock n2 = m_sock n1) by (unfold n2; destruct notify; auto). destruct Q as (Q1 & Q2 & Q3). split; cbn [r_node r_out r_in r_polled].
  - destruct O1 as [[S1 S2] S3 S4]. unfold node_sends. rewrite Q2, R3. split; [split; [rewrite Q1, R2; exact S1|rewrite Q1, R1; exact S2]|exact S3|rewrite Q2, R3; exact S4].
  - rewrite <- O2. unfold pending. rewrite Q2, R3. cbn [unsent V1_sending]. rewrite Q1, R1. reflexivity.
  - unfold n2. destruct notify eqn:En; [reflexivity|]. exact (proj1 (Eb eq_refl)).
  - exists (got ++ ms2), e2. split; [exact P2|]. unfold delivered in *. cbn [r_polled r_node]. rewrite Acc, <- O5. split.
    + unfold n2. destruct notify eqn:En; cbn [MarkReceivedMsgsForProcessing with_queue node_queue m_msg_process_queue]; rewrite N4, R4, ?map_app; [rewrite N2, M, <- app_assoc; reflexivity|]. destruct (Eb eq_refl) as [_ ->]. rewrite app_nil_r. reflexivity.
    + rewrite Q3. unfold n1. destruct e2 as [p'|]; [|discriminate]. rewrite bool_decide_true by eauto. intros _. destruct (N p' eq_refl) as [[B1 B2 B3] Wp]. exists p'. split; [reflexivity|]. split; [|exact Wp]. split; [rewrite Q1; exact B1|rewrite Q1; exact B2|]. assert (Eq : mapRecvBytesPerMsgType (node_recv n2) = mapRecvBytesPerMsgType (node_recv n1)) by (unfold n2; destruct notify; reflexivity). rewrite Eq, N2. exact B3.
Qed.

Lemma node_step_ok r ms ev : run_ok r ms -> event_ok ev -> exists r', node_step r ev = Some r' /\ run_ok r' (ms ++ pushed [ev]).
Proof using Hmagic.
  intros O. destruct ev as [m sock now|sock now|time bytes|]; cbn [event_ok node_step pushed omap list_omap].
  - intros [Hv Hs]. destruct (PushMessage_spec GetMemoryUsage nSendBufferMaxSize sock now (r_node r) m (r_traffic r) Hs (ro_sends _ _ O) Hv) as (n & c & out & -> & S' & R' & E). cbn [mbind option_bind]. eexists. split; [reflexivity|]. apply (sent_ok r ms); try assumption. rewrite <- app_assoc, E, app_assoc, (ro_stream _ _ O), map_app, concat_app. cbn [map concat]. rewrite app_nil_r. reflexivity.
  - intros Hs. destruct (SocketSendData_spec GetMemoryUsage nSendBufferMaxSize sock now (r_node r) Hs (ro_sends _ _ O)) as (d & -> & S' & R' & E & _). cbn [mbind option_bind]. eexists. split; [reflexivity|]. rewrite app_nil_r. apply (sent_ok r ms); try assumption. rewrite <- app_assoc, E. exact (ro_stream _ _ O).
  - intros [Wb Hb]. rewrite app_nil_r. destruct (m_sock (r_node r)) eqn:Em; [|eauto]. destruct (handle_recv_ok r ms time bytes O Em Wb Hb) as (n & c & -> & O'). cbn [mbind option_bind]. eauto.
  - intros _. rewrite app_nil_r. unfold PollMessage. destruct (m_msg_process_queue (node_queue (r_node r))) as [|m q] eqn:Eq; eexists; (split; [reflexivity|]); destruct O as [O1 O2 O3 (got & e & O4 & O5 & O6)]; (split; cbn [r_node r_out r_in r_polled]; [|exact O2|exact O3|]).
    + exact O1.
    + exists got, e. unfold delivered in *. cbn [r_polled r_node]. rewrite app_nil_r. auto.
    + destruct O1. split; assumption.
    + exists got, e. split; [exact O4|]. unfold delivered in *. cbn [r_polled r_node with_queue node_queue m_msg_process_queue]. rewrite <- O5, Eq, <- app_assoc. split; [reflexivity|]. intros Hs. destruct (O6 Hs) as (p & -> & [A1 A2 A3] & W). exists p. split; [reflexivity|]. split; [split; assumption|exact W].
Qed.

Lemma pushed_cons ev evs : pushed (ev :: evs) = pushed [ev] ++ pushed evs.
Proof using. unfold pushed. cbn [omap list_omap]. destruct ev; reflexivity. Qed.

Lemma node_run_ok evs : forall r ms, run_ok r ms -> Forall event_ok evs -> exists r', node_run r evs = Some r' /\ run_ok r' (ms ++ pushed evs).
Proof using Hmagic.
  induction evs as [|ev evs IH]; intros r ms O Ho; cbn [node_run]; [rewrite app_nil_r; eauto|]. apply Forall_cons_1 in Ho as [H1 H2]. destruct (node_step_ok r ms ev O H1) as (r1 & -> & O1). cbn [mbind option_bind]. rewrite pushed_cons, app_assoc. exact (IH r1 _ O1 H2).
Qed.

Lemma new_run_ok flood time c : run_ok (new_run flood time c) [].
Proof using Hmagic.
  split; cbn [new_run r_node r_out r_in].
  - split; [split; [reflexivity|split; [cbn; lia|right; split; reflexivity]]|constructor|reflexivity].
  - reflexivity.
  - reflexivity.
  - exists [], (Some []). split; [apply parses_short; cbn; lia|]. split; [reflexivity|]. intros _. exists []. split; [reflexivity|]. split; [|constructor]. split; [reflexivity|left; apply (Reset_at _ []), (new_taken sha256 sha256_ok)|]. vm_compute. eauto.
Qed.
End Sending.
Lemma accepted_all ms : accepted (map (fun m => (m, true)) ms) = ms.
Proof. induction ms as [|m ms IH]; [reflexivity|]. cbn. f_equal. exact IH. Qed.
Lemma parses_prefix magic ms s got e : magic_ok magic -> Forall valid_message ms -> parses magic s got e -> s `prefix_of` concat (map (wire magic) ms) -> accepted got `prefix_of` ms.
Proof.
  intros Hm Hv P [rest E]. pose proof (parses_wires magic ms Hm Hv) as W. rewrite E in W. pose proof (parses_app magic s got e P rest) as A. destruct e as [p|]; [|destruct (parses_fun magic _ _ _ W _ _ A) as [_ C]; discriminate C].
  destruct (parses_total magic (p ++ rest)) as (ms2 & e2 & P2). destruct (parses_fun magic _ _ _ W _ _ (A _ _ P2)) as [C _]. exists (accepted ms2). rewrite <- (accepted_all ms), <- C. unfold accepted. apply omap_app.
Qed.
Lemma parses_rest magic s got e : parses magic s got e -> forall p, e = Some p -> (length p <= length s)%nat.
Proof. induction 1 as [s H|s H1 H2 H3|s H1 H2|s ms e H1 H2 P IH]; intros p Ep; try (injection Ep as <-; lia); [discriminate Ep|]. specialize (IH p Ep). rewrite length_drop in IH. lia. Qed.

Lemma pushed_valid evs : Forall event_ok evs -> Forall valid_message (pushed evs).
Proof. induction 1 as [|ev evs H _ IH]; [constructor|]. rewrite pushed_cons. apply Forall_app. split; [|exact IH]. destruct ev; cbn; try constructor; [apply H|constructor]. Qed.

Lemma V1_idle gmu magic max r ms (Hm : magic_ok magic) : run_ok gmu magic Hm r ms -> vSendMsg (node_send (r_node r)) = [] -> (V1_GetBytesToSend (v1_send (m_transport (r_node r))) max).1.1 = [] -> r_out r = concat (map (wire magic) ms).
Proof.
  intros O Hq Hb. rewrite <- (ro_stream _ _ _ _ _ O). unfold pending. rewrite Hq. cbn [queued map concat]. destruct (so_transport _ _ _ (ro_sends _ _ _ _ _ O)) as [_ S]. destruct (V1_get _ max S) as (data & rest & Eu & Hd & Ed & _). rewrite Hb in Ed. subst data. cbn [unsent V1_sending]. rewrite Eu, Hd by reflexivity. rewrite !app_nil_r. reflexivity.
Qed.

(** C21. Whatever the sockets of two nodes take and give, and in whatever pieces,
    the messages that one node delivers are a prefix of the messages that the
    other pushed, in order and unchanged, as long as it reads bytes that the
    other sent; once all bytes have arrived they are all of them.  No run of
    either node fails an assertion or runs forever. *)
Theorem v1_channel_correct (GetMemoryUsage : CSerializedNetMsg -> Z) (magic : list Z) (max floodA timeA floodB timeB : Z) (cA cB : Traffic) (evA evB : list node_event) :
  magic_ok magic -> Forall event_ok evA -> Forall event_ok evB ->
  exists a b, node_run GetMemoryUsage max (new_run magic floodA timeA cA) evA = Some a /\ node_run GetMemoryUsage max (new_run magic floodB timeB cB) evB = Some b /\
    (r_in b `prefix_of` r_out a -> delivered b `prefix_of` pushed evA) /\
    (r_in b = r_out a -> vSendMsg (node_send (r_node a)) = [] -> (V1_GetBytesToSend (v1_send (m_transport (r_node a))) false).1.1 = [] -> delivered b = pushed evA).
Proof.
  intros Hm HA HB. destruct (node_run_ok GetMemoryUsage magic Hm max evA _ _ (new_run_ok GetMemoryUsage magic Hm floodA timeA cA) HA) as (a & Ea & Oa). destruct (node_run_ok GetMemoryUsage magic Hm max evB _ _ (new_run_ok GetMemoryUsage magic Hm floodB timeB cB) HB) as (b & Eb & Ob). exists a, b. split; [exact Ea|]. split; [exact Eb|]. cbn [app] in *.
  destruct (ro_parse _ _ _ _ _ Ob) as (got & e & P & -> & _). split.
  - intros [k Ek]. apply (parses_prefix magic (pushed evA) (r_in b) got e Hm (pushed_valid _ HA) P). eexists (k ++ _). rewrite app_assoc, <- Ek. symmetry. exact (ro_stream _ _ _ _ _ Oa).
  - intros Ei Hq Hb. rewrite Ei, (V1_idle _ _ _ _ _ Hm Oa Hq Hb) in P. destruct (parses_fun magic _ _ _ (parses_wires magic (pushed evA) Hm (pushed_valid _ HA)) _ _ P) as [-> _]. apply accepted_all.
Qed.

(** Whatever bytes a peer sends and in whatever pieces, the node delivers
    exactly the good messages of the stream, drops those with a wrong checksum or
    type, and goes on after them. *)
Theorem v1_receive_refines (GetMemoryUsage : CSerializedNetMsg -> Z) (magic : list Z) (max flood time : Z) (c : Traffic) (evs : list node_event) :
  magic_ok magic -> Forall event_ok evs ->
  exists r got e, node_run GetMemoryUsage max (new_run magic flood time c) evs = Some r /\ parses magic (r_in r) got e /\ delivered r = accepted got.
Proof.
  intros Hm He. destruct (node_run_ok GetMemoryUsage magic Hm max evs _ _ (new_run_ok GetMemoryUsage magic Hm flood time c) He) as (r & Er & O). destruct (ro_parse _ _ _ _ _ O) as (got & e & P & D & _). eauto 6.
Qed.

(** A peer cannot make the parser allocate memory for a payload it has not
    sent: the buffer is never more than 256 KiB longer than what came, and
    never longer than the largest message. *)
Theorem v1_memory_bounded (GetMemoryUsage : CSerializedNetMsg -> Z) (magic : list Z) (max flood time : Z) (c : Traffic) (evs : list node_event) :
  magic_ok magic -> Forall event_ok evs ->
  exists r, node_run GetMemoryUsage max (new_run magic flood time c) evs = Some r /\
    (m_sock (r_node r) = true -> let buffer := Z.of_nat (length (vRecv (v1_recv (m_transport (r_node r))))) in buffer <= MAX_PROTOCOL_MESSAGE_LENGTH /\ buffer <= Z.of_nat (length (r_in r)) + 256 * 1024).
Proof.
  intros Hm He. destruct (node_run_ok GetMemoryUsage magic Hm max evs _ _ (new_run_ok GetMemoryUsage magic Hm flood time c) He) as (r & Er & O). exists r. split; [exact Er|]. intros Hs. destruct (ro_parse _ _ _ _ _ O) as (got & e & P & _ & A). destruct (A Hs) as (p & -> & [_ [I|[I _]] _] & _); cbn zeta.
  - rewrite (ih_recv _ _ I). unfold MAX_PROTOCOL_MESSAGE_LENGTH. cbn [length]. lia.
  - pose proof (parses_rest _ _ _ _ P p eq_refl). pose proof (ip_room _ _ _ I). pose proof (ip_bound _ _ _ I). destruct (payload_small _ _ _ I). unfold MAX_PROTOCOL_MESSAGE_LENGTH. lia.
Qed.

(** After any run of a node, writing to the socket ends, whatever part of
    each piece the socket takes; every prediction of more data to send was right
    and the assertion that an empty queue uses no memory holds; what it reports
    as sent is what the socket took, and it reports data left exactly when the
    transport has bytes to send. *)
Theorem SocketSendData_correct (GetMemoryUsage : CSerializedNetMsg -> Z) (magic : list Z) (max flood time : Z) (c : Traffic) (evs : list node_event) (sock : nat -> list Z -> bool -> SendResult) (now : Z) :
  magic_ok magic -> Forall event_ok evs -> socket_ok sock ->
  exists r d, node_run GetMemoryUsage max (new_run magic flood time c) evs = Some r /\ @SocketSendData _ (V1_is_Transport GetMemoryUsage) GetMemoryUsage max sock now (r_node r) = Some d /\
    sd_assumed d = true /\ sd_sent d = u64 (Z.of_nat (length (sd_out d))) /\ sd_left d = negb (is_empty (V1_GetBytesToSend (v1_send (m_transport (sd_node d))) false).1.1).
Proof.
  intros Hm He Hs. destruct (node_run_ok GetMemoryUsage magic Hm max evs _ _ (new_run_ok GetMemoryUsage magic Hm flood time c) He) as (r & Er & O). destruct (SocketSendData_spec GetMemoryUsage max sock now (r_node r) Hs (ro_sends _ _ _ _ _ O)) as (d & Ed & Sd & _ & _ & A & B & C). exists r, d. split; [exact Er|]. split; [exact Ed|]. split; [exact A|]. split; [exact B|]. rewrite C. f_equal.
  destruct (so_transport _ _ _ Sd) as [_ S]. destruct (V1_get _ false S) as (data & rest & Eu & Hd & -> & _). cbn [unsent V1_sending]. rewrite Eu, is_empty_app. destruct data; [rewrite Hd by reflexivity|]; reflexivity.
Qed.

(** ** A small channel *)

Definition demo_magic : list Z := [0xf9; 0xbe; 0xb4; 0xd9].
Definition demo_traffic : Traffic := {| nTotalBytesRecv := 0; nTotalBytesSent := 0; nMaxOutboundTotalBytesSentInCycle := 0; nMaxOutboundCycleStartTime := 0; nMaxOutboundLimit := 0 |}.
Definition ten_at_a_time (call : nat) (data : list Z) (more : bool) : SendResult := Sent (Nat.min 10 (length data)).
Definition demo_ping : CSerializedNetMsg := {| sm_data := [1; 2; 3; 4; 5; 6; 7; 8]; sm_type := string_bytes "ping" |}.
Definition demo_verack : CSerializedNetMsg := {| sm_data := []; sm_type := string_bytes "verack" |}.
Definition demo_sender : list node_event := [Push demo_ping ten_at_a_time 1; Push demo_verack ten_at_a_time 2] ++ replicate 5 (Send ten_at_a_time 3).
Definition demo_wire : list Z := wire demo_magic demo_ping ++ wire demo_magic demo_verack.
Definition demo_receiver : list node_event := [Recv 1 (take 5 demo_wire); Recv 2 (take 30 (drop 5 demo_wire)); Poll; Recv 3 (drop 35 demo_wire); Poll].
(** A byte of the first payload is changed on the way. *)
Definition demo_corrupt : list node_event := [Recv 1 (take 24 demo_wire ++ [99] ++ drop 25 demo_wire); Poll].

Lemma ten_at_a_time_ok : socket_ok ten_at_a_time.
Proof. intros call data more n E. assert (n = Nat.min 10 (length data)) as -> by (unfold ten_at_a_time in E; congruence). lia. Qed.
Lemma demo_magic_ok : magic_ok demo_magic.
Proof. split; [reflexivity|]. unfold wire_ok. apply (bool_decide_unpack _). vm_compute. exact I. Qed.
Lemma demo_valid : valid_message demo_ping /\ valid_message demo_verack.
Proof. split; apply (bool_decide_unpack _); vm_compute; exact I. Qed.
Lemma demo_sender_ok : Forall event_ok demo_sender.
Proof. pose proof ten_at_a_time_ok. destruct demo_valid. repeat constructor; try assumption; apply H0 || apply H1. Qed.
Lemma demo_wire_ok : wire_ok demo_wire.
Proof. unfold wire_ok. apply (bool_decide_unpack _). vm_compute. exact I. Qed.
Lemma demo_receiver_ok : Forall event_ok demo_receiver.
Proof. pose proof demo_wire_ok. unfold demo_receiver. repeat (apply Forall_cons_2; [first [exact I|split; [unfold wire_ok in *; auto using Forall_take, Forall_drop|vm_compute; reflexivity]]|]). constructor. Qed.
Lemma demo_corrupt_ok : Forall event_ok demo_corrupt.
Proof. unfold demo_corrupt. apply Forall_cons_2; [split; [unfold wire_ok; apply (bool_decide_unpack _); vm_compute; exact I|vm_compute; reflexivity]|]. apply Forall_cons_2; [exact I|constructor]. Qed.

Example demo_delivers : (a ← node_run (fun _ => 100) 1000 (new_run demo_magic 5000 0 demo_traffic) demo_sender; b ← node_run (fun _ => 100) 1000 (new_run demo_magic 5000 0 demo_traffic) demo_receiver;
  Some (delivered b, bool_decide (r_in b = r_out a), vSendMsg (node_send (r_node a)))) = Some ([demo_ping; demo_verack], true, []).
Proof. vm_compute. reflexivity. Qed.
Example demo_drops : (b ← node_run (fun _ => 100) 1000 (new_run demo_magic 5000 0 demo_traffic) demo_corrupt; Some (delivered b, m_sock (r_node b))) = Some ([demo_verack], true).
Proof. vm_compute. reflexivity. Qed.

Lemma v1_channel_correct_witness : exists a b, node_run (fun _ => 100) 1000 (new_run demo_magic 5000 0 demo_traffic) demo_sender = Some a /\ node_run (fun _ => 100) 1000 (new_run demo_magic 5000 0 demo_traffic) demo_receiver = Some b /\ (r_in b `prefix_of` r_out a -> delivered b `prefix_of` pushed demo_sender).
Proof. destruct (v1_channel_correct (fun _ => 100) demo_magic 1000 5000 0 5000 0 demo_traffic demo_traffic demo_sender demo_receiver demo_magic_ok demo_sender_ok demo_receiver_ok) as (a & b & Ea & Eb & P & _). exists a, b. auto. Defined.
Lemma v1_receive_refines_witness : exists r got e, node_run (fun _ => 100) 1000 (new_run demo_magic 5000 0 demo_traffic) demo_corrupt = Some r /\ parses demo_magic (r_in r) got e /\ delivered r = accepted got.
Proof. exact (v1_receive_refines (fun _ => 100) demo_magic 1000 5000 0 demo_traffic demo_corrupt demo_magic_ok demo_corrupt_ok). Defined.
Lemma v1_memory_bounded_witness : exists r, node_run (fun _ => 100) 1000 (new_run demo_magic 5000 0 demo_traffic) [Recv 1 (take 30 demo_wire)] = Some r /\
  (m_sock (r_node r) = true -> let buffer := Z.of_nat (length (vRecv (v1_recv (m_transport (r_node r))))) in buffer <= MAX_PROTOCOL_MESSAGE_LENGTH /\ buffer <= Z.of_nat (length (r_in r)) + 256 * 1024).
Proof. apply (v1_memory_bounded (fun _ => 100) demo_magic 1000 5000 0 demo_traffic [Recv 1 (take 30 demo_wire)] demo_magic_ok). apply Forall_cons_2; [split; [apply Forall_take, demo_wire_ok|vm_compute; reflexivity]|constructor]. Defined.
Lemma SocketSendData_correct_witness : exists r d, node_run (fun _ => 100) 1000 (new_run demo_magic 5000 0 demo_traffic) demo_sender = Some r /\ @SocketSendData _ (V1_is_Transport (fun _ => 100)) (fun _ => 100) 1000 ten_at_a_time 9 (r_node r) = Some d /\ sd_assumed d = true.
Proof. destruct (SocketSendData_correct (fun _ => 100) demo_magic 1000 5000 0 demo_traffic demo_sender ten_at_a_time 9 demo_magic_ok demo_sender_ok ten_at_a_time_ok) as (r & d & Er & Ed & A & _). exists r, d. auto. Defined.
