(* ===== verification/MerkleSha.v ===== *)
(** * Merkle trees over SHA-256

    [ComputeMerkleRoot] of src/consensus/merkle.cpp hashes a whole level in
    place with [SHA256D64]: the routine for many blocks, on the bytes of the
    level, gives the bytes of the next level of the trees of Merkle.v, with the
    double hash as the hash of two nodes. *)

From stdpp Require Import base numbers list.
From Stdlib Require Import ZArith Lia.
From S2P Require Import Prelude Merkle HashWriter Sha256 Sha256Proofs Hashing.

Local Open Scope Z_scope.

Definition is_hash (h : list Z) : Prop := length h = 32%nat.
Definition node_hash (a b : list Z) : list Z := Hash2 a b.

Lemma node_hash_double a b : node_hash a b = double_hash (a ++ b).
Proof. exact (CHash256_spec _ _ (Write_taken _ sha256_ok _ _ b (one_write _ sha256_ok a))). Qed.

Lemma pairs_bytes n : forall hashes, length hashes = (2 * n)%nat -> Forall is_hash hashes -> double_hashes n (concat hashes) = concat (Merkle.SHA256D64 node_hash hashes).
Proof.
  induction n as [|n IH]; intros hashes Hl Hf; [destruct hashes; [reflexivity|discriminate Hl]|]. destruct hashes as [|a [|b rest]]; try (cbn in Hl; lia). apply Forall_cons_1 in Hf as [Ha Hf]. apply Forall_cons_1 in Hf as [Hb Hf].
  cbn [double_hashes concat Merkle.SHA256D64]. rewrite app_assoc, take_app_length', drop_app_length' by (unfold is_hash in *; rewrite length_app; lia). rewrite node_hash_double, (IH rest); [reflexivity|cbn in Hl; lia|exact Hf].
Qed.
Lemma pad_odd_even hashes : exists n, length (pad_odd hashes) = (2 * n)%nat.
Proof.
  unfold pad_odd. destruct (Nat.odd (length hashes)) eqn:E.
  - apply Nat.odd_spec in E as [k Ek]. exists (S k). rewrite length_app. cbn [length]. lia.
  - assert (Ev : Nat.even (length hashes) = true) by (rewrite <- Nat.negb_odd, E; reflexivity). apply Nat.even_spec in Ev as [k Ek]. exists k. exact Ek.
Qed.
Lemma pad_odd_sizes hashes : Forall is_hash hashes -> Forall is_hash (pad_odd hashes).
Proof.
  intros Hf. unfold pad_odd. destruct (Nat.odd (length hashes)); [|exact Hf]. apply Forall_app. split; [exact Hf|]. constructor; [|constructor]. destruct hashes as [|h hs]; [reflexivity|]. rewrite Forall_forall in Hf. apply Hf. apply list_elem_of_In. rewrite (app_removelast_last uint256_null (l := h :: hs)) at 2 by discriminate. apply in_or_app. right. left. reflexivity.
Qed.

Lemma length_concat32 hashes : Forall is_hash hashes -> length (concat hashes) = (32 * length hashes)%nat.
Proof. induction 1 as [|h hs Hh _ IH]; [reflexivity|]. unfold is_hash in Hh. cbn [concat length]. rewrite length_app, Hh, IH. lia. Qed.
Lemma length_node_hash a b : length (node_hash a b) = 32%nat.
Proof. rewrite node_hash_double. apply length_sha256. Qed.
Lemma level_sizes n : forall hashes, (length hashes <= n)%nat -> Forall is_hash (Merkle.SHA256D64 node_hash hashes).
Proof. induction n as [|n IH]; intros [|a [|b rest]] Hn; cbn [length] in Hn; try lia; try constructor; [apply length_node_hash|apply IH; lia]. Qed.

(** One level of a merkle tree, computed in bulk by [SHA256D64] with any
    correct routines of the machine on the bytes of the level, is the level that
    [ComputeMerkleRoot] is defined by, with the double SHA-256 of two nodes; the
    portable routine with its merged constants is correct. *)
Theorem merkle_level_bytes (m : D64_routines) (hashes : list (list Z)) :
  routines_ok m -> Forall is_hash hashes ->
  Sha256.SHA256D64 m (concat (pad_odd hashes)) (length (pad_odd hashes) / 2) = concat (merkle_level node_hash hashes) /\
  Forall is_hash (merkle_level node_hash hashes) /\ routines_ok plain_routines.
Proof.
  intros Hm Hf. pose proof (pad_odd_sizes hashes Hf) as Hp. destruct (pad_odd_even hashes) as [n Hn]. unfold merkle_level. split_and!.
  - rewrite Hn, Nat.mul_comm, Nat.div_mul by lia. rewrite <- (pairs_bytes n _ Hn Hp). apply SHA256D64_spec; [exact Hm|]. rewrite length_concat32 by exact Hp. lia.
  - apply (level_sizes _ _ (Nat.le_refl _)).
  - exact plain_routines_ok.
Qed.
Lemma merkle_level_bytes_witness : let hashes := [replicate 32 1; replicate 32 2; replicate 32 3] in Sha256.SHA256D64 paired_routines (concat (pad_odd hashes)) (length (pad_odd hashes) / 2) = concat (merkle_level node_hash hashes).
Proof. intros hashes. assert (Hf : Forall is_hash hashes) by (repeat constructor). exact (proj1 (merkle_level_bytes paired_routines hashes paired_routines_ok Hf)). Defined.
