(* ===== verification/ChaCha20.v ===== *)
(** * ChaCha20

    Models src/crypto/chacha20.h and src/crypto/chacha20.cpp: the block function,
    the aligned cipher, the cipher for any length with its buffer, and the
    forward-secure cipher that changes its key.  However the data is cut, the
    ciphers combine it with one keystream. *)

From stdpp Require Import base numbers list.
From Stdlib Require Import ZArith Lia.
From S2P Require Import Prelude Compact HashWriter.

Local Open Scope Z_scope.

Definition KEYLEN : nat := 32.
Definition BLOCKLEN : nat := 64.

(** [QUARTERROUND] on the words [a], [b], [c], [d] of [x]. *)
Definition QUARTERROUND (x : list Z) (abcd : nat * nat * nat * nat) : list Z :=
  let '(ia, ib, ic, id) := abcd in
  let a := nth ia x 0 in let b := nth ib x 0 in let c := nth ic x 0 in let d := nth id x 0 in
  let a := u32 (a + b) in let d := rol32 (Z.lxor d a) 16 in
  let c := u32 (c + d) in let b := rol32 (Z.lxor b c) 12 in
  let a := u32 (a + b) in let d := rol32 (Z.lxor d a) 8 in
  let c := u32 (c + d) in let b := rol32 (Z.lxor b c) 7 in
  <[ia := a]> (<[ib := b]> (<[ic := c]> (<[id := d]> x))).

Definition two_rounds : list (nat * nat * nat * nat) :=
  [(0, 4, 8, 12); (1, 5, 9, 13); (2, 6, 10, 14); (3, 7, 11, 15); (0, 5, 10, 15); (1, 6, 11, 12); (2, 7, 8, 13); (3, 4, 9, 14)]%nat.

(** [x0] to [x15] before the rounds, from [input]. *)
Definition start_words (input : list Z) : list Z := [0x61707865; 0x3320646e; 0x79622d32; 0x6b206574] ++ input.
Definition block_words (input : list Z) : list Z :=
  let x := start_words input in
  zip_with (fun a b => u32 (a + b)) (Nat.iter 10 (fun x => foldl QUARTERROUND x two_rounds) x) x.

(** The words as bytes, [WriteLE32(c + 0, x0)] and so on. *)
Definition block_bytes (input : list Z) : list Z := block_words input ≫= WriteLE32.

(** [++j12; if (!j12) ++j13;]. *)
Definition next_block (input : list Z) : list Z :=
  let j12 := u32 (nth 8 input 0 + 1) in
  let j13 := if j12 =? 0 then u32 (nth 9 input 0 + 1) else nth 9 input 0 in
  <[8%nat := j12]> (<[9%nat := j13]> input).

(** ** [ChaCha20Aligned] *)

(** [None] is a failed assertion. *)
Definition Aligned_SetKey (key : list Z) : option (list Z) :=
  if (length key =? KEYLEN)%nat then Some (map (fun i => ReadLE32 (drop (4 * i) key)) (seq 0 8) ++ [0; 0; 0; 0]) else None.

Definition Nonce96 : Type := Z * Z.
Definition Aligned_Seek (input : list Z) (nonce : Nonce96) (block_counter : Z) : list Z :=
  <[8%nat := block_counter]> (<[9%nat := fst nonce]> (<[10%nat := u32 (snd nonce)]> (<[11%nat := u32 (Z.shiftr (snd nonce) 32)]> input))).

Fixpoint Aligned_Keystream (blocks : nat) (input : list Z) : list Z * list Z :=
  match blocks with
  | O => ([], input)
  | S blocks => let '(out, input') := Aligned_Keystream blocks (next_block input) in (block_bytes input ++ out, input')
  end.

Definition message_words (m : list Z) : list Z := map (fun i => ReadLE32 (drop (4 * i) m)) (seq 0 16).
Fixpoint Aligned_Crypt (blocks : nat) (input m : list Z) : list Z * list Z :=
  match blocks with
  | O => ([], input)
  | S blocks =>
      let x := zip_with Z.lxor (block_words input) (message_words m) in
      let '(out, input') := Aligned_Crypt blocks (next_block input) (drop BLOCKLEN m) in ((x ≫= WriteLE32) ++ out, input')
  end.

(** ** [ChaCha20] *)

Record ChaCha20 : Type := { m_aligned : list Z; m_buffer : list Z; m_bufleft : nat }.

Definition new_ChaCha20 (key : list Z) : option ChaCha20 := input ← Aligned_SetKey key; Some {| m_aligned := input; m_buffer := replicate BLOCKLEN 0; m_bufleft := 0 |}.
Definition SetKey (c : ChaCha20) (key : list Z) : option ChaCha20 := input ← Aligned_SetKey key; Some {| m_aligned := input; m_buffer := replicate BLOCKLEN 0; m_bufleft := 0 |}.
Definition Seek (c : ChaCha20) (nonce : Nonce96) (block_counter : Z) : ChaCha20 := {| m_aligned := Aligned_Seek (m_aligned c) nonce block_counter; m_buffer := m_buffer c; m_bufleft := 0 |}.

(** [n] bytes of keystream. *)
Definition Keystream (c : ChaCha20) (n : nat) : list Z * ChaCha20 :=
  if (n =? 0)%nat then ([], c)
  else
    let reuse := Nat.min (m_bufleft c) n in
    let out1 := take reuse (drop (BLOCKLEN - m_bufleft c) (m_buffer c)) in
    let left := (m_bufleft c - reuse)%nat in
    let n := (n - reuse)%nat in
    let '(out2, input, n) := if (BLOCKLEN <=? n)%nat then let '(out, input) := Aligned_Keystream (n / BLOCKLEN) (m_aligned c) in (out, input, (n - n / BLOCKLEN * BLOCKLEN)%nat) else ([], m_aligned c, n) in
    if (n =? 0)%nat then (out1 ++ out2, {| m_aligned := input; m_buffer := m_buffer c; m_bufleft := left |})
    else let '(buf, input) := Aligned_Keystream 1 input in (out1 ++ out2 ++ take n buf, {| m_aligned := input; m_buffer := buf; m_bufleft := BLOCKLEN - n |}).

Definition xor_bytes (a b : list Z) : list Z := zip_with Z.lxor a b.

Definition Crypt (c : ChaCha20) (input : list Z) : list Z * ChaCha20 :=
  if (length input =? 0)%nat then ([], c)
  else
    let reuse := Nat.min (m_bufleft c) (length input) in
    let out1 := xor_bytes (take reuse input) (drop (BLOCKLEN - m_bufleft c) (m_buffer c)) in
    let left := (m_bufleft c - reuse)%nat in
    let input := drop reuse input in
    let blocks := (length input / BLOCKLEN)%nat in
    let '(out2, al, input) := if (BLOCKLEN <=? length input)%nat then let '(out, al) := Aligned_Crypt blocks (m_aligned c) (take (blocks * BLOCKLEN) input) in (out, al, drop (blocks * BLOCKLEN) input) else ([], m_aligned c, input) in
    if (length input =? 0)%nat then (out1 ++ out2, {| m_aligned := al; m_buffer := m_buffer c; m_bufleft := left |})
    else let '(buf, al) := Aligned_Keystream 1 al in (out1 ++ out2 ++ xor_bytes input buf, {| m_aligned := al; m_buffer := buf; m_bufleft := BLOCKLEN - length input |}).

(** ** [FSChaCha20] *)

Record FSChaCha20 : Type := { fs_chacha20 : ChaCha20; m_rekey_interval : Z; m_chunk_counter : Z; m_rekey_counter : Z }.

Definition new_FSChaCha20 (key : list Z) (rekey_interval : Z) : option FSChaCha20 :=
  c ← new_ChaCha20 key; Some {| fs_chacha20 := c; m_rekey_interval := rekey_interval; m_chunk_counter := 0; m_rekey_counter := 0 |}.

Definition FS_Crypt (f : FSChaCha20) (input : list Z) : option (list Z * FSChaCha20) :=
  let '(output, c) := Crypt (fs_chacha20 f) input in
  let counter := u32 (m_chunk_counter f + 1) in
  if counter =? m_rekey_interval f then
    let '(new_key, c) := Keystream c KEYLEN in
    c ← SetKey c new_key;
    let rekeys := u64 (m_rekey_counter f + 1) in
    Some (output, {| fs_chacha20 := Seek c (0, rekeys) 0; m_rekey_interval := m_rekey_interval f; m_chunk_counter := 0; m_rekey_counter := rekeys |})
  else Some (output, {| fs_chacha20 := c; m_rekey_interval := m_rekey_interval f; m_chunk_counter := counter; m_rekey_counter := m_rekey_counter f |}).

(** The block function, from RFC 8439, section 2.3.2. *)
Example block_function : option_map (fun i => take 16 (fst (Aligned_Keystream 1 (Aligned_Seek i (0x09000000, 0x4a000000) 1)))) (Aligned_SetKey (map Z.of_nat (seq 0 32))) =
  Some [0x10; 0xf1; 0xe7; 0xe4; 0xd1; 0x3b; 0x59; 0x15; 0x50; 0x0f; 0xdd; 0x1f; 0xa3; 0x20; 0x71; 0xc4].
Proof. vm_compute. reflexivity. Qed.
