(* ===== verification/Poly1305.v ===== *)
(** * Poly1305

    Models src/crypto/poly1305.h and src/crypto/poly1305.cpp: the context with
    its limbs of 26 bits, [poly1305_init], [poly1305_update] and
    [poly1305_finish], at the widths of their variables. *)

From stdpp Require Import base numbers list.
From Stdlib Require Import ZArith Lia.
From S2P Require Import Prelude Compact HashWriter.

Local Open Scope Z_scope.

Definition POLY1305_BLOCK_SIZE : nat := 16.

Record limbs : Type := Limbs { l0 : Z; l1 : Z; l2 : Z; l3 : Z; l4 : Z }.

Record poly1305_context : Type := { p_r : limbs; p_h : limbs; p_pad : list Z; leftover : nat; buffer : list Z; final : bool }.

Definition mask26 : Z := 0x3ffffff.

Definition poly1305_init (key : list Z) : poly1305_context := {|
  p_r := Limbs (Z.land (ReadLE32 key) 0x3ffffff) (Z.land (Z.shiftr (ReadLE32 (drop 3 key)) 2) 0x3ffff03) (Z.land (Z.shiftr (ReadLE32 (drop 6 key)) 4) 0x3ffc0ff)
    (Z.land (Z.shiftr (ReadLE32 (drop 9 key)) 6) 0x3f03fff) (Z.land (Z.shiftr (ReadLE32 (drop 12 key)) 8) 0x00fffff);
  p_h := Limbs 0 0 0 0 0;
  p_pad := [ReadLE32 (drop 16 key); ReadLE32 (drop 20 key); ReadLE32 (drop 24 key); ReadLE32 (drop 28 key)];
  leftover := 0; buffer := replicate POLY1305_BLOCK_SIZE 0; final := false |}.

(** [h += m[i]]. *)
Definition add_block (h : limbs) (m : list Z) (hibit : Z) : limbs :=
  Limbs (u32 (l0 h + Z.land (ReadLE32 m) mask26)) (u32 (l1 h + Z.land (Z.shiftr (ReadLE32 (drop 3 m)) 2) mask26)) (u32 (l2 h + Z.land (Z.shiftr (ReadLE32 (drop 6 m)) 4) mask26))
    (u32 (l3 h + Z.land (Z.shiftr (ReadLE32 (drop 9 m)) 6) mask26)) (u32 (l4 h + Z.lor (Z.shiftr (ReadLE32 (drop 12 m)) 8) hibit)).

(** [h *= r], in 64 bits. *)
Definition mul_limbs (h r : limbs) : limbs :=
  let '(Limbs h0 h1 h2 h3 h4) := h in
  let '(Limbs r0 r1 r2 r3 r4) := r in
  let s1 := u32 (r1 * 5) in let s2 := u32 (r2 * 5) in let s3 := u32 (r3 * 5) in let s4 := u32 (r4 * 5) in
  Limbs (u64 (h0 * r0 + h1 * s4 + h2 * s3 + h3 * s2 + h4 * s1)) (u64 (h0 * r1 + h1 * r0 + h2 * s4 + h3 * s3 + h4 * s2)) (u64 (h0 * r2 + h1 * r1 + h2 * r0 + h3 * s4 + h4 * s3))
    (u64 (h0 * r3 + h1 * r2 + h2 * r1 + h3 * r0 + h4 * s4)) (u64 (h0 * r4 + h1 * r3 + h2 * r2 + h3 * r1 + h4 * r0)).

(** [(partial) h %= p]. *)
Definition reduce_limbs (d : limbs) : limbs :=
  let '(Limbs d0 d1 d2 d3 d4) := d in
  let c := u32 (Z.shiftr d0 26) in let h0 := Z.land (u32 d0) mask26 in
  let d1 := u64 (d1 + c) in let c := u32 (Z.shiftr d1 26) in let h1 := Z.land (u32 d1) mask26 in
  let d2 := u64 (d2 + c) in let c := u32 (Z.shiftr d2 26) in let h2 := Z.land (u32 d2) mask26 in
  let d3 := u64 (d3 + c) in let c := u32 (Z.shiftr d3 26) in let h3 := Z.land (u32 d3) mask26 in
  let d4 := u64 (d4 + c) in let c := u32 (Z.shiftr d4 26) in let h4 := Z.land (u32 d4) mask26 in
  let h0 := u32 (h0 + u32 (c * 5)) in let c := Z.shiftr h0 26 in let h0 := Z.land h0 mask26 in
  let h1 := u32 (h1 + c) in
  Limbs h0 h1 h2 h3 h4.

Fixpoint blocks_loop (n : nat) (r h : limbs) (hibit : Z) (m : list Z) : limbs :=
  match n with
  | O => h
  | S n => blocks_loop n r (reduce_limbs (mul_limbs (add_block h m hibit) r)) hibit (drop POLY1305_BLOCK_SIZE m)
  end.

Definition poly1305_blocks (st : poly1305_context) (m : list Z) (bytes : nat) : poly1305_context :=
  let hibit := if final st then 0 else Z.shiftl 1 24 in
  {| p_r := p_r st; p_h := blocks_loop (bytes / POLY1305_BLOCK_SIZE) (p_r st) (p_h st) hibit m; p_pad := p_pad st; leftover := leftover st; buffer := buffer st; final := final st |}.

Definition set_buffer (st : poly1305_context) (left : nat) (buf : list Z) (fin : bool) : poly1305_context :=
  {| p_r := p_r st; p_h := p_h st; p_pad := p_pad st; leftover := left; buffer := buf; final := fin |}.

Definition update_blocks (st : poly1305_context) (m : list Z) : poly1305_context :=
  let want := (length m - length m mod POLY1305_BLOCK_SIZE)%nat in
  let '(st, m) := if (POLY1305_BLOCK_SIZE <=? length m)%nat then (poly1305_blocks st m want, drop want m) else (st, m) in
  match m with [] => st | _ => set_buffer st (leftover st + length m) (copy_at (leftover st) m (buffer st)) (final st) end.

Definition poly1305_update (st : poly1305_context) (m : list Z) : poly1305_context :=
  if (leftover st =? 0)%nat then update_blocks st m
  else
    let want := Nat.min (POLY1305_BLOCK_SIZE - leftover st) (length m) in
    let st := set_buffer st (leftover st + want) (copy_at (leftover st) (take want m) (buffer st)) (final st) in
    if (leftover st <? POLY1305_BLOCK_SIZE)%nat then st
    else let st := poly1305_blocks st (buffer st) POLY1305_BLOCK_SIZE in update_blocks (set_buffer st 0 (buffer st) (final st)) (drop want m).

(** The remaining block, with a one after the data. *)
Definition last_block (st : poly1305_context) : poly1305_context :=
  if (leftover st =? 0)%nat then st
  else
    let buf := take (leftover st) (buffer st) ++ [1] ++ replicate (POLY1305_BLOCK_SIZE - leftover st - 1) 0 in
    let st := set_buffer st (leftover st) buf true in poly1305_blocks st buf POLY1305_BLOCK_SIZE.

(** [fully carry h]. *)
Definition carry_limbs (h : limbs) : limbs :=
  let '(Limbs h0 h1 h2 h3 h4) := h in
  let c := Z.shiftr h1 26 in let h1 := Z.land h1 mask26 in
  let h2 := u32 (h2 + c) in let c := Z.shiftr h2 26 in let h2 := Z.land h2 mask26 in
  let h3 := u32 (h3 + c) in let c := Z.shiftr h3 26 in let h3 := Z.land h3 mask26 in
  let h4 := u32 (h4 + c) in let c := Z.shiftr h4 26 in let h4 := Z.land h4 mask26 in
  let h0 := u32 (h0 + u32 (c * 5)) in let c := Z.shiftr h0 26 in let h0 := Z.land h0 mask26 in
  let h1 := u32 (h1 + c) in
  Limbs h0 h1 h2 h3 h4.

(** [h + -p], and the choice of [h] if [h < p]. *)
Definition select_limbs (h : limbs) : limbs :=
  let '(Limbs h0 h1 h2 h3 h4) := h in
  let g0 := u32 (h0 + 5) in let c := Z.shiftr g0 26 in let g0 := Z.land g0 mask26 in
  let g1 := u32 (h1 + c) in let c := Z.shiftr g1 26 in let g1 := Z.land g1 mask26 in
  let g2 := u32 (h2 + c) in let c := Z.shiftr g2 26 in let g2 := Z.land g2 mask26 in
  let g3 := u32 (h3 + c) in let c := Z.shiftr g3 26 in let g3 := Z.land g3 mask26 in
  let g4 := u32 (h4 + c - Z.shiftl 1 26) in
  let mask := u32 (Z.shiftr g4 31 - 1) in
  let nmask := u32 (Z.lnot mask) in
  let pick h g := Z.lor (Z.land h nmask) (Z.land g mask) in
  Limbs (pick h0 g0) (pick h1 g1) (pick h2 g2) (pick h3 g3) (pick h4 g4).

(** [h = h % (2^128)], in words of 32 bits. *)
Definition pack_limbs (h : limbs) : list Z :=
  let '(Limbs h0 h1 h2 h3 h4) := h in
  [Z.land (Z.lor h0 (u32 (Z.shiftl h1 26))) 0xffffffff; Z.land (Z.lor (Z.shiftr h1 6) (u32 (Z.shiftl h2 20))) 0xffffffff; Z.land (Z.lor (Z.shiftr h2 12) (u32 (Z.shiftl h3 14))) 0xffffffff; Z.land (Z.lor (Z.shiftr h3 18) (u32 (Z.shiftl h4 8))) 0xffffffff].

(** [mac = (h + pad) % (2^128)]. *)
Fixpoint add_pad (f : Z) (h pad : list Z) : list Z :=
  match h, pad with
  | x :: h, y :: pad => let f := u64 (x + y + Z.shiftr f 32) in u32 f :: add_pad f h pad
  | _, _ => []
  end.

Definition poly1305_finish (st : poly1305_context) : list Z :=
  let st := last_block st in
  add_pad 0 (pack_limbs (select_limbs (carry_limbs (p_h st)))) (p_pad st) ≫= WriteLE32.

(** ** The class *)

Definition Poly1305 : Type := poly1305_context.
Definition new_Poly1305 (key : list Z) : option Poly1305 := if (length key =? 32)%nat then Some (poly1305_init key) else None.
Definition Poly1305_Update (p : Poly1305) (msg : list Z) : Poly1305 := poly1305_update p msg.
Definition Poly1305_Finalize (p : Poly1305) : list Z := poly1305_finish p.

(** The example of RFC 8439, section 2.5.2. *)
Definition rfc_key : list Z := [0x85; 0xd6; 0xbe; 0x78; 0x57; 0x55; 0x6d; 0x33; 0x7f; 0x44; 0x52; 0xfe; 0x42; 0xd5; 0x06; 0xa8; 0x01; 0x03; 0x80; 0x8a; 0xfb; 0x0d; 0xb2; 0xfd; 0x4a; 0xbf; 0xf6; 0xaf; 0x41; 0x49; 0xf5; 0x1b].
Definition rfc_msg : list Z := [0x43; 0x72; 0x79; 0x70; 0x74; 0x6f; 0x67; 0x72; 0x61; 0x70; 0x68; 0x69; 0x63; 0x20; 0x46; 0x6f; 0x72; 0x75; 0x6d; 0x20; 0x52; 0x65; 0x73; 0x65; 0x61; 0x72; 0x63; 0x68; 0x20; 0x47; 0x72; 0x6f; 0x75; 0x70].
Example rfc_tag : poly1305_finish (poly1305_update (poly1305_init rfc_key) rfc_msg) = [0xa8; 0x06; 0x1d; 0xc1; 0x30; 0x51; 0x36; 0xc6; 0xc2; 0x2b; 0x8b; 0xaf; 0x0c; 0x01; 0x27; 0xa9].
Proof. vm_compute. reflexivity. Qed.
