(* ===== verification/Poly1305Proofs.v ===== *)
(** * Poly1305, proofs

    The arithmetic of the limbs, then the tag of a whole message. *)

From stdpp Require Import base numbers list.
From Stdlib Require Import ZArith Lia.
From S2P Require Import Prelude Compact HashWriter Poly1305.

Local Open Scope Z_scope.

(** * Poly1305, proofs

    The limbs never overflow, and the tag is the polynomial of the message at
    the key, modulo [2 ^ 130 - 5], plus the second half of the key, modulo
    [2 ^ 128]. *)

Definition P1305 : Z := 2 ^ 130 - 5.
Definition X26 : Z := 2 ^ 26.
Definition value (h : limbs) : Z := l0 h + 2 ^ 26 * l1 h + 2 ^ 52 * l2 h + 2 ^ 78 * l3 h + 2 ^ 104 * l4 h.

(** Limbs of the key, of the accumulator between blocks, and after a block is added. *)
Record key_limbs (r : limbs) : Prop := { kr0 : 0 <= l0 r <= 0x3ffffff; kr1 : 0 <= l1 r <= 0x3ffff03; kr2 : 0 <= l2 r <= 0x3ffc0ff; kr3 : 0 <= l3 r <= 0x3f03fff; kr4 : 0 <= l4 r <= 0xfffff }.
Record acc_limbs (h : limbs) : Prop := { ah0 : 0 <= l0 h < 2 ^ 26; ah1 : 0 <= l1 h < 2 ^ 26 + 64; ah2 : 0 <= l2 h < 2 ^ 26; ah3 : 0 <= l3 h < 2 ^ 26; ah4 : 0 <= l4 h < 2 ^ 26 }.
Record sum_limbs (h : limbs) : Prop := { sh0 : 0 <= l0 h < 2 ^ 27; sh1 : 0 <= l1 h < 2 ^ 27 + 64; sh2 : 0 <= l2 h < 2 ^ 27; sh3 : 0 <= l3 h < 2 ^ 27; sh4 : 0 <= l4 h < 2 ^ 27 }.

Lemma land26 x : Z.land x mask26 = x mod 2 ^ 26.
Proof. change mask26 with (Z.ones 26). apply Z.land_ones. lia. Qed.
Lemma shiftr26 x : Z.shiftr x 26 = x / 2 ^ 26.
Proof. apply Z.shiftr_div_pow2. lia. Qed.
Lemma small32 x : 0 <= x < 2 ^ 32 -> u32 x = x.
Proof. apply uwrap_small. Qed.
Lemma small64 x : 0 <= x < 2 ^ 64 -> u64 x = x.
Proof. apply uwrap_small. Qed.
Lemma low26 x : u32 x mod 2 ^ 26 = x mod 2 ^ 26.
Proof. unfold uwrap. apply Z.mod_mod_divide. exists (2 ^ 6). reflexivity. Qed.
Lemma prod_le a b A B : 0 <= a <= A -> 0 <= b <= B -> 0 <= a * b <= A * B.
Proof. nia. Qed.

(** ** One block *)

(** The products without wrapping. *)
Definition raw_limbs (h r : limbs) : limbs :=
  let '(Limbs h0 h1 h2 h3 h4) := h in
  let '(Limbs r0 r1 r2 r3 r4) := r in
  Limbs (h0 * r0 + h1 * (r4 * 5) + h2 * (r3 * 5) + h3 * (r2 * 5) + h4 * (r1 * 5)) (h0 * r1 + h1 * r0 + h2 * (r4 * 5) + h3 * (r3 * 5) + h4 * (r2 * 5)) (h0 * r2 + h1 * r1 + h2 * r0 + h3 * (r4 * 5) + h4 * (r3 * 5))
    (h0 * r3 + h1 * r2 + h2 * r1 + h3 * r0 + h4 * (r4 * 5)) (h0 * r4 + h1 * r3 + h2 * r2 + h3 * r1 + h4 * r0).

Record raw_bounds (d : limbs) : Prop := { rb0 : 0 <= l0 d < 17 * 2 ^ 53; rb1 : 0 <= l1 d < 17 * 2 ^ 53; rb2 : 0 <= l2 d < 17 * 2 ^ 53; rb3 : 0 <= l3 d < 17 * 2 ^ 53; rb4 : 0 <= l4 d < 5 * 2 ^ 53 }.

Lemma dot5 a b c d e v w x y z A B C D E V W X Y Z0 m : 0 <= a < A -> 0 <= b < B -> 0 <= c < C -> 0 <= d < D -> 0 <= e < E -> 0 <= v <= V -> 0 <= w <= W -> 0 <= x <= X -> 0 <= y <= Y -> 0 <= z <= Z0 ->
  A * V + B * W + C * X + D * Y + E * Z0 < m -> 0 <= a * v + b * w + c * x + d * y + e * z < m.
Proof.
  intros Ha Hb Hc Hd He Hv Hw Hx Hy Hz Hm. pose proof (prod_le a v A V ltac:(lia) Hv). pose proof (prod_le b w B W ltac:(lia) Hw). pose proof (prod_le c x C X ltac:(lia) Hx). pose proof (prod_le d y D Y ltac:(lia) Hy). pose proof (prod_le e z E Z0 ltac:(lia) Hz). lia.
Qed.

Lemma mul_limbs_raw h r : sum_limbs h -> key_limbs r -> mul_limbs h r = raw_limbs h r /\ raw_bounds (raw_limbs h r).
Proof.
  destruct h as [h0 h1 h2 h3 h4], r as [r0 r1 r2 r3 r4]. intros [H0 H1 H2 H3 H4] [R0 R1 R2 R3 R4]. cbn [l0 l1 l2 l3 l4] in *.
  assert (S1 : 0 <= r1 * 5 <= 5 * 0x3ffff03) by lia. assert (S2 : 0 <= r2 * 5 <= 5 * 0x3ffc0ff) by lia. assert (S3 : 0 <= r3 * 5 <= 5 * 0x3f03fff) by lia. assert (S4 : 0 <= r4 * 5 <= 5 * 0xfffff) by lia.
  assert (B : raw_bounds (raw_limbs (Limbs h0 h1 h2 h3 h4) (Limbs r0 r1 r2 r3 r4))) by (split; cbn [raw_limbs l0 l1 l2 l3 l4]; eapply dot5; try eassumption; reflexivity).
  split; [|exact B]. destruct B as [B0 B1 B2 B3 B4]. cbn [raw_limbs l0 l1 l2 l3 l4] in *. unfold mul_limbs. rewrite (small32 (r1 * 5)), (small32 (r2 * 5)), (small32 (r3 * 5)), (small32 (r4 * 5)) by lia.
  assert (W : forall x m, 0 <= x < m -> m < 2 ^ 64 -> u64 x = x) by (intros x m Hx Hm; apply small64; lia). rewrite (W _ _ B0), (W _ _ B1), (W _ _ B2), (W _ _ B3), (W _ _ B4) by reflexivity. reflexivity.
Qed.

(** The product of limbs is the product of values, up to a multiple of the prime. *)
Definition high_part (h r : limbs) : Z :=
  let '(Limbs h0 h1 h2 h3 h4) := h in
  let '(Limbs r0 r1 r2 r3 r4) := r in
  (h1 * r4 + h2 * r3 + h3 * r2 + h4 * r1) + 2 ^ 26 * (h2 * r4 + h3 * r3 + h4 * r2) + 2 ^ 52 * (h3 * r4 + h4 * r3) + 2 ^ 78 * (h4 * r4).
Lemma raw_value h r : value (raw_limbs h r) = value h * value r - P1305 * high_part h r.
Proof. destruct h as [h0 h1 h2 h3 h4], r as [r0 r1 r2 r3 r4]. unfold value, raw_limbs, high_part, P1305. cbn [l0 l1 l2 l3 l4]. ring. Qed.

Lemma reduce_spec d : raw_bounds d -> acc_limbs (reduce_limbs d) /\ exists q, value (reduce_limbs d) = value d - P1305 * q.
Proof.
  destruct d as [d0 d1 d2 d3 d4]. intros [B0 B1 B2 B3 B4]. cbn [l0 l1 l2 l3 l4] in *. unfold reduce_limbs. rewrite !shiftr26, !land26, !low26.
  rewrite (small32 (d0 / 2 ^ 26)) by (split; [apply Z.div_pos; lia|apply Z.div_lt_upper_bound; lia]). set (c0 := d0 / 2 ^ 26). assert (C0 : 0 <= c0 < 17 * 2 ^ 27) by (split; [apply Z.div_pos; lia|apply Z.div_lt_upper_bound; lia]).
  rewrite (small64 (d1 + c0)) by lia. set (e1 := d1 + c0). rewrite (small32 (e1 / 2 ^ 26)) by (unfold e1; split; [apply Z.div_pos; lia|apply Z.div_lt_upper_bound; lia]). set (c1 := e1 / 2 ^ 26). assert (C1 : 0 <= c1 < 18 * 2 ^ 27) by (unfold c1, e1; split; [apply Z.div_pos; lia|apply Z.div_lt_upper_bound; lia]).
  rewrite (small64 (d2 + c1)) by lia. set (e2 := d2 + c1). rewrite (small32 (e2 / 2 ^ 26)) by (unfold e2; split; [apply Z.div_pos; lia|apply Z.div_lt_upper_bound; lia]). set (c2 := e2 / 2 ^ 26). assert (C2 : 0 <= c2 < 18 * 2 ^ 27) by (unfold c2, e2; split; [apply Z.div_pos; lia|apply Z.div_lt_upper_bound; lia]).
  rewrite (small64 (d3 + c2)) by lia. set (e3 := d3 + c2). rewrite (small32 (e3 / 2 ^ 26)) by (unfold e3; split; [apply Z.div_pos; lia|apply Z.div_lt_upper_bound; lia]). set (c3 := e3 / 2 ^ 26). assert (C3 : 0 <= c3 < 18 * 2 ^ 27) by (unfold c3, e3; split; [apply Z.div_pos; lia|apply Z.div_lt_upper_bound; lia]).
  rewrite (small64 (d4 + c3)) by lia. set (e4 := d4 + c3). rewrite (small32 (e4 / 2 ^ 26)) by (unfold e4; split; [apply Z.div_pos; lia|apply Z.div_lt_upper_bound; lia]). set (c4 := e4 / 2 ^ 26). assert (C4 : 0 <= c4 < 6 * 2 ^ 27) by (unfold c4, e4; split; [apply Z.div_pos; lia|apply Z.div_lt_upper_bound; lia]).
  pose proof (Z.mod_pos_bound d0 (2 ^ 26) ltac:(lia)) as M0. pose proof (Z.mod_pos_bound e1 (2 ^ 26) ltac:(lia)) as M1. pose proof (Z.mod_pos_bound e2 (2 ^ 26) ltac:(lia)) as M2. pose proof (Z.mod_pos_bound e3 (2 ^ 26) ltac:(lia)) as M3. pose proof (Z.mod_pos_bound e4 (2 ^ 26) ltac:(lia)) as M4.
  rewrite (small32 (c4 * 5)) by lia. rewrite (small32 (d0 mod 2 ^ 26 + c4 * 5)) by lia. set (f0 := d0 mod 2 ^ 26 + c4 * 5). assert (F : 0 <= f0 / 2 ^ 26 < 64) by (unfold f0; split; [apply Z.div_pos; lia|apply Z.div_lt_upper_bound; lia]). rewrite (small32 (e1 mod 2 ^ 26 + f0 / 2 ^ 26)) by lia.
  pose proof (Z.mod_pos_bound f0 (2 ^ 26) ltac:(lia)) as MF. split; [split; cbn [l0 l1 l2 l3 l4]; lia|]. exists c4. unfold value. cbn [l0 l1 l2 l3 l4].
  pose proof (Z.div_mod d0 (2 ^ 26) ltac:(lia)) as D0. pose proof (Z.div_mod e1 (2 ^ 26) ltac:(lia)) as D1. pose proof (Z.div_mod e2 (2 ^ 26) ltac:(lia)) as D2. pose proof (Z.div_mod e3 (2 ^ 26) ltac:(lia)) as D3. pose proof (Z.div_mod e4 (2 ^ 26) ltac:(lia)) as D4. pose proof (Z.div_mod f0 (2 ^ 26) ltac:(lia)) as DF.
  fold c0 in D0. fold c1 in D1. fold c2 in D2. fold c3 in D3. fold c4 in D4. unfold P1305. unfold e1, e2, e3, e4, f0 in *. lia.
Qed.

(** ** Message blocks *)


Lemma ReadLE32_at m k : bytes_ok m -> (k + 4 <= length m)%nat -> ReadLE32 (drop k m) = le_val 8 m / 2 ^ (8 * Z.of_nat k) mod 2 ^ 32.
Proof.
  intros Hm Hl. unfold ReadLE32. pose proof (le_val_app 8 (take k m) (drop k m) ltac:(lia)) as E1. rewrite take_drop in E1. pose proof (le_val_app 8 (take 4 (drop k m)) (drop 4 (drop k m)) ltac:(lia)) as E2. rewrite take_drop in E2.
  rewrite length_take in E1. replace (Nat.min k (length m)) with k in E1 by lia. rewrite length_take, length_drop in E2. replace (Nat.min 4 (length m - k)) with 4%nat in E2 by lia. change (8 * Z.of_nat 4) with 32 in E2.
  pose proof (le_val_bound 8 (take k m) ltac:(lia) ltac:(apply Forall_take, Hm)) as B1. rewrite length_take in B1. replace (Nat.min k (length m)) with k in B1 by lia. pose proof (le_val_bound 8 (take 4 (drop k m)) ltac:(lia) ltac:(apply Forall_take, Forall_drop, Hm)) as B2. rewrite length_take, length_drop in B2. replace (Nat.min 4 (length m - k)) with 4%nat in B2 by lia. change (8 * Z.of_nat 4) with 32 in B2.
  rewrite E1. rewrite (Z.mul_comm (2 ^ (8 * Z.of_nat k))), Z.div_add, (Z.div_small (le_val 8 (take k m))), Z.add_0_l, E2 by lia. rewrite (Z.mul_comm (2 ^ 32)), Z.mod_add, Z.mod_small by lia. reflexivity.
Qed.

Lemma limb_of y j : 0 <= j <= 6 -> Z.land (Z.shiftr (y mod 2 ^ 32) j) mask26 = y / 2 ^ j mod 2 ^ 26.
Proof.
  intros Hj. rewrite land26, Z.shiftr_div_pow2 by lia. apply Z.bits_inj'. intros i Hi. destruct (Z.ltb_spec i 26).
  - rewrite !Z.mod_pow2_bits_low, !Z.div_pow2_bits, Z.mod_pow2_bits_low by lia. reflexivity.
  - rewrite !Z.mod_pow2_bits_high by lia. reflexivity.
Qed.

Lemma block_limbs m : bytes_ok m -> (16 <= length m)%nat -> let N := le_val 8 (take 16 m) in
  Z.land (ReadLE32 m) mask26 = N mod 2 ^ 26 /\ Z.land (Z.shiftr (ReadLE32 (drop 3 m)) 2) mask26 = N / 2 ^ 26 mod 2 ^ 26 /\ Z.land (Z.shiftr (ReadLE32 (drop 6 m)) 4) mask26 = N / 2 ^ 52 mod 2 ^ 26 /\
  Z.land (Z.shiftr (ReadLE32 (drop 9 m)) 6) mask26 = N / 2 ^ 78 mod 2 ^ 26 /\ Z.shiftr (ReadLE32 (drop 12 m)) 8 = N / 2 ^ 104 /\ 0 <= N < 2 ^ 128.
Proof.
  intros Hm Hl N. set (b := take 16 m) in *. assert (Lb : length b = 16%nat) by (unfold b; rewrite length_take; lia). assert (Hb : bytes_ok b) by (apply Forall_take, Hm).
  assert (R : forall k, (k + 4 <= 16)%nat -> ReadLE32 (drop k m) = N / 2 ^ (8 * Z.of_nat k) mod 2 ^ 32).
  { intros k Hk. unfold N. rewrite <- (ReadLE32_at b k Hb) by lia. unfold ReadLE32, b. rewrite !take_drop_commute, take_take. do 3 f_equal. lia. }
  pose proof (le_val_bound 8 b ltac:(lia) Hb) as BN. rewrite Lb in BN. change (2 ^ (8 * Z.of_nat 16)) with (2 ^ 128) in BN. fold N in BN. pose proof (R 0%nat ltac:(lia)) as R0. rewrite drop_0, Z.div_1_r in R0.
  assert (D : forall a j, 0 <= a -> 0 <= j -> N / 2 ^ a / 2 ^ j = N / 2 ^ (a + j)) by (intros a j Ha Hj; rewrite Z.div_div, Z.pow_add_r by lia; reflexivity).
  rewrite R0, (R 3%nat), (R 6%nat), (R 9%nat), (R 12%nat) by lia. split_and!; try lia.
  - pose proof (limb_of N 0 ltac:(lia)) as E. rewrite Z.shiftr_0_r, Z.div_1_r in E. exact E.
  - rewrite limb_of, D by lia. reflexivity.
  - rewrite limb_of, D by lia. reflexivity.
  - rewrite limb_of, D by lia. reflexivity.
  - rewrite Z.shiftr_div_pow2 by lia. rewrite Z.mod_small, D by (first [lia|split; [apply Z.div_pos; lia|apply Z.div_lt_upper_bound; [lia|]; change (8 * Z.of_nat 12) with 96; lia]]). reflexivity.
Qed.

Definition hibit_ok (hibit : Z) : Prop := hibit = 0 \/ hibit = 2 ^ 24.

Lemma add_block_spec h m hibit : acc_limbs h -> bytes_ok m -> (16 <= length m)%nat -> hibit_ok hibit ->
  sum_limbs (add_block h m hibit) /\ value (add_block h m hibit) = value h + le_val 8 (take 16 m) + 2 ^ 104 * hibit.
Proof.
  intros [A0 A1 A2 A3 A4] Hm Hl Hh. destruct (block_limbs m Hm Hl) as (E0 & E1 & E2 & E3 & E4 & BN). set (N := le_val 8 (take 16 m)) in *. unfold add_block. rewrite E0, E1, E2, E3, E4.
  assert (Q4 : 0 <= N / 2 ^ 104 < 2 ^ 24) by (split; [apply Z.div_pos; lia|apply Z.div_lt_upper_bound; lia]).
  assert (Eo : Z.lor (N / 2 ^ 104) hibit = N / 2 ^ 104 + hibit) by (destruct Hh as [->| ->]; [rewrite Z.lor_0_r; lia|]; pose proof (lor_low_high 24 (N / 2 ^ 104) 1 ltac:(lia) Q4) as L; rewrite Z.shiftl_mul_pow2 in L by lia; rewrite Z.mul_1_l in L; exact L).
  rewrite Eo. pose proof (Z.mod_pos_bound N (2 ^ 26) ltac:(lia)) as M0. pose proof (Z.mod_pos_bound (N / 2 ^ 26) (2 ^ 26) ltac:(lia)) as M1. pose proof (Z.mod_pos_bound (N / 2 ^ 52) (2 ^ 26) ltac:(lia)) as M2. pose proof (Z.mod_pos_bound (N / 2 ^ 78) (2 ^ 26) ltac:(lia)) as M3.
  assert (Hb : 0 <= hibit <= 2 ^ 24) by (destruct Hh as [->| ->]; lia). rewrite !small32 by lia. split; [split; cbn [l0 l1 l2 l3 l4]; lia|]. unfold value. cbn [l0 l1 l2 l3 l4].
  pose proof (Z.div_mod N (2 ^ 26) ltac:(lia)) as D0. pose proof (Z.div_mod (N / 2 ^ 26) (2 ^ 26) ltac:(lia)) as D1. pose proof (Z.div_mod (N / 2 ^ 52) (2 ^ 26) ltac:(lia)) as D2. pose proof (Z.div_mod (N / 2 ^ 78) (2 ^ 26) ltac:(lia)) as D3.
  replace (N / 2 ^ 26 / 2 ^ 26) with (N / 2 ^ 52) in D1 by (rewrite Z.div_div by lia; reflexivity). replace (N / 2 ^ 52 / 2 ^ 26) with (N / 2 ^ 78) in D2 by (rewrite Z.div_div by lia; reflexivity). replace (N / 2 ^ 78 / 2 ^ 26) with (N / 2 ^ 104) in D3 by (rewrite Z.div_div by lia; reflexivity). lia.
Qed.

Lemma block_step h r m hibit : acc_limbs h -> key_limbs r -> bytes_ok m -> (16 <= length m)%nat -> hibit_ok hibit ->
  acc_limbs (reduce_limbs (mul_limbs (add_block h m hibit) r)) /\ value (reduce_limbs (mul_limbs (add_block h m hibit) r)) mod P1305 = (value h + le_val 8 (take 16 m) + 2 ^ 104 * hibit) * value r mod P1305.
Proof.
  intros A K Hm Hl Hh. destruct (add_block_spec h m hibit A Hm Hl Hh) as [S E]. destruct (mul_limbs_raw _ r S K) as [-> B]. destruct (reduce_spec _ B) as [A' [q Eq]]. split; [exact A'|]. rewrite Eq, raw_value, E. set (v := (_ + _ + _) * value r). set (hp := high_part _ r).
  replace (v - P1305 * hp - P1305 * q) with (v + (- hp - q) * P1305) by ring. apply Z.mod_add. discriminate.
Qed.

(** ** The end *)

Record norm_limbs (h : limbs) : Prop := { nh0 : 0 <= l0 h < 2 ^ 26; nh1 : 0 <= l1 h < 2 ^ 26; nh2 : 0 <= l2 h < 2 ^ 26; nh3 : 0 <= l3 h < 2 ^ 26; nh4 : 0 <= l4 h < 2 ^ 26 }.

Lemma div_facts a b : 0 < b -> a = b * (a / b) + a mod b /\ 0 <= a mod b < b.
Proof. intros H. split; [apply Z.div_mod; lia|apply Z.mod_pos_bound, H]. Qed.

Lemma carry_spec h : acc_limbs h -> norm_limbs (carry_limbs h) /\ exists q, value (carry_limbs h) = value h - P1305 * q.
Proof.
  destruct h as [h0 h1 h2 h3 h4]. intros [A0 A1 A2 A3 A4]. cbn [l0 l1 l2 l3 l4] in *. unfold carry_limbs. rewrite !shiftr26, !land26. destruct (div_facts h1 (2 ^ 26) ltac:(lia)) as [D1 M1]. set (c1 := h1 / 2 ^ 26) in *. assert (C1 : 0 <= c1 <= 1) by lia.
  rewrite (small32 (h2 + c1)) by lia. destruct (div_facts (h2 + c1) (2 ^ 26) ltac:(lia)) as [D2 M2]. set (c2 := (h2 + c1) / 2 ^ 26) in *. assert (C2 : 0 <= c2 <= c1) by lia.
  rewrite (small32 (h3 + c2)) by lia. destruct (div_facts (h3 + c2) (2 ^ 26) ltac:(lia)) as [D3 M3]. set (c3 := (h3 + c2) / 2 ^ 26) in *. assert (C3 : 0 <= c3 <= c2) by lia.
  rewrite (small32 (h4 + c3)) by lia. destruct (div_facts (h4 + c3) (2 ^ 26) ltac:(lia)) as [D4 M4]. set (c4 := (h4 + c3) / 2 ^ 26) in *. assert (C4 : 0 <= c4 <= c3) by lia.
  rewrite (small32 (c4 * 5)), (small32 (h0 + c4 * 5)) by lia. destruct (div_facts (h0 + c4 * 5) (2 ^ 26) ltac:(lia)) as [D0 M0]. set (c5 := (h0 + c4 * 5) / 2 ^ 26) in *. assert (C5 : 0 <= c5 <= c4) by lia. rewrite (small32 (h1 mod 2 ^ 26 + c5)) by lia.
  split; [split; cbn [l0 l1 l2 l3 l4]; lia|]. exists c4. unfold value, P1305. cbn [l0 l1 l2 l3 l4]. lia.
Qed.

Lemma value_norm h : norm_limbs h -> 0 <= value h < 2 ^ 130.
Proof. intros [A0 A1 A2 A3 A4]. unfold value. lia. Qed.

(** The masks choose one of the two. *)
Lemma pick_zero h g : 0 <= h < 2 ^ 32 -> Z.lor (Z.land h (u32 (Z.lnot 0))) (Z.land g 0) = h.
Proof. intros Hh. rewrite Z.land_0_r, Z.lor_0_r. change (u32 (Z.lnot 0)) with (Z.ones 32). rewrite Z.land_ones by lia. apply Z.mod_small, Hh. Qed.
Lemma pick_ones h g : 0 <= g < 2 ^ 32 -> Z.lor (Z.land h (u32 (Z.lnot (2 ^ 32 - 1)))) (Z.land g (2 ^ 32 - 1)) = g.
Proof. intros Hg. change (u32 (Z.lnot (2 ^ 32 - 1))) with 0. rewrite Z.land_0_r, Z.lor_0_l. change (2 ^ 32 - 1) with (Z.ones 32). rewrite Z.land_ones by lia. apply Z.mod_small, Hg. Qed.

Lemma select_spec h : norm_limbs h -> norm_limbs (select_limbs h) /\ value (select_limbs h) = value h mod P1305.
Proof.
  intros N. pose proof (value_norm h N) as V. destruct h as [h0 h1 h2 h3 h4]. destruct N as [A0 A1 A2 A3 A4]. cbn [l0 l1 l2 l3 l4] in *. unfold select_limbs. rewrite !shiftr26, !land26.
  rewrite (small32 (h0 + 5)) by lia. destruct (div_facts (h0 + 5) (2 ^ 26) ltac:(lia)) as [D0 M0]. set (c0 := (h0 + 5) / 2 ^ 26) in *. assert (C0 : 0 <= c0 <= 1) by lia.
  rewrite (small32 (h1 + c0)) by lia. destruct (div_facts (h1 + c0) (2 ^ 26) ltac:(lia)) as [D1 M1]. set (c1 := (h1 + c0) / 2 ^ 26) in *. assert (C1 : 0 <= c1 <= 1) by lia.
  rewrite (small32 (h2 + c1)) by lia. destruct (div_facts (h2 + c1) (2 ^ 26) ltac:(lia)) as [D2 M2]. set (c2 := (h2 + c1) / 2 ^ 26) in *. assert (C2 : 0 <= c2 <= 1) by lia.
  rewrite (small32 (h3 + c2)) by lia. destruct (div_facts (h3 + c2) (2 ^ 26) ltac:(lia)) as [D3 M3]. set (c3 := (h3 + c2) / 2 ^ 26) in *. assert (C3 : 0 <= c3 <= 1) by lia. change (Z.shiftl 1 26) with (2 ^ 26).
  rewrite Z.shiftr_div_pow2 by lia. destruct (Z_lt_ge_dec (h4 + c3) (2 ^ 26)) as [Hlt|Hge].
  - assert (Eg : u32 (h4 + c3 - 2 ^ 26) = h4 + c3 - 2 ^ 26 + 2 ^ 32) by (unfold uwrap; rewrite <- (Z.mod_add _ 1) by lia; rewrite Z.mod_small by lia; lia). rewrite Eg. assert (Es : (h4 + c3 - 2 ^ 26 + 2 ^ 32) / 2 ^ 31 = 1) by (symmetry; apply (Z.div_unique _ _ 1 (h4 + c3 - 2 ^ 26 + 2 ^ 31)); lia). rewrite Es. change (u32 (1 - 1)) with 0. rewrite !pick_zero by lia.
    split; [split; cbn [l0 l1 l2 l3 l4]; lia|]. symmetry. apply Z.mod_small. unfold value, P1305 in *. cbn [l0 l1 l2 l3 l4] in *. lia.
  - rewrite (small32 (h4 + c3 - 2 ^ 26)) by lia. assert (Es : (h4 + c3 - 2 ^ 26) / 2 ^ 31 = 0) by (apply Z.div_small; lia). rewrite Es. change (u32 (0 - 1)) with (2 ^ 32 - 1). rewrite !pick_ones by lia.
    split; [split; cbn [l0 l1 l2 l3 l4]; lia|]. unfold value, P1305 in *. cbn [l0 l1 l2 l3 l4] in *. apply (Z.mod_unique _ _ 1); lia.
Qed.

Lemma pack_word lo hi j : 0 < j < 32 -> 0 <= lo < 2 ^ j -> Z.land (Z.lor lo (u32 (Z.shiftl hi j))) 0xffffffff = lo + 2 ^ j * (hi mod 2 ^ (32 - j)).
Proof.
  intros Hj Hlo. assert (E : u32 (Z.shiftl hi j) = Z.shiftl (hi mod 2 ^ (32 - j)) j).
  { rewrite !Z.shiftl_mul_pow2 by lia. unfold uwrap. replace (2 ^ 32) with (2 ^ (32 - j) * 2 ^ j) by (rewrite <- Z.pow_add_r by lia; f_equal; lia). apply Z.mul_mod_distr_r; apply Z.pow_nonzero; lia. }
  rewrite E, (lor_low_high j lo _ ltac:(lia) Hlo). change 0xffffffff with (Z.ones 32). rewrite Z.land_ones by lia. pose proof (Z.mod_pos_bound hi (2 ^ (32 - j)) ltac:(apply Z.pow_pos_nonneg; lia)) as M. assert (E32 : 2 ^ 32 = 2 ^ (32 - j) * 2 ^ j) by (rewrite <- Z.pow_add_r by lia; f_equal; lia). rewrite Z.mod_small by nia. lia.
Qed.

Lemma pack_spec h : norm_limbs h -> Forall (in_u 32) (pack_limbs h) /\ le_val 32 (pack_limbs h) = value h mod 2 ^ 128 /\ length (pack_limbs h) = 4%nat.
Proof.
  destruct h as [h0 h1 h2 h3 h4]. intros [A0 A1 A2 A3 A4]. cbn [l0 l1 l2 l3 l4] in *. unfold pack_limbs. rewrite !Z.shiftr_div_pow2 by lia. destruct (div_facts h1 (2 ^ 6) ltac:(lia)) as [D1 M1]. destruct (div_facts h2 (2 ^ 12) ltac:(lia)) as [D2 M2]. destruct (div_facts h3 (2 ^ 18) ltac:(lia)) as [D3 M3]. destruct (div_facts h4 (2 ^ 24) ltac:(lia)) as [D4 M4].
  rewrite (pack_word h0 h1 26), (pack_word (h1 / 2 ^ 6) h2 20), (pack_word (h2 / 2 ^ 12) h3 14), (pack_word (h3 / 2 ^ 18) h4 8) by lia. change (32 - 26) with 6. change (32 - 20) with 12. change (32 - 14) with 18. change (32 - 8) with 24.
  split_and!; [repeat constructor; lia| |reflexivity]. cbn [le_val]. apply (Z.mod_unique _ _ (h4 / 2 ^ 24)); [left|]; unfold value; cbn [l0 l1 l2 l3 l4]; lia.
Qed.

Lemma add_pad_spec h : forall pad f, length pad = length h -> Forall (in_u 32) h -> Forall (in_u 32) pad -> 0 <= f < 2 ^ 34 ->
  le_val 32 (add_pad f h pad) = (le_val 32 h + le_val 32 pad + f / 2 ^ 32) mod 2 ^ (32 * Z.of_nat (length h)) /\ Forall (in_u 32) (add_pad f h pad) /\ length (add_pad f h pad) = length h.
Proof.
  induction h as [|x h IH]; intros [|y pad] f Hl Hh Hp Hf; try discriminate Hl; cbn [add_pad le_val length].
  - rewrite Z.mod_1_r. auto.
  - apply Forall_cons_1 in Hh as [Hx Hh]. apply Forall_cons_1 in Hp as [Hy Hp]. injection Hl as Hl. unfold in_u in Hx, Hy. rewrite Z.shiftr_div_pow2 by lia. assert (Hc : 0 <= f / 2 ^ 32 < 4) by (split; [apply Z.div_pos; lia|apply Z.div_lt_upper_bound; lia]). rewrite (small64 (x + y + f / 2 ^ 32)) by lia. set (g := x + y + f / 2 ^ 32).
    destruct (IH pad g Hl Hh Hp ltac:(lia)) as (E & F & L). split_and!; [|constructor; [apply uwrap_range; lia|exact F]|rewrite L; reflexivity]. rewrite E. unfold uwrap. rewrite Nat2Z.inj_succ, Z.mul_succ_r, Z.pow_add_r by lia. destruct (div_facts g (2 ^ 32) ltac:(lia)) as [Dg Mg].
    rewrite (Z.mul_comm (2 ^ (32 * Z.of_nat (length h)))), Z.rem_mul_r by (try apply Z.pow_nonzero; try apply Z.pow_pos_nonneg; lia).
    replace (x + 2 ^ 32 * le_val 32 h + (y + 2 ^ 32 * le_val 32 pad) + f / 2 ^ 32) with (g + (le_val 32 h + le_val 32 pad) * 2 ^ 32) by (unfold g; ring). rewrite Z.mod_add, Z.div_add by lia. f_equal. f_equal. f_equal. ring.
Qed.

Lemma le_digits_app n : forall k z, le_digits 8 (n + k) z = le_digits 8 n z ++ le_digits 8 k (z / 2 ^ (8 * Z.of_nat n)).
Proof.
  induction n as [|n IH]; intros k z; [cbn; rewrite Z.div_1_r; reflexivity|]. cbn [Nat.add le_digits app]. rewrite IH. do 3 f_equal. rewrite Z.div_div by lia. f_equal. rewrite <- Z.pow_add_r by lia. f_equal. lia.
Qed.
Lemma words_digits ws : Forall (in_u 32) ws -> ws ≫= WriteLE32 = le_digits 8 (4 * length ws) (le_val 32 ws).
Proof.
  induction 1 as [|x ws Hx _ IH]; [reflexivity|]. rewrite bind_cons, IH. cbn [length le_val]. replace (4 * S (length ws))%nat with (4 + 4 * length ws)%nat by lia. rewrite le_digits_app. change (8 * Z.of_nat 4) with 32. unfold in_u in Hx. f_equal.
  - unfold WriteLE32. cbn [le_digits]. rewrite !Z.div_div by lia. replace (x + 2 ^ 32 * le_val 32 ws) with (x + 2 ^ 24 * le_val 32 ws * 2 ^ 8) by ring.
    assert (E : forall a k b, 0 < a -> 0 < k -> (x + b * (a * k)) / a mod k = x / a mod k) by (intros a k b Ha Hk; replace (b * (a * k)) with (b * k * a) by ring; rewrite Z.div_add, Z.mod_add by lia; reflexivity).
    f_equal; [rewrite Z.mod_add by lia; reflexivity|]. f_equal; [symmetry; rewrite <- (E (2 ^ 8) (2 ^ 8) (2 ^ 16 * le_val 32 ws)) by lia; do 2 f_equal; ring|]. f_equal; [symmetry; rewrite <- (E (2 ^ 8 * 2 ^ 8) (2 ^ 8) (2 ^ 8 * le_val 32 ws)) by lia; do 2 f_equal; ring|]. f_equal. symmetry. rewrite <- (E (2 ^ 8 * 2 ^ 8 * 2 ^ 8) (2 ^ 8) (le_val 32 ws)) by lia. do 2 f_equal; ring.
  - f_equal. rewrite (Z.mul_comm (2 ^ 32)), Z.div_add, Z.div_small by lia. reflexivity.
Qed.

(** ** The polynomial *)

Fixpoint poly_blocks (n : nat) (r acc : Z) (m : list Z) : Z :=
  match n with O => acc | S n => poly_blocks n r ((acc + le_val 8 (take 16 m) + 2 ^ 128) * r mod P1305) (drop 16 m) end.
Definition poly_acc (r : Z) (m : list Z) : Z :=
  let acc := poly_blocks (length m / 16) r 0 m in
  let rest := drop (16 * (length m / 16)) m in
  if (length rest =? 0)%nat then acc else (acc + le_val 8 (rest ++ [1])) * r mod P1305.
(** The key without the bits that are to be clear. *)
Definition clamp (key : list Z) : Z := Z.land (le_val 8 (take 16 key)) 0x0ffffffc0ffffffc0ffffffc0fffffff.
Definition poly1305_tag (key m : list Z) : list Z := le_digits 8 16 (poly_acc (clamp key) m + le_val 8 (take 16 (drop 16 key))).

Lemma poly_blocks_prefix n : forall r acc m x, (16 * n <= length m)%nat -> poly_blocks n r acc (m ++ x) = poly_blocks n r acc m.
Proof. induction n as [|n IH]; intros r acc m x H; [reflexivity|]. cbn [poly_blocks]. rewrite take_app_le, drop_app_le by lia. apply IH. rewrite length_drop. lia. Qed.
Lemma poly_blocks_app a : forall b r acc m, poly_blocks (a + b) r acc m = poly_blocks b r (poly_blocks a r acc m) (drop (16 * a) m).
Proof. induction a as [|a IH]; intros b r acc m; [reflexivity|]. cbn [poly_blocks Nat.add]. rewrite IH, drop_drop. do 2 f_equal. lia. Qed.

Lemma blocks_loop_take n : forall r h hb d, blocks_loop n r h hb (take (16 * n) d) = blocks_loop n r h hb d.
Proof.
  induction n as [|n IH]; intros r h hb d; [reflexivity|]. cbn [blocks_loop]. assert (D : forall k, (k + 4 <= 16)%nat -> ReadLE32 (drop k (take (16 * S n) d)) = ReadLE32 (drop k d)) by (intros k Hk; unfold ReadLE32; rewrite !take_drop_commute, take_take; do 3 f_equal; lia).
  pose proof (D 0%nat ltac:(lia)) as D0. rewrite !drop_0 in D0. unfold add_block. rewrite D0, !D by lia. change POLY1305_BLOCK_SIZE with 16%nat. rewrite skipn_firstn_comm. replace (16 * S n - 16)%nat with (16 * n)%nat by lia. apply IH.
Qed.
Lemma blocks_loop_spec r : key_limbs r -> forall n h m, acc_limbs h -> bytes_ok m -> (16 * n <= length m)%nat ->
  acc_limbs (blocks_loop n r h (Z.shiftl 1 24) m) /\ value (blocks_loop n r h (Z.shiftl 1 24) m) mod P1305 = poly_blocks n (value r) (value h mod P1305) m.
Proof.
  intros K. induction n as [|n IH]; intros h m A Hm Hl; [split; [exact A|reflexivity]|]. cbn [blocks_loop poly_blocks]. destruct (block_step h r m (Z.shiftl 1 24) A K Hm ltac:(lia) ltac:(right; reflexivity)) as [A' E]. destruct (IH _ (drop 16 m) A' ltac:(apply Forall_drop, Hm) ltac:(rewrite length_drop; lia)) as [A2 E2]. split; [exact A2|]. change POLY1305_BLOCK_SIZE with 16%nat. rewrite E2, E. f_equal.
  rewrite <- (Z.mul_mod_idemp_l (value h mod P1305 + _ + _)) by discriminate. rewrite <- (Z.mul_mod_idemp_l (value h + _ + _)) by discriminate. f_equal. f_equal. change (2 ^ 104 * Z.shiftl 1 24) with (2 ^ 128). rewrite <- !Z.add_assoc, Z.add_mod_idemp_l by discriminate. reflexivity.
Qed.

(** ** Updates *)

Section Updates.
Context (r : limbs) (pad : list Z) (K : key_limbs r).

Record took (st : poly1305_context) (m : list Z) : Prop := {
  tk_r : p_r st = r; tk_pad : p_pad st = pad; tk_final : final st = false;
  tk_left : leftover st = (length m mod 16)%nat; tk_buf : length (buffer st) = 16%nat; tk_bytes : bytes_ok (buffer st);
  tk_rest : take (leftover st) (buffer st) = drop (16 * (length m / 16)) m;
  tk_acc : acc_limbs (p_h st); tk_val : value (p_h st) mod P1305 = poly_blocks (length m / 16) (value r) 0 m;
}.

Lemma copy_at_length k d b : (k + length d <= length b)%nat -> length (copy_at k d b) = length b.
Proof using. intros H. unfold copy_at. rewrite !length_app, length_take, length_drop. lia. Qed.
Lemma copy_at_take k d b : (k + length d <= length b)%nat -> take (k + length d) (copy_at k d b) = take k b ++ d.
Proof using. intros H. unfold copy_at. rewrite app_assoc, take_app_length'; [reflexivity|]. rewrite length_app, length_take. lia. Qed.
Lemma copy_at_bytes k d b : bytes_ok d -> bytes_ok b -> bytes_ok (copy_at k d b).
Proof using. intros Hd Hb. unfold copy_at. apply Forall_app. split; [apply Forall_take, Hb|]. apply Forall_app. split; [exact Hd|apply Forall_drop, Hb]. Qed.

(** Full blocks, when nothing is in the buffer. *)
Lemma blocks_took st m d n : took st m -> (length m mod 16 = 0)%nat -> bytes_ok d -> length d = (16 * n)%nat -> took (poly1305_blocks st d (16 * n)) (m ++ d).
Proof using K.
  intros [T1 T2 T3 T4 T5 T6 T7 T8 T9] H0 Hd Hl. pose proof (Nat.div_mod_eq (length m) 16) as Dm. rewrite H0, Nat.add_0_r in Dm. set (q := (length m / 16)%nat) in *. assert (L : length (m ++ d) = (16 * (q + n))%nat) by (rewrite length_app; lia).
  assert (Lq : (length (m ++ d) / 16)%nat = (q + n)%nat) by (rewrite L, Nat.mul_comm, Nat.div_mul; lia). assert (Lr : (length (m ++ d) mod 16)%nat = 0%nat) by (rewrite L, Nat.mul_comm, Nat.Div0.mod_mul; reflexivity).
  destruct (blocks_loop_spec r K n (p_h st) d T8 Hd ltac:(lia)) as [A E]. unfold poly1305_blocks. change POLY1305_BLOCK_SIZE with 16%nat. rewrite T3, T1. replace (16 * n / 16)%nat with n by (rewrite Nat.mul_comm, Nat.div_mul; lia).
  split; cbn [p_r p_h p_pad leftover buffer final]; try assumption; try reflexivity; [rewrite Lr, T4; exact H0| |].
  - rewrite T4, H0, Lq, drop_ge by lia. reflexivity.
  - rewrite E, T9, Lq, poly_blocks_app, poly_blocks_prefix by lia. rewrite drop_app_le, drop_ge by lia. reflexivity.
Qed.

(** A few bytes into the buffer. *)
Lemma rest_took st m d : took st m -> (length m mod 16 + length d < 16)%nat -> bytes_ok d -> took (match d with [] => st | _ => set_buffer st (leftover st + length d) (copy_at (leftover st) d (buffer st)) (final st) end) (m ++ d).
Proof using.
  intros T Hl Hd. destruct d as [|x d0]; [rewrite app_nil_r; exact T|]. set (d := x :: d0) in *. destruct T as [T1 T2 T3 T4 T5 T6 T7 T8 T9]. pose proof (Nat.div_mod_eq (length m) 16) as Dm. set (q := (length m / 16)%nat) in *. set (e := (length m mod 16)%nat) in *.
  assert (Lq : (length (m ++ d) / 16)%nat = q) by (rewrite length_app, Dm; replace (16 * q + e + length d)%nat with ((e + length d) + q * 16)%nat by lia; rewrite Nat.div_add, Nat.div_small by lia; reflexivity). assert (Lr : (length (m ++ d) mod 16)%nat = (e + length d)%nat) by (rewrite length_app, Dm; replace (16 * q + e + length d)%nat with ((e + length d) + q * 16)%nat by lia; rewrite Nat.Div0.mod_add, Nat.mod_small by lia; reflexivity).
  split; cbn [set_buffer p_r p_h p_pad leftover buffer final]; try assumption; [rewrite Lr, T4; reflexivity|rewrite copy_at_length by lia; exact T5|apply copy_at_bytes; assumption| |].
  - rewrite copy_at_take, T7, Lq by lia. rewrite drop_app_le by lia. reflexivity.
  - rewrite T9, Lq, poly_blocks_prefix by lia. reflexivity.
Qed.

(** The buffer fills up and is absorbed. *)
Lemma full_took st m d : let want := Nat.min (16 - leftover st) (length d) in let st1 := set_buffer st (leftover st + want) (copy_at (leftover st) (take want d) (buffer st)) (final st) in
  took st m -> bytes_ok d -> (leftover st <> 0)%nat -> (16 <= leftover st + want)%nat -> took (set_buffer (poly1305_blocks st1 (buffer st1) 16) 0 (buffer st1) (final st1)) (m ++ take want d) /\ (length (m ++ take want d) mod 16 = 0)%nat.
Proof using K.
  intros want st1 [T1 T2 T3 T4 T5 T6 T7 T8 T9] Hd H0 Hw. pose proof (Nat.div_mod_eq (length m) 16) as Dm. pose proof (Nat.mod_upper_bound (length m) 16 ltac:(lia)) as Du. rewrite <- T4 in *. set (q := (length m / 16)%nat) in *. set (e := leftover st) in *. assert (Lt : length (take want d) = want) by (rewrite length_take; lia).
  assert (L : length (m ++ take want d) = (16 * S q)%nat) by (rewrite length_app; lia). assert (Lq : (length (m ++ take want d) / 16)%nat = S q) by (rewrite L, Nat.mul_comm, Nat.div_mul; lia). assert (Lr : (length (m ++ take want d) mod 16)%nat = 0%nat) by (rewrite L, Nat.mul_comm, Nat.Div0.mod_mul; reflexivity). split; [|exact Lr].
  set (buf := copy_at e (take want d) (buffer st)). assert (Lb : length buf = 16%nat) by (unfold buf; rewrite copy_at_length; lia). assert (Hb : bytes_ok buf) by (apply copy_at_bytes; [apply Forall_take, Hd|exact T6]).
  assert (Eb : buf = drop (16 * q) m ++ take want d) by (rewrite <- T7, <- (copy_at_take e (take want d) (buffer st)) by lia; fold buf; rewrite take_ge by lia; reflexivity).
  destruct (blocks_loop_spec r K 1 (p_h st) buf T8 Hb ltac:(lia)) as [A E]. unfold poly1305_blocks. change POLY1305_BLOCK_SIZE with 16%nat. change (16 / 16)%nat with 1%nat. unfold st1. cbn [set_buffer p_r p_h p_pad leftover buffer final]. rewrite T3, T1. fold buf.
  split; cbn [set_buffer p_r p_h p_pad leftover buffer final]; try assumption; try reflexivity; [symmetry; exact Lr|rewrite Lq, drop_ge by lia; reflexivity|].
  rewrite E, T9, Lq. replace (S q) with (q + 1)%nat by lia. rewrite poly_blocks_app, (poly_blocks_prefix q) by lia. rewrite drop_app_le, <- Eb by lia. reflexivity.
Qed.

Lemma update_blocks_took st m d : took st m -> (length m mod 16 = 0)%nat -> bytes_ok d -> took (update_blocks st d) (m ++ d).
Proof using K.
  intros T H0 Hd. unfold update_blocks. change POLY1305_BLOCK_SIZE with 16%nat. pose proof (Nat.div_mod_eq (length d) 16) as Dd. pose proof (Nat.mod_upper_bound (length d) 16 ltac:(lia)) as Du. set (n := (length d / 16)%nat) in *. replace (length d - length d mod 16)%nat with (16 * n)%nat by lia.
  assert (Blocks : exists st', (if (16 <=? length d)%nat then (poly1305_blocks st d (16 * n), drop (16 * n) d) else (st, d)) = (st', drop (16 * n) d) /\ took st' (m ++ take (16 * n) d) /\ (length (m ++ take (16 * n) d) mod 16 = 0)%nat).
  { assert (L : (length (m ++ take (16 * n) d) mod 16 = 0)%nat) by (rewrite length_app, length_take; replace (Nat.min (16 * n) (length d)) with (n * 16)%nat by lia; rewrite Nat.Div0.mod_add; exact H0). destruct (Nat.leb_spec 16 (length d)).
    - eexists. split; [reflexivity|]. split; [|exact L]. assert (E : poly1305_blocks st d (16 * n) = poly1305_blocks st (take (16 * n) d) (16 * n)) by (unfold poly1305_blocks; change POLY1305_BLOCK_SIZE with 16%nat; replace (16 * n / 16)%nat with n by (rewrite Nat.mul_comm, Nat.div_mul; lia); rewrite blocks_loop_take; reflexivity).
      rewrite E. apply blocks_took; [exact T|exact H0|apply Forall_take, Hd|rewrite length_take; lia].
    - assert (n = 0%nat) as -> by lia. exists st. rewrite Nat.mul_0_r. split; [reflexivity|]. rewrite take_0, app_nil_r. auto. }
  destruct Blocks as (st' & -> & T' & L'). set (d1 := drop (16 * n) d). assert (Ld : (length d1 < 16)%nat) by (unfold d1; rewrite length_drop; lia). replace (m ++ d) with ((m ++ take (16 * n) d) ++ d1) by (unfold d1; rewrite <- app_assoc, take_drop; reflexivity). set (m1 := m ++ take (16 * n) d) in *.
  assert (H : forall st0 m0 d0, took st0 m0 -> (length m0 mod 16 + length d0 < 16)%nat -> bytes_ok d0 -> took (match d0 with [] => st0 | _ => set_buffer st0 (leftover st0 + length d0) (copy_at (leftover st0) d0 (buffer st0)) (final st0) end) (m0 ++ d0)) by exact rest_took.
  apply H; [exact T'|lia|apply Forall_drop, Hd].
Qed.

Lemma update_took st m d : took st m -> bytes_ok d -> took (poly1305_update st d) (m ++ d).
Proof using K.
  intros T Hd. unfold poly1305_update. change POLY1305_BLOCK_SIZE with 16%nat. pose proof (Nat.mod_upper_bound (length m) 16 ltac:(lia)) as Du. destruct (Nat.eqb_spec (leftover st) 0) as [E|E]; [apply update_blocks_took; [exact T|rewrite <- (tk_left _ _ T); exact E|exact Hd]|].
  set (want := Nat.min (16 - leftover st) (length d)). pose proof (tk_left _ _ T) as El. assert (Lt : length (take want d) = want) by (rewrite length_take; lia).
  set (st1 := set_buffer st (leftover st + want) (copy_at (leftover st) (take want d) (buffer st)) (final st)). cbn [st1 set_buffer leftover]. destruct (Nat.ltb_spec (leftover st + want) 16) as [Hlt|Hge].
  - assert (want = length d) as Ew by lia. unfold st1. rewrite Ew, take_ge by lia. pose proof (rest_took st m d T ltac:(lia) Hd) as R. destruct d; [|exact R]. cbn [length]. rewrite Nat.add_0_r. destruct T as [T1 T2 T3 T4 T5 T6 T7 T8 T9]. rewrite app_nil_r. split; cbn [set_buffer p_r p_h p_pad leftover buffer final]; try assumption; [rewrite copy_at_length; cbn [length]; lia|apply copy_at_bytes; [constructor|exact T6]|]. rewrite <- T7. pose proof (copy_at_take (leftover st) [] (buffer st) ltac:(cbn [length]; lia)) as C. cbn [length] in C. rewrite Nat.add_0_r, app_nil_r in C. exact C.
  - assert (T1 : took (set_buffer (poly1305_blocks st1 (buffer st1) 16) 0 (buffer st1) (final st1)) (m ++ take want d) /\ (length (m ++ take want d) mod 16 = 0)%nat) by (apply full_took; [exact T|exact Hd|lia|lia]).
    destruct T1 as [T1 L1]. replace (m ++ d) with ((m ++ take want d) ++ drop want d) by (rewrite <- app_assoc, take_drop; reflexivity). apply update_blocks_took; [exact T1|exact L1|apply Forall_drop, Hd].
Qed.
End Updates.

(** * Poly1305: the tag

    [poly1305_init], [poly1305_update] in any number of pieces and
    [poly1305_finish] compute the tag of RFC 8439. *)

(** ** The key *)

Lemma land_split k a b c d : 0 <= k -> in_u k a -> in_u k c -> Z.land (a + b * 2 ^ k) (c + d * 2 ^ k) = Z.land a c + Z.land b d * 2 ^ k.
Proof.
  intros Hk Ha Hc. assert (Hac : in_u k (Z.land a c)).
  { unfold in_u in *. split; [apply Z.land_nonneg; lia|]. destruct (Z.eq_dec (Z.land a c) 0) as [->|E]; [lia|]. assert (0 <= Z.land a c) by (apply Z.land_nonneg; lia). apply Z.log2_lt_pow2; [lia|]. eapply Z.le_lt_trans; [apply Z.log2_land; lia|]. destruct (Z.eq_dec c 0) as [->|]; [rewrite Z.land_0_r in E; lia|]. destruct (Z.eq_dec a 0) as [->|]; [rewrite Z.land_0_l in E; lia|]. apply Z.min_lt_iff. left. apply Z.log2_lt_pow2; lia. }
  rewrite <- !lor_low_high by assumption. apply Z.bits_inj'. intros i Hi. rewrite !Z.land_spec, !Z.lor_spec, Z.land_spec, !Z.shiftl_spec, Z.land_spec by lia. destruct (Z.ltb_spec i k).
  - rewrite !(Z.testbit_neg_r _ (i - k)) by lia. rewrite !orb_false_r. reflexivity.
  - assert (Hh : forall x, in_u k x -> Z.testbit x i = false) by (intros x Hx; unfold in_u in Hx; rewrite <- (Z.mod_small x (2 ^ k)) by lia; apply Z.mod_pow2_bits_high; lia). rewrite !Hh by assumption. reflexivity.
Qed.

Lemma land_at_most x m : 0 <= m -> 0 <= Z.land x m <= m.
Proof.
  intros Hm. split; [apply Z.land_nonneg; lia|]. assert (E : m = Z.land x m + Z.ldiff m x).
  { assert (N : Z.land (Z.land x m) (Z.ldiff m x) = 0) by (apply Z.bits_inj'; intros i Hi; rewrite !Z.land_spec, Z.ldiff_spec, Z.bits_0; destruct (Z.testbit x i), (Z.testbit m i); reflexivity). rewrite (Z.add_nocarry_lxor _ _ N), (Z.lxor_lor _ _ N). apply Z.bits_inj'. intros i Hi. rewrite Z.lor_spec, Z.land_spec, Z.ldiff_spec. destruct (Z.testbit x i), (Z.testbit m i); reflexivity. }
  assert (0 <= Z.ldiff m x) by (apply Z.ldiff_nonneg; lia). lia.
Qed.

(** A mask below 26 bits sees the limb only. *)
Lemma land_limb x m : Z.land mask26 m = m -> Z.land x m = Z.land (Z.land x mask26) m.
Proof. intros H. rewrite <- Z.land_assoc, H. reflexivity. Qed.

Definition key_pad (key : list Z) : list Z := p_pad (poly1305_init key).

Lemma init_key key : bytes_ok key -> length key = 32%nat -> key_limbs (p_r (poly1305_init key)) /\ value (p_r (poly1305_init key)) = clamp key.
Proof.
  intros Hk Hl. split; [split; cbn [poly1305_init p_r l0 l1 l2 l3 l4]; apply land_at_most; lia|]. destruct (block_limbs key Hk ltac:(lia)) as (E0 & E1 & E2 & E3 & E4 & BN). unfold clamp. set (N := le_val 8 (take 16 key)) in *.
  unfold value. cbn [poly1305_init p_r l0 l1 l2 l3 l4]. rewrite (land_limb _ 0x3ffff03), (land_limb _ 0x3ffc0ff), (land_limb _ 0x3f03fff) by reflexivity. change 0x3ffffff with mask26 at 1. rewrite E0, E1, E2, E3, E4.
  assert (D : forall a, 0 <= a -> N / 2 ^ a = N / 2 ^ a mod 2 ^ 26 + N / 2 ^ (a + 26) * 2 ^ 26) by (intros a Ha; rewrite (Z.pow_add_r 2 a 26), <- Z.div_div by lia; pose proof (Z.div_mod (N / 2 ^ a) (2 ^ 26) ltac:(lia)); lia).
  assert (R : forall a, in_u 26 (N / 2 ^ a mod 2 ^ 26)) by (intros a; apply Z.mod_pos_bound; lia).
  assert (S : forall a m m', 0 <= a -> in_u 26 m -> Z.land (N / 2 ^ a) (m + m' * 2 ^ 26) = Z.land (N / 2 ^ a mod 2 ^ 26) m + Z.land (N / 2 ^ (a + 26)) m' * 2 ^ 26) by (intros a m m' Ha Hm; rewrite (D a Ha) at 1; apply land_split; [lia|apply R|exact Hm]).
  pose proof (S 0 0x3ffffff (0x3ffff03 + (0x3ffc0ff + (0x3f03fff + 0xfffff * 2 ^ 26) * 2 ^ 26) * 2 ^ 26) ltac:(lia) ltac:(unfold in_u; lia)) as S0. rewrite (S 26), (S 52), (S 78) in S0 by (unfold in_u; lia). rewrite Z.div_1_r in S0.
  match type of S0 with Z.land _ ?c = _ => change c with 0x0ffffffc0ffffffc0ffffffc0fffffff in S0 end. rewrite S0. change 0x3ffffff with (Z.ones 26). rewrite Z.land_ones, Z.mod_mod by lia. change (78 + 26) with 104. ring.
Qed.

Lemma init_pad key : bytes_ok key -> length key = 32%nat -> Forall (in_u 32) (key_pad key) /\ le_val 32 (key_pad key) = le_val 8 (take 16 (drop 16 key)).
Proof.
  intros Hk Hl. pose proof (le_val_chunk4 (drop 16 key) 4 ltac:(rewrite length_drop; lia)) as E. cbn [map seq] in E. rewrite !drop_drop in E. change (4 * 4)%nat with 16%nat in E. split; [|exact E].
  unfold key_pad. cbn [poly1305_init p_pad]. repeat constructor; (rewrite ReadLE32_at by (assumption || lia); apply Z.mod_pos_bound; lia).
Qed.

Lemma init_took key : bytes_ok key -> length key = 32%nat -> took (p_r (poly1305_init key)) (key_pad key) (poly1305_init key) [].
Proof. intros Hk Hl. split; try reflexivity; [apply Forall_replicate; unfold in_u; lia|split; cbn; lia]. Qed.

Lemma updates_took r pad : key_limbs r -> forall ds st m, took r pad st m -> Forall bytes_ok ds -> took r pad (fold_left poly1305_update ds st) (m ++ concat ds).
Proof.
  intros K. induction ds as [|d ds IH]; intros st m T Hd; cbn [fold_left concat]; [rewrite app_nil_r; exact T|]. apply Forall_cons_1 in Hd as [Hd Hds]. rewrite app_assoc. apply IH; [|exact Hds]. apply update_took; assumption.
Qed.

(** ** The last block *)

Lemma le_val_zeros l n : le_val 8 (l ++ replicate n 0) = le_val 8 l.
Proof. rewrite le_val_app by lia. assert (E : le_val 8 (replicate n 0) = 0) by (induction n as [|n IH]; [reflexivity|cbn [replicate le_val]; rewrite IH; lia]). rewrite E. lia. Qed.

Lemma last_block_spec r pad st m : key_limbs r -> took r pad st m -> acc_limbs (p_h (last_block st)) /\ value (p_h (last_block st)) mod P1305 = poly_acc (value r) m /\ p_pad (last_block st) = pad.
Proof.
  intros K [T1 T2 T3 T4 T5 T6 T7 T8 T9]. unfold last_block, poly_acc. pose proof (Nat.div_mod_eq (length m) 16) as Dm. pose proof (Nat.mod_upper_bound (length m) 16 ltac:(lia)) as Du. assert (Lr : length (drop (16 * (length m / 16)) m) = leftover st) by (rewrite length_drop; lia). rewrite Lr, <- T7.
  destruct (Nat.eqb_spec (leftover st) 0) as [E|E]; [auto|]. change POLY1305_BLOCK_SIZE with 16%nat. set (rest := take (leftover st) (buffer st)). set (buf := rest ++ [1] ++ _). assert (Ln : length rest = leftover st) by (unfold rest; rewrite length_take; lia).
  assert (Lb : length buf = 16%nat) by (unfold buf; rewrite !length_app, length_replicate, Ln; cbn [length]; lia). assert (Hb : bytes_ok buf) by (unfold buf, bytes_ok; rewrite !Forall_app; split_and!; [apply Forall_take, T6|repeat constructor; unfold in_u; lia|apply Forall_replicate; unfold in_u; lia]).
  destruct (block_step (p_h st) r buf 0 T8 K Hb ltac:(lia) ltac:(left; reflexivity)) as [A V]. unfold poly1305_blocks. change (16 / POLY1305_BLOCK_SIZE)%nat with 1%nat. cbn [set_buffer p_r p_h p_pad leftover buffer final blocks_loop]. rewrite T1. split_and!; [exact A| |exact T2].
  rewrite V, take_ge by lia. assert (Ev : le_val 8 buf = le_val 8 (rest ++ [1])) by (unfold buf; rewrite app_assoc; apply le_val_zeros). rewrite Ev, Z.mul_0_r, Z.add_0_r, <- T9. rewrite <- Z.mul_mod_idemp_l by discriminate. rewrite <- (Z.mul_mod_idemp_l (_ mod _ + _)) by discriminate. rewrite Z.add_mod_idemp_l by discriminate. reflexivity.
Qed.

Lemma finish_spec r pad st m : key_limbs r -> length pad = 4%nat -> Forall (in_u 32) pad -> took r pad st m -> poly1305_finish st = le_digits 8 16 ((poly_acc (value r) m + le_val 32 pad) mod 2 ^ 128).
Proof.
  intros K Lp Hp T. destruct (last_block_spec r pad st m K T) as (A & V & P). unfold poly1305_finish. rewrite P. destruct (carry_spec _ A) as [N [q E]]. destruct (select_spec _ N) as [N' E']. destruct (pack_spec _ N') as (F & L & Len).
  destruct (add_pad_spec _ pad 0 ltac:(rewrite Len; exact Lp) F Hp ltac:(lia)) as (Ea & Fa & La). rewrite words_digits by exact Fa. rewrite La, Len, Ea, Len. change (4 * 4)%nat with 16%nat. change (32 * Z.of_nat 4) with 128. f_equal. rewrite L, E', E. change (0 / 2 ^ 32) with 0. rewrite Z.add_0_r.
  replace (value (p_h (last_block st)) - P1305 * q) with (value (p_h (last_block st)) + (- q) * P1305) by ring. rewrite Z.mod_add, V by discriminate. rewrite Z.add_mod_idemp_l by lia. reflexivity.
Qed.

Lemma le_digits_mod n : forall z, le_digits 8 n (z mod 2 ^ (8 * Z.of_nat n)) = le_digits 8 n z.
Proof. intros z. apply (le_val_inj 8); [lia| | | |]; rewrite ?le_digits_length; try reflexivity; try (apply le_digits_in_u; lia). rewrite !le_val_digits, Z.mod_mod by lia. reflexivity. Qed.

Lemma poly1305_spec key ds : bytes_ok key -> length key = 32%nat -> Forall bytes_ok ds -> poly1305_finish (fold_left poly1305_update ds (poly1305_init key)) = poly1305_tag key (concat ds).
Proof.
  intros Hk Hl Hd. destruct (init_key key Hk Hl) as [K V]. destruct (init_pad key Hk Hl) as [Fp Ep]. pose proof (updates_took _ _ K ds _ _ (init_took key Hk Hl) Hd) as T. rewrite (finish_spec _ (key_pad key) _ _ K eq_refl Fp T), V, Ep. unfold poly1305_tag. apply (le_digits_mod 16).
Qed.

(** For every 32-byte key and every message, however it is cut into calls of
    [Poly1305::Update], [Poly1305::Finalize] gives the tag of RFC 8439: the
    polynomial of the 16-byte blocks at the clamped first half of the key,
    modulo [2 ^ 130 - 5], plus the second half, as sixteen bytes.  The limbs of
    26 bits, the 64-bit products and the constant-time final reduction never
    wrap around. *)
Theorem poly1305_correct key ds p : new_Poly1305 key = Some p -> bytes_ok key -> Forall bytes_ok ds -> Poly1305_Finalize (fold_left Poly1305_Update ds p) = poly1305_tag key (concat ds).
Proof.
  unfold new_Poly1305. destruct (Nat.eqb_spec (length key) 32) as [Hl|]; [|discriminate]. intros [= <-] Hk Hd. apply poly1305_spec; assumption.
Qed.

Lemma poly1305_correct_witness : Poly1305_Finalize (fold_left Poly1305_Update [take 5 rfc_msg; drop 5 rfc_msg] (poly1305_init rfc_key)) = poly1305_tag rfc_key rfc_msg.
Proof.
  apply (poly1305_correct rfc_key [take 5 rfc_msg; drop 5 rfc_msg] (poly1305_init rfc_key)); [reflexivity|apply bytes_ok_check; reflexivity|]. constructor; [apply bytes_ok_check; reflexivity|constructor; [apply bytes_ok_check; reflexivity|constructor]].
Defined.
