(* ===== verification/Aead.v ===== *)
(** * Authenticated encryption

    Models src/crypto/chacha20poly1305.h and src/crypto/chacha20poly1305.cpp:
    the AEAD of RFC 8439 and the forward-secure AEAD that counts packets and
    changes its key.  A span that a function writes is its result; the size of
    the span, where the code asserts it, is an argument.  [None] is a failed
    assertion. *)

From stdpp Require Import base numbers list strings.
From Stdlib Require Import ZArith Lia.
From S2P Require Import Prelude Compact HashWriter Hashing ChaCha20 Poly1305.

Local Open Scope Z_scope.

(** [AEADChaCha20Poly1305]: the stream cipher inside. *)
Definition AEADChaCha20Poly1305 : Type := ChaCha20.
Definition TAGLEN : nat := 16.
Definition AEAD_KEYLEN : nat := 32.
Definition AEAD_EXPANSION : nat := TAGLEN.

Definition new_AEAD (key : list Z) : option AEADChaCha20Poly1305 :=
  c ← new_ChaCha20 key; if (length key =? AEAD_KEYLEN)%nat then Some c else None.
Definition AEAD_SetKey (c : AEADChaCha20Poly1305) (key : list Z) : option AEADChaCha20Poly1305 :=
  if (length key =? AEAD_KEYLEN)%nat then SetKey c key else None.

(** [for (; n > 0; n--) ret |= *p1++ ^ *p2++], and [ret != 0]. *)
Fixpoint bcmp_loop (n : nat) (ret : Z) (p1 p2 : list Z) : Z :=
  match n with
  | O => ret
  | S n => bcmp_loop n (Z.lor ret (Z.lxor (nth 0 p1 0) (nth 0 p2 0))) (tail p1) (tail p2)
  end.
Definition timingsafe_bcmp (b1 b2 : list Z) (n : nat) : bool := negb (bcmp_loop n 0 b1 b2 =? 0).

Definition PADDING : list Z := replicate 16 0.
Definition padding_length (n : nat) : nat := (16 - n mod 16) mod 16.

Definition ComputeTag (chacha20 : ChaCha20) (aad cipher : list Z) : option (list Z * ChaCha20) :=
  let '(first_block, chacha20) := Keystream chacha20 BLOCKLEN in
  poly1305 ← new_Poly1305 (take 32 first_block);
  let poly1305 := Poly1305_Update (Poly1305_Update poly1305 aad) (take (padding_length (length aad)) PADDING) in
  let poly1305 := Poly1305_Update (Poly1305_Update poly1305 cipher) (take (padding_length (length cipher)) PADDING) in
  let length_desc := WriteLE64 (Z.of_nat (length aad)) ++ WriteLE64 (Z.of_nat (length cipher)) in
  let poly1305 := Poly1305_Update poly1305 length_desc in
  Some (Poly1305_Finalize poly1305, chacha20).

Definition AEAD_Encrypt (c : AEADChaCha20Poly1305) (plain1 plain2 aad : list Z) (nonce : Nonce96) (cipher_size : nat) : option (list Z * AEADChaCha20Poly1305) :=
  if negb (cipher_size =? length plain1 + length plain2 + AEAD_EXPANSION)%nat then None
  else
    let c := Seek c nonce 1 in
    let '(cipher1, c) := Crypt c plain1 in
    let '(cipher2, c) := Crypt c plain2 in
    let c := Seek c nonce 0 in
    '(tag, c) ← ComputeTag c aad (cipher1 ++ cipher2);
    Some (cipher1 ++ cipher2 ++ tag, c).

(** The two parts of the plain text, of [size1] and [size2] bytes, if the tag is right. *)
Definition AEAD_Decrypt (c : AEADChaCha20Poly1305) (cipher aad : list Z) (nonce : Nonce96) (size1 size2 : nat) : option (option (list Z * list Z) * AEADChaCha20Poly1305) :=
  if negb (length cipher =? size1 + size2 + AEAD_EXPANSION)%nat then None
  else
    let c := Seek c nonce 0 in
    let text := take (length cipher - AEAD_EXPANSION) cipher in
    let tag := drop (length cipher - AEAD_EXPANSION) cipher in
    '(expected_tag, c) ← ComputeTag c aad text;
    if timingsafe_bcmp expected_tag tag AEAD_EXPANSION then Some (None, c)
    else
      let '(plain1, c) := Crypt c (take size1 cipher) in
      let '(plain2, c) := Crypt c (take size2 (drop size1 cipher)) in
      Some (Some (plain1, plain2), c).

Definition AEAD_Keystream (c : AEADChaCha20Poly1305) (nonce : Nonce96) (n : nat) : list Z * AEADChaCha20Poly1305 :=
  Keystream (Seek c nonce 1) n.

(** ** [FSChaCha20Poly1305] *)

Record FSChaCha20Poly1305 : Type := { m_aead : AEADChaCha20Poly1305; fp_rekey_interval : Z; m_packet_counter : Z; fp_rekey_counter : Z }.

Definition new_FSChaCha20Poly1305 (key : list Z) (rekey_interval : Z) : option FSChaCha20Poly1305 :=
  c ← new_AEAD key; Some {| m_aead := c; fp_rekey_interval := rekey_interval; m_packet_counter := 0; fp_rekey_counter := 0 |}.

Definition NextPacket (f : FSChaCha20Poly1305) : option FSChaCha20Poly1305 :=
  let counter := u32 (m_packet_counter f + 1) in
  if counter =? fp_rekey_interval f then
    let '(one_block, c) := AEAD_Keystream (m_aead f) (0xFFFFFFFF, fp_rekey_counter f) BLOCKLEN in
    c ← AEAD_SetKey c (take AEAD_KEYLEN one_block);
    Some {| m_aead := c; fp_rekey_interval := fp_rekey_interval f; m_packet_counter := 0; fp_rekey_counter := u64 (fp_rekey_counter f + 1) |}
  else Some {| m_aead := m_aead f; fp_rekey_interval := fp_rekey_interval f; m_packet_counter := counter; fp_rekey_counter := fp_rekey_counter f |}.

Definition set_aead (f : FSChaCha20Poly1305) (c : AEADChaCha20Poly1305) : FSChaCha20Poly1305 :=
  {| m_aead := c; fp_rekey_interval := fp_rekey_interval f; m_packet_counter := m_packet_counter f; fp_rekey_counter := fp_rekey_counter f |}.

Definition FSP_Encrypt (f : FSChaCha20Poly1305) (plain1 plain2 aad : list Z) (cipher_size : nat) : option (list Z * FSChaCha20Poly1305) :=
  '(cipher, c) ← AEAD_Encrypt (m_aead f) plain1 plain2 aad (m_packet_counter f, fp_rekey_counter f) cipher_size;
  f ← NextPacket (set_aead f c);
  Some (cipher, f).

Definition FSP_Decrypt (f : FSChaCha20Poly1305) (cipher aad : list Z) (size1 size2 : nat) : option (option (list Z * list Z) * FSChaCha20Poly1305) :=
  '(ret, c) ← AEAD_Decrypt (m_aead f) cipher aad (m_packet_counter f, fp_rekey_counter f) size1 size2;
  f ← NextPacket (set_aead f c);
  Some (ret, f).

(** The AEAD of RFC 8439, section 2.8.2: start of the cipher text, and the tag. *)
Definition rfc_plain : list Z := string_bytes "Ladies and Gentlemen of the class of '99: If I could offer you only one tip for the future, sunscreen would be it."%string.
Definition rfc_aad : list Z := [0x50; 0x51; 0x52; 0x53; 0xc0; 0xc1; 0xc2; 0xc3; 0xc4; 0xc5; 0xc6; 0xc7].
Definition rfc_aead_key : list Z := map (fun i => 0x80 + Z.of_nat i) (seq 0 32).
Example rfc_aead : option_map (fun r => (take 8 (fst r), drop 114 (fst r))) (c ← new_AEAD rfc_aead_key; AEAD_Encrypt c rfc_plain [] rfc_aad (0x00000007, 0x4746454443424140) (length rfc_plain + 16)) =
  Some ([0xd3; 0x1a; 0x8d; 0x34; 0x64; 0x8e; 0x60; 0xdb], [0x1a; 0xe1; 0x0b; 0x59; 0x4f; 0x09; 0xe2; 0x6a; 0x7e; 0x90; 0x2e; 0xcb; 0xd0; 0x60; 0x06; 0x91]).
Proof. vm_compute. reflexivity. Qed.
