(* ===== verification/AeadProofs.v ===== *)
(** * ChaCha20 and the authenticated encryption, proofs

    The keystream and its pieces, then the authenticated encryption over it. *)

From stdpp Require Import base numbers list.
From Stdlib Require Import ZArith Lia.
From S2P Require Import Prelude Compact HashWriter ChaCha20 Poly1305 Poly1305Proofs Aead.

Local Open Scope Z_scope.

(** * ChaCha20, proofs

    Both ciphers combine the data with the bytes of one keystream, whatever the
    pieces, and decryption undoes encryption, across changes of the key. *)

(** ** Words and bytes *)

Lemma le_digits_lxor n : forall a b, le_digits 8 n (Z.lxor a b) = xor_bytes (le_digits 8 n a) (le_digits 8 n b).
Proof.
  induction n as [|n IH]; intros a b; [reflexivity|]. cbn [le_digits xor_bytes zip_with]. fold (xor_bytes (le_digits 8 n (a / 2 ^ 8)) (le_digits 8 n (b / 2 ^ 8))). rewrite <- IH. f_equal.
  - rewrite <- !Z.land_ones by lia. apply Z.bits_inj'. intros i Hi. rewrite Z.land_spec, !Z.lxor_spec, !Z.land_spec. destruct (Z.testbit (Z.ones 8) i), (Z.testbit a i), (Z.testbit b i); reflexivity.
  - rewrite <- !Z.shiftr_div_pow2 by lia. rewrite Z.shiftr_lxor. reflexivity.
Qed.
Lemma WriteLE32_read m : bytes_ok m -> (4 <= length m)%nat -> WriteLE32 (ReadLE32 m) = take 4 m.
Proof.
  intros Hm Hl. unfold WriteLE32, ReadLE32. replace 4%nat with (length (take 4 m)) at 1 by (rewrite length_take; lia). apply le_digits_val; [lia|]. apply Forall_take, Hm.
Qed.

Lemma xor_app a b c d : length a = length c -> xor_bytes (a ++ b) (c ++ d) = xor_bytes a c ++ xor_bytes b d.
Proof. intros H. unfold xor_bytes. apply zip_with_app. exact H. Qed.
Lemma length_xor a b : length a = length b -> length (xor_bytes a b) = length a.
Proof. intros H. unfold xor_bytes. rewrite length_zip_with, H. lia. Qed.
Lemma xor_xor m k : length m = length k -> xor_bytes (xor_bytes m k) k = m.
Proof.
  revert k. induction m as [|x m IH]; intros [|y k] H; try discriminate H; [reflexivity|]. cbn [xor_bytes zip_with]. fold (xor_bytes m k). fold (xor_bytes (xor_bytes m k) k). rewrite IH by (injection H; auto). f_equal. rewrite Z.lxor_assoc, Z.lxor_nilpotent, Z.lxor_0_r. reflexivity.
Qed.
Lemma xor_comm a : forall b, xor_bytes a b = xor_bytes b a.
Proof. induction a as [|x a IH]; intros [|y b]; try reflexivity. cbn [xor_bytes zip_with]. fold (xor_bytes a b) (xor_bytes b a). rewrite IH, Z.lxor_comm. reflexivity. Qed.
Lemma xor_take k : forall a b, take k (xor_bytes a b) = xor_bytes (take k a) (take k b).
Proof. intros a b. unfold xor_bytes. apply zip_with_take. Qed.
Lemma xor_bytes_ok a b : bytes_ok a -> bytes_ok b -> bytes_ok (xor_bytes a b).
Proof.
  unfold bytes_ok. intros Ha Hb. apply Forall_lookup. intros i x Hx. apply lookup_zip_with_Some in Hx as (y & z & -> & Hy & Hz). rewrite Forall_lookup in Ha, Hb. specialize (Ha i y Hy). specialize (Hb i z Hz).
  apply in_u_testbit; [lia|apply Z.lxor_nonneg; unfold in_u in *; lia|]. intros j Hj. rewrite Z.lxor_spec, (testbit_above 8 y), (testbit_above 8 z) by (assumption || lia). reflexivity.
Qed.

(** ** Blocks *)

Lemma length_QUARTERROUND x q : length (QUARTERROUND x q) = length x.
Proof. destruct q as [[[a b] c] d]. unfold QUARTERROUND. rewrite !length_insert. reflexivity. Qed.
Lemma length_two_rounds qs : forall x, length (foldl QUARTERROUND x qs) = length x.
Proof. induction qs as [|q qs IH]; intros x; [reflexivity|]. cbn [foldl]. rewrite IH, length_QUARTERROUND. reflexivity. Qed.
Lemma length_iter_rounds n x : length (Nat.iter n (fun x => foldl QUARTERROUND x two_rounds) x) = length x.
Proof. induction n as [|n IH]; [reflexivity|]. cbn [Nat.iter nat_rect]. rewrite length_two_rounds. exact IH. Qed.
Lemma length_block_words input : length input = 12%nat -> length (block_words input) = 16%nat.
Proof. intros H. unfold block_words. rewrite length_zip_with, length_iter_rounds. cbn [start_words app length]. lia. Qed.
Lemma length_next_block input : length (next_block input) = length input.
Proof. unfold next_block. rewrite !length_insert. reflexivity. Qed.

#[local] Opaque block_words next_block.
Lemma length_words_LE ws : length (ws ≫= WriteLE32) = (4 * length ws)%nat.
Proof. induction ws as [|x ws IH]; [reflexivity|]. rewrite bind_cons, length_app, IH. unfold WriteLE32. rewrite le_digits_length. cbn [length]. lia. Qed.
Lemma length_block_bytes input : length input = 12%nat -> length (block_bytes input) = 64%nat.
Proof. intros H. unfold block_bytes. rewrite length_words_LE, length_block_words by exact H. reflexivity. Qed.
Lemma block_bytes_ok input : bytes_ok (block_bytes input).
Proof. unfold block_bytes. generalize (block_words input). intros ws. induction ws as [|x ws IH]; [constructor|]. rewrite bind_cons. apply Forall_app. split; [apply le_digits_in_u; lia|exact IH]. Qed.

(** Combining words is combining bytes. *)
Lemma xor_words ws : forall m, bytes_ok m -> (4 * length ws <= length m)%nat ->
  (zip_with Z.lxor ws (map (fun i => ReadLE32 (drop (4 * i) m)) (seq 0 (length ws)))) ≫= WriteLE32 = xor_bytes (ws ≫= WriteLE32) (take (4 * length ws) m).
Proof.
  induction ws as [|w ws IH]; intros m Hm Hl; [reflexivity|]. cbn [length] in *. cbn [seq map zip_with]. rewrite !bind_cons. replace (4 * S (length ws))%nat with (4 + 4 * length ws)%nat by lia. rewrite <- take_take_drop.
  rewrite xor_app by (rewrite length_take; unfold WriteLE32; rewrite le_digits_length; lia). f_equal.
  - unfold WriteLE32 at 1. rewrite le_digits_lxor. f_equal. rewrite Nat.mul_0_r, drop_0. apply WriteLE32_read; [exact Hm|lia].
  - rewrite <- IH by (rewrite ?length_drop; try apply Forall_drop; auto; lia). f_equal. f_equal. rewrite <- seq_shift, map_map. apply map_ext. intros i. rewrite drop_drop. do 2 f_equal. lia.
Qed.
Lemma crypt_block input m : length input = 12%nat -> bytes_ok m -> (64 <= length m)%nat -> (zip_with Z.lxor (block_words input) (message_words m)) ≫= WriteLE32 = xor_bytes (take 64 m) (block_bytes input).
Proof.
  intros Hi Hm Hl. pose proof (xor_words (block_words input) m Hm) as E. rewrite length_block_words in E by exact Hi. change (4 * 16)%nat with 64%nat in E. fold (message_words m) in E. rewrite E by exact Hl. unfold block_bytes. generalize (block_words input ≫= WriteLE32). intros l. apply xor_comm.
Qed.

(** ** Keystreams *)

Definition wf_input (input : list Z) : Prop := length input = 12%nat.
Lemma wf_iter n input : wf_input input -> wf_input (Nat.iter n next_block input).
Proof. intros H. induction n as [|n IH]; [exact H|]. cbn [Nat.iter nat_rect]. unfold wf_input. rewrite length_next_block. exact IH. Qed.

(** The [i]-th byte from the block of [input] on. *)
Definition stream_at (input : list Z) (i : nat) : Z := nth (i mod 64) (block_bytes (Nat.iter (i / 64) next_block input)) 0.

Lemma list_as_map (l : list Z) n : length l = n -> l = map (fun i => nth i l 0) (seq 0 n).
Proof.
  intros <-. induction l as [|x l IH]; [reflexivity|]. cbn [length seq map nth]. f_equal. rewrite <- seq_shift, map_map. exact IH.
Qed.
Lemma stream_at_first input : map (stream_at input) (seq 0 64) = map (fun i => nth i (block_bytes input) 0) (seq 0 64).
Proof. apply map_ext_in. intros i Hi. apply in_seq in Hi. unfold stream_at. rewrite Nat.mod_small, Nat.div_small by lia. reflexivity. Qed.
Lemma stream_at_next input i : stream_at input (64 + i) = stream_at (next_block input) i.
Proof.
  unfold stream_at. replace (64 + i)%nat with (i + 1 * 64)%nat by lia. rewrite Nat.Div0.mod_add, Nat.div_add by lia. rewrite Nat.add_1_r, Nat.iter_succ_r. reflexivity.
Qed.
Lemma shift_seq (f g : nat -> Z) k n : (forall i, g i = f (k + i)%nat) -> map g (seq 0 n) = map f (seq k n).
Proof. intros H. rewrite (map_ext _ _ H), <- (map_map (Nat.add k) f). f_equal. pose proof (fmap_add_seq k 0 n) as E. rewrite Nat.add_0_r in E. exact E. Qed.
Lemma stream_shift input n : map (stream_at (next_block input)) (seq 0 n) = map (stream_at input) (seq 64 n).
Proof. apply shift_seq. intros i. symmetry. apply stream_at_next. Qed.
Lemma stream_at_blocks b : forall input i, stream_at input (64 * b + i) = stream_at (Nat.iter b next_block input) i.
Proof. induction b as [|b IH]; intros input i; [reflexivity|]. replace (64 * S b + i)%nat with (64 + (64 * b + i))%nat by lia. rewrite stream_at_next, IH, Nat.iter_succ_r. reflexivity. Qed.

Lemma Aligned_Keystream_spec b : forall input, wf_input input -> Aligned_Keystream b input = (map (stream_at input) (seq 0 (64 * b)), Nat.iter b next_block input).
Proof.
  induction b as [|b IH]; intros input Hi; [reflexivity|]. cbn [Aligned_Keystream]. rewrite IH by (unfold wf_input; rewrite length_next_block; exact Hi). rewrite Nat.iter_succ_r. f_equal. replace (64 * S b)%nat with (64 + 64 * b)%nat by lia. rewrite seq_app, map_app. f_equal.
  - rewrite stream_at_first. apply list_as_map, length_block_bytes, Hi.
  - apply stream_shift.
Qed.

Lemma Aligned_Crypt_spec b : forall input m, wf_input input -> bytes_ok m -> length m = (64 * b)%nat -> Aligned_Crypt b input m = (xor_bytes m (map (stream_at input) (seq 0 (64 * b))), Nat.iter b next_block input).
Proof.
  induction b as [|b IH]; intros input m Hi Hm Hl; [destruct m; [reflexivity|discriminate Hl]|]. cbn [Aligned_Crypt]. rewrite IH; [|unfold wf_input; rewrite length_next_block; exact Hi|apply Forall_drop, Hm|rewrite length_drop; unfold BLOCKLEN; lia]. rewrite Nat.iter_succ_r. f_equal.
  rewrite (crypt_block input m Hi Hm) by lia. replace (64 * S b)%nat with (64 + 64 * b)%nat by lia. rewrite seq_app, map_app. set (k1 := map (stream_at input) (seq 0 64)). set (k2 := map (stream_at input) (seq (0 + 64) (64 * b))). replace (xor_bytes m (k1 ++ k2)) with (xor_bytes (take 64 m ++ drop 64 m) (k1 ++ k2)) by (rewrite take_drop; reflexivity). rewrite xor_app by (unfold k1; rewrite length_take, length_map, length_seq; lia). unfold k1, k2. f_equal.
  - f_equal. rewrite stream_at_first. apply list_as_map, length_block_bytes, Hi.
  - f_equal. apply stream_shift.
Qed.

(** ** The cipher for any length *)

Record wf_ChaCha20 (c : ChaCha20) : Prop := { wc_input : wf_input (m_aligned c); wc_buffer : length (m_buffer c) = 64%nat; wc_bytes : bytes_ok (m_buffer c); wc_left : (m_bufleft c <= 64)%nat }.

(** The bytes of the keystream still to come, and a cipher [n] bytes further on. *)
Definition byte_at (c : ChaCha20) (i : nat) : Z := if (i <? m_bufleft c)%nat then nth (64 - m_bufleft c + i) (m_buffer c) 0 else stream_at (m_aligned c) (i - m_bufleft c).
Record ahead (c : ChaCha20) (n : nat) (c' : ChaCha20) : Prop := { ah_wf : wf_ChaCha20 c'; ah_bytes i : byte_at c' i = byte_at c (n + i); ah_key : take 8 (m_aligned c') = take 8 (m_aligned c) }.
Definition keybytes (c : ChaCha20) (n : nat) : list Z := map (byte_at c) (seq 0 n).

Lemma next_block_key input : take 8 (next_block input) = take 8 input.
Proof. with_strategy transparent [next_block] unfold next_block. rewrite !take_insert_ge by lia. reflexivity. Qed.
Lemma iter_key n input : take 8 (Nat.iter n next_block input) = take 8 input.
Proof. induction n as [|n IH]; [reflexivity|]. cbn [Nat.iter nat_rect]. rewrite next_block_key. exact IH. Qed.

(** The three parts of a request for [n] bytes: what is left in the buffer, full
    blocks, and the start of one more block. *)
Lemma split_keybytes c n : let reuse := Nat.min (m_bufleft c) n in wf_ChaCha20 c ->
  keybytes c n = take reuse (drop (64 - m_bufleft c) (m_buffer c)) ++ map (stream_at (m_aligned c)) (seq 0 (n - reuse)).
Proof.
  intros reuse [Wi Wb Wy Wl]. unfold keybytes. replace n with (reuse + (n - reuse))%nat at 1 by lia. rewrite seq_app, map_app. f_equal.
  - rewrite (list_as_map (take reuse (drop (64 - m_bufleft c) (m_buffer c))) reuse) by (rewrite length_take, length_drop; lia). apply map_ext_in. intros i Hi. apply in_seq in Hi. unfold byte_at. destruct (Nat.ltb_spec i (m_bufleft c)); [|lia]. rewrite nth_firstn. destruct (Nat.ltb_spec i reuse); [|lia]. rewrite nth_skipn. reflexivity.
  - symmetry. destruct (decide (n <= m_bufleft c)%nat) as [H|H]; [replace (n - reuse)%nat with 0%nat by lia; reflexivity|]. replace reuse with (m_bufleft c) by lia. rewrite Nat.add_0_l. apply shift_seq. intros i. unfold byte_at. destruct (Nat.ltb_spec (m_bufleft c + i) (m_bufleft c)); [lia|]. f_equal. lia.
Qed.

(** The cipher after [n] bytes. *)
Definition after (c : ChaCha20) (n : nat) : ChaCha20 :=
  let n1 := (n - Nat.min (m_bufleft c) n)%nat in
  let b := (n1 / 64)%nat in
  if (n1 mod 64 =? 0)%nat then {| m_aligned := Nat.iter b next_block (m_aligned c); m_buffer := m_buffer c; m_bufleft := m_bufleft c - Nat.min (m_bufleft c) n |}
  else {| m_aligned := Nat.iter (S b) next_block (m_aligned c); m_buffer := block_bytes (Nat.iter b next_block (m_aligned c)); m_bufleft := 64 - n1 mod 64 |}.

Lemma stream_at_small input i : (i < 64)%nat -> nth i (block_bytes input) 0 = stream_at input i.
Proof. intros H. unfold stream_at. rewrite Nat.mod_small, Nat.div_small by lia. reflexivity. Qed.

Lemma after_ahead c n : wf_ChaCha20 c -> ahead c n (after c n).
Proof.
  intros [Wi Wb Wy Wl]. unfold after. set (reuse := Nat.min (m_bufleft c) n). set (n1 := (n - reuse)%nat). pose proof (Nat.div_mod_eq n1 64) as Dm. pose proof (Nat.mod_upper_bound n1 64 ltac:(lia)) as Dr. set (b := (n1 / 64)%nat) in *. set (n2 := (n1 mod 64)%nat) in *. destruct (Nat.eqb_spec n2 0) as [E|E].
  - split; cbn [m_aligned m_buffer m_bufleft]; [split; cbn [m_aligned m_buffer m_bufleft]; [apply wf_iter, Wi|exact Wb|exact Wy|lia]| |apply iter_key].
    intros i. unfold byte_at. cbn [m_aligned m_buffer m_bufleft]. destruct (Nat.ltb_spec i (m_bufleft c - reuse)), (Nat.ltb_spec (n + i) (m_bufleft c)); try lia; [f_equal; lia|]. rewrite <- stream_at_blocks. f_equal. lia.
  - split; cbn [m_aligned m_buffer m_bufleft]; [split; cbn [m_aligned m_buffer m_bufleft]; [apply wf_iter, Wi|apply length_block_bytes, wf_iter, Wi|apply block_bytes_ok|lia]| |apply iter_key].
    intros i. unfold byte_at. cbn [m_aligned m_buffer m_bufleft]. destruct (Nat.ltb_spec (n + i) (m_bufleft c)); [lia|]. destruct (Nat.ltb_spec i (64 - n2)).
    + rewrite stream_at_small by lia. rewrite <- stream_at_blocks. f_equal. lia.
    + rewrite <- stream_at_blocks. f_equal. lia.
Qed.

Lemma after_zero c : (m_bufleft c <= 64)%nat -> after c 0 = c.
Proof. intros H. unfold after. rewrite Nat.min_0_r. cbn [Nat.sub Nat.div Nat.modulo]. change (0 mod 64 =? 0)%nat with true. cbn iota. rewrite Nat.sub_0_r. destruct c. reflexivity. Qed.

(** The full blocks and the one more block of a request. *)
Lemma take_block input r : wf_input input -> (r <= 64)%nat -> take r (block_bytes input) = map (stream_at input) (seq 0 r).
Proof.
  intros Hi Hr. rewrite (list_as_map (take r (block_bytes input)) r) by (rewrite length_take, length_block_bytes by exact Hi; lia). apply map_ext_in. intros i Hin. apply in_seq in Hin. rewrite nth_firstn. destruct (Nat.ltb_spec i r); [|lia]. apply stream_at_small. lia.
Qed.
Lemma stream_split input n : wf_input input -> map (stream_at input) (seq 0 n) = map (stream_at input) (seq 0 (64 * (n / 64))) ++ take (n mod 64) (block_bytes (Nat.iter (n / 64) next_block input)).
Proof.
  intros Hi. pose proof (Nat.div_mod_eq n 64) as Dm. pose proof (Nat.mod_upper_bound n 64 ltac:(lia)) as Dr. set (b := (n / 64)%nat) in *. set (r := (n mod 64)%nat) in *. rewrite Dm at 1. rewrite seq_app, map_app. f_equal. rewrite Nat.add_0_l, take_block by (try apply wf_iter, Hi; lia). symmetry. apply shift_seq. intros i. symmetry. apply stream_at_blocks.
Qed.
Lemma keystream_one input : wf_input input -> Aligned_Keystream 1 input = (block_bytes input, next_block input).
Proof. intros Hi. cbn [Aligned_Keystream]. rewrite app_nil_r. reflexivity. Qed.

Lemma Keystream_spec c n : wf_ChaCha20 c -> Keystream c n = (keybytes c n, after c n).
Proof.
  intros W. pose proof W as [Wi Wb Wy Wl]. unfold Keystream. destruct (Nat.eqb_spec n 0) as [->|Hn]; [rewrite after_zero by exact Wl; reflexivity|]. rewrite (split_keybytes c n W). unfold after. change BLOCKLEN with 64%nat. set (reuse := Nat.min (m_bufleft c) n). set (n1 := (n - reuse)%nat). rewrite (stream_split (m_aligned c) n1 Wi).
  pose proof (Nat.div_mod_eq n1 64) as Dm. pose proof (Nat.mod_upper_bound n1 64 ltac:(lia)) as Dr. set (b := (n1 / 64)%nat) in *. set (r := (n1 mod 64)%nat) in *.
  assert (Full : (if (64 <=? n1)%nat then let '(out, input) := Aligned_Keystream b (m_aligned c) in (out, input, (n1 - b * 64)%nat) else ([], m_aligned c, n1)) = (map (stream_at (m_aligned c)) (seq 0 (64 * b)), Nat.iter b next_block (m_aligned c), r)).
  { destruct (Nat.leb_spec 64 n1); [rewrite Aligned_Keystream_spec by exact Wi; f_equal; lia|]. replace b with 0%nat by lia. f_equal. lia. }
  rewrite Full. destruct (Nat.eqb_spec r 0) as [->|Hr]; [rewrite take_0, app_nil_r; reflexivity|]. rewrite keystream_one by (apply wf_iter, Wi). reflexivity.
Qed.

Lemma Crypt_spec c m : wf_ChaCha20 c -> bytes_ok m -> Crypt c m = (xor_bytes m (keybytes c (length m)), after c (length m)).
Proof.
  intros W Hm. pose proof W as [Wi Wb Wy Wl]. unfold Crypt. destruct (Nat.eqb_spec (length m) 0) as [E|Hn]; [rewrite E, after_zero by exact Wl; destruct m; [reflexivity|discriminate E]|]. rewrite (split_keybytes c _ W). unfold after. change BLOCKLEN with 64%nat. set (n := length m). set (reuse := Nat.min (m_bufleft c) n). rewrite length_drop. fold n. set (n1 := (n - reuse)%nat). rewrite (stream_split (m_aligned c) n1 Wi).
  pose proof (Nat.div_mod_eq n1 64) as Dm. pose proof (Nat.mod_upper_bound n1 64 ltac:(lia)) as Dr. set (b := (n1 / 64)%nat) in *. set (r := (n1 mod 64)%nat) in *. set (m1 := drop reuse m). assert (L1 : length m1 = n1) by (unfold m1; rewrite length_drop; reflexivity). assert (Hm1 : bytes_ok m1) by (apply Forall_drop, Hm).
  assert (Full : (if (64 <=? n1)%nat then let '(out, al) := Aligned_Crypt b (m_aligned c) (take (b * 64) m1) in (out, al, drop (b * 64) m1) else ([], m_aligned c, m1)) = (xor_bytes (take (64 * b) m1) (map (stream_at (m_aligned c)) (seq 0 (64 * b))), Nat.iter b next_block (m_aligned c), drop (64 * b) m1)).
  { rewrite (Nat.mul_comm b 64). destruct (Nat.leb_spec 64 n1); [rewrite Aligned_Crypt_spec; [reflexivity|exact Wi|apply Forall_take, Hm1|rewrite length_take; lia]|]. replace b with 0%nat by lia. reflexivity. }
  rewrite Full. set (m2 := drop (64 * b) m1). assert (L2 : length m2 = r) by (unfold m2; rewrite length_drop; lia). rewrite L2.
  assert (Em : m = take reuse m ++ take (64 * b) m1 ++ m2) by (unfold m2, m1; rewrite !take_drop; reflexivity). assert (Lb : length (take reuse (drop (64 - m_bufleft c) (m_buffer c))) = reuse) by (rewrite length_take, length_drop; lia).
  assert (Ex : xor_bytes m (take reuse (drop (64 - m_bufleft c) (m_buffer c)) ++ map (stream_at (m_aligned c)) (seq 0 (64 * b)) ++ take r (block_bytes (Nat.iter b next_block (m_aligned c)))) =
    xor_bytes (take reuse m) (drop (64 - m_bufleft c) (m_buffer c)) ++ xor_bytes (take (64 * b) m1) (map (stream_at (m_aligned c)) (seq 0 (64 * b))) ++ xor_bytes m2 (block_bytes (Nat.iter b next_block (m_aligned c)))).
  { rewrite Em at 1. rewrite !xor_app by (rewrite ?length_map, ?length_seq, ?Lb, length_take; lia). f_equal; [|f_equal].
    - rewrite <- (take_ge (take reuse m) reuse) at 1 by (rewrite length_take; lia). rewrite <- xor_take. apply take_ge. unfold xor_bytes. rewrite length_zip_with, length_take. lia.
    - rewrite <- (take_ge m2 r) at 1 by lia. rewrite <- xor_take. apply take_ge. unfold xor_bytes. rewrite length_zip_with. lia. }
  rewrite Ex. destruct (Nat.eqb_spec r 0) as [Hr|Hr].
  - assert (m2 = []) as -> by (apply nil_length_inv; lia). cbn [xor_bytes zip_with]. rewrite app_nil_r. reflexivity.
  - rewrite keystream_one by (apply wf_iter, Wi). reflexivity.
Qed.

Lemma keybytes_ok c n : wf_ChaCha20 c -> bytes_ok (keybytes c n).
Proof.
  intros [Wi Wb Wy Wl]. unfold keybytes, bytes_ok. apply Forall_map, Forall_forall. intros i _. assert (N : forall l j, bytes_ok l -> in_u 8 (nth j l 0)) by (intros l j Hl; destruct (nth_in_or_default j l 0) as [H|H]; [unfold bytes_ok in Hl; rewrite Forall_forall in Hl; apply Hl, list_elem_of_In, H|rewrite H; unfold in_u; lia]).
  unfold byte_at. destruct (i <? m_bufleft c)%nat; apply N; [exact Wy|apply block_bytes_ok].
Qed.
Lemma length_keybytes c n : length (keybytes c n) = n.
Proof. unfold keybytes. rewrite length_map, length_seq. reflexivity. Qed.
Lemma after_wf c n : wf_ChaCha20 c -> wf_ChaCha20 (after c n).
Proof. intros W. apply (ah_wf c n), after_ahead, W. Qed.
Lemma after_key c n : wf_ChaCha20 c -> take 8 (m_aligned (after c n)) = take 8 (m_aligned c).
Proof. intros W. apply (ah_key c n), after_ahead, W. Qed.

(** Two requests are one. *)
Lemma keybytes_app c a b : wf_ChaCha20 c -> keybytes c (a + b) = keybytes c a ++ keybytes (after c a) b.
Proof. intros W. unfold keybytes. rewrite seq_app, map_app. f_equal. rewrite Nat.add_0_l. symmetry. apply shift_seq. apply (ah_bytes c a), after_ahead, W. Qed.

Definition key_words (key : list Z) : list Z := map (fun i => ReadLE32 (drop (4 * i) key)) (seq 0 8).
Lemma Aligned_SetKey_spec key : length key = 32%nat -> Aligned_SetKey key = Some (key_words key ++ [0; 0; 0; 0]).
Proof. intros H. unfold Aligned_SetKey. rewrite H. reflexivity. Qed.
Definition keyed (key : list Z) : ChaCha20 := {| m_aligned := key_words key ++ [0; 0; 0; 0]; m_buffer := replicate BLOCKLEN 0; m_bufleft := 0 |}.
Lemma keyed_wf key : wf_ChaCha20 (keyed key).
Proof. split; cbn [keyed m_aligned m_buffer m_bufleft]; [reflexivity|reflexivity|apply Forall_replicate; unfold in_u; lia|lia]. Qed.
Lemma SetKey_spec c key : length key = 32%nat -> SetKey c key = Some (keyed key).
Proof. intros H. unfold SetKey. rewrite Aligned_SetKey_spec by exact H. reflexivity. Qed.
Lemma new_ChaCha20_spec key : length key = 32%nat -> new_ChaCha20 key = Some (keyed key).
Proof. intros H. unfold new_ChaCha20. rewrite Aligned_SetKey_spec by exact H. reflexivity. Qed.

Lemma Seek_wf c nonce k : wf_ChaCha20 c -> wf_ChaCha20 (Seek c nonce k).
Proof. intros [Wi Wb Wy Wl]. split; cbn [Seek m_aligned m_buffer m_bufleft]; [unfold Aligned_Seek, wf_input; rewrite !length_insert; exact Wi|exact Wb|exact Wy|lia]. Qed.
(** After [Seek] only the key counts. *)
Lemma Seek_key c nonce k : take 8 (m_aligned (Seek c nonce k)) = take 8 (m_aligned c).
Proof. cbn [Seek m_aligned]. unfold Aligned_Seek. rewrite !take_insert_ge by lia. reflexivity. Qed.
Lemma Aligned_Seek_ext i1 i2 nonce k : wf_input i1 -> wf_input i2 -> take 8 i1 = take 8 i2 -> Aligned_Seek i1 nonce k = Aligned_Seek i2 nonce k.
Proof.
  unfold wf_input, Aligned_Seek. intros H1 H2 E. do 12 (destruct i1 as [|? i1]; [discriminate H1|]). destruct i1; [|discriminate H1]. do 12 (destruct i2 as [|? i2]; [discriminate H2|]). destruct i2; [|discriminate H2]. cbn [take] in E. injection E as -> -> -> -> -> -> -> ->. reflexivity.
Qed.
Lemma keybytes_ext c1 c2 n : m_aligned c1 = m_aligned c2 -> m_bufleft c1 = 0%nat -> m_bufleft c2 = 0%nat -> keybytes c1 n = keybytes c2 n.
Proof. intros E1 E2 E3. unfold keybytes. apply map_ext. intros i. unfold byte_at. rewrite E1, E2, E3. reflexivity. Qed.
Lemma Seek_keybytes c1 c2 nonce k n : wf_ChaCha20 c1 -> wf_ChaCha20 c2 -> take 8 (m_aligned c1) = take 8 (m_aligned c2) -> keybytes (Seek c1 nonce k) n = keybytes (Seek c2 nonce k) n.
Proof. intros W1 W2 E. apply keybytes_ext; [|reflexivity|reflexivity]. cbn [Seek m_aligned]. apply Aligned_Seek_ext; [apply W1|apply W2|exact E]. Qed.

(** ** The forward-secure cipher *)

Definition wf_FS (f : FSChaCha20) : Prop := wf_ChaCha20 (fs_chacha20 f).
Definition fs_next (f : FSChaCha20) (n : nat) : FSChaCha20 :=
  let c := after (fs_chacha20 f) n in
  let counter := u32 (m_chunk_counter f + 1) in
  if counter =? m_rekey_interval f then
    let rekeys := u64 (m_rekey_counter f + 1) in
    {| fs_chacha20 := Seek (keyed (keybytes c 32)) (0, rekeys) 0; m_rekey_interval := m_rekey_interval f; m_chunk_counter := 0; m_rekey_counter := rekeys |}
  else {| fs_chacha20 := c; m_rekey_interval := m_rekey_interval f; m_chunk_counter := counter; m_rekey_counter := m_rekey_counter f |}.

(** The result depends on the data only through the keystream, and the next
    state only on the length. *)
Lemma FS_Crypt_spec f m : wf_FS f -> bytes_ok m -> FS_Crypt f m = Some (xor_bytes m (keybytes (fs_chacha20 f) (length m)), fs_next f (length m)) /\ wf_FS (fs_next f (length m)).
Proof.
  intros W Hm. unfold FS_Crypt. rewrite (Crypt_spec _ m W Hm). unfold fs_next. pose proof (after_wf _ (length m) W) as Wa. destruct (u32 (m_chunk_counter f + 1) =? m_rekey_interval f).
  - change KEYLEN with 32%nat. rewrite (Keystream_spec _ 32 Wa), SetKey_spec by apply length_keybytes. split; [reflexivity|]. apply Seek_wf, keyed_wf.
  - split; [reflexivity|exact Wa].
Qed.

Lemma FS_Crypt_undo f m : wf_FS f -> bytes_ok m -> FS_Crypt f (xor_bytes m (keybytes (fs_chacha20 f) (length m))) = Some (m, fs_next f (length m)).
Proof.
  intros W Hm. assert (L : length (xor_bytes m (keybytes (fs_chacha20 f) (length m))) = length m) by (apply length_xor; symmetry; apply length_keybytes).
  destruct (FS_Crypt_spec f (xor_bytes m (keybytes (fs_chacha20 f) (length m))) W (xor_bytes_ok _ _ Hm (keybytes_ok _ _ W))) as [E _]. rewrite E, L, xor_xor by (symmetry; apply length_keybytes). reflexivity.
Qed.
Lemma new_FS_spec key interval : length key = 32%nat -> exists f, new_FSChaCha20 key interval = Some f /\ wf_FS f.
Proof. intros H. unfold new_FSChaCha20. rewrite new_ChaCha20_spec by exact H. eexists. split; [reflexivity|]. apply keyed_wf. Qed.

(** * Authenticated encryption, proofs

    What [AEAD_Encrypt] and [AEAD_Decrypt] compute from the key, the nonce and
    the data; two forward-secure ciphers that start with one key stay in step. *)

(** ** The comparison *)

Lemma bcmp_loop_zero n : forall ret p1 p2, length p1 = n -> length p2 = n -> bcmp_loop n ret p1 p2 = 0 <-> ret = 0 /\ p1 = p2.
Proof.
  induction n as [|n IH]; intros ret p1 p2 H1 H2; cbn [bcmp_loop].
  - apply nil_length_inv in H1 as ->. apply nil_length_inv in H2 as ->. tauto.
  - destruct p1 as [|x p1], p2 as [|y p2]; try discriminate. injection H1 as H1. injection H2 as H2. cbn [nth tail]. rewrite (IH _ p1 p2 H1 H2), Z.lor_eq_0_iff, Z.lxor_eq_0_iff. split; [intros [[-> ->] ->]; auto|intros [-> [= -> ->]]; auto].
Qed.
Lemma timingsafe_bcmp_spec b1 b2 n : length b1 = n -> length b2 = n -> timingsafe_bcmp b1 b2 n = bool_decide (b1 <> b2).
Proof.
  intros H1 H2. unfold timingsafe_bcmp. pose proof (bcmp_loop_zero n 0 b1 b2 H1 H2) as B. destruct (Z.eqb_spec (bcmp_loop n 0 b1 b2) 0) as [E|E]; symmetry; [apply bool_decide_eq_false|apply bool_decide_eq_true]; tauto.
Qed.

(** ** What depends on the key only *)

Definition key_of (c : ChaCha20) : list Z := take 8 (m_aligned c).
Record same_key (c1 c2 : ChaCha20) : Prop := { sk_wf1 : wf_ChaCha20 c1; sk_wf2 : wf_ChaCha20 c2; sk_key : key_of c1 = key_of c2 }.

(** The one-time key of the tag, the keystream of the text, the data of the tag. *)
Definition one_time_key (c : ChaCha20) (nonce : Nonce96) : list Z := keybytes (Seek c nonce 0) 32.
Definition text_stream (c : ChaCha20) (nonce : Nonce96) (n : nat) : list Z := keybytes (Seek c nonce 1) n.
Definition padded (l : list Z) : list Z := l ++ replicate (padding_length (length l)) 0.
Definition tag_data (aad text : list Z) : list Z := padded aad ++ padded text ++ le_digits 8 8 (Z.of_nat (length aad)) ++ le_digits 8 8 (Z.of_nat (length text)).
Definition aead_tag (c : ChaCha20) (nonce : Nonce96) (aad text : list Z) : list Z := poly1305_tag (one_time_key c nonce) (tag_data aad text).
Definition aead_text (c : ChaCha20) (nonce : Nonce96) (text : list Z) : list Z := xor_bytes text (text_stream c nonce (length text)).

Lemma length_tag key m : length (poly1305_tag key m) = 16%nat.
Proof. apply le_digits_length. Qed.
Lemma tag_bytes key m : bytes_ok (poly1305_tag key m).
Proof. apply le_digits_in_u. lia. Qed.
Lemma length_aead_text c nonce text : length (aead_text c nonce text) = length text.
Proof. apply length_xor. symmetry. apply length_keybytes. Qed.
Lemma aead_text_bytes c nonce text : wf_ChaCha20 c -> bytes_ok text -> bytes_ok (aead_text c nonce text).
Proof. intros W H. apply xor_bytes_ok; [exact H|]. apply keybytes_ok, Seek_wf, W. Qed.

Lemma same_key_refl c : wf_ChaCha20 c -> same_key c c.
Proof. intros W. split; auto. Qed.
Lemma same_key_sym c1 c2 : same_key c1 c2 -> same_key c2 c1.
Proof. intros []. split; auto. Qed.
Lemma same_key_trans c1 c2 c3 : same_key c1 c2 -> same_key c2 c3 -> same_key c1 c3.
Proof. intros [A B E] [C D F]. split; [exact A|exact D|congruence]. Qed.
Lemma same_key_seek c nonce k : wf_ChaCha20 c -> same_key c (Seek c nonce k).
Proof. intros W. split; [exact W|apply Seek_wf, W|symmetry; apply Seek_key]. Qed.
Lemma same_key_after c n : wf_ChaCha20 c -> same_key c (after c n).
Proof. intros W. split; [exact W|apply after_wf, W|symmetry; apply after_key, W]. Qed.
Lemma same_key_tag c1 c2 nonce aad text : same_key c1 c2 -> aead_tag c1 nonce aad text = aead_tag c2 nonce aad text.
Proof. intros [W1 W2 E]. unfold aead_tag, one_time_key. rewrite (Seek_keybytes c1 c2 nonce 0 32 W1 W2 E). reflexivity. Qed.
Lemma same_key_text c1 c2 nonce text : same_key c1 c2 -> aead_text c1 nonce text = aead_text c2 nonce text.
Proof. intros [W1 W2 E]. unfold aead_text, text_stream. rewrite (Seek_keybytes c1 c2 nonce 1 _ W1 W2 E). reflexivity. Qed.

(** ** Tags *)

#[local] Opaque keybytes poly1305_init poly1305_update poly1305_finish poly1305_tag.

Lemma padding_small n : (padding_length n <= 16)%nat.
Proof. unfold padding_length. pose proof (Nat.mod_upper_bound (16 - n mod 16) 16 ltac:(lia)). lia. Qed.
Lemma take_padding n : take (padding_length n) PADDING = replicate (padding_length n) 0.
Proof. unfold PADDING. rewrite take_replicate. f_equal. pose proof (padding_small n). lia. Qed.

Lemma ComputeTag_spec c aad text : wf_ChaCha20 c -> bytes_ok aad -> bytes_ok text -> ComputeTag c aad text = Some (poly1305_tag (keybytes c 32) (tag_data aad text), after c 64).
Proof.
  intros W Ha Ht. unfold ComputeTag. change BLOCKLEN with 64%nat. rewrite (Keystream_spec c 64 W). assert (Ek : take 32 (keybytes c 64) = keybytes c 32) by (change 64%nat with (32 + 32)%nat; rewrite (keybytes_app c 32 32 W), take_app_length'; [reflexivity|symmetry; apply length_keybytes]). rewrite Ek.
  unfold new_Poly1305. rewrite length_keybytes. cbn [Nat.eqb mbind option_bind]. rewrite !take_padding. set (z := replicate _ 0). set (z' := replicate _ 0).
  assert (Z0 : forall n, bytes_ok (replicate n 0)) by (intros n; apply Forall_replicate; unfold in_u; lia). assert (Zd : forall x, bytes_ok (WriteLE64 x)) by (intros x; apply le_digits_in_u; lia).
  pose proof (poly1305_spec (keybytes c 32) [aad; z; text; z'; WriteLE64 (Z.of_nat (length aad)) ++ WriteLE64 (Z.of_nat (length text))] (keybytes_ok c 32 W) (length_keybytes c 32)) as P. cbn [fold_left concat] in P. unfold Poly1305_Finalize, Poly1305_Update. rewrite P by (do 5 (apply List.Forall_cons; [first [exact Ha|exact Ht|apply Z0|apply Forall_app; split; apply Zd]|]); apply List.Forall_nil).
  unfold tag_data, padded, WriteLE64. rewrite app_nil_r, <- !app_assoc. reflexivity.
Qed.

(** Block 1 follows block 0. *)
Lemma seek_next c nonce n : wf_ChaCha20 c -> keybytes (after (Seek c nonce 0) 64) n = text_stream c nonce n.
Proof.
  intros W. apply keybytes_ext; [|reflexivity|reflexivity]. unfold after. cbn [Seek m_bufleft m_aligned]. rewrite Nat.min_0_l. change (64 - 0)%nat with 64%nat. change (64 mod 64 =? 0)%nat with true. change (64 / 64)%nat with 1%nat. cbn [m_aligned Nat.iter nat_rect].
  pose proof (wc_input c W) as Wi. unfold wf_input in Wi. set (i := m_aligned c) in *. clearbody i. clear W. do 12 (destruct i as [|? i]; [discriminate Wi|]). destruct i; [|discriminate Wi]. reflexivity.
Qed.

(** ** Encryption and decryption *)

Lemma Crypt_two c p1 p2 : wf_ChaCha20 c -> bytes_ok p1 -> bytes_ok p2 ->
  fst (Crypt c p1) ++ fst (Crypt (snd (Crypt c p1)) p2) = xor_bytes (p1 ++ p2) (keybytes c (length (p1 ++ p2))) /\ same_key c (snd (Crypt (snd (Crypt c p1)) p2)) /\ length (fst (Crypt c p1)) = length p1.
Proof.
  intros W H1 H2. rewrite (Crypt_spec c p1 W H1). cbn [fst snd]. pose proof (same_key_after c (length p1) W) as S1. rewrite (Crypt_spec _ p2 (sk_wf2 _ _ S1) H2). cbn [fst snd]. split_and!.
  - rewrite length_app, (keybytes_app c _ _ W), xor_app by (symmetry; apply length_keybytes). reflexivity.
  - eapply same_key_trans; [exact S1|]. apply same_key_after, (sk_wf2 _ _ S1).
  - apply length_xor. symmetry. apply length_keybytes.
Qed.

Lemma AEAD_Encrypt_spec c p1 p2 aad nonce size : wf_ChaCha20 c -> bytes_ok p1 -> bytes_ok p2 -> bytes_ok aad -> size = (length p1 + length p2 + 16)%nat ->
  exists c', AEAD_Encrypt c p1 p2 aad nonce size = Some (aead_text c nonce (p1 ++ p2) ++ aead_tag c nonce aad (aead_text c nonce (p1 ++ p2)), c') /\ same_key c c'.
Proof.
  intros W H1 H2 Ha ->. unfold AEAD_Encrypt. change AEAD_EXPANSION with 16%nat. rewrite Nat.eqb_refl. cbn [negb]. pose proof (same_key_seek c nonce 1 W) as S0. destruct (Crypt_two (Seek c nonce 1) p1 p2 (sk_wf2 _ _ S0) H1 H2) as (E & S1 & L). destruct (Crypt (Seek c nonce 1) p1) as [x1 c1]. cbn [fst snd] in *. destruct (Crypt c1 p2) as [x2 c2]. cbn [fst snd] in *.
  assert (Ex : x1 ++ x2 = aead_text c nonce (p1 ++ p2)) by exact E. rewrite Ex. pose proof (same_key_trans _ _ _ S0 S1) as S2. rewrite ComputeTag_spec; [|apply Seek_wf, (sk_wf2 _ _ S2)|exact Ha|apply aead_text_bytes; [exact W|apply Forall_app; auto]]. cbn [mbind option_bind].
  eexists. split; [|eapply same_key_trans; [exact S2|]; eapply same_key_trans; [apply (same_key_seek _ nonce 0), (sk_wf2 _ _ S2)|apply same_key_after, Seek_wf, (sk_wf2 _ _ S2)]]. rewrite app_assoc, Ex. do 3 f_equal. symmetry. apply same_key_tag, S2.
Qed.

Lemma AEAD_Decrypt_spec c text tag aad nonce n1 n2 : wf_ChaCha20 c -> bytes_ok text -> bytes_ok aad -> length text = (n1 + n2)%nat -> length tag = 16%nat ->
  exists c', AEAD_Decrypt c (text ++ tag) aad nonce n1 n2 = Some (if bool_decide (tag = aead_tag c nonce aad text) then Some (take n1 (aead_text c nonce text), drop n1 (aead_text c nonce text)) else None, c') /\ same_key c c'.
Proof.
  intros W Ht Ha L Lt. unfold AEAD_Decrypt. change AEAD_EXPANSION with 16%nat. rewrite length_app, Lt, L, Nat.eqb_refl. cbn [negb]. replace (n1 + n2 + 16 - 16)%nat with (length text) by lia. rewrite take_app_length, drop_app_length. pose proof (same_key_seek c nonce 0 W) as S0. rewrite ComputeTag_spec; [|apply S0|exact Ha|exact Ht]. cbn [mbind option_bind].
  rewrite timingsafe_bcmp_spec by (apply length_tag || exact Lt). pose proof (same_key_trans _ _ _ S0 (same_key_after _ 64 (sk_wf2 _ _ S0))) as S1. change (poly1305_tag (keybytes (Seek c nonce 0) 32) (tag_data aad text)) with (aead_tag c nonce aad text). destruct (decide (tag = aead_tag c nonce aad text)) as [E|E].
  - rewrite (bool_decide_eq_true_2 _ E), (bool_decide_eq_false_2 (aead_tag c nonce aad text <> tag)) by congruence. cbn iota. rewrite (take_app_le text tag n1), (drop_app_le text tag n1) by lia. rewrite (take_app_le (drop n1 text) tag n2), (take_ge (drop n1 text) n2) by (rewrite length_drop; lia).
    destruct (Crypt_two (after (Seek c nonce 0) 64) (take n1 text) (drop n1 text) (sk_wf2 _ _ S1) ltac:(apply Forall_take, Ht) ltac:(apply Forall_drop, Ht)) as (Ex & S2 & Lx). destruct (Crypt _ (take n1 text)) as [x1 c1]. cbn [fst snd] in *. destruct (Crypt c1 (drop n1 text)) as [x2 c2]. cbn [fst snd] in *. rewrite take_drop, seek_next in Ex by exact W.
    change (xor_bytes text (text_stream c nonce (length text))) with (aead_text c nonce text) in Ex. rewrite <- Ex. rewrite length_take in Lx. exists c2. split; [|exact (same_key_trans _ _ _ S1 S2)]. rewrite take_app_length', drop_app_length' by lia. reflexivity.
  - rewrite (bool_decide_eq_false_2 _ E), (bool_decide_eq_true_2 (aead_tag c nonce aad text <> tag)) by congruence. eexists. split; [reflexivity|exact S1].
Qed.

Lemma aead_text_twice c nonce text : aead_text c nonce (aead_text c nonce text) = text.
Proof. unfold aead_text at 1. rewrite length_aead_text. unfold aead_text. apply xor_xor. symmetry. apply length_keybytes. Qed.

(** ** Two ciphers in step *)

Record in_step (f1 f2 : FSChaCha20Poly1305) : Prop := {
  is_key : same_key (m_aead f1) (m_aead f2); is_interval : fp_rekey_interval f1 = fp_rekey_interval f2;
  is_packet : m_packet_counter f1 = m_packet_counter f2; is_rekey : fp_rekey_counter f1 = fp_rekey_counter f2;
}.

Lemma new_AEAD_spec key : length key = 32%nat -> new_AEAD key = Some (keyed key).
Proof. intros H. unfold new_AEAD. rewrite new_ChaCha20_spec by exact H. cbn [mbind option_bind]. rewrite H. reflexivity. Qed.
Lemma new_FSP_spec key interval : length key = 32%nat -> exists f, new_FSChaCha20Poly1305 key interval = Some f /\ in_step f f.
Proof. intros H. unfold new_FSChaCha20Poly1305. rewrite new_AEAD_spec by exact H. eexists. split; [reflexivity|]. split; try reflexivity. apply same_key_refl, keyed_wf. Qed.

Lemma NextPacket_step f1 f2 : in_step f1 f2 -> exists f1' f2', NextPacket f1 = Some f1' /\ NextPacket f2 = Some f2' /\ in_step f1' f2'.
Proof.
  intros [K I P R]. unfold NextPacket, AEAD_Keystream. rewrite <- I, <- P, <- R. destruct (u32 (m_packet_counter f1 + 1) =? fp_rekey_interval f1).
  - change BLOCKLEN with 64%nat. rewrite !Keystream_spec by (apply Seek_wf, K). rewrite (Seek_keybytes (m_aead f2) (m_aead f1) _ 1 64) by (first [apply K|symmetry; apply K]). set (k := keybytes _ 64). unfold AEAD_SetKey. change AEAD_KEYLEN with 32%nat.
    assert (L : length (take 32 k) = 32%nat) by (rewrite length_take; unfold k; rewrite length_keybytes; reflexivity). rewrite L. cbn [Nat.eqb]. rewrite !SetKey_spec by exact L. cbn [mbind option_bind]. do 2 eexists. split; [reflexivity|]. split; [reflexivity|]. split; try reflexivity. apply same_key_refl, keyed_wf.
  - do 2 eexists. split; [reflexivity|]. split; [reflexivity|]. split; try reflexivity. exact K.
Qed.

(** One encrypts, the other decrypts. *)
Lemma FSP_roundtrip f1 f2 p1 p2 aad size : in_step f1 f2 -> bytes_ok p1 -> bytes_ok p2 -> bytes_ok aad -> size = (length p1 + length p2 + 16)%nat ->
  exists cipher f1' f2', FSP_Encrypt f1 p1 p2 aad size = Some (cipher, f1') /\ length cipher = size /\ bytes_ok cipher /\ FSP_Decrypt f2 cipher aad (length p1) (length p2) = Some (Some (p1, p2), f2') /\ in_step f1' f2'.
Proof.
  intros [K I P R] H1 H2 Ha Hs. unfold FSP_Encrypt, FSP_Decrypt. rewrite <- P, <- R. set (nonce := (m_packet_counter f1, fp_rekey_counter f1)). destruct (AEAD_Encrypt_spec (m_aead f1) p1 p2 aad nonce size (sk_wf1 _ _ K) H1 H2 Ha Hs) as (c1 & -> & K1). cbn [mbind option_bind].
  assert (H12 : bytes_ok (p1 ++ p2)) by (apply Forall_app; auto). set (text := aead_text (m_aead f1) nonce (p1 ++ p2)). assert (Lt : length text = (length p1 + length p2)%nat) by (unfold text; rewrite length_aead_text, length_app; reflexivity). assert (Ht : bytes_ok text) by (apply aead_text_bytes; [apply K|exact H12]).
  destruct (AEAD_Decrypt_spec (m_aead f2) text (aead_tag (m_aead f1) nonce aad text) aad nonce (length p1) (length p2) (sk_wf2 _ _ K) Ht Ha Lt (length_tag _ _)) as (c2 & E2 & K2). rewrite <- (same_key_tag _ _ nonce aad text K), bool_decide_eq_true_2 in E2 by reflexivity. rewrite <- (same_key_text _ _ nonce text K) in E2. unfold text in E2 at 3 4. rewrite aead_text_twice, take_app_length, drop_app_length in E2.
  assert (S : in_step (set_aead f1 c1) (set_aead f2 c2)) by (split; [|exact I|exact P|exact R]; exact (same_key_trans _ _ _ (same_key_sym _ _ K1) (same_key_trans _ _ _ K K2))).
  destruct (NextPacket_step _ _ S) as (f1' & f2' & N1 & N2 & S'). rewrite N1. cbn [mbind option_bind]. exists (text ++ aead_tag (m_aead f1) nonce aad text), f1', f2'. split; [reflexivity|]. rewrite length_app, Lt. unfold aead_tag at 1. rewrite length_tag. split; [lia|]. split; [apply Forall_app; split; [exact Ht|apply tag_bytes]|].
  rewrite E2. cbn [mbind option_bind]. rewrite N2. split; [reflexivity|exact S'].
Qed.
