(* ===== verification/Bip324.v ===== *)
(** * The packet cipher

    Models src/bip324.h and src/bip324.cpp: the keys that the two ends of a
    connection derive from a shared secret, and the packets, an encrypted length
    and an authenticated text.  The elliptic curve functions of libsecp256k1,
    [secp256k1_ellswift_create] and [secp256k1_ellswift_xdh], are arguments;
    [EllSwiftCreate] and [ComputeBIP324ECDHSecret] of src/key.cpp call them.
    [None] is a failed assertion. *)

From Stdlib Require Import ZArith Lia.
From stdpp Require Import base numbers list strings.
From S2P Require Import Prelude Compact HashWriter Sha256 Sha256Proofs Hashing ChaCha20 AeadProofs Aead.

Local Open Scope Z_scope.

Definition SESSION_ID_LEN : nat := 32.
Definition GARBAGE_TERMINATOR_LEN : nat := 16.
Definition REKEY_INTERVAL : Z := 224.
Definition LENGTH_LEN : nat := 3.
Definition HEADER_LEN : nat := 1.
Definition EXPANSION : nat := LENGTH_LEN + HEADER_LEN + AEAD_EXPANSION.
Definition IGNORE_BIT : Z := 0x80.

(** The bytes of a private key, if there is one. *)
Definition CKey : Type := option (list Z).
Definition EllSwiftPubKey : Type := list Z.

Record BIP324Cipher : Type := {
  m_send_l_cipher : option FSChaCha20; m_recv_l_cipher : option FSChaCha20;
  m_send_p_cipher : option FSChaCha20Poly1305; m_recv_p_cipher : option FSChaCha20Poly1305;
  m_key : CKey; m_our_pubkey : EllSwiftPubKey;
  m_session_id : list Z; m_send_garbage_terminator : list Z; m_recv_garbage_terminator : list Z;
}.

Definition with_send_ciphers (c : BIP324Cipher) (l : FSChaCha20) (p : FSChaCha20Poly1305) : BIP324Cipher :=
  {| m_send_l_cipher := Some l; m_recv_l_cipher := m_recv_l_cipher c; m_send_p_cipher := Some p; m_recv_p_cipher := m_recv_p_cipher c; m_key := m_key c; m_our_pubkey := m_our_pubkey c;
     m_session_id := m_session_id c; m_send_garbage_terminator := m_send_garbage_terminator c; m_recv_garbage_terminator := m_recv_garbage_terminator c |}.
Definition with_recv_ciphers (c : BIP324Cipher) (l : option FSChaCha20) (p : option FSChaCha20Poly1305) : BIP324Cipher :=
  {| m_send_l_cipher := m_send_l_cipher c; m_recv_l_cipher := l; m_send_p_cipher := m_send_p_cipher c; m_recv_p_cipher := p; m_key := m_key c; m_our_pubkey := m_our_pubkey c;
     m_session_id := m_session_id c; m_send_garbage_terminator := m_send_garbage_terminator c; m_recv_garbage_terminator := m_recv_garbage_terminator c |}.

(** ** Keys *)

Section Keys.
Context (secp256k1_ellswift_create : list Z -> list Z -> list Z) (secp256k1_ellswift_xdh : list Z -> list Z -> list Z -> bool -> list Z).

Definition EllSwiftCreate (keydata : CKey) (ent32 : list Z) : option EllSwiftPubKey :=
  k ← keydata; if (length ent32 =? 32)%nat then Some (secp256k1_ellswift_create k ent32) else None.

(** The party is [false] for the initiator. *)
Definition ComputeBIP324ECDHSecret (keydata : CKey) (their_ellswift our_ellswift : EllSwiftPubKey) (initiating : bool) : option (list Z) :=
  k ← keydata;
  Some (secp256k1_ellswift_xdh (if initiating then our_ellswift else their_ellswift) (if initiating then their_ellswift else our_ellswift) k (negb initiating)).

Definition new_BIP324Cipher (key : CKey) (ent32 : list Z) : option BIP324Cipher :=
  pub ← EllSwiftCreate key ent32;
  Some {| m_send_l_cipher := None; m_recv_l_cipher := None; m_send_p_cipher := None; m_recv_p_cipher := None; m_key := key; m_our_pubkey := pub;
    m_session_id := replicate SESSION_ID_LEN 0; m_send_garbage_terminator := replicate GARBAGE_TERMINATOR_LEN 0; m_recv_garbage_terminator := replicate GARBAGE_TERMINATOR_LEN 0 |}.

Definition Initialize (message_start : list Z) (c : BIP324Cipher) (their_pubkey : EllSwiftPubKey) (initiator self_decrypt : bool) : option BIP324Cipher :=
  let salt := string_bytes "bitcoin_v2_shared_secret"%string ++ message_start in
  ecdh_secret ← ComputeBIP324ECDHSecret (m_key c) their_pubkey (m_our_pubkey c) initiator;
  let side := negb (eqb initiator self_decrypt) in
  let hkdf := new_CHKDF ecdh_secret salt in
  okm ← Expand32 hkdf (string_bytes "initiator_L"%string);
  il ← new_FSChaCha20 okm REKEY_INTERVAL;
  okm ← Expand32 hkdf (string_bytes "initiator_P"%string);
  ip ← new_FSChaCha20Poly1305 okm REKEY_INTERVAL;
  okm ← Expand32 hkdf (string_bytes "responder_L"%string);
  rl ← new_FSChaCha20 okm REKEY_INTERVAL;
  okm ← Expand32 hkdf (string_bytes "responder_P"%string);
  rp ← new_FSChaCha20Poly1305 okm REKEY_INTERVAL;
  okm ← Expand32 hkdf (string_bytes "garbage_terminators"%string);
  let first := take GARBAGE_TERMINATOR_LEN okm in
  let last := drop (length okm - GARBAGE_TERMINATOR_LEN) okm in
  session ← Expand32 hkdf (string_bytes "session_id"%string);
  Some {| m_send_l_cipher := Some (if side then il else rl); m_recv_l_cipher := Some (if side then rl else il);
    m_send_p_cipher := Some (if side then ip else rp); m_recv_p_cipher := Some (if side then rp else ip);
    m_key := None; m_our_pubkey := m_our_pubkey c; m_session_id := session;
    m_send_garbage_terminator := if initiator then first else last; m_recv_garbage_terminator := if initiator then last else first |}.
End Keys.

Definition initialized (c : BIP324Cipher) : bool := bool_decide (is_Some (m_send_l_cipher c)).

(** ** Packets *)

(** The length in three bytes. *)
Definition length_bytes (n : nat) : list Z :=
  [u8 (Z.land (Z.of_nat n) 0xFF); u8 (Z.land (Z.shiftr (Z.of_nat n) 8) 0xFF); u8 (Z.land (Z.shiftr (Z.of_nat n) 16) 0xFF)].

Definition Encrypt (c : BIP324Cipher) (contents aad : list Z) (ignore : bool) (output_size : nat) : option (list Z * BIP324Cipher) :=
  if negb (output_size =? length contents + EXPANSION)%nat then None
  else
    l ← m_send_l_cipher c;
    '(out1, l) ← FS_Crypt l (length_bytes (length contents));
    p ← m_send_p_cipher c;
    '(out2, p) ← FSP_Encrypt p [if ignore then IGNORE_BIT else 0] contents aad (output_size - LENGTH_LEN);
    Some (out1 ++ out2, with_send_ciphers c l p).

Definition DecryptLength (c : BIP324Cipher) (input : list Z) : option (Z * BIP324Cipher) :=
  if negb (length input =? LENGTH_LEN)%nat then None
  else
    l ← m_recv_l_cipher c;
    '(buf, l) ← FS_Crypt l input;
    Some (u32 (u32 (nth 0 buf 0 + u32 (Z.shiftl (nth 1 buf 0) 8)) + u32 (Z.shiftl (nth 2 buf 0) 16)), with_recv_ciphers c (Some l) (m_recv_p_cipher c)).

(** Whether the packet is to be ignored, and its contents of [size] bytes, if it is right. *)
Definition Decrypt (c : BIP324Cipher) (input aad : list Z) (size : nat) : option (option (bool * list Z) * BIP324Cipher) :=
  if negb (length input + LENGTH_LEN =? size + EXPANSION)%nat then None
  else
    p ← m_recv_p_cipher c;
    '(ret, p) ← FSP_Decrypt p input aad HEADER_LEN size;
    let c := with_recv_ciphers c (m_recv_l_cipher c) (Some p) in
    match ret with
    | None => Some (None, c)
    | Some (header, contents) => Some (Some (Z.land (nth 0 header 0) IGNORE_BIT =? IGNORE_BIT, contents), c)
    end.
