(* ===== verification/Bip324Proofs.v ===== *)
(** * The packet cipher, proofs

    Two ends that derive their keys from one secret read each other's packets,
    in any interleaving of the two directions and across all changes of key. *)

From Stdlib Require Import ZArith Lia.
From stdpp Require Import base numbers list strings.
From S2P Require Import Prelude Compact HashWriter Sha256 Sha256Proofs Hashing ChaCha20 AeadProofs Aead Bip324.

Local Open Scope Z_scope.

#[local] Opaque keybytes.

(** ** Lengths *)

Lemma length_bytes_digits n : length_bytes n = le_digits 8 3 (Z.of_nat n).
Proof.
  unfold length_bytes. cbn [le_digits]. assert (E : forall x, u8 (Z.land x 0xFF) = x mod 2 ^ 8) by (intros x; change 0xFF with (Z.ones 8); rewrite Z.land_ones by lia; unfold uwrap; apply Z.mod_mod; lia). rewrite !E, !Z.shiftr_div_pow2, Z.div_div by lia. reflexivity.
Qed.
Lemma length_bytes_ok n : bytes_ok (length_bytes n).
Proof. rewrite length_bytes_digits. apply le_digits_in_u. lia. Qed.
Lemma read_length n : Z.of_nat n < 2 ^ 24 -> let buf := length_bytes n in u32 (u32 (nth 0 buf 0 + u32 (Z.shiftl (nth 1 buf 0) 8)) + u32 (Z.shiftl (nth 2 buf 0) 16)) = Z.of_nat n.
Proof.
  intros Hn buf. assert (V : le_val 8 buf = Z.of_nat n) by (unfold buf; rewrite length_bytes_digits, le_val_digits by lia; change (2 ^ (8 * Z.of_nat 3)) with (2 ^ 24); apply Z.mod_small; lia).
  pose proof (length_bytes_ok n) as B. fold buf in B. destruct buf as [|b0 [|b1 [|b2 [|]]]] eqn:E; try discriminate E. cbn [nth le_val] in *. repeat (apply Forall_cons_1 in B as [? B]). unfold in_u in *. rewrite !Z.shiftl_mul_pow2 by lia. unfold uwrap. rewrite (Z.mod_small (b1 * 2 ^ 8)), (Z.mod_small (b2 * 2 ^ 16)), (Z.mod_small (b0 + b1 * 2 ^ 8)), Z.mod_small by lia. lia.
Qed.

(** ** One end's packets are for the other *)

Record sends_to (a b : BIP324Cipher) : Prop := {
  st_length : exists l, m_send_l_cipher a = Some l /\ m_recv_l_cipher b = Some l /\ wf_FS l;
  st_packet : exists p q, m_send_p_cipher a = Some p /\ m_recv_p_cipher b = Some q /\ in_step p q;
}.

(** What a packet changes on either side. *)
Record same_but_send (a a' : BIP324Cipher) : Prop := { sb_recv_l : m_recv_l_cipher a' = m_recv_l_cipher a; sb_recv_p : m_recv_p_cipher a' = m_recv_p_cipher a; sb_send_term : m_send_garbage_terminator a' = m_send_garbage_terminator a; sb_recv_term : m_recv_garbage_terminator a' = m_recv_garbage_terminator a; sb_id : m_session_id a' = m_session_id a; sb_key : m_our_pubkey a' = m_our_pubkey a }.
Record same_but_recv (a a' : BIP324Cipher) : Prop := { rb_send_l : m_send_l_cipher a' = m_send_l_cipher a; rb_send_p : m_send_p_cipher a' = m_send_p_cipher a; rb_send_term : m_send_garbage_terminator a' = m_send_garbage_terminator a; rb_recv_term : m_recv_garbage_terminator a' = m_recv_garbage_terminator a; rb_id : m_session_id a' = m_session_id a; rb_key : m_our_pubkey a' = m_our_pubkey a }.

Lemma sends_to_frame a b a' b' : sends_to a b -> same_but_recv a a' -> same_but_send b b' -> sends_to a' b'.
Proof. intros [H1 H2] A B. split; [rewrite (rb_send_l _ _ A), (sb_recv_l _ _ B); exact H1|rewrite (rb_send_p _ _ A), (sb_recv_p _ _ B); exact H2]. Qed.

Definition header_byte (ignore : bool) : Z := if ignore then IGNORE_BIT else 0.

(** The receiver has the length, and the text [input] of the packet is to come. *)
Record reading (c d : BIP324Cipher) (input contents aad : list Z) (ignore : bool) : Prop := {
  rd_length : exists l, m_send_l_cipher c = Some l /\ m_recv_l_cipher d = Some l /\ wf_FS l;
  rd_packet : exists p q q', m_send_p_cipher c = Some p /\ m_recv_p_cipher d = Some q /\ FSP_Decrypt q input aad HEADER_LEN (length contents) = Some (Some ([header_byte ignore], contents), q') /\ in_step p q';
  rd_size : (length input + LENGTH_LEN = length contents + EXPANSION)%nat;
}.

Lemma reading_frame c d d' input contents aad ignore : reading c d input contents aad ignore -> m_recv_l_cipher d' = m_recv_l_cipher d -> m_recv_p_cipher d' = m_recv_p_cipher d -> reading c d' input contents aad ignore.
Proof. intros [H1 H2 H3] E1 E2. split; [rewrite E1; exact H1|rewrite E2; exact H2|exact H3]. Qed.

Lemma Decrypt_reading c d input contents aad ignore : reading c d input contents aad ignore -> exists d', Decrypt d input aad (length contents) = Some (Some (ignore, contents), d') /\ sends_to c d' /\ same_but_recv d d'.
Proof.
  intros [(l & Lc & Ld & Wl) (p & q & q' & Pc & Pd & E & S) Hs]. unfold Decrypt. rewrite Hs, Nat.eqb_refl, Pd. cbn [negb mbind option_bind]. rewrite E. cbn [mbind option_bind nth]. eexists. split; [destruct ignore; reflexivity|]. split; [|split; reflexivity].
  split; cbn [with_recv_ciphers m_recv_l_cipher m_recv_p_cipher]; [exists l; auto|exists p, q'; auto].
Qed.

(** A packet is made, and its length read. *)
Lemma Encrypt_reading a b contents aad ignore : sends_to a b -> bytes_ok contents -> bytes_ok aad -> Z.of_nat (length contents) < 2 ^ 24 ->
  exists out a', Encrypt a contents aad ignore (length contents + EXPANSION) = Some (out, a') /\ length out = (length contents + EXPANSION)%nat /\ bytes_ok out /\ same_but_send a a' /\
  exists b1, DecryptLength b (take LENGTH_LEN out) = Some (Z.of_nat (length contents), b1) /\ reading a' b1 (drop LENGTH_LEN out) contents aad ignore /\ same_but_recv b b1.
Proof.
  intros [(l & La & Lb & Wl) (p & q & Pa & Pb & S)] Hc Ha Hn. unfold Encrypt. rewrite Nat.eqb_refl, La, Pa. cbn [negb mbind option_bind]. destruct (FS_Crypt_spec l _ Wl (length_bytes_ok (length contents))) as [El Wl']. rewrite El. cbn [mbind option_bind].
  assert (Hh : bytes_ok [header_byte ignore]) by (constructor; [|constructor]; destruct ignore; unfold in_u, header_byte, IGNORE_BIT; lia).
  destruct (FSP_roundtrip p q [header_byte ignore] contents aad (length contents + EXPANSION - LENGTH_LEN) S Hh Hc Ha) as (cipher & p' & q' & Ep & Lc & Bc & Eq & S'); [change EXPANSION with 20%nat; change LENGTH_LEN with 3%nat; cbn [length]; lia|]. unfold header_byte in Ep. rewrite Ep. cbn [mbind option_bind].
  set (x := xor_bytes _ _). assert (Lx : length x = 3%nat) by (unfold x; rewrite length_xor; [reflexivity|symmetry; apply length_keybytes]). assert (Bx : bytes_ok x) by (apply xor_bytes_ok; [apply length_bytes_ok|apply keybytes_ok, Wl]).
  do 2 eexists. split; [reflexivity|]. change EXPANSION with 20%nat in *. change LENGTH_LEN with 3%nat in *. split; [rewrite length_app; lia|]. split; [apply Forall_app; auto|]. split; [split; reflexivity|].
  rewrite take_app_length', drop_app_length' by lia. unfold DecryptLength. change LENGTH_LEN with 3%nat. rewrite Lx, Nat.eqb_refl, Lb. cbn [negb mbind option_bind]. pose proof (FS_Crypt_undo l _ Wl (length_bytes_ok (length contents))) as Eu. fold x in Eu. rewrite Eu. cbn [mbind option_bind]. rewrite read_length by exact Hn.
  eexists. split; [reflexivity|]. split; [|split; reflexivity]. split; cbn [with_send_ciphers with_recv_ciphers m_send_l_cipher m_recv_l_cipher m_send_p_cipher m_recv_p_cipher].
  - eexists. split; [reflexivity|]. split; [reflexivity|exact Wl'].
  - exists p', q, q'. split; [reflexivity|]. split; [exact Pb|]. split; [exact Eq|exact S'].
  - change EXPANSION with 20%nat. change LENGTH_LEN with 3%nat. lia.
Qed.

Lemma same_but_recv_trans a b c : same_but_recv a b -> same_but_recv b c -> same_but_recv a c.
Proof. intros [] []. split; congruence. Qed.

(** ** Keys *)

Lemma Expand32_some prk info : (length info <= 128)%nat -> exists okm, Expand32 prk info = Some okm /\ length okm = 32%nat.
Proof.
  intros Hi. unfold Expand32. destruct (Nat.leb_spec (length info) 128); [|lia]. eexists. split; [reflexivity|]. pose proof (CHMAC_spec _ ok256 prk [info; [1]]) as E. cbn [concat app fold_left] in E. unfold CHMAC_SHA256_Finalize, CHMAC_SHA256_Write, new_CHMAC_SHA256. rewrite E. apply length_sha256.
Qed.

Lemma length_string_bytes s : length (string_bytes s) = String.length s.
Proof. unfold string_bytes. rewrite length_map. induction s as [|c s IH]; [reflexivity|]. cbn [String.list_ascii_of_string length String.length]. rewrite IH. reflexivity. Qed.

(** What libsecp256k1 documents: the two parties compute the same secret. *)
Definition xdh_agrees (create : list Z -> list Z -> list Z) (xdh : list Z -> list Z -> list Z -> bool -> list Z) (valid : list Z -> Prop) : Prop :=
  forall ka kb ea eb, valid ka -> valid kb -> xdh (create ka ea) (create kb eb) ka false = xdh (create ka ea) (create kb eb) kb true.

Section Session.
Context (create : list Z -> list Z -> list Z) (xdh : list Z -> list Z -> list Z -> bool -> list Z) (valid : list Z -> Prop) (agrees : xdh_agrees create xdh valid) (magic : list Z).
#[local] Opaque Expand32 new_CHKDF string_bytes new_FSChaCha20 new_FSChaCha20Poly1305.

(** The two ends of a connection. *)
Record paired (a b : BIP324Cipher) : Prop := {
  pr_ab : sends_to a b; pr_ba : sends_to b a; pr_id : m_session_id a = m_session_id b;
  pr_term_ab : m_send_garbage_terminator a = m_recv_garbage_terminator b; pr_term_ba : m_send_garbage_terminator b = m_recv_garbage_terminator a;
  pr_len_ab : length (m_send_garbage_terminator a) = GARBAGE_TERMINATOR_LEN; pr_len_ba : length (m_send_garbage_terminator b) = GARBAGE_TERMINATOR_LEN;
}.

Lemma fresh_pair okm1 okm2 okm3 okm4 : length okm1 = 32%nat -> length okm2 = 32%nat -> length okm3 = 32%nat -> length okm4 = 32%nat ->
  exists il ip rl rp, new_FSChaCha20 okm1 REKEY_INTERVAL = Some il /\ new_FSChaCha20Poly1305 okm2 REKEY_INTERVAL = Some ip /\ new_FSChaCha20 okm3 REKEY_INTERVAL = Some rl /\ new_FSChaCha20Poly1305 okm4 REKEY_INTERVAL = Some rp /\ wf_FS il /\ in_step ip ip /\ wf_FS rl /\ in_step rp rp.
Proof using.
  intros H1 H2 H3 H4. destruct (new_FS_spec okm1 REKEY_INTERVAL H1) as (il & E1 & W1). destruct (new_FSP_spec okm2 REKEY_INTERVAL H2) as (ip & E2 & W2). destruct (new_FS_spec okm3 REKEY_INTERVAL H3) as (rl & E3 & W3). destruct (new_FSP_spec okm4 REKEY_INTERVAL H4) as (rp & E4 & W4). exists il, ip, rl, rp. auto 10.
Qed.

Lemma some_bind {A B} (x : A) (f : A -> option B) : Some x ≫= f = f x.
Proof using. reflexivity. Qed.

(** The six keys that [Initialize] derives. *)
Lemma derived_keys prk : exists o1 o2 o3 o4 o5 o6, Expand32 prk (string_bytes "initiator_L"%string) = Some o1 /\ Expand32 prk (string_bytes "initiator_P"%string) = Some o2 /\ Expand32 prk (string_bytes "responder_L"%string) = Some o3 /\ Expand32 prk (string_bytes "responder_P"%string) = Some o4 /\
  Expand32 prk (string_bytes "garbage_terminators"%string) = Some o5 /\ Expand32 prk (string_bytes "session_id"%string) = Some o6 /\ length o1 = 32%nat /\ length o2 = 32%nat /\ length o3 = 32%nat /\ length o4 = 32%nat /\ length o5 = 32%nat.
Proof using.
  assert (E : forall s, (String.length s <= 20)%nat -> exists okm, Expand32 prk (string_bytes s) = Some okm /\ length okm = 32%nat) by (intros s Hs; apply Expand32_some; rewrite length_string_bytes; lia).
  destruct (E "initiator_L"%string ltac:(cbn; lia)) as (o1 & E1 & L1). destruct (E "initiator_P"%string ltac:(cbn; lia)) as (o2 & E2 & L2). destruct (E "responder_L"%string ltac:(cbn; lia)) as (o3 & E3 & L3). destruct (E "responder_P"%string ltac:(cbn; lia)) as (o4 & E4 & L4). destruct (E "garbage_terminators"%string ltac:(cbn; lia)) as (o5 & E5 & L5). destruct (E "session_id"%string ltac:(cbn; lia)) as (o6 & E6 & L6).
  exists o1, o2, o3, o4, o5, o6. auto 20.
Qed.

(** The result of [Initialize] is a function of the secret. *)
Lemma Initialize_pair ca cb secret ka kb : m_key ca = Some ka -> m_key cb = Some kb ->
  xdh (m_our_pubkey ca) (m_our_pubkey cb) ka false = secret -> xdh (m_our_pubkey ca) (m_our_pubkey cb) kb true = secret ->
  exists a b, Initialize xdh magic ca (m_our_pubkey cb) true false = Some a /\ Initialize xdh magic cb (m_our_pubkey ca) false false = Some b /\ paired a b /\ m_our_pubkey a = m_our_pubkey ca /\ m_our_pubkey b = m_our_pubkey cb.
Proof using.
  intros Ka Kb Sa Sb. unfold Initialize, ComputeBIP324ECDHSecret. rewrite Ka, Kb, !some_bind. cbn [negb eqb]. rewrite Sa, Sb. generalize (new_CHKDF secret (string_bytes "bitcoin_v2_shared_secret" ++ magic)). intros prk.
  destruct (derived_keys prk) as (o1 & o2 & o3 & o4 & o5 & o6 & -> & -> & -> & -> & -> & -> & L1 & L2 & L3 & L4 & L5). destruct (fresh_pair o1 o2 o3 o4 L1 L2 L3 L4) as (il & ip & rl & rp & E1 & E2 & E3 & E4 & W1 & W2 & W3 & W4).
  rewrite !some_bind, E1, !some_bind, E2, !some_bind, E3, !some_bind, E4, !some_bind.
  do 2 eexists. split; [reflexivity|]. split; [reflexivity|]. split; [|auto]. split; cbn [m_session_id m_send_garbage_terminator m_recv_garbage_terminator]; try reflexivity; [split; eauto 10|split; eauto 10|rewrite length_take, L5; reflexivity|rewrite length_drop, L5; reflexivity].
Qed.

Lemma session_start ka kb ea eb : valid ka -> valid kb -> length ea = 32%nat -> length eb = 32%nat ->
  exists ca cb a b, new_BIP324Cipher create (Some ka) ea = Some ca /\ new_BIP324Cipher create (Some kb) eb = Some cb /\
    Initialize xdh magic ca (m_our_pubkey cb) true false = Some a /\ Initialize xdh magic cb (m_our_pubkey ca) false false = Some b /\ paired a b.
Proof using agrees.
  intros Va Vb La Lb. unfold new_BIP324Cipher, EllSwiftCreate. cbn [mbind option_bind]. rewrite La, Lb. cbn [Nat.eqb mbind option_bind]. do 2 eexists.
  edestruct (Initialize_pair) as (a & b & Ia & Ib & P & _); [| | | |exists a, b; split; [reflexivity|]; split; [reflexivity|]; split; [exact Ia|]; split; [exact Ib|exact P]]; [reflexivity|reflexivity|reflexivity|]. cbn [m_our_pubkey]. symmetry. apply agrees; assumption.
Qed.
End Session.

(** ** Conversations *)

(** A packet and who sends it. *)
Record Packet : Type := { from_initiator : bool; pk_contents : list Z; pk_aad : list Z; pk_ignore : bool }.
Definition packet_ok (p : Packet) : Prop := bytes_ok (pk_contents p) /\ bytes_ok (pk_aad p) /\ Z.of_nat (length (pk_contents p)) < 2 ^ 24.

(** What the receiver reads of a packet that the sender makes. *)
Definition transmit (s r : BIP324Cipher) (p : Packet) : option (Z * option (bool * list Z) * BIP324Cipher * BIP324Cipher) :=
  '(out, s) ← Encrypt s (pk_contents p) (pk_aad p) (pk_ignore p) (length (pk_contents p) + EXPANSION);
  '(len, r) ← DecryptLength r (take LENGTH_LEN out);
  '(ret, r) ← Decrypt r (drop LENGTH_LEN out) (pk_aad p) (Z.to_nat len);
  Some (len, ret, s, r).
Fixpoint converse (a b : BIP324Cipher) (ps : list Packet) : option (list (Z * option (bool * list Z))) :=
  match ps with
  | [] => Some []
  | p :: ps =>
      if from_initiator p then '(len, ret, a, b) ← transmit a b p; rest ← converse a b ps; Some ((len, ret) :: rest)
      else '(len, ret, b, a) ← transmit b a p; rest ← converse a b ps; Some ((len, ret) :: rest)
  end.

Lemma transmit_spec s r p : sends_to s r -> packet_ok p -> exists s' r', transmit s r p = Some (Z.of_nat (length (pk_contents p)), Some (pk_ignore p, pk_contents p), s', r') /\ sends_to s' r' /\ same_but_send s s' /\ same_but_recv r r'.
Proof.
  intros S (Hc & Ha & Hn). destruct (Encrypt_reading s r _ _ (pk_ignore p) S Hc Ha Hn) as (out & s' & E & _ & _ & Fs & r1 & El & R & F1). destruct (Decrypt_reading _ _ _ _ _ _ R) as (r2 & Ed & S' & F2). unfold transmit. rewrite E. cbn [mbind option_bind]. rewrite El. cbn [mbind option_bind]. rewrite Nat2Z.id, Ed. cbn [mbind option_bind]. exists s', r2. split; [reflexivity|]. split; [exact S'|]. split; [exact Fs|exact (same_but_recv_trans _ _ _ F1 F2)].
Qed.

Lemma converse_spec ps : forall a b, sends_to a b -> sends_to b a -> Forall packet_ok ps -> converse a b ps = Some (map (fun p => (Z.of_nat (length (pk_contents p)), Some (pk_ignore p, pk_contents p))) ps).
Proof.
  induction ps as [|p ps IH]; intros a b Sab Sba Hp; [reflexivity|]. apply Forall_cons_1 in Hp as [Hp Hps]. cbn [converse map]. destruct (from_initiator p).
  - destruct (transmit_spec a b p Sab Hp) as (a' & b' & -> & S' & Fa & Fb). cbn [mbind option_bind]. rewrite IH; [reflexivity|exact S'|exact (sends_to_frame b a b' a' Sba Fb Fa)|exact Hps].
  - destruct (transmit_spec b a p Sba Hp) as (b' & a' & -> & S' & Fb & Fa). cbn [mbind option_bind]. rewrite IH; [reflexivity|exact (sends_to_frame a b a' b' Sab Fa Fb)|exact S'|exact Hps].
Qed.

(** C20. Two ends make a [BIP324Cipher] each, from their own key and 32 bytes of
    entropy, and [Initialize] it with the other's public key, one as initiator
    and one as responder.  Then no assertion fails, both have the same session
    id, each expects the garbage terminator that the other sends, and in every
    conversation, of any length and any interleaving of the two directions,
    past every change of keys, each packet is decrypted to its length, its
    contents and its ignore flag. *)
Theorem bip324_session (create : list Z -> list Z -> list Z) (xdh : list Z -> list Z -> list Z -> bool -> list Z) (valid : list Z -> Prop) (magic ka kb ea eb : list Z) (ps : list Packet) :
  xdh_agrees create xdh valid -> valid ka -> valid kb -> length ea = 32%nat -> length eb = 32%nat -> Forall packet_ok ps ->
  exists ca cb a b, new_BIP324Cipher create (Some ka) ea = Some ca /\ new_BIP324Cipher create (Some kb) eb = Some cb /\
    Initialize xdh magic ca (m_our_pubkey cb) true false = Some a /\ Initialize xdh magic cb (m_our_pubkey ca) false false = Some b /\
    m_session_id a = m_session_id b /\ m_send_garbage_terminator a = m_recv_garbage_terminator b /\ m_send_garbage_terminator b = m_recv_garbage_terminator a /\
    converse a b ps = Some (map (fun p => (Z.of_nat (length (pk_contents p)), Some (pk_ignore p, pk_contents p))) ps).
Proof.
  intros Hx Va Vb La Lb Hp. destruct (session_start create xdh valid Hx magic ka kb ea eb Va Vb La Lb) as (ca & cb & a & b & Ea & Eb & Ia & Ib & P). exists ca, cb, a, b. do 4 (split; [assumption|]). split; [apply P|]. split; [apply P|]. split; [apply P|]. apply converse_spec; [apply P|apply P|exact Hp].
Qed.

(** A toy agreement: keys and public keys of one number, and their sum. *)
Definition toy_create (k ent : list Z) : list Z := nth 0 k 0 :: replicate 63 0.
Definition toy_xdh (a b k : list Z) (party : bool) : list Z := le_digits 8 32 (nth 0 k 0 + nth 0 (if party then a else b) 0).

Lemma toy_agrees : xdh_agrees toy_create toy_xdh (fun k => length k = 1%nat).
Proof. intros [|x [|]] [|y [|]] ea eb Ha Hb; try discriminate. unfold toy_create, toy_xdh. cbn [take app nth]. rewrite Z.add_comm. reflexivity. Qed.

Lemma bip324_session_witness : let ent := replicate 32 1 in let ps := [{| from_initiator := true; pk_contents := [1; 2; 3]; pk_aad := [7]; pk_ignore := false |}; {| from_initiator := false; pk_contents := []; pk_aad := []; pk_ignore := true |}] in
  exists ca cb a b, new_BIP324Cipher toy_create (Some [5]) ent = Some ca /\ new_BIP324Cipher toy_create (Some [6]) ent = Some cb /\
    Initialize toy_xdh [1; 2; 3; 4] ca (m_our_pubkey cb) true false = Some a /\ Initialize toy_xdh [1; 2; 3; 4] cb (m_our_pubkey ca) false false = Some b /\
    m_session_id a = m_session_id b /\ m_send_garbage_terminator a = m_recv_garbage_terminator b /\ m_send_garbage_terminator b = m_recv_garbage_terminator a /\
    converse a b ps = Some (map (fun p => (Z.of_nat (length (pk_contents p)), Some (pk_ignore p, pk_contents p))) ps).
Proof.
  intros ent ps. apply (bip324_session toy_create toy_xdh (fun k => length k = 1%nat) [1; 2; 3; 4] [5] [6] ent ent ps toy_agrees); [reflexivity|reflexivity|reflexivity|reflexivity|].
  constructor; [|constructor; [|constructor]]; (split; [apply bytes_ok_check; reflexivity|split; [apply bytes_ok_check; reflexivity|reflexivity]]).
Defined.
