(* ===== verification/V2Transport.v ===== *)
(** * The encrypted transport

    Models [V2Transport] of src/net.h and src/net.cpp: the two state machines of
    the handshake and the packets, the fall-back to the first transport, and the
    encoding of message types.  [None] is a failed assertion, and a failed
    [Assume] in the builds that check it; the conditions that
    [V2_GetBytesToSend] and [V2_MarkBytesSent] assume are functions of their
    own.  The capacity of the receive buffer is not modelled. *)

From Stdlib Require Import ZArith Lia String.
From stdpp Require Import base numbers list strings gmap.
From S2P Require Import Prelude Compact HashWriter Sha256 Hashing ChaCha20 Aead Bip324 Transport V1Transport.

Local Open Scope Z_scope.

(** [Assume] belongs to a header outside the repository: a condition that its
    author relies on, checked by some builds.  It is read here as a check, and
    the theorems show that none of them fails, so that both kinds of build do
    the same. *)
Definition Assume (b : bool) : option unit := if b then Some tt else None.

(** ** Message types *)

Definition V2_MESSAGE_IDS : list (list Z) := map string_bytes
  [""; "addr"; "block"; "blocktxn"; "cmpctblock"; "feefilter"; "filteradd"; "filterclear"; "filterload"; "getblocks"; "getblocktxn"; "getdata"; "getheaders"; "headers"; "inv"; "mempool"; "merkleblock"; "notfound"; "ping"; "pong"; "sendcmpct"; "tx";
   "getcfilters"; "cfilter"; "getcfheaders"; "cfheaders"; "getcfcheckpt"; "cfcheckpt"; "addrv2"; ""; ""; ""; ""]%string.

(** [emplace] keeps the first entry of a key. *)
Definition emplace (m : gmap (list Z) Z) (k : list Z) (v : Z) : gmap (list Z) Z := match m !! k with Some _ => m | None => <[k := v]> m end.
Definition V2_MESSAGE_MAP : gmap (list Z) Z := foldl (fun m i => emplace m (nth i V2_MESSAGE_IDS []) (Z.of_nat i)) ∅ (seq 1 (length V2_MESSAGE_IDS - 1)).

(** The bytes before the first zero are to be in range, and those after it zero. *)
Fixpoint type_length (n : nat) (contents : list Z) : option nat :=
  match n, contents with
  | S n, c :: contents => if c =? 0 then Some O else if (c <? 32) || (0x7F <? c) then None else len ← type_length n contents; Some (S len)
  | _, _ => Some O
  end.
Definition GetMessageType (contents : list Z) : option (list Z * list Z) :=
  match contents with
  | [] => None
  | first_byte :: contents =>
      if negb (first_byte =? 0) then
        if first_byte <? Z.of_nat (length V2_MESSAGE_IDS) then Some (nth (Z.to_nat first_byte) V2_MESSAGE_IDS [], contents) else None
      else if (length contents <? COMMAND_SIZE)%nat then None
      else
        msg_type_len ← type_length COMMAND_SIZE contents;
        if forallb (fun c => c =? 0) (drop msg_type_len (take COMMAND_SIZE contents)) then Some (take msg_type_len contents, drop COMMAND_SIZE contents) else None
  end.

(** The contents of the packet for a message; writing past their end is undefined. *)
Definition make_contents (msg : CSerializedNetMsg) : option (list Z) :=
  match V2_MESSAGE_MAP !! sm_type msg with
  | Some short_message_id => Some (short_message_id :: sm_data msg)
  | None =>
      let contents := replicate (1 + COMMAND_SIZE + length (sm_data msg)) 0 in
      if (1 + length (sm_type msg) <=? length contents)%nat then
        Some (copy_at (1 + COMMAND_SIZE) (sm_data msg) (copy_at 1 (sm_type msg) contents))
      else None
  end.

(** ** State *)

Inductive RecvState : Type := KEY_MAYBE_V1 | KEY | GARB_GARBTERM | VERSION | APP | APP_READY | RecvV1.
Inductive SendState : Type := MAYBE_V1 | AWAITING_KEY | READY | SendV1.
#[global] Instance RecvState_eq : EqDecision RecvState.
Proof. solve_decision. Defined.
#[global] Instance SendState_eq : EqDecision SendState.
Proof. solve_decision. Defined.

(** The fields under the two locks. *)
Record V2Recv : Type := { m_recv_len : Z; m_recv_buffer : list Z; m_recv_aad : list Z; m_recv_decode_buffer : list Z; m_recv_state : RecvState }.
Record V2Send : Type := { m_send_buffer : list Z; m_send_pos : Z; m_send_garbage : list Z; m_send_type : list Z; m_send_state : SendState; m_sent_v1_header_worth : bool }.
Record V2Transport : Type := { m_cipher : BIP324Cipher; m_initiating : bool; m_v1_fallback : V1Transport; v2_recv : V2Recv; v2_send : V2Send }.

Definition with_v2_recv (t : V2Transport) (r : V2Recv) : V2Transport := {| m_cipher := m_cipher t; m_initiating := m_initiating t; m_v1_fallback := m_v1_fallback t; v2_recv := r; v2_send := v2_send t |}.
Definition with_v2_send (t : V2Transport) (s : V2Send) : V2Transport := {| m_cipher := m_cipher t; m_initiating := m_initiating t; m_v1_fallback := m_v1_fallback t; v2_recv := v2_recv t; v2_send := s |}.
Definition with_cipher (t : V2Transport) (c : BIP324Cipher) : V2Transport := {| m_cipher := c; m_initiating := m_initiating t; m_v1_fallback := m_v1_fallback t; v2_recv := v2_recv t; v2_send := v2_send t |}.
Definition with_v1 (t : V2Transport) (v : V1Transport) : V2Transport := {| m_cipher := m_cipher t; m_initiating := m_initiating t; m_v1_fallback := v; v2_recv := v2_recv t; v2_send := v2_send t |}.
Definition set_recv_buffer (r : V2Recv) (buf : list Z) : V2Recv := {| m_recv_len := m_recv_len r; m_recv_buffer := buf; m_recv_aad := m_recv_aad r; m_recv_decode_buffer := m_recv_decode_buffer r; m_recv_state := m_recv_state r |}.
Definition set_send_buffer (s : V2Send) (buf : list Z) : V2Send := {| m_send_buffer := buf; m_send_pos := m_send_pos s; m_send_garbage := m_send_garbage s; m_send_type := m_send_type s; m_send_state := m_send_state s; m_sent_v1_header_worth := m_sent_v1_header_worth s |}.

Definition VERSION_CONTENTS : list Z := [].
Definition V1_PREFIX_LEN : nat := 16.
Definition ELLSWIFT_SIZE : nat := 64.
Definition MAX_GARBAGE_LEN : nat := Z.to_nat 4095.

Definition recv_transition (from to : RecvState) : bool :=
  match from with
  | KEY_MAYBE_V1 => bool_decide (to = KEY) || bool_decide (to = RecvV1)
  | KEY => bool_decide (to = GARB_GARBTERM)
  | GARB_GARBTERM => bool_decide (to = VERSION)
  | VERSION => bool_decide (to = APP)
  | APP => bool_decide (to = APP_READY)
  | APP_READY => bool_decide (to = APP)
  | RecvV1 => false
  end.
Definition SetReceiveState (r : V2Recv) (recv_state : RecvState) : option V2Recv :=
  _ ← Assume (recv_transition (m_recv_state r) recv_state);
  Some {| m_recv_len := m_recv_len r; m_recv_buffer := m_recv_buffer r; m_recv_aad := m_recv_aad r; m_recv_decode_buffer := m_recv_decode_buffer r; m_recv_state := recv_state |}.

Definition send_transition (from to : SendState) : bool :=
  match from with
  | MAYBE_V1 => bool_decide (to = SendV1) || bool_decide (to = AWAITING_KEY)
  | AWAITING_KEY => bool_decide (to = READY)
  | READY | SendV1 => false
  end.
Definition SetSendState (s : V2Send) (send_state : SendState) : option V2Send :=
  _ ← Assume (send_transition (m_send_state s) send_state);
  Some {| m_send_buffer := m_send_buffer s; m_send_pos := m_send_pos s; m_send_garbage := m_send_garbage s; m_send_type := m_send_type s; m_send_state := send_state; m_sent_v1_header_worth := m_sent_v1_header_worth s |}.

Definition StartSendingHandshake (t : V2Transport) : option V2Transport :=
  let s := v2_send t in
  _ ← Assume (bool_decide (m_send_state s = AWAITING_KEY));
  _ ← Assume (bool_decide (m_send_buffer s = []));
  Some (with_v2_send t (set_send_buffer s (m_our_pubkey (m_cipher t) ++ m_send_garbage s))).

Section V2.
Context (secp256k1_ellswift_create : list Z -> list Z -> list Z) (secp256k1_ellswift_xdh : list Z -> list Z -> list Z -> bool -> list Z).

Definition new_V2Transport (message_start : list Z) (initiating : bool) (key : CKey) (ent32 garbage : list Z) : option V2Transport :=
  cipher ← new_BIP324Cipher secp256k1_ellswift_create key ent32;
  let t := {| m_cipher := cipher; m_initiating := initiating; m_v1_fallback := new_V1Transport message_start;
    v2_recv := {| m_recv_len := 0; m_recv_buffer := []; m_recv_aad := []; m_recv_decode_buffer := []; m_recv_state := if initiating then KEY else KEY_MAYBE_V1 |};
    v2_send := {| m_send_buffer := []; m_send_pos := 0; m_send_garbage := garbage; m_send_type := []; m_send_state := if initiating then AWAITING_KEY else MAYBE_V1; m_sent_v1_header_worth := false |} |} in
  _ ← Assume (length garbage <=? MAX_GARBAGE_LEN)%nat;
  if initiating then StartSendingHandshake t else Some t.

(** ** Receiving *)

Definition version_command : list Z := string_bytes "version" ++ [0; 0; 0; 0; 0].
Definition v1_prefix (message_start : list Z) : list Z := message_start ++ version_command.

Definition ProcessReceivedMaybeV1Bytes (t : V2Transport) : option V2Transport :=
  let r := v2_recv t in
  _ ← Assume (bool_decide (m_recv_state r = KEY_MAYBE_V1));
  let prefix := v1_prefix (m_magic_bytes (m_v1_fallback t)) in
  _ ← Assume (length (m_recv_buffer r) <=? length prefix)%nat;
  if negb (bool_decide (m_recv_buffer r = take (length (m_recv_buffer r)) prefix)) then
    r ← SetReceiveState r KEY;
    s ← SetSendState (v2_send t) AWAITING_KEY;
    StartSendingHandshake (with_v2_send (with_v2_recv t r) s)
  else if (length (m_recv_buffer r) =? length prefix)%nat then
    let v1 := m_v1_fallback t in
    let '(ret, vr, feedback) := V1_ReceivedBytes (m_magic_bytes v1) (v1_recv v1) (m_recv_buffer r) in
    _ ← Assume (bool_decide (feedback = []));
    _ ← Assume ret;
    r ← SetReceiveState r RecvV1;
    s ← SetSendState (v2_send t) SendV1;
    Some (with_v1 (with_v2_send (with_v2_recv t (set_recv_buffer r [])) (set_send_buffer s [])) {| m_magic_bytes := m_magic_bytes v1; v1_recv := vr; v1_send := v1_send v1 |})
  else Some t.

Definition ProcessReceivedKeyBytes (t : V2Transport) : option (bool * V2Transport) :=
  let r := v2_recv t in
  _ ← Assume (bool_decide (m_recv_state r = KEY));
  _ ← Assume (length (m_recv_buffer r) <=? ELLSWIFT_SIZE)%nat;
  if negb (m_initiating t) && (MESSAGE_START_SIZE + length version_command <=? length (m_recv_buffer r))%nat && bool_decide (take (length version_command) (drop MESSAGE_START_SIZE (m_recv_buffer r)) = version_command) then Some (false, t)
  else if (length (m_recv_buffer r) =? ELLSWIFT_SIZE)%nat then
    c ← Initialize secp256k1_ellswift_xdh (m_magic_bytes (m_v1_fallback t)) (m_cipher t) (m_recv_buffer r) (m_initiating t) false;
    r ← SetReceiveState r GARB_GARBTERM;
    s ← SetSendState (v2_send t) READY;
    '(packet, c) ← Encrypt c VERSION_CONTENTS (m_send_garbage s) false (EXPANSION + length VERSION_CONTENTS);
    let s := {| m_send_buffer := m_send_buffer s ++ m_send_garbage_terminator c ++ packet; m_send_pos := m_send_pos s; m_send_garbage := []; m_send_type := m_send_type s; m_send_state := m_send_state s; m_sent_v1_header_worth := m_sent_v1_header_worth s |} in
    Some (true, with_v2_send (with_v2_recv (with_cipher t c) (set_recv_buffer r [])) s)
  else Some (true, t).

Definition ProcessReceivedGarbageBytes (t : V2Transport) : option (bool * V2Transport) :=
  let r := v2_recv t in
  let n := length (m_recv_buffer r) in
  _ ← Assume (bool_decide (m_recv_state r = GARB_GARBTERM));
  _ ← Assume (n <=? MAX_GARBAGE_LEN + GARBAGE_TERMINATOR_LEN)%nat;
  if (GARBAGE_TERMINATOR_LEN <=? n)%nat then
    if bool_decide (drop (n - GARBAGE_TERMINATOR_LEN) (m_recv_buffer r) = m_recv_garbage_terminator (m_cipher t)) then
      let r := {| m_recv_len := m_recv_len r; m_recv_buffer := []; m_recv_aad := take (n - GARBAGE_TERMINATOR_LEN) (m_recv_buffer r); m_recv_decode_buffer := m_recv_decode_buffer r; m_recv_state := m_recv_state r |} in
      r ← SetReceiveState r VERSION;
      Some (true, with_v2_recv t r)
    else if (n =? MAX_GARBAGE_LEN + GARBAGE_TERMINATOR_LEN)%nat then Some (false, t)
    else Some (true, t)
  else Some (true, t).

Definition MAX_CONTENTS_LEN : Z := 1 + Z.of_nat COMMAND_SIZE + Z.min MAX_SIZE MAX_PROTOCOL_MESSAGE_LENGTH.

(** A valid packet that is not a decoy. *)
Definition accept_packet (r : V2Recv) : option V2Recv :=
  match m_recv_state r with VERSION => SetReceiveState r APP | APP => SetReceiveState r APP_READY | _ => None end.

Definition ProcessReceivedPacketBytes (t : V2Transport) : option (bool * V2Transport) :=
  let r := v2_recv t in
  let n := length (m_recv_buffer r) in
  _ ← Assume (bool_decide (m_recv_state r = VERSION) || bool_decide (m_recv_state r = APP));
  if (n =? LENGTH_LEN)%nat then
    '(len, c) ← DecryptLength (m_cipher t) (m_recv_buffer r);
    let r := {| m_recv_len := len; m_recv_buffer := m_recv_buffer r; m_recv_aad := m_recv_aad r; m_recv_decode_buffer := m_recv_decode_buffer r; m_recv_state := m_recv_state r |} in
    Some (negb (MAX_CONTENTS_LEN <? len), with_v2_recv (with_cipher t c) r)
  else if (LENGTH_LEN <? n)%nat && (Z.of_nat n =? u32 (m_recv_len r + Z.of_nat EXPANSION)) then
    '(ret, c) ← Decrypt (m_cipher t) (drop LENGTH_LEN (m_recv_buffer r)) (m_recv_aad r) (Z.to_nat (m_recv_len r));
    let t := with_cipher t c in
    match ret with
    | None => Some (false, with_v2_recv t {| m_recv_len := m_recv_len r; m_recv_buffer := m_recv_buffer r; m_recv_aad := m_recv_aad r; m_recv_decode_buffer := resize (Z.to_nat (m_recv_len r)) 0 (m_recv_decode_buffer r); m_recv_state := m_recv_state r |})
    | Some (ignore, contents) =>
        let r := {| m_recv_len := m_recv_len r; m_recv_buffer := m_recv_buffer r; m_recv_aad := []; m_recv_decode_buffer := contents; m_recv_state := m_recv_state r |} in
        r ← (if (ignore : bool) then Some r else accept_packet r);
        Some (true, with_v2_recv t {| m_recv_len := m_recv_len r; m_recv_buffer := []; m_recv_aad := m_recv_aad r; m_recv_decode_buffer := if bool_decide (m_recv_state r = APP_READY) then m_recv_decode_buffer r else []; m_recv_state := m_recv_state r |})
    end
  else Some (true, t).

Definition GetMaxBytesToProcess (r : V2Recv) : option Z :=
  let n := Z.of_nat (length (m_recv_buffer r)) in
  match m_recv_state r with
  | KEY_MAYBE_V1 => _ ← Assume (n <=? Z.of_nat V1_PREFIX_LEN); Some (u64 (Z.of_nat V1_PREFIX_LEN - n))
  | KEY => _ ← Assume (n <=? Z.of_nat ELLSWIFT_SIZE); Some (u64 (Z.of_nat ELLSWIFT_SIZE - n))
  | GARB_GARBTERM => Some 1
  | VERSION | APP => Some (if n <? Z.of_nat LENGTH_LEN then u64 (Z.of_nat LENGTH_LEN - n) else u64 (u32 (Z.of_nat EXPANSION + m_recv_len r) - n))
  | APP_READY => Some 0
  | RecvV1 => None
  end.

(** One call of the function for the state; the last component is whether to return. *)
Definition process_bytes (t : V2Transport) : option (bool * V2Transport * bool) :=
  match m_recv_state (v2_recv t) with
  | KEY_MAYBE_V1 => t ← ProcessReceivedMaybeV1Bytes t; Some (true, t, bool_decide (m_recv_state (v2_recv t) = RecvV1))
  | KEY => '(ok, t) ← ProcessReceivedKeyBytes t; Some (ok : bool, t, negb ok)
  | GARB_GARBTERM => '(ok, t) ← ProcessReceivedGarbageBytes t; Some (ok : bool, t, negb ok)
  | VERSION | APP => '(ok, t) ← ProcessReceivedPacketBytes t; Some (ok : bool, t, negb ok)
  | APP_READY => Some (true, t, true)
  | RecvV1 => None
  end.

Fixpoint received_loop (fuel : nat) (t : V2Transport) (msg_bytes : list Z) : option (bool * V2Transport * list Z) :=
  match msg_bytes with
  | [] => Some (true, t, [])
  | _ =>
      match fuel with
      | O => None
      | S fuel =>
          max_read ← GetMaxBytesToProcess (v2_recv t);
          let max_read := Z.to_nat (Z.min (Z.of_nat (length msg_bytes)) max_read) in
          let t := with_v2_recv t (set_recv_buffer (v2_recv t) (m_recv_buffer (v2_recv t) ++ take max_read msg_bytes)) in
          let msg_bytes := drop max_read msg_bytes in
          '(ok, t, return_) ← process_bytes t;
          if (return_ : bool) then Some (ok, t, msg_bytes)
          else _ ← Assume (0 <? max_read)%nat; received_loop fuel t msg_bytes
      end
  end.

(** Every round that goes on takes a byte. *)
Definition V2_ReceivedBytes (t : V2Transport) (msg_bytes : list Z) : option (bool * V2Transport * list Z) :=
  if bool_decide (m_recv_state (v2_recv t) = RecvV1) then
    let v := m_v1_fallback t in
    let '(ok, r, rest) := V1_ReceivedBytes (m_magic_bytes v) (v1_recv v) msg_bytes in
    Some (ok, with_v1 t {| m_magic_bytes := m_magic_bytes v; v1_recv := r; v1_send := v1_send v |}, rest)
  else received_loop (length msg_bytes) t msg_bytes.

Definition V2_ReceivedMessageComplete (t : V2Transport) : bool :=
  if bool_decide (m_recv_state (v2_recv t) = RecvV1) then CompleteInternal (v1_recv (m_v1_fallback t)) else bool_decide (m_recv_state (v2_recv t) = APP_READY).

Definition V2_GetReceivedMessage (t : V2Transport) (time : Z) : option (CNetMessage * bool * V2Transport) :=
  if bool_decide (m_recv_state (v2_recv t) = RecvV1) then
    let v := m_v1_fallback t in
    '(msg, reject, r) ← V1_GetReceivedMessage (v1_recv v) time;
    Some (msg, reject, with_v1 t {| m_magic_bytes := m_magic_bytes v; v1_recv := r; v1_send := v1_send v |})
  else
    let r := v2_recv t in
    _ ← Assume (bool_decide (m_recv_state r = APP_READY));
    let raw := u32 (Z.of_nat (length (m_recv_decode_buffer r)) + Z.of_nat EXPANSION) in
    let '(msg, reject_message) :=
      match GetMessageType (m_recv_decode_buffer r) with
      | Some (msg_type, contents) => ({| m_recv := contents; m_time := time; m_message_size := u32 (Z.of_nat (length contents)); m_raw_message_size := raw; nm_type := msg_type |}, false)
      | None => ({| m_recv := []; m_time := 0; m_message_size := 0; m_raw_message_size := raw; nm_type := [] |}, true)
      end in
    r ← SetReceiveState {| m_recv_len := m_recv_len r; m_recv_buffer := m_recv_buffer r; m_recv_aad := m_recv_aad r; m_recv_decode_buffer := []; m_recv_state := m_recv_state r |} APP;
    Some (msg, reject_message, with_v2_recv t r).

(** ** Sending *)

Definition V2_SetMessageToSend (t : V2Transport) (msg : CSerializedNetMsg) : option (bool * V2Transport) :=
  let s := v2_send t in
  if bool_decide (m_send_state s = SendV1) then
    let v := m_v1_fallback t in
    '(ok, s) ← V1_SetMessageToSend (m_magic_bytes v) (v1_send v) msg;
    Some (ok, with_v1 t {| m_magic_bytes := m_magic_bytes v; v1_recv := v1_recv v; v1_send := s |})
  else if negb (bool_decide (m_send_state s = READY) && bool_decide (m_send_buffer s = [])) then Some (false, t)
  else
    contents ← make_contents msg;
    '(packet, c) ← Encrypt (m_cipher t) contents [] false (length contents + EXPANSION);
    Some (true, with_v2_send (with_cipher t c) {| m_send_buffer := packet; m_send_pos := m_send_pos s; m_send_garbage := m_send_garbage s; m_send_type := sm_type msg; m_send_state := m_send_state s; m_sent_v1_header_worth := m_sent_v1_header_worth s |}).

Definition sending_assumes (s : V2Send) : bool :=
  (if bool_decide (m_send_state s = MAYBE_V1) then bool_decide (m_send_buffer s = []) else true) && (m_send_pos s <=? Z.of_nat (length (m_send_buffer s))).
Definition V2_GetBytesToSend (t : V2Transport) (have_next_message : bool) : list Z * bool * list Z :=
  let s := v2_send t in
  if bool_decide (m_send_state s = SendV1) then V1_GetBytesToSend (v1_send (m_v1_fallback t)) have_next_message
  else (drop (Z.to_nat (m_send_pos s)) (m_send_buffer s), have_next_message && bool_decide (m_send_state s = READY), m_send_type s).

Definition marking_assumes (s : V2Send) (bytes_sent : nat) : bool := u32 (m_send_pos s + Z.of_nat bytes_sent) <=? Z.of_nat (length (m_send_buffer s)).
Definition V2_MarkBytesSent (t : V2Transport) (bytes_sent : nat) : V2Transport :=
  let s := v2_send t in
  if bool_decide (m_send_state s = SendV1) then
    let v := m_v1_fallback t in with_v1 t {| m_magic_bytes := m_magic_bytes v; v1_recv := v1_recv v; v1_send := V1_MarkBytesSent (v1_send v) bytes_sent |}
  else
    let pos := u32 (m_send_pos s + Z.of_nat bytes_sent) in
    let worth := if Z.of_nat HEADER_SIZE <=? pos then true else m_sent_v1_header_worth s in
    let all := pos =? Z.of_nat (length (m_send_buffer s)) in
    with_v2_send t {| m_send_buffer := if all then [] else m_send_buffer s; m_send_pos := if all then 0 else pos; m_send_garbage := m_send_garbage s; m_send_type := m_send_type s; m_send_state := m_send_state s; m_sent_v1_header_worth := worth |}.

Definition ShouldReconnectV1 (t : V2Transport) : bool :=
  if negb (m_initiating t) then false
  else if negb (bool_decide (m_recv_state (v2_recv t) = KEY)) then false
  else if negb (bool_decide (m_recv_buffer (v2_recv t) = [])) then false
  else m_sent_v1_header_worth (v2_send t).

Inductive TransportProtocolType : Type := DETECTING | TransportV1 | TransportV2.
Definition V2_GetInfo (t : V2Transport) : TransportProtocolType * option (list Z) :=
  match m_recv_state (v2_recv t) with
  | RecvV1 => (TransportV1, None)
  | KEY_MAYBE_V1 | KEY | GARB_GARBTERM | VERSION => (DETECTING, None)
  | APP | APP_READY => (TransportV2, Some (m_session_id (m_cipher t)))
  end.

(** [memusage::DynamicUsage] asks the allocator. *)
Context (GetMemoryUsage : CSerializedNetMsg -> Z) (sizeof_vector : Z) (DynamicUsage : list Z -> Z).
Definition V2_GetSendMemoryUsage (t : V2Transport) : Z :=
  if bool_decide (m_send_state (v2_send t) = SendV1) then V1_GetSendMemoryUsage GetMemoryUsage (v1_send (m_v1_fallback t)) else sizeof_vector + DynamicUsage (m_send_buffer (v2_send t)).

Definition V2_is_Transport : Transport V2Transport := {|
  ReceivedMessageComplete := V2_ReceivedMessageComplete;
  ReceivedBytes := V2_ReceivedBytes;
  GetReceivedMessage := V2_GetReceivedMessage;
  SetMessageToSend := V2_SetMessageToSend;
  GetBytesToSend := V2_GetBytesToSend;
  MarkBytesSent := V2_MarkBytesSent;
  GetSendMemoryUsage := V2_GetSendMemoryUsage;
|}.
End V2.
