(* ===== verification/V2Session.v ===== *)
(** * The two ends of the encrypted transport

    Message types, the relation between the bytes on the wire and the states of
    the two ends, and each round of the receiving loop. *)

From Stdlib Require Import ZArith Lia String.
From stdpp Require Import base numbers list strings gmap.
From S2P Require Import Prelude Compact HashWriter Sha256 Hashing Transport V1Transport ChaCha20 Aead Bip324 Bip324Proofs V2Transport.

Local Open Scope Z_scope.

(** * Messages in packets

    The contents that [V2_SetMessageToSend] makes for a message are read back by
    [GetMessageType], for the short and for the long encoding of its type. *)

(** ** Short types *)

Definition short_ok (k : list Z) (v : Z) : Prop := 0 < v < 33 /\ nth (Z.to_nat v) V2_MESSAGE_IDS [] = k.

Lemma emplace_ok m k v : map_Forall short_ok m -> short_ok k v -> map_Forall short_ok (emplace m k v).
Proof. intros Hm Hk. unfold emplace. destruct (m !! k); [exact Hm|]. apply map_Forall_insert_2; assumption. Qed.
Lemma emplace_all ids : forall m, map_Forall short_ok m -> Forall (fun i => 0 < i < 33)%nat ids -> map_Forall short_ok (foldl (fun m i => emplace m (nth i V2_MESSAGE_IDS []) (Z.of_nat i)) m ids).
Proof.
  induction ids as [|i ids IH]; intros m Hm Hi; [exact Hm|]. apply Forall_cons_1 in Hi as [H1 H2]. cbn [foldl]. apply IH; [|exact H2]. apply emplace_ok; [exact Hm|]. split; [lia|]. rewrite Nat2Z.id. reflexivity.
Qed.
Lemma short_types k v : V2_MESSAGE_MAP !! k = Some v -> short_ok k v.
Proof.
  assert (F : map_Forall short_ok V2_MESSAGE_MAP) by (apply emplace_all; [apply map_Forall_empty|]; apply Forall_forall; intros i Hi; apply list_elem_of_In, in_seq in Hi; change (length V2_MESSAGE_IDS) with 33%nat in Hi; lia). apply F.
Qed.

(** ** Long types *)

Lemma type_length_app t : forall n rest, Forall (fun c => 32 <= c <= 0x7e) t -> (length t <= n)%nat -> type_length n (t ++ replicate (n - length t) 0 ++ rest) = Some (length t).
Proof.
  induction t as [|c t IH]; intros n rest Ht Hn; cbn [app length].
  - rewrite Nat.sub_0_r. destruct n; reflexivity.
  - apply Forall_cons_1 in Ht as [Hc Ht]. cbn [length] in Hn. destruct n as [|n]; [lia|]. cbn [type_length]. destruct (Z.eqb_spec c 0); [lia|]. destruct (Z.ltb_spec c 32); [lia|]. destruct (Z.ltb_spec 0x7F c); [lia|]. cbn [orb]. change (S n - S (length t))%nat with (n - length t)%nat. rewrite IH by (assumption || lia). reflexivity.
Qed.
Lemma forallb_zeros n : forallb (fun c => c =? 0) (replicate n 0) = true.
Proof. induction n as [|n IH]; [reflexivity|exact IH]. Qed.

Lemma long_contents t data : (length t <= 12)%nat -> copy_at 13 data (copy_at 1 t (replicate (13 + length data) 0)) = 0 :: (t ++ replicate (12 - length t) 0 ++ data).
Proof.
  intros Ht. change (13 + length data)%nat with (S (12 + length data)). cbn [replicate]. assert (E : copy_at 1 t (0 :: replicate (12 + length data) 0) = 0 :: (t ++ replicate (12 - length t) 0 ++ replicate (length data) 0)).
  { unfold copy_at. change (1 + length t)%nat with (S (length t)). cbn [take drop app]. rewrite take_0. cbn [app]. rewrite drop_replicate, <- replicate_add. do 4 f_equal. lia. }
  rewrite E. unfold copy_at. replace (13 + length data)%nat with (S (12 + length data)) by lia. cbn [take drop app]. f_equal. rewrite (app_assoc t). rewrite take_app_length' by (rewrite length_app, length_replicate; lia). rewrite drop_ge by (rewrite !length_app, !length_replicate; lia). rewrite app_nil_r, <- app_assoc. reflexivity.
Qed.

Lemma contents_roundtrip m : valid_type (sm_type m) -> exists contents, make_contents m = Some contents /\ GetMessageType contents = Some (sm_type m, sm_data m) /\ (1 <= length contents <= 13 + length (sm_data m))%nat /\ (bytes_ok (sm_data m) -> bytes_ok contents).
Proof.
  intros [Hl Ht]. change COMMAND_SIZE with 12%nat in Hl. unfold make_contents. destruct (V2_MESSAGE_MAP !! sm_type m) as [id|] eqn:E.
  - apply short_types in E as [Hid En]. eexists. split; [reflexivity|]. cbn [GetMessageType length]. destruct (Z.eqb_spec id 0); [lia|]. cbn [negb]. change (Z.of_nat (length V2_MESSAGE_IDS)) with 33. destruct (Z.ltb_spec id 33); [|lia]. rewrite En. split; [reflexivity|]. split; [lia|]. intros Hd. constructor; [unfold in_u; lia|exact Hd].
  - change (1 + COMMAND_SIZE + length (sm_data m))%nat with (13 + length (sm_data m))%nat. rewrite length_replicate. destruct (Nat.leb_spec (1 + length (sm_type m)) (13 + length (sm_data m))); [|lia]. eexists. split; [reflexivity|]. change (1 + COMMAND_SIZE)%nat with 13%nat. rewrite long_contents by exact Hl. cbn [GetMessageType]. cbn [Z.eqb negb]. change COMMAND_SIZE with 12%nat.
    set (t := sm_type m) in *. set (body := t ++ replicate (12 - length t) 0 ++ sm_data m). assert (Lb : length body = (12 + length (sm_data m))%nat) by (unfold body; rewrite !length_app, length_replicate; lia). rewrite Lb. destruct (Nat.ltb_spec (12 + length (sm_data m)) 12); [lia|]. assert (Et : type_length 12 body = Some (length t)) by (apply type_length_app; assumption). rewrite Et. cbn [mbind option_bind].
    assert (E12 : take 12 body = t ++ replicate (12 - length t) 0) by (unfold body; rewrite app_assoc, take_app_length'; [reflexivity|rewrite length_app, length_replicate; lia]). rewrite E12, drop_app_length, forallb_zeros. assert (Ed : drop 12 body = sm_data m) by (unfold body; rewrite app_assoc, drop_app_length'; [reflexivity|rewrite length_app, length_replicate; lia]). assert (Ek : take (length t) body = t) by (unfold body; rewrite take_app_length; reflexivity). rewrite Ed, Ek. split; [reflexivity|]. cbn [length]. rewrite Lb. split; [lia|].
    intros Hd. constructor; [unfold in_u; lia|]. unfold bytes_ok, body. rewrite !Forall_app. split_and!; [eapply Forall_impl; [exact Ht|]; unfold in_u; cbn; lia|apply Forall_replicate; unfold in_u; lia|exact Hd].
Qed.

(** * A connection over the encrypted transport

    Two ends, the bytes between them in both directions, and every step that an
    end can take.  The invariant ties what an end has produced to what the other
    has read of it. *)

(** ** Streams of packets *)

(** The bytes of packets with their contents and associated data. *)
Fixpoint encode_packets (c : BIP324Cipher) (ps : list (list Z * list Z)) : option (list Z * BIP324Cipher) :=
  match ps with
  | [] => Some ([], c)
  | (contents, aad) :: ps => '(out, c) ← Encrypt c contents aad false (length contents + EXPANSION); '(rest, c) ← encode_packets c ps; Some (out ++ rest, c)
  end.

Definition plain_ok (p : list Z * list Z) : Prop := bytes_ok p.1 /\ bytes_ok p.2 /\ Z.of_nat (length p.1) <= MAX_CONTENTS_LEN.

Lemma encode_app c ps qs : encode_packets c (ps ++ qs) = '(x, c) ← encode_packets c ps; '(y, c) ← encode_packets c qs; Some (x ++ y, c).
Proof.
  revert c. induction ps as [|[contents aad] ps IH]; intros c; cbn [encode_packets app mbind option_bind].
  - destruct (encode_packets c qs) as [[y c']|]; reflexivity.
  - destruct (Encrypt c contents aad false _) as [[out c1]|]; [|reflexivity]. cbn [mbind option_bind]. rewrite IH. destruct (encode_packets c1 ps) as [[x c2]|]; [|reflexivity]. cbn [mbind option_bind]. destruct (encode_packets c2 qs) as [[y c3]|]; [|reflexivity]. cbn [mbind option_bind]. rewrite app_assoc. reflexivity.
Qed.

Lemma plain_small p : plain_ok p -> Z.of_nat (length p.1) < 2 ^ 24.
Proof. intros (_ & _ & H). change MAX_CONTENTS_LEN with 4000013 in H. lia. Qed.

(** One packet, from its making to its reading. *)
Lemma packet_out a b p : sends_to a b -> plain_ok p ->
  exists out a', Encrypt a p.1 p.2 false (length p.1 + EXPANSION) = Some (out, a') /\ length out = (length p.1 + EXPANSION)%nat /\ same_but_send a a' /\
  exists b1, DecryptLength b (take LENGTH_LEN out) = Some (Z.of_nat (length p.1), b1) /\ reading a' b1 (drop LENGTH_LEN out) p.1 p.2 false /\ same_but_recv b b1.
Proof.
  intros S Hp. pose proof (plain_small p Hp) as Hn. destruct Hp as (Hc & Ha & _). destruct (Encrypt_reading a b p.1 p.2 false S Hc Ha Hn) as (out & a' & E & L & _ & F & b1 & D & R & G). exists out, a'. split; [exact E|]. split; [exact L|]. split; [exact F|]. exists b1. auto.
Qed.

Lemma encode_ok ps : forall a b, sends_to a b -> Forall plain_ok ps -> exists bytes a' b', encode_packets a ps = Some (bytes, a') /\ sends_to a' b' /\ same_but_send a a'.
Proof.
  induction ps as [|[contents aad] ps IH]; intros a b S Hp; [exists [], a, b; repeat split; try exact S; apply S|]. apply Forall_cons_1 in Hp as [Hp Hps]. destruct (packet_out a b _ S Hp) as (out & a1 & E & _ & F & b1 & _ & R & _). destruct (Decrypt_reading _ _ _ _ _ _ R) as (b2 & _ & S2 & _).
  destruct (IH a1 b2 S2 Hps) as (bytes & a' & b' & E' & S' & F'). cbn [encode_packets]. cbn [fst snd] in E. rewrite E. cbn [mbind option_bind]. rewrite E'. cbn [mbind option_bind]. exists (out ++ bytes), a', b'. split; [reflexivity|]. split; [exact S'|]. destruct F, F'. split; congruence.
Qed.

(** Making a packet uses the sending ciphers only. *)
Record same_send (c d : BIP324Cipher) : Prop := { ss_l : m_send_l_cipher c = m_send_l_cipher d; ss_p : m_send_p_cipher c = m_send_p_cipher d }.
Lemma Encrypt_frame c d contents aad ignore size out c' : same_send c d -> Encrypt c contents aad ignore size = Some (out, c') -> exists d', Encrypt d contents aad ignore size = Some (out, d') /\ same_send c' d' /\ same_but_send d d'.
Proof.
  intros [E1 E2] H. unfold Encrypt in *. destruct (negb _); [discriminate H|]. rewrite <- E1, <- E2. destruct (m_send_l_cipher c) as [l|]; [|discriminate H]. cbn [mbind option_bind] in *. destruct (FS_Crypt l _) as [[o1 l']|]; [|discriminate H]. cbn [mbind option_bind] in *. destruct (m_send_p_cipher c) as [p|]; [|discriminate H]. cbn [mbind option_bind] in *. destruct (FSP_Encrypt p _ _ _ _) as [[o2 p']|]; [|discriminate H]. cbn [mbind option_bind] in *.
  apply (inj Some) in H. apply pair_equal_spec in H as [<- <-]. eexists. split; [reflexivity|]. split; split; reflexivity.
Qed.

(** ** The two ends *)

(** One end: its cipher before and after [Initialize], its garbage, its role. *)
Record Side : Type := { s_start : BIP324Cipher; s_cipher : BIP324Cipher; s_garbage : list Z; s_initiator : bool }.
Definition pub (s : Side) : list Z := m_our_pubkey (s_start s).
Definition term (s : Side) : list Z := m_send_garbage_terminator (s_cipher s).

(** Messages that can be sent. *)
Definition can_send (m : CSerializedNetMsg) : Prop := valid_type (sm_type m) /\ bytes_ok (sm_data m) /\ Z.of_nat (length (sm_data m)) <= MAX_PROTOCOL_MESSAGE_LENGTH.
Definition contents_of (m : CSerializedNetMsg) : list Z := default [] (make_contents m).
(** The packets of an end that has sent [sent]. *)
Definition packets (s : Side) (sent : list CSerializedNetMsg) : list (list Z * list Z) := (VERSION_CONTENTS, s_garbage s) :: map (fun m => (contents_of m, [])) sent.

Lemma can_send_plain m : can_send m -> make_contents m = Some (contents_of m) /\ GetMessageType (contents_of m) = Some (sm_type m, sm_data m) /\ plain_ok (contents_of m, []).
Proof.
  intros (Ht & Hd & Hl). destruct (contents_roundtrip m Ht) as (contents & E & G & L & B). unfold contents_of. rewrite E. cbn [default from_option id]. split; [reflexivity|]. split; [exact G|]. split; [apply B, Hd|]. split; [constructor|]. cbn [fst]. change MAX_CONTENTS_LEN with 4000013. change MAX_PROTOCOL_MESSAGE_LENGTH with 4000000 in Hl. lia.
Qed.

Section Session.
Context (xdh : list Z -> list Z -> list Z -> bool -> list Z) (magic : list Z).

(** What the handshake needs of an end [s] whose peer is [r]: [Initialize] works,
    the packets are for the peer, the garbage does not hold the terminator by
    accident, and the key of an initiator does not look like an old message. *)
Record side_ok (s r : Side) : Prop := {
  so_init : Initialize xdh magic (s_start s) (pub r) (s_initiator s) false = Some (s_cipher s);
  so_pub : length (pub s) = ELLSWIFT_SIZE;
  so_garbage : (length (s_garbage s) <= MAX_GARBAGE_LEN)%nat;
  so_bytes : bytes_ok (s_garbage s);
  so_sends : sends_to (s_cipher s) (s_cipher r);
  so_term : m_recv_garbage_terminator (s_cipher r) = term s;
  so_length : length (term s) = GARBAGE_TERMINATOR_LEN;
  so_early n : (n < length (s_garbage s))%nat -> take GARBAGE_TERMINATOR_LEN (drop n (s_garbage s ++ term s)) <> term s;
  so_first : s_initiator s = true -> take (length version_command) (drop MESSAGE_START_SIZE (pub s)) <> version_command;
}.

Definition unsent (t : V2Transport) : list Z := drop (Z.to_nat (m_send_pos (v2_send t))) (m_send_buffer (v2_send t)).

(** The end [t] of side [s] has accepted the messages [sent], and [prod] is all
    that it has put into its send buffer. *)
Definition has_produced (s : Side) (t : V2Transport) (sent : list CSerializedNetMsg) (prod : list Z) : Prop :=
  match m_send_state (v2_send t) with
  | MAYBE_V1 => prod = [] /\ sent = [] /\ m_cipher t = s_start s /\ m_send_garbage (v2_send t) = s_garbage s /\ m_recv_state (v2_recv t) = KEY_MAYBE_V1 /\ m_send_buffer (v2_send t) = []
  | AWAITING_KEY => prod = pub s ++ s_garbage s /\ sent = [] /\ m_cipher t = s_start s /\ m_send_garbage (v2_send t) = s_garbage s /\ m_recv_state (v2_recv t) = KEY
  | READY => exists pk c, prod = pub s ++ s_garbage s ++ term s ++ pk /\ encode_packets (s_cipher s) (packets s sent) = Some (pk, c) /\ same_send c (m_cipher t) /\
      m_recv_state (v2_recv t) ∈ [GARB_GARBTERM; VERSION; APP; APP_READY] /\ m_recv_garbage_terminator (m_cipher t) = m_recv_garbage_terminator (s_cipher s) /\ m_session_id (m_cipher t) = m_session_id (s_cipher s)
  | SendV1 => False
  end.
Record sender_at (s : Side) (t : V2Transport) (sent : list CSerializedNetMsg) (prod : list Z) : Prop := {
  sa_prod : has_produced s t sent prod;
  sa_role : m_initiating t = s_initiator s;
  sa_magic : m_magic_bytes (m_v1_fallback t) = magic;
  sa_pos : 0 <= m_send_pos (v2_send t) <= Z.of_nat (length (m_send_buffer (v2_send t)));
  sa_size : Z.of_nat (length (m_send_buffer (v2_send t))) <= match m_send_state (v2_send t) with READY => 2 ^ 31 | _ => 2 ^ 30 end;
  sa_sent : Forall can_send sent;
}.

(** [c] has made the packets before the [n]th; [t] reads the [n]th. *)
Definition at_packet (t : V2Transport) (c : BIP324Cipher) (p : option (list Z * list Z)) : Prop :=
  let buf := m_recv_buffer (v2_recv t) in
  (length buf < LENGTH_LEN)%nat /\ sends_to c (m_cipher t) \/
  exists contents out c1, p = Some (contents, m_recv_aad (v2_recv t)) /\ Encrypt c contents (m_recv_aad (v2_recv t)) false (length contents + EXPANSION) = Some (out, c1) /\
    m_recv_len (v2_recv t) = Z.of_nat (length contents) /\ (LENGTH_LEN <= length buf < length contents + EXPANSION)%nat /\ buf = take (length buf) out /\ reading c1 (m_cipher t) (drop LENGTH_LEN out) contents (m_recv_aad (v2_recv t)) false.

(** The end [t] of side [r] has read a part of [prod], which the side [s]
    produced; [rest] is what is on the way; [got] are the messages taken out. *)
Definition receiver_at (s r : Side) (t : V2Transport) (sent : list CSerializedNetMsg) (prod rest : list Z) (got : list CSerializedNetMsg) : Prop :=
  let buf := m_recv_buffer (v2_recv t) in
  let start := pub s ++ s_garbage s ++ term s in
  match m_recv_state (v2_recv t) with
  | KEY_MAYBE_V1 => s_initiator s = true /\ prod = buf ++ rest /\ got = [] /\ (length buf < V1_PREFIX_LEN)%nat /\ buf = take (length buf) (v1_prefix magic)
  | KEY => prod = buf ++ rest /\ got = [] /\ (length buf < ELLSWIFT_SIZE)%nat
  | GARB_GARBTERM => prod = pub s ++ buf ++ rest /\ got = [] /\ (length buf < length (s_garbage s) + GARBAGE_TERMINATOR_LEN)%nat /\ m_recv_l_cipher (m_cipher t) = m_recv_l_cipher (s_cipher r) /\ m_recv_p_cipher (m_cipher t) = m_recv_p_cipher (s_cipher r)
  | VERSION => prod = start ++ buf ++ rest /\ got = [] /\ m_recv_aad (v2_recv t) = s_garbage s /\ at_packet t (s_cipher s) (Some (VERSION_CONTENTS, s_garbage s))
  | APP => exists done_ c, encode_packets (s_cipher s) (packets s got) = Some (done_, c) /\ got `prefix_of` sent /\ prod = start ++ done_ ++ buf ++ rest /\ m_recv_aad (v2_recv t) = [] /\ at_packet t c (packets s sent !! S (length got))
  | APP_READY => exists done_ c m, encode_packets (s_cipher s) (packets s (got ++ [m])) = Some (done_, c) /\ (got ++ [m]) `prefix_of` sent /\ prod = start ++ done_ ++ buf ++ rest /\ m_recv_aad (v2_recv t) = [] /\ buf = [] /\ sends_to c (m_cipher t) /\ m_recv_decode_buffer (v2_recv t) = contents_of m
  | RecvV1 => False
  end.

(** ** Steps *)

Record Conn : Type := { cn_a : V2Transport; cn_b : V2Transport; wire_ab : list Z; wire_ba : list Z; sent_a : list CSerializedNetMsg; sent_b : list CSerializedNetMsg; got_a : list CSerializedNetMsg; got_b : list CSerializedNetMsg }.
Definition flip (c : Conn) : Conn := {| cn_a := cn_b c; cn_b := cn_a c; wire_ab := wire_ba c; wire_ba := wire_ab c; sent_a := sent_b c; sent_b := sent_a c; got_a := got_b c; got_b := got_a c |}.
Definition net_content (m : CNetMessage) : CSerializedNetMsg := {| sm_data := m_recv m; sm_type := nm_type m |}.

(** What the first end can do: take a message to send, or refuse it; give bytes to
    the wire; read some bytes of the wire, leaving what it does not process;
    hand out a message. *)
Inductive acts : Conn -> Conn -> Prop :=
  | act_send c m ok t : can_send m -> V2_SetMessageToSend (cn_a c) m = Some (ok, t) ->
      acts c {| cn_a := t; cn_b := cn_b c; wire_ab := wire_ab c; wire_ba := wire_ba c; sent_a := if ok : bool then sent_a c ++ [m] else sent_a c; sent_b := sent_b c; got_a := got_a c; got_b := got_b c |}
  | act_write c next k : (k <= length (V2_GetBytesToSend (cn_a c) next).1.1)%nat ->
      acts c {| cn_a := V2_MarkBytesSent (cn_a c) k; cn_b := cn_b c; wire_ab := wire_ab c ++ take k (V2_GetBytesToSend (cn_a c) next).1.1; wire_ba := wire_ba c; sent_a := sent_a c; sent_b := sent_b c; got_a := got_a c; got_b := got_b c |}
  | act_read c k ok t left : V2_ReceivedBytes xdh (cn_a c) (take k (wire_ba c)) = Some (ok, t, left) ->
      acts c {| cn_a := t; cn_b := cn_b c; wire_ab := wire_ab c; wire_ba := left ++ drop k (wire_ba c); sent_a := sent_a c; sent_b := sent_b c; got_a := got_a c; got_b := got_b c |}
  | act_take c time msg reject t : V2_ReceivedMessageComplete (cn_a c) = true -> V2_GetReceivedMessage (cn_a c) time = Some (msg, reject, t) ->
      acts c {| cn_a := t; cn_b := cn_b c; wire_ab := wire_ab c; wire_ba := wire_ba c; sent_a := sent_a c; sent_b := sent_b c; got_a := got_a c ++ [net_content msg]; got_b := got_b c |}.

Inductive steps : Conn -> Conn -> Prop :=
  | steps_refl c : steps c c
  | steps_a c c1 c2 : steps c c1 -> acts c1 c2 -> steps c c2
  | steps_b c c1 c2 : steps c c1 -> acts (flip c1) c2 -> steps c (flip c2).

(** One direction of the invariant. *)
Definition direction (s r : Side) (t u : V2Transport) (sent got : list CSerializedNetMsg) (wire : list Z) : Prop :=
  exists prod, sender_at s t sent prod /\ receiver_at s r u sent prod (wire ++ unsent t) got.
Record conn_ok (a b : Side) (c : Conn) : Prop := {
  co_ab : direction a b (cn_a c) (cn_b c) (sent_a c) (got_b c) (wire_ab c);
  co_ba : direction b a (cn_b c) (cn_a c) (sent_b c) (got_a c) (wire_ba c);
}.
End Session.

(** * A connection over the encrypted transport, proofs

    Every step of either end keeps the invariant of [V2Session]. *)

#[local] Opaque Encrypt Decrypt DecryptLength Initialize contents_of make_contents V2_MESSAGE_MAP.

Lemma small_u64 x : 0 <= x < 2 ^ 64 -> u64 x = x.
Proof. apply uwrap_small. Qed.
Lemma small_u32 x : 0 <= x < 2 ^ 32 -> u32 x = x.
Proof. apply uwrap_small. Qed.

(** The first bytes of a stream. *)
Lemma app_take_eq {A} (b r p q : list A) : b ++ r = p ++ q -> (length b <= length p)%nat -> b = take (length b) p.
Proof. intros E H. apply (f_equal (take (length b))) in E. rewrite take_app_length, take_app_le in E by exact H. exact E. Qed.
Lemma app_long {A} (b r p q : list A) : b ++ r = p ++ q -> (length p <= length b)%nat -> b = p ++ drop (length p) b /\ drop (length p) b ++ r = q.
Proof.
  intros E H. pose proof (app_take_eq p q b r (eq_sym E) H) as Ep. assert (Eb : b = p ++ drop (length p) b) by (rewrite Ep at 1; rewrite take_drop; reflexivity). split; [exact Eb|]. rewrite Eb, <- app_assoc in E at 1. apply app_inv_head in E. exact E.
Qed.

(** Bytes taken from a chunk [x]. *)
Lemma take_chunk (mr : Z) (x : list Z) : x <> [] -> 0 < mr -> let k := Z.to_nat (Z.min (Z.of_nat (length x)) mr) in (0 < k <= length x)%nat /\ Z.of_nat k <= mr /\ length (take k x) = k /\ (Z.of_nat k < mr -> k = length x).
Proof. intros Hx Hm k. assert (0 < length x)%nat by (destruct x; [contradiction|cbn; lia]). rewrite length_take. unfold k. lia. Qed.

Definition fed (t : V2Transport) (bytes : list Z) : V2Transport := with_v2_recv t (set_recv_buffer (v2_recv t) (m_recv_buffer (v2_recv t) ++ bytes)).

Section Proofs.
Context (xdh : list Z -> list Z -> list Z -> bool -> list Z) (magic : list Z).

(** What one round of the loop reads and does. *)
Definition round_ok (t : V2Transport) (x : list Z) (k : nat) (t' : V2Transport) : Prop :=
  exists mr, GetMaxBytesToProcess (v2_recv t) = Some mr /\ k = Z.to_nat (Z.min (Z.of_nat (length x)) mr) /\ (0 < k <= length x)%nat /\ process_bytes xdh (fed t (take k x)) = Some (true, t', false).

(** ** Packets *)

(** What reading a packet leaves alone. *)
Record same_sender (t t' : V2Transport) : Prop := { sm_send : v2_send t' = v2_send t; sm_v1 : m_v1_fallback t' = m_v1_fallback t; sm_role : m_initiating t' = m_initiating t; sm_cipher : same_but_recv (m_cipher t) (m_cipher t') }.

Definition packet_goes_on (t t' : V2Transport) (c : BIP324Cipher) (p : list Z * list Z) (buf : list Z) : Prop :=
  m_recv_state (v2_recv t') = m_recv_state (v2_recv t) /\ m_recv_buffer (v2_recv t') = buf /\ m_recv_aad (v2_recv t') = m_recv_aad (v2_recv t) /\ at_packet t' c (Some p).
Definition packet_ends (t t' : V2Transport) (c1 : BIP324Cipher) (p : list Z * list Z) : Prop :=
  m_recv_buffer (v2_recv t') = [] /\ m_recv_aad (v2_recv t') = [] /\ sends_to c1 (m_cipher t') /\
  (m_recv_state (v2_recv t) = VERSION /\ m_recv_state (v2_recv t') = APP \/ m_recv_state (v2_recv t) = APP /\ m_recv_state (v2_recv t') = APP_READY /\ m_recv_decode_buffer (v2_recv t') = p.1).

Lemma same_but_recv_refl c : same_but_recv c c.
Proof using. split; reflexivity. Qed.
Lemma same_sender_fed t bytes : same_sender t (fed t bytes).
Proof using. split; try reflexivity. apply same_but_recv_refl. Qed.

(** [process_bytes] in the two states of packets. *)
Lemma process_packet t : m_recv_state (v2_recv t) = VERSION \/ m_recv_state (v2_recv t) = APP -> process_bytes xdh t = '(ok, t) ← ProcessReceivedPacketBytes t; Some (ok : bool, t, negb ok).
Proof using. unfold process_bytes. intros [->| ->]; reflexivity. Qed.
Lemma packet_state t : m_recv_state (v2_recv t) = VERSION \/ m_recv_state (v2_recv t) = APP -> Assume (bool_decide (m_recv_state (v2_recv t) = VERSION) || bool_decide (m_recv_state (v2_recv t) = APP)) = Some tt.
Proof using. intros [->| ->]; reflexivity. Qed.

(** The length, until its three bytes are there. *)
Lemma length_round t c p x w out c1 rest : m_recv_state (v2_recv t) = VERSION \/ m_recv_state (v2_recv t) = APP -> m_recv_aad (v2_recv t) = p.2 -> plain_ok p ->
  Encrypt c p.1 p.2 false (length p.1 + EXPANSION) = Some (out, c1) -> (length (m_recv_buffer (v2_recv t)) < LENGTH_LEN)%nat -> sends_to c (m_cipher t) -> m_recv_buffer (v2_recv t) ++ x ++ w = out ++ rest -> x <> [] ->
  exists k t', round_ok t x k t' /\ same_sender t t' /\ packet_goes_on t t' c p (m_recv_buffer (v2_recv t) ++ take k x).
Proof using.
  intros St Ha Hp E Hb S Es Hx. destruct (packet_out c (m_cipher t) p S Hp) as (out' & c1' & E' & Lo & _ & b1 & D & R & F). rewrite E' in E. apply (inj Some) in E. apply pair_equal_spec in E as [-> ->]. change LENGTH_LEN with 3%nat in *. change EXPANSION with 20%nat in *. set (buf := m_recv_buffer (v2_recv t)) in *.
  assert (M : GetMaxBytesToProcess (v2_recv t) = Some (3 - Z.of_nat (length buf))) by (unfold GetMaxBytesToProcess; fold buf; change (Z.of_nat LENGTH_LEN) with 3; destruct St as [-> | ->]; (destruct (Z.ltb_spec (Z.of_nat (length buf)) 3); [|lia]); rewrite small_u64 by lia; reflexivity).
  destruct (take_chunk (3 - Z.of_nat (length buf)) x Hx ltac:(lia)) as (Hk & Hle & Hl & Hmax). set (k := Z.to_nat _) in *. assert (Lb : length (buf ++ take k x) = (length buf + k)%nat) by (rewrite length_app, Hl; reflexivity).
  assert (Pb : buf ++ take k x = take (length buf + k) out) by (rewrite <- Lb; apply (app_take_eq _ (drop k x ++ w) out rest); [rewrite <- app_assoc, (app_assoc (take k x)), take_drop; exact Es|lia]).
  assert (P1 : process_bytes xdh (fed t (take k x)) = '(ok, t) ← ProcessReceivedPacketBytes (fed t (take k x)); Some (ok : bool, t, negb ok)) by (apply process_packet; exact St).
  unfold ProcessReceivedPacketBytes in P1. rewrite packet_state in P1 by exact St. cbn [mbind option_bind fed with_v2_recv set_recv_buffer v2_recv m_recv_buffer m_recv_state m_cipher m_recv_aad m_recv_len m_recv_decode_buffer] in P1. fold buf in P1. rewrite Lb in P1. change LENGTH_LEN with 3%nat in P1. destruct (Nat.eqb_spec (length buf + k) 3) as [E3|E3].
  - rewrite Pb, E3, D in P1. cbn [mbind option_bind] in P1. assert (Hm : MAX_CONTENTS_LEN <? Z.of_nat (length p.1) = false) by (apply Z.ltb_ge; apply Hp). rewrite Hm in P1. cbn [negb] in P1. exists k. eexists. split; [exists (3 - Z.of_nat (length buf)); split; [exact M|]; split; [reflexivity|]; split; [exact Hk|exact P1]|].
    split; [split; try reflexivity; exact F|]. split; [reflexivity|]. split; [symmetry; rewrite Pb, E3; reflexivity|]. split; [reflexivity|]. right. exists p.1, out, c1. cbn [with_v2_recv with_cipher v2_recv m_recv_buffer m_recv_aad m_recv_len m_cipher]. rewrite Ha. split; [destruct p; reflexivity|]. split; [exact E'|]. split; [reflexivity|].
    assert (L3 : length (take 3 out) = 3%nat) by (rewrite length_take; lia). change LENGTH_LEN with 3%nat. change EXPANSION with 20%nat. rewrite L3. split; [lia|]. split; [reflexivity|exact R].
  - destruct (Nat.ltb_spec 3 (length buf + k)); [lia|]. cbn [andb mbind option_bind negb] in P1. exists k, (fed t (take k x)). split; [exists (3 - Z.of_nat (length buf)); split; [exact M|]; split; [reflexivity|]; split; [exact Hk|exact P1]|]. split; [apply same_sender_fed|]. split; [reflexivity|]. split; [reflexivity|]. split; [reflexivity|]. left. change LENGTH_LEN with 3%nat. cbn [fed with_v2_recv set_recv_buffer v2_recv m_recv_buffer m_cipher]. fold buf. split; [lia|exact S].
Qed.

(** The text, until it is complete. *)
Lemma text_round t c p x w out c1 rest : m_recv_state (v2_recv t) = VERSION \/ m_recv_state (v2_recv t) = APP -> m_recv_aad (v2_recv t) = p.2 -> plain_ok p -> length out = (length p.1 + EXPANSION)%nat ->
  Encrypt c p.1 p.2 false (length p.1 + EXPANSION) = Some (out, c1) -> m_recv_len (v2_recv t) = Z.of_nat (length p.1) -> (LENGTH_LEN <= length (m_recv_buffer (v2_recv t)) < length p.1 + EXPANSION)%nat -> reading c1 (m_cipher t) (drop LENGTH_LEN out) p.1 p.2 false ->
  m_recv_buffer (v2_recv t) ++ x ++ w = out ++ rest -> x <> [] ->
  exists k t', round_ok t x k t' /\ same_sender t t' /\ (packet_goes_on t t' c p (m_recv_buffer (v2_recv t) ++ take k x) \/ m_recv_buffer (v2_recv t) ++ take k x = out /\ drop k x ++ w = rest /\ packet_ends t t' c1 p).
Proof using.
  intros St Ha Hp Lo E Hlen Hb R Es Hx. pose proof Hp as (_ & _ & Hmax). change MAX_CONTENTS_LEN with 4000013 in Hmax. change LENGTH_LEN with 3%nat in *. change EXPANSION with 20%nat in *. set (buf := m_recv_buffer (v2_recv t)) in *. set (n := length p.1) in *.
  assert (M : GetMaxBytesToProcess (v2_recv t) = Some (20 + Z.of_nat n - Z.of_nat (length buf))) by (unfold GetMaxBytesToProcess; fold buf; change (Z.of_nat LENGTH_LEN) with 3; change (Z.of_nat EXPANSION) with 20; rewrite Hlen; rewrite (small_u32 (20 + Z.of_nat n)) by lia; destruct St as [-> | ->]; (destruct (Z.ltb_spec (Z.of_nat (length buf)) 3); [lia|]); rewrite small_u64 by lia; reflexivity).
  destruct (take_chunk (20 + Z.of_nat n - Z.of_nat (length buf)) x Hx ltac:(lia)) as (Hk & Hle & Hl & _). set (k := Z.to_nat _) in *. assert (Lb : length (buf ++ take k x) = (length buf + k)%nat) by (rewrite length_app, Hl; reflexivity).
  assert (Est : (buf ++ take k x) ++ drop k x ++ w = out ++ rest) by (rewrite <- app_assoc, (app_assoc (take k x)), take_drop; exact Es). assert (Pb : buf ++ take k x = take (length buf + k) out) by (rewrite <- Lb; apply (app_take_eq _ (drop k x ++ w) out rest); [exact Est|lia]).
  assert (P1 : process_bytes xdh (fed t (take k x)) = '(ok, t) ← ProcessReceivedPacketBytes (fed t (take k x)); Some (ok : bool, t, negb ok)) by (apply process_packet; exact St).
  unfold ProcessReceivedPacketBytes in P1. rewrite packet_state in P1 by exact St. cbn [mbind option_bind fed with_v2_recv set_recv_buffer v2_recv m_recv_buffer m_recv_state m_cipher m_recv_aad m_recv_len m_recv_decode_buffer] in P1. fold buf in P1. rewrite Lb, Hlen in P1. change LENGTH_LEN with 3%nat in P1. change (Z.of_nat EXPANSION) with 20 in P1. rewrite (small_u32 (Z.of_nat n + 20)) in P1 by lia.
  destruct (Nat.eqb_spec (length buf + k) 3); [lia|]. destruct (Nat.ltb_spec 3 (length buf + k)); [|lia]. cbn [andb] in P1. destruct (Z.eqb_spec (Z.of_nat (length buf + k)) (Z.of_nat n + 20)) as [Ef|Ef].
  - assert (Eo : buf ++ take k x = out) by (rewrite Pb, take_ge by lia; reflexivity). destruct (Decrypt_reading _ _ _ _ _ _ R) as (d & Ed & S & F). rewrite Eo, Nat2Z.id, Ha in P1. fold n in Ed. rewrite Ed in P1. cbn [mbind option_bind] in P1. exists k. unfold accept_packet, SetReceiveState in P1. cbn [m_recv_state m_recv_aad m_recv_len m_recv_buffer m_recv_decode_buffer] in P1.
    assert (Er : drop k x ++ w = rest) by (rewrite Eo in Est; apply app_inv_head in Est; exact Est).
    destruct St as [Sv|Sv]; rewrite Sv in P1; cbn [recv_transition] in P1; rewrite bool_decide_true in P1 by reflexivity; cbn [Assume mbind option_bind m_recv_state m_recv_aad m_recv_len m_recv_decode_buffer negb] in P1; (eexists; split; [exists (20 + Z.of_nat n - Z.of_nat (length buf)); split; [exact M|]; split; [reflexivity|]; split; [exact Hk|exact P1]|]; split; [split; try reflexivity; exact F|]; right; split; [exact Eo|]; split; [exact Er|]; split; [reflexivity|]; split; [reflexivity|]; split; [exact S|]).
    + left. split; [exact Sv|reflexivity].
    + right. split; [exact Sv|]. split; [reflexivity|]. cbn [with_v2_recv v2_recv m_recv_decode_buffer]. rewrite bool_decide_true by reflexivity. reflexivity.
  - cbn [mbind option_bind negb] in P1. exists k, (fed t (take k x)). split; [exists (20 + Z.of_nat n - Z.of_nat (length buf)); split; [exact M|]; split; [reflexivity|]; split; [exact Hk|exact P1]|]. split; [apply same_sender_fed|]. left. split; [reflexivity|]. split; [reflexivity|]. split; [reflexivity|]. right. exists p.1, out, c1. cbn [fed with_v2_recv set_recv_buffer v2_recv m_recv_buffer m_cipher m_recv_aad m_recv_len]. fold buf. rewrite Ha, Lb. change LENGTH_LEN with 3%nat. change EXPANSION with 20%nat. fold n.
    split; [destruct p; reflexivity|]. split; [exact E|]. split; [exact Hlen|]. split; [lia|]. split; [exact Pb|exact R].
Qed.
End Proofs.

(** * The rounds of the receiver of the encrypted transport

    One round of [received_loop] in each state: key, garbage, packets. *)

#[local] Opaque Encrypt Decrypt DecryptLength Initialize contents_of make_contents V2_MESSAGE_MAP.

Lemma packets_prefix s sent sent' : sent `prefix_of` sent' -> packets s sent `prefix_of` packets s sent'.
Proof. intros [l ->]. exists (map (fun m => (contents_of m, [])) l). unfold packets. cbn [app]. rewrite map_app. reflexivity. Qed.
Lemma packets_snoc s sent m : packets s (sent ++ [m]) = packets s sent ++ [(contents_of m, [])].
Proof. unfold packets. rewrite map_app. reflexivity. Qed.
Lemma packets_plain s sent : (length (s_garbage s) <= MAX_GARBAGE_LEN)%nat -> bytes_ok (s_garbage s) -> Forall can_send sent -> Forall plain_ok (packets s sent).
Proof.
  intros Hg Hb Hs. constructor; [split; [constructor|]; split; [exact Hb|cbn [fst VERSION_CONTENTS length]; change MAX_CONTENTS_LEN with 4000013; lia]|]. apply Forall_map. eapply Forall_impl; [exact Hs|]. intros m Hm. apply can_send_plain, Hm.
Qed.

Lemma unsent_app t s' z : 0 <= m_send_pos (v2_send t) <= Z.of_nat (length (m_send_buffer (v2_send t))) -> m_send_buffer s' = m_send_buffer (v2_send t) ++ z -> m_send_pos s' = m_send_pos (v2_send t) -> drop (Z.to_nat (m_send_pos s')) (m_send_buffer s') = unsent t ++ z.
Proof. intros Hp E1 E2. unfold unsent. rewrite E1, E2, drop_app_le by lia. reflexivity. Qed.

Lemma SetReceiveState_ok r st : recv_transition (m_recv_state r) st = true -> SetReceiveState r st = Some {| m_recv_len := m_recv_len r; m_recv_buffer := m_recv_buffer r; m_recv_aad := m_recv_aad r; m_recv_decode_buffer := m_recv_decode_buffer r; m_recv_state := st |}.
Proof. intros E. unfold SetReceiveState. rewrite E. reflexivity. Qed.
Lemma SetSendState_ok s st : send_transition (m_send_state s) st = true -> SetSendState s st = Some {| m_send_buffer := m_send_buffer s; m_send_pos := m_send_pos s; m_send_garbage := m_send_garbage s; m_send_type := m_send_type s; m_send_state := st; m_sent_v1_header_worth := m_sent_v1_header_worth s |}.
Proof. intros E. unfold SetSendState. rewrite E. reflexivity. Qed.

Section Rounds.
Context (xdh : list Z -> list Z -> list Z -> bool -> list Z) (magic : list Z) (Hmagic : length magic = MESSAGE_START_SIZE).
Context (s r : Side) (Hs : side_ok xdh magic s r) (Hr : side_ok xdh magic r s) (Hroles : s_initiator r = negb (s_initiator s)).

Notation sender_at := (sender_at magic).
Notation receiver_at := (receiver_at magic).
Notation round_ok := (round_ok xdh).

(** ** More is produced *)

Lemma at_packet_more t c p p' : at_packet t c p -> (forall x, p = Some x -> p' = Some x) -> at_packet t c p'.
Proof. intros [H|(contents & out & c1 & E & H)] Hp; [left; exact H|right]. exists contents, out, c1. split; [apply Hp, E|exact H]. Qed.

Lemma receiver_more t sent sent' prod rest got z : receiver_at s r t sent prod rest got -> sent `prefix_of` sent' -> receiver_at s r t sent' (prod ++ z) (rest ++ z) got.
Proof.
  intros H Hp. unfold V2Session.receiver_at in *. destruct (m_recv_state (v2_recv t)); try exact H.
  - destruct H as (A & -> & H). rewrite <- app_assoc. auto.
  - destruct H as (-> & H). rewrite <- app_assoc. auto.
  - destruct H as (-> & H). rewrite <- !app_assoc. auto.
  - destruct H as (-> & H). rewrite <- !app_assoc. auto.
  - destruct H as (d & c & E & Hg & -> & Ha & At). exists d, c. split; [exact E|]. split; [transitivity sent; assumption|]. split; [rewrite <- !app_assoc; reflexivity|]. split; [exact Ha|]. eapply at_packet_more; [exact At|]. intros x Hx. eapply prefix_lookup_Some; [exact Hx|apply packets_prefix, Hp].
  - destruct H as (d & c & m & E & Hg & -> & H). exists d, c, m. split; [exact E|]. split; [transitivity sent; assumption|]. split; [rewrite <- !app_assoc; reflexivity|exact H].
Qed.

(** What an end that is not waiting has produced starts with its key. *)
Lemma produced_key t sent prod : sender_at s t sent prod -> prod <> [] -> exists tail, prod = pub s ++ tail.
Proof.
  intros [H _ _ _ _ _] Hn. unfold has_produced in H. destruct (m_send_state (v2_send t)); [destruct H as [-> _]; contradiction|destruct H as [-> _]; eauto|destruct H as (pk & c & -> & _); eauto|contradiction].
Qed.

(** ** The key *)

Lemma sender_fed u t sent prod bytes : sender_at u t sent prod -> sender_at u (fed t bytes) sent prod /\ unsent (fed t bytes) = unsent t.
Proof. intros [H1 H2 H3 H4 H5 H6]. split; [split; assumption|reflexivity]. Qed.

Lemma first_bytes peer t sent prod x w k : sender_at s peer sent prod -> prod = m_recv_buffer (v2_recv t) ++ x ++ w -> x <> [] -> (length (m_recv_buffer (v2_recv t) ++ take k x) <= ELLSWIFT_SIZE)%nat -> m_recv_buffer (v2_recv t) ++ take k x = take (length (m_recv_buffer (v2_recv t) ++ take k x)) (pub s).
Proof.
  intros Sa E Hx Hl. destruct (produced_key peer sent prod Sa) as [tail Et]; [rewrite E; destruct (m_recv_buffer (v2_recv t)); [destruct x; [contradiction|discriminate]|discriminate]|]. apply (app_take_eq _ (drop k x ++ w) (pub s) tail); [|rewrite (so_pub _ _ _ _ Hs); exact Hl]. rewrite <- app_assoc, (app_assoc (take k x)), take_drop, <- E. exact Et.
Qed.

Lemma no_version : s_initiator s = true -> forall n, take 12 (drop 4 (take n (pub s))) = version_command -> (16 <= n)%nat -> False.
Proof.
  intros Hi n E Hn. apply (so_first _ _ _ _ Hs Hi). change (length version_command) with 12%nat. change MESSAGE_START_SIZE with 4%nat. rewrite <- E. rewrite skipn_firstn_comm, take_take. f_equal. lia.
Qed.

Lemma maybe_v1_round peer t sent prod x w got sent_r prod_r : sender_at s peer sent prod -> sender_at r t sent_r prod_r -> receiver_at s r t sent prod (x ++ w) got -> x <> [] -> m_recv_state (v2_recv t) = KEY_MAYBE_V1 ->
  exists k t', round_ok t x k t' /\ receiver_at s r t' sent prod (drop k x ++ w) got /\ exists z, sender_at r t' sent_r (prod_r ++ z) /\ unsent t' = unsent t ++ z.
Proof.
  intros Sa Ra Rc Hx St. unfold V2Session.receiver_at in Rc. rewrite St in Rc. destruct Rc as (Hi & Ep & Hg & Hl & Hpre). set (buf := m_recv_buffer (v2_recv t)) in *. change V1_PREFIX_LEN with 16%nat in *.
  assert (M : GetMaxBytesToProcess (v2_recv t) = Some (16 - Z.of_nat (length buf))) by (unfold GetMaxBytesToProcess; rewrite St; fold buf; change (Z.of_nat V1_PREFIX_LEN) with 16; destruct (Z.leb_spec (Z.of_nat (length buf)) 16); [|lia]; cbn [Assume mbind option_bind]; rewrite small_u64 by lia; reflexivity).
  destruct (take_chunk (16 - Z.of_nat (length buf)) x Hx ltac:(lia)) as (Hk & Hle & Hlk & _). set (k := Z.to_nat _) in *. assert (Lb : length (buf ++ take k x) = (length buf + k)%nat) by (rewrite length_app, Hlk; reflexivity).
  pose proof (first_bytes peer t sent prod x w k Sa Ep Hx) as Fb. fold buf in Fb. rewrite Lb in Fb. specialize (Fb ltac:(change ELLSWIFT_SIZE with 64%nat; lia)). assert (Est : prod = (buf ++ take k x) ++ drop k x ++ w) by (rewrite <- app_assoc, (app_assoc (take k x)), take_drop; exact Ep).
  pose proof Ra as Ra0. destruct Ra as [Hp H2 H3 H4 H5 H6]. unfold has_produced in Hp. rewrite St in Hp. destruct (m_send_state (v2_send t)) eqn:Ss; [|destruct Hp as (_ & _ & _ & _ & E); discriminate E|destruct Hp as (pk & c & _ & _ & _ & E & _); rewrite !elem_of_cons, elem_of_nil in E; intuition discriminate|contradiction].
  destruct Hp as (-> & -> & Hc & Hgb & _ & Hsb). assert (Lp : length (v1_prefix magic) = 16%nat) by (unfold v1_prefix; rewrite length_app, Hmagic; reflexivity).
  assert (P1 : process_bytes xdh (fed t (take k x)) = t ← ProcessReceivedMaybeV1Bytes (fed t (take k x)); Some (true, t, bool_decide (m_recv_state (v2_recv t) = RecvV1))) by (unfold process_bytes; cbn [fed with_v2_recv set_recv_buffer v2_recv m_recv_state]; rewrite St; reflexivity).
  unfold ProcessReceivedMaybeV1Bytes in P1. cbn [fed with_v2_recv set_recv_buffer v2_recv v2_send m_recv_state m_recv_buffer m_v1_fallback] in P1. fold buf in P1. rewrite St, H3, Lb, Lp in P1. rewrite (bool_decide_true (KEY_MAYBE_V1 = KEY_MAYBE_V1)) in P1 by reflexivity. cbn [Assume mbind option_bind] in P1. destruct (Nat.leb_spec (length buf + k) 16); [|lia]. cbn [Assume mbind option_bind] in P1.
  destruct (bool_decide_reflect (buf ++ take k x = take (length buf + k) (v1_prefix magic))) as [Em|Em]; cbn [negb] in P1.
  - destruct (Nat.eqb_spec (length buf + k) 16) as [E16|E16].
    { exfalso. apply (no_version Hi 16); [|lia]. assert (Ev : buf ++ take k x = v1_prefix magic) by (rewrite Em, E16; apply take_ge; lia). rewrite <- E16, <- Fb, Ev. unfold v1_prefix. change MESSAGE_START_SIZE with 4%nat in Hmagic. rewrite drop_app_length' by (symmetry; exact Hmagic). reflexivity. }
    cbn [mbind option_bind] in P1. change (m_recv_state (v2_recv (fed t (take k x)))) with (m_recv_state (v2_recv t)) in P1. cbn [fed with_v2_recv set_recv_buffer v2_recv m_recv_state] in P1. rewrite St, bool_decide_false in P1 by discriminate.
    exists k, (fed t (take k x)). split; [exists (16 - Z.of_nat (length buf)); auto|]. split.
    + unfold V2Session.receiver_at. cbn [fed with_v2_recv set_recv_buffer v2_recv m_recv_state m_recv_buffer]. rewrite St. fold buf. rewrite Lb. change V1_PREFIX_LEN with 16%nat. split; [exact Hi|]. split; [exact Est|]. split; [exact Hg|]. split; [lia|exact Em].
    + exists []. rewrite !app_nil_r. apply sender_fed, Ra0.
  - rewrite (SetReceiveState_ok _ KEY) in P1 by (cbn [set_recv_buffer m_recv_state]; rewrite St; reflexivity). cbn [mbind option_bind] in P1. rewrite (SetSendState_ok _ AWAITING_KEY) in P1 by (rewrite Ss; reflexivity). cbn [mbind option_bind] in P1.
    unfold StartSendingHandshake in P1. cbn [with_v2_send with_v2_recv v2_send m_send_state m_send_buffer] in P1. rewrite (bool_decide_true (AWAITING_KEY = AWAITING_KEY)) in P1 by reflexivity. cbn [Assume mbind option_bind] in P1. rewrite Hsb, (bool_decide_true ([] = [])) in P1 by reflexivity. cbn [Assume mbind option_bind with_v2_send with_v2_recv v2_recv m_recv_state] in P1.
    exists k. eexists. split; [exists (16 - Z.of_nat (length buf)); split; [exact M|]; split; [reflexivity|]; split; [exact Hk|exact P1]|]. split.
    + unfold V2Session.receiver_at. cbn [with_v2_send with_v2_recv v2_recv set_recv_buffer m_recv_state m_recv_buffer]. split; [exact Est|]. split; [exact Hg|]. rewrite Lb. change ELLSWIFT_SIZE with 64%nat. lia.
    + rewrite Hsb in H4. cbn [length] in H4. assert (Hpos : m_send_pos (v2_send t) = 0) by lia. pose proof (so_pub _ _ _ _ Hr) as Lpub. pose proof (so_garbage _ _ _ _ Hr) as Lg. change ELLSWIFT_SIZE with 64%nat in Lpub. unfold MAX_GARBAGE_LEN in Lg.
      exists (pub r ++ s_garbage r). cbn [app]. split.
      * split; cbn [fed with_v2_send with_v2_recv m_initiating m_v1_fallback v2_send set_send_buffer m_send_pos m_send_buffer m_send_garbage m_cipher m_send_state]; try assumption; rewrite ?Hc, ?Hgb.
        -- unfold has_produced. cbn [fed with_v2_send with_v2_recv v2_send set_send_buffer m_send_state m_cipher m_send_garbage v2_recv m_recv_state]. auto.
        -- rewrite Hpos. lia.
        -- change (m_our_pubkey (s_start r)) with (pub r). rewrite length_app, Lpub. lia.
      * unfold unsent. cbn [fed with_v2_send with_v2_recv v2_send set_send_buffer m_send_pos m_send_buffer m_send_garbage m_cipher]. rewrite Hpos, Hsb, Hc, Hgb. reflexivity.
Qed.

Lemma key_round peer t sent prod x w got sent_r prod_r : sender_at s peer sent prod -> sender_at r t sent_r prod_r -> receiver_at s r t sent prod (x ++ w) got -> x <> [] -> m_recv_state (v2_recv t) = KEY ->
  exists k t', round_ok t x k t' /\ receiver_at s r t' sent prod (drop k x ++ w) got /\ exists z, sender_at r t' sent_r (prod_r ++ z) /\ unsent t' = unsent t ++ z.
Proof.
  intros Sa Ra Rc Hx St. unfold V2Session.receiver_at in Rc. rewrite St in Rc. destruct Rc as (Ep & Hg & Hl). set (buf := m_recv_buffer (v2_recv t)) in *. change ELLSWIFT_SIZE with 64%nat in *.
  assert (M : GetMaxBytesToProcess (v2_recv t) = Some (64 - Z.of_nat (length buf))) by (unfold GetMaxBytesToProcess; rewrite St; fold buf; change (Z.of_nat ELLSWIFT_SIZE) with 64; destruct (Z.leb_spec (Z.of_nat (length buf)) 64); [|lia]; cbn [Assume mbind option_bind]; rewrite small_u64 by lia; reflexivity).
  destruct (take_chunk (64 - Z.of_nat (length buf)) x Hx ltac:(lia)) as (Hk & Hle & Hlk & _). set (k := Z.to_nat _) in *. assert (Lb : length (buf ++ take k x) = (length buf + k)%nat) by (rewrite length_app, Hlk; reflexivity).
  pose proof (first_bytes peer t sent prod x w k Sa Ep Hx) as Fb. fold buf in Fb. rewrite Lb in Fb. specialize (Fb ltac:(change ELLSWIFT_SIZE with 64%nat; lia)). assert (Est : prod = (buf ++ take k x) ++ drop k x ++ w) by (rewrite <- app_assoc, (app_assoc (take k x)), take_drop; exact Ep).
  pose proof Ra as Ra0. destruct Ra as [Hp H2 H3 H4 H5 H6]. unfold has_produced in Hp. rewrite St in Hp. destruct (m_send_state (v2_send t)) eqn:Ss; [destruct Hp as (_ & _ & _ & _ & E & _); discriminate E| |destruct Hp as (pk & c & _ & _ & _ & E & _); rewrite !elem_of_cons, elem_of_nil in E; intuition discriminate|contradiction]. destruct Hp as (-> & -> & Hc & Hgb & _).
  assert (P1 : process_bytes xdh (fed t (take k x)) = '(ok, t) ← ProcessReceivedKeyBytes xdh (fed t (take k x)); Some (ok : bool, t, negb ok)) by (unfold process_bytes; cbn [fed with_v2_recv set_recv_buffer v2_recv m_recv_state]; rewrite St; reflexivity).
  unfold ProcessReceivedKeyBytes in P1. cbn [fed with_v2_recv set_recv_buffer v2_recv v2_send m_recv_state m_recv_buffer m_v1_fallback m_cipher m_initiating] in P1. fold buf in P1. rewrite St, H3, H2, Hc, Lb in P1. rewrite (bool_decide_true (KEY = KEY)) in P1 by reflexivity. cbn [Assume mbind option_bind] in P1. change ELLSWIFT_SIZE with 64%nat in P1. destruct (Nat.leb_spec (length buf + k) 64); [|lia]. cbn [Assume mbind option_bind] in P1.
  assert (Hv : negb (s_initiator r) && (MESSAGE_START_SIZE + length version_command <=? length buf + k)%nat && bool_decide (take (length version_command) (drop MESSAGE_START_SIZE (buf ++ take k x)) = version_command) = false).
  { destruct (s_initiator r) eqn:Er; [reflexivity|]. change (MESSAGE_START_SIZE + length version_command)%nat with 16%nat. destruct (Nat.leb_spec 16 (length buf + k)) as [H16|]; [|reflexivity]. cbn [negb andb]. apply bool_decide_eq_false_2. intros Ev. rewrite Fb in Ev. refine (no_version _ _ Ev H16). destruct (s_initiator s); [reflexivity|discriminate Hroles]. }
  rewrite Hv in P1. destruct (Nat.eqb_spec (length buf + k) 64) as [E64|E64].
  - assert (Epub : buf ++ take k x = pub s) by (rewrite Fb, E64, take_ge by (rewrite (so_pub _ _ _ _ Hs); apply Nat.le_refl); reflexivity). rewrite Epub, (so_init _ _ _ _ Hr) in P1. cbn [mbind option_bind] in P1. rewrite (SetReceiveState_ok _ GARB_GARBTERM) in P1 by (cbn [set_recv_buffer m_recv_state]; rewrite St; reflexivity). cbn [mbind option_bind] in P1. rewrite (SetSendState_ok _ READY) in P1 by (rewrite Ss; reflexivity). cbn [mbind option_bind m_send_garbage] in P1. rewrite Hgb in P1.
    pose proof (Forall_inv (packets_plain r [] (so_garbage _ _ _ _ Hr) (so_bytes _ _ _ _ Hr) (Forall_nil_2 _))) as Pv. destruct (packet_out _ _ _ (so_sends _ _ _ _ Hr) Pv) as (packet & c & Ee & Lo & Fc & _). cbn [fst snd] in Ee, Lo. change (EXPANSION + length VERSION_CONTENTS)%nat with (length VERSION_CONTENTS + EXPANSION)%nat in P1. rewrite Ee in P1. cbn [mbind option_bind negb] in P1.
    exists k. eexists. split; [exists (64 - Z.of_nat (length buf)); split; [exact M|]; split; [reflexivity|]; split; [exact Hk|exact P1]|]. split.
    + unfold V2Session.receiver_at. cbn [with_v2_send with_v2_recv with_cipher v2_recv set_recv_buffer m_recv_state m_recv_buffer m_cipher app]. rewrite <- Epub. split; [exact Est|]. split; [exact Hg|]. change GARBAGE_TERMINATOR_LEN with 16%nat. cbn [length]. split; [lia|]. split; apply Fc.
    + assert (Et : m_send_garbage_terminator c = term r) by apply Fc. pose proof (so_length _ _ _ _ Hr) as Lt. change GARBAGE_TERMINATOR_LEN with 16%nat in Lt. change (length VERSION_CONTENTS + EXPANSION)%nat with 20%nat in Lo.
      exists (term r ++ packet). split.
      * split; cbn [with_v2_send with_v2_recv with_cipher m_initiating m_v1_fallback v2_send m_send_pos m_send_buffer m_send_state]; try assumption; rewrite ?Et, ?length_app, ?Lt, ?Lo; try lia.
        -- unfold has_produced. cbn [with_v2_send with_v2_recv with_cipher v2_send m_send_state m_cipher v2_recv set_recv_buffer m_recv_state]. exists packet, c. split; [rewrite <- !app_assoc; reflexivity|]. split; [unfold packets; cbn [map encode_packets]; rewrite Ee; cbn [mbind option_bind]; rewrite app_nil_r; reflexivity|]. split; [split; reflexivity|]. split; [rewrite !elem_of_cons; auto|]. split; apply Fc.
      * unfold unsent at 1. cbn [with_v2_send with_v2_recv with_cipher v2_send m_send_pos m_send_buffer]. rewrite Et. rewrite drop_app_le by lia. reflexivity.
  - cbn [mbind option_bind negb] in P1. exists k, (fed t (take k x)). split; [exists (64 - Z.of_nat (length buf)); auto|]. split.
    + unfold V2Session.receiver_at. cbn [fed with_v2_recv set_recv_buffer v2_recv m_recv_state m_recv_buffer]. rewrite St. fold buf. rewrite Lb. change ELLSWIFT_SIZE with 64%nat. split; [exact Est|]. split; [exact Hg|lia].
    + exists []. rewrite !app_nil_r. apply sender_fed, Ra0.
Qed.

(** ** After the key *)

Lemma sends_to_recv a b b' : sends_to a b -> m_recv_l_cipher b' = m_recv_l_cipher b -> m_recv_p_cipher b' = m_recv_p_cipher b -> sends_to a b'.
Proof. intros [H1 H2] E1 E2. split; [rewrite E1; exact H1|rewrite E2; exact H2]. Qed.

(** Reading leaves the sender of an end alone. *)
Lemma sender_same t t' sent prod : sender_at r t sent prod -> m_recv_state (v2_recv t) ∈ [GARB_GARBTERM; VERSION; APP; APP_READY] -> same_sender t t' -> m_recv_state (v2_recv t') ∈ [GARB_GARBTERM; VERSION; APP; APP_READY] ->
  sender_at r t' sent prod /\ unsent t' = unsent t /\ m_recv_garbage_terminator (m_cipher t) = term s.
Proof.
  intros [H1 H2 H3 H4 H5 H6] St [E1 E2 E3 E4] St'. unfold has_produced in H1. destruct (m_send_state (v2_send t)) eqn:Ss.
  - destruct H1 as (_ & _ & _ & _ & E & _). rewrite E, !elem_of_cons, elem_of_nil in St. intuition discriminate.
  - destruct H1 as (_ & _ & _ & _ & E). rewrite E, !elem_of_cons, elem_of_nil in St. intuition discriminate.
  - destruct H1 as (pk & c & Ep & Ee & [Sl Sp] & _ & Et & Ei). split; [|split; [unfold unsent; rewrite E1; reflexivity|rewrite Et; apply (so_term _ _ _ _ Hs)]].
    split; rewrite ?E1, ?E2, ?E3, ?Ss; try assumption. unfold has_produced. rewrite E1, Ss. exists pk, c. split; [exact Ep|]. split; [exact Ee|]. split; [split; [rewrite (rb_send_l _ _ E4); exact Sl|rewrite (rb_send_p _ _ E4); exact Sp]|]. split; [exact St'|]. split; [rewrite (rb_recv_term _ _ E4); exact Et|rewrite (rb_id _ _ E4); exact Ei].
  - contradiction.
Qed.

(** What comes after the key is the garbage and its terminator. *)
Lemma garbage_bytes peer sent prod b rest : sender_at s peer sent prod -> prod = pub s ++ b ++ rest -> (length b <= length (s_garbage s) + GARBAGE_TERMINATOR_LEN)%nat -> b = take (length b) (s_garbage s ++ term s).
Proof.
  intros [H _ _ _ _ _] E Hl. pose proof (so_pub _ _ _ _ Hs) as Lp. change ELLSWIFT_SIZE with 64%nat in Lp. pose proof (so_length _ _ _ _ Hs) as Lt. unfold has_produced in H. destruct (m_send_state (v2_send peer)); [| | |contradiction].
  - destruct H as (E0 & _). rewrite E0 in E. symmetry in E. apply app_eq_nil in E as [E _]. rewrite E in Lp. discriminate Lp.
  - destruct H as (E0 & _). rewrite E0 in E. apply app_inv_head in E. rewrite E, <- app_assoc, take_app_length. reflexivity.
  - destruct H as (pk & c & E0 & _). rewrite E0 in E. apply app_inv_head in E. apply (app_take_eq b rest (s_garbage s ++ term s) pk); [rewrite <- app_assoc; symmetry; exact E|rewrite length_app, Lt; exact Hl].
Qed.

Lemma garbage_round peer t sent prod x w got sent_r prod_r : sender_at s peer sent prod -> sender_at r t sent_r prod_r -> receiver_at s r t sent prod (x ++ w) got -> x <> [] -> m_recv_state (v2_recv t) = GARB_GARBTERM ->
  exists k t', round_ok t x k t' /\ receiver_at s r t' sent prod (drop k x ++ w) got /\ exists z, sender_at r t' sent_r (prod_r ++ z) /\ unsent t' = unsent t ++ z.
Proof.
  intros Sa Ra Rc Hx St. unfold V2Session.receiver_at in Rc. rewrite St in Rc. destruct Rc as (Ep & Hg & Hl & Rl & Rp). set (buf := m_recv_buffer (v2_recv t)) in *. change GARBAGE_TERMINATOR_LEN with 16%nat in *. pose proof (so_garbage _ _ _ _ Hs) as Lg. pose proof (so_length _ _ _ _ Hs) as Lt. change GARBAGE_TERMINATOR_LEN with 16%nat in Lt.
  assert (M : GetMaxBytesToProcess (v2_recv t) = Some 1) by (unfold GetMaxBytesToProcess; rewrite St; reflexivity). destruct (take_chunk 1 x Hx ltac:(lia)) as (Hk & Hle & Hlk & _). set (k := Z.to_nat _) in *. assert (Lb : length (buf ++ take k x) = S (length buf)) by (rewrite length_app, Hlk; lia).
  assert (Est : prod = pub s ++ (buf ++ take k x) ++ drop k x ++ w) by (rewrite <- (app_assoc buf), (app_assoc (take k x)), take_drop; exact Ep). pose proof (garbage_bytes peer sent prod _ _ Sa Est) as Gb. rewrite Lb in Gb. change GARBAGE_TERMINATOR_LEN with 16%nat in Gb. specialize (Gb ltac:(lia)).
  assert (P1 : process_bytes xdh (fed t (take k x)) = '(ok, t) ← ProcessReceivedGarbageBytes (fed t (take k x)); Some (ok : bool, t, negb ok)) by (unfold process_bytes; cbn [fed with_v2_recv set_recv_buffer v2_recv m_recv_state]; rewrite St; reflexivity).
  assert (In0 : m_recv_state (v2_recv t) ∈ [GARB_GARBTERM; VERSION; APP; APP_READY]) by (rewrite St, !elem_of_cons; auto). destruct (sender_same t (fed t (take k x)) sent_r prod_r Ra In0 (same_sender_fed t _) In0) as (Ra1 & Un1 & Ht).
  unfold ProcessReceivedGarbageBytes in P1. cbn [fed with_v2_recv set_recv_buffer v2_recv m_recv_state m_recv_buffer m_cipher m_recv_len m_recv_decode_buffer] in P1. fold buf in P1. rewrite St, Lb, Ht in P1. rewrite (bool_decide_true (GARB_GARBTERM = GARB_GARBTERM)) in P1 by reflexivity. cbn [Assume mbind option_bind] in P1. change GARBAGE_TERMINATOR_LEN with 16%nat in P1. destruct (Nat.leb_spec (S (length buf)) (MAX_GARBAGE_LEN + 16)); [|lia]. cbn [Assume mbind option_bind] in P1.
  assert (Stay : (S (length buf) < length (s_garbage s) + 16)%nat -> process_bytes xdh (fed t (take k x)) = Some (true, fed t (take k x), false) -> exists k t', round_ok t x k t' /\ receiver_at s r t' sent prod (drop k x ++ w) got /\ exists z, sender_at r t' sent_r (prod_r ++ z) /\ unsent t' = unsent t ++ z).
  { intros Hlt P. exists k, (fed t (take k x)). split; [exists 1; auto|]. split; [|exists []; rewrite !app_nil_r; auto]. unfold V2Session.receiver_at. cbn [fed with_v2_recv set_recv_buffer v2_recv m_recv_state m_recv_buffer m_cipher]. rewrite St. fold buf. rewrite Lb. change GARBAGE_TERMINATOR_LEN with 16%nat. auto. }
  destruct (Nat.leb_spec 16 (S (length buf))) as [H16|H16]; [|apply Stay; [lia|exact P1]]. assert (Ed : drop (S (length buf) - 16) (buf ++ take k x) = take 16 (drop (S (length buf) - 16) (s_garbage s ++ term s))) by (rewrite Gb, skipn_firstn_comm; f_equal; lia). rewrite Ed in P1.
  destruct (decide (S (length buf) < length (s_garbage s) + 16)%nat) as [Hlt|Hge].
  - rewrite bool_decide_false in P1 by (apply (so_early _ _ _ _ Hs); lia). destruct (Nat.eqb_spec (S (length buf)) (MAX_GARBAGE_LEN + 16)); [lia|]. apply Stay; [exact Hlt|exact P1].
  - assert (El : (S (length buf) - 16)%nat = length (s_garbage s)) by lia. rewrite El, drop_app_length, (take_ge (term s) 16) in P1 by lia. rewrite (bool_decide_true (term s = term s)) in P1 by reflexivity. assert (Eb : buf ++ take k x = s_garbage s ++ term s) by (rewrite Gb, take_ge by (rewrite length_app; lia); reflexivity).
    rewrite Eb, take_app_length in P1. rewrite (SetReceiveState_ok _ VERSION) in P1 by reflexivity. cbn [mbind option_bind negb m_recv_len m_recv_buffer m_recv_aad m_recv_decode_buffer] in P1. exists k. eexists. split; [exists 1; split; [exact M|]; split; [reflexivity|]; split; [exact Hk|exact P1]|].
    split; [|exists []; rewrite !app_nil_r; match goal with |- V2Session.sender_at _ _ ?t' _ _ /\ _ => destruct (sender_same t t' sent_r prod_r Ra In0) as (A & B & _); [split; try reflexivity; apply same_but_recv_refl|cbn [with_v2_recv v2_recv m_recv_state]; rewrite !elem_of_cons; auto|auto] end].
    unfold V2Session.receiver_at. cbn [with_v2_recv v2_recv m_recv_state m_recv_buffer m_recv_aad app]. split; [rewrite Est, Eb, <- !app_assoc; reflexivity|]. split; [exact Hg|]. split; [reflexivity|]. left. cbn [with_v2_recv v2_recv m_recv_buffer m_cipher fed length]. change LENGTH_LEN with 3%nat. split; [lia|]. apply (sends_to_recv _ (s_cipher r)); [apply Hs|exact Rl|exact Rp].
Qed.

(** ** Packets *)

Lemma packet_round t c p ps c' x w : m_recv_state (v2_recv t) = VERSION \/ m_recv_state (v2_recv t) = APP -> m_recv_aad (v2_recv t) = p.2 -> plain_ok p -> at_packet t c (Some p) -> encode_packets c (p :: ps) = Some (m_recv_buffer (v2_recv t) ++ x ++ w, c') -> x <> [] ->
  exists k t', round_ok t x k t' /\ same_sender t t' /\ (packet_goes_on t t' c p (m_recv_buffer (v2_recv t) ++ take k x) \/ exists c1, encode_packets c [p] = Some (m_recv_buffer (v2_recv t) ++ take k x, c1) /\ packet_ends t t' c1 p).
Proof.
  intros St Ha Hp At E Hx. destruct p as [contents aad]. cbn [encode_packets fst snd] in *. destruct (Encrypt c contents aad false (length contents + EXPANSION)) as [[out c1]|] eqn:Ee; [|discriminate E]. cbn [mbind option_bind] in *. destruct (encode_packets c1 ps) as [[rest c2]|]; [|discriminate E]. cbn [mbind option_bind] in E. apply (inj Some) in E. apply pair_equal_spec in E as [E _]. symmetry in E.
  destruct At as [[Hb S]|(contents' & out' & c1' & Ep & Ee' & Hlen & Hb & Hpre & R)].
  - destruct (length_round xdh t c (contents, aad) x w out c1 rest St Ha Hp Ee Hb S E Hx) as (k & t' & A & B & C). exists k, t'. auto.
  - apply (inj Some) in Ep. apply pair_equal_spec in Ep as [<- Ea]. rewrite <- Ea in Ee', R. rewrite Ee in Ee'. apply (inj Some) in Ee'. apply pair_equal_spec in Ee' as [<- <-]. pose proof (rd_size _ _ _ _ _ _ R) as Lo. rewrite length_drop in Lo. change LENGTH_LEN with 3%nat in *. change EXPANSION with 20%nat in *.
    assert (Lout : length out = (length contents + 20)%nat) by lia. destruct (text_round xdh t c (contents, aad) x w out c1 rest St Ha Hp Lout Ee Hlen Hb R E Hx) as (k & t' & A & B & [C|(C1 & C2 & C3)]); exists k, t'; split; try exact A; split; try exact B; [left; exact C|]. right. exists c1. split; [rewrite C1, app_nil_r; reflexivity|exact C3].
Qed.

(** What is still to come is what the packets after [ps1] make. *)
Lemma remaining peer sent prod ps1 ps2 done_ c b : sender_at s peer sent prod -> packets s sent = ps1 ++ ps2 -> encode_packets (s_cipher s) ps1 = Some (done_, c) -> prod = (pub s ++ s_garbage s ++ term s) ++ done_ ++ b -> exists c', encode_packets c ps2 = Some (b, c').
Proof.
  intros [H _ _ _ _ _] Ep E1 E. pose proof (so_pub _ _ _ _ Hs) as Lp. change ELLSWIFT_SIZE with 64%nat in Lp. pose proof (so_length _ _ _ _ Hs) as Lt. change GARBAGE_TERMINATOR_LEN with 16%nat in Lt. unfold has_produced in H. destruct (m_send_state (v2_send peer)); [| | |contradiction].
  - destruct H as (E0 & _). rewrite E0 in E. apply (f_equal length) in E. rewrite !length_app in E. cbn [length] in E. lia.
  - destruct H as (E0 & _). rewrite E0 in E. apply (f_equal length) in E. rewrite !length_app in E. lia.
  - destruct H as (pk & c2 & E0 & E2 & _). rewrite E0, <- !app_assoc in E. do 3 apply app_inv_head in E. rewrite Ep, encode_app, E1 in E2. cbn [mbind option_bind] in E2. destruct (encode_packets c ps2) as [[y c3]|]; [|discriminate E2]. cbn [mbind option_bind] in E2. apply (inj Some) in E2. apply pair_equal_spec in E2 as [E2 _]. rewrite E in E2. apply app_inv_head in E2 as ->. eauto.
Qed.

Lemma version_round peer t sent prod x w got sent_r prod_r : sender_at s peer sent prod -> sender_at r t sent_r prod_r -> receiver_at s r t sent prod (x ++ w) got -> x <> [] -> m_recv_state (v2_recv t) = VERSION ->
  exists k t', round_ok t x k t' /\ receiver_at s r t' sent prod (drop k x ++ w) got /\ exists z, sender_at r t' sent_r (prod_r ++ z) /\ unsent t' = unsent t ++ z.
Proof.
  intros Sa Ra Rc Hx St. unfold V2Session.receiver_at in Rc. rewrite St in Rc. destruct Rc as (Ep & Hg & Ha & At). destruct (remaining peer sent prod [] (packets s sent) [] (s_cipher s) _ Sa eq_refl eq_refl Ep) as [c' Ec].
  pose proof (Forall_inv (packets_plain s [] (so_garbage _ _ _ _ Hs) (so_bytes _ _ _ _ Hs) (Forall_nil_2 _))) as Pv. destruct (packet_round t (s_cipher s) (VERSION_CONTENTS, s_garbage s) _ c' x w (or_introl St) Ha Pv At Ec Hx) as (k & t' & R & Ss & C). exists k, t'. split; [exact R|].
  assert (Est : prod = (pub s ++ s_garbage s ++ term s) ++ (m_recv_buffer (v2_recv t) ++ take k x) ++ drop k x ++ w) by (rewrite <- (app_assoc (m_recv_buffer _)), (app_assoc (take k x)), take_drop; exact Ep).
  assert (In0 : m_recv_state (v2_recv t) ∈ [GARB_GARBTERM; VERSION; APP; APP_READY]) by (rewrite St, !elem_of_cons; auto). destruct C as [(C1 & C2 & C3 & C4)|(c1 & C1 & C2 & C3 & C4 & C5)].
  - destruct (sender_same t t' sent_r prod_r Ra In0 Ss ltac:(rewrite C1; exact In0)) as (A & B & _). split; [|exists []; rewrite !app_nil_r; auto]. unfold V2Session.receiver_at. rewrite C1, St, C2, C3. auto.
  - destruct C5 as [[_ C5]|[C5 _]]; [|rewrite St in C5; discriminate C5]. destruct (sender_same t t' sent_r prod_r Ra In0 Ss ltac:(rewrite C5, !elem_of_cons; auto)) as (A & B & _). split; [|exists []; rewrite !app_nil_r; auto].
    unfold V2Session.receiver_at. rewrite C5, C2, C3, Hg. exists (m_recv_buffer (v2_recv t) ++ take k x), c1. split; [exact C1|]. split; [apply prefix_nil|]. split; [exact Est|]. split; [reflexivity|]. left. rewrite C2. change LENGTH_LEN with 3%nat. cbn [length]. split; [lia|exact C4].
Qed.

Lemma app_round peer t sent prod x w got sent_r prod_r : sender_at s peer sent prod -> sender_at r t sent_r prod_r -> receiver_at s r t sent prod (x ++ w) got -> x <> [] -> m_recv_state (v2_recv t) = APP ->
  exists k t', round_ok t x k t' /\ receiver_at s r t' sent prod (drop k x ++ w) got /\ exists z, sender_at r t' sent_r (prod_r ++ z) /\ unsent t' = unsent t ++ z.
Proof.
  intros Sa Ra Rc Hx St. unfold V2Session.receiver_at in Rc. rewrite St in Rc. destruct Rc as (dn & c & Ed & [l El] & Ep & Ha & At). subst sent.
  assert (Ek : packets s (got ++ l) = packets s got ++ map (fun m => (contents_of m, [])) l) by (unfold packets; rewrite map_app; reflexivity). destruct (remaining peer _ prod _ _ dn c _ Sa Ek Ed Ep) as [c' Ec].
  destruct l as [|m l]; [cbn [map encode_packets] in Ec; apply (inj Some) in Ec; apply pair_equal_spec in Ec as [Ec _]; symmetry in Ec; apply app_eq_nil in Ec as [_ Ec]; apply app_eq_nil in Ec as [-> _]; contradiction|].
  assert (Hm : can_send m) by (pose proof (sa_sent _ _ _ _ _ Sa) as F; apply Forall_app in F as [_ F]; exact (Forall_inv F)). assert (Lk : packets s (got ++ m :: l) !! S (length got) = Some (contents_of m, [])) by (rewrite Ek, lookup_app_r by (cbn [packets length]; rewrite length_map; lia); cbn [packets length]; rewrite length_map, Nat.sub_diag; reflexivity). rewrite Lk in At.
  destruct (packet_round t c (contents_of m, []) _ c' x w (or_intror St) Ha ltac:(apply can_send_plain, Hm) At Ec Hx) as (k & t' & R & Ss & C). exists k, t'. split; [exact R|].
  assert (Est : prod = (pub s ++ s_garbage s ++ term s) ++ dn ++ (m_recv_buffer (v2_recv t) ++ take k x) ++ drop k x ++ w) by (rewrite <- (app_assoc (m_recv_buffer _)), (app_assoc (take k x)), take_drop; exact Ep).
  assert (In0 : m_recv_state (v2_recv t) ∈ [GARB_GARBTERM; VERSION; APP; APP_READY]) by (rewrite St, !elem_of_cons; auto). destruct C as [(C1 & C2 & C3 & C4)|(c1 & C1 & C2 & C3 & C4 & C5)].
  - destruct (sender_same t t' sent_r prod_r Ra In0 Ss ltac:(rewrite C1; exact In0)) as (A & B & _). split; [|exists []; rewrite !app_nil_r; auto]. unfold V2Session.receiver_at. rewrite C1, St, C2, C3, Lk. exists dn, c. split; [exact Ed|]. split; [exists (m :: l); reflexivity|]. split; [exact Est|]. split; [exact Ha|exact C4].
  - destruct C5 as [[C5 _]|(_ & C5 & C6)]; [rewrite St in C5; discriminate C5|]. destruct (sender_same t t' sent_r prod_r Ra In0 Ss ltac:(rewrite C5, !elem_of_cons; auto)) as (A & B & _). split; [|exists []; rewrite !app_nil_r; auto].
    unfold V2Session.receiver_at. rewrite C5, C2, C3. exists (dn ++ (m_recv_buffer (v2_recv t) ++ take k x)), c1, m. split; [rewrite packets_snoc, encode_app, Ed; cbn [mbind option_bind]; rewrite C1; reflexivity|]. split; [exists l; rewrite <- app_assoc; reflexivity|]. split; [rewrite <- (app_assoc dn); exact Est|]. split; [reflexivity|]. split; [reflexivity|]. split; [exact C4|]. cbn [fst] in C6. exact C6.
Qed.

(** Any state in which bytes are taken. *)
Lemma receive_round peer t sent prod x w got sent_r prod_r : sender_at s peer sent prod -> sender_at r t sent_r prod_r -> receiver_at s r t sent prod (x ++ w) got -> x <> [] -> m_recv_state (v2_recv t) <> APP_READY ->
  exists k t', round_ok t x k t' /\ receiver_at s r t' sent prod (drop k x ++ w) got /\ exists z, sender_at r t' sent_r (prod_r ++ z) /\ unsent t' = unsent t ++ z.
Proof.
  intros Sa Ra Rc Hx St. destruct (m_recv_state (v2_recv t)) eqn:E; [eapply maybe_v1_round|eapply key_round|eapply garbage_round|eapply version_round|eapply app_round|contradiction|unfold V2Session.receiver_at in Rc; rewrite E in Rc; contradiction]; eassumption.
Qed.

Lemma receive_loop_ok peer fuel : forall t sent prod x w got sent_r prod_r, sender_at s peer sent prod -> sender_at r t sent_r prod_r -> receiver_at s r t sent prod (x ++ w) got -> (length x <= fuel)%nat ->
  exists t' left, received_loop xdh fuel t x = Some (true, t', left) /\ receiver_at s r t' sent prod (left ++ w) got /\ (left = [] \/ m_recv_state (v2_recv t') = APP_READY) /\ exists z, sender_at r t' sent_r (prod_r ++ z) /\ unsent t' = unsent t ++ z.
Proof.
  induction fuel as [|fuel IH]; intros t sent prod x w got sent_r prod_r Sa Ra Rc Hf.
  - destruct x; [|cbn in Hf; lia]. exists t, []. split; [reflexivity|]. split; [exact Rc|]. split; [auto|]. exists []. rewrite !app_nil_r. auto.
  - destruct (decide (x = [])) as [->|Hx]; [exists t, []; split; [reflexivity|]; split; [exact Rc|]; split; [auto|]; exists []; rewrite !app_nil_r; auto|].
    destruct (decide (m_recv_state (v2_recv t) = APP_READY)) as [Er|Er].
    + exists (fed t []), x. split; [|split; [|split; [right; exact Er|exists []; rewrite !app_nil_r; apply sender_fed, Ra]]].
      * destruct x as [|a x0]; [contradiction|]. cbn [received_loop]. unfold GetMaxBytesToProcess. rewrite Er. cbn [mbind option_bind]. rewrite Z.min_r by lia. change (Z.to_nat 0) with 0%nat. rewrite take_0, drop_0. unfold process_bytes. cbn [with_v2_recv set_recv_buffer v2_recv m_recv_state]. rewrite Er. reflexivity.
      * unfold V2Session.receiver_at in Rc |- *. cbn [fed with_v2_recv set_recv_buffer v2_recv m_recv_state m_recv_buffer m_recv_aad m_recv_decode_buffer m_cipher]. rewrite Er in Rc |- *. rewrite app_nil_r. exact Rc.
    + destruct (receive_round peer t sent prod x w got sent_r prod_r Sa Ra Rc Hx Er) as (k & t1 & (mr & M & Ek & Hk & P) & Rc1 & z1 & Sa1 & Un1). destruct (IH t1 sent prod (drop k x) w got sent_r (prod_r ++ z1) Sa Sa1 Rc1 ltac:(rewrite length_drop; lia)) as (t' & left & El & Rc' & Hd & z & Sz & Uz).
      exists t', left. split; [|split; [exact Rc'|split; [exact Hd|exists (z1 ++ z); rewrite !app_assoc; split; [exact Sz|rewrite Uz, Un1; reflexivity]]]].
      destruct x as [|a x0]; [contradiction|]. cbn [received_loop]. rewrite M. cbn [mbind option_bind]. rewrite <- Ek. unfold fed in P. rewrite P. cbn [mbind option_bind]. destruct (Nat.ltb_spec 0 k); [|lia]. cbn [Assume mbind option_bind]. exact El.
Qed.
End Rounds.
