(* ===== verification/V2Connection.v ===== *)
(** * Connections over the encrypted transport are correct

    From the two constructors on, whatever the ends do and however the bytes are
    cut, no call fails, no assumption breaks, messages arrive unchanged and in
    order, and all of them have arrived when nothing is under way. *)

From Stdlib Require Import ZArith Lia String.
From stdpp Require Import base numbers list strings gmap.
From S2P Require Import Prelude Compact HashWriter Sha256 Hashing ChaCha20 Aead Bip324 Bip324Proofs Transport V1Transport V2Transport V2Session.

Local Open Scope Z_scope.

#[local] Opaque Encrypt Decrypt DecryptLength Initialize contents_of make_contents V2_MESSAGE_MAP.

Section Connection.
Context (xdh : list Z -> list Z -> list Z -> bool -> list Z) (magic : list Z).

(** ** Frames *)

Lemma at_packet_frame t t' c p : at_packet t c p -> v2_recv t' = v2_recv t -> m_recv_l_cipher (m_cipher t') = m_recv_l_cipher (m_cipher t) -> m_recv_p_cipher (m_cipher t') = m_recv_p_cipher (m_cipher t) -> at_packet t' c p.
Proof.
  intros H E1 E2 E3. unfold at_packet. rewrite E1. destruct H as [[Hb S]|(contents & out & c1 & A & B & C & D & E & R)]; [left; split; [exact Hb|exact (sends_to_recv _ _ _ S E2 E3)]|right; exists contents, out, c1]. do 5 (split; [assumption|]). exact (reading_frame _ _ _ _ _ _ _ R E2 E3).
Qed.
Lemma receiver_frame s r t t' sent prod rest got : receiver_at magic s r t sent prod rest got -> v2_recv t' = v2_recv t -> m_recv_l_cipher (m_cipher t') = m_recv_l_cipher (m_cipher t) -> m_recv_p_cipher (m_cipher t') = m_recv_p_cipher (m_cipher t) -> receiver_at magic s r t' sent prod rest got.
Proof.
  intros H E1 E2 E3. unfold receiver_at in *. rewrite E1. destruct (m_recv_state (v2_recv t)); try exact H.
  - destruct H as (A & B & C & D & E). do 3 (split; [assumption|]). split; congruence.
  - destruct H as (A & B & C & D). do 3 (split; [assumption|]). exact (at_packet_frame _ _ _ _ D E1 E2 E3).
  - destruct H as (dn & c & A & B & C & D & E). exists dn, c. do 4 (split; [assumption|]). exact (at_packet_frame _ _ _ _ E E1 E2 E3).
  - destruct H as (dn & c & m & A & B & C & D & E & F & G). exists dn, c, m. do 5 (split; [assumption|]). split; [exact (sends_to_recv _ _ _ F E2 E3)|exact G].
Qed.

Context (a b : Side) (Hmagic : length magic = MESSAGE_START_SIZE) (Ha : side_ok xdh magic a b) (Hb : side_ok xdh magic b a) (Hroles : s_initiator b = negb (s_initiator a)).

Lemma not_v1_recv s r t sent prod rest got : receiver_at magic s r t sent prod rest got -> m_recv_state (v2_recv t) <> RecvV1.
Proof. intros H E. unfold receiver_at in H. rewrite E in H. contradiction. Qed.
Lemma not_v1_send s t sent prod : sender_at magic s t sent prod -> m_send_state (v2_send t) <> SendV1.
Proof. intros [H _ _ _ _ _] E. unfold has_produced in H. rewrite E in H. contradiction. Qed.

(** ** When nothing is under way *)

Lemma packet_missing t c p ps c' : plain_ok p -> at_packet t c (Some p) -> encode_packets c (p :: ps) = Some (m_recv_buffer (v2_recv t), c') -> False.
Proof.
  intros Hp At E. destruct p as [contents aad]. cbn [encode_packets] in E. destruct (Encrypt c contents aad false (length contents + EXPANSION)) as [[out c1]|] eqn:Ee; [|discriminate E]. cbn [mbind option_bind] in E. destruct (encode_packets c1 ps) as [[rest c2]|]; [|discriminate E]. cbn [mbind option_bind] in E. apply (inj Some) in E. apply pair_equal_spec in E as [E _].
  apply (f_equal length) in E. rewrite length_app in E. destruct At as [[Hl S]|(contents' & out' & c1' & Eq & Ee' & _ & Hl & _ & R)].
  - destruct (packet_out c _ _ S Hp) as (out' & c1' & Ee' & Lo & _). cbn [fst snd] in Ee', Lo. rewrite Ee in Ee'. apply (inj Some) in Ee'. apply pair_equal_spec in Ee' as [<- _]. change LENGTH_LEN with 3%nat in *. change EXPANSION with 20%nat in *. lia.
  - apply (inj Some) in Eq. apply pair_equal_spec in Eq as [<- Ea]. rewrite <- Ea, Ee in Ee'. apply (inj Some) in Ee'. apply pair_equal_spec in Ee' as [<- _]. pose proof (rd_size _ _ _ _ _ _ R) as Lo. rewrite length_drop in Lo. change LENGTH_LEN with 3%nat in *. change EXPANSION with 20%nat in *. lia.
Qed.

Lemma quiet_direction s r t u sent got : side_ok xdh magic s r -> direction magic s r t u sent got [] -> unsent t = [] -> V2_ReceivedMessageComplete u = false ->
  (m_recv_state (v2_recv u) = KEY_MAYBE_V1 \/ m_recv_state (v2_recv u) = KEY) /\ m_recv_state (v2_recv t) = KEY_MAYBE_V1 \/
  m_recv_state (v2_recv u) = GARB_GARBTERM /\ m_recv_state (v2_recv t) = KEY \/
  m_recv_state (v2_recv u) = APP /\ got = sent /\ m_session_id (m_cipher t) = m_session_id (s_cipher s).
Proof.
  intros Hs (prod & Sa & Rc) Un Hc. rewrite Un in Rc. cbn [app] in Rc. pose proof (not_v1_recv _ _ _ _ _ _ _ Rc) as N1. unfold V2_ReceivedMessageComplete in Hc. rewrite bool_decide_false in Hc by exact N1. pose proof (so_pub _ _ _ _ Hs) as Lp. pose proof (so_length _ _ _ _ Hs) as Lt.
  assert (Short : (length prod < 64)%nat -> m_recv_state (v2_recv t) = KEY_MAYBE_V1).
  { intros Hl. pose proof (sa_prod _ _ _ _ _ Sa) as H. unfold has_produced in H. change ELLSWIFT_SIZE with 64%nat in Lp. destruct (m_send_state (v2_send t)); [apply H|destruct H as (-> & _); rewrite length_app in Hl; lia|destruct H as (pk & c & -> & _); rewrite length_app in Hl; lia|contradiction]. }
  unfold receiver_at in Rc. destruct (m_recv_state (v2_recv u)) eqn:Eu.
  - destruct Rc as (_ & Ep & _ & Hl & _). left. split; [auto|]. apply Short. rewrite Ep, app_nil_r. change V1_PREFIX_LEN with 16%nat in Hl. lia.
  - destruct Rc as (Ep & _ & Hl). left. split; [auto|]. apply Short. rewrite Ep, app_nil_r. exact Hl.
  - destruct Rc as (Ep & _ & Hl & _). right. left. split; [reflexivity|]. pose proof (sa_prod _ _ _ _ _ Sa) as H. unfold has_produced in H. apply (f_equal length) in Ep. rewrite !length_app in Ep. change ELLSWIFT_SIZE with 64%nat in Lp. cbn [length] in Ep. destruct (m_send_state (v2_send t)); [destruct H as (-> & _); cbn [length] in Ep; lia|apply H|destruct H as (pk & c & -> & _); rewrite !length_app in Ep; lia|contradiction].
  - exfalso. destruct Rc as (Ep & _ & Haad & At). rewrite app_nil_r in Ep. destruct (remaining xdh magic Hmagic s r Hs t sent prod [] (packets s sent) [] (s_cipher s) _ Sa eq_refl eq_refl Ep) as [c' Ec]. pose proof (Forall_inv (packets_plain s [] (so_garbage _ _ _ _ Hs) (so_bytes _ _ _ _ Hs) (Forall_nil_2 _))) as Pv. exact (packet_missing _ _ _ _ _ Pv At Ec).
  - right. right. split; [reflexivity|]. destruct Rc as (dn & c & Ed & [l El] & Ep & Haad & At). subst sent. rewrite app_nil_r in Ep.
    assert (Ek : packets s (got ++ l) = packets s got ++ map (fun m => (contents_of m, [])) l) by (unfold packets; rewrite map_app; reflexivity). destruct (remaining xdh magic Hmagic s r Hs t _ prod _ _ dn c _ Sa Ek Ed Ep) as [c' Ec]. destruct l as [|m l].
    + rewrite app_nil_r. split; [reflexivity|]. pose proof (sa_prod _ _ _ _ _ Sa) as H. unfold has_produced in H. apply (f_equal length) in Ep. rewrite !length_app in Ep. change ELLSWIFT_SIZE with 64%nat in Lp. change GARBAGE_TERMINATOR_LEN with 16%nat in Lt. destruct (m_send_state (v2_send t)); [destruct H as (-> & _); cbn [length] in Ep; lia|destruct H as (-> & _); rewrite length_app in Ep; lia|destruct H as (pk & c0 & _ & _ & _ & _ & _ & H); exact H|contradiction].
    + exfalso. assert (Hm : can_send m) by (pose proof (sa_sent _ _ _ _ _ Sa) as F; apply Forall_app in F as [_ F]; exact (Forall_inv F)). assert (Lk : packets s (got ++ m :: l) !! S (length got) = Some (contents_of m, [])) by (rewrite Ek, lookup_app_r by (cbn [packets length]; rewrite length_map; lia); cbn [packets length]; rewrite length_map, Nat.sub_diag; reflexivity). rewrite Lk in At.
      refine (packet_missing _ _ _ _ _ _ At Ec). apply can_send_plain, Hm.
  - rewrite bool_decide_true in Hc by reflexivity. discriminate Hc.
  - contradiction.
Qed.

(** ** Sending *)

Lemma send_ok t sent prod m : sender_at magic a t sent prod -> can_send m ->
  exists ok t', V2_SetMessageToSend t m = Some (ok, t') /\ v2_recv t' = v2_recv t /\ m_recv_l_cipher (m_cipher t') = m_recv_l_cipher (m_cipher t) /\ m_recv_p_cipher (m_cipher t') = m_recv_p_cipher (m_cipher t) /\
    exists z, sender_at magic a t' (if ok : bool then sent ++ [m] else sent) (prod ++ z) /\ unsent t' = unsent t ++ z.
Proof.
  intros Sa Hm. pose proof (not_v1_send _ _ _ _ Sa) as N1. unfold V2_SetMessageToSend. rewrite bool_decide_false by exact N1.
  destruct (bool_decide (m_send_state (v2_send t) = READY) && bool_decide (m_send_buffer (v2_send t) = [])) eqn:Er; cbn [negb].
  - apply andb_prop in Er as [E1 E2]. apply bool_decide_eq_true in E1, E2. destruct Sa as [H1 H2 H3 H4 H5 H6]. unfold has_produced in H1. rewrite E1 in H1. destruct H1 as (pk & c & Ep & Ee & Sc & In & Et & Ei). destruct (can_send_plain m Hm) as (Em & _ & Hp). rewrite Em. cbn [mbind option_bind].
    destruct (encode_ok _ _ _ (so_sends _ _ _ _ Ha) (packets_plain a sent (so_garbage _ _ _ _ Ha) (so_bytes _ _ _ _ Ha) H6)) as (pk' & c' & d & Ee' & Sd & _). rewrite Ee in Ee'. apply (inj Some) in Ee'. apply pair_equal_spec in Ee' as [<- <-]. destruct (packet_out c d _ Sd Hp) as (out & c1 & Eo & Lo & _). cbn [fst snd] in Eo, Lo.
    destruct (Encrypt_frame c (m_cipher t) _ _ _ _ _ _ Sc Eo) as (d' & Ed & Sd' & Fd). rewrite Ed. cbn [mbind option_bind]. do 2 eexists. split; [reflexivity|]. split; [reflexivity|]. split; [apply Fd|]. split; [apply Fd|]. exists out. rewrite E2 in H4. cbn [length] in H4.
    assert (Hpos : m_send_pos (v2_send t) = 0) by lia. split; [|unfold unsent; cbn [with_v2_send with_cipher v2_send m_send_buffer m_send_pos]; rewrite E2, drop_nil, Hpos; reflexivity].
    split; cbn [with_v2_send with_cipher m_initiating m_v1_fallback v2_send m_send_pos m_send_buffer m_send_state]; try assumption.
    + unfold has_produced. cbn [with_v2_send with_cipher v2_send m_send_state m_cipher v2_recv]. rewrite E1. exists (pk ++ out), c1. split; [rewrite Ep, <- !app_assoc; reflexivity|]. split; [rewrite packets_snoc, encode_app, Ee; cbn [mbind option_bind encode_packets]; rewrite Eo; cbn [mbind option_bind]; rewrite app_nil_r; reflexivity|]. split; [exact Sd'|]. split; [exact In|]. split; [rewrite (sb_recv_term _ _ Fd); exact Et|rewrite (sb_id _ _ Fd); exact Ei].
    + rewrite Hpos. lia.
    + rewrite E1, Lo. destruct Hp as (_ & _ & Hp). cbn [fst] in Hp. change MAX_CONTENTS_LEN with 4000013 in Hp. change EXPANSION with 20%nat. lia.
    + apply Forall_app. auto.
  - exists false, t. split; [reflexivity|]. do 3 (split; [reflexivity|]). exists []. rewrite !app_nil_r. auto.
Qed.

Lemma unsent_small t sent prod : sender_at magic a t sent prod -> Z.of_nat (length (m_send_buffer (v2_send t))) <= 2 ^ 31.
Proof. intros Sa. pose proof (sa_size _ _ _ _ _ Sa). destruct (m_send_state (v2_send t)); lia. Qed.

Lemma write_ok t sent prod next k : sender_at magic a t sent prod -> (k <= length (V2_GetBytesToSend t next).1.1)%nat ->
  (V2_GetBytesToSend t next).1.1 = unsent t /\ sender_at magic a (V2_MarkBytesSent t k) sent prod /\ unsent (V2_MarkBytesSent t k) = drop k (unsent t) /\ v2_recv (V2_MarkBytesSent t k) = v2_recv t /\ m_cipher (V2_MarkBytesSent t k) = m_cipher t /\ sending_assumes (v2_send t) = true /\ marking_assumes (v2_send t) k = true.
Proof.
  intros Sa Hk. pose proof (not_v1_send _ _ _ _ Sa) as N1. pose proof (unsent_small _ _ _ Sa) as Sm. assert (Eg : (V2_GetBytesToSend t next).1.1 = unsent t) by (unfold V2_GetBytesToSend; rewrite bool_decide_false by exact N1; reflexivity). rewrite Eg in *. split; [exact eq_refl|]. destruct Sa as [H1 H2 H3 H4 H5 H6].
  unfold V2_MarkBytesSent. rewrite bool_decide_false by exact N1. set (sd := v2_send t) in *. set (pos := u32 (m_send_pos sd + Z.of_nat k)). unfold unsent in Hk. fold sd in Hk. rewrite length_drop in Hk. assert (Ep : pos = m_send_pos sd + Z.of_nat k) by (unfold pos; apply small_u32; lia).
  assert (Em : marking_assumes sd k = true) by (unfold marking_assumes; fold pos; rewrite Ep; apply Z.leb_le; lia). assert (Ea : sending_assumes sd = true) by (unfold sending_assumes; apply andb_true_intro; split; [|apply Z.leb_le; lia]; destruct (bool_decide_reflect (m_send_state sd = MAYBE_V1)) as [E|]; [|reflexivity]; unfold has_produced in H1; fold sd in H1; rewrite E in H1; apply bool_decide_eq_true_2, H1).
  split; [|split; [|auto]].
  - split; cbn [with_v2_send m_initiating m_v1_fallback v2_send m_send_pos m_send_buffer m_send_state]; try assumption.
    + unfold has_produced in *. cbn [with_v2_send v2_send m_send_state m_cipher v2_recv m_send_garbage m_send_buffer]. fold sd in H1. destruct (m_send_state sd); try exact H1. destruct H1 as (A & B & C & D & E & F). rewrite F. do 5 (split; [assumption|]). destruct (_ =? _); reflexivity.
    + destruct (Z.eqb_spec pos (Z.of_nat (length (m_send_buffer sd)))); cbn [length]; lia.
    + destruct (pos =? Z.of_nat (length (m_send_buffer sd))); [cbn [length]; destruct (m_send_state sd); lia|exact H5].
  - unfold unsent. cbn [with_v2_send v2_send m_send_pos m_send_buffer]. fold sd. rewrite drop_drop. destruct (Z.eqb_spec pos (Z.of_nat (length (m_send_buffer sd)))) as [E|E].
    + rewrite drop_nil, drop_ge by lia. reflexivity.
    + f_equal. lia.
Qed.

(** ** Receiving *)

Lemma read_ok t peer sent prod got sent_a prod_a x w : sender_at magic b peer sent prod -> sender_at magic a t sent_a prod_a -> receiver_at magic b a t sent prod (x ++ w) got ->
  exists t' left, V2_ReceivedBytes xdh t x = Some (true, t', left) /\ receiver_at magic b a t' sent prod (left ++ w) got /\ (left = [] \/ m_recv_state (v2_recv t') = APP_READY) /\ exists z, sender_at magic a t' sent_a (prod_a ++ z) /\ unsent t' = unsent t ++ z.
Proof.
  intros Sb Sa Rc. unfold V2_ReceivedBytes. rewrite bool_decide_false by exact (not_v1_recv _ _ _ _ _ _ _ Rc). apply (receive_loop_ok xdh magic Hmagic b a Hb Ha) with (peer := peer); try assumption; [|apply Nat.le_refl]. rewrite Hroles. destruct (s_initiator a); reflexivity.
Qed.

Lemma take_ok t peer sent prod rest got sent_a prod_a time : sender_at magic b peer sent prod -> sender_at magic a t sent_a prod_a -> receiver_at magic b a t sent prod rest got -> V2_ReceivedMessageComplete t = true ->
  exists msg t', V2_GetReceivedMessage t time = Some (msg, false, t') /\ m_time msg = time /\ receiver_at magic b a t' sent prod rest (got ++ [net_content msg]) /\ sender_at magic a t' sent_a prod_a /\ unsent t' = unsent t.
Proof.
  intros Sb Sa Rc Hc. pose proof (not_v1_recv _ _ _ _ _ _ _ Rc) as N1. unfold V2_ReceivedMessageComplete in Hc. rewrite bool_decide_false in Hc by exact N1. apply bool_decide_eq_true in Hc. unfold receiver_at in Rc. rewrite Hc in Rc. destruct Rc as (dn & c & m & Ed & Hg & Ep & Haad & Hbuf & S & Edec).
  assert (Hm : can_send m) by (pose proof (sa_sent _ _ _ _ _ Sb) as F; destruct Hg as [l ->]; apply Forall_app in F as [F _]; apply Forall_app in F as [_ F]; exact (Forall_inv F)). destruct (can_send_plain m Hm) as (_ & Et & _).
  unfold V2_GetReceivedMessage. rewrite bool_decide_false by exact N1. rewrite Hc, (bool_decide_true (APP_READY = APP_READY)) by reflexivity. cbn [Assume mbind option_bind]. rewrite Edec, Et. rewrite SetReceiveState_ok by reflexivity. cbn [mbind option_bind].
  do 2 eexists. split; [reflexivity|]. split; [reflexivity|]. cbn [net_content m_recv nm_type]. assert (Em : {| sm_data := sm_data m; sm_type := sm_type m |} = m) by (destruct m; reflexivity). unfold net_content. cbn [m_recv nm_type]. rewrite Em. split.
  - unfold receiver_at. cbn [with_v2_recv v2_recv m_recv_state m_recv_buffer m_recv_aad]. exists dn, c. do 4 (split; [assumption|]). left. cbn [with_v2_recv v2_recv m_recv_buffer m_cipher]. rewrite Hbuf. change LENGTH_LEN with 3%nat. cbn [length]. split; [lia|exact S].
  - assert (In0 : m_recv_state (v2_recv t) ∈ [GARB_GARBTERM; VERSION; APP; APP_READY]) by (rewrite Hc, !elem_of_cons; auto). match goal with |- sender_at _ _ ?t' _ _ /\ _ => destruct (sender_same xdh magic b a Hb t t' sent_a prod_a Sa In0) as (A & B & _); [split; try reflexivity; apply same_but_recv_refl|cbn [with_v2_recv v2_recv m_recv_state]; rewrite !elem_of_cons; auto|auto] end.
Qed.

(** ** Steps *)

Lemma acts_ok c c' : conn_ok magic a b c -> acts xdh c c' -> conn_ok magic a b c'.
Proof.
  intros [(pa & Sa & Ra) (pb & Sb & Rb)] St. destruct St as [c m ok t Hm E|c next k Hk|c k ok t left E|c time msg reject t Hc E].
  - destruct (send_ok (cn_a c) (sent_a c) pa m Sa Hm) as (ok' & t' & E' & F1 & F2 & F3 & z & Sz & Uz). rewrite E in E'. apply (inj Some) in E'. apply pair_equal_spec in E' as [<- <-]. split; cbn [cn_a cn_b wire_ab wire_ba sent_a sent_b got_a got_b].
    + exists (pa ++ z). split; [exact Sz|]. rewrite Uz, app_assoc. apply (receiver_more magic a b _ (sent_a c)); [exact Ra|]. destruct ok; [apply prefix_app_r; reflexivity|reflexivity].
    + exists pb. split; [exact Sb|]. exact (receiver_frame _ _ _ _ _ _ _ _ Rb F1 F2 F3).
  - destruct (write_ok (cn_a c) (sent_a c) pa next k Sa Hk) as (Eg & Sz & Uz & F1 & F2 & _). split; cbn [cn_a cn_b wire_ab wire_ba sent_a sent_b got_a got_b].
    + exists pa. split; [exact Sz|]. rewrite Eg, Uz, <- app_assoc, take_drop. exact Ra.
    + exists pb. split; [exact Sb|]. apply (receiver_frame _ _ _ _ _ _ _ _ Rb F1); rewrite F2; reflexivity.
  - destruct (read_ok (cn_a c) (cn_b c) (sent_b c) pb (got_a c) (sent_a c) pa (take k (wire_ba c)) (drop k (wire_ba c) ++ unsent (cn_b c)) Sb Sa) as (t' & left' & E' & Rc & _ & z & Sz & Uz); [rewrite app_assoc, take_drop; exact Rb|]. rewrite E in E'. apply (inj Some) in E'. apply pair_equal_spec in E' as [E' <-]. apply pair_equal_spec in E' as [-> <-]. split; cbn [cn_a cn_b wire_ab wire_ba sent_a sent_b got_a got_b].
    + exists (pa ++ z). split; [exact Sz|]. rewrite Uz, app_assoc. apply (receiver_more magic a b _ (sent_a c)); [exact Ra|reflexivity].
    + exists pb. split; [exact Sb|]. rewrite <- app_assoc. exact Rc.
  - destruct (take_ok (cn_a c) (cn_b c) (sent_b c) pb _ (got_a c) (sent_a c) pa time Sb Sa Rb Hc) as (msg' & t' & E' & _ & Rc & Sz & Uz). rewrite E in E'. apply (inj Some) in E'. apply pair_equal_spec in E' as [E' <-]. apply pair_equal_spec in E' as [<- _]. split; cbn [cn_a cn_b wire_ab wire_ba sent_a sent_b got_a got_b].
    + exists pa. split; [exact Sz|]. rewrite Uz. exact Ra.
    + exists pb. split; [exact Sb|exact Rc].
Qed.
End Connection.

Section Main.
Context (create : list Z -> list Z -> list Z) (xdh : list Z -> list Z -> list Z -> bool -> list Z) (valid : list Z -> Prop) (magic ka kb ea eb ga gb : list Z).

(** The ciphers that the two ends will have, before and after [Initialize]. *)
Definition session_ciphers : option (BIP324Cipher * BIP324Cipher * BIP324Cipher * BIP324Cipher) :=
  ca ← new_BIP324Cipher create (Some ka) ea; cb ← new_BIP324Cipher create (Some kb) eb;
  a ← Initialize xdh magic ca (m_our_pubkey cb) true false; b ← Initialize xdh magic cb (m_our_pubkey ca) false false;
  Some (ca, cb, a, b).

(** The terminator does not show up before its place. *)
Definition garbage_clear (garbage terminator : list Z) : Prop := forall n, (n < length garbage)%nat -> take GARBAGE_TERMINATOR_LEN (drop n (garbage ++ terminator)) <> terminator.

(** The keys are valid, of the documented sizes, and the random data does not
    imitate a terminator or the start of an old connection by accident. *)
Record good_handshake : Prop := {
  gh_agrees : xdh_agrees create xdh valid; gh_valid_a : valid ka; gh_valid_b : valid kb;
  gh_pub k e : length (create k e) = ELLSWIFT_SIZE; gh_magic : length magic = MESSAGE_START_SIZE; gh_ea : length ea = 32%nat; gh_eb : length eb = 32%nat;
  gh_garbage_a : (length ga <= MAX_GARBAGE_LEN)%nat; gh_garbage_b : (length gb <= MAX_GARBAGE_LEN)%nat; gh_bytes_a : bytes_ok ga; gh_bytes_b : bytes_ok gb;
  gh_clear ca cb a b : session_ciphers = Some (ca, cb, a, b) -> garbage_clear ga (m_send_garbage_terminator a) /\ garbage_clear gb (m_send_garbage_terminator b);
  gh_first : take (length version_command) (drop MESSAGE_START_SIZE (create ka ea)) <> version_command;
}.

Definition start (ta tb : V2Transport) : Conn := {| cn_a := ta; cn_b := tb; wire_ab := []; wire_ba := []; sent_a := []; sent_b := []; got_a := []; got_b := [] |}.

Lemma new_cipher_pub k e c : new_BIP324Cipher create (Some k) e = Some c -> m_our_pubkey c = create k e.
Proof. unfold new_BIP324Cipher, EllSwiftCreate. cbn [mbind option_bind]. destruct (length e =? 32)%nat; [|discriminate]. cbn [mbind option_bind]. intros E. apply (inj Some) in E. rewrite <- E. reflexivity. Qed.

Lemma start_ok : good_handshake -> exists ta tb a b, new_V2Transport create magic true (Some ka) ea ga = Some ta /\ new_V2Transport create magic false (Some kb) eb gb = Some tb /\
  conn_ok magic a b (start ta tb) /\ side_ok xdh magic a b /\ side_ok xdh magic b a /\ s_initiator b = negb (s_initiator a) /\ m_session_id (s_cipher a) = m_session_id (s_cipher b).
Proof.
  intros H. destruct (session_start create xdh valid (gh_agrees H) magic ka kb ea eb (gh_valid_a H) (gh_valid_b H) (gh_ea H) (gh_eb H)) as (ca & cb & a & b & Ea & Eb & Ia & Ib & P).
  assert (Es : session_ciphers = Some (ca, cb, a, b)) by (unfold session_ciphers; rewrite Ea, some_bind, Eb, some_bind, Ia, some_bind, Ib, some_bind; reflexivity). destruct (gh_clear H _ _ _ _ Es) as [Ca Cb]. pose proof (new_cipher_pub _ _ _ Ea) as Pa. pose proof (new_cipher_pub _ _ _ Eb) as Pb.
  set (sa := {| s_start := ca; s_cipher := a; s_garbage := ga; s_initiator := true |}). set (sb := {| s_start := cb; s_cipher := b; s_garbage := gb; s_initiator := false |}).
  assert (Na : new_V2Transport create magic true (Some ka) ea ga = Some {| m_cipher := ca; m_initiating := true; m_v1_fallback := new_V1Transport magic; v2_recv := {| m_recv_len := 0; m_recv_buffer := []; m_recv_aad := []; m_recv_decode_buffer := []; m_recv_state := KEY |}; v2_send := {| m_send_buffer := m_our_pubkey ca ++ ga; m_send_pos := 0; m_send_garbage := ga; m_send_type := []; m_send_state := AWAITING_KEY; m_sent_v1_header_worth := false |} |}).
  { unfold new_V2Transport. rewrite Ea, some_bind. destruct (Nat.leb_spec (length ga) MAX_GARBAGE_LEN); [reflexivity|]. pose proof (gh_garbage_a H). lia. }
  assert (Nb : new_V2Transport create magic false (Some kb) eb gb = Some {| m_cipher := cb; m_initiating := false; m_v1_fallback := new_V1Transport magic; v2_recv := {| m_recv_len := 0; m_recv_buffer := []; m_recv_aad := []; m_recv_decode_buffer := []; m_recv_state := KEY_MAYBE_V1 |}; v2_send := {| m_send_buffer := []; m_send_pos := 0; m_send_garbage := gb; m_send_type := []; m_send_state := MAYBE_V1; m_sent_v1_header_worth := false |} |}).
  { unfold new_V2Transport. rewrite Eb, some_bind. destruct (Nat.leb_spec (length gb) MAX_GARBAGE_LEN); [reflexivity|]. pose proof (gh_garbage_b H). lia. }
  do 2 eexists. exists sa, sb. split; [exact Na|]. split; [exact Nb|]. assert (Oa : side_ok xdh magic sa sb).
  { split; unfold pub, term; cbn [sa sb s_start s_cipher s_garbage s_initiator]; rewrite ?Pa, ?Pb; [rewrite <- Pb; exact Ia|apply (gh_pub H)|exact (gh_garbage_a H)|exact (gh_bytes_a H)|apply P|symmetry; apply P|apply P|exact Ca|intros _; exact (gh_first H)]. }
  assert (Ob : side_ok xdh magic sb sa).
  { split; unfold pub, term; cbn [sa sb s_start s_cipher s_garbage s_initiator]; rewrite ?Pa, ?Pb; [rewrite <- Pa; exact Ib|apply (gh_pub H)|exact (gh_garbage_b H)|exact (gh_bytes_b H)|apply P|symmetry; apply P|apply P|exact Cb|discriminate]. }
  split; [|split; [exact Oa|split; [exact Ob|split; [reflexivity|apply P]]]]. pose proof (so_pub _ _ _ _ Oa) as Lp. pose proof (gh_garbage_a H) as Lg. unfold MAX_GARBAGE_LEN in Lg. split; cbn [start cn_a cn_b sent_a sent_b got_a got_b wire_ab wire_ba].
  - exists (pub sa ++ ga). split; [|unfold receiver_at; cbn [v2_recv m_recv_state m_recv_buffer]; change V1_PREFIX_LEN with 16%nat; cbn [length]; split; [reflexivity|]; split; [reflexivity|]; split; [reflexivity|]; split; [lia|reflexivity]].
    split; try reflexivity; [unfold has_produced; cbn [v2_send m_send_state]; auto 10|cbn [v2_send m_send_pos]; lia| |constructor]. cbn [v2_send m_send_buffer m_send_state]. change (m_our_pubkey ca) with (pub sa). rewrite length_app, Lp. change ELLSWIFT_SIZE with 64%nat. lia.
  - exists []. split; [|unfold receiver_at; cbn [v2_recv m_recv_state m_recv_buffer]; change ELLSWIFT_SIZE with 64%nat; cbn [length]; split; [reflexivity|]; split; [reflexivity|lia]].
    split; try reflexivity; [unfold has_produced; cbn [v2_send m_send_state]; auto 10|cbn; lia|cbn; lia|constructor].
Qed.

Lemma conn_flip a b c : conn_ok magic a b c -> conn_ok magic b a (flip c).
Proof. intros [H1 H2]. split; [exact H2|exact H1]. Qed.
Lemma flip_flip c : flip (flip c) = c.
Proof. destruct c. reflexivity. Qed.

Lemma steps_ok a b c0 c : length magic = MESSAGE_START_SIZE -> side_ok xdh magic a b -> side_ok xdh magic b a -> s_initiator b = negb (s_initiator a) -> conn_ok magic a b c0 -> steps xdh c0 c -> conn_ok magic a b c.
Proof.
  intros Hm Ha Hb Hr H0 St. induction St as [c|c c1 c2 _ IH A|c c1 c2 _ IH A]; [exact H0|exact (acts_ok xdh magic a b Hm Ha Hb Hr _ _ (IH H0) A)|]. apply conn_flip. refine (acts_ok xdh magic b a Hm Hb Ha _ _ _ (conn_flip _ _ _ (IH H0)) A). rewrite Hr. destruct (s_initiator a); reflexivity.
Qed.

(** Nothing that the first end may be asked to do fails. *)
Definition end_works (c : Conn) : Prop :=
  (forall k, exists t left, V2_ReceivedBytes xdh (cn_a c) (take k (wire_ba c)) = Some (true, t, left) /\ (left = [] \/ V2_ReceivedMessageComplete t = true)) /\
  (forall time, V2_ReceivedMessageComplete (cn_a c) = true -> exists msg t, V2_GetReceivedMessage (cn_a c) time = Some (msg, false, t)) /\
  (forall m, can_send m -> exists ok t, V2_SetMessageToSend (cn_a c) m = Some (ok, t)) /\
  sending_assumes (v2_send (cn_a c)) = true /\ (forall next k, (k <= length (V2_GetBytesToSend (cn_a c) next).1.1)%nat -> marking_assumes (v2_send (cn_a c)) k = true) /\
  got_a c `prefix_of` sent_b c.

Lemma end_works_ok a b c : length magic = MESSAGE_START_SIZE -> side_ok xdh magic a b -> side_ok xdh magic b a -> s_initiator b = negb (s_initiator a) -> conn_ok magic a b c -> end_works c.
Proof.
  intros Hm Ha Hb Hr [(pa & Sa & Ra) (pb & Sb & Rb)]. unfold end_works. split_and!.
  - intros k. destruct (read_ok xdh magic a b Hm Ha Hb Hr (cn_a c) (cn_b c) (sent_b c) pb (got_a c) (sent_a c) pa (take k (wire_ba c)) (drop k (wire_ba c) ++ unsent (cn_b c)) Sb Sa) as (t' & left & E & Rc & Hd & _); [rewrite app_assoc, take_drop; exact Rb|]. exists t', left. split; [exact E|]. destruct Hd as [Hd|Hd]; [auto|right]. unfold V2_ReceivedMessageComplete. rewrite Hd. reflexivity.
  - intros time Hc. destruct (take_ok xdh magic a b Hm Hb (cn_a c) (cn_b c) (sent_b c) pb _ (got_a c) (sent_a c) pa time Sb Sa Rb Hc) as (msg & t & E & _). eauto.
  - intros m Hc. destruct (send_ok xdh magic a b Hm Ha (cn_a c) (sent_a c) pa m Sa Hc) as (ok & t & E & _). eauto.
  - apply (write_ok magic a Hm (cn_a c) (sent_a c) pa false 0 Sa). lia.
  - intros next k Hk. apply (write_ok magic a Hm (cn_a c) (sent_a c) pa next k Sa Hk).
  - unfold receiver_at in Rb. destruct (m_recv_state (v2_recv (cn_a c))); [destruct Rb as (_ & _ & -> & _); apply prefix_nil|destruct Rb as (_ & -> & _); apply prefix_nil|destruct Rb as (_ & -> & _); apply prefix_nil|destruct Rb as (_ & -> & _); apply prefix_nil| | |contradiction].
    + destruct Rb as (dn & cc & _ & Hg & _). exact Hg.
    + destruct Rb as (dn & cc & m & _ & Hg & _). etransitivity; [|exact Hg]. apply prefix_app_r. reflexivity.
Qed.

(** No bytes are on the way or waiting to be sent, and no message to be taken. *)
Definition quiet (c : Conn) : Prop := wire_ab c = [] /\ wire_ba c = [] /\ unsent (cn_a c) = [] /\ unsent (cn_b c) = [] /\ V2_ReceivedMessageComplete (cn_a c) = false /\ V2_ReceivedMessageComplete (cn_b c) = false.

Lemma quiet_ok a b c : length magic = MESSAGE_START_SIZE -> side_ok xdh magic a b -> side_ok xdh magic b a -> s_initiator b = negb (s_initiator a) -> conn_ok magic a b c -> quiet c ->
  m_recv_state (v2_recv (cn_a c)) = APP /\ m_recv_state (v2_recv (cn_b c)) = APP /\ got_b c = sent_a c /\ got_a c = sent_b c /\ m_session_id (m_cipher (cn_a c)) = m_session_id (s_cipher a) /\ m_session_id (m_cipher (cn_b c)) = m_session_id (s_cipher b).
Proof.
  intros Hm Ha Hb Hr [D1 D2] (W1 & W2 & U1 & U2 & C1 & C2). rewrite W1 in D1. rewrite W2 in D2. assert (Both : m_recv_state (v2_recv (cn_a c)) = KEY_MAYBE_V1 -> m_recv_state (v2_recv (cn_b c)) = KEY_MAYBE_V1 -> False).
  { intros E1 E2. destruct D1 as (p1 & _ & R1). destruct D2 as (p2 & _ & R2). unfold receiver_at in R1, R2. rewrite E2 in R1. rewrite E1 in R2. destruct R1 as (I1 & _). destruct R2 as (I2 & _). rewrite I1, I2 in Hr. discriminate Hr. }
  destruct (quiet_direction xdh magic Hm _ _ _ _ _ _ Ha D1 U1 C2) as [[A1 A2]|[[A1 A2]|(A1 & A2 & A3)]], (quiet_direction xdh magic Hm _ _ _ _ _ _ Hb D2 U2 C1) as [[B1 B2]|[[B1 B2]|(B1 & B2 & B3)]]; try (exfalso; auto; fail); try (exfalso; intuition congruence). auto 10.
Qed.

(** C18. Two ends of the encrypted transport, an initiator and a responder, take
    any steps in any order: they accept messages, give bytes to the wire and
    read bytes from it in pieces of any size, and hand out messages.  In every
    state that they reach, at both ends, reading any part of what is on the wire
    succeeds, no assertion or [Assume] fails, no message is rejected, and the
    messages handed out are the first of those that the other end accepted,
    unchanged and in order. *)
Theorem v2_connection_safe : good_handshake ->
  exists ta tb, new_V2Transport create magic true (Some ka) ea ga = Some ta /\ new_V2Transport create magic false (Some kb) eb gb = Some tb /\ forall c, steps xdh (start ta tb) c -> end_works c /\ end_works (flip c).
Proof.
  intros H. destruct (start_ok H) as (ta & tb & a & b & Na & Nb & C0 & Oa & Ob & Hr & _). exists ta, tb. split; [exact Na|]. split; [exact Nb|]. intros c St. pose proof (steps_ok a b _ _ (gh_magic H) Oa Ob Hr C0 St) as C. split; [exact (end_works_ok a b c (gh_magic H) Oa Ob Hr C)|]. apply (end_works_ok b a); [exact (gh_magic H)|exact Ob|exact Oa|rewrite Hr; destruct (s_initiator a); reflexivity|apply conn_flip, C].
Qed.

(** When the two ends of the encrypted transport have no bytes left to send,
    none are on the way, and no message waits to be handed out, the handshake is
    complete at both ends with one session id, and each has handed out all the
    messages that the other accepted. *)
Theorem v2_connection_delivers : good_handshake ->
  exists ta tb, new_V2Transport create magic true (Some ka) ea ga = Some ta /\ new_V2Transport create magic false (Some kb) eb gb = Some tb /\
    forall c, steps xdh (start ta tb) c -> quiet c -> got_b c = sent_a c /\ got_a c = sent_b c /\ V2_GetInfo (cn_a c) = V2_GetInfo (cn_b c) /\ (V2_GetInfo (cn_a c)).1 = TransportV2.
Proof.
  intros H. destruct (start_ok H) as (ta & tb & a & b & Na & Nb & C0 & Oa & Ob & Hr & Hid). exists ta, tb. split; [exact Na|]. split; [exact Nb|]. intros c St Hq. pose proof (steps_ok a b _ _ (gh_magic H) Oa Ob Hr C0 St) as C. destruct (quiet_ok a b c (gh_magic H) Oa Ob Hr C Hq) as (E1 & E2 & G1 & G2 & I1 & I2). split; [exact G1|]. split; [exact G2|]. unfold V2_GetInfo. rewrite E1, E2, I1, I2, Hid. auto.
Qed.
End Main.

(** ** A run *)

Inductive Op : Type := OpSend (m : CSerializedNetMsg) | OpWrite (k : nat) | OpRead (k : nat) | OpTake (time : Z).
Definition exec_op (xdh : list Z -> list Z -> list Z -> bool -> list Z) (c : Conn) (op : Op) : option Conn :=
  match op with
  | OpSend m => '(ok, t) ← V2_SetMessageToSend (cn_a c) m; Some {| cn_a := t; cn_b := cn_b c; wire_ab := wire_ab c; wire_ba := wire_ba c; sent_a := if ok : bool then sent_a c ++ [m] else sent_a c; sent_b := sent_b c; got_a := got_a c; got_b := got_b c |}
  | OpWrite k => let bytes := (V2_GetBytesToSend (cn_a c) false).1.1 in let k := Nat.min k (length bytes) in
      Some {| cn_a := V2_MarkBytesSent (cn_a c) k; cn_b := cn_b c; wire_ab := wire_ab c ++ take k bytes; wire_ba := wire_ba c; sent_a := sent_a c; sent_b := sent_b c; got_a := got_a c; got_b := got_b c |}
  | OpRead k => '(ok, t, unread) ← V2_ReceivedBytes xdh (cn_a c) (take k (wire_ba c)); Some {| cn_a := t; cn_b := cn_b c; wire_ab := wire_ab c; wire_ba := unread ++ drop k (wire_ba c); sent_a := sent_a c; sent_b := sent_b c; got_a := got_a c; got_b := got_b c |}
  | OpTake time => if V2_ReceivedMessageComplete (cn_a c) then '(msg, reject, t) ← V2_GetReceivedMessage (cn_a c) time; Some {| cn_a := t; cn_b := cn_b c; wire_ab := wire_ab c; wire_ba := wire_ba c; sent_a := sent_a c; sent_b := sent_b c; got_a := got_a c ++ [net_content msg]; got_b := got_b c |} else None
  end.
Fixpoint exec (xdh : list Z -> list Z -> list Z -> bool -> list Z) (ops : list (bool * Op)) (c : Conn) : option Conn :=
  match ops with
  | [] => Some c
  | (true, op) :: ops => c ← exec_op xdh c op; exec xdh ops c
  | (false, op) :: ops => c ← exec_op xdh (flip c) op; exec xdh ops (flip c)
  end.
Definition op_ok (op : Op) : Prop := match op with OpSend m => can_send m | _ => True end.

Lemma exec_op_acts xdh c op c' : op_ok op -> exec_op xdh c op = Some c' -> acts xdh c c'.
Proof.
  intros Ho E. destruct op as [m|k|k|time]; cbn [exec_op] in E.
  - destruct (V2_SetMessageToSend (cn_a c) m) as [[ok t]|] eqn:Es; [|discriminate E]. cbn [mbind option_bind] in E. apply (inj Some) in E as <-. exact (act_send xdh c m ok t Ho Es).
  - apply (inj Some) in E as <-. apply act_write. lia.
  - destruct (V2_ReceivedBytes xdh (cn_a c) _) as [[[ok t] unread]|] eqn:Es; [|discriminate E]. cbn [mbind option_bind] in E. apply (inj Some) in E as <-. exact (act_read xdh c k ok t unread Es).
  - destruct (V2_ReceivedMessageComplete (cn_a c)) eqn:Hc; [|discriminate E]. destruct (V2_GetReceivedMessage (cn_a c) time) as [[[msg reject] t]|] eqn:Es; [|discriminate E]. cbn [mbind option_bind] in E. apply (inj Some) in E as <-. exact (act_take xdh c time msg reject t Hc Es).
Qed.
Lemma exec_steps xdh ops : forall c0 c c', Forall (fun o => op_ok o.2) ops -> steps xdh c0 c -> exec xdh ops c = Some c' -> steps xdh c0 c'.
Proof.
  induction ops as [|[[] op] ops IH]; intros c0 c c' Ho St E; cbn [exec] in E; [apply (inj Some) in E as <-; exact St| |]; apply Forall_cons_1 in Ho as [H1 H2]; cbn [snd] in H1.
  - destruct (exec_op xdh c op) as [c1|] eqn:Eo; [|discriminate E]. cbn [mbind option_bind] in E. eapply IH; [exact H2| |exact E]. exact (steps_a xdh _ _ _ St (exec_op_acts _ _ _ _ H1 Eo)).
  - destruct (exec_op xdh (flip c) op) as [c1|] eqn:Eo; [|discriminate E]. cbn [mbind option_bind] in E. eapply IH; [exact H2| |exact E]. exact (steps_b xdh _ _ _ St (exec_op_acts _ _ _ _ H1 Eo)).
Qed.

(** A handshake with the toy agreement, and two messages. *)
Definition toy_magic : list Z := [1; 2; 3; 4].
Definition toy_ent : list Z := replicate 32 7.
Definition toy_garbage : list Z := [9; 9; 9].
Definition toy_msg : CSerializedNetMsg := {| sm_type := string_bytes "verack"%string; sm_data := [1; 2; 3] |}.
Definition toy_ping : CSerializedNetMsg := {| sm_type := string_bytes "ping"%string; sm_data := [] |}.
Definition toy_ops : list (bool * Op) :=
  [(true, OpWrite 1000); (false, OpRead 10); (false, OpRead 1000); (false, OpWrite 1000); (true, OpRead 30); (true, OpRead 1000); (true, OpWrite 1000); (false, OpRead 1000);
   (true, OpSend toy_msg); (true, OpSend toy_msg); (true, OpWrite 20); (true, OpWrite 1000); (false, OpSend toy_ping); (false, OpWrite 1000); (false, OpRead 5); (false, OpRead 1000); (false, OpTake 8); (true, OpRead 1000); (true, OpTake 9)].
Definition toy_run : option Conn :=
  ta ← new_V2Transport toy_create toy_magic true (Some [5]) toy_ent toy_garbage; tb ← new_V2Transport toy_create toy_magic false (Some [6]) toy_ent []; exec toy_xdh toy_ops (start ta tb).
Definition quietb (c : Conn) : bool :=
  bool_decide (wire_ab c = []) && bool_decide (wire_ba c = []) && bool_decide (unsent (cn_a c) = []) && bool_decide (unsent (cn_b c) = []) && negb (V2_ReceivedMessageComplete (cn_a c)) && negb (V2_ReceivedMessageComplete (cn_b c)).
Lemma quietb_quiet c : quietb c = true -> quiet c.
Proof. unfold quietb. rewrite !andb_true_iff, !bool_decide_eq_true, !negb_true_iff. intros [[[[[]]]]]. repeat split; assumption. Qed.

(** Garbage that holds no terminator. *)
Lemma garbage_clear_nil t : garbage_clear [] t.
Proof. intros n Hn. cbn in Hn. lia. Qed.
Lemma toy_good : good_handshake toy_create toy_xdh (fun k => length k = 1%nat) toy_magic [5] [6] toy_ent toy_ent toy_garbage [].
Proof.
  split; try reflexivity; try (apply bytes_ok_check; reflexivity); [exact toy_agrees|unfold MAX_GARBAGE_LEN; cbn; lia|unfold MAX_GARBAGE_LEN; cbn; lia| |vm_compute; discriminate].
  intros ca cb a b E. split; [|apply garbage_clear_nil]. assert (C : match session_ciphers toy_create toy_xdh toy_magic [5] [6] toy_ent toy_ent with Some (_, _, a, _) => forallb (fun n => negb (bool_decide (take 16 (drop n (toy_garbage ++ m_send_garbage_terminator a)) = m_send_garbage_terminator a))) (seq 0 3) | None => true end = true) by (vm_compute; reflexivity).
    rewrite E in C. intros n Hn. rewrite forallb_forall in C. specialize (C n ltac:(apply in_seq; cbn in Hn; lia)). apply negb_true_iff, bool_decide_eq_false in C. exact C.
Qed.

Lemma toy_ops_ok : Forall (fun o => op_ok o.2) toy_ops.
Proof. assert (S : can_send toy_msg /\ can_send toy_ping) by (split; (split; [apply (bool_decide_unpack _); vm_compute; exact I|split; [apply bytes_ok_check; reflexivity|vm_compute; discriminate]])). repeat constructor; apply S. Qed.
Lemma toy_quiet : match toy_run with Some c => quietb c && bool_decide (length (got_b c) = 1%nat) && bool_decide (length (got_a c) = 1%nat) | None => false end = true.
Proof. vm_compute. reflexivity. Qed.

Lemma run_start xdh ops oa ob ta tb : oa = Some ta -> ob = Some tb -> (ta ← oa; tb ← ob; exec xdh ops (start ta tb)) = exec xdh ops (start ta tb).
Proof. intros -> ->. reflexivity. Qed.
#[local] Opaque exec.
Lemma toy_reaches ta tb : new_V2Transport toy_create toy_magic true (Some [5]) toy_ent toy_garbage = Some ta -> new_V2Transport toy_create toy_magic false (Some [6]) toy_ent [] = Some tb -> exists c, toy_run = Some c /\ steps toy_xdh (start ta tb) c /\ quiet c /\ length (got_b c) = 1%nat.
Proof.
  intros Ea Eb. pose proof toy_quiet as Q. assert (R : toy_run = exec toy_xdh toy_ops (start ta tb)) by exact (run_start toy_xdh toy_ops _ _ ta tb Ea Eb). rewrite R in *. destruct (exec toy_xdh toy_ops (start ta tb)) as [c|] eqn:E; [|discriminate Q]. exists c. split; [reflexivity|]. apply andb_prop in Q as [Q _]. apply andb_prop in Q as [Q L].
  split; [exact (exec_steps toy_xdh toy_ops _ _ _ toy_ops_ok (steps_refl _ _) E)|]. split; [exact (quietb_quiet c Q)|]. apply bool_decide_eq_true in L. exact L.
Qed.

Lemma v2_connection_safe_witness : exists c, toy_run = Some c /\ end_works toy_xdh c /\ end_works toy_xdh (flip c).
Proof.
  destruct (v2_connection_safe toy_create toy_xdh (fun k => length k = 1%nat) toy_magic [5] [6] toy_ent toy_ent toy_garbage [] toy_good) as (ta & tb & Ea & Eb & H). destruct (toy_reaches ta tb Ea Eb) as (c & Ec & St & _). exists c. split; [exact Ec|]. exact (H c St).
Defined.

Lemma v2_connection_delivers_witness : exists c, toy_run = Some c /\ got_b c = sent_a c /\ got_a c = sent_b c /\ length (got_b c) = 1%nat.
Proof.
  destruct (v2_connection_delivers toy_create toy_xdh (fun k => length k = 1%nat) toy_magic [5] [6] toy_ent toy_ent toy_garbage [] toy_good) as (ta & tb & Ea & Eb & H). destruct (toy_reaches ta tb Ea Eb) as (c & Ec & St & Q & L). exists c. split; [exact Ec|]. destruct (H c St Q) as (G1 & G2 & _). auto.
Defined.
