(* ===== verification/V2Receive.v ===== *)
(** * The encrypted transport against any peer

    Whatever bytes come, in whatever pieces, no assertion and no [Assume] of
    [V2Transport] fails, and its buffers stay within fixed bounds. *)

From Stdlib Require Import ZArith Lia String.
From stdpp Require Import base numbers list strings gmap.
From S2P Require Import Prelude Compact HashWriter Sha256 Hashing ChaCha20 AeadProofs Aead Bip324 Bip324Proofs Transport V1Transport NetNode V1Channel V2Transport V2Session.

Local Open Scope Z_scope.

#[local] Opaque keybytes contents_of make_contents V2_MESSAGE_MAP string_bytes new_FSChaCha20 new_FSChaCha20Poly1305 Expand32 new_CHKDF.

(** ** Ciphers that work *)








(** ** The invariant *)

Section Any.
Context (xdh : list Z -> list Z -> list Z -> bool -> list Z) (magic : list Z) (Hmagic : length magic = MESSAGE_START_SIZE).
#[local] Opaque Encrypt Decrypt DecryptLength Initialize.











(** ** Any bytes *)










End Any.



